(* ===== verification/_CoqProject ===== *)
-Q . S2P
Prelude.v
Format.v
Padding.v
Gf16.v
LinAlg.v
Gf16Field.v
Fec.v
FecCorrect.v
Wire.v
Compression.v
Ordering.v
BTree.v
Paths.v
TextCodecs.v
Pax.v
SparseMap.v
TarHeader.v
NativeMetadata.v
AclText.v
PrimaryMetadata.v
AuxiliaryMetadata.v
TarMember.v
MemberGraph.v
MetadataWire.v
IndexRoot.v
IndexLookup.v
IndexEntries.v
IndexShard.v
IndexShardCorrect.v
DirectoryHints.v
VolumeHeader.v
Kdf.v
CryptoHeaderFixed.v
Crypto.v
Extensions.v
CryptoHeader.v
Footers.v
Recovery.v
Sidecar.v
BlockRecord.v
KeyWrap.v
RootAuthFooter.v
RootAuth.v
MetadataImage.v
WriterPlan.v
ObjectWriter.v
ObjectReader.v
ObjectRoundtrip.v
Emission.v
CmraWriter.v
WriterRootAuth.v
CmraReader.v
CmraRoundtrip.v
Terminal.v
TerminalSearch.v
TerminalCorrect.v
TerminalSafe.v
OpenedArchive.v
RootAuthVerify.v
RootAuthAgree.v
