(* ===== verification/Prelude.v ===== *)
(** * tzap: a verification development of the tzap archive format

    tzap writes archives that are compressed, encrypted, striped over several
    volumes and protected by erasure codes.  This library models the core of
    the crate tzap-core (paths below are relative to
    src/crates/tzap-core/src/) as executable functions and proves what the
    code relies on.

    ** How the program hangs together

    A writer turns every file into a group of tar entries: local PAX headers,
    auxiliary entries for native metadata, and the primary entry
    ([writer/envelope.rs], [entry_metadata.rs]).  It cuts the tar stream into
    frames and envelopes, compresses ([compression.rs]), pads ([padding.rs])
    and seals each payload into an AEAD object ([crypto.rs]), splits the object
    into blocks, adds parity blocks ([fec.rs]) and writes each block as a
    framed record into one of the volumes ([writer/envelope.rs]).  Index
    objects list shards, files, frames and envelopes ([metadata.rs]).  Every
    volume starts with a volume header and a crypto header, and ends with a
    manifest footer, an optional root-authentication footer, a volume trailer
    and a recovery area: a copy of all these structures (the critical metadata
    image), split into erasure-coded shards and found through locators at the
    end of the file ([wire.rs]).  [root_auth.rs] hashes the archive into one
    root, which a signature covers.

    A reader finds the terminal of a volume from its end ([reader/cmra.rs]),
    opens the index, looks up paths, loads and repairs objects
    ([reader/mod.rs], [reader/validation.rs]), parses the tar stream and
    checks its members before anything is restored ([tar_model/]).

    ** Files

    Foundations:

    - [Prelude]: results with panics as a third outcome, machine integers,
      byte strings and their segments, the layouts that a sequence of writes
      into a zeroed array gives, and the tactics [bind_inv], [run], [no_panic].
    - [Format] ([format.rs]): constants, algorithm identifiers, block kinds,
      the error type.
    - [Wire] ([wire.rs], its last part): readers, writers and checks, the
      classes [Crc32c] and [Sha256] of the third-party functions, and the
      class [WireFormat] that a serialized structure implements.
    - [Ordering], [BTree]: the class [Ord] with Rust's orders, sorting by key,
      binary search; ordered maps.
    - [Padding] ([padding.rs]), [Compression] ([compression.rs]): suffix
      padding, and the frames of metadata objects over a class that states the
      laws of the zstd library.
    - [Gf16], [Gf16Field], [LinAlg] ([fec.rs]): arithmetic in GF(2^16) by
      tables, the field laws, row reduction over that field.
    - [Fec], [FecCorrect] ([fec.rs]): encoder, matrix inversion, repair; their
      correctness.

    Entries of the tar stream ([entry_metadata.rs], [tar_model/]):

    - [Paths] ([metadata.rs]): safe paths and where they resolve.
    - [TextCodecs]: decimal, hexadecimal, base64, percent encoding and
      timestamps.
    - [Pax]: PAX records, both directions.
    - [SparseMap] (also [writer/envelope.rs]): sparse maps, the two readers,
      and the expansion of a sparse file.
    - [TarHeader] ([tar_model/mod.rs], [tar_model/pax.rs],
      [writer/envelope.rs]): ustar headers, both directions.
    - [NativeMetadata], [AclText]: Windows security descriptors, reparse data
      and attribute streams, macOS and POSIX access-control lists.
    - [PrimaryMetadata], [AuxiliaryMetadata]: the declarations of a member, its
      auxiliary records, capture reports and the summary of a group.
    - [TarMember] ([tar_model/pax.rs], [tar_model/restore.rs]): the parser of a
      member group with its cross checks, the search for the end of a group,
      the check of the total extraction size.
    - [MemberGraph] ([tar_model/pax.rs]): the selected members against each
      other.
    Index ([metadata.rs]): [MetadataWire], [IndexRoot], [IndexLookup],
    [IndexEntries], [IndexShard], [IndexShardCorrect], [DirectoryHints]: the
    tables of the index, the checks between them, and the lookups.

    Structures of a volume ([wire.rs]): [VolumeHeader], [CryptoHeaderFixed],
    [Kdf] (also [crypto.rs] and [writer/envelope.rs]), [Extensions] (also
    [raw_stream_profile.rs]), [CryptoHeader], [Footers], [Recovery],
    [MetadataImage], [Sidecar], [BlockRecord], [KeyWrap], [RootAuthFooter]:
    one structure each, with its record, parser, validator and serializer.
    [Crypto] ([crypto.rs]): key schedule, integrity tags, nonces, associated
    data, padded AEAD objects.

    Writer and reader:

    - [WriterPlan], [ObjectWriter], [Emission] ([writer/envelope.rs],
      [writer/mod.rs], [writer/parallel.rs]): options and parity counts,
      objects and their emission into the volumes of a sink.
    - [ObjectReader], [ObjectRoundtrip] ([reader/mod.rs],
      [reader/validation.rs]): block providers, repair and decryption; the
      round trip through damaged volumes.
    - [CmraWriter], [CmraReader], [CmraRoundtrip] ([writer/envelope.rs],
      [reader/cmra.rs]): the recovery area.
    - [Terminal], [TerminalSearch], [TerminalCorrect], [TerminalSafe]
      ([reader/cmra.rs], [reader/sidecar.rs], [reader/volume.rs]): the search
      for the terminal of a volume with the subkeys, the master key, a
      recipient key, or no key.
    - [OpenedArchive] ([reader/mod.rs]): the state of an opened archive and the
      lookup of a path.
    - [RootAuth] ([root_auth.rs]), [WriterRootAuth], [RootAuthVerify],
      [RootAuthAgree] ([writer/envelope.rs], [reader/mod.rs],
      [reader/volume.rs]): digests, the signed footer, its verification.

    ** Conventions

    A Rust [Result] is [result]: [Ok], [Err], or [Panic] for an operation that
    would abort (a slice out of range, a failed [expect]).  An unsigned
    integer of [w] bits is a [Z] with [fits w]; checked, saturating and
    wrapping operations are written out; [usize] has 64 bits.  A [Vec<u8>] or
    slice is a list of bytes.  A definition has the name of the function it
    models, with [::] written as an underscore; a loop or a block that the
    code writes inline has a definition of its own.  A mutated buffer is
    passed and returned.  A [BTreeMap] is a sorted association list or a
    finite map whose entries are visited in order.

    ** What the theorems show

    - Codecs (names ending in [_codec]): a parser accepts exactly the byte
      strings that the serializer makes of valid values, returns that value,
      and never panics on any input.  So each format is canonical: no two
      byte strings parse to the same value, and no two values share a string.
    - Erasure code and objects: any sufficiently large set of surviving shards
      restores the data; an object survives the loss of the tolerated volumes
      and of the tolerated share of its other blocks; the linear algebra and
      the table arithmetic under it are those of the field GF(2^16).
    - Recovery: the recovery area survives damage, the search for the terminal
      returns the same over bytes and over a reader, and never panics.
    - Index: the lookups find exactly what the tables hold; in an accepted
      shard the files, frames and envelopes fit together.
    - Tar entries: the codecs invert each other; the readers that see a payload
      whole and in chunks agree; on any bytes the parser of a member ends
      without a panic, and a member it accepts cannot leave the directory it
      is restored in.
    - Authentication: equal digests mean equal contents, unless two strings
      that were hashed collide; the hypothesis names those strings.  A reader
      that verifies a root has the contents the writer signed.

    ** Bounds and fuel

    Most loops are structural recursions over the list or the counter that the
    code iterates over.  The others have fuel that is proved to be enough:
    [gf16_pow] at most 32 rounds, one per bit of its exponent;
    [compute_parity_loop] the hundred rounds of the code; [chunks],
    [parse_pax_loop], [ea_loop], [scan_loop] and [member_loop] the length of
    their input, of which every round consumes something; [group_end_loop] and
    [extraction_size_loop] likewise over the stream; [lower_bound_loop] the
    number of entries; [merkle_loop] the number of nodes; [cmra_worst_loop]
    the 1793 values of its counter; [decimal_loop] 20 digits,
    [octal_digit_count] 22 digits and [record_len_loop] 21 rounds for numbers
    of 64 bits.  Theorems about positions assume what Rust guarantees of a
    slice: less than 2^63 bytes.

    ** What is not modelled

    The third-party functions CRC-32C, SHA-256, HMAC, HKDF, Argon2id, the AEAD
    ciphers, zstd and Unicode normalisation are parameters with their
    documented behaviour (output lengths; opening inverts sealing;
    decompression inverts compression).  Not modelled, because they are
    operating-system calls: reading and writing files, restoring entries
    ([tar_model/restore.rs] and [tar_model/os_restore.rs] but for the search
    for a group, and the restore plan, which depends on the host), and
    capturing metadata ([linux_metadata.rs], [macos_metadata.rs],
    [windows_metadata.rs], [portable_capture.rs]; of a macOS access-control
    list the check through the system library).  Not modelled, as glue around
    the modelled parts or third-party code: the plugins with their X.509 and
    key-wrapping libraries, the command line, the names of volume files
    ([volume_file.rs]).  Of the archive writer the building of envelopes and
    index tables is left out, of the archive readers the opening of a set of
    volumes, extraction and the streaming reader
    ([non_seekable_reader.rs]). *)

From Stdlib Require Import ZArith Lia Zbitwise.
From stdpp Require Export base tactics numbers list gmap.
From coqutil Require Export Byte Word.LittleEndianList.
#[local] Open Scope Z_scope.

(** ** Rust results, with panics as a third outcome

    [Ok] and [Err] are the two constructors of Rust's [Result]; [Panic] is the
    outcome of an operation that aborts the thread: a slice index out of
    range, a failed [expect]. *)
Inductive result (E A : Type) : Type :=
  | Ok (a : A)
  | Err (e : E)
  | Panic.

Arguments Ok {E A} a.
Arguments Err {E A} e.
Arguments Panic {E A}.

#[export] Instance result_ret {E} : MRet (result E) := fun A a => Ok a.

#[export] Instance result_bind {E} : MBind (result E) := fun A B f m =>
  match m with
  | Ok a => f a
  | Err e => Err e
  | Panic => Panic
  end.

#[export] Instance result_fmap {E} : FMap (result E) := fun A B f m =>
  match m with
  | Ok a => Ok (f a)
  | Err e => Err e
  | Panic => Panic
  end.

(** [if c { return Err(e); }] *)
Definition reject_if {E} (c : bool) (e : E) : result E unit :=
  if c then Err e else Ok tt.

(** [o.ok_or(e)?] *)
Definition ok_or {E A} (o : option A) (e : E) : result E A :=
  match o with
  | Some a => Ok a
  | None => Err e
  end.

(** [r.expect(_)]: an error becomes a panic. *)
Definition expect_ok {E A} (r : result E A) : result E A :=
  match r with
  | Ok a => Ok a
  | _ => Panic
  end.

(** ** Machine integers

    An unsigned integer of [w] bits is a [Z] in [0, 2^w); [usize] is 64 bits
    wide.  A Rust slice or [Vec] never holds more than [isize::MAX] bytes. *)
Definition fits (w z : Z) : Prop := 0 <= z < 2 ^ w.

Definition fitsb (w z : Z) : bool := (0 <=? z) && (z <? 2 ^ w).

Abbreviation u8 := (fits 8).
Abbreviation u16 := (fits 16).
Abbreviation u32 := (fits 32).
Abbreviation u64 := (fits 64).
Abbreviation usize := (fits 64).

Definition u32_max : Z := 2 ^ 32 - 1.
Definition usize_max : Z := 2 ^ 64 - 1.

Definition checked_add (w a b : Z) : option Z :=
  if a + b <? 2 ^ w then Some (a + b) else None.

(** [a.checked_add(b).and_then(|v| v.checked_add(c))] *)
Definition checked_add3 (a b c : Z) : option Z :=
  match checked_add 64 a b with
  | Some v => checked_add 64 v c
  | None => None
  end.

Definition checked_sub (a b : Z) : option Z :=
  if b <=? a then Some (a - b) else None.

Definition checked_mul (w a b : Z) : option Z :=
  if a * b <? 2 ^ w then Some (a * b) else None.

(** [!x] on [w] bits *)
Definition unot (w x : Z) : Z := Z.lxor x (2 ^ w - 1).

(** [u32::try_from(n).ok()] and the like. *)
Definition try_from (w z : Z) : option Z := if fitsb w z then Some z else None.

(** ** Byte strings *)
#[export] Instance byte_eq_dec : EqDecision Byte.byte := Byte.byte_eq_dec.

Abbreviation bytes := (list Byte.byte).

Definition blen (b : bytes) : Z := Z.of_nat (length b).

Definition zeros (n : Z) : bytes := replicate (Z.to_nat n) Byte.x00.

(** The sub-list of [b] from offset [i] to offset [j]. *)
Definition seg (b : bytes) (i j : Z) : bytes :=
  take (Z.to_nat (j - i)) (drop (Z.to_nat i) b).

(** [b.get(i..j)] *)
Definition get_range (b : bytes) (i j : Z) : option bytes :=
  if (0 <=? i) && (i <=? j) && (j <=? blen b) then Some (seg b i j) else None.

(** [&b[i..j]], which panics when the range is not inside the slice. *)
Definition slice {E} (b : bytes) (i j : Z) : result E bytes :=
  match get_range b i j with
  | Some s => Ok s
  | None => Panic
  end.

(** [b[i]], as an unsigned number. *)
Definition byte_at {E} (b : bytes) (i : Z) : result E Z :=
  match (if 0 <=? i then b !! Z.to_nat i else None) with
  | Some x => Ok (byte.unsigned x)
  | None => Panic
  end.

(** [b[off..off + d.len()].copy_from_slice(d)] on an array that is long
    enough. *)
Definition put (b : bytes) (off : Z) (d : bytes) : bytes :=
  take (Z.to_nat off) b ++ d ++ drop (Z.to_nat (off + blen d)) b.

Definition puts (b : bytes) (ws : list (Z * bytes)) : bytes :=
  fold_left (fun acc w => put acc w.1 w.2) ws b.

(** Little-endian encodings: [x.to_le_bytes()] of [n] bytes. *)
Abbreviation le_bytes n z := (le_split n z).

Definition all_zero (b : bytes) : bool := forallb (fun x => byte.unsigned x =? 0) b.

Definition bytes_eqb (a b : bytes) : bool := bool_decide (a = b).

(** ** Lemmas on results *)
Lemma bind_Ok {E A B} (m : result E A) (f : A -> result E B) b :
  m ≫= f = Ok b <-> exists a, m = Ok a /\ f a = Ok b.
Proof.
  destruct m; cbn; split; try congruence; eauto; intros (a' & ? & ?); congruence.
Qed.

Lemma bind_ext {E A B} (m : result E A) (f g : A -> result E B) :
  (forall a, f a = g a) -> m ≫= f = m ≫= g.
Proof. intros H. destruct m; cbn; auto. Qed.

Lemma fmap_Ok {E A B} (m : result E A) (f : A -> B) b :
  f <$> m = Ok b <-> exists a, m = Ok a /\ f a = b.
Proof.
  destruct m; cbn; split; try congruence; try (intros (a' & ? & ?); congruence).
  intros [= <-]; eauto.
Qed.

Lemma reject_if_Ok {E} c (e : E) u : reject_if c e = Ok u <-> c = false.
Proof. destruct c, u; cbn; split; congruence. Qed.

Lemma ok_or_Ok {E A} (o : option A) (e : E) a : ok_or o e = Ok a <-> o = Some a.
Proof. destruct o; cbn; split; congruence. Qed.

Lemma mret_Ok {E A} (a b : A) : (mret a : result E A) = Ok b <-> a = b.
Proof. unfold mret, result_ret. split; congruence. Qed.

Lemma bind_no_panic {E A B} (m : result E A) (f : A -> result E B) :
  m <> Panic -> (forall a, m = Ok a -> f a <> Panic) -> m ≫= f <> Panic.
Proof. destruct m; cbn; auto. Qed.

Lemma fmap_no_panic {E A B} (f : A -> B) (m : result E A) : m <> Panic -> f <$> m <> Panic.
Proof. by destruct m. Qed.

Lemma reject_if_no_panic {E} c (e : E) : reject_if c e <> Panic.
Proof. by destruct c. Qed.

Lemma ok_or_no_panic {E A} (o : option A) (e : E) : ok_or o e <> Panic.
Proof. by destruct o. Qed.

Lemma bind_not_Err {E A B} (m : result E A) (f : A -> result E B) e :
  m <> Err e -> (forall a, m = Ok a -> f a <> Err e) -> m ≫= f <> Err e.
Proof. destruct m; cbn; auto; congruence. Qed.

Lemma reject_if_not_Err {E} c (e e' : E) : e <> e' -> reject_if c e <> Err e'.
Proof. destruct c; cbn; congruence. Qed.

(** ** Lemmas on machine integers *)
Lemma fitsb_fits w z : fitsb w z = true <-> fits w z.
Proof. unfold fitsb, fits. lia. Qed.

#[export] Instance fits_dec w z : Decision (fits w z).
Proof. unfold fits. apply _. Defined.

Lemma try_from_Some w z y : try_from w z = Some y <-> y = z /\ fits w z.
Proof. unfold try_from. rewrite <- fitsb_fits. destruct (fitsb w z); intuition congruence. Qed.

Lemma checked_sub_Some a b c : checked_sub a b = Some c <-> b <= a /\ c = a - b.
Proof. unfold checked_sub. case_match; split; intuition (congruence || lia). Qed.

Lemma checked_add_Some w a b c : checked_add w a b = Some c <-> a + b < 2 ^ w /\ c = a + b.
Proof. unfold checked_add. case_match; split; intuition (congruence || lia). Qed.

(** ** Lemmas on byte strings *)
(** Masking with the complement of the [n] low bits tests for other bits. *)
Lemma land_unot w f x : fits w f -> Z.land f (unot w x) = Z.ldiff f x.
Proof.
  intros [H0 H1]. assert (0 <= w) as Hw by (destruct (Z.le_gt_cases 0 w); [done|rewrite Z.pow_neg_r in H1 by done; lia]).
  apply Z.bits_inj'. intros i Hi. unfold unot. change (2 ^ w - 1) with (Z.pred (2 ^ w)).
  rewrite <- Z.ones_equiv, Z.land_spec, Z.lxor_spec, Z.ldiff_spec, Z.testbit_ones_nonneg by lia.
  case_bool_decide as Hlt || destruct (Z.ltb_spec i w).
  - by rewrite xorb_true_r.
  - assert (Z.testbit f i = false) as ->; [|done].
    rewrite <- (Z.mod_small f (2 ^ w)) by lia. apply Z.mod_pow2_bits_high. lia.
Qed.

Lemma land_unot_low w n f : fits w f -> 0 <= n -> Z.land f (unot w (Z.ones n)) = 0 <-> f < 2 ^ n.
Proof.
  intros Hf Hn. rewrite land_unot by done. destruct Hf as [Hf _].
  rewrite Z.ldiff_ones_r by done. rewrite Z.shiftl_mul_pow2, Z.shiftr_div_pow2 by done.
  assert (0 < 2 ^ n) by lia. split.
  - intros H0. assert (f / 2 ^ n = 0) as Hq by nia. apply Z.div_small_iff in Hq; lia.
  - intros H0. by rewrite Z.div_small by lia.
Qed.

Lemma blen_nonneg b : 0 <= blen b.
Proof. unfold blen. lia. Qed.

Lemma blen_cons x (b : bytes) : blen (x :: b) = 1 + blen b.
Proof. unfold blen. cbn [length]. lia. Qed.

Lemma blen_app a b : blen (a ++ b) = blen a + blen b.
Proof. unfold blen. rewrite length_app. lia. Qed.

Lemma blen_zeros n : 0 <= n -> blen (zeros n) = n.
Proof. intros. unfold blen, zeros. rewrite length_replicate. lia. Qed.

Lemma blen_le n z : blen (le_bytes n z) = Z.of_nat n.
Proof. unfold blen. by rewrite length_le_split. Qed.

Lemma blen_seg b i j : 0 <= i -> i <= j -> j <= blen b -> blen (seg b i j) = j - i.
Proof. unfold blen, seg. intros. rewrite length_take, length_drop. lia. Qed.

Lemma seg_app_l a b i j : 0 <= i -> j <= blen a -> seg (a ++ b) i j = seg a i j.
Proof.
  unfold seg, blen. intros Hi Hj.
  destruct (decide (i <= j)) as [Hle|Hgt].
  - rewrite drop_app_le by lia. rewrite take_app_le; [done|]. rewrite length_drop. lia.
  - replace (Z.to_nat (j - i)) with 0%nat by lia. by rewrite !take_0.
Qed.

Lemma seg_app_r a b i j :
  blen a <= i -> seg (a ++ b) i j = seg b (i - blen a) (j - blen a).
Proof.
  unfold seg, blen. intros Hi.
  rewrite drop_app_ge by lia.
  f_equal; [lia|]. f_equal. lia.
Qed.

Lemma seg_full b : seg b 0 (blen b) = b.
Proof.
  unfold seg, blen. rewrite drop_0. apply take_ge. lia.
Qed.

Lemma seg_split b i j k :
  0 <= i -> i <= j -> j <= k -> seg b i k = seg b i j ++ seg b j k.
Proof.
  unfold seg. intros.
  replace (Z.to_nat (k - i)) with (Z.to_nat (j - i) + Z.to_nat (k - j))%nat by lia.
  rewrite <- take_take_drop, drop_drop. repeat f_equal. lia.
Qed.

(** A segment that holds two strings in a row. *)
Lemma seg_app_iff b i j x y :
  0 <= i -> i + blen x <= j -> j <= blen b ->
  seg b i j = x ++ y <-> seg b i (i + blen x) = x /\ seg b (i + blen x) j = y.
Proof.
  intros Hi Hx Hj. assert (0 <= blen x) by (unfold blen; lia).
  rewrite (seg_split b i (i + blen x) j) by lia.
  assert (length (seg b i (i + blen x)) = length x) as Hl.
  { pose proof (blen_seg b i (i + blen x)) as H'. unfold blen in *. lia. }
  split; [|by intros [-> ->]]. intros H'. by apply app_inj_1 in H'.
Qed.

Lemma seg_seg b i j k l :
  0 <= i -> 0 <= k -> k <= l -> l <= j - i -> j <= blen b ->
  seg (seg b i j) k l = seg b (i + k) (i + l).
Proof.
  unfold seg, blen. intros. rewrite skipn_firstn_comm, take_take, drop_drop.
  f_equal; [lia|]. f_equal. lia.
Qed.

Lemma seg_zeros n i j : 0 <= i -> i <= j -> j <= n -> seg (zeros n) i j = zeros (j - i).
Proof.
  unfold seg, zeros. intros.
  rewrite drop_replicate, take_replicate. f_equal. lia.
Qed.

Lemma get_range_Some b i j s :
  get_range b i j = Some s <-> 0 <= i /\ i <= j /\ j <= blen b /\ s = seg b i j.
Proof.
  unfold get_range. case_match; split; intuition (congruence || lia).
Qed.

Lemma slice_Ok {E} b i j s :
  slice (E:=E) b i j = Ok s <-> 0 <= i /\ i <= j /\ j <= blen b /\ s = seg b i j.
Proof.
  rewrite <- get_range_Some. unfold slice. destruct (get_range b i j); intuition congruence.
Qed.

Lemma slice_in_range {E} b i j :
  0 <= i -> i <= j -> j <= blen b -> slice (E:=E) b i j = Ok (seg b i j).
Proof. intros. by apply slice_Ok. Qed.

Lemma all_zero_iff b : all_zero b = true <-> b = zeros (blen b).
Proof.
  unfold all_zero, zeros, blen. rewrite Nat2Z.id.
  induction b as [|x b IH]; cbn [forallb length replicate]; [done|].
  rewrite andb_true_iff, IH, Z.eqb_eq. split.
  - intros [Hx Hb]. f_equal; [|done]. by apply byte.unsigned_inj.
  - intros [= -> Hb]. done.
Qed.

Lemma bytes_eqb_eq a b : bytes_eqb a b = true <-> a = b.
Proof. apply bool_decide_eq_true. Qed.

(** ** Lemmas on little-endian numbers *)
Lemma le_combine_fits w b : w = 8 * blen b -> fits w (le_combine b).
Proof. intros ->. apply le_combine_bound. Qed.

Lemma le_combine_bytes n z : fits (8 * Z.of_nat n) z -> le_combine (le_bytes n z) = z.
Proof. intros H. rewrite le_combine_split, Z.mul_comm. by apply Z.mod_small. Qed.

(** ** Serialized layouts

    A [to_bytes] method of the code fills a zeroed array by writes at
    increasing offsets.  [covers pos n ws b] says that the bytes of [b] from
    [pos] to [n] are the segments [ws], with zeros between them; [fits_in] says
    that the writes are in order and stay inside the array. *)
Fixpoint covers (pos n : Z) (ws : list (Z * bytes)) (b : bytes) : Prop :=
  match ws with
  | [] => seg b pos n = zeros (n - pos)
  | (off, d) :: ws' =>
      seg b pos off = zeros (off - pos)
      /\ seg b off (off + blen d) = d
      /\ covers (off + blen d) n ws' b
  end.

Fixpoint fits_in (pos n : Z) (ws : list (Z * bytes)) : Prop :=
  match ws with
  | [] => pos <= n
  | (off, d) :: ws' => pos <= off /\ fits_in (off + blen d) n ws'
  end.

Lemma fits_in_le pos n ws : fits_in pos n ws -> pos <= n.
Proof.
  revert pos. induction ws as [|[off d] ws IH]; intros pos; cbn; [lia|].
  intros [H1 H2%IH]. pose proof (blen_nonneg d). lia.
Qed.

Lemma blen_put b off d :
  0 <= off -> off + blen d <= blen b -> blen (put b off d) = blen b.
Proof.
  unfold put, blen. intros. rewrite !length_app, length_take, length_drop. lia.
Qed.

Lemma put_zeros pre n off d :
  blen pre <= off -> off + blen d <= n ->
  put (pre ++ zeros (n - blen pre)) off d =
  (pre ++ zeros (off - blen pre) ++ d) ++ zeros (n - (off + blen d)).
Proof.
  intros H1 H2. pose proof (blen_nonneg d). pose proof (blen_nonneg pre).
  unfold put, zeros.
  rewrite take_app_ge, drop_app_ge by (unfold blen in *; lia).
  rewrite take_replicate, drop_replicate, <- !app_assoc.
  repeat (f_equal; try lia); unfold blen in *; lia.
Qed.

Lemma app_inj_blen (a b c d : bytes) :
  blen a = blen c -> a ++ b = c ++ d <-> a = c /\ b = d.
Proof.
  unfold blen. intros Hl. split; [|intros [-> ->]; done].
  intros H. apply app_inj_1 in H; [done|lia].
Qed.

Lemma seg_prefix_iff b pos pre rest n :
  blen b = n -> 0 <= pos <= n -> blen pre = pos ->
  b = pre ++ rest <-> seg b 0 pos = pre /\ seg b pos n = rest.
Proof.
  intros Hn Hp Hpre.
  rewrite <- (seg_full b) at 1.
  rewrite Hn, (seg_split b 0 pos n) by lia.
  apply app_inj_blen. rewrite blen_seg; lia.
Qed.

Lemma puts_iff_aux pos n ws pre b :
  blen pre = pos -> fits_in pos n ws ->
  puts (pre ++ zeros (n - pos)) ws = b
  <-> blen b = n /\ seg b 0 pos = pre /\ covers pos n ws b.
Proof.
  revert pos pre. induction ws as [|[off d] ws IH]; intros pos pre Hpre Hfit.
  - cbn in *. pose proof (blen_nonneg pre). split.
    + intros <-. rewrite blen_app, blen_zeros by lia. split; [lia|].
      rewrite seg_app_l, seg_app_r by lia. rewrite <- Hpre, seg_full. split; [done|].
      rewrite seg_zeros by lia. f_equal. lia.
    + intros (Hn & H1 & H2). symmetry. apply (seg_prefix_iff _ pos _ _ n); auto; lia.
  - cbn [fits_in covers] in *. destruct Hfit as [Hoff Hfit].
    pose proof (blen_nonneg pre) as Hp0. pose proof (blen_nonneg d) as Hd0.
    pose proof (fits_in_le _ _ _ Hfit) as Hle.
    cbn [puts fold_left fst snd].
    rewrite <- Hpre at 1. rewrite put_zeros by lia.
    change (fold_left _ ws ?x) with (puts x ws).
    rewrite (IH (off + blen d)); [|rewrite !blen_app, blen_zeros; lia|done].
    split; intros (Hn & H1 & H2).
    + rewrite (seg_split b 0 pos), (seg_split b pos off) in H1 by lia.
      rewrite !app_inj_blen in H1 by (rewrite ?blen_seg, ?blen_zeros; lia).
      rewrite Hpre in H1. tauto.
    + destruct H2 as (H2 & H3 & H4). split_and!; auto.
      rewrite (seg_split b 0 pos), (seg_split b pos off) by lia.
      rewrite H1, H2, H3, Hpre. done.
Qed.

(** A layout written into zeros is [b] exactly when [b] has the right length
    and holds every segment. *)
Lemma puts_iff n ws b :
  fits_in 0 n ws ->
  puts (zeros n) ws = b <-> blen b = n /\ covers 0 n ws b.
Proof.
  intros H. pose proof (puts_iff_aux 0 n ws [] b eq_refl H) as P.
  rewrite Z.sub_0_r in P. cbn [app] in P. rewrite P. intuition.
Qed.

(** A trailing checksum covers the bytes in front of it, so it may be computed
    from the finished string. *)
Lemma put_checksum_iff b0 off (f : bytes -> bytes) b :
  0 <= off <= blen b0 ->
  put b0 off (f (seg b0 0 off)) = b <-> put b0 off (f (seg b 0 off)) = b.
Proof.
  intros Hoff.
  assert (forall d, seg (put b0 off d) 0 off = seg b0 0 off) as Hseg.
  { intros d. unfold put. rewrite seg_app_l; unfold blen in *; [|lia|rewrite length_take; lia].
    unfold seg. rewrite !drop_0, take_take. f_equal. lia. }
  split; intros H.
  - rewrite <- H at 1. by rewrite Hseg.
  - rewrite <- H in H at 1. rewrite Hseg in H. done.
Qed.

Lemma puts_app b ws1 ws2 : puts b (ws1 ++ ws2) = puts (puts b ws1) ws2.
Proof. apply fold_left_app. Qed.

(** ** No-panic reasoning

    [no_panic] walks through a chain of binds and closes each step with the
    hints of the [no_panic] database. *)
Create HintDb no_panic.
#[export] Hint Resolve bind_no_panic reject_if_no_panic ok_or_no_panic : no_panic.

Lemma Ok_no_panic {E A} (a : A) : @Ok E A a <> Panic.
Proof. done. Qed.

Lemma Err_no_panic {E A} (e : E) : @Err E A e <> Panic.
Proof. done. Qed.

Lemma slice_no_panic {E} b i j :
  0 <= i -> i <= j -> j <= blen b -> slice (E:=E) b i j <> Panic.
Proof. intros. by rewrite slice_in_range. Qed.

Lemma byte_at_lookup {E} b i (x : Byte.byte) :
  0 <= i -> b !! Z.to_nat i = Some x -> byte_at (E:=E) b i = Ok (byte.unsigned x).
Proof. intros. unfold byte_at. destruct (0 <=? i) eqn:?; [by simplify_option_eq|lia]. Qed.

Lemma byte_at_in_range {E} b i :
  0 <= i < blen b -> exists x, seg b i (i + 1) = [x] /\ byte_at (E:=E) b i = Ok (byte.unsigned x).
Proof.
  intros Hi. destruct (lookup_lt_is_Some_2 b (Z.to_nat i)) as [x Hx].
  { unfold blen in Hi. lia. }
  exists x. split; [|apply byte_at_lookup; lia || done].
  unfold seg. replace (Z.to_nat (i + 1 - i)) with 1%nat by lia.
  by rewrite (drop_S _ _ _ Hx), firstn_cons, take_0.
Qed.

Lemma byte_at_no_panic {E} b i : 0 <= i < blen b -> byte_at (E:=E) b i <> Panic.
Proof. intros H. destruct (byte_at_in_range (E:=E) b i H) as (x & _ & ->). done. Qed.

Lemma byte_at_Ok {E} b i v :
  byte_at (E:=E) b i = Ok v <-> 0 <= i < blen b /\ u8 v /\ seg b i (i + 1) = [byte.of_Z v].
Proof.
  split.
  - intros H.
    assert (0 <= i < blen b) as Hi.
    { unfold byte_at, blen in *. repeat case_match; try done.
      match goal with H : _ !! _ = Some _ |- _ => apply lookup_lt_Some in H end. lia. }
    destruct (byte_at_in_range (E:=E) b i Hi) as (x & Hs & Hx).
    rewrite Hx in H. injection H as <-.
    split_and!; [lia|lia|apply byte.unsigned_range|].
    by rewrite byte.of_Z_unsigned.
  - intros (Hi & Hv & Hs). destruct (byte_at_in_range (E:=E) b i Hi) as (x & Hs' & ->).
    rewrite Hs' in Hs. injection Hs as ->. rewrite byte.unsigned_of_Z.
    unfold byte.wrap. by rewrite Z.mod_small.
Qed.

#[export] Hint Resolve Ok_no_panic Err_no_panic slice_no_panic byte_at_no_panic : no_panic.

(** Decomposes a hypothesis that a chain of binds returned [Ok]. *)
Ltac bind_inv H :=
  repeat first
    [ rewrite bind_Ok in H;
      let a := fresh "r" in let H1 := fresh "Hr" in destruct H as (a & H1 & H);
      try rewrite reject_if_Ok in H1
    | lazymatch type of H with
      | (match ?r with (_, _) => _ end) = _ => is_var r; destruct r
      end
    | progress (cbv beta iota zeta in H) ];
  try rewrite mret_Ok in H.

(** ** Running a chain of binds

    [run] rewrites the head of a chain of binds with the equations below,
    discharging their arithmetic side conditions with [lia]. *)
Lemma bind_ret {E A B} (a : A) (f : A -> result E B) : Ok a ≫= f = f a.
Proof. done. Qed.

Lemma mret_eq {E A} (a : A) : (mret a : result E A) = Ok a.
Proof. done. Qed.

Lemma reject_if_false {E} c (e : E) : c = false -> reject_if c e = Ok tt.
Proof. by intros ->. Qed.

Lemma ok_or_eq {E A} (o : option A) a (e : E) : o = Some a -> ok_or o e = Ok a.
Proof. by intros ->. Qed.

Lemma checked_add_eq w a b : a + b < 2 ^ w -> checked_add w a b = Some (a + b).
Proof. intros. by apply checked_add_Some. Qed.

Lemma checked_sub_eq a b : b <= a -> checked_sub a b = Some (a - b).
Proof. intros. by apply checked_sub_Some. Qed.

Lemma checked_add3_Some a b c x :
  0 <= c -> checked_add3 a b c = Some x <-> a + b + c < 2 ^ 64 /\ x = a + b + c.
Proof.
  intros Hc. unfold checked_add3. destruct (checked_add 64 a b) eqn:E.
  - apply checked_add_Some in E as [? ->]. by rewrite checked_add_Some.
  - split; [done|]. intros [? _]. rewrite checked_add_eq in E by lia. done.
Qed.

Ltac run_head tac t :=
  lazymatch t with
  | mbind ?f (Ok ?a) => rewrite (bind_ret a f)
  | mbind _ ?m => run_head tac m
  | mret ?a => rewrite (mret_eq a)
  | reject_if ?c ?e => rewrite (reject_if_false c e) by tac
  | ok_or (Some ?a) ?e => rewrite (ok_or_eq (Some a) a e eq_refl)
  | ok_or (checked_sub ?a ?b) ?e => rewrite (ok_or_eq _ _ e (checked_sub_eq a b ltac:(tac)))
  | ok_or (checked_add ?w ?a ?b) ?e =>
      rewrite (ok_or_eq _ _ e (checked_add_eq w a b ltac:(tac)))
  | slice ?b ?i ?j => rewrite (slice_in_range b i j) by tac
  | (if ?c then _ else _) =>
      first [replace c with true by tac | replace c with false by tac]
  end.

(** [run_with tac] executes the left-hand side of an equation as far as [tac]
    decides the guards. *)
Ltac run_with tac :=
  repeat (cbv beta iota zeta; lazymatch goal with |- ?l = _ => run_head tac l end).

Ltac run := run_with lia.

(** [cbn] keeps the operations on byte strings folded. *)
#[global] Arguments fits _ _ : simpl never.
#[global] Arguments blen _ : simpl never.
#[global] Arguments zeros _ : simpl never.
#[global] Arguments seg _ _ _ : simpl never.
#[global] Arguments get_range _ _ _ : simpl never.
#[global] Arguments slice {E} _ _ _ : simpl never.
#[global] Arguments byte_at {E} _ _ : simpl never.
#[global] Arguments put _ _ _ : simpl never.
#[global] Arguments puts _ _ : simpl never.

(** Conversion unfolds them last. *)
#[global] Strategy 1000 [puts put seg zeros slice get_range byte_at].
