(* ===== verification/Format.v ===== *)
(** * The format vocabulary of [crates/tzap-core/src/format.rs]

    Constants, algorithm identifiers with their [TryFrom] conversions, block
    kinds and the error type every component returns. *)

From S2P Require Export Prelude.
From stdpp Require Export strings.
#[local] Open Scope Z_scope.

Definition FORMAT_VERSION : Z := 1.
Definition VOLUME_FORMAT_REV_45 : Z := 45.
Definition READER_MAX_SUPPORTED_VOLUME_FORMAT_REV : Z := VOLUME_FORMAT_REV_45.
Definition VOLUME_FORMAT_REV : Z := VOLUME_FORMAT_REV_45.
Definition VOLUME_HEADER_LEN : Z := 128.
Definition CRYPTO_HEADER_FIXED_LEN : Z := 76.
Definition MANIFEST_FOOTER_LEN : Z := 136.
Definition VOLUME_TRAILER_LEN : Z := 128.
Definition ROOT_AUTH_FOOTER_FIXED_LEN : Z := 318.
Definition CRITICAL_METADATA_IMAGE_FIXED_LEN : Z := 364.
Definition SERIALIZED_REGION_HEADER_LEN : Z := 16.
Definition IMAGE_CRC_LEN : Z := 4.
Definition CRITICAL_METADATA_RECOVERY_HEADER_LEN : Z := 116.
Definition CRITICAL_METADATA_RECOVERY_SHARD_HEADER_LEN : Z := 16.
Definition CRITICAL_RECOVERY_LOCATOR_LEN : Z := 128.
Definition LOCATOR_PAIR_LEN : Z := CRITICAL_RECOVERY_LOCATOR_LEN * 2.
Definition READER_MAX_ROOT_AUTH_FOOTER_LEN : Z := 160 * 1024.
Definition READER_MAX_ROOT_AUTH_SIGNER_IDENTITY_LEN : Z := 16 * 1024.
Definition READER_MAX_ROOT_AUTH_AUTHENTICATOR_VALUE_LEN : Z := 128 * 1024.
Definition READER_MAX_KEY_WRAP_TABLE_LEN : Z := 1024 * 1024.
Definition READER_MAX_KEY_WRAP_TABLE_RECIPIENT_RECORDS : Z := 4096.
Definition READER_MAX_CMRA_PARITY_PCT : Z := 100.
Definition BOOTSTRAP_SIDECAR_HEADER_LEN : Z := 128.
Definition BLOCK_RECORD_FRAMING_LEN : Z := 20.
Definition CRYPTO_HEADER_HMAC_LEN : Z := 32.
Definition CRYPTO_EXTENSION_HEADER_LEN : Z := 6.
Definition CRYPTO_EXTENSION_MAX_VALUE_LEN : Z := 256.
Definition MASTER_KEY_LEN : Z := 32.
Definition SUBKEY_LEN : Z := 32.
Definition READER_MAX_ARGON2ID_M_COST_KIB : Z := 4 * 1024 * 1024.
Definition READER_MAX_ARGON2ID_T_COST : Z := 100.
Definition READER_MAX_ARGON2ID_PARALLELISM : Z := 64.
Definition READER_MAX_ARGON2ID_MEMORY_TIME_PRODUCT : Z := 16 * 1024 * 1024.
Definition READER_MAX_CRYPTO_HEADER_LEN : Z := 64 * 1024.
Definition READER_MAX_CHUNK_SIZE : Z := 64 * 1024 * 1024.
Definition READER_MAX_ENVELOPE_TARGET_SIZE : Z := 64 * 1024 * 1024.
Definition READER_MAX_METADATA_OBJECT_SIZE : Z := 512 * 1024 * 1024.
Definition READER_MAX_BLOCK_SIZE : Z := 1024 * 1024.
Definition READER_MAX_STRIPE_WIDTH : Z := 4096.
Definition READER_MAX_FEC_CLASS_SHARDS : Z := 4096.
Definition READER_MAX_REPAIR_TOTAL_SHARDS : Z := 1024.
Definition READER_MAX_INDEX_FEC_CLASS_SHARDS : Z := 4096.
Definition READER_MAX_INDEX_ROOT_FEC_CLASS_SHARDS : Z := 131070.
Definition READER_MAX_PATH_LENGTH : Z := 4096.
Definition ROOT_AUTH_SPEC_ID_V45 : bytes :=
  String.list_byte_of_string "tzap-root-auth-v0.45" ++ zeros 4.
Definition ROOT_AUTH_SPEC_ID : bytes := ROOT_AUTH_SPEC_ID_V45.

Module CompressionAlgo.
Inductive t : Set :=
  | None
  | ZstdFramed.

#[global] Instance t_eq_dec : EqDecision t.
Proof. solve_decision. Defined.

(** The discriminant, [self as u16]. *)
Definition to_Z (a : t) : Z :=
  match a with
  | None => 0
  | ZstdFramed => 1
  end.
End CompressionAlgo.

Module AeadAlgo.
Inductive t : Set :=
  | None
  | AesGcmSiv256
  | XChaCha20Poly1305
  | AesGcm256.

#[global] Instance t_eq_dec : EqDecision t.
Proof. solve_decision. Defined.

(** The discriminant, [self as u16]. *)
Definition to_Z (a : t) : Z :=
  match a with
  | None => 0
  | AesGcmSiv256 => 1
  | XChaCha20Poly1305 => 2
  | AesGcm256 => 3
  end.
End AeadAlgo.

Module FecAlgo.
Inductive t : Set :=
  | None
  | ReedSolomonGF16
  | Wirehair.

#[global] Instance t_eq_dec : EqDecision t.
Proof. solve_decision. Defined.

(** The discriminant, [self as u16]. *)
Definition to_Z (a : t) : Z :=
  match a with
  | None => 0
  | ReedSolomonGF16 => 1
  | Wirehair => 2
  end.
End FecAlgo.

Module KdfAlgo.
Inductive t : Set :=
  | Raw
  | Argon2id
  | None
  | RecipientWrap.

#[global] Instance t_eq_dec : EqDecision t.
Proof. solve_decision. Defined.

(** The discriminant, [self as u16]. *)
Definition to_Z (a : t) : Z :=
  match a with
  | Raw => 0
  | Argon2id => 1
  | None => 2
  | RecipientWrap => 3
  end.
End KdfAlgo.

Module BlockKind.
Inductive t : Set :=
  | PayloadData
  | PayloadParity
  | IndexRootData
  | IndexRootParity
  | IndexShardData
  | IndexShardParity
  | DictionaryData
  | DictionaryParity
  | DirectoryHintData
  | DirectoryHintParity.

#[global] Instance t_eq_dec : EqDecision t.
Proof. solve_decision. Defined.

(** The discriminant, [self as u8]. *)
Definition to_Z (a : t) : Z :=
  match a with
  | PayloadData => 0
  | PayloadParity => 1
  | IndexRootData => 2
  | IndexRootParity => 3
  | IndexShardData => 4
  | IndexShardParity => 5
  | DictionaryData => 6
  | DictionaryParity => 7
  | DirectoryHintData => 8
  | DirectoryHintParity => 9
  end.
End BlockKind.

Inductive FormatError : Set :=
  | UnknownCompressionAlgo (_ : Z)
  | UnknownAeadAlgo (_ : Z)
  | UnknownFecAlgo (_ : Z)
  | UnknownKdfAlgo (_ : Z)
  | UnknownBlockKind (_ : Z)
  | InvalidLength (structure : string) (expected : Z) (actual : Z)
  | BadMagic (structure : string)
  | BadCrc (structure : string)
  | UnsupportedFormatVersion (_ : Z)
  | UnsupportedVolumeFormatRevision (format_version : Z) (volume_format_rev : Z) (reader_max_supported_revision : Z)
  | NonZeroReserved (structure : string)
  | NonCanonicalCryptoHeaderOffset (_ : Z)
  | ZeroStripeWidth
  | VolumeIndexOutOfRange (volume_index : Z) (stripe_width : Z)
  | CryptoHeaderLengthMismatch (fixed : Z) (volume : Z)
  | UnsupportedCompression (algo : CompressionAlgo.t)
  | UnsupportedFec (_ : FecAlgo.t)
  | InvalidProtectionMode (aead_algo : AeadAlgo.t) (kdf_algo : KdfAlgo.t)
  | InvalidBoolean (field : string) (value : Z)
  | VolumeLossToleranceOutOfRange (volume_loss_tolerance : Z) (stripe_width : Z)
  | BitRotBufferPctTooLarge (_ : Z)
  | ZeroDataShardMaximum (field : string)
  | ZeroChunkSize
  | ZeroEnvelopeTargetSize
  | ChunkSizeExceedsEnvelopeTarget (chunk_size : Z) (envelope_target_size : Z)
  | BlockSizeTooSmall (_ : Z)
  | OddBlockSize (_ : Z)
  | ReaderResourceLimitExceeded (field : string) (cap : Z) (actual : Z)
  | InvalidBlockFlags (_ : Z)
  | ParityBlockHasLastDataFlag
  | InvalidAuthoritativeFlag (_ : Z)
  | InvalidManifestFooterLength (_ : Z)
  | IndexRootSizeMismatch
  | EmptyIndexRootExtent
  | UnsupportedBootstrapSidecarVersion (_ : Z)
  | UnknownBootstrapSidecarFlags (_ : Z)
  | EmptyBootstrapSidecarSection
  | NonZeroAbsentBootstrapSidecarSection
  | NonCanonicalBootstrapSidecarLayout
  | TruncatedExtensionHeader
  | TruncatedExtensionPayload
  | ExtensionPayloadTooLarge (_ : Z)
  | MalformedExtensionTerminator
  | MissingExtensionTerminator
  | BytesAfterExtensionTerminator
  | CryptoHeaderTooShort (min : Z) (actual : Z)
  | KdfAlgoTagMismatch (expected : Z) (actual : Z)
  | TruncatedKdfParams
  | InvalidKdfParams (_ : string)
  | KeyMaterialMismatch
  | InvalidRawMasterKeyLength
  | Argon2idFailure
  | HkdfExpandFailure
  | HmacMismatch (structure : string)
  | IntegrityDigestMismatch (structure : string)
  | ForbiddenExtensionTag (_ : Z)
  | UnknownCriticalExtension (_ : Z)
  | DuplicateKnownExtension (_ : Z)
  | MalformedKnownExtension (_ : Z)
  | EmptyPaddedPlaintext
  | InvalidSuffixPadding
  | NonZeroPaddingBytes
  | PaddingOverflow
  | AeadFailure
  | DomainTooLong
  | InvalidNonceLength (algo : AeadAlgo.t) (expected : Z) (actual : Z)
  | InvalidAeadKeyLength
  | ZstdCompressionFailure
  | EmptyZstdFrame
  | NotStandardZstdFrame
  | InvalidZstdFrame
  | TrailingBytesAfterZstdFrame
  | ZstdDecompressionFailure
  | ZstdDecompressedSizeMismatch (expected : Z) (actual : Z)
  | FecZeroDataShards
  | FecTooManyShards (_ : Z)
  | FecOddShardSize
  | FecInconsistentShardSize
  | FecTooFewAvailableShards
  | FecSingularMatrix
  | InvalidMetadata (structure : string) (reason : string)
  | MetadataArithmeticOverflow (structure : string)
  | HashPrefixCollisionRunExceeded
  | UnsafeArchivePath
  | UnsafeOverwrite
  | FilesystemExtractionFailed (_ : string)
  | WriterUnsupported (_ : string)
  | WriterInvariant (_ : string)
  | ReaderUnsupported (_ : string)
  | InvalidArchive (_ : string).

#[export] Instance FormatError_eq_dec : EqDecision FormatError.
Proof. solve_decision. Defined.

Abbreviation fresult := (result FormatError).

Definition CompressionAlgo_try_from (value : Z) : fresult CompressionAlgo.t :=
  match value with
  | 0 => Ok CompressionAlgo.None
  | 1 => Ok CompressionAlgo.ZstdFramed
  | other => Err (UnknownCompressionAlgo other)
  end.

Definition AeadAlgo_try_from (value : Z) : fresult AeadAlgo.t :=
  match value with
  | 0 => Ok AeadAlgo.None
  | 1 => Ok AeadAlgo.AesGcmSiv256
  | 2 => Ok AeadAlgo.XChaCha20Poly1305
  | 3 => Ok AeadAlgo.AesGcm256
  | other => Err (UnknownAeadAlgo other)
  end.

Definition FecAlgo_try_from (value : Z) : fresult FecAlgo.t :=
  match value with
  | 0 => Ok FecAlgo.None
  | 1 => Ok FecAlgo.ReedSolomonGF16
  | 2 => Ok FecAlgo.Wirehair
  | other => Err (UnknownFecAlgo other)
  end.

Definition KdfAlgo_try_from (value : Z) : fresult KdfAlgo.t :=
  match value with
  | 0 => Ok KdfAlgo.Raw
  | 1 => Ok KdfAlgo.Argon2id
  | 2 => Ok KdfAlgo.None
  | 3 => Ok KdfAlgo.RecipientWrap
  | other => Err (UnknownKdfAlgo other)
  end.

Definition BlockKind_try_from (value : Z) : fresult BlockKind.t :=
  match value with
  | 0 => Ok BlockKind.PayloadData
  | 1 => Ok BlockKind.PayloadParity
  | 2 => Ok BlockKind.IndexRootData
  | 3 => Ok BlockKind.IndexRootParity
  | 4 => Ok BlockKind.IndexShardData
  | 5 => Ok BlockKind.IndexShardParity
  | 6 => Ok BlockKind.DictionaryData
  | 7 => Ok BlockKind.DictionaryParity
  | 8 => Ok BlockKind.DirectoryHintData
  | 9 => Ok BlockKind.DirectoryHintParity
  | other => Err (UnknownBlockKind other)
  end.

Definition AeadAlgo_nonce_len (a : AeadAlgo.t) : Z :=
  match a with
  | AeadAlgo.None => 0
  | AeadAlgo.AesGcmSiv256 | AeadAlgo.AesGcm256 => 12
  | AeadAlgo.XChaCha20Poly1305 => 24
  end.

Definition AeadAlgo_tag_len (a : AeadAlgo.t) : Z :=
  match a with
  | AeadAlgo.None => 0
  | AeadAlgo.AesGcmSiv256 | AeadAlgo.XChaCha20Poly1305 | AeadAlgo.AesGcm256 => 16
  end.

Definition AeadAlgo_is_encrypted (a : AeadAlgo.t) : bool :=
  match a with AeadAlgo.None => false | _ => true end.

Definition BlockKind_is_data (k : BlockKind.t) : bool :=
  match k with
  | BlockKind.PayloadData | BlockKind.IndexRootData | BlockKind.IndexShardData
  | BlockKind.DictionaryData | BlockKind.DirectoryHintData => true
  | _ => false
  end.

Definition BlockKind_is_parity (k : BlockKind.t) : bool := negb (BlockKind_is_data k).

Definition root_auth_spec_id_for_revision (format_version volume_format_rev : Z)
    : fresult bytes :=
  if negb (format_version =? FORMAT_VERSION)
  then Err (UnsupportedFormatVersion format_version)
  else if volume_format_rev =? VOLUME_FORMAT_REV_45
  then Ok ROOT_AUTH_SPEC_ID_V45
  else Err (UnsupportedVolumeFormatRevision format_version volume_format_rev
              READER_MAX_SUPPORTED_VOLUME_FORMAT_REV).

(** [VolumeFormatRevision] has the single revision 45. *)
Inductive VolumeFormatRevision : Set := V45.

Definition VolumeFormatRevision_from_u16 (value : Z) : option VolumeFormatRevision :=
  if value =? VOLUME_FORMAT_REV_45 then Some V45 else None.

(** Unfolds the numeric constants, so that [lia] sees their values. *)
Ltac unfold_consts :=
  unfold FORMAT_VERSION, VOLUME_FORMAT_REV_45, READER_MAX_SUPPORTED_VOLUME_FORMAT_REV, VOLUME_FORMAT_REV, VOLUME_HEADER_LEN, CRYPTO_HEADER_FIXED_LEN, MANIFEST_FOOTER_LEN, VOLUME_TRAILER_LEN, ROOT_AUTH_FOOTER_FIXED_LEN, CRITICAL_METADATA_IMAGE_FIXED_LEN, SERIALIZED_REGION_HEADER_LEN, IMAGE_CRC_LEN, CRITICAL_METADATA_RECOVERY_HEADER_LEN, CRITICAL_METADATA_RECOVERY_SHARD_HEADER_LEN, CRITICAL_RECOVERY_LOCATOR_LEN, LOCATOR_PAIR_LEN, READER_MAX_ROOT_AUTH_FOOTER_LEN, READER_MAX_ROOT_AUTH_SIGNER_IDENTITY_LEN, READER_MAX_ROOT_AUTH_AUTHENTICATOR_VALUE_LEN, READER_MAX_KEY_WRAP_TABLE_LEN, READER_MAX_KEY_WRAP_TABLE_RECIPIENT_RECORDS, READER_MAX_CMRA_PARITY_PCT, BOOTSTRAP_SIDECAR_HEADER_LEN, BLOCK_RECORD_FRAMING_LEN, CRYPTO_HEADER_HMAC_LEN, CRYPTO_EXTENSION_HEADER_LEN, CRYPTO_EXTENSION_MAX_VALUE_LEN, MASTER_KEY_LEN, SUBKEY_LEN, READER_MAX_ARGON2ID_M_COST_KIB, READER_MAX_ARGON2ID_T_COST, READER_MAX_ARGON2ID_PARALLELISM, READER_MAX_ARGON2ID_MEMORY_TIME_PRODUCT, READER_MAX_CRYPTO_HEADER_LEN, READER_MAX_CHUNK_SIZE, READER_MAX_ENVELOPE_TARGET_SIZE, READER_MAX_METADATA_OBJECT_SIZE, READER_MAX_BLOCK_SIZE, READER_MAX_STRIPE_WIDTH, READER_MAX_FEC_CLASS_SHARDS, READER_MAX_REPAIR_TOTAL_SHARDS, READER_MAX_INDEX_FEC_CLASS_SHARDS, READER_MAX_INDEX_ROOT_FEC_CLASS_SHARDS, READER_MAX_PATH_LENGTH, u32_max, usize_max in *.

(** ** The identifiers are codes: [try_from] inverts [to_Z]. *)
Lemma CompressionAlgo_try_from_Ok value a : CompressionAlgo_try_from value = Ok a <-> value = CompressionAlgo.to_Z a.
Proof.
  split; [|intros ->; by destruct a].
  unfold CompressionAlgo_try_from. repeat case_match; intros [= <-]; done.
Qed.

Lemma CompressionAlgo_try_from_no_panic value : CompressionAlgo_try_from value <> Panic.
Proof. unfold CompressionAlgo_try_from. by repeat case_match. Qed.

Lemma CompressionAlgo_to_Z_fits a : fits 16 (CompressionAlgo.to_Z a).
Proof. destruct a; unfold fits; cbn; lia. Qed.

Lemma AeadAlgo_try_from_Ok value a : AeadAlgo_try_from value = Ok a <-> value = AeadAlgo.to_Z a.
Proof.
  split; [|intros ->; by destruct a].
  unfold AeadAlgo_try_from. repeat case_match; intros [= <-]; done.
Qed.

Lemma AeadAlgo_try_from_no_panic value : AeadAlgo_try_from value <> Panic.
Proof. unfold AeadAlgo_try_from. by repeat case_match. Qed.

Lemma AeadAlgo_to_Z_fits a : fits 16 (AeadAlgo.to_Z a).
Proof. destruct a; unfold fits; cbn; lia. Qed.

Lemma FecAlgo_try_from_Ok value a : FecAlgo_try_from value = Ok a <-> value = FecAlgo.to_Z a.
Proof.
  split; [|intros ->; by destruct a].
  unfold FecAlgo_try_from. repeat case_match; intros [= <-]; done.
Qed.

Lemma FecAlgo_try_from_no_panic value : FecAlgo_try_from value <> Panic.
Proof. unfold FecAlgo_try_from. by repeat case_match. Qed.

Lemma FecAlgo_to_Z_fits a : fits 16 (FecAlgo.to_Z a).
Proof. destruct a; unfold fits; cbn; lia. Qed.

Lemma KdfAlgo_try_from_Ok value a : KdfAlgo_try_from value = Ok a <-> value = KdfAlgo.to_Z a.
Proof.
  split; [|intros ->; by destruct a].
  unfold KdfAlgo_try_from. repeat case_match; intros [= <-]; done.
Qed.

Lemma KdfAlgo_try_from_no_panic value : KdfAlgo_try_from value <> Panic.
Proof. unfold KdfAlgo_try_from. by repeat case_match. Qed.

Lemma KdfAlgo_to_Z_fits a : fits 16 (KdfAlgo.to_Z a).
Proof. destruct a; unfold fits; cbn; lia. Qed.

Lemma BlockKind_try_from_Ok value a : BlockKind_try_from value = Ok a <-> value = BlockKind.to_Z a.
Proof.
  split; [|intros ->; by destruct a].
  unfold BlockKind_try_from. repeat case_match; intros [= <-]; done.
Qed.

Lemma BlockKind_try_from_no_panic value : BlockKind_try_from value <> Panic.
Proof. unfold BlockKind_try_from. by repeat case_match. Qed.

Lemma BlockKind_to_Z_fits a : fits 8 (BlockKind.to_Z a).
Proof. destruct a; unfold fits; cbn; lia. Qed.

