(* ===== verification/Padding.v ===== *)
(** * Suffix padding, [crates/tzap-core/src/padding.rs]

    An encrypted object is padded at its end so that ciphertext and tag fill
    whole blocks.  The last byte says how many bytes were added: a byte
    [1..254], or [0xff] after a little-endian [u32]. *)

From S2P Require Import Prelude Format.
#[local] Open Scope Z_scope.

(** [Vec::with_capacity], which panics above [isize::MAX] bytes. *)
Definition with_capacity (n : Z) : fresult unit :=
  if n <? 2 ^ 63 then Ok tt else Panic.

Definition round_up_to_block (value block_size : Z) : fresult Z :=
  reject_if (block_size =? 0) PaddingOverflow;;
  let remainder := value `mod` block_size in
  if remainder =? 0
  then mret (value `max` block_size)
  else ok_or (checked_add 64 value (block_size - remainder)) PaddingOverflow.

(** Returns the vector after the call. *)
Definition append_suffix_padding (plaintext : bytes) (pad_len : Z) : fresult bytes :=
  reject_if (pad_len =? 0) InvalidSuffixPadding;;
  if pad_len <=? 254
  then mret (plaintext ++ zeros (pad_len - 1) ++ [byte.of_Z pad_len])
  else
    reject_if (u32_max <? pad_len) PaddingOverflow;;
    mret (plaintext ++ zeros (pad_len - 5) ++ le_bytes 4 pad_len ++ [byte.of_Z 255]).

Definition suffix_pad_for_aead (payload : bytes) (tag_len block_size : Z) : fresult bytes :=
  total_before_padding ← ok_or (checked_add 64 (blen payload) tag_len) PaddingOverflow;
  envelope_total ← round_up_to_block total_before_padding block_size;
  pad_len ← ok_or (checked_sub envelope_total total_before_padding) PaddingOverflow;
  '(envelope_total, pad_len) ←
    (if pad_len =? 0
     then
       envelope_total ← ok_or (checked_add 64 envelope_total block_size) PaddingOverflow;
       mret (envelope_total, block_size)
     else mret (envelope_total, pad_len));
  plaintext_len ← ok_or (checked_sub envelope_total tag_len) PaddingOverflow;
  with_capacity plaintext_len;;
  append_suffix_padding payload pad_len.

Definition suffix_padded_payload_len (plaintext : bytes) : fresult Z :=
  let n := blen plaintext in
  reject_if (n =? 0) EmptyPaddedPlaintext;;
  final_byte ← byte_at plaintext (n - 1);
  '(marker_size, pad_len) ←
    (if final_byte <? 255
     then mret (1, final_byte)
     else
       reject_if (n <? 5) InvalidSuffixPadding;;
       raw ← slice plaintext (n - 5) (n - 1);
       let pad_len := le_combine raw in
       reject_if (pad_len <? 255) InvalidSuffixPadding;;
       mret (5, pad_len));
  reject_if ((pad_len <? marker_size) || (n <? pad_len)) InvalidSuffixPadding;;
  payload_len ← ok_or (checked_sub n pad_len) InvalidSuffixPadding;
  let zero_padding_end := n - marker_size in
  padding ← slice plaintext payload_len zero_padding_end;
  reject_if (negb (all_zero padding)) NonZeroPaddingBytes;;
  mret payload_len.

Definition depad_suffix_padding (plaintext : bytes) : fresult bytes :=
  payload_len ← suffix_padded_payload_len plaintext;
  slice plaintext 0 payload_len.

(** Returns the vector after the call; [Vec::truncate] keeps a prefix. *)
Definition truncate_suffix_padding (plaintext : bytes) : fresult bytes :=
  payload_len ← suffix_padded_payload_len plaintext;
  mret (take (Z.to_nat payload_len) plaintext).

(** ** Lemmas *)
(** The bytes appended for [pad_len]. *)
Definition suffix (pad_len : Z) : bytes :=
  if pad_len <=? 254
  then zeros (pad_len - 1) ++ [byte.of_Z pad_len]
  else zeros (pad_len - 5) ++ le_bytes 4 pad_len ++ [byte.of_Z 255].

(** The lengths a suffix can encode. *)
Definition pad_ok (pad_len : Z) : Prop := 1 <= pad_len <= u32_max.

Lemma append_suffix_padding_Ok x k p :
  append_suffix_padding x k = Ok p <-> k <> 0 /\ k <= u32_max /\ p = x ++ suffix k.
Proof.
  unfold append_suffix_padding, suffix, u32_max.
  destruct (k =? 0) eqn:E0; cbn; [split; intuition (congruence || lia)|].
  destruct (k <=? 254) eqn:E1.
  - rewrite mret_Ok. split; [intros <-|intros (_ & _ & ->)]; intuition lia.
  - destruct (_ <? k) eqn:E2; cbn; [split; intuition (congruence || lia)|].
    unfold mret, result_ret. split; [intros [= <-]|intros (_ & _ & ->); done].
    intuition lia.
Qed.

Lemma blen_suffix k : pad_ok k -> blen (suffix k) = k.
Proof.
  unfold pad_ok, suffix. intros Hk.
  destruct (k <=? 254) eqn:E; rewrite !blen_app, ?blen_le, blen_zeros, blen_cons by lia;
    change (blen []) with 0; lia.
Qed.

Lemma seg_app_r0 (a b : bytes) i j :
  i = blen a -> j = blen a + blen b -> seg (a ++ b) i j = b.
Proof.
  intros -> ->. rewrite seg_app_r by lia.
  replace (blen a - blen a) with 0 by lia.
  replace (blen a + blen b - blen a) with (blen b) by lia. apply seg_full.
Qed.

Lemma seg_mid (a b c : bytes) i j :
  i = blen a -> j = blen a + blen b -> seg (a ++ b ++ c) i j = b.
Proof.
  intros -> ->. rewrite app_assoc, seg_app_l by (rewrite ?blen_app; pose proof (blen_nonneg a); lia).
  by apply seg_app_r0.
Qed.

Lemma byte_at_last {E} (a : bytes) x i :
  i = blen a -> byte_at (E:=E) (a ++ [x]) i = Ok (byte.unsigned x).
Proof.
  intros ->. apply byte_at_lookup; [apply blen_nonneg|].
  rewrite lookup_app_r; unfold blen; [|lia]. by rewrite Nat2Z.id, Nat.sub_diag.
Qed.

Lemma all_zero_zeros n : all_zero (zeros n) = true.
Proof.
  unfold all_zero, zeros. induction (Z.to_nat n) as [|m IH]; [done|]. cbn [replicate forallb].
  by rewrite IH.
Qed.

(** The list lengths that occur in a padded string. *)
Ltac blens := rewrite ?blen_app, ?blen_zeros, ?blen_le, ?blen_cons by lia; change (blen []) with 0.

Lemma payload_len_short x k :
  1 <= k <= 254 -> suffix_padded_payload_len (x ++ suffix k) = Ok (blen x).
Proof.
  intros Hk. pose proof (blen_nonneg x) as Hx.
  unfold suffix_padded_payload_len, suffix. replace (k <=? 254) with true by lia.
  assert (blen (x ++ zeros (k - 1) ++ [byte.of_Z k]) = blen x + k) as -> by (blens; lia).
  run. rewrite app_assoc, byte_at_last by (blens; lia).
  rewrite byte.unsigned_of_Z. unfold byte.wrap. rewrite Z.mod_small by lia.
  run_with ltac:(blens; lia).
  rewrite <- app_assoc, seg_mid by (blens; lia).
  rewrite all_zero_zeros. run. f_equal. lia.
Qed.

Lemma payload_len_wide x k :
  255 <= k <= u32_max -> suffix_padded_payload_len (x ++ suffix k) = Ok (blen x).
Proof.
  unfold u32_max. intros Hk. pose proof (blen_nonneg x) as Hx.
  unfold suffix_padded_payload_len, suffix. replace (k <=? 254) with false by lia.
  assert (blen (x ++ zeros (k - 5) ++ le_bytes 4 k ++ [byte.of_Z 255]) = blen x + k) as ->
    by (blens; lia).
  run. rewrite !app_assoc, byte_at_last by (blens; lia). run.
  change (byte.unsigned (byte.of_Z 255) <? 255) with false.
  run_with ltac:(blens; lia).
  rewrite <- (app_assoc _ (le_bytes 4 k)), seg_mid by (blens; lia).
  rewrite le_combine_split, Z.mod_small by (cbn; lia).
  run_with ltac:(blens; lia).
  rewrite <- !app_assoc, seg_mid by (blens; lia).
  rewrite all_zero_zeros. run. f_equal. lia.
Qed.

Lemma payload_len_suffix x k :
  pad_ok k -> suffix_padded_payload_len (x ++ suffix k) = Ok (blen x).
Proof.
  unfold pad_ok. intros Hk.
  destruct (decide (k <= 254)); [apply payload_len_short|apply payload_len_wide]; lia.
Qed.

Lemma seg_suffix_split (p : bytes) m k d :
  0 <= m -> k = blen d -> blen p = m + k -> seg p m (blen p) = d -> p = seg p 0 m ++ d.
Proof.
  intros Hm Hk Hn Hd. pose proof (blen_nonneg d).
  rewrite <- (seg_full p) at 1. rewrite (seg_split p 0 m) by lia. by rewrite Hd.
Qed.

(** What [suffix_padded_payload_len] accepts ends in a suffix. *)
Lemma payload_len_Ok_suffix p m :
  suffix_padded_payload_len p = Ok m -> exists k, pad_ok k /\ m = blen p - k /\ 0 <= m /\
    p = seg p 0 m ++ suffix k.
Proof.
  unfold suffix_padded_payload_len. pose proof (blen_nonneg p) as Hp. intros H.
  bind_inv H. subst m. rename z into marker, z0 into k.
  rewrite ok_or_Ok, checked_sub_Some in Hr3. rewrite byte_at_Ok in Hr0.
  destruct Hr3 as [Hkn ->]. destruct Hr0 as (Hn & Hb & Hlast).
  rewrite negb_false_iff, all_zero_iff in Hr5. rewrite slice_Ok in Hr4.
  destruct Hr4 as (? & ? & ? & ->). rewrite orb_false_iff in Hr2.
  rewrite blen_seg in Hr5 by lia.
  replace (blen p - 1 + 1) with (blen p) in Hlast by lia.
  exists k. case_match eqn:Ef.
  - rewrite mret_Ok in Hr1. injection Hr1 as <- <-.
    unfold pad_ok, u32_max. split_and!; [lia|lia|lia|lia|].
    apply (seg_suffix_split p _ r0); [lia|rewrite blen_suffix; [lia|unfold pad_ok, u32_max; lia]|lia|].
    unfold suffix. replace (r0 <=? 254) with true by lia.
    rewrite (seg_split p _ (blen p - 1)) by lia. rewrite Hr5, Hlast. do 2 f_equal. lia.
  - bind_inv Hr1. injection Hr1 as <- <-.
    match goal with H : slice _ _ _ = Ok _ |- _ => rewrite slice_Ok in H; destruct H as (_ & _ & _ & ->) end.
    set (raw := seg p (blen p - 5) (blen p - 1)) in *.
    pose proof (le_combine_bound raw) as Hk.
    assert (blen raw = 4) as Hraw by (unfold raw; rewrite blen_seg; lia).
    replace (8 * Z.of_nat (length raw)) with 32 in Hk by (unfold blen in Hraw; lia).
    assert (pad_ok (le_combine raw)) as Hok by (unfold pad_ok, u32_max; lia).
    split_and!; [done|lia|lia|].
    apply (seg_suffix_split p _ (le_combine raw)); [lia|by rewrite blen_suffix|lia|].
    unfold suffix. replace (le_combine raw <=? 254) with false by lia.
    rewrite (seg_split p _ (blen p - 5)), (seg_split p (blen p - 5) (blen p - 1)) by lia.
    rewrite Hr5. fold raw. rewrite split_le_combine' by (unfold blen in Hraw; lia).
    unfold u8, fits in Hb. replace r0 with 255 in Hlast by lia. rewrite Hlast.
    f_equal. f_equal. lia.
Qed.

(** ** Properties *)

(** [depad_suffix_padding] inverts [append_suffix_padding] and accepts
    nothing else: it returns [payload] exactly on the strings that appending a
    suffix to [payload] produces.  The encoding of a padding is unique. *)
Theorem depad_inverts_append p payload :
  depad_suffix_padding p = Ok payload
  <-> exists k, usize k /\ append_suffix_padding payload k = Ok p.
Proof.
  unfold depad_suffix_padding. setoid_rewrite append_suffix_padding_Ok. split.
  - intros H. bind_inv H. rewrite slice_Ok in H. destruct H as (_ & _ & _ & ->).
    apply payload_len_Ok_suffix in Hr as (k & Hk & -> & Hm & Heq).
    exists k. unfold pad_ok, fits, u32_max in *. split_and!; [lia|lia|lia|lia|done].
  - intros (k & Hu & H0 & Hk & ->). unfold fits in Hu.
    rewrite payload_len_suffix by (unfold pad_ok; lia).
    pose proof (blen_nonneg payload). pose proof (blen_nonneg (suffix k)).
    rewrite bind_ret, slice_in_range by (rewrite ?blen_app; lia).
    rewrite seg_app_l by lia. by rewrite seg_full.
Qed.

(** The padding added to [total] bytes: one to [bs] bytes, up to the next
    block boundary. *)
Definition pad_len_for (total bs : Z) : Z := bs - total `mod` bs.

Lemma pad_len_for_bounds total bs : 0 < bs -> 1 <= pad_len_for total bs <= bs.
Proof. intros. unfold pad_len_for. pose proof (Z.mod_pos_bound total bs). lia. Qed.

Lemma pad_len_for_aligned total bs : 0 < bs -> (total + pad_len_for total bs) `mod` bs = 0.
Proof.
  intros. unfold pad_len_for.
  rewrite (Z.div_mod total bs) at 1 by lia.
  replace (bs * (total `div` bs) + total `mod` bs + (bs - total `mod` bs))
    with ((total `div` bs + 1) * bs) by lia.
  apply Z.mod_mul. lia.
Qed.

Lemma suffix_pad_eq payload tag bs :
  0 <= tag -> 0 < bs -> blen payload + tag + bs < 2 ^ 63 ->
  suffix_pad_for_aead payload tag bs =
  append_suffix_padding payload (pad_len_for (blen payload + tag) bs).
Proof.
  intros Ht Hb Hfit. pose proof (blen_nonneg payload) as Hp.
  pose proof (Z.mod_pos_bound (blen payload + tag) bs Hb) as Hm.
  assert (2 ^ 64 = 2 * 2 ^ 63) as H64 by reflexivity.
  unfold suffix_pad_for_aead, round_up_to_block, pad_len_for, with_capacity.
  destruct (decide ((blen payload + tag) `mod` bs = 0)) as [E|E].
  - rewrite !E. destruct (decide (blen payload + tag = 0)) as [E0|E0].
    + run. f_equal. lia.
    + assert (bs <= blen payload + tag)
        by (apply Z.nlt_ge; intros ?; rewrite Z.mod_small in E; lia).
      run. f_equal. lia.
  - run. f_equal. lia.
Qed.

Lemma suffix_pad_spec payload tag_len block_size :
  usize tag_len -> 1 <= block_size <= u32_max ->
  blen payload + tag_len + block_size < 2 ^ 63 ->
  exists padded,
    suffix_pad_for_aead payload tag_len block_size = Ok padded
    /\ depad_suffix_padding padded = Ok payload
    /\ truncate_suffix_padding padded = Ok payload
    /\ (blen padded + tag_len) `mod` block_size = 0
    /\ blen payload < blen padded <= blen payload + block_size.
Proof.
  intros [Ht _] Hb Hfit. set (k := pad_len_for (blen payload + tag_len) block_size).
  assert (1 <= k <= block_size) as Hk by (apply pad_len_for_bounds; lia).
  assert (pad_ok k) as Hok by (unfold pad_ok; lia).
  exists (payload ++ suffix k). rewrite suffix_pad_eq by lia. fold k.
  rewrite blen_app, blen_suffix by done. split_and!; try lia.
  - apply append_suffix_padding_Ok. unfold pad_ok in Hok. intuition lia.
  - unfold depad_suffix_padding. rewrite payload_len_suffix by done.
    run_with ltac:(rewrite ?blen_app, ?blen_suffix by done; pose proof (blen_nonneg payload); lia).
    rewrite seg_app_l by lia. by rewrite seg_full.
  - unfold truncate_suffix_padding. rewrite payload_len_suffix by done. run.
    f_equal. unfold blen. rewrite Nat2Z.id. apply take_app_length.
  - replace (blen payload + k + tag_len) with (blen payload + tag_len + k) by lia.
    apply pad_len_for_aligned. lia.
Qed.

(** for a block size up to [u32::MAX] and a payload that fits in memory,
    [suffix_pad_for_aead] succeeds, the padded plaintext with its tag fills
    whole blocks, between one byte and one block is added, and both
    [depad_suffix_padding] and [truncate_suffix_padding] give the payload
    back. *)
Theorem suffix_pad_for_aead_roundtrip payload tag_len block_size :
  usize tag_len -> 1 <= block_size <= u32_max ->
  blen payload + tag_len + block_size < 2 ^ 63 ->
  exists padded,
    suffix_pad_for_aead payload tag_len block_size = Ok padded
    /\ depad_suffix_padding padded = Ok payload
    /\ truncate_suffix_padding padded = Ok payload
    /\ (blen padded + tag_len) `mod` block_size = 0
    /\ blen payload < blen padded <= blen payload + block_size.
Proof. apply suffix_pad_spec. Qed.

Lemma suffix_pad_for_aead_roundtrip_witness :
  exists padded, suffix_pad_for_aead [Byte.x68; Byte.xff] 16 4096 = Ok padded
    /\ blen padded = 4080.
Proof.
  destruct (suffix_pad_for_aead_roundtrip [Byte.x68; Byte.xff] 16 4096) as (p & H & _ & _ & Hm & Hl).
  - split; reflexivity || discriminate.
  - split; discriminate.
  - reflexivity.
  - exists p. split; [exact H|]. change (blen [Byte.x68; Byte.xff]) with 2 in Hl.
    apply Z.mod_divide in Hm as [q Hq]; lia.
Defined.

(** on any input at all, the depadding functions return a value or an
    error: no slice index is out of range and nothing underflows. *)
Theorem depad_no_panic p :
  depad_suffix_padding p <> Panic /\ truncate_suffix_padding p <> Panic.
Proof.
  assert (suffix_padded_payload_len p <> Panic) as Hlen.
  { unfold suffix_padded_payload_len. pose proof (blen_nonneg p).
    apply bind_no_panic; [auto with no_panic|]. intros _ Hn%reject_if_Ok.
    apply bind_no_panic; [apply byte_at_no_panic; lia|]. intros b Hb.
    apply byte_at_Ok in Hb as (_ & Hb & _). unfold fits in Hb.
    apply bind_no_panic.
    - case_match; [done|]. apply bind_no_panic; [auto with no_panic|]. intros _ H5%reject_if_Ok.
      apply bind_no_panic; [apply slice_no_panic; lia|]. intros raw _.
      apply bind_no_panic; [auto with no_panic|]. done.
    - intros [marker k] Hmk. apply bind_no_panic; [auto with no_panic|]. intros _ Hk%reject_if_Ok.
      apply bind_no_panic; [auto with no_panic|]. intros m Hm%ok_or_Ok.
      apply checked_sub_Some in Hm as [_ ->]. rewrite orb_false_iff in Hk.
      assert (1 <= marker) by (case_match; bind_inv Hmk; injection Hmk as <- <-; lia).
      apply bind_no_panic; [apply slice_no_panic; lia|]. intros z _.
      apply bind_no_panic; [auto with no_panic|]. done. }
  split; apply bind_no_panic; try done. intros m H.
  apply payload_len_Ok_suffix in H as (k & Hk & -> & Hm & _).
  unfold pad_ok in Hk. apply slice_no_panic; lia.
Qed.
