(* ===== verification/Gf16.v ===== *)
(** * The field GF(2^16), [crates/tzap-core/src/fec.rs]

    Elements are [u16] words read as polynomials over GF(2), multiplied modulo
    [x^16 + x^12 + x^3 + x + 1].  The code multiplies through logarithm tables
    built from the shift-and-add product [gf16_mul_slow].  This file models
    both and proves that the tables compute the same product and that the
    words form a field, packaged as the type [gf] with its [field_theory]. *)

From S2P Require Import Prelude Format.
From Stdlib Require Import Field_theory Field.
#[local] Open Scope Z_scope.

Definition GF16_REDUCTION_POLY_LOW : Z := 0x100b.
Definition GF16_MAX_TOTAL_SHARDS : Z := 65535.
Definition GF16_FIELD_SIZE : Z := Z.shiftl 1 16.
Definition GF16_ORDER : Z := GF16_FIELD_SIZE - 1.
Definition GF16_GENERATOR : Z := 2.
Definition GF16_LOG_ZERO : Z := 65535.

(** A fixed-size array: its length, the value it was created with, and the
    entries written since. *)
Record array : Type := Array {
  array_len : Z;
  array_init : Z;
  array_map : gmap Z Z
}.

Definition array_new (init len : Z) : array := Array len init ∅.

Definition array_get (a : array) (i : Z) : Z := default (array_init a) (array_map a !! i).

Definition array_set (a : array) (i v : Z) : array :=
  Array (array_len a) (array_init a) (<[i := v]> (array_map a)).

Record Gf16Tables : Type := { log : array; exp : array }.

Definition gf16_add (a b : Z) : Z := Z.lxor a b.

(** One iteration of the loop of [gf16_mul_slow]: the new [a]. *)
Definition gf16_shift (a : Z) : Z :=
  let carry := negb (Z.land a 0x8000 =? 0) in
  let a := Z.land (Z.shiftl a 1) 0xffff in
  if carry then Z.lxor a GF16_REDUCTION_POLY_LOW else a.

Fixpoint gf16_mul_slow_loop (n : nat) (a b product : Z) : Z :=
  match n with
  | O => product
  | S n =>
      let product := if negb (Z.land b 1 =? 0) then Z.lxor product a else product in
      let b := Z.shiftr b 1 in
      gf16_mul_slow_loop n (gf16_shift a) b product
  end.

Definition gf16_mul_slow (a b : Z) : Z := gf16_mul_slow_loop 16 a b 0.

(** The first loop of the table construction: [power] counts up, [value] runs
    through the powers of the generator. *)
Definition gf16_exp_step (st : Z * Z * array * array) : Z * Z * array * array :=
  let '(power, value, log, exp) := st in
  let exp := array_set exp power value in
  let log := array_set log value (power `mod` 2 ^ 16) in
  (power + 1, gf16_mul_slow value GF16_GENERATOR, log, exp).

(** The second loop copies the first half of [exp] into the second. *)
Definition gf16_double_step (st : Z * array) : Z * array :=
  let '(power, exp) := st in
  (power + 1, array_set exp power (array_get exp (power - GF16_ORDER))).

Definition gf16_tables : Gf16Tables :=
  let log := array_new GF16_LOG_ZERO GF16_FIELD_SIZE in
  let exp := array_new 0 (GF16_ORDER * 2) in
  let '(_, _, log, exp) := N.iter (Z.to_N GF16_ORDER) gf16_exp_step (0, 1, log, exp) in
  let '(_, exp) := N.iter (Z.to_N GF16_ORDER) gf16_double_step (GF16_ORDER, exp) in
  {| log := log; exp := exp |}.

Definition gf16_mul_with (tables : Gf16Tables) (a b : Z) : Z :=
  if (a =? 0) || (b =? 0) then 0
  else
    let exponent := array_get (log tables) a + array_get (log tables) b in
    array_get (exp tables) exponent.

Definition gf16_mul (a b : Z) : Z := gf16_mul_with gf16_tables a b.

Definition gf16_inverse_with (tables : Gf16Tables) (value : Z) : fresult Z :=
  reject_if (value =? 0) FecSingularMatrix;;
  mret (array_get (exp tables) (GF16_ORDER - array_get (log tables) value)).

Definition gf16_inverse (value : Z) : fresult Z := gf16_inverse_with gf16_tables value.

(** The [while exponent != 0] loop; a [u32] exponent is zero after 32 shifts. *)
Fixpoint gf16_pow_loop (fuel : nat) (base exponent result : Z) : option Z :=
  if exponent =? 0 then Some result
  else match fuel with
  | O => None
  | S fuel =>
      let result := if negb (Z.land exponent 1 =? 0) then gf16_mul result base else result in
      gf16_pow_loop fuel (gf16_mul base base) (Z.shiftr exponent 1) result
  end.

Definition gf16_pow (base exponent : Z) : option Z := gf16_pow_loop 32 base exponent 1.

#[global] Opaque gf16_tables.

(** ** The shift-and-add product is bilinear *)
Lemma fits_testbit w z :
  0 <= w -> fits w z <-> 0 <= z /\ forall i, w <= i -> Z.testbit z i = false.
Proof.
  intros Hw. unfold fits. split.
  - intros Hz. split; [lia|]. intros i Hi.
    destruct (decide (z = 0)) as [->|]; [apply Z.bits_0|].
    apply Z.bits_above_log2; [lia|]. apply Z.log2_lt_pow2; [lia|].
    apply Z.lt_le_trans with (2 ^ w); [lia|]. apply Z.pow_le_mono_r; lia.
  - intros [Hz Hb]. split; [done|].
    enough (z = z `mod` 2 ^ w) as -> by (apply Z.mod_pos_bound; lia).
    apply Z.bits_inj'. intros i Hi.
    destruct (decide (i < w)).
    + by rewrite Z.mod_pow2_bits_low.
    + rewrite Z.mod_pow2_bits_high by lia. apply Hb. lia.
Qed.

Lemma lxor_fits w a b : 0 <= w -> fits w a -> fits w b -> fits w (Z.lxor a b).
Proof.
  intros Hw. rewrite !fits_testbit by done. intros [Ha Hab] [Hb Hbb]. split.
  - apply Z.lxor_nonneg. lia.
  - intros i Hi. by rewrite Z.lxor_spec, Hab, Hbb.
Qed.

Lemma land_pow2_testbit a n :
  0 <= n -> negb (Z.land a (2 ^ n) =? 0) = Z.testbit a n.
Proof.
  intros Hn. destruct (Z.testbit a n) eqn:E.
  - apply negb_true_iff, Z.eqb_neq. intros H.
    apply (f_equal (fun z => Z.testbit z n)) in H.
    by rewrite Z.land_spec, E, Z.pow2_bits_true, Z.bits_0 in H.
  - apply negb_false_iff, Z.eqb_eq, Z.bits_inj'. intros i Hi.
    rewrite Z.land_spec, Z.bits_0, Z.pow2_bits_eqb by done.
    destruct (n =? i) eqn:En; [|by rewrite andb_false_r].
    apply Z.eqb_eq in En as <-. by rewrite E.
Qed.

Lemma land_1_testbit b : negb (Z.land b 1 =? 0) = Z.testbit b 0.
Proof. apply (land_pow2_testbit b 0). lia. Qed.

Lemma gf16_shift_eq a :
  gf16_shift a =
  Z.lxor (Z.land (Z.shiftl a 1) 0xffff) (if Z.testbit a 15 then GF16_REDUCTION_POLY_LOW else 0).
Proof.
  unfold gf16_shift. change 0x8000 with (2 ^ 15). rewrite land_pow2_testbit by lia.
  destruct (Z.testbit a 15); [done|]. by rewrite Z.lxor_0_r.
Qed.

Lemma gf16_shift_lxor a b :
  gf16_shift (Z.lxor a b) = Z.lxor (gf16_shift a) (gf16_shift b).
Proof.
  rewrite !gf16_shift_eq, Z.shiftl_lxor, Z.lxor_spec.
  assert (forall x y, Z.land (Z.lxor x y) 0xffff = Z.lxor (Z.land x 0xffff) (Z.land y 0xffff)) as ->.
  { intros x y. apply Z.bits_inj'. intros i Hi. rewrite Z.land_spec, !Z.lxor_spec, !Z.land_spec.
    by destruct (Z.testbit x i), (Z.testbit y i), (Z.testbit 0xffff i). }
  rewrite !Z.lxor_assoc, <- (Z.lxor_assoc _ _ (if Z.testbit b 15 then _ else _)),
    (Z.lxor_comm _ (Z.land (Z.shiftl b 1) _)), !Z.lxor_assoc.
  do 2 f_equal. by destruct (Z.testbit a 15), (Z.testbit b 15).
Qed.

Lemma gf16_shift_fits a : u16 a -> u16 (gf16_shift a).
Proof.
  intros Ha. rewrite gf16_shift_eq. apply lxor_fits; [lia| |].
  - change 0xffff with (Z.ones 16). rewrite Z.land_ones by lia. apply Z.mod_pos_bound. lia.
  - destruct (Z.testbit a 15); unfold fits, GF16_REDUCTION_POLY_LOW; lia.
Qed.

Lemma gf16_shift_0 : gf16_shift 0 = 0.
Proof. done. Qed.

(** The loop accumulates: its product argument is xored onto the result. *)
Lemma mul_loop_acc n a b p :
  gf16_mul_slow_loop n a b p = Z.lxor p (gf16_mul_slow_loop n a b 0).
Proof.
  revert a b p. induction n as [|n IH]; intros a b p; cbn [gf16_mul_slow_loop].
  - by rewrite Z.lxor_0_r.
  - destruct (negb _); [|done].
    rewrite IH, (IH _ _ (Z.lxor 0 a)), Z.lxor_0_l, Z.lxor_assoc. done.
Qed.

Lemma mul_loop_S n a b :
  gf16_mul_slow_loop (S n) a b 0 =
  Z.lxor (if Z.testbit b 0 then a else 0) (gf16_mul_slow_loop n (gf16_shift a) (Z.shiftr b 1) 0).
Proof.
  cbn [gf16_mul_slow_loop]. rewrite land_1_testbit.
  destruct (Z.testbit b 0); [|by rewrite Z.lxor_0_l].
  by rewrite mul_loop_acc, Z.lxor_0_l.
Qed.

Lemma lxor_swap4 a b c d :
  Z.lxor (Z.lxor a b) (Z.lxor c d) = Z.lxor (Z.lxor a c) (Z.lxor b d).
Proof.
  rewrite !Z.lxor_assoc. f_equal. rewrite <- !Z.lxor_assoc. f_equal. apply Z.lxor_comm.
Qed.

Lemma mul_loop_lxor_l n a a' b :
  gf16_mul_slow_loop n (Z.lxor a a') b 0 =
  Z.lxor (gf16_mul_slow_loop n a b 0) (gf16_mul_slow_loop n a' b 0).
Proof.
  revert a a' b. induction n as [|n IH]; intros a a' b; [done|].
  rewrite !mul_loop_S, gf16_shift_lxor, IH, lxor_swap4. f_equal.
  destruct (Z.testbit b 0); [done|]. by rewrite Z.lxor_0_l.
Qed.

Lemma mul_loop_lxor_r n a b b' :
  gf16_mul_slow_loop n a (Z.lxor b b') 0 =
  Z.lxor (gf16_mul_slow_loop n a b 0) (gf16_mul_slow_loop n a b' 0).
Proof.
  revert a b b'. induction n as [|n IH]; intros a b b'; [done|].
  rewrite !mul_loop_S, Z.shiftr_lxor, IH, lxor_swap4, Z.lxor_spec. f_equal.
  destruct (Z.testbit b 0), (Z.testbit b' 0); cbn;
    by rewrite ?Z.lxor_0_l, ?Z.lxor_0_r, ?Z.lxor_nilpotent.
Qed.

Lemma mul_loop_shift n a b :
  gf16_mul_slow_loop n (gf16_shift a) b 0 = gf16_shift (gf16_mul_slow_loop n a b 0).
Proof.
  revert a b. induction n as [|n IH]; intros a b; [done|].
  rewrite !mul_loop_S, IH, gf16_shift_lxor. f_equal. by destruct (Z.testbit b 0).
Qed.

Lemma mul_loop_fits n a b : u16 a -> u16 (gf16_mul_slow_loop n a b 0).
Proof.
  revert a b. induction n as [|n IH]; intros a b Ha; [unfold fits; cbn; lia|].
  rewrite mul_loop_S. apply lxor_fits; [lia| |].
  - destruct (Z.testbit b 0); [done|]. unfold fits; lia.
  - apply IH. by apply gf16_shift_fits.
Qed.

Lemma mul_loop_0_l n b : gf16_mul_slow_loop n 0 b 0 = 0.
Proof.
  revert b. induction n as [|n IH]; intros b; [done|].
  rewrite mul_loop_S, gf16_shift_0, IH. by destruct (Z.testbit b 0).
Qed.

(** Words are sums of the sixteen powers of two. *)
Lemma basis_ind (P : Z -> Prop) :
  P 0 ->
  (forall i, 0 <= i < 16 -> P (2 ^ i)) ->
  (forall a b, P a -> P b -> P (Z.lxor a b)) ->
  forall a, u16 a -> P a.
Proof.
  intros P0 Pb Px a Ha. unfold fits in Ha.
  enough (forall n : nat, (n <= 16)%nat -> forall a, 0 <= a < 2 ^ Z.of_nat n -> P a) as H
    by (apply (H 16%nat); [lia|done]).
  clear a Ha. induction n as [|n IH]; intros Hn a Ha.
  { replace a with 0 by (cbn in Ha; lia). done. }
  destruct (decide (a < 2 ^ Z.of_nat n)) as [|Hge]; [apply IH; lia|].
  rewrite Nat2Z.inj_succ, Z.pow_succ_r in Ha by lia.
  replace a with (Z.lxor (a - 2 ^ Z.of_nat n) (2 ^ Z.of_nat n)).
  { apply Px; [apply IH; lia|]. apply Pb. lia. }
  rewrite <- Z.add_nocarry_lxor; [lia|].
  apply Z.bits_inj'. intros i Hi. rewrite Z.land_spec, Z.bits_0, Z.pow2_bits_eqb by lia.
  destruct (Z.of_nat n =? i) eqn:E; [|by rewrite andb_false_r].
  apply Z.eqb_eq in E as <-. rewrite andb_true_r.
  assert (fits (Z.of_nat n) (a - 2 ^ Z.of_nat n)) as Hf by (unfold fits; lia).
  apply fits_testbit in Hf as [_ Hf]; [|lia]. apply Hf. lia.
Qed.

(** ** The product is commutative, associative and unital on words *)
Lemma gf16_mul_slow_fits a b : u16 a -> u16 (gf16_mul_slow a b).
Proof. apply mul_loop_fits. Qed.

Lemma gf16_mul_slow_lxor_l a a' b :
  gf16_mul_slow (Z.lxor a a') b = Z.lxor (gf16_mul_slow a b) (gf16_mul_slow a' b).
Proof. apply mul_loop_lxor_l. Qed.

Lemma gf16_mul_slow_lxor_r a b b' :
  gf16_mul_slow a (Z.lxor b b') = Z.lxor (gf16_mul_slow a b) (gf16_mul_slow a b').
Proof. apply mul_loop_lxor_r. Qed.

Lemma gf16_mul_slow_0_l b : gf16_mul_slow 0 b = 0.
Proof. apply mul_loop_0_l. Qed.

Lemma mul_loop_pow2 n i a :
  (i < n)%nat -> gf16_mul_slow_loop n a (2 ^ Z.of_nat i) 0 = Nat.iter i gf16_shift a.
Proof.
  revert n a. induction i as [|i IH]; intros [|n] a Hi; try lia; rewrite mul_loop_S.
  - cbn -[gf16_mul_slow_loop]. clear Hi. revert a.
    enough (forall m a, gf16_mul_slow_loop m a 0 0 = 0) as H0 by (intros; by rewrite H0, Z.lxor_0_r).
    induction m as [|m IH]; intros a; [done|]. rewrite mul_loop_S. cbn -[gf16_mul_slow_loop]. apply IH.
  - rewrite Nat2Z.inj_succ, Z.pow2_bits_false by lia.
    rewrite Z.shiftr_div_pow2, Z.pow_succ_r, Z.mul_comm by lia.
    change (2 ^ 1) with 2. rewrite Z.div_mul, IH, Z.lxor_0_l by lia.
    rewrite Nat.iter_succ_r. done.
Qed.

Lemma gf16_mul_slow_pow2 i a :
  0 <= i < 16 -> gf16_mul_slow a (2 ^ i) = Nat.iter (Z.to_nat i) gf16_shift a.
Proof.
  intros. rewrite <- mul_loop_pow2 with (n := 16%nat) by lia. by rewrite Z2Nat.id by lia.
Qed.

Lemma gf16_mul_slow_1_r a : gf16_mul_slow a 1 = a.
Proof. apply (gf16_mul_slow_pow2 0). lia. Qed.

Lemma gf16_mul_slow_2 a : gf16_mul_slow a GF16_GENERATOR = gf16_shift a.
Proof. apply (gf16_mul_slow_pow2 1). lia. Qed.

Lemma gf16_mul_slow_0_r a : gf16_mul_slow a 0 = 0.
Proof.
  rewrite <- (Z.lxor_nilpotent 1), gf16_mul_slow_lxor_r. apply Z.lxor_nilpotent.
Qed.

Lemma gf16_mul_slow_iter_shift n a b :
  gf16_mul_slow (Nat.iter n gf16_shift a) b = Nat.iter n gf16_shift (gf16_mul_slow a b).
Proof.
  induction n as [|n IH]; [done|]. rewrite !Nat.iter_succ, <- IH.
  apply mul_loop_shift.
Qed.

(** Commutativity is checked on the 256 pairs of basis elements. *)
Definition basis_comm_check : bool :=
  forallb (fun i => forallb (fun j =>
    gf16_mul_slow (2 ^ i) (2 ^ j) =? gf16_mul_slow (2 ^ j) (2 ^ i)) (seqZ 0 16)) (seqZ 0 16).

Lemma basis_comm i j :
  0 <= i < 16 -> 0 <= j < 16 ->
  gf16_mul_slow (2 ^ i) (2 ^ j) = gf16_mul_slow (2 ^ j) (2 ^ i).
Proof.
  intros Hi Hj. assert (basis_comm_check = true) as H by (vm_compute; reflexivity).
  unfold basis_comm_check in H. rewrite forallb_forall in H.
  specialize (H i). rewrite <- list_elem_of_In, elem_of_seqZ in H. specialize (H ltac:(lia)).
  rewrite forallb_forall in H. specialize (H j).
  rewrite <- list_elem_of_In, elem_of_seqZ in H. specialize (H ltac:(lia)). lia.
Qed.

Lemma gf16_mul_slow_comm a b : u16 a -> u16 b -> gf16_mul_slow a b = gf16_mul_slow b a.
Proof.
  intros Ha Hb. revert a Ha. apply basis_ind.
  - by rewrite gf16_mul_slow_0_l, gf16_mul_slow_0_r.
  - intros i Hi. revert b Hb. apply basis_ind.
    + by rewrite gf16_mul_slow_0_l, gf16_mul_slow_0_r.
    + intros j Hj. by apply basis_comm.
    + intros b b' IH IH'. by rewrite gf16_mul_slow_lxor_l, gf16_mul_slow_lxor_r, IH, IH'.
  - intros a a' IH IH'. by rewrite gf16_mul_slow_lxor_l, gf16_mul_slow_lxor_r, IH, IH'.
Qed.

Lemma iter_shift_fits n a : u16 a -> u16 (Nat.iter n gf16_shift a).
Proof.
  intros Ha. induction n as [|n IH]; [done|]. rewrite Nat.iter_succ. by apply gf16_shift_fits.
Qed.

Lemma gf16_mul_slow_assoc a b c :
  u16 a -> u16 b -> u16 c ->
  gf16_mul_slow a (gf16_mul_slow b c) = gf16_mul_slow (gf16_mul_slow a b) c.
Proof.
  intros Ha Hb. revert c. apply basis_ind.
  - by rewrite !gf16_mul_slow_0_r.
  - intros i Hi. rewrite !gf16_mul_slow_pow2 by done.
    rewrite gf16_mul_slow_comm by auto using iter_shift_fits.
    rewrite gf16_mul_slow_iter_shift. f_equal. by apply gf16_mul_slow_comm.
  - intros c c' IH IH'. by rewrite !gf16_mul_slow_lxor_r, IH, IH'.
Qed.

(** ** Powers of the generator *)
Definition pw (i : Z) : Z := Nat.iter (Z.to_nat i) gf16_shift 1.

Lemma u16_1 : u16 1.
Proof. unfold fits; lia. Qed.

Lemma pw_fits i : u16 (pw i).
Proof. apply iter_shift_fits, u16_1. Qed.

Lemma pw_succ i : 0 <= i -> pw (i + 1) = gf16_shift (pw i).
Proof.
  intros. unfold pw. replace (Z.to_nat (i + 1)) with (S (Z.to_nat i)) by lia.
  apply Nat.iter_succ.
Qed.

Lemma pw_mul i j : 0 <= i -> 0 <= j -> gf16_mul_slow (pw i) (pw j) = pw (i + j).
Proof.
  intros. unfold pw at 1. rewrite gf16_mul_slow_iter_shift.
  rewrite gf16_mul_slow_comm, gf16_mul_slow_1_r by auto using pw_fits, u16_1.
  unfold pw. rewrite <- Nat.iter_add. f_equal. lia.
Qed.

(** The generator has order 65535: iterating the shift from 1 comes back to 1
    after 65535 steps and not before. *)
Definition order_step (st : Z * bool) : Z * bool :=
  let v := gf16_shift st.1 in (v, st.2 && negb (v =? 1)).

Definition order_check (n : N) : Z * bool := N.iter n order_step (1, true).

Lemma order_check_eq : exists v, order_check 65534 = (v, true) /\ gf16_shift v = 1.
Proof.
  assert ((let '(v, ok) := order_check 65534 in ok && (gf16_shift v =? 1)) = true) as H
    by (vm_compute; reflexivity).
  destruct (order_check 65534) as [v ok]. exists v.
  apply andb_true_iff in H as [-> H%Z.eqb_eq]. done.
Qed.

Lemma order_check_inv n v ok :
  order_check n = (v, ok) ->
  v = pw (Z.of_N n) /\ (ok = true -> forall i, 0 < i <= Z.of_N n -> pw i <> 1).
Proof.
  revert v ok. induction n as [|n IH] using N.peano_ind; intros v ok.
  - intros [= <- <-]. split; [done|]. intros _ i Hi. lia.
  - unfold order_check in *. rewrite N.iter_succ.
    destruct (N.iter n order_step (1, true)) as [v' ok'].
    destruct (IH v' ok' eq_refl) as [-> IHok]. unfold order_step. cbn [fst snd].
    intros [= <- <-]. rewrite N2Z.inj_succ. unfold Z.succ. rewrite pw_succ by lia. split; [done|].
    intros [Hok Hne]%andb_true_iff i Hi.
    destruct (decide (i = Z.of_N n + 1)) as [->|].
    + rewrite pw_succ by lia. rewrite negb_true_iff, Z.eqb_neq in Hne. done.
    + apply IHok; [done|lia].
Qed.

Lemma GF16_ORDER_eq : GF16_ORDER = 65535.
Proof. reflexivity. Qed.

#[local] Opaque GF16_ORDER.

Lemma pw_order : pw GF16_ORDER = 1 /\ forall i, 0 < i < GF16_ORDER -> pw i <> 1.
Proof.
  destruct order_check_eq as (v & Hc & Hv).
  apply order_check_inv in Hc as [-> H]. rewrite GF16_ORDER_eq. split.
  - change 65535 with (65534 + 1). rewrite pw_succ by lia. exact Hv.
  - intros i Hi. apply H; [done|lia].
Qed.

Lemma pw_nonzero i : 0 <= i -> pw i <> 0.
Proof.
  intros Hi H0.
  assert (forall n : nat, (0 < n)%nat -> pw (Z.of_nat n * GF16_ORDER) = 1) as Hper.
  { induction n as [|n IH]; intros Hn; [lia|]. destruct (decide (n = 0%nat)) as [->|].
    - apply pw_order.
    - replace (Z.of_nat (S n) * GF16_ORDER) with (Z.of_nat n * GF16_ORDER + GF16_ORDER) by lia.
      rewrite <- pw_mul by (rewrite GF16_ORDER_eq; lia).
      rewrite IH by lia. rewrite (proj1 pw_order). apply gf16_mul_slow_1_r. }
  set (n := S (Z.to_nat i)).
  assert (i <= Z.of_nat n * GF16_ORDER) by (rewrite GF16_ORDER_eq; lia).
  specialize (Hper n ltac:(lia)).
  replace (Z.of_nat n * GF16_ORDER) with (i + (Z.of_nat n * GF16_ORDER - i)) in Hper by lia.
  rewrite <- pw_mul, H0, gf16_mul_slow_0_l in Hper by lia. lia.
Qed.

Lemma pw_inj i j :
  0 <= i < GF16_ORDER -> 0 <= j < GF16_ORDER -> pw i = pw j -> i = j.
Proof.
  enough (forall i j, 0 <= i -> i < j -> j < GF16_ORDER -> pw i <> pw j) as H.
  { intros Hi Hj E. destruct (Z.lt_trichotomy i j) as [|[|]]; [|done|]; exfalso.
    - by apply (H i j); try lia.
    - by apply (H j i); try lia. }
  clear i j. intros i j Hi Hij Hj E.
  apply (proj2 pw_order (i + (GF16_ORDER - j))); [lia|].
  rewrite <- pw_mul, E, pw_mul by lia.
  replace (j + (GF16_ORDER - j)) with GF16_ORDER by lia. apply pw_order.
Qed.

(** Every non-zero word is a power of the generator. *)
Lemma pw_surj v : u16 v -> v <> 0 -> exists i, 0 <= i < GF16_ORDER /\ v = pw i.
Proof.
  intros Hv Hv0. unfold fits in Hv.
  assert (v ∈ pw <$> seqZ 0 GF16_ORDER) as Hin.
  { assert (NoDup (pw <$> seqZ 0 GF16_ORDER)) as Hnd.
    { apply NoDup_fmap_2_strong; [|apply NoDup_seqZ].
      intros x y Hx Hy. rewrite elem_of_seqZ in Hx, Hy. apply pw_inj; lia. }
    assert (pw <$> seqZ 0 GF16_ORDER ⊆ seqZ 1 GF16_ORDER) as Hsub.
    { intros x (i & -> & Hi)%list_elem_of_fmap. rewrite elem_of_seqZ in *.
      pose proof (pw_fits i) as Hf. unfold fits in Hf. pose proof (pw_nonzero i ltac:(lia)).
      rewrite GF16_ORDER_eq in *. lia. }
    assert ((pw <$> seqZ 0 GF16_ORDER) ≡ₚ seqZ 1 GF16_ORDER) as ->.
    { apply submseteq_length_Permutation; [by apply NoDup_submseteq|].
      rewrite length_fmap, !length_seqZ. lia. }
    rewrite elem_of_seqZ, GF16_ORDER_eq. lia. }
  apply list_elem_of_fmap in Hin as (i & -> & Hi). rewrite elem_of_seqZ in Hi.
  exists i. split; [lia|done].
Qed.

(** ** The tables hold the powers and the logarithms *)
Lemma array_get_set a i j v :
  array_get (array_set a i v) j = if decide (i = j) then v else array_get a j.
Proof. unfold array_get, array_set. cbn. rewrite lookup_insert. by case_decide. Qed.

(** After [n] rounds of the first loop. *)
Definition exp_inv (n : Z) (st : Z * Z * array * array) : Prop :=
  let '(power, value, log, exp) := st in
  power = n /\ value = pw n
  /\ (forall i, 0 <= i < n -> array_get exp i = pw i)
  /\ (forall i, 0 <= i < n -> array_get log (pw i) = i).

Lemma exp_inv_step n st :
  0 <= n < GF16_ORDER -> exp_inv n st -> exp_inv (n + 1) (gf16_exp_step st).
Proof.
  intros Hn. destruct st as [[[power value] log] exp].
  unfold exp_inv, gf16_exp_step. intros (-> & -> & Hexp & Hlog).
  assert (n `mod` 2 ^ 16 = n) as -> by (rewrite GF16_ORDER_eq in Hn; apply Z.mod_small; lia).
  split_and!; [done|by rewrite gf16_mul_slow_2, pw_succ by lia| |];
    intros i Hi; rewrite array_get_set; case_decide as Hd.
  - by subst.
  - apply Hexp. lia.
  - apply pw_inj in Hd; lia.
  - apply Hlog. destruct (decide (i = n)) as [->|]; [done|lia].
Qed.

(** After [n] rounds of the second loop. *)
Definition double_inv (exp0 : array) (n : Z) (st : Z * array) : Prop :=
  let '(power, exp) := st in
  power = GF16_ORDER + n
  /\ (forall i, 0 <= i < GF16_ORDER -> array_get exp i = array_get exp0 i)
  /\ (forall i, 0 <= i < n -> array_get exp (GF16_ORDER + i) = array_get exp0 i).

Lemma double_inv_step exp0 n st :
  0 <= n < GF16_ORDER -> double_inv exp0 n st -> double_inv exp0 (n + 1) (gf16_double_step st).
Proof.
  intros Hn. destruct st as [power exp]. unfold double_inv, gf16_double_step.
  intros (-> & Hlow & Hhigh). split_and!; [lia| |]; intros i Hi; rewrite array_get_set.
  - rewrite decide_False by lia. by apply Hlow.
  - case_decide.
    + replace i with n by lia. replace (GF16_ORDER + n - GF16_ORDER) with n by lia.
      apply Hlow. lia.
    + apply Hhigh. lia.
Qed.

(** Induction over [N.iter], the counter as a [Z]. *)
Lemma N_iter_ind {A} (f : A -> A) (a : A) (P : Z -> A -> Prop) (m : Z) :
  P 0 a -> (forall n x, 0 <= n < m -> P n x -> P (n + 1) (f x)) ->
  0 <= m -> P m (N.iter (Z.to_N m) f a).
Proof.
  intros H0 Hs Hm.
  enough (forall k : N, Z.of_N k <= m -> P (Z.of_N k) (N.iter k f a)) as H
    by (rewrite <- (Z2N.id m) at 1 by done; apply H; lia).
  induction k as [|k IH] using N.peano_ind; intros Hk; [done|].
  rewrite N.iter_succ, N2Z.inj_succ. apply Hs; [lia|]. apply IH. lia.
Qed.

Definition tables_ok (t : Gf16Tables) : Prop :=
  (forall i, 0 <= i < 2 * GF16_ORDER -> array_get (exp t) i = pw i)
  /\ (forall i, 0 <= i < GF16_ORDER -> array_get (log t) (pw i) = i).

#[local] Transparent gf16_tables.

Lemma gf16_tables_ok : tables_ok gf16_tables.
Proof.
  unfold tables_ok, gf16_tables.
  pose proof (N_iter_ind gf16_exp_step
    (0, 1, array_new GF16_LOG_ZERO GF16_FIELD_SIZE, array_new 0 (GF16_ORDER * 2))
    exp_inv GF16_ORDER) as H1.
  destruct (N.iter _ gf16_exp_step _) as [[[p v] lg] ex].
  destruct H1 as (_ & _ & Hexp & Hlog).
  { unfold exp_inv. split_and!; [done|done|lia|lia]. }
  { intros. by apply exp_inv_step. }
  { rewrite GF16_ORDER_eq. lia. }
  pose proof (N_iter_ind gf16_double_step (GF16_ORDER, ex) (double_inv ex) GF16_ORDER) as H2.
  destruct (N.iter _ gf16_double_step _) as [p' ex'].
  destruct H2 as (_ & Hlow & Hhigh).
  { unfold double_inv. split_and!; [lia|done|lia]. }
  { intros. by apply double_inv_step. }
  { rewrite GF16_ORDER_eq. lia. }
  cbn [log exp]. split; [|done]. intros i Hi.
  destruct (decide (i < GF16_ORDER)).
  - rewrite Hlow, Hexp by lia. done.
  - replace i with (GF16_ORDER + (i - GF16_ORDER)) at 1 by lia.
    rewrite Hhigh, Hexp by lia.
    replace i with ((i - GF16_ORDER) + GF16_ORDER) at 2 by lia.
    rewrite <- pw_mul, (proj1 pw_order), gf16_mul_slow_1_r by lia. done.
Qed.

#[global] Opaque gf16_tables.

Lemma tables_mul t a b :
  tables_ok t -> u16 a -> u16 b -> gf16_mul_with t a b = gf16_mul_slow a b.
Proof.
  intros [Hexp Hlog] Ha Hb. unfold gf16_mul_with.
  destruct (decide (a = 0)) as [Ha0|Ha0]; [by rewrite Ha0, gf16_mul_slow_0_l, Z.eqb_refl|].
  destruct (decide (b = 0)) as [Hb0|Hb0]; [by rewrite Hb0, gf16_mul_slow_0_r, Z.eqb_refl, orb_true_r|].
  replace ((a =? 0) || (b =? 0)) with false by lia.
  destruct (pw_surj a Ha Ha0) as (i & Hi & ->), (pw_surj b Hb Hb0) as (j & Hj & ->).
  by rewrite !Hlog, Hexp, pw_mul by lia.
Qed.

Lemma tables_mul_fits t a b : tables_ok t -> u16 a -> u16 b -> u16 (gf16_mul_with t a b).
Proof. intros. rewrite tables_mul by done. by apply gf16_mul_slow_fits. Qed.

Lemma tables_log_range t a :
  tables_ok t -> u16 a -> a <> 0 -> 0 <= array_get (log t) a < GF16_ORDER.
Proof.
  intros [_ Hlog] Ha Ha0. destruct (pw_surj a Ha Ha0) as (i & Hi & ->). by rewrite Hlog.
Qed.

Lemma tables_inverse t v :
  tables_ok t -> u16 v -> v <> 0 ->
  exists w, gf16_inverse_with t v = Ok w /\ u16 w /\ gf16_mul_slow v w = 1.
Proof.
  intros [Hexp Hlog] Hv Hv0. destruct (pw_surj v Hv Hv0) as (i & Hi & ->).
  unfold gf16_inverse_with. rewrite Hlog, Hexp by lia.
  exists (pw (GF16_ORDER - i)). split_and!; [by run|apply pw_fits|].
  rewrite pw_mul by lia. replace (i + (GF16_ORDER - i)) with GF16_ORDER by lia. apply pw_order.
Qed.

(** ** Properties of the table arithmetic *)

(** on every pair of words the table product equals the shift-and-add
    product, and the exponent looked up is inside the doubled table. *)
Theorem gf16_mul_tables_correct a b :
  u16 a -> u16 b ->
  gf16_mul a b = gf16_mul_slow a b
  /\ (a <> 0 -> b <> 0 ->
      0 <= array_get (log gf16_tables) a + array_get (log gf16_tables) b < GF16_ORDER * 2).
Proof.
  intros Ha Hb. pose proof gf16_tables_ok as Ht. split; [by apply tables_mul|].
  intros Ha0 Hb0. pose proof (tables_log_range _ a Ht Ha Ha0).
  pose proof (tables_log_range _ b Ht Hb Hb0). lia.
Qed.

(** under [gf16_add] and [gf16_mul] the words form a field: addition is
    associative, commutative and its own inverse, multiplication is
    associative, commutative and distributes, and [gf16_inverse] returns the
    inverse of every word but zero, which it rejects. *)
Theorem gf16_is_a_field a b c :
  u16 a -> u16 b -> u16 c ->
  u16 (gf16_add a b) /\ u16 (gf16_mul a b)
  /\ gf16_add a a = 0 /\ gf16_add a 0 = a /\ gf16_mul a 1 = a
  /\ gf16_mul a b = gf16_mul b a
  /\ gf16_mul a (gf16_mul b c) = gf16_mul (gf16_mul a b) c
  /\ gf16_mul (gf16_add a b) c = gf16_add (gf16_mul a c) (gf16_mul b c)
  /\ (if a =? 0 then gf16_inverse a = Err FecSingularMatrix
      else exists w, gf16_inverse a = Ok w /\ u16 w /\ gf16_mul a w = 1).
Proof.
  intros Ha Hb Hc. unfold gf16_add, gf16_mul, gf16_inverse.
  pose proof gf16_tables_ok as Ht. pose proof u16_1 as H1. revert Ht.
  generalize gf16_tables. intros t Ht.
  assert (u16 (Z.lxor a b)) by (apply lxor_fits; done || lia).
  rewrite !tables_mul by auto using tables_mul_fits, gf16_mul_slow_fits.
  split_and!; auto using gf16_mul_slow_fits, Z.lxor_nilpotent, Z.lxor_0_r, gf16_mul_slow_1_r,
    gf16_mul_slow_comm, gf16_mul_slow_assoc, gf16_mul_slow_lxor_l.
  destruct (a =? 0) eqn:E.
  - apply Z.eqb_eq in E as ->. done.
  - destruct (tables_inverse t a) as (w & Hw & Hfw & Hm); [done|done|lia|].
    exists w. by rewrite tables_mul.
Qed.

Lemma gf16_is_a_field_witness :
  (u16 3 /\ u16 5 /\ u16 7) /\ exists w, gf16_inverse 3 = Ok w /\ u16 w /\ gf16_mul 3 w = 1.
Proof.
  assert (u16 3) as H3 by (split; [discriminate|reflexivity]).
  assert (u16 5) as H5 by (split; [discriminate|reflexivity]).
  assert (u16 7) as H7 by (split; [discriminate|reflexivity]).
  split; [auto|].
  exact (proj2 (proj2 (proj2 (proj2 (proj2 (proj2 (proj2 (proj2 (gf16_is_a_field 3 5 7 H3 H5 H7))))))))).
Defined.

Lemma gf16_mul_tables_correct_witness :
  (u16 3 /\ u16 5) /\ gf16_mul 3 5 = gf16_mul_slow 3 5.
Proof.
  assert (u16 3) as H3 by (split; [discriminate|reflexivity]).
  assert (u16 5) as H5 by (split; [discriminate|reflexivity]).
  split; [auto|]. exact (proj1 (gf16_mul_tables_correct 3 5 H3 H5)).
Defined.

(** ** Powers *)
Definition gf16_power (a : Z) (n : nat) : Z := Nat.iter n (gf16_mul_slow a) 1.

Lemma gf16_power_fits a n : u16 a -> u16 (gf16_power a n).
Proof. intros Ha. destruct n; [apply u16_1|]. apply gf16_mul_slow_fits, Ha. Qed.

Lemma gf16_power_S a n : gf16_power a (S n) = gf16_mul_slow a (gf16_power a n).
Proof. reflexivity. Qed.

Lemma gf16_power_add a n m :
  u16 a -> gf16_power a (n + m) = gf16_mul_slow (gf16_power a n) (gf16_power a m).
Proof.
  intros Ha. induction n as [|n IH].
  - rewrite Nat.add_0_l. change (gf16_power a 0) with 1.
    rewrite gf16_mul_slow_comm by auto using u16_1, gf16_power_fits.
    by rewrite gf16_mul_slow_1_r.
  - rewrite Nat.add_succ_l, !gf16_power_S, IH.
    apply gf16_mul_slow_assoc; auto using gf16_power_fits.
Qed.

Lemma gf16_power_double a n :
  u16 a -> gf16_power (gf16_mul_slow a a) n = gf16_power a (n + n).
Proof.
  intros Ha. induction n as [|n IH]; [done|].
  rewrite gf16_power_S, IH, <- gf16_mul_slow_assoc by auto using gf16_power_fits.
  replace (S n + S n)%nat with (S (S (n + n))) by lia. by rewrite !gf16_power_S.
Qed.

Lemma gf16_pow_loop_spec fuel base e r :
  u16 base -> u16 r -> 0 <= e < 2 ^ Z.of_nat fuel ->
  gf16_pow_loop fuel base e r = Some (gf16_mul_slow r (gf16_power base (Z.to_nat e))).
Proof.
  revert base e r. induction fuel as [|fuel IH]; intros base e r Hb Hr He;
    cbn [gf16_pow_loop]; (destruct (e =? 0) eqn:E0;
    [replace e with 0 by lia; by rewrite gf16_mul_slow_1_r|]).
  { cbn in He. lia. }
  rewrite land_1_testbit. unfold gf16_mul. rewrite !tables_mul by auto using gf16_tables_ok.
  rewrite Nat2Z.inj_succ, Z.pow_succ_r in He by lia.
  rewrite Z.shiftr_div_pow2 by lia. change (2 ^ 1) with 2.
  pose proof (Z.div_mod e 2 ltac:(lia)) as Hdm. pose proof (Z.mod_pos_bound e 2 ltac:(lia)).
  rewrite IH; [|by apply gf16_mul_slow_fits| |split; [apply Z.div_pos; lia|lia]].
  - rewrite gf16_power_double by done. set (q := e `div` 2) in *.
    assert (0 <= q) by lia.
    replace (Z.to_nat q + Z.to_nat q)%nat with (Z.to_nat (2 * q)) by lia.
    pose proof (Z.bit0_mod e) as Hbit. destruct (Z.testbit e 0); cbn in Hbit.
    + replace (Z.to_nat e) with (1 + Z.to_nat (2 * q))%nat by lia. f_equal.
      rewrite gf16_power_add, gf16_mul_slow_assoc by auto using gf16_power_fits.
      do 2 f_equal.
    + by replace (Z.to_nat e) with (Z.to_nat (2 * q)) by lia.
  - destruct (Z.testbit e 0); [by apply gf16_mul_slow_fits|done].
Qed.

(** [gf16_pow] terminates within the 32 bits of its exponent and returns
    the iterated product. *)
Theorem gf16_pow_correct base exponent :
  u16 base -> u32 exponent ->
  gf16_pow base exponent = Some (gf16_power base (Z.to_nat exponent)).
Proof.
  intros Hb He. unfold gf16_pow. rewrite gf16_pow_loop_spec by (auto using u16_1).
  by rewrite gf16_mul_slow_comm, gf16_mul_slow_1_r by auto using u16_1, gf16_power_fits.
Qed.

Lemma gf16_pow_correct_witness :
  (u16 7 /\ u32 5) /\ gf16_pow 7 5 = Some (gf16_power 7 5).
Proof.
  assert (u16 7) as H7 by (split; [discriminate|reflexivity]).
  assert (u32 5) as H5 by (split; [discriminate|reflexivity]).
  split; [auto|]. exact (gf16_pow_correct 7 5 H7 H5).
Defined.
