(* ===== verification/LinAlg.v ===== *)
(** * Linear algebra over a field

    The interface [FieldOps] states what the erasure code asks of its field.
    Over any such field this file has finite sums, a notion of trivial kernel
    for the square matrices the decoder inverts, and the fact behind the
    choice of a Cauchy matrix: a Cauchy system with as many equations as
    unknowns has only the zero solution. *)

From Stdlib Require Import Field_theory Field.
From S2P Require Import Prelude.

Class FieldOps (F : Type) : Type := {
  f0 : F;
  f1 : F;
  fadd : F -> F -> F;
  fmul : F -> F -> F;
  fsub : F -> F -> F;
  fopp : F -> F;
  fdiv : F -> F -> F;
  finv : F -> F;
  f_eq_dec : EqDecision F;
  f_theory : field_theory f0 f1 fadd fmul fsub fopp fdiv finv eq
}.

Declare Scope field_ops_scope.
Delimit Scope field_ops_scope with F.
Infix "+" := fadd : field_ops_scope.
Infix "*" := fmul : field_ops_scope.
Infix "-" := fsub : field_ops_scope.
Infix "/" := fdiv : field_ops_scope.

#[export] Existing Instance f_eq_dec.

Section Sums.
Context {F : Type} {K : FieldOps F}.
#[local] Open Scope field_ops_scope.

Add Field field_ops_field : f_theory.

(** [lsum f l] is the sum of [f i] for [i] in the list [l]. *)
Fixpoint lsum (f : nat -> F) (l : list nat) : F :=
  match l with
  | [] => f0
  | i :: l => f i + lsum f l
  end.

(** The sum over [0, n). *)
Definition sum (n : nat) (f : nat -> F) : F := lsum f (seq 0 n).

Definition delta (i j : nat) : F := if decide (i = j) then f1 else f0.

Lemma lsum_ext f g l : (forall i, i ∈ l -> f i = g i) -> lsum f l = lsum g l.
Proof.
  induction l as [|i l IH]; intros H; cbn; [done|]. rewrite H, IH; [done| |]; set_solver.
Qed.

Lemma lsum_0 f l : (forall i, i ∈ l -> f i = f0) -> lsum f l = f0.
Proof.
  induction l as [|i l IH]; intros H; cbn; [done|]. rewrite H, IH; [ring| |]; set_solver.
Qed.

Lemma lsum_add f g l : lsum (fun i => f i + g i) l = lsum f l + lsum g l.
Proof. induction l as [|i l IH]; cbn; [ring|]. rewrite IH. ring. Qed.

Lemma lsum_scale c f l : lsum (fun i => c * f i) l = c * lsum f l.
Proof. induction l as [|i l IH]; cbn; [ring|]. rewrite IH. ring. Qed.

Lemma lsum_app f l k : lsum f (l ++ k) = lsum f l + lsum f k.
Proof. induction l as [|i l IH]; cbn; [ring|]. rewrite IH. ring. Qed.

Lemma lsum_perm f l k : l ≡ₚ k -> lsum f l = lsum f k.
Proof. induction 1; cbn; [done|congruence|ring|congruence]. Qed.

Lemma lsum_swap (f : nat -> nat -> F) l k :
  lsum (fun i => lsum (f i) k) l = lsum (fun j => lsum (fun i => f i j) l) k.
Proof.
  induction l as [|i l IH]; cbn.
  - symmetry. by apply lsum_0.
  - rewrite IH, <- lsum_add. done.
Qed.

Lemma lsum_delta f l i : NoDup l -> i ∈ l -> lsum (fun j => delta i j * f j) l = f i.
Proof.
  unfold delta. induction 1 as [|x l Hx Hl IH]; intros Hi; [set_solver|]. cbn.
  case_decide as Hd.
  - subst. rewrite lsum_0; [ring|]. intros j Hj. rewrite decide_False by set_solver. ring.
  - rewrite IH by set_solver. ring.
Qed.

Lemma sum_ext n f g : (forall i, (i < n)%nat -> f i = g i) -> sum n f = sum n g.
Proof. intros H. apply lsum_ext. intros i Hi%elem_of_seq. apply H. lia. Qed.

Lemma sum_0 n f : (forall i, (i < n)%nat -> f i = f0) -> sum n f = f0.
Proof. intros H. apply lsum_0. intros i Hi%elem_of_seq. apply H. lia. Qed.

Lemma sum_add n f g : sum n (fun i => f i + g i) = sum n f + sum n g.
Proof. apply lsum_add. Qed.

Lemma sum_scale n c f : sum n (fun i => c * f i) = c * sum n f.
Proof. apply lsum_scale. Qed.

Lemma sum_swap n m (f : nat -> nat -> F) :
  sum n (fun i => sum m (f i)) = sum m (fun j => sum n (fun i => f i j)).
Proof. apply lsum_swap. Qed.

Lemma sum_delta n f i : (i < n)%nat -> sum n (fun j => delta i j * f j) = f i.
Proof. intros Hi. apply lsum_delta; [apply NoDup_seq|]. apply elem_of_seq. lia. Qed.

Lemma sum_S n f : sum (S n) f = sum n f + f n.
Proof. unfold sum. rewrite seq_S, lsum_app. cbn. ring. Qed.

Lemma delta_sym i j : delta i j = delta j i.
Proof. unfold delta. by repeat case_decide. Qed.

(** ** Fields have no zero divisors *)
Lemma f1_neq_f0 : f1 <> f0.
Proof. exact (F_1_neq_0 f_theory). Qed.

Lemma finv_l x : x <> f0 -> finv x * x = f1.
Proof. exact (Finv_l f_theory x). Qed.

Lemma fmul_eq_0 x y : x * y = f0 -> x <> f0 -> y = f0.
Proof.
  intros H Hx. replace y with (finv x * (x * y)); [rewrite H; ring|].
  transitivity ((finv x * x) * y); [ring|]. rewrite finv_l by done. ring.
Qed.

Lemma fmul_neq_0 x y : x <> f0 -> y <> f0 -> x * y <> f0.
Proof. intros Hx Hy H. by apply Hy, (fmul_eq_0 x). Qed.

Lemma finv_neq_0 x : x <> f0 -> finv x <> f0.
Proof.
  intros Hx H. pose proof (finv_l x Hx) as Hi. rewrite H in Hi. apply f1_neq_f0.
  rewrite <- Hi. ring.
Qed.

Lemma fsub_neq_0 x y : x <> y -> x - y <> f0.
Proof. intros Hxy H. apply Hxy. replace x with ((x - y) + y) by ring. rewrite H. ring. Qed.

(** ** Kernels *)

(** The [n] columns of [A] are independent: only the zero vector is mapped to
    zero by the [n] rows of [A]. *)
Definition trivial_kernel (n : nat) (A : nat -> nat -> F) : Prop :=
  forall v, (forall i, (i < n)%nat -> sum n (fun j => A i j * v j) = f0) ->
    forall j, (j < n)%nat -> v j = f0.

(** The elimination step behind [cauchy_kernel]: combining the equations of
    [y] and [y0] cancels the unknown of [xm]. *)
Lemma cauchy_combine (x : nat -> F) (c : nat -> F) (xm y y0 : F) l :
  (forall i, i ∈ l -> x i + y <> f0 /\ x i + y0 <> f0) ->
  (y + xm) * lsum (fun i => c i / (x i + y)) l - (y0 + xm) * lsum (fun i => c i / (x i + y0)) l
  = (y - y0) * lsum (fun i => (c i * ((x i - xm) / (x i + y0))) / (x i + y)) l.
Proof.
  intros H. induction l as [|i l IH]; cbn [lsum]; [ring|].
  transitivity (((y + xm) * (c i / (x i + y)) - (y0 + xm) * (c i / (x i + y0)))
    + ((y + xm) * lsum (fun i => c i / (x i + y)) l
       - (y0 + xm) * lsum (fun i => c i / (x i + y0)) l)); [ring|].
  rewrite IH by set_solver.
  destruct (H i) as [H1 H2]; [set_solver|]. field. auto.
Qed.

Lemma cauchy_kernel (x : nat -> F) (unknowns : list nat) :
  forall (ys : list F) (c : nat -> F),
  NoDup unknowns -> NoDup ys -> (length unknowns <= length ys)%nat ->
  (forall i j, i ∈ unknowns -> j ∈ unknowns -> x i = x j -> i = j) ->
  (forall i y, i ∈ unknowns -> y ∈ ys -> x i + y <> f0) ->
  (forall y, y ∈ ys -> lsum (fun i => c i / (x i + y)) unknowns = f0) ->
  forall i, i ∈ unknowns -> c i = f0.
Proof.
  induction unknowns as [|m l IH]; intros ys c Hnd Hys Hlen Hinj Hne Heq i Hi; [set_solver|].
  destruct ys as [|y0 ys]; [cbn in Hlen; lia|].
  apply NoDup_cons in Hnd as [Hm Hnd], Hys as [Hy0 Hys].
  assert (forall i, i ∈ l -> x i + y0 <> f0) as Hne0 by (intros; apply Hne; set_solver).
  assert (forall i, i ∈ l -> c i = f0) as Hl.
  { assert (forall i, i ∈ l -> c i * ((x i - x m) / (x i + y0)) = f0) as Hc.
    { apply (IH ys); [done|done|cbn in Hlen; lia| | |].
      - intros a b Ha Hb. apply Hinj; set_solver.
      - intros a b Ha Hb. apply Hne; set_solver.
      - intros y Hy. apply (fmul_eq_0 (y - y0)); [|apply fsub_neq_0; set_solver].
        rewrite <- (cauchy_combine x c (x m) y y0 l)
          by (intros; split; apply Hne; set_solver).
        pose proof (Heq y ltac:(set_solver)) as E. pose proof (Heq y0 ltac:(set_solver)) as E0.
        cbn [lsum] in E, E0.
        assert (x m + y <> f0) by (apply Hne; set_solver).
        assert (x m + y0 <> f0) by (apply Hne; set_solver).
        transitivity ((y + x m) * (c m / (x m + y) + lsum (fun i => c i / (x i + y)) l)
          - (y0 + x m) * (c m / (x m + y0) + lsum (fun i => c i / (x i + y0)) l));
          [field; auto|]. rewrite E, E0. ring. }
    intros j Hj. apply (fmul_eq_0 ((x j - x m) / (x j + y0))).
    - rewrite <- (Hc j Hj). field. by apply Hne0.
    - rewrite (Fdiv_def f_theory). apply fmul_neq_0; [|by apply finv_neq_0, Hne0].
      apply fsub_neq_0. intros E%Hinj; set_solver. }
  rewrite elem_of_cons in Hi. destruct Hi as [->|Hi]; [|by apply Hl].
  pose proof (Heq y0 ltac:(set_solver)) as E. cbn [lsum] in E.
  rewrite (lsum_0 _ l) in E
    by (intros j Hj; rewrite Hl, (Fdiv_def f_theory) by done; ring).
  assert (x m + y0 <> f0) as Hm0 by (apply Hne; set_solver).
  replace (c m) with ((x m + y0) * (c m / (x m + y0) + f0)) by (field; done).
  rewrite E. ring.
Qed.

Lemma lsum_filter (P : nat -> Prop) {Pdec : forall i, Decision (P i)} f l :
  (forall i, i ∈ l -> ~ P i -> f i = f0) -> lsum f (filter P l) = lsum f l.
Proof.
  induction l as [|i l IH]; intros H; cbn [lsum]; [done|].
  rewrite filter_cons. case_decide as HP; cbn [lsum]; rewrite IH by set_solver; [done|].
  rewrite (H i); [ring|set_solver|done].
Qed.

(** ** Gauss-Jordan elimination

    The decoder works on a matrix [M] with [n] rows and [2 * n] columns that
    starts as [A] next to the identity.  [gj_inv c M] is its invariant before
    column [c]: the right half says how each row was made from the rows of
    [A], the first [c] columns are those of the identity, and no information
    of [A] was lost. *)
Section GaussJordan.
Variables (n : nat) (A : nat -> nat -> F).

Record gj_inv (c : nat) (M : nat -> nat -> F) : Prop := {
  gj_lin : forall i j, (i < n)%nat -> (j < n)%nat ->
    M i j = sum n (fun k => M i (n + k)%nat * A k j);
  gj_ident : forall i j, (i < n)%nat -> (j < c)%nat -> M i j = delta i j;
  gj_ker : forall v, (forall i, (i < n)%nat -> sum n (fun j => M i j * v j) = f0) ->
    forall i, (i < n)%nat -> sum n (fun j => A i j * v j) = f0
}.

Definition swapped (p c i : nat) : nat :=
  if decide (i = c) then p else if decide (i = p) then c else i.

(** The round of column [c] with pivot row [p]. *)
Definition gj_step (c p : nat) (M : nat -> nat -> F) (i j : nat) : F :=
  let S i j := M (swapped p c i) j in
  if decide (i = c) then S c j * finv (S c c)
  else S i j - S i c * (S c j * finv (S c c)).

Lemma swapped_lt p c i : (p < n)%nat -> (c < n)%nat -> (i < n)%nat -> (swapped p c i < n)%nat.
Proof. unfold swapped. repeat case_decide; lia. Qed.

Lemma swapped_swapped p c i : swapped p c (swapped p c i) = i.
Proof. unfold swapped. repeat case_decide; lia. Qed.

Lemma gj_start M :
  (forall i j, (i < n)%nat -> (j < n)%nat -> M i j = A i j) ->
  (forall i j, (i < n)%nat -> (j < n)%nat -> M i (n + j)%nat = delta i j) ->
  gj_inv 0 M.
Proof.
  intros HA HI. constructor.
  - intros i j Hi Hj. rewrite HA by done.
    rewrite (sum_ext n _ (fun k => delta i k * A k j)) by (intros; rewrite HI; done).
    by rewrite (sum_delta n (fun k => A k j)).
  - lia.
  - intros v Hv i Hi. rewrite <- (Hv i Hi). apply sum_ext. intros. by rewrite HA.
Qed.

Lemma gj_inv_ext c M M' :
  (c <= n)%nat -> (forall i j, (i < n)%nat -> (j < n + n)%nat -> M' i j = M i j) ->
  gj_inv c M -> gj_inv c M'.
Proof.
  intros Hc HE HM. constructor.
  - intros i j Hi Hj. rewrite HE, (gj_lin _ _ HM) by lia. apply sum_ext. intros. by rewrite HE by lia.
  - intros i j Hi Hj. rewrite HE by lia. by apply (gj_ident _ _ HM).
  - intros v Hv. apply (gj_ker _ _ HM). intros i Hi. rewrite <- (Hv i Hi).
    apply sum_ext. intros. by rewrite HE by lia.
Qed.

(** As long as the columns of [A] are independent, there is a pivot. *)
Lemma gj_pivot c M :
  trivial_kernel n A -> gj_inv c M -> (c < n)%nat ->
  ~ (forall i, (c <= i)%nat -> (i < n)%nat -> M i c = f0).
Proof.
  intros HA HM Hc H0.
  set (v := fun j => if decide (j = c) then f0 - f1
                     else if decide (j < c)%nat then M j c else f0).
  assert (v c = f0) as Hv.
  { apply HA; [|done]. apply (gj_ker _ _ HM). intros i Hi.
    assert (sum n (fun j => M i j * v j)
            = sum n (fun j => delta i j * (if decide (j < c)%nat then M j c else f0)
                              - delta c j * M i c)) as ->.
    { apply sum_ext. intros j Hj. unfold v.
      destruct (decide (j = c)) as [->|Hne].
      - rewrite (decide_False (P := (c < c)%nat)) by lia. unfold delta.
        rewrite (decide_True (P := c = c)) by done. ring.
      - assert (delta c j = f0) as -> by (unfold delta; by rewrite decide_False by lia).
        case_decide; [|ring]. rewrite (gj_ident _ _ HM) by lia. ring. }
    rewrite (sum_ext n _ (fun j => delta i j * (if decide (j < c)%nat then M j c else f0)
                              + delta c j * (f0 - M i c))) by (intros; ring).
    rewrite sum_add, (sum_delta n (fun j => if decide (j < c)%nat then M j c else f0)) by done.
    rewrite (sum_delta n (fun _ => f0 - M i c)) by done.
    case_decide; [ring|]. rewrite H0 by lia. ring. }
  unfold v in Hv. rewrite decide_True in Hv by done.
  apply f1_neq_f0. replace f1 with (f0 - (f0 - f1)) by ring. rewrite Hv. ring.
Qed.

Lemma sum_comb a (r q v : nat -> F) :
  sum n (fun j => (r j - a * q j) * v j)
  = sum n (fun j => r j * v j) - a * sum n (fun j => q j * v j).
Proof.
  rewrite (sum_ext n _ (fun j => r j * v j + (f0 - a) * (q j * v j))) by (intros; ring).
  rewrite sum_add, sum_scale. ring.
Qed.

Lemma sum_scale_r a (q v : nat -> F) :
  sum n (fun j => (q j * a) * v j) = sum n (fun j => q j * v j) * a.
Proof.
  rewrite (sum_ext n _ (fun j => a * (q j * v j))) by (intros; ring).
  rewrite sum_scale. ring.
Qed.

Lemma gj_step_inv c p M :
  (c < n)%nat -> (c <= p)%nat -> (p < n)%nat -> M p c <> f0 ->
  gj_inv c M -> gj_inv (S c) (gj_step c p M).
Proof.
  intros Hc Hcp Hp Hpiv HM.
  set (R := fun i j => M (swapped p c i) j).
  assert (R c c <> f0) as HRc by (unfold R, swapped; by rewrite decide_True by done).
  assert (forall i j, gj_step c p M i j
    = if decide (i = c) then R c j * finv (R c c)
      else R i j - R i c * (R c j * finv (R c c))) as Hstep by done.
  assert (forall i j, (i < n)%nat -> (j < n)%nat ->
    R i j = sum n (fun k => R i (n + k)%nat * A k j)) as Rlin.
  { intros i j Hi Hj. apply (gj_lin _ _ HM); auto using swapped_lt. }
  assert (forall i j, (i < n)%nat -> (j < c)%nat -> R i j = delta i j) as Rid.
  { intros i j Hi Hj. unfold R. rewrite (gj_ident _ _ HM) by auto using swapped_lt.
    unfold delta, swapped. repeat case_decide; done || lia. }
  constructor.
  - intros i j Hi Hj. rewrite Hstep, (sum_ext n _ (fun k => (if decide (i = c)
      then R c (n + k)%nat * finv (R c c)
      else R i (n + k)%nat - R i c * (R c (n + k)%nat * finv (R c c))) * A k j)) by done.
    case_decide.
    + by rewrite sum_scale_r, <- Rlin.
    + rewrite (sum_comb (R i c) (fun k => R i (n + k)%nat)
        (fun k => R c (n + k)%nat * finv (R c c)) (fun k => A k j)).
      by rewrite sum_scale_r, <- !Rlin.
  - intros i j Hi Hj. rewrite Hstep. destruct (decide (j = c)) as [->|Hne].
    + pose proof (finv_l _ HRc) as Hinv. case_decide as Hic.
      * subst i. transitivity (finv (R c c) * R c c); [ring|]. rewrite Hinv.
        unfold delta. by rewrite decide_True.
      * transitivity (R i c - R i c * (finv (R c c) * R c c)); [ring|]. rewrite Hinv.
        unfold delta. rewrite decide_False by done. ring.
    + rewrite (Rid c j), (Rid i j) by lia.
      assert (delta c j = f0) as -> by (unfold delta; by rewrite decide_False by lia).
      case_decide; [subst; unfold delta; rewrite decide_False by lia|]; ring.
  - intros v Hv. apply (gj_ker _ _ HM).
    assert (sum n (fun j => R c j * v j) = f0) as HcR.
    { pose proof (Hv c Hc) as H.
      rewrite (sum_ext n _ (fun j => (R c j * finv (R c c)) * v j)) in H
        by (intros; rewrite Hstep, decide_True; done).
      rewrite sum_scale_r in H. apply (fmul_eq_0 (finv (R c c))); [|by apply finv_neq_0].
      rewrite <- H. ring. }
    assert (forall i, (i < n)%nat -> sum n (fun j => R i j * v j) = f0) as HR.
    { intros i Hi. destruct (decide (i = c)) as [->|Hic]; [done|].
      pose proof (Hv i Hi) as H.
      rewrite (sum_ext n _ (fun j => (R i j - R i c * (R c j * finv (R c c))) * v j)) in H
        by (intros; rewrite Hstep, decide_False; done).
      rewrite sum_comb, sum_scale_r, HcR in H. rewrite <- H. ring. }
    intros i Hi. rewrite <- (swapped_swapped p c i).
    apply (HR (swapped p c i)). auto using swapped_lt.
Qed.

(** After the last column the right half is a left inverse of [A]. *)
Lemma gj_end M i (d : nat -> F) :
  gj_inv n M -> (i < n)%nat ->
  sum n (fun s => M i (n + s)%nat * sum n (fun j => A s j * d j)) = d i.
Proof.
  intros HM Hi.
  rewrite (sum_ext n _ (fun s => sum n (fun j => M i (n + s)%nat * (A s j * d j))))
    by (intros; by rewrite sum_scale).
  rewrite sum_swap.
  rewrite (sum_ext n _ (fun j => delta i j * d j)).
  - by apply sum_delta.
  - intros j Hj. rewrite <- (gj_ident _ _ HM i j), (gj_lin _ _ HM i j) by done.
    rewrite (sum_ext n _ (fun k => d j * (M i (n + k)%nat * A k j))) by (intros; ring).
    rewrite sum_scale. ring.
Qed.
End GaussJordan.
End Sums.
