(* ===== verification/Gf16Field.v ===== *)
(** * GF(2^16) as an instance of [FieldOps]

    [gf] is the type of words; its operations are those of Gf16.v.  [gf_of]
    reads a [u16] as a field element, and the lemmas [gf_of_*] carry the word
    operations of the code to the field. *)

From Stdlib Require Import Field_theory.
From S2P Require Import Prelude Format Gf16 LinAlg.
#[local] Open Scope Z_scope.

Record gf : Type := Gf { gf_val : Z; gf_ok : fitsb 16 gf_val = true }.

Lemma gf_eq (x y : gf) : gf_val x = gf_val y -> x = y.
Proof.
  destruct x as [x Hx], y as [y Hy]. cbn. intros ->. f_equal. apply proof_irrel.
Qed.

Lemma gf_val_fits (x : gf) : u16 (gf_val x).
Proof. apply fitsb_fits, gf_ok. Qed.

Lemma gf_of_ok z : fitsb 16 (z `mod` 2 ^ 16) = true.
Proof. apply fitsb_fits. unfold fits. apply Z.mod_pos_bound. lia. Qed.

Definition gf_of (z : Z) : gf := Gf (z `mod` 2 ^ 16) (gf_of_ok z).

Definition gf_add (x y : gf) : gf := gf_of (gf16_add (gf_val x) (gf_val y)).
Definition gf_mul (x y : gf) : gf := gf_of (gf16_mul_slow (gf_val x) (gf_val y)).
Definition gf_inv (x : gf) : gf :=
  gf_of (match gf16_inverse (gf_val x) with Ok w => w | _ => 0 end).

Lemma gf_val_of z : u16 z -> gf_val (gf_of z) = z.
Proof. intros H. apply Z.mod_small, H. Qed.

Lemma gf_of_val x : gf_of (gf_val x) = x.
Proof. apply gf_eq, gf_val_of, gf_val_fits. Qed.

Lemma gf_of_inj a b : u16 a -> u16 b -> gf_of a = gf_of b -> a = b.
Proof. intros Ha Hb H%(f_equal gf_val). by rewrite !gf_val_of in H. Qed.

Lemma gf_of_add a b : u16 a -> u16 b -> gf_of (Z.lxor a b) = gf_add (gf_of a) (gf_of b).
Proof. intros. unfold gf_add, gf16_add. by rewrite !gf_val_of. Qed.

Lemma gf_of_mul_slow a b :
  u16 a -> u16 b -> gf_of (gf16_mul_slow a b) = gf_mul (gf_of a) (gf_of b).
Proof. intros. unfold gf_mul. by rewrite !gf_val_of. Qed.

Lemma gf_add_val x y : gf_val (gf_add x y) = Z.lxor (gf_val x) (gf_val y).
Proof. apply gf_val_of, lxor_fits; auto using gf_val_fits. lia. Qed.

Lemma gf_mul_val x y : gf_val (gf_mul x y) = gf16_mul_slow (gf_val x) (gf_val y).
Proof. apply gf_val_of, gf16_mul_slow_fits, gf_val_fits. Qed.

Lemma gf_ring_theory :
  Ring_theory.ring_theory (gf_of 0) (gf_of 1) gf_add gf_mul gf_add (fun x => x) eq.
Proof.
  constructor; intros; apply gf_eq; rewrite ?gf_add_val, ?gf_mul_val, ?gf_add_val, ?gf_mul_val;
    rewrite ?(gf_val_of 0), ?(gf_val_of 1) by (unfold fits; lia);
    auto using Z.lxor_0_l, Z.lxor_comm, Z.lxor_nilpotent, gf16_mul_slow_comm, gf_val_fits,
      gf16_mul_slow_assoc, gf16_mul_slow_lxor_l.
  - by rewrite Z.lxor_assoc.
  - rewrite gf16_mul_slow_comm by auto using gf_val_fits, u16_1. apply gf16_mul_slow_1_r.
Qed.

Lemma gf_field_theory :
  field_theory (gf_of 0) (gf_of 1) gf_add gf_mul gf_add (fun x => x)
    (fun x y => gf_mul x (gf_inv y)) gf_inv eq.
Proof.
  constructor; [apply gf_ring_theory| |done|].
  - intros H%(f_equal gf_val). by rewrite !gf_val_of in H by (unfold fits; lia).
  - intros x Hx. unfold gf_inv, gf16_inverse.
    destruct (tables_inverse gf16_tables (gf_val x)) as (w & Hw & Hfw & Hm).
    + apply gf16_tables_ok.
    + apply gf_val_fits.
    + intros H. apply Hx. apply gf_eq. rewrite H, gf_val_of; [done|]. unfold fits; lia.
    + rewrite Hw. apply gf_eq. rewrite gf_mul_val, !gf_val_of by (done || apply u16_1).
      by rewrite gf16_mul_slow_comm by auto using gf_val_fits.
Qed.

#[export] Instance gf_eq_dec : EqDecision gf.
Proof.
  intros x y. destruct (decide (gf_val x = gf_val y)) as [H|H]; [left; by apply gf_eq|right; congruence].
Defined.

#[export] Instance gf_field : FieldOps gf := {|
  f0 := gf_of 0;
  f1 := gf_of 1;
  fadd := gf_add;
  fmul := gf_mul;
  fsub := gf_add;
  fopp := fun x => x;
  fdiv := fun x y => gf_mul x (gf_inv y);
  finv := gf_inv;
  f_eq_dec := gf_eq_dec;
  f_theory := gf_field_theory
|}.

#[local] Open Scope field_ops_scope.

(** In characteristic two, addition is its own inverse. *)
Lemma gf_add_self (x : gf) : x + x = f0.
Proof.
  apply gf_eq. change (x + x) with (gf_add x x). rewrite gf_add_val.
  change f0 with (gf_of 0). rewrite gf_val_of by (unfold fits; lia). apply Z.lxor_nilpotent.
Qed.

Lemma gf_of_0 : gf_of 0 = f0.
Proof. done. Qed.

Lemma gf_of_1 : gf_of 1 = f1.
Proof. done. Qed.

Lemma gf_of_lxor a b : u16 a -> u16 b -> gf_of (Z.lxor a b) = gf_of a + gf_of b.
Proof. apply gf_of_add. Qed.

Lemma gf_of_mul a b :
  u16 a -> u16 b -> gf_of (gf16_mul_with gf16_tables a b) = gf_of a * gf_of b.
Proof.
  intros. rewrite tables_mul by auto using gf16_tables_ok. by apply gf_of_mul_slow.
Qed.

Lemma gf_of_eq_0 a : u16 a -> gf_of a = f0 -> a = 0%Z.
Proof. intros Ha. apply gf_of_inj; [done|]. unfold fits; lia. Qed.

Lemma gf_of_inverse a :
  u16 a -> a <> 0%Z ->
  exists w, gf16_inverse_with gf16_tables a = Ok w /\ u16 w /\ gf_of w = finv (gf_of a).
Proof.
  intros Ha Ha0. destruct (tables_inverse gf16_tables a) as (w & Hw & Hf & Hm);
    [apply gf16_tables_ok|done|done|].
  exists w. split_and!; [done|done|]. cbn. unfold gf_inv. rewrite gf_val_of by done.
  unfold gf16_inverse. by rewrite Hw.
Qed.

#[global] Opaque gf_of gf_add gf_mul gf_inv.
