(* ===== verification/Fec.v ===== *)
(** * The erasure code, [crates/tzap-core/src/fec.rs]

    Data shards are encoded with a Cauchy matrix over GF(2^16); the decoder
    inverts the matrix of the shards that survived.  Positions in the lists of
    shards and rows are [nat]; byte counts are [Z]. *)

From S2P Require Import Prelude Format Gf16.
#[local] Open Scope Z_scope.

(** The byte order of the machine, which [u64::from_ne_bytes] reads. *)
Class Target : Type := { target_big_endian : bool }.

(** [l[i]], which panics out of range. *)
Definition nth_or_panic {A} (l : list A) (i : nat) : fresult A :=
  match l !! i with
  | Some a => Ok a
  | None => Panic
  end.

(** A [for] loop over [l] that threads a state and may return early with an
    error. *)
Fixpoint foldM {A B} (f : B -> A -> fresult B) (acc : B) (l : list A) : fresult B :=
  match l with
  | [] => Ok acc
  | a :: l => acc ← f acc a; foldM f acc l
  end.

(** The pairwise update of a [for (d, s) in ds.iter_mut().zip(ss)] loop. *)
Fixpoint zip_update {A B} (f : A -> B -> A) (ds : list A) (ss : list B) : list A :=
  match ds, ss with
  | d :: ds, s :: ss => f d s :: zip_update f ds ss
  | ds, _ => ds
  end.

(** [b.chunks_exact(8)], and its remainder. *)
Fixpoint chunks8 (n : nat) (b : bytes) : list bytes :=
  match n with
  | O => []
  | S n => take 8 b :: chunks8 n (drop 8 b)
  end.

Definition chunks_exact8 (b : bytes) : list bytes := chunks8 (length b / 8) b.

Definition remainder8 (b : bytes) : bytes := drop (8 * (length b / 8)) b.

Section Shards.
Context {T : Target}.

Definition from_ne_bytes (b : bytes) : Z :=
  le_combine (if target_big_endian then rev b else b).

Definition to_ne_bytes8 (z : Z) : bytes :=
  let b := le_bytes 8 z in if target_big_endian then rev b else b.

Definition xor_chunk (d s : bytes) : bytes :=
  to_ne_bytes8 (Z.lxor (from_ne_bytes d) (from_ne_bytes s)).

Definition accumulate_xor_shard (dest src : bytes) : bytes :=
  concat (zip_update xor_chunk (chunks_exact8 dest) (chunks_exact8 src))
  ++ zip_update byte.xor (remainder8 dest) (remainder8 src).

Fixpoint accumulate_gf16_mul_shard (dest src : bytes) (log_c : Z) (tables : Gf16Tables)
    : fresult bytes :=
  match dest, src with
  | d0 :: d1 :: dest, s0 :: s1 :: src =>
      let symbol := le_combine [s0; s1] in
      let out :=
        if negb (symbol =? 0)
        then
          let val := array_get (exp tables) (array_get (log tables) symbol + log_c) in
          le_bytes 2 (Z.lxor (le_combine [d0; d1]) val)
        else [d0; d1] in
      rest ← accumulate_gf16_mul_shard dest src log_c tables;
      mret (out ++ rest)
  | _ :: _ :: _, _ => Panic
  | dest, _ => Ok dest
  end.

(** The body of both inner loops: add [coefficient * src] to [dest]. *)
Definition accumulate_shard (tables : Gf16Tables) (coefficient : Z) (dest src : bytes)
    : fresult bytes :=
  if coefficient =? 0 then Ok dest
  else if coefficient =? 1 then Ok (accumulate_xor_shard dest src)
  else accumulate_gf16_mul_shard dest src (array_get (log tables) coefficient) tables.

Definition validate_fec_counts (data_shard_count parity_shard_count : Z) : fresult unit :=
  reject_if (data_shard_count =? 0) FecZeroDataShards;;
  total ← ok_or (checked_add 64 data_shard_count parity_shard_count)
            (FecTooManyShards usize_max);
  reject_if (GF16_MAX_TOTAL_SHARDS <? total) (FecTooManyShards total).

Definition validate_fec_shape (data_shard_count parity_shard_count : Z) (data_shards : list bytes)
    : fresult unit :=
  validate_fec_counts data_shard_count parity_shard_count;;
  first ← nth_or_panic data_shards 0;
  let shard_size := blen first in
  reject_if (negb (shard_size `mod` 2 =? 0)) FecOddShardSize;;
  reject_if (existsb (fun shard => negb (blen shard =? shard_size)) data_shards)
    FecInconsistentShardSize.

Definition validate_available_shard (shard : bytes) (shard_size : Z) : fresult bytes :=
  reject_if (negb (blen shard =? shard_size)) FecInconsistentShardSize;;
  mret shard.

Definition cauchy_coefficient_with (tables : Gf16Tables) (data_shard_count parity_row data_col : nat)
    : fresult Z :=
  let x_i := Z.of_nat data_col `mod` 2 ^ 16 in
  let y_j := Z.of_nat (data_shard_count + parity_row) `mod` 2 ^ 16 in
  expect_ok (gf16_inverse_with tables (Z.lxor x_i y_j)).

Definition cauchy_row (data_shard_count parity_row : nat) : fresult (list Z) :=
  mapM (cauchy_coefficient_with gf16_tables data_shard_count parity_row) (seq 0 data_shard_count).

Definition identity_row (width one_at : nat) : list Z := <[one_at := 1]> (replicate width 0).

Definition encode_parity_row (data_shards : list bytes) (shard_size : Z) (j : nat)
    : fresult bytes :=
  foldM (fun parity_shard i =>
      data_shard ← nth_or_panic data_shards i;
      coefficient ← cauchy_coefficient_with gf16_tables (length data_shards) j i;
      accumulate_shard gf16_tables coefficient parity_shard data_shard)
    (zeros shard_size) (seq 0 (length data_shards)).

Definition encode_parity_gf16 (data_shards : list bytes) (parity_shard_count : nat)
    : fresult (list bytes) :=
  let data_shard_count := Z.of_nat (length data_shards) in
  validate_fec_shape data_shard_count (Z.of_nat parity_shard_count) data_shards;;
  if (parity_shard_count =? 0)%nat then mret []
  else
    first ← nth_or_panic data_shards 0;
    mapM (encode_parity_row data_shards (blen first)) (seq 0 parity_shard_count).

(** [(col..n).find(|row| matrix[row][col] != 0)] *)
Fixpoint find_pivot (matrix : list (list Z)) (col : nat) (candidates : list nat)
    : fresult (option nat) :=
  match candidates with
  | [] => Ok None
  | row :: candidates =>
      r ← nth_or_panic matrix row;
      v ← nth_or_panic r col;
      if negb (v =? 0) then Ok (Some row) else find_pivot matrix col candidates
  end.

Definition swap_rows (matrix : list (list Z)) (a b : nat) : fresult (list (list Z)) :=
  ra ← nth_or_panic matrix a;
  rb ← nth_or_panic matrix b;
  mret (<[b := ra]> (<[a := rb]> matrix)).

Definition eliminate_row (tables : Gf16Tables) (col : nat) (pivot_row : list Z)
    (row_idx : nat) (row : list Z) : fresult (list Z) :=
  if (row_idx =? col)%nat then Ok row
  else
    factor ← nth_or_panic row col;
    if factor =? 0 then Ok row
    else Ok (zip_update (fun value pivot_value =>
               Z.lxor value (gf16_mul_with tables factor pivot_value)) row pivot_row).

(** One round of the Gauss-Jordan loop of [invert_matrix]. *)
Definition invert_step (matrix : list (list Z)) (col : nat) : fresult (list (list Z)) :=
  let n := length matrix in
  found ← find_pivot matrix col (seq col (n - col));
  pivot ← ok_or found FecSingularMatrix;
  matrix ← (if negb (pivot =? col)%nat then swap_rows matrix pivot col else Ok matrix);
  row ← nth_or_panic matrix col;
  v ← nth_or_panic row col;
  inv_pivot ← gf16_inverse_with gf16_tables v;
  let pivot_row := map (fun value => gf16_mul_with gf16_tables value inv_pivot) row in
  let matrix := <[col := pivot_row]> matrix in
  mapM (fun '(row_idx, row) => eliminate_row gf16_tables col pivot_row row_idx row)
    (zip (seq 0 n) matrix).

Definition augment (n : nat) (ir : nat * list Z) : fresult (list Z) :=
  reject_if (negb (length ir.2 =? n)%nat) FecSingularMatrix;;
  mret (ir.2 ++ identity_row n ir.1).

Definition invert_matrix (matrix : list (list Z)) : fresult (list (list Z)) :=
  let n := length matrix in
  matrix ← mapM (augment n) (zip (seq 0 n) matrix);
  matrix ← foldM invert_step matrix (seq 0 n);
  mret (map (fun row => take n (drop n row)) matrix).

(** The two loops that collect the surviving shards: [mk_row] is the matrix
    row of a shard at its position [i], and the loop stops at [limit] rows. *)
Fixpoint collect_rows (mk_row : nat -> fresult (list Z)) (shard_size : Z) (limit i : nat)
    (shards : list (option bytes)) (rows : list (list Z)) (available : list bytes)
    : fresult (list (list Z) * list bytes) :=
  match shards with
  | [] => Ok (rows, available)
  | None :: shards => collect_rows mk_row shard_size limit (S i) shards rows available
  | Some shard :: shards =>
      row ← mk_row i;
      let rows := rows ++ [row] in
      shard ← validate_available_shard shard shard_size;
      let available := available ++ [shard] in
      if (length rows =? limit)%nat then Ok (rows, available)
      else collect_rows mk_row shard_size limit (S i) shards rows available
  end.

Definition repair_row (inverse : list (list Z)) (available : list bytes) (shard_size : Z)
    (data_shard_count output_row : nat) : fresult bytes :=
  foldM (fun dest source_row =>
      row ← nth_or_panic inverse output_row;
      coefficient ← nth_or_panic row source_row;
      if coefficient =? 0 then Ok dest
      else
        src ← nth_or_panic available source_row;
        accumulate_shard gf16_tables coefficient dest src)
    (zeros shard_size) (seq 0 data_shard_count).

Definition is_present (shard : option bytes) : bool :=
  match shard with Some _ => true | None => false end.

Definition collect_survivors (data_shards parity_shards : list (option bytes)) (shard_size : Z)
    : fresult (list (list Z) * list bytes) :=
  let data_shard_count := length data_shards in
  '(rows, available) ←
    collect_rows (fun i => Ok (identity_row data_shard_count i)) shard_size data_shard_count 0
      data_shards [] [];
  if (length rows <? data_shard_count)%nat
  then collect_rows (cauchy_row data_shard_count) shard_size data_shard_count 0
         parity_shards rows available
  else mret (rows, available).

Definition repair_data_gf16 (data_shards parity_shards : list (option bytes)) (shard_size : Z)
    : fresult (list bytes) :=
  let data_shard_count := length data_shards in
  let parity_shard_count := length parity_shards in
  validate_fec_counts (Z.of_nat data_shard_count) (Z.of_nat parity_shard_count);;
  reject_if (negb (shard_size `mod` 2 =? 0)) FecOddShardSize;;
  if forallb is_present data_shards
  then mapM (fun shard => shard ← match shard with Some s => Ok s | None => Panic end;
                          validate_available_shard shard shard_size) data_shards
  else
    reject_if (READER_MAX_REPAIR_TOTAL_SHARDS <? Z.of_nat data_shard_count)
      (ReaderResourceLimitExceeded "fec repair data shards" READER_MAX_REPAIR_TOTAL_SHARDS
         (Z.of_nat data_shard_count));;
    '(rows, available) ← collect_survivors data_shards parity_shards shard_size;
    reject_if (length rows <? data_shard_count)%nat FecTooFewAvailableShards;;
    inverse ← invert_matrix rows;
    mapM (repair_row inverse available shard_size data_shard_count) (seq 0 data_shard_count).

Fixpoint concatenate_loop (data_shards : list (option bytes)) (shard_size : Z)
    (concatenated : bytes) : fresult (option bytes) :=
  match data_shards with
  | [] => Ok (Some concatenated)
  | None :: _ => Ok None
  | Some shard :: rest =>
      reject_if (negb (blen shard =? shard_size)) FecInconsistentShardSize;;
      concatenate_loop rest shard_size (concatenated ++ shard)
  end.

Definition concatenate_complete_data_shards (data_shards : list (option bytes)) (shard_size : Z)
    : fresult (option bytes) :=
  if negb (forallb is_present data_shards) || (length data_shards =? 0)%nat then mret None
  else
    _ ← ok_or (checked_mul 64 (Z.of_nat (length data_shards)) shard_size)
          FecInconsistentShardSize;
    concatenate_loop data_shards shard_size [].

Definition recover_data_bytes_gf16 (data_shards parity_shards : list (option bytes))
    (shard_size : Z) : fresult bytes :=
  complete ← concatenate_complete_data_shards data_shards shard_size;
  match complete with
  | Some concatenated => mret concatenated
  | None =>
      repaired ← repair_data_gf16 data_shards parity_shards shard_size;
      mret (concat repaired)
  end.
End Shards.
