(* ===== verification/FecCorrect.v ===== *)
(** * What the erasure code promises

    The shards of Fec.v are read as vectors of 16-bit symbols over the field of
    Gf16Field.v.  Each inner loop is shown to be a vector operation, each round
    of [invert_matrix] to be the Gauss-Jordan round of LinAlg.v, and the
    decoder to restore the data from any large enough set of shards. *)

From Stdlib Require Import Field_theory.
From S2P Require Import Prelude Format Gf16 LinAlg Gf16Field Fec.
#[local] Open Scope Z_scope.

(** ** Loops *)
Lemma nth_or_panic_Ok {A} (l : list A) i a : nth_or_panic l i = Ok a <-> l !! i = Some a.
Proof. unfold nth_or_panic. destruct (l !! i); split; congruence. Qed.

Lemma mapM_Ok {A B} (f : A -> fresult B) l k :
  mapM f l = Ok k <-> Forall2 (fun a b => f a = Ok b) l k.
Proof.
  revert k. induction l as [|a l IH]; intros k; cbn.
  - rewrite mret_Ok. split; [intros <-; constructor|by inversion 1].
  - rewrite bind_Ok. split.
    + intros (b & Hb & H). bind_inv H. subst. constructor; [done|]. by apply IH.
    + inversion 1; subst. eexists; split; [done|]. rewrite (proj2 (IH _)) by done. done.
Qed.

Lemma mapM_seq_Ok {B} (f : nat -> fresult B) (P : nat -> B -> Prop) n :
  (forall i, (i < n)%nat -> exists b, f i = Ok b /\ P i b) ->
  exists k, mapM f (seq 0 n) = Ok k /\ length k = n /\ forall i b, k !! i = Some b -> P i b.
Proof.
  intros H. assert (exists k, Forall2 (fun i b => f i = Ok b /\ P i b) (seq 0 n) k) as [k Hk].
  { assert (forall i, i ∈ seq 0 n -> exists b, f i = Ok b /\ P i b) as H'
      by (intros i Hi%elem_of_seq; apply H; lia).
    clear H. induction (seq 0 n) as [|i l IH]; [by exists []|].
    destruct (H' i ltac:(set_solver)) as [b Hb].
    destruct IH as [k Hk]; [intros; apply H'; set_solver|]. exists (b :: k). by constructor. }
  exists k. split_and!.
  - apply mapM_Ok. eapply Forall2_impl; [done|]. by intros ?? [].
  - apply Forall2_length in Hk. by rewrite length_seq in Hk.
  - intros i b Hb. destruct (Forall2_lookup_r _ _ _ _ _ Hk Hb) as (x & Hx & _ & HP).
    apply lookup_seq in Hx as [-> _]. done.
Qed.

Lemma foldM_ind {A B} (f : B -> A -> fresult B) (P : nat -> B -> Prop) l acc :
  P O acc ->
  (forall k a b, l !! k = Some a -> P k b -> exists b', f b a = Ok b' /\ P (S k) b') ->
  exists b, foldM f acc l = Ok b /\ P (length l) b.
Proof.
  revert P acc. induction l as [|a l IH]; intros P acc H0 HS; cbn; [eauto|].
  destruct (HS O a acc eq_refl H0) as (b' & -> & HP). cbn.
  apply (IH (fun k => P (S k))); [done|]. intros k x b Hx. by apply (HS (S k)).
Qed.

(** ** Symbols

    [sym b k] is the little-endian symbol at byte offset [2 * k]. *)
Definition sym (b : bytes) (k : nat) : gf := gf_of (le_combine (take 2 (drop (2 * k) b))).

Lemma le_combine_u16 b : (length b <= 2)%nat -> u16 (le_combine b).
Proof.
  intros H. pose proof (le_combine_bound b).
  assert (2 ^ (8 * Z.of_nat (length b)) <= 2 ^ 16) by (apply Z.pow_le_mono_r; lia).
  unfold fits. lia.
Qed.

Lemma byte_induction2 (P : bytes -> bytes -> Prop) :
  P [] [] ->
  (forall a0 a1 a b0 b1 b, length a = length b -> P a b -> P (a0 :: a1 :: a) (b0 :: b1 :: b)) ->
  forall n a b, length a = (2 * n)%nat -> length b = (2 * n)%nat -> P a b.
Proof.
  intros H0 HS. induction n as [|n IH]; intros a b Ha Hb.
  - destruct a, b; done.
  - destruct a as [|a0 [|a1 a]], b as [|b0 [|b1 b]]; cbn in *; try lia.
    apply HS; [lia|]. apply IH; lia.
Qed.

Lemma sym_cons2 x y b k : sym (x :: y :: b) (S k) = sym b k.
Proof. unfold sym. replace (2 * S k)%nat with (S (S (2 * k))) by lia. done. Qed.

Lemma sym_cons2_0 x y b : sym (x :: y :: b) 0 = gf_of (le_combine [x; y]).
Proof. done. Qed.

Lemma le_combine_u16_2 x y : u16 (le_combine [x; y]).
Proof. apply le_combine_u16. cbn. lia. Qed.

(** Equal symbols make equal shards. *)
Lemma sym_inj n a b :
  length a = (2 * n)%nat -> length b = (2 * n)%nat -> (forall k, sym a k = sym b k) -> a = b.
Proof.
  revert n a b. apply (byte_induction2 (fun a b => (forall k, sym a k = sym b k) -> a = b)).
  - done.
  - intros a0 a1 a b0 b1 b Hl IH H.
    rewrite IH; [|intros k; pose proof (H (S k)) as Hk; by rewrite !sym_cons2 in Hk].
    pose proof (H O) as H0. rewrite !sym_cons2_0 in H0.
    apply gf_of_inj in H0; [|apply le_combine_u16_2..].
    apply le_combine_inj in H0; [|done]. by injection H0 as -> ->.
Qed.

(** ** The inner loops *)
Lemma zip_update_length {A B} (f : A -> B -> A) ds ss : length (zip_update f ds ss) = length ds.
Proof. revert ss. induction ds as [|d ds IH]; intros [|x ss]; cbn; congruence. Qed.

Lemma zip_update_app {A B} (f : A -> B -> A) d1 d2 s1 s2 :
  length d1 = length s1 ->
  zip_update f (d1 ++ d2) (s1 ++ s2) = zip_update f d1 s1 ++ zip_update f d2 s2.
Proof.
  revert s1. induction d1 as [|d d1 IH]; intros [|x s1]; cbn; intros; try lia; [done|].
  rewrite IH by lia. done.
Qed.

Lemma zip_update_rev {A B} (f : A -> B -> A) ds ss :
  length ds = length ss -> rev (zip_update f (rev ds) (rev ss)) = zip_update f ds ss.
Proof.
  revert ss. induction ds as [|d ds IH]; intros [|x ss]; cbn; intros; try lia; [done|].
  rewrite zip_update_app by (rewrite !length_rev; lia).
  rewrite rev_app_distr. cbn. rewrite IH by lia. done.
Qed.

Lemma zip_update_nth {A B} (f : A -> B -> A) ds ss i da db :
  length ds = length ss -> (i < length ds)%nat ->
  nth i (zip_update f ds ss) da = f (nth i ds da) (nth i ss db).
Proof.
  revert ss i. induction ds as [|d ds IH]; intros [|x ss] i; cbn; intros; try lia.
  destruct i; [done|]. apply IH; lia.
Qed.

Lemma byte_xor_unsigned x y : byte.unsigned (byte.xor x y) = Z.lxor (byte.unsigned x) (byte.unsigned y).
Proof.
  unfold byte.xor. rewrite byte.unsigned_of_Z. apply Z.mod_small.
  apply (lxor_fits 8); [lia|apply byte.unsigned_range..].
Qed.

Lemma byte_testbit_high x n : 8 <= n -> Z.testbit (byte.unsigned x) n = false.
Proof.
  intros Hn. pose proof (byte.unsigned_range x).
  destruct (decide (byte.unsigned x = 0)) as [->|]; [apply Z.testbit_0_l|].
  apply Z.bits_above_log2; [lia|]. assert (Z.log2 (byte.unsigned x) < 8); [|lia].
  apply Z.log2_lt_pow2; lia.
Qed.

Lemma le_combine_xor a b :
  length a = length b -> le_combine (zip_update byte.xor a b) = Z.lxor (le_combine a) (le_combine b).
Proof.
  revert b. induction a as [|x a IH]; intros [|y b]; cbn; intros; try lia; [done|].
  change (le_combine (?h :: ?t)) with (Z.lor (byte.unsigned h) (Z.shiftl (le_combine t) 8)).
  rewrite IH, byte_xor_unsigned by lia.
  apply Z.bits_inj'. intros n Hn.
  rewrite !Z.lxor_spec, !Z.lor_spec, !Z.lxor_spec, !Z.shiftl_spec, !Z.lxor_spec by done.
  destruct (decide (n < 8)).
  - rewrite !(Z.testbit_neg_r _ (n - 8)) by lia. by rewrite !orb_false_r.
  - by rewrite !byte_testbit_high by lia.
Qed.

Section Shards.
Context {T : Target}.

Lemma xor_chunk_zip d s :
  length d = 8%nat -> length s = 8%nat -> xor_chunk d s = zip_update byte.xor d s.
Proof.
  intros Hd Hs. unfold xor_chunk, to_ne_bytes8, from_ne_bytes. destruct target_big_endian.
  - rewrite <- le_combine_xor by (rewrite !length_rev; lia).
    rewrite split_le_combine' by (rewrite zip_update_length, length_rev; lia).
    apply zip_update_rev. lia.
  - rewrite <- le_combine_xor, split_le_combine' by (rewrite ?zip_update_length; lia). done.
Qed.

(** Eight bytes at a time or one at a time, in either byte order. *)
Lemma accumulate_xor_shard_bytes dest src :
  length dest = length src -> accumulate_xor_shard dest src = zip_update byte.xor dest src.
Proof.
  intros Hl. unfold accumulate_xor_shard, chunks_exact8, remainder8. rewrite <- Hl.
  assert (8 * (length dest / 8) <= length dest)%nat as Hn by apply Nat.Div0.mul_div_le.
  revert Hl Hn. generalize (length dest / 8)%nat as n. intros n.
  revert dest src. induction n as [|n IH]; intros dest src Hl Hn; [done|].
  cbn [chunks8 zip_update concat].
  rewrite xor_chunk_zip by (rewrite length_take; lia).
  rewrite <- app_assoc.
  replace (drop (8 * S n) dest) with (drop (8 * n) (drop 8 dest)) by (rewrite drop_drop; f_equal; lia).
  replace (drop (8 * S n) src) with (drop (8 * n) (drop 8 src)) by (rewrite drop_drop; f_equal; lia).
  rewrite IH by (rewrite !length_drop; lia).
  rewrite <- zip_update_app by (rewrite !length_take; lia). by rewrite !take_drop.
Qed.

Add Field gf_symbols : (f_theory (F := gf)).

(** [dest] becomes [dest + c * src], symbol by symbol. *)
Definition adds (c : gf) (dest src out : bytes) : Prop :=
  length out = length dest /\ forall k, sym out k = (sym dest k + c * sym src k)%F.

Lemma sym_nil k : sym [] k = f0.
Proof. unfold sym. rewrite drop_nil, take_nil. apply gf_of_0. Qed.

Lemma accumulate_xor_shard_adds n dest src :
  length dest = (2 * n)%nat -> length src = (2 * n)%nat ->
  adds f1 dest src (accumulate_xor_shard dest src).
Proof.
  intros Hd Hs. rewrite accumulate_xor_shard_bytes by lia.
  split; [apply zip_update_length|]. revert n dest src Hd Hs.
  apply (byte_induction2 (fun d s => forall k, sym (zip_update byte.xor d s) k
                                          = (sym d k + f1 * sym s k)%F)).
  - intros k. cbn [zip_update]. rewrite sym_nil. ring.
  - intros a0 a1 a b0 b1 b Hl IH [|k]; cbn [zip_update].
    + rewrite !sym_cons2_0. change [byte.xor a0 b0; byte.xor a1 b1]
        with (zip_update byte.xor [a0; a1] [b0; b1]).
      rewrite le_combine_xor, gf_of_lxor by (done || apply le_combine_u16_2). ring.
    + rewrite !sym_cons2. apply IH.
Qed.

(** The product by table lookup, on the logarithm of the coefficient. *)
Lemma mul_symbol_log c s :
  u16 c -> c <> 0 -> u16 s -> s <> 0 ->
  array_get (exp gf16_tables) (array_get (log gf16_tables) s + array_get (log gf16_tables) c)
  = gf16_mul_with gf16_tables s c.
Proof.
  intros _ Hc _ Hs. unfold gf16_mul_with.
  replace (s =? 0) with false by lia. replace (c =? 0) with false by lia. done.
Qed.

Lemma accumulate_gf16_mul_shard_adds n dest src c :
  u16 c -> c <> 0 -> length dest = (2 * n)%nat -> length src = (2 * n)%nat ->
  exists out,
    accumulate_gf16_mul_shard dest src (array_get (log gf16_tables) c) gf16_tables = Ok out
    /\ adds (gf_of c) dest src out.
Proof.
  intros Hc Hc0. revert n dest src.
  apply (byte_induction2 (fun dest src => exists out, _ = Ok out /\ adds (gf_of c) dest src out)).
  - eexists. split; [done|]. split; [done|]. intros k. rewrite sym_nil. ring.
  - intros d0 d1 dest s0 s1 src Hl (out & Hout & Hlen & Hsym).
    cbn [accumulate_gf16_mul_shard]. rewrite Hout.
    set (s := le_combine [s0; s1]). set (d := le_combine [d0; d1]).
    assert (u16 s) by apply le_combine_u16_2. assert (u16 d) by apply le_combine_u16_2.
    destruct (Z.eqb_spec s 0) as [Hs|Hs]; cbn [negb].
    + eexists. split; [done|]. split; [cbn; lia|]. intros [|k].
      * cbn [app]. rewrite !sym_cons2_0. fold s. rewrite Hs, gf_of_0. ring.
      * cbn [app]. by rewrite !sym_cons2.
    + rewrite mul_symbol_log by done.
      set (v := Z.lxor d _).
      assert (u16 v) by (apply lxor_fits; [lia|done|by apply tables_mul_fits; [apply gf16_tables_ok|..]]).
      eexists. split; [done|].
      assert (exists v0 v1, le_bytes 2 v = [v0; v1]) as (v0 & v1 & Hv) by (do 2 eexists; done).
      split; [rewrite Hv; cbn; lia|]. rewrite Hv. cbn [app]. intros [|k].
      * rewrite !sym_cons2_0, <- Hv, le_combine_bytes by done. unfold v.
        rewrite gf_of_lxor, gf_of_mul by (done || (apply tables_mul_fits; [apply gf16_tables_ok|done..])).
        fold d s. ring.
      * by rewrite !sym_cons2.
Qed.

Lemma accumulate_shard_adds n c dest src :
  u16 c -> length dest = (2 * n)%nat -> length src = (2 * n)%nat ->
  exists out, accumulate_shard gf16_tables c dest src = Ok out /\ adds (gf_of c) dest src out.
Proof.
  intros Hc Hd Hs. unfold accumulate_shard.
  destruct (Z.eqb_spec c 0) as [->|Hc0].
  { eexists. split; [done|]. split; [done|]. intros k. rewrite gf_of_0. ring. }
  destruct (Z.eqb_spec c 1) as [->|Hc1].
  { eexists. split; [done|]. rewrite gf_of_1. by apply (accumulate_xor_shard_adds n). }
  by apply (accumulate_gf16_mul_shard_adds n).
Qed.

(** A loop of such steps makes a linear combination. *)
Lemma foldM_adds L (f : bytes -> nat -> fresult bytes) (c : nat -> gf) (src : nat -> nat -> gf)
    l acc :
  length acc = L ->
  (forall i acc, i ∈ l -> length acc = L ->
    exists out, f acc i = Ok out /\ length out = L
                /\ forall k, sym out k = (sym acc k + c i * src i k)%F) ->
  exists out, foldM f acc l = Ok out /\ length out = L
              /\ forall k, sym out k = (sym acc k + lsum (fun i => c i * src i k) l)%F.
Proof.
  revert acc. induction l as [|i l IH]; intros acc Hacc H; cbn [foldM lsum].
  - eexists. split_and!; [done|done|]. intros k. ring.
  - destruct (H i acc ltac:(set_solver) Hacc) as (b & -> & Hb & Hs).
    destruct (IH b Hb) as (out & Hout & Hlen & Hsym).
    { intros j x Hj. apply H. set_solver. }
    exists out. split_and!; [done|done|]. intros k. rewrite Hsym, Hs. ring.
Qed.

(** ** The encoder *)

(** The symbol at [k] of shard [i]. *)
Definition dsym (shards : list bytes) (i k : nat) : gf := sym (nth i shards []) k.

Definition point (i : nat) : gf := gf_of (Z.of_nat i).

(** The Cauchy matrix: parity row [j], data column [i]. *)
Definition cauchy (D j i : nat) : gf := finv (point i + point (D + j))%F.

Definition same_size (n : nat) (shards : list bytes) : Prop :=
  Forall (fun shard => length shard = (2 * n)%nat) shards.

Lemma point_inj i j : Z.of_nat i < 2 ^ 16 -> Z.of_nat j < 2 ^ 16 -> point i = point j -> i = j.
Proof.
  intros Hi Hj H. apply Nat2Z.inj, gf_of_inj; [unfold fits; lia..|done].
Qed.

Lemma point_add_neq_0 i j :
  Z.of_nat i < 2 ^ 16 -> Z.of_nat j < 2 ^ 16 -> i <> j -> (point i + point j)%F <> f0.
Proof.
  intros Hi Hj Hij H. apply Hij, point_inj; [done..|].
  transitivity ((point i + point j) + point j)%F; [|rewrite H; ring].
  transitivity (point i + (point j + point j))%F; [rewrite gf_add_self|]; ring.
Qed.

Lemma cauchy_coefficient D j i :
  (i < D)%nat -> Z.of_nat (D + j) < 2 ^ 16 ->
  exists w, cauchy_coefficient_with gf16_tables D j i = Ok w /\ u16 w /\ gf_of w = cauchy D j i.
Proof.
  intros Hi Hj. unfold cauchy_coefficient_with.
  rewrite !Z.mod_small by lia.
  assert (u16 (Z.of_nat i)) by (unfold fits; lia).
  assert (u16 (Z.of_nat (D + j))) by (unfold fits; lia).
  destruct (gf_of_inverse (Z.lxor (Z.of_nat i) (Z.of_nat (D + j)))) as (w & Hw & Hf & Hi').
  - by apply lxor_fits.
  - intros Hz%Z.lxor_eq. lia.
  - exists w. rewrite Hw. split_and!; [done|done|]. unfold cauchy, point. by rewrite Hi', gf_of_lxor.
Qed.

Lemma same_size_nth n shards i :
  same_size n shards -> (i < length shards)%nat -> length (nth i shards []) = (2 * n)%nat.
Proof.
  intros H Hi. destruct (lookup_lt_is_Some_2 shards i Hi) as [x Hx].
  rewrite (nth_lookup_Some _ _ _ _ Hx). by apply (Forall_lookup_1 _ _ _ _ H Hx).
Qed.

Lemma nth_or_panic_nth {A} (l : list A) i d :
  (i < length l)%nat -> nth_or_panic l i = Ok (nth i l d).
Proof.
  intros Hi. apply nth_or_panic_Ok. destruct (lookup_lt_is_Some_2 l i Hi) as [x Hx].
  by rewrite (nth_lookup_Some _ _ _ _ Hx).
Qed.

Lemma sym_zeros n k : sym (zeros n) k = f0.
Proof.
  unfold sym, zeros. rewrite drop_replicate, take_replicate.
  rewrite <- gf_of_0. f_equal. generalize (2 `min` (Z.to_nat n - 2 * k))%nat as m.
  intros m. transitivity (le_combine (List.repeat Byte.x00 m)); [f_equal|apply le_combine_0].
  induction m; cbn; congruence.
Qed.

Definition row_sum (w : nat -> gf) (shards : list bytes) (k : nat) : gf :=
  sum (length shards) (fun i => w i * dsym shards i k)%F.

Lemma encode_parity_row_spec n data_shards j :
  same_size n data_shards -> Z.of_nat (length data_shards + j) < 2 ^ 16 ->
  exists out, encode_parity_row data_shards (2 * Z.of_nat n) j = Ok out
    /\ length out = (2 * n)%nat
    /\ forall k, sym out k = row_sum (cauchy (length data_shards) j) data_shards k.
Proof.
  intros Hs Hj. unfold encode_parity_row.
  destruct (foldM_adds (2 * n) (fun parity_shard i =>
      data_shard ← nth_or_panic data_shards i;
      coefficient ← cauchy_coefficient_with gf16_tables (length data_shards) j i;
      accumulate_shard gf16_tables coefficient parity_shard data_shard)
    (cauchy (length data_shards) j) (dsym data_shards) (seq 0 (length data_shards))
    (zeros (2 * Z.of_nat n))) as (out & Hout & Hlen & Hsym).
  - unfold zeros. rewrite length_replicate. lia.
  - intros i acc Hi%elem_of_seq Hacc.
    rewrite (nth_or_panic_nth _ _ []) by lia.
    destruct (cauchy_coefficient (length data_shards) j i) as (w & -> & Hw & Hc); [lia..|].
    destruct (accumulate_shard_adds n w acc (nth i data_shards [])) as (o & Ho & Hol & Hos);
      [done|done|by apply same_size_nth; [|lia]|].
    exists o. split_and!; [done|lia|]. intros k. rewrite Hos, Hc. done.
  - exists out. split_and!; [done|done|]. intros k. rewrite Hsym, sym_zeros.
    unfold row_sum, sum. ring.
Qed.

(** What [encode_parity_gf16] asks of its input. *)
Definition shape_ok (data_shards : list bytes) (parity_shard_count : nat) : Prop :=
  data_shards <> [] /\ Z.of_nat (length data_shards + parity_shard_count) <= 65535
  /\ exists n, same_size n data_shards.

Lemma validate_fec_counts_Ok (D P : nat) :
  validate_fec_counts (Z.of_nat D) (Z.of_nat P) = Ok tt <-> (0 < D)%nat /\ Z.of_nat (D + P) <= 65535.
Proof.
  unfold validate_fec_counts, GF16_MAX_TOTAL_SHARDS. split.
  - intros H. bind_inv H. rewrite ok_or_Ok in Hr0. apply checked_add_Some in Hr0 as [? ->].
    apply reject_if_Ok in H. lia.
  - intros H. by run.
Qed.

Lemma validate_fec_counts_no_panic D P : validate_fec_counts D P <> Panic.
Proof. unfold validate_fec_counts. auto 10 with no_panic. Qed.

Lemma existsb_size (L : Z) shards :
  existsb (fun shard => negb (blen shard =? L)) shards = false
  <-> Forall (fun shard => blen shard = L) shards.
Proof.
  induction shards as [|x l IH]; cbn; [split; [constructor|done]|].
  rewrite orb_false_iff, IH, Forall_cons, negb_false_iff, Z.eqb_eq. done.
Qed.

Lemma validate_fec_shape_Ok P data_shards :
  validate_fec_shape (Z.of_nat (length data_shards)) (Z.of_nat P) data_shards = Ok tt
  <-> shape_ok data_shards P.
Proof.
  unfold validate_fec_shape, shape_ok. rewrite bind_Ok.
  destruct data_shards as [|first data_shards].
  { split; [|by intros [? _]]. intros ([] & H & _). apply validate_fec_counts_Ok in H. cbn in H. lia. }
  split.
  - intros ([] & Hc%validate_fec_counts_Ok & H). bind_inv H. injection Hr as <-.
    apply reject_if_Ok, existsb_size in H.
    split_and!; [done|lia|]. exists (Z.to_nat (blen first / 2)).
    eapply Forall_impl; [done|]. intros x Hx. cbn beta in Hx. unfold blen in *. Z.to_euclidean_division_equations. lia.
  - intros (_ & HD & n & Hn). exists tt. split; [apply validate_fec_counts_Ok; cbn in *; lia|].
    cbn [nth_or_panic lookup list_lookup]. change (nth_or_panic (first :: data_shards) 0) with (@Ok FormatError _ first).
    assert (blen first = 2 * Z.of_nat n) as Hf by (inversion Hn; subst; unfold blen; lia).
    rewrite bind_ret, Hf. run_with ltac:(by rewrite Z.mul_comm, Z_mod_mult).
    apply reject_if_false, existsb_size.
    eapply Forall_impl; [done|]. intros x Hx. cbn beta in Hx. unfold blen. lia.
Qed.

Lemma encode_parity_spec n data_shards P :
  same_size n data_shards -> data_shards <> [] -> Z.of_nat (length data_shards + P) <= 65535 ->
  exists parity, encode_parity_gf16 data_shards P = Ok parity /\ length parity = P
    /\ forall j p, parity !! j = Some p ->
       length p = (2 * n)%nat
       /\ forall k, sym p k = row_sum (cauchy (length data_shards) j) data_shards k.
Proof.
  intros Hs Hne HD. unfold encode_parity_gf16.
  rewrite (proj2 (validate_fec_shape_Ok P data_shards)) by (split_and!; [done|done|by exists n]).
  rewrite bind_ret. destruct (Nat.eqb_spec P 0) as [->|HP].
  { exists []. split_and!; [done|done|]. intros j p Hj. by rewrite lookup_nil in Hj. }
  destruct data_shards as [|first data_shards]; [done|].
  change (nth_or_panic (first :: data_shards) 0) with (@Ok FormatError _ first). rewrite bind_ret.
  assert (blen first = 2 * Z.of_nat n) as -> by (inversion Hs; subst; unfold blen; lia).
  destruct (mapM_seq_Ok (encode_parity_row (first :: data_shards) (2 * Z.of_nat n))
    (fun j p => length p = (2 * n)%nat /\ forall k, sym p k
       = row_sum (cauchy (length (first :: data_shards)) j) (first :: data_shards) k) P)
    as (parity & Hpar & Hlen & Hp); [|by exists parity].
  intros j Hj. destruct (encode_parity_row_spec n (first :: data_shards) j) as (o & Ho); [done|lia|].
  by exists o.
Qed.

(** ** Inverting a matrix *)

(** Row [i], column [j] of a matrix of [u16]s, as a field element. *)
Definition ent (M : list (list Z)) (i j : nat) : gf := gf_of (nth j (nth i M []) 0).

Definition wf_row (m : nat) (row : list Z) : Prop := length row = m /\ Forall u16 row.

Definition wf_matrix (n m : nat) (M : list (list Z)) : Prop := length M = n /\ Forall (wf_row m) M.

Lemma u16_0 : u16 0.
Proof. unfold fits. lia. Qed.

Lemma wf_row_nth m row j : wf_row m row -> u16 (nth j row 0).
Proof.
  intros [_ H]. destruct (decide (j < length row)%nat) as [Hj|Hj].
  - destruct (lookup_lt_is_Some_2 row j Hj) as [x Hx].
    rewrite (nth_lookup_Some _ _ _ _ Hx). apply (Forall_lookup_1 _ _ _ _ H Hx).
  - rewrite nth_overflow by lia. apply u16_0.
Qed.

Lemma wf_matrix_row n m M i : wf_matrix n m M -> (i < n)%nat -> wf_row m (nth i M []).
Proof.
  intros [Hn H] Hi. destruct (lookup_lt_is_Some_2 M i ltac:(lia)) as [x Hx].
  rewrite (nth_lookup_Some _ _ _ _ Hx). apply (Forall_lookup_1 _ _ _ _ H Hx).
Qed.

Lemma wf_matrix_intro n m M :
  length M = n -> (forall i, (i < n)%nat -> wf_row m (nth i M [])) -> wf_matrix n m M.
Proof.
  intros Hn H. split; [done|]. apply Forall_lookup_2. intros i x Hx.
  rewrite <- (nth_lookup_Some _ _ [] _ Hx). apply H. apply lookup_lt_Some in Hx. lia.
Qed.

Lemma nth_insert {A} (l : list A) i j x d :
  (i < length l)%nat -> nth j (<[i := x]> l) d = if decide (i = j) then x else nth j l d.
Proof.
  intros Hi. rewrite !nth_lookup, list_lookup_insert. repeat case_decide; intuition lia || done.
Qed.

Lemma swap_rows_spec n m M p c :
  wf_matrix n m M -> (p < n)%nat -> (c < n)%nat ->
  exists M', swap_rows M p c = Ok M' /\ wf_matrix n m M'
    /\ forall i, (i < n)%nat -> nth i M' [] = nth (swapped p c i) M [].
Proof.
  intros HM Hp Hc. pose proof HM as [Hn _]. unfold swap_rows.
  rewrite (nth_or_panic_nth M p []), bind_ret by lia.
  rewrite (nth_or_panic_nth M c []), bind_ret by lia.
  assert (forall i, (i < n)%nat ->
    nth i (<[c := nth p M []]> (<[p := nth c M []]> M)) [] = nth (swapped p c i) M []) as Hi.
  { intros i Hi. rewrite !nth_insert by (rewrite ?length_insert; lia). unfold swapped.
    repeat case_decide; subst; done || lia. }
  eexists. split_and!; [done| |done]. apply wf_matrix_intro; [rewrite !length_insert; done|].
  intros i Hin. rewrite Hi by done. eapply wf_matrix_row; [done|]. by apply swapped_lt.
Qed.

Lemma find_pivot_spec n m M col cands :
  wf_matrix n m M -> (col < m)%nat -> (forall i, i ∈ cands -> (i < n)%nat) ->
  (exists p, find_pivot M col cands = Ok (Some p) /\ p ∈ cands /\ nth col (nth p M []) 0 <> 0)
  \/ (find_pivot M col cands = Ok None /\ forall i, i ∈ cands -> ent M i col = f0).
Proof.
  intros HM Hcol. pose proof HM as [Hn _]. induction cands as [|r cands IH]; intros Hc.
  - right. split; [done|]. set_solver.
  - cbn [find_pivot]. pose proof (Hc r ltac:(set_solver)).
    rewrite (nth_or_panic_nth M r []), bind_ret by lia.
    pose proof (wf_matrix_row _ _ _ r HM ltac:(done)) as [Hl _].
    rewrite (nth_or_panic_nth _ col 0), bind_ret by lia.
    destruct (Z.eqb_spec (nth col (nth r M []) 0) 0) as [H0|H0]; cbn [negb].
    + destruct IH as [(p & -> & Hp & Hv)|[-> Hall]]; [set_solver| |].
      * left. exists p. split_and!; [done|set_solver|done].
      * right. split; [done|]. intros i [->|Hi]%elem_of_cons; [|by apply Hall].
        unfold ent. rewrite H0. apply gf_of_0.
    + left. exists r. split_and!; [done|set_solver|done].
Qed.

Lemma mapM_zip_seq_Ok {A B} (f : nat * A -> fresult B) (P : nat -> B -> Prop) (l : list A) :
  (forall i a, l !! i = Some a -> exists b, f (i, a) = Ok b /\ P i b) ->
  exists k, mapM f (zip (seq 0 (length l)) l) = Ok k /\ length k = length l
            /\ forall i b, k !! i = Some b -> P i b.
Proof.
  intros H.
  assert (forall s, (forall i a, l !! i = Some a -> exists b, f ((s + i)%nat, a) = Ok b /\ P (s + i)%nat b)
    -> exists k, mapM f (zip (seq s (length l)) l) = Ok k /\ length k = length l
            /\ forall i b, k !! i = Some b -> P (s + i)%nat b) as G; [|by apply (G O)].
  clear H. induction l as [|a l IH]; intros s H; cbn [length seq zip zip_with mapM].
  - exists []. split_and!; [done|done|]. intros i b Hb. by rewrite lookup_nil in Hb.
  - destruct (H O a eq_refl) as (b & Hb & HP). rewrite Nat.add_0_r in Hb, HP. rewrite Hb, bind_ret.
    destruct (IH (S s)) as (k & Hk & Hlen & Hall).
    { intros i x Hx. destruct (H (S i) x Hx) as (y & Hy).
      replace (S s + i)%nat with (s + S i)%nat by lia. by exists y. }
    rewrite Hk, bind_ret. eexists. split_and!; [done|cbn; lia|]. intros [|i] y Hy; cbn in Hy.
    + injection Hy as <-. by rewrite Nat.add_0_r.
    + replace (s + S i)%nat with (S s + i)%nat by lia. by apply Hall.
Qed.

Lemma gf_sub_add (x y : gf) : (x - y)%F = (x + y)%F.
Proof. done. Qed.

Lemma wf_row_zip_update m f (row prow : list Z) :
  wf_row m row -> wf_row m prow -> (forall a b, u16 a -> u16 b -> u16 (f a b)) ->
  wf_row m (zip_update f row prow).
Proof.
  intros [Hl Hr] [Hl' Hp] Hf. split; [by rewrite zip_update_length|].
  clear Hl Hl'. revert prow Hp. induction Hr as [|x row Hx Hr IH]; intros prow Hp; cbn; [done|].
  destruct Hp; constructor; auto.
Qed.

(** One row of the elimination. *)
Lemma eliminate_row_spec m col prow i row :
  wf_row m row -> wf_row m prow -> (col < m)%nat ->
  exists row', eliminate_row gf16_tables col prow i row = Ok row' /\ wf_row m row'
    /\ forall j, (j < m)%nat ->
       gf_of (nth j row' 0)
       = if decide (i = col) then gf_of (nth j row 0)
         else (gf_of (nth j row 0) - gf_of (nth col row 0) * gf_of (nth j prow 0))%F.
Proof.
  intros Hrow Hp Hcol. pose proof Hrow as [Hl _]. pose proof Hp as [Hlp _]. unfold eliminate_row.
  destruct (Nat.eqb_spec i col) as [->|Hi].
  { eexists. split_and!; [done|done|]. intros. by rewrite decide_True. }
  rewrite (nth_or_panic_nth _ col 0), bind_ret by lia.
  pose proof (wf_row_nth _ _ col Hrow) as Hf.
  destruct (Z.eqb_spec (nth col row 0) 0) as [H0|H0].
  { eexists. split_and!; [done|done|]. intros. rewrite decide_False by done.
    rewrite H0, gf_of_0. ring. }
  assert (forall b, u16 b -> u16 (gf16_mul_with gf16_tables (nth col row 0) b)) as Hmul.
  { intros. apply tables_mul_fits; [apply gf16_tables_ok|done..]. }
  eexists. split_and!; [done| |].
  - apply wf_row_zip_update; [done..|]. intros a b Ha Hb. apply lxor_fits; [lia|done|auto].
  - intros j Hj. rewrite decide_False by done. rewrite zip_update_nth with (db := 0) by lia.
    pose proof (wf_row_nth _ _ j Hrow). pose proof (wf_row_nth _ _ j Hp).
    by rewrite gf_of_lxor, gf_of_mul, gf_sub_add by auto.
Qed.

(** The pivot row, scaled. *)
Lemma scale_row_spec m row c :
  wf_row m row -> u16 c ->
  wf_row m (map (fun value => gf16_mul_with gf16_tables value c) row)
  /\ forall j, (j < m)%nat ->
     gf_of (nth j (map (fun value => gf16_mul_with gf16_tables value c) row) 0)
     = (gf_of (nth j row 0) * gf_of c)%F.
Proof.
  intros Hrow Hc. pose proof Hrow as [Hl Hr]. split; [split|].
  - by rewrite length_map.
  - apply Forall_lookup_2. intros i x Hx. rewrite list_lookup_fmap in Hx.
    destruct (row !! i) as [y|] eqn:Hy; [|done]. injection Hx as <-.
    apply tables_mul_fits; [apply gf16_tables_ok| |done]. apply (Forall_lookup_1 _ _ _ _ Hr Hy).
  - intros j Hj. destruct (lookup_lt_is_Some_2 row j ltac:(lia)) as [y Hy].
    erewrite (nth_lookup_Some (map _ _)) by (rewrite list_lookup_fmap, Hy; done).
    rewrite (nth_lookup_Some _ _ _ _ Hy). apply gf_of_mul; [|done].
    apply (Forall_lookup_1 _ _ _ _ Hr Hy).
Qed.

(** What one round does once it has its pivot [p]. *)
Lemma invert_step_pivot n M col p :
  wf_matrix n (n + n) M -> (col < n)%nat -> (p < n)%nat -> nth col (nth p M []) 0 <> 0 ->
  find_pivot M col (seq col (n - col)) = Ok (Some p) ->
  exists M', invert_step M col = Ok M' /\ wf_matrix n (n + n) M'
    /\ forall i j, (i < n)%nat -> (j < n + n)%nat -> ent M' i j = gj_step col p (ent M) i j.
Proof.
  intros HM Hcol Hp Hpiv Hfind. pose proof HM as [Hn _]. unfold invert_step.
  rewrite Hn, Hfind, bind_ret. cbn [ok_or]. rewrite bind_ret.
  assert (exists S, (if negb (p =? col)%nat then swap_rows M p col else Ok M) = Ok S
    /\ wf_matrix n (n + n) S
    /\ forall i, (i < n)%nat -> nth i S [] = nth (swapped p col i) M []) as (S & -> & HS & HSi).
  { destruct (Nat.eqb_spec p col) as [->|]; cbn [negb]; [|by apply swap_rows_spec].
    eexists. split_and!; [done|done|]. intros i Hi. unfold swapped. by repeat case_decide; subst. }
  rewrite bind_ret. pose proof HS as [HnS _].
  rewrite (nth_or_panic_nth S col []), bind_ret by lia.
  pose proof (wf_matrix_row _ _ _ col HS ltac:(done)) as Hrow. pose proof Hrow as [Hlrow _].
  rewrite (nth_or_panic_nth _ col 0), bind_ret by lia.
  assert (nth col (nth col S []) 0 <> 0) as Hv.
  { rewrite HSi by done. unfold swapped. by rewrite decide_True. }
  destruct (gf_of_inverse (nth col (nth col S []) 0)) as (w & Hw & Hfw & Hwi);
    [by apply (wf_row_nth (n + n))|done|].
  rewrite Hw, bind_ret.
  destruct (scale_row_spec (n + n) (nth col S []) w Hrow Hfw) as [Hprow Hpnth].
  set (prow := map _ _) in *.
  assert (length (<[col := prow]> S) = n) as Hlen by (rewrite length_insert; done).
  destruct (mapM_zip_seq_Ok (fun '(row_idx, row) => eliminate_row gf16_tables col prow row_idx row)
    (fun i row' => wf_row (n + n) row' /\ forall j, (j < n + n)%nat ->
       gf_of (nth j row' 0) = gj_step col p (ent M) i j) (<[col := prow]> S)) as (M' & HM' & Hl' & Hall).
  { intros i row Hi. pose proof (lookup_lt_Some _ _ _ Hi) as Hin. rewrite Hlen in Hin.
    assert (row = if decide (col = i) then prow else nth i S []) as Hrowi.
    { rewrite <- (nth_insert S col i prow []) by lia. symmetry. by apply nth_lookup_Some. }
    assert (wf_row (n + n) row) as Hwf.
    { rewrite Hrowi. case_decide; [done|]. by apply (wf_matrix_row n). }
    destruct (eliminate_row_spec (n + n) col prow i row) as (row' & Hr' & Hwf' & Hnth); [done|done|lia|].
    exists row'. split_and!; [done|done|]. intros j Hj. rewrite Hnth by done. unfold gj_step.
    assert (forall i j, (i < n)%nat -> ent M (swapped p col i) j = gf_of (nth j (nth i S []) 0)) as HS'.
    { intros i' j' Hi'. unfold ent. by rewrite HSi. }
    rewrite !HS', Hpnth, Hwi by (done || lia).
    destruct (decide (i = col)) as [->|Hne].
    - rewrite Hrowi, decide_True, Hpnth, Hwi by done. done.
    - rewrite Hrowi, decide_False by done. done. }
  rewrite Hlen in HM', Hl'. exists M'. split_and!; [done| |].
  - apply wf_matrix_intro; [done|]. intros i Hi.
    destruct (lookup_lt_is_Some_2 M' i ltac:(lia)) as [x Hx].
    rewrite (nth_lookup_Some _ _ _ _ Hx). by apply (Hall i).
  - intros i j Hi Hj. destruct (lookup_lt_is_Some_2 M' i ltac:(lia)) as [x Hx].
    unfold ent at 1. rewrite (nth_lookup_Some _ _ _ _ Hx). by apply (Hall i).
Qed.

Lemma invert_step_spec n M col A :
  wf_matrix n (n + n) M -> (col < n)%nat -> gj_inv n A col (ent M) ->
  (exists M', invert_step M col = Ok M' /\ wf_matrix n (n + n) M' /\ gj_inv n A (S col) (ent M'))
  \/ (invert_step M col = Err FecSingularMatrix /\ ~ trivial_kernel n A).
Proof.
  intros HM Hcol Hinv. pose proof HM as [Hn _].
  destruct (find_pivot_spec n (n + n) M col (seq col (n - col))) as [(p & Hf & Hp & Hv)|[Hf Hall]].
  - done.
  - lia.
  - intros i Hi%elem_of_seq. lia.
  - left. apply elem_of_seq in Hp.
    destruct (invert_step_pivot n M col p) as (M' & HM' & Hwf & Hent); [done|done|lia|done|done|].
    exists M'. split_and!; [done|done|]. eapply gj_inv_ext; [lia|exact Hent|].
    apply gj_step_inv; [done|lia|lia| |done].
    unfold ent. intros H0. apply Hv. apply gf_of_eq_0; [|done].
    apply (wf_row_nth (n + n)). apply (wf_matrix_row n); [done|lia].
  - right. split.
    + unfold invert_step. by rewrite Hn, Hf.
    + intros HA. apply (gj_pivot n A col (ent M)); [done..|]. intros i Hi1 Hi2. apply Hall.
      apply elem_of_seq. lia.
Qed.

Lemma invert_loop n A k c M :
  (c + k = n)%nat -> wf_matrix n (n + n) M -> gj_inv n A c (ent M) ->
  (exists M', foldM invert_step M (seq c k) = Ok M' /\ wf_matrix n (n + n) M'
              /\ gj_inv n A n (ent M'))
  \/ (foldM invert_step M (seq c k) = Err FecSingularMatrix /\ ~ trivial_kernel n A).
Proof.
  revert c M. induction k as [|k IH]; intros c M Hc HM Hinv; cbn [seq foldM].
  - left. exists M. assert (c = n) by lia. by subst c.
  - destruct (invert_step_spec n M c A) as [(M' & -> & HM' & Hinv')|[-> Hn]]; [done|lia|done| |].
    + rewrite bind_ret. apply IH; [lia|done|done].
    + right. done.
Qed.

Lemma nth_identity_row w i j : (i < w)%nat -> (j < w)%nat -> gf_of (nth j (identity_row w i) 0) = delta i j.
Proof.
  intros Hi Hj. unfold identity_row, delta. rewrite nth_insert by (by rewrite length_replicate).
  case_decide; [apply gf_of_1|]. rewrite nth_lookup, lookup_replicate_2 by done. apply gf_of_0.
Qed.

Lemma identity_row_wf w i : wf_row w (identity_row w i).
Proof.
  unfold identity_row. split; [by rewrite length_insert, length_replicate|].
  apply Forall_insert; [|unfold fits; lia]. apply Forall_replicate, u16_0.
Qed.

(** [invert_matrix] on a square matrix: a left inverse, or an error exactly
    when there is none. *)
Lemma invert_matrix_spec n A :
  wf_matrix n n A ->
  (exists R, invert_matrix A = Ok R /\ wf_matrix n n R
     /\ forall (d : nat -> gf) i, (i < n)%nat ->
        sum n (fun s => ent R i s * sum n (fun j => ent A s j * d j))%F = d i)
  \/ (invert_matrix A = Err FecSingularMatrix /\ ~ trivial_kernel n (ent A)).
Proof.
  intros HA. pose proof HA as [Hn _]. unfold invert_matrix. rewrite Hn.
  destruct (mapM_zip_seq_Ok (augment n) (fun i row => wf_row (n + n) row
    /\ (forall j, (j < n)%nat -> gf_of (nth j row 0) = ent A i j)
    /\ (forall j, (j < n)%nat -> gf_of (nth (n + j) row 0) = delta i j)) A) as (M & HM & Hl & Hall).
  { intros i row Hi. pose proof (lookup_lt_Some _ _ _ Hi) as Hin. rewrite Hn in Hin.
    assert (row = nth i A []) as Hrow by (symmetry; by apply nth_lookup_Some).
    pose proof (wf_matrix_row _ _ _ i HA Hin) as Hwf. rewrite <- Hrow in Hwf. pose proof Hwf as [Hlr Hfr].
    destruct (identity_row_wf n i) as [Hl1 Hf1].
    exists (row ++ identity_row n i). unfold augment. cbn [fst snd].
    rewrite reject_if_false by (rewrite Hlr; by rewrite Nat.eqb_refl).
    split_and!; [done|split; [rewrite length_app; lia|by apply Forall_app]| |].
    - intros j Hj. rewrite app_nth1 by lia. unfold ent. by rewrite <- Hrow.
    - intros j Hj. rewrite app_nth2 by lia. replace (n + j - length row)%nat with j by lia.
      by apply nth_identity_row. }
  rewrite Hn in HM, Hl. rewrite HM, bind_ret.
  assert (forall i, (i < n)%nat -> M !! i = Some (nth i M [])) as Hlook.
  { intros i Hi. destruct (lookup_lt_is_Some_2 M i ltac:(lia)) as [x Hx].
    by rewrite (nth_lookup_Some _ _ _ _ Hx). }
  destruct (invert_loop n (ent A) n 0 M) as [(M' & -> & HM' & Hinv)|[-> Hk]]; [lia| | | |by right].
  - apply wf_matrix_intro; [done|]. intros i Hi. apply (Hall i), Hlook, Hi.
  - apply gj_start.
    + intros i j Hi Hj. unfold ent at 1. by apply (Hall i _ (Hlook i Hi)).
    + intros i j Hi Hj. unfold ent. by apply (Hall i _ (Hlook i Hi)).
  - left. rewrite bind_ret. eexists. split; [done|].
    assert (forall i j, (i < n)%nat -> (j < n)%nat ->
      nth j (nth i (map (fun row => take n (drop n row)) M') []) 0 = nth (n + j) (nth i M' []) 0) as Hnth.
    { intros i j Hi Hj. destruct HM' as [HnM' _].
      destruct (lookup_lt_is_Some_2 M' i ltac:(lia)) as [x Hx].
      erewrite (nth_lookup_Some (map _ _)) by (rewrite list_lookup_fmap, Hx; done).
      rewrite (nth_lookup_Some _ _ _ _ Hx), !nth_lookup, lookup_take_lt, lookup_drop by lia. done. }
    split.
    + pose proof HM' as [HnM' HfM']. split; [by rewrite length_map|]. apply Forall_lookup_2.
      intros i x Hx. rewrite list_lookup_fmap in Hx. destruct (M' !! i) as [y|] eqn:Hy; [|done].
      injection Hx as <-. destruct (Forall_lookup_1 _ _ _ _ HfM' Hy) as [Hly Hfy].
      split; [rewrite length_take, length_drop; lia|]. by apply Forall_take, Forall_drop.
    + intros d i Hi. rewrite <- (gj_end n (ent A) (ent M') i d Hinv Hi). apply sum_ext.
      intros s Hs. unfold ent at 1. by rewrite Hnth.
Qed.

(** ** Collecting the survivors *)

(** The shards that arrived. *)
Definition present (shards : list (option bytes)) : nat := length (omap id shards).

Definition source (shards : list (option bytes)) (k : nat) : bytes :=
  default [] (mjoin (shards !! k)).

(** The positions [ks] that one of the two loops collects. *)
Record collected (shards : list (option bytes)) (size : Z) (i limit have : nat) (ks : list nat)
    : Prop := {
  collected_nodup : NoDup ks;
  collected_present : forall k, k ∈ ks ->
    (i <= k)%nat /\ exists s, shards !! (k - i)%nat = Some (Some s) /\ blen s = size;
  collected_le : (length ks <= present shards)%nat;
  collected_enough : (have + length ks = limit)%nat
    \/ ((have + length ks < limit)%nat /\ length ks = present shards)
}.

Lemma collected_skip shards o size i limit have ks :
  collected shards size (S i) limit have ks -> o = None ->
  collected (o :: shards) size i limit have ks.
Proof.
  intros [Hnd Hp Hle He] ->. constructor; [done| |done|done].
  intros k Hk. destruct (Hp k Hk) as (Hi & s & Hs). split; [lia|].
  exists s. by replace (k - i)%nat with (S (k - S i)) by lia.
Qed.

Lemma collected_take shards s size i limit have ks :
  collected shards size (S i) limit (S have) ks -> blen s = size ->
  collected (Some s :: shards) size i limit have (i :: ks).
Proof.
  intros [Hnd Hp Hle He] Hs. constructor.
  - apply NoDup_cons. split; [|done]. intros Hi. destruct (Hp i Hi) as [? _]. lia.
  - intros k [->|Hk]%elem_of_cons.
    + split; [lia|]. exists s. by rewrite Nat.sub_diag.
    + destruct (Hp k Hk) as (Hi & s' & Hs'). split; [lia|].
      exists s'. by replace (k - i)%nat with (S (k - S i)) by lia.
  - unfold present in *. cbn. lia.
  - unfold present in *. cbn. lia.
Qed.

Lemma collect_rows_spec mk_row row src size limit shards i rows available :
  (forall j, (i <= j)%nat -> (j < i + length shards)%nat -> mk_row j = Ok (row j)) ->
  (forall j s, shards !! j = Some (Some s) -> src (i + j)%nat = s) ->
  (length rows < limit)%nat ->
  (collect_rows mk_row size limit i shards rows available = Err FecInconsistentShardSize
   /\ exists j s, shards !! j = Some (Some s) /\ blen s <> size)
  \/ exists ks, collected shards size i limit (length rows) ks
      /\ collect_rows mk_row size limit i shards rows available
         = Ok (rows ++ map row ks, available ++ map src ks).
Proof.
  revert i rows available. induction shards as [|[s|] shards IH]; intros i rows available Hrow Hsrc Hlim.
  - right. exists []. cbn. rewrite !app_nil_r. split; [|done].
    constructor; [constructor|set_solver|cbn; lia|]. right. cbn. split; [lia|done].
  - cbn [collect_rows]. rewrite Hrow, bind_ret by (cbn; lia). unfold validate_available_shard.
    destruct (Z.eqb_spec (blen s) size) as [Hs|Hs]; cbn [negb reject_if].
    2: { left. split; [done|]. by exists O, s. }
    rewrite !bind_ret, mret_eq, bind_ret. rewrite length_app. cbn [length].
    assert (src i = s) as Hi by (rewrite <- (Nat.add_0_r i); by apply Hsrc).
    destruct (Nat.eqb_spec (length rows + 1) limit) as [Hl|Hl].
    + right. exists [i]. cbn. rewrite Hi. split; [|done]. constructor.
      * apply NoDup_singleton.
      * intros k ->%list_elem_of_singleton. split; [lia|]. exists s. by rewrite Nat.sub_diag.
      * unfold present. cbn. lia.
      * left. cbn. lia.
    + destruct (IH (S i) (rows ++ [row i]) (available ++ [s])) as [[-> (j & s' & Hj)]|(ks & Hks & ->)].
      * intros j H1 H2. apply Hrow; cbn; lia.
      * intros j s' Hj. rewrite <- (Hsrc (S j) s' Hj). f_equal. lia.
      * rewrite length_app. cbn. lia.
      * left. split; [done|]. by exists (S j), s'.
      * right. exists (i :: ks). rewrite length_app, Nat.add_1_r in Hks. split.
        -- by apply collected_take.
        -- rewrite <- !app_assoc. cbn. by rewrite Hi.
  - cbn [collect_rows].
    destruct (IH (S i) rows available) as [[-> (j & s' & Hj)]|(ks & Hks & ->)].
    + intros j H1 H2. apply Hrow; cbn; lia.
    + intros j s' Hj. rewrite <- (Hsrc (S j) s' Hj). f_equal. lia.
    + done.
    + left. split; [done|]. by exists (S j), s'.
    + right. exists ks. split; [by apply collected_skip|done].
Qed.

Lemma present_le shards : (present shards <= length shards)%nat.
Proof. unfold present. induction shards as [|[s|] l IH]; cbn; lia. Qed.

Lemma forallb_is_present shards :
  forallb is_present shards = true <-> present shards = length shards.
Proof.
  unfold present. induction shards as [|[s|] l IH]; cbn; [done| |].
  - rewrite IH. split; lia.
  - split; [done|]. pose proof (present_le l) as H. unfold present in H. lia.
Qed.

(** ** Repair *)
Definition crow (D j : nat) : list Z :=
  match cauchy_row D j with Ok row => row | _ => [] end.

Lemma cauchy_row_spec D j :
  Z.of_nat (D + j) < 2 ^ 16 ->
  cauchy_row D j = Ok (crow D j) /\ wf_row D (crow D j)
  /\ forall i, (i < D)%nat -> gf_of (nth i (crow D j) 0) = cauchy D j i.
Proof.
  intros Hj. unfold crow, cauchy_row.
  destruct (mapM_seq_Ok (cauchy_coefficient_with gf16_tables D j)
    (fun i w => u16 w /\ gf_of w = cauchy D j i) D) as (row & -> & Hl & Hall).
  { intros i Hi. destruct (cauchy_coefficient D j i) as (w & Hw); [done|done|]. by exists w. }
  split_and!; [done| |].
  - split; [done|]. apply Forall_lookup_2. intros i w Hw. by apply (Hall i).
  - intros i Hi. destruct (lookup_lt_is_Some_2 row i ltac:(lia)) as [w Hw].
    rewrite (nth_lookup_Some _ _ _ _ Hw). by apply (Hall i).
Qed.

Lemma repair_row_spec n D R available i :
  wf_matrix D D R -> same_size n available -> length available = D -> (i < D)%nat ->
  exists out, repair_row R available (2 * Z.of_nat n) D i = Ok out /\ length out = (2 * n)%nat
    /\ forall k, sym out k = row_sum (ent R i) available k.
Proof.
  intros HR Ha Hl Hi. pose proof HR as [HlR _]. unfold repair_row.
  destruct (foldM_adds (2 * n) (fun dest source_row =>
      row ← nth_or_panic R i;
      coefficient ← nth_or_panic row source_row;
      if coefficient =? 0 then Ok dest
      else src ← nth_or_panic available source_row;
           accumulate_shard gf16_tables coefficient dest src)
    (ent R i) (dsym available) (seq 0 D) (zeros (2 * Z.of_nat n))) as (out & Hout & Hlen & Hsym).
  - unfold zeros. rewrite length_replicate. lia.
  - intros s acc Hs%elem_of_seq Hacc.
    rewrite (nth_or_panic_nth R i []), bind_ret by lia.
    pose proof (wf_matrix_row _ _ _ i HR Hi) as Hrow. pose proof Hrow as [Hlrow _].
    rewrite (nth_or_panic_nth _ s 0), bind_ret by lia. fold (ent R i s).
    pose proof (wf_row_nth _ _ s Hrow) as Hu.
    destruct (Z.eqb_spec (nth s (nth i R []) 0) 0) as [H0|H0].
    + exists acc. split_and!; [done|done|]. intros k. unfold ent. rewrite H0, gf_of_0. ring.
    + rewrite (nth_or_panic_nth available s []), bind_ret by lia.
      destruct (accumulate_shard_adds n _ acc (nth s available []) Hu) as (o & Ho & Hol & Hos);
        [done|apply same_size_nth; [done|lia]|].
      exists o. split_and!; [done|lia|done].
  - exists out. split_and!; [done|done|]. intros k. rewrite Hsym, sym_zeros.
    unfold row_sum, sum. rewrite Hl. ring.
Qed.

(** The rows of [ks1] surviving data shards and [ks2] surviving parity shards
    have independent columns when they are as many as the data shards. *)
Lemma survivors_kernel D P (ks1 ks2 : list nat) (A : nat -> nat -> gf) :
  Z.of_nat (D + P) <= 65535 ->
  NoDup ks1 -> NoDup ks2 -> (forall k, k ∈ ks1 -> (k < D)%nat) -> (forall k, k ∈ ks2 -> (k < P)%nat) ->
  (length ks1 + length ks2 = D)%nat ->
  (forall s k, ks1 !! s = Some k -> forall j, (j < D)%nat -> A s j = delta k j) ->
  (forall s k, ks2 !! s = Some k -> forall j, (j < D)%nat ->
    A (length ks1 + s)%nat j = cauchy D k j) ->
  trivial_kernel D A.
Proof.
  intros HDP Hnd1 Hnd2 Hb1 Hb2 Hlen HA1 HA2 v Hv.
  assert (forall k, k ∈ ks1 -> v k = f0) as Hknown.
  { intros k Hk. apply list_elem_of_lookup in Hk as Hs. destruct Hs as [s Hs].
    assert (s < D)%nat as HsD by (apply lookup_lt_Some in Hs; lia).
    rewrite <- (Hv s HsD), (sum_ext D _ (fun j => delta k j * v j)%F)
      by (intros; erewrite HA1; done).
    symmetry. apply sum_delta. by apply Hb1. }
  assert (forall y, y ∈ ks2 -> sum D (fun j => cauchy D y j * v j)%F = f0) as Hpar.
  { intros y Hy. apply list_elem_of_lookup in Hy as [s Hs].
    rewrite <- (Hv (length ks1 + s)%nat) by (apply lookup_lt_Some in Hs; lia).
    apply sum_ext. intros j Hj. by rewrite (HA2 s y Hs j Hj). }
  set (unknowns := filter (fun j => j ∉ ks1) (seq 0 D)).
  assert (forall j, (j < D)%nat -> j ∉ ks1 -> j ∈ unknowns) as Hunk.
  { intros j Hj Hn. apply list_elem_of_filter. split; [done|]. apply elem_of_seq. lia. }
  assert (length unknowns + length ks1 = D)%nat as Hul.
  { rewrite <- length_app, <- (length_seq D 0). apply Permutation_length.
    apply NoDup_Permutation.
    - apply NoDup_app. split_and!; [apply NoDup_filter, NoDup_seq| |done].
      intros x Hx. apply list_elem_of_filter in Hx. tauto.
    - apply NoDup_seq.
    - intros x. rewrite elem_of_app, elem_of_seq. unfold unknowns.
      rewrite list_elem_of_filter, elem_of_seq. split; [intros [H|H%Hb1]; lia|].
      intros H. destruct (decide (x ∈ ks1)); [by right|left; split; [done|lia]]. }
  intros j Hj. destruct (decide (j ∈ ks1)) as [Hk|Hk]; [by apply Hknown|].
  apply (cauchy_kernel point unknowns (map (fun q => point (D + q)) ks2) v).
  - apply NoDup_filter, NoDup_seq.
  - apply NoDup_fmap_2_strong; [|done]. intros x y Hx%Hb2 Hy%Hb2 H.
    apply point_inj in H; lia.
  - rewrite length_map. lia.
  - intros a b Ha Hb. apply list_elem_of_filter in Ha as [_ Ha%elem_of_seq].
    apply list_elem_of_filter in Hb as [_ Hb%elem_of_seq]. apply point_inj; lia.
  - intros a y Ha Hy. apply list_elem_of_filter in Ha as [_ Ha%elem_of_seq].
    apply list_elem_of_fmap in Hy as (q & -> & Hq%Hb2). apply point_add_neq_0; lia.
  - intros y Hy. apply list_elem_of_fmap in Hy as (q & -> & Hq).
    rewrite <- (Hpar q Hq). unfold sum. rewrite <- (lsum_filter (fun j => j ∉ ks1) _ (seq 0 D)).
    + apply lsum_ext. intros a Ha. unfold cauchy. rewrite (Fdiv_def (f_theory (F:=gf))). ring.
    + intros a _ Ha. rewrite Hknown; [ring|]. by destruct (decide (a ∈ ks1)).
  - by apply Hunk.
Qed.

Lemma source_lookup shards j s : shards !! j = Some (Some s) -> source shards j = s.
Proof. unfold source. by intros ->. Qed.

Lemma collect_survivors_spec ds ps size :
  Z.of_nat (length ds + length ps) <= 65535 -> forallb is_present ds = false ->
  (collect_survivors ds ps size = Err FecInconsistentShardSize
   /\ exists s, (Some s ∈ ds \/ Some s ∈ ps) /\ blen s <> size)
  \/ exists ks1 ks2,
       collected ds size 0 (length ds) 0 ks1 /\ length ks1 = present ds
       /\ collected ps size 0 (length ds) (length ks1) ks2
       /\ collect_survivors ds ps size
          = Ok (map (identity_row (length ds)) ks1 ++ map (crow (length ds)) ks2,
                map (source ds) ks1 ++ map (source ps) ks2).
Proof.
  intros Hc Hp. unfold collect_survivors.
  assert (present ds < length ds)%nat as Hlt.
  { pose proof (present_le ds). pose proof (proj2 (forallb_is_present ds)) as H'.
    rewrite Hp in H'. destruct (decide (present ds = length ds)); [by specialize (H' ltac:(done))|lia]. }
  destruct (collect_rows_spec (fun i => Ok (identity_row (length ds) i)) (identity_row (length ds))
    (source ds) size (length ds) ds 0 [] []) as [[-> (j & s & Hj & Hs)]|(ks1 & H1 & ->)].
  - done.
  - intros j s Hj. by apply source_lookup.
  - cbn. lia.
  - left. split; [done|]. exists s. split; [left|done]. by apply list_elem_of_lookup_2 in Hj.
  - rewrite bind_ret. cbn [app]. rewrite length_map. cbn [length] in H1.
    pose proof (collected_le _ _ _ _ _ _ H1) as Hle.
    replace (length ks1 <? length ds)%nat with true by (symmetry; apply Nat.ltb_lt; lia).
    destruct (collect_rows_spec (cauchy_row (length ds)) (crow (length ds))
      (source ps) size (length ds) ps 0 (map (identity_row (length ds)) ks1) (map (source ds) ks1))
      as [[-> (j & s & Hj & Hs)]|(ks2 & H2 & ->)].
    + intros j _ Hj. apply cauchy_row_spec. lia.
    + intros j s Hj. by apply source_lookup.
    + rewrite length_map. lia.
    + left. split; [done|]. exists s. split; [right|done]. by apply list_elem_of_lookup_2 in Hj.
    + right. exists ks1, ks2. rewrite length_map in H2. split_and!; [done| |done|done].
      destruct (collected_enough _ _ _ _ _ _ H1) as [?|[_ ?]]; [lia|done].
Qed.

Lemma collected_lt shards size i limit have ks k :
  collected shards size i limit have ks -> k ∈ ks -> (k < i + length shards)%nat.
Proof.
  intros H Hk. destruct (collected_present _ _ _ _ _ _ H k Hk) as (Hi & s & Hs & _).
  apply lookup_lt_Some in Hs. lia.
Qed.

Lemma collected_source shards size limit have ks k :
  collected shards size 0 limit have ks -> k ∈ ks ->
  shards !! k = Some (Some (source shards k)) /\ blen (source shards k) = size.
Proof.
  intros H Hk. destruct (collected_present _ _ _ _ _ _ H k Hk) as (_ & s & Hs & Hl).
  rewrite Nat.sub_0_r in Hs. by rewrite (source_lookup _ _ _ Hs).
Qed.

(** The matrix of the survivors is square and well formed. *)
Lemma survivors_wf D ks1 ks2 :
  (length ks1 + length ks2 = D)%nat -> (forall k, k ∈ ks2 -> Z.of_nat (D + k) < 2 ^ 16) ->
  wf_matrix D D (map (identity_row D) ks1 ++ map (crow D) ks2).
Proof.
  intros Hl H2. split; [rewrite length_app, !length_map; done|].
  apply Forall_app. split; apply Forall_map, Forall_forall; intros k Hk; cbn.
  - apply identity_row_wf.
  - by apply cauchy_row_spec, H2.
Qed.

Lemma survivors_same_size n ds ps limit ks1 have2 ks2 :
  collected ds (2 * Z.of_nat n) 0 limit 0 ks1 -> collected ps (2 * Z.of_nat n) 0 limit have2 ks2 ->
  same_size n (map (source ds) ks1 ++ map (source ps) ks2).
Proof.
  intros H1 H2. apply Forall_app. split; apply Forall_map, Forall_forall; intros k Hk; cbn.
  - destruct (collected_source _ _ _ _ _ _ H1 Hk) as [_ H]. unfold blen in H. lia.
  - destruct (collected_source _ _ _ _ _ _ H2 Hk) as [_ H]. unfold blen in H. lia.
Qed.

(** [received] is [sent] with some shards lost. *)
Definition erased (sent : list bytes) (received : list (option bytes)) : Prop :=
  Forall2 (fun shard o => o = None \/ o = Some shard) sent received.

Lemma erased_source sent received k :
  erased sent received -> received !! k = Some (Some (source received k)) ->
  source received k = nth k sent [].
Proof.
  intros H Hk. destruct (Forall2_lookup_r _ _ _ _ _ H Hk) as (d & Hd & [?|[= Hs]]); [done|].
  rewrite Hs. symmetry. by apply nth_lookup_Some.
Qed.

Lemma nth_map_app_l {A B} (f g : A -> B) l1 l2 s k d :
  l1 !! s = Some k -> nth s (map f l1 ++ map g l2) d = f k.
Proof.
  intros H. apply nth_lookup_Some. rewrite lookup_app_l, list_lookup_fmap, H; [done|].
  rewrite length_map. by apply lookup_lt_Some in H.
Qed.

Lemma nth_map_app_r {A B} (f g : A -> B) l1 l2 s k d :
  l2 !! s = Some k -> nth (length l1 + s) (map f l1 ++ map g l2) d = g k.
Proof.
  intros H. apply nth_lookup_Some. rewrite lookup_app_r by (rewrite length_map; lia).
  rewrite length_map. replace (length l1 + s - length l1)%nat with s by lia.
  by rewrite list_lookup_fmap, H.
Qed.

Section Survivors.
Variables (n : nat) (data parity : list bytes) (ds ps : list (option bytes)) (ks1 ks2 : list nat).
Let D := length data.
Let size := (2 * Z.of_nat n)%Z.
Hypotheses (Hds : erased data ds) (Hps : erased parity ps)
  (H1 : collected ds size 0 D 0 ks1) (H2 : collected ps size 0 D (length ks1) ks2)
  (Hl : (length ks1 + length ks2 = D)%nat)
  (Hcount : Z.of_nat (D + length parity) <= 65535)
  (Hparity : forall j p, parity !! j = Some p ->
    forall k, sym p k = row_sum (cauchy D j) data k).
Let rows := map (identity_row D) ks1 ++ map (crow D) ks2.
Let available := map (source ds) ks1 ++ map (source ps) ks2.

Lemma ks1_lt k : k ∈ ks1 -> (k < D)%nat.
Proof. intros Hk. apply (collected_lt _ _ _ _ _ _ _ H1) in Hk. by rewrite <- (Forall2_length _ _ _ Hds) in Hk. Qed.

Lemma ks2_lt k : k ∈ ks2 -> (k < length parity)%nat.
Proof. intros Hk. apply (collected_lt _ _ _ _ _ _ _ H2) in Hk. by rewrite <- (Forall2_length _ _ _ Hps) in Hk. Qed.

Lemma ent_data s k j : ks1 !! s = Some k -> (j < D)%nat -> ent rows s j = delta k j.
Proof.
  intros Hs Hj. unfold ent, rows. erewrite nth_map_app_l by done.
  apply nth_identity_row; [|done]. by eapply ks1_lt, list_elem_of_lookup_2.
Qed.

Lemma ent_parity s k j :
  ks2 !! s = Some k -> (j < D)%nat -> ent rows (length ks1 + s) j = cauchy D k j.
Proof.
  intros Hs Hj. unfold ent, rows. erewrite nth_map_app_r by done.
  apply list_elem_of_lookup_2, ks2_lt in Hs. apply cauchy_row_spec; [lia|done].
Qed.

Lemma rows_kernel : trivial_kernel D (ent rows).
Proof.
  apply (survivors_kernel D (length parity) ks1 ks2); try done.
  - apply (collected_nodup _ _ _ _ _ _ H1).
  - apply (collected_nodup _ _ _ _ _ _ H2).
  - apply ks1_lt.
  - apply ks2_lt.
  - intros. by apply ent_data.
  - intros. by apply ent_parity.
Qed.

(** Each survivor is its matrix row applied to the data. *)
Lemma available_rows s k :
  (s < D)%nat -> dsym available s k = row_sum (ent rows s) data k.
Proof.
  intros Hs. unfold row_sum, dsym at 1, available. fold D.
  destruct (decide (s < length ks1)%nat) as [Hs1|Hs1].
  - destruct (lookup_lt_is_Some_2 ks1 s Hs1) as [q Hq]. erewrite nth_map_app_l by done.
    apply list_elem_of_lookup_2 in Hq as Hin.
    destruct (collected_source _ _ _ _ _ _ H1 Hin) as [Hsrc _].
    rewrite (erased_source _ _ _ Hds Hsrc).
    rewrite (sum_ext D _ (fun j => delta q j * dsym data j k)%F)
      by (intros; by rewrite (ent_data s q)).
    rewrite (sum_delta D (fun j => dsym data j k)); [done|by apply ks1_lt].
  - destruct (lookup_lt_is_Some_2 ks2 (s - length ks1) ltac:(lia)) as [q Hq].
    replace s with (length ks1 + (s - length ks1))%nat by lia. erewrite nth_map_app_r by done.
    apply list_elem_of_lookup_2 in Hq as Hin.
    destruct (collected_source _ _ _ _ _ _ H2 Hin) as [Hsrc _].
    rewrite (erased_source _ _ _ Hps Hsrc).
    destruct (lookup_lt_is_Some_2 parity q ltac:(by apply ks2_lt)) as [p Hp].
    rewrite (nth_lookup_Some _ _ _ _ Hp), (Hparity q p Hp). apply sum_ext.
    intros j Hj. by rewrite (ent_parity _ q).
Qed.

Lemma survivors_repair :
  same_size n data ->
  exists inverse, invert_matrix rows = Ok inverse
    /\ mapM (repair_row inverse available size D) (seq 0 D) = Ok data.
Proof.
  intros Hsize.
  destruct (invert_matrix_spec D rows) as [(R & HR & HwR & Hinv)|[_ []]].
  - apply survivors_wf; [done|]. intros k Hk%ks2_lt. lia.
  - exists R. split; [done|].
    assert (length available = D) as Hla by (unfold available; rewrite length_app, !length_map; done).
    destruct (mapM_seq_Ok (repair_row R available size D)
      (fun i out => length out = (2 * n)%nat /\ forall k, sym out k = row_sum (ent R i) available k) D)
      as (out & -> & Hlo & Hall).
    { intros i Hi. apply repair_row_spec; [done| |done|done]. by eapply survivors_same_size. }
    f_equal. apply list_eq_same_length with D; [done|done|].
    intros i x y Hi Hx Hy. destruct (Hall i x Hx) as [Hlx Hsx].
    pose proof (nth_lookup_Some _ _ [] _ Hy) as Hny.
    assert (length y = (2 * n)%nat) as Hly by (rewrite <- Hny; by apply same_size_nth).
    apply (sym_inj n); [done|done|]. intros k. rewrite Hsx. unfold row_sum. rewrite Hla.
    rewrite (sum_ext D _ (fun s => ent R i s * sum D (fun j => ent rows s j * dsym data j k))%F)
      by (intros; by rewrite available_rows).
    rewrite (Hinv (fun j => dsym data j k) i Hi). unfold dsym. by rewrite Hny.
  - apply rows_kernel.
Qed.
End Survivors.

Lemma erased_all_present data ds :
  erased data ds -> forallb is_present ds = true -> ds = map Some data.
Proof.
  induction 1 as [|d o data ds Ho H IH]; cbn; [done|].
  intros [Hp Hall]%andb_true_iff. rewrite IH by done. destruct Ho as [->| ->]; done.
Qed.

Lemma mapM_present n data :
  same_size n data ->
  mapM (fun shard => shard ← match shard with Some s => Ok s | None => Panic end;
                     validate_available_shard shard (2 * Z.of_nat n)) (map Some data) = Ok data.
Proof.
  intros H. apply mapM_Ok. apply Forall2_fmap_l. apply Forall_Forall2_diag.
  eapply Forall_impl; [done|]. intros s Hs. cbn in Hs |- *. unfold validate_available_shard.
  rewrite reject_if_false; [done|]. unfold blen. replace (Z.of_nat (length s) =? 2 * Z.of_nat n) with true by lia. done.
Qed.

Lemma even_size n : negb ((2 * Z.of_nat n) `mod` 2 =? 0) = false.
Proof. by rewrite Z.mul_comm, Z_mod_mult. Qed.

(** The erasure-correction property, in the form the theorems below share. *)
Lemma repair_erased n data P parity ds ps :
  encode_parity_gf16 data P = Ok parity -> same_size n data ->
  erased data ds -> erased parity ps ->
  (length data <= present ds + present ps)%nat ->
  (present ds = length data \/ Z.of_nat (length data) <= READER_MAX_REPAIR_TOTAL_SHARDS) ->
  repair_data_gf16 ds ps (2 * Z.of_nat n) = Ok data.
Proof.
  intros Henc Hsize Hds Hps Hpres Hmax.
  assert (shape_ok data P) as (Hne & Hcount & _).
  { apply validate_fec_shape_Ok. unfold encode_parity_gf16 in Henc. bind_inv Henc. by destruct r. }
  destruct (encode_parity_spec n data P) as (parity' & Henc' & HlP & Hpar); [done..|].
  rewrite Henc in Henc'. injection Henc' as <-.
  pose proof (Forall2_length _ _ _ Hds) as Hld. pose proof (Forall2_length _ _ _ Hps) as Hlp.
  assert (length data <> 0%nat) by (by destruct data).
  unfold repair_data_gf16.
  rewrite (proj2 (validate_fec_counts_Ok (length ds) (length ps))), bind_ret by lia.
  run_with ltac:(apply even_size).
  destruct (forallb is_present ds) eqn:Hall.
  { rewrite (erased_all_present _ _ Hds Hall). by apply mapM_present. }
  assert (present ds <> length ds) as Hlt.
  { intros E%forallb_is_present. congruence. }
  run_with ltac:(lia).
  destruct (collect_survivors_spec ds ps (2 * Z.of_nat n))
    as [[_ (s & Hin & Hs)]|(ks1 & ks2 & H1 & Hk1 & H2 & ->)]; [lia|done| |].
  { exfalso. apply Hs. assert (length s = 2 * n)%nat; [|unfold blen; lia].
    destruct Hin as [Hin|Hin]; apply list_elem_of_lookup in Hin as [k Hk].
    - destruct (Forall2_lookup_r _ _ _ _ _ Hds Hk) as (d & Hd & [?|[= ->]]); [done|].
      by apply (Forall_lookup_1 _ _ _ _ Hsize Hd).
    - destruct (Forall2_lookup_r _ _ _ _ _ Hps Hk) as (d & Hd & [?|[= ->]]); [done|].
      by apply (Hpar k d Hd). }
  rewrite <- Hld in H1, H2 |- *.
  assert (length ks1 + length ks2 = length data)%nat as Hl.
  { destruct (collected_enough _ _ _ _ _ _ H2) as [?|[? ?]]; [done|].
    lia. }
  rewrite bind_ret. cbv beta iota.
  replace (length (map (identity_row (length data)) ks1 ++ map (crow (length data)) ks2)
           <? length data)%nat with false
    by (symmetry; apply Nat.ltb_ge; rewrite length_app, !length_map; lia).
  cbn [reject_if]. rewrite bind_ret.
  destruct (survivors_repair n data parity ds ps ks1 ks2) as (inverse & -> & Hrep); [done..|lia| |done|].
  { intros j p Hj. by apply Hpar. }
  by rewrite bind_ret.
Qed.

(** Complete data is returned as it is, whatever the parity. *)
Lemma repair_complete n data ds ps :
  same_size n data -> erased data ds -> forallb is_present ds = true -> data <> [] ->
  Z.of_nat (length data) + Z.of_nat (length ps) <= 65535 ->
  repair_data_gf16 ds ps (2 * Z.of_nat n) = Ok data.
Proof.
  intros Hsize Hds Hall Hne Hcount. pose proof (Forall2_length _ _ _ Hds) as Hld.
  assert (length data <> 0%nat) by (by destruct data).
  unfold repair_data_gf16.
  rewrite (proj2 (validate_fec_counts_Ok (length ds) (length ps))), bind_ret by lia.
  run_with ltac:(apply even_size). rewrite Hall, (erased_all_present _ _ Hds Hall).
  by apply mapM_present.
Qed.

Lemma encode_Ok_shape data P parity :
  encode_parity_gf16 data P = Ok parity -> shape_ok data P.
Proof.
  intros H. apply validate_fec_shape_Ok. unfold encode_parity_gf16 in H. bind_inv H. by destruct r.
Qed.

Lemma shard_size_of n data :
  data <> [] -> same_size n data -> blen (nth 0 data []) = 2 * Z.of_nat n.
Proof.
  intros Hne H. unfold blen. rewrite (same_size_nth n); [lia|done|]. destruct data; [done|cbn; lia].
Qed.

Lemma concatenate_loop_erased n data ds acc :
  erased data ds -> same_size n data -> forallb is_present ds = true ->
  concatenate_loop ds (2 * Z.of_nat n) acc = Ok (Some (acc ++ concat data)).
Proof.
  intros H Hs Hp. rewrite (erased_all_present _ _ H Hp). clear H Hp. revert acc.
  induction Hs as [|d data Hd Hs IH]; intros acc; cbn [map concatenate_loop concat]; [by rewrite app_nil_r|].
  rewrite reject_if_false by (unfold blen; replace (Z.of_nat (length d) =? 2 * Z.of_nat n) with true by lia; done).
  rewrite bind_ret, IH, app_assoc. done.
Qed.

(** What both decoders return, in the form the theorems share. *)
Lemma recover_erased n data P parity ds ps :
  same_size n data -> data <> [] -> Z.of_nat (length data) * (2 * Z.of_nat n) < 2 ^ 64 ->
  erased data ds ->
  (forallb is_present ds = true
   \/ encode_parity_gf16 data P = Ok parity /\ erased parity ps
      /\ (length data <= present ds + present ps)%nat
      /\ Z.of_nat (length data) <= READER_MAX_REPAIR_TOTAL_SHARDS) ->
  recover_data_bytes_gf16 ds ps (2 * Z.of_nat n) = Ok (concat data).
Proof.
  intros Hn Hne Hmem Hds Hcase. unfold recover_data_bytes_gf16, concatenate_complete_data_shards.
  rewrite <- (Forall2_length _ _ _ Hds).
  assert (length data =? 0 = false)%nat as -> by (apply Nat.eqb_neq; by destruct data).
  rewrite orb_false_r. destruct (forallb is_present ds) eqn:Hall; cbn [negb].
  - unfold checked_mul. replace (_ <? 2 ^ 64) with true by lia. cbn [ok_or]. rewrite bind_ret.
    by rewrite (concatenate_loop_erased n data).
  - destruct Hcase as [?|(Henc & Hps & Hpres & Hmax)]; [done|].
    rewrite mret_eq, bind_ret, (repair_erased n data P parity) by auto. done.
Qed.

(** ** Theorems *)


(** Too few shards.  When every shard that arrived has the announced size
    but there are fewer of them than data shards, [repair_data_gf16] reports
    [FecTooFewAvailableShards]; it never makes up data. *)
Theorem repair_too_few ds ps n :
  Z.of_nat (length ds + length ps) <= 65535 ->
  Z.of_nat (length ds) <= READER_MAX_REPAIR_TOTAL_SHARDS ->
  (forall s, Some s ∈ ds \/ Some s ∈ ps -> blen s = 2 * Z.of_nat n) ->
  (present ds + present ps < length ds)%nat ->
  repair_data_gf16 ds ps (2 * Z.of_nat n) = Err FecTooFewAvailableShards.
Proof.
  intros Hc Hmax Hsize Hfew. unfold repair_data_gf16.
  rewrite (proj2 (validate_fec_counts_Ok (length ds) (length ps))), bind_ret by lia.
  run_with ltac:(apply even_size).
  destruct (forallb is_present ds) eqn:Hall; [apply forallb_is_present in Hall; lia|].
  run_with ltac:(lia).
  destruct (collect_survivors_spec ds ps (2 * Z.of_nat n))
    as [[_ (s & Hin & Hs)]|(ks1 & ks2 & H1 & Hk1 & H2 & ->)]; [lia|done|by apply Hsize in Hin|].
  pose proof (collected_le _ _ _ _ _ _ H2). rewrite bind_ret. cbv beta iota.
  replace (length (map (identity_row (length ds)) ks1 ++ map (crow (length ds)) ks2)
           <? length ds)%nat with true
    by (symmetry; apply Nat.ltb_lt; rewrite length_app, !length_map; lia).
  done.
Qed.

(** The encoder's contract.  [encode_parity_gf16] succeeds exactly on a
    non-empty list of equally long shards of whole symbols with at most 65535
    shards in all; the result has the requested number of shards, of the same
    size, and symbol [k] of parity shard [j] is the sum over the data shards
    [i] of symbol [k] of shard [i] divided by [x_i + y_j] in GF(2^16). *)
Theorem encode_parity_gf16_correct data P :
  ((exists parity, encode_parity_gf16 data P = Ok parity) <-> shape_ok data P)
  /\ (forall parity n, encode_parity_gf16 data P = Ok parity -> same_size n data ->
      length parity = P /\ same_size n parity
      /\ forall j, (j < P)%nat -> forall k,
        dsym parity j k
        = sum (length data) (fun i => dsym data i k / (point i + point (length data + j)))%F).
Proof.
  split.
  - split; [intros [parity H]; by apply encode_Ok_shape in H|].
    intros (Hne & Hc & n & Hn). destruct (encode_parity_spec n data P) as (parity & H & _); [done..|].
    by exists parity.
  - intros parity n H Hn. pose proof (encode_Ok_shape _ _ _ H) as (Hne & Hc & _).
    destruct (encode_parity_spec n data P) as (parity' & H' & Hl & Hall); [done..|].
    rewrite H in H'. injection H' as <-. split_and!; [done| |].
    + apply Forall_lookup_2. intros j p Hp. by apply (Hall j).
    + intros j Hj k. destruct (lookup_lt_is_Some_2 parity j ltac:(lia)) as [p Hp].
      unfold dsym at 1. rewrite (nth_lookup_Some _ _ _ _ Hp). destruct (Hall j p Hp) as [_ ->].
      apply sum_ext. intros i Hi. unfold cauchy. rewrite (Fdiv_def (f_theory (F:=gf))). ring.
Qed.

(** Matrix inversion.  On a square matrix of 16-bit words
    [invert_matrix] either returns a square matrix that multiplies with the
    input to the identity, or reports [FecSingularMatrix], and then the columns
    of the input are dependent.  It never panics. *)
Theorem invert_matrix_correct n A :
  wf_matrix n n A ->
  (exists R, invert_matrix A = Ok R /\ wf_matrix n n R
     /\ forall i j, (i < n)%nat -> (j < n)%nat ->
        sum n (fun k => ent R i k * ent A k j)%F = delta i j)
  \/ (invert_matrix A = Err FecSingularMatrix /\ ~ trivial_kernel n (ent A)).
Proof.
  intros HA. destruct (invert_matrix_spec n A HA) as [(R & HR & Hwf & Hinv)|H]; [left|by right].
  exists R. split_and!; [done|done|]. intros i j Hi Hj.
  rewrite <- (Hinv (fun l => delta l j) i Hi). apply sum_ext. intros k Hk. f_equal.
  rewrite (sum_ext n _ (fun l => delta j l * ent A k l)%F).
  - symmetry. by apply (sum_delta n (fun l => ent A k l)).
  - intros l Hl. rewrite (delta_sym l j). ring.
Qed.

(** The inner loop.  On shards of the same even length, adding a multiple
    of one shard to another works symbol by symbol whichever of the three code
    paths runs, and the eight-byte XOR loop is the bytewise XOR in either byte
    order. *)
Theorem accumulate_shard_correct n c dest src :
  u16 c -> length dest = (2 * n)%nat -> length src = (2 * n)%nat ->
  (exists out, accumulate_shard gf16_tables c dest src = Ok out
     /\ length out = length dest
     /\ forall k, sym out k = (sym dest k + gf_of c * sym src k)%F)
  /\ accumulate_xor_shard dest src = zip_update byte.xor dest src.
Proof.
  intros Hc Hd Hs. split; [|apply accumulate_xor_shard_bytes; lia].
  by apply (accumulate_shard_adds n).
Qed.

Lemma mapM_no_panic {A B} (f : A -> fresult B) l :
  (forall a, a ∈ l -> f a <> Panic) -> mapM f l <> Panic.
Proof.
  induction l as [|a l IH]; intros H; cbn; [done|].
  apply bind_no_panic; [apply H; set_solver|]. intros b _. apply bind_no_panic; [|done].
  apply IH. set_solver.
Qed.

Lemma repair_no_panic ds ps size : 0 <= size -> repair_data_gf16 ds ps size <> Panic.
Proof.
  intros Hsz. unfold repair_data_gf16.
  apply bind_no_panic; [apply validate_fec_counts_no_panic|intros [] [Hne Hc]%validate_fec_counts_Ok].
  apply bind_no_panic; [apply reject_if_no_panic|intros [] He%reject_if_Ok].
  assert (size = 2 * Z.of_nat (Z.to_nat (size / 2))) as Hn.
  { apply negb_false_iff, Z.eqb_eq in He. Z.to_euclidean_division_equations. lia. }
  destruct (forallb is_present ds) eqn:Hall.
  { apply mapM_no_panic. intros [s|] Hs.
    - cbn. unfold validate_available_shard. auto with no_panic.
    - pose proof (proj1 (forallb_forall _ _) Hall None (proj1 (list_elem_of_In _ _) Hs)). done. }
  apply bind_no_panic; [apply reject_if_no_panic|intros [] _].
  destruct (collect_survivors_spec ds ps size)
    as [[-> _]|(ks1 & ks2 & H1 & Hk1 & H2 & ->)]; [lia|done|done|].
  rewrite bind_ret. cbv beta iota.
  apply bind_no_panic; [apply reject_if_no_panic|intros [] Hrows%reject_if_Ok].
  apply Nat.ltb_ge in Hrows. rewrite length_app, !length_map in Hrows.
  assert (length ks1 + length ks2 = length ds)%nat as Hl.
  { destruct (collected_enough _ _ _ _ _ _ H2) as [?|[? ?]]; lia. }
  rewrite Hn in H1, H2 |- *. set (n := Z.to_nat (size / 2)) in *.
  destruct (invert_matrix_spec (length ds)
    (map (identity_row (length ds)) ks1 ++ map (crow (length ds)) ks2))
    as [(R & -> & HwR & _)|[-> _]]; [|rewrite bind_ret|done].
  - apply survivors_wf; [done|]. intros k Hk. apply (collected_lt _ _ _ _ _ _ _ H2) in Hk. lia.
  - apply mapM_no_panic. intros i Hi%elem_of_seq.
    destruct (repair_row_spec n (length ds) R (map (source ds) ks1 ++ map (source ps) ks2) i)
      as (o & -> & _); [done| | |lia|done].
    + by eapply survivors_same_size.
    + by rewrite length_app, !length_map.
Qed.

Lemma concatenate_loop_no_panic ds size acc : concatenate_loop ds size acc <> Panic.
Proof.
  revert acc. induction ds as [|[s|] ds IH]; intros acc; cbn; [done| |done].
  apply bind_no_panic; [apply reject_if_no_panic|]. intros _ _. apply IH.
Qed.

(** The erasure code does not panic: neither the encoder nor the two
    decoder entry points index out of range, divide by zero or fail an
    [expect], whatever shards and sizes they are given. *)
Theorem fec_no_panic data P ds ps size :
  0 <= size ->
  encode_parity_gf16 data P <> Panic
  /\ repair_data_gf16 ds ps size <> Panic
  /\ recover_data_bytes_gf16 ds ps size <> Panic.
Proof.
  intros Hsz. split_and!; [|by apply repair_no_panic|].
  - destruct (validate_fec_shape (Z.of_nat (length data)) (Z.of_nat P) data) as [[]| |] eqn:Hv.
    + apply validate_fec_shape_Ok in Hv as (Hne & Hc & n & Hn).
      destruct (encode_parity_spec n data P) as (parity & -> & _); done.
    + unfold encode_parity_gf16. by rewrite Hv.
    + exfalso. revert Hv. unfold validate_fec_shape.
      apply bind_no_panic; [apply validate_fec_counts_no_panic|intros [] [Hd _]%validate_fec_counts_Ok].
      destruct data as [|first data]; [cbn in Hd; lia|].
      change (nth_or_panic (first :: data) 0) with (@Ok FormatError _ first).
      rewrite bind_ret. auto with no_panic.
  - unfold recover_data_bytes_gf16, concatenate_complete_data_shards.
    apply bind_no_panic.
    + case_match; [done|]. apply bind_no_panic; [apply ok_or_no_panic|].
      intros _ _. apply concatenate_loop_no_panic.
    + intros [c|] _; [done|]. apply bind_no_panic; [by apply repair_no_panic|done].
Qed.
End Shards.

(** ** Concrete instances *)
Definition example_target : Target := {| target_big_endian := false |}.

Definition example_shards : list bytes :=
  [[Byte.x01; Byte.x02]; [Byte.xff; Byte.x00]; [Byte.x80; Byte.x7f]].

Lemma example_shards_size : same_size 1 example_shards.
Proof. repeat constructor. Qed.


Lemma repair_too_few_witness :
  repair_data_gf16 (T := example_target) [None; Some [Byte.xff; Byte.x00]; None]
    [None; Some [Byte.x01; Byte.x01]] (2 * Z.of_nat 1) = Err FecTooFewAvailableShards.
Proof.
  apply (repair_too_few (T := example_target)).
  - cbn. lia.
  - vm_compute. done.
  - intros s [H|H]; rewrite !elem_of_cons in H;
      repeat (destruct H as [H|H]; [first [discriminate H|injection H as ->; reflexivity]|]);
      by apply elem_of_nil in H.
  - cbn. lia.
Defined.

Lemma encode_parity_gf16_correct_witness :
  exists parity, encode_parity_gf16 (T := example_target) example_shards 2 = Ok parity.
Proof.
  apply (encode_parity_gf16_correct (T := example_target)).
  split_and!; [done|cbn; lia|]. exists 1%nat. apply example_shards_size.
Defined.

Lemma invert_matrix_correct_witness :
  (exists R, invert_matrix [[1; 2]; [0; 1]] = Ok R /\ wf_matrix 2 2 R
     /\ forall i j, (i < 2)%nat -> (j < 2)%nat ->
        sum 2 (fun k => ent R i k * ent [[1; 2]; [0; 1]] k j)%F = delta i j)
  \/ (invert_matrix [[1; 2]; [0; 1]] = Err FecSingularMatrix
      /\ ~ trivial_kernel 2 (ent [[1; 2]; [0; 1]])).
Proof.
  apply invert_matrix_correct. repeat constructor; unfold fits; lia.
Defined.

Lemma accumulate_shard_correct_witness :
  exists out, accumulate_shard (T := example_target) gf16_tables 3
                [Byte.x01; Byte.x02] [Byte.xff; Byte.x00] = Ok out
    /\ length out = 2%nat
    /\ forall k, sym out k = (sym [Byte.x01; Byte.x02] k + gf_of 3 * sym [Byte.xff; Byte.x00] k)%F.
Proof.
  apply (accumulate_shard_correct (T := example_target) 1 3); [unfold fits; lia|reflexivity..].
Defined.

Lemma fec_no_panic_witness :
  repair_data_gf16 (T := example_target) [None; Some []] [Some [Byte.x00]] 7 <> Panic.
Proof.
  apply (fec_no_panic (T := example_target) [] 0 [None; Some []] [Some [Byte.x00]] 7). lia.
Defined.
