(* ===== verification/Wire.v ===== *)
(** * Reading and writing fixed layouts, [crates/tzap-core/src/wire.rs]

    The readers, writers and checks at the end of wire.rs, which every
    structure of the format uses, the checksum and digest functions they call,
    and the interface [WireFormat] that each structure implements. *)

From S2P Require Export Prelude Format.
#[local] Open Scope Z_scope.

(** ** Third-party functions

    [crc32c::crc32c] returns a [u32]; [sha2::Sha256] returns 32 bytes.  Nothing
    else is assumed of them. *)
Class Crc32c : Type := {
  crc32c : bytes -> Z;
  crc32c_u32 : forall b, u32 (crc32c b)
}.

Class Sha256 : Type := {
  sha256 : bytes -> bytes;
  sha256_blen : forall b, blen (sha256 b) = 32
}.

#[export] Hint Resolve crc32c_u32 CompressionAlgo_to_Z_fits AeadAlgo_to_Z_fits FecAlgo_to_Z_fits
  KdfAlgo_to_Z_fits BlockKind_to_Z_fits : core.

(** ** Magics *)
Definition TZAP_MAGIC : bytes := String.list_byte_of_string "TZAP".
Definition TZCH_MAGIC : bytes := String.list_byte_of_string "TZCH".
Definition TZBK_MAGIC : bytes := String.list_byte_of_string "TZBK".
Definition TZMF_MAGIC : bytes := String.list_byte_of_string "TZMF".
Definition TZVT_MAGIC : bytes := String.list_byte_of_string "TZVT".
Definition TZRA_MAGIC : bytes := String.list_byte_of_string "TZRA".
Definition TZBS_MAGIC : bytes := String.list_byte_of_string "TZBS".
Definition TZMI_MAGIC : bytes := String.list_byte_of_string "TZMI".
Definition TZCR_MAGIC : bytes := String.list_byte_of_string "TZCR".
Definition TZCS_MAGIC : bytes := String.list_byte_of_string "TZCS".
Definition TZCL_MAGIC : bytes := String.list_byte_of_string "TZCL".
Definition TZKW_MAGIC : bytes := String.list_byte_of_string "TZKW".

(** ** Checks and readers *)
Definition expect_len (structure : string) (expected actual : Z) : fresult unit :=
  reject_if (negb (actual =? expected)) (InvalidLength structure expected actual).

Definition u32_len (value : Z) (field : string) : fresult Z :=
  ok_or (try_from 32 value) (WriterUnsupported field).

Definition expect_magic (structure : string) (expected actual : bytes) : fresult unit :=
  reject_if (negb (bytes_eqb actual expected)) (BadMagic structure).

Definition expect_zero (structure : string) (b : bytes) : fresult unit :=
  reject_if (negb (all_zero b)) (NonZeroReserved structure).

Definition expect_crc `{Crc32c} (structure : string) (covered : bytes) (expected : Z)
    : fresult unit :=
  reject_if (negb (crc32c covered =? expected)) (BadCrc structure).

(** [bytes.get(offset..offset + n).ok_or(InvalidLength ..)?] *)
Definition read_array (n : Z) (structure : string) (b : bytes) (offset : Z) : fresult bytes :=
  ok_or (get_range b offset (offset + n)) (InvalidLength structure (offset + n) (blen b)).

Definition read_array_16 (b : bytes) (offset : Z) : fresult bytes := read_array 16 "array16" b offset.
Definition read_array_24 (b : bytes) (offset : Z) : fresult bytes := read_array 24 "array24" b offset.
Definition read_array_32 (b : bytes) (offset : Z) : fresult bytes := read_array 32 "array32" b offset.

Definition read_u16 (b : bytes) (offset : Z) : fresult Z :=
  array ← read_array 2 "u16" b offset; mret (le_combine array).

Definition read_u32 (b : bytes) (offset : Z) : fresult Z :=
  array ← read_array 4 "u32" b offset; mret (le_combine array).

Definition read_u64 (b : bytes) (offset : Z) : fresult Z :=
  array ← read_array 8 "u64" b offset; mret (le_combine array).

(** [i64::from_le_bytes]: the two's complement reading of eight bytes. *)
Definition as_i64 (z : Z) : Z := if z <? 2 ^ 63 then z else z - 2 ^ 64.

Definition read_i64 (b : bytes) (offset : Z) : fresult Z :=
  array ← read_array 8 "i64" b offset; mret (as_i64 (le_combine array)).

(** ** Writers: [bytes\[offset..offset + n\].copy_from_slice(..)] *)
Definition write_u16 (offset value : Z) : Z * bytes := (offset, le_bytes 2 value).
Definition write_u32 (offset value : Z) : Z * bytes := (offset, le_bytes 4 value).
Definition write_u64 (offset value : Z) : Z * bytes := (offset, le_bytes 8 value).
Definition write_i64 (offset value : Z) : Z * bytes := (offset, le_bytes 8 value).
Definition write_u8 (offset value : Z) : Z * bytes := (offset, le_bytes 1 value).
Definition write_bytes (offset : Z) (value : bytes) : Z * bytes := (offset, value).

(** Ends a layout with the checksum of the bytes in front of it. *)
Definition put_crc `{Crc32c} (b : bytes) (offset : Z) : bytes :=
  put b offset (le_bytes 4 (crc32c (seg b 0 offset))).

(** ** Lemmas *)
Lemma expect_len_Ok s e a u : expect_len s e a = Ok u <-> a = e.
Proof. unfold expect_len. rewrite reject_if_Ok. lia. Qed.

Lemma expect_magic_Ok s e a u : expect_magic s e a = Ok u <-> a = e.
Proof.
  unfold expect_magic. rewrite reject_if_Ok, negb_false_iff. apply bytes_eqb_eq.
Qed.

Lemma expect_zero_Ok s b u : expect_zero s b = Ok u <-> b = zeros (blen b).
Proof.
  unfold expect_zero. rewrite reject_if_Ok, negb_false_iff. apply all_zero_iff.
Qed.

Lemma expect_crc_Ok `{Crc32c} s b e u : expect_crc s b e = Ok u <-> e = crc32c b.
Proof. unfold expect_crc. rewrite reject_if_Ok. lia. Qed.

Lemma u32_len_Ok v f x : u32_len v f = Ok x <-> x = v /\ u32 v.
Proof. unfold u32_len. by rewrite ok_or_Ok, try_from_Some. Qed.

Lemma u32_len_eq v f : u32 v -> u32_len v f = Ok v.
Proof. intros H. by apply u32_len_Ok. Qed.

(** [ok_inv] decomposes every hypothesis that a computation returned [Ok];
    [ok_inv_with] also tries [ext]. *)
Ltac ok_step := match goal with
  | H : mbind _ _ = Ok _ |- _ => apply bind_Ok in H as (? & ? & ?)
  | H : mret _ = Ok _ |- _ => rewrite mret_Ok in H
  | H : Ok _ = Ok _ |- _ => injection H as H
  | H : Err _ = Ok _ |- _ => discriminate H
  | H : Panic = Ok _ |- _ => discriminate H
  | H : reject_if _ _ = Ok _ |- _ => apply reject_if_Ok in H
  | H : ok_or _ _ = Ok _ |- _ => apply ok_or_Ok in H
  | H : checked_add _ _ _ = Some _ |- _ => apply checked_add_Some in H as [? ?]
  | H : checked_add3 _ _ _ = Some _ |- _ => apply checked_add3_Some in H as [? ?]; [|lia]
  | H : try_from _ _ = Some _ |- _ => apply try_from_Some in H as [? ?]
  | H : u32_len _ _ = Ok _ |- _ => apply u32_len_Ok in H as [? ?]
  | H : (match ?p with (_, _) => _ end) = Ok _ |- _ => destruct p
  | H : (if ?c then _ else _) = Ok _ |- _ => destruct c eqn:?
  | H : Some _ = Some _ |- _ => injection H as H
  | H : (_, _) = (_, _) |- _ => injection H as H
  | H : None = Some _ |- _ => discriminate H
  | H : Some _ = None |- _ => discriminate H
  | H : ?x = _ |- _ => is_var x; subst x
  | H : _ = ?x |- _ => is_var x; subst x
  | x : unit |- _ => destruct x
  end.

Ltac ok_inv_with ext := repeat (cbv beta iota zeta in *; first [ok_step | ext]).

Ltac ok_inv := ok_inv_with fail.

Lemma read_array_Ok n s b off x :
  0 <= off -> 0 <= n ->
  read_array n s b off = Ok x <-> off + n <= blen b /\ x = seg b off (off + n).
Proof.
  intros Ho Hn. unfold read_array. rewrite ok_or_Ok, get_range_Some. intuition lia.
Qed.

Lemma read_le_Ok (n : nat) w s b off v :
  0 <= off -> w = 8 * Z.of_nat n ->
  (array ← read_array (Z.of_nat n) s b off; mret (le_combine array)) = Ok v
  <-> off + Z.of_nat n <= blen b /\ fits w v /\ seg b off (off + Z.of_nat n) = le_bytes n v.
Proof.
  intros Ho ->. rewrite bind_Ok. split.
  - intros (a & Ha & Hv). apply read_array_Ok in Ha as [Hle ->]; [|lia..]. apply mret_Ok in Hv as <-.
    assert (length (seg b off (off + Z.of_nat n)) = n) as Hl.
    { pose proof (blen_seg b off (off + Z.of_nat n)) as H. unfold blen in *. lia. }
    split_and!; [done| |by rewrite split_le_combine'].
    apply le_combine_fits. unfold blen. by rewrite Hl.
  - intros (Hle & Hf & Hs). exists (le_bytes n v). split.
    + apply read_array_Ok; [lia..|]. by rewrite Hs.
    + by rewrite mret_eq, le_combine_bytes.
Qed.

Lemma read_u16_Ok b off v :
  0 <= off ->
  read_u16 b off = Ok v <-> off + 2 <= blen b /\ u16 v /\ seg b off (off + 2) = le_bytes 2 v.
Proof. intros. by apply (read_le_Ok 2). Qed.

Lemma read_u32_Ok b off v :
  0 <= off ->
  read_u32 b off = Ok v <-> off + 4 <= blen b /\ u32 v /\ seg b off (off + 4) = le_bytes 4 v.
Proof. intros. by apply (read_le_Ok 4). Qed.

Lemma read_u64_Ok b off v :
  0 <= off ->
  read_u64 b off = Ok v <-> off + 8 <= blen b /\ u64 v /\ seg b off (off + 8) = le_bytes 8 v.
Proof. intros. by apply (read_le_Ok 8). Qed.

Lemma read_array_16_Ok b off x :
  0 <= off -> read_array_16 b off = Ok x <-> off + 16 <= blen b /\ x = seg b off (off + 16).
Proof. intros. by apply read_array_Ok. Qed.

Lemma read_array_24_Ok b off x :
  0 <= off -> read_array_24 b off = Ok x <-> off + 24 <= blen b /\ x = seg b off (off + 24).
Proof. intros. by apply read_array_Ok. Qed.

Lemma read_array_32_Ok b off x :
  0 <= off -> read_array_32 b off = Ok x <-> off + 32 <= blen b /\ x = seg b off (off + 32).
Proof. intros. by apply read_array_Ok. Qed.

(** A signed 64-bit number. *)
Definition i64 (z : Z) : Prop := - 2 ^ 63 <= z < 2 ^ 63.

Lemma le_bytes_as_i64 z : le_bytes 8 (as_i64 z) = le_bytes 8 z.
Proof.
  unfold as_i64. case_match; [done|]. rewrite (le_split_mod (z - _)), (le_split_mod z).
  f_equal. change (Z.of_nat 8 * 8) with 64.
  rewrite <- (Z_mod_plus_full z (-1)). f_equal.
Qed.

Lemma as_i64_i64 z : u64 z -> i64 (as_i64 z).
Proof. unfold fits, i64, as_i64. case_match; lia. Qed.

Lemma as_i64_mod z : i64 z -> as_i64 (z `mod` 2 ^ 64) = z.
Proof. unfold i64, as_i64. intros H. Z.to_euclidean_division_equations. case_match; lia. Qed.

Lemma read_i64_Ok b off v :
  0 <= off ->
  read_i64 b off = Ok v <-> off + 8 <= blen b /\ i64 v /\ seg b off (off + 8) = le_bytes 8 v.
Proof.
  intros Ho. unfold read_i64. rewrite bind_Ok. split.
  - intros (a & Ha & Hv). cbv beta in Hv. rewrite mret_Ok in Hv.
    destruct (proj1 (read_le_Ok 8 64 "i64" b off (le_combine a) Ho eq_refl)) as (H1 & H2 & H3).
    { change (Z.of_nat 8) with 8. by rewrite Ha. }
    change (Z.of_nat 8) with 8 in *. subst v. split_and!; [done|by apply as_i64_i64|].
    by rewrite le_bytes_as_i64.
  - intros (Hle & Hf & Hs). exists (le_bytes 8 v). split.
    + apply read_array_Ok; [lia..|]. by rewrite Hs.
    + by rewrite mret_eq, le_combine_split, as_i64_mod.
Qed.

Lemma le_bytes_inj n x y :
  fits (8 * Z.of_nat n) x -> fits (8 * Z.of_nat n) y -> le_bytes n x = le_bytes n y -> x = y.
Proof. intros Hx Hy H. rewrite <- (le_combine_bytes n x), <- (le_combine_bytes n y); congruence. Qed.

Lemma seg_nil b i : seg b i i = [].
Proof. unfold seg. by rewrite Z.sub_diag. Qed.

Lemma byte_at_Ok' {E} b i v :
  byte_at (E:=E) b i = Ok v <-> 0 <= i < blen b /\ u8 v /\ seg b i (i + 1) = le_bytes 1 v.
Proof. apply byte_at_Ok. Qed.

Lemma read_array_blen n s b off x : read_array n s b off = Ok x -> blen x = n.
Proof.
  unfold read_array. rewrite ok_or_Ok, get_range_Some. intros (H1 & H2 & H3 & ->).
  rewrite blen_seg; lia.
Qed.

Lemma read_u16_range b off v : read_u16 b off = Ok v -> 0 <= v < 2 ^ 16.
Proof.
  intros H. unfold read_u16 in H. bind_inv H. apply read_array_blen in Hr. subst.
  apply (le_combine_fits 16). lia.
Qed.

Lemma read_u32_range b off v : read_u32 b off = Ok v -> 0 <= v < 2 ^ 32.
Proof.
  intros H. unfold read_u32 in H. bind_inv H. apply read_array_blen in Hr. subst.
  apply (le_combine_fits 32). lia.
Qed.

Lemma read_u64_range b off v : read_u64 b off = Ok v -> 0 <= v < 2 ^ 64.
Proof.
  intros H. unfold read_u64 in H. bind_inv H. apply read_array_blen in Hr. subst.
  apply (le_combine_fits 64). lia.
Qed.

(** ** No panics *)
Lemma read_array_no_panic n s b off : read_array n s b off <> Panic.
Proof. apply ok_or_no_panic. Qed.

Lemma read_array_16_no_panic b off : read_array_16 b off <> Panic.
Proof. apply ok_or_no_panic. Qed.

Lemma read_array_24_no_panic b off : read_array_24 b off <> Panic.
Proof. apply ok_or_no_panic. Qed.

Lemma read_array_32_no_panic b off : read_array_32 b off <> Panic.
Proof. apply ok_or_no_panic. Qed.

Lemma read_u16_no_panic b off : read_u16 b off <> Panic.
Proof. apply bind_no_panic; [apply read_array_no_panic|done]. Qed.

Lemma read_u32_no_panic b off : read_u32 b off <> Panic.
Proof. apply bind_no_panic; [apply read_array_no_panic|done]. Qed.

Lemma read_u64_no_panic b off : read_u64 b off <> Panic.
Proof. apply bind_no_panic; [apply read_array_no_panic|done]. Qed.

Lemma read_i64_no_panic b off : read_i64 b off <> Panic.
Proof. apply bind_no_panic; [apply read_array_no_panic|done]. Qed.

Lemma expect_len_no_panic s e a : expect_len s e a <> Panic.
Proof. apply reject_if_no_panic. Qed.

Lemma expect_magic_no_panic s e a : expect_magic s e a <> Panic.
Proof. apply reject_if_no_panic. Qed.

Lemma expect_zero_no_panic s b : expect_zero s b <> Panic.
Proof. apply reject_if_no_panic. Qed.

Lemma expect_crc_no_panic `{Crc32c} s b e : expect_crc s b e <> Panic.
Proof. apply reject_if_no_panic. Qed.

Lemma u32_len_no_panic v f : u32_len v f <> Panic.
Proof. apply ok_or_no_panic. Qed.

#[export] Hint Resolve read_array_no_panic read_array_16_no_panic read_array_24_no_panic
  read_array_32_no_panic read_u16_no_panic read_u32_no_panic read_u64_no_panic
  read_i64_no_panic expect_len_no_panic expect_magic_no_panic expect_zero_no_panic
  expect_crc_no_panic u32_len_no_panic CompressionAlgo_try_from_no_panic
  AeadAlgo_try_from_no_panic FecAlgo_try_from_no_panic KdfAlgo_try_from_no_panic
  BlockKind_try_from_no_panic : no_panic.

(** ** The layout calculus

    [put_crc_iff] turns "these writes, then the checksum, give [b]" into the
    segments of [b]; the tactics below turn a parser's reads into segments
    ([wire_facts]) and run a parser on known segments ([wire_run]). *)
Lemma blen_puts n ws : fits_in 0 n ws -> blen (puts (zeros n) ws) = n.
Proof. intros H. by apply (puts_iff n ws _ H). Qed.

Lemma fits_in_app pos n ws1 ws2 :
  fits_in pos n (ws1 ++ ws2) -> fits_in pos n ws1.
Proof.
  revert pos. induction ws1 as [|[off d] ws1 IH]; intros pos; cbn [app fits_in].
  - apply fits_in_le.
  - intros [? ?%IH]. done.
Qed.

Lemma put_crc_iff `{Crc32c} n off ws b :
  0 <= off <= n -> fits_in 0 n (ws ++ [write_u32 off 0]) ->
  put_crc (puts (zeros n) ws) off = b
  <-> blen b = n /\ covers 0 n (ws ++ [write_u32 off (crc32c (seg b 0 off))]) b.
Proof.
  intros Hoff Hfit. pose proof (fits_in_app _ _ _ _ Hfit) as Hfit1.
  unfold put_crc. rewrite (put_checksum_iff _ _ (fun x => le_bytes 4 (crc32c x)))
    by (rewrite blen_puts; done).
  rewrite <- puts_iff.
  - by rewrite puts_app.
  - assert (forall v v' pos, fits_in pos n (ws ++ [write_u32 off v]) -> fits_in pos n (ws ++ [write_u32 off v']))
      as Hv; [|by apply (Hv 0)].
    intros v v'. clear. induction ws as [|[o d] ws IH]; intros pos; cbn.
    + by rewrite !blen_le.
    + intros [? ?]. auto.
Qed.

Lemma root_auth_spec_id_for_revision_Ok f r x :
  root_auth_spec_id_for_revision f r = Ok x
  <-> f = FORMAT_VERSION /\ r = VOLUME_FORMAT_REV_45 /\ x = ROOT_AUTH_SPEC_ID_V45.
Proof.
  unfold root_auth_spec_id_for_revision.
  destruct (Z.eqb_spec f FORMAT_VERSION), (Z.eqb_spec r VOLUME_FORMAT_REV_45); cbn [negb];
    naive_solver.
Qed.

Lemma expect_zero_eq s b n : 0 <= n -> b = zeros n -> expect_zero s b = Ok tt.
Proof. intros Hn ->. apply expect_zero_Ok. by rewrite blen_zeros. Qed.

Lemma CompressionAlgo_try_from_to_Z a : CompressionAlgo_try_from (CompressionAlgo.to_Z a) = Ok a.
Proof. by apply CompressionAlgo_try_from_Ok. Qed.

Lemma AeadAlgo_try_from_to_Z a : AeadAlgo_try_from (AeadAlgo.to_Z a) = Ok a.
Proof. by apply AeadAlgo_try_from_Ok. Qed.

Lemma FecAlgo_try_from_to_Z a : FecAlgo_try_from (FecAlgo.to_Z a) = Ok a.
Proof. by apply FecAlgo_try_from_Ok. Qed.

Lemma KdfAlgo_try_from_to_Z a : KdfAlgo_try_from (KdfAlgo.to_Z a) = Ok a.
Proof. by apply KdfAlgo_try_from_Ok. Qed.

Lemma BlockKind_try_from_to_Z a : BlockKind_try_from (BlockKind.to_Z a) = Ok a.
Proof. by apply BlockKind_try_from_Ok. Qed.

(** Writes inside a prefix leave the rest alone. *)
Lemma put_app_l b z off d :
  0 <= off -> off + blen d <= blen b -> put (b ++ z) off d = put b off d ++ z.
Proof.
  intros H1 H2. pose proof (blen_nonneg d). unfold put.
  rewrite take_app_le, drop_app_le by (unfold blen in *; lia). by rewrite <- !app_assoc.
Qed.

Lemma puts_app_l pos b z ws :
  0 <= pos -> fits_in pos (blen b) ws -> puts (b ++ z) ws = puts b ws ++ z.
Proof.
  revert pos b. induction ws as [|[off d] ws IH]; intros pos b Hpos; cbn [fits_in]; [done|].
  intros [Hoff Hf]. pose proof (fits_in_le _ _ _ Hf). pose proof (blen_nonneg d).
  change (puts (put (b ++ z) off d) ws = puts (put b off d) ws ++ z).
  rewrite put_app_l by lia. apply (IH (off + blen d)); [lia|]. by rewrite blen_put by lia.
Qed.

Lemma puts_zeros_app n m ws :
  0 <= n <= m -> fits_in 0 n ws -> puts (zeros m) ws = puts (zeros n) ws ++ zeros (m - n).
Proof.
  intros H Hf. replace (zeros m) with (zeros n ++ zeros (m - n)).
  - apply (puts_app_l 0); [lia|]. by rewrite blen_zeros by lia.
  - unfold zeros. rewrite <- replicate_add. f_equal. lia.
Qed.

(** Appends to the written prefix of a zeroed array. *)
Lemma put_append pre k d :
  blen d <= k -> put (pre ++ zeros k) (blen pre) d = (pre ++ d) ++ zeros (k - blen d).
Proof.
  intros H. pose proof (put_zeros pre (blen pre + k) (blen pre) d) as P.
  replace (blen pre + k - blen pre) with k in P by lia. rewrite P by lia.
  rewrite Z.sub_diag. cbn [zeros Z.to_nat replicate app]. f_equal. f_equal. lia.
Qed.

(** Evaluates arithmetic on closed numbers. *)
Ltac is_num t :=
  lazymatch t with
  | Z0 => idtac
  | Zpos _ => idtac
  | Zneg _ => idtac
  | ?a + ?b => is_num a; is_num b
  | ?a - ?b => is_num a; is_num b
  | ?a * ?b => is_num a; is_num b
  | Z.of_nat ?n => let v := eval compute in n in idtac
  end.

Ltac eval_num :=
  repeat match goal with
    | |- context [?a + ?b] => is_num (a + b); let c := eval compute in (a + b) in change (a + b) with c
    | |- context [?a - ?b] => is_num (a - b); let c := eval compute in (a - b) in change (a - b) with c
    | |- context [Z.of_nat ?n] =>
        lazymatch n with context [S _] => idtac | O => idtac end;
        let c := eval compute in (Z.of_nat n) in is_num c; change (Z.of_nat n) with c
    end.

Ltac eval_num_in H := revert H; eval_num; intros H.

Lemma blen_TZAP : blen TZAP_MAGIC = 4. Proof. done. Qed.
Lemma blen_TZCH : blen TZCH_MAGIC = 4. Proof. done. Qed.
Lemma blen_TZBK : blen TZBK_MAGIC = 4. Proof. done. Qed.
Lemma blen_TZMF : blen TZMF_MAGIC = 4. Proof. done. Qed.
Lemma blen_TZVT : blen TZVT_MAGIC = 4. Proof. done. Qed.
Lemma blen_TZRA : blen TZRA_MAGIC = 4. Proof. done. Qed.
Lemma blen_TZBS : blen TZBS_MAGIC = 4. Proof. done. Qed.
Lemma blen_TZMI : blen TZMI_MAGIC = 4. Proof. done. Qed.
Lemma blen_TZCR : blen TZCR_MAGIC = 4. Proof. done. Qed.
Lemma blen_TZCS : blen TZCS_MAGIC = 4. Proof. done. Qed.
Lemma blen_TZCL : blen TZCL_MAGIC = 4. Proof. done. Qed.
Lemma blen_TZKW : blen TZKW_MAGIC = 4. Proof. done. Qed.

#[global] Arguments TZAP_MAGIC : simpl never.
#[global] Arguments TZCH_MAGIC : simpl never.
#[global] Arguments TZBK_MAGIC : simpl never.
#[global] Arguments TZMF_MAGIC : simpl never.
#[global] Arguments TZVT_MAGIC : simpl never.
#[global] Arguments TZRA_MAGIC : simpl never.
#[global] Arguments TZBS_MAGIC : simpl never.
#[global] Arguments TZMI_MAGIC : simpl never.
#[global] Arguments TZCR_MAGIC : simpl never.
#[global] Arguments TZCS_MAGIC : simpl never.
#[global] Arguments TZCL_MAGIC : simpl never.
#[global] Arguments TZKW_MAGIC : simpl never.

Create HintDb wire_len.
#[export] Hint Rewrite blen_le blen_TZAP blen_TZCH blen_TZBK blen_TZMF blen_TZVT blen_TZRA blen_TZBS
  blen_TZMI blen_TZCR blen_TZCS blen_TZCL blen_TZKW : wire_len.

(** Computes the offsets of a layout in the goal. *)
Ltac layout :=
  unfold write_u8, write_u16, write_u32, write_u64, write_i64, write_bytes;
  cbn [covers fits_in app fst snd];
  repeat (autorewrite with wire_len;
          repeat match goal with
            | H : blen ?x = _ |- context [blen ?x] => rewrite H
            | |- context [blen (seg ?b ?i ?j)] => rewrite (blen_seg b i j) by lia
            end;
          eval_num).

(** Turns the reads of a parser into segments of its input. *)
Ltac wire_facts :=
  repeat match goal with
    | H : slice _ _ _ = Ok _ |- _ => apply slice_Ok in H; destruct H as (? & ? & ? & ->)
    | H : expect_len _ _ _ = Ok _ |- _ => apply expect_len_Ok in H
    | H : expect_magic _ _ _ = Ok _ |- _ => apply expect_magic_Ok in H
    | H : expect_zero _ (seg ?b ?i ?j) = Ok _ |- _ =>
        apply expect_zero_Ok in H; rewrite (blen_seg b i j) in H by lia; eval_num_in H
    | H : expect_zero _ _ = Ok _ |- _ => apply expect_zero_Ok in H
    | H : expect_crc _ _ _ = Ok _ |- _ => apply expect_crc_Ok in H
    | H : u32_len _ _ = Ok _ |- _ => apply u32_len_Ok in H; destruct H as [-> ?]
    | H : read_u16 _ _ = Ok _ |- _ => apply read_u16_Ok in H; [destruct H as (? & ? & H); eval_num_in H|lia]
    | H : read_u32 _ _ = Ok _ |- _ => apply read_u32_Ok in H; [destruct H as (? & ? & H); eval_num_in H|lia]
    | H : read_u64 _ _ = Ok _ |- _ => apply read_u64_Ok in H; [destruct H as (? & ? & H); eval_num_in H|lia]
    | H : read_i64 _ _ = Ok _ |- _ => apply read_i64_Ok in H; [destruct H as (? & ? & H); eval_num_in H|lia]
    | H : byte_at _ _ = Ok _ |- _ => apply byte_at_Ok' in H; destruct H as (? & ? & H); eval_num_in H
    | H : read_array_16 _ _ = Ok _ |- _ => apply read_array_16_Ok in H; [destruct H as [? ->]; eval_num|lia]
    | H : read_array_24 _ _ = Ok _ |- _ => apply read_array_24_Ok in H; [destruct H as [? ->]; eval_num|lia]
    | H : read_array_32 _ _ = Ok _ |- _ => apply read_array_32_Ok in H; [destruct H as [? ->]; eval_num|lia]
    | H : CompressionAlgo_try_from _ = Ok _ |- _ => apply CompressionAlgo_try_from_Ok in H; subst
    | H : AeadAlgo_try_from _ = Ok _ |- _ => apply AeadAlgo_try_from_Ok in H; subst
    | H : FecAlgo_try_from _ = Ok _ |- _ => apply FecAlgo_try_from_Ok in H; subst
    | H : KdfAlgo_try_from _ = Ok _ |- _ => apply KdfAlgo_try_from_Ok in H; subst
    | H : BlockKind_try_from _ = Ok _ |- _ => apply BlockKind_try_from_Ok in H; subst
    end.

(** Solves the segments of a layout from those in the context. *)
Ltac layout_done :=
  layout; split_and!;
  first [assumption | lia | reflexivity | rewrite seg_nil; reflexivity | congruence].

(** Identifies two readings of the same bytes. *)
Ltac same_reads :=
  repeat match goal with
    | H1 : seg ?b ?i ?j = le_split ?n ?x, H2 : seg ?b ?i ?j = le_split ?n ?y |- _ =>
        assert (x = y) by (apply (le_bytes_inj n); [assumption|eauto|congruence]);
        clear H1; first [subst x|subst y]
    end.

Ltac wire_read lem b off n v_of :=
  let e := eval compute in (off + n) in
  lazymatch goal with
  | H : seg b off e = ?x |- _ => let v := v_of x in rewrite (proj2 (lem b off v ltac:(lia))) by (split_and!; first [done|lia|solve [eauto]|unfold fits; lia])
  end.

Ltac num_of x := lazymatch x with le_split _ ?v => v end.

Ltac wire_array lem b off n :=
  let e := eval compute in (off + n) in
  rewrite (proj2 (lem b off (seg b off e) ltac:(lia))) by (split; [lia|reflexivity]).

(** Runs the head of a parser on the segments in the context. *)
Ltac wire_head t :=
  lazymatch t with
  | mbind ?f (Ok ?a) => rewrite (bind_ret a f)
  | mbind _ ?m => wire_head m
  | expect_len ?s ?e ?a => rewrite (proj2 (expect_len_Ok s e a tt)) by first [assumption|lia]
  | expect_magic ?s ?e ?a => rewrite (proj2 (expect_magic_Ok s e a tt)) by first [assumption|done]
  | expect_zero ?s (seg ?b ?i ?j) =>
      let n := eval compute in (j - i) in
      rewrite (expect_zero_eq s (seg b i j) n) by first [assumption|lia]
  | expect_crc ?s ?c ?e => rewrite (proj2 (expect_crc_Ok s c e tt)) by first [assumption|done]
  | u32_len ?v ?f => rewrite (u32_len_eq v f) by first [assumption|unfold fits in *; lia]
  | read_u16 ?b ?off => wire_read read_u16_Ok b off 2 num_of
  | read_u32 ?b ?off => wire_read read_u32_Ok b off 4 num_of
  | read_u64 ?b ?off => wire_read read_u64_Ok b off 8 num_of
  | read_i64 ?b ?off => wire_read read_i64_Ok b off 8 num_of
  | read_array_16 ?b ?off => wire_array read_array_16_Ok b off 16
  | read_array_24 ?b ?off => wire_array read_array_24_Ok b off 24
  | read_array_32 ?b ?off => wire_array read_array_32_Ok b off 32
  | byte_at ?b ?off =>
      let e := eval compute in (off + 1) in
      lazymatch goal with
      | H : seg b off e = le_split 1 ?v |- _ =>
          rewrite (proj2 (byte_at_Ok' b off v)) by (split_and!; first [done|lia|eauto])
      end
  | CompressionAlgo_try_from (CompressionAlgo.to_Z ?a) => rewrite (CompressionAlgo_try_from_to_Z a)
  | AeadAlgo_try_from (AeadAlgo.to_Z ?a) => rewrite (AeadAlgo_try_from_to_Z a)
  | FecAlgo_try_from (FecAlgo.to_Z ?a) => rewrite (FecAlgo_try_from_to_Z a)
  | KdfAlgo_try_from (KdfAlgo.to_Z ?a) => rewrite (KdfAlgo_try_from_to_Z a)
  | BlockKind_try_from (BlockKind.to_Z ?a) => rewrite (BlockKind_try_from_to_Z a)
  | _ => first [run_head ltac:(first [assumption|lia]) t
               |lazymatch goal with H : t = Ok _ |- _ => rewrite H end]
  end.

Ltac wire_run :=
  repeat (cbv beta iota zeta; lazymatch goal with |- ?l = _ => wire_head l end).

(** The two directions of [decode_iff] for a fixed layout: [wire_encoded enc]
    shows that the segments read are those [enc] writes, and [wire_segments H]
    turns [H : enc h = b] into segments. *)
Ltac wire_eqs :=
  repeat match goal with
    | H : negb (?x =? ?y) = false |- _ => apply negb_false_iff, Z.eqb_eq in H; first [subst x|subst y|idtac]
    end.

Ltac wire_encoded enc :=
  repeat match goal with u : unit |- _ => destruct u end;
  unfold_consts; wire_facts; wire_eqs; same_reads;
  lazymatch goal with
  | |- _ /\ ?l = ?b =>
      let E := fresh "E" in
      assert (l = b) as E;
      [ unfold enc; cbn; unfold_consts;
        first [apply put_crc_iff; [lia|layout_done..] | apply puts_iff; [layout_done..]]
      | rewrite ?E; split; [cbn; layout; split_and!; first [assumption|done|lia|solve [eauto]|congruence]|reflexivity] ]
  end.

Ltac wire_segments H :=
  cbn in H; unfold_consts;
  first [ apply put_crc_iff in H; [|lia|layout_done]
        | apply puts_iff in H; [|layout_done] ];
  revert H; cbn; layout; intros H; destruct_and!; subst.

(** Walks through a parser that cannot panic. *)
Ltac no_panic :=
  repeat
    lazymatch goal with
    | |- mbind _ _ <> Panic =>
        apply bind_no_panic;
        [ try solve [auto with no_panic | apply slice_no_panic; lia | apply byte_at_no_panic; lia]
        | let H := fresh "H" in
          intros ? H;
          try lazymatch type of H with
            | expect_len _ _ _ = Ok _ => apply expect_len_Ok in H
            | reject_if _ _ = Ok _ => apply reject_if_Ok in H
            | read_u16 _ _ = Ok _ => apply read_u16_range in H
            | read_u32 _ _ = Ok _ => apply read_u32_range in H
            | read_u64 _ _ = Ok _ => apply read_u64_range in H
            | slice _ _ _ = Ok _ => apply slice_Ok in H; destruct H as (? & ? & ? & ->)
            end ]
    | |- (if _ then _ else _) <> Panic => case_match
    | |- (match ?p with (_, _) => _ end) <> Panic => is_var p; destruct p
    | |- (let _ := _ in _) <> Panic => cbv zeta
    | |- Ok _ <> Panic => discriminate
    | |- mret _ <> Panic => discriminate
    | |- Err _ <> Panic => discriminate
    | |- reject_if _ _ <> Panic => apply reject_if_no_panic
    | |- ok_or _ _ <> Panic => apply ok_or_no_panic
    end.

(** ** The interface of a structure

    [decode b = Ok h] holds exactly when [h] is a valid value whose canonical
    encoding is [b]; everything a client needs follows. *)
Class WireFormat (A : Type) : Type := {
  encode : A -> bytes;
  decode : bytes -> fresult A;
  valid : A -> Prop;
  decode_iff : forall b h, decode b = Ok h <-> valid h /\ encode h = b
}.

Section WireFormat.
Context {A : Type} {W : WireFormat A}.

Lemma decode_encode h : valid h -> decode (encode h) = Ok h.
Proof. intros H. by apply decode_iff. Qed.

Lemma decode_canonical b h : decode b = Ok h -> encode h = b.
Proof. intros [_ H]%decode_iff. done. Qed.

Lemma decode_valid b h : decode b = Ok h -> valid h.
Proof. intros [H _]%decode_iff. done. Qed.

Lemma encode_inj h h' : valid h -> valid h' -> encode h = encode h' -> h = h'.
Proof.
  intros Hv Hv' He. pose proof (decode_encode h Hv) as H.
  rewrite He, decode_encode in H by done. by injection H.
Qed.
End WireFormat.

(** ** A concrete checksum and digest

    Toy functions that satisfy the two interfaces, so that the theorems can be
    applied to concrete inputs. *)
Definition toy_hash (b : bytes) : bytes :=
  le_bytes 32 (fold_left (fun acc x => acc * 257 + byte.unsigned x + 1) b 0).

Lemma toy_hash_blen b : blen (toy_hash b) = 32.
Proof. apply blen_le. Qed.

Definition toy_crc (b : bytes) : Z :=
  fold_left (fun acc x => acc * 257 + byte.unsigned x + 1) b 0 `mod` 2 ^ 32.

Lemma toy_crc_u32 b : u32 (toy_crc b).
Proof. apply Z.mod_pos_bound. lia. Qed.

Definition toy_Crc32c : Crc32c := {| crc32c := toy_crc; crc32c_u32 := toy_crc_u32 |}.

Definition toy_Sha256 : Sha256 := {| sha256 := toy_hash; sha256_blen := toy_hash_blen |}.

