(* ===== verification/Compression.v ===== *)
(** * Compressed frames

    From [crates/tzap-core/src/compression.rs].  Every compressed object is one
    standard Zstandard frame and nothing behind it.  The compressor and the
    decompressor are the [zstd] crate, a class of operations here; the laws
    that its documentation gives are named hypotheses. *)

From S2P Require Import Wire Padding.
#[local] Open Scope Z_scope.

Definition ZSTD_MAGIC : bytes := map byte.of_Z [0x28; 0xb5; 0x2f; 0xfd].

(** The operations of [zstd::bulk] and [zstd::zstd_safe] that the program
    calls; [None] is an error of the library. *)
Class ZstdLib : Type := {
  zstd_compress : bytes -> Z -> option bytes;
  Compressor : Type;
  Compressor_new : Z -> option Compressor;
  Compressor_with_dictionary : Z -> bytes -> option Compressor;
  Compressor_set_nb_workers : Compressor -> Z -> option Compressor;
  Compressor_compress : Compressor -> bytes -> option bytes;
  zstd_decompress : bytes -> Z -> option bytes;
  Decompressor : Type;
  Decompressor_new : option Decompressor;
  Decompressor_with_dictionary : bytes -> option Decompressor;
  Decompressor_decompress : Decompressor -> bytes -> Z -> option bytes;
  find_frame_compressed_size : bytes -> option Z
}.

(** What the library documents of a compressed frame: it is a standard frame,
    whose size can be found whatever stands behind it, and a decompressor with
    room for the plaintext gives the plaintext back.  A decompressor never
    writes more than it has room for. *)
Definition standard_frame {Z : ZstdLib} (frame : bytes) : Prop :=
  seg frame 0 4 = ZSTD_MAGIC /\ blen ZSTD_MAGIC <= blen frame
  /\ forall rest, find_frame_compressed_size (frame ++ rest) = Some (blen frame).

Class ZstdLaws (Z : ZstdLib) : Prop := {
  compress_standard plaintext level frame :
    zstd_compress plaintext level = Some frame -> standard_frame frame;
  decompress_compress plaintext level frame capacity :
    zstd_compress plaintext level = Some frame -> (blen plaintext <= capacity)%Z ->
    zstd_decompress frame capacity = Some plaintext;
  compress_workers level jobs c c' plaintext frame :
    Compressor_new level = Some c -> Compressor_set_nb_workers c jobs = Some c' ->
    Compressor_compress c' plaintext = Some frame ->
    standard_frame frame /\ forall capacity, (blen plaintext <= capacity)%Z ->
      zstd_decompress frame capacity = Some plaintext;
  decompress_dictionary level dictionary jobs c c' d plaintext frame capacity :
    Compressor_with_dictionary level dictionary = Some c ->
    c' = c \/ Compressor_set_nb_workers c jobs = Some c' ->
    Compressor_compress c' plaintext = Some frame ->
    Decompressor_with_dictionary dictionary = Some d -> (blen plaintext <= capacity)%Z ->
    standard_frame frame /\ Decompressor_decompress d frame capacity = Some plaintext
}.

Section Compression.
Context {Zs : ZstdLib}.

Definition compress_zstd_frame_with_jobs (plaintext : bytes) (level jobs : Z) : fresult bytes :=
  if jobs <=? 1 then ok_or (zstd_compress plaintext level) ZstdCompressionFailure
  else
    jobs ← ok_or (try_from 32 jobs) (WriterUnsupported "jobs exceeds zstd worker limit");
    compressor ← ok_or (Compressor_new level) ZstdCompressionFailure;
    compressor ← ok_or (Compressor_set_nb_workers compressor jobs) ZstdCompressionFailure;
    ok_or (Compressor_compress compressor plaintext) ZstdCompressionFailure.

Definition compress_zstd_frame (plaintext : bytes) (level : Z) : fresult bytes :=
  compress_zstd_frame_with_jobs plaintext level 1.

Definition compress_zstd_frame_with_dictionary_and_jobs (plaintext : bytes) (level : Z)
    (dictionary : bytes) (jobs : Z) : fresult bytes :=
  compressor ← ok_or (Compressor_with_dictionary level dictionary) ZstdCompressionFailure;
  compressor ← (if 1 <? jobs then
      jobs ← ok_or (try_from 32 jobs) (WriterUnsupported "jobs exceeds zstd worker limit");
      ok_or (Compressor_set_nb_workers compressor jobs) ZstdCompressionFailure
    else mret compressor);
  ok_or (Compressor_compress compressor plaintext) ZstdCompressionFailure.

Definition compress_zstd_frame_with_dictionary (plaintext : bytes) (level : Z)
    (dictionary : bytes) : fresult bytes :=
  compress_zstd_frame_with_dictionary_and_jobs plaintext level dictionary 1.

Definition validate_metadata_decompressed_size (expected_decompressed_size : Z) : fresult unit :=
  reject_if (READER_MAX_METADATA_OBJECT_SIZE <? expected_decompressed_size)
    (ReaderResourceLimitExceeded "decompressed_size" READER_MAX_METADATA_OBJECT_SIZE
       expected_decompressed_size).

Definition validate_exact_zstd_frame (compressed : bytes) : fresult unit :=
  reject_if (bool_decide (compressed = [])) EmptyZstdFrame;;
  (if blen compressed <? 4 then Err NotStandardZstdFrame
   else
     magic ← slice compressed 0 4;
     reject_if (negb (bytes_eqb magic ZSTD_MAGIC)) NotStandardZstdFrame);;
  frame_size ← ok_or (find_frame_compressed_size compressed) InvalidZstdFrame;
  reject_if (negb (frame_size =? blen compressed)) TrailingBytesAfterZstdFrame.

(** The comparison of the decompressed length with the expected one. *)
Definition check_decompressed_size (expected : Z) (decompressed : bytes) : fresult bytes :=
  reject_if (negb (blen decompressed =? expected))
    (ZstdDecompressedSizeMismatch expected (blen decompressed));;
  mret decompressed.

Definition decompress_exact_zstd_frame (compressed : bytes) (expected_decompressed_size : Z)
    : fresult bytes :=
  validate_metadata_decompressed_size expected_decompressed_size;;
  validate_exact_zstd_frame compressed;;
  decompressed ← ok_or (zstd_decompress compressed expected_decompressed_size)
    ZstdDecompressionFailure;
  check_decompressed_size expected_decompressed_size decompressed.

Definition decompress_exact_zstd_frame_with_dictionary (compressed : bytes)
    (expected_decompressed_size : Z) (dictionary : bytes) : fresult bytes :=
  validate_metadata_decompressed_size expected_decompressed_size;;
  validate_exact_zstd_frame compressed;;
  decompressed ← ok_or
    (match Decompressor_with_dictionary dictionary with
     | Some decompressor => Decompressor_decompress decompressor compressed expected_decompressed_size
     | None => None
     end) ZstdDecompressionFailure;
  check_decompressed_size expected_decompressed_size decompressed.

(** ** Lemmas *)
Lemma standard_frame_valid frame : standard_frame frame -> validate_exact_zstd_frame frame = Ok tt.
Proof.
  intros (Hmagic & Hlen & Hsize). change (blen ZSTD_MAGIC) with 4 in Hlen.
  unfold validate_exact_zstd_frame. specialize (Hsize []). rewrite app_nil_r in Hsize.
  rewrite reject_if_false, bind_ret by (apply bool_decide_eq_false_2; by intros ->).
  rewrite (proj2 (Z.ltb_ge _ _)) by lia.
  rewrite slice_in_range, bind_ret by lia.
  rewrite Hmagic, reject_if_false, bind_ret by (apply negb_false_iff; by apply bytes_eqb_eq).
  rewrite Hsize. cbn [ok_or]. rewrite bind_ret. apply reject_if_false. lia.
Qed.

Lemma standard_frame_trailing frame rest :
  standard_frame frame -> rest <> [] ->
  validate_exact_zstd_frame (frame ++ rest) = Err TrailingBytesAfterZstdFrame.
Proof.
  intros (Hmagic & Hlen & Hsize) Hrest. change (blen ZSTD_MAGIC) with 4 in Hlen.
  assert (0 < blen rest) as Hpos by (destruct rest; [done|]; rewrite blen_cons; pose proof (blen_nonneg rest); lia).
  unfold validate_exact_zstd_frame.
  rewrite reject_if_false, bind_ret by (apply bool_decide_eq_false_2; intros [? ?]%app_eq_nil; done).
  rewrite (proj2 (Z.ltb_ge _ _)) by (rewrite blen_app; lia).
  rewrite slice_in_range, bind_ret, seg_app_l by (rewrite ?blen_app; lia).
  rewrite Hmagic, reject_if_false, bind_ret by (apply negb_false_iff; by apply bytes_eqb_eq).
  rewrite Hsize. cbn [ok_or]. rewrite bind_ret.
  unfold reject_if. replace (negb _) with true; [done|]. rewrite blen_app. lia.
Qed.

Lemma compress_standard_Ok `{!ZstdLaws Zs} plaintext level jobs frame :
  compress_zstd_frame_with_jobs plaintext level jobs = Ok frame ->
  standard_frame frame
  /\ forall capacity, blen plaintext <= capacity -> zstd_decompress frame capacity = Some plaintext.
Proof.
  unfold compress_zstd_frame_with_jobs. case_match; intros H1.
  - apply ok_or_Ok in H1. split; [by eapply compress_standard|]. intros. by eapply decompress_compress.
  - ok_inv. by eapply compress_workers.
Qed.

Lemma decompress_exact_eq frame plaintext n :
  standard_frame frame -> zstd_decompress frame n = Some plaintext ->
  n <= READER_MAX_METADATA_OBJECT_SIZE ->
  decompress_exact_zstd_frame frame n
  = if blen plaintext =? n then Ok plaintext
    else Err (ZstdDecompressedSizeMismatch n (blen plaintext)).
Proof.
  intros Hs Hd Hn. unfold decompress_exact_zstd_frame, validate_metadata_decompressed_size.
  rewrite reject_if_false, bind_ret, (standard_frame_valid _ Hs), bind_ret, Hd by lia.
  cbn [ok_or]. rewrite bind_ret. unfold check_decompressed_size. by destruct (_ =? n).
Qed.

End Compression.

(** ** A concrete library

    Frames that hold the plaintext as it is, behind the magic and its length. *)
Definition stored_frame (plaintext : bytes) : bytes :=
  ZSTD_MAGIC ++ le_bytes 8 (blen plaintext) ++ plaintext.

Definition stored_compress (plaintext : bytes) : option bytes :=
  if fitsb 64 (blen plaintext) then Some (stored_frame plaintext) else None.

Definition stored_size (frame : bytes) : Z := 12 + le_combine (seg frame 4 12).

Definition stored_decompress (frame : bytes) (capacity : Z) : option bytes :=
  let plaintext := seg frame 12 (stored_size frame) in
  if blen plaintext <=? capacity then Some plaintext else None.

Definition stored_Zstd : ZstdLib := {|
  zstd_compress plaintext _ := stored_compress plaintext;
  Compressor := unit;
  Compressor_new _ := Some tt;
  Compressor_with_dictionary _ _ := Some tt;
  Compressor_set_nb_workers _ _ := Some tt;
  Compressor_compress _ := stored_compress;
  zstd_decompress := stored_decompress;
  Decompressor := unit;
  Decompressor_new := Some tt;
  Decompressor_with_dictionary _ := Some tt;
  Decompressor_decompress _ := stored_decompress;
  find_frame_compressed_size frame :=
    if stored_size frame <=? blen frame then Some (stored_size frame) else None |}.

Lemma stored_frame_segments plaintext rest :
  u64 (blen plaintext) ->
  seg (stored_frame plaintext ++ rest) 0 4 = ZSTD_MAGIC
  /\ stored_size (stored_frame plaintext ++ rest) = blen (stored_frame plaintext)
  /\ blen (stored_frame plaintext) = 12 + blen plaintext
  /\ seg (stored_frame plaintext ++ rest) 12 (blen (stored_frame plaintext)) = plaintext.
Proof.
  intros Hu. unfold stored_frame. change ZSTD_MAGIC with (map byte.of_Z [0x28; 0xb5; 0x2f; 0xfd]).
  set (m := map byte.of_Z _). assert (blen m = 4) as Hm by done.
  assert (blen (le_bytes 8 (blen plaintext)) = 8) as Hl by done.
  assert (blen (m ++ le_bytes 8 (blen plaintext) ++ plaintext) = 12 + blen plaintext) as Hb
    by (rewrite !blen_app; lia).
  split_and!.
  - rewrite <- app_assoc, seg_app_l by lia. rewrite <- Hm. apply seg_full.
  - unfold stored_size. rewrite Hb. f_equal.
    rewrite <- !app_assoc. rewrite seg_app_r by lia. rewrite Hm, seg_app_l by lia.
    replace (12 - 4) with (blen (le_bytes 8 (blen plaintext))) by lia.
    change (4 - 4) with 0. rewrite seg_full. apply le_combine_bytes; exact Hu.
  - done.
  - rewrite Hb, <- !app_assoc. rewrite seg_app_r by lia. rewrite Hm, seg_app_r by lia. rewrite Hl.
    replace (12 - 4 - 8) with 0 by lia. replace (12 + blen plaintext - 4 - 8) with (blen plaintext) by lia.
    pose proof (blen_nonneg plaintext). rewrite seg_app_l by lia. apply seg_full.
Qed.

Lemma stored_compress_spec plaintext frame :
  stored_compress plaintext = Some frame ->
  standard_frame (Z := stored_Zstd) frame
  /\ forall capacity, blen plaintext <= capacity -> stored_decompress frame capacity = Some plaintext.
Proof.
  unfold stored_compress. case_match eqn:E; [|done]. intros [= <-]. apply fitsb_fits in E.
  split.
  - unfold standard_frame. destruct (stored_frame_segments plaintext [] E) as (H1 & _ & H3 & _).
    rewrite app_nil_r in H1. split; [done|]. pose proof (blen_nonneg plaintext).
    split; [rewrite H3; change (blen ZSTD_MAGIC) with 4; lia|].
    intros rest. cbn [find_frame_compressed_size stored_Zstd].
    destruct (stored_frame_segments plaintext rest E) as (_ & -> & _ & _).
    rewrite (proj2 (Z.leb_le _ _)); [done|]. rewrite blen_app. pose proof (blen_nonneg rest). lia.
  - intros capacity Hc. unfold stored_decompress.
    destruct (stored_frame_segments plaintext [] E) as (_ & H2 & _ & H4). rewrite app_nil_r in H2, H4.
    rewrite H2, H4. by rewrite (proj2 (Z.leb_le _ _)) by lia.
Qed.

#[export] Instance stored_Zstd_laws : ZstdLaws stored_Zstd.
Proof.
  split; cbn.
  - intros p _ frame H. by apply (stored_compress_spec p).
  - intros p _ frame c H. by apply (stored_compress_spec p).
  - intros _ _ _ _ p frame _ _ H. by apply (stored_compress_spec p).
  - intros _ _ _ _ _ _ p frame c _ _ H _ Hc.
    destruct (stored_compress_spec p frame H) as [? Hd]. split; [done|]. by apply Hd.
Qed.

