(* ===== verification/Ordering.v ===== *)
(** * Ordered types

    Rust's [Ord] for the types that the index of an archive is sorted by, with
    the sorting and searching functions of the standard library that use it. *)

From S2P Require Import Prelude.
From Stdlib Require Import Sorting.Sorted.
#[local] Open Scope Z_scope.

(** ** The interface of an ordered type *)
Class Ord (A : Type) : Type := {
  cmp : A -> A -> comparison;
  cmp_eq : forall x y, cmp x y = Eq <-> x = y;
  cmp_antisym : forall x y, cmp y x = CompOpp (cmp x y);
  cmp_trans : forall x y z, cmp x y = Lt -> cmp y z = Lt -> cmp x z = Lt
}.

Section Ord.
Context {A : Type} `{Ord A}.

Definition ltb (x y : A) : bool := match cmp x y with Lt => true | _ => false end.
Definition leb (x y : A) : bool := negb (ltb y x).

Definition lt (x y : A) : Prop := ltb x y = true.
Definition le (x y : A) : Prop := leb x y = true.

Lemma ltb_lt x y : ltb x y = true <-> cmp x y = Lt.
Proof. unfold ltb. by destruct (cmp x y). Qed.

Lemma lt_irrefl x : ~ lt x x.
Proof. unfold lt. rewrite ltb_lt. by rewrite (proj2 (cmp_eq x x) eq_refl). Qed.

Lemma lt_trans x y z : lt x y -> lt y z -> lt x z.
Proof. unfold lt. rewrite !ltb_lt. apply cmp_trans. Qed.

Lemma lt_or_le x y : lt x y \/ le y x.
Proof. unfold lt, le, leb. destruct (ltb x y); auto. Qed.

Lemma not_lt_le x y : ~ lt x y <-> le y x.
Proof. unfold lt, le, leb. destruct (ltb x y); naive_solver. Qed.

Lemma le_lt_eq x y : le x y <-> lt x y \/ x = y.
Proof.
  unfold lt, le, leb, ltb. rewrite (cmp_antisym x y), <- cmp_eq.
  destruct (cmp x y); cbn; naive_solver.
Qed.

Lemma le_refl x : le x x.
Proof. apply le_lt_eq. auto. Qed.

Lemma lt_le x y : lt x y -> le x y.
Proof. rewrite le_lt_eq. auto. Qed.

Lemma le_trans x y z : le x y -> le y z -> le x z.
Proof. rewrite !le_lt_eq. intros [?| ->] [?| ->]; eauto using lt_trans. Qed.

Lemma le_lt_trans x y z : le x y -> lt y z -> lt x z.
Proof. rewrite le_lt_eq. intros [?| ->]; eauto using lt_trans. Qed.

Lemma lt_le_trans x y z : lt x y -> le y z -> lt x z.
Proof. rewrite le_lt_eq. intros ? [?| <-]; eauto using lt_trans. Qed.

Lemma le_antisym x y : le x y -> le y x -> x = y.
Proof.
  rewrite !le_lt_eq. intros [H1|?] [H2|?]; auto. exfalso. by apply (lt_irrefl x), lt_trans with y.
Qed.

Lemma lt_not_eq x y : lt x y -> x <> y.
Proof. intros Hlt ->. by apply lt_irrefl in Hlt. Qed.

#[global] Instance lt_dec x y : Decision (lt x y).
Proof. unfold lt. apply _. Defined.

#[global] Instance le_dec x y : Decision (le x y).
Proof. unfold le. apply _. Defined.

#[global] Instance lt_transitive : Transitive lt.
Proof. intros x y z. apply lt_trans. Qed.

#[global] Instance le_preorder : PreOrder le.
Proof. split; [intros x; apply le_refl|intros x y z; apply le_trans]. Qed.
End Ord.

(** ** Instances *)
#[export, refine] Instance Z_Ord : Ord Z := {| cmp := Z.compare |}.
Proof.
  - intros x y. apply Z.compare_eq_iff.
  - intros x y. apply Z.compare_antisym.
  - intros x y z. rewrite !Z.compare_lt_iff. lia.
Defined.

Lemma Z_le_iff (x y : Z) : le x y <-> x <= y.
Proof. unfold le, leb, ltb. cbn. rewrite Z.compare_antisym. unfold Z.le. destruct (x ?= y); cbn; naive_solver. Qed.

#[export, refine] Instance byte_Countable : Countable Byte.byte := inj_countable Byte.to_N Byte.of_N _.
Proof. intros x. apply Byte.of_to_N. Defined.

#[export, refine] Instance byte_Ord : Ord Byte.byte := {| cmp x y := cmp (byte.unsigned x) (byte.unsigned y) |}.
Proof.
  - intros x y. rewrite cmp_eq. split; [apply byte.unsigned_inj|by intros ->].
  - intros x y. apply cmp_antisym.
  - intros x y z. apply cmp_trans.
Defined.

(** [a.cmp(b).then(c.cmp(d))] *)
Definition then_cmp (a b : comparison) : comparison := match a with Eq => b | _ => a end.

Section Product.
Context {A B : Type} `{Ord A} `{Ord B}.

Definition prod_cmp (x y : A * B) : comparison := then_cmp (cmp x.1 y.1) (cmp x.2 y.2).

Lemma then_Lt (a b : comparison) : then_cmp a b = Lt <-> a = Lt \/ a = Eq /\ b = Lt.
Proof. destruct a, b; cbn; naive_solver. Qed.

#[global, refine] Instance prod_Ord : Ord (A * B) := {| cmp := prod_cmp |}.
Proof.
  - intros [a b] [a' b']. unfold prod_cmp, then_cmp. cbn. rewrite pair_equal_spec, <- !cmp_eq.
    destruct (cmp a a'); naive_solver.
  - intros [a b] [a' b']. unfold prod_cmp, then_cmp. cbn. rewrite (cmp_antisym a a'), (cmp_antisym b b').
    by destruct (cmp a a').
  - intros [a b] [a' b'] [a'' b'']. unfold prod_cmp. cbn. rewrite !then_Lt, !cmp_eq.
    intros [H1|[-> H1]] [H2|[<- H2]]; eauto using cmp_trans.
Defined.
End Product.

(** Slices are compared element by element, a proper prefix comes first. *)
Section Lists.
Context {A : Type} `{Ord A}.

Fixpoint list_cmp (x y : list A) : comparison :=
  match x, y with
  | [], [] => Eq
  | [], _ => Lt
  | _, [] => Gt
  | a :: x, b :: y => then_cmp (cmp a b) (list_cmp x y)
  end.

#[global, refine] Instance list_Ord : Ord (list A) := {| cmp := list_cmp |}.
Proof.
  - intros x. induction x as [|a x IH]; intros [|b y]; cbn; try done. unfold then_cmp.
    specialize (IH y). pose proof (cmp_eq a b). destruct (cmp a b); naive_solver.
  - intros x. induction x as [|a x IH]; intros [|b y]; cbn; try done. rewrite (cmp_antisym a b), (IH y).
    by destruct (cmp a b).
  - intros x. induction x as [|a x IH]; intros [|b y] [|c z]; cbn; try done.
    rewrite !then_Lt, !cmp_eq. intros [H1|[-> H1]] [H2|[<- H2]]; eauto using cmp_trans.
Defined.
End Lists.

(** ** Sorting

    [slice::sort_by_key]: the order of elements with equal keys is kept. *)
Section Sorting.
Context {A K : Type} `{Ord K} (key : A -> K).

Fixpoint insert_by_key (x : A) (l : list A) : list A :=
  match l with
  | [] => [x]
  | y :: l => if leb (key x) (key y) then x :: y :: l else y :: insert_by_key x l
  end.

Fixpoint sort_by_key (l : list A) : list A :=
  match l with
  | [] => []
  | x :: l => insert_by_key x (sort_by_key l)
  end.

Definition key_le (x y : A) : Prop := le (key x) (key y).

Lemma insert_by_key_stable (P : A -> Prop) `{!forall x, Decision (P x)} x l :
  (forall y z, P y -> P z -> key y = key z) ->
  filter P (insert_by_key x l) = filter P (x :: l).
Proof.
  intros HP. induction l as [|y l IH]; cbn [insert_by_key]; [done|].
  case_match eqn:E; [done|]. rewrite !filter_cons, IH, filter_cons.
  destruct (decide (P x)) as [Hx|], (decide (P y)) as [Hy|]; try done.
  exfalso. rewrite (HP x y Hx Hy) in E. pose proof (le_refl (key y)). unfold le in *. congruence.
Qed.

Lemma sort_by_key_stable (P : A -> Prop) `{!forall x, Decision (P x)} l :
  (forall y z, P y -> P z -> key y = key z) -> filter P (sort_by_key l) = filter P l.
Proof.
  intros HP. induction l as [|x l IH]; cbn [sort_by_key]; [done|].
  rewrite insert_by_key_stable by done. rewrite !filter_cons. by rewrite IH.
Qed.

Lemma insert_by_key_perm x l : insert_by_key x l ≡ₚ x :: l.
Proof.
  induction l as [|y l IH]; cbn [insert_by_key]; [done|]. case_match; [done|].
  rewrite IH. apply Permutation_swap.
Qed.

Lemma sort_by_key_perm l : sort_by_key l ≡ₚ l.
Proof. induction l as [|x l IH]; cbn [sort_by_key]; [done|]. by rewrite insert_by_key_perm, IH. Qed.

Lemma length_sort_by_key l : length (sort_by_key l) = length l.
Proof. apply Permutation_length, sort_by_key_perm. Qed.

Lemma sort_by_key_sorted l : StronglySorted key_le (sort_by_key l).
Proof.
  induction l as [|x l IH]; cbn [sort_by_key]; [constructor|].
  induction IH as [|y l' Hs IH Hy]; cbn [insert_by_key]; [by repeat constructor|].
  case_match eqn:E.
  - constructor; [by constructor|]. constructor; [done|].
    eapply Forall_impl; [exact Hy|]. intros z Hz. eapply le_trans; [exact E|exact Hz].
  - constructor; [done|]. rewrite insert_by_key_perm. constructor; [|done].
    destruct (lt_or_le (key y) (key x)) as [?|?]; [by apply lt_le|]. unfold key_le, le in *. congruence.
Qed.

(** A strictly sorted list is the only arrangement of its elements that is
    sorted. *)
Lemma sorted_unique (l1 l2 : list A) :
  (forall x y, x ∈ l1 -> y ∈ l1 -> key x = key y -> x = y) ->
  StronglySorted key_le l1 -> StronglySorted key_le l2 -> l1 ≡ₚ l2 -> l1 = l2.
Proof.
  revert l2. induction l1 as [|x l1 IH]; intros l2 Hinj H1 H2 Hp.
  { symmetry. by apply Permutation_nil_l in Hp. }
  destruct l2 as [|y l2]; [by apply Permutation_nil_r in Hp|].
  apply StronglySorted_inv in H1 as [H1 Hx], H2 as [H2 Hy].
  assert (x = y) as ->.
  { apply Hinj; [left| |].
    - rewrite Hp. left.
    - apply le_antisym.
      + assert (y ∈ x :: l1) as [->|Hin]%elem_of_cons by (rewrite Hp; left); [apply le_refl|].
        by apply (proj1 (Forall_forall _ _) Hx).
      + assert (x ∈ y :: l2) as [->|Hin]%elem_of_cons by (rewrite <- Hp; left); [apply le_refl|].
        by apply (proj1 (Forall_forall _ _) Hy). }
  f_equal. apply IH; [|done|done|by apply Permutation_cons_inv in Hp].
  intros a b Ha Hb. apply Hinj; by right.
Qed.

Lemma sort_by_key_unique l l' :
  (forall x y, x ∈ l -> y ∈ l -> key x = key y -> x = y) -> l ≡ₚ l' -> sort_by_key l = sort_by_key l'.
Proof.
  intros Hinj Hp. apply sorted_unique; [|apply sort_by_key_sorted..|by rewrite !sort_by_key_perm].
  intros x y. rewrite !sort_by_key_perm. apply Hinj.
Qed.
End Sorting.

(** Sorting commutes with maps that keep the key. *)
Lemma sort_by_key_map {A B K} `{Ord K} (key : A -> K) (key' : B -> K) (f : A -> B) l :
  (forall x, key' (f x) = key x) -> sort_by_key key' (map f l) = map f (sort_by_key key l).
Proof.
  intros Hk. induction l as [|x l IH]; cbn [map sort_by_key]; [done|]. rewrite IH.
  generalize (sort_by_key key l). clear l IH. intros l.
  induction l as [|y l IH]; cbn [map insert_by_key]; [done|]. rewrite !Hk.
  case_match; cbn [map]; [done|]. by rewrite IH.
Qed.

(** ** Binary search

    The loop [while low < high] that narrows an interval of positions: [before]
    says that an element lies before the position looked for. *)
Fixpoint lower_bound_loop (fuel : nat) (before : nat -> bool) (low high : nat) : nat :=
  match fuel with
  | O => low
  | S fuel =>
      if (low <? high)%nat
      then
        let mid := (low + (high - low) / 2)%nat in
        if before mid then lower_bound_loop fuel before (S mid) high
        else lower_bound_loop fuel before low mid
      else low
  end.

Definition lower_bound (before : nat -> bool) (n : nat) : nat := lower_bound_loop n before 0 n.

(** [l.partition_point(pred)] *)
Definition partition_point {A} (pred : A -> bool) (l : list A) : nat :=
  lower_bound (fun i => match l !! i with Some x => pred x | None => false end) (length l).

Lemma lower_bound_loop_spec fuel before low high :
  (high - low <= fuel)%nat -> (low <= high)%nat ->
  (forall i j, (i <= j < high)%nat -> before j = true -> before i = true) ->
  let r := lower_bound_loop fuel before low high in
  (low <= r <= high)%nat
  /\ (forall i, (low <= i < r)%nat -> before i = true)
  /\ (forall i, (r <= i < high)%nat -> before i = false).
Proof.
  cbv zeta. revert low high. induction fuel as [|fuel IH]; intros low high Hf Hle Hmono; cbn [lower_bound_loop].
  { split_and!; lia. }
  destruct (Nat.ltb_spec low high) as [Hlt|Hge]; [|split_and!; lia].
  set (mid := (low + (high - low) / 2)%nat).
  assert (low <= mid < high)%nat as Hmid.
  { unfold mid. split; [lia|]. assert ((high - low) / 2 < high - low)%nat; [|lia]. apply Nat.div_lt; lia. }
  destruct (before mid) eqn:E.
  - destruct (IH (S mid) high) as (H1 & H2 & H3); [lia|lia|done|]. split_and!; [lia|lia| |done].
    intros i Hi. destruct (decide (i <= mid)%nat); [by apply Hmono with mid; [lia|]|]. apply H2. lia.
  - destruct (IH low mid) as (H1 & H2 & H3); [lia|lia|intros; eapply Hmono; [|done]; lia|].
    split_and!; [lia|lia|done|]. intros i Hi. destruct (decide (i < mid)%nat); [apply H3; lia|].
    apply not_true_iff_false. intros Hb. apply (Hmono mid) in Hb; [congruence|lia].
Qed.

Lemma lower_bound_spec before n :
  (forall i j, (i <= j < n)%nat -> before j = true -> before i = true) ->
  (lower_bound before n <= n)%nat
  /\ (forall i, (i < lower_bound before n)%nat -> before i = true)
  /\ (forall i, (lower_bound before n <= i < n)%nat -> before i = false).
Proof.
  intros Hm. destruct (lower_bound_loop_spec n before 0 n) as (H1 & H2 & H3); [lia|lia|done|].
  unfold lower_bound. split_and!; [lia| |done]. intros i Hi. apply H2. lia.
Qed.

Lemma partition_point_spec {A} (pred : A -> bool) (l : list A) :
  (forall i j x y, (i <= j)%nat -> l !! i = Some x -> l !! j = Some y -> pred y = true -> pred x = true) ->
  (partition_point pred l <= length l)%nat
  /\ (forall i x, l !! i = Some x -> (pred x = true <-> (i < partition_point pred l)%nat)).
Proof.
  intros Hm. unfold partition_point.
  destruct (lower_bound_spec (fun i => match l !! i with Some x => pred x | None => false end) (length l))
    as (H1 & H2 & H3).
  - intros i j Hij. destruct (l !! j) as [y|] eqn:Hj; [|done].
    destruct (lookup_lt_is_Some_2 l i) as [x Hx]; [lia|]. rewrite Hx. intros Hy. exact (Hm i j x y (proj1 Hij) Hx Hj Hy).
  - split; [done|]. intros i x Hi. pose proof (lookup_lt_Some _ _ _ Hi). split.
    + intros Hp. apply not_le. intros Hle. specialize (H3 i). rewrite Hi in H3. rewrite H3 in Hp by lia. done.
    + intros Hlt. apply H2 in Hlt. by rewrite Hi in Hlt.
Qed.
