(* ===== verification/BTree.v ===== *)
(** * Ordered maps

    [BTreeMap] with integer keys: a finite map whose entries are visited in the
    order of the keys, and the loop by which the reader merges the rows of
    several tables into one map, refusing two different rows with one key. *)

From S2P Require Import Prelude Ordering.
From Stdlib Require Import Sorting.Sorted.
#[local] Open Scope Z_scope.

Section BTree.
Context {V E : Type}.

Definition btree_entries (m : gmap Z V) : list (Z * V) := sort_by_key fst (map_to_list m).

Definition btree_values (m : gmap Z V) : list V := map snd (btree_entries m).

(** [if let Some(existing) = map.insert(key, v) { if existing != v { .. } }] *)
Definition insert_agreeing `{EqDecision V} (key : V -> Z) (error : E) (v : V) (m : gmap Z V)
    : result E (gmap Z V) :=
  match m !! key v with
  | Some existing => reject_if (negb (bool_decide (existing = v))) error
  | None => Ok tt
  end;;
  mret (<[key v := v]> m).

Fixpoint merge_rows `{EqDecision V} (key : V -> Z) (error : E) (rows : list V) (m : gmap Z V)
    : result E (gmap Z V) :=
  match rows with
  | [] => Ok m
  | v :: rows => m ← insert_agreeing key error v m; merge_rows key error rows m
  end.

(** ** Lemmas *)
Lemma btree_entries_elem m k v : (k, v) ∈ btree_entries m <-> m !! k = Some v.
Proof. unfold btree_entries. by rewrite sort_by_key_perm, elem_of_map_to_list. Qed.

Lemma btree_values_elem m v : v ∈ btree_values m <-> exists k, m !! k = Some v.
Proof.
  unfold btree_values. change (map snd) with (fmap (M := list) (@snd Z V)). rewrite list_elem_of_fmap. split.
  - intros ([k v'] & -> & H). exists k. by apply btree_entries_elem.
  - intros [k H]. exists (k, v). split; [done|]. by apply btree_entries_elem.
Qed.

Lemma btree_entries_length m : length (btree_entries m) = size m.
Proof. unfold btree_entries. by rewrite length_sort_by_key, length_map_to_list. Qed.

(** The entries are the one ascending list of the pairs of the map. *)
Lemma btree_entries_unique m l :
  NoDup (map fst l) -> StronglySorted (key_le fst) l ->
  (forall k v, (k, v) ∈ l <-> m !! k = Some v) -> btree_entries m = l.
Proof.
  intros Hnd Hs Hl. unfold btree_entries. symmetry. apply (sorted_unique fst).
  - intros [k v] [k' v'] H H' [= ->]. apply Hl in H, H'. congruence.
  - done.
  - apply sort_by_key_sorted.
  - rewrite sort_by_key_perm. apply NoDup_Permutation.
    + by apply NoDup_fmap_1 in Hnd.
    + apply NoDup_map_to_list.
    + intros [k v]. by rewrite Hl, elem_of_map_to_list.
Qed.

Context `{EqDecision V} (key : V -> Z) (error : E).

Definition keyed (m : gmap Z V) : Prop := forall k v, m !! k = Some v -> key v = k.

Lemma keyed_empty : keyed ∅.
Proof. intros k v. by rewrite lookup_empty. Qed.

Lemma insert_agreeing_Ok v m m' :
  keyed m -> insert_agreeing key error v m = Ok m' ->
  keyed m' /\ (forall k w, m' !! k = Some w <-> m !! k = Some w \/ w = v /\ key v = k).
Proof.
  intros Hk H. unfold insert_agreeing in H. apply bind_Ok in H as ([] & He & H).
  rewrite mret_Ok in H. subst m'.
  assert (forall k w, <[key v:=v]> m !! k = Some w <-> m !! k = Some w \/ w = v /\ key v = k) as Hl.
  { intros k w. destruct (decide (key v = k)) as [<-|Hne].
    - rewrite lookup_insert_eq. split; [intros [= ->]; by right|].
      intros [Hm|[-> _]]; [|done]. rewrite Hm in He. apply reject_if_Ok, negb_false_iff, bool_decide_eq_true in He. congruence.
    - rewrite lookup_insert_ne by done. naive_solver. }
  split; [|done]. intros k w [Hm|[-> <-]]%Hl; [by apply Hk|done].
Qed.

Lemma merge_rows_Ok rows m m' :
  keyed m -> merge_rows key error rows m = Ok m' ->
  keyed m' /\ (forall k v, m' !! k = Some v <-> m !! k = Some v \/ v ∈ rows /\ key v = k).
Proof.
  revert m. induction rows as [|v rows IH]; intros m Hk; cbn [merge_rows].
  - intros [= <-]. split; [done|]. intros k v. split; [by left|]. intros [?|[H _]]; [done|]. by inversion H.
  - intros (m1 & H1 & H)%bind_Ok. apply insert_agreeing_Ok in H1 as [Hk1 Hl1]; [|done].
    destruct (IH m1 Hk1 H) as [Hk' Hl']. split; [done|]. intros k w. rewrite Hl', Hl1, elem_of_cons. naive_solver.
Qed.

(** The rows agree when equal keys mean equal rows. *)
Lemma merge_rows_total rows m :
  keyed m -> (forall v w, (v ∈ rows \/ m !! key v = Some v) -> w ∈ rows -> key v = key w -> v = w) ->
  exists m', merge_rows key error rows m = Ok m'.
Proof.
  revert m. induction rows as [|v rows IH]; intros m Hk Hag; cbn [merge_rows]; [by eexists|].
  assert (insert_agreeing key error v m = Ok (<[key v:=v]> m)) as Hi.
  { unfold insert_agreeing. destruct (m !! key v) as [w|] eqn:Hw; [|done].
    rewrite reject_if_false; [done|]. apply negb_false_iff, bool_decide_eq_true.
    assert (key w = key v) as Hkw by (by apply Hk). apply (Hag w v); [right; by rewrite Hkw|left|done]. }
  rewrite Hi, bind_ret. destruct (insert_agreeing_Ok _ _ _ Hk Hi) as [Hk1 Hl1]. apply IH; [done|].
  intros a w Ha Hw Haw. apply (Hag a w); [|by right|done]. destruct Ha as [Ha|Ha]; [left; by right|].
  apply Hl1 in Ha as [Ha|[-> _]]; [by right|left; left].
Qed.
End BTree.
