(* ===== verification/Paths.v ===== *)
(** * Paths inside an archive

    The path checks and normalizations at the end of
    [crates/tzap-core/src/metadata.rs].  A Rust [str] is the byte string of its
    UTF-8 encoding. *)

From S2P Require Import Wire Ordering.
#[local] Open Scope Z_scope.

(** ** Third-party functions

    [unicode_normalization]: the normalization form C of a string.
    Nothing is assumed of it. *)
Class Unicode : Type := {
  nfc : bytes -> bytes
}.

(** ** Strings *)
Definition byte_between (lo hi : Z) (x : Byte.byte) : bool :=
  (lo <=? byte.unsigned x) && (byte.unsigned x <=? hi).

Definition continuation : Byte.byte -> bool := byte_between 0x80 0xBF.

(** The bytes that may follow the first byte of a sequence of three or four. *)
Definition second_of_three (x y : Byte.byte) : bool :=
  if byte_between 0xE0 0xE0 x then byte_between 0xA0 0xBF y
  else if byte_between 0xED 0xED x then byte_between 0x80 0x9F y
  else continuation y.

Definition second_of_four (x y : Byte.byte) : bool :=
  if byte_between 0xF0 0xF0 x then byte_between 0x90 0xBF y
  else if byte_between 0xF4 0xF4 x then byte_between 0x80 0x8F y
  else continuation y.

(** [std::str::from_utf8(b).is_ok()] *)
Fixpoint utf8_valid (b : bytes) : bool :=
  match b with
  | [] => true
  | x :: b =>
      if byte_between 0 0x7F x then utf8_valid b
      else if byte_between 0xC2 0xDF x then
        match b with
        | y :: b => continuation y && utf8_valid b
        | _ => false
        end
      else if byte_between 0xE0 0xEF x then
        match b with
        | y :: z :: b => second_of_three x y && continuation z && utf8_valid b
        | _ => false
        end
      else if byte_between 0xF0 0xF4 x then
        match b with
        | y :: z :: w :: b =>
            second_of_four x y && continuation z && continuation w && utf8_valid b
        | _ => false
        end
      else false
  end.

Definition ascii (s : string) : bytes := String.list_byte_of_string s.

Definition SLASH : Byte.byte := Byte.x2f.
Definition DOT : Byte.byte := Byte.x2e.
Definition SPACE : Byte.byte := Byte.x20.
Definition BACKSLASH : Byte.byte := Byte.x5c.
Definition COLON : Byte.byte := Byte.x3a.

(** [s.split(sep)]: at least one piece. *)
Fixpoint split (sep : Byte.byte) (b : bytes) : list bytes :=
  match b with
  | [] => [[]]
  | x :: b =>
      if bool_decide (x = sep) then [] :: split sep b
      else match split sep b with
           | piece :: pieces => (x :: piece) :: pieces
           | [] => [[x]]
           end
  end.

(** [s.trim_end_matches(..)] *)
Fixpoint drop_while (p : Byte.byte -> bool) (b : bytes) : bytes :=
  match b with
  | x :: b' => if p x then drop_while p b' else b
  | [] => []
  end.

Definition trim_end_matches (p : Byte.byte -> bool) (b : bytes) : bytes :=
  reverse (drop_while p (reverse b)).

Definition to_ascii_uppercase (b : bytes) : bytes :=
  map (fun x => if byte_between 0x61 0x7A x then byte.of_Z (byte.unsigned x - 32) else x) b.

(** [s.strip_suffix('/').unwrap_or(s)] *)
Definition strip_slash (b : bytes) : bytes :=
  match reverse b with
  | x :: rest => if bool_decide (x = SLASH) then reverse rest else b
  | [] => b
  end.

(** ** Checks *)
Definition superscripts : list bytes :=
  [[Byte.xc2; Byte.xb9]; [Byte.xc2; Byte.xb2]; [Byte.xc2; Byte.xb3]].

Definition windows_devices : list bytes :=
  map ascii ["CON"; "PRN"; "AUX"; "NUL"; "CLOCK$";
             "COM1"; "COM2"; "COM3"; "COM4"; "COM5"; "COM6"; "COM7"; "COM8"; "COM9"]
  ++ map (fun s => ascii "COM" ++ s) superscripts
  ++ map ascii ["LPT1"; "LPT2"; "LPT3"; "LPT4"; "LPT5"; "LPT6"; "LPT7"; "LPT8"; "LPT9"]
  ++ map (fun s => ascii "LPT" ++ s) superscripts.

Definition is_windows_device_component (component : bytes) : bool :=
  let stem := trim_end_matches (fun x => bool_decide (x = SPACE \/ x = DOT))
                (hd component (split DOT component)) in
  bool_decide (to_ascii_uppercase stem ∈ windows_devices).

Definition unsafe_component (component : bytes) : bool :=
  bool_decide (component = []) || bytes_eqb component (ascii ".") || bytes_eqb component (ascii "..")
  || is_windows_device_component component.

Section Paths.
Context {U : Unicode}.

Definition validate_relative_path (path : bytes) (allow_empty_root : bool) : fresult unit :=
  match path with
  | [] => if allow_empty_root then Ok tt else Err UnsafeArchivePath
  | first :: _ =>
      reject_if (bool_decide (Byte.x00 ∈ path) || bool_decide (BACKSLASH ∈ path)
                 || bool_decide (COLON ∈ path) || bool_decide (first = SLASH)) UnsafeArchivePath;;
      reject_if (negb (utf8_valid path)) UnsafeArchivePath;;
      reject_if (negb (bytes_eqb (nfc path) path)) UnsafeArchivePath;;
      reject_if (existsb unsafe_component (split SLASH path)) UnsafeArchivePath
  end.

Definition validate_file_path_bytes (path : bytes) (max_path_length : Z) : fresult unit :=
  reject_if (bool_decide (path = []) || (max_path_length <? blen path)) UnsafeArchivePath;;
  validate_relative_path path false.

Definition validate_directory_path_bytes (path : bytes) (max_path_length : Z) : fresult unit :=
  reject_if (max_path_length <? blen path) UnsafeArchivePath;;
  validate_relative_path path true.

Definition normalize_lookup_file_path (path : bytes) (max_path_length : Z) : fresult bytes :=
  let normalized := nfc path in
  validate_file_path_bytes normalized max_path_length;;
  mret normalized.

Definition normalize_lookup_directory_path (path : bytes) (max_path_length : Z) : fresult bytes :=
  let trimmed := strip_slash path in
  let normalized := nfc trimmed in
  validate_directory_path_bytes normalized max_path_length;;
  mret normalized.
End Paths.

Definition starts_with (b prefix : bytes) : bool := bytes_eqb (take (length prefix) b) prefix.

(** The index into [file_path] is in range. *)
Definition is_directory_ancestor (directory_path file_path : bytes) : bool :=
  match directory_path with
  | [] => true
  | _ =>
      (blen directory_path <? blen file_path) && starts_with file_path directory_path
      && bool_decide (file_path !! length directory_path = Some SLASH)
  end.

(** ** The meaning of a path

    What an operating system makes of a relative path below the directory
    [base]: empty components and single dots stay, double dots go up. *)
Fixpoint resolve (base : list bytes) (components : list bytes) : list bytes :=
  match components with
  | [] => base
  | c :: components =>
      if bool_decide (c = [] \/ c = ascii ".") then resolve base components
      else if bool_decide (c = ascii "..") then resolve (removelast base) components
      else resolve (base ++ [c]) components
  end.

(** ** Lemmas *)
Lemma split_not_nil sep b : split sep b <> [].
Proof. destruct b as [|x b]; cbn; [done|]. case_bool_decide; [done|]. by destruct (split sep b). Qed.

Lemma split_app sep a b : split sep (a ++ sep :: b) = split sep a ++ split sep b.
Proof.
  induction a as [|x a IH]; cbn.
  - by rewrite bool_decide_eq_true_2.
  - rewrite IH. case_bool_decide; [done|].
    pose proof (split_not_nil sep a). by destruct (split sep a).
Qed.

(** Undoes [split]. *)
Fixpoint join (sep : Byte.byte) (pieces : list bytes) : bytes :=
  match pieces with
  | [] => []
  | [piece] => piece
  | piece :: pieces => piece ++ sep :: join sep pieces
  end.

Lemma join_cons sep x pieces : pieces <> [] -> join sep (x :: pieces) = x ++ sep :: join sep pieces.
Proof. by destruct pieces. Qed.

Lemma join_split sep b : join sep (split sep b) = b.
Proof.
  induction b as [|x b IH]; cbn; [done|]. pose proof (split_not_nil sep b).
  case_bool_decide as Hx.
  - subst. rewrite join_cons by done. cbn. by rewrite IH.
  - destruct (split sep b) as [|y [|z l]] eqn:E; cbn in *; congruence.
Qed.

Lemma join_app sep a b : a <> [] -> b <> [] -> join sep (a ++ b) = join sep a ++ sep :: join sep b.
Proof.
  intros Ha Hb. induction a as [|x a IH]; [done|]. destruct a as [|y a].
  - cbn [app]. by rewrite join_cons.
  - change ((x :: y :: a) ++ b) with (x :: (y :: a) ++ b). rewrite (join_cons sep x ((y :: a) ++ b)) by done.
    rewrite (join_cons sep x (y :: a)) by done. rewrite IH by done. by rewrite <- app_assoc.
Qed.

Lemma split_inj sep a b : split sep a = split sep b -> a = b.
Proof. intros H. by rewrite <- (join_split sep a), H, join_split. Qed.

Lemma resolve_safe base components :
  existsb unsafe_component components = false -> resolve base components = base ++ components.
Proof.
  revert base. induction components as [|c components IH]; intros base; cbn [existsb resolve].
  { by rewrite app_nil_r. }
  intros [Hc Hr]%orb_false_iff. unfold unsafe_component in Hc. rewrite !orb_false_iff in Hc.
  destruct Hc as [[[H1 H2] H3] _]. apply bool_decide_eq_false in H1.
  apply not_true_iff_false in H2, H3. rewrite bytes_eqb_eq in H2, H3.
  rewrite !bool_decide_eq_false_2 by tauto. rewrite IH by done. by rewrite <- app_assoc.
Qed.

Section Theorems.
Context {U : Unicode}.

(** What a safe relative path is. *)
Definition path_safe (path : bytes) : Prop :=
  utf8_valid path = true /\ nfc path = path
  /\ Byte.x00 ∉ path /\ BACKSLASH ∉ path /\ COLON ∉ path
  /\ Forall (fun c => unsafe_component c = false) (split SLASH path).

Lemma existsb_Forall {A} (p : A -> bool) l : existsb p l = false <-> Forall (fun x => p x = false) l.
Proof.
  induction l as [|x l IH]; cbn; [done|]. by rewrite orb_false_iff, Forall_cons, IH.
Qed.

Lemma validate_relative_path_Ok path allow u :
  validate_relative_path path allow = Ok u <-> (path = [] /\ allow = true) \/ (path <> [] /\ path_safe path).
Proof.
  unfold validate_relative_path, path_safe. destruct u. destruct path as [|x path].
  { destruct allow; naive_solver. }
  set (p := x :: path). split.
  - intros H. right. ok_inv. rewrite !orb_false_iff, !bool_decide_eq_false in *. destruct_and!.
    rewrite negb_false_iff, ?bytes_eqb_eq in *. rewrite existsb_Forall in *. done.
  - intros [[? _]|(_ & H1 & H2 & H3 & H4 & H5 & H6)]; [done|].
    assert (bool_decide (x = SLASH) = false) as ->.
    { apply bool_decide_eq_false. intros ->. unfold p in H6. cbn in H6.
      rewrite bool_decide_eq_true_2 in H6 by done. by apply Forall_cons in H6 as [? _]. }
    rewrite !bool_decide_eq_false_2 by done. cbn [orb reject_if]. rewrite bind_ret.
    rewrite H1. cbn [negb reject_if]. rewrite bind_ret.
    rewrite (proj2 (bytes_eqb_eq _ _)) by done. cbn [negb reject_if]. rewrite bind_ret.
    by rewrite (proj2 (existsb_Forall _ _) H6).
Qed.

Lemma validate_file_path_bytes_Ok path n u :
  validate_file_path_bytes path n = Ok u <-> path <> [] /\ blen path <= n /\ path_safe path.
Proof.
  unfold validate_file_path_bytes. rewrite bind_Ok. split.
  - intros ([] & Hr & H). apply reject_if_Ok, orb_false_iff in Hr as [H1 H2].
    apply bool_decide_eq_false in H1. apply validate_relative_path_Ok in H as [[? _]|[_ H]]; [done|].
    split_and!; [done|lia|done].
  - intros (H1 & H2 & H3). exists tt. split.
    + apply reject_if_Ok. rewrite bool_decide_eq_false_2 by done. lia.
    + apply validate_relative_path_Ok. auto.
Qed.

Lemma validate_directory_path_bytes_Ok path n u :
  validate_directory_path_bytes path n = Ok u <-> blen path <= n /\ (path = [] \/ path_safe path).
Proof.
  unfold validate_directory_path_bytes. rewrite bind_Ok. split.
  - intros ([] & Hr & H). apply reject_if_Ok in Hr.
    apply validate_relative_path_Ok in H as [[? _]|[_ H]]; split; (lia || auto).
  - intros [H1 H2]. exists tt. split; [apply reject_if_Ok; lia|].
    apply validate_relative_path_Ok. destruct (decide (path = [])); [by left|]. right. naive_solver.
Qed.

Lemma validate_file_path_bytes_no_panic path n : validate_file_path_bytes path n <> Panic.
Proof.
  unfold validate_file_path_bytes, validate_relative_path. destruct path; no_panic.
Qed.

Lemma validate_directory_path_bytes_no_panic path n : validate_directory_path_bytes path n <> Panic.
Proof.
  unfold validate_directory_path_bytes, validate_relative_path. destruct path; no_panic.
Qed.


(** A directory is an ancestor of a file exactly when it is the root, or
    its components are the first components of the file's path and the file
    has more. *)
Theorem is_directory_ancestor_correct directory file :
  is_directory_ancestor directory file = true
  <-> directory = []
      \/ exists rest, rest <> [] /\ split SLASH file = split SLASH directory ++ rest.
Proof.
  unfold is_directory_ancestor, starts_with. destruct directory as [|x d]; [naive_solver|].
  set (dir := x :: d). rewrite !andb_true_iff, Z.ltb_lt, bytes_eqb_eq, bool_decide_eq_true. split.
  - intros [[Hlt Ht] Hs]. right. exists (split SLASH (drop (S (length dir)) file)).
    split; [apply split_not_nil|]. rewrite <- split_app. f_equal.
    rewrite <- (take_drop_middle file (length dir) SLASH) at 1 by done. by rewrite Ht.
  - intros [?|(rest & Hr & Hs)]; [done|].
    assert (file = dir ++ SLASH :: join SLASH rest) as ->.
    { rewrite <- (join_split SLASH file), Hs, join_app by (done || apply split_not_nil).
      by rewrite join_split. }
    unfold blen. rewrite length_app, take_app_length, list_lookup_middle by done. cbn [length]. split_and!; [lia|done..].
Qed.
End Theorems.

(** ** Concrete inputs *)
Definition toy_Unicode : Unicode := {| nfc := fun b => b |}.

