(* ===== verification/TextCodecs.v ===== *)
(** * Text encodings of metadata values

    The scalar codecs of [crates/tzap-core/src/entry_metadata.rs]: decimal and
    fixed-width hexadecimal numbers, base64, percent-encoded names, timestamps,
    and the conversions between host times and archive times.  A Rust [String]
    is the byte string of its characters. *)

From S2P Require Import Wire Ordering Paths.
#[local] Open Scope Z_scope.

(** ** Numbers as text: the standard library's [FromStr] and [Display] *)
Definition is_ascii_digit : Byte.byte -> bool := byte_between 0x30 0x39.
Definition is_ascii_lowercase : Byte.byte -> bool := byte_between 0x61 0x7A.
Definition is_ascii_uppercase : Byte.byte -> bool := byte_between 0x41 0x5A.
Definition is_ascii_alphanumeric (x : Byte.byte) : bool :=
  is_ascii_digit x || is_ascii_lowercase x || is_ascii_uppercase x.

(** [char::to_digit(radix)] *)
Definition to_digit (radix : Z) (x : Byte.byte) : option Z :=
  let c := byte.unsigned x in
  let v := if is_ascii_digit x then c - 0x30
           else if is_ascii_lowercase x then c - 0x61 + 10
           else if is_ascii_uppercase x then c - 0x41 + 10
           else radix in
  if v <? radix then Some v else None.

Definition in_range (lo hi v : Z) : option Z := if (lo <=? v) && (v <? hi) then Some v else None.

(** The loop of [from_str_radix]: every multiplication and every addition (or
    subtraction, when [sign] is -1) is checked against the type's range. *)
Fixpoint parse_digits (radix lo hi sign acc : Z) (b : bytes) : option Z :=
  match b with
  | [] => Some acc
  | x :: b =>
      match to_digit radix x with
      | Some d =>
          match in_range lo hi (acc * radix) with
          | Some m =>
              match in_range lo hi (m + sign * d) with
              | Some acc => parse_digits radix lo hi sign acc b
              | None => None
              end
          | None => None
          end
      | None => None
      end
  end.

Definition PLUS : Byte.byte := Byte.x2b.
Definition MINUS : Byte.byte := Byte.x2d.

(** [uN::from_str_radix(text, radix).ok()] *)
Definition from_str_radix (w radix : Z) (b : bytes) : option Z :=
  match b with
  | [] => None
  | x :: rest =>
      let digits := if bool_decide (x = PLUS) then rest else b in
      if bool_decide (digits = []) then None else parse_digits radix 0 (2 ^ w) 1 0 digits
  end.

(** [text.parse::<i64>().ok()] *)
Definition parse_i64 (b : bytes) : option Z :=
  match b with
  | [] => None
  | x :: rest =>
      let digits := if bool_decide (x = PLUS \/ x = MINUS) then rest else b in
      let sign := if bool_decide (x = MINUS) then -1 else 1 in
      if bool_decide (digits = []) then None
      else parse_digits 10 (- 2 ^ 63) (2 ^ 63) sign 0 digits
  end.

Definition digit_byte (d : Z) : Byte.byte :=
  byte.of_Z (if d <? 10 then 0x30 + d else 0x61 + (d - 10)).

Fixpoint decimal_loop (fuel : nat) (n : Z) : bytes :=
  match fuel with
  | O => []
  | S fuel => (if n <? 10 then [] else decimal_loop fuel (n / 10)) ++ [digit_byte (n mod 10)]
  end.

(** [n.to_string()] of an unsigned number of 64 bits *)
Definition to_decimal (n : Z) : bytes := decimal_loop 20 n.

(** [n.to_string()] of an [i64] *)
Definition i64_to_string (n : Z) : bytes :=
  if n <? 0 then MINUS :: to_decimal (- n) else to_decimal n.

(** [format!("{n:0width$x}")] for [radix] 16, [format!("{n:0width$}")] for
    [radix] 10, of a number that fits *)
Fixpoint fixed_digits (radix : Z) (width : nat) (n : Z) : bytes :=
  match width with
  | O => []
  | S width => fixed_digits radix width (n / radix) ++ [digit_byte (n mod radix)]
  end.

(** ** Checks on values *)
Definition invalid {A} (structure reason : string) : fresult A := Err (InvalidMetadata structure reason).

(** [value.is_empty() || !value.iter().all(is_ascii_digit) || value.len() > 1
    && value[0] == b'0'] *)
Definition not_minimal_decimal (value : bytes) : bool :=
  bool_decide (value = []) || negb (forallb is_ascii_digit value)
  || ((1 <? blen value) && bool_decide (head value = Some Byte.x30)).

Definition parse_decimal_u64 (value : bytes) (field : string) : fresult Z :=
  if not_minimal_decimal value then
    Err (InvalidMetadata field "value is not minimal unsigned decimal")
  else ok_or (from_str_radix 64 10 value) (InvalidMetadata field "decimal value exceeds u64").

Definition parse_decimal_usize (value : bytes) (field : string) : fresult Z :=
  parsed ← parse_decimal_u64 value field;
  ok_or (try_from 64 parsed) (InvalidMetadata field "decimal value exceeds usize").

Definition is_lower_hex (x : Byte.byte) : bool := is_ascii_digit x || byte_between 0x61 0x66 x.
Definition is_upper_hex (x : Byte.byte) : bool := is_ascii_digit x || byte_between 0x41 0x46 x.

Definition hex_nibble (x : Byte.byte) : Z :=
  if is_ascii_digit x then byte.unsigned x - 0x30
  else if byte_between 0x61 0x66 x then byte.unsigned x - 0x61 + 10
  else if byte_between 0x41 0x46 x then byte.unsigned x - 0x41 + 10
  else 0.

Definition not_fixed_hex (value : bytes) (width : Z) : bool :=
  negb (blen value =? width) || negb (forallb is_lower_hex value).

Definition parse_fixed_hex_u32 (value : bytes) (width : Z) (field : string) : fresult Z :=
  if not_fixed_hex value width then
    Err (InvalidMetadata field "value is not fixed-width lowercase hexadecimal")
  else ok_or (from_str_radix 32 16 value) (InvalidMetadata field "hexadecimal value exceeds u32").

Definition parse_fixed_hex_u64 (value : bytes) (width : Z) (field : string) : fresult Z :=
  if not_fixed_hex value width then
    Err (InvalidMetadata field "value is not fixed-width lowercase hexadecimal")
  else ok_or (from_str_radix 64 16 value) (InvalidMetadata field "hexadecimal value exceeds u64").

(** [value.chunks_exact(2)] *)
Fixpoint hex_pairs (value : bytes) : bytes :=
  match value with
  | a :: b :: value => byte.of_Z (hex_nibble a * 16 + hex_nibble b) :: hex_pairs value
  | _ => []
  end.

Definition parse_fixed_hex_32 (value : bytes) : fresult bytes :=
  if not_fixed_hex value 64 then invalid "AuxiliaryMetadata" "SHA-256 is not lowercase hexadecimal"
  else Ok (hex_pairs value).

Definition is_ascii (value : bytes) : bool := forallb (byte_between 0 0x7F) value.

Definition ascii_string (value : bytes) (field : string) : fresult bytes :=
  if negb (is_ascii value) then Err (InvalidMetadata field "value is not ASCII") else Ok value.

(** ** Base64 *)
Definition base64_value (x : Byte.byte) : option Z :=
  let c := byte.unsigned x in
  if is_ascii_uppercase x then Some (c - 0x41)
  else if is_ascii_lowercase x then Some (c - 0x61 + 26)
  else if is_ascii_digit x then Some (c - 0x30 + 52)
  else if c =? 0x2B then Some 62
  else if c =? 0x2F then Some 63
  else None.

(** [base64_value(byte).unwrap()] *)
Definition sextet (x : Byte.byte) : fresult Z :=
  match base64_value x with Some v => Ok v | None => Panic end.

Definition push_shifted (high k low j : Z) : Byte.byte :=
  byte.of_Z (Z.lor (Z.land (Z.shiftl high k) 0xFF) (Z.shiftr low j)).

(** The loop over groups of four digits, and the [match] on what it leaves. *)
Fixpoint base64_loop (value : bytes) : fresult bytes :=
  match value with
  | [] => Ok []
  | [a; b] =>
      a ← sextet a; b ← sextet b;
      reject_if (negb (Z.land b 0x0F =? 0)) (InvalidMetadata "Base64" "non-zero unused bits");;
      mret [push_shifted a 2 b 4]
  | [a; b; c] =>
      a ← sextet a; b ← sextet b; c ← sextet c;
      reject_if (negb (Z.land c 0x03 =? 0)) (InvalidMetadata "Base64" "non-zero unused bits");;
      mret [push_shifted a 2 b 4; push_shifted b 4 c 2]
  | a :: b :: c :: d :: value =>
      a ← sextet a; b ← sextet b; c ← sextet c; d ← sextet d;
      out ← base64_loop value;
      mret (push_shifted a 2 b 4 :: push_shifted b 4 c 2 :: push_shifted c 6 d 0 :: out)
  | [_] => Panic
  end.

Definition EQUALS : Byte.byte := Byte.x3d.

Definition canonical_base64_decode (value : bytes) : fresult bytes :=
  reject_if (bool_decide (EQUALS ∈ value)
             || existsb (fun x => bool_decide (base64_value x = None)) value)
    (InvalidMetadata "Base64" "encoding is not unpadded RFC 4648 base64");;
  reject_if (blen value mod 4 =? 1) (InvalidMetadata "Base64" "invalid encoded length");;
  base64_loop value.

Definition ALPHABET : bytes :=
  ascii "ABCDEFGHIJKLMNOPQRSTUVWXYZabcdefghijklmnopqrstuvwxyz0123456789+/".

Definition alphabet (i : Z) : Byte.byte := nth (Z.to_nat i) ALPHABET Byte.x00.

Fixpoint canonical_base64_encode (value : bytes) : bytes :=
  match value with
  | x :: y :: z :: value =>
      let x := byte.unsigned x in let y := byte.unsigned y in let z := byte.unsigned z in
      alphabet (Z.shiftr x 2)
      :: alphabet (Z.lor (Z.shiftl (Z.land x 3) 4) (Z.shiftr y 4))
      :: alphabet (Z.lor (Z.shiftl (Z.land y 15) 2) (Z.shiftr z 6))
      :: alphabet (Z.land z 63) :: canonical_base64_encode value
  | [x; y] =>
      let x := byte.unsigned x in let y := byte.unsigned y in
      [alphabet (Z.shiftr x 2); alphabet (Z.lor (Z.shiftl (Z.land x 3) 4) (Z.shiftr y 4));
       alphabet (Z.shiftl (Z.land y 15) 2)]
  | [x] =>
      let x := byte.unsigned x in
      [alphabet (Z.shiftr x 2); alphabet (Z.shiftl (Z.land x 3) 4)]
  | [] => []
  end.

(** ** Percent-encoded names *)
Definition PERCENT : Byte.byte := Byte.x25.

(** [(0x21..=0x7e).contains(&byte) && byte != b'%' && byte != b'='] *)
Definition literal_name_byte (x : Byte.byte) : bool :=
  byte_between 0x21 0x7E x && negb (bool_decide (x = PERCENT)) && negb (bool_decide (x = EQUALS)).

Fixpoint decode_percent_name (value : bytes) : fresult bytes :=
  match value with
  | [] => Ok []
  | x :: rest =>
      if bool_decide (x = PERCENT) then
        match rest with
        | h :: l :: value =>
            reject_if (negb (is_upper_hex h) || negb (is_upper_hex l))
              (InvalidMetadata "XattrName" "invalid percent encoding");;
            let decoded := byte.of_Z (hex_nibble h * 16 + hex_nibble l) in
            reject_if (bool_decide (decoded = Byte.x00) || literal_name_byte decoded)
              (InvalidMetadata "XattrName" "percent encoding is non-canonical");;
            out ← decode_percent_name value;
            mret (decoded :: out)
        | _ => invalid "XattrName" "invalid percent encoding"
        end
      else
        reject_if (negb (literal_name_byte x))
          (InvalidMetadata "XattrName" "xattr name byte must be percent encoded");;
        out ← decode_percent_name rest;
        mret (x :: out)
  end.

(** [{byte:02X}] *)
Definition upper_hex_digit (d : Z) : Byte.byte :=
  byte.of_Z (if d <? 10 then 0x30 + d else 0x41 + (d - 10)).

Definition encode_name_byte (x : Byte.byte) : bytes :=
  if literal_name_byte x then [x]
  else [PERCENT; upper_hex_digit (byte.unsigned x / 16); upper_hex_digit (byte.unsigned x mod 16)].

Definition encode_percent_name (value : bytes) : fresult bytes :=
  if bool_decide (value = []) || bool_decide (Byte.x00 ∈ value) then
    invalid "XattrName" "xattr name is empty or contains NUL"
  else Ok (concat (map encode_name_byte value)).

(** ** Timestamps *)
Record ArchiveTimestamp : Set := {
  seconds : Z;
  nanoseconds : Z
}.

Definition ArchiveTimestamp_UNIX_EPOCH : ArchiveTimestamp := {| seconds := 0; nanoseconds := 0 |}.

(** The types of the fields. *)
Definition timestamp_typed (t : ArchiveTimestamp) : Prop := i64 (seconds t) /\ u32 (nanoseconds t).

Definition last_second_error : FormatError :=
  WriterUnsupported "times in the last second before the Unix epoch have no revision-45 encoding".

Definition ZERO : Byte.byte := Byte.x30.

Definition ArchiveTimestamp_canonical_pax_value (t : ArchiveTimestamp) : fresult bytes :=
  if 1000000000 <=? nanoseconds t then
    Err (WriterUnsupported "timestamp nanoseconds must be less than one billion")
  else if nanoseconds t =? 0 then Ok (i64_to_string (seconds t))
  else
    buffer ←
      (if seconds t <? 0 then
         let whole := Z.abs (seconds t) - 1 in
         let fraction := 1000000000 - nanoseconds t in
         if whole =? 0 then Err last_second_error
         else mret (MINUS :: to_decimal whole ++ DOT :: fixed_digits 10 9 fraction)
       else mret (i64_to_string (seconds t) ++ DOT :: fixed_digits 10 9 (nanoseconds t)));
    mret (trim_end_matches (fun x => bool_decide (x = ZERO)) buffer).

(** [fmt::Display] *)
Definition ArchiveTimestamp_fmt (t : ArchiveTimestamp) : bytes :=
  let trimmed n := trim_end_matches (fun x => bool_decide (x = ZERO)) (fixed_digits 10 9 n) in
  if nanoseconds t =? 0 then i64_to_string (seconds t)
  else if seconds t <? 0 then
    let whole := Z.abs (seconds t) - 1 in
    let fraction := 1000000000 - nanoseconds t in
    if whole =? 0 then
      i64_to_string (seconds t) ++ ascii "s " ++ to_decimal (nanoseconds t) ++ ascii "ns"
    else MINUS :: to_decimal whole ++ DOT :: trimmed fraction
  else i64_to_string (seconds t) ++ DOT :: trimmed (nanoseconds t).

(** [text.split_once('.')] *)
Fixpoint split_once (sep : Byte.byte) (b : bytes) : option (bytes * bytes) :=
  match b with
  | [] => None
  | x :: b =>
      if bool_decide (x = sep) then Some ([], b)
      else match split_once sep b with
           | Some (l, r) => Some (x :: l, r)
           | None => None
           end
  end.

Definition ends_with_byte (x : Byte.byte) (b : bytes) : bool := bool_decide (last b = Some x).

(** [integer.strip_prefix('-').unwrap_or(integer)] *)
Definition strip_minus (b : bytes) : bytes :=
  match b with
  | x :: rest => if bool_decide (x = MINUS) then rest else b
  | [] => []
  end.

Definition not_canonical_fraction (fraction : bytes) : bool :=
  bool_decide (fraction = []) || (9 <? blen fraction)
  || negb (forallb is_ascii_digit fraction) || ends_with_byte ZERO fraction.

Definition parse_timestamp (value : bytes) : fresult ArchiveTimestamp :=
  reject_if (negb (utf8_valid value)) (InvalidArchive "timestamp is not ASCII");;
  reject_if (bool_decide (value = []) || bool_decide (head value = Some PLUS))
    (InvalidMetadata "Timestamp" "timestamp is not canonical");;
  let '(integer, fraction) :=
    match split_once DOT value with Some (a, b) => (a, Some b) | None => (value, None) end in
  reject_if (bytes_eqb integer (ascii "-0")) (InvalidMetadata "Timestamp" "timestamp is not canonical");;
  reject_if (not_minimal_decimal (strip_minus integer))
    (InvalidMetadata "Timestamp" "timestamp integer is not canonical");;
  seconds ← ok_or (parse_i64 integer) (InvalidArchive "timestamp seconds exceed i64");
  nanos ← match fraction with
          | Some fraction =>
              reject_if (not_canonical_fraction fraction)
                (InvalidMetadata "Timestamp" "timestamp fraction is not canonical");;
              match from_str_radix 32 10 (fraction ++ replicate (9 - length fraction) ZERO) with
              | Some nanos => Ok nanos
              | None => Panic
              end
          | None => mret 0
          end;
  if (seconds <? 0) && negb (nanos =? 0) then
    seconds ← ok_or (in_range (- 2 ^ 63) (2 ^ 63) (seconds - 1)) (InvalidArchive "timestamp seconds exceed i64");
    mret {| seconds := seconds; nanoseconds := 1000000000 - nanos |}
  else mret {| seconds := seconds; nanoseconds := nanos |}.

(** ** Host times

    The host's [SystemTime] on a Unix system counts nanoseconds from the epoch
    with a signed 64-bit number of seconds. *)
Definition SystemTime : Set := Z.

Definition NANOSECONDS_PER_SECOND : Z := 1000000000.

Definition system_time_of (nanos : Z) : option SystemTime :=
  match in_range (- 2 ^ 63) (2 ^ 63) (nanos / NANOSECONDS_PER_SECOND) with
  | Some _ => Some nanos
  | None => None
  end.

Definition SystemTime_valid (t : SystemTime) : Prop := system_time_of t = Some t.

(** [i64::try_from] of a number of 64 bits, [checked_neg], [checked_sub] *)
Definition i64_checked (v : Z) : option Z := in_range (- 2 ^ 63) (2 ^ 63) v.

Definition archive_timestamp_from_system_time (time : SystemTime) : option ArchiveTimestamp :=
  if 0 <=? time then
    match i64_checked (time / NANOSECONDS_PER_SECOND) with
    | Some s => Some {| seconds := s; nanoseconds := time mod NANOSECONDS_PER_SECOND |}
    | None => None
    end
  else
    let duration := - time in
    match i64_checked (duration / NANOSECONDS_PER_SECOND) with
    | Some s =>
        match i64_checked (- s) with
        | Some negated =>
            if duration mod NANOSECONDS_PER_SECOND =? 0 then
              Some {| seconds := negated; nanoseconds := 0 |}
            else
              match i64_checked (negated - 1) with
              | Some s => Some {| seconds := s;
                                  nanoseconds := NANOSECONDS_PER_SECOND
                                                 - duration mod NANOSECONDS_PER_SECOND |}
              | None => None
              end
        | None => None
        end
    | None => None
    end.

Definition system_time_from_archive_timestamp (timestamp : ArchiveTimestamp) : option SystemTime :=
  let whole := Z.abs (seconds timestamp) * NANOSECONDS_PER_SECOND in
  match (if seconds timestamp <? 0 then system_time_of (0 - whole) else system_time_of (0 + whole)) with
  | Some base => system_time_of (base + nanoseconds timestamp)
  | None => None
  end.

(** ** Other projections *)
Definition projected_posix_mode (is_directory readonly : bool) : Z :=
  if is_directory then 0x1ED else if readonly then 0x124 else 0x1A4.

Definition bit_set (v mask : Z) : bool := negb (Z.land v mask =? 0).

Definition windows_portable_attribute_projection (file_attributes : Z) : Z :=
  let FILE_ATTRIBUTE_READONLY := 0x1 in
  let FILE_ATTRIBUTE_HIDDEN := 0x2 in
  let FILE_ATTRIBUTE_SYSTEM := 0x4 in
  let FILE_ATTRIBUTE_ARCHIVE := 0x20 in
  Z.lor (Z.lor (Z.lor (Z.b2z (bit_set file_attributes FILE_ATTRIBUTE_READONLY))
                      (Z.shiftl (Z.b2z (bit_set file_attributes FILE_ATTRIBUTE_HIDDEN)) 1))
               (Z.shiftl (Z.b2z (bit_set file_attributes FILE_ATTRIBUTE_SYSTEM)) 2))
        (Z.shiftl (Z.b2z (bit_set file_attributes FILE_ATTRIBUTE_ARCHIVE)) 3).

Definition human_units : list string := ["bytes"; "KB"; "MB"; "GB"; "TB"].

(** The loop over the units; it ends at the last of them. *)
Fixpoint human_loop (units : list string) (unit : string) (first : bool) (scaled remainder : Z)
    : bool * Z * Z * string :=
  match units with
  | next :: units =>
      if 1024 <=? scaled then human_loop units next false (scaled / 1024) (scaled mod 1024)
      else (first, scaled, remainder, unit)
  | [] => (first, scaled, remainder, unit)
  end.

Definition human_bytes (n : Z) : bytes :=
  let '(first, scaled, remainder, unit) := human_loop (tail human_units) "bytes" true n 0 in
  if first then to_decimal n ++ SPACE :: ascii "bytes"
  else to_decimal scaled ++ DOT :: to_decimal (remainder * 10 / 1024) ++ SPACE :: ascii unit.

Example human_example : human_bytes 1572864 = ascii "1.5 MB".
Proof. reflexivity. Qed.

Example timestamp_example :
  parse_timestamp (ascii "-1.25") = Ok {| seconds := -2; nanoseconds := 750000000 |}
  /\ ArchiveTimestamp_canonical_pax_value {| seconds := -2; nanoseconds := 750000000 |} = Ok (ascii "-1.25")
  /\ canonical_base64_decode (ascii "aGk") = Ok (ascii "hi")
  /\ encode_percent_name (ascii "a b") = Ok (ascii "a%20b").
Proof. vm_compute. auto. Qed.

(** ** Positional numerals

    [num] is the value of a list of digits, most significant first. *)
Definition num (radix acc : Z) (ds : list Z) : Z := fold_left (fun a d => a * radix + d) ds acc.

Definition digits_ok (radix : Z) (ds : list Z) : Prop := Forall (fun d => 0 <= d < radix) ds.

Definition minimal (ds : list Z) : Prop := ds <> [] /\ ((1 < length ds)%nat -> head ds <> Some 0).

Lemma num_snoc radix acc ds d : num radix acc (ds ++ [d]) = num radix acc ds * radix + d.
Proof. unfold num. by rewrite fold_left_app. Qed.

Lemma num_ge radix acc ds : 1 <= radix -> 0 <= acc -> digits_ok radix ds -> acc <= num radix acc ds.
Proof.
  intros Hr. revert acc. induction ds as [|d ds IH]; intros acc Ha Hd; cbn; [lia|].
  apply Forall_cons in Hd as [Hd Hds]. specialize (IH (acc * radix + d)). unfold num in IH.
  etransitivity; [|apply IH; [nia|done]]. nia.
Qed.

Lemma num_bound radix ds : 1 <= radix -> digits_ok radix ds -> 0 <= num radix 0 ds < radix ^ Z.of_nat (length ds).
Proof.
  intros Hr. induction ds as [|d ds IH] using rev_ind; intros Hd; [cbn; lia|].
  apply Forall_app in Hd as [Hds [Hd _]%Forall_cons]. rewrite num_snoc, length_app.
  specialize (IH Hds). cbn [length]. rewrite Nat2Z.inj_add, Z.pow_add_r by lia. change (Z.of_nat 1) with 1. nia.
Qed.

Lemma to_digit_range radix x d : to_digit radix x = Some d -> 0 <= d < radix.
Proof.
  unfold to_digit, is_ascii_digit, is_ascii_lowercase, is_ascii_uppercase, byte_between.
  pose proof (byte.unsigned_range x). intros H'. repeat case_match; simplify_eq; lia.
Qed.

Lemma to_digits_ok radix b ds : mapM (to_digit radix) b = Some ds -> digits_ok radix ds.
Proof.
  intros H. apply mapM_Some in H. induction H; constructor; [|done]. eauto using to_digit_range.
Qed.

Lemma in_range_Some lo hi v r : in_range lo hi v = Some r <-> r = v /\ lo <= v < hi.
Proof. unfold in_range. case_match; split; intros; destruct_and?; simplify_eq; split_and?; (done || lia). Qed.

(** The checked loop returns the value of the digits exactly when it is in
    range. *)
Lemma parse_digits_Some radix lo hi sign acc b v :
  1 <= radix -> lo <= 0 < hi -> sign = 1 \/ sign = -1 -> 0 <= sign * acc -> lo <= acc < hi ->
  parse_digits radix lo hi sign acc b = Some v
  <-> exists ds, mapM (to_digit radix) b = Some ds /\ v = sign * num radix (sign * acc) ds /\ lo <= v < hi.
Proof.
  intros Hr Hlh Hs. revert acc. induction b as [|x b IH]; intros acc Ha Hb.
  { cbn. split.
    - intros [= ->]. exists []. unfold num. cbn. split_and!; [done|nia|lia|lia].
    - intros (ds & [= <-] & -> & _). unfold num. cbn. f_equal. nia. }
  cbn [parse_digits mapM]. destruct (to_digit radix x) as [d|] eqn:Hx; [|split; [done|intros (? & ? & _); done]].
  pose proof (to_digit_range _ _ _ Hx) as Hd.
  assert (forall ds, digits_ok radix ds ->
    lo <= sign * num radix (sign * acc) (d :: ds) < hi -> lo <= acc * radix < hi /\ lo <= acc * radix + sign * d < hi) as Hrange.
  { intros ds Hds H. unfold num in H. cbn in H.
    pose proof (num_ge radix (sign * acc * radix + d) ds Hr ltac:(nia) Hds) as Hge. unfold num in Hge.
    set (n := fold_left _ ds _) in *. destruct Hs as [-> | ->]; nia. }
  destruct (in_range lo hi (acc * radix)) as [m|] eqn:Hm;
    [apply in_range_Some in Hm as [-> Hm];
     destruct (in_range lo hi (acc * radix + sign * d)) as [a|] eqn:Ha'|].
  - apply in_range_Some in Ha' as [-> Ha']. rewrite IH by nia. cbn.
    replace (sign * (acc * radix + sign * d)) with (sign * acc * radix + d) by nia.
    split.
    + intros (ds & H1 & H2). exists (d :: ds). by rewrite H1.
    + intros (ds & H1 & H2). destruct (mapM (to_digit radix) b) as [ds'|] eqn:E; [|done]. cbn in H1.
      injection H1 as <-. eauto.
  - split; [done|]. intros (ds & H1 & -> & H2). exfalso. cbn in H1.
    destruct (mapM (to_digit radix) b) as [ds'|] eqn:E; [|done]. cbn in H1. injection H1 as <-.
    apply Hrange in H2 as [_ H2]; [|by eapply to_digits_ok]. unfold in_range in Ha'. case_match; [done|lia].
  - split; [done|]. intros (ds & H1 & -> & H2). exfalso. cbn in H1.
    destruct (mapM (to_digit radix) b) as [ds'|] eqn:E; [|done]. cbn in H1. injection H1 as <-.
    apply Hrange in H2 as [H2 _]; [|by eapply to_digits_ok]. unfold in_range in Hm. case_match; [done|lia].
Qed.

Lemma unsigned_digit_byte d :
  0 <= d < 16 -> byte.unsigned (digit_byte d) = if d <? 10 then 0x30 + d else 0x61 + (d - 10).
Proof.
  intros Hd. unfold digit_byte. rewrite byte.unsigned_of_Z. unfold byte.wrap.
  case_match; rewrite Z.mod_small; lia.
Qed.

(** The characters that [digit_byte] writes. *)
Definition canonical_digit (radix : Z) (x : Byte.byte) : bool :=
  is_ascii_digit x && (byte.unsigned x - 0x30 <? radix)
  || byte_between 0x61 0x66 x && (byte.unsigned x - 0x61 + 10 <? radix).

Lemma to_digit_byte radix d : 0 <= d < radix -> radix <= 16 -> to_digit radix (digit_byte d) = Some d.
Proof.
  intros Hd Hr. unfold to_digit, is_ascii_digit, is_ascii_lowercase, is_ascii_uppercase, byte_between.
  rewrite unsigned_digit_byte by lia. repeat case_match; try lia; f_equal; lia.
Qed.

Lemma digit_byte_canonical radix d : 0 <= d < radix -> radix <= 16 -> canonical_digit radix (digit_byte d) = true.
Proof.
  intros Hd Hr. unfold canonical_digit, is_ascii_digit, byte_between.
  rewrite unsigned_digit_byte by lia. case_match; lia.
Qed.

Lemma canonical_to_digit radix x :
  canonical_digit radix x = true -> exists d, to_digit radix x = Some d /\ x = digit_byte d.
Proof.
  unfold canonical_digit, is_ascii_digit, byte_between. intros H.
  pose proof (byte.unsigned_range x) as Hx.
  unfold to_digit, is_ascii_digit, is_ascii_lowercase, is_ascii_uppercase, byte_between.
  exists (if byte.unsigned x <=? 0x39 then byte.unsigned x - 0x30 else byte.unsigned x - 0x61 + 10). split.
  - repeat case_match; try lia; f_equal; lia.
  - apply byte.unsigned_inj. destruct (byte.unsigned x <=? 0x39) eqn:Hle;
      rewrite unsigned_digit_byte by lia; case_match; lia.
Qed.

Lemma canonical_digits_iff radix b ds :
  radix <= 16 ->
  forallb (canonical_digit radix) b = true /\ mapM (to_digit radix) b = Some ds
  <-> digits_ok radix ds /\ b = map digit_byte ds.
Proof.
  intros Hr. split.
  - intros [Hc Hm]. split; [by eapply to_digits_ok|]. apply mapM_Some in Hm.
    induction Hm as [|x d b ds Hx Hm IH]; [done|]. cbn in *. apply andb_true_iff in Hc as [Hc1 Hc2].
    destruct (canonical_to_digit _ _ Hc1) as (d' & Hd & ->). rewrite Hd in Hx. injection Hx as ->. by rewrite IH.
  - intros [Hd ->]. induction Hd as [|d ds Hd Hds IH]; [done|]. cbn [map forallb mapM].
    rewrite digit_byte_canonical, to_digit_byte by lia. destruct IH as [-> ->]. done.
Qed.

Lemma minimal_snoc ds d : ds <> [] -> minimal (ds ++ [d]) -> minimal ds /\ head ds <> Some 0.
Proof.
  intros Hne [_ Hm]. destruct ds as [|a ds]; [done|]. rewrite length_app in Hm. cbn in *.
  assert (Some a <> Some 0) as Ha by (apply Hm; lia). by split; [split|].
Qed.

Lemma num_pos ds : digits_ok 10 ds -> ds <> [] -> head ds <> Some 0 -> 1 <= num 10 0 ds.
Proof.
  intros Hd Hne Hh. destruct ds as [|d ds]; [done|]. apply Forall_cons in Hd as [Hd Hds].
  change (num 10 0 (d :: ds)) with (num 10 d ds). pose proof (num_ge 10 d ds ltac:(lia) ltac:(lia) Hds).
  assert (d <> 0) by (intros ->; by apply Hh). lia.
Qed.

Lemma decimal_loop_digits fuel ds :
  digits_ok 10 ds -> minimal ds -> num 10 0 ds < 10 ^ Z.of_nat (S fuel) ->
  decimal_loop (S fuel) (num 10 0 ds) = map digit_byte ds.
Proof.
  revert ds. induction fuel as [|fuel IH]; intros ds;
    (destruct ds as [|d ds _] using rev_ind; intros Hd Hm Hb; [by destruct Hm as [Hm _]; destruct Hm|]);
    apply Forall_app in Hd as [Hds [Hd _]%Forall_cons]; rewrite num_snoc in *;
    rewrite map_app; cbn [map]; rewrite Nat2Z.inj_succ, Z.pow_succ_r in Hb by lia.
  - destruct (decide (ds = [])) as [->|Hne].
    + unfold num in *. cbn in *. change (0 * 10 + d) with d. rewrite Z.mod_small by lia. by destruct (d <? 10).
    + exfalso. destruct (minimal_snoc _ _ Hne Hm) as [_ Hh].
      pose proof (num_pos ds Hds Hne Hh). change (10 ^ Z.of_nat 0) with 1 in Hb. lia.
  - cbn [decimal_loop]. rewrite Z.add_comm, Z.mod_add, Z.div_add by lia.
    rewrite (Z.mod_small d), (Z.div_small d) by lia. f_equal.
    destruct (decide (ds = [])) as [->|Hne].
    + change (num 10 0 []) with 0. by replace (d + 0 * 10 <? 10) with true by lia.
    + destruct (minimal_snoc _ _ Hne Hm) as [Hm' Hh]. pose proof (num_pos ds Hds Hne Hh).
      destruct (d + num 10 0 ds * 10 <? 10) eqn:?; [lia|]. apply IH; [done..|lia].
Qed.

Lemma decimal_loop_minimal fuel n :
  0 <= n < 10 ^ Z.of_nat (S fuel) ->
  exists ds, digits_ok 10 ds /\ minimal ds /\ num 10 0 ds = n /\ (head ds = Some 0 -> n = 0).
Proof.
  revert n. induction fuel as [|fuel IH]; intros n Hn; rewrite Nat2Z.inj_succ, Z.pow_succ_r in Hn by lia.
  - change (10 ^ Z.of_nat 0) with 1 in Hn. exists [n]. unfold num, digits_ok, minimal. cbn.
    split_and!; [constructor; [lia|done]|done|lia|lia|congruence].
  - destruct (decide (n < 10)) as [Hlt|Hge].
    { exists [n]. unfold num, digits_ok, minimal. cbn.
      split_and!; [constructor; [lia|done]|done|lia|lia|congruence]. }
    destruct (IH (n / 10)) as (ds & Hd & [Hne Hm] & Hv & Hh).
    { split; [apply Z.div_pos; lia|]. apply Z.div_lt_upper_bound; lia. }
    assert (head (ds ++ [n mod 10]) <> Some 0) as Hh'.
    { destruct ds; [done|]. cbn in *. intros H. specialize (Hh H).
      pose proof (Z.div_str_pos n 10). lia. }
    exists (ds ++ [n mod 10]). split_and!.
    + apply Forall_app. split; [done|]. constructor; [|done]. apply Z.mod_pos_bound. lia.
    + split; [by destruct ds|done].
    + rewrite num_snoc, Hv. pose proof (Z.div_mod n 10). lia.
    + done.
Qed.

(** The digits of [to_decimal]. *)
Lemma to_decimal_digits n :
  u64 n -> exists ds, to_decimal n = map digit_byte ds /\ digits_ok 10 ds /\ minimal ds /\ num 10 0 ds = n
                      /\ (head ds = Some 0 -> n = 0).
Proof.
  intros Hn. destruct (decimal_loop_minimal 19 n) as (ds & H1 & H2 & H3 & H4); [unfold fits in Hn; lia|].
  exists ds. split_and!; try done. unfold to_decimal. rewrite <- H3 at 1.
  apply decimal_loop_digits; [done..|]. rewrite H3. unfold fits in Hn. lia.
Qed.

Lemma to_decimal_num ds :
  digits_ok 10 ds -> minimal ds -> num 10 0 ds < 2 ^ 64 -> to_decimal (num 10 0 ds) = map digit_byte ds.
Proof. intros. apply decimal_loop_digits; [done..|lia]. Qed.

Lemma fixed_digits_num radix ds :
  1 <= radix -> digits_ok radix ds -> fixed_digits radix (length ds) (num radix 0 ds) = map digit_byte ds.
Proof.
  intros Hr. induction ds as [|d ds IH] using rev_ind; intros Hd; [done|].
  apply Forall_app in Hd as [Hds [Hd _]%Forall_cons]. rewrite length_app, Nat.add_comm, num_snoc, map_app.
  cbn [Nat.add length fixed_digits map]. rewrite Z.add_comm, Z.mod_add, Z.div_add by lia.
  rewrite (Z.mod_small d), (Z.div_small d), Z.add_0_l by lia. by rewrite IH.
Qed.

Lemma fixed_digits_spec radix width n :
  1 <= radix -> 0 <= n < radix ^ Z.of_nat width ->
  exists ds, fixed_digits radix width n = map digit_byte ds /\ digits_ok radix ds
             /\ length ds = width /\ num radix 0 ds = n.
Proof.
  intros Hr. revert n. induction width as [|width IH]; intros n Hn.
  { exists []. unfold num. cbn in *. split_and!; [done|constructor|done|lia]. }
  rewrite Nat2Z.inj_succ, Z.pow_succ_r in Hn by lia.
  destruct (IH (n / radix)) as (ds & H1 & H2 & H3 & H4).
  { split; [apply Z.div_pos; lia|]. apply Z.div_lt_upper_bound; lia. }
  exists (ds ++ [n mod radix]). cbn [fixed_digits]. rewrite H1, map_app, num_snoc, H4, length_app, H3.
  split_and!; [done| |cbn; lia|pose proof (Z.div_mod n radix); lia].
  apply Forall_app. split; [done|]. constructor; [|done]. apply Z.mod_pos_bound. lia.
Qed.

(** ** Numbers as text round-trip *)
Lemma digit_byte_inj d e : 0 <= d < 16 -> 0 <= e < 16 -> digit_byte d = digit_byte e -> d = e.
Proof.
  intros Hd He H. apply (f_equal byte.unsigned) in H. rewrite !unsigned_digit_byte in H by lia.
  repeat case_match; lia.
Qed.

Lemma is_ascii_digit_canonical x : is_ascii_digit x = canonical_digit 10 x.
Proof. unfold canonical_digit, is_ascii_digit, byte_between. lia. Qed.

Lemma is_lower_hex_canonical x : is_lower_hex x = canonical_digit 16 x.
Proof. unfold canonical_digit, is_lower_hex, is_ascii_digit, byte_between. lia. Qed.

Lemma forallb_ext' {A} (f g : A -> bool) l : (forall x, f x = g x) -> forallb f l = forallb g l.
Proof. intros H. induction l as [|x l IH]; cbn; [done|]. by rewrite H, IH. Qed.

(** A string without characters outside the digits is a list of digits. *)
Lemma all_digits radix b :
  radix <= 16 -> forallb (canonical_digit radix) b = true ->
  exists ds, digits_ok radix ds /\ b = map digit_byte ds.
Proof.
  intros Hr H. enough (exists ds, mapM (to_digit radix) b = Some ds) as [ds Hds].
  { exists ds. by apply canonical_digits_iff. }
  induction b as [|x b IH]; [by exists []|]. cbn [forallb] in H. apply andb_true_iff in H as [Hx H].
  destruct (canonical_to_digit _ _ Hx) as (d & Hd & _). destruct (IH H) as [ds Hds].
  exists (d :: ds). cbn. by rewrite Hd, Hds.
Qed.

Lemma digits_canonical radix ds :
  radix <= 16 -> digits_ok radix ds -> forallb (canonical_digit radix) (map digit_byte ds) = true.
Proof. intros Hr Hd. by destruct (proj2 (canonical_digits_iff radix _ ds Hr) (conj Hd eq_refl)). Qed.

Lemma not_minimal_decimal_digits ds :
  digits_ok 10 ds -> not_minimal_decimal (map digit_byte ds) = false <-> minimal ds.
Proof.
  intros Hd. unfold not_minimal_decimal, minimal.
  rewrite (forallb_ext' _ _ _ is_ascii_digit_canonical), digits_canonical by done.
  rewrite !orb_false_iff, andb_false_iff, !bool_decide_eq_false. unfold blen. rewrite length_map.
  assert (head (map digit_byte ds) = Some Byte.x30 <-> head ds = Some 0) as Hh.
  { destruct ds as [|d ds]; [done|]. apply Forall_cons in Hd as [Hd _]. cbn.
    change Byte.x30 with (digit_byte 0). split; [intros [= H]|by intros [= ->]].
    apply digit_byte_inj in H; [by subst|lia..]. }
  rewrite Hh. destruct ds as [|d ds]; cbn [map length head]; [naive_solver|].
  split.
  { intros [_ [H|H]]; (split; [done|]); [apply Z.ltb_ge in H; lia|auto]. }
  intros [_ H]. split; [done|]. destruct (decide (ds = [])) as [->|Hne]; [by left|].
  right. apply H. destruct ds; [done|cbn; apply Nat.lt_1_2 || lia].
Qed.

Lemma from_str_radix_digits w radix ds :
  0 <= w -> 1 <= radix <= 16 -> digits_ok radix ds -> ds <> [] ->
  from_str_radix w radix (map digit_byte ds) =
  if num radix 0 ds <? 2 ^ w then Some (num radix 0 ds) else None.
Proof.
  intros Hw Hr Hd Hne. unfold from_str_radix.
  destruct ds as [|d ds]; [done|]. cbn [map].
  assert (digit_byte d <> PLUS) as Hplus.
  { apply Forall_cons in Hd as [Hd _]. intros H. apply (f_equal byte.unsigned) in H.
    rewrite unsigned_digit_byte in H by lia. change (byte.unsigned PLUS) with 43 in H. case_match; lia. }
  rewrite (bool_decide_eq_false_2 (digit_byte d = PLUS)) by done.
  change (digit_byte d :: map digit_byte ds) with (map digit_byte (d :: ds)).
  rewrite bool_decide_eq_false_2 by done.
  pose proof (num_bound radix _ ltac:(lia) Hd) as Hb.
  assert (mapM (to_digit radix) (map digit_byte (d :: ds)) = Some (d :: ds)) as Hm.
  { by eapply canonical_digits_iff; [lia|]. }
  assert (0 < 2 ^ w) by (apply Z.pow_pos_nonneg; lia).
  destruct (Z.ltb_spec (num radix 0 (d :: ds)) (2 ^ w)).
  - apply parse_digits_Some; [lia..|]. exists (d :: ds). rewrite !Z.mul_1_l. split_and!; [done|done|lia|lia].
  - destruct (parse_digits _ _ _ _ _ _) as [v|] eqn:E; [|done].
    apply parse_digits_Some in E as (ds' & Hm' & -> & Hv); [|lia..].
    rewrite Hm in Hm'. injection Hm' as <-. rewrite !Z.mul_1_l in Hv. lia.
Qed.

(** The parser of unsigned decimals accepts exactly what [to_string] writes. *)
Lemma parse_decimal_u64_Ok value field n :
  parse_decimal_u64 value field = Ok n <-> u64 n /\ value = to_decimal n.
Proof.
  unfold parse_decimal_u64. split.
  - destruct (not_minimal_decimal value) eqn:Hm; [done|].
    assert (forallb is_ascii_digit value = true) as Hall.
    { unfold not_minimal_decimal in Hm. rewrite !orb_false_iff, negb_false_iff in Hm. tauto. }
    rewrite (forallb_ext' _ _ _ is_ascii_digit_canonical) in Hall.
    apply all_digits in Hall as (ds & Hd & ->); [|lia].
    apply not_minimal_decimal_digits in Hm; [|done].
    rewrite from_str_radix_digits by (done || lia || by destruct Hm).
    pose proof (num_bound 10 ds ltac:(lia) Hd).
    destruct (Z.ltb_spec (num 10 0 ds) (2 ^ 64)); [|done]. intros [= <-].
    split; [unfold fits; lia|]. by rewrite to_decimal_num.
  - intros [Hn ->]. destruct (to_decimal_digits n Hn) as (ds & -> & Hd & Hm & <- & _).
    rewrite (proj2 (not_minimal_decimal_digits ds Hd) Hm).
    rewrite from_str_radix_digits by (done || lia || by destruct Hm).
    unfold fits in Hn. by replace (num 10 0 ds <? 2 ^ 64) with true by lia.
Qed.

Lemma parse_decimal_usize_Ok value field n :
  parse_decimal_usize value field = Ok n <-> usize n /\ value = to_decimal n.
Proof.
  unfold parse_decimal_usize. rewrite bind_Ok. setoid_rewrite ok_or_Ok. setoid_rewrite try_from_Some.
  setoid_rewrite parse_decimal_u64_Ok. naive_solver.
Qed.

Lemma parse_fixed_hex_iff w value width n :
  0 <= w -> (0 < width)%nat ->
  16 ^ Z.of_nat width <= 2 ^ w ->
  (not_fixed_hex value (Z.of_nat width) = false /\ from_str_radix w 16 value = Some n)
  <-> 0 <= n < 16 ^ Z.of_nat width /\ value = fixed_digits 16 width n.
Proof.
  intros Hw0 Hwd Hw. unfold not_fixed_hex. rewrite (forallb_ext' _ _ _ is_lower_hex_canonical). split.
  - intros [Hf Hn]. rewrite orb_false_iff, !negb_false_iff in Hf. destruct Hf as [Hl Hc].
    apply Z.eqb_eq in Hl. apply all_digits in Hc as (ds & Hd & ->); [|lia]. unfold blen in Hl. rewrite length_map in Hl.
    rewrite from_str_radix_digits in Hn by (done || lia || by intros ->).
    pose proof (num_bound 16 ds ltac:(lia) Hd) as Hb. rewrite Hl in Hb.
    replace (num 16 0 ds <? 2 ^ w) with true in Hn by lia. injection Hn as <-.
    split; [lia|]. apply Nat2Z.inj in Hl as <-. by rewrite fixed_digits_num.
  - intros [Hn ->]. destruct (fixed_digits_spec 16 width n) as (ds & -> & Hd & Hl & Hv); [lia..|].
    rewrite digits_canonical by done. unfold blen. rewrite length_map, Hl, Z.eqb_refl. split; [done|].
    rewrite from_str_radix_digits by (done || lia || by intros ->; cbn in *; lia).
    rewrite Hv. by replace (n <? 2 ^ w) with true by lia.
Qed.

Lemma parse_fixed_hex_u32_Ok value width field n :
  (0 < width <= 8)%nat ->
  parse_fixed_hex_u32 value (Z.of_nat width) field = Ok n
  <-> 0 <= n < 16 ^ Z.of_nat width /\ value = fixed_digits 16 width n.
Proof.
  intros Hw. rewrite <- (parse_fixed_hex_iff 32) by (try lia; change (2 ^ 32) with (16 ^ 8); apply Z.pow_le_mono_r; lia).
  unfold parse_fixed_hex_u32. destruct (not_fixed_hex _ _); [split; [done|by intros [? _]]|].
  rewrite ok_or_Ok. tauto.
Qed.

Lemma parse_fixed_hex_u64_Ok value width field n :
  (0 < width <= 16)%nat ->
  parse_fixed_hex_u64 value (Z.of_nat width) field = Ok n
  <-> 0 <= n < 16 ^ Z.of_nat width /\ value = fixed_digits 16 width n.
Proof.
  intros Hw. rewrite <- (parse_fixed_hex_iff 64) by (try lia; change (2 ^ 64) with (16 ^ 16); apply Z.pow_le_mono_r; lia).
  unfold parse_fixed_hex_u64. destruct (not_fixed_hex _ _); [split; [done|by intros [? _]]|].
  rewrite ok_or_Ok. tauto.
Qed.

(** [hex::encode] of a byte string *)
Definition hex_encode (b : bytes) : bytes := concat (map (fun x => fixed_digits 16 2 (byte.unsigned x)) b).

Lemma hex_nibble_to_digit x : is_lower_hex x = true -> to_digit 16 x = Some (hex_nibble x).
Proof.
  unfold is_lower_hex, to_digit, hex_nibble, is_ascii_digit, is_ascii_lowercase, is_ascii_uppercase, byte_between.
  intros H. repeat case_match; try lia; done.
Qed.

Lemma hex_pair_iff a b x :
  is_lower_hex a = true /\ is_lower_hex b = true /\ x = byte.of_Z (hex_nibble a * 16 + hex_nibble b)
  <-> [a; b] = fixed_digits 16 2 (byte.unsigned x).
Proof.
  pose proof (byte.unsigned_range x) as Hx. split.
  - intros (Ha & Hb & ->).
    pose proof (to_digit_range _ _ _ (hex_nibble_to_digit a Ha)) as Ra.
    pose proof (to_digit_range _ _ _ (hex_nibble_to_digit b Hb)) as Rb.
    destruct (canonical_to_digit 16 a) as (da & Hda & Ea); [by rewrite <- is_lower_hex_canonical|].
    destruct (canonical_to_digit 16 b) as (db & Hdb & Eb); [by rewrite <- is_lower_hex_canonical|].
    rewrite hex_nibble_to_digit in Hda, Hdb by done. injection Hda as Hda. injection Hdb as Hdb.
    rewrite byte.unsigned_of_Z. unfold byte.wrap. rewrite Z.mod_small by lia. cbn [fixed_digits app].
    rewrite Z.add_comm, Z.div_add, Z.mod_add by lia. rewrite (Z.div_small (hex_nibble b)), (Z.mod_small (hex_nibble b)) by lia.
    rewrite Z.add_0_l, Z.mod_small by lia. rewrite Hda, Hdb. by rewrite Ea, Eb.
  - cbn [fixed_digits app]. intros [= -> ->].
    assert (0 <= byte.unsigned x / 16 < 16) as H1.
    { split; [apply Z.div_pos; lia|apply Z.div_lt_upper_bound; lia]. }
    assert (0 <= byte.unsigned x mod 16 < 16) as H2 by (apply Z.mod_pos_bound; lia).
    rewrite (Z.mod_small (byte.unsigned x / 16)) by lia.
    rewrite !is_lower_hex_canonical, !digit_byte_canonical by lia. split_and!; [done..|].
    assert (forall d, 0 <= d < 16 -> hex_nibble (digit_byte d) = d) as Hn.
    { intros d Hd. enough (Some (hex_nibble (digit_byte d)) = Some d) as [= E] by done.
      rewrite <- hex_nibble_to_digit by (rewrite is_lower_hex_canonical; apply digit_byte_canonical; lia).
      apply to_digit_byte; lia. }
    rewrite !Hn by lia. apply byte.unsigned_inj. rewrite byte.unsigned_of_Z. unfold byte.wrap.
    rewrite Z.mod_small; pose proof (Z.div_mod (byte.unsigned x) 16); lia.
Qed.

Lemma length_hex_encode hash : length (hex_encode hash) = (2 * length hash)%nat.
Proof.
  induction hash as [|x hash IH]; [done|]. unfold hex_encode in *. cbn [map concat length].
  rewrite length_app, IH. cbn. lia.
Qed.

Lemma parse_fixed_hex_32_Ok value hash :
  parse_fixed_hex_32 value = Ok hash <-> length hash = 32%nat /\ value = hex_encode hash.
Proof.
  assert (forall n value hash, length value = (2 * n)%nat ->
    forallb is_lower_hex value = true /\ hex_pairs value = hash <-> value = hex_encode hash /\ length hash = n) as Hpairs.
  { clear. induction n as [|n IH]; intros value hash Hl.
    - destruct value; [|done]. destruct hash; cbn; naive_solver.
    - destruct value as [|a [|b value]]; [done|cbn in Hl; lia|]. specialize (IH value).
      destruct hash as [|x hash]; [cbn; naive_solver|]. cbn [forallb hex_pairs hex_encode map concat length].
      change (concat _) with (hex_encode hash) at 1. specialize (IH hash ltac:(cbn in Hl; lia)).
      rewrite !andb_true_iff. change (a :: b :: value) with ([a; b] ++ value). split.
      + intros [(H1 & H2 & H3) [= Hx Hh]]. assert ([a; b] = fixed_digits 16 2 (byte.unsigned x)) as ->.
        { apply hex_pair_iff. done. }
        destruct (proj1 IH (conj H3 Hh)) as [-> <-]. done.
      + intros [Hv [= Hn]]. apply app_inj_1 in Hv as [Hab Hv]; [|done].
        apply hex_pair_iff in Hab as (H1 & H2 & H3). destruct (proj2 IH (conj Hv Hn)) as [H4 H5].
        rewrite H3, H5. done. }
  unfold parse_fixed_hex_32, not_fixed_hex. split.
  - case_match eqn:Hn; [done|]. intros [= <-]. rewrite orb_false_iff, !negb_false_iff in Hn. destruct Hn as [Hl Hx].
    unfold blen in Hl. destruct (proj1 (Hpairs 32%nat value _ ltac:(lia)) (conj Hx eq_refl)). done.
  - intros [Hl Hv].
    assert (length value = 64%nat) as Hv64 by (rewrite Hv, length_hex_encode; lia).
    destruct (proj2 (Hpairs 32%nat value hash Hv64) (conj Hv Hl)) as [-> ->]. unfold blen. by rewrite Hv64.
Qed.

(** ** Base64 round-trips *)
Lemma base64_value_spec x v : base64_value x = Some v <-> 0 <= v < 64 /\ x = alphabet v.
Proof.
  split.
  - assert (match base64_value x with
            | Some v => (0 <=? v) && (v <? 64) && bool_decide (x = alphabet v)
            | None => true
            end = true) as H by (destruct x; vm_compute; reflexivity).
    intros E. rewrite E in H. rewrite !andb_true_iff, bool_decide_eq_true in H. split; [lia|tauto].
  - intros [Hv ->].
    assert (forallb (fun n => bool_decide (base64_value (alphabet (Z.of_nat n)) = Some (Z.of_nat n))) (seq 0 64) = true) as H
      by (vm_compute; reflexivity).
    rewrite forallb_forall in H. specialize (H (Z.to_nat v)).
    rewrite Z2Nat.id, bool_decide_eq_true in H by lia. apply H, in_seq. lia.
Qed.

Lemma sextet_Ok x v : sextet x = Ok v <-> 0 <= v < 64 /\ x = alphabet v.
Proof. unfold sextet. rewrite <- base64_value_spec. destruct (base64_value x); naive_solver. Qed.

Lemma sextet_alphabet v : 0 <= v < 64 -> sextet (alphabet v) = Ok v.
Proof. intros H. by apply sextet_Ok. Qed.

Lemma lor_disjoint h l k : 0 <= k -> 0 <= l < 2 ^ k -> Z.lor (h * 2 ^ k) l = h * 2 ^ k + l.
Proof.
  intros Hk Hl. rewrite <- Z.add_lor_land.
  assert (Z.land (h * 2 ^ k) l = 0) as ->; [|lia].
  apply Z.bits_inj'. intros i Hi. rewrite Z.land_spec, Z.bits_0, <- Z.shiftl_mul_pow2 by done.
  destruct (Z.lt_ge_cases i k).
  - by rewrite Z.shiftl_spec_low.
  - rewrite <- (Z.mod_small l (2 ^ k)) by lia. rewrite Z.mod_pow2_bits_high by lia. apply andb_false_r.
Qed.

Lemma land_mask v k : 0 <= k -> Z.land v (2 ^ k - 1) = v mod 2 ^ k.
Proof. intros Hk. rewrite <- Z.land_ones by done. by rewrite Z.ones_equiv, Z.sub_1_r. Qed.

(** The shifts of the two directions as arithmetic. *)
Lemma push_shifted_4 a b : 0 <= a < 64 -> 0 <= b < 64 -> push_shifted a 2 b 4 = byte.of_Z (a * 4 + b / 16).
Proof.
  intros Ha Hb. unfold push_shifted. rewrite Z.shiftl_mul_pow2, Z.shiftr_div_pow2 by lia.
  change 0xFF with (2 ^ 8 - 1). rewrite land_mask, Z.mod_small by lia.
  rewrite lor_disjoint; [done|lia|]. split; [apply Z.div_pos; lia|apply Z.div_lt_upper_bound; lia].
Qed.

Lemma push_shifted_2 b c : 0 <= b < 64 -> 0 <= c < 64 -> push_shifted b 4 c 2 = byte.of_Z (b mod 16 * 16 + c / 4).
Proof.
  intros Hb Hc. unfold push_shifted. rewrite Z.shiftl_mul_pow2, Z.shiftr_div_pow2 by lia.
  change 0xFF with (2 ^ 8 - 1). rewrite land_mask by lia.
  replace ((b * 2 ^ 4) mod 2 ^ 8) with (b mod 16 * 2 ^ 4).
  2:{ change (2 ^ 8) with (16 * 2 ^ 4). by rewrite Z.mul_mod_distr_r. }
  rewrite lor_disjoint; [done|lia|]. split; [apply Z.div_pos; lia|apply Z.div_lt_upper_bound; lia].
Qed.

Lemma push_shifted_0 c d : 0 <= c < 64 -> 0 <= d < 64 -> push_shifted c 6 d 0 = byte.of_Z (c mod 4 * 64 + d).
Proof.
  intros Hc Hd. unfold push_shifted. rewrite Z.shiftl_mul_pow2, Z.shiftr_0_r by lia.
  change 0xFF with (2 ^ 8 - 1). rewrite land_mask by lia.
  replace ((c * 2 ^ 6) mod 2 ^ 8) with (c mod 4 * 2 ^ 6).
  2:{ change (2 ^ 8) with (4 * 2 ^ 6). by rewrite Z.mul_mod_distr_r. }
  rewrite lor_disjoint; [done|lia|lia].
Qed.

Lemma index_1 x : Z.shiftr x 2 = x / 4.
Proof. by rewrite Z.shiftr_div_pow2 by lia. Qed.

Lemma index_2 x y : 0 <= y < 256 -> Z.lor (Z.shiftl (Z.land x 3) 4) (Z.shiftr y 4) = x mod 4 * 16 + y / 16.
Proof.
  intros Hy. change 3 with (2 ^ 2 - 1). rewrite land_mask, Z.shiftl_mul_pow2, Z.shiftr_div_pow2 by lia.
  rewrite lor_disjoint; [done|lia|]. split; [apply Z.div_pos; lia|apply Z.div_lt_upper_bound; lia].
Qed.

Lemma index_3 y z : 0 <= z < 256 -> Z.lor (Z.shiftl (Z.land y 15) 2) (Z.shiftr z 6) = y mod 16 * 4 + z / 64.
Proof.
  intros Hz. change 15 with (2 ^ 4 - 1). rewrite land_mask, Z.shiftl_mul_pow2, Z.shiftr_div_pow2 by lia.
  rewrite lor_disjoint; [done|lia|]. split; [apply Z.div_pos; lia|apply Z.div_lt_upper_bound; lia].
Qed.

Lemma index_4 z : Z.land z 63 = z mod 64.
Proof. change 63 with (2 ^ 6 - 1). by rewrite land_mask. Qed.

Lemma index_2' x : Z.shiftl (Z.land x 3) 4 = x mod 4 * 16.
Proof. change 3 with (2 ^ 2 - 1). by rewrite land_mask, Z.shiftl_mul_pow2 by lia. Qed.

Lemma index_3' y : Z.shiftl (Z.land y 15) 2 = y mod 16 * 4.
Proof. change 15 with (2 ^ 4 - 1). by rewrite land_mask, Z.shiftl_mul_pow2 by lia. Qed.

Lemma unsigned_of_small v : 0 <= v < 256 -> byte.unsigned (byte.of_Z v) = v.
Proof. intros H. rewrite byte.unsigned_of_Z. by apply Z.mod_small. Qed.

Ltac divmod := Z.to_euclidean_division_equations; lia.

(** A group of digits is exactly the encoding of the bytes it stands for. *)
Lemma base64_loop_encode out : base64_loop (canonical_base64_encode out) = Ok out.
Proof.
  assert (forall n out, (length out <= n)%nat -> base64_loop (canonical_base64_encode out) = Ok out) as H; [|by eapply H].
  clear out. induction n as [|n IH]; intros out Hl.
  { destruct out; [done|cbn in Hl; lia]. }
  destruct out as [|x [|y [|z out]]]; [done|..]; cbn [canonical_base64_encode base64_loop];
    pose proof (byte.unsigned_range x) as Hx;
    try pose proof (byte.unsigned_range y) as Hy; try pose proof (byte.unsigned_range z) as Hz;
    rewrite ?index_1, ?index_2, ?index_3, ?index_4, ?index_2', ?index_3' by lia.
  - rewrite !sextet_alphabet by divmod. cbn [mbind result_bind].
    change 0x0F with (2 ^ 4 - 1). rewrite land_mask by lia.
    replace (_ =? 0) with true by divmod. cbn [negb reject_if]. rewrite push_shifted_4 by divmod.
    cbn. do 2 f_equal. apply byte.unsigned_inj. rewrite unsigned_of_small; divmod.
  - rewrite !sextet_alphabet by divmod. cbn [mbind result_bind].
    change 0x03 with (2 ^ 2 - 1). rewrite land_mask by lia.
    replace (_ =? 0) with true by divmod. cbn [negb reject_if].
    rewrite push_shifted_4, push_shifted_2 by divmod.
    cbn. do 2 f_equal; [|f_equal]; apply byte.unsigned_inj; rewrite unsigned_of_small; divmod.
  - rewrite !sextet_alphabet by divmod. cbn [mbind result_bind].
    rewrite IH by (cbn in Hl; lia). cbn [mbind result_bind].
    rewrite push_shifted_4, push_shifted_2, push_shifted_0 by divmod.
    cbn. do 2 f_equal; [|f_equal; [|f_equal]]; apply byte.unsigned_inj; rewrite unsigned_of_small; divmod.
Qed.

Lemma base64_loop_Ok value out : base64_loop value = Ok out -> value = canonical_base64_encode out.
Proof.
  assert (forall n value out, (length value <= n)%nat -> base64_loop value = Ok out -> value = canonical_base64_encode out)
    as H; [|by eapply H].
  clear value out. induction n as [|n IH]; intros value out Hl H.
  { destruct value; [by injection H as <-|cbn in Hl; lia]. }
  destruct value as [|a [|b [|c [|d value]]]]; cbn [base64_loop] in H; [by injection H as <-|done|..]; ok_inv;
    rewrite ?negb_false_iff in *;
    repeat match goal with H : sextet _ = Ok _ |- _ => apply sextet_Ok in H as [? ->] end;
    repeat match goal with H : base64_loop _ = Ok _ |- _ => apply IH in H as ->; [|cbn in Hl; lia] end;
    cbn [canonical_base64_encode]; rewrite ?push_shifted_4, ?push_shifted_2, ?push_shifted_0 by lia;
    rewrite ?index_1, ?index_2, ?index_3, ?index_4, ?index_2', ?index_3' by apply byte.unsigned_range;
    rewrite !unsigned_of_small by divmod.
  - change 0x0F with (2 ^ 4 - 1) in *. rewrite land_mask in * by lia. repeat f_equal; divmod.
  - change 0x03 with (2 ^ 2 - 1) in *. rewrite land_mask in * by lia. repeat f_equal; divmod.
  - repeat f_equal; divmod.
Qed.

(** What the loop accepts passes the checks in front of it. *)
Lemma base64_checks value out :
  base64_loop value = Ok out -> blen value mod 4 <> 1 /\ forall x, x ∈ value -> base64_value x <> None.
Proof.
  assert (forall n value out, (length value <= n)%nat -> base64_loop value = Ok out ->
    blen value mod 4 <> 1 /\ forall x, x ∈ value -> base64_value x <> None) as H; [|by eapply H].
  clear value out. induction n as [|n IH]; intros value out Hl H.
  { destruct value; [|cbn in Hl; lia]. split; [done|]. intros x Hx. by apply not_elem_of_nil in Hx. }
  assert (forall x v, sextet x = Ok v -> base64_value x <> None) as Hs.
  { intros x v. unfold sextet. by destruct (base64_value x). }
  destruct value as [|a [|b [|c [|d value]]]]; cbn [base64_loop] in H; [|done|..].
  1: { split; [done|]. intros x Hx. by apply not_elem_of_nil in Hx. }
  all: ok_inv; repeat match goal with H : sextet _ = Ok _ |- _ => apply Hs in H end.
  1,2: split; [done|]; intros w Hw; rewrite ?elem_of_cons, elem_of_nil in Hw; naive_solver.
  match goal with H : base64_loop _ = Ok _ |- _ => apply IH in H as [IH1 IH2]; [|cbn in Hl; lia] end.
  split.
  - unfold blen in *. cbn [length]. replace (Z.of_nat (S (S (S (S (length value)))))) with (Z.of_nat (length value) + 1 * 4) by lia.
    by rewrite Z.mod_add.
  - intros w Hw. rewrite !elem_of_cons in Hw. naive_solver.
Qed.

Lemma canonical_base64_decode_Ok value out :
  canonical_base64_decode value = Ok out <-> value = canonical_base64_encode out.
Proof.
  unfold canonical_base64_decode. split.
  - intros H. ok_inv. by apply base64_loop_Ok.
  - intros ->. pose proof (base64_loop_encode out) as H. destruct (base64_checks _ _ H) as [Hl Hv].
    assert (EQUALS ∉ canonical_base64_encode out) as Heq.
    { intros Hin%Hv. apply Hin. reflexivity. }
    rewrite bool_decide_eq_false_2 by done.
    replace (existsb _ _) with false.
    2:{ symmetry. apply existsb_Forall, Forall_forall. intros x Hx. apply bool_decide_eq_false. auto. }
    cbn [orb reject_if]. rewrite bind_ret. replace (_ =? 1) with false by lia. exact H.
Qed.

Lemma canonical_base64_decode_no_panic value : canonical_base64_decode value <> Panic.
Proof.
  unfold canonical_base64_decode. apply bind_no_panic; [apply reject_if_no_panic|]. intros [] Hc.
  apply bind_no_panic; [apply reject_if_no_panic|]. intros [] Hl.
  apply reject_if_Ok, orb_false_iff in Hc as [_ Hc]. rewrite existsb_Forall, Forall_forall in Hc.
  assert (forall x, x ∈ value -> sextet x <> Panic) as Hs.
  { intros x Hx%Hc. apply bool_decide_eq_false in Hx. unfold sextet. by destruct (base64_value x). }
  apply reject_if_Ok in Hl. clear Hc.
  enough (forall n value, (length value <= n)%nat -> blen value mod 4 <> 1 ->
    (forall x, x ∈ value -> sextet x <> Panic) -> base64_loop value <> Panic) as H by (eapply H; [done|lia|done]).
  clear. induction n as [|n IH]; intros value Hlen Hl Hs.
  { destruct value; [done|cbn in Hlen; lia]. }
  destruct value as [|a [|b [|c [|d value]]]]; cbn [base64_loop]; [done|done|..].
  all: repeat (apply bind_no_panic; [first [apply reject_if_no_panic|apply Hs; rewrite !elem_of_cons; tauto|idtac]|intros ? _]);
    try done.
  apply IH; [cbn in Hlen; lia| |intros x Hx; apply Hs; rewrite !elem_of_cons; tauto].
  intros E. apply Hl. unfold blen in *. cbn [length].
  replace (Z.of_nat (S (S (S (S (length value)))))) with (Z.of_nat (length value) + 1 * 4) by lia. by rewrite Z.mod_add.
Qed.

(** ** Percent-encoded names round-trip *)
Lemma upper_hex_digit_nibble d :
  0 <= d < 16 -> is_upper_hex (upper_hex_digit d) = true /\ hex_nibble (upper_hex_digit d) = d.
Proof.
  intros Hd. unfold upper_hex_digit, is_upper_hex, hex_nibble, is_ascii_digit, byte_between.
  rewrite !unsigned_of_small by (case_match; lia). repeat case_match; lia.
Qed.

Lemma upper_hex_digit_of h : is_upper_hex h = true -> 0 <= hex_nibble h < 16 /\ upper_hex_digit (hex_nibble h) = h.
Proof.
  unfold is_upper_hex, upper_hex_digit, hex_nibble, is_ascii_digit, byte_between.
  intros H. split; [repeat case_match; lia|]. apply byte.unsigned_inj.
  rewrite unsigned_of_small; repeat case_match; lia.
Qed.

Lemma percent_not_literal : literal_name_byte PERCENT = false.
Proof. reflexivity. Qed.

Lemma decode_percent_cons x rest out :
  decode_percent_name (encode_name_byte x ++ rest) = Ok out <->
  x <> Byte.x00 /\ exists tail, out = x :: tail /\ decode_percent_name rest = Ok tail.
Proof.
  unfold encode_name_byte. pose proof (byte.unsigned_range x) as Hx. destruct (literal_name_byte x) eqn:Hl; cbn [app decode_percent_name].
  - assert (x <> PERCENT) by (intros ->; by rewrite percent_not_literal in Hl).
    assert (x <> Byte.x00) by (intros ->; by vm_compute in Hl).
    rewrite bool_decide_eq_false_2 by done. rewrite Hl. cbn [negb reject_if]. rewrite bind_ret, bind_Ok.
    setoid_rewrite mret_Ok. naive_solver.
  - rewrite bool_decide_eq_true_2 by done.
    destruct (upper_hex_digit_nibble (byte.unsigned x / 16)) as [H1 H2]; [divmod|].
    destruct (upper_hex_digit_nibble (byte.unsigned x mod 16)) as [H3 H4]; [divmod|].
    rewrite H1, H2, H3, H4. cbn [negb orb reject_if]. rewrite bind_ret.
    replace (byte.unsigned x / 16 * 16 + byte.unsigned x mod 16) with (byte.unsigned x)
      by (pose proof (Z.div_mod (byte.unsigned x) 16); lia).
    rewrite byte.of_Z_unsigned, Hl, orb_false_r.
    destruct (decide (x = Byte.x00)) as [->|Hne].
    + rewrite bool_decide_eq_true_2 by done. cbn. naive_solver.
    + rewrite bool_decide_eq_false_2 by done. cbn [reject_if]. rewrite bind_ret, bind_Ok.
      setoid_rewrite mret_Ok. naive_solver.
Qed.

(** Every accepted prefix is the encoding of one byte. *)
Lemma decode_percent_inv value out :
  decode_percent_name value = Ok out -> value <> [] ->
  exists x rest, value = encode_name_byte x ++ rest.
Proof.
  destruct value as [|x rest]; [done|]. cbn [decode_percent_name]. intros H _.
  case_bool_decide as Hp.
  - destruct rest as [|h [|l rest]]; [done..|]. ok_inv. subst.
    rewrite ?orb_false_iff, ?negb_false_iff in *. destruct_and?.
    repeat match goal with H : is_upper_hex _ = true |- _ => apply upper_hex_digit_of in H as [? ?] end.
    exists (byte.of_Z (hex_nibble h * 16 + hex_nibble l)), rest. unfold encode_name_byte.
    match goal with H : literal_name_byte _ = false |- _ => rewrite H end. rewrite unsigned_of_small by lia.
    replace ((hex_nibble h * 16 + hex_nibble l) / 16) with (hex_nibble h) by divmod.
    replace ((hex_nibble h * 16 + hex_nibble l) mod 16) with (hex_nibble l) by divmod. cbn. congruence.
  - ok_inv. rewrite negb_false_iff in *. exists x, rest. unfold encode_name_byte.
    match goal with H : literal_name_byte _ = true |- _ => by rewrite H end.
Qed.

Lemma encode_percent_name_Ok out value :
  encode_percent_name out = Ok value
  <-> out <> [] /\ Byte.x00 ∉ out /\ value = concat (map encode_name_byte out).
Proof.
  unfold encode_percent_name. case_match eqn:E.
  - split; [done|]. intros (H1 & H2 & _). rewrite !bool_decide_eq_false_2 in E by done. done.
  - rewrite orb_false_iff, !bool_decide_eq_false in E. naive_solver.
Qed.

Lemma decode_percent_name_Ok value out :
  decode_percent_name value = Ok out <-> Byte.x00 ∉ out /\ value = concat (map encode_name_byte out).
Proof.
  split.
  - assert (forall n value out, (length value <= n)%nat -> decode_percent_name value = Ok out ->
      Byte.x00 ∉ out /\ value = concat (map encode_name_byte out)) as H; [|by eapply H].
    clear. induction n as [|n IH]; intros value out Hl H.
    { destruct value; [|cbn in Hl; lia]. injection H as <-. split; [apply not_elem_of_nil|done]. }
    destruct (decide (value = [])) as [->|Hne].
    { injection H as <-. split; [apply not_elem_of_nil|done]. }
    destruct (decode_percent_inv _ _ H Hne) as (x & rest & ->).
    apply decode_percent_cons in H as (Hx & tail & -> & H).
    apply IH in H as [H1 H2].
    + cbn [map concat]. rewrite <- H2. split; [|done]. rewrite elem_of_cons. naive_solver.
    + rewrite length_app in Hl. unfold encode_name_byte in Hl. case_match; cbn in Hl; lia.
  - intros [Hz ->]. induction out as [|x out IH]; [done|]. cbn [map concat]. rewrite elem_of_cons in Hz.
    apply decode_percent_cons. split; [naive_solver|]. exists out. split; [done|]. apply IH. tauto.
Qed.

(** ** Timestamps round-trip *)
Lemma split_once_Some sep b l r : split_once sep b = Some (l, r) <-> b = l ++ sep :: r /\ sep ∉ l.
Proof.
  revert l. induction b as [|x b IH]; intros l; cbn.
  { split; [done|]. intros [H _]. by destruct l. }
  case_bool_decide as Hx.
  - subst. split; [intros [= <- <-]; split; [done|apply not_elem_of_nil]|].
    intros [H Hl]. destruct l as [|y l]; [by injection H as ->|]. injection H as <- H. rewrite elem_of_cons in Hl. tauto.
  - destruct (split_once sep b) as [[l' r']|] eqn:E.
    + split.
      * intros [= <- <-]. destruct (proj1 (IH l') eq_refl) as [-> H]. split; [done|]. rewrite elem_of_cons. naive_solver.
      * intros [H Hl]. destruct l as [|y l]; [by injection H as ->|]. injection H as <- H.
        rewrite elem_of_cons in Hl. enough (Some (l', r') = Some (l, r)) as [= -> ->] by done. apply IH. tauto.
    + split; [done|]. intros [H Hl]. destruct l as [|y l]; [by injection H as ->|]. injection H as <- H.
      rewrite elem_of_cons in Hl. enough (None = Some (l, r)) by done. apply IH. tauto.
Qed.

Lemma split_once_None sep b : split_once sep b = None <-> sep ∉ b.
Proof.
  split.
  - intros H Hin. apply list_elem_of_split_l in Hin as (l & r & -> & Hl).
    by rewrite (proj2 (split_once_Some sep _ l r) (conj eq_refl Hl)) in H.
  - intros H. destruct (split_once sep b) as [[l r]|] eqn:E; [|done].
    apply split_once_Some in E as [-> _]. exfalso. apply H. rewrite elem_of_app, elem_of_cons. tauto.
Qed.

Lemma trim_end_matches_app p a r :
  Forall (fun x => p x = true) r -> (forall x, last a = Some x -> p x = false) -> trim_end_matches p (a ++ r) = a.
Proof.
  intros Hr Ha. unfold trim_end_matches. rewrite reverse_app.
  assert (drop_while p (reverse r ++ reverse a) = drop_while p (reverse a)) as ->.
  { apply Forall_reverse in Hr. induction Hr as [|x r' Hx _ IH]; [done|]. cbn. by rewrite Hx. }
  destruct a as [|x a _] using rev_ind; [done|]. rewrite last_snoc in Ha. rewrite reverse_snoc. cbn [drop_while].
  by rewrite (Ha x eq_refl), reverse_cons, reverse_involutive.
Qed.

(** The text of a nanosecond fraction. *)
Definition fraction_text (n : Z) : bytes :=
  trim_end_matches (fun x => bool_decide (x = ZERO)) (fixed_digits 10 9 n).

Lemma ZERO_digit : ZERO = digit_byte 0.
Proof. reflexivity. Qed.

Lemma num_app radix acc ds es : num radix acc (ds ++ es) = num radix (num radix acc ds) es.
Proof. apply fold_left_app. Qed.

(** A list of digits without its zeros at the end. *)
Lemma strip_zeros ds : exists a k, ds = a ++ replicate k 0 /\ last a <> Some 0.
Proof.
  induction ds as [|d ds (a & k & Hds & Ha)] using rev_ind; [by exists [], 0%nat|].
  destruct (decide (d = 0)) as [->|Hd].
  - exists a, (S k). split; [|done]. by rewrite Hds, <- app_assoc, replicate_S_end.
  - exists (ds ++ [d]), 0%nat. split; [by rewrite app_nil_r|]. rewrite last_snoc. congruence.
Qed.

Lemma last_map {A B} (f : A -> B) l : last (map f l) = f <$> last l.
Proof. induction l as [|x l IH] using rev_ind; [done|]. rewrite map_app. cbn [map]. by rewrite !last_snoc. Qed.

Lemma trim_digits pre a k :
  digits_ok 10 a -> last a <> Some 0 -> a <> [] ->
  trim_end_matches (fun x => bool_decide (x = ZERO)) (pre ++ map digit_byte (a ++ replicate k 0))
  = pre ++ map digit_byte a.
Proof.
  intros Hd Hl Hne. rewrite map_app, app_assoc. apply trim_end_matches_app.
  - rewrite ZERO_digit. apply Forall_forall. intros x. change (map digit_byte (replicate k 0)) with (digit_byte <$> replicate k 0).
    rewrite fmap_replicate. intros [-> _]%elem_of_replicate. by apply bool_decide_eq_true.
  - intros x. rewrite last_app. destruct a as [|d a _] using rev_ind; [done|].
    rewrite last_map, last_snoc. cbn. intros [= <-]. apply bool_decide_eq_false. rewrite ZERO_digit. intros E.
    apply Forall_app in Hd as [_ [Hd _]%Forall_cons]. apply digit_byte_inj in E; [|lia..]. rewrite last_snoc in Hl. congruence.
Qed.

Lemma num_zeros k acc : num 10 acc (replicate k 0) = acc * 10 ^ Z.of_nat k.
Proof.
  induction k as [|k IH]; [cbn; lia|]. rewrite replicate_S_end, num_snoc, IH, Nat2Z.inj_succ, Z.pow_succ_r by lia. lia.
Qed.

Lemma digits_ok_zeros k : digits_ok 10 (replicate k 0).
Proof. apply Forall_replicate. lia. Qed.

(** The digits of a fraction that is not zero. *)
Lemma fraction_digits n :
  0 < n < 1000000000 ->
  exists a, digits_ok 10 a /\ a <> [] /\ last a <> Some 0 /\ (length a <= 9)%nat
            /\ num 10 0 (a ++ replicate (9 - length a) 0) = n
            /\ fixed_digits 10 9 n = map digit_byte (a ++ replicate (9 - length a) 0)
            /\ fraction_text n = map digit_byte a.
Proof.
  intros Hn. destruct (fixed_digits_spec 10 9 n) as (ds & Hf & Hd & Hl & Hv); [lia|change (10 ^ Z.of_nat 9) with 1000000000; lia|].
  destruct (strip_zeros ds) as (a & k & -> & Ha). rewrite length_app, length_replicate in Hl.
  assert (k = 9 - length a)%nat as -> by lia. apply Forall_app in Hd as [Hd _].
  assert (a <> []) as Hne.
  { intros ->. rewrite num_app, num_zeros in Hv. unfold num in Hv. cbn in Hv. lia. }
  exists a. split_and!; try done; [lia|]. unfold fraction_text. rewrite Hf. by apply (trim_digits []).
Qed.

Lemma fraction_iff F n :
  (not_canonical_fraction F = false
   /\ from_str_radix 32 10 (F ++ replicate (9 - length F) ZERO) = Some n)
  <-> 0 < n < 1000000000 /\ F = fraction_text n.
Proof.
  assert (forall a, digits_ok 10 a -> a <> [] -> (length a <= 9)%nat ->
    from_str_radix 32 10 (map digit_byte a ++ replicate (9 - length (map digit_byte a)) ZERO)
    = Some (num 10 0 (a ++ replicate (9 - length a) 0))
    /\ num 10 0 (a ++ replicate (9 - length a) 0) < 1000000000) as Hfrom.
  { intros a Hd Hne Hl. rewrite length_map, ZERO_digit.
    replace (replicate (9 - length a) (digit_byte 0)) with (map digit_byte (replicate (9 - length a) 0))
      by apply fmap_replicate.
    rewrite <- map_app.
    assert (digits_ok 10 (a ++ replicate (9 - length a) 0)) as Hd' by (apply Forall_app; split; [done|apply digits_ok_zeros]).
    pose proof (num_bound 10 _ ltac:(lia) Hd') as Hb. rewrite length_app, length_replicate in Hb.
    replace (length a + (9 - length a))%nat with 9%nat in Hb by lia. change (10 ^ Z.of_nat 9) with 1000000000 in Hb.
    rewrite from_str_radix_digits; [|lia..|done|by destruct a].
    replace (_ <? 2 ^ 32) with true by lia. split; [done|lia]. }
  unfold not_canonical_fraction, ends_with_byte. rewrite (forallb_ext' _ _ _ is_ascii_digit_canonical). split.
  - intros [Hc Hn]. rewrite !orb_false_iff, negb_false_iff, !bool_decide_eq_false in Hc. destruct Hc as [[[H1 H2] H3] H4].
    apply all_digits in H3 as (a & Hd & ->); [|lia]. unfold blen in H2. rewrite length_map in H2.
    assert (a <> []) as Hne by (intros ->; by apply H1).
    assert (last a <> Some 0) as Ha by (intros E; apply H4; by rewrite last_map, E).
    destruct (Hfrom a Hd Hne ltac:(lia)) as [E Hb]. rewrite E in Hn. injection Hn as <-.
    assert (0 < num 10 0 (a ++ replicate (9 - length a) 0)) as Hpos.
    { rewrite num_app, num_zeros. enough (0 < num 10 0 a) by nia.
      destruct a as [|d a _] using rev_ind; [done|]. rewrite num_snoc, last_snoc in *.
      apply Forall_app in Hd as [Hda [Hd _]%Forall_cons]. pose proof (num_bound 10 a ltac:(lia) Hda).
      assert (d <> 0) by congruence. lia. }
    split; [lia|]. unfold fraction_text.
    assert (digits_ok 10 (a ++ replicate (9 - length a) 0)) as Hd' by (apply Forall_app; split; [done|apply digits_ok_zeros]).
    pose proof (fixed_digits_num 10 _ ltac:(lia) Hd') as Hf. rewrite length_app, length_replicate in Hf.
    replace (length a + (9 - length a))%nat with 9%nat in Hf by lia. rewrite Hf. symmetry. by apply (trim_digits []).
  - intros [Hn ->]. destruct (fraction_digits n Hn) as (a & Hd & Hne & Ha & Hl & Hv & _ & ->).
    destruct (Hfrom a Hd Hne Hl) as [-> _]. rewrite digits_canonical by (done || lia). unfold blen. rewrite length_map, last_map.
    split; [|by rewrite Hv]. rewrite !bool_decide_eq_false_2; [by replace (9 <? _) with false by lia| |by destruct a].
    intros E. destruct (last a) as [d|] eqn:El; [|done]. cbn in E. injection E as E. rewrite ZERO_digit in E.
    apply digit_byte_inj in E; [by subst| |lia]. apply last_Some in El as [a' ->].
    apply Forall_app in Hd as [_ [Hd _]%Forall_cons]. lia.
Qed.

Lemma digit_byte_neq d x : 0 <= d < 10 -> byte.unsigned x < 0x30 -> digit_byte d <> x.
Proof. intros Hd Hx <-. rewrite unsigned_digit_byte in Hx by lia. case_match; lia. Qed.

Lemma parse_i64_digits sign ds :
  digits_ok 10 ds -> ds <> [] -> sign = 1 \/ sign = -1 ->
  parse_digits 10 (- 2 ^ 63) (2 ^ 63) sign 0 (map digit_byte ds)
  = in_range (- 2 ^ 63) (2 ^ 63) (sign * num 10 0 ds).
Proof.
  intros Hd Hne Hs.
  assert (mapM (to_digit 10) (map digit_byte ds) = Some ds) as Hm by (by eapply canonical_digits_iff; [lia|]).
  destruct (in_range _ _ (sign * num 10 0 ds)) as [v|] eqn:E.
  - apply in_range_Some in E as [-> Hv]. apply parse_digits_Some; [lia|lia|done|lia|lia|].
    exists ds. rewrite Z.mul_0_r. done.
  - destruct (parse_digits _ _ _ _ _ _) as [v|] eqn:P; [|done].
    apply parse_digits_Some in P as (ds' & Hm' & -> & Hv); [|lia|lia|done|lia|lia].
    rewrite Hm in Hm'. injection Hm' as <-. rewrite Z.mul_0_r in Hv. unfold in_range in E. case_match; [done|lia].
Qed.

Lemma integer_iff I s :
  (I <> ascii "-0" /\ not_minimal_decimal (strip_minus I) = false /\ parse_i64 I = Some s)
  <-> i64 s /\ I = i64_to_string s.
Proof.
  unfold i64, i64_to_string. split.
  - intros (Hz & Hm & Hp). destruct I as [|x I]; [done|]. cbn [strip_minus] in Hm.
    assert (forall v, not_minimal_decimal v = false -> exists ds, digits_ok 10 ds /\ minimal ds /\ v = map digit_byte ds) as Hd.
    { intros v Hv. assert (forallb is_ascii_digit v = true) as Hall.
      { unfold not_minimal_decimal in Hv. rewrite !orb_false_iff, negb_false_iff in Hv. tauto. }
      rewrite (forallb_ext' _ _ _ is_ascii_digit_canonical) in Hall.
      apply all_digits in Hall as (ds & Hd & ->); [|lia]. exists ds. split_and!; [done| |done].
      by apply not_minimal_decimal_digits. }
    unfold parse_i64 in Hp. destruct (decide (x = MINUS)) as [->|Hx].
    + rewrite bool_decide_eq_true_2 in Hm by done.
      rewrite (bool_decide_eq_true_2 (MINUS = PLUS \/ MINUS = MINUS)) in Hp by auto.
      rewrite (bool_decide_eq_true_2 (MINUS = MINUS)) in Hp by done.
      destruct (Hd _ Hm) as (ds & Hok & Hmin & ->).
      assert (ds <> []) as Hne by (by destruct Hmin).
      rewrite bool_decide_eq_false_2 in Hp by (by destruct ds).
      rewrite parse_i64_digits in Hp by auto. apply in_range_Some in Hp as [-> Hr].
      pose proof (num_bound 10 ds ltac:(lia) Hok) as Hb.
      assert (num 10 0 ds <> 0) as Hnz.
      { intros E. destruct (decide (head ds = Some 0)) as [Hh|Hh].
        - destruct ds as [|d [|d' ds]]; [done| |].
          + injection Hh as ->. by apply Hz.
          + destruct Hmin as [_ Hmin]. apply Hmin; [cbn; lia|done].
        - pose proof (num_pos ds Hok Hne Hh). lia. }
      split; [lia|]. replace (-1 * num 10 0 ds <? 0) with true by lia.
      replace (- (-1 * num 10 0 ds)) with (num 10 0 ds) by lia. rewrite to_decimal_num; [done..|lia].
    + rewrite bool_decide_eq_false_2 in Hm by done. destruct (Hd _ Hm) as (ds & Hok & Hmin & E).
      assert (ds <> []) as Hne by (by destruct Hmin).
      assert (x <> PLUS) as Hplus.
      { destruct ds as [|d ds]; [done|]. injection E as -> _. apply Forall_cons in Hok as [Hok _].
        by apply digit_byte_neq. }
      rewrite (bool_decide_eq_false_2 (x = PLUS \/ x = MINUS)) in Hp by tauto.
      rewrite (bool_decide_eq_false_2 (x = MINUS)) in Hp by done.
      rewrite E in *. rewrite bool_decide_eq_false_2 in Hp by (by destruct ds).
      rewrite parse_i64_digits in Hp by auto. apply in_range_Some in Hp as [-> Hr].
      pose proof (num_bound 10 ds ltac:(lia) Hok) as Hb. rewrite Z.mul_1_l in *. split; [lia|].
      replace (num 10 0 ds <? 0) with false by lia. by rewrite to_decimal_num by (done || lia).
  - intros [Hs ->]. destruct (Z.ltb_spec s 0).
    + destruct (to_decimal_digits (- s)) as (ds & E & Hok & Hmin & Hv & Hh); [unfold fits; lia|]. rewrite E.
      assert (ds <> []) as Hne by (by destruct Hmin).
      assert (head ds <> Some 0) as Hh' by (intros Hx; specialize (Hh Hx); lia).
      cbn [strip_minus]. rewrite bool_decide_eq_true_2 by done. split_and!.
      * change (ascii "-0") with (MINUS :: map digit_byte [0]). intros [= E']. destruct ds as [|d [|]]; [done| |done].
        injection E' as E'. apply Forall_cons in Hok as [Hok _]. apply (digit_byte_inj d 0) in E'; [|lia..]. by subst.
      * by apply not_minimal_decimal_digits.
      * unfold parse_i64. rewrite (bool_decide_eq_true_2 (MINUS = PLUS \/ MINUS = MINUS)) by auto.
        rewrite (bool_decide_eq_true_2 (MINUS = MINUS)) by done.
        rewrite bool_decide_eq_false_2 by (by destruct ds).
        rewrite parse_i64_digits by auto. apply in_range_Some. lia.
    + destruct (to_decimal_digits s) as (ds & E & Hok & Hmin & Hv & Hh); [unfold fits; lia|]. rewrite E.
      assert (ds <> []) as Hne by (by destruct Hmin).
      destruct ds as [|d ds]; [done|]. cbn [map strip_minus].
      assert (0 <= d < 10) as Hd by (by apply Forall_cons in Hok as [? _]).
      assert (digit_byte d <> MINUS /\ digit_byte d <> PLUS) as [Hd1 Hd2] by (split; by apply digit_byte_neq).
      rewrite bool_decide_eq_false_2 by done. change (digit_byte d :: map digit_byte ds) with (map digit_byte (d :: ds)). split_and!.
      * change (ascii "-0") with (MINUS :: map digit_byte [0]). intros [= E' _]. done.
      * by apply not_minimal_decimal_digits.
      * unfold parse_i64. cbn [map]. rewrite (bool_decide_eq_false_2 (digit_byte d = PLUS \/ digit_byte d = MINUS)) by tauto.
        rewrite (bool_decide_eq_false_2 (digit_byte d = MINUS)) by done.
        rewrite bool_decide_eq_false_2 by done. change (digit_byte d :: map digit_byte ds) with (map digit_byte (d :: ds)).
        rewrite parse_i64_digits by auto. apply in_range_Some. lia.
Qed.

(** The bytes of a timestamp's text. *)
Definition number_byte (x : Byte.byte) : bool := is_ascii_digit x || bool_decide (x = MINUS).

Lemma is_ascii_utf8 b : is_ascii b = true -> utf8_valid b = true.
Proof.
  unfold is_ascii. induction b as [|x b IH]; [done|]. cbn [forallb utf8_valid]. intros [Hx Hb]%andb_true_iff.
  rewrite Hx. auto.
Qed.

Lemma map_digits_number ds : digits_ok 10 ds -> forallb number_byte (map digit_byte ds) = true.
Proof.
  intros Hd. apply forallb_forall. intros x Hx. unfold number_byte. apply orb_true_iff. left.
  rewrite is_ascii_digit_canonical. pose proof (digits_canonical 10 ds ltac:(lia) Hd) as H.
  rewrite forallb_forall in H. auto.
Qed.

Lemma i64_to_string_number s : i64 s -> forallb number_byte (i64_to_string s) = true.
Proof.
  unfold i64, i64_to_string. intros Hs. destruct (s <? 0) eqn:E.
  - destruct (to_decimal_digits (- s)) as (ds & -> & Hok & _); [unfold fits; lia|]. cbn [forallb]. by apply map_digits_number.
  - destruct (to_decimal_digits s) as (ds & -> & Hok & _); [unfold fits; lia|]. by apply map_digits_number.
Qed.

Lemma i64_to_string_not_nil s : i64 s -> i64_to_string s <> [].
Proof.
  unfold i64, i64_to_string. intros Hs. destruct (s <? 0) eqn:E; [done|].
  destruct (to_decimal_digits s) as (ds & -> & _ & [Hne _] & _); [unfold fits; lia|]. by destruct ds.
Qed.

Lemma fraction_text_number n : 0 < n < 1000000000 -> forallb number_byte (fraction_text n) = true.
Proof. intros Hn. destruct (fraction_digits n Hn) as (a & Hd & _ & _ & _ & _ & _ & ->). by apply map_digits_number. Qed.

Lemma number_not_elem b x : forallb number_byte b = true -> number_byte x = false -> x ∉ b.
Proof. intros Hb Hx Hin%list_elem_of_In. rewrite forallb_forall in Hb. by rewrite Hb in Hx. Qed.

Lemma number_ascii b : forallb number_byte b = true -> is_ascii b = true.
Proof.
  unfold is_ascii. rewrite !forallb_forall. intros H x Hx%H. unfold number_byte, is_ascii_digit, byte_between in *.
  apply orb_true_iff in Hx as [Hx|Hx]; [lia|]. apply bool_decide_eq_true in Hx as ->. reflexivity.
Qed.

Lemma is_ascii_app a b : is_ascii (a ++ b) = is_ascii a && is_ascii b.
Proof. apply forallb_app. Qed.

(** The times that a text can stand for. *)
Definition timestamp_text (value : bytes) (t : ArchiveTimestamp) : Prop :=
  exists s, i64 s /\
    (t = {| seconds := s; nanoseconds := 0 |} /\ value = i64_to_string s
     \/ exists n, 0 < n < 1000000000 /\ value = i64_to_string s ++ DOT :: fraction_text n
          /\ (0 <= s /\ t = {| seconds := s; nanoseconds := n |}
              \/ s < 0 /\ i64 (s - 1) /\ t = {| seconds := s - 1; nanoseconds := 1000000000 - n |})).

Lemma parse_timestamp_text value t : parse_timestamp value = Ok t <-> timestamp_text value t.
Proof.
  unfold parse_timestamp, timestamp_text. split.
  - intros H. rewrite !bind_Ok in H. destruct H as ([] & _ & H). rewrite bind_Ok in H. destruct H as ([] & _ & H).
    destruct (split_once DOT value) as [[I F]|] eqn:Hsplit.
    + apply split_once_Some in Hsplit as [-> _]. ok_inv; rewrite ?bool_decide_eq_false in *;
        match goal with H : parse_i64 I = Some ?s |- _ => exists s;
          destruct (proj1 (integer_iff I s)) as [Hs ->];
            [split_and!; [intros ->; by match goal with H : bytes_eqb _ _ = false |- _ => vm_compute in H end|done|done]|] end;
        (split; [done|]);
        match goal with H : match from_str_radix ?w ?r ?b with _ => _ end = Ok _ |- _ =>
          destruct (from_str_radix w r b) eqn:Hf; [|done]; injection H as H; subst end;
        match goal with H1 : not_canonical_fraction F = false, H2 : from_str_radix _ _ _ = Some ?n |- _ =>
          destruct (proj1 (fraction_iff F n) (conj H1 H2)) as [Hn ->]; right; exists n end;
        (split; [done|]); (split; [done|]).
      * right. match goal with H : in_range _ _ _ = Some _ |- _ => apply in_range_Some in H as [-> H] end.
        unfold i64. split_and!; [lia|lia|lia|done].
      * left. match goal with H : (_ <? 0) && _ = false |- _ => apply andb_false_iff in H end. split; [|done].
        match goal with H : _ \/ _ |- _ => destruct H; [lia|] end. rewrite negb_false_iff in *. lia.
    + ok_inv; rewrite ?andb_true_iff in *; destruct_and?; [done|].
      match goal with H : parse_i64 value = Some ?s |- _ => exists s;
        destruct (proj1 (integer_iff value s)) as [Hs E];
          [split_and!; [intros ->; by match goal with H : bytes_eqb _ _ = false |- _ => vm_compute in H end|done|done]|] end.
      split; [done|]. by left.
  - intros (s & Hs & Ht).
    pose proof (i64_to_string_number s Hs) as Hnum. pose proof (i64_to_string_not_nil s Hs) as Hne.
    destruct (proj2 (integer_iff (i64_to_string s) s) (conj Hs eq_refl)) as (H1 & H2 & H3).
    assert (head (i64_to_string s) <> Some PLUS) as Hplus.
    { destruct (i64_to_string s) as [|x rest] eqn:E; [done|]. intros [= ->]. by vm_compute in Hnum. }
    assert (bytes_eqb (i64_to_string s) (ascii "-0") = false) as Hz.
    { apply not_true_iff_false. by rewrite bytes_eqb_eq. }
    assert (DOT ∉ i64_to_string s) as Hdot by (by eapply number_not_elem).
    destruct Ht as [[-> ->]|(n & Hn & -> & Ht)].
    + rewrite is_ascii_utf8 by (by apply number_ascii). cbn [negb reject_if]. rewrite bind_ret.
      rewrite !bool_decide_eq_false_2 by done. cbn [orb reject_if]. rewrite bind_ret.
      rewrite (proj2 (split_once_None _ _) Hdot), Hz. cbn [reject_if]. rewrite bind_ret, H2. cbn [reject_if].
      rewrite bind_ret, H3. cbn [ok_or]. rewrite bind_ret. rewrite mret_eq, bind_ret. by rewrite andb_false_r.
    + rewrite is_ascii_utf8.
      2:{ change (DOT :: fraction_text n) with ([DOT] ++ fraction_text n). rewrite !is_ascii_app.
          by rewrite (number_ascii _ Hnum), (number_ascii _ (fraction_text_number n Hn)). }
      cbn [negb reject_if]. rewrite bind_ret.
      rewrite !bool_decide_eq_false_2 by (by destruct (i64_to_string s)). cbn [orb reject_if]. rewrite bind_ret.
      rewrite (proj2 (split_once_Some DOT _ (i64_to_string s) (fraction_text n)) (conj eq_refl Hdot)).
      rewrite Hz. cbn [reject_if]. rewrite bind_ret, H2. cbn [reject_if].
      rewrite bind_ret, H3. cbn [ok_or]. rewrite bind_ret.
      destruct (proj2 (fraction_iff (fraction_text n) n) (conj Hn eq_refl)) as [H4 H5].
      rewrite H4. cbn [reject_if]. rewrite bind_ret, H5, bind_ret. replace (n =? 0) with false by lia. cbn [negb].
      rewrite andb_true_r. destruct Ht as [[Hp ->]|(Hp & Hi & ->)].
      * by replace (s <? 0) with false by lia.
      * replace (s <? 0) with true by lia. unfold in_range, i64 in *.
        by replace ((- 2 ^ 63 <=? s - 1) && (s - 1 <? 2 ^ 63)) with true by lia.
Qed.

Lemma trim_fraction pre n :
  0 < n < 1000000000 ->
  trim_end_matches (fun x => bool_decide (x = ZERO)) (pre ++ DOT :: fixed_digits 10 9 n) = pre ++ DOT :: fraction_text n.
Proof.
  intros Hn. destruct (fraction_digits n Hn) as (a & Hd & Hne & Ha & _ & _ & Hf & Ht). rewrite Hf, Ht.
  change (DOT :: map digit_byte (a ++ replicate (9 - length a) 0)) with ([DOT] ++ map digit_byte (a ++ replicate (9 - length a) 0)).
  rewrite app_assoc, trim_digits by done. by rewrite <- app_assoc.
Qed.

Lemma canonical_timestamp_text value t :
  timestamp_typed t ->
  ArchiveTimestamp_canonical_pax_value t = Ok value <-> timestamp_text value t.
Proof.
  destruct t as [s n]. unfold timestamp_typed, i64, fits. cbn. intros [Hs Hn].
  unfold ArchiveTimestamp_canonical_pax_value, timestamp_text, i64. cbn [seconds nanoseconds].
  destruct (Z.leb_spec 1000000000 n).
  { split; [done|]. intros (s' & Hs' & [[[= -> ->] _]|(n' & Hn' & _ & [[_ [= -> ->]]|(_ & _ & [= -> ->])])]); lia. }
  destruct (Z.eqb_spec n 0) as [->|Hn0].
  { split.
    - intros [= <-]. exists s. split; [lia|]. by left.
    - intros (s' & Hs' & [[[= ->] ->]|(n' & Hn' & _ & [[_ [= ? ?]]|(_ & _ & [= ? ?])])]); [done|lia|lia]. }
  destruct (Z.ltb_spec s 0).
  - destruct (Z.eqb_spec (Z.abs s - 1) 0) as [Hw|Hw].
    + split; [done|]. intros (s' & Hs' & [[[= -> ->] _]|(n' & Hn' & _ & [[? [= -> ->]]|(? & _ & [= -> ->])])]); lia.
    + rewrite mret_eq, bind_ret, mret_Ok.
      change (MINUS :: to_decimal (Z.abs s - 1) ++ DOT :: fixed_digits 10 9 (1000000000 - n))
        with ((MINUS :: to_decimal (Z.abs s - 1)) ++ DOT :: fixed_digits 10 9 (1000000000 - n)).
      rewrite trim_fraction by lia.
      assert (MINUS :: to_decimal (Z.abs s - 1) = i64_to_string (s + 1)) as ->.
      { unfold i64_to_string. replace (s + 1 <? 0) with true by lia. do 2 f_equal. lia. }
      split.
      * intros <-. exists (s + 1). split; [lia|]. right. exists (1000000000 - n). split_and!; [lia|lia|done|].
        right. split_and!; [lia|lia|lia|]. f_equal; lia.
      * intros (s' & Hs' & [[[= -> ->] _]|(n' & Hn' & -> & [[? [= -> ->]]|(? & _ & [= -> ->])])]); [lia|lia|].
        do 2 f_equal; [lia|]. f_equal. lia.
  - rewrite mret_eq, bind_ret, mret_Ok, trim_fraction by lia. split.
    + intros <-. exists s. split; [lia|]. right. exists n. split_and!; [lia|lia|done|]. left. split; [lia|done].
    + intros (s' & Hs' & [[[= -> ->] _]|(n' & Hn' & -> & [[? [= -> ->]]|(? & _ & [= -> ->])])]); [lia|done|lia].
Qed.

Lemma timestamp_text_typed value t : timestamp_text value t -> timestamp_typed t.
Proof.
  intros (s & Hs & [[-> _]|(n & Hn & _ & [[_ ->]|(_ & Hs' & ->)])]); unfold timestamp_typed, fits; cbn; split; (done || lia).
Qed.

(** C19: Parsing a timestamp inverts writing it, in both directions: a text is
    accepted exactly when it is what [canonical_pax_value] writes for the
    result, a pair of a 64-bit and a 32-bit number.  Only two kinds of pairs
    cannot be written: those with a billion nanoseconds or more, and the last
    second before the epoch with a fraction. *)
Theorem timestamp_roundtrip value t :
  (parse_timestamp value = Ok t
   <-> timestamp_typed t /\ ArchiveTimestamp_canonical_pax_value t = Ok value)
  /\ (timestamp_typed t -> nanoseconds t < 1000000000 -> (seconds t = -1 -> nanoseconds t = 0) ->
      exists text, ArchiveTimestamp_canonical_pax_value t = Ok text /\ parse_timestamp text = Ok t).
Proof.
  split.
  - rewrite parse_timestamp_text. split.
    + intros H. pose proof (timestamp_text_typed _ _ H) as Ht. split; [done|]. by apply canonical_timestamp_text.
    + intros [Ht H]. by apply canonical_timestamp_text in H.
  - intros Ht Hn Hl.
    assert (exists text, timestamp_text text t) as [text H].
    { destruct t as [s n]. unfold timestamp_typed, fits in Ht. cbn in *. destruct Ht as [Hs Hn0].
      destruct (decide (n = 0)) as [->|Hnz]; [eexists; exists s; split; [done|by left]|].
      destruct (decide (0 <= s)) as [Hp|Hp].
      - eexists. exists s. split; [done|]. right. exists n. split_and!; [lia|lia|reflexivity|by left].
      - assert (s <> -1) by (intros E; specialize (Hl E); lia).
        eexists. exists (s + 1). unfold i64 in *. split; [lia|]. right. exists (1000000000 - n).
        split_and!; [lia|lia|reflexivity|]. right. split_and!; [lia|lia|lia|]. f_equal; lia. }
    exists text. split; [by apply canonical_timestamp_text|by apply parse_timestamp_text].
Qed.

Lemma timestamp_roundtrip_witness :
  exists text, ArchiveTimestamp_canonical_pax_value {| seconds := -2; nanoseconds := 750000000 |} = Ok text
               /\ parse_timestamp text = Ok {| seconds := -2; nanoseconds := 750000000 |}.
Proof. apply (timestamp_roundtrip []); cbn; [split; unfold i64, fits; cbn; lia|lia|lia]. Defined.

(** The parser of timestamps never panics: the digits of a fraction it has
    checked are always a number of 32 bits. *)
Lemma parse_timestamp_no_panic value : parse_timestamp value <> Panic.
Proof.
  unfold parse_timestamp. apply bind_no_panic; [apply reject_if_no_panic|intros _ _].
  apply bind_no_panic; [apply reject_if_no_panic|intros _ _].
  destruct (match split_once DOT value with Some (a, b) => (a, Some b) | None => (value, None) end) as [I F].
  do 2 (apply bind_no_panic; [apply reject_if_no_panic|intros _ _]).
  apply bind_no_panic; [apply ok_or_no_panic|intros s _].
  apply bind_no_panic.
  - destruct F as [F|]; [|done]. apply bind_no_panic; [apply reject_if_no_panic|]. intros [] Hc%reject_if_Ok.
    destruct (from_str_radix 32 10 _) eqn:E; [done|]. exfalso. pose proof Hc as Hc'.
    unfold not_canonical_fraction in Hc'. rewrite (forallb_ext' _ _ _ is_ascii_digit_canonical) in Hc'.
    rewrite !orb_false_iff, negb_false_iff, !bool_decide_eq_false in Hc'. destruct Hc' as [[[H1 H2] H3] H4].
    apply all_digits in H3 as (a & Hd & ->); [|lia]. unfold blen in H2. rewrite length_map in *.
    rewrite ZERO_digit in E. replace (replicate (9 - length a) (digit_byte 0)) with (map digit_byte (replicate (9 - length a) 0)) in E
      by apply fmap_replicate.
    rewrite <- map_app in E.
    assert (digits_ok 10 (a ++ replicate (9 - length a) 0)) as Hd' by (apply Forall_app; split; [done|apply digits_ok_zeros]).
    pose proof (num_bound 10 _ ltac:(lia) Hd') as Hb. rewrite length_app, length_replicate in Hb.
    replace (length a + (9 - length a))%nat with 9%nat in Hb by lia. change (10 ^ Z.of_nat 9) with 1000000000 in Hb.
    rewrite from_str_radix_digits in E; [|lia..|done|destruct a; [by exfalso; apply H1|done]].
    by replace (_ <? 2 ^ 32) with true in E by lia.
  - intros n _. case_match; [|done]. apply bind_no_panic; [apply ok_or_no_panic|done].
Qed.

(** ** Host times round-trip *)
Lemma NANOS_pos : 0 < NANOSECONDS_PER_SECOND.
Proof. done. Qed.

Lemma system_time_of_Some n t : system_time_of n = Some t <-> t = n /\ i64 (n / NANOSECONDS_PER_SECOND).
Proof.
  unfold system_time_of, i64. destruct (in_range _ _ _) eqn:E.
  - apply in_range_Some in E as [-> E]. split; [intros [= <-]; done|by intros [-> _]].
  - split; [done|]. intros [-> H]. unfold in_range in E. case_match; [done|lia].
Qed.

Lemma archive_timestamp_quotient t :
  SystemTime_valid t ->
  archive_timestamp_from_system_time t
  = if (t <? 0) && ((- t) / NANOSECONDS_PER_SECOND =? 2 ^ 63) then None
    else Some {| seconds := t / NANOSECONDS_PER_SECOND; nanoseconds := t mod NANOSECONDS_PER_SECOND |}.
Proof.
  intros [_ H]%system_time_of_Some. unfold archive_timestamp_from_system_time, i64_checked, i64, in_range in *.
  unfold NANOSECONDS_PER_SECOND in *. destruct (Z.leb_spec 0 t).
  - replace (t <? 0) with false by lia. cbn [andb].
    by replace ((- 2 ^ 63 <=? t / 1000000000) && (t / 1000000000 <? 2 ^ 63)) with true by lia.
  - replace (t <? 0) with true by lia. cbn [andb].
    destruct (Z.eqb_spec (- t / 1000000000) (2 ^ 63)) as [E|E].
    + rewrite E. done.
    + replace ((- 2 ^ 63 <=? - t / 1000000000) && (- t / 1000000000 <? 2 ^ 63)) with true by divmod.
      replace ((- 2 ^ 63 <=? - (- t / 1000000000)) && (- (- t / 1000000000) <? 2 ^ 63)) with true by divmod.
      destruct (Z.eqb_spec (- t mod 1000000000) 0).
      * do 2 f_equal; divmod.
      * replace ((- 2 ^ 63 <=? - (- t / 1000000000) - 1) && (- (- t / 1000000000) - 1 <? 2 ^ 63)) with true by divmod.
        do 2 f_equal; divmod.
Qed.

(** Converting a host time to an archive time and back gives the same time,
    and conversely for every archive time whose fraction is below a second;
    only the first second of the host's range has no archive time. *)
Theorem system_time_roundtrip t ts :
  (SystemTime_valid t -> archive_timestamp_from_system_time t = Some ts ->
   timestamp_typed ts /\ nanoseconds ts < NANOSECONDS_PER_SECOND
   /\ system_time_from_archive_timestamp ts = Some t)
  /\ (timestamp_typed ts -> nanoseconds ts < NANOSECONDS_PER_SECOND -> - 2 ^ 63 < seconds ts ->
      exists t, SystemTime_valid t /\ system_time_from_archive_timestamp ts = Some t
                /\ archive_timestamp_from_system_time t = Some ts).
Proof.
  assert (forall ts, timestamp_typed ts -> nanoseconds ts < NANOSECONDS_PER_SECOND ->
    system_time_from_archive_timestamp ts = Some (seconds ts * NANOSECONDS_PER_SECOND + nanoseconds ts)) as Hback.
  { intros [s n]. unfold timestamp_typed, i64, fits. cbn. intros [Hs Hn] Hlt.
    unfold system_time_from_archive_timestamp. cbn [seconds nanoseconds].
    assert ((if s <? 0 then system_time_of (0 - Z.abs s * NANOSECONDS_PER_SECOND)
             else system_time_of (0 + Z.abs s * NANOSECONDS_PER_SECOND)) = Some (s * NANOSECONDS_PER_SECOND)) as ->.
    { destruct (Z.ltb_spec s 0); apply system_time_of_Some; unfold NANOSECONDS_PER_SECOND, i64 in *; split; (lia || divmod). }
    apply system_time_of_Some. split; [done|]. unfold NANOSECONDS_PER_SECOND, i64 in *. divmod. }
  split.
  - intros Hv H. rewrite archive_timestamp_quotient in H by done. case_match; [done|]. injection H as <-.
    apply system_time_of_Some in Hv as [_ Hv].
    assert (0 <= t mod NANOSECONDS_PER_SECOND < NANOSECONDS_PER_SECOND) as Hm by (apply Z.mod_pos_bound; done).
    assert (timestamp_typed {| seconds := t / NANOSECONDS_PER_SECOND; nanoseconds := t mod NANOSECONDS_PER_SECOND |}) as Ht.
    { split; cbn; [done|]. unfold fits, NANOSECONDS_PER_SECOND in *. lia. }
    split_and!; [done|cbn; lia|]. rewrite Hback by (done || cbn; lia). cbn [seconds nanoseconds]. f_equal.
    pose proof (Z.div_mod t NANOSECONDS_PER_SECOND). unfold NANOSECONDS_PER_SECOND in *. lia.
  - intros Ht Hn Hlo. exists (seconds ts * NANOSECONDS_PER_SECOND + nanoseconds ts).
    assert (SystemTime_valid (seconds ts * NANOSECONDS_PER_SECOND + nanoseconds ts)) as Hv.
    { apply system_time_of_Some. split; [done|]. destruct Ht as [Hs Hn0]. unfold NANOSECONDS_PER_SECOND, i64, fits in *. divmod. }
    split_and!; [done|by apply Hback|]. rewrite archive_timestamp_quotient by done.
    destruct ts as [s n], Ht as [Hs Hn0]. unfold NANOSECONDS_PER_SECOND, i64, fits in *. cbn [seconds nanoseconds] in *.
    replace ((_ <? 0) && _) with false by (symmetry; apply andb_false_iff; divmod).
    do 2 f_equal; divmod.
Qed.

Lemma system_time_roundtrip_witness :
  exists t, SystemTime_valid t
    /\ system_time_from_archive_timestamp {| seconds := -2; nanoseconds := 750000000 |} = Some t
    /\ archive_timestamp_from_system_time t = Some {| seconds := -2; nanoseconds := 750000000 |}.
Proof.
  apply (system_time_roundtrip 0); cbn; [split; unfold i64, fits; cbn; lia|unfold NANOSECONDS_PER_SECOND; lia|lia].
Defined.

(** [cbn] keeps numbers as text folded. *)
#[global] Arguments to_decimal _ : simpl never.
#[global] Arguments fixed_digits _ _ _ : simpl never.
