(* ===== verification/Pax.v ===== *)
(** * Canonical PAX payloads

    [parse_canonical_pax] and [encode_canonical_pax] of
    [crates/tzap-core/src/entry_metadata.rs], and the map of records they work
    on. *)

From Stdlib Require Import Sorting.Sorted.
From stdpp Require Import sorting.
From S2P Require Import Wire Ordering Paths TextCodecs.
#[local] Open Scope Z_scope.

(** [BTreeMap<String, Vec<u8>>]: its entries in ascending order of the keys. *)
Definition PaxRecords : Type := list (bytes * bytes).

Definition PaxRecords_sorted (records : PaxRecords) : Prop := StronglySorted (fun a b => lt a.1 b.1) records.

(** [records.get(key)] *)
Fixpoint pax_get (records : PaxRecords) (key : bytes) : option bytes :=
  match records with
  | [] => None
  | (k, v) :: records => if bool_decide (k = key) then Some v else pax_get records key
  end.

(** [records.contains_key(key)] *)
Definition contains_key (records : PaxRecords) (key : bytes) : bool := bool_decide (is_Some (pax_get records key)).

(** [records.insert(key, value)] *)
Fixpoint pax_insert (key value : bytes) (records : PaxRecords) : PaxRecords :=
  match records with
  | [] => [(key, value)]
  | (k, v) :: rest =>
      match cmp key k with
      | Lt => (key, value) :: records
      | Eq => (key, value) :: rest
      | Gt => (k, v) :: pax_insert key value rest
      end
  end.

Definition MAX_LOCAL_PAX_PAYLOAD : Z := 64 * 1024 * 1024.

Definition NEWLINE : Byte.byte := Byte.x0a.

(** [slice.iter().position(|byte| *byte == x)] *)
Fixpoint position (x : Byte.byte) (b : bytes) : option Z :=
  match b with
  | [] => None
  | y :: b =>
      if bool_decide (y = x) then Some 0
      else match position x b with Some i => Some (i + 1) | None => None end
  end.

(** [key.is_empty() || !key.iter().all(|b| (0x21..=0x7e).contains(b) && *b != b'=')] *)
Definition bad_pax_key (key : bytes) : bool :=
  bool_decide (key = [])
  || negb (forallb (fun x => byte_between 0x21 0x7E x && negb (bool_decide (x = EQUALS))) key).

(** One round of the loop: the record at [cursor] and the cursor behind it. *)
Definition parse_pax_record (payload : bytes) (cursor : Z) (previous_key : option bytes)
    : fresult (bytes * bytes * Z) :=
  rest ← slice payload cursor (blen payload);
  relative_space ← ok_or (position SPACE rest) (InvalidArchive "PAX record length is missing");
  space ← ok_or (checked_add 64 cursor relative_space) (InvalidArchive "PAX arithmetic overflow");
  digits ← slice payload cursor space;
  reject_if (not_minimal_decimal digits) (InvalidMetadata "PAX" "record length is not minimal decimal");;
  declared ← parse_decimal_usize digits "PAX record length";
  reject_if (negb (bytes_eqb (to_decimal declared) digits))
    (InvalidMetadata "PAX" "record length is not canonical");;
  end_ ← ok_or (checked_add 64 cursor declared) (InvalidArchive "PAX arithmetic overflow");
  reject_if ((blen payload <? end_) || (end_ <=? space + 2))
    (InvalidMetadata "PAX" "record length does not frame one record");;
  terminator ← byte_at payload (end_ - 1);
  reject_if (negb (terminator =? byte.unsigned NEWLINE))
    (InvalidMetadata "PAX" "record length does not frame one record");;
  body ← slice payload (space + 1) (end_ - 1);
  equals ← ok_or (position EQUALS body) (InvalidArchive "PAX record equals sign is missing");
  key_bytes ← slice body 0 equals;
  value ← slice body (equals + 1) (blen body);
  reject_if (bad_pax_key key_bytes) (InvalidMetadata "PAX" "key is not canonical ASCII");;
  reject_if (bool_decide (Byte.x00 ∈ value)) (InvalidMetadata "PAX" "value contains NUL");;
  reject_if (negb (utf8_valid key_bytes)) (InvalidArchive "PAX key is not ASCII");;
  reject_if (match previous_key with Some previous => leb key_bytes previous | None => false end)
    (InvalidMetadata "PAX" "keys are not strictly sorted and unique");;
  mret (key_bytes, value, end_).

Fixpoint parse_pax_loop (fuel : nat) (payload : bytes) (cursor : Z) (previous_key : option bytes)
    (records : PaxRecords) : fresult PaxRecords :=
  if cursor <? blen payload then
    match fuel with
    | O => Panic
    | S fuel =>
        '(key, value, end_) ← parse_pax_record payload cursor previous_key;
        parse_pax_loop fuel payload end_ (Some key) (pax_insert key value records)
    end
  else Ok records.

(** Every record is longer than one byte, so the length of the payload is
    enough fuel. *)
Definition parse_canonical_pax (payload : bytes) : fresult PaxRecords :=
  reject_if (bool_decide (payload = [])) (InvalidMetadata "PAX" "payload is empty");;
  reject_if (MAX_LOCAL_PAX_PAYLOAD <? blen payload)
    (ReaderResourceLimitExceeded "local PAX payload bytes" MAX_LOCAL_PAX_PAYLOAD (blen payload));;
  parse_pax_loop (length payload) payload 0 None [].

(** The search for the length of a record, which counts its own digits. *)
Fixpoint record_len_loop (fuel : nat) (digits body_len : Z) : fresult Z :=
  match fuel with
  | O => Panic
  | S fuel =>
      length ← ok_or (checked_add 64 digits body_len) (WriterInvariant "PAX record length overflow");
      let next_digits := blen (to_decimal length) in
      if next_digits =? digits then mret length else record_len_loop fuel next_digits body_len
  end.

(** The number of digits grows in every round and is at most 20. *)
Definition record_len (key value : bytes) : fresult Z :=
  body_len ← ok_or (checked_add3 (blen key) (blen value) 3) (WriterInvariant "PAX record length overflow");
  record_len_loop 21 1 body_len.

Fixpoint encode_pax_loop (records : PaxRecords) (out : bytes) : fresult bytes :=
  match records with
  | [] => Ok out
  | (key, value) :: records =>
      reject_if (bad_pax_key key || bool_decide (Byte.x00 ∈ value)) (WriterInvariant "invalid canonical PAX record");;
      len ← record_len key value;
      encode_pax_loop records (out ++ to_decimal len ++ [SPACE] ++ key ++ [EQUALS] ++ value ++ [NEWLINE])
  end.

Definition encode_canonical_pax (records : PaxRecords) : fresult bytes :=
  reject_if (bool_decide (records = [])) (WriterInvariant "PAX payload cannot be empty");;
  out ← encode_pax_loop records [];
  reject_if (MAX_LOCAL_PAX_PAYLOAD <? blen out)
    (WriterUnsupported "local PAX payload exceeds revision-45 limit");;
  mret out.

Example pax_example :
  encode_canonical_pax [(ascii "mtime", ascii "12"); (ascii "path", ascii "a")]
  = Ok (ascii "12 mtime=12" ++ [NEWLINE] ++ ascii "9 path=a" ++ [NEWLINE])
  /\ parse_canonical_pax (ascii "12 mtime=12" ++ [NEWLINE] ++ ascii "9 path=a" ++ [NEWLINE])
     = Ok [(ascii "mtime", ascii "12"); (ascii "path", ascii "a")].
Proof. vm_compute. auto. Qed.

(** ** Lemmas on strings *)

(** Equality of two strings up to the order of concatenation. *)
Ltac app_eq := repeat progress (cbn [app]; rewrite <- ?app_assoc); reflexivity.

Lemma position_Some x b i :
  position x b = Some i <-> exists l r, b = l ++ x :: r /\ x ∉ l /\ i = blen l.
Proof.
  revert i. induction b as [|y b IH]; intros i; cbn.
  { split; [done|]. intros (l & r & H & _). by destruct l. }
  case_bool_decide as Hy.
  - subst. split.
    + intros [= <-]. exists [], b. split_and!; [done|apply not_elem_of_nil|done].
    + intros (l & r & H & Hl & ->). destruct l as [|z l]; [done|]. injection H as -> _.
      rewrite elem_of_cons in Hl. tauto.
  - destruct (position x b) as [j|] eqn:E; split.
    + intros [= <-]. destruct (proj1 (IH j) eq_refl) as (l & r & -> & Hl & ->).
      exists (y :: l), r. split_and!; [done|rewrite elem_of_cons; naive_solver|unfold blen; cbn; lia].
    + intros (l & r & H & Hl & ->). destruct l as [|z l]; [by injection H as ->|].
      injection H as <- H. rewrite elem_of_cons in Hl.
      enough (Some j = Some (blen l)) as [= ->] by (unfold blen; cbn; f_equal; lia).
      apply IH. exists l, r. tauto.
    + done.
    + intros (l & r & H & Hl & ->). destruct l as [|z l]; [by injection H as ->|].
      injection H as <- H. rewrite elem_of_cons in Hl. enough (None = Some (blen l)) by done.
      apply IH. exists l, r. tauto.
Qed.

(** Lengths of concatenations. *)
Ltac blen_simpl := repeat first [rewrite blen_app|rewrite blen_cons]; change (blen []) with 0.

Lemma slice_middle {E} a b c i j : i = blen a -> j = blen a + blen b -> slice (E:=E) (a ++ b ++ c) i j = Ok b.
Proof.
  intros -> ->. pose proof (blen_nonneg a). pose proof (blen_nonneg b). pose proof (blen_nonneg c).
  rewrite slice_in_range by (rewrite ?blen_app; lia). f_equal.
  rewrite seg_app_r by lia. rewrite seg_app_l by lia. rewrite Z.sub_diag, Z.add_simpl_l. apply seg_full.
Qed.

Lemma slice_suffix {E} a b j : j = blen (a ++ b) -> slice (E:=E) (a ++ b) (blen a) j = Ok b.
Proof.
  intros ->. rewrite <- (app_nil_r b) at 1. apply slice_middle; [done|]. by rewrite blen_app.
Qed.

Lemma slice_prefix {E} b c j : j = blen b -> slice (E:=E) (b ++ c) 0 j = Ok b.
Proof. intros ->. by apply (slice_middle [] b c). Qed.

Lemma byte_at_middle {E} a x c i : i = blen a -> byte_at (E:=E) (a ++ x :: c) i = Ok (byte.unsigned x).
Proof.
  intros ->. apply byte_at_lookup; [apply blen_nonneg|]. unfold blen. rewrite Nat2Z.id, lookup_app_r by lia.
  by rewrite Nat.sub_diag.
Qed.

(** ** What a payload is

    A frame is one record with a length that counts the whole frame. *)
Definition pax_frame (r : bytes * bytes) (len : Z) : bytes :=
  to_decimal len ++ [SPACE] ++ r.1 ++ [EQUALS] ++ r.2 ++ [NEWLINE].

Definition is_frame (r : bytes * bytes) (f : bytes) : Prop :=
  exists len, usize len /\ f = pax_frame r len /\ blen f = len.

Definition record_ok (r : bytes * bytes) : Prop := bad_pax_key r.1 = false /\ Byte.x00 ∉ r.2.

Lemma bad_pax_key_false key :
  bad_pax_key key = false -> key <> [] /\ EQUALS ∉ key /\ utf8_valid key = true.
Proof.
  unfold bad_pax_key. rewrite orb_false_iff, negb_false_iff, bool_decide_eq_false. intros [Hne Hall]. split; [done|].
  rewrite forallb_forall in Hall. split.
  - intros Hin%list_elem_of_In%Hall. by vm_compute in Hin.
  - apply is_ascii_utf8. unfold is_ascii. apply forallb_forall. intros x Hx%Hall.
    apply andb_true_iff in Hx as [Hx _]. unfold byte_between in *. lia.
Qed.

Lemma to_decimal_number n : u64 n -> to_decimal n <> [] /\ SPACE ∉ to_decimal n /\ not_minimal_decimal (to_decimal n) = false.
Proof.
  intros Hn. destruct (to_decimal_digits n Hn) as (ds & -> & Hd & Hm & _). split_and!.
  - destruct Hm. by destruct ds.
  - by eapply number_not_elem; [apply map_digits_number|].
  - by apply not_minimal_decimal_digits.
Qed.

Lemma parse_pax_record_Ok pre rest previous k v e :
  blen (pre ++ rest) < 2 ^ 63 ->
  parse_pax_record (pre ++ rest) (blen pre) previous = Ok (k, v, e)
  <-> exists f rest', rest = f ++ rest' /\ is_frame (k, v) f /\ record_ok (k, v)
        /\ e = blen pre + blen f /\ (forall p, previous = Some p -> lt p k).
Proof.
  intros Hlen. pose proof (blen_nonneg pre) as Hpre.
  assert (match previous with Some previous => leb k previous | None => false end = false
    <-> forall p, previous = Some p -> lt p k) as Hprev.
  { destruct previous as [p|]; [|by split; [intros _ ? [=]|]]. unfold leb. rewrite negb_false_iff. fold (lt p k).
    split; [by intros H ? [= <-]|auto]. }
  unfold parse_pax_record. rewrite slice_suffix by done. rewrite bind_ret. split.
  - intros H. rewrite bind_Ok in H. destruct H as (i & Hi & H). apply ok_or_Ok, position_Some in Hi as (l & r & -> & Hl & ->).
    rewrite bind_Ok in H. destruct H as (space & Hs & H). apply ok_or_Ok, checked_add_Some in Hs as [_ ->].
    rewrite (slice_middle pre l (SPACE :: r)), bind_ret in H by done.
    rewrite bind_Ok in H. destruct H as ([] & Hm & H). apply reject_if_Ok in Hm.
    rewrite bind_Ok in H. destruct H as (n & Hn & H). apply parse_decimal_usize_Ok in Hn as [Hn ->].
    rewrite bind_Ok in H. destruct H as ([] & _ & H).
    rewrite bind_Ok in H. destruct H as (e' & He & H). apply ok_or_Ok, checked_add_Some in He as [_ ->].
    rewrite bind_Ok in H. destruct H as ([] & Hr & H). apply reject_if_Ok, orb_false_iff in Hr as [Hr1 Hr2].
    set (l := to_decimal n) in *. rewrite !blen_app in Hr1. change (SPACE :: r) with ([SPACE] ++ r) in Hr1.
    rewrite blen_app in Hr1. change (blen [SPACE]) with 1 in Hr1.
    set (m := Z.to_nat (n - blen l - 2)).
    assert (m < length r)%nat as Hm' by (unfold m, blen in *; lia).
    destruct (lookup_lt_is_Some_2 r m Hm') as [x Hx].
    assert (r = take m r ++ x :: drop (S m) r) as Er by (by rewrite <- (drop_S _ _ _ Hx), take_drop).
    set (body := take m r) in *. set (rest' := drop (S m) r) in *.
    assert (blen body = n - blen l - 2) as Hbody by (unfold body, blen in *; rewrite length_take; unfold m in *; lia).
    rewrite Er in H. clearbody body rest'. clear Hx Hm'.
    assert (pre ++ l ++ SPACE :: body ++ x :: rest' = (pre ++ l ++ SPACE :: body) ++ x :: rest') as E1 by (by rewrite <- !app_assoc).
    assert (pre ++ l ++ SPACE :: body ++ x :: rest' = (pre ++ l ++ [SPACE]) ++ body ++ x :: rest') as E2 by (by rewrite <- !app_assoc).
    assert (blen (pre ++ l ++ SPACE :: body) = blen pre + n - 1) as L1.
    { change (SPACE :: body) with ([SPACE] ++ body). rewrite !blen_app. change (blen [SPACE]) with 1. lia. }
    assert (blen (pre ++ l ++ [SPACE]) = blen pre + blen l + 1) as L2.
    { rewrite !blen_app. change (blen [SPACE]) with 1. lia. }
    rewrite E1, byte_at_middle, bind_ret in H by lia.
    rewrite bind_Ok in H. destruct H as ([] & Hnl & H). apply reject_if_Ok in Hnl. rewrite negb_false_iff, Z.eqb_eq in Hnl.
    apply byte.unsigned_inj in Hnl as ->. rewrite <- E1, E2, slice_middle, bind_ret in H by lia.
    rewrite bind_Ok in H. destruct H as (q & Hq & H). apply ok_or_Ok, position_Some in Hq as (key & value & -> & Hkey & ->).
    rewrite slice_prefix, bind_ret in H by done.
    replace (key ++ EQUALS :: value) with ((key ++ [EQUALS]) ++ value) in H by (by rewrite <- app_assoc).
    assert (blen key + 1 = blen (key ++ [EQUALS])) as L3 by (by rewrite blen_app).
    rewrite L3, slice_suffix, bind_ret in H by done. ok_inv. rewrite ?bool_decide_eq_false in *.
    exists (pax_frame (k, v) n), rest'.
    assert (blen (pax_frame (k, v) n) = n) as Hf.
    { unfold pax_frame. cbn [fst snd]. rewrite !blen_app. rewrite blen_app in Hbody. change (EQUALS :: v) with ([EQUALS] ++ v) in Hbody.
      rewrite blen_app in Hbody. change (blen [EQUALS]) with 1 in *. change (blen [SPACE]) with 1. change (blen [NEWLINE]) with 1.
      fold l. lia. }
    split_and!.
    + unfold pax_frame. cbn [fst snd]. fold l. app_eq.
    + by exists n.
    + by split.
    + lia.
    + by apply Hprev.
  - intros (f & rest' & -> & (n & Hn & -> & Hf) & [Hk Hv] & -> & Hp%Hprev). cbn [fst snd] in *.
    destruct (bad_pax_key_false k Hk) as (Hkne & Hkeq & Hku). destruct (to_decimal_number n Hn) as (Hne & Hsp & Hmin).
    assert (blen k <> 0) as Hk0 by (destruct k; [done|unfold blen; cbn; lia]).
    pose proof (blen_nonneg k). pose proof (blen_nonneg v). pose proof (blen_nonneg rest').
    assert (blen (pax_frame (k, v) n) = blen (to_decimal n) + 1 + blen k + 1 + blen v + 1) as HL.
    { unfold pax_frame. cbn [fst snd]. rewrite !blen_app. change (blen [EQUALS]) with 1. change (blen [SPACE]) with 1.
      change (blen [NEWLINE]) with 1. lia. }
    rewrite !blen_app in Hlen.
    set (l := to_decimal n) in *.
    assert (pax_frame (k, v) n ++ rest' = l ++ SPACE :: (k ++ EQUALS :: v ++ [NEWLINE]) ++ rest') as ->.
    { unfold pax_frame. cbn [fst snd]. fold l. app_eq. }
    rewrite (proj2 (position_Some SPACE _ (blen l))) by eauto. cbn [ok_or]. rewrite bind_ret.
    rewrite checked_add_eq by (pose proof (blen_nonneg l); lia). cbn [ok_or]. rewrite bind_ret.
    rewrite (slice_middle pre l), bind_ret by done. rewrite Hmin. cbn [reject_if]. rewrite bind_ret.
    rewrite (proj2 (parse_decimal_usize_Ok l _ n)), bind_ret by done.
    rewrite (proj2 (bytes_eqb_eq _ _)) by done. cbn [negb reject_if]. rewrite bind_ret.
    rewrite checked_add_eq by lia. cbn [ok_or]. rewrite bind_ret.
    set (payload := pre ++ _).
    assert (payload = (pre ++ l ++ SPACE :: k ++ EQUALS :: v) ++ NEWLINE :: rest') as E1
      by (unfold payload; app_eq).
    assert (payload = (pre ++ l ++ [SPACE]) ++ (k ++ EQUALS :: v) ++ NEWLINE :: rest') as E2
      by (unfold payload; app_eq).
    assert (blen payload = blen pre + n + blen rest') as Lp.
    { rewrite E1, !blen_app. change (SPACE :: k ++ EQUALS :: v) with ([SPACE] ++ k ++ [EQUALS] ++ v).
      change (NEWLINE :: rest') with ([NEWLINE] ++ rest'). rewrite !blen_app. change (blen [EQUALS]) with 1.
      change (blen [SPACE]) with 1. change (blen [NEWLINE]) with 1. lia. }
    replace ((blen payload <? blen pre + n) || (blen pre + n <=? blen pre + blen l + 2)) with false by lia.
    cbn [reject_if]. rewrite bind_ret.
    assert (blen (k ++ EQUALS :: v) = blen k + 1 + blen v) as L0.
    { change (EQUALS :: v) with ([EQUALS] ++ v). rewrite !blen_app. change (blen [EQUALS]) with 1. lia. }
    rewrite E1 at 1. rewrite byte_at_middle, bind_ret.
    2:{ revert HL. blen_simpl. lia. }
    rewrite Z.eqb_refl. cbn [negb reject_if]. rewrite bind_ret.
    rewrite E2 at 1. rewrite slice_middle, bind_ret; [|revert HL; blen_simpl; lia..].
    rewrite (proj2 (position_Some EQUALS _ (blen k))) by eauto. cbn [ok_or]. rewrite bind_ret.
    rewrite slice_prefix, bind_ret by done.
    replace (k ++ EQUALS :: v) with ((k ++ [EQUALS]) ++ v) by (by rewrite <- app_assoc).
    assert (blen k + 1 = blen (k ++ [EQUALS])) as L3 by (by rewrite blen_app).
    rewrite L3, slice_suffix, bind_ret by done. rewrite Hk. cbn [reject_if]. rewrite bind_ret.
    rewrite bool_decide_eq_false_2 by done. cbn [reject_if]. rewrite bind_ret, Hku. cbn [negb reject_if]. rewrite bind_ret.
    rewrite Hp. cbn [reject_if]. rewrite bind_ret, mret_eq. do 2 f_equal. lia.
Qed.

(** A sequence of frames. *)
Definition framing (records : PaxRecords) (payload : bytes) : Prop :=
  exists frames, Forall2 is_frame records frames /\ payload = concat frames.

Lemma framing_nil payload : framing [] payload <-> payload = [].
Proof.
  split; [intros (frames & H & ->); by inversion H|]. intros ->. exists []. by split; [constructor|].
Qed.

Lemma framing_cons r records payload :
  framing (r :: records) payload <-> exists f rest, payload = f ++ rest /\ is_frame r f /\ framing records rest.
Proof.
  split.
  - intros (frames & H & ->). inversion H as [|? f ? frames' Hf Hfs]; subst. exists f, (concat frames'). split_and!; [done..|].
    by exists frames'.
  - intros (f & rest & -> & Hf & frames & Hfs & ->). exists (f :: frames). split; [by constructor|done].
Qed.

Lemma framing_nonempty records payload : framing records payload -> records <> [] -> payload <> [].
Proof.
  destruct records as [|r records]; [done|]. intros (f & rest & -> & (len & _ & -> & Hf) & _)%framing_cons _ E.
  apply (f_equal blen) in E. unfold pax_frame in *. revert E. blen_simpl.
  pose proof (blen_nonneg rest). pose proof (blen_nonneg (to_decimal len)). pose proof (blen_nonneg r.1). pose proof (blen_nonneg r.2).
  lia.
Qed.

Lemma is_frame_pos r f : is_frame r f -> 0 < blen f.
Proof.
  intros (len & _ & -> & _). unfold pax_frame. blen_simpl.
  pose proof (blen_nonneg (to_decimal len)). pose proof (blen_nonneg r.1). pose proof (blen_nonneg r.2). lia.
Qed.

Lemma pax_insert_last k v records :
  Forall (fun r => lt r.1 k) records -> pax_insert k v records = records ++ [(k, v)].
Proof.
  induction 1 as [|[k' v'] records Hlt _ IH]; [done|]. cbn [fst] in Hlt. unfold lt in Hlt. apply ltb_lt in Hlt.
  cbn [pax_insert app]. rewrite (cmp_antisym k' k), Hlt. cbn [CompOpp]. by rewrite IH.
Qed.

Lemma sorted_snoc records k v :
  PaxRecords_sorted records -> (forall p, fst <$> last records = Some p -> lt p k) ->
  PaxRecords_sorted (records ++ [(k, v)]) /\ Forall (fun r => lt r.1 k) records.
Proof.
  intros Hs Hk. assert (Forall (fun r => lt r.1 k) records) as Hall.
  { destruct records as [|[k' v'] records _] using rev_ind; [constructor|]. rewrite last_snoc in Hk.
    specialize (Hk k' eq_refl). apply Forall_app. split; [|constructor; [done|constructor]].
    apply StronglySorted_app in Hs as (Hs & _). apply Forall_forall. intros r Hr.
    apply lt_trans with k'; [|done]. apply (Hs r (k', v')); [done|]. by left. }
  split; [|done]. apply StronglySorted_app. split_and!; [|done|repeat constructor].
  intros r r' Hr Hr'. apply list_elem_of_singleton in Hr' as ->. rewrite Forall_forall in Hall. by apply Hall.
Qed.

Lemma sorted_next records k v rest :
  PaxRecords_sorted (records ++ (k, v) :: rest) -> forall p, fst <$> last records = Some p -> lt p k.
Proof.
  intros (H & _)%StronglySorted_app p Hp. destruct (last records) as [r|] eqn:E; [|done]. injection Hp as <-.
  apply (H r (k, v)); [by apply last_Some_elem_of|by left].
Qed.

Lemma parse_pax_loop_Ok fuel pre rest acc records :
  blen (pre ++ rest) < 2 ^ 63 -> (length rest <= fuel)%nat -> PaxRecords_sorted acc ->
  parse_pax_loop fuel (pre ++ rest) (blen pre) (fst <$> last acc) acc = Ok records
  <-> exists rs, framing rs rest /\ Forall record_ok rs /\ PaxRecords_sorted (acc ++ rs) /\ records = acc ++ rs.
Proof.
  revert pre rest acc. induction fuel as [|fuel IH]; intros pre rest acc Hlen Hfuel Hs.
  - destruct rest; [|cbn in Hfuel; lia]. cbn [parse_pax_loop]. rewrite app_nil_r, Z.ltb_irrefl. split.
    + intros [= <-]. exists []. rewrite app_nil_r. split_and!; [by apply framing_nil|constructor|done|done].
    + intros (rs & Hf & _ & _ & ->). destruct rs; [by rewrite app_nil_r|]. by apply framing_nonempty in Hf.
  - cbn [parse_pax_loop]. destruct (decide (rest = [])) as [->|Hne].
    + rewrite app_nil_r, Z.ltb_irrefl. split.
      * intros [= <-]. exists []. rewrite app_nil_r. split_and!; [by apply framing_nil|constructor|done|done].
      * intros (rs & Hf & _ & _ & ->). destruct rs; [by rewrite app_nil_r|]. by apply framing_nonempty in Hf.
    + assert (0 < blen rest) as Hpos by (destruct rest; [done|rewrite blen_cons; pose proof (blen_nonneg rest); lia]).
      replace (blen pre <? blen (pre ++ rest)) with true by (rewrite blen_app; lia).
      rewrite bind_Ok. split.
      * intros ([[k v] e] & Hr & H). apply parse_pax_record_Ok in Hr as (f & rest' & -> & Hf & Hok & -> & Hp); [|done].
        pose proof (is_frame_pos _ _ Hf) as Hfpos.
        destruct (sorted_snoc acc k v Hs Hp) as [Hs' Hall]. rewrite pax_insert_last in H by done.
        rewrite app_assoc, <- blen_app in H.
        replace (Some k) with (fst <$> last (acc ++ [(k, v)])) in H by (by rewrite last_snoc).
        apply IH in H as (rs & Hfr & Hrok & Hss & ->); [|by rewrite <- app_assoc| |done].
        2:{ rewrite length_app in Hfuel. unfold blen in *. lia. }
        exists ((k, v) :: rs). rewrite <- app_assoc in *. split_and!; [|by constructor|done|done].
        apply framing_cons. eauto.
      * intros (rs & Hfr & Hrok & Hss & ->). destruct rs as [|[k v] rs]; [by apply framing_nil in Hfr|].
        apply framing_cons in Hfr as (f & rest' & -> & Hf & Hfr). apply Forall_cons in Hrok as [Hok Hrok].
        pose proof (is_frame_pos _ _ Hf) as Hfpos. pose proof (sorted_next _ _ _ _ Hss) as Hp.
        exists (k, v, blen pre + blen f). split.
        { apply parse_pax_record_Ok; [done|]. exists f, rest'. done. }
        destruct (sorted_snoc acc k v Hs Hp) as [Hs' Hall]. rewrite pax_insert_last by done.
        rewrite app_assoc, <- blen_app.
        replace (Some k) with (fst <$> last (acc ++ [(k, v)])) by (by rewrite last_snoc).
        apply IH; [by rewrite <- app_assoc| |done|].
        { rewrite length_app in Hfuel. unfold blen in *. lia. }
        exists rs. rewrite <- app_assoc. done.
Qed.

(** What the parser accepts. *)
Lemma parse_canonical_pax_Ok payload records :
  blen payload < 2 ^ 63 ->
  parse_canonical_pax payload = Ok records
  <-> records <> [] /\ blen payload <= MAX_LOCAL_PAX_PAYLOAD
      /\ framing records payload /\ Forall record_ok records /\ PaxRecords_sorted records.
Proof.
  intros Hlen. unfold parse_canonical_pax.
  pose proof (parse_pax_loop_Ok (length payload) [] payload [] records Hlen ltac:(lia) ltac:(constructor)) as H.
  cbn [app last fmap option_fmap option_map] in H. change (blen []) with 0 in H. split.
  - intros E. rewrite bind_Ok in E. destruct E as ([] & Hne & E). rewrite bind_Ok in E. destruct E as ([] & Hm & E).
    apply reject_if_Ok, bool_decide_eq_false in Hne. apply reject_if_Ok in Hm.
    apply H in E as (rs & Hf & Hok & Hs & ->). split_and!; [|lia|done..].
    intros ->. by apply framing_nil in Hf.
  - intros (Hne & Hm & Hf & Hok & Hs).
    rewrite bool_decide_eq_false_2 by (by eapply framing_nonempty). cbn [reject_if]. rewrite bind_ret.
    replace (MAX_LOCAL_PAX_PAYLOAD <? blen payload) with false by lia. cbn [reject_if]. rewrite bind_ret.
    apply H. by exists records.
Qed.

(** ** The encoder *)
Definition width (n : Z) : Z := blen (to_decimal n).

Lemma width_spec n : u64 n -> 1 <= width n <= 20 /\ n < 10 ^ width n /\ (0 < n -> 10 ^ (width n - 1) <= n).
Proof.
  intros Hn. unfold width. destruct (to_decimal_digits n Hn) as (ds & -> & Hd & [Hne Hm] & <- & Hh).
  unfold blen. rewrite length_map. pose proof (num_bound 10 ds ltac:(lia) Hd) as Hb.
  assert (0 < num 10 0 ds -> 10 ^ (Z.of_nat (length ds) - 1) <= num 10 0 ds) as Hlow.
  { intros Hpos. destruct ds as [|d ds]; [done|]. cbn [length]. rewrite Nat2Z.inj_succ.
    replace (Z.succ (Z.of_nat (length ds)) - 1) with (Z.of_nat (length ds)) by lia.
    apply Forall_cons in Hd as [Hd Hds]. change (num 10 0 (d :: ds)) with (num 10 d ds) in *.
    assert (1 <= d) by (destruct (decide (d = 0)) as [->|]; [exfalso; specialize (Hh eq_refl); lia|lia]).
    clear -Hds H. assert (forall ds acc, digits_ok 10 ds -> 1 <= acc -> 10 ^ Z.of_nat (length ds) <= num 10 acc ds) as Hg; [|by apply Hg].
    clear. induction ds as [|d ds IH] using rev_ind; intros acc Hd Ha; [cbn; lia|].
    apply Forall_app in Hd as [Hds [Hd _]%Forall_cons]. rewrite num_snoc, length_app. cbn [length].
    rewrite Nat2Z.inj_add, Z.pow_add_r by lia. change (10 ^ Z.of_nat 1) with 10. specialize (IH acc Hds Ha). lia. }
  split_and!; [destruct ds; [done|cbn [length]; lia]| |lia|done].
  destruct (Z.le_gt_cases (num 10 0 ds) 0) as [H0|H0].
  - destruct ds as [|d [|d' ds]]; [done|cbn; lia|]. exfalso.
    pose proof (num_pos (d :: d' :: ds) Hd ltac:(done) (Hm ltac:(cbn; lia))). lia.
  - specialize (Hlow H0). unfold fits in Hn.
    destruct (Z.le_gt_cases (Z.of_nat (length ds)) 20) as [Hle|Hgt]; [done|exfalso].
    pose proof (Z.pow_le_mono_r 10 20 (Z.of_nat (length ds) - 1) ltac:(lia) ltac:(lia)). lia.
Qed.

Lemma width_mono a b : u64 a -> u64 b -> a <= b -> width a <= width b.
Proof.
  intros Ha Hb Hle. destruct (width_spec a Ha) as (Ha1 & Ha2 & Ha3). destruct (width_spec b Hb) as (Hb1 & Hb2 & Hb3).
  destruct (Z.le_gt_cases (width a) (width b)) as [|Hgt]; [done|exfalso].
  assert (0 < a) as Hpos.
  { destruct (decide (a = 0)) as [->|]; [|unfold fits in Ha; lia]. change (width 0) with 1 in Hgt. lia. }
  pose proof (Z.pow_le_mono_r 10 (width b) (width a - 1) ltac:(lia) ltac:(lia)). specialize (Ha3 Hpos). lia.
Qed.

(** The lengths a record may declare. *)
Definition is_record_len (body len : Z) : Prop := usize len /\ len = width len + body.

Lemma record_len_loop_least fuel digits body r :
  0 <= body -> 1 <= digits <= 20 -> 22 <= Z.of_nat fuel + digits ->
  (digits + body < 2 ^ 64 -> digits <= width (digits + body)) ->
  (forall len, is_record_len body len -> digits <= width len) ->
  record_len_loop fuel digits body = r ->
  r <> Panic
  /\ (forall len, r = Ok len -> is_record_len body len /\ forall len', is_record_len body len' -> len <= len')
  /\ ((exists len, is_record_len body len) -> exists len, r = Ok len).
Proof.
  intros Hb. revert digits. induction fuel as [|fuel IH]; intros digits Hd Hf Hw Hle Hr; [lia|].
  cbn [record_len_loop] in Hr. destruct (checked_add 64 digits body) as [n|] eqn:E; cbn [ok_or] in Hr.
  - apply checked_add_Some in E as [E ->]. rewrite bind_ret in Hr. fold (width (digits + body)) in Hr.
    assert (u64 (digits + body)) as Hu by (unfold fits; lia).
    destruct (width_spec _ Hu) as (Hw1 & _). specialize (Hw E).
    destruct (Z.eqb_spec (width (digits + body)) digits) as [He|He].
    + subst r. rewrite mret_eq. split; [done|]. split.
      * intros len [= <-]. split; [split; [done|lia]|]. intros len' Hlen'. pose proof (Hle _ Hlen'). destruct Hlen' as [_ ?]. lia.
      * eauto.
    + apply (IH (width (digits + body))); [lia|lia| | |done].
      * intros E'. apply width_mono; [unfold fits; lia|unfold fits; lia|lia].
      * intros len Hlen. pose proof (Hle _ Hlen). destruct Hlen as [Hlu Hl]. apply width_mono; [done|done|lia].
  - subst r. cbn. split; [done|]. split; [done|]. intros (len & Hlen). pose proof (Hle _ Hlen). destruct Hlen as [Hlu Hl].
    unfold checked_add, fits in *. case_match; [done|lia].
Qed.

Lemma is_frame_record_len k v f :
  is_frame (k, v) f <-> exists len, is_record_len (blen k + blen v + 3) len /\ f = pax_frame (k, v) len.
Proof.
  assert (forall len, blen (pax_frame (k, v) len) = width len + (blen k + blen v + 3)) as HL.
  { intros len. unfold pax_frame, width. cbn [fst snd]. blen_simpl. lia. }
  split.
  - intros (len & Hu & -> & Hl). exists len. rewrite HL in Hl. split; [split; [done|lia]|done].
  - intros (len & [Hu Hl] & ->). exists len. rewrite HL. split_and!; [done|done|lia].
Qed.

Definition least_frame (r : bytes * bytes) (f : bytes) : Prop :=
  is_frame r f /\ forall f', is_frame r f' -> blen f <= blen f'.

(** [record_len] finds the least of the lengths of a record, when there is one. *)
Lemma record_len_Ok k v len : record_len k v = Ok len <-> least_frame (k, v) (pax_frame (k, v) len) /\ is_record_len (blen k + blen v + 3) len.
Proof.
  pose proof (blen_nonneg k) as Hk. pose proof (blen_nonneg v) as Hv.
  assert (forall n, is_record_len (blen k + blen v + 3) n -> blen (pax_frame (k, v) n) = n) as HL.
  { intros n [_ Hn]. unfold pax_frame, width in *. cbn [fst snd]. blen_simpl. lia. }
  unfold record_len. destruct (checked_add3 (blen k) (blen v) 3) as [body|] eqn:E; cbn [ok_or].
  - apply checked_add3_Some in E as [E ->]; [|lia]. rewrite bind_ret.
    edestruct (record_len_loop_least 21 1 (blen k + blen v + 3)) as (_ & H1 & H2); [lia|lia|lia| | |reflexivity|].
    + intros Hf. apply width_spec. unfold fits. lia.
    + intros n [Hn _]. by apply width_spec.
    + split.
      * intros H. destruct (H1 len H) as [Hlen Hleast]. split; [|done]. split; [apply is_frame_record_len; eauto|].
        intros f' (len' & Hlen' & ->)%is_frame_record_len. rewrite !HL by done. auto.
      * intros [[_ Hleast] Hlen]. destruct H2 as [n Hn]; [eauto|]. destruct (H1 n Hn) as [Hn' Hl].
        rewrite Hn. f_equal. apply Z.le_antisymm; [by apply Hl|].
        rewrite <- (HL len Hlen), <- (HL n Hn'). apply Hleast, is_frame_record_len. eauto.
  - split; [done|]. intros [_ [Hu Hl]]. exfalso. destruct (width_spec _ Hu) as [Hw _]. unfold fits in Hu.
    assert (checked_add3 (blen k) (blen v) 3 = Some (blen k + blen v + 3)) as E'; [|congruence].
    apply checked_add3_Some; lia.
Qed.

Lemma record_len_no_panic k v : record_len k v <> Panic.
Proof.
  unfold record_len. apply bind_no_panic; [apply ok_or_no_panic|]. intros body Hb.
  apply ok_or_Ok, checked_add3_Some in Hb as [_ ->]; [|lia].
  pose proof (blen_nonneg k). pose proof (blen_nonneg v).
  edestruct (record_len_loop_least 21 1 (blen k + blen v + 3)) as (Hp & _); [lia|lia|lia| | |reflexivity|exact Hp].
  - intros Hf. apply width_spec. unfold fits. lia.
  - intros n [Hn _]. by apply width_spec.
Qed.

Lemma least_frame_exists r f : is_frame r f -> exists len, record_len r.1 r.2 = Ok len.
Proof.
  destruct r as [k v]. intros (n & Hn & _)%is_frame_record_len. cbn [fst snd].
  pose proof (blen_nonneg k) as Hk. pose proof (blen_nonneg v) as Hv.
  unfold record_len. destruct Hn as [Hu Hl]. destruct (width_spec _ Hu) as [Hw _].
  rewrite (proj2 (checked_add3_Some (blen k) (blen v) 3 (blen k + blen v + 3) ltac:(lia)))
    by (unfold fits in Hu; lia). cbn [ok_or]. rewrite bind_ret.
  edestruct (record_len_loop_least 21 1 (blen k + blen v + 3)) as (_ & _ & H2); [lia|lia|lia| | |reflexivity|].
  - intros Hf. apply width_spec. unfold fits. lia.
  - intros m [Hm _]. by apply width_spec.
  - apply H2. by exists n.
Qed.

(** A sequence of shortest frames. *)
Definition shortest_framing (records : PaxRecords) (payload : bytes) : Prop :=
  exists frames, Forall2 least_frame records frames /\ payload = concat frames.

Lemma encode_pax_loop_Ok records out payload :
  encode_pax_loop records out = Ok payload
  <-> Forall record_ok records /\ exists rest, shortest_framing records rest /\ payload = out ++ rest.
Proof.
  revert out. induction records as [|[k v] records IH]; intros out; cbn [encode_pax_loop].
  - split.
    + intros [= <-]. split; [constructor|]. exists []. split; [exists []; split; [constructor|done]|by rewrite app_nil_r].
    + intros (_ & rest & (frames & Hf & ->) & ->). inversion Hf; subst. by rewrite app_nil_r.
  - rewrite bind_Ok. split.
    + intros ([] & Hok & H). apply reject_if_Ok, orb_false_iff in Hok as [Hk Hv].
      rewrite bind_Ok in H. destruct H as (len & Hlen & H).
      apply record_len_Ok in Hlen as [Hl _]. apply IH in H as (Hrok & rest & (frames & Hfs & ->) & ->).
      split; [constructor; [split; [done|by apply bool_decide_eq_false in Hv]|done]|].
      exists (pax_frame (k, v) len ++ concat frames). split.
      * exists (pax_frame (k, v) len :: frames). split; [by constructor|done].
      * unfold pax_frame. cbn [fst snd]. app_eq.
    + intros ([[Hk Hv] Hrok]%Forall_cons & rest & (frames & Hfs & ->) & ->). exists tt. cbn [fst snd] in *.
      rewrite Hk, bool_decide_eq_false_2 by done. split; [done|].
      inversion Hfs as [|? f ? frames' Hf Hfs']; subst. rewrite bind_Ok.
      assert (exists len, is_record_len (blen k + blen v + 3) len /\ f = pax_frame (k, v) len) as (len & Hlen & ->).
      { apply is_frame_record_len. by destruct Hf. }
      exists len. split; [by apply record_len_Ok|]. apply IH. split; [done|]. exists (concat frames').
      split; [by exists frames'|]. unfold pax_frame. cbn [fst snd concat]. app_eq.
Qed.

(** What the encoder writes. *)
Lemma encode_canonical_pax_Ok records payload :
  encode_canonical_pax records = Ok payload
  <-> records <> [] /\ Forall record_ok records /\ shortest_framing records payload
      /\ blen payload <= MAX_LOCAL_PAX_PAYLOAD.
Proof.
  unfold encode_canonical_pax. split.
  - intros H. ok_inv. match goal with H : encode_pax_loop _ _ = Ok _ |- _ => apply encode_pax_loop_Ok in H as (Hok & rest & Hf & E) end.
    subst. cbn [app] in *. rewrite bool_decide_eq_false in *. split_and!; [done|done|done|lia].
  - intros (Hne & Hok & Hf & Hl). rewrite bool_decide_eq_false_2 by done. cbn [reject_if]. rewrite bind_ret.
    rewrite (proj2 (encode_pax_loop_Ok records [] payload)), bind_ret by (split; [done|]; by exists payload).
    replace (MAX_LOCAL_PAX_PAYLOAD <? blen payload) with false by lia. done.
Qed.

Lemma shortest_framing_framing records payload : shortest_framing records payload -> framing records payload.
Proof.
  intros (frames & H & ->). exists frames. split; [|done]. eapply Forall2_impl; [exact H|]. by intros r f [? _].
Qed.

Lemma framing_shortest records payload :
  framing records payload -> exists shortest, shortest_framing records shortest /\ blen shortest <= blen payload.
Proof.
  intros (frames & H & ->). induction H as [|[k v] f records frames Hf _ (s & (fs & Hs & ->) & Hl)].
  - exists []. split; [exists []; split; [constructor|done]|done].
  - destruct (least_frame_exists _ _ Hf) as [len Hlen]. cbn [fst snd] in Hlen. apply record_len_Ok in Hlen as [Hleast _].
    exists (pax_frame (k, v) len ++ concat fs). split; [exists (pax_frame (k, v) len :: fs); split; [by constructor|done]|].
    cbn [concat]. rewrite !blen_app. destruct Hleast as [_ Hleast]. specialize (Hleast _ Hf). lia.
Qed.

(** C13: The parser reads back what the encoder writes for a map of records.
    Conversely, the records of any payload it accepts are sorted and
    well-formed, the payload is a sequence of frames that each declare their own
    length, and encoding them again gives a payload that is no longer and
    parses to the same records. *)
Theorem pax_roundtrip records payload :
  blen payload < 2 ^ 63 ->
  (PaxRecords_sorted records -> encode_canonical_pax records = Ok payload -> parse_canonical_pax payload = Ok records)
  /\ (parse_canonical_pax payload = Ok records ->
      PaxRecords_sorted records /\ Forall record_ok records /\ framing records payload
      /\ exists shortest, encode_canonical_pax records = Ok shortest /\ blen shortest <= blen payload
                          /\ parse_canonical_pax shortest = Ok records).
Proof.
  intros Hlen. split.
  - intros Hs (Hne & Hok & Hf & Hl)%encode_canonical_pax_Ok. apply parse_canonical_pax_Ok; [done|].
    split_and!; [done|done|by apply shortest_framing_framing|done..].
  - intros (Hne & Hl & Hf & Hok & Hs)%parse_canonical_pax_Ok; [|done]. split_and!; [done..|].
    destruct (framing_shortest _ _ Hf) as (s & Hsf & Hle). exists s. split_and!; [|done|].
    + apply encode_canonical_pax_Ok. split_and!; [done..|lia].
    + apply parse_canonical_pax_Ok; [lia|]. split_and!; [done|lia|by apply shortest_framing_framing|done..].
Qed.

Lemma pax_roundtrip_witness :
  parse_canonical_pax (ascii "12 mtime=12" ++ [NEWLINE] ++ ascii "9 path=a" ++ [NEWLINE])
  = Ok [(ascii "mtime", ascii "12"); (ascii "path", ascii "a")].
Proof.
  apply (pax_roundtrip [(ascii "mtime", ascii "12"); (ascii "path", ascii "a")]); [vm_compute; reflexivity| |vm_compute; reflexivity].
  repeat constructor.
Defined.

(** The declared length does not determine the payload: where a record of nine
    bytes can also be framed as one of ten, the parser accepts both, although
    the length of the second is not minimal. *)
Theorem pax_length_ambiguous :
  exists records short long,
    short <> long /\ encode_canonical_pax records = Ok short
    /\ parse_canonical_pax short = Ok records /\ parse_canonical_pax long = Ok records.
Proof.
  exists [(ascii "path", ascii "a")], (ascii "9 path=a" ++ [NEWLINE]), (ascii "10 path=a" ++ [NEWLINE]).
  vm_compute. split_and!; [congruence|done..].
Qed.

Lemma parse_pax_record_no_panic pre rest previous :
  blen (pre ++ rest) < 2 ^ 63 -> parse_pax_record (pre ++ rest) (blen pre) previous <> Panic.
Proof.
  intros Hlen. pose proof (blen_nonneg pre). unfold parse_pax_record. rewrite slice_suffix by done. rewrite bind_ret.
  apply bind_no_panic; [apply ok_or_no_panic|]. intros i Hi. apply ok_or_Ok, position_Some in Hi as (l & r & -> & _ & ->).
  pose proof (blen_nonneg l).
  apply bind_no_panic; [apply ok_or_no_panic|]. intros s Hs. apply ok_or_Ok, checked_add_Some in Hs as [_ ->].
  rewrite (slice_middle pre l (SPACE :: r)), bind_ret by done.
  apply bind_no_panic; [apply reject_if_no_panic|intros _ _].
  apply bind_no_panic.
  { unfold parse_decimal_usize. apply bind_no_panic; [|intros ? _; apply ok_or_no_panic].
    unfold parse_decimal_u64. case_match; [done|apply ok_or_no_panic]. }
  intros n _. apply bind_no_panic; [apply reject_if_no_panic|intros _ _].
  apply bind_no_panic; [apply ok_or_no_panic|]. intros e He. apply ok_or_Ok, checked_add_Some in He as [_ ->].
  apply bind_no_panic; [apply reject_if_no_panic|]. intros [] He. apply reject_if_Ok, orb_false_iff in He as [He1 He2].
  apply bind_no_panic; [apply byte_at_no_panic; lia|intros ? _].
  apply bind_no_panic; [apply reject_if_no_panic|intros _ _].
  apply bind_no_panic; [apply slice_no_panic; lia|]. intros body Hbody.
  apply bind_no_panic; [apply ok_or_no_panic|]. intros q Hq. apply ok_or_Ok, position_Some in Hq as (key & value & -> & _ & ->).
  pose proof (blen_nonneg key). pose proof (blen_nonneg value).
  apply bind_no_panic; [apply slice_no_panic; blen_simpl; lia|intros ? _].
  apply bind_no_panic; [apply slice_no_panic; blen_simpl; lia|intros ? _].
  repeat (apply bind_no_panic; [apply reject_if_no_panic|intros _ _]). done.
Qed.

(** Neither direction panics, and the loops end within their fuel. *)
Theorem pax_no_panic records payload :
  (blen payload < 2 ^ 63 -> parse_canonical_pax payload <> Panic) /\ encode_canonical_pax records <> Panic.
Proof.
  split.
  - intros Hlen. unfold parse_canonical_pax. apply bind_no_panic; [apply reject_if_no_panic|intros _ _].
    apply bind_no_panic; [apply reject_if_no_panic|intros _ _].
    enough (forall fuel pre rest previous acc, (length rest <= fuel)%nat -> blen (pre ++ rest) < 2 ^ 63 ->
      parse_pax_loop fuel (pre ++ rest) (blen pre) previous acc <> Panic) as H.
    { apply (H (length payload) [] payload None []); [lia|done]. }
    induction fuel as [|fuel IH]; intros pre rest previous acc Hf Hl; cbn [parse_pax_loop].
    + destruct rest; [|cbn in Hf; lia]. by rewrite app_nil_r, Z.ltb_irrefl.
    + case_match; [|done]. apply bind_no_panic; [by apply parse_pax_record_no_panic|]. intros [[k v] e] Hr.
      apply parse_pax_record_Ok in Hr as (f & rest' & -> & Hfr & _ & -> & _); [|done].
      apply is_frame_pos in Hfr. rewrite app_assoc, <- blen_app. apply IH; [|by rewrite <- app_assoc].
      rewrite length_app in Hf. unfold blen in Hfr. lia.
  - unfold encode_canonical_pax. apply bind_no_panic; [apply reject_if_no_panic|intros _ _].
    apply bind_no_panic; [|intros ? _; apply bind_no_panic; [apply reject_if_no_panic|done]].
    generalize (@nil Byte.byte) as out. induction records as [|[k v] records IH]; intros out; [done|]. cbn [encode_pax_loop].
    apply bind_no_panic; [apply reject_if_no_panic|intros _ _].
    apply bind_no_panic; [apply record_len_no_panic|intros ? _]. apply IH.
Qed.

Lemma pax_no_panic_witness : parse_canonical_pax (ascii "9 path") <> Panic.
Proof. apply (pax_no_panic []). vm_compute. reflexivity. Defined.
