(* ===== verification/SparseMap.v ===== *)
(** * Sparse files

    The sparse map in front of the extents of a sparse payload: the writer's
    encoder ([crates/tzap-core/src/writer/envelope.rs]), the two readers
    ([crates/tzap-core/src/entry_metadata.rs], one over the whole payload, one
    over a stream of chunks), and the expansion of a payload into the logical
    bytes of the file ([crates/tzap-core/src/tar_model/mod.rs]). *)

From S2P Require Import Wire Ordering Paths TextCodecs Pax.
#[local] Open Scope Z_scope.

Record SparseExtent : Set := {
  extent_offset : Z;
  extent_length : Z
}.

Record SparseLayout : Type := {
  sl_logical_size : Z;
  sl_map_and_padding_size : Z;
  sl_extents : list SparseExtent
}.

Definition MAX_SPARSE_EXTENTS : Z := 1048576.

Definition TAR_BLOCK_LEN : Z := 512.

Definition padding_to_512 (len : Z) : Z :=
  let remainder := len mod TAR_BLOCK_LEN in
  if remainder =? 0 then 0 else TAR_BLOCK_LEN - remainder.

(** ** The writer *)
Fixpoint sparse_extent_loop (extents : list SparseExtent) (index previous_end stored_size logical_size : Z)
    : fresult Z :=
  match extents with
  | [] => Ok stored_size
  | extent :: extents =>
      reject_if ((extent_length extent =? 0) || (extent_offset extent <? previous_end))
        (WriterUnsupported "sparse extents overlap or have zero length");;
      reject_if (negb (index =? 0) && (extent_offset extent =? previous_end))
        (WriterUnsupported "adjacent sparse extents must be merged");;
      end_ ← ok_or (checked_add 64 (extent_offset extent) (extent_length extent))
               (WriterUnsupported "sparse extent overflow");
      reject_if (logical_size <? end_) (WriterUnsupported "sparse extent exceeds logical size");;
      stored_size ← ok_or (checked_add 64 stored_size (extent_length extent))
                      (WriterUnsupported "sparse stored size overflow");
      sparse_extent_loop extents (index + 1) end_ stored_size logical_size
  end.

Definition sparse_extent_bytes (extents : list SparseExtent) (logical_size : Z) : fresult Z :=
  reject_if (MAX_SPARSE_EXTENTS <? Z.of_nat (length extents))
    (WriterUnsupported "sparse extent count exceeds revision-45 limit");;
  sparse_extent_loop extents 0 0 0 logical_size.

Definition map_line (extent : SparseExtent) : bytes :=
  to_decimal (extent_offset extent) ++ [NEWLINE] ++ to_decimal (extent_length extent) ++ [NEWLINE].

(** The lines of the map, before padding. *)
Definition map_text (extents : list SparseExtent) : bytes :=
  to_decimal (Z.of_nat (length extents)) ++ [NEWLINE] ++ concat (map map_line extents).

Definition encode_v45_sparse_map (extents : list SparseExtent) (logical_size : Z) : fresult bytes :=
  sparse_extent_bytes extents logical_size;;
  let map := map_text extents in
  let padding := padding_to_512 (blen map) in
  size ← ok_or (checked_add 64 (blen map) padding) (WriterUnsupported "sparse map size overflow");
  mret (map ++ zeros (size - blen map)).

(** ** The reader of a whole payload *)
Definition parse_sparse_line (payload : bytes) (cursor : Z) : fresult (Z * Z) :=
  rest ← slice payload cursor (blen payload);
  relative ← ok_or (position NEWLINE rest) (InvalidArchive "sparse map line is truncated");
  end_ ← ok_or (checked_add 64 cursor relative) (InvalidArchive "sparse map overflow");
  line ← slice payload cursor end_;
  value ← parse_decimal_u64 line "sparse map value";
  mret (value, end_ + 1).

(** The checks of one extent; [first] says that no extent was kept yet. *)
Definition check_extent (first : bool) (offset length previous_end stored_extent_bytes logical_size : Z)
    : fresult (Z * Z) :=
  reject_if ((length =? 0) || (offset <? previous_end))
    (InvalidMetadata "SparsePayload" "extents overlap or have zero length");;
  reject_if (negb first && (offset =? previous_end))
    (InvalidMetadata "SparsePayload" "adjacent extents are not merged");;
  end_ ← ok_or (checked_add 64 offset length) (InvalidArchive "sparse extent overflow");
  reject_if (logical_size <? end_) (InvalidMetadata "SparsePayload" "extent exceeds logical size");;
  stored ← ok_or (checked_add 64 stored_extent_bytes length) (InvalidArchive "sparse stored size overflow");
  mret (end_, stored).

Fixpoint parse_sparse_extents (count : nat) (payload : bytes) (cursor : Z) (extents : list SparseExtent)
    (previous_end stored_extent_bytes logical_size : Z) : fresult (Z * list SparseExtent * Z) :=
  match count with
  | O => Ok (cursor, extents, stored_extent_bytes)
  | S count =>
      '(offset, cursor) ← parse_sparse_line payload cursor;
      '(length, cursor) ← parse_sparse_line payload cursor;
      '(end_, stored) ← check_extent (bool_decide (extents = [])) offset length previous_end
                          stored_extent_bytes logical_size;
      parse_sparse_extents count payload cursor
        (extents ++ [{| extent_offset := offset; extent_length := length |}]) end_ stored logical_size
  end.

Definition parse_sparse_payload (payload : bytes) (logical_size : Z) : fresult SparseLayout :=
  first_newline ← ok_or (position NEWLINE payload) (InvalidArchive "sparse extent count is missing");
  line ← slice payload 0 first_newline;
  count ← parse_decimal_usize line "sparse extent count";
  reject_if (MAX_SPARSE_EXTENTS <? count)
    (ReaderResourceLimitExceeded "sparse extent count" MAX_SPARSE_EXTENTS count);;
  '(cursor, extents, stored_extent_bytes) ←
    parse_sparse_extents (Z.to_nat count) payload (first_newline + 1) [] 0 0 logical_size;
  rounded ← ok_or (checked_add 64 cursor 511) (InvalidArchive "sparse map padding overflow");
  let map_and_padding_size := rounded / 512 * 512 in
  reject_if (blen payload <? map_and_padding_size)
    (InvalidMetadata "SparsePayload" "sparse map padding is invalid");;
  padding ← slice payload cursor map_and_padding_size;
  reject_if (negb (all_zero padding)) (InvalidMetadata "SparsePayload" "sparse map padding is invalid");;
  reject_if (negb (blen payload - map_and_padding_size =? stored_extent_bytes))
    (InvalidMetadata "SparsePayload" "sparse extent bytes do not match map");;
  mret {| sl_logical_size := logical_size; sl_map_and_padding_size := map_and_padding_size;
          sl_extents := extents |}.

(** ** The reader of a stream *)
Record SparseStreamValidator : Type := {
  sv_logical_size : Z;
  sv_position : Z;
  sv_line : bytes;
  sv_extent_count : option Z;
  sv_values_remaining : Z;
  sv_pending_offset : option Z;
  sv_previous_end : Z;
  sv_stored_extent_bytes : Z;
  sv_extents : list SparseExtent;
  sv_map_and_padding_size : option Z
}.

Definition SparseStreamValidator_new (logical_size : Z) : SparseStreamValidator := {|
  sv_logical_size := logical_size; sv_position := 0; sv_line := []; sv_extent_count := None;
  sv_values_remaining := 0; sv_pending_offset := None; sv_previous_end := 0;
  sv_stored_extent_bytes := 0; sv_extents := []; sv_map_and_padding_size := None
|}.

Definition with_position (s : SparseStreamValidator) (p : Z) : SparseStreamValidator := {|
  sv_logical_size := sv_logical_size s; sv_position := p; sv_line := sv_line s;
  sv_extent_count := sv_extent_count s; sv_values_remaining := sv_values_remaining s;
  sv_pending_offset := sv_pending_offset s; sv_previous_end := sv_previous_end s;
  sv_stored_extent_bytes := sv_stored_extent_bytes s; sv_extents := sv_extents s;
  sv_map_and_padding_size := sv_map_and_padding_size s |}.

Definition with_line (s : SparseStreamValidator) (line : bytes) : SparseStreamValidator := {|
  sv_logical_size := sv_logical_size s; sv_position := sv_position s; sv_line := line;
  sv_extent_count := sv_extent_count s; sv_values_remaining := sv_values_remaining s;
  sv_pending_offset := sv_pending_offset s; sv_previous_end := sv_previous_end s;
  sv_stored_extent_bytes := sv_stored_extent_bytes s; sv_extents := sv_extents s;
  sv_map_and_padding_size := sv_map_and_padding_size s |}.

Definition with_count (s : SparseStreamValidator) (count : Z) : SparseStreamValidator := {|
  sv_logical_size := sv_logical_size s; sv_position := sv_position s; sv_line := sv_line s;
  sv_extent_count := Some count; sv_values_remaining := count * 2;
  sv_pending_offset := sv_pending_offset s; sv_previous_end := sv_previous_end s;
  sv_stored_extent_bytes := sv_stored_extent_bytes s; sv_extents := sv_extents s;
  sv_map_and_padding_size := sv_map_and_padding_size s |}.

(** The first number of an extent waits for the second. *)
Definition with_offset (s : SparseStreamValidator) (offset : Z) : SparseStreamValidator := {|
  sv_logical_size := sv_logical_size s; sv_position := sv_position s; sv_line := sv_line s;
  sv_extent_count := sv_extent_count s; sv_values_remaining := sv_values_remaining s - 1;
  sv_pending_offset := Some offset; sv_previous_end := sv_previous_end s;
  sv_stored_extent_bytes := sv_stored_extent_bytes s; sv_extents := sv_extents s;
  sv_map_and_padding_size := sv_map_and_padding_size s |}.

Definition with_extent (s : SparseStreamValidator) (extent : SparseExtent) (end_ stored : Z)
    : SparseStreamValidator := {|
  sv_logical_size := sv_logical_size s; sv_position := sv_position s; sv_line := sv_line s;
  sv_extent_count := sv_extent_count s; sv_values_remaining := sv_values_remaining s - 1;
  sv_pending_offset := None; sv_previous_end := end_;
  sv_stored_extent_bytes := stored; sv_extents := sv_extents s ++ [extent];
  sv_map_and_padding_size := sv_map_and_padding_size s |}.

Definition with_map_size (s : SparseStreamValidator) (size : Z) : SparseStreamValidator := {|
  sv_logical_size := sv_logical_size s; sv_position := sv_position s; sv_line := sv_line s;
  sv_extent_count := sv_extent_count s; sv_values_remaining := sv_values_remaining s;
  sv_pending_offset := sv_pending_offset s; sv_previous_end := sv_previous_end s;
  sv_stored_extent_bytes := sv_stored_extent_bytes s; sv_extents := sv_extents s;
  sv_map_and_padding_size := Some size |}.

(** A number of the map has been read. *)
Definition observe_value (s : SparseStreamValidator) (value : Z) : fresult SparseStreamValidator :=
  match sv_extent_count s with
  | None =>
      count ← ok_or (try_from 64 value)
                (InvalidMetadata "sparse extent count" "decimal value exceeds usize");
      reject_if (MAX_SPARSE_EXTENTS <? count)
        (ReaderResourceLimitExceeded "sparse extent count" MAX_SPARSE_EXTENTS count);;
      ok_or (checked_mul 64 count 2) (InvalidArchive "sparse extent count overflow");;
      mret (with_count s count)
  | Some _ =>
      if negb (sv_values_remaining s =? 0) then
        match sv_pending_offset s with
        | None => mret (with_offset s value)
        | Some offset =>
            '(end_, stored) ← check_extent (bool_decide (sv_extents s = [])) offset value
                                (sv_previous_end s) (sv_stored_extent_bytes s) (sv_logical_size s);
            mret (with_extent s {| extent_offset := offset; extent_length := value |} end_ stored)
        end
      else invalid "SparsePayload" "sparse map has trailing lines"
  end.

(** [self.extent_count.is_some() && self.values_remaining == 0] *)
Definition complete_map (s : SparseStreamValidator) : fresult SparseStreamValidator :=
  if bool_decide (is_Some (sv_extent_count s)) && (sv_values_remaining s =? 0) then
    rounded ← ok_or (checked_add 64 (sv_position s) 511) (InvalidArchive "sparse map padding overflow");
    mret (with_map_size s (rounded / 512 * 512))
  else mret s.

Definition observe_byte (s : SparseStreamValidator) (x : Byte.byte) : fresult SparseStreamValidator :=
  match sv_map_and_padding_size s with
  | Some padded_end =>
      reject_if ((sv_position s <? padded_end) && negb (byte.unsigned x =? 0))
        (InvalidMetadata "SparsePayload" "sparse map padding is invalid");;
      p ← ok_or (checked_add 64 (sv_position s) 1) (InvalidArchive "sparse payload size overflow");
      mret (with_position s p)
  | None =>
      p ← ok_or (checked_add 64 (sv_position s) 1) (InvalidArchive "sparse payload size overflow");
      let s := with_position s p in
      if negb (bool_decide (x = NEWLINE)) then
        reject_if ((blen (sv_line s) =? 20) || negb (is_ascii_digit x))
          (InvalidMetadata "SparsePayload" "sparse map value is not canonical decimal");;
        mret (with_line s (sv_line s ++ [x]))
      else
        value ← parse_decimal_u64 (sv_line s) "sparse map value";
        s ← observe_value (with_line s []) value;
        complete_map s
  end.

Fixpoint SparseStreamValidator_observe (s : SparseStreamValidator) (b : bytes) : fresult SparseStreamValidator :=
  match b with
  | [] => Ok s
  | x :: b => s ← observe_byte s x; SparseStreamValidator_observe s b
  end.

Definition SparseStreamValidator_layout_if_map_complete (s : SparseStreamValidator) : option SparseLayout :=
  match sv_map_and_padding_size s with
  | Some padded => Some {| sl_logical_size := sv_logical_size s; sl_map_and_padding_size := padded;
                           sl_extents := sv_extents s |}
  | None => None
  end.

Definition SparseStreamValidator_finish (s : SparseStreamValidator) : fresult SparseLayout :=
  reject_if (negb (bool_decide (sv_line s = [])) || bool_decide (sv_extent_count s = None)
             || negb (sv_values_remaining s =? 0))
    (InvalidMetadata "SparsePayload" "sparse map is truncated");;
  padded ← ok_or (sv_map_and_padding_size s) (InvalidArchive "sparse map is missing");
  reject_if ((sv_position s <? padded) || negb (sv_position s - padded =? sv_stored_extent_bytes s))
    (InvalidMetadata "SparsePayload" "sparse extent bytes do not match map");;
  size ← ok_or (try_from 64 padded) (InvalidArchive "sparse map size exceeds platform limits");
  mret {| sl_logical_size := sv_logical_size s; sl_map_and_padding_size := size;
          sl_extents := sv_extents s |}.

(** ** Expansion into the logical file *)
Fixpoint expand_extents (extents : list SparseExtent) (data : bytes) (stored_cursor : Z) (logical : bytes)
    : fresult bytes :=
  match extents with
  | [] => Ok logical
  | extent :: extents =>
      extent_len ← ok_or (try_from 64 (extent_length extent))
                     (ReaderUnsupported "sparse extent exceeds platform limits");
      stored_end ← ok_or (checked_add 64 stored_cursor extent_len)
                     (InvalidArchive "sparse stored range overflow");
      logical_start ← ok_or (try_from 64 (extent_offset extent))
                        (ReaderUnsupported "sparse offset exceeds platform limits");
      logical_end ← ok_or (checked_add 64 logical_start extent_len)
                      (InvalidArchive "sparse logical range overflow");
      ok_or (get_range logical logical_start logical_end) (InvalidArchive "sparse logical range is invalid");;
      source ← ok_or (get_range data stored_cursor stored_end)
                 (InvalidArchive "sparse stored range is invalid");
      expand_extents extents data stored_end (put logical logical_start source)
  end.

(** The data of [ParsedTarMember::to_owned_member]. *)
Definition ParsedTarMember_to_owned_data (data : bytes) (sparse_layout : option SparseLayout) : fresult bytes :=
  match sparse_layout with
  | Some layout =>
      logical_len ← ok_or (try_from 64 (sl_logical_size layout))
                      (ReaderUnsupported "sparse logical size exceeds platform limits");
      expand_extents (sl_extents layout) data (sl_map_and_padding_size layout) (zeros logical_len)
  | None => Ok data
  end.

Definition example_extents : list SparseExtent :=
  [{| extent_offset := 2; extent_length := 3 |}; {| extent_offset := 7; extent_length := 1 |}].

Definition example_payload : bytes :=
  (map_text example_extents ++ zeros (512 - blen (map_text example_extents))) ++ ascii "abcd".

Definition example_layout : SparseLayout :=
  {| sl_logical_size := 10; sl_map_and_padding_size := 512; sl_extents := example_extents |}.

Example sparse_example :
  encode_v45_sparse_map example_extents 10 = Ok (take 512 example_payload)
  /\ parse_sparse_payload example_payload 10 = Ok example_layout
  /\ (s ← SparseStreamValidator_observe (SparseStreamValidator_new 10) example_payload;
      SparseStreamValidator_finish s) = Ok example_layout
  /\ ParsedTarMember_to_owned_data example_payload (Some example_layout)
     = Ok ([Byte.x00; Byte.x00] ++ ascii "abc" ++ [Byte.x00; Byte.x00] ++ ascii "d" ++ [Byte.x00; Byte.x00]).
Proof. split_and!; vm_compute; reflexivity. Qed.

(** ** What a sparse payload is *)
Definition extent_typed (e : SparseExtent) : Prop := u64 (extent_offset e) /\ u64 (extent_length e).

(** Extents that are not empty, ascend, stay inside the file, and are merged
    where they touch. *)
Fixpoint extents_ok (first : bool) (previous_end : Z) (extents : list SparseExtent) (logical_size : Z) : Prop :=
  match extents with
  | [] => True
  | e :: extents =>
      0 < extent_length e /\ previous_end <= extent_offset e
      /\ (first = false -> previous_end <> extent_offset e)
      /\ extent_offset e + extent_length e <= logical_size
      /\ extents_ok false (extent_offset e + extent_length e) extents logical_size
  end.

Definition total_length (extents : list SparseExtent) : Z := foldr (fun e n => extent_length e + n) 0 extents.

Definition padded_map (extents : list SparseExtent) : bytes :=
  map_text extents ++ zeros (padding_to_512 (blen (map_text extents))).

Definition sparse_payload (payload : bytes) (logical_size : Z) (layout : SparseLayout) : Prop :=
  exists extents data,
    Z.of_nat (length extents) <= MAX_SPARSE_EXTENTS /\ Forall extent_typed extents
    /\ extents_ok true 0 extents logical_size
    /\ payload = padded_map extents ++ data /\ blen data = total_length extents
    /\ layout = {| sl_logical_size := logical_size; sl_map_and_padding_size := blen (padded_map extents);
                   sl_extents := extents |}.

Lemma total_length_cons e extents : total_length (e :: extents) = extent_length e + total_length extents.
Proof. done. Qed.

Lemma padding_spec n : 0 <= n -> 0 <= padding_to_512 n < 512 /\ (n + 511) / 512 * 512 = n + padding_to_512 n.
Proof. intros Hn. unfold padding_to_512, TAR_BLOCK_LEN. case_match; divmod. Qed.

Lemma total_length_bound first previous extents logical :
  0 <= previous -> extents <> [] -> extents_ok first previous extents logical ->
  0 <= total_length extents <= logical - previous.
Proof.
  revert first previous. induction extents as [|e extents IH]; intros first previous Hp Hne H; [done|].
  cbn in H |- *. destruct H as (H1 & H2 & _ & H3 & H4).
  destruct extents as [|e' extents]; [cbn; lia|]. specialize (IH false (extent_offset e + extent_length e) ltac:(lia) ltac:(done) H4). cbn in IH |- *. lia.
Qed.

Lemma total_length_le first previous extents logical :
  0 <= previous -> 0 <= logical -> extents_ok first previous extents logical -> 0 <= total_length extents <= logical.
Proof.
  intros Hp Hl H. destruct extents as [|e extents]; [cbn; lia|].
  pose proof (total_length_bound first previous (e :: extents) logical Hp ltac:(done) H). lia.
Qed.

Lemma blen_map_line e : blen (map_line e) = width (extent_offset e) + width (extent_length e) + 2.
Proof. unfold map_line, width. blen_simpl. lia. Qed.

Lemma blen_map_text extents :
  Forall extent_typed extents -> Z.of_nat (length extents) <= MAX_SPARSE_EXTENTS ->
  2 <= blen (map_text extents) <= 21 + 42 * Z.of_nat (length extents).
Proof.
  intros Ht Hl. unfold map_text. blen_simpl. fold (width (Z.of_nat (length extents))).
  destruct (width_spec (Z.of_nat (length extents))) as [Hw _]; [unfold fits, MAX_SPARSE_EXTENTS in *; lia|].
  assert (0 <= blen (concat (map map_line extents)) <= 42 * Z.of_nat (length extents)) as Hb; [|lia].
  clear Hl Hw. induction Ht as [|e extents [Ho Hl] _ IH]; [done|]. cbn [map concat length]. rewrite blen_app, blen_map_line.
  destruct (width_spec _ Ho) as [Hwo _]. destruct (width_spec _ Hl) as [Hwl _]. lia.
Qed.

(** ** The writer writes such maps *)
Lemma sparse_extent_loop_Ok extents index previous stored logical r :
  Forall extent_typed extents -> 0 <= index -> 0 <= previous <= logical -> u64 logical -> 0 <= stored <= previous ->
  sparse_extent_loop extents index previous stored logical = Ok r
  <-> extents_ok (index =? 0) previous extents logical /\ r = stored + total_length extents.
Proof.
  intros Ht. revert index previous stored. induction Ht as [|e extents [Ho Hl] _ IH]; intros index previous stored Hi Hp Hlog Hs.
  { cbn. split; [intros [= <-]; split; [done|lia]|intros [_ ->]; f_equal; lia]. }
  cbn [sparse_extent_loop extents_ok total_length foldr]. change (foldr _ 0 extents) with (total_length extents).
  unfold fits in *. split.
  - intros H. ok_inv. match goal with H : sparse_extent_loop _ _ _ _ _ = Ok _ |- _ => apply IH in H as [H ->]; [|lia..] end.
    replace (index + 1 =? 0) with false in * by lia. split_and!; [lia|lia| |lia|done|lia].
    intros E. rewrite E in *. cbn in *. lia.
  - intros [(H1 & H2 & H3 & H4 & H5) ->].
    replace ((extent_length e =? 0) || (extent_offset e <? previous)) with false by lia. cbn [reject_if]. rewrite bind_ret.
    replace (negb (index =? 0) && (extent_offset e =? previous)) with false.
    2:{ symmetry. destruct (index =? 0); [done|]. specialize (H3 eq_refl). cbn. lia. }
    cbn [reject_if]. rewrite bind_ret, (checked_add_eq 64 (extent_offset e)) by lia. cbn [ok_or]. rewrite bind_ret.
    replace (logical <? extent_offset e + extent_length e) with false by lia. cbn [reject_if].
    rewrite bind_ret, checked_add_eq by lia. cbn [ok_or]. rewrite bind_ret.
    apply IH; [lia..|]. replace (index + 1 =? 0) with false by lia. split; [done|lia].
Qed.

Lemma sparse_extent_bytes_Ok extents logical r :
  Forall extent_typed extents -> u64 logical ->
  sparse_extent_bytes extents logical = Ok r
  <-> Z.of_nat (length extents) <= MAX_SPARSE_EXTENTS /\ extents_ok true 0 extents logical /\ r = total_length extents.
Proof.
  intros Ht Hl. unfold sparse_extent_bytes. rewrite bind_Ok. split.
  - intros ([] & Hm & H). apply reject_if_Ok in Hm. apply sparse_extent_loop_Ok in H as [H ->]; [|unfold fits in *; (done || lia)..].
    split_and!; [lia|done|lia].
  - intros (Hm & H & ->). exists tt. split; [apply reject_if_Ok; lia|].
    apply sparse_extent_loop_Ok; [unfold fits in *; (done || lia)..|]. split; [done|lia].
Qed.

Lemma encode_v45_sparse_map_Ok extents logical encoded :
  Forall extent_typed extents -> u64 logical ->
  encode_v45_sparse_map extents logical = Ok encoded
  <-> Z.of_nat (length extents) <= MAX_SPARSE_EXTENTS /\ extents_ok true 0 extents logical /\ encoded = padded_map extents.
Proof.
  intros Ht Hl. unfold encode_v45_sparse_map, padded_map. rewrite bind_Ok. setoid_rewrite sparse_extent_bytes_Ok; [|done..].
  assert (Z.of_nat (length extents) <= MAX_SPARSE_EXTENTS ->
    (size ← ok_or (checked_add 64 (blen (map_text extents)) (padding_to_512 (blen (map_text extents))))
              (WriterUnsupported "sparse map size overflow");
     mret (map_text extents ++ zeros (size - blen (map_text extents))))
    = (Ok (map_text extents ++ zeros (padding_to_512 (blen (map_text extents)))) : fresult bytes)) as E.
  { intros Hm. pose proof (blen_map_text extents Ht Hm) as Hb. destruct (padding_spec (blen (map_text extents))) as [Hp _]; [lia|].
    unfold MAX_SPARSE_EXTENTS in Hm. rewrite checked_add_eq by lia. cbn [ok_or]. rewrite bind_ret, mret_eq, Z.add_simpl_l. done. }
  split.
  - intros (r & (Hm & Hok & ->) & H). rewrite E in H by done. injection H as <-. done.
  - intros (Hm & Hok & ->). exists (total_length extents). split; [done|]. by apply E.
Qed.

(** ** The reader of a whole payload *)
Lemma check_extent_Ok first offset length previous stored logical e st :
  u64 offset -> u64 length -> u64 logical -> 0 <= stored <= previous ->
  check_extent first offset length previous stored logical = Ok (e, st)
  <-> 0 < length /\ previous <= offset /\ (first = false -> previous <> offset) /\ offset + length <= logical
      /\ e = offset + length /\ st = stored + length.
Proof.
  unfold fits. intros Ho Hl Hlog Hs. unfold check_extent. split.
  - intros H. ok_inv. split_and!; try lia. intros ->. cbn in *. lia.
  - intros (H1 & H2 & H3 & H4 & -> & ->).
    replace ((length =? 0) || (offset <? previous)) with false by lia. cbn [reject_if]. rewrite bind_ret.
    replace (negb first && (offset =? previous)) with false.
    2:{ destruct first; [done|]. specialize (H3 eq_refl). cbn. lia. }
    cbn [reject_if]. rewrite bind_ret, (checked_add_eq 64 offset) by lia. cbn [ok_or]. rewrite bind_ret.
    replace (logical <? offset + length) with false by lia. cbn [reject_if].
    rewrite bind_ret, checked_add_eq by lia. done.
Qed.

Lemma to_decimal_no_newline n : u64 n -> NEWLINE ∉ to_decimal n.
Proof.
  intros Hn. destruct (to_decimal_digits n Hn) as (ds & -> & Hd & _).
  by eapply number_not_elem; [apply map_digits_number|].
Qed.

Lemma parse_sparse_line_Ok pre rest v c :
  blen (pre ++ rest) < 2 ^ 63 ->
  parse_sparse_line (pre ++ rest) (blen pre) = Ok (v, c)
  <-> u64 v /\ exists rest', rest = to_decimal v ++ NEWLINE :: rest' /\ c = blen (pre ++ to_decimal v ++ [NEWLINE]).
Proof.
  intros Hlen. pose proof (blen_nonneg pre). unfold parse_sparse_line. rewrite slice_suffix, bind_ret by done. split.
  - intros H1. rewrite bind_Ok in H1. destruct H1 as (i & Hi & H1). apply ok_or_Ok, position_Some in Hi as (l & r & -> & _ & ->).
    rewrite bind_Ok in H1. destruct H1 as (e & He & H1). apply ok_or_Ok, checked_add_Some in He as [_ ->].
    rewrite (slice_middle pre l (NEWLINE :: r)), bind_ret in H1 by done. rewrite bind_Ok in H1.
    destruct H1 as (n & Hn & [= <- <-]). apply parse_decimal_u64_Ok in Hn as [Hn ->].
    split; [done|]. exists r. split; [done|]. blen_simpl. lia.
  - intros (Hv & rest' & -> & ->). rewrite (proj2 (position_Some NEWLINE _ (blen (to_decimal v)))) by (exists (to_decimal v), rest'; auto using to_decimal_no_newline).
    cbn [ok_or]. rewrite bind_ret. rewrite !blen_app in Hlen. pose proof (blen_nonneg (NEWLINE :: rest')).
    pose proof (blen_nonneg (to_decimal v)).
    rewrite checked_add_eq by lia. cbn [ok_or]. rewrite bind_ret, (slice_middle pre (to_decimal v)), bind_ret by done.
    rewrite (proj2 (parse_decimal_u64_Ok _ _ v)), bind_ret by done. rewrite mret_eq. do 2 f_equal. blen_simpl. lia.
Qed.

Lemma parse_sparse_extents_Ok n pre rest acc previous stored logical c extents st :
  blen (pre ++ rest) < 2 ^ 63 -> u64 logical -> 0 <= stored <= previous -> previous <= logical ->
  parse_sparse_extents n (pre ++ rest) (blen pre) acc previous stored logical = Ok (c, extents, st)
  <-> exists es rest', length es = n /\ Forall extent_typed es /\ rest = concat (map map_line es) ++ rest'
        /\ extents_ok (bool_decide (acc = [])) previous es logical
        /\ c = blen (pre ++ concat (map map_line es)) /\ extents = acc ++ es /\ st = stored + total_length es.
Proof.
  intros Hlen Hlog. revert pre rest acc previous stored Hlen. induction n as [|n IH]; intros pre rest acc previous stored Hlen Hs Hp.
  { cbn [parse_sparse_extents]. split.
    - intros [= <- <- <-]. exists [], rest. cbn. rewrite !app_nil_r. split_and!; [done|constructor|done|done|done|done|lia].
    - intros (es & rest' & Hes & _ & -> & _ & -> & -> & ->). destruct es; [|done]. cbn. rewrite !app_nil_r, Z.add_0_r. done. }
  cbn [parse_sparse_extents]. rewrite bind_Ok. split.
  - intros ([off c1] & H1 & H). apply parse_sparse_line_Ok in H1 as (Ho & r1 & -> & ->); [|done].
    rewrite bind_Ok in H. destruct H as ([len c2] & H2 & H).
    replace (pre ++ to_decimal off ++ NEWLINE :: r1) with ((pre ++ to_decimal off ++ [NEWLINE]) ++ r1) in H2, H, Hlen by app_eq.
    apply parse_sparse_line_Ok in H2 as (Hl & r2 & -> & ->); [|done].
    rewrite bind_Ok in H. destruct H as ([e s] & H3 & H). apply check_extent_Ok in H3 as (K1 & K2 & K3 & K4 & -> & ->); [|done..].
    replace ((pre ++ to_decimal off ++ [NEWLINE]) ++ to_decimal len ++ NEWLINE :: r2)
      with (((pre ++ to_decimal off ++ [NEWLINE]) ++ to_decimal len ++ [NEWLINE]) ++ r2) in H, Hlen by app_eq.
    apply IH in H as (es & rest' & Hn & Ht & -> & Hok & -> & -> & ->); [|done|lia|lia].
    exists ({| extent_offset := off; extent_length := len |} :: es), rest'. split_and!.
    + cbn. by rewrite Hn.
    + by constructor.
    + cbn [map concat]. unfold map_line at 2. cbn [extent_offset extent_length]. app_eq.
    + cbn. split_and!; [lia|lia|done|lia|]. by rewrite bool_decide_eq_false_2 in Hok by (by destruct acc).
    + cbn [map concat]. unfold map_line at 2. cbn [extent_offset extent_length]. f_equal. app_eq.
    + app_eq.
    + rewrite total_length_cons. cbn [extent_length]. lia.
  - intros (es & rest' & Hn & Ht & -> & Hok & -> & -> & ->). destruct es as [|[off len] es]; [done|].
    apply Forall_cons in Ht as [[Ho Hl] Ht]. cbn in Hok, Ho, Hl. destruct Hok as (K1 & K2 & K3 & K4 & Hok).
    cbn [map concat] in *.
    set (line := map_line {| extent_offset := off; extent_length := len |}) in *.
    set (payload := pre ++ (line ++ concat (map map_line es)) ++ rest') in *.
    assert (payload = pre ++ to_decimal off ++ NEWLINE :: (to_decimal len ++ NEWLINE :: concat (map map_line es) ++ rest')) as E1
      by (unfold payload, line, map_line at 1; cbn [extent_offset extent_length]; app_eq).
    assert (payload = (pre ++ to_decimal off ++ [NEWLINE]) ++ to_decimal len ++ NEWLINE :: (concat (map map_line es) ++ rest')) as E2
      by (rewrite E1; app_eq).
    assert (payload = ((pre ++ to_decimal off ++ [NEWLINE]) ++ to_decimal len ++ [NEWLINE]) ++ (concat (map map_line es) ++ rest')) as E3
      by (rewrite E1; app_eq).
    exists (off, blen (pre ++ to_decimal off ++ [NEWLINE])). split.
    { rewrite E1 in *. apply parse_sparse_line_Ok; [done|]. split; [done|]. by eexists. }
    rewrite bind_Ok. exists (len, blen ((pre ++ to_decimal off ++ [NEWLINE]) ++ to_decimal len ++ [NEWLINE])). split.
    { rewrite E2 in *. apply parse_sparse_line_Ok; [done|]. split; [done|]. by eexists. }
    rewrite bind_Ok. exists (off + len, stored + len). split; [by apply check_extent_Ok|].
    rewrite E3 in *. apply IH; [done|lia|lia|]. exists es, rest'.
    split_and!; [by injection Hn|done|done| | |app_eq|rewrite total_length_cons; cbn [extent_length]; lia].
    + by rewrite bool_decide_eq_false_2 by (by destruct acc).
    + unfold line, map_line at 1. cbn [extent_offset extent_length]. f_equal. app_eq.
Qed.

Lemma map_text_length extents : 0 < blen (map_text extents).
Proof. unfold map_text. blen_simpl. pose proof (blen_nonneg (to_decimal (Z.of_nat (length extents)))).
  pose proof (blen_nonneg (concat (map map_line extents))). lia. Qed.

Lemma count_u64 {A} (l : list A) : Z.of_nat (length l) <= MAX_SPARSE_EXTENTS -> u64 (Z.of_nat (length l)).
Proof. unfold fits, MAX_SPARSE_EXTENTS. lia. Qed.

Lemma parse_sparse_payload_Ok payload logical layout :
  blen payload < 2 ^ 63 -> u64 logical ->
  parse_sparse_payload payload logical = Ok layout <-> sparse_payload payload logical layout.
Proof.
  intros Hlen Hlog. unfold parse_sparse_payload, sparse_payload. split.
  - intros H. rewrite bind_Ok in H. destruct H as (i & Hi & H). apply ok_or_Ok, position_Some in Hi as (l & r & -> & _ & ->).
    rewrite slice_prefix, bind_ret in H by done. rewrite bind_Ok in H. destruct H as (count & Hc & H).
    apply parse_decimal_usize_Ok in Hc as [Hc ->]. rewrite bind_Ok in H. destruct H as ([] & Hm & H). apply reject_if_Ok in Hm.
    rewrite bind_Ok in H. destruct H as ([[c es] st] & He & H).
    replace (to_decimal count ++ NEWLINE :: r) with ((to_decimal count ++ [NEWLINE]) ++ r) in * by app_eq.
    replace (blen (to_decimal count) + 1) with (blen (to_decimal count ++ [NEWLINE])) in He by (blen_simpl; lia).
    apply parse_sparse_extents_Ok in He as (es' & rest' & Hn & Ht & -> & Hok & -> & -> & ->); [|unfold fits in *; (done || lia)..].
    cbn [app] in *. unfold fits in Hc. assert (Z.of_nat (length es') = count) as Hcount by lia.
    replace ((to_decimal count ++ [NEWLINE]) ++ concat (map map_line es') ++ rest') with (map_text es' ++ rest') in *
      by (unfold map_text; rewrite Hcount; app_eq).
    replace ((to_decimal count ++ [NEWLINE]) ++ concat (map map_line es')) with (map_text es') in *
      by (unfold map_text; rewrite Hcount; app_eq).
    pose proof (blen_nonneg (map_text es')) as Hm0. destruct (padding_spec (blen (map_text es')) Hm0) as [Hp1 Hp2].
    set (pad := padding_to_512 (blen (map_text es'))) in *.
    rewrite blen_app in *. rewrite bind_Ok in H. destruct H as (rounded & Hr & H). apply ok_or_Ok, checked_add_Some in Hr as [_ ->].
    cbv zeta in H. rewrite Hp2 in H. rewrite bind_Ok in H. destruct H as ([] & Hb & H). apply reject_if_Ok in Hb.
    set (data := drop (Z.to_nat pad) rest'). assert (rest' = take (Z.to_nat pad) rest' ++ data) as Erest by (unfold data; by rewrite take_drop).
    assert (blen (take (Z.to_nat pad) rest') = pad) as Htake by (unfold blen in *; rewrite length_take; lia).
    rewrite Erest in H. rewrite slice_middle in H by lia. rewrite bind_ret, bind_Ok in H. destruct H as ([] & Hz & H).
    apply reject_if_Ok in Hz. rewrite negb_false_iff in Hz. apply all_zero_iff in Hz. rewrite Htake in Hz.
    rewrite bind_Ok in H. destruct H as ([] & Hd & [= <-]). apply reject_if_Ok in Hd. rewrite negb_false_iff in Hd.
    rewrite Z.add_0_l in Hd. apply Z.eqb_eq in Hd.
    exists es', data. split_and!; [lia|done|done| | |].
    + unfold padded_map. fold pad. rewrite Erest, Hz at 1. app_eq.
    + rewrite <- Hd, blen_app, Htake. lia.
    + unfold padded_map. fold pad. rewrite blen_app, blen_zeros by lia. done.
  - intros (es & data & Hm & Ht & Hok & -> & Hd & ->).
    pose proof (blen_map_text es Ht Hm) as Hb. destruct (padding_spec (blen (map_text es))) as [Hp1 Hp2]; [lia|].
    pose proof (count_u64 es Hm) as Hcu. unfold padded_map in *. set (pad := padding_to_512 (blen (map_text es))) in *.
    set (count := Z.of_nat (length es)) in *. rewrite !blen_app, blen_zeros in * by lia. pose proof (blen_nonneg data).
    set (payload := (map_text es ++ zeros pad) ++ data).
    assert (payload = to_decimal count ++ NEWLINE :: (concat (map map_line es) ++ zeros pad ++ data)) as E1
      by (unfold payload, map_text; fold count; app_eq).
    assert (payload = (to_decimal count ++ [NEWLINE]) ++ (concat (map map_line es) ++ zeros pad ++ data)) as E2
      by (rewrite E1; app_eq).
    assert (payload = map_text es ++ zeros pad ++ data) as E3 by (unfold payload; app_eq).
    assert (blen payload = blen (map_text es) + pad + blen data) as Lp by (rewrite E3, !blen_app, blen_zeros by lia; lia).
    rewrite E1 at 1. rewrite (proj2 (position_Some NEWLINE _ (blen (to_decimal count)))).
    2:{ eexists _, _. split_and!; [done|by apply to_decimal_no_newline|done]. }
    cbn [ok_or]. rewrite bind_ret. rewrite E1 at 1. rewrite slice_prefix, bind_ret by done.
    rewrite (proj2 (parse_decimal_usize_Ok _ _ count)), bind_ret by done.
    replace (MAX_SPARSE_EXTENTS <? count) with false by lia. cbn [reject_if]. rewrite bind_ret.
    replace (blen (to_decimal count) + 1) with (blen (to_decimal count ++ [NEWLINE])) by (blen_simpl; lia).
    assert (parse_sparse_extents (Z.to_nat count) payload (blen (to_decimal count ++ [NEWLINE])) [] 0 0 logical
            = Ok (blen (map_text es), es, total_length es)) as ->.
    { rewrite E2. apply parse_sparse_extents_Ok; [by rewrite <- E2, Lp; lia|done|lia|unfold fits in *; lia|].
      exists es, (zeros pad ++ data). split_and!; [unfold count; lia|done|done|done| |done|lia].
      unfold map_text. fold count. f_equal. app_eq. }
    rewrite bind_ret. cbv beta iota zeta. unfold MAX_SPARSE_EXTENTS in Hm. rewrite checked_add_eq by lia. cbn [ok_or].
    rewrite bind_ret, Hp2. cbv zeta. replace (blen (map_text es) + pad + blen data <? blen (map_text es) + pad) with false by lia. cbn [reject_if]. rewrite bind_ret.
    rewrite E3 at 1. rewrite slice_middle, bind_ret by (rewrite ?blen_zeros; lia).
    rewrite (proj2 (all_zero_iff (zeros pad))) by (by rewrite blen_zeros by lia). cbn [negb reject_if]. rewrite bind_ret.
    replace (blen (map_text es) + pad + blen data - (blen (map_text es) + pad) =? total_length es) with true by lia. done.
Qed.

(** ** The reader of a stream *)

(** Feeding the validator in pieces is the same as feeding it at once. *)
Lemma SparseStreamValidator_observe_app s a b :
  SparseStreamValidator_observe s (a ++ b)
  = (s ← SparseStreamValidator_observe s a; SparseStreamValidator_observe s b).
Proof.
  revert s. induction a as [|x a IH]; intros s; [done|]. cbn [app SparseStreamValidator_observe].
  destruct (observe_byte s x); cbn; [apply IH|done|done].
Qed.

(** The validator accepts the rest of a payload. *)
Definition accepts (s : SparseStreamValidator) (b : bytes) (layout : SparseLayout) : Prop :=
  (s ← SparseStreamValidator_observe s b; SparseStreamValidator_finish s) = Ok layout.

Lemma accepts_cons s x b layout :
  accepts s (x :: b) layout <-> exists s', observe_byte s x = Ok s' /\ accepts s' b layout.
Proof.
  unfold accepts. cbn [SparseStreamValidator_observe]. rewrite bind_Ok. split.
  - intros (s2 & H & Hf). rewrite bind_Ok in H. destruct H as (s1 & H1 & H2). exists s1. split; [done|]. rewrite bind_Ok. eauto.
  - intros (s1 & H1 & H). rewrite bind_Ok in H. destruct H as (s2 & H2 & Hf). exists s2. split; [|done]. rewrite bind_Ok. eauto.
Qed.

(** What must follow a map that ends at [pos]. *)
Definition tail_ok (pos stored : Z) (rest : bytes) : Prop :=
  let padded := pos + padding_to_512 pos in
  all_zero (take (Z.to_nat (padded - pos)) rest) = true
  /\ padded <= pos + blen rest /\ pos + blen rest - padded = stored.

Lemma accepts_data s b layout padded count :
  sv_map_and_padding_size s = Some padded -> sv_line s = [] -> sv_extent_count s = Some count ->
  sv_values_remaining s = 0 -> 0 <= sv_position s -> sv_position s + blen b < 2 ^ 64 -> u64 padded ->
  accepts s b layout
  <-> all_zero (take (Z.to_nat (padded - sv_position s)) b) = true
      /\ padded <= sv_position s + blen b /\ sv_position s + blen b - padded = sv_stored_extent_bytes s
      /\ layout = {| sl_logical_size := sv_logical_size s; sl_map_and_padding_size := padded; sl_extents := sv_extents s |}.
Proof.
  intros Hm Hl Hc Hv Hp Hb Hpad. revert s Hm Hl Hc Hv Hp Hb. induction b as [|x b IH]; intros s Hm Hl Hc Hv Hp Hb.
  - unfold accepts. cbn [SparseStreamValidator_observe]. rewrite bind_ret. unfold SparseStreamValidator_finish.
    rewrite Hl, Hc, Hv, Hm. cbn [ok_or]. rewrite bool_decide_eq_true_2, (bool_decide_eq_false_2 (Some count = None)) by done.
    cbn [negb orb reject_if Z.eqb]. rewrite !bind_ret. change (blen []) with 0. rewrite Z.add_0_r, take_nil.
    rewrite (proj2 (try_from_Some 64 padded padded)) by done. split.
    + intros H. ok_inv. split_and!; [done|lia|lia|done].
    + intros (_ & H1 & H2 & ->). replace ((sv_position s <? padded) || _) with false; [done|].
      rewrite H2, Z.eqb_refl. cbn. lia.
  - rewrite accepts_cons. rewrite blen_cons in *. pose proof (blen_nonneg b). unfold observe_byte. rewrite Hm.
    set (s1 := with_position s (sv_position s + 1)).
    assert (accepts s1 b layout <->
      all_zero (take (Z.to_nat (padded - (sv_position s + 1))) b) = true /\ padded <= sv_position s + 1 + blen b
      /\ sv_position s + 1 + blen b - padded = sv_stored_extent_bytes s
      /\ layout = {| sl_logical_size := sv_logical_size s; sl_map_and_padding_size := padded; sl_extents := sv_extents s |}) as IH1.
    { apply (IH s1); try done; unfold s1; cbn [sv_position with_position]; lia. }
    assert (all_zero (take (Z.to_nat (padded - sv_position s)) (x :: b)) = true <->
      (sv_position s <? padded) && negb (byte.unsigned x =? 0) = false
      /\ all_zero (take (Z.to_nat (padded - (sv_position s + 1))) b) = true) as Hz.
    { destruct (Z.ltb_spec (sv_position s) padded) as [Hlt|Hge].
      - replace (Z.to_nat (padded - sv_position s)) with (S (Z.to_nat (padded - (sv_position s + 1)))) by lia.
        cbn [firstn all_zero forallb]. rewrite andb_true_iff. cbn [andb]. rewrite negb_false_iff. tauto.
      - replace (Z.to_nat (padded - sv_position s)) with 0%nat by lia.
        replace (Z.to_nat (padded - (sv_position s + 1))) with 0%nat by lia. cbn. tauto. }
    rewrite Hz. split.
    + intros (s' & H12 & H3). rewrite bind_Ok in H12. destruct H12 as ([] & H1 & H2). apply reject_if_Ok in H1.
      rewrite checked_add_eq in H2 by lia. injection H2 as <-.
      apply IH1 in H3 as (K1 & K2 & K3 & K4). split_and!; [done|done|lia|lia|done].
    + intros ((K1 & K2) & K3 & K4 & K5). exists s1. split.
      * rewrite K1. cbn [reject_if]. rewrite bind_ret, checked_add_eq by lia. done.
      * apply IH1. split_and!; [done|lia|lia|done].
Qed.

(** A number that ends with a line break. *)
Definition value_step (s : SparseStreamValidator) (value : Z) : fresult SparseStreamValidator :=
  s ← observe_value s value; complete_map s.

Lemma not_newline_digit x : is_ascii_digit x = true -> x <> NEWLINE.
Proof. intros H ->. by vm_compute in H. Qed.

Lemma to_decimal_all_digits n : u64 n -> forallb is_ascii_digit (to_decimal n) = true.
Proof.
  intros Hn. destruct (to_decimal_digits n Hn) as (ds & -> & Hd & _).
  rewrite (forallb_ext' _ _ _ is_ascii_digit_canonical). by apply digits_canonical.
Qed.

Lemma with_line_position s p l q m : with_line (with_position (with_line (with_position s p) l) q) m = with_line (with_position s q) m.
Proof. done. Qed.

Lemma accepts_line s b layout :
  sv_map_and_padding_size s = None -> (sv_extent_count s = None \/ sv_values_remaining s <> 0) ->
  0 <= sv_position s -> sv_position s + blen b < 2 ^ 64 -> (length (sv_line s) <= 20)%nat ->
  accepts s b layout
  <-> exists d rest v, b = d ++ NEWLINE :: rest /\ u64 v /\ sv_line s ++ d = to_decimal v
        /\ exists s', value_step (with_line (with_position s (sv_position s + blen d + 1)) []) v = Ok s'
                      /\ accepts s' rest layout.
Proof.
  revert s. induction b as [|x b IH]; intros s Hm Hu Hp Hb Hl.
  - split.
    + unfold accepts. cbn [SparseStreamValidator_observe]. rewrite bind_ret. unfold SparseStreamValidator_finish.
      intros H. rewrite bind_Ok in H. destruct H as ([] & H & _). apply reject_if_Ok in H.
      rewrite !orb_false_iff, !negb_false_iff, bool_decide_eq_false in H. destruct H as [[_ H1] H2]. exfalso.
      destruct Hu as [Hu|Hu]; [done|lia].
    + intros (d & rest & v & H & _). by destruct d.
  - rewrite accepts_cons. rewrite blen_cons in Hb. pose proof (blen_nonneg b). unfold observe_byte. rewrite Hm.
    rewrite checked_add_eq by lia. cbn [ok_or]. rewrite bind_ret. cbv zeta.
    destruct (decide (x = NEWLINE)) as [->|Hx].
    + rewrite bool_decide_eq_true_2 by done. cbn [negb]. change (sv_line (with_position s (sv_position s + 1))) with (sv_line s). split.
      * intros (s' & H1 & H2). rewrite bind_Ok in H1. destruct H1 as (v & Hv & H1). apply parse_decimal_u64_Ok in Hv as [Hv E].
        exists [], b, v. split_and!; [done|done|by rewrite app_nil_r|]. exists s'. split; [|done].
        change (blen []) with 0. by rewrite Z.add_0_r.
      * intros (d & rest & v & E & Hv & Ed & s' & H1 & H2). destruct d as [|y d].
        -- injection E as ->. rewrite app_nil_r in Ed. exists s'. split; [|done]. rewrite bind_Ok. exists v.
           split; [by apply parse_decimal_u64_Ok|]. change (blen []) with 0 in H1. by rewrite Z.add_0_r in H1.
        -- exfalso. injection E as <- _. apply (to_decimal_no_newline v Hv). rewrite <- Ed, elem_of_app, elem_of_cons. auto.
    + rewrite bool_decide_eq_false_2 by done. cbn [negb]. change (sv_line (with_position s (sv_position s + 1))) with (sv_line s). split.
      * intros (s' & H1 & H2). rewrite bind_Ok in H1. destruct H1 as ([] & H1 & [= <-]). apply reject_if_Ok, orb_false_iff in H1 as [H1 _].
        apply IH in H2; [|done|done|cbn; lia|cbn; lia|cbn; rewrite length_app; unfold blen in H1; cbn; lia].
        destruct H2 as (d & rest & v & -> & Hv & Ed & s' & H3 & H4). exists (x :: d), rest, v.
        split_and!; [done|done|cbn in Ed; by rewrite <- app_assoc in Ed|]. exists s'. split; [|done].
        cbn [sv_position with_line with_position] in H3. rewrite with_line_position in H3. rewrite blen_cons.
        by replace (sv_position s + (1 + blen d) + 1) with (sv_position s + 1 + blen d + 1) by lia.
      * intros (d & rest & v & E & Hv & Ed & s' & H1 & H2). destruct d as [|y d]; [by injection E as ->|]. injection E as <- ->.
        pose proof (to_decimal_all_digits v Hv) as Hd. rewrite <- Ed, forallb_app in Hd. apply andb_true_iff in Hd as [_ Hd].
        cbn in Hd. apply andb_true_iff in Hd as [Hd _].
        destruct (width_spec v Hv) as [Hw _]. unfold width in Hw. rewrite <- Ed, blen_app, blen_cons in Hw. pose proof (blen_nonneg d).
        eexists. split.
        -- rewrite Hd. replace (blen (sv_line s) =? 20) with false by lia. cbn [negb orb reject_if]. rewrite bind_ret, mret_eq. reflexivity.
        -- apply IH; [done|done|cbn; lia|cbn; lia|cbn; rewrite length_app; unfold blen in Hw; cbn; lia|].
           exists d, rest, v. split_and!; [done|done|cbn; by rewrite <- app_assoc|]. exists s'. split; [|done].
           cbn [sv_position with_line with_position]. rewrite with_line_position. rewrite blen_cons in H1.
           by replace (sv_position s + 1 + blen d + 1) with (sv_position s + (1 + blen d) + 1) by lia.
Qed.

Definition map_state (logical pos count remaining previous stored : Z) (acc : list SparseExtent) : SparseStreamValidator := {|
  sv_logical_size := logical; sv_position := pos; sv_line := []; sv_extent_count := Some count;
  sv_values_remaining := remaining; sv_pending_offset := None; sv_previous_end := previous;
  sv_stored_extent_bytes := stored; sv_extents := acc; sv_map_and_padding_size := None |}.

Lemma complete_map_last logical pos count previous stored acc :
  0 <= pos -> pos + 511 < 2 ^ 64 ->
  complete_map (map_state logical pos count 0 previous stored acc)
  = Ok (with_map_size (map_state logical pos count 0 previous stored acc) (pos + padding_to_512 pos)).
Proof.
  intros H0 H. unfold complete_map. cbn [sv_extent_count sv_values_remaining map_state sv_position].
  rewrite bool_decide_eq_true_2 by eauto. cbn [andb Z.eqb]. rewrite checked_add_eq by lia. cbn [ok_or]. rewrite bind_ret.
  by destruct (padding_spec pos H0) as [_ ->].
Qed.

(** A complete map is followed by padding and data. *)
Lemma accepts_after_map logical pos count previous stored acc rest layout :
  0 <= pos -> pos + 511 < 2 ^ 64 -> pos + blen rest < 2 ^ 64 ->
  accepts (with_map_size (map_state logical pos count 0 previous stored acc) (pos + padding_to_512 pos)) rest layout
  <-> tail_ok pos stored rest
      /\ layout = {| sl_logical_size := logical; sl_map_and_padding_size := pos + padding_to_512 pos; sl_extents := acc |}.
Proof.
  intros H0 H1 H2. destruct (padding_spec pos H0) as [Hp _].
  rewrite (accepts_data _ _ _ (pos + padding_to_512 pos) count) by (try done; unfold fits; cbn; lia).
  unfold tail_ok. cbn [sv_position sv_stored_extent_bytes sv_logical_size sv_extents map_state with_map_size]. tauto.
Qed.

Lemma value_step_offset logical pos count remaining previous stored acc v p :
  remaining <> 0 -> remaining - 1 <> 0 ->
  value_step (with_line (with_position (map_state logical pos count remaining previous stored acc) p) []) v
  = Ok (with_offset (map_state logical p count remaining previous stored acc) v).
Proof.
  intros H1 H2. unfold value_step, observe_value.
  cbn [sv_extent_count sv_values_remaining sv_pending_offset map_state with_line with_position].
  replace (remaining =? 0) with false by lia. cbn [negb]. rewrite mret_eq, bind_ret. unfold complete_map.
  cbn [sv_extent_count sv_values_remaining map_state with_line with_position with_offset].
  replace (remaining - 1 =? 0) with false by lia. by rewrite andb_false_r.
Qed.

Lemma value_step_length logical pos count remaining previous stored acc off v p s' :
  remaining - 1 <> 0 -> u64 off -> u64 v -> u64 logical -> 0 <= stored <= previous ->
  value_step (with_line (with_position (with_offset (map_state logical pos count remaining previous stored acc) off) p) []) v = Ok s'
  <-> (0 < v /\ previous <= off /\ (bool_decide (acc = []) = false -> previous <> off) /\ off + v <= logical)
      /\ complete_map (map_state logical p count (remaining - 1 - 1) (off + v) (stored + v)
                        (acc ++ [{| extent_offset := off; extent_length := v |}])) = Ok s'.
Proof.
  intros H1 Ho Hv Hlog Hs. unfold value_step, observe_value.
  cbn [sv_extent_count sv_values_remaining sv_pending_offset map_state with_line with_position with_offset sv_extents
       sv_previous_end sv_stored_extent_bytes sv_logical_size].
  replace (remaining - 1 =? 0) with false by lia. cbn [negb]. rewrite bind_Ok. split.
  - intros (s1 & H2 & H3). rewrite bind_Ok in H2. destruct H2 as ([e st] & H2 & [= <-]).
    apply check_extent_Ok in H2 as (K1 & K2 & K3 & K4 & -> & ->); [|done..]. split; [done|]. exact H3.
  - intros ((K1 & K2 & K3 & K4) & H2). eexists. split; [|exact H2]. rewrite bind_Ok. exists (off + v, stored + v).
    split; [by apply check_extent_Ok|]. done.
Qed.

Lemma accepts_extent logical pos count remaining previous stored acc rest layout :
  u64 logical -> 0 <= stored <= previous -> 0 <= pos -> pos + blen rest + 1 < 2 ^ 64 -> 2 <= remaining ->
  accepts (map_state logical pos count remaining previous stored acc) rest layout
  <-> exists off len r, u64 off /\ u64 len /\ rest = map_line {| extent_offset := off; extent_length := len |} ++ r
        /\ (0 < len /\ previous <= off /\ (bool_decide (acc = []) = false -> previous <> off) /\ off + len <= logical)
        /\ exists s', complete_map (map_state logical (pos + blen (map_line {| extent_offset := off; extent_length := len |}))
                       count (remaining - 1 - 1) (off + len) (stored + len)
                       (acc ++ [{| extent_offset := off; extent_length := len |}])) = Ok s'
                     /\ accepts s' r layout.
Proof.
  intros Hlog Hs Hpos Hlen Hrem.
  assert (forall off len r, blen (map_line {| extent_offset := off; extent_length := len |} ++ r)
    = blen (to_decimal off) + blen (to_decimal len) + 2 + blen r) as HL.
  { intros off len r. rewrite blen_app, blen_map_line. unfold width. cbn. lia. }
  rewrite accepts_line by (cbn; (done || lia || (right; lia))). cbn [sv_position sv_line map_state app]. split.
  - intros (d & r1 & off & -> & Ho & -> & s1 & H1 & H2). rewrite value_step_offset in H1 by lia. injection H1 as <-.
    rewrite blen_app, blen_cons in Hlen. pose proof (blen_nonneg (to_decimal off)).
    apply accepts_line in H2; [|done|right; cbn; lia|cbn; lia|cbn [sv_position map_state with_offset]; lia|cbn; lia].
    cbn [sv_position sv_line map_state with_offset app] in H2.
    destruct H2 as (d & r & len & -> & Hl & -> & s' & H3 & H4). apply value_step_length in H3 as [K H3]; [|done || lia..].
    exists off, len, r. split_and!; [done|done|unfold map_line; cbn [extent_offset extent_length]; app_eq|apply K..|].
    exists s'. split; [|done]. rewrite <- H3. f_equal. f_equal. rewrite blen_map_line. unfold width. cbn. lia.
  - intros (off & len & r & Ho & Hl & -> & K & s' & H1 & H2). rewrite HL in Hlen. pose proof (blen_nonneg r).
    pose proof (blen_nonneg (to_decimal off)). pose proof (blen_nonneg (to_decimal len)).
    exists (to_decimal off), (to_decimal len ++ NEWLINE :: r), off. split_and!; [|done|done|].
    { unfold map_line. cbn [extent_offset extent_length]. app_eq. }
    eexists. split; [apply value_step_offset; lia|].
    apply accepts_line; [done|right; cbn; lia|cbn; lia|cbn; revert Hlen; blen_simpl; lia|cbn; lia|].
    exists (to_decimal len), r, len. split_and!; [done|done|done|]. exists s'. split; [|done].
    apply value_step_length; [lia|done..|]. split; [done|]. rewrite <- H1. f_equal. f_equal.
    rewrite blen_map_line. unfold width. cbn. lia.
Qed.

Lemma accepts_extents n logical pos count previous stored acc rest layout :
  u64 logical -> 0 <= stored <= previous -> previous <= logical ->
  0 <= pos -> pos + blen rest + 1000 < 2 ^ 64 ->
  accepts (map_state logical pos count (Z.of_nat (S n) * 2) previous stored acc) rest layout
  <-> exists es rest', length es = S n /\ Forall extent_typed es /\ rest = concat (map map_line es) ++ rest'
        /\ extents_ok (bool_decide (acc = [])) previous es logical
        /\ tail_ok (pos + blen (concat (map map_line es))) (stored + total_length es) rest'
        /\ layout = {| sl_logical_size := logical;
                       sl_map_and_padding_size := pos + blen (concat (map map_line es))
                                                  + padding_to_512 (pos + blen (concat (map map_line es)));
                       sl_extents := acc ++ es |}.
Proof.
  intros Hlog. revert pos previous stored acc rest. induction n as [|n IH]; intros pos previous stored acc rest Hs Hp Hpos Hlen;
    rewrite accepts_extent by (done || lia).
  - split.
    + intros (off & len & r & Ho & Hl & -> & (K1 & K2 & K3 & K4) & s' & H1 & H2). rewrite blen_app in Hlen.
      pose proof (blen_nonneg r). set (e := {| extent_offset := off; extent_length := len |}) in *. pose proof (blen_nonneg (map_line e)).
      change (Z.of_nat 1 * 2 - 1 - 1) with 0 in H1. rewrite complete_map_last in H1 by lia. injection H1 as <-.
      apply accepts_after_map in H2 as [H2 ->]; [|lia..].
      exists [e], r. cbn [map concat]. rewrite !app_nil_r.
      split; [done|]. split; [apply Forall_singleton; by split|]. split; [done|]. split; [done|]. split; [|done].
      rewrite total_length_cons. cbn [total_length foldr e extent_length]. by rewrite Z.add_0_r.
    + intros (es & rest' & Hn & Ht & -> & Hok & Htail & ->). destruct es as [|[off len] [|]]; [done| |done].
      apply Forall_cons in Ht as [[Ho Hl] _]. cbn in Ho, Hl. cbn [map concat] in *. rewrite !app_nil_r in *. cbn in Hok.
      destruct Hok as (K1 & K2 & K3 & K4 & _). exists off, len, rest'. split_and!; [done|done|done|done..|].
      set (e := {| extent_offset := off; extent_length := len |}) in *. pose proof (blen_nonneg (map_line e)).
      rewrite blen_app in Hlen. pose proof (blen_nonneg rest').
      eexists. split; [apply complete_map_last; lia|]. apply accepts_after_map; [lia..|]. split; [|done].
      rewrite total_length_cons in Htail. cbn [total_length foldr e extent_length] in Htail. by rewrite Z.add_0_r in Htail.
  - assert (forall L pos prev st acc, complete_map (map_state L pos count (Z.of_nat (S (S n)) * 2 - 1 - 1) prev st acc)
      = Ok (map_state L pos count (Z.of_nat (S n) * 2) prev st acc)) as Hcm.
    { intros. unfold complete_map. cbn [sv_extent_count sv_values_remaining map_state].
      replace (Z.of_nat (S (S n)) * 2 - 1 - 1) with (Z.of_nat (S n) * 2) by lia.
      rewrite (proj2 (Z.eqb_neq (Z.of_nat (S n) * 2) 0)) by lia. by rewrite andb_false_r. }
    split.
    + intros (off & len & r & Ho & Hl & -> & (K1 & K2 & K3 & K4) & s' & H1 & H2). rewrite blen_app in Hlen.
      pose proof (blen_nonneg r). set (e := {| extent_offset := off; extent_length := len |}) in *. pose proof (blen_nonneg (map_line e)).
      rewrite Hcm in H1. injection H1 as <-.
      apply IH in H2 as (es & rest' & Hn & Ht & -> & Hok & Htail & ->); [|lia..].
      exists (e :: es), rest'. cbn [map concat]. rewrite total_length_cons, blen_app, Z.add_assoc. cbn [e extent_length].
      rewrite bool_decide_eq_false_2 in Hok by (by destruct acc).
      split; [cbn; by rewrite Hn|]. split; [by constructor|]. split; [app_eq|]. split; [done|].
      split; [by rewrite Z.add_assoc|]. f_equal. app_eq.
    + intros (es & rest' & Hn & Ht & -> & Hok & Htail & ->). destruct es as [|[off len] es]; [done|].
      apply Forall_cons in Ht as [[Ho Hl] Ht]. cbn in Ho, Hl, Hok. destruct Hok as (K1 & K2 & K3 & K4 & Hok).
      cbn [map concat] in *. rewrite total_length_cons, blen_app, Z.add_assoc in *. cbn [extent_length] in *.
      exists off, len, (concat (map map_line es) ++ rest'). split_and!; [done|done|app_eq|done..|].
      set (e := {| extent_offset := off; extent_length := len |}) in *. pose proof (blen_nonneg (map_line e)).
      rewrite blen_app in Hlen. pose proof (blen_nonneg rest'). pose proof (blen_nonneg (concat (map map_line es))).
      eexists. split; [apply Hcm|]. apply IH; [lia..|rewrite blen_app; lia|].
      exists es, rest'. rewrite bool_decide_eq_false_2 by (by destruct acc).
      split; [by injection Hn|]. split; [done|]. split; [done|]. split; [done|].
      split; [by rewrite <- (Z.add_assoc stored)|]. f_equal. app_eq.
Qed.

Lemma stream_payload payload logical layout :
  blen payload < 2 ^ 63 -> u64 logical ->
  accepts (SparseStreamValidator_new logical) payload layout <-> sparse_payload payload logical layout.
Proof.
  intros Hlen Hlog.
  assert (forall count p, u64 count ->
    (forall s', value_step (with_line (with_position (SparseStreamValidator_new logical) p) []) count = Ok s'
     <-> count <= MAX_SPARSE_EXTENTS /\ complete_map (map_state logical p count (count * 2) 0 0 []) = Ok s')) as Hvs.
  { intros count p Hc s'. unfold value_step, observe_value.
    cbn [sv_extent_count SparseStreamValidator_new with_line with_position].
    rewrite (proj2 (try_from_Some 64 count count)) by done. cbn [ok_or]. rewrite bind_ret. unfold MAX_SPARSE_EXTENTS, checked_mul, fits in *.
    destruct (Z.ltb_spec 1048576 count); cbn [reject_if].
    - split; [done|lia].
    - rewrite bind_ret. replace (count * 2 <? 2 ^ 64) with true by lia. cbn [ok_or]. rewrite bind_ret, mret_eq, bind_ret.
      split; [intros E; split; [lia|exact E]|by intros [_ E]]. }
  rewrite accepts_line by (cbn; (done || lia || (by left))). cbn [sv_line sv_position SparseStreamValidator_new app]. unfold sparse_payload. split.
  - intros (d & rest & count & -> & Hc & -> & s' & H1 & H2). apply Hvs in H1 as [Hm H1]; [|done].
    rewrite blen_app, blen_cons in Hlen. pose proof (blen_nonneg rest). pose proof (blen_nonneg (to_decimal count)).
    unfold MAX_SPARSE_EXTENTS, fits in *.
    assert (blen (to_decimal count ++ [NEWLINE]) = 0 + blen (to_decimal count) + 1) as Hpos by (blen_simpl; lia).
    destruct (decide (count = 0)) as [->|Hne].
    + rewrite complete_map_last in H1 by lia. injection H1 as <-.
      apply accepts_after_map in H2 as [Ht ->]; [|lia..]. unfold tail_ok in Ht.
      set (pos := 0 + blen (to_decimal 0) + 1) in *. destruct (padding_spec pos) as [Hp _]; [lia|].
      destruct Ht as (Hz & Hr & Hd). set (pad := padding_to_512 pos) in *.
      replace (Z.to_nat (pos + pad - pos)) with (Z.to_nat pad) in Hz by lia.
      assert (blen (take (Z.to_nat pad) rest) = pad) as Htk by (unfold blen in *; rewrite length_take; lia).
      apply all_zero_iff in Hz. rewrite Htk in Hz.
      assert (map_text [] = to_decimal 0 ++ [NEWLINE]) as Emt by (unfold map_text; cbn [map concat length]; by rewrite app_nil_r).
      assert (blen (map_text []) = pos) as Lmt by (rewrite Emt; lia).
      exists [], (drop (Z.to_nat pad) rest). unfold padded_map. rewrite Lmt. fold pad. rewrite blen_app, blen_zeros, Lmt by lia.
      split_and!; [cbn; lia|constructor|done| | |done].
      * rewrite Emt, <- Hz. rewrite <- (take_drop (Z.to_nat pad) rest) at 1. app_eq.
      * rewrite <- (take_drop (Z.to_nat pad) rest), blen_app, Htk in Hd. change (total_length []) with 0. lia.
    + destruct (Z.to_nat count) as [|n] eqn:En; [lia|]. assert (count = Z.of_nat (S n)) as Ec by lia.
      unfold complete_map in H1. cbn [sv_extent_count sv_values_remaining map_state] in H1.
      rewrite (proj2 (Z.eqb_neq (count * 2) 0)), andb_false_r in H1 by lia. injection H1 as <-.
      replace (count * 2) with (Z.of_nat (S n) * 2) in H2 by lia.
      apply accepts_extents in H2 as (es & rest' & Hn & Ht & -> & Hok & Htail & ->); [|unfold fits; lia..].
      cbn [app] in *. unfold tail_ok in Htail.
      assert (map_text es = to_decimal count ++ [NEWLINE] ++ concat (map map_line es)) as Emt.
      { unfold map_text. by rewrite Hn, <- Ec. }
      assert (0 + blen (to_decimal count) + 1 + blen (concat (map map_line es)) = blen (map_text es)) as Lmt.
      { rewrite Emt. blen_simpl. lia. }
      rewrite Lmt in *. set (pos := blen (map_text es)) in *. pose proof (map_text_length es).
      destruct (padding_spec pos) as [Hp _]; [unfold pos; lia|].
      destruct Htail as (Hz & Hr & Hd). set (pad := padding_to_512 pos) in *.
      replace (Z.to_nat (pos + pad - pos)) with (Z.to_nat pad) in Hz by lia.
      assert (blen (take (Z.to_nat pad) rest') = pad) as Htk by (unfold blen in *; rewrite length_take; lia).
      apply all_zero_iff in Hz. rewrite Htk in Hz.
      exists es, (drop (Z.to_nat pad) rest'). unfold padded_map. fold pos pad. rewrite blen_app, blen_zeros by lia. fold pos.
      split_and!; [lia|done|done| | |done].
      * rewrite Emt, <- Hz. rewrite <- (take_drop (Z.to_nat pad) rest') at 1. app_eq.
      * rewrite <- (take_drop (Z.to_nat pad) rest'), blen_app, Htk in Hd. lia.
  - intros (es & data & Hm & Ht & Hok & -> & Hd & ->). pose proof (count_u64 es Hm) as Hcu.
    set (count := Z.of_nat (length es)) in *. unfold padded_map in *.
    pose proof (map_text_length es) as Hmt. destruct (padding_spec (blen (map_text es))) as [Hp _]; [lia|].
    set (pad := padding_to_512 (blen (map_text es))) in *. rewrite !blen_app, blen_zeros in * by lia. pose proof (blen_nonneg data).
    exists (to_decimal count), (concat (map map_line es) ++ zeros pad ++ data), count. split_and!; [|done|done|].
    { unfold map_text. fold count. app_eq. }
    assert (tail_ok (blen (map_text es)) (total_length es) (zeros pad ++ data)) as Htail.
    { unfold tail_ok. fold pad. replace (Z.to_nat (blen (map_text es) + pad - blen (map_text es))) with (length (zeros pad)).
      2:{ unfold zeros. rewrite length_replicate. lia. }
      rewrite take_app_length, blen_app, blen_zeros by lia. split_and!; [|lia|lia].
      apply all_zero_iff. by rewrite blen_zeros by lia. }
    assert (0 + blen (to_decimal count) + 1 + blen (concat (map map_line es)) = blen (map_text es)) as Lmt.
    { unfold map_text. fold count. blen_simpl. lia. }
    pose proof (blen_nonneg (to_decimal count)). pose proof (blen_nonneg (concat (map map_line es))).
    destruct (decide (es = [])) as [->|Hne].
    + cbn [map concat] in *. change (blen []) with 0 in *. rewrite Z.add_0_r in Lmt.
      eexists. split; [apply Hvs; [done|]; split; [lia|]; apply complete_map_last; lia|].
      change (([] ++ zeros pad ++ data)) with (zeros pad ++ data).
      apply accepts_after_map; [lia|lia|rewrite blen_app, blen_zeros by lia; lia|]. rewrite Lmt. done.
    + destruct es as [|e es']; [done|]. set (es := e :: es') in *.
      assert (complete_map (map_state logical (0 + blen (to_decimal count) + 1) count (count * 2) 0 0 [])
              = Ok (map_state logical (0 + blen (to_decimal count) + 1) count (Z.of_nat (S (length es')) * 2) 0 0 [])) as Hcm.
      { unfold complete_map. cbn [sv_extent_count sv_values_remaining map_state].
        rewrite (proj2 (Z.eqb_neq (count * 2) 0)) by (unfold count, es; cbn [length]; lia). by rewrite andb_false_r. }
      eexists. split; [apply Hvs; [done|]; split; [lia|exact Hcm]|].
      apply accepts_extents; [done|lia|unfold fits in Hlog; lia|lia|rewrite !blen_app, blen_zeros by lia; lia|].
      exists es, (zeros pad ++ data). rewrite Lmt. done.
Qed.

(** Chunks as they arrive. *)
Fixpoint observe_chunks (s : SparseStreamValidator) (chunks : list bytes) : fresult SparseStreamValidator :=
  match chunks with
  | [] => Ok s
  | chunk :: chunks => s ← SparseStreamValidator_observe s chunk; observe_chunks s chunks
  end.

Lemma observe_chunks_concat s chunks : observe_chunks s chunks = SparseStreamValidator_observe s (concat chunks).
Proof.
  revert s. induction chunks as [|c chunks IH]; intros s; [done|]. cbn [observe_chunks concat].
  rewrite SparseStreamValidator_observe_app. destruct (SparseStreamValidator_observe s c); cbn; auto.
Qed.

(** C14: The validator that sees a sparse payload as a stream, in whatever chunks it
    arrives, accepts it with a layout exactly when the parser that sees the
    whole payload returns that layout. *)
Theorem sparse_readers_agree chunks logical layout :
  blen (concat chunks) < 2 ^ 63 -> u64 logical ->
  (s ← observe_chunks (SparseStreamValidator_new logical) chunks; SparseStreamValidator_finish s) = Ok layout
  <-> parse_sparse_payload (concat chunks) logical = Ok layout.
Proof.
  intros Hlen Hlog. rewrite observe_chunks_concat, parse_sparse_payload_Ok by done. by apply stream_payload.
Qed.

Lemma sparse_readers_agree_witness :
  (s ← observe_chunks (SparseStreamValidator_new 10) [take 3 example_payload; drop 3 example_payload];
   SparseStreamValidator_finish s) = Ok example_layout.
Proof.
  apply (sparse_readers_agree [take 3 example_payload; drop 3 example_payload] 10 example_layout);
    [vm_compute; reflexivity|unfold fits; lia|vm_compute; reflexivity].
Defined.

(** A payload is accepted exactly when it is the map the writer encodes for its
    extents, followed by as many bytes as the extents are long; the layout gives
    those extents and the length of the map. *)
Theorem sparse_map_roundtrip payload logical layout :
  blen payload < 2 ^ 63 -> u64 logical ->
  parse_sparse_payload payload logical = Ok layout
  <-> exists encoded data,
        Forall extent_typed (sl_extents layout)
        /\ encode_v45_sparse_map (sl_extents layout) logical = Ok encoded
        /\ sparse_extent_bytes (sl_extents layout) logical = Ok (blen data)
        /\ payload = encoded ++ data
        /\ sl_logical_size layout = logical /\ sl_map_and_padding_size layout = blen encoded.
Proof.
  intros Hlen Hlog. rewrite parse_sparse_payload_Ok by done. split.
  - intros (es & data & Hm & Ht & Hok & -> & Hd & ->). cbn. exists (padded_map es), data. split_and!; try done.
    + by apply encode_v45_sparse_map_Ok.
    + by apply sparse_extent_bytes_Ok.
  - destruct layout as [l m es]. cbn. intros (encoded & data & Ht & He & Hb & -> & -> & ->).
    apply encode_v45_sparse_map_Ok in He as (Hm & Hok & ->); [|done..]. apply sparse_extent_bytes_Ok in Hb as (_ & _ & Hb); [|done..].
    by exists es, data.
Qed.

Lemma sparse_map_roundtrip_witness :
  exists encoded data,
    Forall extent_typed example_extents
    /\ encode_v45_sparse_map example_extents 10 = Ok encoded
    /\ sparse_extent_bytes example_extents 10 = Ok (blen data)
    /\ example_payload = encoded ++ data
    /\ sl_logical_size example_layout = 10 /\ sl_map_and_padding_size example_layout = blen encoded.
Proof.
  apply (sparse_map_roundtrip example_payload 10 example_layout);
    [vm_compute; reflexivity|unfold fits; lia|vm_compute; reflexivity].
Defined.

(** ** Expansion restores the file *)

(** The logical file from [pos] on: zeros in the holes, the data in order. *)
Fixpoint sparse_image (pos : Z) (extents : list SparseExtent) (data : bytes) (logical_size : Z) : bytes :=
  match extents with
  | [] => zeros (logical_size - pos)
  | e :: extents =>
      let n := Z.to_nat (extent_length e) in
      zeros (extent_offset e - pos) ++ take n data
      ++ sparse_image (extent_offset e + extent_length e) extents (drop n data) logical_size
  end.

Lemma expand_extents_image es front data pre logical :
  Forall extent_typed es -> extents_ok false (blen pre) es logical \/ extents_ok true (blen pre) es logical ->
  u64 logical -> blen pre <= logical -> blen data = total_length es -> blen (front ++ data) < 2 ^ 63 ->
  expand_extents es (front ++ data) (blen front) (pre ++ zeros (logical - blen pre))
  = Ok (pre ++ sparse_image (blen pre) es data logical).
Proof.
  intros Ht. revert front data pre. induction Ht as [|e es [Ho Hl] Ht IH]; intros front data pre Hok Hlog Hle Hd Hlen; [done|].
  assert (0 < extent_length e /\ blen pre <= extent_offset e /\ extent_offset e + extent_length e <= logical
    /\ extents_ok false (extent_offset e + extent_length e) es logical) as (K1 & K2 & K3 & Hok').
  { cbn in Hok. tauto. }
  rewrite total_length_cons in Hd. cbn [expand_extents sparse_image]. unfold fits in *.
  pose proof (blen_nonneg pre). pose proof (blen_nonneg front). rewrite blen_app in Hlen.
  assert (0 <= total_length es) as Htot.
  { clear -Ht. induction Ht as [|e es [_ [Hl _]] _ IH]; [done|]. rewrite total_length_cons. lia. }
  rewrite (proj2 (try_from_Some 64 (extent_length e) (extent_length e))) by (split; [done|unfold fits; lia]).
  cbn [ok_or]. rewrite bind_ret, checked_add_eq by lia. cbn [ok_or]. rewrite bind_ret.
  rewrite (proj2 (try_from_Some 64 (extent_offset e) (extent_offset e))) by (split; [done|unfold fits; lia]).
  cbn [ok_or]. rewrite bind_ret, checked_add_eq by lia. cbn [ok_or]. rewrite bind_ret.
  rewrite (proj2 (get_range_Some (pre ++ zeros (logical - blen pre)) _ _ _))
    by (rewrite blen_app, blen_zeros by lia; split_and!; [lia|lia|lia|reflexivity]).
  cbn [ok_or]. rewrite bind_ret.
  set (n := Z.to_nat (extent_length e)). set (d := take n data).
  assert (blen d = extent_length e) as Hbd by (unfold d, blen in *; rewrite length_take; unfold n; lia).
  assert (data = d ++ drop n data) as Ed by (unfold d; by rewrite take_drop).
  rewrite (proj2 (get_range_Some (front ++ data) _ _ d)).
  2:{ rewrite blen_app. split_and!; [lia|lia|lia|]. rewrite Ed at 1. rewrite seg_app_r by lia. rewrite seg_app_l by lia.
      rewrite Z.sub_diag, <- Hbd, Z.add_simpl_l. by rewrite seg_full. }
  cbn [ok_or]. rewrite bind_ret, put_zeros by lia. rewrite Hbd.
  assert (blen (pre ++ zeros (extent_offset e - blen pre) ++ d) = extent_offset e + extent_length e) as Hpre.
  { rewrite !blen_app, blen_zeros by lia. lia. }
  rewrite <- Hpre. rewrite Ed at 1. rewrite app_assoc.
  assert (blen front + extent_length e = blen (front ++ d)) as -> by (rewrite blen_app; lia).
  assert (blen data = blen d + blen (drop n data)) as Hsum by (rewrite Ed at 1; by rewrite blen_app).
  rewrite IH; [| |done|lia|lia|].
  - rewrite Hpre. f_equal. app_eq.
  - left. by rewrite Hpre.
  - rewrite !blen_app. lia.
Qed.

Lemma blen_sparse_image first pos es data logical :
  0 <= pos <= logical -> extents_ok first pos es logical -> blen data = total_length es ->
  blen (sparse_image pos es data logical) = logical - pos.
Proof.
  revert first pos data. induction es as [|e es IH]; intros first pos data Hp Hok Hd; cbn [sparse_image].
  { by rewrite blen_zeros by lia. }
  destruct Hok as (K1 & K2 & _ & K3 & Hok). rewrite total_length_cons in Hd.
  destruct (total_length_le false (extent_offset e + extent_length e) es logical ltac:(lia) ltac:(lia) Hok) as [Ht _].
  assert (blen (take (Z.to_nat (extent_length e)) data) = extent_length e) as H1 by (unfold blen in *; rewrite length_take; lia).
  rewrite !blen_app, blen_zeros, H1 by lia. rewrite (IH false); [lia|lia|done|].
  unfold blen in *. rewrite length_drop. lia.
Qed.

(** The file is zero outside the extents, from [pos] on. *)
Fixpoint holes_zero (pos : Z) (extents : list SparseExtent) (file : bytes) : Prop :=
  match extents with
  | [] => seg file pos (blen file) = zeros (blen file - pos)
  | e :: extents =>
      seg file pos (extent_offset e) = zeros (extent_offset e - pos)
      /\ holes_zero (extent_offset e + extent_length e) extents file
  end.

(** The bytes of the file that the extents cover. *)
Definition gather (extents : list SparseExtent) (file : bytes) : bytes :=
  concat (map (fun e => seg file (extent_offset e) (extent_offset e + extent_length e)) extents).

Lemma gather_image first pos es file :
  0 <= pos <= blen file -> extents_ok first pos es (blen file) -> holes_zero pos es file ->
  blen (gather es file) = total_length es /\ sparse_image pos es (gather es file) (blen file) = seg file pos (blen file).
Proof.
  revert first pos. induction es as [|e es IH]; intros first pos Hp Hok Hh; [by cbn in *|].
  destruct Hok as (K1 & K2 & _ & K3 & Hok), Hh as [Hh1 Hh2]. destruct (IH false (extent_offset e + extent_length e) ltac:(lia) Hok Hh2) as [H1 H2].
  unfold gather in *. cbn [map concat sparse_image]. rewrite total_length_cons.
  set (d := seg file (extent_offset e) (extent_offset e + extent_length e)) in *.
  assert (blen d = extent_length e) as Hd by (unfold d; rewrite blen_seg; lia).
  assert (Z.to_nat (extent_length e) = length d) as -> by (unfold blen in Hd; lia).
  rewrite blen_app, take_app_length, drop_app_length. split; [lia|]. rewrite H2, <- Hh1. unfold d.
  rewrite (seg_split file pos (extent_offset e) (blen file)),
    (seg_split file (extent_offset e) (extent_offset e + extent_length e) (blen file)) by lia. done.
Qed.

Lemma expand_payload es data logical :
  blen (padded_map es ++ data) < 2 ^ 63 -> u64 logical -> Forall extent_typed es -> extents_ok true 0 es logical -> blen data = total_length es ->
  ParsedTarMember_to_owned_data (padded_map es ++ data)
    (Some {| sl_logical_size := logical; sl_map_and_padding_size := blen (padded_map es); sl_extents := es |})
  = Ok (sparse_image 0 es data logical).
Proof.
  intros Hlen Hlog Ht Hok Hd. unfold ParsedTarMember_to_owned_data. cbn [sl_logical_size sl_extents sl_map_and_padding_size].
  rewrite (proj2 (try_from_Some 64 logical logical)) by done. cbn [ok_or]. rewrite bind_ret.
  pose proof (expand_extents_image es (padded_map es) data [] logical Ht ltac:(by right) Hlog) as H.
  change (blen []) with 0 in H. rewrite Z.sub_0_r in H. apply H; [unfold fits in Hlog; lia|done|done].
Qed.

Lemma parse_sparse_expands payload logical layout :
  blen payload < 2 ^ 63 -> u64 logical -> parse_sparse_payload payload logical = Ok layout ->
  exists expanded, ParsedTarMember_to_owned_data payload (Some layout) = Ok expanded /\ blen expanded = logical.
Proof.
  intros Hlen Hlog (es & data & Hm & Ht & Hok & -> & Hd & ->)%parse_sparse_payload_Ok; [|done..].
  eexists. split; [by apply expand_payload|]. rewrite (blen_sparse_image true); [lia|unfold fits in Hlog; lia|done|done].
Qed.

Lemma gathered_file_expands file extents encoded logical :
  blen (encoded ++ gather extents file) < 2 ^ 63 -> u64 logical ->
  Forall extent_typed extents -> holes_zero 0 extents file -> blen file = logical ->
  encode_v45_sparse_map extents logical = Ok encoded ->
  exists layout, parse_sparse_payload (encoded ++ gather extents file) logical = Ok layout
                 /\ ParsedTarMember_to_owned_data (encoded ++ gather extents file) (Some layout) = Ok file.
Proof.
  intros Hlen Hlog Ht Hh Hf He. apply encode_v45_sparse_map_Ok in He as (Hm & Hok & ->); [|done..]. rewrite <- Hf in Hok.
  destruct (gather_image true 0 extents file) as [H1 H2]; [pose proof (blen_nonneg file); lia|done|done|].
  rewrite seg_full in H2. rewrite Hf in Hok, H2. eexists. split.
  - apply parse_sparse_payload_Ok; [done..|]. by exists extents, (gather extents file).
  - rewrite expand_payload by done. by rewrite H2.
Qed.


Definition example_file : bytes :=
  [Byte.x00; Byte.x00] ++ ascii "abc" ++ [Byte.x00; Byte.x00] ++ ascii "d" ++ [Byte.x00; Byte.x00].

