(* ===== verification/TarHeader.v ===== *)
(** * Tar headers

    The 512-byte ustar header of a tar entry: the writer's builder
    ([crates/tzap-core/src/writer/envelope.rs]) and the reader's field parsers
    and header checks ([crates/tzap-core/src/tar_model/mod.rs] and [pax.rs]). *)

From S2P Require Import Wire Ordering Paths TextCodecs Pax SparseMap.
#[local] Open Scope Z_scope.

Module TarEntryKind.
Inductive t : Set :=
| Regular
| Directory
| Symlink
| Hardlink
| CharacterDevice
| BlockDevice
| Fifo.

#[export] Instance t_eq_dec : EqDecision t.
Proof. solve_decision. Defined.

Definition to_u8 (k : t) : Z :=
  match k with
  | Regular => 0
  | Directory => 5
  | Symlink => 2
  | Hardlink => 1
  | CharacterDevice => 3
  | BlockDevice => 4
  | Fifo => 6
  end.

Definition from_u8 (val : Z) : t :=
  match val with
  | 5 => Directory
  | 2 => Symlink
  | 1 => Hardlink
  | 3 => CharacterDevice
  | 4 => BlockDevice
  | 6 => Fifo
  | _ => Regular
  end.

Lemma from_u8_to_u8 k : from_u8 (to_u8 k) = k.
Proof. by destruct k. Qed.
End TarEntryKind.

Definition NUL : Byte.byte := Byte.x00.

Definition padding_to_512_u64 (len : Z) : Z :=
  let remainder := len mod TAR_BLOCK_LEN in
  if remainder =? 0 then 0 else TAR_BLOCK_LEN - remainder.

(** [slice(bytes, offset, len)] of the tar reader *)
Definition tar_slice (b : bytes) (offset len : Z) : fresult bytes :=
  end_ ← ok_or (checked_add 64 offset len) (InvalidArchive "tar member arithmetic overflow");
  ok_or (get_range b offset end_) (InvalidLength "tar member" end_ (blen b)).

(** ** The writer *)

(** The loop over the digits: [i] is the index of the field still free, [acc]
    what has been written from [i] on; the rest of the field becomes zeros. *)
Fixpoint octal_loop (i : nat) (value : Z) (acc : bytes) : fresult bytes :=
  if 0 <? value then
    match i with
    | O => Err (WriterUnsupported "tar octal field overflow")
    | S i => octal_loop i (Z.shiftr value 3) (byte.of_Z (0x30 + Z.land value 7) :: acc)
    end
  else Ok (replicate i ZERO ++ acc).

(** The contents of a field of [field_len] bytes. *)
Definition write_tar_octal (field_len : Z) (value : Z) : fresult bytes :=
  reject_if (field_len =? 0) (WriterUnsupported "tar octal field overflow");;
  let i := Z.to_nat (field_len - 1) in
  if value =? 0 then
    match i with
    | O => Err (WriterUnsupported "tar octal field overflow")
    | S i => Ok (replicate i ZERO ++ [ZERO; NUL])
    end
  else octal_loop i value [NUL].

Fixpoint octal_digit_count (fuel : nat) (value digits : Z) : Z :=
  match fuel with
  | O => digits
  | S fuel => if 0 <? value then octal_digit_count fuel (Z.shiftr value 3) (digits + 1) else digits
  end.

(** A number of 64 bits has at most 22 octal digits. *)
Definition tar_octal_fits (field_len value : Z) : bool :=
  if field_len =? 0 then false
  else
    let max_digits := field_len - 1 in
    octal_digit_count 22 value (if value =? 0 then 1 else 0) <=? max_digits.

Fixpoint checksum_digits (i : nat) (value : Z) (acc : bytes) : bytes * Z :=
  match i with
  | O => (acc, value)
  | S i => checksum_digits i (Z.shiftr value 3) (byte.of_Z (0x30 + Z.land value 7) :: acc)
  end.

Definition write_tar_checksum (field : bytes) (value : Z) : fresult bytes :=
  reject_if (blen field <? 8) (WriterUnsupported "tar checksum field overflow");;
  let '(digits, value) := checksum_digits 6 value [] in
  reject_if (0 <? value) (WriterUnsupported "tar checksum field overflow");;
  mret (puts field [(0, digits); (6, [NUL]); (7, [SPACE])]).

(** [header.iter().map(|byte| *byte as u32).sum()] *)
Definition byte_sum (b : bytes) : Z := foldr (fun x n => byte.unsigned x + n) 0 b.

Definition finalize_tar_checksum (header : bytes) : fresult bytes :=
  let header := put header 148 (replicate 8 SPACE) in
  let checksum := byte_sum header in
  field ← write_tar_checksum (seg header 148 156) checksum;
  mret (put header 148 field).

Definition USTAR_MAGIC : bytes := ascii "ustar" ++ [NUL].

Definition build_ustar_header (path : bytes) (size mode mtime : Z) (typeflag : Byte.byte) : fresult bytes :=
  reject_if (100 <? blen path) (WriterUnsupported "ustar path exceeds name field");;
  mode_field ← write_tar_octal 8 mode;
  uid_field ← write_tar_octal 8 0;
  gid_field ← write_tar_octal 8 0;
  size_field ← write_tar_octal 12 size;
  mtime_field ← write_tar_octal 12 mtime;
  finalize_tar_checksum (puts (zeros TAR_BLOCK_LEN)
    [(0, path); (100, mode_field); (108, uid_field); (116, gid_field); (124, size_field); (136, mtime_field);
     (148, replicate 8 SPACE); (156, [typeflag]); (257, USTAR_MAGIC); (263, ascii "00")]).

(** ** The reader *)
Definition nul_trimmed (b : bytes) : bytes :=
  let end_ := match position NUL b with Some i => i | None => blen b end in
  seg b 0 end_.

Definition ustar_path (header : bytes) : fresult bytes :=
  name ← slice header 0 100;
  prefix ← slice header 345 500;
  let name := nul_trimmed name in
  let prefix := nul_trimmed prefix in
  mret (if bool_decide (prefix = []) then name else prefix ++ [SLASH] ++ name).

Fixpoint parse_octal_loop (value : Z) (saw_digit : bool) (field : bytes) : fresult Z :=
  match field with
  | [] => Ok value
  | x :: field =>
      if bool_decide (x = NUL \/ x = SPACE) then
        if saw_digit then Ok value else parse_octal_loop value saw_digit field
      else if byte_between 0x30 0x37 x then
        m ← ok_or (checked_mul 64 value 8) (InvalidArchive "tar octal field overflow");
        value ← ok_or (checked_add 64 m (byte.unsigned x - 0x30)) (InvalidArchive "tar octal field overflow");
        parse_octal_loop value true field
      else Err (InvalidArchive "malformed tar octal field")
  end.

Definition parse_tar_octal (field : bytes) : fresult Z := parse_octal_loop 0 false field.

(** The sum of the header from index [idx] on, the checksum field counted as
    spaces. *)
Fixpoint checksum_loop (idx : Z) (header : bytes) : Z :=
  match header with
  | [] => 0
  | x :: header =>
      (if (148 <=? idx) && (idx <? 156) then byte.unsigned SPACE else byte.unsigned x)
      + checksum_loop (idx + 1) header
  end.

Definition verify_tar_checksum (header : bytes) : fresult unit :=
  field ← slice header 148 156;
  stored ← parse_tar_octal field;
  let sum := checksum_loop 0 header in
  reject_if (negb (stored =? sum)) (InvalidArchive "tar header checksum mismatch").

Definition validate_nul_terminated_field (field : bytes) : fresult unit :=
  match position NUL field with
  | Some nul =>
      reject_if (negb (all_zero (seg field nul (blen field))))
        (InvalidArchive "ustar string field has bytes after NUL")
  | None => Ok tt
  end.

(** [parse_tar_octal(&header[i..j])?] and [nul_trimmed(&header[i..j])] *)
Definition octal_field (header : bytes) (i j : Z) : fresult Z :=
  field ← slice header i j; parse_tar_octal field.

Definition text_field (header : bytes) (i j : Z) : fresult bytes :=
  field ← slice header i j; mret (nul_trimmed field).

Definition check_string_field (header : bytes) (range : Z * Z) : fresult unit :=
  field ← slice header range.1 range.2; validate_nul_terminated_field field.

Definition validate_ustar_header (header : bytes) : fresult unit :=
  magic ← slice header 257 263;
  reject_if (negb (bytes_eqb magic USTAR_MAGIC)) (InvalidArchive "tar header is not canonical ustar");;
  version ← slice header 263 265;
  reject_if (negb (bytes_eqb version (ascii "00"))) (InvalidArchive "tar header is not canonical ustar");;
  check_string_field header (0, 100);;
  check_string_field header (157, 257);;
  check_string_field header (265, 297);;
  check_string_field header (297, 329);;
  check_string_field header (345, 500);;
  reserved ← slice header 500 512;
  reject_if (negb (all_zero reserved)) (InvalidArchive "tar header has non-zero reserved bytes").

(** [a? != 0 || ...]: the first field that is not zero stops the chain. *)
Definition zero_octal (header : bytes) (range : Z * Z) (error : FormatError) : fresult unit :=
  v ← octal_field header range.1 range.2; reject_if (negb (v =? 0)) error.

Definition empty_text (header : bytes) (range : Z * Z) (error : FormatError) : fresult unit :=
  v ← text_field header range.1 range.2; reject_if (negb (bool_decide (v = []))) error.

(** The fields that are zero in the headers of metadata entries. *)
Definition metadata_fields_zero (header : bytes) (error : FormatError) : fresult unit :=
  zero_octal header (100, 108) error;;
  zero_octal header (108, 116) error;;
  zero_octal header (116, 124) error;;
  zero_octal header (136, 148) error;;
  empty_text header (157, 257) error;;
  empty_text header (265, 297) error;;
  empty_text header (297, 329) error;;
  zero_octal header (329, 337) error;;
  zero_octal header (337, 345) error;;
  empty_text header (345, 500) error.

Definition validate_v45_metadata_header (header : bytes) : fresult unit :=
  validate_ustar_header header;;
  metadata_fields_zero header (InvalidArchive "revision-45 local PAX header has non-zero metadata fields").

Definition PRIMARY_LABEL : bytes := ascii "TZAP-PAX/PRIMARY".

Definition parse_auxiliary_pax_label (label : bytes) : option Z :=
  if starts_with label (ascii "TZAP-PAX/AUX/") then
    let suffix := drop 13 label in
    if negb (blen suffix =? 8) || negb (forallb is_lower_hex suffix) then None
    else from_str_radix 32 16 suffix
  else None.

(** [format!("TZAP-AUX/{ordinal:08x}")] and [format!("TZAP-PAX/AUX/{ordinal:08x}")] *)
Definition auxiliary_path (ordinal : Z) : bytes := ascii "TZAP-AUX/" ++ fixed_digits 16 8 ordinal.
Definition auxiliary_pax_label (ordinal : Z) : bytes := ascii "TZAP-PAX/AUX/" ++ fixed_digits 16 8 ordinal.

Definition validate_v45_auxiliary_header (header : bytes) (ordinal header_size effective_size : Z) : fresult unit :=
  validate_ustar_header header;;
  let error := InvalidArchive "revision-45 auxiliary tar header is not canonical" in
  let expected := auxiliary_path ordinal in
  path ← ustar_path header;
  reject_if (negb (bytes_eqb path expected)) error;;
  metadata_fields_zero header error;;
  reject_if (negb (header_size =? effective_size) && negb (header_size =? 0)) error.

Example build_header_runs :
  (header ← build_ustar_header (ascii "a/b") 5 0x1A4 1700000000 Byte.x30;
   verify_tar_checksum header;; validate_ustar_header header;; octal_field header 136 148) = Ok 1700000000.
Proof. vm_compute. reflexivity. Qed.

(** ** Octal fields *)
Lemma octal_digit_byte v : byte.of_Z (0x30 + Z.land v 7) = digit_byte (v mod 8).
Proof.
  change 7 with (2 ^ 3 - 1). rewrite land_mask by lia. unfold digit_byte.
  pose proof (Z.mod_pos_bound v 8). change (2 ^ 3) with 8. by replace (v mod 8 <? 10) with true by lia.
Qed.

Lemma shiftr_3 v : Z.shiftr v 3 = v / 8.
Proof. by rewrite Z.shiftr_div_pow2 by lia. Qed.

Lemma fixed_digits_S n v : fixed_digits 8 (S n) v = fixed_digits 8 n (v / 8) ++ [digit_byte (v mod 8)].
Proof. done. Qed.

Lemma fixed_digits_0 n : fixed_digits 8 n 0 = replicate n ZERO.
Proof.
  induction n as [|n IH]; [done|]. rewrite fixed_digits_S, Z.div_0_l, Z.mod_0_l, IH by lia.
  change [digit_byte 0] with (replicate 1 ZERO). rewrite <- replicate_add. f_equal. lia.
Qed.

Lemma succ_eqb_0 n : (Z.of_nat (S n) =? 0) = false.
Proof. apply Z.eqb_neq. lia. Qed.

Lemma pow_8_succ i : 8 ^ Z.of_nat (S i) = 8 * 8 ^ Z.of_nat i.
Proof. by rewrite Nat2Z.inj_succ, Z.pow_succ_r by lia. Qed.

Lemma octal_loop_Ok i value acc f :
  0 <= value -> octal_loop i value acc = Ok f <-> value < 8 ^ Z.of_nat i /\ f = fixed_digits 8 i value ++ acc.
Proof.
  revert value acc. induction i as [|i IH]; intros value acc Hv; cbn [octal_loop].
  - destruct (Z.ltb_spec 0 value); cbn; [split; [done|lia]|]. split; [intros [= <-]; split; [lia|done]|by intros [_ ->]].
  - rewrite pow_8_succ. destruct (Z.ltb_spec 0 value).
    + rewrite octal_digit_byte, shiftr_3, IH by divmod. rewrite fixed_digits_S, <- app_assoc. cbn [app].
      enough (value / 8 < 8 ^ Z.of_nat i <-> value < 8 * 8 ^ Z.of_nat i) by tauto.
      split; [intros ?; divmod|]. intros. apply Z.div_lt_upper_bound; lia.
    + replace value with 0 by lia. rewrite fixed_digits_0.
      split; [intros [= <-]; split; [lia|done]|by intros [_ ->]].
Qed.

Lemma write_tar_octal_Ok (len : nat) value f :
  0 <= value ->
  write_tar_octal (Z.of_nat (S len)) value = Ok f
  <-> (0 < len)%nat /\ value < 8 ^ Z.of_nat len /\ f = fixed_digits 8 len value ++ [NUL].
Proof.
  intros Hv. unfold write_tar_octal. rewrite succ_eqb_0, reject_if_false, bind_ret by done.
  replace (Z.to_nat (Z.of_nat (S len) - 1)) with len by lia. destruct (Z.eqb_spec value 0) as [->|Hz].
  - destruct len as [|len]; [split; [done|lia]|]. rewrite fixed_digits_0, pow_8_succ.
    replace (replicate (S len) ZERO ++ [NUL]) with (replicate len ZERO ++ [ZERO; NUL]).
    2:{ change [ZERO; NUL] with ([ZERO] ++ [NUL]). rewrite app_assoc. f_equal. by rewrite <- replicate_cons_app. }
    pose proof (Z.pow_pos_nonneg 8 (Z.of_nat len)).
    split; [intros [= <-]; split_and!; [lia|lia|done]|by intros (_ & _ & ->)].
  - rewrite octal_loop_Ok by done. split; [|tauto]. intros [H ->]. split_and!; [|done..].
    destruct len; [change (8 ^ Z.of_nat 0) with 1 in H|]; lia.
Qed.

Lemma octal_digit_count_spec fuel value digits k :
  0 <= value -> value < 8 ^ Z.of_nat fuel -> 0 <= k ->
  octal_digit_count fuel value digits <= digits + k <-> value < 8 ^ k.
Proof.
  revert value digits k. induction fuel as [|fuel IH]; intros value digits k Hv Hf Hk; cbn [octal_digit_count].
  { cbn in Hf. pose proof (Z.pow_pos_nonneg 8 k ltac:(lia) Hk). lia. }
  destruct (Z.ltb_spec 0 value) as [Hp|Hp].
  2:{ pose proof (Z.pow_pos_nonneg 8 k ltac:(lia) Hk). lia. }
  rewrite shiftr_3. rewrite pow_8_succ in Hf.
  destruct (Z.eq_dec k 0) as [->|Hk0].
  - enough (digits + 1 <= octal_digit_count fuel (value / 8) (digits + 1)) by (cbn; lia).
    clear. generalize (value / 8) as v, (digits + 1) as d. induction fuel as [|fuel IH]; intros v d; cbn; [lia|].
    case_match; [|lia]. specialize (IH (Z.shiftr v 3) (d + 1)). lia.
  - replace (digits + k) with (digits + 1 + (k - 1)) by lia.
    rewrite IH by first [lia|apply Z.div_lt_upper_bound; lia|divmod].
    replace (8 ^ k) with (8 * 8 ^ (k - 1)) by (rewrite <- Z.pow_succ_r by lia; f_equal; lia).
    split; [intros; divmod|]. intros. apply Z.div_lt_upper_bound; lia.
Qed.

(** [tar_octal_fits] tells when [write_tar_octal] succeeds. *)
Lemma tar_octal_fits_iff (len : nat) value :
  u64 value -> tar_octal_fits (Z.of_nat (S len)) value = true <-> (0 < len)%nat /\ value < 8 ^ Z.of_nat len.
Proof.
  intros [Hv1 Hv2]. unfold tar_octal_fits. rewrite succ_eqb_0.
  replace (Z.of_nat (S len) - 1) with (Z.of_nat len) by lia. rewrite Z.leb_le.
  destruct (Z.eqb_spec value 0) as [->|Hz].
  - cbn. pose proof (Z.pow_pos_nonneg 8 (Z.of_nat len)). lia.
  - rewrite <- (Z.add_0_l (Z.of_nat len)). rewrite octal_digit_count_spec by (try lia; cbn; lia).
    rewrite Z.add_0_l. split; [|tauto]. intros H. split; [|done]. destruct len; [change (8 ^ Z.of_nat 0) with 1 in H|]; lia.
Qed.

Lemma parse_octal_loop_digits ds v saw rest :
  digits_ok 8 ds -> 0 <= v -> num 8 v ds < 2 ^ 64 ->
  parse_octal_loop v saw (map digit_byte ds ++ rest) = parse_octal_loop (num 8 v ds) (saw || negb (bool_decide (ds = []))) rest.
Proof.
  revert v saw. induction ds as [|d ds IH]; intros v saw Hd Hv Hb.
  { cbn. by rewrite orb_false_r. }
  pose proof Hd as [Hd1 Hds]%Forall_cons. change (num 8 v (d :: ds)) with (num 8 (v * 8 + d) ds) in *.
  pose proof (num_ge 8 (v * 8 + d) ds ltac:(lia) ltac:(nia) Hds) as Hge. cbn [map app parse_octal_loop].
  assert (byte.unsigned (digit_byte d) = 0x30 + d) as Hu by (rewrite unsigned_digit_byte by lia; by replace (d <? 10) with true by lia).
  rewrite bool_decide_eq_false_2.
  2:{ intros [H|H]; apply (f_equal byte.unsigned) in H; rewrite Hu in H; cbn in H; lia. }
  unfold byte_between at 1. rewrite Hu. replace ((48 <=? 48 + d) && (48 + d <=? 55)) with true by lia.
  assert (checked_mul 64 v 8 = Some (v * 8)) as ->.
  { unfold checked_mul. by replace (v * 8 <? 2 ^ 64) with true by lia. }
  cbv iota. rewrite (ok_or_eq _ _ _ eq_refl), bind_ret, (checked_add_eq 64 (v * 8)), (ok_or_eq _ _ _ eq_refl), bind_ret by lia.
  replace (v * 8 + (48 + d - 48)) with (v * 8 + d) by lia. rewrite IH by (done || nia).
  rewrite (bool_decide_eq_false_2 (d :: ds = [])) by done. cbn. by rewrite orb_true_r.
Qed.

Lemma parse_tar_octal_digits (len : nat) value rest x :
  u64 value -> (0 < len)%nat -> value < 8 ^ Z.of_nat len -> x = NUL \/ x = SPACE ->
  parse_tar_octal (fixed_digits 8 len value ++ x :: rest) = Ok value.
Proof.
  intros [Hv1 Hv2] Hl Hb Hx. destruct (fixed_digits_spec 8 len value) as (ds & -> & Hd & <- & Hn); [lia..|].
  unfold parse_tar_octal. rewrite parse_octal_loop_digits by (done || lia). rewrite Hn. cbn [parse_octal_loop].
  rewrite bool_decide_eq_true_2 by done. rewrite bool_decide_eq_false_2 by (intros ->; cbn in *; lia). done.
Qed.

Lemma parse_octal_loop_zeros k : parse_octal_loop 0 false (replicate k NUL) = Ok 0.
Proof. induction k as [|k IH]; [done|]. cbn. done. Qed.

Lemma parse_tar_octal_zeros n : parse_tar_octal (zeros n) = Ok 0.
Proof. apply parse_octal_loop_zeros. Qed.

Lemma parse_octal_loop_no_panic v saw b : parse_octal_loop v saw b <> Panic.
Proof. revert v saw. induction b as [|x b IH]; intros v saw; cbn; [done|]. repeat case_match; try done. no_panic. apply IH. Qed.

Lemma parse_tar_octal_no_panic b : parse_tar_octal b <> Panic.
Proof. apply parse_octal_loop_no_panic. Qed.

(** ** Text fields *)
Lemma position_None x b : position x b = None <-> x ∉ b.
Proof.
  split.
  - intros H Hx. apply list_elem_of_split_l in Hx as (l & r & -> & Hl).
    enough (position x (l ++ x :: r) = Some (blen l)) by congruence. apply position_Some. eauto.
  - intros H. destruct (position x b) as [i|] eqn:E; [|done].
    apply position_Some in E as (l & r & -> & _). rewrite elem_of_app, elem_of_cons in H. tauto.
Qed.

Lemma zeros_split n : 0 < n -> zeros n = NUL :: zeros (n - 1).
Proof. intros. unfold zeros. replace (Z.to_nat n) with (S (Z.to_nat (n - 1))) by lia. done. Qed.

Lemma zeros_nonpos n : n <= 0 -> zeros n = [].
Proof. intros. unfold zeros. by replace (Z.to_nat n) with 0%nat by lia. Qed.

Lemma nul_trimmed_padded text n : NUL ∉ text -> nul_trimmed (text ++ zeros n) = text.
Proof.
  intros Ht. pose proof (blen_nonneg text). unfold nul_trimmed. destruct (Z.ltb_spec 0 n) as [Hn|Hn].
  - rewrite zeros_split by done. rewrite (proj2 (position_Some NUL _ (blen text))) by eauto.
    rewrite seg_app_l by lia. apply seg_full.
  - rewrite zeros_nonpos, app_nil_r by done. rewrite (proj2 (position_None NUL text)) by done. apply seg_full.
Qed.

Lemma nul_trimmed_zeros n : nul_trimmed (zeros n) = [].
Proof. apply (nul_trimmed_padded [] n). apply not_elem_of_nil. Qed.

Lemma validate_padded text n : NUL ∉ text -> validate_nul_terminated_field (text ++ zeros n) = Ok tt.
Proof.
  intros Ht. pose proof (blen_nonneg text). unfold validate_nul_terminated_field. destruct (Z.ltb_spec 0 n) as [Hn|Hn].
  - rewrite zeros_split by done. rewrite (proj2 (position_Some NUL _ (blen text))) by eauto.
    rewrite <- zeros_split by done. rewrite seg_app_r by (rewrite ?blen_app; lia). rewrite Z.sub_diag, blen_app, Z.add_simpl_l.
    rewrite seg_full. apply reject_if_false. apply negb_false_iff, all_zero_iff. by rewrite blen_zeros by lia.
  - rewrite zeros_nonpos, app_nil_r by done. by rewrite (proj2 (position_None NUL text)) by done.
Qed.

Lemma validate_zeros n : validate_nul_terminated_field (zeros n) = Ok tt.
Proof. apply (validate_padded [] n). apply not_elem_of_nil. Qed.

(** ** The checksum *)
Lemma byte_sum_app a b : byte_sum (a ++ b) = byte_sum a + byte_sum b.
Proof. unfold byte_sum. rewrite foldr_app. generalize (foldr (fun x n => byte.unsigned x + n) 0 b) as n. intros. induction a; cbn; lia. Qed.

Lemma byte_sum_bound b : 0 <= byte_sum b <= 255 * blen b.
Proof.
  unfold blen. induction b as [|x b IH]; cbn [byte_sum foldr length]; [lia|]. pose proof (byte.unsigned_range x).
  change (foldr (fun x n => byte.unsigned x + n) 0 b) with (byte_sum b). lia.
Qed.

Lemma checksum_loop_outside idx b : 156 <= idx \/ idx + blen b <= 148 -> checksum_loop idx b = byte_sum b.
Proof.
  revert idx. induction b as [|x b IH]; intros idx H; [done|]. rewrite blen_cons in H. pose proof (blen_nonneg b).
  cbn [checksum_loop byte_sum foldr]. replace ((148 <=? idx) && (idx <? 156)) with false by lia.
  rewrite IH by lia. done.
Qed.

Lemma checksum_loop_inside idx b : 148 <= idx -> idx + blen b <= 156 -> checksum_loop idx b = 32 * blen b.
Proof.
  revert idx. induction b as [|x b IH]; intros idx H1 H2; [done|]. rewrite blen_cons in *. pose proof (blen_nonneg b).
  cbn [checksum_loop]. replace ((148 <=? idx) && (idx <? 156)) with true by lia. rewrite IH by lia. change (byte.unsigned SPACE) with 32. lia.
Qed.

Lemma checksum_loop_app idx a b : checksum_loop idx (a ++ b) = checksum_loop idx a + checksum_loop (idx + blen a) b.
Proof.
  revert idx. induction a as [|x a IH]; intros idx; cbn [app checksum_loop].
  - change (blen []) with 0. by rewrite Z.add_0_r, Z.add_0_l.
  - rewrite IH, blen_cons. replace (idx + (1 + blen a)) with (idx + 1 + blen a) by lia. lia.
Qed.

Lemma checksum_parts a f b :
  blen a = 148 -> blen f = 8 -> checksum_loop 0 (a ++ f ++ b) = byte_sum a + 256 + byte_sum b.
Proof.
  intros Ha Hf. rewrite !checksum_loop_app, Ha, Hf.
  rewrite (checksum_loop_outside 0) by lia. rewrite checksum_loop_inside by lia. rewrite checksum_loop_outside by lia. lia.
Qed.

Lemma checksum_digits_spec i value acc :
  0 <= value -> exists rest, checksum_digits i value acc = (fixed_digits 8 i (value mod 8 ^ Z.of_nat i) ++ acc, rest)
  /\ (0 <? rest) = negb (value <? 8 ^ Z.of_nat i).
Proof.
  revert value acc. induction i as [|i IH]; intros value acc Hv; cbn [checksum_digits].
  - exists value. change (8 ^ Z.of_nat 0) with 1. split; [done|lia].
  - rewrite octal_digit_byte, shiftr_3. destruct (IH (value / 8) (digit_byte (value mod 8) :: acc)) as (rest & -> & Hr); [divmod|].
    exists rest. rewrite fixed_digits_S, pow_8_succ, <- app_assoc. cbn [app]. pose proof (Z.pow_pos_nonneg 8 (Z.of_nat i) ltac:(lia) ltac:(lia)).
    assert (value mod (8 * 8 ^ Z.of_nat i) = 8 * (value / 8 mod 8 ^ Z.of_nat i) + value mod 8) as ->.
    { rewrite Z.rem_mul_r by lia. lia. }
    pose proof (Z.mod_pos_bound value 8 ltac:(lia)) as Hm. split.
    + revert Hm. generalize (value mod 8) as r, ((value / 8) mod 8 ^ Z.of_nat i) as q. intros r q Hm.
      replace ((8 * q + r) / 8) with q by divmod. by replace ((8 * q + r) mod 8) with r by divmod.
    + rewrite Hr. f_equal. apply eq_true_iff_eq. rewrite !Z.ltb_lt.
      split; intros; [divmod|apply Z.div_lt_upper_bound; lia].
Qed.

(** [write_tar_checksum] fills the field of a header with six digits. *)
Lemma write_tar_checksum_eq field value :
  blen field = 8 -> 0 <= value < 8 ^ 6 ->
  write_tar_checksum field value = Ok (fixed_digits 8 6 value ++ [NUL; SPACE]).
Proof.
  intros Hf Hv. unfold write_tar_checksum. rewrite Hf, reject_if_false, bind_ret by done.
  destruct (checksum_digits_spec 6 value []) as (rest & -> & Hr); [lia|]. cbv beta iota.
  change (8 ^ Z.of_nat 6) with (8 ^ 6) in *. rewrite Z.mod_small, app_nil_r by lia.
  rewrite reject_if_false, bind_ret by (rewrite Hr; lia). rewrite mret_eq. f_equal.
  destruct (fixed_digits_spec 8 6 value) as (ds & -> & _ & Hl & _); [lia..|].
  destruct ds as [|d1 [|d2 [|d3 [|d4 [|d5 [|d6 [|]]]]]]]; try done.
  destruct field as [|x1 [|x2 [|x3 [|x4 [|x5 [|x6 [|x7 [|x8 [|]]]]]]]]]; try done.
  unfold blen in Hf. cbn [length] in Hf. lia.
Qed.

Lemma blen_fixed_digits radix n v : blen (fixed_digits radix n v) = Z.of_nat n.
Proof. revert v. induction n as [|n IH]; intros v; [done|].
  change (fixed_digits radix (S n) v) with (fixed_digits radix n (v / radix) ++ [digit_byte (v mod radix)]).
  rewrite blen_app, IH. unfold blen. cbn [length]. lia.
Qed.

(** ** Writing into a string and reading it back *)
Lemma put_parts b off d :
  0 <= off -> off + blen d <= blen b -> put b off d = seg b 0 off ++ d ++ seg b (off + blen d) (blen b).
Proof.
  intros H1 H2. pose proof (blen_nonneg d). unfold put, seg. rewrite drop_0, Z.sub_0_r. do 2 f_equal.
  rewrite take_ge; [done|]. rewrite length_drop. unfold blen in *. lia.
Qed.

Lemma seg_put_l b off d i j :
  0 <= i -> j <= off -> off + blen d <= blen b -> i <= j -> seg (put b off d) i j = seg b i j.
Proof.
  intros. pose proof (blen_nonneg d). rewrite put_parts, seg_app_l by (rewrite ?blen_seg; lia).
  rewrite seg_seg by lia. f_equal; lia.
Qed.

Lemma seg_put_r b off d i j :
  0 <= off -> off + blen d <= i -> i <= j -> j <= blen b -> seg (put b off d) i j = seg b i j.
Proof.
  intros. pose proof (blen_nonneg d). rewrite put_parts by lia.
  rewrite seg_app_r by (rewrite ?blen_seg; lia). rewrite seg_app_r by (rewrite ?blen_seg; lia).
  rewrite blen_seg, seg_seg by lia. f_equal; lia.
Qed.

Lemma seg_put_same b off d j :
  0 <= off -> j = off + blen d -> j <= blen b -> seg (put b off d) off j = d.
Proof.
  intros H1 -> H2. pose proof (blen_nonneg d). rewrite put_parts by lia. rewrite seg_app_r by (rewrite ?blen_seg; lia).
  rewrite seg_app_l by (rewrite ?blen_seg; lia). rewrite blen_seg by lia.
  replace (off - (off - 0)) with 0 by lia. replace (off + blen d - (off - 0)) with (blen d) by lia. apply seg_full.
Qed.

Lemma seg_in_zeros b i j k l : seg b i j = zeros (j - i) -> 0 <= i -> i <= k -> k <= l -> l <= j -> j <= blen b -> seg b k l = zeros (l - k).
Proof.
  intros H. intros. replace (seg b k l) with (seg (seg b i j) (k - i) (l - i)) by (rewrite seg_seg by lia; f_equal; lia).
  rewrite H, seg_zeros by lia. f_equal. lia.
Qed.

Lemma finalize_tar_checksum_Ok b :
  blen b = 512 ->
  exists h, finalize_tar_checksum b = Ok h /\ blen h = 512 /\ verify_tar_checksum h = Ok tt
    /\ (forall i j, 0 <= i <= j -> j <= 148 \/ 156 <= i /\ j <= 512 -> seg h i j = seg b i j).
Proof.
  intros Hb. unfold finalize_tar_checksum.
  set (spaces := replicate 8 SPACE). assert (blen spaces = 8) as Hs by done.
  set (b1 := put b 148 spaces). assert (blen b1 = 512) as Hb1 by (unfold b1; rewrite blen_put; lia).
  pose proof (byte_sum_bound b1) as Hsum. rewrite Hb1 in Hsum.
  rewrite write_tar_checksum_eq by (rewrite ?blen_seg; lia). rewrite bind_ret, mret_eq.
  set (field := fixed_digits 8 6 (byte_sum b1) ++ [NUL; SPACE]).
  assert (blen field = 8) as Hf by (unfold field; by rewrite blen_app, blen_fixed_digits).
  exists (put b1 148 field). split_and!; [done|rewrite blen_put; lia| |].
  - unfold verify_tar_checksum. rewrite slice_in_range by (rewrite ?blen_put; lia).
    rewrite bind_ret, seg_put_same by lia.
    assert (parse_tar_octal field = Ok (byte_sum b1)) as -> by (apply parse_tar_octal_digits; unfold fits; auto; lia).
    rewrite bind_ret. apply reject_if_false, negb_false_iff, Z.eqb_eq.
    rewrite put_parts by lia. rewrite checksum_parts by (rewrite ?blen_seg; lia).
    unfold b1 at 1. rewrite put_parts by lia. rewrite !byte_sum_app. change (byte_sum spaces) with 256.
    rewrite Hf, Hb1, Hs, Hb. unfold b1.
    rewrite seg_put_l, seg_put_r by lia. lia.
  - intros i j Hij [Hj|Hj].
    + rewrite seg_put_l by lia. unfold b1. by rewrite seg_put_l by lia.
    + rewrite seg_put_r by lia. unfold b1. by rewrite seg_put_r by lia.
Qed.

(** ** The header the writer builds *)
Definition header_fits (path : bytes) (size mode mtime : Z) : Prop :=
  blen path <= 100 /\ size < 8 ^ 11 /\ mode < 8 ^ 7 /\ mtime < 8 ^ 11.

Definition header_writes (path : bytes) (size mode mtime : Z) (typeflag : Byte.byte) : list (Z * bytes) :=
  [(0, path); (100, fixed_digits 8 7 mode ++ [NUL]); (108, fixed_digits 8 7 0 ++ [NUL]);
   (116, fixed_digits 8 7 0 ++ [NUL]); (124, fixed_digits 8 11 size ++ [NUL]);
   (136, fixed_digits 8 11 mtime ++ [NUL]); (148, replicate 8 SPACE); (156, [typeflag]);
   (257, USTAR_MAGIC); (263, ascii "00")].

Lemma build_ustar_header_eq path size mode mtime typeflag h :
  0 <= size -> 0 <= mode -> 0 <= mtime ->
  build_ustar_header path size mode mtime typeflag = Ok h
  <-> header_fits path size mode mtime
      /\ finalize_tar_checksum (puts (zeros 512) (header_writes path size mode mtime typeflag)) = Ok h.
Proof.
  intros Hs Hm Ht. unfold build_ustar_header, header_fits.
  rewrite bind_Ok. setoid_rewrite reject_if_Ok.
  change 8 with (Z.of_nat (S 7)) at 1 2 3. change 12 with (Z.of_nat (S 11)).
  split.
  - intros (_ & Hp & H). apply bind_Ok in H as (f1 & (_ & H1 & ->)%write_tar_octal_Ok & H); [|done].
    apply bind_Ok in H as (f2 & (_ & _ & ->)%write_tar_octal_Ok & H); [|done].
    apply bind_Ok in H as (f3 & (_ & _ & ->)%write_tar_octal_Ok & H); [|done].
    apply bind_Ok in H as (f4 & (_ & H4 & ->)%write_tar_octal_Ok & H); [|done].
    apply bind_Ok in H as (f5 & (_ & H5 & ->)%write_tar_octal_Ok & H); [|done].
    split; [split_and!; [lia|exact H4|exact H1|exact H5]|exact H].
  - intros [(Hp & H4 & H1 & H5) H]. exists tt. split; [lia|].
    rewrite (proj2 (write_tar_octal_Ok 7 mode _ Hm)), bind_ret by (split_and!; [lia|exact H1|done]).
    rewrite (proj2 (write_tar_octal_Ok 7 0 _ ltac:(lia))), bind_ret by (split_and!; [lia|done|done]).
    rewrite bind_ret.
    rewrite (proj2 (write_tar_octal_Ok 11 size _ Hs)), bind_ret by (split_and!; [lia|exact H4|done]).
    rewrite (proj2 (write_tar_octal_Ok 11 mtime _ Ht)), bind_ret by (split_and!; [lia|exact H5|done]). exact H.
Qed.

(** The fields of a built header. *)
Record built_header (path : bytes) (size mode mtime : Z) (typeflag : Byte.byte) (h : bytes) : Prop := {
  bh_len : blen h = 512;
  bh_name : seg h 0 100 = path ++ zeros (100 - blen path);
  bh_mode : seg h 100 108 = fixed_digits 8 7 mode ++ [NUL];
  bh_uid : seg h 108 116 = fixed_digits 8 7 0 ++ [NUL];
  bh_gid : seg h 116 124 = fixed_digits 8 7 0 ++ [NUL];
  bh_size : seg h 124 136 = fixed_digits 8 11 size ++ [NUL];
  bh_mtime : seg h 136 148 = fixed_digits 8 11 mtime ++ [NUL];
  bh_type : seg h 156 157 = [typeflag];
  bh_link : seg h 157 257 = zeros 100;
  bh_magic : seg h 257 263 = USTAR_MAGIC;
  bh_version : seg h 263 265 = ascii "00";
  bh_rest : seg h 265 512 = zeros 247
}.

Lemma header_writes_built path size mode mtime typeflag :
  blen path <= 100 -> built_header path size mode mtime typeflag (puts (zeros 512) (header_writes path size mode mtime typeflag)).
Proof.
  intros Hp. pose proof (blen_nonneg path).
  assert (blen USTAR_MAGIC = 6 /\ blen (ascii "00") = 2 /\ blen (replicate 8 SPACE) = 8 /\ blen [typeflag] = 1) as (L1 & L2 & L3 & L4) by done.
  assert (forall n v, blen (fixed_digits 8 n v ++ [NUL]) = Z.of_nat n + 1) as L by (intros; by rewrite blen_app, blen_fixed_digits).
  destruct (proj1 (puts_iff 512 (header_writes path size mode mtime typeflag) _ ltac:(unfold header_writes; cbn [fits_in]; rewrite ?L, ?L1, ?L2, ?L3, ?L4; cbn; lia)) eq_refl) as [Hlen Hc].
  revert Hlen Hc. generalize (puts (zeros 512) (header_writes path size mode mtime typeflag)) as h. intros h Hlen Hc.
  unfold header_writes in Hc. cbn [covers] in Hc. rewrite ?L, ?L1, ?L2, ?L3, ?L4 in Hc.
  cbn [Z.add Z.of_nat Z.sub Z.opp Z.pos_sub Pos.of_succ_nat Pos.succ Pos.add Pos.pred_double] in Hc.
  destruct Hc as (_ & Hpath & Hpad & Hmode & _ & Huid & _ & Hgid & _ & Hsize & _ & Hmtime & _ & _ & _ & Htype & Hlink & Hmagic & _ & Hversion & Hrest).
  rewrite ?Z.add_0_l in Hpath, Hpad.
  split; try done. rewrite (seg_split h 0 (blen path) 100) by lia. by rewrite Hpath, Hpad.
Qed.

Lemma built_header_same path size mode mtime typeflag b h :
  built_header path size mode mtime typeflag b -> blen h = 512 ->
  (forall i j, 0 <= i <= j -> j <= 148 \/ 156 <= i /\ j <= 512 -> seg h i j = seg b i j) ->
  built_header path size mode mtime typeflag h.
Proof. intros [] Hl Hs. split; [done|..]; rewrite Hs by lia; done. Qed.

Lemma build_ustar_header_built path size mode mtime typeflag :
  0 <= size -> 0 <= mode -> 0 <= mtime ->
  (header_fits path size mode mtime -> exists h, build_ustar_header path size mode mtime typeflag = Ok h)
  /\ (forall h, build_ustar_header path size mode mtime typeflag = Ok h ->
        header_fits path size mode mtime /\ built_header path size mode mtime typeflag h /\ verify_tar_checksum h = Ok tt).
Proof.
  intros Hs Hm Ht. setoid_rewrite build_ustar_header_eq; [|done..]. split.
  - intros Hf. destruct (header_writes_built path size mode mtime typeflag (proj1 Hf)) as [Hlen _ _ _ _ _ _ _ _ _ _ _].
    destruct (finalize_tar_checksum_Ok _ Hlen) as (h & Hh & _). eauto.
  - intros h [Hf Hh]. pose proof (header_writes_built path size mode mtime typeflag (proj1 Hf)) as Hb.
    destruct (finalize_tar_checksum_Ok _ (bh_len _ _ _ _ _ _ Hb)) as (h' & Hh' & Hlen & Hv & Hseg).
    rewrite Hh in Hh'. injection Hh' as <-. split_and!; [done|by eapply built_header_same|done].
Qed.

Lemma octal_field_seg h i j (len : nat) value :
  0 <= i <= j -> j <= blen h -> seg h i j = fixed_digits 8 len value ++ [NUL] ->
  u64 value -> (0 < len)%nat -> value < 8 ^ Z.of_nat len -> octal_field h i j = Ok value.
Proof.
  intros Hi Hj Hs Hv Hl Hb. unfold octal_field. rewrite slice_in_range by lia. rewrite bind_ret, Hs.
  apply parse_tar_octal_digits; auto.
Qed.

Lemma octal_field_zeros h i j : 0 <= i <= j -> j <= blen h -> seg h i j = zeros (j - i) -> octal_field h i j = Ok 0.
Proof.
  intros Hi Hj Hs. unfold octal_field. rewrite slice_in_range by lia. rewrite bind_ret, Hs. apply parse_tar_octal_zeros.
Qed.

Lemma text_field_zeros h i j : 0 <= i <= j -> j <= blen h -> seg h i j = zeros (j - i) -> text_field h i j = Ok [].
Proof.
  intros Hi Hj Hs. unfold text_field. rewrite slice_in_range by lia. rewrite bind_ret, Hs. by rewrite nul_trimmed_zeros.
Qed.

Lemma check_string_zeros h i j : 0 <= i <= j -> j <= blen h -> seg h i j = zeros (j - i) -> check_string_field h (i, j) = Ok tt.
Proof.
  intros Hi Hj Hs. unfold check_string_field. cbn [fst snd]. rewrite slice_in_range by lia. rewrite bind_ret, Hs. apply validate_zeros.
Qed.

Lemma zero_octal_Ok h i j e : octal_field h i j = Ok 0 -> zero_octal h (i, j) e = Ok tt.
Proof. intros H. unfold zero_octal. cbn [fst snd]. by rewrite H. Qed.

Lemma empty_text_Ok h i j e : text_field h i j = Ok [] -> empty_text h (i, j) e = Ok tt.
Proof. intros H. unfold empty_text. cbn [fst snd]. by rewrite H. Qed.

Section Built.
Context (path : bytes) (size mode mtime : Z) (typeflag : Byte.byte) (h : bytes).
Context (Hpath : NUL ∉ path) (Hsize : u64 size) (Hmode : u32 mode) (Hmtime : u64 mtime).
Context (Hfits : header_fits path size mode mtime) (Hb : built_header path size mode mtime typeflag h).

Lemma built_zeros i j : 157 <= i <= j -> j <= 257 \/ 265 <= i /\ j <= 512 -> seg h i j = zeros (j - i).
Proof.
  destruct Hb. intros Hi [Hj|[Hj1 Hj2]]; [apply (seg_in_zeros h 157 257)|apply (seg_in_zeros h 265 512)]; lia || done.
Qed.

Lemma built_path : ustar_path h = Ok path.
Proof.
  destruct Hb. unfold ustar_path. rewrite !slice_in_range by lia. rewrite !bind_ret.
  rewrite bh_name0, nul_trimmed_padded by done. rewrite built_zeros by lia. by rewrite nul_trimmed_zeros.
Qed.

Lemma built_ustar : validate_ustar_header h = Ok tt.
Proof.
  destruct Hb. unfold validate_ustar_header. rewrite !slice_in_range by lia. rewrite bind_ret, bh_magic0, reject_if_false, bind_ret by done.
  rewrite bind_ret, bh_version0, reject_if_false, bind_ret by done.
  assert (check_string_field h (0, 100) = Ok tt) as ->.
  { unfold check_string_field. cbn [fst snd]. rewrite slice_in_range by lia. by rewrite bind_ret, bh_name0, validate_padded. }
  rewrite !check_string_zeros, !bind_ret by (lia || apply built_zeros; lia).
  apply reject_if_false, negb_false_iff, all_zero_iff. rewrite built_zeros by lia. by rewrite blen_zeros.
Qed.

Lemma built_octal :
  octal_field h 100 108 = Ok mode /\ octal_field h 108 116 = Ok 0 /\ octal_field h 116 124 = Ok 0
  /\ octal_field h 124 136 = Ok size /\ octal_field h 136 148 = Ok mtime
  /\ octal_field h 329 337 = Ok 0 /\ octal_field h 337 345 = Ok 0.
Proof.
  destruct Hb, Hfits as (F1 & F2 & F3 & F4), Hmode as [M1 M2].
  assert (u64 mode) by (unfold fits; lia).
  split_and!; try (apply octal_field_zeros; [lia|lia|by apply built_zeros; lia]).
  1, 2, 3: by apply (octal_field_seg h _ _ 7); lia || done.
  all: by apply (octal_field_seg h _ _ 11); lia || done.
Qed.

Lemma built_metadata_fields e : mode = 0 -> mtime = 0 -> metadata_fields_zero h e = Ok tt.
Proof.
  intros Hm Ht. destruct built_octal as (O1 & O2 & O3 & _ & O5 & O6 & O7). rewrite Hm in O1. rewrite Ht in O5.
  destruct Hb. unfold metadata_fields_zero.
  rewrite !zero_octal_Ok, !bind_ret by done.
  rewrite !empty_text_Ok by (apply text_field_zeros; [lia..|apply built_zeros; lia]). by rewrite !bind_ret.
Qed.
End Built.

(** C16: A header the writer builds passes the reader's checksum and format checks,
    and the reader finds in it the path, the sizes and times and the type that
    were written; the writer builds one exactly when the values fit their
    fields. *)
Theorem ustar_header_roundtrip path size mode mtime typeflag :
  NUL ∉ path -> u64 size -> u32 mode -> u64 mtime ->
  ((exists h, build_ustar_header path size mode mtime typeflag = Ok h)
   <-> blen path <= 100 /\ tar_octal_fits 12 size = true /\ tar_octal_fits 8 mode = true /\ tar_octal_fits 12 mtime = true)
  /\ forall h, build_ustar_header path size mode mtime typeflag = Ok h ->
       blen h = 512 /\ verify_tar_checksum h = Ok tt /\ validate_ustar_header h = Ok tt
       /\ ustar_path h = Ok path /\ byte_at (E:=FormatError) h 156 = Ok (byte.unsigned typeflag)
       /\ octal_field h 100 108 = Ok mode /\ octal_field h 124 136 = Ok size /\ octal_field h 136 148 = Ok mtime
       /\ (mode = 0 -> mtime = 0 -> validate_v45_metadata_header h = Ok tt)
       /\ (forall ordinal, mode = 0 -> mtime = 0 -> path = auxiliary_path ordinal ->
             validate_v45_auxiliary_header h ordinal size size = Ok tt).
Proof.
  intros Hp Hs Hm Ht. pose proof Hs as [? ?]. pose proof Hm as [? ?]. pose proof Ht as [? ?].
  destruct (build_ustar_header_built path size mode mtime typeflag) as [Hex Hinv]; [done..|].
  assert (u64 mode) as Hm64 by (unfold fits; lia).
  pose proof (tar_octal_fits_iff 11 size Hs) as F1. pose proof (tar_octal_fits_iff 7 mode Hm64) as F2.
  pose proof (tar_octal_fits_iff 11 mtime Ht) as F3.
  change (Z.of_nat 12) with 12 in *. change (Z.of_nat 8) with 8 in *.
  change (Z.of_nat 11) with 11 in *. change (Z.of_nat 7) with 7 in *. split.
  { rewrite F1, F2, F3. split.
    - intros [h Hh]. destruct (Hinv h Hh) as [(? & ? & ? & ?) _]. auto with lia.
    - intros (? & [_ ?] & [_ ?] & [_ ?]). by apply Hex. }
  intros h Hh. destruct (Hinv h Hh) as (Hf & Hb & Hv). pose proof (built_octal _ _ _ _ _ _ Hs Hm Ht Hf Hb) as (O1 & _ & _ & O4 & O5 & _).
  pose proof (built_ustar _ _ _ _ _ _ Hp Hb) as Hu. pose proof (built_path _ _ _ _ _ _ Hp Hb) as Hpath.
  pose proof (bh_len _ _ _ _ _ _ Hb) as Hlen.
  split_and!; try done.
  - pose proof (bh_type _ _ _ _ _ _ Hb) as Htype. unfold seg in Htype. change (Z.to_nat (157 - 156)) with 1%nat in Htype.
    destruct (drop (Z.to_nat 156) h) as [|x rest] eqn:E; [done|]. cbn in Htype. injection Htype as ->.
    apply byte_at_lookup; [lia|]. rewrite <- (Nat.add_0_r (Z.to_nat 156)), <- lookup_drop, E. done.
  - intros. unfold validate_v45_metadata_header. rewrite Hu, bind_ret. by apply (built_metadata_fields path size mode mtime typeflag).
  - intros ordinal ? ? ?. unfold validate_v45_auxiliary_header. rewrite Hu, bind_ret. cbv zeta. rewrite Hpath, bind_ret.
    rewrite (reject_if_false (negb (bytes_eqb path (auxiliary_path ordinal)))), bind_ret by (by apply negb_false_iff, bytes_eqb_eq).
    rewrite (built_metadata_fields path size mode mtime typeflag h), bind_ret by done.
    by rewrite Z.eqb_refl.
Qed.


Definition example_header_path : bytes := ascii "a/b".

Lemma ustar_header_roundtrip_witness :
  exists h, build_ustar_header example_header_path 5 0x1A4 1700000000 Byte.x30 = Ok h /\ ustar_path h = Ok example_header_path.
Proof.
  destruct (ustar_header_roundtrip example_header_path 5 0x1A4 1700000000 Byte.x30) as [[_ Hex] Hh];
    [by apply (bool_decide_unpack _); vm_compute|done..|].
  destruct Hex as [h E]; [by split_and!; vm_compute|]. exists h. split; [done|]. by destruct (Hh h E) as (_ & _ & _ & ? & _).
Defined.

(** ** Damage *)
Lemma checksum_loop_insert idx h i x y :
  h !! i = Some y -> idx + Z.of_nat i < 148 \/ 156 <= idx + Z.of_nat i ->
  checksum_loop idx (<[i := x]> h) = checksum_loop idx h + byte.unsigned x - byte.unsigned y.
Proof.
  revert idx i. induction h as [|z h IH]; intros idx i Hi Hout; [done|].
  destruct i as [|i]; cbn [insert list_insert checksum_loop].
  - injection Hi as ->. replace ((148 <=? idx) && (idx <? 156)) with false by lia. lia.
  - rewrite IH by (done || lia). lia.
Qed.

(** Changing one byte of a header outside the checksum field makes the checksum
    fail. *)
Theorem header_damage_detected h i x y :
  verify_tar_checksum h = Ok tt -> h !! i = Some y -> x <> y -> (i < 148 \/ 156 <= i)%nat ->
  verify_tar_checksum (<[i := x]> h) = Err (InvalidArchive "tar header checksum mismatch").
Proof.
  intros Hv Hi Hxy Hout. unfold verify_tar_checksum in *.
  apply bind_Ok in Hv as (field & Hf & Hv). apply bind_Ok in Hv as (stored & Hs & Hv). apply reject_if_Ok, negb_false_iff, Z.eqb_eq in Hv.
  apply slice_Ok in Hf as (H1 & H2 & H3 & ->).
  assert (blen (<[i := x]> h) = blen h) as Hlen by (unfold blen; by rewrite length_insert).
  rewrite slice_in_range by lia. rewrite bind_ret.
  assert (seg (<[i := x]> h) 148 156 = seg h 148 156) as ->.
  { unfold seg. change (Z.to_nat 148) with 148%nat. change (Z.to_nat (156 - 148)) with 8%nat. destruct Hout.
    - by rewrite drop_insert_lt by lia.
    - rewrite drop_insert_ge by lia. by rewrite take_insert_ge by lia. }
  rewrite Hs, bind_ret. rewrite (checksum_loop_insert 0 h i x y) by (done || lia).
  assert (byte.unsigned x <> byte.unsigned y) by (intros E; by apply byte.unsigned_inj in E).
  unfold reject_if. rewrite (proj2 (Z.eqb_neq _ _)) by lia. done.
Qed.

Lemma header_damage_detected_witness :
  verify_tar_checksum (<[156%nat := Byte.x35]> (default [] (match build_ustar_header example_header_path 5 0x1A4 1700000000 Byte.x30 with Ok h => Some h | _ => None end)))
  = Err (InvalidArchive "tar header checksum mismatch").
Proof. apply (header_damage_detected _ _ _ Byte.x30); [by vm_compute|by vm_compute|done|lia]. Defined.
