(* ===== verification/NativeMetadata.v ===== *)
(** * Native metadata payloads

    The structural checks on the payloads of auxiliary entries in
    [crates/tzap-core/src/entry_metadata.rs]: Windows security descriptors,
    reparse buffers, extended-attribute streams and stream names, and macOS
    access-control lists. *)

From S2P Require Import Wire Ordering Paths TextCodecs Pax SparseMap TarHeader.
#[local] Open Scope Z_scope.

(** [u16::from_le_bytes([b[i], b[i + 1]])] *)
Definition u16_at (b : bytes) (i : Z) : fresult Z :=
  lo ← byte_at b i; hi ← byte_at b (i + 1); mret (lo + 256 * hi).

Definition read_le_u32 (payload : bytes) (offset : Z) : fresult Z :=
  b ← ok_or (get_range payload offset (offset + 4)) (InvalidArchive "little-endian u32 is out of bounds");
  mret (le_combine b).

(** ** Security descriptors *)
Definition OWNER_SECURITY_INFORMATION : Z := 0x00000001.
Definition GROUP_SECURITY_INFORMATION : Z := 0x00000002.
Definition DACL_SECURITY_INFORMATION : Z := 0x00000004.
Definition SACL_SECURITY_INFORMATION : Z := 0x00000008.
Definition PROTECTED_DACL_SECURITY_INFORMATION : Z := 0x80000000.
Definition PROTECTED_SACL_SECURITY_INFORMATION : Z := 0x40000000.
Definition UNPROTECTED_DACL_SECURITY_INFORMATION : Z := 0x20000000.
Definition UNPROTECTED_SACL_SECURITY_INFORMATION : Z := 0x10000000.

Definition ALLOWED_SECURITY_INFORMATION : Z :=
  foldr Z.lor 0 [OWNER_SECURITY_INFORMATION; GROUP_SECURITY_INFORMATION; DACL_SECURITY_INFORMATION;
    SACL_SECURITY_INFORMATION; PROTECTED_DACL_SECURITY_INFORMATION; PROTECTED_SACL_SECURITY_INFORMATION;
    UNPROTECTED_DACL_SECURITY_INFORMATION; UNPROTECTED_SACL_SECURITY_INFORMATION].

Definition validate_sid (payload : bytes) (offset : Z) : fresult unit :=
  header ← ok_or (get_range payload offset (offset + 8)) (InvalidArchive "SID header is out of bounds");
  revision ← byte_at header 0;
  subauthorities ← byte_at header 1;
  reject_if (negb (revision =? 1) || (15 <? subauthorities)) (InvalidMetadata "SecurityDescriptor" "SID header is invalid");;
  len ← ok_or (checked_add 64 8 (subauthorities * 4)) (InvalidArchive "SID size overflow");
  match checked_add 64 offset len with
  | Some end_ =>
      reject_if (blen payload <? end_) (InvalidMetadata "SecurityDescriptor" "SID is out of bounds")
  | None => invalid "SecurityDescriptor" "SID is out of bounds"
  end.

(** The loop over the entries of an access-control list, [count] of them. *)
Fixpoint ace_loop (count : nat) (payload : bytes) (cursor end_ : Z) : fresult unit :=
  match count with
  | O => Ok tt
  | S count =>
      ace ← ok_or (get_range payload cursor (cursor + 4)) (InvalidArchive "ACE header is out of bounds");
      ace_size ← u16_at ace 2;
      reject_if ((ace_size <? 4) || negb (ace_size mod 4 =? 0)) (InvalidMetadata "SecurityDescriptor" "ACE size is invalid");;
      cursor ← ok_or (checked_add 64 cursor ace_size) (InvalidArchive "ACE size overflow");
      reject_if (end_ <? cursor) (InvalidMetadata "SecurityDescriptor" "ACE exceeds ACL bounds");;
      ace_loop count payload cursor end_
  end.

Definition validate_acl (payload : bytes) (offset : Z) : fresult unit :=
  header ← ok_or (get_range payload offset (offset + 8)) (InvalidArchive "ACL header is out of bounds");
  revision ← byte_at header 0;
  reject_if (negb ((revision =? 2) || (revision =? 4))) (InvalidMetadata "SecurityDescriptor" "ACL revision is unsupported");;
  size ← u16_at header 2;
  count ← u16_at header 4;
  end_ ← ok_or (checked_add 64 offset size) (InvalidArchive "ACL size overflow");
  reject_if ((size <? 8) || (blen payload <? end_)) (InvalidMetadata "SecurityDescriptor" "ACL size is out of bounds");;
  ace_loop (Z.to_nat count) payload (offset + 8) end_.

(** The protection bit that a control word asks for. *)
Definition expected_protection (control present protected_bit protected unprotected : Z) : Z :=
  if negb (bit_set control present) then 0
  else if bit_set control protected_bit then protected
  else unprotected.

Definition security_mask_disagrees (security_information control owner group : Z) : bool :=
  let dacl_protection := Z.land security_information
    (Z.lor PROTECTED_DACL_SECURITY_INFORMATION UNPROTECTED_DACL_SECURITY_INFORMATION) in
  let expected_dacl_protection := expected_protection control 0x0004 0x1000
    PROTECTED_DACL_SECURITY_INFORMATION UNPROTECTED_DACL_SECURITY_INFORMATION in
  let sacl_protection := Z.land security_information
    (Z.lor PROTECTED_SACL_SECURITY_INFORMATION UNPROTECTED_SACL_SECURITY_INFORMATION) in
  let expected_sacl_protection := expected_protection control 0x0010 0x2000
    PROTECTED_SACL_SECURITY_INFORMATION UNPROTECTED_SACL_SECURITY_INFORMATION in
  (security_information =? 0)
  || bit_set security_information (unot 32 ALLOWED_SECURITY_INFORMATION)
  || xorb (bit_set security_information OWNER_SECURITY_INFORMATION) (negb (owner =? 0))
  || xorb (bit_set security_information GROUP_SECURITY_INFORMATION) (negb (group =? 0))
  || xorb (bit_set security_information DACL_SECURITY_INFORMATION) (bit_set control 0x0004)
  || xorb (bit_set security_information SACL_SECURITY_INFORMATION) (bit_set control 0x0010)
  || (negb (dacl_protection =? 0) && negb (dacl_protection =? expected_dacl_protection))
  || (negb (sacl_protection =? 0) && negb (sacl_protection =? expected_sacl_protection)).

Definition bad_component_offset (payload : bytes) (offset : Z) : bool :=
  negb (offset =? 0) && ((offset <? 20) || negb (offset mod 4 =? 0) || (blen payload <=? offset)).

Definition validate_self_relative_security_descriptor (payload : bytes) (security_information : Z) : fresult unit :=
  reject_if (blen payload <? 20) (InvalidMetadata "SecurityDescriptor" "invalid self-relative descriptor header");;
  revision ← byte_at payload 0;
  reject_if (negb (revision =? 1)) (InvalidMetadata "SecurityDescriptor" "invalid self-relative descriptor header");;
  control ← u16_at payload 2;
  reject_if (negb (bit_set control 0x8000)) (InvalidMetadata "SecurityDescriptor" "descriptor is not self-relative");;
  owner ← read_le_u32 payload 4;
  group ← read_le_u32 payload 8;
  sacl ← read_le_u32 payload 12;
  dacl ← read_le_u32 payload 16;
  reject_if (security_mask_disagrees security_information control owner group)
    (InvalidMetadata "SecurityDescriptor" "security-information mask disagrees with captured descriptor components");;
  reject_if (existsb (bad_component_offset payload) [owner; group; sacl; dacl])
    (InvalidMetadata "SecurityDescriptor" "descriptor component offset is out of bounds");;
  (if negb (owner =? 0) then validate_sid payload owner else Ok tt);;
  (if negb (group =? 0) then validate_sid payload group else Ok tt);;
  (if negb (sacl =? 0) then
     reject_if (negb (bit_set control 0x0010))
       (InvalidMetadata "SecurityDescriptor" "SACL offset is present without SACL control bit");;
     validate_acl payload sacl
   else Ok tt);;
  (if negb (dacl =? 0) then
     reject_if (negb (bit_set control 0x0004))
       (InvalidMetadata "SecurityDescriptor" "DACL offset is present without DACL control bit");;
     validate_acl payload dacl
   else Ok tt).

(** ** Reparse buffers *)
Definition validate_reparse_name_field (data : bytes) (path_buffer_offset field : Z) : fresult unit :=
  offset ← u16_at data field;
  len ← u16_at data (field + 2);
  let end_ := match checked_add 64 path_buffer_offset offset with
              | Some start => checked_add 64 start len
              | None => None
              end in
  reject_if (negb (offset mod 2 =? 0) || negb (len mod 2 =? 0)
             || match end_ with Some end_ => blen data <? end_ | None => true end)
    (InvalidMetadata "ReparseBuffer" "reparse name offset is out of bounds").

Definition validate_reparse_name_offsets (data : bytes) (path_buffer_offset : Z) : fresult unit :=
  reject_if (blen data <? path_buffer_offset) (InvalidMetadata "ReparseBuffer" "reparse name header is truncated");;
  validate_reparse_name_field data path_buffer_offset 0;;
  validate_reparse_name_field data path_buffer_offset 4.

Definition validate_reparse_buffer (payload : bytes) (expected_tag : Z) : fresult unit :=
  reject_if (blen payload <? 8) (InvalidMetadata "ReparseBuffer" "reparse buffer header is truncated");;
  tag ← read_le_u32 payload 0;
  data_len ← u16_at payload 4;
  let header_len := if negb (bit_set tag 0x80000000) then 24 else 8 in
  reject_if (negb (tag =? expected_tag)) (InvalidMetadata "ReparseBuffer" "reparse tag or length is inconsistent");;
  total ← ok_or (checked_add 64 header_len data_len) (InvalidArchive "reparse buffer size overflow");
  reject_if (negb (blen payload =? total)) (InvalidMetadata "ReparseBuffer" "reparse tag or length is inconsistent");;
  data ← slice payload header_len (blen payload);
  if tag =? 0xA000000C then validate_reparse_name_offsets data 12
  else if tag =? 0xA0000003 then validate_reparse_name_offsets data 8
  else Ok tt.

(** ** Extended-attribute streams *)

(** One record at [cursor]: the cursor of the next one, or nothing behind the
    last. *)
Definition ea_record (payload : bytes) (cursor : Z) : fresult (option Z) :=
  header_end ← ok_or (checked_add 64 cursor 8) (InvalidArchive "EA record offset overflow");
  header ← ok_or (get_range payload cursor header_end) (InvalidArchive "EA record header is truncated");
  next ← read_le_u32 header 0;
  name_len ← byte_at header 5;
  value_len ← u16_at header 6;
  record_len ← ok_or (match checked_add3 8 name_len 1 with
                      | Some v => checked_add 64 v value_len
                      | None => None
                      end) (InvalidArchive "EA record size overflow");
  record_end ← ok_or (checked_add 64 cursor record_len) (InvalidArchive "EA record end overflow");
  name_end ← ok_or (checked_add 64 header_end name_len) (InvalidArchive "EA name end overflow");
  reject_if ((name_len =? 0) || (blen payload <? record_end)
             || negb (bool_decide (payload !! Z.to_nat name_end = Some NUL))
             || match get_range payload header_end name_end with
                | Some name => bool_decide (NUL ∈ name)
                | None => true
                end)
    (InvalidMetadata "WindowsEaStream" "EA record is malformed");;
  if next =? 0 then
    reject_if (negb (record_end =? blen payload)) (InvalidMetadata "WindowsEaStream" "EA stream has trailing bytes");;
    mret None
  else
    next_cursor ← ok_or (checked_add 64 cursor next) (InvalidArchive "EA next-entry offset overflow");
    reject_if ((next <? record_len) || negb (next mod 4 =? 0) || (blen payload <? next_cursor))
      (InvalidMetadata "WindowsEaStream" "EA next-entry offset is invalid");;
    padding ← slice payload record_end next_cursor;
    reject_if (negb (all_zero padding)) (InvalidMetadata "WindowsEaStream" "EA alignment padding is non-zero");;
    mret (Some next_cursor).

Fixpoint ea_loop (fuel : nat) (payload : bytes) (cursor : Z) : fresult unit :=
  if cursor <? blen payload then
    match fuel with
    | O => Panic
    | S fuel =>
        next ← ea_record payload cursor;
        match next with
        | None => Ok tt
        | Some cursor => ea_loop fuel payload cursor
        end
    end
  else reject_if (bool_decide (payload = [])) (InvalidMetadata "WindowsEaStream" "EA stream is empty").

(** Every record is longer than ten bytes, so the length of the payload is
    enough fuel. *)
Definition validate_windows_ea_stream (payload : bytes) : fresult unit := ea_loop (length payload) payload 0.

(** ** Stream names *)
Fixpoint utf16_units (name : bytes) : list Z :=
  match name with
  | a :: b :: name => byte.unsigned a + 256 * byte.unsigned b :: utf16_units name
  | _ => []
  end.

(** [:$DATA] in UTF-16 *)
Definition STREAM_SUFFIX : list Z := [0x3A; 0x24; 0x44; 0x41; 0x54; 0x41].

Definition stream_unit_forbidden (unit : Z) : bool :=
  (unit =? 0) || (unit =? 0x2F) || (unit =? 0x3A) || (unit =? 0x5C).

Definition validate_windows_stream_name (name : bytes) : fresult unit :=
  reject_if (negb (blen name mod 2 =? 0)) (InvalidMetadata "AuxiliaryMetadata" "Windows alternate-data name is not UTF-16LE");;
  let units := utf16_units name in
  let stem := (length units - length STREAM_SUFFIX)%nat in
  reject_if (bool_decide (length units <= length STREAM_SUFFIX + 1)%nat
             || negb (bool_decide (head units = Some 0x3A))
             || negb (bool_decide (drop stem units = STREAM_SUFFIX))
             || existsb stream_unit_forbidden (take (stem - 1) (drop 1 units)))
    (InvalidMetadata "AuxiliaryMetadata" "Windows alternate-data name is not canonical :name:$DATA").

(** ** macOS access-control lists *)
Definition DARWIN_ACL_MAGIC : bytes := [Byte.x01; Byte.x2c; Byte.xc1; Byte.x6d].

Definition validate_darwin_acl_external (value : bytes) : fresult unit :=
  reject_if (negb (bool_decide (get_range value 0 4 = Some DARWIN_ACL_MAGIC)))
    (InvalidMetadata "AuxiliaryMetadata" "invalid macOS ACL external magic");;
  b ← ok_or (get_range value 36 40) (InvalidArchive "macOS ACL external form is truncated");
  let count := le_combine (reverse b) in
  size ← ok_or (checked_mul 64 count 28) (InvalidArchive "macOS ACL entry count overflows");
  expected ← ok_or (checked_add 64 40 size) (InvalidArchive "macOS ACL size overflows");
  reject_if ((128 <? count) || negb (expected =? blen value))
    (InvalidMetadata "AuxiliaryMetadata" "invalid macOS ACL external size").

(** ** No input makes a check panic *)
Lemma get_range_blen b i j s : get_range b i j = Some s -> blen s = j - i /\ 0 <= i <= j /\ j <= blen b.
Proof. rewrite get_range_Some. intros (? & ? & ? & ->). rewrite blen_seg by lia. lia. Qed.

Lemma u16_at_no_panic b i : 0 <= i -> i + 2 <= blen b -> u16_at b i <> Panic.
Proof. intros. unfold u16_at. no_panic. Qed.

Lemma read_le_u32_no_panic b i : read_le_u32 b i <> Panic.
Proof. unfold read_le_u32. no_panic. Qed.

#[export] Hint Resolve read_le_u32_no_panic : no_panic.

(** Walks through a check, with the lengths of the ranges it has read. *)
Ltac native_no_panic :=
  repeat first
    [ progress no_panic
    | match goal with
      | H : ok_or (checked_add _ _ _) _ = Ok _ |- _ => apply ok_or_Ok, checked_add_Some in H as [? ?]
      | H : ok_or (get_range _ _ _) _ = Ok _ |- _ => apply ok_or_Ok, get_range_blen in H as (? & ? & ?)
      | H : slice _ _ _ = Ok _ |- _ => apply slice_Ok in H as (? & ? & ? & ->)
      | |- u16_at _ _ <> Panic => apply u16_at_no_panic; lia
      | |- byte_at _ _ <> Panic => apply byte_at_no_panic; lia
      | |- (match ?o with Some _ => _ | None => _ end) <> Panic => destruct o
      | |- invalid _ _ <> Panic => discriminate
      | |- (reject_if _ _;; _) <> Panic => apply bind_no_panic; [apply reject_if_no_panic|intros ? ?%reject_if_Ok]
      | |- (u16_at _ _ ≫= _) <> Panic => apply bind_no_panic; [apply u16_at_no_panic; lia|intros ? ?]
      end ].

Lemma validate_sid_no_panic payload offset : validate_sid payload offset <> Panic.
Proof. unfold validate_sid. native_no_panic. Qed.

Lemma ace_loop_no_panic count payload cursor end_ : ace_loop count payload cursor end_ <> Panic.
Proof. revert cursor. induction count as [|count IH]; intros cursor; cbn [ace_loop]; native_no_panic. apply IH. Qed.

#[export] Hint Resolve validate_sid_no_panic ace_loop_no_panic : no_panic.

Lemma validate_acl_no_panic payload offset : validate_acl payload offset <> Panic.
Proof. unfold validate_acl. native_no_panic. apply ace_loop_no_panic. Qed.

#[export] Hint Resolve validate_acl_no_panic : no_panic.

Lemma validate_self_relative_security_descriptor_no_panic payload mask :
  validate_self_relative_security_descriptor payload mask <> Panic.
Proof. unfold validate_self_relative_security_descriptor. native_no_panic; auto with no_panic. Qed.

Lemma validate_reparse_name_field_no_panic data o field :
  0 <= field -> field + 4 <= blen data -> validate_reparse_name_field data o field <> Panic.
Proof. intros. unfold validate_reparse_name_field. native_no_panic. Qed.

Lemma validate_reparse_name_offsets_no_panic data o : 8 <= o -> validate_reparse_name_offsets data o <> Panic.
Proof.
  intros. unfold validate_reparse_name_offsets.
  repeat (native_no_panic; try (apply bind_no_panic; [|intros ? _]); try (apply validate_reparse_name_field_no_panic; lia)).
Qed.

Lemma u16_at_range b i v : u16_at b i = Ok v -> 0 <= v < 2 ^ 16.
Proof.
  unfold u16_at. intros H. apply bind_Ok in H as (lo & (_ & Hlo & _)%byte_at_Ok' & H).
  apply bind_Ok in H as (hi & (_ & Hhi & _)%byte_at_Ok' & H). injection H as <-. unfold fits in *. lia.
Qed.

Lemma validate_reparse_buffer_no_panic payload tag : validate_reparse_buffer payload tag <> Panic.
Proof.
  unfold validate_reparse_buffer. apply bind_no_panic; [apply reject_if_no_panic|intros _ Hl%reject_if_Ok].
  apply bind_no_panic; [apply read_le_u32_no_panic|intros t _].
  apply bind_no_panic; [apply u16_at_no_panic; lia|intros len Hlen%u16_at_range]. cbv zeta.
  assert (exists n, (if negb (bit_set t 0x80000000) then 24 else 8) = n /\ 0 <= n) as (n & -> & Hn) by (case_match; eauto with lia).
  apply bind_no_panic; [apply reject_if_no_panic|intros _ _].
  apply bind_no_panic; [apply ok_or_no_panic|intros total [_ ->]%ok_or_Ok%checked_add_Some].
  apply bind_no_panic; [apply reject_if_no_panic|intros _ Ht%reject_if_Ok].
  apply bind_no_panic; [apply slice_no_panic; lia|intros data _].
  repeat case_match; solve [apply validate_reparse_name_offsets_no_panic; lia|done].
Qed.

Lemma validate_windows_stream_name_no_panic name : validate_windows_stream_name name <> Panic.
Proof. unfold validate_windows_stream_name. no_panic. Qed.

Lemma validate_darwin_acl_external_no_panic value : validate_darwin_acl_external value <> Panic.
Proof. unfold validate_darwin_acl_external. no_panic. Qed.

#[export] Hint Resolve validate_self_relative_security_descriptor_no_panic validate_reparse_buffer_no_panic
  validate_windows_stream_name_no_panic validate_darwin_acl_external_no_panic : no_panic.

(** ** What an extended-attribute stream is *)
Definition ea_bytes (next : Z) (flags : Byte.byte) (name value : bytes) : bytes :=
  le_bytes 4 next ++ [flags; byte.of_Z (blen name)] ++ le_bytes 2 (blen value) ++ name ++ [NUL] ++ value.

Definition ea_ok (name value : bytes) : Prop := 0 < blen name < 2 ^ 8 /\ blen value < 2 ^ 16 /\ NUL ∉ name.

(** The attributes of a stream, in order.  A record names the distance to the
    next one, in whole words; the last record ends the stream, with distance
    zero or with the distance to the end. *)
Inductive ea_stream : bytes -> list (bytes * bytes) -> Prop :=
| ea_last flags name value :
    ea_ok name value -> ea_stream (ea_bytes 0 flags name value) [(name, value)]
| ea_padded_last next flags name value :
    ea_ok name value -> u32 next -> next mod 4 = 0 -> 9 + blen name + blen value <= next ->
    ea_stream (ea_bytes next flags name value ++ zeros (next - (9 + blen name + blen value))) [(name, value)]
| ea_more next flags name value rest attributes :
    ea_ok name value -> u32 next -> next mod 4 = 0 -> 9 + blen name + blen value <= next ->
    ea_stream rest attributes ->
    ea_stream (ea_bytes next flags name value ++ zeros (next - (9 + blen name + blen value)) ++ rest)
      ((name, value) :: attributes).

Lemma blen_ea_bytes next flags name value : blen (ea_bytes next flags name value) = 9 + blen name + blen value.
Proof. unfold ea_bytes. rewrite !blen_app, !blen_le. change (blen [flags; byte.of_Z (blen name)]) with 2. change (blen [NUL]) with 1. lia. Qed.

Lemma get_range_middle a b c i j : i = blen a -> j = blen a + blen b -> get_range (a ++ b ++ c) i j = Some b.
Proof.
  intros Hi Hj. pose proof (slice_middle (E:=FormatError) a b c i j Hi Hj) as H. unfold slice in H.
  destruct (get_range (a ++ b ++ c) i j); [by injection H as ->|done].
Qed.

Lemma get_range_app a b j s : get_range (a ++ b) (blen a) j = Some s <-> exists t, b = s ++ t /\ j = blen a + blen s.
Proof.
  pose proof (blen_nonneg a). split.
  - intros Hg. pose proof (get_range_blen _ _ _ _ Hg) as (Hl & Hij & Hj). rewrite blen_app in Hj.
    apply get_range_Some in Hg as (_ & _ & _ & ->). rewrite seg_app_r, Z.sub_diag by lia.
    rewrite blen_seg by lia. exists (seg b (j - blen a) (blen b)). split; [|lia].
    rewrite <- (seg_full b) at 1. by apply seg_split; lia.
  - intros (t & -> & ->). by apply get_range_middle.
Qed.

Lemma le_pair lo hi : le_combine [lo; hi] = byte.unsigned lo + 256 * byte.unsigned hi.
Proof.
  change (le_combine [lo; hi]) with (Z.lor (byte.unsigned lo) (Z.shiftl (Z.lor (byte.unsigned hi) (Z.shiftl 0 8)) 8)).
  rewrite Z.shiftl_0_l, Z.lor_0_r, Z.shiftl_mul_pow2, Z.lor_comm by lia.
  pose proof (byte.unsigned_range lo). rewrite lor_disjoint by (cbn; lia). lia.
Qed.

Lemma le_pair_bytes lo hi v : v = byte.unsigned lo + 256 * byte.unsigned hi <-> u16 v /\ le_bytes 2 v = [lo; hi].
Proof.
  split.
  - intros ->. pose proof (byte.unsigned_range lo). pose proof (byte.unsigned_range hi). split; [unfold fits; lia|].
    rewrite <- le_pair. apply (split_le_combine [lo; hi]).
  - intros [Hv H]. rewrite <- le_pair, <- H. by rewrite le_combine_bytes.
Qed.

Lemma byte_of_unsigned x v : v = byte.unsigned x <-> u8 v /\ byte.of_Z v = x.
Proof.
  split; [intros ->|intros [Hv <-]].
  - pose proof (byte.unsigned_range x). split; [unfold fits; lia|apply byte.of_Z_unsigned].
  - rewrite byte.unsigned_of_Z. unfold byte.wrap. rewrite Z.mod_small; [done|]. unfold fits in Hv. lia.
Qed.

(** The fields of a header of eight bytes. *)
Lemma ea_header_fields h next name_len value_len :
  blen h = 8 ->
  (read_le_u32 h 0 = Ok next /\ byte_at (E:=FormatError) h 5 = Ok name_len /\ u16_at h 6 = Ok value_len)
  <-> u32 next /\ u8 name_len /\ u16 value_len
      /\ exists flags, h = le_bytes 4 next ++ [flags; byte.of_Z name_len] ++ le_bytes 2 value_len.
Proof.
  intros Hl. destruct h as [|x0 [|x1 [|x2 [|x3 [|x4 [|x5 [|x6 [|x7 [|]]]]]]]]]; try (unfold blen in Hl; cbn in Hl; lia).
  set (h := [x0; x1; x2; x3; x4; x5; x6; x7]).
  assert (read_le_u32 h 0 = Ok (le_combine [x0; x1; x2; x3])) as -> by reflexivity.
  assert (byte_at (E:=FormatError) h 5 = Ok (byte.unsigned x5)) as -> by reflexivity.
  assert (u16_at h 6 = Ok (byte.unsigned x6 + 256 * byte.unsigned x7)) as -> by reflexivity.
  split.
  - intros ([= <-] & [= H5] & [= H6]). symmetry in H5, H6. apply byte_of_unsigned in H5 as [? H5]. apply le_pair_bytes in H6 as [? H6].
    split_and!; [by apply le_combine_fits|done|done|]. exists x4. rewrite H5, H6.
    pose proof (split_le_combine [x0; x1; x2; x3]) as E. cbn [length] in E. by rewrite E.
  - intros (Hn & Hnl & Hvl & flags & H). unfold h in H.
    destruct (le_bytes 4 next) as [|y0 [|y1 [|y2 [|y3 [|]]]]] eqn:E1; try done.
    destruct (le_bytes 2 value_len) as [|z0 [|z1 [|]]] eqn:E2; try done.
    injection H as -> -> -> -> -> H5 -> ->. split_and!; f_equal.
    + by rewrite <- E1, le_combine_bytes.
    + symmetry. by apply byte_of_unsigned.
    + symmetry. by apply le_pair_bytes.
Qed.

Lemma app_split_blen (b : bytes) n : 0 <= n <= blen b -> exists x y, b = x ++ y /\ blen x = n.
Proof.
  intros H. exists (take (Z.to_nat n) b), (drop (Z.to_nat n) b). split; [by rewrite take_drop|].
  unfold blen in *. rewrite length_take. lia.
Qed.

Lemma checked_add3_plus a b c d :
  a + b + c + d < 2 ^ 64 -> 0 <= a -> 0 <= b -> 0 <= c -> 0 <= d ->
  match checked_add3 a b c with Some v => checked_add 64 v d | None => None end = Some (a + b + c + d).
Proof. intros. unfold checked_add3. repeat (rewrite checked_add_eq by lia; cbv iota). done. Qed.

(** The name and the value behind a header. *)
Lemma ea_name_value pre h rest n v :
  blen h = 8 -> 0 <= n -> 0 <= v ->
  let payload := pre ++ h ++ rest in
  let header_end := blen pre + 8 in
  ((n =? 0) || (blen payload <? blen pre + (8 + n + 1 + v))
   || negb (bool_decide (payload !! Z.to_nat (header_end + n) = Some NUL))
   || match get_range payload header_end (header_end + n) with
      | Some name => bool_decide (NUL ∈ name)
      | None => true
      end) = false
  <-> exists name value tail, rest = name ++ [NUL] ++ value ++ tail /\ blen name = n /\ blen value = v
        /\ 0 < n /\ NUL ∉ name.
Proof.
  intros Hh Hn Hv payload header_end. pose proof (blen_nonneg pre) as Hpre.
  assert (payload = (pre ++ h) ++ rest) as -> by (unfold payload; by rewrite app_assoc).
  assert (header_end = blen (pre ++ h)) as -> by (rewrite blen_app; unfold header_end; lia).
  assert (blen pre = blen (pre ++ h) - 8) as -> by (rewrite blen_app; lia).
  revert Hpre. generalize (pre ++ h) as q. intros q _.
  rewrite !orb_false_iff, negb_false_iff, bool_decide_eq_true. pose proof (blen_nonneg q). split.
  - intros (((H1 & H2) & H3) & H4). pose proof (blen_nonneg rest).
    rewrite blen_app in H2. destruct (app_split_blen rest n) as (name & rest1 & -> & Hname); [lia|].
    assert (get_range (q ++ name ++ rest1) (blen q) (blen q + n) = Some name) as Hg.
    { apply get_range_app. eauto with lia. }
    rewrite Hg in H4. apply bool_decide_eq_false in H4.
    rewrite lookup_app_r, lookup_app_r in H3 by (unfold blen in *; lia).
    replace (Z.to_nat (blen q + n) - length q - length name)%nat with 0%nat in H3 by (unfold blen in *; lia).
    destruct rest1 as [|x rest1]; [done|]. injection H3 as ->. rewrite blen_app, blen_cons in *.
    destruct (app_split_blen rest1 v) as (value & tail & -> & Hvalue); [lia|].
    exists name, value, tail. split_and!; done || lia.
  - intros (name & value & tail & -> & Hname & Hvalue & Hpos & Hnul).
    pose proof (blen_nonneg tail). split_and!.
    + lia.
    + rewrite !blen_app. change (blen [NUL]) with 1. lia.
    + rewrite lookup_app_r, lookup_app_r by (unfold blen in *; lia).
      by replace (Z.to_nat (blen q + n) - length q - length name)%nat with 0%nat by (unfold blen in *; lia).
    + replace (get_range _ _ _) with (Some name).
      2:{ symmetry. apply get_range_app. eauto with lia. }
      by apply bool_decide_eq_false.
Qed.

Lemma blen_zero_nil b : blen b = 0 -> b = [].
Proof. destruct b as [|x b]; [done|]. rewrite blen_cons. pose proof (blen_nonneg b). lia. Qed.

Lemma ea_bytes_parts next flags name value :
  ea_bytes next flags name value
  = (le_bytes 4 next ++ [flags; byte.of_Z (blen name)] ++ le_bytes 2 (blen value)) ++ name ++ [NUL] ++ value.
Proof. unfold ea_bytes. by rewrite <- !app_assoc. Qed.

(** What a record at the end of [pre] is, and where it leads. *)
Definition ea_step (rest : bytes) (name value : bytes) (distance : option Z) : Prop :=
  ea_ok name value
  /\ exists flags,
       match distance with
       | None => rest = ea_bytes 0 flags name value
       | Some next =>
           u32 next /\ next <> 0 /\ next mod 4 = 0 /\ 9 + blen name + blen value <= next
           /\ exists rest', rest = ea_bytes next flags name value ++ zeros (next - (9 + blen name + blen value)) ++ rest'
       end.

Lemma ea_record_inv pre rest r :
  ea_record (pre ++ rest) (blen pre) = Ok r ->
  exists name value distance, ea_step rest name value distance /\ r = (fun d => blen pre + d) <$> distance.
Proof.
  intros H. pose proof (blen_nonneg pre) as Hpre. unfold ea_record in H.
  apply bind_Ok in H as (he & [_ ->]%ok_or_Ok%checked_add_Some & H).
  apply bind_Ok in H as (h & Hh%ok_or_Ok & H). apply get_range_app in Hh as (rest1 & -> & Hh).
  assert (blen h = 8) as Hl by lia. clear Hh.
  apply bind_Ok in H as (next & Hnext & H). apply bind_Ok in H as (n & Hn & H). apply bind_Ok in H as (v & Hv & H).
  destruct (proj1 (ea_header_fields h next n v Hl) (conj Hnext (conj Hn Hv))) as (Un & Unl & Uv & flags & ->).
  assert (0 <= n /\ 0 <= v) as [Hn0 Hv0] by (unfold fits in *; lia).
  apply bind_Ok in H as (record_len & Hr%ok_or_Ok & H). rewrite checked_add3_plus in Hr by (unfold fits in *; lia).
  injection Hr as <-. apply bind_Ok in H as (record_end & [_ ->]%ok_or_Ok%checked_add_Some & H).
  apply bind_Ok in H as (name_end & [_ ->]%ok_or_Ok%checked_add_Some & H).
  apply bind_Ok in H as (u & Hc%reject_if_Ok & H).
  apply (ea_name_value pre _ rest1 n v Hl Hn0 Hv0) in Hc as (name & value & tail & -> & Hname & Hvalue & Hpos & Hnul).
  assert (ea_ok name value) as Hok by (unfold ea_ok, fits in *; split_and!; [lia|lia|lia|done]).
  set (h := le_bytes 4 next ++ [flags; byte.of_Z n] ++ le_bytes 2 v) in *.
  assert (forall x, h ++ name ++ [NUL] ++ value ++ x = ea_bytes next flags name value ++ x) as Hea.
  { intros x. rewrite ea_bytes_parts, Hname, Hvalue. unfold h. by rewrite <- !app_assoc. }
  rewrite Hea in H |- *. pose proof (blen_ea_bytes next flags name value) as Hlea. rewrite Hname, Hvalue in Hlea.
  replace (8 + n + 1 + v) with (9 + n + v) in H by lia.
  destruct (Z.eqb_spec next 0) as [->|Hz].
  - apply bind_Ok in H as (? & Hend%reject_if_Ok & H). injection H as <-. rewrite !blen_app in Hend.
    apply negb_false_iff, Z.eqb_eq in Hend. rewrite (blen_zero_nil tail) by lia.
    exists name, value, None. split; [|done]. split; [done|]. exists flags. apply app_nil_r.
  - apply bind_Ok in H as (nc & [_ ->]%ok_or_Ok%checked_add_Some & H).
    apply bind_Ok in H as (? & Hg%reject_if_Ok & H). rewrite !orb_false_iff, negb_false_iff in Hg. destruct Hg as [[G1 G2] G3].
    apply Z.eqb_eq in G2. apply bind_Ok in H as (padding & Hpad & H). apply bind_Ok in H as (? & Hz0%reject_if_Ok & H).
    injection H as <-. apply negb_false_iff, all_zero_iff in Hz0. apply slice_Ok in Hpad as (P1 & P2 & P3 & ->).
    rewrite !blen_app in G3.
    destruct (app_split_blen tail (next - (9 + n + v))) as (pad & rest' & -> & Hpl); [lia|].
    exists name, value, (Some next). split; [|done]. split; [done|]. exists flags. rewrite Hname, Hvalue.
    split_and!; [done..|lia|]. exists rest'. f_equal. f_equal.
    rewrite blen_seg in Hz0 by lia. rewrite seg_app_r, seg_app_r, seg_app_l in Hz0 by lia.
    replace (_ - blen pre - blen _) with 0 in Hz0 by lia.
    replace (blen pre + next - blen pre - blen _) with (blen pad) in Hz0 by lia.
    rewrite seg_full in Hz0. rewrite Hz0. f_equal. lia.
Qed.

Lemma step_reject {A} c e (f : unit -> fresult A) r : c = false -> f tt = r -> reject_if c e ≫= f = r.
Proof. by intros -> <-. Qed.

Lemma ea_record_eq pre rest name value distance :
  blen (pre ++ rest) < 2 ^ 64 -> ea_step rest name value distance ->
  ea_record (pre ++ rest) (blen pre) = Ok ((fun d => blen pre + d) <$> distance).
Proof.
  intros Hmax [Hok (flags & H)]. pose proof (blen_nonneg pre). pose proof Hok as ([Hn1 Hn2] & Hv2 & Hnul).
  pose proof (blen_nonneg value).
  set (next := default 0 distance).
  assert (exists tail, rest = ea_bytes next flags name value ++ tail /\ u32 next
    /\ match distance with
       | None => tail = []
       | Some d => d <> 0 /\ d mod 4 = 0 /\ 9 + blen name + blen value <= d
                   /\ exists rest', tail = zeros (d - (9 + blen name + blen value)) ++ rest'
       end) as (tail & -> & Hnext & Ht).
  { destruct distance as [d|]; cbn in *.
    - destruct H as (? & ? & ? & ? & rest' & ->). eexists. split_and!; [done..|eauto].
    - exists []. rewrite app_nil_r. done. }
  clear H. set (h := le_bytes 4 next ++ [flags; byte.of_Z (blen name)] ++ le_bytes 2 (blen value)).
  assert (ea_bytes next flags name value ++ tail = h ++ name ++ [NUL] ++ value ++ tail) as Hea.
  { rewrite ea_bytes_parts. unfold h. by rewrite <- !app_assoc. }
  assert (blen pre + (9 + blen name + blen value) + blen tail < 2 ^ 64) as Hmax'.
  { rewrite blen_app, blen_app, blen_ea_bytes in Hmax. lia. }
  rewrite Hea.
  assert (blen h = 8) as Hl by (unfold h; rewrite !blen_app, !blen_le; done).
  assert (blen (pre ++ h ++ name ++ [NUL] ++ value ++ tail) = blen pre + (9 + blen name + blen value) + blen tail) as Hlen.
  { rewrite !blen_app, Hl. change (blen [NUL]) with 1. lia. }
  pose proof (blen_nonneg tail).
  destruct (proj2 (ea_header_fields h next (blen name) (blen value) Hl)) as (Hr1 & Hr2 & Hr3).
  { unfold fits in *. split_and!; try lia. by exists flags. }
  unfold ea_record. rewrite (checked_add_eq 64 (blen pre) 8), (ok_or_eq _ _ _ eq_refl), bind_ret by lia.
  rewrite (ok_or_eq _ h), bind_ret by (apply get_range_app; eauto with lia).
  rewrite Hr1, bind_ret, Hr2, bind_ret, Hr3, bind_ret, checked_add3_plus, (ok_or_eq _ _ _ eq_refl), bind_ret by lia.
  rewrite (checked_add_eq 64 (blen pre) (8 + blen name + 1 + blen value)), (ok_or_eq _ _ _ eq_refl), bind_ret by lia.
  rewrite (checked_add_eq 64 (blen pre + 8)), (ok_or_eq _ _ _ eq_refl), bind_ret by lia.
  apply step_reject.
  { apply (ea_name_value pre h (name ++ [NUL] ++ value ++ tail) (blen name) (blen value)); [done|lia..|].
      exists name, value, tail. split_and!; done || lia. }
  destruct distance as [d|]; subst next; [change (default 0 (Some d)) with d in *|change (default 0 None) with 0 in *].
  - destruct Ht as (Hd & Hm & Hge & rest' & Htail). rewrite (proj2 (Z.eqb_neq _ _)) by done.
    pose proof (blen_nonneg rest').
    assert (blen tail = d - (9 + blen name + blen value) + blen rest') as Htl by (rewrite Htail, blen_app, blen_zeros; lia).
    rewrite (checked_add_eq 64 (blen pre) d), (ok_or_eq _ _ _ eq_refl), bind_ret by lia.
    apply step_reject; [rewrite Hm, Hlen; lia|].
    rewrite slice_in_range, bind_ret by lia.
    rewrite reject_if_false, bind_ret; [done|]. apply negb_false_iff, all_zero_iff.
    rewrite blen_seg by lia. subst tail. set (p := pre ++ h ++ name ++ [NUL] ++ value).
    assert (pre ++ h ++ name ++ [NUL] ++ value ++ zeros (d - (9 + blen name + blen value)) ++ rest'
            = p ++ zeros (d - (9 + blen name + blen value)) ++ rest') as -> by (unfold p; by rewrite <- !app_assoc).
    assert (blen p = blen pre + (9 + blen name + blen value)) as Hp.
    { unfold p. rewrite !blen_app, Hl. change (blen [NUL]) with 1. lia. }
    rewrite seg_app_r, seg_app_l by (rewrite ?blen_zeros; lia).
    rewrite seg_zeros by lia. f_equal. lia.
  - subst tail. cbn [fmap option_fmap option_map]. change (0 =? 0) with true. cbv iota.
    rewrite reject_if_false, bind_ret; [done|]. apply negb_false_iff, Z.eqb_eq. change (blen []) with 0 in *. lia.
Qed.

Lemma ea_reassoc (a b c d : bytes) : a ++ b ++ c ++ d = (a ++ b ++ c) ++ d.
Proof. by rewrite <- !app_assoc. Qed.

(** The loop over the records, from the record at the end of [pre]. *)
Lemma ea_loop_inv fuel pre rest :
  ea_loop fuel (pre ++ rest) (blen pre) = Ok tt -> rest <> [] -> exists attributes, ea_stream rest attributes.
Proof.
  revert pre rest. induction fuel as [|fuel IH]; intros pre rest H Hne; cbn [ea_loop] in H;
    rewrite blen_app in H; destruct (Z.ltb_spec (blen pre) (blen pre + blen rest)) as [Hlt|Hge];
    try (exfalso; apply Hne, blen_zero_nil; pose proof (blen_nonneg rest); lia); [done|].
  apply bind_Ok in H as (r & Hr & H). apply ea_record_inv in Hr as (name & value & distance & [Hok [flags Hs]] & ->).
  destruct distance as [d|]; cbn in H.
  - destruct Hs as (Hd & H1 & H2 & H3 & rest' & ->).
    assert (blen pre + d = blen (pre ++ ea_bytes d flags name value ++ zeros (d - (9 + blen name + blen value)))) as Hnext.
    { rewrite !blen_app, blen_ea_bytes, blen_zeros by lia. lia. }
    rewrite Hnext, ea_reassoc in H.
    destruct (decide (rest' = [])) as [->|Hr].
    + exists [(name, value)]. rewrite app_nil_r. by apply ea_padded_last.
    + destruct (IH _ _ H Hr) as [l Hl]. exists ((name, value) :: l). by apply ea_more.
  - subst rest. exists [(name, value)]. by apply ea_last.
Qed.

Lemma ea_stream_first rest attributes :
  ea_stream rest attributes -> exists name value distance, ea_step rest name value distance.
Proof.
  destruct 1 as [flags name value|next flags name value ? ? ? ?|next flags name value rest ? ? ? ? ? ?];
    exists name, value.
  - exists None. split; [done|]. by exists flags.
  - exists (Some next). split; [done|]. exists flags. pose proof (blen_nonneg name). pose proof (blen_nonneg value).
    split_and!; [done|lia|done|done|]. exists []. by rewrite app_nil_r.
  - exists (Some next). split; [done|]. exists flags. pose proof (blen_nonneg name). pose proof (blen_nonneg value).
    split_and!; [done|lia|done|done|]. by exists rest.
Qed.

Lemma blen_ea_stream rest attributes : ea_stream rest attributes -> 9 < blen rest.
Proof.
  destruct 1 as [flags name value [? _]|next flags name value [? _] ? ? ?|next flags name value rest ? [? _] ? ? ? _];
    rewrite ?blen_app, blen_ea_bytes; pose proof (blen_nonneg value); rewrite ?blen_zeros by lia;
    try pose proof (blen_nonneg rest); lia.
Qed.

Lemma ea_loop_step fuel pre rest name value distance :
  blen (pre ++ rest) < 2 ^ 64 -> ea_step rest name value distance -> rest <> [] ->
  ea_loop (S fuel) (pre ++ rest) (blen pre)
  = match distance with None => Ok tt | Some d => ea_loop fuel (pre ++ rest) (blen pre + d) end.
Proof.
  intros Hmax Hs Hne. cbn [ea_loop]. destruct (Z.ltb_spec (blen pre) (blen (pre ++ rest))) as [Hlt|Hge].
  - rewrite (ea_record_eq _ _ _ _ _ Hmax Hs), bind_ret. by destruct distance.
  - rewrite blen_app in Hge. exfalso. apply Hne, blen_zero_nil. pose proof (blen_nonneg rest). lia.
Qed.

Lemma ea_loop_end fuel payload : payload <> [] -> ea_loop fuel payload (blen payload) = Ok tt.
Proof. intros H. destruct fuel; cbn [ea_loop]; rewrite Z.ltb_irrefl; by rewrite bool_decide_eq_false_2. Qed.

Lemma ea_loop_stream fuel pre rest attributes :
  blen (pre ++ rest) < 2 ^ 64 -> blen rest <= Z.of_nat fuel -> ea_stream rest attributes ->
  ea_loop fuel (pre ++ rest) (blen pre) = Ok tt.
Proof.
  intros Hmax Hf Hs. revert fuel pre Hmax Hf.
  induction Hs as [flags name value Hok|next flags name value Hok H1 H2 H3|next flags name value rest l Hok H1 H2 H3 Hs IH];
    intros fuel pre Hmax Hf; pose proof Hok as ([Hn _] & _); pose proof (blen_nonneg value);
    rewrite ?blen_app, ?blen_ea_bytes, ?blen_zeros in Hf by lia; try pose proof (blen_nonneg rest);
    (destruct fuel as [|fuel]; [lia|]).
  - rewrite (ea_loop_step fuel pre _ name value None); [done|done| |done]. split; [done|]. by exists flags.
  - rewrite (ea_loop_step fuel pre _ name value (Some next)); [|done| |done].
    + replace (blen pre + next) with (blen (pre ++ ea_bytes next flags name value ++ zeros (next - (9 + blen name + blen value)))).
      { apply ea_loop_end. by destruct pre. }
      rewrite !blen_app, blen_ea_bytes, blen_zeros by lia. lia.
    + split; [done|]. exists flags. split_and!; [done|lia|done|done|]. exists []. by rewrite app_nil_r.
  - rewrite (ea_loop_step fuel pre _ name value (Some next)); [|done| |done].
    + replace (blen pre + next) with (blen (pre ++ ea_bytes next flags name value ++ zeros (next - (9 + blen name + blen value)))).
      2:{ rewrite !blen_app, blen_ea_bytes, blen_zeros by lia. lia. }
      rewrite ea_reassoc in Hmax |- *. apply IH; [done|lia].
    + split; [done|]. exists flags. split_and!; [done|lia|done|done|]. by exists rest.
Qed.

Lemma ea_record_no_panic payload cursor : ea_record payload cursor <> Panic.
Proof.
  unfold ea_record. native_no_panic.
  match goal with H : byte_at _ 5 = Ok _ |- _ => apply byte_at_Ok in H as (_ & ? & _) end.
  match goal with H : u16_at _ 6 = Ok _ |- _ => apply u16_at_range in H end.
  match goal with H : checked_add3 _ _ _ = Some _ |- _ => unfold checked_add3 in H; destruct (checked_add 64 8 _) eqn:E; [|done] end.
  repeat match goal with H : checked_add _ _ _ = Some _ |- _ => apply checked_add_Some in H as [? ?] end.
  unfold fits in *. apply slice_no_panic; lia.
Qed.

Lemma ea_loop_no_panic fuel pre rest : blen rest <= Z.of_nat fuel -> ea_loop fuel (pre ++ rest) (blen pre) <> Panic.
Proof.
  revert pre rest. induction fuel as [|fuel IH]; intros pre rest Hf; cbn [ea_loop];
    rewrite blen_app; destruct (Z.ltb_spec (blen pre) (blen pre + blen rest)) as [Hlt|Hge]; try apply reject_if_no_panic; [lia|].
  apply bind_no_panic; [apply ea_record_no_panic|]. intros r Hr.
  apply ea_record_inv in Hr as (name & value & distance & [[Hn _] [flags Hs]] & ->).
  destruct distance as [d|]; [|done]. destruct Hs as (Hd & H1 & H2 & H3 & rest' & ->). cbn [fmap option_fmap option_map].
  rewrite !blen_app, blen_ea_bytes, blen_zeros in Hf by lia.
  replace (blen pre + d) with (blen (pre ++ ea_bytes d flags name value ++ zeros (d - (9 + blen name + blen value)))).
  2:{ rewrite !blen_app, blen_ea_bytes, blen_zeros by lia. lia. }
  rewrite ea_reassoc. apply IH. pose proof (blen_nonneg value). lia.
Qed.

(** C17: The check of an extended-attribute stream accepts exactly the streams of
    well-formed records and never panics: the length of the payload is enough
    fuel. *)
Theorem windows_ea_stream_correct payload :
  blen payload < 2 ^ 64 ->
  (validate_windows_ea_stream payload = Ok tt <-> exists attributes, ea_stream payload attributes)
  /\ validate_windows_ea_stream payload <> Panic.
Proof.
  intros Hmax. unfold validate_windows_ea_stream. split; [split|].
  - intros H. destruct payload as [|x payload]; [done|]. by apply (ea_loop_inv (length (x :: payload)) [] (x :: payload)).
  - intros [l Hl]. by apply (ea_loop_stream _ [] payload l); [..|done].
  - by apply (ea_loop_no_panic (length payload) [] payload).
Qed.

Definition example_ea : bytes := ea_bytes 12 Byte.x00 (ascii "A") (ascii "v") ++ zeros 1 ++ ea_bytes 0 Byte.x80 (ascii "BC") [].

Lemma windows_ea_stream_correct_witness : validate_windows_ea_stream example_ea = Ok tt.
Proof.
  apply (windows_ea_stream_correct example_ea); [by vm_compute|]. exists [(ascii "A", ascii "v"); (ascii "BC", [])].
  apply (ea_more 12 Byte.x00 (ascii "A") (ascii "v") (ea_bytes 0 Byte.x80 (ascii "BC") [])).
  - split_and!; [done..|by apply (bool_decide_unpack _); vm_compute].
  - done.
  - done.
  - by vm_compute.
  - apply ea_last. split_and!; [done..|by apply (bool_decide_unpack _); vm_compute].
Defined.
