(* ===== verification/AclText.v ===== *)
(** * Access-control lists as text

    The textual access-control lists of
    [crates/tzap-core/src/entry_metadata.rs]: the checks of POSIX.1e and NFSv4
    text, and the conversions between POSIX.1e text and the extended attribute
    that Linux keeps them in. *)

From Stdlib Require Import Sorting.Sorted.
From stdpp Require Import sorting.
From S2P Require Import Wire Ordering Paths TextCodecs Pax SparseMap TarHeader NativeMetadata.
#[local] Open Scope Z_scope.

Definition COMMA : Byte.byte := Byte.x2c.

(** [u8::is_ascii_whitespace] *)
Definition is_ascii_whitespace (x : Byte.byte) : bool :=
  bool_decide (x ∈ [Byte.x20; Byte.x09; Byte.x0a; Byte.x0c; Byte.x0d]).

(** [text.contains(pattern)] *)
Fixpoint contains_text (b pattern : bytes) : bool :=
  starts_with b pattern || match b with [] => false | _ :: b => contains_text b pattern end.

(** [fields[i]] *)
Definition field_at (fields : list bytes) (i : nat) : fresult bytes :=
  match fields !! i with Some f => Ok f | None => Panic end.

(** ** Checks *)
Definition canonical_acl_text (value : bytes) : fresult bytes :=
  reject_if (negb (utf8_valid value)) (InvalidArchive "ACL text is not UTF-8");;
  reject_if (bool_decide (value = []) || bool_decide (head value = Some COMMA) || ends_with_byte COMMA value
             || contains_text value (ascii "default:")
             || existsb (fun x => is_ascii_whitespace x || bool_decide (x = Byte.x23) || bool_decide (x = NUL)) value)
    (InvalidMetadata "PrimaryMetadata" "ACL text is not canonical");;
  mret value.

(** [value.len() != positions.len() || !value.bytes().zip(positions).all(..)] *)
Definition not_positional (value positions : bytes) : bool :=
  negb (blen value =? blen positions)
  || negb (forallb (fun p => bool_decide (p.1 = p.2) || bool_decide (p.1 = MINUS)) (zip value positions)).

Definition validate_posix_permissions (value : bytes) : fresult unit :=
  reject_if (not_positional value (ascii "rwx")) (InvalidMetadata "PrimaryMetadata" "POSIX ACL permissions are not canonical").

Definition validate_fixed_acl_bits (value positions : bytes) (label : string) : fresult unit :=
  reject_if (not_positional value positions) (InvalidMetadata "PrimaryMetadata" label).

Definition parse_acl_id (value : bytes) : fresult Z :=
  reject_if (not_minimal_decimal value) (InvalidMetadata "PrimaryMetadata" "ACL numeric ID is not minimal decimal");;
  ok_or (from_str_radix 64 10 value) (InvalidArchive "ACL numeric ID exceeds u64").

Definition validate_acl_name_and_id `{Unicode} (name : bytes) (id : option Z) : fresult Z :=
  reject_if (bool_decide (name = []) || negb (bytes_eqb (nfc name) name)
             || existsb (fun x => bool_decide (x ∈ [COMMA; COLON; Byte.x0d; NEWLINE; NUL])) name)
    (InvalidMetadata "PrimaryMetadata" "ACL name is not canonical NFC UTF-8");;
  if forallb is_ascii_digit name then
    numeric_name ← parse_acl_id name;
    reject_if (bool_decide (is_Some id)) (InvalidMetadata "PrimaryMetadata" "numeric ACL name has a redundant extra ID");;
    mret numeric_name
  else mret (default (2 ^ 64 - 1) id).

(** The order of the entries: category, numeric qualifier, name. *)
Definition PosixAclSortKey : Type := Z * Z * bytes.

(** The variables of the loop over the entries. *)
Record AclState : Type := {
  acl_previous : option PosixAclSortKey;
  acl_principals : list (bytes * bytes * option Z);
  acl_user : bool;
  acl_group : bool;
  acl_other : bool;
  acl_mask_count : Z;
  acl_named_count : Z
}.

Definition AclState_new : AclState := {|
  acl_previous := None; acl_principals := []; acl_user := false; acl_group := false; acl_other := false;
  acl_mask_count := 0; acl_named_count := 0 |}.

Definition with_base (s : AclState) (user group other : bool) (mask named : Z) : AclState := {|
  acl_previous := acl_previous s; acl_principals := acl_principals s;
  acl_user := user; acl_group := group; acl_other := other; acl_mask_count := mask; acl_named_count := named |}.

Definition with_principal (s : AclState) (key : PosixAclSortKey) (principal : bytes * bytes * option Z) : AclState := {|
  acl_previous := Some key; acl_principals := principal :: acl_principals s;
  acl_user := acl_user s; acl_group := acl_group s; acl_other := acl_other s;
  acl_mask_count := acl_mask_count s; acl_named_count := acl_named_count s |}.

Definition is_named (tag : bytes) (expected : string) : bool := bytes_eqb tag (ascii expected).

(** The match on tag and name: the category and the numeric qualifier. *)
Definition posix_acl_principal `{Unicode} (s : AclState) (tag name : bytes) (id : option Z)
    : fresult (AclState * Z * Z) :=
  let '(user, group, other, mask, named) :=
    (acl_user s, acl_group s, acl_other s, acl_mask_count s, acl_named_count s) in
  let has_id := bool_decide (is_Some id) in
  if bool_decide (name = []) then
    if is_named tag "user" then
      reject_if (has_id || user) (InvalidMetadata "PrimaryMetadata" "duplicate or invalid POSIX owner-user ACL entry");;
      mret (with_base s true group other mask named, 0, 0)
    else if is_named tag "group" then
      reject_if (has_id || group) (InvalidMetadata "PrimaryMetadata" "duplicate or invalid POSIX owner-group ACL entry");;
      mret (with_base s user true other mask named, 1, 0)
    else if is_named tag "other" then
      reject_if (has_id || other) (InvalidMetadata "PrimaryMetadata" "duplicate or invalid POSIX other ACL entry");;
      mret (with_base s user group true mask named, 2, 0)
    else if is_named tag "mask" then
      reject_if (has_id || negb (mask =? 0)) (InvalidMetadata "PrimaryMetadata" "duplicate or invalid POSIX ACL mask");;
      mret (with_base s user group other (mask + 1) named, 5, 0)
    else invalid "PrimaryMetadata" "invalid POSIX ACL tag or qualifier"
  else if is_named tag "user" then
    qualifier ← validate_acl_name_and_id name id;
    mret (with_base s user group other mask (named + 1), 3, qualifier)
  else if is_named tag "group" then
    qualifier ← validate_acl_name_and_id name id;
    mret (with_base s user group other mask (named + 1), 4, qualifier)
  else invalid "PrimaryMetadata" "invalid POSIX ACL tag or qualifier".

Definition posix_acl_tuple `{Unicode} (s : AclState) (serialized : bytes) : fresult AclState :=
  let fields := split COLON serialized in
  reject_if (negb ((length fields =? 3)%nat || (length fields =? 4)%nat))
    (InvalidMetadata "PrimaryMetadata" "POSIX ACL tuple has invalid field count");;
  tag ← field_at fields 0;
  name ← field_at fields 1;
  permissions ← field_at fields 2;
  validate_posix_permissions permissions;;
  id ← (if (length fields =? 4)%nat then last ← field_at fields 3; Some <$> parse_acl_id last else mret None);
  '(s, category, numeric_qualifier) ← posix_acl_principal s tag name id;
  let key := (category, numeric_qualifier, name) in
  reject_if (match acl_previous s with Some prior => leb key prior | None => false end)
    (InvalidMetadata "PrimaryMetadata" "POSIX ACL entries are not canonically ordered");;
  reject_if (bool_decide ((tag, name, id) ∈ acl_principals s))
    (InvalidMetadata "PrimaryMetadata" "duplicate POSIX ACL principal");;
  mret (with_principal s key (tag, name, id)).

Fixpoint posix_acl_loop `{Unicode} (s : AclState) (tuples : list bytes) : fresult AclState :=
  match tuples with
  | [] => Ok s
  | serialized :: tuples => s ← posix_acl_tuple s serialized; posix_acl_loop s tuples
  end.

Definition validate_posix_acl_text `{Unicode} (value : bytes) : fresult unit :=
  text ← canonical_acl_text value;
  s ← posix_acl_loop AclState_new (split COMMA text);
  reject_if (negb (acl_user s && acl_group s && acl_other s)
             || (negb (acl_named_count s =? 0) && negb (acl_mask_count s =? 1)))
    (InvalidMetadata "PrimaryMetadata" "POSIX ACL required entries are missing").

Definition nfs4_acl_tuple `{Unicode} (serialized : bytes) : fresult unit :=
  let fields := split COLON serialized in
  first ← field_at fields 0;
  let named := is_named first "user" || is_named first "group" in
  let n := length fields in
  reject_if (negb (if named then (5 <=? n)%nat && (n <=? 6)%nat else (n =? 4)%nat))
    (InvalidMetadata "PrimaryMetadata" "NFSv4 ACL tuple has invalid field count");;
  offset ← (if named then
              id ← (if (n =? 6)%nat then last ← field_at fields 5; Some <$> parse_acl_id last else mret None);
              name ← field_at fields 1;
              validate_acl_name_and_id name id;;
              mret 1%nat
            else
              reject_if (negb (is_named first "owner@" || is_named first "group@" || is_named first "everyone@"))
                (InvalidMetadata "PrimaryMetadata" "invalid NFSv4 ACL principal");;
              mret 0%nat);
  permissions ← field_at fields (1 + offset);
  validate_fixed_acl_bits permissions (ascii "rwxpDdaARWcCos") "NFSv4 permissions";;
  flags ← field_at fields (2 + offset);
  validate_fixed_acl_bits flags (ascii "fdinSFI") "NFSv4 inheritance flags";;
  entry_type ← field_at fields (3 + offset);
  reject_if (negb (is_named entry_type "allow" || is_named entry_type "deny"
                   || is_named entry_type "audit" || is_named entry_type "alarm"))
    (InvalidMetadata "PrimaryMetadata" "invalid NFSv4 ACL entry type").

Fixpoint nfs4_acl_loop `{Unicode} (seen tuples : list bytes) : fresult unit :=
  match tuples with
  | [] => Ok tt
  | serialized :: tuples =>
      reject_if (bool_decide (serialized ∈ seen)) (InvalidMetadata "PrimaryMetadata" "duplicate NFSv4 ACL tuple");;
      nfs4_acl_tuple serialized;;
      nfs4_acl_loop (serialized :: seen) tuples
  end.

Definition validate_nfs4_acl_text `{Unicode} (value : bytes) : fresult unit :=
  text ← canonical_acl_text value;
  nfs4_acl_loop [] (split COMMA text).

(** ** Conversions *)

(** [value.chunks_exact(8)] *)
Fixpoint chunks_of_eight (b : bytes) : list bytes :=
  match b with
  | x0 :: x1 :: x2 :: x3 :: x4 :: x5 :: x6 :: x7 :: rest =>
      [x0; x1; x2; x3; x4; x5; x6; x7] :: chunks_of_eight rest
  | _ => []
  end.

Definition u32_max_id : Z := 2 ^ 32 - 1.

Definition permission_text (permissions : Z) : bytes :=
  [if bit_set permissions 4 then Byte.x72 else MINUS;
   if bit_set permissions 2 then Byte.x77 else MINUS;
   if bit_set permissions 1 then Byte.x78 else MINUS].

(** One entry of the attribute: category, qualifier and text. *)
Definition linux_acl_entry (entry : bytes) : fresult (Z * Z * bytes) :=
  tag ← u16_at entry 0;
  permissions ← u16_at entry 2;
  id ← read_le_u32 entry 4;
  reject_if (bit_set permissions (unot 16 7)) (InvalidMetadata "LinuxAcl" "invalid POSIX ACL permissions");;
  let perms := permission_text permissions in
  let unqualified := id =? u32_max_id in
  '(category, text) ←
    (if (tag =? 0x01) && unqualified then Ok (0, ascii "user::" ++ perms)
     else if (tag =? 0x04) && unqualified then Ok (1, ascii "group::" ++ perms)
     else if (tag =? 0x20) && unqualified then Ok (2, ascii "other::" ++ perms)
     else if (tag =? 0x02) && negb unqualified then Ok (3, ascii "user:" ++ to_decimal id ++ [COLON] ++ perms)
     else if (tag =? 0x08) && negb unqualified then Ok (4, ascii "group:" ++ to_decimal id ++ [COLON] ++ perms)
     else if (tag =? 0x10) && unqualified then Ok (5, ascii "mask::" ++ perms)
     else invalid "LinuxAcl" "invalid POSIX ACL tag or qualifier");
  let qualifier := if (category =? 3) || (category =? 4) then id else 0 in
  mret (category, qualifier, text).

Fixpoint linux_acl_entries (entries : list bytes) : fresult (list (Z * Z * bytes)) :=
  match entries with
  | [] => Ok []
  | entry :: entries =>
      e ← linux_acl_entry entry;
      rest ← linux_acl_entries entries;
      mret (e :: rest)
  end.

Definition linux_posix_acl_xattr_to_schily `{Unicode} (value : bytes) : fresult bytes :=
  let error := InvalidMetadata "LinuxAcl" "invalid POSIX ACL xattr framing" in
  reject_if (blen value <? 4) error;;
  reject_if (negb ((blen value - 4) mod 8 =? 0)) error;;
  version ← slice value 0 4;
  reject_if (negb (bytes_eqb version (le_bytes 4 2))) error;;
  body ← slice value 4 (blen value);
  entries ← linux_acl_entries (chunks_of_eight body);
  let sorted := sort_by_key fst entries in
  let text := join COMMA (map snd sorted) in
  validate_posix_acl_text text;;
  mret text.

(** [fields[2].bytes().enumerate().fold(0, ..)] *)
Fixpoint permission_bits (index : Z) (text : bytes) : Z :=
  match text with
  | [] => 0
  | x :: text => Z.lor (if negb (bool_decide (x = MINUS)) then Z.shiftr 4 index else 0) (permission_bits (index + 1) text)
  end.

Definition numeric_id (fields : list bytes) (name : bytes) : fresult Z :=
  let error := ReaderUnsupported "named ACL principals require numeric qualifiers" in
  match from_str_radix 32 10 name with
  | Some id => Ok id
  | None =>
      match fields !! 3%nat with
      | Some id => ok_or (from_str_radix 32 10 id) error
      | None => Err error
      end
  end.

(** One tuple: rank, id, tag and permissions. *)
Definition schily_acl_tuple (serialized : bytes) : fresult (Z * Z * Z * Z) :=
  let fields := split COLON serialized in
  text ← field_at fields 2;
  let permissions := permission_bits 0 text in
  tag ← field_at fields 0;
  name ← field_at fields 1;
  let unnamed := bool_decide (name = []) in
  '(rank, tag, id) ←
    (if is_named tag "user" then
       if unnamed then Ok (0, 0x01, u32_max_id) else (fun id => (1, 0x02, id)) <$> numeric_id fields name
     else if is_named tag "group" then
       if unnamed then Ok (2, 0x04, u32_max_id) else (fun id => (3, 0x08, id)) <$> numeric_id fields name
     else if is_named tag "mask" && unnamed then Ok (4, 0x10, u32_max_id)
     else if is_named tag "other" && unnamed then Ok (5, 0x20, u32_max_id)
     else invalid "LinuxAcl" "unsupported POSIX ACL tuple");
  mret (rank, id, tag, permissions).

Fixpoint schily_acl_tuples (tuples : list bytes) : fresult (list (Z * Z * Z * Z)) :=
  match tuples with
  | [] => Ok []
  | serialized :: tuples =>
      e ← schily_acl_tuple serialized;
      rest ← schily_acl_tuples tuples;
      mret (e :: rest)
  end.

Definition linux_acl_record (e : Z * Z * Z * Z) : bytes :=
  let '(_, id, tag, permissions) := e in le_bytes 2 tag ++ le_bytes 2 permissions ++ le_bytes 4 id.

Definition schily_posix_acl_to_linux_xattr `{Unicode} (value : bytes) : fresult bytes :=
  validate_posix_acl_text value;;
  reject_if (negb (utf8_valid value)) (InvalidArchive "ACL text is not UTF-8");;
  entries ← schily_acl_tuples (split COMMA value);
  let sorted := sort_by_key (fun e => e.1.1) entries in
  mret (le_bytes 4 2 ++ concat (map linux_acl_record sorted)).

Section AclExamples.
#[local] Existing Instance toy_Unicode.

Definition example_acl_entries : list bytes :=
  [le_bytes 2 0x01 ++ le_bytes 2 6 ++ le_bytes 4 u32_max_id; le_bytes 2 0x02 ++ le_bytes 2 7 ++ le_bytes 4 1000;
   le_bytes 2 0x04 ++ le_bytes 2 4 ++ le_bytes 4 u32_max_id; le_bytes 2 0x10 ++ le_bytes 2 7 ++ le_bytes 4 u32_max_id;
   le_bytes 2 0x20 ++ le_bytes 2 4 ++ le_bytes 4 u32_max_id].

Definition example_acl : bytes := le_bytes 4 2 ++ concat example_acl_entries.

Example example_acl_text :
  linux_posix_acl_xattr_to_schily example_acl
  = Ok (ascii "user::rw-,group::r--,other::r--,user:1000:rwx,mask::rwx").
Proof. vm_compute. reflexivity. Qed.
End AclExamples.

(** ** An entry and its text *)
Definition linux_acl_rank (tag : Z) : Z :=
  if tag =? 0x01 then 0 else if tag =? 0x02 then 1 else if tag =? 0x04 then 2
  else if tag =? 0x08 then 3 else if tag =? 0x10 then 4 else 5.

Definition acl_category (tag : Z) : Z :=
  if tag =? 0x01 then 0 else if tag =? 0x04 then 1 else if tag =? 0x20 then 2
  else if tag =? 0x02 then 3 else if tag =? 0x08 then 4 else 5.

(** The kernel's order of the entries of an attribute. *)
Definition entry_tag (entry : bytes) : Z := le_combine (take 2 entry).
Definition entry_permissions (entry : bytes) : Z := le_combine (take 2 (drop 2 entry)).
Definition entry_id (entry : bytes) : Z := le_combine (drop 4 entry).
Definition linux_acl_order (entry : bytes) : Z * Z := (linux_acl_rank (entry_tag entry), entry_id entry).

Lemma entry_bytes entry :
  blen entry = 8 ->
  entry = le_bytes 2 (entry_tag entry) ++ le_bytes 2 (entry_permissions entry) ++ le_bytes 4 (entry_id entry)
  /\ u16 (entry_tag entry) /\ u16 (entry_permissions entry) /\ u32 (entry_id entry)
  /\ u16_at entry 0 = Ok (entry_tag entry) /\ u16_at entry 2 = Ok (entry_permissions entry)
  /\ read_le_u32 entry 4 = Ok (entry_id entry).
Proof.
  intros Hl. destruct entry as [|x0 [|x1 [|x2 [|x3 [|x4 [|x5 [|x6 [|x7 [|]]]]]]]]]; try (unfold blen in Hl; cbn in Hl; lia).
  unfold entry_tag, entry_permissions, entry_id. cbn [take drop].
  pose proof (split_le_combine [x0; x1]) as E1. pose proof (split_le_combine [x2; x3]) as E2.
  pose proof (split_le_combine [x4; x5; x6; x7]) as E3. cbn [length] in *. rewrite E1, E2, E3.
  split_and!; try done; try (by apply le_combine_fits); rewrite ?le_pair; reflexivity.
Qed.

(** The text of a permission set, and back. *)
Lemma small_permissions p : u16 p -> bit_set p (unot 16 7) = false -> 0 <= p < 8.
Proof.
  intros Hp H. unfold bit_set in H. apply negb_false_iff, Z.eqb_eq in H. change 7 with (Z.ones 3) in H.
  apply land_unot_low in H; [|done|lia]. unfold fits in Hp. cbn in H. lia.
Qed.

Lemma permission_text_facts p :
  0 <= p < 8 -> permission_bits 0 (permission_text p) = p /\ COLON ∉ permission_text p /\ COMMA ∉ permission_text p.
Proof.
  intros H. assert (p = 0 \/ p = 1 \/ p = 2 \/ p = 3 \/ p = 4 \/ p = 5 \/ p = 6 \/ p = 7) as Hp by lia.
  repeat destruct Hp as [->|Hp]; try subst p;
    (split_and!; [reflexivity|apply (bool_decide_unpack _); vm_compute; done|apply (bool_decide_unpack _); vm_compute; done]).
Qed.

Lemma split_no_sep sep b : sep ∉ b -> split sep b = [b].
Proof.
  induction b as [|x b IH]; [done|]. rewrite elem_of_cons. intros H. cbn [split].
  rewrite bool_decide_eq_false_2 by naive_solver. rewrite IH by naive_solver. done.
Qed.

Lemma split_cons_sep sep a b : sep ∉ a -> split sep (a ++ sep :: b) = a :: split sep b.
Proof. intros H. by rewrite split_app, (split_no_sep sep a). Qed.

Lemma to_decimal_chars n x : u64 n -> is_ascii_digit x = false -> x ∉ to_decimal n.
Proof.
  intros Hn Hx. destruct (to_decimal_digits n Hn) as (ds & -> & Hd & _). intros Hin.
  apply list_elem_of_fmap in Hin as (d & -> & Hin). rewrite is_ascii_digit_canonical in Hx.
  unfold digits_ok in Hd. rewrite Forall_forall in Hd. by rewrite digit_byte_canonical in Hx by (done || by apply Hd).
Qed.

Lemma from_str_radix_decimal w n : 0 <= w -> u64 n -> n < 2 ^ w -> from_str_radix w 10 (to_decimal n) = Some n.
Proof.
  intros Hw0 Hn Hw. destruct (to_decimal_digits n Hn) as (ds & -> & Hd & [Hne _] & Hv & _).
  rewrite from_str_radix_digits, Hv by (done || lia). by replace (n <? 2 ^ w) with true by lia.
Qed.

Definition acl_named (tag : Z) : bool := (tag =? 0x02) || (tag =? 0x08).

Definition entry_name (entry : bytes) : bytes :=
  if acl_named (entry_tag entry) then to_decimal (entry_id entry) else [].

Definition entry_tag_text (entry : bytes) : bytes :=
  let tag := entry_tag entry in
  if (tag =? 0x01) || (tag =? 0x02) then ascii "user"
  else if (tag =? 0x04) || (tag =? 0x08) then ascii "group"
  else if tag =? 0x10 then ascii "mask" else ascii "other".

(** The text of an entry. *)
Definition entry_text (entry : bytes) : bytes :=
  entry_tag_text entry ++ [COLON] ++ entry_name entry ++ [COLON] ++ permission_text (entry_permissions entry).

(** An entry that the conversion accepts. *)
Record entry_ok (entry : bytes) : Prop := {
  eo_len : blen entry = 8;
  eo_permissions : 0 <= entry_permissions entry < 8;
  eo_tag : entry_tag entry ∈ [0x01; 0x02; 0x04; 0x08; 0x10; 0x20];
  eo_id : acl_named (entry_tag entry) = negb (entry_id entry =? u32_max_id)
}.

Definition entry_qualifier (entry : bytes) : Z := if acl_named (entry_tag entry) then entry_id entry else 0.

Lemma linux_acl_entry_Ok entry r :
  blen entry = 8 -> linux_acl_entry entry = Ok r ->
  entry_ok entry /\ r = (acl_category (entry_tag entry), entry_qualifier entry, entry_text entry).
Proof.
  intros Hl H. destruct (entry_bytes entry Hl) as (_ & Ut & Up & Uid & Ht & Hp & Hid).
  unfold linux_acl_entry in H. rewrite Ht, bind_ret, Hp, bind_ret, Hid, bind_ret in H.
  apply bind_Ok in H as (? & Hperm%reject_if_Ok & H). apply small_permissions in Hperm; [|done].
  apply bind_Ok in H as ([category text] & Hc & H). injection H as <-.
  unfold entry_text, entry_tag_text, entry_qualifier, entry_name.
  destruct (Z.eqb_spec (entry_id entry) u32_max_id) as [E|E]; rewrite ?andb_true_r, ?andb_false_r in Hc; cbn [negb] in Hc;
    rewrite ?andb_true_r, ?andb_false_r in Hc; cbv iota in Hc;
  repeat match type of Hc with (if ?t =? ?v then _ else _) = _ => destruct (Z.eqb_spec t v) as [Etag|]; [|] end;
    try discriminate Hc; injection Hc as <- <-;
    (split; [split; [done|done|rewrite Etag; apply (bool_decide_unpack _); done|]|]); rewrite ?Etag; try done;
    try (by rewrite E); try (by rewrite (proj2 (Z.eqb_neq _ _) E)).
Qed.

Lemma entry_tag_cases entry : entry_ok entry ->
  entry_tag entry = 0x01 \/ entry_tag entry = 0x02 \/ entry_tag entry = 0x04 \/ entry_tag entry = 0x08
  \/ entry_tag entry = 0x10 \/ entry_tag entry = 0x20.
Proof. intros [_ _ H _]. rewrite !elem_of_cons, elem_of_nil in H. lia. Qed.

Lemma entry_name_chars entry x : entry_ok entry -> is_ascii_digit x = false -> x ∉ entry_name entry.
Proof.
  intros H Hx. unfold entry_name. destruct (entry_bytes entry (eo_len _ H)) as (_ & _ & _ & Uid & _).
  case_match; [|apply not_elem_of_nil]. apply to_decimal_chars; [unfold fits in *; lia|done].
Qed.

Lemma entry_text_fields entry : entry_ok entry ->
  split COLON (entry_text entry) = [entry_tag_text entry; entry_name entry; permission_text (entry_permissions entry)]
  /\ COMMA ∉ entry_text entry.
Proof.
  intros H. pose proof (entry_name_chars entry COLON H eq_refl) as Hn. pose proof (entry_name_chars entry COMMA H eq_refl) as Hc.
  destruct (permission_text_facts _ (eo_permissions _ H)) as (_ & Hp1 & Hp2).
  assert (COLON ∉ entry_tag_text entry /\ COMMA ∉ entry_tag_text entry) as [Ht1 Ht2].
  { unfold entry_tag_text. repeat case_match; split; apply (bool_decide_unpack _); vm_compute; done. }
  unfold entry_text. cbn [app]. split.
  - rewrite split_cons_sep by done. rewrite split_cons_sep by done. by rewrite split_no_sep.
  - rewrite !elem_of_app, !elem_of_cons, !elem_of_app, !elem_of_cons. change (COMMA = COLON) with (Byte.x2c = Byte.x3a).
    naive_solver.
Qed.

Lemma schily_acl_tuple_entry entry : entry_ok entry ->
  schily_acl_tuple (entry_text entry)
  = Ok (linux_acl_rank (entry_tag entry), entry_id entry, entry_tag entry, entry_permissions entry).
Proof.
  intros H. destruct (entry_text_fields entry H) as [Hf _]. destruct (permission_text_facts _ (eo_permissions _ H)) as (Hp & _).
  destruct (entry_bytes entry (eo_len _ H)) as (_ & _ & _ & Uid & _).
  unfold schily_acl_tuple. rewrite Hf. cbn [field_at lookup list_lookup]. unfold field_at. cbn [lookup list_lookup].
  rewrite !bind_ret, Hp. pose proof (eo_id _ H) as Hid. unfold entry_tag_text, entry_name.
  assert (acl_named (entry_tag entry) = false -> entry_id entry = u32_max_id) as Hmax.
  { intros Hf'. rewrite Hf' in Hid. symmetry in Hid. by apply negb_false_iff, Z.eqb_eq in Hid. }
  assert (to_decimal (entry_id entry) <> []) as Hne by (apply to_decimal_number; unfold fits in *; lia).
  assert (forall fields, numeric_id fields (to_decimal (entry_id entry)) = Ok (entry_id entry)) as Hnum.
  { intros fields. unfold numeric_id. rewrite from_str_radix_decimal by (unfold fits in *; lia). done. }
  clear Hf Hp. destruct (entry_tag_cases entry H) as [E|[E|[E|[E|[E|E]]]]]; rewrite E in *; unfold acl_named in *;
    first [rewrite Hmax by done; reflexivity
          |cbv [Z.eqb Pos.eqb orb]; rewrite (bool_decide_eq_false_2 (to_decimal (entry_id entry) = [])) by done;
           rewrite Hnum; reflexivity].
Qed.

Lemma parse_acl_id_decimal n : u64 n -> parse_acl_id (to_decimal n) = Ok n.
Proof.
  intros Hn. unfold parse_acl_id. destruct (to_decimal_number n Hn) as (_ & _ & Hm).
  rewrite reject_if_false, bind_ret by done. rewrite from_str_radix_decimal; [done|lia|done|by destruct Hn].
Qed.

Section Validator.
Context `{Unicode}.

Lemma validate_acl_numeric_name n q : u64 n -> validate_acl_name_and_id (to_decimal n) None = Ok q -> q = n.
Proof.
  intros Hn Hq. unfold validate_acl_name_and_id in Hq. apply bind_Ok in Hq as (? & _ & Hq).
  destruct (to_decimal_digits n Hn) as (ds & E & Hd & _).
  assert (forallb is_ascii_digit (to_decimal n) = true) as Hall.
  { rewrite E, (forallb_ext' _ _ _ is_ascii_digit_canonical). by apply digits_canonical. }
  rewrite Hall, parse_acl_id_decimal, bind_ret in Hq by done. apply bind_Ok in Hq as (? & _ & Hq). by injection Hq.
Qed.

(** The sort key of an entry. *)
Definition entry_key (entry : bytes) : PosixAclSortKey :=
  (acl_category (entry_tag entry), entry_qualifier entry, entry_name entry).

Lemma posix_acl_principal_entry s entry s1 category qualifier :
  entry_ok entry ->
  posix_acl_principal s (entry_tag_text entry) (entry_name entry) None = Ok (s1, category, qualifier) ->
  acl_previous s1 = acl_previous s /\ (category, qualifier, entry_name entry) = entry_key entry.
Proof.
  intros He Hp. destruct (entry_bytes entry (eo_len _ He)) as (_ & _ & _ & Uid & _).
  assert (u64 (entry_id entry)) as Uid64 by (unfold fits in *; lia).
  assert (to_decimal (entry_id entry) <> []) as Hne by (by apply to_decimal_number).
  unfold posix_acl_principal, entry_tag_text, entry_name, entry_key, entry_qualifier, entry_name in *.
  destruct (entry_tag_cases entry He) as [E|[E|[E|[E|[E|E]]]]]; rewrite E in *; unfold acl_named in *;
    cbv [Z.eqb Pos.eqb orb] in Hp |- *.
  all: try (rewrite bool_decide_eq_true_2 in Hp by done; cbn in Hp; apply bind_Ok in Hp as (? & _ & Hp);
            injection Hp as <- <- <-; done).
  all: rewrite (bool_decide_eq_false_2 (to_decimal (entry_id entry) = [])) in Hp by done; cbn in Hp;
    apply bind_Ok in Hp as (q & Hq%validate_acl_numeric_name & Hp); [|done]; injection Hp as <- <- <-; by rewrite Hq.
Qed.

Lemma posix_acl_tuple_entry s entry s1 :
  entry_ok entry -> posix_acl_tuple s (entry_text entry) = Ok s1 ->
  acl_previous s1 = Some (entry_key entry) /\ (forall prior, acl_previous s = Some prior -> lt prior (entry_key entry)).
Proof.
  intros He Hp. destruct (entry_text_fields entry He) as [Hf _]. unfold posix_acl_tuple in Hp. rewrite Hf in Hp.
  cbv beta iota zeta delta [length Nat.eqb field_at lookup list_lookup] in Hp.
  apply bind_Ok in Hp as (? & _ & Hp). rewrite !bind_ret in Hp. apply bind_Ok in Hp as (? & _ & Hp).
  rewrite mret_eq, bind_ret in Hp. apply bind_Ok in Hp as ([[s2 category] qualifier] & Hprin & Hp).
  apply posix_acl_principal_entry in Hprin as [Hprev Hkey]; [|done]. rewrite Hkey in Hp.
  apply bind_Ok in Hp as (? & Hord%reject_if_Ok & Hp). apply bind_Ok in Hp as (? & _ & Hp). injection Hp as <-.
  split; [done|]. intros prior Hprior. rewrite Hprev, Hprior in Hord. unfold leb in Hord. by apply negb_false_iff in Hord.
Qed.

Lemma posix_acl_loop_entries s entries s1 :
  Forall entry_ok entries -> posix_acl_loop s (map entry_text entries) = Ok s1 ->
  StronglySorted (fun a b => lt (entry_key a) (entry_key b)) entries
  /\ (forall prior, acl_previous s = Some prior -> Forall (fun e => lt prior (entry_key e)) entries).
Proof.
  intros Ho. revert s. induction Ho as [|e entries He Ho IH]; intros s Hl; cbn [map posix_acl_loop] in Hl.
  { split; [constructor|constructor]. }
  apply bind_Ok in Hl as (s2 & Ht & Hl). apply posix_acl_tuple_entry in Ht as [Hprev Hlt]; [|done].
  destruct (IH s2 Hl) as [Hs Hall]. specialize (Hall _ Hprev). split; [by constructor|].
  intros prior Hp. constructor; [by apply Hlt|]. eapply Forall_impl; [exact Hall|]. intros x Hx. by eapply lt_trans; [apply Hlt|].
Qed.
End Validator.

Lemma split_join sep pieces : pieces <> [] -> Forall (fun p => sep ∉ p) pieces -> split sep (join sep pieces) = pieces.
Proof.
  intros Hne Hp. induction Hp as [|p pieces Hp Hps IH]; [done|]. destruct pieces as [|p' pieces].
  - by apply split_no_sep.
  - rewrite join_cons by done. rewrite split_cons_sep by done. by rewrite IH.
Qed.

Lemma chunks_of_eight_spec b :
  blen b mod 8 = 0 -> concat (chunks_of_eight b) = b /\ Forall (fun c => blen c = 8) (chunks_of_eight b).
Proof.
  remember (length b) as n eqn:Hn. revert b Hn. induction (lt_wf n) as [n _ IH]. intros b -> Hm.
  destruct b as [|x0 [|x1 [|x2 [|x3 [|x4 [|x5 [|x6 [|x7 rest]]]]]]]]; try (by vm_compute in Hm).
  cbn [chunks_of_eight concat]. destruct (IH (length rest)) with (b := rest) as [Hc Hf]; [cbn; lia|done| |].
  - assert (blen (x0 :: x1 :: x2 :: x3 :: x4 :: x5 :: x6 :: x7 :: rest) = blen rest + 1 * 8) as E by (rewrite !blen_cons; lia).
    by rewrite E, Z.mod_add in Hm.
  - rewrite Hc. split; [done|]. by constructor.
Qed.

Lemma linux_acl_entries_Ok chunks entries :
  Forall (fun c => blen c = 8) chunks -> linux_acl_entries chunks = Ok entries ->
  Forall entry_ok chunks
  /\ entries = map (fun e => (acl_category (entry_tag e), entry_qualifier e, entry_text e)) chunks.
Proof.
  intros Hc. revert entries. induction Hc as [|c chunks Hc Hcs IH]; intros entries H; cbn [linux_acl_entries] in H.
  { injection H as <-. split; [constructor|done]. }
  apply bind_Ok in H as (e & He & H). apply bind_Ok in H as (rest & Hr & H). injection H as <-.
  apply linux_acl_entry_Ok in He as [Hok ->]; [|done]. destruct (IH rest Hr) as [Hoks ->]. split; [by constructor|done].
Qed.

Lemma schily_acl_tuples_entries entries :
  Forall entry_ok entries ->
  schily_acl_tuples (map entry_text entries)
  = Ok (map (fun e => (linux_acl_rank (entry_tag e), entry_id e, entry_tag e, entry_permissions e)) entries).
Proof.
  induction 1 as [|e entries He Hes IH]; [done|]. cbn [map schily_acl_tuples]. by rewrite schily_acl_tuple_entry, bind_ret, IH, bind_ret.
Qed.

Lemma canonical_acl_text_Ok text t : canonical_acl_text text = Ok t -> t = text /\ text <> [] /\ utf8_valid text = true.
Proof.
  unfold canonical_acl_text. intros H. apply bind_Ok in H as (? & Hu%reject_if_Ok & H).
  apply bind_Ok in H as (? & Hc%reject_if_Ok & H). injection H as <-. rewrite !orb_false_iff in Hc.
  split_and!; [done|intros ->; naive_solver|by apply negb_false_iff].
Qed.

Lemma sort_by_key_id {A K} `{Ord K} (key : A -> K) l : StronglySorted (key_le key) l -> sort_by_key key l = l.
Proof.
  induction 1 as [|x l Hs IH Hx]; [done|]. cbn [sort_by_key]. rewrite IH. destruct l as [|y l]; [done|].
  cbn [insert_by_key]. apply Forall_cons in Hx as [Hx _]. unfold key_le, le in Hx. by rewrite Hx.
Qed.

(** Entries at different places of an ordered list have different keys. *)
Lemma sorted_keys_inj {A K} `{Ord K} (key : A -> K) l x y :
  StronglySorted (fun a b => lt (key a) (key b)) l -> x ∈ l -> y ∈ l -> key x = key y -> x = y.
Proof.
  induction 1 as [|z l Hs IH Hz]; [by rewrite elem_of_nil|]. rewrite !elem_of_cons, Forall_forall in *.
  intros [->|Hx] [->|Hy] E; [done|exfalso..|by apply IH].
  - specialize (Hz y Hy). rewrite E in Hz. by apply lt_irrefl in Hz.
  - specialize (Hz x Hx). rewrite E in Hz. by apply lt_irrefl in Hz.
Qed.

Lemma linux_acl_record_entry entry : entry_ok entry ->
  linux_acl_record (linux_acl_rank (entry_tag entry), entry_id entry, entry_tag entry, entry_permissions entry) = entry.
Proof. intros H. symmetry. apply (entry_bytes entry (eo_len _ H)). Qed.

Lemma linux_acl_order_key x y : entry_ok x -> entry_ok y -> linux_acl_order x = linux_acl_order y -> entry_key x = entry_key y.
Proof.
  intros Hx Hy E. unfold linux_acl_order in E. injection E as Er Ei.
  assert (entry_tag x = entry_tag y) as Et.
  { destruct (entry_tag_cases x Hx) as [E|[E|[E|[E|[E|E]]]]]; destruct (entry_tag_cases y Hy) as [E'|[E'|[E'|[E'|[E'|E']]]]];
      rewrite E, E' in *; done. }
  unfold entry_key, entry_qualifier, entry_name. by rewrite Et, Ei.
Qed.

Lemma concat_entries entries : Forall entry_ok entries ->
  concat (map linux_acl_record (map (fun e => (linux_acl_rank (entry_tag e), entry_id e, entry_tag e, entry_permissions e)) entries))
  = concat entries.
Proof.
  intros Ho. f_equal. rewrite map_map. rewrite <- (map_id entries) at 2. apply map_ext_Forall.
  eapply Forall_impl; [exact Ho|]. intros e He. by apply linux_acl_record_entry.
Qed.

(** C18: Converting a Linux access-control list to text and back gives the entries
    of the list in the kernel's order; a list already in that order comes back
    byte for byte. *)
Theorem posix_acl_roundtrip `{Unicode} value text :
  linux_posix_acl_xattr_to_schily value = Ok text ->
  schily_posix_acl_to_linux_xattr text
    = Ok (le_bytes 4 2 ++ concat (sort_by_key linux_acl_order (chunks_of_eight (drop 4 value))))
  /\ (StronglySorted (key_le linux_acl_order) (chunks_of_eight (drop 4 value)) ->
      schily_posix_acl_to_linux_xattr text = Ok value).
Proof.
  intros Hv. unfold linux_posix_acl_xattr_to_schily in Hv. cbv zeta in Hv.
  apply bind_Ok in Hv as (? & Hl%reject_if_Ok & Hv). apply bind_Ok in Hv as (? & Hm%reject_if_Ok & Hv).
  apply bind_Ok in Hv as (version & Hver & Hv). apply bind_Ok in Hv as (? & Hveq%reject_if_Ok & Hv).
  apply bind_Ok in Hv as (body & Hbody & Hv). apply bind_Ok in Hv as (entries & Hent & Hv).
  apply bind_Ok in Hv as (u & Hval & Hv). injection Hv as Htext.
  apply negb_false_iff, Z.eqb_eq in Hm. apply negb_false_iff, bytes_eqb_eq in Hveq.
  apply slice_Ok in Hver as (_ & _ & _ & ->). apply slice_Ok in Hbody as (_ & _ & _ & ->).
  assert (seg value 4 (blen value) = drop 4 value) as Hd.
  { unfold seg. change (Z.to_nat 4) with 4%nat. apply take_ge. rewrite length_drop. unfold blen. lia. }
  rewrite Hd in Hent. assert (blen (drop 4 value) mod 8 = 0) as Hbm.
  { rewrite <- Hm. f_equal. apply Z.ltb_ge in Hl. unfold blen in *. rewrite length_drop. lia. }
  destruct (chunks_of_eight_spec _ Hbm) as [Hcat H8]. set (chunks := chunks_of_eight (drop 4 value)) in *.
  destruct (linux_acl_entries_Ok _ _ H8 Hent) as [Hok ->].
  set (key := fun e => (acl_category (entry_tag e), entry_qualifier e)).
  rewrite (sort_by_key_map key fst) in Htext, Hval by done. rewrite map_map in Htext, Hval.
  set (sorted := sort_by_key key chunks) in *.
  assert (Forall entry_ok sorted) as Hsok by (unfold sorted; by rewrite sort_by_key_perm).
  change (map (fun x => snd (acl_category (entry_tag x), entry_qualifier x, entry_text x)) sorted) with (map entry_text sorted) in *.
  assert (sorted <> []) as Hne.
  { intros E. rewrite E in Hval. unfold validate_posix_acl_text in Hval. apply bind_Ok in Hval as (t & Ht & _).
    by apply canonical_acl_text_Ok in Ht as (_ & Ht & _). }
  assert (split COMMA (join COMMA (map entry_text sorted)) = map entry_text sorted) as Hsplit.
  { apply split_join; [by destruct sorted|]. rewrite Forall_map. eapply Forall_impl; [exact Hsok|].
    intros e He. by apply entry_text_fields. }
  pose proof Hval as Hval2. unfold validate_posix_acl_text in Hval2. apply bind_Ok in Hval2 as (t & Ht & Hval2).
  apply canonical_acl_text_Ok in Ht as (-> & _ & Hutf). apply bind_Ok in Hval2 as (s & Hloop & _).
  rewrite Hsplit in Hloop. apply posix_acl_loop_entries in Hloop as [Hkeys _]; [|done].
  assert (schily_posix_acl_to_linux_xattr text = Ok (le_bytes 4 2 ++ concat (sort_by_key linux_acl_order chunks))) as Hmain.
  { unfold schily_posix_acl_to_linux_xattr. rewrite <- Htext.
    change (join COMMA (map (fun x => snd (acl_category (entry_tag x), entry_qualifier x, entry_text x)) sorted))
      with (join COMMA (map entry_text sorted)) in *.
    destruct u. rewrite Hval, bind_ret, Hutf, reject_if_false, bind_ret by done.
    rewrite Hsplit, schily_acl_tuples_entries, bind_ret by done. cbv zeta. rewrite mret_eq. do 2 f_equal.
    rewrite (sort_by_key_map linux_acl_order) by done. rewrite concat_entries by (by rewrite sort_by_key_perm).
    f_equal. apply sort_by_key_unique; [|apply sort_by_key_perm].
    intros e1 e2 H1 H2 E. apply (sorted_keys_inj entry_key sorted); [done..|].
    rewrite Forall_forall in Hsok. apply linux_acl_order_key; auto. }
  split; [done|]. intros Hs. rewrite Hmain, sort_by_key_id by done. rewrite Hcat, <- Hveq. f_equal.
  unfold seg. rewrite drop_0. apply take_drop.
Qed.

(** ** No input makes a check panic *)
Lemma field_at_no_panic fields i : (i < length fields)%nat -> field_at fields i <> Panic.
Proof. intros Hi. unfold field_at. destruct (lookup_lt_is_Some_2 fields i Hi) as [f ->]. done. Qed.

Lemma canonical_acl_text_no_panic value : canonical_acl_text value <> Panic.
Proof. unfold canonical_acl_text. no_panic. Qed.

Lemma parse_acl_id_no_panic value : parse_acl_id value <> Panic.
Proof. unfold parse_acl_id. no_panic. Qed.

#[export] Hint Resolve canonical_acl_text_no_panic parse_acl_id_no_panic fmap_no_panic : no_panic.

Lemma validate_acl_name_and_id_no_panic `{Unicode} name id : validate_acl_name_and_id name id <> Panic.
Proof. unfold validate_acl_name_and_id. no_panic. Qed.

#[export] Hint Resolve validate_acl_name_and_id_no_panic : no_panic.

Lemma posix_acl_principal_no_panic `{Unicode} s tag name id : posix_acl_principal s tag name id <> Panic.
Proof. unfold posix_acl_principal, invalid. repeat case_match; no_panic. Qed.

Lemma posix_acl_tuple_no_panic `{Unicode} s serialized : posix_acl_tuple s serialized <> Panic.
Proof.
  unfold posix_acl_tuple. cbv zeta. apply bind_no_panic; [apply reject_if_no_panic|intros ? Hl%reject_if_Ok].
  assert (3 <= length (split COLON serialized))%nat as Hlen.
  { apply negb_false_iff, orb_true_iff in Hl. rewrite !Nat.eqb_eq in Hl. lia. }
  do 3 (apply bind_no_panic; [apply field_at_no_panic; lia|intros ? _]).
  apply bind_no_panic; [apply reject_if_no_panic|intros ? _].
  apply bind_no_panic.
  - case_match eqn:E; [|done]. apply Nat.eqb_eq in E.
    apply bind_no_panic; [apply field_at_no_panic; lia|auto with no_panic].
  - intros id _. apply bind_no_panic; [apply posix_acl_principal_no_panic|]. intros [[? ?] ?] _. no_panic.
Qed.

Lemma validate_posix_acl_text_no_panic `{Unicode} value : validate_posix_acl_text value <> Panic.
Proof.
  unfold validate_posix_acl_text. apply bind_no_panic; [auto with no_panic|intros text _].
  apply bind_no_panic; [|intros; no_panic]. generalize AclState_new. induction (split COMMA text) as [|t ts IH]; intros s; [done|].
  cbn [posix_acl_loop]. apply bind_no_panic; [apply posix_acl_tuple_no_panic|auto].
Qed.

Lemma split_length sep b : (1 <= length (split sep b))%nat.
Proof. pose proof (split_not_nil sep b). destruct (split sep b); [done|cbn; lia]. Qed.

Lemma nfs4_acl_tuple_no_panic `{Unicode} serialized : nfs4_acl_tuple serialized <> Panic.
Proof.
  unfold nfs4_acl_tuple. cbv zeta. pose proof (split_length COLON serialized) as H1.
  revert H1. generalize (split COLON serialized) as fields. intros fields H1.
  apply bind_no_panic; [apply field_at_no_panic; lia|intros first _].
  set (named := is_named first "user" || is_named first "group").
  apply bind_no_panic; [apply reject_if_no_panic|intros ? Hn%reject_if_Ok]. apply negb_false_iff in Hn.
  assert ((4 <= length fields)%nat /\ (named = true -> (5 <= length fields)%nat)) as [H4 H5].
  { destruct named; [apply andb_true_iff in Hn as [Hn _]; apply Nat.leb_le in Hn|apply Nat.eqb_eq in Hn]; split; try done; lia. }
  apply bind_no_panic.
  - destruct named; [|no_panic]. specialize (H5 eq_refl). apply bind_no_panic.
    + case_match eqn:E; [|done]. apply Nat.eqb_eq in E. apply bind_no_panic; [apply field_at_no_panic; lia|auto with no_panic].
    + intros id _. apply bind_no_panic; [apply field_at_no_panic; lia|]. intros. no_panic.
  - intros offset Ho.
    assert ((3 + offset < length fields)%nat) as Hoff.
    { destruct named; apply bind_Ok in Ho as (? & _ & Ho); [|injection Ho as <-; lia].
      apply bind_Ok in Ho as (? & _ & Ho). apply bind_Ok in Ho as (? & _ & Ho). injection Ho as <-. specialize (H5 eq_refl). lia. }
    do 3 (apply bind_no_panic; [apply field_at_no_panic; lia|intros ? _]; try (apply bind_no_panic; [apply reject_if_no_panic|intros ? _])).
    apply reject_if_no_panic.
Qed.

Lemma validate_nfs4_acl_text_no_panic `{Unicode} value : validate_nfs4_acl_text value <> Panic.
Proof.
  unfold validate_nfs4_acl_text. apply bind_no_panic; [auto with no_panic|intros text _].
  generalize (@nil bytes). induction (split COMMA text) as [|t ts IH]; intros seen; [done|].
  cbn [nfs4_acl_loop]. apply bind_no_panic; [apply reject_if_no_panic|intros ? _].
  apply bind_no_panic; [apply nfs4_acl_tuple_no_panic|auto].
Qed.

#[export] Hint Resolve validate_posix_acl_text_no_panic validate_nfs4_acl_text_no_panic : no_panic.

Section AclWitness.
#[local] Existing Instance toy_Unicode.

Lemma posix_acl_roundtrip_witness :
  schily_posix_acl_to_linux_xattr (ascii "user::rw-,group::r--,other::r--,user:1000:rwx,mask::rwx") = Ok example_acl.
Proof.
  apply (posix_acl_roundtrip example_acl); [vm_compute; reflexivity|].
  repeat constructor; vm_compute; done.
Defined.
End AclWitness.
