(* ===== verification/PrimaryMetadata.v ===== *)
(** * Metadata of the primary entry

    The metadata declaration that the PAX records of a member's primary entry
    carry: [parse_primary_metadata] of
    [crates/tzap-core/src/entry_metadata.rs] with its checks of profiles, keys
    and values, and the writer's [portable_primary_pax]. *)

From Stdlib Require Import Sorting.Sorted.
From stdpp Require Import sorting.
From S2P Require Import Wire Ordering Paths TextCodecs Pax SparseMap TarHeader NativeMetadata AclText.
#[local] Open Scope Z_scope.

Definition MAX_PROFILE_COUNT : Z := 64.
Definition MAX_PROFILE_ID_LEN : Z := 64.
Definition MAX_AUXILIARY_NAME_LEN : Z := 65535.

Definition PORTABLE_PROFILE : bytes := ascii "portable-v1".
Definition POSIX_PROFILE : bytes := ascii "posix-backup-v1".
Definition LINUX_PROFILE : bytes := ascii "linux-backup-v1".
Definition MACOS_PROFILE : bytes := ascii "macos-backup-v1".
Definition WINDOWS_PROFILE : bytes := ascii "windows-backup-v1".
Definition CORE_PROFILE : bytes := ascii "tzap-core-v1".

Inductive CaptureStatus : Set := Complete | Partial.

#[export] Instance CaptureStatus_eq_dec : EqDecision CaptureStatus.
Proof. solve_decision. Defined.

Record MetadataDeclaration : Type := {
  md_required_profiles : list bytes;
  md_optional_profiles : list bytes;
  md_source_os : bytes;
  md_source_filesystem : bytes;
  md_capture_status : CaptureStatus;
  md_owner_kind_posix : bool;
  md_mode_origin_native : bool;
  md_portable_mode : Z;
  md_portable_attributes : option Z
}.

Record PrimaryMetadata : Type := {
  pm_declaration : MetadataDeclaration;
  pm_path : option bytes;
  pm_linkpath : option bytes;
  pm_stored_size : option Z;
  pm_mtime : option ArchiveTimestamp;
  pm_sparse_logical_size : option Z;
  pm_has_native_scalar : bool;
  pm_requires_system_restore : bool;
  pm_xattr_names : list bytes
}.

(** [matches!(value, "a" | "b" | ..)] *)
Definition matches (value : bytes) (texts : list string) : bool := existsb (fun t => bytes_eqb value (ascii t)) texts.

(** [key.starts_with("..")] *)
Definition has_prefix (key : bytes) (prefix : string) : bool := starts_with key (ascii prefix).

(** [list.binary_search(x).is_ok()] of a sorted list *)
Definition binary_search (l : list bytes) (x : bytes) : bool :=
  bool_decide (l !! partition_point (fun y => ltb y x) l = Some x).

(** [list.windows(2).any(|pair| pair[0] >= pair[1])] *)
Fixpoint not_ascending (l : list bytes) : bool :=
  match l with
  | x :: (y :: _) as rest => leb y x || not_ascending rest
  | _ => false
  end.

Definition MetadataDeclaration_profile_required (d : MetadataDeclaration) (profile : bytes) : bool :=
  binary_search (md_required_profiles d) profile.

Definition MetadataDeclaration_profile_selected (d : MetadataDeclaration) (profile : bytes) : bool :=
  binary_search (md_required_profiles d) profile || binary_search (md_optional_profiles d) profile.

(** ** Reading records *)
Definition required (records : PaxRecords) (key : string) : fresult bytes :=
  ok_or (pax_get records (ascii key)) (InvalidArchive "required revision-45 PAX key is missing").

Definition expect_value (records : PaxRecords) (key : string) (expected : bytes) (structure : string) : fresult unit :=
  value ← required records key;
  reject_if (negb (bytes_eqb value expected)) (InvalidMetadata structure "required PAX value mismatch").

Definition has_key (records : PaxRecords) (key : string) : bool := contains_key records (ascii key).

(** [records.get(key).map(parse).transpose()?] *)
Definition optional {A} (records : PaxRecords) (key : string) (parse : bytes -> fresult A) : fresult (option A) :=
  match pax_get records (ascii key) with
  | Some value => Some <$> parse value
  | None => Ok None
  end.

(** [for key in keys { if let Some(value) = records.get(key) { check(value)?; } }] *)
Fixpoint check_each {A} (records : PaxRecords) (keys : list string) (check : bytes -> fresult A) : fresult unit :=
  match keys with
  | [] => Ok tt
  | key :: keys =>
      (match pax_get records (ascii key) with
       | Some value => check value;; Ok tt
       | None => Ok tt
       end);;
      check_each records keys check
  end.

(** [records.keys().any(p)] *)
Definition any_key (records : PaxRecords) (p : bytes -> bool) : bool := existsb (fun r => p r.1) records.

(** ** Tokens and profiles *)
Definition token_byte (x : Byte.byte) : bool :=
  is_ascii_lowercase x || is_ascii_digit x || bool_decide (x ∈ [MINUS; DOT; Byte.x5f]).

Definition is_source_os (value : bytes) : bool :=
  matches value ["linux"; "freebsd"; "netbsd"; "openbsd"; "solaris"; "macos"; "windows"; "other-unix"; "other"].

Definition source_os_requires_posix_profile (source_os : bytes) : bool :=
  matches source_os ["freebsd"; "netbsd"; "openbsd"; "solaris"; "other-unix"].

Definition valid_filesystem_token (value : bytes) : bool :=
  bytes_eqb value (ascii "unknown")
  || (1 <=? blen value) && (blen value <=? 32) && forallb token_byte value.

Definition valid_profile_token (value : bytes) : bool :=
  (1 <=? blen value) && (blen value <=? MAX_PROFILE_ID_LEN) && forallb token_byte value.

Definition is_known_profile (value : bytes) : bool :=
  existsb (bytes_eqb value) [PORTABLE_PROFILE; POSIX_PROFILE; LINUX_PROFILE; MACOS_PROFILE; WINDOWS_PROFILE].

Definition MetadataDeclaration_has_unknown_required_profile (d : MetadataDeclaration) : bool :=
  existsb (fun profile => negb (is_known_profile profile)) (md_required_profiles d).

Definition valid_profile_component (component : bytes) : bool :=
  match component with
  | [] => false
  | x :: _ =>
      is_ascii_alphanumeric x
      && forallb (fun y => is_ascii_lowercase y || is_ascii_digit y || bool_decide (y ∈ [MINUS; Byte.x5f])) component
  end.

Definition is_valid_profile_id (value : bytes) : bool :=
  if is_known_profile value then true
  else if negb (valid_profile_token value) || negb (has_prefix value "x.") then false
  else
    let components := split DOT value in
    (4 <=? length components)%nat
    && bool_decide (head components = Some (ascii "x"))
    && forallb valid_profile_component (drop 1 components).

Definition parse_profile_list (value : bytes) : fresult (list bytes) :=
  if bool_decide (value = []) then Ok []
  else
    text ← ascii_string value "profile list";
    let profiles := split COMMA text in
    let count := Z.of_nat (length profiles) in
    reject_if (MAX_PROFILE_COUNT <? count)
      (ReaderResourceLimitExceeded "metadata profiles per list" MAX_PROFILE_COUNT count);;
    reject_if (existsb (fun profile => negb (is_valid_profile_id profile)) profiles || not_ascending profiles)
      (InvalidMetadata "PrimaryMetadata" "profile list is not canonical");;
    mret profiles.

Definition validate_profile_sets (required optional : list bytes) : fresult unit :=
  reject_if (negb (binary_search required PORTABLE_PROFILE))
    (InvalidMetadata "PrimaryMetadata" "portable-v1 is not required");;
  reject_if (existsb (bytes_eqb CORE_PROFILE) required || existsb (bytes_eqb CORE_PROFILE) optional
             || existsb (binary_search optional) required)
    (InvalidMetadata "PrimaryMetadata" "profile lists overlap or contain reserved profile").

Definition validate_profile_dependencies (required optional : list bytes) (source_os : bytes) : fresult unit :=
  let req := binary_search required in
  let opt := binary_search optional in
  let selected profile := req profile || opt profile in
  reject_if ((req LINUX_PROFILE || req MACOS_PROFILE) && negb (req POSIX_PROFILE))
    (InvalidMetadata "PrimaryMetadata" "required native profile dependency is missing");;
  reject_if ((opt LINUX_PROFILE || opt MACOS_PROFILE) && negb (selected POSIX_PROFILE))
    (InvalidMetadata "PrimaryMetadata" "optional native profile dependency is missing");;
  reject_if (selected LINUX_PROFILE && negb (bytes_eqb source_os (ascii "linux"))
             || selected MACOS_PROFILE && negb (bytes_eqb source_os (ascii "macos"))
             || selected WINDOWS_PROFILE && negb (bytes_eqb source_os (ascii "windows")))
    (InvalidMetadata "PrimaryMetadata" "native profile does not match source OS").

(** ** Keys *)
Definition primary_keys : list string :=
  ["TZAP.metadata.version"; "TZAP.metadata.required-profiles"; "TZAP.metadata.optional-profiles";
   "TZAP.metadata.source-os"; "TZAP.metadata.source-filesystem"; "TZAP.metadata.capture-status";
   "TZAP.portable.owner-kind"; "TZAP.portable.mode-origin"; "TZAP.portable.mode"; "TZAP.portable.attributes";
   "path"; "linkpath"; "size"; "uid"; "gid"; "uname"; "gname"; "mtime"; "atime"; "LIBARCHIVE.creationtime";
   "SCHILY.acl.access"; "SCHILY.acl.default"; "SCHILY.acl.ace"; "SCHILY.fflags"; "GNU.sparse.major";
   "GNU.sparse.minor"; "GNU.sparse.name"; "GNU.sparse.realsize"; "TZAP.unix.ctime-observed";
   "TZAP.windows.change-time"; "TZAP.posix.device-major"; "TZAP.posix.device-minor"; "TZAP.acl.projection";
   "TZAP.acl.syntax"; "TZAP.linux.fsflags"; "TZAP.bsd.st-flags"; "TZAP.macos.st-flags"; "TZAP.linux.project-id";
   "TZAP.linux.whiteout"; "TZAP.macos.clone-group"; "TZAP.windows.file-attributes";
   "TZAP.windows.data-stream-attributes"; "TZAP.windows.directory-case-sensitive";
   "TZAP.windows.reparse-placeholder"].

Definition primary_key_allowed (key : bytes) : bool :=
  matches key primary_keys || has_prefix key "LIBARCHIVE.xattr.".

Definition validate_primary_key_registry (records : PaxRecords) : fresult unit :=
  reject_if (any_key records (fun key => negb (primary_key_allowed key)))
    (InvalidMetadata "PrimaryMetadata" "unregistered primary PAX key").

Definition is_native_primary_key (key : bytes) : bool :=
  has_prefix key "TZAP.linux." || has_prefix key "TZAP.macos." || has_prefix key "TZAP.windows."
  || has_prefix key "TZAP.posix." || has_prefix key "LIBARCHIVE." || has_prefix key "SCHILY."
  || bytes_eqb key (ascii "TZAP.unix.ctime-observed").

Definition is_system_primary_key (key : bytes) : bool :=
  has_prefix key "TZAP.posix.device-" || bytes_eqb key (ascii "TZAP.linux.whiteout")
  || bytes_eqb key (ascii "TZAP.linux.project-id") || bytes_eqb key (ascii "TZAP.windows.reparse-placeholder")
  || bytes_eqb key (ascii "TZAP.windows.directory-case-sensitive")
  || has_prefix key "LIBARCHIVE.xattr.security" || has_prefix key "LIBARCHIVE.xattr.trusted"
  || has_prefix key "LIBARCHIVE.xattr.system".

(** ** Values *)
Definition validate_owner_name `{Unicode} (value : bytes) : fresult unit :=
  reject_if (negb (utf8_valid value)) (InvalidArchive "owner name is not UTF-8");;
  reject_if (negb (bytes_eqb (nfc value) value)) (InvalidMetadata "PrimaryMetadata" "owner name is not NFC").

Definition validate_owner_fields `{Unicode} (records : PaxRecords) (posix : bool) : fresult unit :=
  reject_if (negb posix && existsb (has_key records) ["uid"; "gid"; "uname"; "gname"])
    (InvalidMetadata "PrimaryMetadata" "owner-kind none has POSIX ownership fields");;
  if posix then
    check_each records ["uid"] (fun value => parse_decimal_u64 value "uid");;
    check_each records ["gid"] (fun value => parse_decimal_u64 value "gid");;
    check_each records ["uname"; "gname"] validate_owner_name
  else Ok tt.

Definition check_project_id (value : bytes) : fresult unit :=
  parsed ← parse_decimal_u64 value "Linux project ID";
  reject_if (2 ^ 32 - 1 <? parsed) (InvalidMetadata "PrimaryMetadata" "Linux project ID exceeds u32").

Definition check_fflags (value : bytes) : fresult unit :=
  text ← ascii_string value "SCHILY file flags";
  let tokens := split COMMA text in
  reject_if (bool_decide (text = [])
             || existsb (fun token => negb (valid_profile_token token) || bool_decide (DOT ∈ token)) tokens
             || not_ascending tokens)
    (InvalidMetadata "PrimaryMetadata" "SCHILY file flags are not canonical").

Definition check_clone_group (value : bytes) : fresult unit :=
  reject_if (negb (blen value =? 32) || negb (forallb is_lower_hex value))
    (InvalidMetadata "PrimaryMetadata" "invalid macOS clone group").

Definition check_one (value : bytes) : fresult unit :=
  reject_if (negb (bytes_eqb value (ascii "1"))) (InvalidMetadata "PrimaryMetadata" "invalid boolean scalar").

Definition check_case_sensitive (value : bytes) : fresult unit :=
  reject_if (negb (bytes_eqb value (ascii "0")) && negb (bytes_eqb value (ascii "1")))
    (InvalidMetadata "PrimaryMetadata" "invalid Windows case-sensitive scalar").

(** [BTreeSet<Vec<u8>>]: its elements in ascending order. *)
Fixpoint set_insert (x : bytes) (set : list bytes) : list bytes :=
  match set with
  | [] => [x]
  | y :: rest =>
      match cmp x y with
      | Lt => x :: set
      | Eq => set
      | Gt => y :: set_insert x rest
      end
  end.

Definition XATTR_PREFIX : string := "LIBARCHIVE.xattr.".

(** [key.as_bytes()["LIBARCHIVE.xattr.".len()..]] *)
Definition xattr_suffix (key : bytes) : bytes := drop 17 key.

(** The loop over the extended attributes: the set of decoded names. *)
Fixpoint xattr_loop (records : PaxRecords) (decoded_xattrs : list bytes) : fresult (list bytes) :=
  match records with
  | [] => Ok decoded_xattrs
  | (key, value) :: records =>
      if has_prefix key XATTR_PREFIX then
        name ← decode_percent_name (xattr_suffix key);
        reject_if (MAX_AUXILIARY_NAME_LEN <? blen name)
          (ReaderResourceLimitExceeded "decoded xattr name bytes" MAX_AUXILIARY_NAME_LEN (blen name));;
        reject_if (bool_decide (name = []) || bool_decide (name ∈ decoded_xattrs))
          (InvalidMetadata "PrimaryMetadata" "duplicate or empty decoded xattr name");;
        decoded ← canonical_base64_decode value;
        reject_if (MAX_LOCAL_PAX_PAYLOAD <? blen decoded)
          (ReaderResourceLimitExceeded "decoded xattr value bytes" MAX_LOCAL_PAX_PAYLOAD (blen decoded));;
        xattr_loop records (set_insert name decoded_xattrs)
      else xattr_loop records decoded_xattrs
  end.

Definition reserved_xattrs : list bytes := [ascii "com.apple.ResourceFork"; ascii "com.apple.FinderInfo"].

Definition validate_scalar_encodings (records : PaxRecords) : fresult (list bytes) :=
  check_each records
    ["mtime"; "atime"; "LIBARCHIVE.creationtime"; "TZAP.unix.ctime-observed"; "TZAP.windows.change-time"] parse_timestamp;;
  check_each records ["TZAP.posix.device-major"; "TZAP.posix.device-minor"]
    (fun value => parse_decimal_u64 value "primary decimal scalar");;
  check_each records ["TZAP.linux.project-id"] check_project_id;;
  check_each records ["TZAP.linux.fsflags"; "TZAP.bsd.st-flags"; "TZAP.macos.st-flags"]
    (fun value => parse_fixed_hex_u64 value 16 "native flags");;
  check_each records ["SCHILY.fflags"] check_fflags;;
  check_each records ["TZAP.windows.file-attributes"; "TZAP.windows.data-stream-attributes"]
    (fun value => parse_fixed_hex_u32 value 8 "Windows attributes");;
  check_each records ["TZAP.macos.clone-group"] check_clone_group;;
  check_each records ["TZAP.linux.whiteout"; "TZAP.windows.reparse-placeholder"] check_one;;
  check_each records ["TZAP.windows.directory-case-sensitive"] check_case_sensitive;;
  decoded_xattrs ← xattr_loop records [];
  reject_if (existsb (fun reserved => bool_decide (reserved ∈ decoded_xattrs)) reserved_xattrs)
    (InvalidMetadata "PrimaryMetadata" "macOS resource fork or FinderInfo is encoded as a generic xattr");;
  mret decoded_xattrs.

Definition value_is (value : option bytes) (text : string) : bool := bool_decide (value = Some (ascii text)).

Definition validate_acl_fields `{Unicode} (records : PaxRecords) : fresult unit :=
  let posix := has_key records "SCHILY.acl.access" || has_key records "SCHILY.acl.default" in
  let nfs4 := has_key records "SCHILY.acl.ace" in
  reject_if (posix && nfs4) (InvalidMetadata "PrimaryMetadata" "multiple textual ACL models are present");;
  let projection := pax_get records (ascii "TZAP.acl.projection") in
  let syntax := pax_get records (ascii "TZAP.acl.syntax") in
  (if posix || nfs4 then
     reject_if (negb (value_is projection "exact" || value_is projection "lossy"))
       (InvalidMetadata "PrimaryMetadata" "textual ACL projection is missing");;
     reject_if (negb (value_is syntax (if posix then "schily-posix1e-extra-id-v1" else "schily-nfs4-full-extra-id-v1")))
       (InvalidMetadata "PrimaryMetadata" "textual ACL syntax does not match model")
   else
     reject_if ((bool_decide (is_Some projection) || bool_decide (is_Some syntax))
                && (negb (value_is projection "none") || bool_decide (is_Some syntax)))
       (InvalidMetadata "PrimaryMetadata" "ACL declaration has no matching ACL data"));;
  check_each records ["SCHILY.acl.access"; "SCHILY.acl.default"] validate_posix_acl_text;;
  check_each records ["SCHILY.acl.ace"] validate_nfs4_acl_text.

(** ** Who owns a key *)
Definition system_xattr_namespace (name source_os : bytes) : bool :=
  has_prefix name "security." || has_prefix name "trusted." || has_prefix name "system."
  || (bytes_eqb source_os (ascii "linux") && negb (has_prefix name "user.") && negb (has_prefix name "com.apple.")).

Definition xattr_owner_profile (name source_os : bytes) : bytes :=
  if has_prefix name "com.apple." then MACOS_PROFILE
  else if bytes_eqb source_os (ascii "linux") && system_xattr_namespace name source_os then LINUX_PROFILE
  else POSIX_PROFILE.

Definition source_profile_of (source_os : bytes) : bytes :=
  if bytes_eqb source_os (ascii "linux") then LINUX_PROFILE
  else if bytes_eqb source_os (ascii "macos") then MACOS_PROFILE
  else if bytes_eqb source_os (ascii "windows") then WINDOWS_PROFILE
  else if matches source_os ["freebsd"; "netbsd"; "openbsd"; "solaris"; "other-unix"] then POSIX_PROFILE
  else [].

Definition key_owner (key source_os : bytes) : fresult bytes :=
  if has_prefix key "TZAP.linux." then Ok LINUX_PROFILE
  else if has_prefix key "TZAP.macos." then Ok MACOS_PROFILE
  else if has_prefix key "TZAP.windows." then Ok WINDOWS_PROFILE
  else if has_prefix key "TZAP.posix." then Ok POSIX_PROFILE
  else if has_prefix key XATTR_PREFIX then
    name ← decode_percent_name (xattr_suffix key);
    mret (xattr_owner_profile name source_os)
  else if has_prefix key "SCHILY.acl." || has_prefix key "TZAP.acl." then Ok POSIX_PROFILE
  else if has_prefix key "SCHILY." || bytes_eqb key (ascii "LIBARCHIVE.creationtime")
          || bytes_eqb key (ascii "TZAP.unix.ctime-observed") then Ok (source_profile_of source_os)
  else Ok [].

Fixpoint check_key_owners (records : PaxRecords) (selected : bytes -> bool) (source_os : bytes) : fresult unit :=
  match records with
  | [] => Ok tt
  | (key, _) :: records =>
      owner ← key_owner key source_os;
      reject_if (negb (bool_decide (owner = [])) && negb (selected owner))
        (InvalidMetadata "PrimaryMetadata" "primary key owner profile is not selected");;
      check_key_owners records selected source_os
  end.

Definition validate_profile_owned_primary_fields (records : PaxRecords) (required optional : list bytes)
    (source_os : bytes) : fresult unit :=
  check_key_owners records (fun profile => binary_search required profile || binary_search optional profile) source_os.

Definition masked (flags : option Z) (mask : Z) : bool :=
  match flags with Some value => bit_set value mask | None => false end.

Definition no_change_tokens : list string := ["append"; "immutable"; "sappnd"; "schg"; "uappnd"; "uchg"].

Definition has_no_change_flags (records : PaxRecords) : fresult bool :=
  linux ← optional records "TZAP.linux.fsflags" (fun value => parse_fixed_hex_u64 value 16 "Linux file flags");
  bsd ← optional records "TZAP.bsd.st-flags" (fun value => parse_fixed_hex_u64 value 16 "BSD file flags");
  macos ← optional records "TZAP.macos.st-flags" (fun value => parse_fixed_hex_u64 value 16 "macOS file flags");
  let projected := match pax_get records (ascii "SCHILY.fflags") with
                   | Some value => existsb (fun token => matches token no_change_tokens) (split COMMA value)
                   | None => false
                   end in
  mret (masked linux 0x30 || masked bsd 0x00060006 || masked macos 0x009F0086 || projected).

(** ** The declaration *)
Definition choose {A} (value : bytes) (choices : list (string * A)) (reason : string) : fresult A :=
  match List.find (fun choice => bytes_eqb value (ascii choice.1)) choices with
  | Some choice => Ok choice.2
  | None => invalid "PrimaryMetadata" reason
  end.

Definition sparse_keys : list string := ["GNU.sparse.major"; "GNU.sparse.minor"; "GNU.sparse.name"; "GNU.sparse.realsize"].

Definition parse_sparse_declaration (records : PaxRecords) : fresult (option Z) :=
  let sparse_count := length (filter (fun key => has_key records key = true) sparse_keys) in
  if (sparse_count =? 0)%nat then Ok None
  else
    reject_if (negb (sparse_count =? length sparse_keys)%nat)
      (InvalidMetadata "PrimaryMetadata" "incomplete GNU sparse 1.0 declaration");;
    expect_value records "GNU.sparse.major" (ascii "1") "PrimaryMetadata";;
    expect_value records "GNU.sparse.minor" (ascii "0") "PrimaryMetadata";;
    realsize ← required records "GNU.sparse.realsize";
    Some <$> parse_decimal_u64 realsize "GNU sparse logical size".

Definition parse_primary_metadata `{Unicode} (records : PaxRecords) : fresult PrimaryMetadata :=
  validate_primary_key_registry records;;
  expect_value records "TZAP.metadata.version" (ascii "1") "PrimaryMetadata";;
  required_text ← required records "TZAP.metadata.required-profiles";
  required_profiles ← parse_profile_list required_text;
  optional_text ← required records "TZAP.metadata.optional-profiles";
  optional_profiles ← parse_profile_list optional_text;
  validate_profile_sets required_profiles optional_profiles;;
  source_os_text ← required records "TZAP.metadata.source-os";
  source_os ← ascii_string source_os_text "source OS";
  reject_if (negb (is_source_os source_os)) (InvalidMetadata "PrimaryMetadata" "unknown source OS");;
  filesystem_text ← required records "TZAP.metadata.source-filesystem";
  source_filesystem ← ascii_string filesystem_text "source filesystem";
  reject_if (negb (valid_filesystem_token source_filesystem))
    (InvalidMetadata "PrimaryMetadata" "invalid source filesystem token");;
  validate_profile_dependencies required_profiles optional_profiles source_os;;
  status ← required records "TZAP.metadata.capture-status";
  capture_status ← choose status [("complete", Complete); ("partial", Partial)] "invalid capture status";
  owner ← required records "TZAP.portable.owner-kind";
  owner_kind_posix ← choose owner [("none", false); ("posix", true)] "invalid portable owner kind";
  origin ← required records "TZAP.portable.mode-origin";
  mode_origin_native ← choose origin [("projected", false); ("native", true)] "invalid portable mode origin";
  mode_text ← required records "TZAP.portable.mode";
  portable_mode ← parse_fixed_hex_u32 mode_text 8 "portable mode";
  reject_if (bit_set portable_mode (unot 32 0x0FFF)) (InvalidMetadata "PrimaryMetadata" "portable mode has reserved bits");;
  portable_attributes ← optional records "TZAP.portable.attributes"
    (fun value => parse_fixed_hex_u32 value 8 "portable attributes");
  reject_if (masked portable_attributes (unot 32 0x0F))
    (InvalidMetadata "PrimaryMetadata" "portable attributes have reserved bits");;
  validate_owner_fields records owner_kind_posix;;
  xattr_names ← validate_scalar_encodings records;
  validate_acl_fields records;;
  validate_profile_owned_primary_fields records required_profiles optional_profiles source_os;;
  let path := pax_get records (ascii "path") in
  let linkpath := pax_get records (ascii "linkpath") in
  stored_size ← optional records "size" (fun value => parse_decimal_u64 value "PAX size");
  mtime ← optional records "mtime" parse_timestamp;
  sparse_logical_size ← parse_sparse_declaration records;
  let declaration := {|
    md_required_profiles := required_profiles; md_optional_profiles := optional_profiles;
    md_source_os := source_os; md_source_filesystem := source_filesystem; md_capture_status := capture_status;
    md_owner_kind_posix := owner_kind_posix; md_mode_origin_native := mode_origin_native;
    md_portable_mode := portable_mode; md_portable_attributes := portable_attributes |} in
  let has_native_scalar := any_key records is_native_primary_key in
  stream_attributes ← optional records "TZAP.windows.data-stream-attributes"
    (fun value => parse_fixed_hex_u32 value 8 "Windows stream attributes");
  let windows_stream_security := masked stream_attributes 0x00000002 in
  requires_system_restore ←
    (if owner_kind_posix || bit_set portable_mode 0xC00 || windows_stream_security
        || existsb (fun name => system_xattr_namespace name source_os) xattr_names
     then Ok true
     else no_change ← has_no_change_flags records;
          mret (no_change || any_key records is_system_primary_key));
  mret {| pm_declaration := declaration; pm_path := path; pm_linkpath := linkpath; pm_stored_size := stored_size;
          pm_mtime := mtime; pm_sparse_logical_size := sparse_logical_size; pm_has_native_scalar := has_native_scalar;
          pm_requires_system_restore := requires_system_restore; pm_xattr_names := xattr_names |}.

(** ** The writer's records *)
Definition portable_records (mode : Z) (source_os : bytes) : list (string * bytes) :=
  [("TZAP.metadata.capture-status", ascii "complete"); ("TZAP.metadata.optional-profiles", []);
   ("TZAP.metadata.required-profiles", PORTABLE_PROFILE); ("TZAP.metadata.source-filesystem", ascii "unknown");
   ("TZAP.metadata.source-os", source_os); ("TZAP.metadata.version", ascii "1");
   ("TZAP.portable.mode", fixed_digits 16 8 mode); ("TZAP.portable.mode-origin", ascii "projected");
   ("TZAP.portable.owner-kind", ascii "none")].

Definition portable_primary_pax (path : bytes) (mode : Z) (source_os : bytes) (path_requires_override : bool)
    : fresult PaxRecords :=
  reject_if (bit_set mode (unot 32 0x0FFF))
    (WriterUnsupported "portable mode contains bits outside revision-45 mode mask");;
  reject_if (negb (is_source_os source_os)) (WriterUnsupported "invalid metadata source OS");;
  let records := fold_left (fun records r => pax_insert (ascii r.1) r.2 records) (portable_records mode source_os) [] in
  mret (if path_requires_override then pax_insert (ascii "path") path records else records).

Section PrimaryExamples.
#[local] Existing Instance toy_Unicode.

Example portable_metadata_parses :
  (records ← portable_primary_pax (ascii "a/b") 0x1A4 (ascii "linux") true;
   primary ← parse_primary_metadata records;
   mret (md_portable_mode (pm_declaration primary), pm_path primary)) = Ok (0x1A4, Some (ascii "a/b")).
Proof. vm_compute. reflexivity. Qed.
End PrimaryExamples.

(** ** Sorted lists *)
Lemma not_ascending_sorted l : not_ascending l = false <-> StronglySorted lt l.
Proof.
  split.
  - intros H. apply Sorted_StronglySorted; [intros x y z; apply lt_trans|].
    induction l as [|x l IH]; [constructor|]. destruct l as [|y l]; [by repeat constructor|].
    cbn [not_ascending] in H. apply orb_false_iff in H as [Hxy H]. constructor; [by apply IH|]. constructor.
    unfold leb in Hxy. by apply negb_false_iff in Hxy.
  - induction 1 as [|x l Hs IH Hx]; [done|]. destruct l as [|y l]; [done|]. cbn [not_ascending].
    apply Forall_cons in Hx as [Hx _]. apply orb_false_iff. split; [|done]. unfold leb. by rewrite Hx.
Qed.

Lemma sorted_lookup_lt (l : list bytes) i j x y :
  StronglySorted lt l -> (i < j)%nat -> l !! i = Some x -> l !! j = Some y -> lt x y.
Proof.
  intros Hs. revert i j. induction Hs as [|z l Hs IH Hz]; intros i j Hij Hi Hj; [done|].
  destruct i as [|i]; destruct j as [|j]; try lia; cbn in *.
  - injection Hi as ->. rewrite Forall_forall in Hz. apply Hz. by eapply list_elem_of_lookup_2.
  - apply (IH i j); [lia|done|done].
Qed.

Lemma binary_search_iff l x : StronglySorted lt l -> binary_search l x = true <-> x ∈ l.
Proof.
  intros Hs. unfold binary_search. rewrite bool_decide_eq_true. split; [by apply list_elem_of_lookup_2|].
  intros Hx. apply list_elem_of_lookup_1 in Hx as [i Hi].
  destruct (partition_point_spec (fun y => ltb y x) l) as (Hle & Hp).
  { intros a b y z Hab Ha Hb Hz. destruct (decide (a = b)) as [->|Hne]; [by simplify_eq|].
    eapply lt_trans; [|exact Hz]. apply (sorted_lookup_lt l a b); [done|lia|done|done]. }
  set (p := partition_point (fun y => ltb y x) l) in *.
  assert (~ (i < p)%nat) as Hi'. { intros Hlt. apply (Hp i x Hi) in Hlt. by apply lt_irrefl in Hlt. }
  destruct (decide (p = i)) as [->|Hne]; [done|]. pose proof (lookup_lt_Some _ _ _ Hi).
  destruct (lookup_lt_is_Some_2 l p) as [y Hy]; [lia|].
  assert (p < p)%nat; [|lia]. apply (Hp p y Hy). apply (sorted_lookup_lt l p i); [done|lia|done|done].
Qed.

Lemma existsb_false {A} (p : A -> bool) l : existsb p l = false <-> forall x, x ∈ l -> p x = false.
Proof. rewrite existsb_Forall, Forall_forall. done. Qed.

Lemma set_insert_elem x y set : x ∈ set_insert y set <-> x = y \/ x ∈ set.
Proof.
  induction set as [|z set IH]; cbn [set_insert]; [by rewrite elem_of_cons|]. destruct (cmp y z) eqn:E.
  - apply cmp_eq in E as ->. rewrite elem_of_cons. naive_solver.
  - by rewrite elem_of_cons.
  - rewrite !elem_of_cons, IH. naive_solver.
Qed.

Lemma cmp_Gt (x y : bytes) : cmp x y = Gt -> lt y x.
Proof. intros E. unfold lt. rewrite ltb_lt, (cmp_antisym x y), E. done. Qed.

Lemma set_insert_sorted y set : StronglySorted lt set -> StronglySorted lt (set_insert y set).
Proof.
  induction 1 as [|z set Hs IH Hz]; cbn [set_insert]; [by repeat constructor|]. destruct (cmp y z) eqn:E.
  - by constructor.
  - apply ltb_lt in E. constructor; [by constructor|]. constructor; [done|]. eapply Forall_impl; [exact Hz|].
    intros w Hw. by eapply lt_trans.
  - constructor; [done|]. rewrite Forall_forall in *. intros w [->|Hw]%set_insert_elem; [by apply cmp_Gt|by apply Hz].
Qed.

(** ** What a declaration is *)
Definition profile_list_ok (profiles : list bytes) : Prop :=
  StronglySorted lt profiles /\ Forall (fun p => is_valid_profile_id p = true) profiles
  /\ Z.of_nat (length profiles) <= MAX_PROFILE_COUNT.

Lemma parse_profile_list_typed value profiles : parse_profile_list value = Ok profiles -> profile_list_ok profiles.
Proof.
  unfold parse_profile_list. case_bool_decide as Hv.
  { intros [= <-]. split_and!; [constructor|constructor|done]. }
  intros H. apply bind_Ok in H as (text & _ & H). cbv zeta in H.
  apply bind_Ok in H as (? & Hn%reject_if_Ok & H). apply bind_Ok in H as (? & Hc%reject_if_Ok & H). injection H as <-.
  apply orb_false_iff in Hc as [Hv1 Hv2]. split_and!; [by apply not_ascending_sorted| |by apply Z.ltb_ge].
  apply existsb_Forall in Hv1. eapply Forall_impl; [exact Hv1|]. intros p Hp. by apply negb_false_iff.
Qed.

Record declaration_typed (d : MetadataDeclaration) : Prop := {
  dt_required : profile_list_ok (md_required_profiles d);
  dt_optional : profile_list_ok (md_optional_profiles d);
  dt_portable : PORTABLE_PROFILE ∈ md_required_profiles d;
  dt_core : CORE_PROFILE ∉ md_required_profiles d /\ CORE_PROFILE ∉ md_optional_profiles d;
  dt_disjoint : forall p, p ∈ md_required_profiles d -> p ∉ md_optional_profiles d;
  dt_posix : forall p, p = LINUX_PROFILE \/ p = MACOS_PROFILE ->
    (p ∈ md_required_profiles d -> POSIX_PROFILE ∈ md_required_profiles d)
    /\ (p ∈ md_optional_profiles d -> POSIX_PROFILE ∈ md_required_profiles d \/ POSIX_PROFILE ∈ md_optional_profiles d);
  dt_native : forall p os,
    (p, os) ∈ [(LINUX_PROFILE, ascii "linux"); (MACOS_PROFILE, ascii "macos"); (WINDOWS_PROFILE, ascii "windows")] ->
    p ∈ md_required_profiles d \/ p ∈ md_optional_profiles d -> md_source_os d = os;
  dt_source_os : is_source_os (md_source_os d) = true;
  dt_filesystem : valid_filesystem_token (md_source_filesystem d) = true;
  dt_mode : 0 <= md_portable_mode d <= 0xFFF;
  dt_attributes : forall v, md_portable_attributes d = Some v -> 0 <= v <= 0xF
}.

Record primary_typed (p : PrimaryMetadata) : Prop := {
  pt_declaration : declaration_typed (pm_declaration p);
  pt_stored_size : forall n, pm_stored_size p = Some n -> u64 n;
  pt_sparse : forall n, pm_sparse_logical_size p = Some n -> u64 n;
  pt_mtime : forall t, pm_mtime p = Some t -> timestamp_typed t /\ nanoseconds t < 1000000000;
  pt_xattrs : StronglySorted lt (pm_xattr_names p);
  pt_xattr : forall name, name ∈ pm_xattr_names p -> 0 < blen name <= MAX_AUXILIARY_NAME_LEN /\ name ∉ reserved_xattrs;
  pt_system : md_owner_kind_posix (pm_declaration p) = true
              \/ bit_set (md_portable_mode (pm_declaration p)) 0xC00 = true
              \/ (exists name, name ∈ pm_xattr_names p /\ system_xattr_namespace name (md_source_os (pm_declaration p)) = true) ->
              pm_requires_system_restore p = true
}.

Lemma optional_Some {A} records key (parse : bytes -> fresult A) r v :
  optional records key parse = Ok r -> r = Some v -> exists value, pax_get records (ascii key) = Some value /\ parse value = Ok v.
Proof.
  unfold optional. destruct (pax_get records (ascii key)) as [value|]; [|intros [= <-]; done].
  destruct (parse value) eqn:E; cbn; [|done..]. intros [= <-] [= <-]. eauto.
Qed.

Lemma fixed_hex_range value field v : parse_fixed_hex_u32 value 8 field = Ok v -> u32 v.
Proof. change 8 with (Z.of_nat 8). rewrite (parse_fixed_hex_u32_Ok value 8) by lia. intros [Hv _]. unfold fits. cbn in Hv. lia. Qed.

Lemma mask_range n v : 0 <= n <= 32 -> u32 v -> bit_set v (unot 32 (Z.ones n)) = false -> 0 <= v <= Z.ones n.
Proof.
  intros Hn Hv H. unfold bit_set in H. apply negb_false_iff, Z.eqb_eq in H. apply land_unot_low in H; [|done|lia].
  rewrite Z.ones_equiv. unfold fits in Hv. lia.
Qed.

(** The set of names that the loop over the extended attributes collects. *)
Definition xattr_name_ok (name : bytes) : Prop := 0 < blen name <= MAX_AUXILIARY_NAME_LEN.

Lemma xattr_loop_Ok records set names :
  xattr_loop records set = Ok names -> StronglySorted lt set -> Forall xattr_name_ok set ->
  StronglySorted lt names /\ Forall xattr_name_ok names
  /\ (forall name, name ∈ names <-> name ∈ set \/ exists key value, (key, value) ∈ records
        /\ has_prefix key XATTR_PREFIX = true /\ decode_percent_name (xattr_suffix key) = Ok name).
Proof.
  revert set. induction records as [|[key value] records IH]; intros set H Hs Hok; cbn [xattr_loop] in H.
  { injection H as <-. split_and!; [done..|]. intros name. split; [by left|]. intros [?|(k & v & Hin & _)]; [done|].
    by apply elem_of_nil in Hin. }
  destruct (has_prefix key XATTR_PREFIX) eqn:Hp.
  - apply bind_Ok in H as (name & Hname & H). apply bind_Ok in H as (? & Hlen%reject_if_Ok & H).
    apply bind_Ok in H as (? & Hdup%reject_if_Ok & H). apply bind_Ok in H as (? & _ & H). apply bind_Ok in H as (? & _ & H).
    apply orb_false_iff in Hdup as [Hne%bool_decide_eq_false Hin%bool_decide_eq_false].
    assert (xattr_name_ok name) as Hnok.
    { split; [|by apply Z.ltb_ge]. destruct name; [done|]. rewrite blen_cons. pose proof (blen_nonneg name). lia. }
    apply IH in H as (H1 & H2 & H3); [|by apply set_insert_sorted|].
    + split_and!; [done..|]. intros n. rewrite H3, set_insert_elem. split.
      * intros [[->|Hn]|(k & v & Hk & ?)]; [right; exists key, value; split_and!; [by left|done..]|by left|].
        right. exists k, v. split; [by right|done].
      * intros [Hn|(k & v & [Hk|Hk]%elem_of_cons & Hpk & Hd)]; [auto| |right; eauto].
        injection Hk as -> ->. left. left. congruence.
    + rewrite Forall_forall in *. intros n [->|Hn]%set_insert_elem; auto.
  - apply IH in H as (H1 & H2 & H3); [|done..]. split_and!; [done..|]. intros n. rewrite H3. split.
    + intros [?|(k & v & Hk & ?)]; [by left|]. right. exists k, v. split; [by right|done].
    + intros [?|(k & v & [Hk|Hk]%elem_of_cons & Hpk & Hd)]; [by left| |right; eauto]. injection Hk as -> ->. congruence.
Qed.

Lemma validate_scalar_encodings_Ok records names :
  validate_scalar_encodings records = Ok names ->
  xattr_loop records [] = Ok names /\ forall name, name ∈ names -> name ∉ reserved_xattrs.
Proof.
  unfold validate_scalar_encodings. intros H. do 9 (apply bind_Ok in H as (? & _ & H)).
  apply bind_Ok in H as (names' & Hx & H). apply bind_Ok in H as (? & Hr%reject_if_Ok & H). injection H as <-.
  split; [done|]. intros name Hn Hres. pose proof (proj1 (existsb_false _ _) Hr name Hres) as E.
  by apply bool_decide_eq_false in E.
Qed.

Section Typed.
Context `{Unicode}.

Lemma validate_profile_sets_Ok req opt u :
  profile_list_ok req -> profile_list_ok opt -> validate_profile_sets req opt = Ok u ->
  PORTABLE_PROFILE ∈ req /\ (CORE_PROFILE ∉ req /\ CORE_PROFILE ∉ opt) /\ (forall p, p ∈ req -> p ∉ opt).
Proof.
  intros [Hr _] [Ho _] Hv. unfold validate_profile_sets in Hv. apply bind_Ok in Hv as (? & Hp%reject_if_Ok & Hv%reject_if_Ok).
  apply negb_false_iff, binary_search_iff in Hp; [|done]. rewrite !orb_false_iff, !existsb_false in Hv.
  destruct Hv as [[H1 H2] H3]. split_and!; [done| | |].
  - intros Hin. specialize (H1 _ Hin). by rewrite (proj2 (bytes_eqb_eq _ _) eq_refl) in H1.
  - intros Hin. specialize (H2 _ Hin). by rewrite (proj2 (bytes_eqb_eq _ _) eq_refl) in H2.
  - intros p Hin Hopt. specialize (H3 _ Hin). apply (binary_search_iff opt p Ho) in Hopt. congruence.
Qed.

Lemma validate_profile_dependencies_Ok req opt os u :
  profile_list_ok req -> profile_list_ok opt -> validate_profile_dependencies req opt os = Ok u ->
  (forall p, p = LINUX_PROFILE \/ p = MACOS_PROFILE ->
     (p ∈ req -> POSIX_PROFILE ∈ req) /\ (p ∈ opt -> POSIX_PROFILE ∈ req \/ POSIX_PROFILE ∈ opt))
  /\ (forall p o, (p, o) ∈ [(LINUX_PROFILE, ascii "linux"); (MACOS_PROFILE, ascii "macos"); (WINDOWS_PROFILE, ascii "windows")] ->
      p ∈ req \/ p ∈ opt -> os = o).
Proof.
  intros [Hr _] [Ho _] Hv. unfold validate_profile_dependencies in Hv. cbv zeta in Hv.
  apply bind_Ok in Hv as (? & H1%reject_if_Ok & Hv). apply bind_Ok in Hv as (? & H2%reject_if_Ok & H3%reject_if_Ok).
  pose proof (fun p => binary_search_iff req p Hr) as Er. pose proof (fun p => binary_search_iff opt p Ho) as Eo.
  setoid_rewrite <- Er. setoid_rewrite <- Eo. clear Er Eo.
  split.
  - intros p Hp. destruct Hp as [->| ->]; destruct (binary_search req LINUX_PROFILE), (binary_search req MACOS_PROFILE),
      (binary_search req POSIX_PROFILE), (binary_search opt LINUX_PROFILE), (binary_search opt MACOS_PROFILE),
      (binary_search opt POSIX_PROFILE); cbn in *; naive_solver.
  - intros p o. rewrite !elem_of_cons, elem_of_nil. intros Hp Hsel. rewrite !orb_false_iff in H3. destruct H3 as [[L M] W].
    destruct Hp as [Hp|[Hp|[Hp|[]]]]; injection Hp as -> ->;
      [clear M W; revert L|clear L W; rename M into L; revert L|clear L M; rename W into L; revert L];
      (intros L; apply andb_false_iff in L as [L|L]; [apply orb_false_iff in L as [L1 L2]; rewrite L1, L2 in Hsel; naive_solver|by apply negb_false_iff, bytes_eqb_eq in L]).
Qed.

Lemma parse_sparse_declaration_range records n : parse_sparse_declaration records = Ok (Some n) -> u64 n.
Proof.
  unfold parse_sparse_declaration. cbv zeta. case_match; [done|]. intros Hs.
  do 3 (apply bind_Ok in Hs as (? & _ & Hs)). apply bind_Ok in Hs as (v & _ & Hs).
  destruct (parse_decimal_u64 v "GNU sparse logical size") as [m|?|] eqn:E; cbn in Hs; [|done..]. injection Hs as <-.
  by apply parse_decimal_u64_Ok in E as [E _].
Qed.

Lemma parse_timestamp_range value t : parse_timestamp value = Ok t -> timestamp_typed t /\ nanoseconds t < 1000000000.
Proof.
  rewrite parse_timestamp_text. intros Ht. split; [by apply (timestamp_text_typed value)|].
  destruct Ht as (s & Hs & [[-> _]|(n & Hn & _ & [[_ ->]|(_ & _ & ->)])]); cbn; lia.
Qed.
End Typed.

Lemma parse_primary_metadata_Ok `{Unicode} records p :
  parse_primary_metadata records = Ok p ->
  primary_typed p
  /\ forall name, name ∈ pm_xattr_names p <->
       exists key value, (key, value) ∈ records /\ has_prefix key XATTR_PREFIX = true
                         /\ decode_percent_name (xattr_suffix key) = Ok name.
Proof.
  unfold parse_primary_metadata. intros Hp.
  apply bind_Ok in Hp as (? & _ & Hp). apply bind_Ok in Hp as (? & _ & Hp).
  apply bind_Ok in Hp as (? & _ & Hp). apply bind_Ok in Hp as (req & Hreq%parse_profile_list_typed & Hp).
  apply bind_Ok in Hp as (? & _ & Hp). apply bind_Ok in Hp as (opt & Hopt%parse_profile_list_typed & Hp).
  apply bind_Ok in Hp as (? & Hsets & Hp). apply validate_profile_sets_Ok in Hsets as (Hport & Hcore & Hdis); [|done..].
  apply bind_Ok in Hp as (? & _ & Hp). apply bind_Ok in Hp as (os & _ & Hp). apply bind_Ok in Hp as (? & Hos%reject_if_Ok & Hp).
  apply bind_Ok in Hp as (? & _ & Hp). apply bind_Ok in Hp as (fs & _ & Hp). apply bind_Ok in Hp as (? & Hfs%reject_if_Ok & Hp).
  apply bind_Ok in Hp as (? & Hdep & Hp). apply validate_profile_dependencies_Ok in Hdep as [Hposix Hnative]; [|done..].
  apply bind_Ok in Hp as (? & _ & Hp). apply bind_Ok in Hp as (status & _ & Hp).
  apply bind_Ok in Hp as (? & _ & Hp). apply bind_Ok in Hp as (owner & _ & Hp).
  apply bind_Ok in Hp as (? & _ & Hp). apply bind_Ok in Hp as (native & _ & Hp).
  apply bind_Ok in Hp as (? & _ & Hp). apply bind_Ok in Hp as (mode & Hmode%fixed_hex_range & Hp).
  apply bind_Ok in Hp as (? & Hmask%reject_if_Ok & Hp). apply (mask_range 12) in Hmask; [|lia|done].
  apply bind_Ok in Hp as (attributes & Hattr & Hp). apply bind_Ok in Hp as (? & Hamask%reject_if_Ok & Hp).
  apply bind_Ok in Hp as (? & _ & Hp). apply bind_Ok in Hp as (names & Hnames & Hp).
  apply validate_scalar_encodings_Ok in Hnames as [Hloop Hres]. apply xattr_loop_Ok in Hloop as (Hsorted & Hok & Hin); [|constructor|constructor].
  apply bind_Ok in Hp as (? & _ & Hp). apply bind_Ok in Hp as (? & _ & Hp). cbv zeta in Hp.
  apply bind_Ok in Hp as (size & Hsize & Hp). apply bind_Ok in Hp as (mtime & Hmtime & Hp).
  apply bind_Ok in Hp as (sparse & Hsparse & Hp). apply bind_Ok in Hp as (stream & _ & Hp).
  apply bind_Ok in Hp as (system & Hsystem & Hp). injection Hp as <-. split.
  - split; cbn.
    + split; cbn; try done; [by apply negb_false_iff|by apply negb_false_iff|].
      intros v ->. destruct (optional_Some _ _ _ _ v Hattr eq_refl) as (text & _ & Htext%fixed_hex_range).
      by apply (mask_range 4) in Hamask; [|lia|].
    + intros n ->. destruct (optional_Some _ _ _ _ n Hsize eq_refl) as (text & _ & Ht). by apply parse_decimal_u64_Ok in Ht as [? _].
    + intros n ->. by apply parse_sparse_declaration_range in Hsparse.
    + intros t ->. destruct (optional_Some _ _ _ _ t Hmtime eq_refl) as (text & _ & Ht). by apply parse_timestamp_range in Ht.
    + done.
    + intros name Hname. split; [|by apply Hres]. rewrite Forall_forall in Hok. by apply Hok.
    + intros Hsys. assert (existsb (fun name => system_xattr_namespace name os) names = true \/ owner = true \/ bit_set mode 0xC00 = true) as Hb.
      { destruct Hsys as [?|[?|(name & Hname & Hns)]]; [auto..|]. left. apply existsb_exists. exists name. split; [by apply list_elem_of_In|done]. }
      destruct Hb as [E|[E|E]]; rewrite E in Hsystem; rewrite ?orb_true_r in Hsystem; cbn in Hsystem; by injection Hsystem as <-.
  - intros name. cbn. rewrite Hin, elem_of_nil. naive_solver.
Qed.

(** C8: Whatever the PAX records of a member, the declaration that is accepted for
    them is well-formed: sorted, disjoint lists of valid profiles with
    portable-v1 and the profiles that the native ones depend on, a source
    system that fits them, mode and attribute bits within their masks, sizes
    and times in range, and the sorted set of the decoded names of exactly the
    extended attributes among the records. *)
Theorem primary_metadata_typed `{Unicode} records p :
  parse_primary_metadata records = Ok p ->
  primary_typed p
  /\ forall name, name ∈ pm_xattr_names p <->
       exists key value, (key, value) ∈ records /\ has_prefix key XATTR_PREFIX = true
                         /\ decode_percent_name (xattr_suffix key) = Ok name.
Proof. apply parse_primary_metadata_Ok. Qed.

(** ** No input makes the parser panic *)
Lemma required_no_panic records key : required records key <> Panic.
Proof. apply ok_or_no_panic. Qed.

Lemma expect_value_no_panic records key expected structure : expect_value records key expected structure <> Panic.
Proof. unfold expect_value, required. no_panic. Qed.

Lemma optional_no_panic {A} records key (parse : bytes -> fresult A) :
  (forall v, parse v <> Panic) -> optional records key parse <> Panic.
Proof. intros Hp. unfold optional. case_match; [|done]. by apply fmap_no_panic. Qed.

Lemma check_each_no_panic {A} records keys (check : bytes -> fresult A) :
  (forall v, check v <> Panic) -> check_each records keys check <> Panic.
Proof.
  intros Hc. induction keys as [|key keys IH]; [done|]. cbn [check_each]. apply bind_no_panic; [|auto].
  case_match; [|done]. apply bind_no_panic; [auto|done].
Qed.

Lemma ascii_string_no_panic value field : ascii_string value field <> Panic.
Proof. unfold ascii_string. by case_match. Qed.

Lemma parse_decimal_u64_no_panic value field : parse_decimal_u64 value field <> Panic.
Proof. unfold parse_decimal_u64. case_match; [done|apply ok_or_no_panic]. Qed.

Lemma parse_fixed_hex_u32_no_panic value width field : parse_fixed_hex_u32 value width field <> Panic.
Proof. unfold parse_fixed_hex_u32. case_match; [done|apply ok_or_no_panic]. Qed.

Lemma parse_fixed_hex_u64_no_panic value width field : parse_fixed_hex_u64 value width field <> Panic.
Proof. unfold parse_fixed_hex_u64. case_match; [done|apply ok_or_no_panic]. Qed.

Lemma decode_percent_name_no_panic value : decode_percent_name value <> Panic.
Proof.
  remember (length value) as n eqn:Hn. revert value Hn. induction (lt_wf n) as [n _ IH]. intros value ->.
  destruct value as [|x rest]; [done|]. cbn [decode_percent_name]. case_bool_decide.
  - destruct rest as [|h [|l rest]]; [done..|]. no_panic. apply (IH (length rest)); [cbn; lia|done].
  - no_panic. apply (IH (length rest)); [cbn; lia|done].
Qed.

Lemma choose_no_panic {A} value (choices : list (string * A)) reason : choose value choices reason <> Panic.
Proof. unfold choose, invalid. by case_match. Qed.

#[export] Hint Resolve required_no_panic expect_value_no_panic ascii_string_no_panic parse_decimal_u64_no_panic
  parse_fixed_hex_u32_no_panic parse_fixed_hex_u64_no_panic decode_percent_name_no_panic choose_no_panic
  parse_timestamp_no_panic canonical_base64_decode_no_panic : no_panic.

#[export] Hint Extern 1 (check_each _ _ _ <> Panic) => apply check_each_no_panic; intros : no_panic.
#[export] Hint Extern 1 (optional _ _ _ <> Panic) => apply optional_no_panic; intros : no_panic.

Lemma parse_profile_list_no_panic value : parse_profile_list value <> Panic.
Proof. unfold parse_profile_list. no_panic. Qed.

Lemma validate_profile_sets_no_panic req opt : validate_profile_sets req opt <> Panic.
Proof. unfold validate_profile_sets. no_panic. Qed.

Lemma validate_profile_dependencies_no_panic req opt os : validate_profile_dependencies req opt os <> Panic.
Proof. unfold validate_profile_dependencies. no_panic. Qed.

Lemma xattr_loop_no_panic records set : xattr_loop records set <> Panic.
Proof.
  revert set. induction records as [|[key value] records IH]; intros set; [done|]. cbn [xattr_loop].
  case_match; [|auto]. no_panic. apply IH.
Qed.

Lemma check_project_id_no_panic value : check_project_id value <> Panic.
Proof. unfold check_project_id. no_panic. Qed.

Lemma check_fflags_no_panic value : check_fflags value <> Panic.
Proof. unfold check_fflags. no_panic. Qed.

Lemma validate_owner_name_no_panic `{Unicode} value : validate_owner_name value <> Panic.
Proof. unfold validate_owner_name. no_panic. Qed.

Lemma check_clone_group_no_panic value : check_clone_group value <> Panic.
Proof. unfold check_clone_group. no_panic; auto with no_panic. Qed.

Lemma check_one_no_panic value : check_one value <> Panic.
Proof. unfold check_one. no_panic; auto with no_panic. Qed.

Lemma check_case_sensitive_no_panic value : check_case_sensitive value <> Panic.
Proof. unfold check_case_sensitive. no_panic; auto with no_panic. Qed.

#[export] Hint Resolve check_clone_group_no_panic check_one_no_panic check_case_sensitive_no_panic : no_panic.

#[export] Hint Resolve parse_profile_list_no_panic validate_profile_sets_no_panic validate_profile_dependencies_no_panic
  xattr_loop_no_panic check_project_id_no_panic check_fflags_no_panic validate_owner_name_no_panic : no_panic.

Lemma validate_scalar_encodings_no_panic records : validate_scalar_encodings records <> Panic.
Proof.
  unfold validate_scalar_encodings. repeat (apply bind_no_panic; [solve [auto with no_panic]|intros ? _]). no_panic.
Qed.

Lemma validate_owner_fields_no_panic `{Unicode} records posix : validate_owner_fields records posix <> Panic.
Proof. unfold validate_owner_fields. no_panic; auto with no_panic. Qed.

Lemma validate_acl_fields_no_panic `{Unicode} records : validate_acl_fields records <> Panic.
Proof.
  unfold validate_acl_fields. cbv zeta. no_panic; auto with no_panic.
Qed.

Lemma check_key_owners_no_panic records selected os : check_key_owners records selected os <> Panic.
Proof.
  induction records as [|[key value] records IH]; [done|]. cbn [check_key_owners]. apply bind_no_panic.
  - unfold key_owner. repeat case_match; try done. no_panic.
  - intros owner _. no_panic. apply IH.
Qed.

Lemma has_no_change_flags_no_panic records : has_no_change_flags records <> Panic.
Proof. unfold has_no_change_flags. no_panic; auto with no_panic. Qed.

Lemma parse_sparse_declaration_no_panic records : parse_sparse_declaration records <> Panic.
Proof. unfold parse_sparse_declaration. no_panic; auto with no_panic. Qed.

#[export] Hint Resolve validate_scalar_encodings_no_panic validate_owner_fields_no_panic validate_acl_fields_no_panic
  check_key_owners_no_panic has_no_change_flags_no_panic parse_sparse_declaration_no_panic : no_panic.

Lemma parse_primary_metadata_no_panic `{Unicode} records : parse_primary_metadata records <> Panic.
Proof.
  unfold parse_primary_metadata, validate_primary_key_registry, validate_profile_owned_primary_fields. cbv zeta.
  repeat (apply bind_no_panic; [solve [no_panic; auto with no_panic]|intros ? _]). done.
Qed.

(** ** The writer's records are read back *)
Definition portable_declaration (mode : Z) (source_os : bytes) : MetadataDeclaration := {|
  md_required_profiles := [PORTABLE_PROFILE]; md_optional_profiles := []; md_source_os := source_os;
  md_source_filesystem := ascii "unknown"; md_capture_status := Complete; md_owner_kind_posix := false;
  md_mode_origin_native := false; md_portable_mode := mode; md_portable_attributes := None |}.

(** Evaluates the first step of a sequence of checks over concrete keys. *)
Ltac run_step :=
  match goal with
  | |- mbind ?k ?e = _ =>
      match eval vm_compute in e with
      | Ok ?v => refine (eq_trans (f_equal (mbind k) (_ : e = Ok v)) _); [vm_cast_no_check (eq_refl e)|];
                 change (mbind k (Ok v)) with (k v); cbv beta
      end
  end.

Lemma is_source_os_inv value : is_source_os value = true ->
  value ∈ map ascii ["linux"; "freebsd"; "netbsd"; "openbsd"; "solaris"; "macos"; "windows"; "other-unix"; "other"].
Proof.
  unfold is_source_os, matches. intros (t & Ht & He%bytes_eqb_eq)%existsb_exists. subst. apply list_elem_of_In.
  by apply in_map.
Qed.

(** C9: The records that the writer makes for a path and a mode parse back to a
    complete declaration of the portable profile alone, with that mode, the
    path where it has an entry of its own, and a system restore exactly for
    the set-user and set-group bits. *)
Theorem portable_primary_roundtrip `{Unicode} path mode source_os path_requires_override records :
  u32 mode -> portable_primary_pax path mode source_os path_requires_override = Ok records ->
  parse_primary_metadata records = Ok {|
    pm_declaration := portable_declaration mode source_os;
    pm_path := if path_requires_override then Some path else None; pm_linkpath := None; pm_stored_size := None;
    pm_mtime := None; pm_sparse_logical_size := None; pm_has_native_scalar := false;
    pm_requires_system_restore := bit_set mode 0xC00; pm_xattr_names := [] |}.
Proof.
  intros H0 Hp. unfold portable_primary_pax in Hp. apply bind_Ok in Hp as (? & Hmode%reject_if_Ok & Hp).
  apply bind_Ok in Hp as (? & Hos%reject_if_Ok%negb_false_iff & Hp). cbv zeta in Hp.
  unfold portable_records in Hp. remember (fixed_digits 16 8 mode) as text eqn:Htext.
  unfold parse_primary_metadata, validate_primary_key_registry. cbv zeta.
  assert (forall field, parse_fixed_hex_u32 text 8 field = Ok mode) as Hhex.
  { intros field. apply (parse_fixed_hex_u32_Ok text 8); [lia|]. split; [|done].
    apply (mask_range 12) in Hmode; [|lia|done]. change (Z.ones 12) with 4095 in Hmode. cbn; lia. }
  apply is_source_os_inv in Hos. cbv [map] in Hos. clear Htext.
  repeat (apply elem_of_cons in Hos as [Hos|Hos]); [..|by apply elem_of_nil in Hos]; subst source_os;
    destruct path_requires_override; injection Hp as <-;
    (repeat lazymatch goal with
     | |- mbind _ (parse_fixed_hex_u32 text _ _) = _ => rewrite Hhex, bind_ret
     | |- mbind _ (reject_if (bit_set _ _) _) = _ => rewrite Hmode; cbn [reject_if]; rewrite bind_ret
     | |- mbind _ (if _ then _ else _) = _ => fail
     | |- _ => run_step
     end); cbn [orb existsb]; rewrite orb_false_r; by destruct (bit_set mode 0xC00).
Qed.

(** ** Concrete records *)
Section PrimaryWitnesses.
#[local] Existing Instance toy_Unicode.

Definition example_primary_records : PaxRecords :=
  fold_left (fun records r => pax_insert (ascii r.1) (ascii r.2) records)
    [("TZAP.metadata.version", "1"); ("TZAP.metadata.required-profiles", "linux-backup-v1,portable-v1,posix-backup-v1");
     ("TZAP.metadata.optional-profiles", ""); ("TZAP.metadata.source-os", "linux");
     ("TZAP.metadata.source-filesystem", "ext4"); ("TZAP.metadata.capture-status", "complete");
     ("TZAP.portable.owner-kind", "none"); ("TZAP.portable.mode-origin", "native"); ("TZAP.portable.mode", "000001a4");
     ("LIBARCHIVE.xattr.user.note", "aGVsbG8"); ("LIBARCHIVE.xattr.security.capability", "AQID"); ("size", "12")] [].

Lemma primary_metadata_typed_witness : exists p,
  parse_primary_metadata example_primary_records = Ok p
  /\ pm_xattr_names p = [ascii "security.capability"; ascii "user.note"] /\ pm_requires_system_restore p = true
  /\ primary_typed p.
Proof.
  eexists. split; [vm_compute; reflexivity|]. split; [reflexivity|]. split; [reflexivity|].
  apply (primary_metadata_typed example_primary_records). vm_compute. reflexivity.
Defined.

Lemma portable_primary_roundtrip_witness : exists records p,
  portable_primary_pax (ascii "a/b") 0x1A4 (ascii "linux") true = Ok records
  /\ parse_primary_metadata records = Ok p /\ pm_path p = Some (ascii "a/b") /\ pm_declaration p = portable_declaration 0x1A4 (ascii "linux").
Proof.
  eexists. eexists. split; [vm_compute; reflexivity|]. split.
  - apply (portable_primary_roundtrip (ascii "a/b") 0x1A4 (ascii "linux") true); [by vm_compute|vm_compute; reflexivity].
  - split; reflexivity.
Defined.
End PrimaryWitnesses.
