(* ===== verification/AuxiliaryMetadata.v ===== *)
(** * Metadata of auxiliary entries

    The auxiliary entries of a member and the checks that tie a group of
    entries together, from [crates/tzap-core/src/entry_metadata.rs]: the
    declaration of an auxiliary entry, the validator of its payload as the
    payload streams past, capture reports, and [validate_group_metadata]. *)

From Stdlib Require Import Sorting.Sorted.
From stdpp Require Import sorting.
From S2P Require Import Wire Ordering Paths TextCodecs Pax SparseMap TarHeader NativeMetadata AclText PrimaryMetadata.
#[local] Open Scope Z_scope.

Definition EXTENDED_METADATA_V1 : Z := Z.shiftl 1 0.
Definition HAS_AUXILIARY_STREAMS : Z := Z.shiftl 1 1.
Definition HAS_NATIVE_METADATA : Z := Z.shiftl 1 2.
Definition HAS_SPARSE_EXTENTS : Z := Z.shiftl 1 3.
Definition CAPTURE_PARTIAL : Z := Z.shiftl 1 4.
Definition REQUIRES_SYSTEM_RESTORE : Z := Z.shiftl 1 5.
Definition FILE_ENTRY_KNOWN_FLAGS : Z := Z.shiftl 1 6 - 1.

Definition MAX_AUXILIARY_COUNT : Z := 65535.
Definition MAX_CAPTURE_REPORT_ROWS : Z := 1048576.
Definition CAPTURE_REPORT_KIND : bytes := ascii "tzap.capture-report".

(** ** Declarations *)
Module RestoreClass.
Inductive t : Set := None | Portable | SameOs | System.

#[global] Instance t_eq_dec : EqDecision t.
Proof. solve_decision. Defined.
End RestoreClass.

Definition RestoreClass_parse (value : bytes) : fresult RestoreClass.t :=
  match List.find (fun choice => bytes_eqb value (ascii choice.1))
          [("none", RestoreClass.None); ("portable", RestoreClass.Portable);
           ("same-os", RestoreClass.SameOs); ("system", RestoreClass.System)] with
  | Some choice => Ok choice.2
  | None => invalid "AuxiliaryMetadata" "invalid restore class"
  end.

Record AuxiliaryRecord : Type := {
  ar_ordinal : Z;
  ar_kind : bytes;
  ar_profile : bytes;
  ar_restore_class : RestoreClass.t;
  ar_native : bool;
  ar_name_encoding : bytes;
  ar_decoded_name : bytes;
  ar_flags : Z;
  ar_logical_size : Z;
  ar_stored_size : Z;
  ar_sha256 : bytes;
  ar_meta : PaxRecords;
  ar_sparse_layout : option SparseLayout;
  ar_capture_report_payload : option bytes
}.

Definition is_builtin_aux_kind (value : bytes) : bool :=
  bytes_eqb value CAPTURE_REPORT_KIND
  || matches value ["windows.security-descriptor"; "windows.alternate-data"; "windows.ea-data"; "windows.reparse-data";
       "windows.object-id"; "windows.property-data"; "windows.efs-raw"; "macos.resource-fork"; "macos.acl-native";
       "macos.finder-info"; "generic.xattr"; "generic.named-fork"].

(** [decoded.chunks_exact(2).any(|unit| unit == [0, 0])] *)
Fixpoint any_zero_unit (b : bytes) : bool :=
  match b with
  | x :: y :: rest => bool_decide (x = Byte.x00 /\ y = Byte.x00) || any_zero_unit rest
  | _ => false
  end.

Definition decode_auxiliary_name `{Unicode} (encoding value : bytes) : fresult bytes :=
  if bytes_eqb encoding (ascii "none") then
    reject_if (negb (bool_decide (value = []))) (InvalidMetadata "AuxiliaryMetadata" "name is non-empty for none encoding");;
    Ok []
  else if bytes_eqb encoding (ascii "utf8") then
    reject_if (negb (utf8_valid value)) (InvalidArchive "auxiliary UTF-8 name is invalid");;
    reject_if (bool_decide (value = []) || negb (bytes_eqb (nfc value) value))
      (InvalidMetadata "AuxiliaryMetadata" "auxiliary UTF-8 name is empty or non-NFC");;
    Ok value
  else if bytes_eqb encoding (ascii "bytes-base64") then
    decoded ← canonical_base64_decode value;
    reject_if (bool_decide (decoded = [])) (InvalidMetadata "AuxiliaryMetadata" "decoded auxiliary name is empty");;
    Ok decoded
  else if bytes_eqb encoding (ascii "utf16le-base64") then
    decoded ← canonical_base64_decode value;
    reject_if (bool_decide (decoded = []) || negb (blen decoded mod 2 =? 0) || any_zero_unit decoded)
      (InvalidMetadata "AuxiliaryMetadata" "decoded UTF-16LE name is invalid");;
    Ok decoded
  else invalid "AuxiliaryMetadata" "unknown auxiliary name encoding".

(** ** Built-in kinds *)
(** The owner, restore class, native flag and name encoding that a built-in
    kind fixes; [None] for an extension kind. *)
Definition fixed_declaration (r : AuxiliaryRecord) : fresult (option (bytes * RestoreClass.t * bool * string)) :=
  let kind := ar_kind r in
  if bytes_eqb kind CAPTURE_REPORT_KIND then Ok (Some (CORE_PROFILE, RestoreClass.None, false, "none"))
  else if matches kind ["windows.security-descriptor"; "windows.reparse-data"; "windows.object-id"; "windows.efs-raw"]
  then Ok (Some (WINDOWS_PROFILE, RestoreClass.System, true, "none"))
  else if matches kind ["macos.resource-fork"; "macos.acl-native"; "macos.finder-info"]
  then Ok (Some (MACOS_PROFILE, RestoreClass.SameOs, true, "none"))
  else if matches kind ["windows.alternate-data"]
  then Ok (Some (WINDOWS_PROFILE, ar_restore_class r, true, "utf16le-base64"))
  else if matches kind ["windows.ea-data"; "windows.property-data"]
  then Ok (Some (WINDOWS_PROFILE, ar_restore_class r, true, "none"))
  else if matches kind ["generic.xattr"] then Ok (Some (ar_profile r, ar_restore_class r, true, "bytes-base64"))
  else if matches kind ["generic.named-fork"] then Ok (Some (ar_profile r, RestoreClass.SameOs, true, "bytes-base64"))
  else if has_prefix kind "x." then Ok None
  else invalid "AuxiliaryMetadata" "unknown built-in auxiliary kind".

(** The metadata fields a kind requires, with the value where it is fixed. *)
Definition required_meta (kind : bytes) : list (string * option string) :=
  if matches kind ["windows.security-descriptor"] then [("TZAP.aux.meta.security-information", None)]
  else if matches kind ["windows.reparse-data"] then [("TZAP.aux.meta.reparse-tag", None)]
  else if matches kind ["windows.alternate-data"]
  then [("TZAP.aux.meta.stream-type", Some "00000004"); ("TZAP.aux.meta.stream-attributes", None)]
  else if matches kind ["windows.ea-data"]
  then [("TZAP.aux.meta.stream-type", Some "00000002"); ("TZAP.aux.meta.stream-attributes", None)]
  else if matches kind ["windows.property-data"]
  then [("TZAP.aux.meta.stream-type", Some "00000006"); ("TZAP.aux.meta.stream-attributes", None)]
  else if matches kind ["windows.object-id"]
  then [("TZAP.aux.meta.stream-type", Some "00000007"); ("TZAP.aux.meta.stream-attributes", None)]
  else if matches kind ["windows.efs-raw"] then [("TZAP.aux.meta.efs-version", Some "1")]
  else if matches kind ["macos.acl-native"] then [("TZAP.aux.meta.acl-format", Some "darwin-acl-external-v1")]
  else [].

(** [key.ends_with("..")] *)
Definition has_suffix (key : bytes) (suffix : string) : bool :=
  (length (ascii suffix) <=? length key)%nat
  && bytes_eqb (drop (length key - length (ascii suffix)) key) (ascii suffix).

Fixpoint check_required_meta (meta : PaxRecords) (fields : list (string * option string)) : fresult unit :=
  match fields with
  | [] => Ok tt
  | (key, expected) :: fields =>
      value ← ok_or (pax_get meta (ascii key)) (InvalidArchive "required auxiliary metadata is missing");
      (match expected with
       | Some expected =>
           reject_if (negb (bytes_eqb value (ascii expected)))
             (InvalidMetadata "AuxiliaryMetadata" "auxiliary metadata value mismatch")
       | None =>
           if has_suffix (ascii key) "information" || has_suffix (ascii key) "tag" || has_suffix (ascii key) "attributes"
           then _ ← parse_fixed_hex_u32 value 8 "auxiliary metadata hexadecimal"; Ok tt
           else Ok tt
       end);;
      check_required_meta meta fields
  end.

Definition sparse_flag (r : AuxiliaryRecord) : bool := bit_set (ar_flags r) 1.

Definition validate_generic_xattr_name (r : AuxiliaryRecord) : fresult unit :=
  reject_if (existsb (bytes_eqb (ar_decoded_name r)) reserved_xattrs)
    (InvalidMetadata "AuxiliaryMetadata" "macOS resource fork or FinderInfo is encoded as a generic xattr").

Definition validate_generic_xattr_declaration (r : AuxiliaryRecord) (source_os : bytes) : fresult unit :=
  validate_generic_xattr_name r;;
  let name := ar_decoded_name r in
  let profile := xattr_owner_profile name source_os in
  let class := if system_xattr_namespace name source_os then RestoreClass.System else RestoreClass.SameOs in
  reject_if (negb (bytes_eqb (ar_profile r) profile) || negb (bool_decide (ar_restore_class r = class)))
    (InvalidMetadata "AuxiliaryMetadata" "generic xattr owner or restore class disagrees with its namespace").

(** The stream attributes of the Windows kinds agree with the declaration. *)
Definition check_stream_attributes (r : AuxiliaryRecord) : fresult unit :=
  text ← ok_or (pax_get (ar_meta r) (ascii "TZAP.aux.meta.stream-attributes"))
           (InvalidArchive "Windows stream attributes are missing");
  attributes ← parse_fixed_hex_u32 text 8 "Windows stream attributes";
  let expected_class :=
    if matches (ar_kind r) ["windows.object-id"] || bit_set attributes 0x00000002
    then RestoreClass.System else RestoreClass.SameOs in
  reject_if (negb (bool_decide (ar_restore_class r = expected_class)))
    (InvalidMetadata "AuxiliaryMetadata" "Windows stream restore class disagrees with stream attributes");;
  reject_if (negb (Bool.eqb (bit_set attributes 0x00000008) (sparse_flag r)))
    (InvalidMetadata "AuxiliaryMetadata" "Windows sparse stream attribute disagrees with sparse framing").

Definition validate_builtin_auxiliary (r : AuxiliaryRecord) : fresult unit :=
  let kind := ar_kind r in
  fixed ← fixed_declaration r;
  (match fixed with
   | Some (profile, class, native, encoding) =>
       reject_if (negb (bytes_eqb (ar_profile r) profile) || negb (bool_decide (ar_restore_class r = class))
                  || negb (Bool.eqb (ar_native r) native) || negb (bytes_eqb (ar_name_encoding r) (ascii encoding)))
         (InvalidMetadata "AuxiliaryMetadata" "built-in auxiliary declaration mismatch")
   | None => Ok tt
   end);;
  reject_if (negb (has_prefix kind "x.") && negb (matches kind ["generic.xattr"; "generic.named-fork"])
             && negb (length (ar_meta r) =? length (required_meta kind))%nat)
    (InvalidMetadata "AuxiliaryMetadata" "unexpected built-in auxiliary metadata field");;
  check_required_meta (ar_meta r) (required_meta kind);;
  (if matches kind ["windows.alternate-data"; "windows.ea-data"; "windows.property-data"; "windows.object-id"]
   then check_stream_attributes r else Ok tt);;
  (if matches kind ["windows.alternate-data"] then validate_windows_stream_name (ar_decoded_name r) else Ok tt);;
  (if matches kind ["generic.xattr"] then validate_generic_xattr_name r else Ok tt);;
  reject_if (sparse_flag r
             && (bytes_eqb kind CAPTURE_REPORT_KIND
                 || matches kind ["windows.security-descriptor"; "windows.ea-data"; "windows.reparse-data"; "windows.object-id";
                      "windows.property-data"; "windows.efs-raw"; "macos.acl-native"; "macos.finder-info"]))
    (InvalidMetadata "AuxiliaryMetadata" "auxiliary kind cannot use sparse framing").

Definition retained_auxiliary_cap (kind : bytes) : Z :=
  if bytes_eqb kind CAPTURE_REPORT_KIND || matches kind ["windows.ea-data"] then MAX_LOCAL_PAX_PAYLOAD
  else if matches kind ["windows.security-descriptor"] then 256 * 1024
  else if matches kind ["windows.reparse-data"] then 16 * 1024
  else if matches kind ["windows.object-id"; "macos.finder-info"] then 64
  else if matches kind ["macos.acl-native"] then 40 + 128 * 28
  else 0.

Definition retained_len (retained : option bytes) : Z := match retained with Some b => blen b | None => 0 end.

Definition validate_builtin_auxiliary_payload (r : AuxiliaryRecord) (retained : option bytes) : fresult unit :=
  let kind := ar_kind r in
  if bytes_eqb kind CAPTURE_REPORT_KIND && (MAX_LOCAL_PAX_PAYLOAD <? ar_stored_size r) then
    Err (ReaderResourceLimitExceeded "capture report payload bytes" MAX_LOCAL_PAX_PAYLOAD (ar_stored_size r))
  else if matches kind ["windows.security-descriptor"] then
    text ← ok_or (pax_get (ar_meta r) (ascii "TZAP.aux.meta.security-information"))
             (InvalidArchive "security-information mask is missing");
    security_information ← parse_fixed_hex_u32 text 8 "security-information mask";
    payload ← ok_or retained (InvalidArchive "security descriptor payload was not retained");
    validate_self_relative_security_descriptor payload security_information
  else if matches kind ["windows.reparse-data"] then
    text ← ok_or (pax_get (ar_meta r) (ascii "TZAP.aux.meta.reparse-tag")) (InvalidArchive "reparse tag is missing");
    expected_tag ← parse_fixed_hex_u32 text 8 "reparse tag";
    payload ← ok_or retained (InvalidArchive "reparse payload was not retained");
    validate_reparse_buffer payload expected_tag
  else if matches kind ["windows.ea-data"] then
    payload ← ok_or retained (InvalidArchive "EA payload was not retained");
    validate_windows_ea_stream payload
  else if matches kind ["windows.object-id"] && negb (retained_len retained =? 64) then
    invalid "AuxiliaryMetadata" "Windows object ID payload is not 64 bytes"
  else if matches kind ["macos.finder-info"] && negb (retained_len retained =? 32) then
    invalid "AuxiliaryMetadata" "FinderInfo payload is not 32 bytes"
  else if matches kind ["macos.acl-native"] then
    payload ← ok_or retained (InvalidArchive "macOS ACL payload was not retained");
    validate_darwin_acl_external payload
  else Ok tt.

(** ** The declaration of an auxiliary entry *)
Definition auxiliary_keys : list string :=
  ["TZAP.aux.version"; "TZAP.aux.kind"; "TZAP.aux.profile"; "TZAP.aux.restore-class"; "TZAP.aux.native";
   "TZAP.aux.name-encoding"; "TZAP.aux.name"; "TZAP.aux.flags"; "TZAP.aux.logical-size"; "TZAP.aux.sha256"; "size"].

Definition META_PREFIX : string := "TZAP.aux.meta.".

Definition auxiliary_key_allowed (key : bytes) : bool := matches key auxiliary_keys || has_prefix key META_PREFIX.

(** [&key["TZAP.aux.meta.".len()..]] *)
Definition meta_suffix (key : bytes) : bytes := drop 14 key.

Fixpoint meta_loop (records : PaxRecords) (meta : PaxRecords) : fresult PaxRecords :=
  match records with
  | [] => Ok meta
  | (key, value) :: records =>
      if has_prefix key META_PREFIX then
        reject_if (negb (valid_profile_token (meta_suffix key)))
          (InvalidMetadata "AuxiliaryMetadata" "invalid auxiliary metadata field name");;
        meta_loop records (pax_insert key value meta)
      else meta_loop records meta
  end.

Definition parse_native_flag (value : bytes) : fresult bool :=
  if bytes_eqb value (ascii "0") then Ok false
  else if bytes_eqb value (ascii "1") then Ok true
  else invalid "AuxiliaryMetadata" "invalid auxiliary native flag".

Definition parse_auxiliary_declaration `{Unicode} (records : PaxRecords) (ordinal stored_size : Z) : fresult AuxiliaryRecord :=
  expect_value records "TZAP.aux.version" (ascii "1") "AuxiliaryMetadata";;
  reject_if (existsb (fun r => negb (auxiliary_key_allowed r.1)) records)
    (InvalidMetadata "AuxiliaryMetadata" "unregistered auxiliary PAX key");;
  kind_text ← required records "TZAP.aux.kind";
  kind ← ascii_string kind_text "auxiliary kind";
  reject_if (negb (valid_profile_token kind) || negb (is_builtin_aux_kind kind || has_prefix kind "x." && (2 <? blen kind)))
    (InvalidMetadata "AuxiliaryMetadata" "invalid auxiliary kind");;
  profile_text ← required records "TZAP.aux.profile";
  profile ← ascii_string profile_text "auxiliary profile";
  reject_if (negb (bytes_eqb profile CORE_PROFILE) && negb (is_valid_profile_id profile))
    (InvalidMetadata "AuxiliaryMetadata" "invalid auxiliary owner profile");;
  class_text ← required records "TZAP.aux.restore-class";
  restore_class ← RestoreClass_parse class_text;
  native_text ← required records "TZAP.aux.native";
  native ← parse_native_flag native_text;
  encoding_text ← required records "TZAP.aux.name-encoding";
  name_encoding ← ascii_string encoding_text "auxiliary name encoding";
  name_text ← required records "TZAP.aux.name";
  decoded_name ← decode_auxiliary_name name_encoding name_text;
  reject_if (MAX_AUXILIARY_NAME_LEN <? blen decoded_name)
    (ReaderResourceLimitExceeded "decoded auxiliary name bytes" MAX_AUXILIARY_NAME_LEN (blen decoded_name));;
  flags_text ← required records "TZAP.aux.flags";
  flags ← parse_fixed_hex_u64 flags_text 16 "auxiliary flags";
  reject_if (negb (has_prefix kind "x.") && bit_set flags (unot 64 1))
    (InvalidMetadata "AuxiliaryMetadata" "built-in auxiliary flags have reserved bits");;
  logical_text ← required records "TZAP.aux.logical-size";
  logical_size ← parse_decimal_u64 logical_text "auxiliary logical size";
  (match pax_get records (ascii "size") with
   | Some size =>
       n ← parse_decimal_u64 size "auxiliary PAX size";
       reject_if (negb (n =? stored_size))
         (InvalidMetadata "AuxiliaryMetadata" "PAX size does not match auxiliary stored size")
   | None => Ok tt
   end);;
  sha_text ← required records "TZAP.aux.sha256";
  sha ← parse_fixed_hex_32 sha_text;
  reject_if (negb (bit_set flags 1) && negb (logical_size =? stored_size))
    (InvalidMetadata "AuxiliaryMetadata" "non-sparse logical and stored sizes differ");;
  meta ← meta_loop records [];
  let record := {|
    ar_ordinal := ordinal; ar_kind := kind; ar_profile := profile; ar_restore_class := restore_class;
    ar_native := native; ar_name_encoding := name_encoding; ar_decoded_name := decoded_name; ar_flags := flags;
    ar_logical_size := logical_size; ar_stored_size := stored_size; ar_sha256 := sha; ar_meta := meta;
    ar_sparse_layout := None; ar_capture_report_payload := None |} in
  validate_builtin_auxiliary record;;
  mret record.

Definition parse_auxiliary_declaration_for_writer `{Unicode} (records : PaxRecords) (ordinal stored_size : Z)
    : fresult AuxiliaryRecord :=
  parse_auxiliary_declaration records ordinal stored_size.

(** ** The payload as a stream *)
(** The state of the hasher is the text it has been given. *)
Record AuxiliaryStreamValidator : Type := {
  av_record : AuxiliaryRecord;
  av_hasher : bytes;
  av_received : Z;
  av_sparse : option SparseStreamValidator;
  av_retained : option bytes;
  av_retained_cap : Z
}.

Definition AuxiliaryStreamValidator_new `{Unicode} (records : PaxRecords) (ordinal stored_size : Z)
    : fresult AuxiliaryStreamValidator :=
  record ← parse_auxiliary_declaration records ordinal stored_size;
  let sparse := if sparse_flag record then Some (SparseStreamValidator_new (ar_logical_size record)) else None in
  let retained_cap := retained_auxiliary_cap (ar_kind record) in
  let retained := if negb (retained_cap =? 0) then Some [] else None in
  mret {| av_record := record; av_hasher := []; av_received := 0; av_sparse := sparse; av_retained := retained;
          av_retained_cap := retained_cap |}.

Definition observe_sparse (sparse : option SparseStreamValidator) (b : bytes) : fresult (option SparseStreamValidator) :=
  match sparse with
  | Some s => Some <$> SparseStreamValidator_observe s b
  | None => Ok None
  end.

Definition observe_retained (retained : option bytes) (cap : Z) (b : bytes) : fresult (option bytes) :=
  match retained with
  | Some kept =>
      next ← ok_or (checked_add 64 (blen kept) (blen b)) (InvalidArchive "auxiliary retention size overflow");
      reject_if (cap <? next) (ReaderResourceLimitExceeded "structured auxiliary payload bytes" cap next);;
      Ok (Some (kept ++ b))
  | None => Ok None
  end.

Definition AuxiliaryStreamValidator_observe (self : AuxiliaryStreamValidator) (b : bytes) : fresult AuxiliaryStreamValidator :=
  received ← ok_or (checked_add 64 (av_received self) (blen b)) (InvalidArchive "auxiliary payload size overflow");
  reject_if (ar_stored_size (av_record self) <? received)
    (InvalidMetadata "AuxiliaryMetadata" "auxiliary payload exceeds declared size");;
  sparse ← observe_sparse (av_sparse self) b;
  retained ← observe_retained (av_retained self) (av_retained_cap self) b;
  mret {| av_record := av_record self; av_hasher := av_hasher self ++ b; av_received := received; av_sparse := sparse;
          av_retained := retained; av_retained_cap := av_retained_cap self |}.

Definition with_payload (r : AuxiliaryRecord) (layout : option SparseLayout) (retained : option bytes) : AuxiliaryRecord := {|
  ar_ordinal := ar_ordinal r; ar_kind := ar_kind r; ar_profile := ar_profile r; ar_restore_class := ar_restore_class r;
  ar_native := ar_native r; ar_name_encoding := ar_name_encoding r; ar_decoded_name := ar_decoded_name r;
  ar_flags := ar_flags r; ar_logical_size := ar_logical_size r; ar_stored_size := ar_stored_size r;
  ar_sha256 := ar_sha256 r; ar_meta := ar_meta r; ar_sparse_layout := layout; ar_capture_report_payload := retained |}.

Definition AuxiliaryStreamValidator_finish `{Sha256} (self : AuxiliaryStreamValidator) : fresult AuxiliaryRecord :=
  reject_if (negb (av_received self =? ar_stored_size (av_record self)))
    (InvalidMetadata "AuxiliaryMetadata" "auxiliary payload length mismatch");;
  reject_if (negb (bytes_eqb (sha256 (av_hasher self)) (ar_sha256 (av_record self))))
    (InvalidMetadata "AuxiliaryMetadata" "auxiliary payload SHA-256 mismatch");;
  layout ← (match av_sparse self with
            | Some s => Some <$> SparseStreamValidator_finish s
            | None => Ok None
            end);
  let record := with_payload (av_record self) layout (av_retained self) in
  validate_builtin_auxiliary_payload record (av_retained self);;
  mret record.

Definition parse_auxiliary_record `{Unicode, Sha256} (records : PaxRecords) (ordinal stored_size : Z) (payload : bytes)
    : fresult AuxiliaryRecord :=
  validator ← AuxiliaryStreamValidator_new records ordinal stored_size;
  validator ← AuxiliaryStreamValidator_observe validator payload;
  AuxiliaryStreamValidator_finish validator.

(** ** Capture reports *)
Record CaptureReportRow : Type := {
  cr_profile : bytes;
  cr_metadata_class : bytes;
  cr_reason : bytes;
  cr_encoded_detail : bytes
}.

Definition TAB : Byte.byte := Byte.x09.

Definition unreserved (x : Byte.byte) : bool :=
  is_ascii_alphanumeric x || bool_decide (x ∈ [DOT; Byte.x5f; Byte.x7e; MINUS]).

(** The bytes that a percent-encoded text stands for, where it is canonical. *)
Fixpoint decode_detail (value : bytes) : option bytes :=
  match value with
  | [] => Some []
  | x :: rest =>
      if unreserved x then cons x <$> decode_detail rest
      else if bool_decide (x = PERCENT) then
        match rest with
        | h :: l :: rest =>
            if is_upper_hex h && is_upper_hex l then
              let byte := byte.of_Z (hex_nibble h * 16 + hex_nibble l) in
              if unreserved byte then None else cons byte <$> decode_detail rest
            else None
        | _ => None
        end
      else None
  end.

Definition valid_percent_encoded_detail (value : bytes) : bool :=
  match decode_detail value with
  | Some decoded => utf8_valid decoded
  | None => false
  end.

Definition REPORT_HEADER : bytes := ascii "tzap-capture-report-v1" ++ [NEWLINE].

(** [text.split_terminator('\n')] *)
Definition split_terminator (sep : Byte.byte) (b : bytes) : list bytes :=
  let pieces := split sep b in
  if bool_decide (last pieces = Some []) then removelast pieces else pieces.

Definition report_reasons : list string :=
  ["excluded-policy"; "unsupported-host"; "unsupported-filesystem"; "permission-denied"; "changed-during-read";
   "limit-exceeded"; "io-error"; "invalid-source-metadata"].

Definition parse_report_row (declaration : MetadataDeclaration) (line : bytes) : fresult CaptureReportRow :=
  let fields := split TAB line in
  let profile := nth 0 fields [] in
  let metadata_class := nth 1 fields [] in
  let reason := nth 2 fields [] in
  let encoded_detail := nth 3 fields [] in
  reject_if ((4 <? length fields)%nat
             || negb (MetadataDeclaration_profile_selected declaration profile)
             || negb (valid_profile_token metadata_class)
             || negb (matches reason report_reasons)
             || negb (valid_percent_encoded_detail encoded_detail))
    (InvalidMetadata "CaptureReport" "invalid row");;
  mret {| cr_profile := profile; cr_metadata_class := metadata_class; cr_reason := reason;
          cr_encoded_detail := encoded_detail |}.

Fixpoint report_loop (declaration : MetadataDeclaration) (lines : list bytes) (previous : option bytes)
    (rows : list CaptureReportRow) : fresult (list CaptureReportRow) :=
  match lines with
  | [] => Ok rows
  | line :: lines =>
      reject_if (bool_decide (line = [])) (InvalidMetadata "CaptureReport" "empty row");;
      let count := Z.of_nat (length rows) in
      reject_if (MAX_CAPTURE_REPORT_ROWS <=? count)
        (ReaderResourceLimitExceeded "capture report rows" MAX_CAPTURE_REPORT_ROWS (count + 1));;
      reject_if (match previous with Some value => leb line value | None => false end)
        (InvalidMetadata "CaptureReport" "rows are not strictly sorted and unique");;
      row ← parse_report_row declaration line;
      report_loop declaration lines (Some line) (rows ++ [row])
  end.

Definition parse_capture_report (payload : bytes) (declaration : MetadataDeclaration) : fresult (list CaptureReportRow) :=
  reject_if (MAX_LOCAL_PAX_PAYLOAD <? blen payload)
    (ReaderResourceLimitExceeded "capture report payload bytes" MAX_LOCAL_PAX_PAYLOAD (blen payload));;
  reject_if (negb (utf8_valid payload)) (InvalidArchive "capture report is not UTF-8");;
  reject_if (negb (starts_with payload REPORT_HEADER) || negb (ends_with_byte NEWLINE payload))
    (InvalidMetadata "CaptureReport" "invalid framing");;
  rows ← report_loop declaration (split_terminator NEWLINE (drop (length REPORT_HEADER) payload)) None [];
  reject_if (bool_decide (length rows = 0%nat)) (InvalidMetadata "CaptureReport" "report has no rows");;
  mret rows.

(** ** The group of a member *)
(** [record.profile\0record.kind\0record.decoded_name], the profile only for
    extension kinds. *)
Definition identity (r : AuxiliaryRecord) : bytes :=
  (if has_prefix (ar_kind r) "x." then ar_profile r ++ Byte.x00 :: ar_kind r ++ [Byte.x00]
   else ar_kind r ++ [Byte.x00]) ++ ar_decoded_name r.

Definition is_report (r : AuxiliaryRecord) : bool := bytes_eqb (ar_kind r) CAPTURE_REPORT_KIND.

Fixpoint group_loop (primary : PrimaryMetadata) (capture_report : option (list CaptureReportRow)) (auxiliary : list AuxiliaryRecord)
    (identities : list bytes) : fresult (list bytes) :=
  match auxiliary with
  | [] => Ok identities
  | r :: auxiliary =>
      (if is_report r then
         reject_if (bool_decide (is_Some capture_report)) (InvalidMetadata "MemberGroup" "duplicate capture report");;
         reject_if (negb (bytes_eqb (ar_profile r) CORE_PROFILE))
           (InvalidMetadata "MemberGroup" "capture report owner is not tzap-core-v1")
       else
         reject_if (negb (MetadataDeclaration_profile_selected (pm_declaration primary) (ar_profile r)))
           (InvalidMetadata "MemberGroup" "auxiliary owner profile is not selected"));;
      (if matches (ar_kind r) ["generic.xattr"]
       then validate_generic_xattr_declaration r (md_source_os (pm_declaration primary)) else Ok tt);;
      reject_if (bool_decide (identity r ∈ identities)) (InvalidMetadata "MemberGroup" "duplicate auxiliary identity");;
      group_loop primary capture_report auxiliary (set_insert (identity r) identities)
  end.

Definition non_canonical_report (r : AuxiliaryRecord) : bool :=
  negb (ar_flags r =? 0) || negb (bytes_eqb (ar_profile r) CORE_PROFILE)
  || negb (bool_decide (ar_restore_class r = RestoreClass.None)) || ar_native r
  || negb (bytes_eqb (ar_name_encoding r) (ascii "none")) || negb (bool_decide (ar_decoded_name r = [])).

(** [if c { flags |= flag }] *)
Definition raise (c : bool) (flag flags : Z) : Z := if c then Z.lor flags flag else flags.

Definition group_flags (primary : PrimaryMetadata) (auxiliary : list AuxiliaryRecord) : Z :=
  let declaration := pm_declaration primary in
  let flags := EXTENDED_METADATA_V1 in
  let flags := raise (negb (bool_decide (auxiliary = []))) HAS_AUXILIARY_STREAMS flags in
  let flags := raise (negb (bool_decide (md_required_profiles declaration = [PORTABLE_PROFILE]))
                      || negb (bool_decide (md_optional_profiles declaration = []))
                      || pm_has_native_scalar primary || existsb ar_native auxiliary) HAS_NATIVE_METADATA flags in
  let flags := raise (bool_decide (is_Some (pm_sparse_logical_size primary)) || existsb sparse_flag auxiliary)
                 HAS_SPARSE_EXTENTS flags in
  let flags := raise (bool_decide (md_capture_status declaration = Partial)) CAPTURE_PARTIAL flags in
  raise (pm_requires_system_restore primary
         || existsb (fun r => bool_decide (ar_restore_class r = RestoreClass.System)) auxiliary) REQUIRES_SYSTEM_RESTORE flags.

Definition validate_group_metadata (primary : PrimaryMetadata) (auxiliary : list AuxiliaryRecord)
    : fresult (Z * option (list CaptureReportRow)) :=
  let count := Z.of_nat (length auxiliary) in
  reject_if (MAX_AUXILIARY_COUNT <? count)
    (ReaderResourceLimitExceeded "auxiliary record count" MAX_AUXILIARY_COUNT count);;
  let capture_report := None in
  identities ← group_loop primary capture_report auxiliary [];
  let report_records := filter (fun r => is_report r = true) auxiliary in
  (match md_capture_status (pm_declaration primary) with
   | Complete => reject_if (negb (length report_records =? 0)%nat)
                   (InvalidMetadata "MemberGroup" "complete capture has a capture report")
   | Partial => reject_if (negb (length report_records =? 1)%nat)
                  (InvalidMetadata "MemberGroup" "partial capture requires one capture report")
   end);;
  capture_report ←
    (match head report_records with
     | Some r =>
         payload ← ok_or (ar_capture_report_payload r) (InvalidArchive "capture report payload is missing");
         rows ← parse_capture_report payload (pm_declaration primary);
         reject_if (non_canonical_report r) (InvalidMetadata "MemberGroup" "capture report declaration is not canonical");;
         Ok (Some rows)
     | None => Ok capture_report
     end);
  mret (group_flags primary auxiliary, capture_report).

(** ** What a declaration promises *)
Record auxiliary_typed (stored_size : Z) (r : AuxiliaryRecord) : Prop := {
  at_stored : ar_stored_size r = stored_size;
  at_logical : u64 (ar_logical_size r);
  at_plain : sparse_flag r = false -> ar_logical_size r = stored_size;
  at_flags : u64 (ar_flags r) /\ (has_prefix (ar_kind r) "x." = false -> 0 <= ar_flags r <= 1);
  at_kind : valid_profile_token (ar_kind r) = true;
  at_profile : ar_profile r = CORE_PROFILE \/ is_valid_profile_id (ar_profile r) = true;
  at_name : blen (ar_decoded_name r) <= MAX_AUXILIARY_NAME_LEN;
  at_sha : length (ar_sha256 r) = 32%nat;
  at_builtin : validate_builtin_auxiliary r = Ok tt;
  at_payload : ar_sparse_layout r = None /\ ar_capture_report_payload r = None
}.

Lemma parse_auxiliary_declaration_typed `{Unicode} records ordinal stored_size r :
  parse_auxiliary_declaration records ordinal stored_size = Ok r -> auxiliary_typed stored_size r.
Proof.
  unfold parse_auxiliary_declaration. intros Hp.
  apply bind_Ok in Hp as (? & _ & Hp). apply bind_Ok in Hp as (? & _ & Hp).
  apply bind_Ok in Hp as (? & _ & Hp). apply bind_Ok in Hp as (kind & _ & Hp). apply bind_Ok in Hp as (? & Hkind%reject_if_Ok & Hp).
  apply bind_Ok in Hp as (? & _ & Hp). apply bind_Ok in Hp as (profile & _ & Hp). apply bind_Ok in Hp as (? & Hprofile%reject_if_Ok & Hp).
  apply bind_Ok in Hp as (? & _ & Hp). apply bind_Ok in Hp as (class & _ & Hp).
  apply bind_Ok in Hp as (? & _ & Hp). apply bind_Ok in Hp as (native & _ & Hp).
  apply bind_Ok in Hp as (? & _ & Hp). apply bind_Ok in Hp as (encoding & _ & Hp).
  apply bind_Ok in Hp as (? & _ & Hp). apply bind_Ok in Hp as (name & _ & Hp). apply bind_Ok in Hp as (? & Hname%reject_if_Ok%Z.ltb_ge & Hp).
  apply bind_Ok in Hp as (? & _ & Hp). apply bind_Ok in Hp as (flags & Hflags & Hp). apply bind_Ok in Hp as (? & Hmask%reject_if_Ok & Hp).
  apply (parse_fixed_hex_u64_Ok _ 16) in Hflags as [Hflags _]; [|lia].
  apply bind_Ok in Hp as (? & _ & Hp). apply bind_Ok in Hp as (logical & Hlogical%parse_decimal_u64_Ok & Hp).
  apply bind_Ok in Hp as (? & _ & Hp). apply bind_Ok in Hp as (? & _ & Hp).
  apply bind_Ok in Hp as (sha & Hsha%parse_fixed_hex_32_Ok & Hp). apply bind_Ok in Hp as (? & Hplain%reject_if_Ok & Hp).
  apply bind_Ok in Hp as (meta & _ & Hp). cbv zeta in Hp. apply bind_Ok in Hp as ([] & Hb & [= <-]).
  assert (u64 flags) as Hf by (change (16 ^ Z.of_nat 16) with (2 ^ 64) in Hflags; by unfold fits).
  split; cbn; try done.
  - by destruct Hlogical.
  - intros Hs. unfold sparse_flag in Hs. cbn in Hs. rewrite Hs in Hplain. cbn in Hplain.
    by apply negb_false_iff, Z.eqb_eq in Hplain.
  - split; [done|]. intros Hx. rewrite Hx in Hmask. cbn [negb andb] in Hmask. unfold bit_set in Hmask.
    apply negb_false_iff, Z.eqb_eq in Hmask. apply (land_unot_low 64 1) in Hmask; [unfold fits in Hf; lia|done|lia].
  - apply orb_false_iff in Hkind as [Hk _]. by apply negb_false_iff in Hk.
  - apply andb_false_iff in Hprofile as [Hq|Hq]; apply negb_false_iff in Hq; [left; by apply bytes_eqb_eq|by right].
  - by destruct Hsha.
Qed.

(** ** The stream of a payload *)
Section Stream.
Context `{Unicode, Sha256}.

(** Chunks as they arrive. *)
Fixpoint observe_payload (self : AuxiliaryStreamValidator) (chunks : list bytes) : fresult AuxiliaryStreamValidator :=
  match chunks with
  | [] => Ok self
  | chunk :: chunks => self ← AuxiliaryStreamValidator_observe self chunk; observe_payload self chunks
  end.

Definition initial_sparse (d : AuxiliaryRecord) : option SparseStreamValidator :=
  if sparse_flag d then Some (SparseStreamValidator_new (ar_logical_size d)) else None.

(** What the validator keeps of a payload. *)
Definition kept_payload (d : AuxiliaryRecord) (payload : bytes) : option bytes :=
  if retained_auxiliary_cap (ar_kind d) =? 0 then None else Some payload.

Definition within_cap (d : AuxiliaryRecord) (payload : bytes) : Prop :=
  retained_auxiliary_cap (ar_kind d) = 0 \/ blen payload <= retained_auxiliary_cap (ar_kind d).

(** The validator of [d] after it has seen the bytes [payload]. *)
Definition after (d : AuxiliaryRecord) (payload : bytes) (v : AuxiliaryStreamValidator) : Prop :=
  blen payload <= ar_stored_size d /\ within_cap d payload
  /\ exists sparse, observe_sparse (initial_sparse d) payload = Ok sparse
     /\ v = {| av_record := d; av_hasher := payload; av_received := blen payload; av_sparse := sparse;
               av_retained := kept_payload d payload; av_retained_cap := retained_auxiliary_cap (ar_kind d) |}.

Lemma observe_sparse_app sparse a b :
  observe_sparse sparse (a ++ b) = (sparse ← observe_sparse sparse a; observe_sparse sparse b).
Proof.
  destruct sparse as [s|]; [|done]. cbn [observe_sparse]. rewrite SparseStreamValidator_observe_app.
  by destruct (SparseStreamValidator_observe s a).
Qed.

Lemma retained_cap_range kind : 0 <= retained_auxiliary_cap kind <= MAX_LOCAL_PAX_PAYLOAD.
Proof. unfold retained_auxiliary_cap, MAX_LOCAL_PAX_PAYLOAD. repeat case_match; lia. Qed.

Lemma observe_retained_Ok d a b r :
  within_cap d a ->
  observe_retained (kept_payload d a) (retained_auxiliary_cap (ar_kind d)) b = Ok r
  <-> within_cap d (a ++ b) /\ r = kept_payload d (a ++ b).
Proof.
  pose proof (retained_cap_range (ar_kind d)) as Hr. unfold within_cap, kept_payload. intros Ha.
  destruct (retained_auxiliary_cap (ar_kind d) =? 0) eqn:E; cbn [observe_retained].
  - apply Z.eqb_eq in E. naive_solver.
  - apply Z.eqb_neq in E. unfold MAX_LOCAL_PAX_PAYLOAD in Hr. rewrite blen_app. split.
    + intros Hb. apply bind_Ok in Hb as (n & [_ ->]%ok_or_Ok%checked_add_Some & Hb).
      apply bind_Ok in Hb as (? & Hc%reject_if_Ok%Z.ltb_ge & [= <-]). split; [right; lia|done].
    + intros [Hw ->]. rewrite checked_add_eq by lia. cbn [ok_or]. rewrite bind_ret.
      rewrite reject_if_false by (apply Z.ltb_ge; lia). done.
Qed.

Lemma observe_after d a v b w :
  u64 (ar_stored_size d) -> after d a v -> AuxiliaryStreamValidator_observe v b = Ok w <-> after d (a ++ b) w.
Proof.
  intros Hs (Hl & Hw & sparse & Hsp & ->). unfold AuxiliaryStreamValidator_observe, after.
  cbn [av_record av_hasher av_received av_sparse av_retained av_retained_cap]. rewrite observe_sparse_app, Hsp, bind_ret, blen_app.
  unfold fits in Hs. split.
  - intros Hv. apply bind_Ok in Hv as (n & [_ ->]%ok_or_Ok%checked_add_Some & Hv).
    apply bind_Ok in Hv as (? & Hc%reject_if_Ok%Z.ltb_ge & Hv). apply bind_Ok in Hv as (sp & Hsp' & Hv).
    apply bind_Ok in Hv as (rt & Hrt & [= <-]). apply observe_retained_Ok in Hrt as [Hw' ->]; [|done].
    split; [done|]. split; [done|]. by exists sp.
  - intros (Hl' & Hw' & sp & Hsp' & ->). rewrite checked_add_eq by lia. cbn [ok_or]. rewrite bind_ret.
    rewrite reject_if_false by (apply Z.ltb_ge; lia). rewrite bind_ret, Hsp', bind_ret.
    rewrite (proj2 (observe_retained_Ok d a b _ Hw) (conj Hw' eq_refl)). done.
Qed.

Lemma after_prefix d a b w : after d (a ++ b) w -> exists v, after d a v.
Proof.
  intros (Hl & Hw & sp & Hsp & _). rewrite observe_sparse_app in Hsp. apply bind_Ok in Hsp as (sp' & Hsp' & _).
  rewrite blen_app in Hl. pose proof (blen_nonneg b). eexists. split; [lia|]. split; [|by exists sp'].
  unfold within_cap in *. rewrite blen_app in Hw. lia.
Qed.

Lemma observe_payload_after d a v chunks w :
  u64 (ar_stored_size d) -> after d a v -> observe_payload v chunks = Ok w <-> after d (a ++ concat chunks) w.
Proof.
  intros Hs. revert a v. induction chunks as [|c chunks IH]; intros a v Hv; cbn [observe_payload concat].
  - rewrite app_nil_r. split; [by intros [= <-]|]. intros Hw. destruct Hv as (_ & _ & sp & E & ->).
    destruct Hw as (_ & _ & sp' & E' & ->). rewrite E in E'. by injection E' as <-.
  - rewrite bind_Ok, app_assoc. split.
    + intros (v' & Hv' & Hw). apply (observe_after d a) in Hv'; [|done..]. by apply (IH (a ++ c)) in Hw.
    + intros Hw. destruct (after_prefix _ _ _ _ Hw) as [v' Hv']. exists v'. split; [by apply (observe_after d a)|].
      by apply (IH (a ++ c)).
Qed.

Lemma new_after records ordinal stored_size v :
  u64 stored_size ->
  AuxiliaryStreamValidator_new records ordinal stored_size = Ok v
  <-> exists d, parse_auxiliary_declaration records ordinal stored_size = Ok d /\ after d [] v.
Proof.
  intros Hs. unfold AuxiliaryStreamValidator_new. rewrite bind_Ok. split.
  - intros (d & Hd & [= <-]). exists d. split; [done|]. apply parse_auxiliary_declaration_typed in Hd as Ht.
    destruct Ht as [Hst _ _ _ _ _ _ _ _ _]. unfold after, within_cap, kept_payload. rewrite Hst. unfold fits in Hs.
    pose proof (retained_cap_range (ar_kind d)). change (blen []) with 0. split; [lia|]. split; [right; lia|].
    exists (initial_sparse d). split; [by unfold initial_sparse; case_match|].
    by destruct (retained_auxiliary_cap (ar_kind d) =? 0).
  - intros (d & Hd & _ & _ & sp & Hsp & ->). exists d. split; [done|]. unfold kept_payload.
    assert (sp = initial_sparse d) as -> by (unfold initial_sparse in *; case_match; by injection Hsp as <-).
    unfold initial_sparse. by destruct (retained_auxiliary_cap (ar_kind d) =? 0).
Qed.

(** What the whole payload must be for a declaration [d], and the record that
    results. *)
Definition payload_accepted (d : AuxiliaryRecord) (payload : bytes) (r : AuxiliaryRecord) : Prop :=
  blen payload = ar_stored_size d /\ sha256 payload = ar_sha256 d /\ within_cap d payload
  /\ exists layout,
       (if sparse_flag d
        then exists l, layout = Some l /\ parse_sparse_payload payload (ar_logical_size d) = Ok l
        else layout = None)
       /\ r = with_payload d layout (kept_payload d payload)
       /\ validate_builtin_auxiliary_payload r (kept_payload d payload) = Ok tt.

Lemma finish_Ok d chunks r :
  u64 (ar_stored_size d) -> u64 (ar_logical_size d) -> blen (concat chunks) < 2 ^ 63 ->
  (exists w, after d (concat chunks) w /\ AuxiliaryStreamValidator_finish w = Ok r)
  <-> payload_accepted d (concat chunks) r.
Proof.
  intros Hs Hlog Hlen. pose proof (fun layout => sparse_readers_agree chunks (ar_logical_size d) layout Hlen Hlog) as Hagree.
  rewrite observe_chunks_concat in Hagree. unfold payload_accepted, after, initial_sparse. split.
  - intros (w & (_ & Hw & sp & Hsp & ->) & Hf). unfold AuxiliaryStreamValidator_finish in Hf.
    cbn [av_record av_hasher av_received av_sparse av_retained] in Hf.
    apply bind_Ok in Hf as (? & Hl%reject_if_Ok%negb_false_iff%Z.eqb_eq & Hf).
    apply bind_Ok in Hf as (? & Hsha%reject_if_Ok%negb_false_iff%bytes_eqb_eq & Hf).
    apply bind_Ok in Hf as (layout & Hlayout & Hf). apply bind_Ok in Hf as ([] & Hb & [= <-]).
    split; [done|]. split; [done|]. split; [done|]. exists layout. split; [|done].
    destruct (sparse_flag d); cbn [observe_sparse] in Hsp.
    + destruct (SparseStreamValidator_observe _ _) as [s| |] eqn:E; [|done..]. cbn in Hsp. injection Hsp as <-.
      destruct (SparseStreamValidator_finish s) as [l| |] eqn:El; [|done..]. cbn in Hlayout. injection Hlayout as <-.
      exists l. split; [done|]. apply Hagree. by rewrite bind_ret.
    + injection Hsp as <-. by injection Hlayout as <-.
  - intros (Hl & Hsha & Hw & layout & Hlayout & -> & Hb).
    assert (exists sp, observe_sparse (if sparse_flag d then Some (SparseStreamValidator_new (ar_logical_size d)) else None) (concat chunks) = Ok sp
      /\ match sp with Some s => Some <$> SparseStreamValidator_finish s | None => Ok None end = Ok layout) as (sp & Hsp & Hfin).
    { destruct (sparse_flag d); cbn [observe_sparse].
      - destruct Hlayout as (l & -> & Hp%Hagree). apply bind_Ok in Hp as (s & -> & Hp). exists (Some s). split; [done|]. by rewrite Hp.
      - subst layout. by exists None. }
    eexists. split; [split; [lia|]; split; [exact Hw|]; by exists sp|].
    unfold AuxiliaryStreamValidator_finish. cbn [av_record av_hasher av_received av_sparse av_retained].
    rewrite Hl, Z.eqb_refl. cbn [negb reject_if]. rewrite bind_ret, Hsha, (proj2 (bytes_eqb_eq _ _) eq_refl). cbn [negb reject_if].
    rewrite bind_ret, Hfin, bind_ret. cbv zeta. by rewrite Hb.
Qed.

(** C10: However a payload is cut into chunks, the validator accepts it exactly when
    it has the declared length and digest, its sparse map parses where the
    declaration says there is one, it fits the limit of its kind and it is
    well-formed for that kind; this is also what the parser of the whole
    payload accepts, with the same record. *)
Theorem auxiliary_stream_correct records ordinal stored_size chunks r :
  u64 stored_size -> blen (concat chunks) < 2 ^ 63 ->
  let streamed := (v ← AuxiliaryStreamValidator_new records ordinal stored_size;
                   v ← observe_payload v chunks; AuxiliaryStreamValidator_finish v) in
  (streamed = Ok r
   <-> exists d, parse_auxiliary_declaration records ordinal stored_size = Ok d /\ payload_accepted d (concat chunks) r)
  /\ (streamed = Ok r <-> parse_auxiliary_record records ordinal stored_size (concat chunks) = Ok r).
Proof.
  intros Hs Hlen streamed.
  assert (forall chunks', concat chunks' = concat chunks ->
    (v ← AuxiliaryStreamValidator_new records ordinal stored_size;
     v ← observe_payload v chunks'; AuxiliaryStreamValidator_finish v) = Ok r
    <-> exists d, parse_auxiliary_declaration records ordinal stored_size = Ok d /\ payload_accepted d (concat chunks) r) as Hall.
  { intros chunks' Hc. rewrite <- Hc in *. rewrite bind_Ok. split.
    - intros (v & Hv & Hr). apply new_after in Hv as (d & Hd & Ha); [|done]. exists d. split; [done|].
      pose proof (parse_auxiliary_declaration_typed _ _ _ _ Hd) as [Hst Hlog _ _ _ _ _ _ _ _].
      apply bind_Ok in Hr as (w & Hw & Hr). apply (observe_payload_after d []) in Hw; [|by rewrite Hst|done].
      apply finish_Ok; [by rewrite Hst|done|done|]. by exists w.
    - intros (d & Hd & Ha). pose proof (parse_auxiliary_declaration_typed _ _ _ _ Hd) as [Hst Hlog _ _ _ _ _ _ _ _].
      apply finish_Ok in Ha as (w & Hw & Hr); [|by rewrite Hst|done|done].
      destruct (after_prefix d [] (concat chunks') w Hw) as [v Hv].
      exists v. split; [apply new_after; [done|]; by exists d|]. apply bind_Ok. exists w. split; [|done].
      by apply (observe_payload_after d []); [rewrite Hst| |]. }
  split; [by apply Hall|]. unfold streamed. rewrite (Hall chunks eq_refl). symmetry.
  rewrite <- (Hall [concat chunks]) by (cbn; by rewrite app_nil_r). unfold parse_auxiliary_record. cbn [observe_payload].
  destruct (AuxiliaryStreamValidator_new _ _ _) as [v| |]; [|done..]. rewrite !bind_ret.
  by destruct (AuxiliaryStreamValidator_observe _ _).
Qed.
End Stream.

(** ** Capture reports *)
Definition row_line (r : CaptureReportRow) : bytes :=
  join TAB [cr_profile r; cr_metadata_class r; cr_reason r; cr_encoded_detail r].

(** A row is also read from a line without the last column. *)
Definition row_framing (r : CaptureReportRow) (line : bytes) : Prop :=
  line = row_line r
  \/ (cr_encoded_detail r = [] /\ line = join TAB [cr_profile r; cr_metadata_class r; cr_reason r]).

Definition row_ok (d : MetadataDeclaration) (r : CaptureReportRow) : Prop :=
  MetadataDeclaration_profile_selected d (cr_profile r) = true /\ valid_profile_token (cr_metadata_class r) = true
  /\ matches (cr_reason r) report_reasons = true /\ valid_percent_encoded_detail (cr_encoded_detail r) = true.

Definition report_text (lines : list bytes) : bytes :=
  REPORT_HEADER ++ concat (map (fun line => line ++ [NEWLINE]) lines).

Definition printable (x : Byte.byte) : bool := byte_between 0x21 0x7E x.

Lemma token_printable x : token_byte x = true -> printable x = true.
Proof. by destruct x. Qed.

Lemma printable_free x b : printable x = false -> forallb printable b = true -> x ∉ b.
Proof. intros Hx Hb Hin%list_elem_of_In. rewrite forallb_forall in Hb. by rewrite (Hb x Hin) in Hx. Qed.

Lemma forallb_impl {A} (p q : A -> bool) l : (forall x, p x = true -> q x = true) -> forallb p l = true -> forallb q l = true.
Proof. rewrite !forallb_forall. auto. Qed.

Lemma profile_token_printable value : valid_profile_token value = true -> forallb printable value = true.
Proof. unfold valid_profile_token. intros [_ H]%andb_true_iff. by apply (forallb_impl _ _ _ token_printable). Qed.

Lemma profile_id_printable value : is_valid_profile_id value = true -> forallb printable value = true.
Proof.
  unfold is_valid_profile_id. destruct (is_known_profile value) eqn:E.
  - intros _. unfold is_known_profile in E. apply existsb_exists in E as (p & Hp & ->%bytes_eqb_eq).
    cbn [In] in Hp. destruct_or! Hp; subst; by vm_compute.
  - destruct (valid_profile_token value) eqn:E'; [by intros _; apply profile_token_printable|done].
Qed.

Lemma selected_printable d p :
  profile_list_ok (md_required_profiles d) -> profile_list_ok (md_optional_profiles d) ->
  MetadataDeclaration_profile_selected d p = true -> forallb printable p = true.
Proof.
  intros (S1 & V1 & _) (S2 & V2 & _). unfold MetadataDeclaration_profile_selected. intros [Hp|Hp]%orb_true_iff;
    apply binary_search_iff in Hp; try done; apply profile_id_printable;
    [rewrite Forall_forall in V1|rewrite Forall_forall in V2]; auto.
Qed.

Lemma matches_printable value texts :
  forallb (fun t => forallb printable (ascii t)) texts = true -> matches value texts = true -> forallb printable value = true.
Proof.
  rewrite forallb_forall. intros Ht. unfold matches. intros (t & Hin & ->%bytes_eqb_eq)%existsb_exists. auto.
Qed.

Lemma unreserved_printable x : unreserved x = true -> printable x = true.
Proof. by destruct x. Qed.

Lemma upper_hex_printable x : is_upper_hex x = true -> printable x = true.
Proof. by destruct x. Qed.

Lemma decode_detail_printable value decoded : decode_detail value = Some decoded -> forallb printable value = true.
Proof.
  remember (length value) as n eqn:Hn. revert value Hn decoded. induction (lt_wf n) as [n _ IH]. intros value -> decoded.
  destruct value as [|x rest]; [done|]. cbn [decode_detail]. destruct (unreserved x) eqn:Ex.
  { destruct (decode_detail rest) as [d|] eqn:E; [|done]. intros _. cbn [forallb]. rewrite (unreserved_printable _ Ex).
    apply (IH (length rest)) in E; [done|cbn; lia|done]. }
  case_bool_decide as Hx; [subst x|done]. destruct rest as [|h [|l rest]]; [done..|].
  destruct (is_upper_hex h && is_upper_hex l) eqn:Eh; [|done]. apply andb_true_iff in Eh as [Hh Hl].
  cbv zeta. case_match; [done|]. destruct (decode_detail rest) as [d|] eqn:E; [|done]. intros _.
  apply (IH (length rest)) in E; [|cbn; lia|done]. cbn [forallb].
  by rewrite (upper_hex_printable _ Hh), (upper_hex_printable _ Hl), E.
Qed.

Section Report.
Context (d : MetadataDeclaration) (Hreq : profile_list_ok (md_required_profiles d))
  (Hopt : profile_list_ok (md_optional_profiles d)).

Lemma row_ok_printable r : row_ok d r ->
  Forall (fun b => forallb printable b = true) [cr_profile r; cr_metadata_class r; cr_reason r; cr_encoded_detail r].
Proof.
  intros (Hp & Hc & Hr & Hd). repeat constructor.
  - by apply (selected_printable d).
  - by apply profile_token_printable.
  - by apply (matches_printable _ report_reasons).
  - unfold valid_percent_encoded_detail in Hd. destruct (decode_detail _) eqn:E; [|done]. by apply decode_detail_printable in E.
Qed.

Lemma row_fields_free r x : row_ok d r -> printable x = false ->
  Forall (fun b => x ∉ b) [cr_profile r; cr_metadata_class r; cr_reason r; cr_encoded_detail r].
Proof. intros Hr%row_ok_printable Hx. eapply Forall_impl; [exact Hr|]. intros b Hb. by apply printable_free. Qed.

Lemma parse_report_row_Ok line r : parse_report_row d line = Ok r <-> row_ok d r /\ row_framing r line.
Proof.
  unfold parse_report_row. cbv zeta. split.
  - intros H. apply bind_Ok in H as (? & Hc%reject_if_Ok & [= <-]). rewrite !orb_false_iff, !negb_false_iff in Hc.
    destruct Hc as ((((Hl & Hp) & Hk) & Hr) & Hd). apply Nat.ltb_ge in Hl. split; [done|].
    unfold row_framing, row_line. cbn [cr_profile cr_metadata_class cr_reason cr_encoded_detail].
    pose proof (split_not_nil TAB line) as Hne. pose proof (join_split TAB line) as Hj.
    destruct (split TAB line) as [|a [|b [|c [|e [|g l]]]]]; cbn [nth length] in *; [done..|auto|auto|lia].
  - intros [Hok Hf]. pose proof (row_fields_free r TAB Hok eq_refl) as Hfree. destruct Hok as (Hp & Hk & Hr & Hd).
    assert (nth 0 (split TAB line) [] = cr_profile r /\ nth 1 (split TAB line) [] = cr_metadata_class r
      /\ nth 2 (split TAB line) [] = cr_reason r /\ nth 3 (split TAB line) [] = cr_encoded_detail r
      /\ (4 <? length (split TAB line))%nat = false) as (-> & -> & -> & -> & ->).
    { destruct Hf as [->|[E ->]].
      - unfold row_line. rewrite split_join by done. done.
      - rewrite split_join; [by rewrite E|done|]. rewrite E in Hfree.
        apply (Forall_app _ [cr_profile r; cr_metadata_class r; cr_reason r] [[]]) in Hfree. tauto. }
    rewrite Hp, Hk, Hr, Hd. by destruct r.
Qed.

Lemma join_free x sep pieces : x <> sep -> Forall (fun p => x ∉ p) pieces -> x ∉ join sep pieces.
Proof.
  intros Hx Hp. induction Hp as [|p pieces Hp Hps IH]; [apply not_elem_of_nil|]. destruct pieces as [|q pieces]; [done|].
  rewrite join_cons by done. rewrite elem_of_app, elem_of_cons. naive_solver.
Qed.

Lemma printable_ascii : forall b, forallb printable b = true -> is_ascii b = true.
Proof. intros b. apply forallb_impl. by intros []. Qed.

Lemma join_ascii pieces : Forall (fun b => forallb printable b = true) pieces -> is_ascii (join TAB pieces) = true.
Proof.
  induction 1 as [|p pieces Hp%printable_ascii Hps IH]; [done|]. destruct pieces as [|q pieces]; [done|].
  rewrite join_cons by done. unfold is_ascii in *. rewrite forallb_app. cbn [forallb]. by rewrite Hp, IH.
Qed.

Lemma row_framing_line r line : row_ok d r -> row_framing r line -> NEWLINE ∉ line /\ line <> [] /\ is_ascii line = true.
Proof.
  intros Hok Hf. pose proof (row_ok_printable r Hok) as Hp. pose proof (row_fields_free r NEWLINE Hok eq_refl) as Hn.
  assert (forall rest, join TAB (cr_profile r :: cr_metadata_class r :: rest) <> []) as Hne.
  { intros rest. rewrite join_cons by done. by destruct (cr_profile r). }
  destruct Hf as [->|[E ->]].
  - split; [by apply join_free|]. split; [apply Hne|by apply join_ascii].
  - split; [apply join_free; [done|]|split; [apply Hne|apply join_ascii]];
      by apply (Forall_app _ [cr_profile r; cr_metadata_class r; cr_reason r] [cr_encoded_detail r]).
Qed.

(** The lines after [previous]. *)
Definition lines_from (previous : option bytes) (lines : list bytes) : Prop :=
  Sorted lt (match previous with Some p => p :: lines | None => lines end).

Lemma report_loop_Ok lines previous acc rows :
  Sorted lt (match previous with Some p => [p] | None => [] end) ->
  report_loop d lines previous acc = Ok rows
  <-> exists new, rows = acc ++ new /\ Forall2 (fun r line => row_ok d r /\ row_framing r line) new lines
      /\ lines_from previous lines
      /\ (lines = [] \/ Z.of_nat (length acc + length lines) <= MAX_CAPTURE_REPORT_ROWS).
Proof.
  revert previous acc. induction lines as [|line lines IH]; intros previous acc Hprev; cbn [report_loop].
  - split.
    + intros [= <-]. exists []. rewrite app_nil_r. split_and!; [done|constructor|by destruct previous|by left].
    + intros (new & -> & Hn%Forall2_nil_inv_r & _). subst new. by rewrite app_nil_r.
  - cbv zeta. split.
    + intros H. apply bind_Ok in H as (? & He%reject_if_Ok & H). apply bind_Ok in H as (? & Hm%reject_if_Ok%Z.leb_gt & H).
      apply bind_Ok in H as (? & Hs%reject_if_Ok & H). apply bind_Ok in H as (row & Hrow%parse_report_row_Ok & H).
      apply IH in H as (new & -> & Hn & Hl & Hc); [|by repeat constructor].
      exists (row :: new). split_and!.
      * by rewrite <- app_assoc.
      * by constructor.
      * unfold lines_from in *. destruct previous as [p|]; [|done]. constructor; [done|]. constructor.
        unfold leb in Hs. by apply negb_false_iff in Hs.
      * right. rewrite length_app in Hc. cbn [length] in *. destruct Hc as [->|Hc]; cbn [length]; lia.
    + intros (new & -> & Hn & Hl & Hc). apply Forall2_cons_inv_r in Hn as (row & new' & [Hok Hf] & Hn & ->).
      destruct Hc as [?|Hc]; [done|]. cbn [length] in Hc.
      destruct (row_framing_line row line Hok Hf) as (_ & Hne & _).
      rewrite bool_decide_eq_false_2 by done. cbn [reject_if]. rewrite bind_ret.
      rewrite (proj2 (Z.leb_gt _ _)) by lia. cbn [reject_if]. rewrite bind_ret.
      assert (match previous with Some value => leb line value | None => false end = false) as ->.
      { unfold lines_from in Hl. destruct previous as [p|]; [|done]. apply Sorted_inv in Hl as [_ Hl].
        inversion Hl; subst. unfold leb. by apply negb_false_iff. }
      cbn [reject_if]. rewrite bind_ret, (proj2 (parse_report_row_Ok line row) (conj Hok Hf)), bind_ret.
      apply IH; [by repeat constructor|]. exists new'. split_and!; [by rewrite <- app_assoc|done| |].
      * unfold lines_from in *. destruct previous; [by apply Sorted_inv in Hl as [? _]|done].
      * right. rewrite length_app. cbn [length]. lia.
Qed.
End Report.

Lemma split_free sep b : Forall (fun p => sep ∉ p) (split sep b).
Proof.
  induction b as [|x b IH]; cbn [split]; [by repeat constructor; apply not_elem_of_nil|]. case_bool_decide as Hx.
  - constructor; [apply not_elem_of_nil|done].
  - destruct (split sep b) as [|p pieces].
    + repeat constructor. rewrite list_elem_of_singleton. congruence.
    + apply Forall_cons in IH as [Hp IH]. constructor; [|done]. rewrite elem_of_cons. naive_solver.
Qed.

Lemma terminated_join sep lines : concat (map (fun l => l ++ [sep]) lines) = join sep (lines ++ [[]]).
Proof.
  induction lines as [|l lines IH]; [done|]. cbn [map concat app]. rewrite join_cons by (by destruct lines).
  by rewrite IH, <- app_assoc.
Qed.

Lemma split_terminator_lines sep lines :
  Forall (fun p => sep ∉ p) lines -> split_terminator sep (concat (map (fun l => l ++ [sep]) lines)) = lines.
Proof.
  intros Hl. unfold split_terminator. cbv zeta. rewrite terminated_join, split_join;
    [|by destruct lines|apply Forall_app; split; [done|repeat constructor; apply not_elem_of_nil]].
  by rewrite last_snoc, bool_decide_eq_true_2, removelast_last.
Qed.

Lemma split_terminator_spec sep b :
  b = [] \/ last b = Some sep ->
  Forall (fun p => sep ∉ p) (split_terminator sep b) /\ concat (map (fun l => l ++ [sep]) (split_terminator sep b)) = b.
Proof.
  intros Hb. assert (exists lines, Forall (fun p => sep ∉ p) lines /\ b = concat (map (fun l => l ++ [sep]) lines)) as (lines & Hl & ->).
  { destruct Hb as [->|Hb]; [by exists []|]. apply last_Some in Hb as [b' ->]. exists (split sep b').
    split; [apply split_free|]. rewrite terminated_join, join_app, join_split; [done|apply split_not_nil|done]. }
  rewrite split_terminator_lines by done. done.
Qed.

Lemma report_loop_no_panic d lines previous rows : report_loop d lines previous rows <> Panic.
Proof.
  revert previous rows. induction lines as [|line lines IH]; intros previous rows; [done|]. cbn [report_loop]. cbv zeta.
  repeat (apply bind_no_panic; [apply reject_if_no_panic|intros ? _]). apply bind_no_panic; [|auto].
  unfold parse_report_row. no_panic.
Qed.

Lemma parse_capture_report_no_panic payload d : parse_capture_report payload d <> Panic.
Proof.
  unfold parse_capture_report. repeat (apply bind_no_panic; [apply reject_if_no_panic|intros ? _]).
  apply bind_no_panic; [apply report_loop_no_panic|intros ? _]. no_panic.
Qed.

(** C12: A report is accepted exactly when it is the header and a non-empty, strictly
    ascending list of lines within the limits, each the four columns of a
    valid row of a selected profile; the last column, where it is empty, may be
    missing with its tab.  No payload makes the parser panic. *)
Theorem capture_report_codec d payload rows :
  profile_list_ok (md_required_profiles d) -> profile_list_ok (md_optional_profiles d) ->
  (parse_capture_report payload d = Ok rows
   <-> exists lines,
         payload = report_text lines /\ Forall2 (fun r line => row_ok d r /\ row_framing r line) rows lines
         /\ StronglySorted lt lines /\ rows <> []
         /\ blen payload <= MAX_LOCAL_PAX_PAYLOAD /\ Z.of_nat (length rows) <= MAX_CAPTURE_REPORT_ROWS)
  /\ parse_capture_report payload d <> Panic.
Proof.
  intros Hreq Hopt. split; [|apply parse_capture_report_no_panic]. unfold parse_capture_report. split.
  - intros H. apply bind_Ok in H as (? & Hlen%reject_if_Ok%Z.ltb_ge & H). apply bind_Ok in H as (? & _ & H).
    apply bind_Ok in H as (? & Hframe%reject_if_Ok & H). apply bind_Ok in H as (rows' & Hrows & H).
    apply bind_Ok in H as (? & Hne%reject_if_Ok%bool_decide_eq_false & [= <-]).
    apply orb_false_iff in Hframe as [Hstart%negb_false_iff Hend%negb_false_iff].
    apply bytes_eqb_eq in Hstart. apply bool_decide_eq_true in Hend.
    pose proof (take_drop (length REPORT_HEADER) payload) as Hsplit. rewrite Hstart in Hsplit.
    set (rest := drop (length REPORT_HEADER) payload) in *. clearbody rest. subst payload.
    destruct (split_terminator_spec NEWLINE rest) as [Hfree Hrest].
    { destruct (decide (rest = [])) as [->|Hr]; [by left|right]. rewrite last_app in Hend. by destruct (last rest) eqn:E; [|apply last_None in E]. }
    apply (report_loop_Ok d Hreq Hopt) in Hrows as (new & -> & Hn & Hl & Hc); [|constructor]. cbn [app length Nat.add] in *.
    exists (split_terminator NEWLINE rest). pose proof (Forall2_length _ _ _ Hn) as Hlenn. split_and!.
    + unfold report_text. by rewrite Hrest.
    + done.
    + apply Sorted_StronglySorted; [exact lt_transitive|done].
    + by intros ->.
    + done.
    + rewrite Hlenn. destruct Hc as [->|Hc]; [by vm_compute|lia].
  - intros (lines & -> & Hn & Hl & Hne & Hlen & Hc). pose proof (Forall2_length _ _ _ Hn) as Hlenn.
    assert (Forall (fun line => NEWLINE ∉ line /\ line <> [] /\ is_ascii line = true) lines) as Hlines.
    { clear -Hn Hreq Hopt. induction Hn as [|r line ? ? [Hok Hf] _ IH]; constructor; [|done].
      by apply (row_framing_line d Hreq Hopt r). }
    rewrite (proj2 (Z.ltb_ge _ _) Hlen). cbn [reject_if]. rewrite bind_ret.
    assert (utf8_valid (report_text lines) = true) as ->.
    { apply is_ascii_utf8. unfold report_text, is_ascii. rewrite forallb_app. apply andb_true_iff. split; [done|].
      clear -Hlines. induction Hlines as [|line lines (_ & _ & H) _ IH]; [done|]. cbn [map concat].
      unfold is_ascii in H. by rewrite !forallb_app, H, IH. }
    assert (starts_with (report_text lines) REPORT_HEADER = true) as ->.
    { unfold starts_with, report_text. rewrite take_app_length. by apply bytes_eqb_eq. }
    assert (ends_with_byte NEWLINE (report_text lines) = true) as ->.
    { destruct lines as [|line lines _] using rev_ind; [by destruct rows|]. unfold ends_with_byte, report_text.
      rewrite map_app, concat_app. cbn [map concat]. rewrite app_nil_r, !app_assoc, last_snoc. by apply bool_decide_eq_true. }
    cbn [negb orb reject_if]. rewrite !bind_ret. unfold report_text. rewrite drop_app_length, split_terminator_lines
      by (eapply Forall_impl; [exact Hlines|]; by intros ? [? _]).
    rewrite (proj2 (report_loop_Ok d Hreq Hopt lines None [] rows ltac:(constructor))).
    + rewrite bind_ret, bool_decide_eq_false_2; [done|]. by destruct rows.
    + exists rows. split_and!; [done|done|by apply StronglySorted_Sorted|]. right. cbn [length]. lia.
Qed.

(** Because the last column may be missing, a report may repeat a row. *)
Definition report_declaration : MetadataDeclaration := portable_declaration 0x1A4 (ascii "linux").

Definition repeated_row : CaptureReportRow := {|
  cr_profile := PORTABLE_PROFILE; cr_metadata_class := ascii "data"; cr_reason := ascii "io-error"; cr_encoded_detail := [] |}.

Definition repeating_report : bytes :=
  report_text [join TAB [PORTABLE_PROFILE; ascii "data"; ascii "io-error"]; row_line repeated_row].

(** The parser accepts a report that lists the same row twice, once without its
    last column. *)
Theorem capture_report_duplicate_row :
  parse_capture_report repeating_report report_declaration = Ok [repeated_row; repeated_row].
Proof. vm_compute. reflexivity. Qed.

Lemma capture_report_codec_witness :
  parse_capture_report (report_text [row_line repeated_row]) report_declaration = Ok [repeated_row].
Proof.
  assert (profile_list_ok [PORTABLE_PROFILE] /\ profile_list_ok []) as [H1 H2].
  { split; (split_and!; [repeat constructor|repeat constructor|by vm_compute]). }
  apply (capture_report_codec report_declaration _ _ H1 H2).
  exists [row_line repeated_row]. split_and!; [done| |repeat constructor|done|by vm_compute|by vm_compute].
  repeat constructor.
Defined.

(** ** Groups *)
(** An entry's summary bits as the format defines them. *)
Definition native_metadata (primary : PrimaryMetadata) (auxiliary : list AuxiliaryRecord) : Prop :=
  md_required_profiles (pm_declaration primary) <> [PORTABLE_PROFILE] \/ md_optional_profiles (pm_declaration primary) <> []
  \/ pm_has_native_scalar primary = true \/ Exists (fun r => ar_native r = true) auxiliary.

Definition sparse_group (primary : PrimaryMetadata) (auxiliary : list AuxiliaryRecord) : Prop :=
  is_Some (pm_sparse_logical_size primary) \/ Exists (fun r => sparse_flag r = true) auxiliary.

Definition system_group (primary : PrimaryMetadata) (auxiliary : list AuxiliaryRecord) : Prop :=
  pm_requires_system_restore primary = true \/ Exists (fun r => ar_restore_class r = RestoreClass.System) auxiliary.

Lemma existsb_Exists {A} (p : A -> bool) (P : A -> Prop) l :
  (forall x, p x = true <-> P x) -> existsb p l = true <-> Exists P l.
Proof. intros Hp. induction l as [|x l IH]; cbn; [by rewrite Exists_nil|]. by rewrite orb_true_iff, Exists_cons, Hp, IH. Qed.

Lemma raised_bits (b1 b2 b3 b4 b5 : bool) :
  let flags := raise b5 REQUIRES_SYSTEM_RESTORE (raise b4 CAPTURE_PARTIAL (raise b3 HAS_SPARSE_EXTENTS
                 (raise b2 HAS_NATIVE_METADATA (raise b1 HAS_AUXILIARY_STREAMS EXTENDED_METADATA_V1)))) in
  0 <= flags <= FILE_ENTRY_KNOWN_FLAGS
  /\ map (Z.testbit flags) [0; 1; 2; 3; 4; 5] = [true; b1; b2; b3; b4; b5].
Proof. destruct b1, b2, b3, b4, b5; vm_compute; (split; [split|]; done). Qed.

Lemma iff_bool (b : bool) P : (b = true <-> P) -> forall c : bool, c = b -> c = true <-> P.
Proof. by intros H c ->. Qed.

Lemma group_flags_bits primary auxiliary :
  let bit i := Z.testbit (group_flags primary auxiliary) i = true in
  0 <= group_flags primary auxiliary <= FILE_ENTRY_KNOWN_FLAGS /\ bit 0
  /\ (bit 1 <-> auxiliary <> []) /\ (bit 2 <-> native_metadata primary auxiliary) /\ (bit 3 <-> sparse_group primary auxiliary)
  /\ (bit 4 <-> md_capture_status (pm_declaration primary) = Partial) /\ (bit 5 <-> system_group primary auxiliary).
Proof.
  cbv zeta. unfold group_flags. cbv zeta.
  match goal with |- context [raise ?b5 REQUIRES_SYSTEM_RESTORE (raise ?b4 _ (raise ?b3 _ (raise ?b2 _ (raise ?b1 _ _))))] =>
    destruct (raised_bits b1 b2 b3 b4 b5) as [Hrange Hbits] end.
  cbn [map] in Hbits. injection Hbits as H0 H1 H2 H3 H4 H5. split_and!; [exact (proj1 Hrange)|exact (proj2 Hrange)|exact H0|..];
    (eapply iff_bool; [|eassumption]).
  - by rewrite negb_true_iff, bool_decide_eq_false.
  - unfold native_metadata. rewrite !orb_true_iff, !negb_true_iff, !bool_decide_eq_false.
    rewrite (existsb_Exists _ (fun r => ar_native r = true)) by done. tauto.
  - unfold sparse_group. rewrite orb_true_iff, bool_decide_eq_true. by rewrite (existsb_Exists _ (fun r => sparse_flag r = true)).
  - apply bool_decide_eq_true.
  - unfold system_group. rewrite orb_true_iff.
    by rewrite (existsb_Exists _ (fun r => ar_restore_class r = RestoreClass.System)) by (intros; apply bool_decide_eq_true).
Qed.

(** What the loop over the records of a group has checked of each. *)
Definition member_ok (primary : PrimaryMetadata) (r : AuxiliaryRecord) : Prop :=
  (if is_report r then ar_profile r = CORE_PROFILE
   else MetadataDeclaration_profile_selected (pm_declaration primary) (ar_profile r) = true)
  /\ (ar_kind r = ascii "generic.xattr" ->
      let os := md_source_os (pm_declaration primary) in
      ar_decoded_name r ∉ reserved_xattrs /\ ar_profile r = xattr_owner_profile (ar_decoded_name r) os
      /\ (ar_restore_class r = RestoreClass.System <-> system_xattr_namespace (ar_decoded_name r) os = true)).

Lemma matches_one value text : matches value [text] = true <-> value = ascii text.
Proof. unfold matches. cbn [existsb]. by rewrite orb_false_r, bytes_eqb_eq. Qed.

Lemma generic_xattr_Ok r os u :
  validate_generic_xattr_declaration r os = Ok u ->
  ar_decoded_name r ∉ reserved_xattrs /\ ar_profile r = xattr_owner_profile (ar_decoded_name r) os
  /\ (ar_restore_class r = RestoreClass.System <-> system_xattr_namespace (ar_decoded_name r) os = true).
Proof.
  unfold validate_generic_xattr_declaration, validate_generic_xattr_name. intros H.
  apply bind_Ok in H as (? & Hn%reject_if_Ok & H). apply reject_if_Ok, orb_false_iff in H as [Hp Hc].
  apply negb_false_iff, bytes_eqb_eq in Hp. apply negb_false_iff, bool_decide_eq_true in Hc. split_and!.
  - intros Hin. rewrite existsb_false in Hn. specialize (Hn _ Hin). by rewrite (proj2 (bytes_eqb_eq _ _) eq_refl) in Hn.
  - done.
  - rewrite Hc. by case_match.
Qed.

Lemma group_loop_Ok primary capture_report auxiliary ids out :
  group_loop primary capture_report auxiliary ids = Ok out ->
  Forall (member_ok primary) auxiliary /\ NoDup (map identity auxiliary)
  /\ forall r, r ∈ auxiliary -> identity r ∉ ids.
Proof.
  revert ids. induction auxiliary as [|r auxiliary IH]; intros ids; cbn [group_loop].
  { intros _. split_and!; [constructor|constructor|]. intros r Hr. by apply elem_of_nil in Hr. }
  intros H. apply bind_Ok in H as (? & Hprofile & H). apply bind_Ok in H as (? & Hx & H).
  apply bind_Ok in H as (? & Hdup%reject_if_Ok%bool_decide_eq_false & H). apply IH in H as (Hok & Hnd & Hids).
  assert (member_ok primary r) as Hr.
  { split.
    - destruct (is_report r).
      + apply bind_Ok in Hprofile as (? & _ & Hp%reject_if_Ok%negb_false_iff). by apply bytes_eqb_eq.
      + by apply reject_if_Ok, negb_false_iff in Hprofile.
    - intros Hk. rewrite (proj2 (matches_one _ _) Hk) in Hx. by apply generic_xattr_Ok in Hx. }
  split_and!; [by constructor| |].
  - cbn [map]. constructor; [|done]. intros (r' & He & Hin)%list_elem_of_fmap.
    apply (Hids r' Hin). apply set_insert_elem. by left.
  - intros r' [->|Hin]%elem_of_cons; [done|]. specialize (Hids r' Hin). rewrite set_insert_elem in Hids. tauto.
Qed.

(** C11: In an accepted group every auxiliary record belongs to a selected profile
    and no two have the same identity, a partial capture has exactly one
    report, which is canonical and parses, a complete one has none, and the
    flags are exactly the summary of the group; an extended attribute in a
    system namespace always asks for a system restore. *)
Theorem group_metadata_correct primary auxiliary flags report :
  validate_group_metadata primary auxiliary = Ok (flags, report) ->
  let bit i := Z.testbit flags i = true in
  Forall (member_ok primary) auxiliary /\ NoDup (map identity auxiliary)
  /\ (md_capture_status (pm_declaration primary) = Complete ->
      report = None /\ forall r, r ∈ auxiliary -> is_report r = false)
  /\ (md_capture_status (pm_declaration primary) = Partial ->
      exists r payload rows, r ∈ auxiliary /\ is_report r = true /\ non_canonical_report r = false
        /\ (forall r', r' ∈ auxiliary -> is_report r' = true -> r' = r)
        /\ ar_capture_report_payload r = Some payload
        /\ parse_capture_report payload (pm_declaration primary) = Ok rows /\ report = Some rows)
  /\ 0 <= flags <= FILE_ENTRY_KNOWN_FLAGS /\ bit 0
  /\ (bit 1 <-> auxiliary <> []) /\ (bit 2 <-> native_metadata primary auxiliary) /\ (bit 3 <-> sparse_group primary auxiliary)
  /\ (bit 4 <-> md_capture_status (pm_declaration primary) = Partial) /\ (bit 5 <-> system_group primary auxiliary)
  /\ (forall r, r ∈ auxiliary -> ar_kind r = ascii "generic.xattr" ->
        system_xattr_namespace (ar_decoded_name r) (md_source_os (pm_declaration primary)) = true -> bit 5).
Proof.
  unfold validate_group_metadata. cbv zeta. intros H. apply bind_Ok in H as (? & _ & H).
  apply bind_Ok in H as (ids & Hloop & H). apply group_loop_Ok in Hloop as (Hok & Hnd & _).
  apply bind_Ok in H as (? & Hstatus & H). apply bind_Ok in H as (rep & Hrep & [= <- <-]).
  assert (forall r, r ∈ filter (fun r => is_report r = true) auxiliary <-> is_report r = true /\ r ∈ auxiliary) as Hfil.
  { intros r. by rewrite list_elem_of_filter. }
  set (reports := filter (fun r => is_report r = true) auxiliary) in *. clearbody reports.
  pose proof (group_flags_bits primary auxiliary) as (Hr1 & Hb0 & Hb1 & Hb2 & Hb3 & Hb4 & Hb5).
  split_and!; try done; try tauto.
  - intros E. rewrite E in Hstatus. apply reject_if_Ok, negb_false_iff, Nat.eqb_eq, nil_length_inv in Hstatus. subst reports.
    cbn in Hrep. injection Hrep as <-. split; [done|]. intros r Hr. destruct (is_report r) eqn:Er; [|done].
    exfalso. by apply (elem_of_nil r), Hfil.
  - intros E. rewrite E in Hstatus. apply reject_if_Ok, negb_false_iff, Nat.eqb_eq in Hstatus.
    destruct reports as [|r [|? ?]]; [done| |done]. cbn [head] in Hrep.
    apply bind_Ok in Hrep as (payload & Hp%ok_or_Ok & Hrep). apply bind_Ok in Hrep as (rows & Hrows & Hrep).
    apply bind_Ok in Hrep as (? & Hc%reject_if_Ok & [= <-]).
    exists r, payload, rows. destruct (proj1 (Hfil r) (list_elem_of_here _ _)) as [Hr1' Hr2].
    split_and!; try done. intros r' Hin Hr'. by apply list_elem_of_singleton, Hfil.
  - intros r Hin Hk Hns. apply Hb5. right. apply Exists_exists. exists r. split; [done|].
    rewrite Forall_forall in Hok. destruct (Hok r Hin) as [_ Hx]. by apply (Hx Hk).
Qed.

(** ** A partial capture with its report *)
(** A digest that knows only the length of its input. *)
Definition length_Sha256 : Sha256 := {|
  sha256 b := le_bytes 32 (blen b);
  sha256_blen b := blen_le 32 (blen b)
|}.

Section AuxiliaryExamples.
#[local] Existing Instances toy_Unicode length_Sha256.

Definition example_report : bytes := report_text [row_line repeated_row].

Definition example_auxiliary_records : PaxRecords :=
  fold_left (fun records r => pax_insert (ascii r.1) r.2 records)
    [("TZAP.aux.version", ascii "1"); ("TZAP.aux.kind", CAPTURE_REPORT_KIND); ("TZAP.aux.profile", CORE_PROFILE);
     ("TZAP.aux.restore-class", ascii "none"); ("TZAP.aux.native", ascii "0"); ("TZAP.aux.name-encoding", ascii "none");
     ("TZAP.aux.name", []); ("TZAP.aux.flags", fixed_digits 16 16 0);
     ("TZAP.aux.logical-size", to_decimal (blen example_report)); ("TZAP.aux.sha256", hex_encode (sha256 example_report))] [].

Definition example_auxiliary : AuxiliaryRecord :=
  match parse_auxiliary_record example_auxiliary_records 0 (blen example_report) example_report with
  | Ok r => r
  | _ => {| ar_ordinal := 0; ar_kind := []; ar_profile := []; ar_restore_class := RestoreClass.None; ar_native := false;
            ar_name_encoding := []; ar_decoded_name := []; ar_flags := 0; ar_logical_size := 0; ar_stored_size := 0;
            ar_sha256 := []; ar_meta := []; ar_sparse_layout := None; ar_capture_report_payload := None |}
  end.

Lemma auxiliary_stream_correct_witness :
  parse_auxiliary_record example_auxiliary_records 0 (blen example_report) (concat [take 10 example_report; drop 10 example_report])
  = Ok example_auxiliary.
Proof.
  assert (u64 (blen example_report)) as Hs by (by vm_compute).
  assert (blen (concat [take 10 example_report; drop 10 example_report]) < 2 ^ 63) as Hl by (by vm_compute).
  apply (proj1 (proj2 (auxiliary_stream_correct example_auxiliary_records 0 (blen example_report)
    [take 10 example_report; drop 10 example_report] example_auxiliary Hs Hl))).
  vm_compute. reflexivity.
Defined.

(** A primary entry whose capture is partial. *)
Definition partial_primary : PrimaryMetadata := {|
  pm_declaration := {| md_required_profiles := [PORTABLE_PROFILE]; md_optional_profiles := [];
    md_source_os := ascii "linux"; md_source_filesystem := ascii "ext4"; md_capture_status := Partial;
    md_owner_kind_posix := false; md_mode_origin_native := true; md_portable_mode := 0x1A4; md_portable_attributes := None |};
  pm_path := None; pm_linkpath := None; pm_stored_size := None; pm_mtime := None; pm_sparse_logical_size := None;
  pm_has_native_scalar := false; pm_requires_system_restore := false; pm_xattr_names := [] |}.

Lemma group_metadata_correct_witness :
  exists flags, validate_group_metadata partial_primary [example_auxiliary] = Ok (flags, Some [repeated_row])
  /\ flags = 19 /\ NoDup (map identity [example_auxiliary]).
Proof.
  exists 19. assert (validate_group_metadata partial_primary [example_auxiliary] = Ok (19, Some [repeated_row])) as H
    by (vm_compute; reflexivity).
  split; [exact H|]. split; [reflexivity|].
  apply (group_metadata_correct partial_primary [example_auxiliary] 19 (Some [repeated_row]) H).
Defined.
End AuxiliaryExamples.
