(* ===== verification/TarMember.v ===== *)
(** * Members of the tar stream

    The group of tar entries that makes up one member, from
    [crates/tzap-core/src/tar_model]: [parse_tar_member_group] of [pax.rs] with
    the checks that tie the ustar header, the PAX records and the auxiliary
    entries together, [validate_symlink_target] of [mod.rs], and the search for
    the end of a group, [try_tar_member_group_end] of [restore.rs]. *)

From Stdlib Require Import Sorting.Sorted.
From stdpp Require Import sorting.
From S2P Require Import Wire Ordering Paths TextCodecs Pax SparseMap TarHeader NativeMetadata AclText PrimaryMetadata AuxiliaryMetadata.
#[local] Open Scope Z_scope.

Definition MAX_AGGREGATE_PAX_PAYLOAD : Z := 128 * 1024 * 1024.

Inductive V45PaxKind : Set :=
| Primary
| Auxiliary (ordinal : Z).

Record PortableMetadataMirror : Type := {
  mi_owner_kind_posix : bool;
  mi_mode_origin_native : bool;
  mi_mode : Z;
  mi_attributes : option Z;
  mi_uid : option Z;
  mi_gid : option Z;
  mi_uname : option bytes;
  mi_gname : option bytes;
  mi_mtime : ArchiveTimestamp
}.

Record MemberMetadata : Type := {
  mm_declaration : MetadataDeclaration;
  mm_primary_records : PaxRecords;
  mm_auxiliary : list AuxiliaryRecord;
  mm_file_entry_flags : Z;
  mm_sparse_layout : option SparseLayout;
  mm_capture_report : option (list CaptureReportRow);
  mm_primary_has_native_scalar : bool;
  mm_primary_requires_system_restore : bool;
  mm_portable_mirror : PortableMetadataMirror
}.

(** The list of diagnostics, which the parser leaves empty, is left out. *)
Record ParsedTarMember : Type := {
  tm_path : bytes;
  tm_kind : TarEntryKind.t;
  tm_data : bytes;
  tm_link_target : option bytes;
  tm_mode : Z;
  tm_mtime : ArchiveTimestamp;
  tm_logical_size : Z;
  tm_reparse_placeholder : bool;
  tm_v45_metadata : MemberMetadata
}.

#[export] Existing Instance TarEntryKind.t_eq_dec.

Definition is_kind (kind other : TarEntryKind.t) : bool := bool_decide (kind = other).

Definition is_device (kind : TarEntryKind.t) : bool :=
  is_kind kind TarEntryKind.CharacterDevice || is_kind kind TarEntryKind.BlockDevice.

(** ** Values *)
Definition parse_minimal_decimal_u64 (value : bytes) (structure : string) : fresult Z :=
  reject_if (not_minimal_decimal value) (InvalidMetadata structure "value is not minimal unsigned decimal");;
  ok_or (from_str_radix 64 10 value) (InvalidMetadata structure "value exceeds u64").

Definition parse_lower_hex_u32 (value : bytes) (structure : string) : fresult Z :=
  reject_if (not_fixed_hex value 8) (InvalidMetadata structure "value is not eight lowercase hexadecimal digits");;
  ok_or (from_str_radix 32 16 value) (InvalidMetadata structure "hexadecimal value exceeds u32").

Definition validate_numeric_pax_header_match (records : PaxRecords) (key : string) (header : bytes) (i j : Z)
    (label : string) : fresult unit :=
  match pax_get records (ascii key) with
  | None => Ok tt
  | Some value =>
      pax ← parse_minimal_decimal_u64 value key;
      field ← octal_field header i j;
      reject_if (negb (field =? 0) && negb (field =? pax)) (InvalidMetadata label "ustar field conflicts with PAX value")
  end.

Definition validate_string_pax_header_match (records : PaxRecords) (key : string) (header : bytes) (i j : Z)
    (label : string) : fresult unit :=
  match pax_get records (ascii key) with
  | None => Ok tt
  | Some value =>
      field ← text_field header i j;
      reject_if (negb (bool_decide (field = [])) && negb (bytes_eqb field value))
        (InvalidMetadata label "ustar field conflicts with PAX value")
  end.

(** ** The header of the primary entry *)
(** Fields without ownership. *)
Definition check_no_owner (header : bytes) : fresult unit :=
  let error := InvalidArchive "owner-kind none has non-zero ustar ownership fields" in
  zero_octal header (108, 116) error;;
  zero_octal header (116, 124) error;;
  empty_text header (265, 297) error;;
  empty_text header (297, 329) error.

Definition validate_v45_primary_header (header : bytes) (kind : TarEntryKind.t) (header_size effective_size : Z)
    (primary : PrimaryMetadata) (records : PaxRecords) : fresult unit :=
  let declaration := pm_declaration primary in
  validate_ustar_header header;;
  mode ← octal_field header 100 108;
  reject_if (negb (mode =? md_portable_mode declaration))
    (InvalidArchive "ustar mode does not match TZAP.portable.mode");;
  (if bool_decide (is_Some (pm_stored_size primary)) then
     reject_if (negb (header_size =? 0) && negb (header_size =? effective_size))
       (InvalidArchive "ustar size conflicts with PAX size")
   else reject_if (negb (header_size =? effective_size)) (InvalidArchive "ustar size is inconsistent"));;
  (if negb (md_owner_kind_posix declaration) then check_no_owner header else Ok tt);;
  (if md_owner_kind_posix declaration then
     validate_numeric_pax_header_match records "uid" header 108 116 "UID";;
     validate_numeric_pax_header_match records "gid" header 116 124 "GID";;
     validate_string_pax_header_match records "uname" header 265 297 "user name";;
     validate_string_pax_header_match records "gname" header 297 329 "group name"
   else Ok tt);;
  (match pm_mtime primary with
   | Some t =>
       header_mtime ← octal_field header 136 148;
       reject_if (negb (header_mtime =? 0) && ((seconds t <? 0) || negb (seconds t =? header_mtime)))
         (InvalidArchive "ustar mtime conflicts with PAX mtime")
   | None => Ok tt
   end);;
  (if negb (is_device kind) then
     let error := InvalidArchive "non-device primary has device numbers" in
     zero_octal header (329, 337) error;; zero_octal header (337, 345) error
   else Ok tt);;
  (if is_device kind then
     validate_numeric_pax_header_match records "TZAP.posix.device-major" header 329 337 "device major";;
     validate_numeric_pax_header_match records "TZAP.posix.device-minor" header 337 345 "device minor"
   else Ok tt).

(** [i64::try_from(parse_tar_octal(&header[136..148])?)] *)
Definition header_seconds (header : bytes) : fresult Z :=
  v ← octal_field header 136 148;
  ok_or (if v <? 2 ^ 63 then Some v else None) (InvalidArchive "ustar mtime exceeds i64").

Definition decoded_mtime (primary : PrimaryMetadata) (header : bytes) : fresult ArchiveTimestamp :=
  match pm_mtime primary with
  | Some t => Ok t
  | None => s ← header_seconds header; mret {| seconds := s; nanoseconds := 0 |}
  end.

Definition mirror_numeric (header : bytes) (records : PaxRecords) (primary : PrimaryMetadata) (key : string) (i j : Z)
    : fresult (option Z) :=
  if negb (md_owner_kind_posix (pm_declaration primary)) then Ok None
  else match pax_get records (ascii key) with
       | Some value => Some <$> parse_minimal_decimal_u64 value key
       | None => Some <$> octal_field header i j
       end.

Definition mirror_string (header : bytes) (records : PaxRecords) (primary : PrimaryMetadata) (key : string) (i j : Z)
    : fresult (option bytes) :=
  field ← slice header i j;
  if negb (md_owner_kind_posix (pm_declaration primary)) then Ok None
  else
    let value := match pax_get records (ascii key) with Some value => value | None => nul_trimmed field end in
    Ok (if bool_decide (value = []) then None else Some value).

Definition portable_metadata_mirror (header : bytes) (records : PaxRecords) (primary : PrimaryMetadata)
    : fresult PortableMetadataMirror :=
  let declaration := pm_declaration primary in
  mtime ← decoded_mtime primary header;
  uid ← mirror_numeric header records primary "uid" 108 116;
  gid ← mirror_numeric header records primary "gid" 116 124;
  uname ← mirror_string header records primary "uname" 265 297;
  gname ← mirror_string header records primary "gname" 297 329;
  mret {| mi_owner_kind_posix := md_owner_kind_posix declaration; mi_mode_origin_native := md_mode_origin_native declaration;
          mi_mode := md_portable_mode declaration; mi_attributes := md_portable_attributes declaration; mi_uid := uid;
          mi_gid := gid; mi_uname := uname; mi_gname := gname; mi_mtime := mtime |}.

(** ** Paths and link targets *)
Definition GNU_SPARSE_PATH : bytes := ascii "GNUSparseFile.0/TZAP".
Definition PRIMARY_PLACEHOLDER : bytes := ascii "TZAP-PRIMARY".

(** [path.pop()] behind a slash *)
Definition pop_slash (path : bytes) : bytes := if ends_with_byte SLASH path then removelast path else path.

Definition v45_primary_path `{Unicode} (header : bytes) (kind : TarEntryKind.t) (records : PaxRecords)
    (primary : PrimaryMetadata) (max_path_length : Z) : fresult bytes :=
  path ←
    (match pax_get records (ascii "GNU.sparse.name") with
     | Some name =>
         own ← ustar_path header;
         reject_if (bool_decide (is_Some (pm_path primary)) || negb (bytes_eqb own GNU_SPARSE_PATH))
           (InvalidArchive "GNU sparse primary path framing is not canonical");;
         Ok name
     | None =>
         match pm_path primary with
         | Some path =>
             own ← ustar_path header;
             reject_if (negb (bytes_eqb own PRIMARY_PLACEHOLDER))
               (InvalidArchive "PAX path override lacks canonical ustar placeholder");;
             Ok path
         | None => ustar_path header
         end
     end);
  let path := if is_kind kind TarEntryKind.Directory then pop_slash path else path in
  validate_file_path_bytes path max_path_length;;
  mret path.

(** The walk of a relative target from the components of its directory. *)
Fixpoint symlink_loop `{Unicode} (components stack : list bytes) : fresult unit :=
  match components with
  | [] => Ok tt
  | component :: components =>
      reject_if (bool_decide (component = []) || bytes_eqb component (ascii ".")) UnsafeArchivePath;;
      if bytes_eqb component (ascii "..") then
        match stack with
        | [] => Err UnsafeArchivePath
        | _ => symlink_loop components (removelast stack)
        end
      else
        validate_file_path_bytes component (2 ^ 32 - 1);;
        symlink_loop components (stack ++ [component])
  end.

Definition parent_components (path : bytes) : list bytes :=
  let components := split SLASH path in take (length components - 1) components.

Definition validate_symlink_target `{Unicode} (link_path target : bytes) : fresult unit :=
  reject_if (bool_decide (target = []) || bool_decide (NUL ∈ target) || bool_decide (BACKSLASH ∈ target)
             || bool_decide (COLON ∈ target)) UnsafeArchivePath;;
  reject_if (negb (utf8_valid target)) UnsafeArchivePath;;
  reject_if (negb (utf8_valid link_path)) UnsafeArchivePath;;
  reject_if (negb (bytes_eqb (nfc target) target)) UnsafeArchivePath;;
  if bool_decide (head target = Some SLASH) then Ok tt
  else symlink_loop (split SLASH target) (parent_components link_path).

Definition v45_primary_link_target `{Unicode} (header : bytes) (kind : TarEntryKind.t) (path : bytes)
    (primary : PrimaryMetadata) (max_path_length : Z) : fresult (option bytes) :=
  header_target ← text_field header 157 257;
  if is_kind kind TarEntryKind.Symlink || is_kind kind TarEntryKind.Hardlink then
    target ←
      (match pm_linkpath primary with
       | Some target =>
           reject_if (negb (bool_decide (header_target = [])))
             (InvalidArchive "PAX linkpath override has non-empty ustar linkname");;
           Ok target
       | None => Ok header_target
       end);
    reject_if (bool_decide (target = []) || bool_decide (NUL ∈ target)) (InvalidArchive "tar link target is empty");;
    (if is_kind kind TarEntryKind.Hardlink then validate_file_path_bytes target max_path_length
     else validate_symlink_target path target);;
    Ok (Some target)
  else
    reject_if (bool_decide (is_Some (pm_linkpath primary)) || negb (bool_decide (header_target = [])))
      (InvalidArchive "non-link primary has a link target");;
    Ok None.

(** ** The fields of a group against each other *)
Definition FILE_ATTRIBUTE_DIRECTORY : Z := 0x00000010.
Definition FILE_ATTRIBUTE_REPARSE_POINT : Z := 0x00000400.
Definition FILE_ATTRIBUTE_ENCRYPTED : Z := 0x00004000.
Definition STREAM_SPARSE_ATTRIBUTE : Z := 0x00000008.

Definition has_capture_omission (report : option (list CaptureReportRow)) (profile : bytes) (metadata_class : string) : bool :=
  match report with
  | Some rows => existsb (fun row => bytes_eqb (cr_profile row) profile && bytes_eqb (cr_metadata_class row) (ascii metadata_class)) rows
  | None => false
  end.

Definition count_kind (auxiliary : list AuxiliaryRecord) (kind : string) : Z :=
  Z.of_nat (length (filter (fun r => bytes_eqb (ar_kind r) (ascii kind) = true) auxiliary)).

(** The checks on the file attributes of a Windows entry. *)
Definition check_file_attributes (kind : TarEntryKind.t) (attributes : Z) (complete placeholder : bool)
    (capture_report : option (list CaptureReportRow)) (reparse_count efs_count : Z) : fresult unit :=
  let is_directory := is_kind kind TarEntryKind.Directory in
  reject_if (negb (is_kind kind TarEntryKind.Symlink)
             && negb (Bool.eqb (bit_set attributes FILE_ATTRIBUTE_DIRECTORY) is_directory))
    (InvalidArchive "Windows directory attribute disagrees with primary type");;
  let is_reparse := bit_set attributes FILE_ATTRIBUTE_REPARSE_POINT in
  reject_if (negb (reparse_count =? 0) && negb is_reparse)
    (InvalidArchive "Windows reparse data lacks FILE_ATTRIBUTE_REPARSE_POINT");;
  reject_if (is_reparse && (reparse_count =? 0)
             && (complete || negb (has_capture_omission capture_report WINDOWS_PROFILE "reparse-data")
                 || negb (is_kind kind TarEntryKind.Symlink) && negb placeholder))
    (InvalidArchive "Windows reparse attribute lacks exact data or a safe partial placeholder");;
  reject_if (placeholder && (negb is_reparse || negb (is_kind kind TarEntryKind.Regular || is_kind kind TarEntryKind.Directory)))
    (InvalidArchive "Windows reparse placeholder has invalid attributes or primary type");;
  reject_if (bit_set attributes FILE_ATTRIBUTE_ENCRYPTED && (efs_count =? 0)
             && (complete || negb (has_capture_omission capture_report WINDOWS_PROFILE "efs-raw")))
    (InvalidArchive "encrypted Windows entry lacks raw EFS data or a matching omission").

Definition validate_windows_cross_fields (kind : TarEntryKind.t) (records : PaxRecords) (primary : PrimaryMetadata)
    (auxiliary : list AuxiliaryRecord) (sparse : bool) (capture_report : option (list CaptureReportRow)) : fresult unit :=
  let selected := MetadataDeclaration_profile_selected (pm_declaration primary) WINDOWS_PROFILE in
  file_attributes ← optional records "TZAP.windows.file-attributes"
    (fun value => parse_lower_hex_u32 value "Windows file attributes");
  stream_attributes ← optional records "TZAP.windows.data-stream-attributes"
    (fun value => parse_lower_hex_u32 value "Windows data-stream attributes");
  let placeholder := has_key records "TZAP.windows.reparse-placeholder" in
  let reparse_count := count_kind auxiliary "windows.reparse-data" in
  let security_descriptor_count := count_kind auxiliary "windows.security-descriptor" in
  let efs_count := count_kind auxiliary "windows.efs-raw" in
  if negb selected then
    reject_if (bool_decide (is_Some file_attributes) || bool_decide (is_Some stream_attributes) || placeholder
               || negb (reparse_count =? 0) || negb (security_descriptor_count =? 0) || negb (efs_count =? 0))
      (InvalidArchive "Windows metadata is present without windows-backup-v1")
  else
    let complete := bool_decide (md_capture_status (pm_declaration primary) = Complete) in
    let omitted := has_capture_omission capture_report WINDOWS_PROFILE in
    reject_if (negb (bool_decide (is_Some file_attributes)) && (complete || negb (omitted "file-attributes")))
      (InvalidArchive "windows-backup-v1 lacks exact file attributes or a matching omission");;
    reject_if ((security_descriptor_count =? 0) && (complete || negb (omitted "security-descriptor")))
      (InvalidArchive "windows-backup-v1 lacks a security descriptor or a matching omission");;
    (match file_attributes with
     | Some attributes => check_file_attributes kind attributes complete placeholder capture_report reparse_count efs_count
     | None =>
         reject_if (placeholder || negb (reparse_count =? 0) || negb (efs_count =? 0))
           (InvalidArchive "Windows native records cannot be checked without file attributes")
     end);;
    let ordinary_regular := is_kind kind TarEntryKind.Regular && negb placeholder in
    reject_if (negb ordinary_regular && bool_decide (is_Some stream_attributes))
      (InvalidArchive "Windows default-data-stream attributes disagree with primary type");;
    reject_if (ordinary_regular && negb (bool_decide (is_Some stream_attributes))
               && (complete || negb (omitted "data-stream-attributes")))
      (InvalidArchive "Windows regular primary lacks default-data-stream attributes or an omission");;
    match stream_attributes with
    | Some attributes =>
        reject_if (negb (Bool.eqb (bit_set attributes STREAM_SPARSE_ATTRIBUTE) sparse)
                   && negb (negb sparse && bool_decide (md_capture_status (pm_declaration primary) = Partial)
                            && omitted "sparse-layout"))
          (InvalidArchive "Windows primary sparse attribute disagrees with sparse framing")
    | None =>
        reject_if (sparse && negb (omitted "data-stream-attributes"))
          (InvalidArchive "sparse Windows primary lacks default-stream attributes")
    end.

(** The extended attributes that back an access-control list. *)
Definition acl_backing_xattr (name : bytes) : bool :=
  matches name ["system.posix_acl_access"; "system.posix_acl_default"; "com.apple.system.Security"].

Definition is_generic_xattr (r : AuxiliaryRecord) : bool := matches (ar_kind r) ["generic.xattr"].

Definition check_whiteout (kind : TarEntryKind.t) (records : PaxRecords) : fresult unit :=
  major ← optional records "TZAP.posix.device-major" (fun value => parse_minimal_decimal_u64 value "device major");
  minor ← optional records "TZAP.posix.device-minor" (fun value => parse_minimal_decimal_u64 value "device minor");
  reject_if (negb (is_kind kind TarEntryKind.CharacterDevice) || negb (bool_decide (major = Some 0))
             || negb (bool_decide (minor = Some 0)))
    (InvalidArchive "Linux whiteout is not a character device with major/minor zero").

Definition check_hardlink (primary : PrimaryMetadata) (auxiliary : list AuxiliaryRecord) (path : bytes) (target : option bytes)
    (sparse : bool) : fresult unit :=
  reject_if (negb (bool_decide (md_required_profiles (pm_declaration primary) = [PORTABLE_PROFILE]))
             || negb (bool_decide (md_optional_profiles (pm_declaration primary) = []))
             || sparse || existsb (fun r => negb (is_report r)) auxiliary)
    (InvalidArchive "hardlink alias carries forbidden native or inode metadata");;
  reject_if (bool_decide (target = Some path)) (InvalidArchive "hardlink aliases itself").

Definition validate_v45_primary_cross_fields (kind : TarEntryKind.t) (records : PaxRecords) (primary : PrimaryMetadata)
    (auxiliary : list AuxiliaryRecord) (path : bytes) (target : option bytes) (sparse : bool)
    (capture_report : option (list CaptureReportRow)) : fresult unit :=
  let has_device_major := has_key records "TZAP.posix.device-major" in
  let has_device_minor := has_key records "TZAP.posix.device-minor" in
  reject_if (negb (Bool.eqb (is_device kind) (has_device_major && has_device_minor)))
    (InvalidArchive "device primary and device-number metadata disagree");;
  reject_if ((is_kind kind TarEntryKind.Fifo || is_device kind)
             && negb (MetadataDeclaration_profile_selected (pm_declaration primary) (ascii "posix-backup-v1")))
    (InvalidArchive "special POSIX primary lacks posix-backup-v1");;
  (if has_key records "TZAP.linux.whiteout" then check_whiteout kind records else Ok tt);;
  reject_if (sparse && negb (is_kind kind TarEntryKind.Regular))
    (InvalidArchive "non-regular primary carries sparse metadata");;
  (if is_kind kind TarEntryKind.Hardlink then check_hardlink primary auxiliary path target sparse else Ok tt);;
  reject_if (has_key records "TZAP.windows.directory-case-sensitive" && negb (is_kind kind TarEntryKind.Directory))
    (InvalidArchive "Windows directory case-sensitive state is attached to a non-directory");;
  reject_if (has_key records "SCHILY.acl.default" && negb (is_kind kind TarEntryKind.Directory))
    (InvalidArchive "default POSIX ACL is attached to a non-directory");;
  reject_if (has_key records "TZAP.macos.clone-group" && negb (is_kind kind TarEntryKind.Regular))
    (InvalidArchive "macOS clone group is attached to a non-regular primary");;
  validate_windows_cross_fields kind records primary auxiliary sparse capture_report;;
  let has_textual_acl := has_key records "SCHILY.acl.access" || has_key records "SCHILY.acl.default"
                         || has_key records "SCHILY.acl.ace" in
  let has_native_macos_acl := existsb (fun r => matches (ar_kind r) ["macos.acl-native"]) auxiliary in
  let acl_projection_none := value_is (pax_get records (ascii "TZAP.acl.projection")) "none" in
  reject_if (negb (Bool.eqb (negb has_textual_acl && has_native_macos_acl) acl_projection_none))
    (InvalidArchive "native-only ACL declaration and projection=none disagree");;
  reject_if (existsb (fun r => is_generic_xattr r && existsb (fun name => bytes_eqb name (ar_decoded_name r)) (pm_xattr_names primary))
               auxiliary)
    (InvalidArchive "xattr is duplicated in primary and auxiliary metadata");;
  reject_if (has_textual_acl
             && (existsb acl_backing_xattr (pm_xattr_names primary)
                 || existsb (fun r => is_generic_xattr r && acl_backing_xattr (ar_decoded_name r)) auxiliary))
    (InvalidArchive "filesystem ACL backing xattr duplicates declared ACL metadata").

Definition v45_group_flags (primary : PrimaryMetadata) (auxiliary : list AuxiliaryRecord) (kind : TarEntryKind.t)
    : fresult (Z * option (list CaptureReportRow)) :=
  '(flags, capture_report) ← validate_group_metadata primary auxiliary;
  mret (raise (is_device kind || is_kind kind TarEntryKind.Fifo) REQUIRES_SYSTEM_RESTORE flags, capture_report).

(** ** One entry of a group *)
Record TarEntry : Type := {
  te_header : bytes;
  te_typeflag : Z;
  te_header_size : Z;
  te_effective_size : Z;
  te_payload : bytes;
  te_padded_end : Z
}.

(** The size of the entry, from the records pending for it or its header. *)
Definition effective_size (pending : option (V45PaxKind * PaxRecords)) (header_size : Z) : fresult Z :=
  match pending with
  | Some (_, records) =>
      size ← optional records "size" (fun value => parse_minimal_decimal_u64 value "PAX size");
      mret (default header_size size)
  | None => Ok header_size
  end.

(** [header.iter().all(|byte| *byte == 0)] *)
Definition empty_header (header : bytes) : bool := all_zero header.

Definition read_entry (group : bytes) (cursor : Z) (pending : option (V45PaxKind * PaxRecords)) : fresult TarEntry :=
  header ← tar_slice group cursor TAR_BLOCK_LEN;
  reject_if (empty_header header) (InvalidArchive "tar member header is empty");;
  verify_tar_checksum header;;
  typeflag ← byte_at header 156;
  header_size ← octal_field header 124 136;
  size ← effective_size pending header_size;
  let overflow := InvalidArchive "tar member arithmetic overflow" in
  payload_start ← ok_or (checked_add 64 cursor TAR_BLOCK_LEN) overflow;
  payload_len ← ok_or (try_from 64 size) (InvalidArchive "tar member size overflow");
  payload_end ← ok_or (checked_add 64 payload_start payload_len) overflow;
  padded_end ← ok_or (checked_add 64 payload_end (padding_to_512 payload_len)) overflow;
  payload ← tar_slice group payload_start payload_len;
  reject_if (blen group <? padded_end) (InvalidArchive "tar member payload exceeds group");;
  padding ← slice group payload_end padded_end;
  reject_if (negb (all_zero padding)) (InvalidArchive "tar member padding is non-zero");;
  mret {| te_header := header; te_typeflag := typeflag; te_header_size := header_size; te_effective_size := size;
          te_payload := payload; te_padded_end := padded_end |}.

(** ** The group *)
Definition entry_type (typeflag : Z) (codes : string) : bool :=
  existsb (fun code => typeflag =? byte.unsigned code) (ascii codes).

(** The kind of a primary entry by its type flag. *)
Definition primary_kind (typeflag : Z) : TarEntryKind.t :=
  if entry_type typeflag "5" then TarEntryKind.Directory
  else if entry_type typeflag "2" then TarEntryKind.Symlink
  else if entry_type typeflag "1" then TarEntryKind.Hardlink
  else if entry_type typeflag "3" then TarEntryKind.CharacterDevice
  else if entry_type typeflag "4" then TarEntryKind.BlockDevice
  else if entry_type typeflag "6" then TarEntryKind.Fifo
  else TarEntryKind.Regular.

(** What the loop over the entries keeps. *)
Record GroupState : Type := {
  gs_cursor : Z;
  gs_pending : option (V45PaxKind * PaxRecords);
  gs_auxiliary : list AuxiliaryRecord;
  gs_aggregate_pax_bytes : Z
}.

Definition GroupState_new : GroupState :=
  {| gs_cursor := 0; gs_pending := None; gs_auxiliary := []; gs_aggregate_pax_bytes := 0 |}.

(** The kind of a local PAX header by its label. *)
Definition pax_entry_kind (label : bytes) (auxiliary_count : Z) : fresult V45PaxKind :=
  if bytes_eqb label PRIMARY_LABEL then Ok Primary
  else match parse_auxiliary_pax_label label with
       | Some ordinal =>
           reject_if (negb (ordinal =? auxiliary_count)) (InvalidArchive "auxiliary PAX ordinal is not contiguous");;
           Ok (Auxiliary ordinal)
       | None => Err (InvalidArchive "revision-45 PAX header has a non-canonical internal name")
       end.

(** A local PAX header: what becomes pending and the bytes of records so far. *)
Definition read_pax_entry (e : TarEntry) (pending : option (V45PaxKind * PaxRecords)) (auxiliary_count aggregate : Z)
    : fresult (V45PaxKind * PaxRecords * Z) :=
  reject_if (bool_decide (is_Some pending)) (InvalidArchive "PAX header is not immediately consumed");;
  validate_v45_metadata_header (te_header e);;
  aggregate ← ok_or (checked_add 64 aggregate (blen (te_payload e))) (InvalidArchive "aggregate PAX size overflow");
  reject_if (MAX_AGGREGATE_PAX_PAYLOAD <? aggregate)
    (ReaderResourceLimitExceeded "aggregate local PAX payload bytes per member group" MAX_AGGREGATE_PAX_PAYLOAD aggregate);;
  records ← parse_canonical_pax (te_payload e);
  label ← ustar_path (te_header e);
  kind ← pax_entry_kind label auxiliary_count;
  mret (kind, records, aggregate).

(** [auxiliary.len() as u32] *)
Definition auxiliary_count (auxiliary : list AuxiliaryRecord) : Z := Z.of_nat (length auxiliary) mod 2 ^ 32.

Definition read_auxiliary_entry `{Unicode, Sha256} (e : TarEntry) (pending : option (V45PaxKind * PaxRecords))
    : fresult AuxiliaryRecord :=
  match pending with
  | Some (Auxiliary ordinal, records) =>
      validate_v45_auxiliary_header (te_header e) ordinal (te_header_size e) (te_effective_size e);;
      parse_auxiliary_record records ordinal (te_effective_size e) (te_payload e)
  | _ => Err (InvalidArchive "auxiliary entry is missing its local PAX header")
  end.

Definition read_sparse_layout (kind : TarEntryKind.t) (reparse_placeholder : bool) (primary : PrimaryMetadata) (payload : bytes)
    : fresult (option SparseLayout) :=
  match pm_sparse_logical_size primary with
  | Some logical_size =>
      reject_if (negb (is_kind kind TarEntryKind.Regular) || reparse_placeholder)
        (InvalidArchive "sparse metadata is not valid for this primary type");;
      Some <$> parse_sparse_payload payload logical_size
  | None => Ok None
  end.

(** The primary entry, whose end is the end of the group. *)
Definition read_primary_entry `{Unicode} (e : TarEntry) (pending : option (V45PaxKind * PaxRecords))
    (auxiliary : list AuxiliaryRecord) (group_len max_path_length : Z) : fresult ParsedTarMember :=
  records ← ok_or (match pending with Some (Primary, records) => Some records | _ => None end)
              (InvalidArchive "primary entry is missing its canonical local PAX header");
  reject_if (negb (te_padded_end e =? group_len)) (InvalidArchive "tar member group has bytes after main entry");;
  let kind := primary_kind (te_typeflag e) in
  let header := te_header e in
  primary ← parse_primary_metadata records;
  validate_v45_primary_header header kind (te_header_size e) (te_effective_size e) primary records;;
  path ← v45_primary_path header kind records primary max_path_length;
  link_target ← v45_primary_link_target header kind path primary max_path_length;
  let is_sparse := bool_decide (is_Some (pm_sparse_logical_size primary)) in
  let reparse_placeholder := has_key records "TZAP.windows.reparse-placeholder" in
  let regular := is_kind kind TarEntryKind.Regular in
  reject_if (negb regular && negb (te_effective_size e =? 0)) (InvalidArchive "non-regular tar entry has non-zero payload size");;
  reject_if (reparse_placeholder && negb (te_effective_size e =? 0))
    (InvalidArchive "reparse placeholder has non-zero primary payload");;
  sparse_layout ← read_sparse_layout kind reparse_placeholder primary (te_payload e);
  let logical_size :=
    if regular && negb reparse_placeholder then default (te_effective_size e) (pm_sparse_logical_size primary) else 0 in
  '(file_entry_flags, capture_report) ← v45_group_flags primary auxiliary kind;
  validate_v45_primary_cross_fields kind records primary auxiliary path link_target is_sparse capture_report;;
  mtime ← decoded_mtime primary header;
  portable_mirror ← portable_metadata_mirror header records primary;
  mret {| tm_path := path; tm_kind := kind; tm_data := if regular then te_payload e else [];
          tm_link_target := link_target; tm_mode := md_portable_mode (pm_declaration primary); tm_mtime := mtime;
          tm_logical_size := logical_size; tm_reparse_placeholder := reparse_placeholder;
          tm_v45_metadata := {|
            mm_declaration := pm_declaration primary; mm_primary_records := records; mm_auxiliary := auxiliary;
            mm_file_entry_flags := file_entry_flags; mm_sparse_layout := sparse_layout; mm_capture_report := capture_report;
            mm_primary_has_native_scalar := pm_has_native_scalar primary;
            mm_primary_requires_system_restore := pm_requires_system_restore primary;
            mm_portable_mirror := portable_mirror |} |}.

(** One round of the loop: the next state, or the member at its end. *)
Definition member_round `{Unicode, Sha256} (group : bytes) (max_path_length : Z) (s : GroupState)
    : fresult (GroupState + ParsedTarMember) :=
  e ← read_entry group (gs_cursor s) (gs_pending s);
  if entry_type (te_typeflag e) "x" then
    '(kind, records, aggregate) ←
      read_pax_entry e (gs_pending s) (auxiliary_count (gs_auxiliary s)) (gs_aggregate_pax_bytes s);
    mret (inl {| gs_cursor := te_padded_end e; gs_pending := Some (kind, records); gs_auxiliary := gs_auxiliary s;
                 gs_aggregate_pax_bytes := aggregate |})
  else if entry_type (te_typeflag e) "Z" then
    r ← read_auxiliary_entry e (gs_pending s);
    mret (inl {| gs_cursor := te_padded_end e; gs_pending := None; gs_auxiliary := gs_auxiliary s ++ [r];
                 gs_aggregate_pax_bytes := gs_aggregate_pax_bytes s |})
  else if entry_type (te_typeflag e) "gLKVMNS" then
    Err (InvalidArchive "global or GNU tar metadata is forbidden in revision 45")
  else if (te_typeflag e =? 0) || entry_type (te_typeflag e) "0521346" then
    inr <$> read_primary_entry e (gs_pending s) (gs_auxiliary s) (blen group) max_path_length
  else Err (InvalidArchive "unsupported revision-45 tar entry type").

Fixpoint member_loop `{Unicode, Sha256} (fuel : nat) (group : bytes) (max_path_length : Z) (s : GroupState)
    : fresult ParsedTarMember :=
  match fuel with
  | O => Panic
  | S fuel =>
      next ← member_round group max_path_length s;
      match next with
      | inr member => Ok member
      | inl s =>
          reject_if (blen group <=? gs_cursor s)
            (InvalidArchive "tar member group has metadata records but no main entry");;
          member_loop fuel group max_path_length s
      end
  end.

(** Every entry takes at least a header, so the length of the group is enough
    fuel. *)
Definition parse_tar_member_group `{Unicode, Sha256} (group : bytes) (max_path_length : Z) : fresult ParsedTarMember :=
  reject_if ((blen group <? TAR_BLOCK_LEN * 3) || negb (blen group mod TAR_BLOCK_LEN =? 0))
    (InvalidArchive "tar member group is not block aligned");;
  member_loop (length group) group max_path_length GroupState_new.

(** ** The end of a group in a stream *)
Definition try_slice (stream : bytes) (offset len : Z) : fresult (option bytes) :=
  end_ ← ok_or (checked_add 64 offset len) (InvalidArchive "tar member arithmetic overflow");
  if blen stream <? end_ then Ok None else Some <$> slice stream offset end_.

(** The entry at [cursor], or nothing where the stream ends inside it. *)
Definition try_read_entry (stream : bytes) (cursor : Z) (pending : option (V45PaxKind * PaxRecords)) : fresult (option TarEntry) :=
  header ← try_slice stream cursor TAR_BLOCK_LEN;
  match header with
  | None => Ok None
  | Some header =>
      reject_if (empty_header header) (InvalidArchive "tar member header is empty");;
      verify_tar_checksum header;;
      typeflag ← byte_at header 156;
      header_size ← octal_field header 124 136;
      size ← effective_size pending header_size;
      let overflow := InvalidArchive "tar member arithmetic overflow" in
      payload_start ← ok_or (checked_add 64 cursor TAR_BLOCK_LEN) overflow;
      payload_len ← ok_or (try_from 64 size) (InvalidArchive "tar member size overflow");
      payload_end ← ok_or (checked_add 64 payload_start payload_len) overflow;
      padded_end ← ok_or (checked_add 64 payload_end (padding_to_512 payload_len)) overflow;
      payload ← try_slice stream payload_start payload_len;
      match payload with
      | None => Ok None
      | Some payload =>
          if blen stream <? padded_end then Ok None
          else
            padding ← slice stream payload_end padded_end;
            reject_if (negb (all_zero padding)) (InvalidArchive "tar member padding is non-zero");;
            mret (Some {| te_header := header; te_typeflag := typeflag; te_header_size := header_size;
                          te_effective_size := size; te_payload := payload; te_padded_end := padded_end |})
      end
  end.

(** The loop: the state counts the auxiliary entries instead of keeping them. *)
Fixpoint group_end_loop (fuel : nat) (stream : bytes) (cursor : Z) (pending : option (V45PaxKind * PaxRecords))
    (count aggregate : Z) : fresult (option Z) :=
  match fuel with
  | O => Panic
  | S fuel =>
      entry ← try_read_entry stream cursor pending;
      match entry with
      | None => Ok None
      | Some e =>
          let next pending count aggregate :=
            if blen stream <=? te_padded_end e then Ok None
            else group_end_loop fuel stream (te_padded_end e) pending count aggregate in
          if entry_type (te_typeflag e) "x" then
            '(kind, records, aggregate) ← read_pax_entry e pending count aggregate;
            next (Some (kind, records)) count aggregate
          else if entry_type (te_typeflag e) "Z" then
            ordinal ← ok_or (match pending with Some (Auxiliary ordinal, _) => Some ordinal | _ => None end)
                        (InvalidArchive "auxiliary entry is missing its local PAX header");
            validate_v45_auxiliary_header (te_header e) ordinal (te_header_size e) (te_effective_size e);;
            count ← ok_or (checked_add 32 count 1) (InvalidArchive "auxiliary count overflow");
            next None count aggregate
          else if entry_type (te_typeflag e) "gLKVMNS" then
            Err (InvalidArchive "global or GNU tar metadata is forbidden in revision 45")
          else if (te_typeflag e =? 0) || entry_type (te_typeflag e) "0521346" then
            match pending with
            | Some (Primary, _) => Ok (Some (te_padded_end e))
            | _ => Err (InvalidArchive "primary entry is missing its canonical local PAX header")
            end
          else Err (InvalidArchive "unsupported revision-45 tar entry type")
      end
  end.

Definition try_tar_member_group_end (stream : bytes) (start : Z) : fresult (option Z) :=
  group_end_loop (S (length stream)) stream start None 0 0.

Definition tar_member_group_end (stream : bytes) (start : Z) : fresult Z :=
  end_ ← try_tar_member_group_end stream start;
  ok_or end_ (InvalidArchive "tar member payload exceeds stream").

(** ** The size of an extraction *)
Definition add_member_size (total : Z) (member : ParsedTarMember) (cap : Z) : fresult Z :=
  if is_kind (tm_kind member) TarEntryKind.Regular then
    total ← ok_or (checked_add 64 total (tm_logical_size member)) (InvalidArchive "total extraction size overflow");
    reject_if (cap <? total) (ReaderUnsupported "total extraction size exceeds configured cap");;
    mret total
  else mret total.

Fixpoint extraction_size_loop `{Unicode, Sha256} (fuel : nat) (stream : bytes) (cursor total max_path_length cap : Z) : fresult unit :=
  if cursor <? blen stream then
    match fuel with
    | O => Panic
    | S fuel =>
        group_end ← tar_member_group_end stream cursor;
        group ← slice stream cursor group_end;
        member ← parse_tar_member_group group max_path_length;
        total ← add_member_size total member cap;
        extraction_size_loop fuel stream group_end total max_path_length cap
    end
  else Ok tt.

Definition validate_tar_stream_total_extraction_size `{Unicode, Sha256} (stream : bytes) (max_path_length cap : Z) : fresult unit :=
  reject_if (negb (blen stream mod TAR_BLOCK_LEN =? 0)) (InvalidArchive "tar stream is not block aligned");;
  extraction_size_loop (length stream) stream 0 0 max_path_length cap.

(** ** Entries *)
Lemma octal_field_no_panic h i j : 0 <= i -> i <= j -> j <= blen h -> octal_field h i j <> Panic.
Proof. intros. unfold octal_field. rewrite slice_in_range by done. apply parse_tar_octal_no_panic. Qed.

Lemma text_field_no_panic h i j : 0 <= i -> i <= j -> j <= blen h -> text_field h i j <> Panic.
Proof. intros. unfold text_field. by rewrite slice_in_range. Qed.

Lemma verify_tar_checksum_no_panic h : 156 <= blen h -> verify_tar_checksum h <> Panic.
Proof.
  intros. unfold verify_tar_checksum. rewrite slice_in_range by lia. cbn [mbind result_bind].
  apply bind_no_panic; [apply parse_tar_octal_no_panic|intros ? _; apply reject_if_no_panic].
Qed.

Lemma parse_minimal_decimal_u64_no_panic value structure : parse_minimal_decimal_u64 value structure <> Panic.
Proof. unfold parse_minimal_decimal_u64. no_panic. Qed.

Lemma parse_minimal_decimal_u64_Ok value structure n :
  parse_minimal_decimal_u64 value structure = Ok n <-> u64 n /\ value = to_decimal n.
Proof.
  rewrite <- (parse_decimal_u64_Ok value structure). unfold parse_minimal_decimal_u64, parse_decimal_u64.
  destruct (not_minimal_decimal value); [done|]. cbn. by destruct (from_str_radix 64 10 value).
Qed.

Lemma parse_lower_hex_u32_no_panic value structure : parse_lower_hex_u32 value structure <> Panic.
Proof. unfold parse_lower_hex_u32. no_panic. Qed.

#[export] Hint Resolve parse_minimal_decimal_u64_no_panic parse_lower_hex_u32_no_panic : no_panic.

Lemma parse_octal_loop_range value saw field v : u64 value -> parse_octal_loop value saw field = Ok v -> u64 v.
Proof.
  revert value saw. induction field as [|x field IH]; intros value saw H0; cbn [parse_octal_loop].
  - by intros [= <-].
  - case_bool_decide as Hx0; [destruct saw; [by intros [= <-]|by apply IH]|]. destruct (byte_between 0x30 0x37 x) eqn:Ex; [|done].
    intros H. apply bind_Ok in H as (m & Hm%ok_or_Ok & H). apply bind_Ok in H as (n & [Hn ->]%ok_or_Ok%checked_add_Some & H).
    unfold byte_between in Ex. apply andb_true_iff in Ex as [Hx _]. apply Z.leb_le in Hx.
    unfold checked_mul in Hm. case_match; [|done]. injection Hm as <-. apply IH in H; [done|]. unfold fits in *. lia.
Qed.

Lemma octal_field_u64 h i j v : octal_field h i j = Ok v -> u64 v.
Proof. unfold octal_field. intros (f & _ & H)%bind_Ok. by apply parse_octal_loop_range in H. Qed.

Lemma effective_size_u64 pending h n : u64 h -> effective_size pending h = Ok n -> u64 n.
Proof.
  unfold effective_size. intros Hh. destruct pending as [[? records]|]; [|by intros [= <-]].
  intros (size & Hs & [= <-])%bind_Ok. destruct size as [n|]; [|done]. cbn.
  destruct (optional_Some _ _ _ _ n Hs eq_refl) as (text & _ & Ht). by apply parse_minimal_decimal_u64_Ok in Ht as [? _].
Qed.

(** An entry of [group] at [cursor]. *)
Record entry_at (group : bytes) (cursor : Z) (pending : option (V45PaxKind * PaxRecords)) (e : TarEntry) : Prop := {
  ea_cursor : 0 <= cursor;
  ea_header : te_header e = seg group cursor (cursor + 512);
  ea_nonempty : empty_header (te_header e) = false;
  ea_checksum : verify_tar_checksum (te_header e) = Ok tt;
  ea_typeflag : byte_at (te_header e) 156 = @Ok FormatError _ (te_typeflag e);
  ea_header_size : octal_field (te_header e) 124 136 = Ok (te_header_size e);
  ea_size : effective_size pending (te_header_size e) = Ok (te_effective_size e);
  ea_size_u64 : 0 <= te_effective_size e;
  ea_payload : te_payload e = seg group (cursor + 512) (cursor + 512 + te_effective_size e);
  ea_padded_end : te_padded_end e = cursor + 512 + te_effective_size e + padding_to_512 (te_effective_size e);
  ea_end : te_padded_end e <= blen group;
  ea_padding : all_zero (seg group (cursor + 512 + te_effective_size e) (te_padded_end e)) = true
}.

Lemma tar_slice_Ok b offset len s :
  blen b < 2 ^ 64 -> tar_slice b offset len = Ok s <-> 0 <= offset /\ 0 <= len /\ offset + len <= blen b /\ s = seg b offset (offset + len).
Proof.
  intros Hb. unfold tar_slice. split.
  - intros H. apply bind_Ok in H as (n & [_ ->]%ok_or_Ok%checked_add_Some & H).
    apply ok_or_Ok, get_range_Some in H as (? & ? & ? & ->). split_and!; try lia. done.
  - intros (? & ? & ? & ->). rewrite checked_add_eq by lia. cbn [ok_or]. rewrite bind_ret.
    rewrite (proj2 (get_range_Some _ _ _ _)) by (split_and!; [done|lia|lia|reflexivity]). done.
Qed.

Lemma read_entry_Ok group cursor pending e :
  blen group < 2 ^ 63 -> 0 <= cursor -> read_entry group cursor pending = Ok e -> entry_at group cursor pending e.
Proof.
  intros Hg Hc H. unfold read_entry in H. apply bind_Ok in H as (header & (_ & _ & Hl & Hh)%tar_slice_Ok & H); [|lia].
  change TAR_BLOCK_LEN with 512 in *.
  apply bind_Ok in H as (? & He%reject_if_Ok & H). apply bind_Ok in H as ([] & Hv & H). apply bind_Ok in H as (flag & Hf & H).
  apply bind_Ok in H as (hs & Hhs & H). apply bind_Ok in H as (size & Hsize & H). cbv zeta in H.
  apply bind_Ok in H as (p0 & [_ ->]%ok_or_Ok%checked_add_Some & H).
  pose proof (effective_size_u64 _ _ _ (octal_field_u64 _ _ _ _ Hhs) Hsize) as Hu.
  apply bind_Ok in H as (len & Hlen & H).
  assert (len = size) as -> by (unfold try_from in Hlen; case_match; [by injection Hlen|done]).
  apply bind_Ok in H as (p1 & [_ ->]%ok_or_Ok%checked_add_Some & H).
  apply bind_Ok in H as (p2 & [_ ->]%ok_or_Ok%checked_add_Some & H).
  apply bind_Ok in H as (payload & (_ & _ & _ & ->)%tar_slice_Ok & H); [|lia].
  apply bind_Ok in H as (? & Hend%reject_if_Ok%Z.ltb_ge & H). apply bind_Ok in H as (padding & (_ & _ & _ & ->)%slice_Ok & H).
  apply bind_Ok in H as (? & Hz%reject_if_Ok%negb_false_iff & [= <-]). unfold fits in Hu.
  subst header. split; cbn; try done; lia.
Qed.

(** The entry, where its end in the group is at [base]. *)
Definition shift_entry (base : Z) (e : TarEntry) : TarEntry := {|
  te_header := te_header e; te_typeflag := te_typeflag e; te_header_size := te_header_size e;
  te_effective_size := te_effective_size e; te_payload := te_payload e; te_padded_end := base + te_padded_end e |}.

Lemma seg_inside pre group rest i j :
  0 <= i -> i <= j -> j <= blen group -> seg (pre ++ group ++ rest) (blen pre + i) (blen pre + j) = seg group i j.
Proof.
  intros. rewrite seg_app_r by lia. rewrite seg_app_l by lia. f_equal; lia.
Qed.

Lemma entry_at_inside pre group rest cursor pending e :
  entry_at group cursor pending e -> entry_at (pre ++ group ++ rest) (blen pre + cursor) pending (shift_entry (blen pre) e).
Proof.
  intros [H1 H2 H3 H4 H5 H6 H7 H8 H9 H10 H11 H12]. pose proof (padding_spec (te_effective_size e) H8) as [Hp _].
  pose proof (blen_nonneg pre). pose proof (blen_nonneg rest).
  split; cbn; try done; rewrite ?blen_app; try lia.
  - rewrite <- Z.add_assoc, seg_inside by lia. done.
  - rewrite <- !Z.add_assoc, seg_inside by lia. by rewrite H9, !Z.add_assoc.
  - rewrite <- !Z.add_assoc, seg_inside by lia. rewrite !Z.add_assoc. by rewrite H10 in H12 |- *.
Qed.

Lemma try_slice_in stream i len :
  blen stream < 2 ^ 64 -> 0 <= i -> 0 <= len -> i + len <= blen stream -> try_slice stream i len = Ok (Some (seg stream i (i + len))).
Proof.
  intros. unfold try_slice. rewrite checked_add_eq by lia. cbn [ok_or]. rewrite bind_ret.
  rewrite (proj2 (Z.ltb_ge _ _)) by lia. by rewrite slice_in_range by lia.
Qed.

Lemma try_read_entry_at stream cursor pending e :
  blen stream < 2 ^ 63 -> entry_at stream cursor pending e -> try_read_entry stream cursor pending = Ok (Some e).
Proof.
  intros Hs [H1 H2 H3 H4 H5 H6 H7 H8 H9 H10 H11 H12]. pose proof (padding_spec (te_effective_size e) H8) as [Hp _].
  unfold try_read_entry. change TAR_BLOCK_LEN with 512. rewrite try_slice_in, bind_ret by lia. rewrite <- H2, H3.
  cbn [reject_if]. rewrite bind_ret, H4, bind_ret, H5, bind_ret, H6, bind_ret, H7, bind_ret. cbv zeta.
  rewrite checked_add_eq by lia. cbn [ok_or]. rewrite bind_ret.
  assert (try_from 64 (te_effective_size e) = Some (te_effective_size e)) as ->.
  { unfold try_from. replace (fitsb 64 (te_effective_size e)) with true; [done|]. symmetry. apply fitsb_fits. unfold fits. lia. }
  cbn [ok_or]. rewrite bind_ret. rewrite checked_add_eq by lia. cbn [ok_or]. rewrite bind_ret.
  rewrite checked_add_eq by lia. cbn [ok_or]. rewrite bind_ret, try_slice_in, bind_ret by lia.
  rewrite <- H10, (proj2 (Z.ltb_ge _ _)) by lia. rewrite slice_in_range, bind_ret by lia. rewrite H12. cbn [negb reject_if].
  rewrite bind_ret, <- H9. by destruct e.
Qed.

(** ** The end of a group *)
Lemma read_primary_entry_end `{Unicode} e pending auxiliary len max m :
  read_primary_entry e pending auxiliary len max = Ok m ->
  te_padded_end e = len /\ (exists records, pending = Some (Primary, records))
  /\ mm_auxiliary (tm_v45_metadata m) = auxiliary /\ Z.of_nat (length auxiliary) <= MAX_AUXILIARY_COUNT.
Proof.
  unfold read_primary_entry. cbv zeta. intros Hm.
  apply bind_Ok in Hm as (records & Hr%ok_or_Ok & Hm). apply bind_Ok in Hm as (? & He%reject_if_Ok & Hm).
  apply negb_false_iff, Z.eqb_eq in He. split; [done|].
  split; [destruct pending as [[[] ?]|]; [|done..]; injection Hr as ->; by exists records|].
  apply bind_Ok in Hm as (primary & _ & Hm). apply bind_Ok in Hm as (? & _ & Hm). apply bind_Ok in Hm as (path & _ & Hm).
  apply bind_Ok in Hm as (? & _ & Hm). apply bind_Ok in Hm as (? & _ & Hm). apply bind_Ok in Hm as (? & _ & Hm).
  apply bind_Ok in Hm as (layout & _ & Hm). apply bind_Ok in Hm as ([flags report] & Hf & Hm).
  apply bind_Ok in Hm as (? & _ & Hm). apply bind_Ok in Hm as (mtime & _ & Hm). apply bind_Ok in Hm as (mirror & _ & [= <-]).
  split; [done|]. unfold v45_group_flags in Hf. apply bind_Ok in Hf as ([f rep] & Hg & _).
  unfold validate_group_metadata in Hg. cbv zeta in Hg. by apply bind_Ok in Hg as (? & Hc%reject_if_Ok%Z.ltb_ge & _).
Qed.

(** What a round does, without the order of its tests. *)
Inductive member_step `{Unicode, Sha256} (group : bytes) (max : Z) (s : GroupState) (e : TarEntry)
    : GroupState + ParsedTarMember -> Prop :=
| Step_pax kind records aggregate :
    entry_type (te_typeflag e) "x" = true ->
    read_pax_entry e (gs_pending s) (auxiliary_count (gs_auxiliary s)) (gs_aggregate_pax_bytes s) = Ok (kind, records, aggregate) ->
    member_step group max s e (inl {| gs_cursor := te_padded_end e; gs_pending := Some (kind, records);
      gs_auxiliary := gs_auxiliary s; gs_aggregate_pax_bytes := aggregate |})
| Step_auxiliary r :
    entry_type (te_typeflag e) "x" = false -> entry_type (te_typeflag e) "Z" = true ->
    read_auxiliary_entry e (gs_pending s) = Ok r ->
    member_step group max s e (inl {| gs_cursor := te_padded_end e; gs_pending := None;
      gs_auxiliary := gs_auxiliary s ++ [r]; gs_aggregate_pax_bytes := gs_aggregate_pax_bytes s |})
| Step_primary m :
    entry_type (te_typeflag e) "x" = false -> entry_type (te_typeflag e) "Z" = false ->
    entry_type (te_typeflag e) "gLKVMNS" = false -> (te_typeflag e =? 0) || entry_type (te_typeflag e) "0521346" = true ->
    read_primary_entry e (gs_pending s) (gs_auxiliary s) (blen group) max = Ok m ->
    member_step group max s e (inr m).

Lemma member_round_Ok `{Unicode, Sha256} group max s next :
  member_round group max s = Ok next ->
  exists e, read_entry group (gs_cursor s) (gs_pending s) = Ok e /\ member_step group max s e next.
Proof.
  unfold member_round. intros (e & He & Hn)%bind_Ok. exists e. split; [done|].
  destruct (entry_type (te_typeflag e) "x") eqn:E1.
  { apply bind_Ok in Hn as ([[kind records] aggregate] & Hp & [= <-]). by constructor. }
  destruct (entry_type (te_typeflag e) "Z") eqn:E2.
  { apply bind_Ok in Hn as (r & Hr & [= <-]). by constructor. }
  destruct (entry_type (te_typeflag e) "gLKVMNS") eqn:E3; [done|].
  destruct ((te_typeflag e =? 0) || entry_type (te_typeflag e) "0521346") eqn:E4; [|done].
  destruct (read_primary_entry _ _ _ _ _) as [m| |] eqn:Em; [|done..]. injection Hn as <-. by constructor.
Qed.

Section GroupEnd.
Context `{Unicode, Sha256} (pre group rest : bytes) (max : Z) (Hlen : blen (pre ++ group ++ rest) < 2 ^ 63).

Lemma member_loop_end fuel fuel' s m :
  (fuel <= fuel')%nat -> 0 <= gs_cursor s -> member_loop fuel group max s = Ok m ->
  Z.of_nat (length (gs_auxiliary s)) <= MAX_AUXILIARY_COUNT
  /\ group_end_loop fuel' (pre ++ group ++ rest) (blen pre + gs_cursor s) (gs_pending s)
       (Z.of_nat (length (gs_auxiliary s))) (gs_aggregate_pax_bytes s) = Ok (Some (blen pre + blen group)).
Proof.
  revert fuel' s. induction fuel as [|fuel IH]; intros fuel' s Hf Hc Hm; [done|]. cbn [member_loop] in Hm.
  destruct fuel' as [|fuel']; [lia|]. cbn [group_end_loop].
  assert (blen group < 2 ^ 63) as Hg by (rewrite !blen_app in Hlen; pose proof (blen_nonneg pre); pose proof (blen_nonneg rest); lia).
  apply bind_Ok in Hm as (next & (e & He & Hstep)%member_round_Ok & Hm).
  apply read_entry_Ok in He as Hat; [|done..]. pose proof (entry_at_inside pre group rest _ _ _ Hat) as Hin.
  rewrite (try_read_entry_at _ _ _ _ Hlen Hin), bind_ret. cbn [te_typeflag te_padded_end shift_entry].
  pose proof (blen_nonneg rest). pose proof (padding_spec _ (ea_size_u64 _ _ _ _ Hat)) as [Hpad _].
  pose proof (ea_padded_end _ _ _ _ Hat) as Hend. pose proof (ea_size_u64 _ _ _ _ Hat) as Hsz. pose proof (ea_cursor _ _ _ _ Hat) as Hc0.
  destruct Hstep as [kind records aggregate E1 Hp|r E1 E2 Hr|m' E1 E2 E3 E4 Hr].
  - cbn [gs_cursor gs_pending gs_auxiliary gs_aggregate_pax_bytes] in Hm. apply bind_Ok in Hm as (? & Hle%reject_if_Ok%Z.leb_gt & Hm).
    apply (IH fuel') in Hm as [Haux Hm]; [|lia|cbn; lia]. cbn [gs_cursor gs_pending gs_auxiliary gs_aggregate_pax_bytes] in *.
    split; [done|]. unfold auxiliary_count, MAX_AUXILIARY_COUNT in *. rewrite Z.mod_small in Hp by lia.
    change (read_pax_entry (shift_entry (blen pre) e)) with (read_pax_entry e). rewrite E1, Hp, bind_ret.
    rewrite (proj2 (Z.leb_gt _ _)) by (rewrite !blen_app; lia). done.
  - cbn [gs_cursor gs_pending gs_auxiliary gs_aggregate_pax_bytes] in Hm. apply bind_Ok in Hm as (? & Hle%reject_if_Ok%Z.leb_gt & Hm).
    apply (IH fuel') in Hm as [Haux Hm]; [|lia|cbn; lia]. cbn [gs_cursor gs_pending gs_auxiliary gs_aggregate_pax_bytes] in *.
    rewrite length_app in Haux, Hm. cbn [length] in *. unfold MAX_AUXILIARY_COUNT in *. split; [lia|].
    unfold read_auxiliary_entry in Hr. destruct (gs_pending s) as [[[|ordinal] records]|]; [done| |done].
    apply bind_Ok in Hr as (u & Hv & _). rewrite E1, E2. cbn [ok_or]. rewrite bind_ret.
    cbn [te_header te_header_size te_effective_size shift_entry]. rewrite Hv, bind_ret, checked_add_eq by lia. cbn [ok_or].
    rewrite bind_ret, (proj2 (Z.leb_gt _ _)) by (rewrite !blen_app; lia).
    by replace (Z.of_nat (length (gs_auxiliary s)) + 1) with (Z.of_nat (length (gs_auxiliary s) + 1)) by lia.
  - injection Hm as ->. apply read_primary_entry_end in Hr as (Hpe & (records & ->) & _ & Hcount). split; [done|].
    rewrite E1, E2, E3, E4. by rewrite Hpe.
Qed.

(** Where the parser of a group accepts the group, the search for its end in a
    stream finds it. *)
Lemma group_end_found m :
  parse_tar_member_group group max = Ok m ->
  try_tar_member_group_end (pre ++ group ++ rest) (blen pre) = Ok (Some (blen pre + blen group)).
Proof.
  unfold parse_tar_member_group. intros (? & _ & Hm)%bind_Ok.
  apply (member_loop_end _ (S (length (pre ++ group ++ rest)))) in Hm as [_ Hm]; [|rewrite !length_app; lia|done].
  cbn [GroupState_new gs_cursor gs_pending gs_auxiliary gs_aggregate_pax_bytes length] in Hm. by rewrite Z.add_0_r in Hm.
Qed.
End GroupEnd.

(** ** What a member promises *)
Lemma member_loop_primary `{Unicode, Sha256} fuel group max s m :
  blen group < 2 ^ 63 -> 0 <= gs_cursor s -> member_loop fuel group max s = Ok m ->
  exists e cursor pending auxiliary, entry_at group cursor pending e
    /\ read_primary_entry e pending auxiliary (blen group) max = Ok m.
Proof.
  intros Hg. revert s. induction fuel as [|fuel IH]; intros s Hc Hm; [done|]. cbn [member_loop] in Hm.
  apply bind_Ok in Hm as (next & (e & He & Hstep)%member_round_Ok & Hm). apply read_entry_Ok in He as Hat; [|done..].
  pose proof (padding_spec _ (ea_size_u64 _ _ _ _ Hat)) as [Hpad _].
  pose proof (ea_padded_end _ _ _ _ Hat) as Hend. pose proof (ea_size_u64 _ _ _ _ Hat) as Hsz.
  destruct Hstep as [kind records aggregate E1 Hp|r E1 E2 Hr|m' E1 E2 E3 E4 Hr].
  - apply bind_Ok in Hm as (? & _ & Hm). by apply IH in Hm; [|cbn; lia].
  - apply bind_Ok in Hm as (? & _ & Hm). by apply IH in Hm; [|cbn; lia].
  - injection Hm as ->. eauto 10.
Qed.

(** The walk of an accepted relative target never leaves [base], however many
    of its components are followed. *)
Lemma symlink_loop_stays `{Unicode} components stack u k base :
  symlink_loop components stack = Ok u -> exists below, resolve (base ++ stack) (take k components) = base ++ below.
Proof.
  revert stack k. induction components as [|c components IH]; intros stack k; cbn [symlink_loop].
  { intros _. exists stack. by rewrite take_nil. }
  intros Hl. destruct k as [|k]; [by exists stack|]. cbn [take resolve].
  apply bind_Ok in Hl as (? & Hc%reject_if_Ok & Hl). apply orb_false_iff in Hc as [Hne%bool_decide_eq_false Hdot].
  apply not_true_iff_false in Hdot. rewrite bytes_eqb_eq in Hdot. rewrite bool_decide_eq_false_2 by tauto.
  destruct (bytes_eqb c (ascii "..")) eqn:E.
  - apply bytes_eqb_eq in E as ->. rewrite bool_decide_eq_true_2 by done.
    destruct stack as [|y stack]; [done|]. rewrite removelast_app by done. by apply IH.
  - apply not_true_iff_false in E. rewrite bytes_eqb_eq in E. rewrite bool_decide_eq_false_2 by done.
    apply bind_Ok in Hl as (? & _ & Hl). rewrite <- app_assoc. by apply IH.
Qed.

(** What an accepted member promises about its path and its link target. *)
Definition link_ok `{Unicode} (m : ParsedTarMember) (max : Z) : Prop :=
  match tm_kind m with
  | TarEntryKind.Hardlink =>
      exists target, tm_link_target m = Some target /\ validate_file_path_bytes target max = Ok tt /\ target <> tm_path m
  | TarEntryKind.Symlink =>
      exists target, tm_link_target m = Some target
        /\ (head target = Some SLASH
            \/ forall base k, exists below,
                 resolve (base ++ parent_components (tm_path m)) (take k (split SLASH target)) = base ++ below)
  | _ => tm_link_target m = None
  end.

(** What it promises about its contents. *)
Definition contents_ok (m : ParsedTarMember) : Prop :=
  if is_kind (tm_kind m) TarEntryKind.Regular then
    exists data, ParsedTarMember_to_owned_data (tm_data m) (mm_sparse_layout (tm_v45_metadata m)) = Ok data
                 /\ blen data = tm_logical_size m
  else tm_data m = [] /\ tm_logical_size m = 0 /\ mm_sparse_layout (tm_v45_metadata m) = None.

Lemma is_kind_true k k' : is_kind k k' = true <-> k = k'.
Proof. apply bool_decide_eq_true. Qed.

Lemma v45_primary_path_Ok `{Unicode} header kind records primary max path :
  v45_primary_path header kind records primary max = Ok path -> validate_file_path_bytes path max = Ok tt.
Proof.
  unfold v45_primary_path. intros (p & _ & Hp)%bind_Ok. cbv zeta in Hp. by apply bind_Ok in Hp as ([] & Hv & [= <-]).
Qed.

Lemma validate_symlink_target_stays `{Unicode} path target u :
  validate_symlink_target path target = Ok u ->
  head target = Some SLASH
  \/ forall base k, exists below, resolve (base ++ parent_components path) (take k (split SLASH target)) = base ++ below.
Proof.
  unfold validate_symlink_target. intros Hv. do 4 (apply bind_Ok in Hv as (? & _ & Hv)).
  case_bool_decide; [by left|]. right. intros base k. by apply (symlink_loop_stays _ _ _ k base) in Hv.
Qed.

(** The links a primary entry may have. *)
Lemma v45_primary_link_target_Ok `{Unicode} header kind path primary max link :
  v45_primary_link_target header kind path primary max = Ok link ->
  match kind with
  | TarEntryKind.Hardlink => exists target, link = Some target /\ validate_file_path_bytes target max = Ok tt
  | TarEntryKind.Symlink => exists target u, link = Some target /\ validate_symlink_target path target = Ok u
  | _ => link = None
  end.
Proof.
  unfold v45_primary_link_target. intros (ht & _ & Hl)%bind_Ok.
  destruct kind; cbn [is_kind bool_decide orb decide_rel] in Hl.
  all: try (by apply bind_Ok in Hl as (? & _ & [= <-])).
  - change (is_kind TarEntryKind.Symlink TarEntryKind.Symlink) with true in Hl.
    change (is_kind TarEntryKind.Symlink TarEntryKind.Hardlink) with false in Hl. cbn [orb] in Hl.
    apply bind_Ok in Hl as (target & _ & Hl). apply bind_Ok in Hl as (? & _ & Hl). apply bind_Ok in Hl as (u & Hv & [= <-]).
    by exists target, u.
  - change (is_kind TarEntryKind.Hardlink TarEntryKind.Symlink) with false in Hl.
    change (is_kind TarEntryKind.Hardlink TarEntryKind.Hardlink) with true in Hl. cbn [orb] in Hl.
    apply bind_Ok in Hl as (target & _ & Hl). apply bind_Ok in Hl as (? & _ & Hl). apply bind_Ok in Hl as ([] & Hv & [= <-]).
    by exists target.
Qed.

Lemma cross_fields_hardlink kind records primary auxiliary path target sparse report u :
  validate_v45_primary_cross_fields kind records primary auxiliary path target sparse report = Ok u ->
  kind = TarEntryKind.Hardlink -> target <> Some path.
Proof.
  unfold validate_v45_primary_cross_fields. cbv zeta. intros Hv ->. do 4 (apply bind_Ok in Hv as (? & _ & Hv)).
  apply bind_Ok in Hv as (? & Hl & _). change (is_kind TarEntryKind.Hardlink TarEntryKind.Hardlink) with true in Hl.
  cbn iota in Hl. unfold check_hardlink in Hl. apply bind_Ok in Hl as (? & _ & Hl).
  by apply reject_if_Ok, bool_decide_eq_false in Hl.
Qed.

Lemma lor_low n a b : 0 <= a < 2 ^ n -> 0 <= b < 2 ^ n -> 0 <= Z.lor a b < 2 ^ n.
Proof.
  intros Ha Hb. assert (0 <= Z.lor a b) as Hp by (apply Z.lor_nonneg; lia). split; [done|].
  destruct (Z.eq_dec (Z.lor a b) 0) as [->|Hz]; [lia|]. apply Z.log2_lt_pow2; [lia|]. rewrite Z.log2_lor by lia.
  assert (forall x, 0 <= x < 2 ^ n -> x <> 0 -> Z.log2 x < n) as Hlog by (intros x ??; apply Z.log2_lt_pow2; lia).
  destruct (Z.eq_dec a 0) as [->|Ea], (Z.eq_dec b 0) as [->|Eb]; [done|..];
    change (Z.log2 0) with 0 in *; rewrite ?Z.max_r, ?Z.max_l by apply Z.log2_nonneg; [by apply Hlog..|].
  apply Z.max_lub_lt; by apply Hlog.
Qed.

Lemma member_flags primary auxiliary kind flags report :
  v45_group_flags primary auxiliary kind = Ok (flags, report) ->
  0 <= flags <= FILE_ENTRY_KNOWN_FLAGS
  /\ (Z.testbit flags 5 = true <-> is_device kind = true \/ kind = TarEntryKind.Fifo \/ system_group primary auxiliary).
Proof.
  unfold v45_group_flags. intros ([f rep] & Hg & [= <- <-])%bind_Ok. unfold validate_group_metadata in Hg. cbv zeta in Hg.
  apply bind_Ok in Hg as (? & _ & Hg). apply bind_Ok in Hg as (? & _ & Hg). apply bind_Ok in Hg as (? & _ & Hg).
  apply bind_Ok in Hg as (? & _ & [= <- <-]). destruct (group_flags_bits primary auxiliary) as (Hr & _ & _ & _ & _ & _ & H5).
  set (f := group_flags primary auxiliary) in *. clearbody f. rewrite <- H5.
  destruct (is_device kind || is_kind kind TarEntryKind.Fifo) eqn:E; cbn [raise].
  - split.
    + unfold FILE_ENTRY_KNOWN_FLAGS in *. change (Z.shiftl 1 6 - 1) with 63 in *.
      pose proof (lor_low 6 f REQUIRES_SYSTEM_RESTORE ltac:(lia) ltac:(by vm_compute)). lia.
    + rewrite Z.lor_spec. change (Z.testbit REQUIRES_SYSTEM_RESTORE 5) with true. rewrite orb_true_r.
      apply orb_true_iff in E as [E|E%is_kind_true]; tauto.
  - apply orb_false_iff in E as [E1 E2]. rewrite E1. split; [done|]. split; [tauto|]. intros [?|[->|?]]; done.
Qed.

(** What an accepted primary entry promises. *)
Lemma read_primary_entry_Ok `{Unicode} e pending auxiliary len max m :
  read_primary_entry e pending auxiliary len max = Ok m ->
  blen (te_payload e) = te_effective_size e -> blen (te_payload e) < 2 ^ 63 ->
  validate_file_path_bytes (tm_path m) max = Ok tt /\ link_ok m max /\ contents_ok m
  /\ 0 <= mm_file_entry_flags (tm_v45_metadata m) <= FILE_ENTRY_KNOWN_FLAGS
  /\ (is_device (tm_kind m) = true \/ tm_kind m = TarEntryKind.Fifo
      -> Z.testbit (mm_file_entry_flags (tm_v45_metadata m)) 5 = true).
Proof.
  unfold read_primary_entry. cbv zeta. intros Hm Hsize Hlen.
  apply bind_Ok in Hm as (records & _ & Hm). apply bind_Ok in Hm as (? & _ & Hm).
  apply bind_Ok in Hm as (primary & [Htyped _]%parse_primary_metadata_Ok & Hm).
  apply bind_Ok in Hm as (? & _ & Hm). apply bind_Ok in Hm as (path & Hpath%v45_primary_path_Ok & Hm).
  apply bind_Ok in Hm as (link & Hlink & Hm).
  apply bind_Ok in Hm as (? & Hreg%reject_if_Ok & Hm). apply bind_Ok in Hm as (? & Hplace%reject_if_Ok & Hm).
  apply bind_Ok in Hm as (layout & Hlayout & Hm). apply bind_Ok in Hm as ([flags report] & [Hf1 Hf2]%member_flags & Hm).
  apply bind_Ok in Hm as (? & Hcross & Hm). apply bind_Ok in Hm as (mtime & _ & Hm). apply bind_Ok in Hm as (mirror & _ & [= <-]).
  set (kind := primary_kind (te_typeflag e)) in *. clearbody kind.
  split; [done|]. split; [|split; [|split; [done|cbn; tauto]]].
  - unfold link_ok. cbn. apply v45_primary_link_target_Ok in Hlink. destruct kind; try done.
    + destruct Hlink as (target & u & -> & Hv). exists target. split; [done|]. by apply validate_symlink_target_stays in Hv.
    + destruct Hlink as (target & -> & Hv). exists target. split_and!; [done..|].
      intros ->. by apply cross_fields_hardlink in Hcross.
  - unfold contents_ok. cbn. unfold read_sparse_layout in Hlayout. destruct (is_kind kind TarEntryKind.Regular) eqn:Hk.
    + cbn [negb orb] in *. destruct (pm_sparse_logical_size primary) as [logical|] eqn:Hs.
      * apply bind_Ok in Hlayout as (? & Hp%reject_if_Ok & Hl). rewrite Hp. cbn.
        destruct (parse_sparse_payload _ _) as [l| |] eqn:El; [|done..]. injection Hl as <-.
        apply parse_sparse_expands in El as (data & He & Hd); [by exists data|done|].
        by apply (pt_sparse primary).
      * injection Hlayout as <-. exists (te_payload e). split; [done|]. destruct (has_key records _); [|done].
        cbn. apply negb_false_iff, Z.eqb_eq in Hplace. lia.
    + cbn [negb andb] in *. split_and!; [done..|]. destruct (pm_sparse_logical_size primary); [done|]. by injection Hlayout.
Qed.

(** ** The members of a stream *)
(** The bytes that an extraction of the members writes. *)
Definition extraction_size (members : list ParsedTarMember) : Z :=
  foldr (fun m total => (if is_kind (tm_kind m) TarEntryKind.Regular then tm_logical_size m else 0) + total) 0 members.

(** The groups that make up a stream, with their members. *)
Definition members_of `{Unicode, Sha256} (max : Z) (stream : bytes) (members : list ParsedTarMember) : Prop :=
  exists groups, stream = concat groups /\ Forall2 (fun g m => parse_tar_member_group g max = Ok m) groups members.

Lemma parse_group_size `{Unicode, Sha256} group max m :
  parse_tar_member_group group max = Ok m -> 0 < blen group /\ blen group mod 512 = 0.
Proof.
  unfold parse_tar_member_group. intros (? & Hs%reject_if_Ok & _)%bind_Ok.
  apply orb_false_iff in Hs as [Hl%Z.ltb_ge Hm%negb_false_iff%Z.eqb_eq]. change TAR_BLOCK_LEN with 512 in *. split; [lia|done].
Qed.

Lemma parse_group_inside `{Unicode, Sha256} group max m :
  blen group < 2 ^ 63 -> parse_tar_member_group group max = Ok m ->
  exists e cursor pending auxiliary, read_primary_entry e pending auxiliary (blen group) max = Ok m
    /\ blen (te_payload e) = te_effective_size e /\ blen (te_payload e) < 2 ^ 63 /\ entry_at group cursor pending e.
Proof.
  intros Hg Hm. unfold parse_tar_member_group in Hm. apply bind_Ok in Hm as (? & _ & Hm).
  apply member_loop_primary in Hm as (e & cursor & pending & auxiliary & Hat & Hm); [|done..].
  exists e, cursor, pending, auxiliary. destruct (Hat) as [H1 H2 H3 H4 H5 H6 H7 H8 H9 H10 H11 H12].
  pose proof (padding_spec (te_effective_size e) H8) as [Hp _].
  assert (blen (te_payload e) = te_effective_size e) by (rewrite H9, blen_seg; lia). split_and!; [done..|lia|done].
Qed.

Lemma member_size `{Unicode, Sha256} group max m :
  blen group < 2 ^ 63 -> parse_tar_member_group group max = Ok m -> is_kind (tm_kind m) TarEntryKind.Regular = true ->
  0 <= tm_logical_size m.
Proof.
  intros Hg (e & ? & ? & ? & Hm & Hs & Hl & _)%parse_group_inside Hk; [|done].
  apply read_primary_entry_Ok in Hm as (_ & _ & Hc & _); [|done..]. unfold contents_ok in Hc. rewrite Hk in Hc.
  destruct Hc as (data & _ & <-). apply blen_nonneg.
Qed.

Section Extraction.
Context `{Unicode, Sha256} (stream : bytes) (max cap : Z) (Hlen : blen stream < 2 ^ 63) (Hcap : u64 cap).

Lemma extraction_nonneg groups members :
  (forall g, g ∈ groups -> blen g < 2 ^ 63) -> Forall2 (fun g m => parse_tar_member_group g max = Ok m) groups members ->
  0 <= extraction_size members.
Proof.
  intros Hg. induction 1 as [|g m groups members Hm Hms IH]; [done|]. cbn [extraction_size foldr].
  assert (0 <= extraction_size members) by (apply IH; intros; apply Hg; by right). unfold extraction_size in *.
  destruct (is_kind (tm_kind m) TarEntryKind.Regular) eqn:Hk; [|lia].
  apply member_size in Hm; [lia|apply Hg; left|done].
Qed.

Lemma extraction_done rest total :
  (length rest <= 0)%nat -> total <= cap -> exists members, members_of max rest members /\ total + extraction_size members <= cap.
Proof.
  intros Hr Ht. exists []. split; [|cbn; lia]. exists []. split; [|done]. destruct rest; [done|cbn in Hr; lia].
Qed.

Lemma extraction_loop_sound fuel pre rest total u :
  stream = pre ++ rest -> 0 <= total <= cap -> extraction_size_loop fuel stream (blen pre) total max cap = Ok u ->
  exists members, members_of max rest members /\ total + extraction_size members <= cap.
Proof.
  revert pre rest total. induction fuel as [|fuel IH]; intros pre rest total Hs Ht Hl; cbn [extraction_size_loop] in Hl.
  all: assert (blen stream = blen pre + blen rest) as Hsum by (by rewrite Hs, blen_app).
  all: destruct (blen pre <? blen stream) eqn:Hc; [|apply Z.ltb_ge in Hc; apply extraction_done; unfold blen in *; lia].
  { done. }
  apply bind_Ok in Hl as (end_ & _ & Hl). apply bind_Ok in Hl as (group & (Hb1 & Hb2 & Hb3 & Hgr)%slice_Ok & Hl).
  apply bind_Ok in Hl as (m & Hm & Hl). apply bind_Ok in Hl as (total' & Hadd & Hl).
  assert (blen group = end_ - blen pre) as Hgl by (rewrite Hgr, blen_seg; lia).
  set (rest' := seg stream end_ (blen stream)).
  assert (rest = group ++ rest') as Hrest.
  { unfold rest'. rewrite Hgr, <- (seg_split stream (blen pre) end_ (blen stream)) by lia. rewrite Hsum, Hs, seg_app_r by lia.
    by rewrite Z.sub_diag, Z.add_simpl_l, seg_full. }
  assert (0 <= total' <= cap /\ total' = total + (if is_kind (tm_kind m) TarEntryKind.Regular then tm_logical_size m else 0)) as [Ht' He].
  { unfold add_member_size in Hadd. destruct (is_kind _ _) eqn:Hk; [|injection Hadd as <-; lia].
    apply bind_Ok in Hadd as (t & [_ ->]%ok_or_Ok%checked_add_Some & Hadd). apply bind_Ok in Hadd as (? & Hle%reject_if_Ok%Z.ltb_ge & [= <-]).
    apply member_size in Hm; [lia|lia|done]. }
  replace end_ with (blen (pre ++ group)) in Hl by (rewrite blen_app; lia).
  apply (IH (pre ++ group) rest') in Hl as (members & (groups & Hgs & Hms) & Hle); [|by rewrite <- app_assoc, <- Hrest|done].
  exists (m :: members). split.
  - exists (group :: groups). split; [by rewrite Hrest, Hgs|by constructor].
  - cbn [extraction_size foldr]. unfold extraction_size in Hle. lia.
Qed.

Lemma extraction_loop_complete fuel pre groups members total :
  stream = pre ++ concat groups -> (length (concat groups) <= fuel)%nat -> 0 <= total ->
  Forall2 (fun g m => parse_tar_member_group g max = Ok m) groups members ->
  total + extraction_size members <= cap -> extraction_size_loop fuel stream (blen pre) total max cap = Ok tt.
Proof.
  intros Hs Hf Ht Hms. revert fuel pre total Hs Hf Ht. induction Hms as [|g m groups members Hm Hms IH]; intros fuel pre total Hs Hf Ht Hle.
  { rewrite app_nil_r in Hs. assert (blen pre <? blen stream = false) as Hc by (apply Z.ltb_ge; rewrite Hs; lia).
    destruct fuel; cbn [extraction_size_loop]; by rewrite Hc. }
  cbn [concat] in Hs, Hf. destruct (parse_group_size _ _ _ Hm) as [Hpos _]. rewrite length_app in Hf. unfold blen in Hpos.
  destruct fuel as [|fuel]; [lia|]. cbn [extraction_size_loop].
  assert (blen stream = blen pre + blen g + blen (concat groups)) as Hsum by (rewrite Hs, !blen_app; lia).
  pose proof (blen_nonneg pre). pose proof (blen_nonneg g). pose proof (blen_nonneg (concat groups)).
  rewrite (proj2 (Z.ltb_lt _ _)) by (unfold blen in *; lia). unfold tar_member_group_end.
  pose proof (group_end_found pre g (concat groups) max ltac:(by rewrite <- Hs) m Hm) as Hend. rewrite <- Hs in Hend.
  rewrite Hend, bind_ret. cbn [ok_or]. rewrite bind_ret, slice_in_range, bind_ret by lia.
  assert (seg stream (blen pre) (blen pre + blen g) = g) as ->.
  { rewrite Hs, seg_app_r, seg_app_l by lia. by rewrite Z.sub_diag, Z.add_simpl_l, seg_full. }
  rewrite Hm, bind_ret.
  assert (0 <= extraction_size members).
  { apply (extraction_nonneg groups); [|done]. intros g' [l1 [l2 ->]]%list_elem_of_split.
    rewrite concat_app in Hsum. cbn [concat] in Hsum. rewrite !blen_app in Hsum.
    pose proof (blen_nonneg (concat l1)). pose proof (blen_nonneg (concat l2)). pose proof (blen_nonneg g). lia. }
  cbn [extraction_size foldr] in Hle. unfold extraction_size in *. unfold add_member_size.
  replace (blen pre + blen g) with (blen (pre ++ g)) by (by rewrite blen_app).
  destruct (is_kind (tm_kind m) TarEntryKind.Regular) eqn:Hk.
  - pose proof (member_size g max m ltac:(lia) Hm Hk). unfold fits in Hcap. rewrite checked_add_eq by lia. cbn [ok_or].
    rewrite bind_ret, (proj2 (Z.ltb_ge _ _)) by lia. cbn [reject_if]. rewrite !bind_ret.
    apply IH; [by rewrite <- app_assoc|unfold blen in *; lia|lia|lia].
  - change (mret (M := result FormatError) total) with (@Ok FormatError Z total). rewrite bind_ret. apply IH; [by rewrite <- app_assoc|unfold blen in *; lia|lia|lia].
Qed.

End Extraction.

(** ** No group makes the parser panic *)
Lemma invalid_no_panic {A} structure reason : @invalid A structure reason <> Panic.
Proof. done. Qed.

#[export] Hint Resolve invalid_no_panic : no_panic.

(** [no_panic] that also looks into matches. *)
Ltac no_panics :=
  repeat first
    [ progress no_panic
    | solve [auto with no_panic]
    | match goal with |- (match ?m with _ => _ end) <> Panic => destruct m eqn:? end ].

Lemma observe_value_no_panic s v : observe_value s v <> Panic.
Proof. unfold observe_value, check_extent. no_panics. Qed.

Lemma complete_map_no_panic s : complete_map s <> Panic.
Proof. unfold complete_map. no_panics. Qed.

#[export] Hint Resolve observe_value_no_panic complete_map_no_panic validate_file_path_bytes_no_panic : no_panic.

Lemma observe_byte_no_panic s x : observe_byte s x <> Panic.
Proof. unfold observe_byte. cbv zeta. no_panics. Qed.

Lemma sparse_observe_no_panic s b : SparseStreamValidator_observe s b <> Panic.
Proof.
  revert s. induction b as [|x b IH]; intros s; [done|]. cbn [SparseStreamValidator_observe].
  apply bind_no_panic; [apply observe_byte_no_panic|auto].
Qed.

Lemma sparse_finish_no_panic s : SparseStreamValidator_finish s <> Panic.
Proof. unfold SparseStreamValidator_finish. no_panics. Qed.

#[export] Hint Resolve sparse_observe_no_panic sparse_finish_no_panic : no_panic.
#[export] Hint Extern 2 (_ <$> _ <> Panic) => apply fmap_no_panic : no_panic.

Lemma check_required_meta_no_panic meta fields : check_required_meta meta fields <> Panic.
Proof.
  induction fields as [|[key expected] fields IH]; [done|]. cbn [check_required_meta]. no_panics.
Qed.

Lemma meta_loop_no_panic records meta : meta_loop records meta <> Panic.
Proof.
  revert meta. induction records as [|[k v] records IH]; intros meta; [done|]. cbn [meta_loop]. case_match; [|auto].
  no_panics.
Qed.

Lemma fixed_declaration_no_panic r : fixed_declaration r <> Panic.
Proof. unfold fixed_declaration, invalid. repeat case_match; done. Qed.

Lemma decode_auxiliary_name_no_panic `{Unicode} encoding value : decode_auxiliary_name encoding value <> Panic.
Proof. unfold decode_auxiliary_name, invalid. no_panics. Qed.

#[export] Hint Resolve check_required_meta_no_panic meta_loop_no_panic fixed_declaration_no_panic decode_auxiliary_name_no_panic
  validate_windows_stream_name_no_panic validate_darwin_acl_external_no_panic validate_reparse_buffer_no_panic
  validate_self_relative_security_descriptor_no_panic parse_capture_report_no_panic : no_panic.

Lemma validate_builtin_auxiliary_no_panic r : validate_builtin_auxiliary r <> Panic.
Proof.
  unfold validate_builtin_auxiliary, check_stream_attributes, validate_generic_xattr_name. cbv zeta. no_panics.
Qed.

Lemma RestoreClass_parse_no_panic value : RestoreClass_parse value <> Panic.
Proof. unfold RestoreClass_parse, invalid. repeat case_match; done. Qed.

Lemma parse_native_flag_no_panic value : parse_native_flag value <> Panic.
Proof. unfold parse_native_flag, invalid. repeat case_match; done. Qed.

Lemma parse_fixed_hex_32_no_panic value : parse_fixed_hex_32 value <> Panic.
Proof. unfold parse_fixed_hex_32. no_panics. Qed.

#[export] Hint Resolve validate_builtin_auxiliary_no_panic RestoreClass_parse_no_panic parse_native_flag_no_panic
  parse_fixed_hex_32_no_panic : no_panic.

Lemma parse_auxiliary_declaration_no_panic `{Unicode} records ordinal size : parse_auxiliary_declaration records ordinal size <> Panic.
Proof.
  unfold parse_auxiliary_declaration. cbv zeta.
  repeat (apply bind_no_panic; [solve [no_panics]|intros ? _]). done.
Qed.

Lemma validate_windows_ea_stream_no_panic payload : validate_windows_ea_stream payload <> Panic.
Proof. apply (ea_loop_no_panic (length payload) [] payload). done. Qed.

#[export] Hint Resolve parse_auxiliary_declaration_no_panic validate_windows_ea_stream_no_panic : no_panic.

Lemma auxiliary_payload_no_panic r retained : validate_builtin_auxiliary_payload r retained <> Panic.
Proof. unfold validate_builtin_auxiliary_payload, invalid. cbv zeta. no_panics. Qed.

Lemma parse_auxiliary_record_no_panic `{Unicode, Sha256} records ordinal size payload :
  parse_auxiliary_record records ordinal size payload <> Panic.
Proof.
  unfold parse_auxiliary_record. apply bind_no_panic; [|intros v _; apply bind_no_panic; [|intros w _]].
  - unfold AuxiliaryStreamValidator_new. cbv zeta. no_panics.
  - unfold AuxiliaryStreamValidator_observe, observe_sparse, observe_retained. no_panics.
  - unfold AuxiliaryStreamValidator_finish. cbv zeta. pose proof auxiliary_payload_no_panic. no_panics.
Qed.

Lemma parse_sparse_line_no_panic pre rest :
  parse_sparse_line (pre ++ rest) (blen pre) <> Panic.
Proof.
  pose proof (blen_nonneg pre). pose proof (blen_nonneg rest). unfold parse_sparse_line.
  rewrite slice_in_range, bind_ret by (rewrite ?blen_app; lia).
  apply bind_no_panic; [apply ok_or_no_panic|]. intros i Hi%ok_or_Ok%position_Some. destruct Hi as (l & r & Hs & _ & ->).
  apply bind_no_panic; [apply ok_or_no_panic|]. intros e He%ok_or_Ok%checked_add_Some. destruct He as [_ ->].
  assert (blen l <= blen rest) as Hl.
  { rewrite blen_app, seg_app_r, Z.sub_diag, Z.add_simpl_l, seg_full in Hs by lia. rewrite Hs, blen_app.
    pose proof (blen_nonneg (NEWLINE :: r)). lia. }
  pose proof (blen_nonneg l). rewrite slice_in_range, bind_ret by (rewrite ?blen_app; lia). no_panics.
Qed.

Lemma parse_sparse_line_at payload c :
  blen payload < 2 ^ 63 -> 0 <= c <= blen payload ->
  parse_sparse_line payload c <> Panic /\ forall v c', parse_sparse_line payload c = Ok (v, c') -> 0 <= c' <= blen payload.
Proof.
  intros Hl Hc. pose proof (seg_full payload) as Hp. rewrite (seg_split payload 0 c) in Hp by lia.
  set (pre := seg payload 0 c) in *. set (rest := seg payload c (blen payload)) in *.
  assert (blen pre = c) as Hb by (unfold pre; rewrite blen_seg; lia). clearbody pre rest. rewrite <- Hp, <- Hb in *. split.
  - apply parse_sparse_line_no_panic.
  - intros v c' (_ & rest' & -> & ->)%parse_sparse_line_Ok; [|done]. blen_simpl.
    pose proof (blen_nonneg pre). pose proof (blen_nonneg (to_decimal v)). pose proof (blen_nonneg rest'). lia.
Qed.

Lemma parse_sparse_extents_at n payload cursor acc previous stored logical :
  0 <= cursor <= blen payload -> blen payload < 2 ^ 63 ->
  parse_sparse_extents n payload cursor acc previous stored logical <> Panic
  /\ forall c es st, parse_sparse_extents n payload cursor acc previous stored logical = Ok (c, es, st) -> 0 <= c <= blen payload.
Proof.
  revert cursor acc previous stored. induction n as [|n IH]; intros cursor acc previous stored Hc Hl; cbn [parse_sparse_extents].
  { split; [done|]. by intros c es st [= <- <- <-]. }
  destruct (parse_sparse_line_at payload cursor Hl Hc) as [H1 H2]. split.
  - apply bind_no_panic; [done|]. intros [offset c1] Hc1%H2. destruct (parse_sparse_line_at payload c1 Hl Hc1) as [H3 H4].
    apply bind_no_panic; [done|]. intros [len c2] Hc2%H4. apply bind_no_panic; [unfold check_extent; no_panics|].
    intros [e st] _. by apply IH.
  - intros c es st ([offset c1] & Hc1%H2 & H)%bind_Ok. destruct (parse_sparse_line_at payload c1 Hl Hc1) as [H3 H4].
    apply bind_Ok in H as ([len c2] & Hc2%H4 & H). apply bind_Ok in H as ([e st'] & _ & H). by apply IH in H.
Qed.

Lemma parse_sparse_payload_no_panic payload logical : blen payload < 2 ^ 63 -> parse_sparse_payload payload logical <> Panic.
Proof.
  intros Hl. unfold parse_sparse_payload.
  apply bind_no_panic; [apply ok_or_no_panic|]. intros i Hi%ok_or_Ok%position_Some. destruct Hi as (l & r & Hs & _ & ->).
  assert (blen payload = blen l + 1 + blen r) as Hsum by (rewrite Hs; blen_simpl; lia). pose proof (blen_nonneg l). pose proof (blen_nonneg r).
  apply bind_no_panic; [apply slice_no_panic; lia|intros line _].
  apply bind_no_panic; [unfold parse_decimal_usize; no_panics|intros count _]. apply bind_no_panic; [apply reject_if_no_panic|intros _ _].
  destruct (parse_sparse_extents_at (Z.to_nat count) payload (blen l + 1) [] 0 0 logical ltac:(lia) Hl) as [H1 H2].
  apply bind_no_panic; [done|]. intros [[c es] st] Hc%H2. cbv zeta. apply bind_no_panic; [apply ok_or_no_panic|].
  intros rounded Hr%ok_or_Ok%checked_add_Some. destruct Hr as [_ ->].
  apply bind_no_panic; [apply reject_if_no_panic|]. intros [] Hb%reject_if_Ok%Z.ltb_ge.
  apply bind_no_panic; [apply slice_no_panic; divmod|]. intros ? _. no_panics.
Qed.

#[export] Hint Resolve parse_primary_metadata_no_panic parse_auxiliary_record_no_panic parse_sparse_payload_no_panic : no_panic.

(** Headers have 512 bytes. *)
Section Header.
Context (header : bytes) (Hh : blen header = 512).

Lemma zero_octal_no_panic r error : 0 <= r.1 -> r.1 <= r.2 -> r.2 <= 512 -> zero_octal header r error <> Panic.
Proof. intros. unfold zero_octal. apply bind_no_panic; [apply octal_field_no_panic; lia|no_panics]. Qed.

Lemma empty_text_no_panic r error : 0 <= r.1 -> r.1 <= r.2 -> r.2 <= 512 -> empty_text header r error <> Panic.
Proof. intros. unfold empty_text. apply bind_no_panic; [apply text_field_no_panic; lia|no_panics]. Qed.

Lemma check_string_field_no_panic r : 0 <= r.1 -> r.1 <= r.2 -> r.2 <= 512 -> check_string_field header r <> Panic.
Proof.
  intros. unfold check_string_field, validate_nul_terminated_field. apply bind_no_panic; [apply slice_no_panic; lia|intros ? _]. no_panics.
Qed.

Ltac bind_step := lazymatch goal with |- mbind _ _ <> Panic => apply bind_no_panic; [|intros ? _] end.

Ltac fields := repeat first
  [ apply octal_field_no_panic; lia | apply text_field_no_panic; lia | apply slice_no_panic; lia
  | apply zero_octal_no_panic; cbn; lia | apply empty_text_no_panic; cbn; lia | apply check_string_field_no_panic; cbn; lia
  | bind_step; [solve [fields]|]
  | progress no_panics ].

Lemma ustar_path_no_panic : ustar_path header <> Panic.
Proof. unfold ustar_path. fields. Qed.

Lemma validate_ustar_header_no_panic : validate_ustar_header header <> Panic.
Proof. unfold validate_ustar_header. fields. Qed.

Lemma metadata_fields_zero_no_panic error : metadata_fields_zero header error <> Panic.
Proof. unfold metadata_fields_zero. fields. Qed.

Lemma validate_v45_metadata_header_no_panic : validate_v45_metadata_header header <> Panic.
Proof.
  unfold validate_v45_metadata_header. apply bind_no_panic; [apply validate_ustar_header_no_panic|intros ? _].
  apply metadata_fields_zero_no_panic.
Qed.

Lemma validate_v45_auxiliary_header_no_panic ordinal size effective :
  validate_v45_auxiliary_header header ordinal size effective <> Panic.
Proof.
  unfold validate_v45_auxiliary_header. cbv zeta. apply bind_no_panic; [apply validate_ustar_header_no_panic|intros ? _].
  apply bind_no_panic; [apply ustar_path_no_panic|intros ? _]. apply bind_no_panic; [apply reject_if_no_panic|intros ? _].
  apply bind_no_panic; [apply metadata_fields_zero_no_panic|no_panics].
Qed.

Lemma header_match_no_panic records key i j label :
  0 <= i -> i <= j -> j <= 512 ->
  validate_numeric_pax_header_match records key header i j label <> Panic
  /\ validate_string_pax_header_match records key header i j label <> Panic.
Proof.
  intros. unfold validate_numeric_pax_header_match, validate_string_pax_header_match. split; case_match; fields.
Qed.

Lemma header_seconds_no_panic : header_seconds header <> Panic.
Proof. unfold header_seconds. fields. Qed.

Lemma decoded_mtime_no_panic primary : decoded_mtime primary header <> Panic.
Proof.
  unfold decoded_mtime. case_match; [done|]. apply bind_no_panic; [apply header_seconds_no_panic|done].
Qed.

Lemma validate_v45_primary_header_no_panic kind size effective primary records :
  validate_v45_primary_header header kind size effective primary records <> Panic.
Proof.
  unfold validate_v45_primary_header, check_no_owner. cbv zeta.
  repeat (bind_step; [first [apply validate_ustar_header_no_panic | repeat case_match; repeat bind_step;
    first [apply header_match_no_panic; lia | fields]]|]). repeat case_match; repeat bind_step; first [apply header_match_no_panic; lia | fields].
Qed.

Lemma portable_metadata_mirror_no_panic records primary : portable_metadata_mirror header records primary <> Panic.
Proof.
  unfold portable_metadata_mirror, mirror_numeric, mirror_string. apply bind_no_panic; [apply decoded_mtime_no_panic|intros ? _].
  repeat bind_step; repeat case_match; try apply fmap_no_panic; fields.
Qed.

Lemma v45_primary_path_no_panic `{Unicode} kind records primary max : v45_primary_path header kind records primary max <> Panic.
Proof.
  unfold v45_primary_path. cbv zeta. pose proof ustar_path_no_panic. repeat bind_step; no_panics.
Qed.

Lemma symlink_loop_no_panic `{Unicode} components stack : symlink_loop components stack <> Panic.
Proof.
  revert stack. induction components as [|c components IH]; intros stack; [done|]. cbn [symlink_loop]. no_panics.
Qed.

Lemma v45_primary_link_target_no_panic `{Unicode} kind path primary max :
  v45_primary_link_target header kind path primary max <> Panic.
Proof.
  unfold v45_primary_link_target, validate_symlink_target. pose proof symlink_loop_no_panic.
  apply bind_no_panic; [apply text_field_no_panic; lia|intros ? _]. no_panics.
Qed.

End Header.

Lemma validate_group_metadata_no_panic primary auxiliary : validate_group_metadata primary auxiliary <> Panic.
Proof.
  unfold validate_group_metadata. cbv zeta. apply bind_no_panic; [apply reject_if_no_panic|intros ? _]. apply bind_no_panic.
  { generalize (@nil bytes) as ids. induction auxiliary as [|r auxiliary IH]; intros ids; [done|]. cbn [group_loop].
    unfold validate_generic_xattr_declaration, validate_generic_xattr_name. cbv zeta. no_panics. }
  intros ? _. no_panics.
Qed.

Lemma windows_cross_fields_no_panic kind records primary auxiliary sparse report :
  validate_windows_cross_fields kind records primary auxiliary sparse report <> Panic.
Proof. unfold validate_windows_cross_fields, check_file_attributes. cbv zeta. no_panics. Qed.

Lemma cross_fields_no_panic kind records primary auxiliary path target sparse report :
  validate_v45_primary_cross_fields kind records primary auxiliary path target sparse report <> Panic.
Proof.
  unfold validate_v45_primary_cross_fields, check_whiteout, check_hardlink. cbv zeta.
  pose proof windows_cross_fields_no_panic. no_panics.
Qed.

Lemma effective_size_no_panic pending size : effective_size pending size <> Panic.
Proof. unfold effective_size. no_panics. Qed.

Lemma tar_slice_no_panic b offset len : tar_slice b offset len <> Panic.
Proof. unfold tar_slice. no_panics. Qed.

#[export] Hint Resolve validate_group_metadata_no_panic cross_fields_no_panic effective_size_no_panic tar_slice_no_panic : no_panic.

Lemma read_entry_no_panic group cursor pending : blen group < 2 ^ 63 -> read_entry group cursor pending <> Panic.
Proof.
  intros Hg. unfold read_entry. change TAR_BLOCK_LEN with 512.
  apply bind_no_panic; [apply tar_slice_no_panic|]. intros header (H0 & _ & Hl & ->)%tar_slice_Ok; [|lia].
  set (header := seg _ _ _). assert (blen header = 512) as Hh by (unfold header; rewrite blen_seg; lia).
  apply bind_no_panic; [apply reject_if_no_panic|intros ? _].
  apply bind_no_panic; [apply verify_tar_checksum_no_panic; lia|intros ? _].
  apply bind_no_panic; [apply byte_at_no_panic; lia|intros ? _].
  apply bind_no_panic; [apply octal_field_no_panic; lia|intros hs Hhs].
  apply bind_no_panic; [apply effective_size_no_panic|]. intros size Hs%effective_size_u64; [|by eapply octal_field_u64].
  cbv zeta. apply bind_no_panic; [apply ok_or_no_panic|]. intros p0 [_ ->]%ok_or_Ok%checked_add_Some.
  apply bind_no_panic; [apply ok_or_no_panic|]. intros len Hlen%ok_or_Ok.
  assert (len = size) as -> by (unfold try_from in Hlen; case_match; [by injection Hlen|done]). unfold fits in Hs.
  apply bind_no_panic; [apply ok_or_no_panic|]. intros p1 [_ ->]%ok_or_Ok%checked_add_Some.
  apply bind_no_panic; [apply ok_or_no_panic|]. intros p2 [_ ->]%ok_or_Ok%checked_add_Some.
  apply bind_no_panic; [apply tar_slice_no_panic|intros ? _].
  apply bind_no_panic; [apply reject_if_no_panic|]. intros [] Hend%reject_if_Ok%Z.ltb_ge.
  pose proof (padding_spec size ltac:(lia)). apply bind_no_panic; [apply slice_no_panic; lia|no_panics].
Qed.

Lemma entry_header_blen group cursor pending e : entry_at group cursor pending e -> blen (te_header e) = 512 /\ blen (te_payload e) < blen group.
Proof.
  intros [H1 H2 H3 H4 H5 H6 H7 H8 H9 H10 H11 H12]. pose proof (padding_spec (te_effective_size e) H8) as [Hp _].
  rewrite H2, H9, !blen_seg by lia. lia.
Qed.

Lemma read_pax_entry_no_panic e pending count aggregate :
  blen (te_header e) = 512 -> blen (te_payload e) < 2 ^ 63 -> read_pax_entry e pending count aggregate <> Panic.
Proof.
  intros Hh Hp. unfold read_pax_entry. apply bind_no_panic; [apply reject_if_no_panic|intros ? _].
  apply bind_no_panic; [by apply validate_v45_metadata_header_no_panic|intros ? _].
  apply bind_no_panic; [apply ok_or_no_panic|intros ? _]. apply bind_no_panic; [apply reject_if_no_panic|intros ? _].
  apply bind_no_panic; [by apply (pax_no_panic [])|intros ? _]. apply bind_no_panic; [by apply ustar_path_no_panic|intros ? _].
  apply bind_no_panic; [unfold pax_entry_kind; no_panics|done].
Qed.

Lemma read_primary_entry_no_panic `{Unicode} e pending auxiliary len max :
  blen (te_header e) = 512 -> blen (te_payload e) < 2 ^ 63 -> read_primary_entry e pending auxiliary len max <> Panic.
Proof.
  intros Hh Hp. unfold read_primary_entry. cbv zeta. apply bind_no_panic; [apply ok_or_no_panic|intros ? _].
  apply bind_no_panic; [apply reject_if_no_panic|intros ? _]. apply bind_no_panic; [apply parse_primary_metadata_no_panic|intros ? _].
  apply bind_no_panic; [by apply validate_v45_primary_header_no_panic|intros ? _].
  apply bind_no_panic; [by apply v45_primary_path_no_panic|intros ? _].
  apply bind_no_panic; [by apply v45_primary_link_target_no_panic|intros ? _].
  apply bind_no_panic; [apply reject_if_no_panic|intros ? _]. apply bind_no_panic; [apply reject_if_no_panic|intros ? _].
  apply bind_no_panic; [unfold read_sparse_layout; no_panics|intros ? _].
  apply bind_no_panic; [unfold v45_group_flags; no_panics|]. intros [flags report] _.
  apply bind_no_panic; [apply cross_fields_no_panic|intros ? _]. apply bind_no_panic; [by apply decoded_mtime_no_panic|intros ? _].
  apply bind_no_panic; [by apply portable_metadata_mirror_no_panic|done].
Qed.

Lemma member_round_no_panic `{Unicode, Sha256} group max s :
  blen group < 2 ^ 63 -> 0 <= gs_cursor s -> member_round group max s <> Panic.
Proof.
  intros Hg Hc. unfold member_round. apply bind_no_panic; [by apply read_entry_no_panic|].
  intros e [Hh Hp]%read_entry_Ok%entry_header_blen; [|done..].
  repeat (lazymatch goal with |- (if ?c then _ else _) <> Panic => destruct c end); try apply Err_no_panic.
  - apply bind_no_panic; [apply read_pax_entry_no_panic; [done|lia]|]. by intros [[kind records] aggregate] _.
  - apply bind_no_panic; [|done]. unfold read_auxiliary_entry. repeat case_match; try apply Err_no_panic.
    apply bind_no_panic; [by apply validate_v45_auxiliary_header_no_panic|intros ? _]. apply parse_auxiliary_record_no_panic.
  - apply fmap_no_panic, read_primary_entry_no_panic; [done|lia].
Qed.

Lemma parse_tar_member_group_no_panic `{Unicode, Sha256} group max :
  blen group < 2 ^ 63 -> parse_tar_member_group group max <> Panic.
Proof.
  intros Hg. unfold parse_tar_member_group. apply bind_no_panic; [apply reject_if_no_panic|]. intros [] Hs%reject_if_Ok.
  enough (forall fuel s, 0 <= gs_cursor s < blen group -> blen group <= Z.of_nat fuel + gs_cursor s ->
    member_loop fuel group max s <> Panic) as Hloop.
  { apply orb_false_iff in Hs as [Hl%Z.ltb_ge _]. change TAR_BLOCK_LEN with 512 in *. apply Hloop; cbn; unfold blen in *; lia. }
  induction fuel as [|fuel IH]; intros s Hc Hf; [lia|]. cbn [member_loop]. apply bind_no_panic; [apply member_round_no_panic; lia|].
  intros next (e & Hat%read_entry_Ok & Hstep)%member_round_Ok; [|done|lia].
  pose proof (padding_spec _ (ea_size_u64 _ _ _ _ Hat)) as [Hpad _].
  pose proof (ea_padded_end _ _ _ _ Hat) as Hend. pose proof (ea_size_u64 _ _ _ _ Hat) as Hsz.
  destruct Hstep; [| |done]; (apply bind_no_panic; [apply reject_if_no_panic|]; intros [] Hle%reject_if_Ok%Z.leb_gt;
    apply IH; cbn [gs_cursor] in *; lia).
Qed.

(** ** No stream makes the search for the end of a group panic *)
Lemma try_slice_Ok stream i len r :
  0 <= i -> 0 <= len -> try_slice stream i len = Ok r ->
  (blen stream < i + len /\ r = None) \/ (i + len <= blen stream /\ r = Some (seg stream i (i + len))).
Proof.
  intros Hi Hl. unfold try_slice. intros (e & [_ ->]%ok_or_Ok%checked_add_Some & H)%bind_Ok.
  destruct (Z.ltb_spec (blen stream) (i + len)); [left; by injection H|right]. split; [done|].
  rewrite slice_in_range in H by lia. by injection H.
Qed.

Lemma try_slice_no_panic stream i len : 0 <= i -> 0 <= len -> try_slice stream i len <> Panic.
Proof.
  intros Hi Hl. unfold try_slice. apply bind_no_panic; [apply ok_or_no_panic|]. intros e [_ ->]%ok_or_Ok%checked_add_Some.
  destruct (Z.ltb_spec (blen stream) (i + len)); [done|]. by rewrite slice_in_range by lia.
Qed.

Lemma try_read_entry_no_panic stream cursor pending :
  0 <= cursor -> try_read_entry stream cursor pending <> Panic
  /\ forall e, try_read_entry stream cursor pending = Ok (Some e) ->
       blen (te_header e) = 512 /\ blen (te_payload e) <= blen stream /\ cursor + 512 <= te_padded_end e <= blen stream.
Proof.
  intros Hc. unfold try_read_entry. change TAR_BLOCK_LEN with 512. split.
  - apply bind_no_panic; [by apply try_slice_no_panic|]. intros [header|] Hs; [|done].
    apply try_slice_Ok in Hs as [[_ ?]|[Hl [= ->]]]; [done| |done..].
    set (header := seg _ _ _). assert (blen header = 512) as Hh by (unfold header; rewrite blen_seg; lia).
    apply bind_no_panic; [apply reject_if_no_panic|intros ? _].
    apply bind_no_panic; [apply verify_tar_checksum_no_panic; lia|intros ? _].
    apply bind_no_panic; [apply byte_at_no_panic; lia|intros ? _].
    apply bind_no_panic; [apply octal_field_no_panic; lia|intros hs Hhs].
    apply bind_no_panic; [apply effective_size_no_panic|]. intros size Hsz%effective_size_u64; [|by eapply octal_field_u64].
    cbv zeta. apply bind_no_panic; [apply ok_or_no_panic|]. intros p0 [_ ->]%ok_or_Ok%checked_add_Some.
    apply bind_no_panic; [apply ok_or_no_panic|]. intros len Hlen%ok_or_Ok.
    assert (len = size) as -> by (unfold try_from in Hlen; case_match; [by injection Hlen|done]). unfold fits in Hsz.
    apply bind_no_panic; [apply ok_or_no_panic|]. intros p1 [_ ->]%ok_or_Ok%checked_add_Some.
    apply bind_no_panic; [apply ok_or_no_panic|]. intros p2 [_ ->]%ok_or_Ok%checked_add_Some.
    apply bind_no_panic; [apply try_slice_no_panic; lia|]. intros [payload|] _; [|done].
    destruct (Z.ltb_spec (blen stream) (cursor + 512 + size + padding_to_512 size)); [done|].
    pose proof (padding_spec size ltac:(lia)). apply bind_no_panic; [apply slice_no_panic; lia|no_panics].
  - intros e H. apply bind_Ok in H as ([header|] & Hs & H); [|done]. apply try_slice_Ok in Hs as [[_ ?]|[Hl [= ->]]]; [done| |done..].
    apply bind_Ok in H as (? & _ & H). apply bind_Ok in H as ([] & _ & H). apply bind_Ok in H as (flag & _ & H).
    apply bind_Ok in H as (hs & Hhs & H). apply bind_Ok in H as (size & Hsize & H). cbv zeta in H.
    apply bind_Ok in H as (p0 & [_ ->]%ok_or_Ok%checked_add_Some & H).
    pose proof (effective_size_u64 _ _ _ (octal_field_u64 _ _ _ _ Hhs) Hsize) as Hu. unfold fits in Hu.
    apply bind_Ok in H as (len & Hlen%ok_or_Ok & H).
    assert (len = size) as -> by (unfold try_from in Hlen; case_match; [by injection Hlen|done]).
    apply bind_Ok in H as (p1 & [_ ->]%ok_or_Ok%checked_add_Some & H).
    apply bind_Ok in H as (p2 & [_ ->]%ok_or_Ok%checked_add_Some & H).
    apply bind_Ok in H as ([payload|] & Hp & H); [|done]. apply try_slice_Ok in Hp as [[_ ?]|[Hp [= ->]]]; [done| |lia..].
    destruct (Z.ltb_spec (blen stream) (cursor + 512 + size + padding_to_512 size)); [done|].
    apply bind_Ok in H as (? & _ & H). apply bind_Ok in H as (? & _ & [= <-]). cbn.
    pose proof (padding_spec size ltac:(lia)). rewrite !blen_seg by lia. lia.
Qed.

Lemma group_end_loop_no_panic fuel stream cursor pending count aggregate :
  blen stream < 2 ^ 63 -> 0 <= cursor <= blen stream -> blen stream < Z.of_nat fuel + cursor ->
  group_end_loop fuel stream cursor pending count aggregate <> Panic
  /\ forall e, group_end_loop fuel stream cursor pending count aggregate = Ok (Some e) -> cursor < e <= blen stream.
Proof.
  intros Hs. revert cursor pending count aggregate. induction fuel as [|fuel IH]; intros cursor pending count aggregate Hc Hf; [lia|].
  cbn [group_end_loop]. destruct (try_read_entry_no_panic stream cursor pending ltac:(lia)) as [Hp He].
  destruct (try_read_entry stream cursor pending) as [[e|]| |]; [|done..]. rewrite bind_ret. cbv zeta.
  destruct (He e eq_refl) as (Hh & Hl & Hend). clear He Hp.
  assert (forall pending count aggregate,
    (if blen stream <=? te_padded_end e then Ok None else group_end_loop fuel stream (te_padded_end e) pending count aggregate) <> Panic
    /\ forall x, (if blen stream <=? te_padded_end e then Ok None else group_end_loop fuel stream (te_padded_end e) pending count aggregate)
                 = Ok (Some x) -> cursor < x <= blen stream) as Hnext.
  { intros p n a. destruct (Z.leb_spec (blen stream) (te_padded_end e)); [done|].
    destruct (IH (te_padded_end e) p n a ltac:(lia) ltac:(lia)) as [H1 H2]. split; [done|]. intros x Hx%H2. lia. }
  repeat (lazymatch goal with |- (if ?c then _ else _) <> Panic /\ _ => destruct c end); try done.
  - split.
    + apply bind_no_panic; [apply read_pax_entry_no_panic; [done|lia]|]. intros [[kind records] a] _. apply Hnext.
    + intros x ([[kind records] a] & _ & Hx)%bind_Ok. by apply Hnext in Hx.
  - split.
    + apply bind_no_panic; [apply ok_or_no_panic|intros ordinal _].
      apply bind_no_panic; [by apply validate_v45_auxiliary_header_no_panic|intros ? _].
      apply bind_no_panic; [apply ok_or_no_panic|intros n _]. apply Hnext.
    + intros x (ordinal & _ & Hx)%bind_Ok. apply bind_Ok in Hx as (? & _ & Hx). apply bind_Ok in Hx as (n & _ & Hx). by apply Hnext in Hx.
  - destruct pending as [[[] ?]|]; [|done..]. split; [done|]. intros x [= <-]. lia.
Qed.

Lemma extraction_size_no_panic `{Unicode, Sha256} stream max cap :
  blen stream < 2 ^ 63 -> validate_tar_stream_total_extraction_size stream max cap <> Panic.
Proof.
  intros Hs. unfold validate_tar_stream_total_extraction_size. apply bind_no_panic; [apply reject_if_no_panic|intros ? _].
  enough (forall fuel cursor total, 0 <= cursor -> blen stream <= Z.of_nat fuel + cursor ->
    extraction_size_loop fuel stream cursor total max cap <> Panic) as Hloop by (apply Hloop; unfold blen; lia).
  induction fuel as [|fuel IH]; intros cursor total Hc Hf; cbn [extraction_size_loop];
    (destruct (Z.ltb_spec cursor (blen stream)); [|done]); [lia|].
  destruct (group_end_loop_no_panic (S (length stream)) stream cursor None 0 0 Hs ltac:(lia) ltac:(unfold blen in *; lia)) as [Hp He].
  apply bind_no_panic; [unfold tar_member_group_end; apply bind_no_panic; [done|no_panics]|].
  intros end_ (o & Ho & Hend%ok_or_Ok)%bind_Ok. subst o. apply He in Ho.
  rewrite slice_in_range, bind_ret by lia. apply bind_no_panic; [apply parse_tar_member_group_no_panic; rewrite blen_seg; lia|intros m _].
  apply bind_no_panic; [unfold add_member_size; no_panics|intros ? _]. apply IH; lia.
Qed.


(** C6: The check of the total extraction size never panics, and it accepts a stream
    exactly when it is a sequence of groups that parse and the regular files
    among their members are together no larger than the cap; so the search for
    the end of a group finds the end of every group the parser accepts. *)
Theorem extraction_size_correct `{Unicode, Sha256} stream max cap :
  blen stream < 2 ^ 63 -> u64 cap ->
  validate_tar_stream_total_extraction_size stream max cap <> Panic
  /\ (validate_tar_stream_total_extraction_size stream max cap = Ok tt
      <-> exists members, members_of max stream members /\ extraction_size members <= cap).
Proof.
  intros Hlen Hcap. split; [by apply extraction_size_no_panic|].
  unfold validate_tar_stream_total_extraction_size. change TAR_BLOCK_LEN with 512. split.
  - intros (? & _ & Hl)%bind_Ok. unfold fits in Hcap.
    by apply (extraction_loop_sound stream max cap Hlen _ [] stream) in Hl; [|done|lia].
  - intros (members & (groups & Hs & Hms) & Hle).
    assert (blen stream mod 512 = 0) as Hmod.
    { rewrite Hs. clear -Hms. induction Hms as [|g m groups members Hm Hms IH]; [done|]. cbn [concat].
      apply parse_group_size in Hm as [_ Hm]. rewrite blen_app, Z.add_mod, Hm, IH by done. done. }
    rewrite Hmod. cbn [Z.eqb negb reject_if]. rewrite bind_ret.
    apply (extraction_loop_complete stream max cap Hlen Hcap _ [] groups members); [done|by rewrite Hs|done|done|done].
Qed.
(** ** A stream of two members *)
Section MemberExamples.
#[local] Existing Instances toy_Unicode length_Sha256.

Definition padded_payload (b : bytes) : bytes := b ++ zeros (padding_to_512 (blen b)).

Definition example_group (path : bytes) (typeflag : Byte.byte) (data : bytes) : fresult bytes :=
  records ← portable_primary_pax path 0x1A4 (ascii "linux") false;
  pax ← encode_canonical_pax records;
  pax_header ← build_ustar_header PRIMARY_LABEL (blen pax) 0 0 Byte.x78;
  header ← build_ustar_header path (blen data) 0x1A4 1700000000 typeflag;
  mret (pax_header ++ padded_payload pax ++ header ++ padded_payload data).

Definition group_bytes (g : fresult bytes) : bytes := match g with Ok b => b | _ => [] end.

Definition example_file_group : bytes := Eval vm_compute in group_bytes (example_group (ascii "docs/a.txt") Byte.x30 (ascii "hello")).
Definition example_directory_group : bytes := Eval vm_compute in group_bytes (example_group (ascii "docs/") Byte.x35 []).

Definition parsed_member (group : bytes) : option ParsedTarMember :=
  match parse_tar_member_group group 4096 with Ok m => Some m | _ => None end.

Example members_parse :
  (fun m => (tm_path m, tm_kind m, tm_data m, tm_mode m)) <$> parsed_member example_file_group
  = Some (ascii "docs/a.txt", TarEntryKind.Regular, ascii "hello", 0x1A4)
  /\ (fun m => (tm_path m, tm_kind m, tm_data m, tm_mode m)) <$> parsed_member example_directory_group
  = Some (ascii "docs", TarEntryKind.Directory, [], 0x1A4).
Proof. split; vm_compute; reflexivity. Qed.


Lemma extraction_size_correct_witness :
  validate_tar_stream_total_extraction_size (example_directory_group ++ example_file_group) 4096 5 = Ok tt
  /\ exists members, members_of 4096 (example_directory_group ++ example_file_group) members /\ extraction_size members <= 5.
Proof.
  assert (blen (example_directory_group ++ example_file_group) < 2 ^ 63) as H1 by (vm_compute; reflexivity).
  assert (u64 5) as H2 by (by vm_compute).
  assert (validate_tar_stream_total_extraction_size (example_directory_group ++ example_file_group) 4096 5 = Ok tt) as H
    by (vm_compute; reflexivity).
  split; [exact H|]. exact (proj1 (proj2 (extraction_size_correct _ 4096 5 H1 H2)) H).
Defined.

End MemberExamples.
