(* ===== verification/MemberGraph.v ===== *)
(** * The members of an archive against each other

    The check of the members a reader selects, [validate_v45_member_graph], and
    the order in which they are restored, [restore_phase_for_kind], both of
    [crates/tzap-core/src/tar_model/pax.rs]. *)

From S2P Require Import Wire Ordering Paths TextCodecs Pax SparseMap TarHeader AclText PrimaryMetadata AuxiliaryMetadata TarMember.
#[local] Open Scope Z_scope.

(** The list of diagnostics is left out. *)
Record TarStreamMemberSummary : Type := {
  ms_path : bytes;
  ms_kind : TarEntryKind.t;
  ms_link_target : option bytes;
  ms_mode : Z;
  ms_mtime : ArchiveTimestamp;
  ms_logical_size : Z;
  ms_file_entry_flags : Z;
  ms_reparse_placeholder : bool;
  ms_v45_metadata : MemberMetadata;
  ms_group_start : Z;
  ms_group_size : Z
}.

#[export] Instance ArchiveTimestamp_eq_dec : EqDecision ArchiveTimestamp.
Proof. solve_decision. Defined.

#[export] Instance PortableMetadataMirror_eq_dec : EqDecision PortableMetadataMirror.
Proof. solve_decision. Defined.

#[local] Notation Selection := (gmap bytes TarStreamMemberSummary).

(** The loop that keeps the version of each path that starts last. *)
Fixpoint select_loop (members : list TarStreamMemberSummary) (selected : Selection) : Selection :=
  match members with
  | [] => selected
  | member :: members =>
      let replace := match selected !! ms_path member with
                     | None => true
                     | Some existing => ms_group_start existing <? ms_group_start member
                     end in
      select_loop members (if replace then <[ms_path member := member]> selected else selected)
  end.

(** [selected.values()], in the order of the paths *)
Definition selected_values (selected : Selection) : list TarStreamMemberSummary :=
  map snd (sort_by_key fst (map_to_list selected)).

Definition validate_hardlink_target (selected : Selection) (member : TarStreamMemberSummary) : fresult unit :=
  if is_kind (ms_kind member) TarEntryKind.Hardlink then
    target_path ← ok_or (ms_link_target member) (InvalidArchive "hardlink target is missing");
    target ← ok_or (selected !! target_path) (InvalidArchive "hardlink target is not present in the selected archive graph");
    reject_if (negb (is_kind (ms_kind target) TarEntryKind.Regular) || ms_reparse_placeholder target)
      (InvalidArchive "hardlink target is not a canonical regular primary");;
    reject_if (negb (bool_decide (mm_portable_mirror (ms_v45_metadata member) = mm_portable_mirror (ms_v45_metadata target))))
      (InvalidArchive "hardlink portable metadata mirror differs from canonical target")
  else Ok tt.

Fixpoint ancestor_loop (selected : Selection) (components : list bytes) (ancestor : bytes) : fresult unit :=
  match components with
  | [] => Ok tt
  | component :: components =>
      let ancestor := (if bool_decide (ancestor = []) then ancestor else ancestor ++ [SLASH]) ++ component in
      (match selected !! ancestor with
       | Some parent =>
           reject_if (ms_reparse_placeholder parent || is_kind (ms_kind parent) TarEntryKind.Symlink)
             (InvalidArchive "selected path graph traverses a symlink or reparse ancestor");;
           reject_if (negb (is_kind (ms_kind parent) TarEntryKind.Directory))
             (InvalidArchive "selected path graph traverses a non-directory ancestor")
       | None => Ok tt
       end);;
      ancestor_loop selected components ancestor
  end.

Definition validate_ancestors (selected : Selection) (member : TarStreamMemberSummary) : fresult unit :=
  ancestor_loop selected (parent_components (ms_path member)) [].

Fixpoint graph_loop (selected : Selection) (values : list TarStreamMemberSummary) : fresult unit :=
  match values with
  | [] => Ok tt
  | member :: values =>
      validate_hardlink_target selected member;;
      validate_ancestors selected member;;
      graph_loop selected values
  end.

Definition validate_v45_member_graph (members : list TarStreamMemberSummary) : fresult unit :=
  let selected := select_loop members ∅ in
  graph_loop selected (selected_values selected).

Definition restore_phase_for_kind (kind : TarEntryKind.t) (reparse_placeholder : bool) : Z :=
  if reparse_placeholder then 3
  else
    match kind with
    | TarEntryKind.Directory => 4
    | TarEntryKind.Regular => 1
    | TarEntryKind.Symlink | TarEntryKind.CharacterDevice | TarEntryKind.BlockDevice | TarEntryKind.Fifo => 2
    | TarEntryKind.Hardlink => 3
    end.

(** ** The selection *)
(** The version of its path that the reader takes: none before it starts as
    late, none behind it later. *)
Definition latest (members : list TarStreamMemberSummary) (m : TarStreamMemberSummary) : Prop :=
  exists before behind, members = before ++ m :: behind
    /\ (forall x, x ∈ before -> ms_path x = ms_path m -> ms_group_start x < ms_group_start m)
    /\ (forall x, x ∈ behind -> ms_path x = ms_path m -> ms_group_start x <= ms_group_start m).

Lemma latest_snoc members x m :
  latest (members ++ [x]) m <->
  (latest members m /\ (ms_path x = ms_path m -> ms_group_start x <= ms_group_start m))
  \/ (x = m /\ forall y, y ∈ members -> ms_path y = ms_path m -> ms_group_start y < ms_group_start m).
Proof.
  split.
  - intros (b & a & E & H1 & H2). destruct a as [|z a _] using rev_ind.
    + apply app_inj_tail in E as [-> ->]. right. by split.
    + rewrite app_comm_cons, app_assoc in E. apply app_inj_tail in E as [-> ->]. left. split.
      * exists b, a. split_and!; [done..|]. intros y Hy. apply H2. apply elem_of_app. by left.
      * apply H2. apply elem_of_app. right. by apply list_elem_of_singleton.
  - intros [[(b & a & -> & H1 & H2) Hx]|[-> H]].
    + exists b, (a ++ [x]). split_and!; [by rewrite <- app_assoc|done|].
      intros y [Hy| ->%list_elem_of_singleton]%elem_of_app; [by apply H2|done].
    + exists members, []. split_and!; [done..|]. intros y Hy. by apply elem_of_nil in Hy.
Qed.

Lemma select_loop_snoc members x selected :
  select_loop (members ++ [x]) selected = select_loop [x] (select_loop members selected).
Proof. revert selected. induction members as [|y members IH]; intros selected; [done|]. cbn [app select_loop]. apply IH. Qed.

(** Every member has a selected version of its path that starts no earlier. *)
Lemma select_loop_covers members y :
  y ∈ members -> exists e, select_loop members ∅ !! ms_path y = Some e /\ ms_group_start y <= ms_group_start e.
Proof.
  revert y. induction members as [|z members IH] using rev_ind; intros y Hy; [by apply elem_of_nil in Hy|].
  rewrite select_loop_snoc. cbn [select_loop]. apply elem_of_app in Hy as [Hy| ->%list_elem_of_singleton].
  - destruct (IH y Hy) as (e & He & Hle). destruct (decide (ms_path z = ms_path y)) as [Hp|Hp].
    + rewrite Hp, He. destruct (Z.ltb_spec (ms_group_start e) (ms_group_start z)).
      * exists z. rewrite lookup_insert_eq. split; [done|lia].
      * by exists e.
    + exists e. split; [|done]. case_match; [|done]. by rewrite lookup_insert_ne.
  - destruct (select_loop members ∅ !! ms_path z) as [e|] eqn:He.
    + destruct (Z.ltb_spec (ms_group_start e) (ms_group_start z)); [|by exists e].
      exists z. rewrite lookup_insert_eq. split; [done|lia].
    + exists z. rewrite lookup_insert_eq. split; [done|lia].
Qed.

Lemma select_loop_latest members p m :
  select_loop members ∅ !! p = Some m <-> latest members m /\ ms_path m = p.
Proof.
  revert p m. induction members as [|x members IH] using rev_ind; intros p m.
  { cbn [select_loop]. rewrite lookup_empty. split; [done|]. intros [(b & a & E & _) _]. by destruct b. }
  rewrite select_loop_snoc, latest_snoc. cbn [select_loop]. set (sel := select_loop members ∅) in *.
  pose proof (select_loop_covers members) as Hall. fold sel in Hall.
  assert (forall e, sel !! ms_path x = Some e -> latest members e /\ ms_path e = ms_path x) as Hsel by (intros e; apply IH).
  destruct (decide (ms_path x = p)) as [<-|Hp].
  - destruct (sel !! ms_path x) as [e|] eqn:He.
    + destruct (Hsel e eq_refl) as [Hlat Hpe]. destruct (Z.ltb_spec (ms_group_start e) (ms_group_start x)) as [Hlt|Hge].
      * rewrite lookup_insert_eq. split.
        -- intros [= <-]. split; [|done]. right. split; [done|]. intros y Hy Hpy. destruct (Hall y Hy) as (e' & He' & Hle).
           rewrite Hpy, He in He'. injection He' as <-. lia.
        -- intros [[[Hm Hx]|[-> _]] Hpm]; [|done]. assert (sel !! ms_path x = Some m) as Hm' by (by apply IH).
           rewrite He in Hm'. injection Hm' as ->. specialize (Hx (eq_sym Hpm)). lia.
      * rewrite He. split.
        -- intros [= <-]. split; [|done]. left. by split.
        -- intros [[[Hm Hx]|[-> Hx]] Hpm].
           ++ assert (sel !! ms_path x = Some m) as Hm' by (by apply IH). congruence.
           ++ destruct Hlat as (b & a & -> & _). assert (e ∈ b ++ e :: a) as Hin by (apply elem_of_app; right; left).
              specialize (Hx e Hin Hpe). lia.
    + rewrite lookup_insert_eq. split.
      * intros [= <-]. split; [|done]. right. split; [done|]. intros y Hy Hpy. destruct (Hall y Hy) as (e' & He' & _). congruence.
      * intros [[[Hm Hx]|[-> _]] Hpm]; [|done]. assert (sel !! ms_path x = Some m) as Hm' by (by apply IH). congruence.
  - transitivity (sel !! p = Some m).
    { case_match; [|done]. by rewrite lookup_insert_ne. }
    rewrite IH. split.
    + intros [Hm Hpm]. split; [|done]. left. split; [done|]. congruence.
    + intros [[[Hm _]|[-> _]] Hpm]; [done|congruence].
Qed.

Lemma selected_values_elem members m : m ∈ selected_values (select_loop members ∅) <-> latest members m.
Proof.
  unfold selected_values. change (map snd) with (fmap (M := list) (@snd bytes TarStreamMemberSummary)). rewrite list_elem_of_fmap. split.
  - intros ([p m'] & -> & H). rewrite sort_by_key_perm, elem_of_map_to_list in H. by apply select_loop_latest in H as [? _].
  - intros Hm. exists (ms_path m, m). split; [done|]. rewrite sort_by_key_perm, elem_of_map_to_list. by apply select_loop_latest.
Qed.

(** ** The graph *)
Lemma graph_loop_Ok selected values :
  graph_loop selected values = Ok tt
  <-> forall m, m ∈ values -> validate_hardlink_target selected m = Ok tt /\ validate_ancestors selected m = Ok tt.
Proof.
  induction values as [|m values IH]; cbn [graph_loop]; [split; [|done]; intros _ m Hm; by apply elem_of_nil in Hm|].
  rewrite bind_Ok. split.
  - intros ([] & H1 & H). apply bind_Ok in H as ([] & H2 & H). intros m' [->|Hm']%elem_of_cons; [done|]. by apply IH.
  - intros H. destruct (H m ltac:(left)) as [H1 H2]. exists tt. split; [done|]. rewrite H2, bind_ret. apply IH.
    intros m' Hm'. apply H. by right.
Qed.

Lemma ancestor_loop_Ok selected components front :
  Forall (fun c => c <> []) (front ++ components) ->
  ancestor_loop selected components (join SLASH front) = Ok tt
  <-> forall l parent, l <> [] -> l `prefix_of` components -> selected !! join SLASH (front ++ l) = Some parent ->
        ms_kind parent = TarEntryKind.Directory /\ ms_reparse_placeholder parent = false.
Proof.
  revert front. induction components as [|c components IH]; intros front Hne; cbn [ancestor_loop].
  { split; [|done]. intros _ l parent Hl Hpre. by apply prefix_nil_inv in Hpre. }
  assert ((if bool_decide (join SLASH front = []) then join SLASH front else join SLASH front ++ [SLASH]) ++ c = join SLASH (front ++ [c])) as ->.
  { destruct front as [|f front]; [done|]. rewrite bool_decide_eq_false_2.
    - rewrite join_app by done. by rewrite <- app_assoc.
    - apply Forall_app in Hne as [Hne _]. apply Forall_cons in Hne as [Hf _]. destruct front; [done|].
      rewrite join_cons by done. by destruct f. }
  rewrite bind_Ok. replace (front ++ c :: components) with ((front ++ [c]) ++ components) in Hne by (by rewrite <- app_assoc).
  specialize (IH (front ++ [c]) Hne). split.
  - intros ([] & Hp & Hl) l parent Hnil [k Hk] Hs. rewrite IH in Hl. destruct l as [|y l]; [done|]. injection Hk as <- Hk.
    destruct l as [|z l].
    + rewrite Hs in Hp. apply bind_Ok in Hp as (? & H1%reject_if_Ok%orb_false_iff & H2%reject_if_Ok%negb_false_iff%is_kind_true). tauto.
    + apply (Hl (z :: l)); [done|by exists k|by rewrite <- app_assoc].
  - intros Hall. exists tt. split.
    + destruct (selected !! join SLASH (front ++ [c])) as [parent|] eqn:Hs; [|done].
      destruct (Hall [c] parent ltac:(done) ltac:(by exists components) Hs) as [Hk Hr]. by rewrite Hk, Hr.
    + apply IH. intros l parent Hnil [k ->] Hs. rewrite <- app_assoc in Hs.
      apply (Hall (c :: l) parent); [done|by exists k|done].
Qed.

Section Graph.
Context (members : list TarStreamMemberSummary) (sel : gmap bytes TarStreamMemberSummary)
  (Hsel : forall p m, sel !! p = Some m <-> latest members m /\ ms_path m = p).

Lemma validate_ancestors_Ok m :
  Forall (fun c => c <> []) (split SLASH (ms_path m)) ->
  validate_ancestors sel m = Ok tt
  <-> forall parent rest, latest members parent -> rest <> [] ->
        split SLASH (ms_path m) = split SLASH (ms_path parent) ++ rest ->
        ms_kind parent = TarEntryKind.Directory /\ ms_reparse_placeholder parent = false.
Proof.
  intros Hne. unfold validate_ancestors, parent_components.
  set (comps := split SLASH (ms_path m)) in *. assert (comps <> []) as Hcn by apply split_not_nil.
  rewrite (ancestor_loop_Ok sel _ []) by (cbn [app]; by apply Forall_take). cbn [app]. split.
  - intros H parent rest Hp Hr Hs. apply (H (split SLASH (ms_path parent)) parent); [apply split_not_nil| |by rewrite join_split; apply Hsel].
    rewrite Hs, length_app. destruct rest as [|r rest]; [done|]. cbn [length].
    rewrite take_app_ge by lia. by apply prefix_app_r.
  - intros H l parent Hl [k Hk] Hs. apply Hsel in Hs as [Hp Hpath].
    assert (comps = l ++ k ++ drop (length comps - 1) comps) as Hc by (rewrite app_assoc, <- Hk; by rewrite take_drop).
    apply (H parent (k ++ drop (length comps - 1) comps)); [done| |].
    + intros [_ Hd]%app_nil. apply (f_equal length) in Hd. rewrite length_drop in Hd. destruct comps; [done|]. cbn in Hd. lia.
    + rewrite Hpath, split_join; [done|done|]. pose proof (split_free SLASH (ms_path m)) as Hf. fold comps in Hf.
      rewrite Hc in Hf. by apply Forall_app in Hf as [? _].
Qed.

Lemma validate_hardlink_target_Ok m :
  validate_hardlink_target sel m = Ok tt
  <-> (ms_kind m = TarEntryKind.Hardlink ->
       exists target, latest members target /\ ms_link_target m = Some (ms_path target)
         /\ ms_kind target = TarEntryKind.Regular /\ ms_reparse_placeholder target = false
         /\ mm_portable_mirror (ms_v45_metadata m) = mm_portable_mirror (ms_v45_metadata target)).
Proof.
  unfold validate_hardlink_target. destruct (is_kind (ms_kind m) TarEntryKind.Hardlink) eqn:Hk.
  - apply is_kind_true in Hk. split.
    + intros (p & Hp%ok_or_Ok & H)%bind_Ok _. apply bind_Ok in H as (target & Ht%ok_or_Ok%Hsel & H).
      apply bind_Ok in H as (? & [H1%negb_false_iff%is_kind_true H2]%reject_if_Ok%orb_false_iff & H).
      apply reject_if_Ok, negb_false_iff, bool_decide_eq_true in H. destruct Ht as [Ht <-]. by exists target.
    + intros H. destruct (H Hk) as (target & Ht & Hl & H1 & H2 & H3). rewrite Hl. cbn [ok_or]. rewrite bind_ret.
      rewrite (proj2 (Hsel (ms_path target) target)) by done. cbn [ok_or]. rewrite bind_ret, H1, H2. cbn. by rewrite bool_decide_eq_true_2.
  - apply not_true_iff_false in Hk. rewrite is_kind_true in Hk. tauto.
Qed.
End Graph.

(** C7: In an accepted set of members every hard link among the selected ones
    names a selected regular file that is restored before it and has the same
    portable metadata, and whatever selected member lies on the way to another
    one is a directory, never a link; and exactly such sets are accepted. *)
Theorem member_graph_safe members :
  Forall (fun m => Forall (fun c => c <> []) (split SLASH (ms_path m))) members ->
  validate_v45_member_graph members = Ok tt
  <-> (forall m, latest members m -> ms_kind m = TarEntryKind.Hardlink ->
         exists target, latest members target /\ ms_link_target m = Some (ms_path target)
           /\ ms_kind target = TarEntryKind.Regular /\ ms_reparse_placeholder target = false
           /\ mm_portable_mirror (ms_v45_metadata m) = mm_portable_mirror (ms_v45_metadata target)
           /\ restore_phase_for_kind (ms_kind target) (ms_reparse_placeholder target)
              < restore_phase_for_kind (ms_kind m) (ms_reparse_placeholder m))
      /\ (forall m parent rest, latest members m -> latest members parent -> rest <> [] ->
            split SLASH (ms_path m) = split SLASH (ms_path parent) ++ rest ->
            ms_kind parent = TarEntryKind.Directory /\ ms_reparse_placeholder parent = false).
Proof.
  intros Hpaths. unfold validate_v45_member_graph. cbv zeta. rewrite graph_loop_Ok. setoid_rewrite selected_values_elem.
  pose proof (select_loop_latest members) as Hsel. set (sel := select_loop members ∅) in *. clearbody sel.
  assert (forall m, latest members m -> Forall (fun c => c <> []) (split SLASH (ms_path m))) as Hne.
  { intros m (b & a & -> & _). apply Forall_app in Hpaths as [_ Hpaths]. by apply Forall_cons in Hpaths as [? _]. }
  split.
  - intros H. split.
    + intros m Hm Hk. apply H in Hm as [Hm _]. apply (validate_hardlink_target_Ok members sel Hsel) in Hm as (t & H1 & H2 & H3 & H4 & H5); [|done].
      exists t. split_and!; [done..|]. rewrite H3, H4, Hk. cbn. by destruct (ms_reparse_placeholder m).
    + intros m parent rest Hm. apply (validate_ancestors_Ok members sel Hsel m); [by apply Hne|by apply H].
  - intros [H1 H2] m Hm. rewrite (validate_hardlink_target_Ok members sel Hsel), (validate_ancestors_Ok members sel Hsel) by (by apply Hne).
    split; [|intros parent rest; by apply H2]. intros Hk. destruct (H1 m Hm Hk) as (t & ?). exists t. tauto.
Qed.

(** ** A directory, a file in it and a second name of the file *)
Section GraphExample.
#[local] Existing Instances toy_Unicode length_Sha256.

Definition summary (m : ParsedTarMember) (start size : Z) : TarStreamMemberSummary := {|
  ms_path := tm_path m; ms_kind := tm_kind m; ms_link_target := tm_link_target m; ms_mode := tm_mode m;
  ms_mtime := tm_mtime m; ms_logical_size := tm_logical_size m;
  ms_file_entry_flags := mm_file_entry_flags (tm_v45_metadata m); ms_reparse_placeholder := tm_reparse_placeholder m;
  ms_v45_metadata := tm_v45_metadata m; ms_group_start := start; ms_group_size := size |}.

Definition renamed (s : TarStreamMemberSummary) (path : bytes) (start : Z) : TarStreamMemberSummary := {|
  ms_path := path; ms_kind := TarEntryKind.Hardlink; ms_link_target := Some (ms_path s); ms_mode := ms_mode s;
  ms_mtime := ms_mtime s; ms_logical_size := 0; ms_file_entry_flags := ms_file_entry_flags s; ms_reparse_placeholder := false;
  ms_v45_metadata := ms_v45_metadata s; ms_group_start := start; ms_group_size := ms_group_size s |}.

Definition example_members : list TarStreamMemberSummary :=
  match parsed_member example_directory_group, parsed_member example_file_group with
  | Some d, Some f => let file := summary f 1536 2560 in [renamed file (ascii "docs/b.txt") 4096; summary d 0 1536; file]
  | _, _ => []
  end.

Lemma member_graph_safe_witness :
  length example_members = 3%nat /\ validate_v45_member_graph example_members = Ok tt
  /\ exists m parent rest, latest example_members m /\ latest example_members parent /\ rest <> []
       /\ split SLASH (ms_path m) = split SLASH (ms_path parent) ++ rest /\ ms_kind parent = TarEntryKind.Directory.
Proof.
  assert (Forall (fun m => Forall (fun c => c <> []) (split SLASH (ms_path m))) example_members) as Hp.
  { apply Forall_forall. intros m Hm. apply Forall_forall. intros c Hc.
    assert (forallb (fun m => forallb (fun c => negb (bool_decide (c = []))) (split SLASH (ms_path m))) example_members = true) as H
      by (vm_compute; reflexivity).
    rewrite forallb_forall in H. specialize (H m (proj1 (list_elem_of_In _ _) Hm)). rewrite forallb_forall in H.
    specialize (H c (proj1 (list_elem_of_In _ _) Hc)). by apply negb_true_iff, bool_decide_eq_false in H. }
  assert (validate_v45_member_graph example_members = Ok tt) as Hv by (vm_compute; reflexivity).
  split; [vm_compute; reflexivity|]. split; [exact Hv|].
  assert (forall m, In m (selected_values (select_loop example_members ∅)) -> latest example_members m) as Hl.
  { intros m Hm. by apply selected_values_elem, list_elem_of_In. }
  remember (selected_values (select_loop example_members ∅)) as l eqn:El.
  assert (map ms_path l = [ascii "docs"; ascii "docs/a.txt"; ascii "docs/b.txt"]) as Hm by (rewrite El; vm_compute; reflexivity).
  destruct l as [|d [|f [|g [|? ?]]]]; try discriminate Hm. injection Hm as Hd Hf Hg.
  assert (latest example_members d) as Hd' by (apply Hl; by left). assert (latest example_members f) as Hf' by (apply Hl; right; by left).
  assert (split SLASH (ms_path f) = split SLASH (ms_path d) ++ [ascii "a.txt"]) as Hs by (rewrite Hd, Hf; vm_compute; reflexivity).
  exists f, d, [ascii "a.txt"]. split_and!; [done..|].
  apply (proj2 (proj1 (member_graph_safe example_members Hp) Hv) f d [ascii "a.txt"] Hf' Hd' ltac:(done) Hs).
Defined.
End GraphExample.
