(* ===== verification/MetadataWire.v ===== *)
(** * Reading the tables of the index

    The readers and checks at the end of [crates/tzap-core/src/metadata.rs],
    and tables of entries of one size. *)

From S2P Require Import Wire Ordering.
#[local] Open Scope Z_scope.

(** ** Readers *)
Definition meta_checked_add (lhs rhs : Z) (structure : string) : fresult Z :=
  ok_or (checked_add 64 lhs rhs) (MetadataArithmeticOverflow structure).

Definition meta_checked_mul (lhs rhs : Z) (structure : string) : fresult Z :=
  ok_or (checked_mul 64 lhs rhs) (MetadataArithmeticOverflow structure).

Definition meta_to_usize (value : Z) (structure : string) : fresult Z :=
  ok_or (try_from 64 value) (MetadataArithmeticOverflow structure).

Definition meta_slice (b : bytes) (offset len : Z) (structure : string) : fresult bytes :=
  end_ ← meta_checked_add offset len structure;
  ok_or (get_range b offset end_) (InvalidMetadata structure "range is out of bounds").

Definition meta_read_array (n : Z) (b : bytes) (offset : Z) (structure : string) : fresult bytes :=
  meta_slice b offset n structure.

Definition meta_read_u8 (b : bytes) (offset : Z) (structure : string) : fresult Z :=
  raw ← meta_read_array 1 b offset structure; mret (le_combine raw).

Definition meta_read_u16 (b : bytes) (offset : Z) (structure : string) : fresult Z :=
  raw ← meta_read_array 2 b offset structure; mret (le_combine raw).

Definition meta_read_u32 (b : bytes) (offset : Z) (structure : string) : fresult Z :=
  raw ← meta_read_array 4 b offset structure; mret (le_combine raw).

Definition meta_read_u64 (b : bytes) (offset : Z) (structure : string) : fresult Z :=
  raw ← meta_read_array 8 b offset structure; mret (le_combine raw).

Definition meta_read_i64 (b : bytes) (offset : Z) (structure : string) : fresult Z :=
  raw ← meta_read_array 8 b offset structure; mret (as_i64 (le_combine raw)).

Definition expect_offset (structure name : string) (actual expected : Z) : fresult unit :=
  reject_if (negb (actual =? expected)) (InvalidMetadata structure name).

Definition string_slice (string_pool : bytes) (offset length : Z) (structure : string) : fresult bytes :=
  start ← meta_to_usize offset structure;
  len ← meta_to_usize length structure;
  meta_slice string_pool start len structure.

(** ** Tables *)

(** [iter().map(f).collect()] into a [Result]. *)
Fixpoint map_result {A B} (f : A -> fresult B) (l : list A) : fresult (list B) :=
  match l with
  | [] => Ok []
  | x :: l => y ← f x; rest ← map_result f l; mret (y :: rest)
  end.

(** [b.chunks_exact(n)]; [fuel] bounds the number of pieces. *)
Fixpoint chunks_exact_loop (fuel n : nat) (b : bytes) : list bytes :=
  match fuel with
  | O => []
  | S fuel =>
      if (length b <? n)%nat then [] else take n b :: chunks_exact_loop fuel n (drop n b)
  end.

Definition chunks_exact (n : Z) (b : bytes) : list bytes :=
  chunks_exact_loop (length b) (Z.to_nat n) b.

(** The position where a table starts is recorded when it has entries. *)
Definition table_offset (len cursor : Z) : Z := if len =? 0 then 0 else cursor `mod` 2 ^ 32.

(** An entry of fixed size: it is read from exactly the bytes that it is
    written to. *)
Class TableEntry (A : Type) : Type := {
  entry_len : Z;
  entry_encode : A -> bytes;
  entry_decode : bytes -> fresult A;
  entry_valid : A -> Prop;
  entry_len_pos : 0 < entry_len < 2 ^ 16;
  entry_iff : forall b h,
    blen b = entry_len -> entry_decode b = Ok h <-> entry_valid h /\ entry_encode h = b;
  entry_encode_blen : forall h, entry_valid h -> blen (entry_encode h) = entry_len
}.

(** ** Lemmas on readers *)
Lemma meta_slice_Ok b off n s x :
  0 <= off -> 0 <= n ->
  meta_slice b off n s = Ok x <-> off + n < 2 ^ 64 /\ off + n <= blen b /\ x = seg b off (off + n).
Proof.
  intros Ho Hn. unfold meta_slice, meta_checked_add. rewrite bind_Ok. split.
  - intros (e & He & H). rewrite ok_or_Ok, checked_add_Some in He. destruct He as [? ->].
    apply ok_or_Ok, get_range_Some in H as (_ & _ & ? & ->). done.
  - intros (H1 & H2 & ->). exists (off + n). rewrite !ok_or_Ok, checked_add_Some, get_range_Some.
    split_and!; (done || lia).
Qed.

Lemma meta_slice_eq b off n s :
  0 <= off -> 0 <= n -> off + n <= blen b -> off + n < 2 ^ 64 ->
  meta_slice b off n s = Ok (seg b off (off + n)).
Proof. intros. by apply meta_slice_Ok. Qed.

Lemma meta_read_array_eq n b off s :
  0 <= off -> 0 <= n -> off + n <= blen b -> off + n < 2 ^ 64 ->
  meta_read_array n b off s = Ok (seg b off (off + n)).
Proof. apply meta_slice_eq. Qed.

Lemma meta_slice_no_panic b off n s : meta_slice b off n s <> Panic.
Proof. unfold meta_slice, meta_checked_add. apply bind_no_panic; intros; apply ok_or_no_panic. Qed.

Lemma meta_read_array_no_panic n b off s : meta_read_array n b off s <> Panic.
Proof. apply meta_slice_no_panic. Qed.

Lemma meta_checked_add_no_panic x y s : meta_checked_add x y s <> Panic.
Proof. apply ok_or_no_panic. Qed.

Lemma meta_checked_mul_no_panic x y s : meta_checked_mul x y s <> Panic.
Proof. apply ok_or_no_panic. Qed.

Lemma meta_to_usize_no_panic x s : meta_to_usize x s <> Panic.
Proof. apply ok_or_no_panic. Qed.

Lemma expect_offset_no_panic s n x y : expect_offset s n x y <> Panic.
Proof. apply reject_if_no_panic. Qed.

Lemma string_slice_no_panic p o l s : string_slice p o l s <> Panic.
Proof.
  unfold string_slice. do 2 (apply bind_no_panic; [apply meta_to_usize_no_panic|intros]).
  apply meta_slice_no_panic.
Qed.

Lemma bind_read_no_panic {A B} (m : fresult A) (f : A -> B) : m <> Panic -> (x ← m; mret (f x)) <> Panic.
Proof. intros H. by apply bind_no_panic. Qed.

Lemma meta_read_u8_no_panic b off s : meta_read_u8 b off s <> Panic.
Proof. apply bind_read_no_panic, meta_read_array_no_panic. Qed.
Lemma meta_read_u16_no_panic b off s : meta_read_u16 b off s <> Panic.
Proof. apply bind_read_no_panic, meta_read_array_no_panic. Qed.
Lemma meta_read_u32_no_panic b off s : meta_read_u32 b off s <> Panic.
Proof. apply bind_read_no_panic, meta_read_array_no_panic. Qed.
Lemma meta_read_u64_no_panic b off s : meta_read_u64 b off s <> Panic.
Proof. apply bind_read_no_panic, meta_read_array_no_panic. Qed.
Lemma meta_read_i64_no_panic b off s : meta_read_i64 b off s <> Panic.
Proof. apply bind_read_no_panic, meta_read_array_no_panic. Qed.

#[export] Hint Resolve meta_slice_no_panic meta_read_array_no_panic meta_read_u8_no_panic
  meta_read_u16_no_panic meta_read_u32_no_panic meta_read_u64_no_panic meta_read_i64_no_panic
  meta_checked_add_no_panic meta_checked_mul_no_panic meta_to_usize_no_panic
  expect_offset_no_panic string_slice_no_panic : no_panic.

Lemma wire_array_eq n s b off :
  0 <= off -> 0 <= n -> off + n <= blen b -> read_array n s b off = Ok (seg b off (off + n)).
Proof. intros. apply read_array_Ok; [lia..|]. done. Qed.

(** Inside the buffer these readers are those of wire.rs. *)
Section InRange.
Context (b : bytes) (off : Z) (s : string).

Lemma meta_read_u16_eq : 0 <= off -> off + 2 <= blen b -> off + 2 < 2 ^ 64 ->
  meta_read_u16 b off s = read_u16 b off.
Proof.
  intros. unfold meta_read_u16, read_u16. rewrite meta_read_array_eq by lia.
  by rewrite wire_array_eq by lia.
Qed.

Lemma meta_read_u32_eq : 0 <= off -> off + 4 <= blen b -> off + 4 < 2 ^ 64 ->
  meta_read_u32 b off s = read_u32 b off.
Proof.
  intros. unfold meta_read_u32, read_u32. rewrite meta_read_array_eq by lia.
  by rewrite wire_array_eq by lia.
Qed.

Lemma meta_read_u64_eq : 0 <= off -> off + 8 <= blen b -> off + 8 < 2 ^ 64 ->
  meta_read_u64 b off s = read_u64 b off.
Proof.
  intros. unfold meta_read_u64, read_u64. rewrite meta_read_array_eq by lia.
  by rewrite wire_array_eq by lia.
Qed.

Lemma meta_read_i64_eq : 0 <= off -> off + 8 <= blen b -> off + 8 < 2 ^ 64 ->
  meta_read_i64 b off s = read_i64 b off.
Proof.
  intros. unfold meta_read_i64, read_i64. rewrite meta_read_array_eq by lia.
  by rewrite wire_array_eq by lia.
Qed.

Lemma meta_read_u8_eq : 0 <= off -> off + 1 <= blen b -> off + 1 < 2 ^ 64 ->
  meta_read_u8 b off s = byte_at b off.
Proof.
  intros. unfold meta_read_u8. rewrite meta_read_array_eq, bind_ret by lia.
  assert (blen (seg b off (off + 1)) = 1) as Hl by (rewrite blen_seg; lia).
  symmetry. rewrite mret_eq. apply byte_at_Ok'. split; [lia|].
  split; [apply le_combine_fits; lia|]. rewrite split_le_combine'; [done|]. unfold blen in Hl. lia.
Qed.
End InRange.

(** [meta_facts] turns the reads of an index parser into those of wire.rs,
    [meta_run] runs an index parser on known segments. *)
Ltac meta_facts :=
  repeat match goal with
    | H : meta_read_array ?n ?b ?off ?s = Ok _ |- _ =>
        rewrite (meta_read_array_eq n b off s) in H by lia; injection H as H; subst
    | H : meta_slice ?b ?off ?n ?s = Ok _ |- _ =>
        rewrite (meta_slice_eq b off n s) in H by lia; injection H as H; subst
    | H : meta_read_u8 ?b ?off ?s = Ok _ |- _ => rewrite (meta_read_u8_eq b off s) in H by lia
    | H : meta_read_u16 ?b ?off ?s = Ok _ |- _ => rewrite (meta_read_u16_eq b off s) in H by lia
    | H : meta_read_u32 ?b ?off ?s = Ok _ |- _ => rewrite (meta_read_u32_eq b off s) in H by lia
    | H : meta_read_u64 ?b ?off ?s = Ok _ |- _ => rewrite (meta_read_u64_eq b off s) in H by lia
    | H : meta_read_i64 ?b ?off ?s = Ok _ |- _ => rewrite (meta_read_i64_eq b off s) in H by lia
    end;
  eval_num.

Ltac meta_head t :=
  lazymatch t with
  | mbind ?f (Ok ?a) => rewrite (bind_ret a f)
  | mbind _ ?m => meta_head m
  | meta_read_array ?n ?b ?off ?s => rewrite (meta_read_array_eq n b off s) by lia; eval_num
  | meta_slice ?b ?off ?n ?s => rewrite (meta_slice_eq b off n s) by lia; eval_num
  | meta_read_u8 ?b ?off ?s => rewrite (meta_read_u8_eq b off s) by lia
  | meta_read_u16 ?b ?off ?s => rewrite (meta_read_u16_eq b off s) by lia
  | meta_read_u32 ?b ?off ?s => rewrite (meta_read_u32_eq b off s) by lia
  | meta_read_u64 ?b ?off ?s => rewrite (meta_read_u64_eq b off s) by lia
  | meta_read_i64 ?b ?off ?s => rewrite (meta_read_i64_eq b off s) by lia
  | _ => wire_head t
  end.

Ltac meta_run := repeat (cbv beta iota zeta; lazymatch goal with |- ?l = _ => meta_head l end).

(** The proof that a reader of a fixed header and its [to_bytes] agree. *)
Ltac meta_codec read enc :=
  split;
  [ let H := fresh "H" in intros H; unfold read in H; bind_inv H; subst;
    meta_facts; wire_encoded enc
  | let HT := fresh "HT" in let Hb := fresh "Hb" in
    intros [HT Hb]; unfold enc in Hb; wire_segments Hb; unfold read; meta_run ].

(** A reader that looks at the first [n] bytes only. *)
Section Prefix.
Context (b : bytes) (n : Z) (Hn : 0 <= n <= blen b) (off : Z) (s : string).

Lemma meta_slice_prefix k :
  0 <= off -> 0 <= k -> off + k <= n -> meta_slice b off k s = meta_slice (seg b 0 n) off k s.
Proof.
  intros. unfold meta_slice. unfold meta_checked_add. destruct (checked_add 64 off k) as [e|] eqn:He; [|done]. cbn [ok_or]. rewrite !bind_ret.
  apply checked_add_Some in He as [_ ->].
  unfold get_range. rewrite blen_seg by lia.
  replace (off + k <=? blen b) with true by lia. replace (off + k <=? n - 0) with true by lia.
  case_match; [|done]. by rewrite seg_seg by lia.
Qed.
End Prefix.

Lemma bind_cong {A B} (m m' : fresult A) (f f' : A -> fresult B) :
  m = m' -> (forall a, f a = f' a) -> m ≫= f = m' ≫= f'.
Proof. intros -> H. by apply bind_ext. Qed.

(** ** Lemmas on tables *)
Lemma map_result_Ok {A B} (f : A -> fresult B) l l' :
  map_result f l = Ok l' <-> Forall2 (fun x y => f x = Ok y) l l'.
Proof.
  revert l'. induction l as [|x l IH]; intros l'; cbn [map_result].
  - split; [intros [= <-]; constructor|by intros ->%Forall2_nil_inv_l].
  - rewrite bind_Ok. split.
    + intros (y & Hy & H). apply bind_Ok in H as (r & Hr & H). apply mret_Ok in H as <-.
      constructor; [done|by apply IH].
    + intros H. apply Forall2_cons_inv_l in H as (y & r & Hy & Hr & ->). exists y. split; [done|].
      apply bind_Ok. exists r. split; [by apply IH|done].
Qed.

Lemma map_result_no_panic {A B} (f : A -> fresult B) l :
  (forall x, x ∈ l -> f x <> Panic) -> map_result f l <> Panic.
Proof.
  induction l as [|x l IH]; intros H; cbn [map_result]; [done|].
  apply bind_no_panic; [apply H; left|]. intros y _.
  apply bind_no_panic; [apply IH; intros; apply H; by right|done].
Qed.

Lemma chunks_exact_loop_concat fuel n (l : list bytes) :
  (0 < n)%nat -> (length (concat l) <= fuel)%nat -> Forall (fun x => length x = n) l ->
  chunks_exact_loop fuel n (concat l) = l.
Proof.
  intros Hn. revert fuel. induction l as [|x l IH]; intros fuel Hf Hl; cbn [concat] in *.
  { destruct fuel; [done|]. cbn. by destruct n; [lia|]. }
  apply Forall_cons in Hl as [Hx Hl]. rewrite length_app in Hf. destruct fuel as [|fuel]; [lia|].
  cbn [chunks_exact_loop]. rewrite length_app, (proj2 (Nat.ltb_ge _ _)) by lia.
  rewrite take_app_length', drop_app_length' by done. f_equal. apply IH; [lia|done].
Qed.

Lemma chunks_exact_concat n (l : list bytes) :
  0 < n -> Forall (fun x => blen x = n) l -> chunks_exact n (concat l) = l.
Proof.
  intros Hn Hl. apply chunks_exact_loop_concat; [lia|done|].
  eapply Forall_impl; [exact Hl|]. unfold blen. intros x Hx. cbn in Hx. lia.
Qed.

Lemma cut_pieces n k (b : bytes) :
  0 < n -> blen b = Z.of_nat k * n ->
  exists l, concat l = b /\ length l = k /\ Forall (fun x => blen x = n) l.
Proof.
  intros Hn. revert b. induction k as [|k IH]; intros b Hb.
  - exists []. split_and!; [|done|constructor]. destruct b; [done|]. unfold blen in Hb. cbn in Hb. lia.
  - assert (blen (take (Z.to_nat n) b) = n) as Hh by (unfold blen in *; rewrite length_take; lia).
    destruct (IH (drop (Z.to_nat n) b)) as (l & Hc & Hl & Hf).
    { unfold blen in *. rewrite length_drop. lia. }
    exists (take (Z.to_nat n) b :: l). cbn [concat length]. rewrite Hc, take_drop, Hl. split_and!; [done..|].
    by constructor.
Qed.

Lemma chunks_exact_pieces n k (b : bytes) :
  0 < n -> blen b = Z.of_nat k * n ->
  concat (chunks_exact n b) = b /\ length (chunks_exact n b) = k
  /\ Forall (fun x => blen x = n) (chunks_exact n b).
Proof.
  intros Hn Hb. destruct (cut_pieces n k b Hn Hb) as (l & <- & Hl & Hf).
  by rewrite chunks_exact_concat.
Qed.

Section Table.
Context {A : Type} {E : TableEntry A}.

Lemma entries_blen (l : list A) :
  Forall entry_valid l -> Forall (fun x => blen x = entry_len (A := A)) (map entry_encode l).
Proof. intros H. apply Forall_map. eapply Forall_impl; [exact H|]. apply entry_encode_blen. Qed.

Lemma table_blen (l : list A) :
  Forall entry_valid l -> blen (concat (map entry_encode l)) = Z.of_nat (length l) * entry_len (A := A).
Proof.
  induction 1 as [|x l Hx Hl IH]; [done|]. cbn [map concat length]. rewrite blen_app, IH.
  rewrite entry_encode_blen by done. lia.
Qed.

(** Reading the pieces of a table gives the entries that are written to it. *)
Lemma pieces_iff (pieces : list bytes) (l : list A) :
  Forall (fun x => blen x = entry_len (A := A)) pieces ->
  Forall2 (fun x y => entry_decode x = Ok y) pieces l <-> Forall entry_valid l /\ map entry_encode l = pieces.
Proof.
  intros Hp. revert l. induction Hp as [|x pieces Hx Hp IH]; intros l.
  - split; [by intros ->%Forall2_nil_inv_l|]. intros [_ Hl]. by destruct l.
  - split.
    + intros H. apply Forall2_cons_inv_l in H as (y & r & Hy & Hr & ->).
      apply entry_iff in Hy as [Hv <-]; [|done]. apply IH in Hr as [Hvr <-]. split; [by constructor|done].
    + intros [Hv Hl]. destruct l as [|y l]; [done|]. cbn [map] in Hl. injection Hl as <- <-.
      apply Forall_cons in Hv as [Hv Hvl]. constructor; [by apply entry_iff|by apply IH].
Qed.

Lemma table_iff b count (l : list A) :
  blen b = Z.of_nat count * entry_len (A := A) ->
  map_result entry_decode (chunks_exact (entry_len (A := A)) b) = Ok l
  <-> Forall entry_valid l /\ concat (map entry_encode l) = b /\ length l = count.
Proof.
  intros Hb. pose proof (entry_len_pos (A := A)) as Hpos.
  destruct (chunks_exact_pieces _ _ _ (proj1 Hpos) Hb) as (Hc & Hl & Hf).
  rewrite map_result_Ok, pieces_iff by done. split.
  - intros [Hv Hm]. rewrite Hm. split_and!; [done..|]. by rewrite <- Hl, <- Hm, length_map.
  - intros (Hv & <- & _). split; [done|]. symmetry. apply chunks_exact_concat; [lia|by apply entries_blen].
Qed.
End Table.
