(* ===== verification/IndexRoot.v ===== *)
(** * The root of the index

    [IndexRoot] of [crates/tzap-core/src/metadata.rs]: the totals of the
    archive and where the shards of the index lie, each with the range of path
    hashes that it holds. *)

From S2P Require Import Wire Ordering Paths MetadataWire.
From Stdlib Require Import Sorting.Sorted.
#[local] Open Scope Z_scope.

Definition TZIR_MAGIC : bytes := ascii "TZIR".
Definition INDEX_ROOT_LEN : Z := 160.
Definition SHARD_ENTRY_LEN : Z := 52.
Definition DIRECTORY_HINT_SHARD_ENTRY_LEN : Z := 56.
Definition DEFAULT_MAX_HASH_COLLISION_SHARD_SCAN : Z := 16.
Definition REED_SOLOMON_GF16_MAX_TOTAL_SHARDS : Z := 65535.

#[local] Ltac unfold_consts ::=
  unfold INDEX_ROOT_LEN, SHARD_ENTRY_LEN, DIRECTORY_HINT_SHARD_ENTRY_LEN in *.

Definition SHA256_EMPTY : bytes := map byte.of_Z
  [0xe3; 0xb0; 0xc4; 0x42; 0x98; 0xfc; 0x1c; 0x14; 0x9a; 0xfb; 0xf4; 0xc8; 0x99; 0x6f; 0xb9; 0x24;
   0x27; 0xae; 0x41; 0xe4; 0x64; 0x9b; 0x93; 0x4c; 0xa4; 0x95; 0x99; 0x1b; 0x78; 0x52; 0xb8; 0x55].

Record MetadataLimits : Type := {
  lim_block_size : Z;
  lim_max_path_length : Z;
  lim_max_hash_collision_shard_scan : Z;
  lim_max_shard_count : Z;
  lim_max_directory_hint_shards : Z;
  lim_max_files_per_index_shard : Z;
  lim_max_entries_per_directory_hint_shard : Z;
  lim_max_payload_data_shards : Z;
  lim_max_payload_parity_shards : Z;
  lim_max_index_data_shards : Z;
  lim_max_index_parity_shards : Z;
  lim_max_index_root_data_shards : Z;
  lim_max_index_root_parity_shards : Z
}.

Definition MetadataLimits_default : MetadataLimits := {|
  lim_block_size := 4096;
  lim_max_path_length := 4096;
  lim_max_hash_collision_shard_scan := DEFAULT_MAX_HASH_COLLISION_SHARD_SCAN;
  lim_max_shard_count := 1000000;
  lim_max_directory_hint_shards := 1000000;
  lim_max_files_per_index_shard := 1000000;
  lim_max_entries_per_directory_hint_shard := 1000000;
  lim_max_payload_data_shards := 65535;
  lim_max_payload_parity_shards := 65535;
  lim_max_index_data_shards := 65535;
  lim_max_index_parity_shards := 65535;
  lim_max_index_root_data_shards := 65535;
  lim_max_index_root_parity_shards := 65535 |}.

Record IndexRootHeader : Type := {
  ih_version : Z;
  ih_shard_count : Z;
  ih_directory_hint_shard_count : Z;
  ih_frame_count : Z;
  ih_envelope_count : Z;
  ih_file_count : Z;
  ih_payload_block_count : Z;
  ih_tar_total_size : Z;
  ih_content_sha256 : bytes;
  ih_shard_table_offset : Z;
  ih_directory_hint_shard_table_offset : Z;
  ih_dictionary_first_block : Z;
  ih_dictionary_data_block_count : Z;
  ih_dictionary_parity_block_count : Z;
  ih_dictionary_encrypted_size : Z;
  ih_dictionary_decompressed_size : Z
}.

Record ShardEntry : Type := {
  se_shard_index : Z;
  se_first_block_index : Z;
  se_data_block_count : Z;
  se_parity_block_count : Z;
  se_encrypted_size : Z;
  se_decompressed_size : Z;
  se_file_count : Z;
  se_first_path_hash : bytes;
  se_last_path_hash : bytes
}.

Record DirectoryHintShardEntry : Type := {
  de_hint_shard_index : Z;
  de_first_dir_hash : bytes;
  de_last_dir_hash : bytes;
  de_first_block_index : Z;
  de_data_block_count : Z;
  de_parity_block_count : Z;
  de_encrypted_size : Z;
  de_decompressed_size : Z;
  de_entry_count : Z
}.

Record IndexRoot : Type := {
  ir_header : IndexRootHeader;
  ir_shards : list ShardEntry;
  ir_directory_hint_shards : list DirectoryHintShardEntry
}.

(** ** Extents of encrypted objects *)
Definition validate_encrypted_extent (structure : string) (data_block_count encrypted_size block_size : Z)
    : fresult unit :=
  reject_if ((data_block_count =? 0) || (encrypted_size =? 0))
    (InvalidMetadata structure "encrypted object has zero data blocks or size");;
  expected ← ok_or (checked_mul 64 data_block_count block_size) (MetadataArithmeticOverflow structure);
  reject_if ((u32_max <? expected) || negb (expected =? encrypted_size))
    (InvalidMetadata structure "encrypted_size is not data_block_count * block_size").

Definition validate_fec_class_extent (structure : string)
    (data_block_count parity_block_count data_shard_max parity_shard_max : Z) : fresult unit :=
  reject_if (data_shard_max <? data_block_count)
    (InvalidMetadata structure "data_block_count exceeds class maximum");;
  reject_if (parity_shard_max <? parity_block_count)
    (InvalidMetadata structure "parity_block_count exceeds class maximum");;
  reject_if (REED_SOLOMON_GF16_MAX_TOTAL_SHARDS <? data_block_count + parity_block_count)
    (InvalidMetadata structure "data_block_count + parity_block_count exceeds ReedSolomonGF16 limit").

(** ** Rows

    The two tables of the root are read by the same loop, in two copies. *)
Definition read_shard_entry (chunk : bytes) : fresult ShardEntry :=
  shard_index ← meta_read_u64 chunk 0 "ShardEntry";
  first_block_index ← meta_read_u64 chunk 8 "ShardEntry";
  data_block_count ← meta_read_u32 chunk 16 "ShardEntry";
  parity_block_count ← meta_read_u32 chunk 20 "ShardEntry";
  encrypted_size ← meta_read_u32 chunk 24 "ShardEntry";
  decompressed_size ← meta_read_u32 chunk 28 "ShardEntry";
  file_count ← meta_read_u32 chunk 32 "ShardEntry";
  first_path_hash ← meta_read_array 8 chunk 36 "ShardEntry";
  last_path_hash ← meta_read_array 8 chunk 44 "ShardEntry";
  mret {| se_shard_index := shard_index; se_first_block_index := first_block_index;
          se_data_block_count := data_block_count; se_parity_block_count := parity_block_count;
          se_encrypted_size := encrypted_size; se_decompressed_size := decompressed_size;
          se_file_count := file_count; se_first_path_hash := first_path_hash;
          se_last_path_hash := last_path_hash |}.

Definition ShardEntry_to_bytes (self : ShardEntry) : bytes :=
  puts (zeros SHARD_ENTRY_LEN)
    [write_u64 0 (se_shard_index self);
     write_u64 8 (se_first_block_index self);
     write_u32 16 (se_data_block_count self);
     write_u32 20 (se_parity_block_count self);
     write_u32 24 (se_encrypted_size self);
     write_u32 28 (se_decompressed_size self);
     write_u32 32 (se_file_count self);
     write_bytes 36 (se_first_path_hash self);
     write_bytes 44 (se_last_path_hash self)].

Definition read_directory_hint_shard_entry (chunk : bytes) : fresult DirectoryHintShardEntry :=
  let structure := "DirectoryHintShardEntry" in
  hint_shard_index ← meta_read_u64 chunk 0 structure;
  first_dir_hash ← meta_read_array 8 chunk 8 structure;
  last_dir_hash ← meta_read_array 8 chunk 16 structure;
  first_block_index ← meta_read_u64 chunk 24 structure;
  data_block_count ← meta_read_u32 chunk 32 structure;
  parity_block_count ← meta_read_u32 chunk 36 structure;
  encrypted_size ← meta_read_u32 chunk 40 structure;
  decompressed_size ← meta_read_u32 chunk 44 structure;
  entry_count ← meta_read_u64 chunk 48 structure;
  mret {| de_hint_shard_index := hint_shard_index; de_first_dir_hash := first_dir_hash;
          de_last_dir_hash := last_dir_hash; de_first_block_index := first_block_index;
          de_data_block_count := data_block_count; de_parity_block_count := parity_block_count;
          de_encrypted_size := encrypted_size; de_decompressed_size := decompressed_size;
          de_entry_count := entry_count |}.

Definition DirectoryHintShardEntry_to_bytes (self : DirectoryHintShardEntry) : bytes :=
  puts (zeros DIRECTORY_HINT_SHARD_ENTRY_LEN)
    [write_u64 0 (de_hint_shard_index self);
     write_bytes 8 (de_first_dir_hash self);
     write_bytes 16 (de_last_dir_hash self);
     write_u64 24 (de_first_block_index self);
     write_u32 32 (de_data_block_count self);
     write_u32 36 (de_parity_block_count self);
     write_u32 40 (de_encrypted_size self);
     write_u32 44 (de_decompressed_size self);
     write_u64 48 (de_entry_count self)].

(** The Rust types of the fields. *)
Definition ShardEntry_typed (e : ShardEntry) : Prop :=
  u64 (se_shard_index e) /\ u64 (se_first_block_index e) /\ u32 (se_data_block_count e)
  /\ u32 (se_parity_block_count e) /\ u32 (se_encrypted_size e) /\ u32 (se_decompressed_size e)
  /\ u32 (se_file_count e) /\ blen (se_first_path_hash e) = 8 /\ blen (se_last_path_hash e) = 8.

Definition DirectoryHintShardEntry_typed (e : DirectoryHintShardEntry) : Prop :=
  u64 (de_hint_shard_index e) /\ blen (de_first_dir_hash e) = 8 /\ blen (de_last_dir_hash e) = 8
  /\ u64 (de_first_block_index e) /\ u32 (de_data_block_count e) /\ u32 (de_parity_block_count e)
  /\ u32 (de_encrypted_size e) /\ u32 (de_decompressed_size e) /\ u64 (de_entry_count e).

#[export, refine] Instance ShardEntry_table : TableEntry ShardEntry := {|
  entry_len := SHARD_ENTRY_LEN;
  entry_encode := ShardEntry_to_bytes;
  entry_decode := read_shard_entry;
  entry_valid := ShardEntry_typed
|}.
Proof.
  - unfold SHARD_ENTRY_LEN. lia.
  - intros b h Hb. unfold SHARD_ENTRY_LEN in *. unfold ShardEntry_typed. split.
    + intros H. unfold read_shard_entry in H. bind_inv H. subst h.
      meta_facts. wire_encoded ShardEntry_to_bytes.
    + intros [HT H]. destruct h. cbn in HT. destruct_and!. unfold ShardEntry_to_bytes in H.
      unfold SHARD_ENTRY_LEN in H. wire_segments H. unfold read_shard_entry. by meta_run.
  - intros h HT. unfold ShardEntry_typed in HT. destruct_and!. unfold ShardEntry_to_bytes, SHARD_ENTRY_LEN.
    apply blen_puts. by layout_done.
Defined.

#[export, refine] Instance DirectoryHintShardEntry_table : TableEntry DirectoryHintShardEntry := {|
  entry_len := DIRECTORY_HINT_SHARD_ENTRY_LEN;
  entry_encode := DirectoryHintShardEntry_to_bytes;
  entry_decode := read_directory_hint_shard_entry;
  entry_valid := DirectoryHintShardEntry_typed
|}.
Proof.
  - unfold DIRECTORY_HINT_SHARD_ENTRY_LEN. lia.
  - intros b h Hb. unfold DIRECTORY_HINT_SHARD_ENTRY_LEN in *. unfold DirectoryHintShardEntry_typed. split.
    + intros H. unfold read_directory_hint_shard_entry in H. bind_inv H. subst h.
      meta_facts. wire_encoded DirectoryHintShardEntry_to_bytes.
    + intros [HT H]. destruct h. cbn in HT. destruct_and!. unfold DirectoryHintShardEntry_to_bytes in H.
      unfold DIRECTORY_HINT_SHARD_ENTRY_LEN in H. wire_segments H.
      unfold read_directory_hint_shard_entry. by meta_run.
  - intros h HT. unfold DirectoryHintShardEntry_typed in HT. destruct_and!.
    unfold DirectoryHintShardEntry_to_bytes, DIRECTORY_HINT_SHARD_ENTRY_LEN.
    apply blen_puts. by layout_done.
Defined.

Definition check_shard_entry (limits : MetadataLimits) (entry : ShardEntry) : fresult unit :=
  reject_if (se_file_count entry =? 0) (InvalidMetadata "ShardEntry" "file count is zero");;
  reject_if (se_decompressed_size entry =? 0)
    (InvalidMetadata "ShardEntry" "decompressed size is zero");;
  validate_encrypted_extent "ShardEntry" (se_data_block_count entry) (se_encrypted_size entry)
    (lim_block_size limits);;
  validate_fec_class_extent "ShardEntry" (se_data_block_count entry) (se_parity_block_count entry)
    (lim_max_index_data_shards limits) (lim_max_index_parity_shards limits).

Definition check_directory_hint_shard_entry (limits : MetadataLimits) (entry : DirectoryHintShardEntry)
    : fresult unit :=
  reject_if (de_entry_count entry =? 0)
    (InvalidMetadata "DirectoryHintShardEntry" "entry count is zero");;
  reject_if (de_decompressed_size entry =? 0)
    (InvalidMetadata "DirectoryHintShardEntry" "decompressed size is zero");;
  validate_encrypted_extent "DirectoryHintShardEntry" (de_data_block_count entry)
    (de_encrypted_size entry) (lim_block_size limits);;
  validate_fec_class_extent "DirectoryHintShardEntry" (de_data_block_count entry)
    (de_parity_block_count entry) (lim_max_index_data_shards limits)
    (lim_max_index_parity_shards limits).

(** What the two copies of the loop differ in. *)
Class IndexRow (A : Type) : Type := {
  row_structure : string;
  row_duplicate : string;
  row_unsorted : string;
  row_overlap : string;
  row_index : A -> Z;
  row_first : A -> bytes;
  row_last : A -> bytes;
  row_check : MetadataLimits -> A -> fresult unit
}.

#[export] Instance ShardEntry_row : IndexRow ShardEntry := {|
  row_structure := "ShardEntry";
  row_duplicate := "duplicate shard index";
  row_unsorted := "ShardEntry rows are not sorted";
  row_overlap := "ShardEntry hash ranges overlap out of order";
  row_index := se_shard_index;
  row_first := se_first_path_hash;
  row_last := se_last_path_hash;
  row_check := check_shard_entry
|}.

#[export] Instance DirectoryHintShardEntry_row : IndexRow DirectoryHintShardEntry := {|
  row_structure := "DirectoryHintShardEntry";
  row_duplicate := "duplicate hint shard index";
  row_unsorted := "DirectoryHintShardEntry rows are not sorted";
  row_overlap := "DirectoryHintShardEntry hash ranges overlap out of order";
  row_index := de_hint_shard_index;
  row_first := de_first_dir_hash;
  row_last := de_last_dir_hash;
  row_check := check_directory_hint_shard_entry
|}.

Section Rows.
Context {A : Type} {E : TableEntry A} {R : IndexRow A}.

(** [shard_entry_sort_key] and [directory_hint_shard_sort_key] *)
Definition row_sort_key (entry : A) : bytes * bytes * Z := (row_first entry, row_last entry, row_index entry).

Definition check_row_order (previous entry : A) : fresult unit :=
  reject_if (leb (row_sort_key entry) (row_sort_key previous)) (InvalidMetadata "IndexRoot" (row_unsorted (A := A)));;
  reject_if (ltb (row_first entry) (row_last previous)) (InvalidMetadata "IndexRoot" (row_overlap (A := A))).

Fixpoint parse_rows_loop (limits : MetadataLimits) (chunks : list bytes) (seen_indexes : gset Z)
    (entries : list A) : fresult (list A) :=
  match chunks with
  | [] => Ok entries
  | chunk :: chunks =>
      entry ← entry_decode chunk;
      row_check limits entry;;
      reject_if (ltb (row_last entry) (row_first entry))
        (InvalidMetadata (row_structure (A := A)) "first hash is greater than last hash");;
      reject_if (bool_decide (row_index entry ∈ seen_indexes))
        (InvalidMetadata (row_structure (A := A)) (row_duplicate (A := A)));;
      match last entries with
      | Some previous => check_row_order previous entry
      | None => Ok tt
      end;;
      parse_rows_loop limits chunks ({[row_index entry]} ∪ seen_indexes) (entries ++ [entry])
  end.

(** [parse_shard_entries] and [parse_directory_hint_shard_entries] *)
Definition parse_rows (limits : MetadataLimits) (b : bytes) : fresult (list A) :=
  parse_rows_loop limits (chunks_exact (entry_len (A := A)) b) ∅ [].
End Rows.

Definition parse_shard_entries (b : bytes) (limits : MetadataLimits) : fresult (list ShardEntry) :=
  parse_rows limits b.

Definition parse_directory_hint_shard_entries (b : bytes) (limits : MetadataLimits)
    : fresult (list DirectoryHintShardEntry) :=
  parse_rows limits b.

(** ** The root *)
Definition read_index_root_header (b : bytes) : fresult IndexRootHeader :=
  let structure := "IndexRoot" in
  version ← meta_read_u32 b 4 structure;
  shard_count ← meta_read_u32 b 8 structure;
  directory_hint_shard_count ← meta_read_u32 b 12 structure;
  frame_count ← meta_read_u64 b 16 structure;
  envelope_count ← meta_read_u64 b 24 structure;
  file_count ← meta_read_u64 b 32 structure;
  payload_block_count ← meta_read_u64 b 40 structure;
  tar_total_size ← meta_read_u64 b 48 structure;
  content_sha256 ← meta_read_array 32 b 56 structure;
  shard_table_offset ← meta_read_u64 b 88 structure;
  directory_hint_shard_table_offset ← meta_read_u64 b 96 structure;
  dictionary_first_block ← meta_read_u64 b 104 structure;
  dictionary_data_block_count ← meta_read_u32 b 112 structure;
  dictionary_parity_block_count ← meta_read_u32 b 116 structure;
  dictionary_encrypted_size ← meta_read_u32 b 120 structure;
  dictionary_decompressed_size ← meta_read_u32 b 124 structure;
  mret {| ih_version := version; ih_shard_count := shard_count;
          ih_directory_hint_shard_count := directory_hint_shard_count;
          ih_frame_count := frame_count; ih_envelope_count := envelope_count;
          ih_file_count := file_count; ih_payload_block_count := payload_block_count;
          ih_tar_total_size := tar_total_size; ih_content_sha256 := content_sha256;
          ih_shard_table_offset := shard_table_offset;
          ih_directory_hint_shard_table_offset := directory_hint_shard_table_offset;
          ih_dictionary_first_block := dictionary_first_block;
          ih_dictionary_data_block_count := dictionary_data_block_count;
          ih_dictionary_parity_block_count := dictionary_parity_block_count;
          ih_dictionary_encrypted_size := dictionary_encrypted_size;
          ih_dictionary_decompressed_size := dictionary_decompressed_size |}.

Definition IndexRootHeader_empty : IndexRootHeader := {|
  ih_version := 1; ih_shard_count := 0; ih_directory_hint_shard_count := 0; ih_frame_count := 0;
  ih_envelope_count := 0; ih_file_count := 0; ih_payload_block_count := 0; ih_tar_total_size := 0;
  ih_content_sha256 := SHA256_EMPTY; ih_shard_table_offset := 0;
  ih_directory_hint_shard_table_offset := 0; ih_dictionary_first_block := 0;
  ih_dictionary_data_block_count := 0; ih_dictionary_parity_block_count := 0;
  ih_dictionary_encrypted_size := 0; ih_dictionary_decompressed_size := 0 |}.

Definition IndexRootHeader_to_bytes (self : IndexRootHeader) : bytes :=
  puts (zeros INDEX_ROOT_LEN)
    [write_bytes 0 TZIR_MAGIC;
     write_u32 4 (ih_version self);
     write_u32 8 (ih_shard_count self);
     write_u32 12 (ih_directory_hint_shard_count self);
     write_u64 16 (ih_frame_count self);
     write_u64 24 (ih_envelope_count self);
     write_u64 32 (ih_file_count self);
     write_u64 40 (ih_payload_block_count self);
     write_u64 48 (ih_tar_total_size self);
     write_bytes 56 (ih_content_sha256 self);
     write_u64 88 (ih_shard_table_offset self);
     write_u64 96 (ih_directory_hint_shard_table_offset self);
     write_u64 104 (ih_dictionary_first_block self);
     write_u32 112 (ih_dictionary_data_block_count self);
     write_u32 116 (ih_dictionary_parity_block_count self);
     write_u32 120 (ih_dictionary_encrypted_size self);
     write_u32 124 (ih_dictionary_decompressed_size self)].

Definition index_root_dictionary_fields_are_zero (header : IndexRootHeader) : bool :=
  (ih_dictionary_first_block header =? 0) && (ih_dictionary_data_block_count header =? 0)
  && (ih_dictionary_parity_block_count header =? 0) && (ih_dictionary_encrypted_size header =? 0)
  && (ih_dictionary_decompressed_size header =? 0).

Definition validate_dictionary_fields (header : IndexRootHeader) (has_dictionary : bool)
    (limits : MetadataLimits) : fresult unit :=
  if negb has_dictionary
  then
    reject_if (negb (index_root_dictionary_fields_are_zero header))
      (InvalidMetadata "IndexRoot" "dictionary fields are non-zero while has_dictionary is false")
  else
    reject_if (ih_dictionary_data_block_count header =? 0)
      (InvalidMetadata "IndexRoot" "dictionary data block count is zero while has_dictionary is true");;
    reject_if ((ih_dictionary_first_block header =? 0) || (ih_dictionary_encrypted_size header =? 0)
               || (ih_dictionary_decompressed_size header =? 0))
      (InvalidMetadata "IndexRoot" "required dictionary field is zero");;
    validate_encrypted_extent "IndexRoot.dictionary" (ih_dictionary_data_block_count header)
      (ih_dictionary_encrypted_size header) (lim_block_size limits);;
    validate_fec_class_extent "IndexRoot.dictionary" (ih_dictionary_data_block_count header)
      (ih_dictionary_parity_block_count header) (lim_max_index_root_data_shards limits)
      (lim_max_index_root_parity_shards limits).

(** The loop that adds up the files of the shards. *)
Fixpoint sum_file_counts (shards : list ShardEntry) (sum : Z) : fresult Z :=
  match shards with
  | [] => Ok sum
  | shard :: shards =>
      sum ← ok_or (checked_add 64 sum (se_file_count shard)) (MetadataArithmeticOverflow "IndexRoot");
      sum_file_counts shards sum
  end.

Definition validate_index_root_totals (header : IndexRootHeader) (shards : list ShardEntry)
    (has_dictionary : bool) : fresult unit :=
  match shards with
  | [] =>
      reject_if (negb (ih_file_count header =? 0) || negb (ih_frame_count header =? 0)
                 || negb (ih_envelope_count header =? 0) || negb (ih_payload_block_count header =? 0)
                 || negb (ih_tar_total_size header =? 0))
        (InvalidMetadata "IndexRoot" "empty shard table has non-empty archive totals");;
      reject_if (negb (bytes_eqb (ih_content_sha256 header) SHA256_EMPTY))
        (InvalidMetadata "IndexRoot" "empty archive content hash is not SHA-256(empty)");;
      reject_if (has_dictionary || negb (index_root_dictionary_fields_are_zero header))
        (InvalidMetadata "IndexRoot" "empty archive cannot use dictionary")
  | _ =>
      sum ← sum_file_counts shards 0;
      reject_if (negb (sum =? ih_file_count header))
        (InvalidMetadata "IndexRoot" "file_count does not equal sum of ShardEntry rows")
  end.

(** One of the two tables: returns its rows and the cursor behind it. *)
Definition parse_shard_table (b : bytes) (header : IndexRootHeader) (limits : MetadataLimits)
    (cursor : Z) : fresult (list ShardEntry * Z) :=
  let structure := "IndexRoot" in
  if ih_shard_count header =? 0
  then
    reject_if (negb (ih_shard_table_offset header =? 0))
      (InvalidMetadata structure "absent shard table has non-zero offset");;
    mret ([], cursor)
  else
    expect_offset structure "shard table" (ih_shard_table_offset header) cursor;;
    count ← meta_to_usize (ih_shard_count header) structure;
    bytes_len ← meta_checked_mul count SHARD_ENTRY_LEN structure;
    table ← meta_slice b cursor bytes_len structure;
    cursor ← meta_checked_add cursor bytes_len structure;
    shards ← parse_shard_entries table limits;
    mret (shards, cursor).

Definition parse_directory_hint_shard_table (b : bytes) (header : IndexRootHeader)
    (limits : MetadataLimits) (cursor : Z) : fresult (list DirectoryHintShardEntry * Z) :=
  let structure := "IndexRoot" in
  if ih_directory_hint_shard_count header =? 0
  then
    reject_if (negb (ih_directory_hint_shard_table_offset header =? 0))
      (InvalidMetadata structure "absent directory hint shard table has non-zero offset");;
    mret ([], cursor)
  else
    reject_if (ih_shard_count header =? 0)
      (InvalidMetadata structure "directory hints require at least one shard");;
    expect_offset structure "directory hint shard table"
      (ih_directory_hint_shard_table_offset header) cursor;;
    count ← meta_to_usize (ih_directory_hint_shard_count header) structure;
    bytes_len ← meta_checked_mul count DIRECTORY_HINT_SHARD_ENTRY_LEN structure;
    table ← meta_slice b cursor bytes_len structure;
    cursor ← meta_checked_add cursor bytes_len structure;
    directory_hint_shards ← parse_directory_hint_shard_entries table limits;
    mret (directory_hint_shards, cursor).

Definition IndexRoot_parse (b : bytes) (has_dictionary : bool) (limits : MetadataLimits)
    : fresult IndexRoot :=
  let structure := "IndexRoot" in
  reject_if (blen b <? INDEX_ROOT_LEN)
    (InvalidMetadata structure "plaintext is shorter than fixed header");;
  magic ← meta_read_array 4 b 0 structure;
  expect_magic structure TZIR_MAGIC magic;;
  reserved ← meta_slice b 128 32 structure;
  expect_zero structure reserved;;
  header ← read_index_root_header b;
  reject_if (negb (ih_version header =? 1)) (InvalidMetadata structure "unsupported version");;
  reject_if (lim_max_shard_count limits <? ih_shard_count header)
    (InvalidMetadata structure "shard count exceeds resource cap");;
  reject_if (lim_max_directory_hint_shards limits <? ih_directory_hint_shard_count header)
    (InvalidMetadata structure "directory hint shard count exceeds resource cap");;
  validate_dictionary_fields header has_dictionary limits;;
  '(shards, cursor) ← parse_shard_table b header limits INDEX_ROOT_LEN;
  '(directory_hint_shards, cursor) ← parse_directory_hint_shard_table b header limits cursor;
  reject_if (negb (blen b =? cursor))
    (InvalidMetadata structure "plaintext length does not match canonical cursor");;
  validate_index_root_totals header shards has_dictionary;;
  mret {| ir_header := header; ir_shards := shards; ir_directory_hint_shards := directory_hint_shards |}.

(** The counts and offsets of the header are those of the tables. *)
Definition canonical_header (self : IndexRoot) : IndexRootHeader :=
  let header := ir_header self in
  let shard_count := Z.of_nat (length (ir_shards self)) in
  let hint_count := Z.of_nat (length (ir_directory_hint_shards self)) in
  {| ih_version := ih_version header;
     ih_shard_count := shard_count `mod` 2 ^ 32;
     ih_directory_hint_shard_count := hint_count `mod` 2 ^ 32;
     ih_frame_count := ih_frame_count header; ih_envelope_count := ih_envelope_count header;
     ih_file_count := ih_file_count header;
     ih_payload_block_count := ih_payload_block_count header;
     ih_tar_total_size := ih_tar_total_size header;
     ih_content_sha256 := ih_content_sha256 header;
     ih_shard_table_offset := if shard_count =? 0 then 0 else INDEX_ROOT_LEN;
     ih_directory_hint_shard_table_offset :=
       if hint_count =? 0 then 0 else INDEX_ROOT_LEN + shard_count * SHARD_ENTRY_LEN;
     ih_dictionary_first_block := ih_dictionary_first_block header;
     ih_dictionary_data_block_count := ih_dictionary_data_block_count header;
     ih_dictionary_parity_block_count := ih_dictionary_parity_block_count header;
     ih_dictionary_encrypted_size := ih_dictionary_encrypted_size header;
     ih_dictionary_decompressed_size := ih_dictionary_decompressed_size header |}.

Definition IndexRoot_to_bytes (self : IndexRoot) : bytes :=
  IndexRootHeader_to_bytes (canonical_header self)
  ++ concat (map ShardEntry_to_bytes (ir_shards self))
  ++ concat (map DirectoryHintShardEntry_to_bytes (ir_directory_hint_shards self)).

(** ** Lemmas on rows *)
Section RowLemmas.
Context {A : Type} {E : TableEntry A} {R : IndexRow A}.

Definition row_ok (limits : MetadataLimits) (entry : A) : Prop :=
  row_check limits entry = Ok tt /\ le (row_first entry) (row_last entry).

(** A row comes behind another one: its range starts where that one ends, or
    later. *)
Definition row_follows (previous entry : A) : Prop :=
  lt (row_sort_key previous) (row_sort_key entry) /\ le (row_last previous) (row_first entry).

Definition rows_ok (limits : MetadataLimits) (rows : list A) : Prop :=
  Forall (row_ok limits) rows /\ NoDup (map row_index rows) /\ Sorted row_follows rows.

Lemma rows_ok_nil limits : rows_ok limits [].
Proof. split_and!; constructor. Qed.

Lemma Sorted_snoc_iff {B} (P : B -> B -> Prop) l x :
  Sorted P (l ++ [x]) <-> Sorted P l /\ forall y, last l = Some y -> P y x.
Proof.
  induction l as [|a l IH]; [by split; [intros; split; [constructor|]|repeat constructor]|].
  destruct l as [|b l].
  - cbn. split.
    + intros H. apply Sorted_inv in H as [_ H]. apply HdRel_inv in H. split; [by repeat constructor|].
      by intros y [= <-].
    + intros [_ H]. repeat constructor. by apply H.
  - change ((a :: b :: l) ++ [x]) with (a :: (b :: l) ++ [x]). split.
    + intros H. apply Sorted_inv in H as [H Hh]. apply IH in H as [Hs Hl]. split; [|done].
      constructor; [done|]. apply HdRel_inv in Hh. by constructor.
    + intros [H Hl]. apply Sorted_inv in H as [H Hh]. constructor; [by apply IH|].
      apply HdRel_inv in Hh. by constructor.
Qed.

Lemma check_row_order_Ok previous entry u :
  check_row_order previous entry = Ok u <-> row_follows previous entry.
Proof.
  unfold check_row_order, row_follows. destruct u. rewrite bind_Ok. split.
  - intros ([] & H1 & H2). rewrite reject_if_Ok in H1, H2. unfold leb in H1.
    apply negb_false_iff in H1. split; [exact H1|]. unfold le, leb. by rewrite H2.
  - intros [H1 H2]. exists tt. rewrite !reject_if_Ok. unfold leb. unfold lt, le, leb in H1, H2.
    rewrite H1. split; [done|]. by apply negb_true_iff.
Qed.

(** One turn of the loop accepts a row exactly when the rows stay in order. *)
Lemma row_step limits (seen : gset Z) (entries : list A) entry :
  (forall x, x ∈ seen <-> x ∈ map row_index entries) -> rows_ok limits entries ->
  (row_check limits entry;;
   reject_if (ltb (row_last entry) (row_first entry))
     (InvalidMetadata (row_structure (A := A)) "first hash is greater than last hash");;
   reject_if (bool_decide (row_index entry ∈ seen))
     (InvalidMetadata (row_structure (A := A)) (row_duplicate (A := A)));;
   match last entries with
   | Some previous => check_row_order previous entry
   | None => Ok tt
   end) = Ok tt <-> rows_ok limits (entries ++ [entry]).
Proof.
  intros Hseen (H1 & H2 & H3). unfold rows_ok.
  rewrite Forall_app, Forall_singleton, map_app, Sorted_snoc_iff. unfold row_ok at 2, le, leb.
  assert (NoDup (map row_index entries ++ map row_index [entry]) <-> row_index entry ∉ seen) as ->.
  { rewrite Hseen, NoDup_app. cbn. split.
    - intros (_ & Hd & _) Hin. by apply (Hd _ Hin), list_elem_of_singleton.
    - intros Hn. split_and!; [done| |apply NoDup_singleton]. intros x Hx ->%list_elem_of_singleton. done. }
  split.
  - intros H. apply bind_Ok in H as ([] & Hc & H). apply bind_Ok in H as ([] & Hf & H).
    apply bind_Ok in H as ([] & Hs & H). rewrite reject_if_Ok in Hf, Hs. apply bool_decide_eq_false in Hs.
    rewrite Hf. split_and!; try done. intros y Hy. rewrite Hy in H. by apply check_row_order_Ok in H.
  - intros ((_ & Hc & Hf) & Hs & _ & Hl). rewrite Hc, bind_ret.
    apply negb_true_iff in Hf. rewrite Hf. cbn [reject_if]. rewrite bind_ret.
    rewrite bool_decide_eq_false_2 by done. cbn [reject_if]. rewrite bind_ret.
    destruct (last entries) as [y|]; [|done]. by apply check_row_order_Ok, Hl.
Qed.

Lemma parse_rows_loop_iff limits chunks (seen : gset Z) (entries l : list A) :
  (forall x, x ∈ seen <-> x ∈ map row_index entries) -> rows_ok limits entries ->
  parse_rows_loop limits chunks seen entries = Ok l
  <-> exists new, l = entries ++ new /\ Forall2 (fun x y => entry_decode x = Ok y) chunks new
                  /\ rows_ok limits l.
Proof.
  revert seen entries. induction chunks as [|chunk chunks IH]; intros seen entries Hseen Hrows; cbn [parse_rows_loop].
  { split.
    - intros [= <-]. exists []. by rewrite app_nil_r.
    - intros (new & -> & ->%Forall2_nil_inv_l & _). by rewrite app_nil_r. }
  assert (forall entry x, x ∈ ({[row_index entry]} ∪ seen : gset Z) <-> x ∈ map row_index (entries ++ [entry])) as Hset.
  { intros entry x. rewrite map_app, elem_of_union, elem_of_singleton, Hseen, elem_of_app. cbn.
    rewrite list_elem_of_singleton. tauto. }
  split.
  - intros H. apply bind_Ok in H as (entry & He & H).
    assert (rows_ok limits (entries ++ [entry])
            /\ parse_rows_loop limits chunks ({[row_index entry]} ∪ seen) (entries ++ [entry]) = Ok l) as [Hok Hl].
    { apply bind_Ok in H as ([] & Hc & H). apply bind_Ok in H as ([] & Hf & H).
      apply bind_Ok in H as ([] & Hs & H). apply bind_Ok in H as ([] & Hp & H). split; [|done].
      apply (row_step limits seen); [done..|]. by rewrite Hc, bind_ret, Hf, bind_ret, Hs, bind_ret. }
    apply IH in Hl as (new & -> & Hn & Hok'); [|done..]. exists (entry :: new).
    rewrite <- app_assoc in *. split_and!; [done|by constructor|done].
  - intros (new & -> & Hn & Hok). apply Forall2_cons_inv_l in Hn as (entry & new' & He & Hn & ->).
    rewrite (cons_middle entry), app_assoc in Hok. rewrite He, bind_ret.
    assert (rows_ok limits (entries ++ [entry])) as Hok1.
    { destruct Hok as (H1 & H2 & H3). apply Forall_app in H1 as [H1 _].
      rewrite map_app in H2. apply NoDup_app in H2 as (H2 & _ & _). split_and!; [done..|].
      clear -H3. induction (entries ++ [entry]) as [|a l IHl]; [constructor|].
      cbn [app] in H3. apply Sorted_inv in H3 as [H3 Hh]. constructor; [by apply IHl|].
      destruct l; [constructor|]. cbn in Hh. apply HdRel_inv in Hh. by constructor. }
    pose proof (proj2 (row_step limits seen entries entry Hseen Hrows) Hok1) as Hstep.
    apply bind_Ok in Hstep as ([] & Hc & Hstep). apply bind_Ok in Hstep as ([] & Hf & Hstep).
    apply bind_Ok in Hstep as ([] & Hs & Hstep).
    rewrite Hc, bind_ret, Hf, bind_ret, Hs, bind_ret, Hstep, bind_ret.
    apply IH; [done..|]. exists new'. rewrite <- app_assoc in *. done.
Qed.

(** A table is parsed into the rows that are written to it. *)
Lemma parse_rows_iff limits b count (l : list A) :
  blen b = Z.of_nat count * entry_len (A := A) ->
  parse_rows limits b = Ok l
  <-> rows_ok limits l /\ Forall entry_valid l /\ concat (map entry_encode l) = b /\ length l = count.
Proof.
  intros Hb. unfold parse_rows. rewrite parse_rows_loop_iff by first [apply rows_ok_nil|set_solver].
  rewrite <- (table_iff b count l Hb), map_result_Ok. split.
  - intros (new & -> & Hn & Hr). done.
  - intros [Hr Hn]. by exists l.
Qed.

Lemma parse_table_iff limits b cursor count (l : list A) c s :
  0 <= cursor -> 0 <= count < 2 ^ 32 -> cursor < 2 ^ 60 ->
  (n ← meta_to_usize count s;
   bytes_len ← meta_checked_mul n (entry_len (A := A)) s;
   table ← meta_slice b cursor bytes_len s;
   cursor ← meta_checked_add cursor bytes_len s;
   rows ← parse_rows limits table;
   mret (rows, cursor)) = Ok (l, c)
  <-> c = cursor + count * entry_len (A := A) /\ c <= blen b /\ Z.of_nat (length l) = count
      /\ rows_ok limits l /\ Forall entry_valid l /\ concat (map entry_encode l) = seg b cursor c.
Proof.
  intros Hc Hn Hlt. pose proof (entry_len_pos (A := A)) as Hp.
  unfold meta_to_usize, meta_checked_mul, meta_checked_add.
  rewrite (ok_or_eq _ count), bind_ret by (apply try_from_Some; unfold fits; lia).
  rewrite (ok_or_eq _ (count * entry_len)), bind_ret
    by (unfold checked_mul; rewrite (proj2 (Z.ltb_lt _ _)); [done|nia]).
  rewrite (ok_or_eq _ (cursor + count * entry_len)) by (apply checked_add_eq; nia).
  assert (forall t, blen t = count * entry_len (A := A) ->
    (cursor0 ← Ok (cursor + count * entry_len (A := A)); rows ← parse_rows limits t; mret (rows, cursor0)) = Ok (l, c)
    <-> c = cursor + count * entry_len (A := A) /\ rows_ok limits l /\ Forall entry_valid l
        /\ concat (map entry_encode l) = t /\ Z.of_nat (length l) = count) as Ht.
  { intros t Ht. rewrite bind_ret, bind_Ok. split.
    - intros (rows & Hr & H). rewrite mret_Ok in H; injection H as -> <-.
      apply (parse_rows_iff limits t (Z.to_nat count)) in Hr as (H1 & H2 & H3 & H4); [|nia]. split_and!; (done || lia).
    - intros (-> & H1 & H2 & H3 & H4). exists l. split; [|done].
      apply (parse_rows_iff limits t (Z.to_nat count)); [nia|]. split_and!; (done || lia). }
  split.
  - intros H. apply bind_Ok in H as (t & Hs & H). apply meta_slice_Ok in Hs as (_ & Hle & ->); [|nia..].
    apply Ht in H as (-> & H1 & H2 & H3 & H4); [|rewrite blen_seg; nia]. split_and!; (done || lia).
  - intros (-> & Hle & H4 & H1 & H2 & H3). rewrite meta_slice_eq, bind_ret by nia.
    apply Ht; [rewrite blen_seg; nia|]. split_and!; done.
Qed.
End RowLemmas.

(** ** The header *)
Definition IndexRootHeader_typed (h : IndexRootHeader) : Prop :=
  u32 (ih_version h) /\ u32 (ih_shard_count h) /\ u32 (ih_directory_hint_shard_count h)
  /\ u64 (ih_frame_count h) /\ u64 (ih_envelope_count h) /\ u64 (ih_file_count h)
  /\ u64 (ih_payload_block_count h) /\ u64 (ih_tar_total_size h) /\ blen (ih_content_sha256 h) = 32
  /\ u64 (ih_shard_table_offset h) /\ u64 (ih_directory_hint_shard_table_offset h)
  /\ u64 (ih_dictionary_first_block h) /\ u32 (ih_dictionary_data_block_count h)
  /\ u32 (ih_dictionary_parity_block_count h) /\ u32 (ih_dictionary_encrypted_size h)
  /\ u32 (ih_dictionary_decompressed_size h).

Lemma blen_TZIR : blen TZIR_MAGIC = 4. Proof. done. Qed.
#[global] Arguments TZIR_MAGIC : simpl never.
#[export] Hint Rewrite blen_TZIR : wire_len.

Lemma read_index_root_header_iff b h :
  INDEX_ROOT_LEN <= blen b ->
  read_index_root_header b = Ok h /\ seg b 0 4 = TZIR_MAGIC /\ seg b 128 160 = zeros 32
  <-> IndexRootHeader_typed h /\ IndexRootHeader_to_bytes h = seg b 0 INDEX_ROOT_LEN.
Proof.
  unfold INDEX_ROOT_LEN. intros Hb.
  assert (read_index_root_header b = read_index_root_header (seg b 0 160)) as ->.
  { unfold read_index_root_header. cbv zeta.
    repeat lazymatch goal with |- mbind _ _ = mbind _ _ => apply bind_cong; [|intros ?] end; try done;
      unfold meta_read_u32, meta_read_u64, meta_read_array; rewrite (meta_slice_prefix b 160) by lia; done. }
  assert (seg b 0 4 = seg (seg b 0 160) 0 4) as -> by (by rewrite seg_seg by lia).
  assert (seg b 128 160 = seg (seg b 0 160) 128 160) as -> by (by rewrite seg_seg by lia).
  assert (blen (seg b 0 160) = 160) as Hl by (rewrite blen_seg; lia).
  generalize dependent (seg b 0 160). clear Hb b. intros b Hl. unfold IndexRootHeader_typed. split.
  - intros (H & Hm & Hz). unfold read_index_root_header in H. bind_inv H. subst h.
    meta_facts. unfold INDEX_ROOT_LEN. wire_encoded IndexRootHeader_to_bytes.
  - intros [HT H]. destruct h. cbn in HT. destruct_and!. unfold IndexRootHeader_to_bytes in H.
    unfold INDEX_ROOT_LEN in H. wire_segments H. split_and!; try done.
    unfold read_index_root_header. by meta_run.
Qed.

Lemma blen_IndexRootHeader h : IndexRootHeader_typed h -> blen (IndexRootHeader_to_bytes h) = INDEX_ROOT_LEN.
Proof.
  intros HT. unfold IndexRootHeader_typed in HT. destruct_and!.
  unfold IndexRootHeader_to_bytes, INDEX_ROOT_LEN. apply blen_puts. by layout_done.
Qed.

(** What a root satisfies that the reader accepts. *)
Record IndexRoot_valid (has_dictionary : bool) (limits : MetadataLimits) (r : IndexRoot) : Prop := {
  rv_typed : IndexRootHeader_typed (ir_header r);
  rv_version : ih_version (ir_header r) = 1;
  rv_shard_count : ih_shard_count (ir_header r) = Z.of_nat (length (ir_shards r));
  rv_hint_count :
    ih_directory_hint_shard_count (ir_header r) = Z.of_nat (length (ir_directory_hint_shards r));
  rv_shard_cap : ih_shard_count (ir_header r) <= lim_max_shard_count limits;
  rv_hint_cap : ih_directory_hint_shard_count (ir_header r) <= lim_max_directory_hint_shards limits;
  rv_shard_offset :
    ih_shard_table_offset (ir_header r) = if ih_shard_count (ir_header r) =? 0 then 0 else INDEX_ROOT_LEN;
  rv_hint_offset :
    ih_directory_hint_shard_table_offset (ir_header r)
    = if ih_directory_hint_shard_count (ir_header r) =? 0 then 0
      else INDEX_ROOT_LEN + ih_shard_count (ir_header r) * SHARD_ENTRY_LEN;
  rv_hints_need_shards : ir_directory_hint_shards r <> [] -> ir_shards r <> [];
  rv_dictionary : validate_dictionary_fields (ir_header r) has_dictionary limits = Ok tt;
  rv_totals : validate_index_root_totals (ir_header r) (ir_shards r) has_dictionary = Ok tt;
  rv_shards : Forall ShardEntry_typed (ir_shards r) /\ rows_ok limits (ir_shards r);
  rv_hints : Forall DirectoryHintShardEntry_typed (ir_directory_hint_shards r)
             /\ rows_ok limits (ir_directory_hint_shards r)
}.

Lemma canonical_header_eq has_dictionary limits r :
  IndexRoot_valid has_dictionary limits r -> canonical_header r = ir_header r.
Proof.
  intros []. unfold canonical_header. destruct (ir_header r). cbn in *.
  unfold IndexRootHeader_typed, fits in *. cbn in *. destruct_and!.
  rewrite <- rv_shard_count0, <- rv_hint_count0, !Z.mod_small by lia. by rewrite rv_shard_offset0, rv_hint_offset0.
Qed.

Lemma length_zero {A} (l : list A) : Z.of_nat (length l) = 0 <-> l = [].
Proof. destruct l; cbn; split; (done || lia). Qed.

Lemma parse_shard_table_iff b h limits l c :
  u32 (ih_shard_count h) ->
  parse_shard_table b h limits INDEX_ROOT_LEN = Ok (l, c)
  <-> ih_shard_table_offset h = (if ih_shard_count h =? 0 then 0 else INDEX_ROOT_LEN)
      /\ c = INDEX_ROOT_LEN + ih_shard_count h * SHARD_ENTRY_LEN
      /\ Z.of_nat (length l) = ih_shard_count h /\ (l = [] \/ c <= blen b)
      /\ Forall ShardEntry_typed l /\ rows_ok limits l
      /\ concat (map ShardEntry_to_bytes l) = seg b INDEX_ROOT_LEN c.
Proof.
  intros Hn. unfold parse_shard_table. cbv zeta. destruct (Z.eqb_spec (ih_shard_count h) 0) as [E|E].
  - rewrite E. unfold INDEX_ROOT_LEN. split.
    + intros H. ok_inv. rewrite negb_false_iff, Z.eqb_eq in *. split_and!; try done; [by left|apply rows_ok_nil].
    + intros (H1 & H2 & H3 & _). apply length_zero in H3 as ->. rewrite H1. subst c. done.
  - pose proof (parse_table_iff (A := ShardEntry) limits b INDEX_ROOT_LEN (ih_shard_count h) l c "IndexRoot"
      ltac:(done) Hn ltac:(done)) as T.
    unfold expect_offset. split.
    + intros H. apply bind_Ok in H as ([] & Ho & H). apply reject_if_Ok, negb_false_iff, Z.eqb_eq in Ho.
      apply (proj1 T) in H as (H1 & H2 & H3 & H4 & H5 & H6). split_and!; try done. by right.
    + intros (H1 & H2 & H3 & H4 & H5 & H6 & H7). rewrite H1, Z.eqb_refl. cbn [negb reject_if]. rewrite bind_ret.
      apply (proj2 T). destruct H4 as [->|H4]; [by cbn in H3|]. split_and!; done.
Qed.

Lemma parse_directory_hint_shard_table_iff b h limits cursor l c :
  u32 (ih_directory_hint_shard_count h) -> 0 <= cursor < 2 ^ 60 ->
  parse_directory_hint_shard_table b h limits cursor = Ok (l, c)
  <-> ih_directory_hint_shard_table_offset h
      = (if ih_directory_hint_shard_count h =? 0 then 0 else cursor)
      /\ (ih_directory_hint_shard_count h = 0 \/ ih_shard_count h <> 0)
      /\ c = cursor + ih_directory_hint_shard_count h * DIRECTORY_HINT_SHARD_ENTRY_LEN
      /\ Z.of_nat (length l) = ih_directory_hint_shard_count h /\ (l = [] \/ c <= blen b)
      /\ Forall DirectoryHintShardEntry_typed l /\ rows_ok limits l
      /\ concat (map DirectoryHintShardEntry_to_bytes l) = seg b cursor c.
Proof.
  intros Hn Hc. unfold parse_directory_hint_shard_table. cbv zeta.
  destruct (Z.eqb_spec (ih_directory_hint_shard_count h) 0) as [E|E].
  - rewrite E, Z.mul_0_l, Z.add_0_r. split.
    + intros H. ok_inv. rewrite negb_false_iff, Z.eqb_eq, ?seg_nil in *.
      split_and!; try done; [by left|by left|apply rows_ok_nil].
    + intros (H1 & _ & H2 & H3 & _). apply length_zero in H3 as ->. rewrite H1. by subst c.
  - pose proof (parse_table_iff (A := DirectoryHintShardEntry) limits b cursor
      (ih_directory_hint_shard_count h) l c "IndexRoot" (proj1 Hc) Hn (proj2 Hc)) as T.
    unfold expect_offset. split.
    + intros H. apply bind_Ok in H as ([] & Hs & H). apply reject_if_Ok, Z.eqb_neq in Hs.
      apply bind_Ok in H as ([] & Ho & H). apply reject_if_Ok, negb_false_iff, Z.eqb_eq in Ho.
      apply (proj1 T) in H as (H1 & H2 & H3 & H4 & H5 & H6). split_and!; try done; by right.
    + intros (H1 & H0 & H2 & H3 & H4 & H5 & H6 & H7). destruct H0 as [|H0]; [done|].
      rewrite (proj2 (Z.eqb_neq _ _) H0), H1, Z.eqb_refl. cbn [negb reject_if]. rewrite !bind_ret.
      apply (proj2 T). destruct H4 as [->|H4]; [by cbn in H3|]. split_and!; done.
Qed.

Lemma IndexRoot_parse_sound b has_dictionary limits r :
  IndexRoot_parse b has_dictionary limits = Ok r ->
  IndexRoot_valid has_dictionary limits r /\ IndexRoot_to_bytes r = b.
Proof.
  unfold IndexRoot_parse. cbv zeta.
  intros H. apply bind_Ok in H as ([] & Hl & H). apply reject_if_Ok, Z.ltb_ge in Hl.
  unfold INDEX_ROOT_LEN in Hl. rewrite meta_read_array_eq, bind_ret in H by lia.
  apply bind_Ok in H as ([] & Hm & H). apply expect_magic_Ok in Hm.
  rewrite meta_slice_eq, bind_ret in H by lia. apply bind_Ok in H as ([] & Hz & H).
  apply expect_zero_Ok in Hz. rewrite blen_seg in Hz by lia. change (128 + 32 - 128) with 32 in Hz.
  apply bind_Ok in H as (h & Hh & H).
  destruct (proj1 (read_index_root_header_iff b h Hl) (conj Hh (conj Hm Hz))) as [HT Hbytes].
  apply bind_Ok in H as ([] & H1 & H). apply bind_Ok in H as ([] & H2 & H).
  apply bind_Ok in H as ([] & H3 & H). apply bind_Ok in H as ([] & H4 & H).
  apply bind_Ok in H as ([shards c] & H5 & H). apply bind_Ok in H as ([hints c'] & H6 & H).
  apply bind_Ok in H as ([] & H7 & H). apply bind_Ok in H as ([] & H8 & H). apply mret_Ok in H as <-.
  apply reject_if_Ok, negb_false_iff, Z.eqb_eq in H1, H7. apply reject_if_Ok, Z.ltb_ge in H2, H3.
  pose proof HT as HT'. unfold IndexRootHeader_typed in HT'. destruct_and!.
  apply parse_shard_table_iff in H5 as (Ho & -> & Hn & _ & Hv & Hok & Hb1); [|done].
  apply parse_directory_hint_shard_table_iff in H6 as (Ho' & Hs & -> & Hn' & _ & Hv' & Hok' & Hb2);
    [|done|unfold fits, INDEX_ROOT_LEN, SHARD_ENTRY_LEN in *; lia].
  assert (IndexRoot_valid has_dictionary limits
    {| ir_header := h; ir_shards := shards; ir_directory_hint_shards := hints |}) as Hvalid.
  { constructor; cbn; try done. intros Hne ->. cbn in Hn. destruct Hs as [Hs|Hs]; [|by rewrite <- Hn in Hs].
    rewrite Hs in Hn'. by apply length_zero in Hn'. }
  split; [done|]. unfold IndexRoot_to_bytes. rewrite (canonical_header_eq _ _ _ Hvalid).
  cbn [ir_header ir_shards ir_directory_hint_shards]. rewrite Hbytes, Hb1, Hb2.
  unfold fits, INDEX_ROOT_LEN, SHARD_ENTRY_LEN, DIRECTORY_HINT_SHARD_ENTRY_LEN in *.
  rewrite <- seg_split, <- seg_split by lia. rewrite <- H7. apply seg_full.
Qed.

Lemma IndexRoot_parse_complete has_dictionary limits r :
  IndexRoot_valid has_dictionary limits r ->
  IndexRoot_parse (IndexRoot_to_bytes r) has_dictionary limits = Ok r.
Proof.
  unfold IndexRoot_parse. cbv zeta.
  intros Hvalid. pose proof Hvalid as []. unfold IndexRoot_to_bytes.
  rewrite (canonical_header_eq _ _ _ Hvalid). pose proof (blen_IndexRootHeader _ rv_typed0) as Hbl.
  destruct rv_shards0 as [Hv Hok], rv_hints0 as [Hv' Hok'].
  pose proof (table_blen (A := ShardEntry) _ Hv) as Hb1.
  pose proof (table_blen (A := DirectoryHintShardEntry) _ Hv') as Hb2.
  cbn [entry_len entry_encode ShardEntry_table DirectoryHintShardEntry_table] in Hb1, Hb2.
  rewrite <- rv_shard_count0 in Hb1. rewrite <- rv_hint_count0 in Hb2.
  set (hb := IndexRootHeader_to_bytes (ir_header r)) in *.
  set (t1 := concat (map ShardEntry_to_bytes _)) in *. set (t2 := concat (map DirectoryHintShardEntry_to_bytes _)) in *.
  pose proof (blen_nonneg t1). pose proof (blen_nonneg t2). pose proof rv_typed0 as HT.
  unfold IndexRootHeader_typed in HT. destruct_and!.
  unfold fits, INDEX_ROOT_LEN, SHARD_ENTRY_LEN, DIRECTORY_HINT_SHARD_ENTRY_LEN in *.
  set (b := hb ++ t1 ++ t2).
  assert (blen b = 160 + blen t1 + blen t2) as Hlen by (unfold b; rewrite !blen_app; lia).
  assert (seg b 0 160 = hb) as Hs0.
  { unfold b. rewrite seg_app_l by lia. rewrite <- Hbl. apply seg_full. }
  destruct (proj2 (read_index_root_header_iff b (ir_header r) ltac:(unfold INDEX_ROOT_LEN; lia)))
    as (Hread & Hm & Hz); [split; [done|]; unfold INDEX_ROOT_LEN; by rewrite Hs0|].
  rewrite (proj2 (Z.ltb_ge _ _)) by lia. cbn [reject_if]. rewrite bind_ret.
  rewrite meta_read_array_eq, bind_ret by lia. rewrite (proj2 (expect_magic_Ok _ _ _ tt)), bind_ret by done.
  rewrite meta_slice_eq, bind_ret by lia. rewrite (expect_zero_eq _ _ 32), bind_ret by (done || lia).
  rewrite Hread, bind_ret, rv_version0. change (1 =? 1) with true. cbn [negb reject_if]. rewrite bind_ret.
  rewrite !(proj2 (Z.ltb_ge _ _)) by lia. cbn [reject_if]. rewrite !bind_ret, rv_dictionary0, bind_ret.
  change (parse_shard_table b (ir_header r) limits 160) with (parse_shard_table b (ir_header r) limits INDEX_ROOT_LEN).
  rewrite (proj2 (parse_shard_table_iff b (ir_header r) limits (ir_shards r) (160 + blen t1) ltac:(done))).
  2: { unfold INDEX_ROOT_LEN, SHARD_ENTRY_LEN. split_and!; try done; [by rewrite Hb1|right; lia|].
       unfold b. rewrite seg_app_r, seg_app_l by lia. rewrite Hbl. fold t1.
       replace (160 - 160) with 0 by lia. replace (160 + blen t1 - 160) with (blen t1) by lia. by rewrite seg_full. }
  rewrite bind_ret.
  rewrite (proj2 (parse_directory_hint_shard_table_iff b (ir_header r) limits (160 + blen t1)
    (ir_directory_hint_shards r) (160 + blen t1 + blen t2) ltac:(done) ltac:(lia))).
  2: { unfold DIRECTORY_HINT_SHARD_ENTRY_LEN. split_and!; try done.
       - by rewrite Hb1.
       - destruct (ir_directory_hint_shards r) eqn:E; [left; by rewrite rv_hint_count0|right].
         rewrite rv_shard_count0, length_zero. by apply rv_hints_need_shards0.
       - by rewrite Hb2.
       - right. lia.
       - unfold b. rewrite app_assoc, seg_app_r by (rewrite blen_app; lia). rewrite blen_app, Hbl. fold t2.
         replace (160 + blen t1 - (160 + blen t1)) with 0 by lia.
         replace (160 + blen t1 + blen t2 - (160 + blen t1)) with (blen t2) by lia. by rewrite seg_full. }
  rewrite bind_ret. rewrite Hlen, Z.eqb_refl. cbn [negb reject_if]. rewrite bind_ret, rv_totals0, bind_ret.
  by destruct r.
Qed.

Lemma IndexRoot_decode_iff b has_dictionary limits r :
  IndexRoot_parse b has_dictionary limits = Ok r
  <-> IndexRoot_valid has_dictionary limits r /\ IndexRoot_to_bytes r = b.
Proof.
  split; [apply IndexRoot_parse_sound|]. intros [H <-]. by apply IndexRoot_parse_complete.
Qed.

(** ** No panics *)
Lemma validate_encrypted_extent_no_panic s d e b : validate_encrypted_extent s d e b <> Panic.
Proof. unfold validate_encrypted_extent. no_panic. Qed.

Lemma validate_fec_class_extent_no_panic s d p a b : validate_fec_class_extent s d p a b <> Panic.
Proof. unfold validate_fec_class_extent. no_panic. Qed.

#[export] Hint Resolve validate_encrypted_extent_no_panic validate_fec_class_extent_no_panic : no_panic.

Lemma read_shard_entry_no_panic b : read_shard_entry b <> Panic.
Proof. unfold read_shard_entry. no_panic. Qed.

Lemma read_directory_hint_shard_entry_no_panic b : read_directory_hint_shard_entry b <> Panic.
Proof. unfold read_directory_hint_shard_entry. no_panic. Qed.

Lemma check_shard_entry_no_panic l e : check_shard_entry l e <> Panic.
Proof. unfold check_shard_entry. no_panic; auto with no_panic. Qed.

Lemma check_directory_hint_shard_entry_no_panic l e : check_directory_hint_shard_entry l e <> Panic.
Proof. unfold check_directory_hint_shard_entry. no_panic; auto with no_panic. Qed.

Lemma parse_rows_no_panic {A} `{TableEntry A, IndexRow A} limits b :
  (forall b : bytes, entry_decode (A := A) b <> Panic) -> (forall e : A, row_check limits e <> Panic) ->
  parse_rows (A := A) limits b <> Panic.
Proof.
  intros H1 H2. unfold parse_rows. generalize (∅ : gset Z) as seen, (@nil A) as entries.
  induction (chunks_exact _ b) as [|chunk chunks IH]; intros seen entries; cbn [parse_rows_loop]; [done|].
  apply bind_no_panic; [apply H1|]. intros e _. apply bind_no_panic; [apply H2|]. intros _ _.
  do 2 (apply bind_no_panic; [apply reject_if_no_panic|]; intros _ _).
  apply bind_no_panic; [|intros; apply IH]. destruct (last entries); [|done].
  unfold check_row_order. no_panic.
Qed.

Lemma sum_file_counts_no_panic l n : sum_file_counts l n <> Panic.
Proof.
  revert n. induction l as [|e l IH]; intros n; cbn [sum_file_counts]; [done|].
  apply bind_no_panic; [apply ok_or_no_panic|auto].
Qed.

Lemma parse_shard_table_no_panic b h limits c : parse_shard_table b h limits c <> Panic.
Proof.
  unfold parse_shard_table. no_panic.
  apply parse_rows_no_panic; [apply read_shard_entry_no_panic|apply check_shard_entry_no_panic].
Qed.

Lemma parse_directory_hint_shard_table_no_panic b h limits c :
  parse_directory_hint_shard_table b h limits c <> Panic.
Proof.
  unfold parse_directory_hint_shard_table. no_panic.
  apply parse_rows_no_panic;
    [apply read_directory_hint_shard_entry_no_panic|apply check_directory_hint_shard_entry_no_panic].
Qed.

Lemma read_index_root_header_no_panic b : read_index_root_header b <> Panic.
Proof. unfold read_index_root_header. no_panic. Qed.

Lemma validate_dictionary_fields_no_panic h d l : validate_dictionary_fields h d l <> Panic.
Proof. unfold validate_dictionary_fields. no_panic; auto with no_panic. Qed.

Lemma validate_index_root_totals_no_panic h l d : validate_index_root_totals h l d <> Panic.
Proof.
  unfold validate_index_root_totals. destruct l; no_panic.
  apply sum_file_counts_no_panic.
Qed.

#[local] Hint Resolve parse_shard_table_no_panic parse_directory_hint_shard_table_no_panic
  read_index_root_header_no_panic validate_dictionary_fields_no_panic
  validate_index_root_totals_no_panic : no_panic.

Lemma IndexRoot_parse_no_panic b d l : IndexRoot_parse b d l <> Panic.
Proof. unfold IndexRoot_parse. no_panic. Qed.

(** ** What an accepted root says *)
Lemma validate_encrypted_extent_Ok s d e b u :
  0 <= d -> 0 <= e ->
  validate_encrypted_extent s d e b = Ok u -> 0 < d /\ 0 < e < 2 ^ 32 /\ e = d * b.
Proof.
  intros Hd He H. unfold validate_encrypted_extent, checked_mul, u32_max in H. ok_inv.
  rewrite !orb_false_iff, ?negb_false_iff in *. repeat case_match; try done. destruct_and!. ok_inv. lia.
Qed.

Lemma validate_fec_class_extent_Ok s d p dm pm u :
  validate_fec_class_extent s d p dm pm = Ok u <->
  d <= dm /\ p <= pm /\ d + p <= REED_SOLOMON_GF16_MAX_TOTAL_SHARDS.
Proof.
  unfold validate_fec_class_extent. destruct u. rewrite bind_Ok. split.
  - intros ([] & H1 & H). apply bind_Ok in H as ([] & H2 & H3). rewrite reject_if_Ok in *. lia.
  - intros H. exists tt. rewrite bind_Ok. split; [apply reject_if_Ok; lia|].
    exists tt. rewrite !reject_if_Ok. lia.
Qed.

Lemma sum_file_counts_Ok l n m :
  sum_file_counts l n = Ok m -> m = n + foldr (fun e s => se_file_count e + s) 0 l.
Proof.
  revert n. induction l as [|e l IH]; intros n; cbn [sum_file_counts foldr].
  - intros [= ->]. lia.
  - intros H. ok_inv. match goal with H : sum_file_counts _ _ = _ |- _ => apply IH in H end. lia.
Qed.

Section RowOrder.
Context {A : Type} {E : TableEntry A} {R : IndexRow A}.

(** Of two rows the later one lies behind the earlier one. *)
Lemma rows_ordered limits (rows : list A) i j a b :
  rows_ok limits rows -> (i < j)%nat -> rows !! i = Some a -> rows !! j = Some b ->
  le (row_last a) (row_first b).
Proof.
  intros (Hok & _ & Hs) Hij Ha. revert b. induction j as [|j IH]; intros b Hb; [lia|].
  destruct (lookup_lt_is_Some_2 rows j) as [c Hc]; [apply lookup_lt_Some in Hb; lia|].
  assert (row_follows c b) as [_ Hcb].
  { clear -Hs Hc Hb. revert rows Hs Hc Hb. induction j as [|j IH]; intros rows Hs Hc Hb.
    - destruct rows as [|x [|y l]]; [done..|]. injection Hc as ->. injection Hb as ->.
      apply Sorted_inv in Hs as [_ Hh]. by apply HdRel_inv in Hh.
    - destruct rows as [|x l]; [done|]. apply Sorted_inv in Hs as [Hs _]. by apply (IH l). }
  destruct (decide (i = j)) as [->|Hne]; [by rewrite Ha in Hc; injection Hc as ->|].
  eapply le_trans; [apply (IH ltac:(lia) c Hc)|]. eapply le_trans; [|exact Hcb].
  apply (Forall_lookup_1 _ _ _ _ Hok) in Hc as [_ ?]. done.
Qed.
End RowOrder.

(** ** Theorems *)

(** The root of the index.  [IndexRoot_parse] accepts exactly what
    [to_bytes] makes of a valid root, returns that root, and never panics: the
    counts and offsets in the header are those of the tables, which follow each
    other and fill the buffer. *)
Theorem index_root_codec b has_dictionary limits r :
  (IndexRoot_parse b has_dictionary limits = Ok r
   <-> IndexRoot_valid has_dictionary limits r /\ IndexRoot_to_bytes r = b)
  /\ IndexRoot_parse b has_dictionary limits <> Panic.
Proof. split; [apply IndexRoot_decode_iff|apply IndexRoot_parse_no_panic]. Qed.

(** The shards of an accepted root.  Every shard holds a file, its
    encrypted size is that of its data blocks, and with its parity it stays
    within the limit of the erasure code; the shards have distinct numbers, the
    ranges of path hashes are in ascending order and touch at most at their
    ends; and the files of the shards add up to the files of the archive. *)
Theorem index_root_shards b has_dictionary limits r :
  IndexRoot_parse b has_dictionary limits = Ok r ->
  Forall (fun e => 0 < se_file_count e
                   /\ se_encrypted_size e = se_data_block_count e * lim_block_size limits
                   /\ 0 < se_data_block_count e <= lim_max_index_data_shards limits
                   /\ se_data_block_count e + se_parity_block_count e <= 65535
                   /\ le (se_first_path_hash e) (se_last_path_hash e)) (ir_shards r)
  /\ NoDup (map se_shard_index (ir_shards r))
  /\ (forall i j x y, (i < j)%nat -> ir_shards r !! i = Some x -> ir_shards r !! j = Some y ->
        le (se_last_path_hash x) (se_first_path_hash y))
  /\ ih_file_count (ir_header r) = foldr (fun e s => se_file_count e + s) 0 (ir_shards r).
Proof.
  intros [[] <-]%IndexRoot_parse_sound. destruct rv_shards0 as [Ht Hok]. pose proof Hok as (Hrow & Hnd & _).
  split; [|split; [exact Hnd|split]].
  - apply Forall_forall. intros e He. pose proof (proj1 (Forall_forall _ _) Ht e He) as HT.
    pose proof (proj1 (Forall_forall _ _) Hrow e He) as [Hc Hle]. clear -HT Hc Hle.
    cbn in Hc. unfold check_shard_entry, ShardEntry_typed, fits in *.
    apply bind_Ok in Hc as ([] & H1 & Hc). apply bind_Ok in Hc as ([] & H2 & Hc).
    apply bind_Ok in Hc as ([] & H3 & H4). apply reject_if_Ok in H1.
    apply validate_encrypted_extent_Ok in H3; [|lia..]. apply validate_fec_class_extent_Ok in H4.
    unfold REED_SOLOMON_GF16_MAX_TOTAL_SHARDS in *. split_and!; (done || lia).
  - intros i j x y Hij Hx Hy. exact (rows_ordered limits (ir_shards r) i j x y Hok Hij Hx Hy).
  - unfold validate_index_root_totals in rv_totals0. destruct (ir_shards r) as [|e l].
    + ok_inv. cbn. rewrite !orb_false_iff, !negb_false_iff in *. destruct_and!. lia.
    + ok_inv. match goal with H : sum_file_counts _ _ = _ |- _ => apply sum_file_counts_Ok in H end.
      rewrite negb_false_iff in *. lia.
Qed.

(** ** Concrete inputs *)
Definition example_shard (index : Z) (first last : Byte.byte) : ShardEntry := {|
  se_shard_index := index; se_first_block_index := 10 * index; se_data_block_count := 2;
  se_parity_block_count := 1; se_encrypted_size := 8192; se_decompressed_size := 5000;
  se_file_count := 7; se_first_path_hash := replicate 8 first; se_last_path_hash := replicate 8 last |}.

Definition example_root : IndexRoot := {|
  ir_header := {|
    ih_version := 1; ih_shard_count := 3; ih_directory_hint_shard_count := 0; ih_frame_count := 30;
    ih_envelope_count := 3; ih_file_count := 21; ih_payload_block_count := 40;
    ih_tar_total_size := 100000; ih_content_sha256 := zeros 32; ih_shard_table_offset := 160;
    ih_directory_hint_shard_table_offset := 0; ih_dictionary_first_block := 0;
    ih_dictionary_data_block_count := 0; ih_dictionary_parity_block_count := 0;
    ih_dictionary_encrypted_size := 0; ih_dictionary_decompressed_size := 0 |};
  ir_shards := [example_shard 0 Byte.x10 Byte.x30; example_shard 2 Byte.x30 Byte.x30;
                example_shard 5 Byte.x30 Byte.x80];
  ir_directory_hint_shards := [] |}.

Lemma example_root_parses :
  IndexRoot_parse (IndexRoot_to_bytes example_root) false MetadataLimits_default = Ok example_root.
Proof. vm_compute. reflexivity. Qed.

Lemma index_root_shards_witness :
  IndexRoot_parse (IndexRoot_to_bytes example_root) false MetadataLimits_default = Ok example_root
  /\ NoDup (map se_shard_index (ir_shards example_root)).
Proof.
  split; [apply example_root_parses|].
  apply (index_root_shards (IndexRoot_to_bytes example_root) false MetadataLimits_default example_root).
  apply example_root_parses.
Defined.
