(* ===== verification/IndexLookup.v ===== *)
(** * Which shards may hold a path

    [candidate_interval_indexes] of [crates/tzap-core/src/metadata.rs] and its
    callers: the shards of the index whose range of hashes contains the hash of
    a path. *)

From S2P Require Import Wire Ordering Paths MetadataWire IndexRoot.
#[local] Open Scope Z_scope.

Section Candidates.
Context {A : Type}.
Context (entries : list A) (target_hash : bytes) (scan_cap_per_direction : Z).
Context (first_hash last_hash : A -> bytes).

(** The two conditions of the scanning loops, at a position in range. *)
Definition entry_contains (entry : A) : bool :=
  leb (first_hash entry) target_hash && leb target_hash (last_hash entry).

(** [while start > 0 && ..]: scans to the left of [start]. *)
Fixpoint scan_left (start : nat) (left_scanned : Z) : fresult nat :=
  match start with
  | O => Ok O
  | S previous =>
      match entries !! previous with
      | Some entry =>
          if entry_contains entry
          then
            reject_if (scan_cap_per_direction <? left_scanned + 1) HashPrefixCollisionRunExceeded;;
            scan_left previous (left_scanned + 1)
          else Ok start
      | None => Panic
      end
  end.

(** [while end < entries.len() && ..]: [fuel] is the number of entries behind. *)
Fixpoint scan_right (fuel : nat) (end_ : nat) (right_scanned : Z) : fresult nat :=
  match fuel with
  | O => Ok end_
  | S fuel =>
      match entries !! end_ with
      | Some entry =>
          if entry_contains entry
          then
            reject_if (scan_cap_per_direction <? right_scanned + 1) HashPrefixCollisionRunExceeded;;
            scan_right fuel (S end_) (right_scanned + 1)
          else Ok end_
      | None => Ok end_
      end
  end.

Definition candidate_interval_indexes : fresult (list nat) :=
  match entries with
  | [] => Ok []
  | _ =>
      match partition_point (fun entry => leb (first_hash entry) target_hash) entries with
      | O => Ok []
      | S landing =>
          match entries !! landing with
          | Some entry =>
              if ltb (last_hash entry) target_hash then Ok []
              else
                start ← scan_left landing 0;
                end_ ← scan_right (length entries - S landing) (S landing) 0;
                mret (seq start (end_ - start))
          | None => Panic
          end
      end
  end.
End Candidates.

Definition IndexRoot_candidate_shard_indexes_for_hash (self : IndexRoot) (target_hash : bytes)
    (scan_cap_per_direction : Z) : fresult (list nat) :=
  candidate_interval_indexes (ir_shards self) target_hash scan_cap_per_direction
    se_first_path_hash se_last_path_hash.

Section Hash.
Context {Sha : Sha256}.

Definition hash_prefix (b : bytes) : bytes := seg (sha256 b) 0 8.

Definition IndexRoot_candidate_shards_for_path (self : IndexRoot) (normalized_path : bytes)
    (limits : MetadataLimits) : fresult (list nat) :=
  IndexRoot_candidate_shard_indexes_for_hash self (hash_prefix normalized_path)
    (lim_max_hash_collision_shard_scan limits).
End Hash.

(** ** Lemmas *)

(** No entries need no case of their own. *)
Lemma candidate_interval_indexes_unfold {A} (entries : list A) target cap first last :
  candidate_interval_indexes entries target cap first last
  = match partition_point (fun entry => leb (first entry) target) entries with
    | O => Ok []
    | S landing =>
        match entries !! landing with
        | Some entry =>
            if ltb (last entry) target then Ok []
            else
              start ← scan_left entries target cap first last landing 0;
              end_ ← scan_right entries target cap first last (length entries - S landing) (S landing) 0;
              mret (seq start (end_ - start))
        | None => Panic
        end
    end.
Proof. by destruct entries. Qed.

Section Lemmas.
Context {A : Type} (entries : list A) (target : bytes) (cap : Z) (first last : A -> bytes).
Context (Hrange : forall x, x ∈ entries -> le (first x) (last x)).
Context (Hsorted : forall i j x y, (i < j)%nat -> entries !! i = Some x -> entries !! j = Some y ->
                     le (last x) (first y)).

Let contains := entry_contains target first last.

(** The positions of the entries that contain the hash. *)
Definition hits : list nat :=
  filter (fun i => match entries !! i with Some x => contains x | None => false end = true)
    (seq 0 (length entries)).

Lemma entry_contains_true x : contains x = true <-> le (first x) target /\ le target (last x).
Proof. unfold contains, entry_contains, le. apply andb_true_iff. Qed.

Lemma first_mono i j x y :
  (i <= j)%nat -> entries !! i = Some x -> entries !! j = Some y -> le (first x) (first y).
Proof.
  intros Hij Hx Hy. destruct (decide (i = j)) as [->|]; [rewrite Hx in Hy; injection Hy as ->; apply le_refl|].
  eapply le_trans; [apply Hrange, list_elem_of_lookup_2 with i, Hx|]. apply (Hsorted i j); [lia|done..].
Qed.

Lemma last_mono i j x y :
  (i <= j)%nat -> entries !! i = Some x -> entries !! j = Some y -> le (last x) (last y).
Proof.
  intros Hij Hx Hy. destruct (decide (i = j)) as [->|]; [rewrite Hx in Hy; injection Hy as ->; apply le_refl|].
  eapply le_trans; [apply (Hsorted i j); [lia|done..]|]. apply Hrange, list_elem_of_lookup_2 with j, Hy.
Qed.

(** Where the entries that may contain the hash end, and where those that do
    begin. *)
Definition upper : nat := partition_point (fun x => leb (first x) target) entries.
Definition lower : nat := partition_point (fun x => ltb (last x) target) entries.

Lemma upper_spec :
  (upper <= length entries)%nat
  /\ forall i x, entries !! i = Some x -> le (first x) target <-> (i < upper)%nat.
Proof.
  apply (partition_point_spec (fun x => leb (first x) target)). intros i j x y Hij Hx Hy H.
  eapply le_trans; [|exact H]. by apply (first_mono i j).
Qed.

Lemma lower_spec :
  (lower <= length entries)%nat
  /\ forall i x, entries !! i = Some x -> lt (last x) target <-> (i < lower)%nat.
Proof.
  apply (partition_point_spec (fun x => ltb (last x) target)). intros i j x y Hij Hx Hy H.
  eapply le_lt_trans; [|exact H]. by apply (last_mono i j).
Qed.

Lemma contains_iff i x :
  entries !! i = Some x -> contains x = true <-> (lower <= i < upper)%nat.
Proof.
  intros Hx. rewrite entry_contains_true. destruct upper_spec as [_ Hu], lower_spec as [_ Hl].
  rewrite (Hu i x Hx), <- (not_lt_le (last x) target), (Hl i x Hx). lia.
Qed.

Lemma filter_interval (P : nat -> Prop) `{!forall x, Decision (P x)} a b n :
  (b <= n)%nat -> (forall i, (i < n)%nat -> P i <-> (a <= i < b)%nat) ->
  filter P (seq 0 n) = seq a (b - a).
Proof.
  revert b. induction n as [|n IH]; intros b Hb HP; [by replace (b - a)%nat with 0%nat by lia|].
  rewrite seq_S, filter_app, Nat.add_0_l, filter_cons, filter_nil.
  destruct (decide (b <= n)%nat).
  - rewrite (IH b) by (intros; try apply HP; lia). rewrite decide_False by (rewrite HP; lia). apply app_nil_r.
  - assert (b = S n) as -> by lia.
    rewrite (IH n) by (intros; rewrite ?HP; lia). destruct (decide (a <= n)%nat).
    + rewrite decide_True by (rewrite HP; lia). replace (S n - a)%nat with (S (n - a)) by lia.
      rewrite seq_S. f_equal. f_equal. lia.
    + rewrite decide_False by (rewrite HP; lia). rewrite app_nil_r.
      by replace (n - a)%nat with 0%nat by lia; replace (S n - a)%nat with 0%nat by lia.
Qed.

Lemma hits_eq : hits = seq lower (upper - lower).
Proof.
  unfold hits. apply filter_interval; [apply upper_spec|]. intros i Hi.
  destruct (lookup_lt_is_Some_2 entries i Hi) as [x Hx]. rewrite Hx. by apply contains_iff.
Qed.

Lemma scan_left_spec start scanned :
  (lower <= start < upper)%nat -> scanned <= cap ->
  scan_left entries target cap first last start scanned
  = if cap <? scanned + Z.of_nat (start - lower) then Err HashPrefixCollisionRunExceeded else Ok lower.
Proof.
  revert scanned. induction start as [|start IH]; intros scanned Hs Hc; cbn [scan_left].
  { replace (0 - lower)%nat with 0%nat by lia. rewrite (proj2 (Z.ltb_ge _ _)) by lia. f_equal. lia. }
  destruct (lookup_lt_is_Some_2 entries start) as [x Hx]; [pose proof (proj1 upper_spec); lia|]. rewrite Hx.
  pose proof (contains_iff start x Hx) as Hin. fold contains. destruct (contains x) eqn:E.
  - assert (lower <= start)%nat by (apply Hin; done).
    destruct (Z.ltb_spec cap (scanned + 1)); cbn [reject_if].
    + rewrite (proj2 (Z.ltb_lt _ _)) by lia. done.
    + rewrite bind_ret, IH by lia. replace (scanned + 1 + Z.of_nat (start - lower)) with (scanned + Z.of_nat (S start - lower)) by lia. done.
  - assert (lower = S start) as -> by (destruct (decide (lower <= start)%nat); [|lia]; exfalso; assert (false = true) by (apply Hin; lia); done).
    rewrite Nat.sub_diag, (proj2 (Z.ltb_ge _ _)) by lia. done.
Qed.

Lemma scan_right_stops fuel : scan_right entries target cap first last fuel upper 0 = Ok upper.
Proof.
  destruct fuel; cbn [scan_right]; [done|]. destruct (entries !! upper) as [x|] eqn:Hx; [|done].
  fold contains. destruct (contains x) eqn:E; [|done]. apply (contains_iff upper x Hx) in E. lia.
Qed.

(** The search finds the positions that contain the hash, unless too many do. *)
Lemma candidate_interval_indexes_eq :
  0 <= cap ->
  candidate_interval_indexes entries target cap first last
  = if cap + 1 <? Z.of_nat (length hits) then Err HashPrefixCollisionRunExceeded else Ok hits.
Proof.
  intros Hcap. rewrite hits_eq, length_seq, candidate_interval_indexes_unfold.
  change (partition_point _ entries) with upper. destruct upper as [|landing] eqn:Hup.
  { cbn [Nat.sub seq]. by rewrite (proj2 (Z.ltb_ge _ _)) by lia. }
  destruct (lookup_lt_is_Some_2 entries landing) as [x Hx]; [pose proof (proj1 upper_spec); lia|].
  rewrite Hx. pose proof (proj2 lower_spec landing x Hx) as Hl. unfold lt in Hl.
  destruct (ltb (last x) target) eqn:E.
  { assert (landing < lower)%nat by (by apply Hl). replace (S landing - lower)%nat with 0%nat by lia. cbn [seq].
    by rewrite (proj2 (Z.ltb_ge _ _)) by lia. }
  assert (lower <= landing)%nat by (destruct (decide (lower <= landing)%nat); [done|]; exfalso; assert (false = true) by (apply Hl; lia); done).
  rewrite scan_left_spec by lia.
  assert ((cap <? 0 + Z.of_nat (landing - lower)) = (cap + 1 <? Z.of_nat (S landing - lower))) as ->
    by (apply eq_true_iff_eq; rewrite !Z.ltb_lt; lia).
  destruct (_ <? _); [done|]. rewrite bind_ret.
  rewrite <- Hup, scan_right_stops. by rewrite bind_ret.
Qed.
End Lemmas.

(** In a valid root the search finds the rows whose range contains the hash. *)
Lemma candidate_shards_spec {Sha : Sha256} has_dictionary limits r path :
  IndexRoot_valid has_dictionary limits r ->
  0 <= lim_max_hash_collision_shard_scan limits ->
  let contains x := le (se_first_path_hash x) (hash_prefix path)
                    /\ le (hash_prefix path) (se_last_path_hash x) in
  exists positions,
    (forall i, i ∈ positions <-> exists x, ir_shards r !! i = Some x /\ contains x)
    /\ (exists start, positions = seq start (length positions))
    /\ IndexRoot_candidate_shards_for_path r path limits
       = if lim_max_hash_collision_shard_scan limits + 1 <? Z.of_nat (length positions)
         then Err HashPrefixCollisionRunExceeded else Ok positions.
Proof.
  intros Hv Hcap contains. destruct (rv_shards _ _ _ Hv) as [_ Hok].
  assert (forall x, x ∈ ir_shards r -> le (se_first_path_hash x) (se_last_path_hash x)) as Hrange.
  { intros x Hx. destruct Hok as [Hok _]. exact (proj2 (proj1 (Forall_forall _ _) Hok x Hx)). }
  assert (forall i j x y, (i < j)%nat -> ir_shards r !! i = Some x -> ir_shards r !! j = Some y ->
            le (se_last_path_hash x) (se_first_path_hash y)) as Hsorted.
  { intros i j x y Hij Hx Hy. exact (rows_ordered limits (ir_shards r) i j x y Hok Hij Hx Hy). }
  exists (hits (ir_shards r) (hash_prefix path) se_first_path_hash se_last_path_hash). split; [|split].
  - intros i. unfold hits. rewrite list_elem_of_filter, elem_of_seq. split.
    + intros [H _]. destruct (ir_shards r !! i) as [x|]; [|done]. exists x. split; [done|].
      by apply entry_contains_true in H.
    + intros (x & Hx & H). rewrite Hx. split; [by apply entry_contains_true|].
      apply lookup_lt_Some in Hx. lia.
  - eexists. rewrite (hits_eq _ _ _ _ Hrange Hsorted) at 1. by rewrite (hits_eq _ _ _ _ Hrange Hsorted), length_seq.
  - unfold IndexRoot_candidate_shards_for_path, IndexRoot_candidate_shard_indexes_for_hash.
    by apply candidate_interval_indexes_eq.
Qed.

(** C28: Finding the shards of a path.  In an accepted root the search returns
    the positions of all shards whose range contains the hash of the path, in
    ascending order, and no others; it fails only when more shards contain the
    hash than it may scan. *)
Theorem candidate_shards_complete {Sha : Sha256} b has_dictionary limits r path :
  IndexRoot_parse b has_dictionary limits = Ok r ->
  0 <= lim_max_hash_collision_shard_scan limits ->
  let contains x := le (se_first_path_hash x) (hash_prefix path)
                    /\ le (hash_prefix path) (se_last_path_hash x) in
  exists positions,
    (forall i, i ∈ positions <-> exists x, ir_shards r !! i = Some x /\ contains x)
    /\ (exists start, positions = seq start (length positions))
    /\ IndexRoot_candidate_shards_for_path r path limits
       = if lim_max_hash_collision_shard_scan limits + 1 <? Z.of_nat (length positions)
         then Err HashPrefixCollisionRunExceeded else Ok positions.
Proof. intros [Hv _]%IndexRoot_parse_sound. by apply (candidate_shards_spec has_dictionary). Qed.

(** ** Concrete inputs

    A digest that starts with 0x30 eight times: the three shards of the example
    contain it. *)
Definition constant_Sha256 : Sha256 := {|
  sha256 := fun _ => replicate 32 Byte.x30; sha256_blen := fun _ => eq_refl |}.

Lemma candidate_shards_complete_witness :
  IndexRoot_candidate_shards_for_path (Sha := constant_Sha256) example_root (ascii "a")
    MetadataLimits_default = Ok [0; 1; 2]%nat
  /\ exists positions,
       (forall i, i ∈ positions <-> exists x, ir_shards example_root !! i = Some x
          /\ le (se_first_path_hash x) (replicate 8 Byte.x30) /\ le (replicate 8 Byte.x30) (se_last_path_hash x))
       /\ IndexRoot_candidate_shards_for_path (Sha := constant_Sha256) example_root (ascii "a")
            MetadataLimits_default
          = if 16 + 1 <? Z.of_nat (length positions)
            then Err HashPrefixCollisionRunExceeded else Ok positions.
Proof.
  split; [vm_compute; reflexivity|].
  destruct (candidate_shards_complete (Sha := constant_Sha256) (IndexRoot_to_bytes example_root) false
    MetadataLimits_default example_root (ascii "a") example_root_parses ltac:(vm_compute; discriminate)) as (positions & H1 & _ & H2).
  exists positions. split; [exact H1|exact H2].
Defined.
