(* ===== verification/IndexEntries.v ===== *)
(** * The entries of an index shard

    [FileEntry], [FrameEntry] and [EnvelopeEntry] of
    [crates/tzap-core/src/metadata.rs]: the files of a range of path hashes, the
    compressed frames that hold them and the envelopes that hold the frames. *)

From S2P Require Import Wire Ordering Paths MetadataWire IndexRoot IndexLookup.
#[local] Open Scope Z_scope.

Definition TZIS_MAGIC : bytes := ascii "TZIS".
Definition ENVELOPE_ENTRY_LEN : Z := 48.
Definition FRAME_ENTRY_LEN : Z := 44.
Definition INDEX_SHARD_HEADER_LEN : Z := 64.
Definition FILE_ENTRY_LEN : Z := 144.
Definition INDEX_SHARD_VERSION : Z := 1.
Definition FRAME_KNOWN_FLAGS : Z := 0x00000003.
Definition EXTENDED_METADATA_V1 : Z := Z.shiftl 1 0.
Definition FILE_ENTRY_KNOWN_FLAGS : Z := Z.shiftl 1 6 - 1.

#[local] Ltac unfold_consts ::=
  unfold INDEX_SHARD_HEADER_LEN, FILE_ENTRY_LEN, FRAME_ENTRY_LEN, ENVELOPE_ENTRY_LEN in *.

Record EnvelopeEntry : Type := {
  ee_envelope_index : Z;
  ee_first_block_index : Z;
  ee_data_block_count : Z;
  ee_parity_block_count : Z;
  ee_encrypted_size : Z;
  ee_plaintext_size : Z;
  ee_first_frame_index : Z;
  ee_frame_count : Z
}.

Record FrameEntry : Type := {
  fr_frame_index : Z;
  fr_envelope_index : Z;
  fr_offset_in_envelope : Z;
  fr_compressed_size : Z;
  fr_decompressed_size : Z;
  fr_flags : Z;
  fr_tar_stream_offset : Z
}.

Record IndexShardHeader : Type := {
  is_version : Z;
  is_shard_index : Z;
  is_file_count : Z;
  is_frame_count : Z;
  is_envelope_count : Z;
  is_file_table_offset : Z;
  is_frame_table_offset : Z;
  is_envelope_table_offset : Z;
  is_string_pool_offset : Z;
  is_string_pool_size : Z
}.

Record FileEntry : Type := {
  fe_path_hash : bytes;
  fe_path_offset : Z;
  fe_path_length : Z;
  fe_first_frame_index : Z;
  fe_frame_count : Z;
  fe_offset_in_first_frame_plaintext : Z;
  fe_tar_member_group_size : Z;
  fe_file_data_size : Z;
  fe_flags : Z;
  fe_mtime_nsec : Z;
  fe_mtime_sec : Z;
  fe_created_nsec : Z;
  fe_accessed_nsec : Z;
  fe_created_sec : Z;
  fe_accessed_sec : Z;
  fe_uid : Z;
  fe_gid : Z;
  fe_mode : Z;
  fe_attributes : Z;
  fe_uname_offset : Z;
  fe_uname_length : Z;
  fe_gname_offset : Z;
  fe_gname_length : Z;
  fe_link_target_offset : Z;
  fe_link_target_length : Z;
  fe_kind : Z;
  fe_metadata_flags : Z;
  fe_reserved1 : Z;
  fe_reserved2 : Z
}.

(** ** Entries *)
Definition parse_file_entry (b : bytes) : fresult FileEntry :=
  let structure := "FileEntry" in
  path_hash ← meta_read_array 8 b 0 structure;
  path_offset ← meta_read_u32 b 8 structure;
  path_length ← meta_read_u32 b 12 structure;
  first_frame_index ← meta_read_u64 b 16 structure;
  frame_count ← meta_read_u32 b 24 structure;
  offset_in_first_frame_plaintext ← meta_read_u32 b 28 structure;
  tar_member_group_size ← meta_read_u64 b 32 structure;
  file_data_size ← meta_read_u64 b 40 structure;
  flags ← meta_read_u32 b 48 structure;
  mtime_nsec ← meta_read_u32 b 52 structure;
  mtime_sec ← meta_read_i64 b 56 structure;
  created_nsec ← meta_read_u32 b 64 structure;
  accessed_nsec ← meta_read_u32 b 68 structure;
  created_sec ← meta_read_i64 b 72 structure;
  accessed_sec ← meta_read_i64 b 80 structure;
  uid ← meta_read_u64 b 88 structure;
  gid ← meta_read_u64 b 96 structure;
  mode ← meta_read_u32 b 104 structure;
  attributes ← meta_read_u32 b 108 structure;
  uname_offset ← meta_read_u32 b 112 structure;
  uname_length ← meta_read_u32 b 116 structure;
  gname_offset ← meta_read_u32 b 120 structure;
  gname_length ← meta_read_u32 b 124 structure;
  link_target_offset ← meta_read_u32 b 128 structure;
  link_target_length ← meta_read_u32 b 132 structure;
  kind ← meta_read_u8 b 136 structure;
  metadata_flags ← meta_read_u8 b 137 structure;
  reserved1 ← meta_read_u16 b 138 structure;
  reserved2 ← meta_read_u32 b 140 structure;
  mret {| fe_path_hash := path_hash; fe_path_offset := path_offset; fe_path_length := path_length;
          fe_first_frame_index := first_frame_index; fe_frame_count := frame_count;
          fe_offset_in_first_frame_plaintext := offset_in_first_frame_plaintext;
          fe_tar_member_group_size := tar_member_group_size; fe_file_data_size := file_data_size;
          fe_flags := flags; fe_mtime_nsec := mtime_nsec; fe_mtime_sec := mtime_sec;
          fe_created_nsec := created_nsec; fe_accessed_nsec := accessed_nsec;
          fe_created_sec := created_sec; fe_accessed_sec := accessed_sec; fe_uid := uid;
          fe_gid := gid; fe_mode := mode; fe_attributes := attributes;
          fe_uname_offset := uname_offset; fe_uname_length := uname_length;
          fe_gname_offset := gname_offset; fe_gname_length := gname_length;
          fe_link_target_offset := link_target_offset; fe_link_target_length := link_target_length;
          fe_kind := kind; fe_metadata_flags := metadata_flags; fe_reserved1 := reserved1;
          fe_reserved2 := reserved2 |}.

Definition FileEntry_to_bytes (self : FileEntry) : bytes :=
  puts (zeros FILE_ENTRY_LEN)
    [write_bytes 0 (fe_path_hash self);
     write_u32 8 (fe_path_offset self);
     write_u32 12 (fe_path_length self);
     write_u64 16 (fe_first_frame_index self);
     write_u32 24 (fe_frame_count self);
     write_u32 28 (fe_offset_in_first_frame_plaintext self);
     write_u64 32 (fe_tar_member_group_size self);
     write_u64 40 (fe_file_data_size self);
     write_u32 48 (fe_flags self);
     write_u32 52 (fe_mtime_nsec self);
     write_i64 56 (fe_mtime_sec self);
     write_u32 64 (fe_created_nsec self);
     write_u32 68 (fe_accessed_nsec self);
     write_i64 72 (fe_created_sec self);
     write_i64 80 (fe_accessed_sec self);
     write_u64 88 (fe_uid self);
     write_u64 96 (fe_gid self);
     write_u32 104 (fe_mode self);
     write_u32 108 (fe_attributes self);
     write_u32 112 (fe_uname_offset self);
     write_u32 116 (fe_uname_length self);
     write_u32 120 (fe_gname_offset self);
     write_u32 124 (fe_gname_length self);
     write_u32 128 (fe_link_target_offset self);
     write_u32 132 (fe_link_target_length self);
     write_u8 136 (fe_kind self);
     write_u8 137 (fe_metadata_flags self);
     write_u16 138 (fe_reserved1 self);
     write_u32 140 (fe_reserved2 self)].

Definition parse_frame_entry (b : bytes) : fresult FrameEntry :=
  let structure := "FrameEntry" in
  reserved ← meta_slice b 40 4 structure;
  expect_zero structure reserved;;
  frame_index ← meta_read_u64 b 0 structure;
  envelope_index ← meta_read_u64 b 8 structure;
  offset_in_envelope ← meta_read_u32 b 16 structure;
  compressed_size ← meta_read_u32 b 20 structure;
  decompressed_size ← meta_read_u32 b 24 structure;
  flags ← meta_read_u32 b 28 structure;
  tar_stream_offset ← meta_read_u64 b 32 structure;
  mret {| fr_frame_index := frame_index; fr_envelope_index := envelope_index;
          fr_offset_in_envelope := offset_in_envelope; fr_compressed_size := compressed_size;
          fr_decompressed_size := decompressed_size; fr_flags := flags;
          fr_tar_stream_offset := tar_stream_offset |}.

Definition FrameEntry_to_bytes (self : FrameEntry) : bytes :=
  puts (zeros FRAME_ENTRY_LEN)
    [write_u64 0 (fr_frame_index self);
     write_u64 8 (fr_envelope_index self);
     write_u32 16 (fr_offset_in_envelope self);
     write_u32 20 (fr_compressed_size self);
     write_u32 24 (fr_decompressed_size self);
     write_u32 28 (fr_flags self);
     write_u64 32 (fr_tar_stream_offset self)].

Definition parse_envelope_entry (b : bytes) : fresult EnvelopeEntry :=
  let structure := "EnvelopeEntry" in
  reserved ← meta_slice b 44 4 structure;
  expect_zero structure reserved;;
  envelope_index ← meta_read_u64 b 0 structure;
  first_block_index ← meta_read_u64 b 8 structure;
  data_block_count ← meta_read_u32 b 16 structure;
  parity_block_count ← meta_read_u32 b 20 structure;
  encrypted_size ← meta_read_u32 b 24 structure;
  plaintext_size ← meta_read_u32 b 28 structure;
  first_frame_index ← meta_read_u64 b 32 structure;
  frame_count ← meta_read_u32 b 40 structure;
  mret {| ee_envelope_index := envelope_index; ee_first_block_index := first_block_index;
          ee_data_block_count := data_block_count; ee_parity_block_count := parity_block_count;
          ee_encrypted_size := encrypted_size; ee_plaintext_size := plaintext_size;
          ee_first_frame_index := first_frame_index; ee_frame_count := frame_count |}.

Definition EnvelopeEntry_to_bytes (self : EnvelopeEntry) : bytes :=
  puts (zeros ENVELOPE_ENTRY_LEN)
    [write_u64 0 (ee_envelope_index self);
     write_u64 8 (ee_first_block_index self);
     write_u32 16 (ee_data_block_count self);
     write_u32 20 (ee_parity_block_count self);
     write_u32 24 (ee_encrypted_size self);
     write_u32 28 (ee_plaintext_size self);
     write_u64 32 (ee_first_frame_index self);
     write_u32 40 (ee_frame_count self)].

Definition FileEntry_typed (e : FileEntry) : Prop :=
  blen (fe_path_hash e) = 8 /\ u32 (fe_path_offset e) /\ u32 (fe_path_length e)
  /\ u64 (fe_first_frame_index e) /\ u32 (fe_frame_count e)
  /\ u32 (fe_offset_in_first_frame_plaintext e) /\ u64 (fe_tar_member_group_size e)
  /\ u64 (fe_file_data_size e) /\ u32 (fe_flags e) /\ u32 (fe_mtime_nsec e) /\ i64 (fe_mtime_sec e)
  /\ u32 (fe_created_nsec e) /\ u32 (fe_accessed_nsec e) /\ i64 (fe_created_sec e)
  /\ i64 (fe_accessed_sec e) /\ u64 (fe_uid e) /\ u64 (fe_gid e) /\ u32 (fe_mode e)
  /\ u32 (fe_attributes e) /\ u32 (fe_uname_offset e) /\ u32 (fe_uname_length e)
  /\ u32 (fe_gname_offset e) /\ u32 (fe_gname_length e) /\ u32 (fe_link_target_offset e)
  /\ u32 (fe_link_target_length e) /\ u8 (fe_kind e) /\ u8 (fe_metadata_flags e)
  /\ u16 (fe_reserved1 e) /\ u32 (fe_reserved2 e).

Definition FrameEntry_typed (e : FrameEntry) : Prop :=
  u64 (fr_frame_index e) /\ u64 (fr_envelope_index e) /\ u32 (fr_offset_in_envelope e)
  /\ u32 (fr_compressed_size e) /\ u32 (fr_decompressed_size e) /\ u32 (fr_flags e)
  /\ u64 (fr_tar_stream_offset e).

Definition EnvelopeEntry_typed (e : EnvelopeEntry) : Prop :=
  u64 (ee_envelope_index e) /\ u64 (ee_first_block_index e) /\ u32 (ee_data_block_count e)
  /\ u32 (ee_parity_block_count e) /\ u32 (ee_encrypted_size e) /\ u32 (ee_plaintext_size e)
  /\ u64 (ee_first_frame_index e) /\ u32 (ee_frame_count e).

#[export, refine] Instance FileEntry_table : TableEntry FileEntry := {|
  entry_len := FILE_ENTRY_LEN; entry_encode := FileEntry_to_bytes;
  entry_decode := parse_file_entry; entry_valid := FileEntry_typed |}.
Proof.
  - unfold FILE_ENTRY_LEN. lia.
  - intros b h Hb. unfold FILE_ENTRY_LEN in *. unfold FileEntry_typed. split.
    + intros H. unfold parse_file_entry in H. bind_inv H. subst h.
      meta_facts. wire_encoded FileEntry_to_bytes.
    + intros [HT H]. destruct h. cbn in HT. destruct_and!. unfold FileEntry_to_bytes in H.
      wire_segments H. unfold parse_file_entry. by meta_run.
  - intros h HT. unfold FileEntry_typed in HT. destruct_and!. unfold FileEntry_to_bytes, FILE_ENTRY_LEN.
    apply blen_puts. by layout_done.
Defined.

#[export, refine] Instance FrameEntry_table : TableEntry FrameEntry := {|
  entry_len := FRAME_ENTRY_LEN; entry_encode := FrameEntry_to_bytes;
  entry_decode := parse_frame_entry; entry_valid := FrameEntry_typed |}.
Proof.
  - unfold FRAME_ENTRY_LEN. lia.
  - intros b h Hb. unfold FRAME_ENTRY_LEN in *. unfold FrameEntry_typed. split.
    + intros H. unfold parse_frame_entry in H. bind_inv H. subst h.
      meta_facts. wire_encoded FrameEntry_to_bytes.
    + intros [HT H]. destruct h. cbn in HT. destruct_and!. unfold FrameEntry_to_bytes in H.
      wire_segments H. unfold parse_frame_entry. by meta_run.
  - intros h HT. unfold FrameEntry_typed in HT. destruct_and!. unfold FrameEntry_to_bytes, FRAME_ENTRY_LEN.
    apply blen_puts. by layout_done.
Defined.

#[export, refine] Instance EnvelopeEntry_table : TableEntry EnvelopeEntry := {|
  entry_len := ENVELOPE_ENTRY_LEN; entry_encode := EnvelopeEntry_to_bytes;
  entry_decode := parse_envelope_entry; entry_valid := EnvelopeEntry_typed |}.
Proof.
  - unfold ENVELOPE_ENTRY_LEN. lia.
  - intros b h Hb. unfold ENVELOPE_ENTRY_LEN in *. unfold EnvelopeEntry_typed. split.
    + intros H. unfold parse_envelope_entry in H. bind_inv H. subst h.
      meta_facts. wire_encoded EnvelopeEntry_to_bytes.
    + intros [HT H]. destruct h. cbn in HT. destruct_and!. unfold EnvelopeEntry_to_bytes in H.
      wire_segments H. unfold parse_envelope_entry. by meta_run.
  - intros h HT. unfold EnvelopeEntry_typed in HT. destruct_and!.
    unfold EnvelopeEntry_to_bytes, ENVELOPE_ENTRY_LEN. apply blen_puts. by layout_done.
Defined.
