(* ===== verification/IndexShard.v ===== *)
(** * A shard of the index

    [IndexShard] of [crates/tzap-core/src/metadata.rs]: parsing and
    serializing, the checks between its tables, and the lookup of a path. *)

From S2P Require Import Wire Ordering Paths MetadataWire IndexRoot IndexLookup IndexEntries.
#[local] Open Scope Z_scope.

(** The last two fields are private: only [parse] fills them. *)
Record IndexShard : Type := {
  sh_header : IndexShardHeader;
  sh_files : list FileEntry;
  sh_frames : list FrameEntry;
  sh_envelopes : list EnvelopeEntry;
  sh_string_pool : bytes;
  sh_file_paths : list bytes;
  sh_file_tar_member_group_starts : list Z
}.


(** ** Tables *)
Section CountedTable.
Context {A : Type} {E : TableEntry A}.

(** Returns the table and the cursor behind it. *)
Definition parse_counted_table (b : bytes) (structure name : string) (count offset cursor : Z)
    : fresult (list A * Z) :=
  if count =? 0
  then
    reject_if (negb (offset =? 0))
      (InvalidMetadata structure "absent counted table has non-zero offset");;
    mret ([], cursor)
  else
    expect_offset structure name offset cursor;;
    count ← meta_to_usize count structure;
    bytes_len ← meta_checked_mul count (entry_len (A := A)) structure;
    table ← meta_slice b cursor bytes_len structure;
    cursor ← meta_checked_add cursor bytes_len structure;
    entries ← map_result entry_decode (chunks_exact (entry_len (A := A)) table);
    mret (entries, cursor).
End CountedTable.

(** ** Checks of the tables *)
Definition check_frame (frame : FrameEntry) : fresult unit :=
  reject_if ((fr_compressed_size frame =? 0) || (fr_decompressed_size frame =? 0))
    (InvalidMetadata "FrameEntry" "frame sizes must be non-zero");;
  reject_if (negb (Z.land (fr_flags frame) (unot 32 FRAME_KNOWN_FLAGS) =? 0))
    (InvalidMetadata "FrameEntry" "reserved flag bits are non-zero").

(** [for x in l { f(x)?; }] *)
Fixpoint for_each {A} (f : A -> fresult unit) (l : list A) : fresult unit :=
  match l with
  | [] => Ok tt
  | x :: l => f x;; for_each f l
  end.

(** [for pair in l.windows(2) { f(pair\[0\], pair\[1\])?; }] *)
Fixpoint for_windows {A} (f : A -> A -> fresult unit) (l : list A) : fresult unit :=
  match l with
  | x :: (y :: _) as l' => f x y;; for_windows f l'
  | _ => Ok tt
  end.

Definition check_frame_pair (previous next : FrameEntry) : fresult unit :=
  reject_if (fr_frame_index next <=? fr_frame_index previous)
    (InvalidMetadata "IndexShard" "FrameEntry rows are not sorted and unique");;
  previous_end ← ok_or (checked_add 64 (fr_tar_stream_offset previous) (fr_decompressed_size previous))
    (MetadataArithmeticOverflow "FrameEntry");
  if fr_frame_index next =? fr_frame_index previous + 1
  then
    reject_if (negb (fr_tar_stream_offset next =? previous_end))
      (InvalidMetadata "FrameEntry" "consecutive tar stream offsets are not packed")
  else
    reject_if (fr_tar_stream_offset next <=? previous_end)
      (InvalidMetadata "FrameEntry" "non-consecutive tar stream offsets overlap").

Definition validate_frame_table (frames : list FrameEntry) : fresult unit :=
  for_each check_frame frames;;
  for_windows check_frame_pair frames.

Definition check_envelope (limits : MetadataLimits) (envelope : EnvelopeEntry) : fresult unit :=
  reject_if ((ee_frame_count envelope =? 0) || (ee_plaintext_size envelope =? 0))
    (InvalidMetadata "EnvelopeEntry" "payload envelope has no frame plaintext");;
  validate_encrypted_extent "EnvelopeEntry" (ee_data_block_count envelope)
    (ee_encrypted_size envelope) (lim_block_size limits);;
  validate_fec_class_extent "EnvelopeEntry" (ee_data_block_count envelope)
    (ee_parity_block_count envelope) (lim_max_payload_data_shards limits)
    (lim_max_payload_parity_shards limits).

Definition check_envelope_pair (previous next : EnvelopeEntry) : fresult unit :=
  reject_if (ee_envelope_index next <=? ee_envelope_index previous)
    (InvalidMetadata "IndexShard" "EnvelopeEntry rows are not sorted and unique").

Definition validate_envelope_table (envelopes : list EnvelopeEntry) (limits : MetadataLimits)
    : fresult unit :=
  for_each (check_envelope limits) envelopes;;
  for_windows check_envelope_pair envelopes.

(** A [HashMap] from the index of an entry to its position; of equal indices
    the last position stays. *)
Definition position_by_index {A} (index : A -> Z) (l : list A) : gmap Z nat :=
  list_to_map (reverse (imap (fun position entry => (index entry, position)) l)).

Definition frame_for_file (frame_by_index : gmap Z nat) (frames : list FrameEntry) (frame_index : Z)
    : fresult FrameEntry :=
  ok_or (match frame_by_index !! frame_index with
         | Some idx => frames !! idx
         | None => None
         end) (InvalidMetadata "FileEntry" "referenced FrameEntry is missing").

(** The loop [for offset in 1..frame_count - 1] with [n] turns left. *)
Fixpoint sum_middle_frames (n : nat) (file : FileEntry) (frame_by_index : gmap Z nat)
    (frames : list FrameEntry) (offset bytes_before_last : Z) : fresult Z :=
  match n with
  | O => Ok bytes_before_last
  | S n =>
      frame_index ← ok_or (checked_add 64 (fe_first_frame_index file) offset)
        (MetadataArithmeticOverflow "FileEntry");
      frame ← frame_for_file frame_by_index frames frame_index;
      bytes_before_last ← ok_or (checked_add 64 bytes_before_last (fr_decompressed_size frame))
        (MetadataArithmeticOverflow "FileEntry");
      sum_middle_frames n file frame_by_index frames (offset + 1) bytes_before_last
  end.

(** The frame count is not zero: its caller has checked that. *)
Definition validate_file_frame_range (file : FileEntry) (frames : list FrameEntry)
    (frame_by_index : gmap Z nat) : fresult unit :=
  first ← frame_for_file frame_by_index frames (fe_first_frame_index file);
  reject_if (fr_decompressed_size first <=? fe_offset_in_first_frame_plaintext file)
    (InvalidMetadata "FileEntry" "offset in first frame is outside the first referenced frame");;
  let bytes_before_last := fr_decompressed_size first - fe_offset_in_first_frame_plaintext file in
  if fe_frame_count file =? 1
  then
    reject_if (bytes_before_last <? fe_tar_member_group_size file)
      (InvalidMetadata "FileEntry" "tar member group exceeds the single referenced frame")
  else
    bytes_before_last ← sum_middle_frames (Z.to_nat (fe_frame_count file - 2)) file frame_by_index
      frames 1 bytes_before_last;
    last_index ← ok_or (checked_add 64 (fe_first_frame_index file) (fe_frame_count file - 1))
      (MetadataArithmeticOverflow "FileEntry");
    last ← frame_for_file frame_by_index frames last_index;
    max_size ← ok_or (checked_add 64 bytes_before_last (fr_decompressed_size last))
      (MetadataArithmeticOverflow "FileEntry");
    reject_if ((fe_tar_member_group_size file <=? bytes_before_last)
               || (max_size <? fe_tar_member_group_size file))
      (InvalidMetadata "FileEntry" "frame range is not minimal").

(** An optional string of a file. *)
Definition check_file_string (string_pool : bytes) (offset length : Z) (reason : string)
    : fresult unit :=
  if 0 <? length
  then
    b ← string_slice string_pool offset length "FileEntry";
    reject_if (negb (utf8_valid b)) (InvalidMetadata "FileEntry" reason)
  else Ok tt.

Definition check_file_fields (file : FileEntry) (locating_shard : ShardEntry) (limits : MetadataLimits)
    : fresult unit :=
  reject_if (negb (Z.land (fe_flags file) (unot 32 FILE_ENTRY_KNOWN_FLAGS) =? 0))
    (InvalidMetadata "FileEntry" "unknown revision-45 flags are non-zero");;
  reject_if (Z.land (fe_flags file) EXTENDED_METADATA_V1 =? 0)
    (InvalidMetadata "FileEntry" "EXTENDED_METADATA_V1 flag is not set");;
  reject_if (fe_path_length file =? 0) (InvalidMetadata "FileEntry" "path length is zero");;
  reject_if (lim_max_path_length limits <? fe_path_length file)
    (InvalidMetadata "FileEntry" "path length exceeds configured maximum");;
  reject_if (fe_frame_count file =? 0) (InvalidMetadata "FileEntry" "frame count is zero");;
  reject_if (fe_tar_member_group_size file <? 1536)
    (InvalidMetadata "FileEntry" "tar member group is smaller than the revision-45 minimum");;
  reject_if (ltb (fe_path_hash file) (se_first_path_hash locating_shard)
             || ltb (se_last_path_hash locating_shard) (fe_path_hash file))
    (InvalidMetadata "FileEntry" "path hash is outside locating ShardEntry bounds");;
  reject_if (6 <? fe_kind file) (InvalidMetadata "FileEntry" "kind is invalid");;
  reject_if (negb (Z.land (fe_metadata_flags file) (unot 8 0x07) =? 0))
    (InvalidMetadata "FileEntry" "metadata_flags has reserved bits set").

(** [for offset in 0..frame_count] with [n] turns left. *)
Fixpoint insert_required_frames (n : nat) (first_frame_index offset : Z) (required_frames : gset Z)
    : fresult (gset Z) :=
  match n with
  | O => Ok required_frames
  | S n =>
      index ← ok_or (checked_add 64 first_frame_index offset) (MetadataArithmeticOverflow "FileEntry");
      insert_required_frames n first_frame_index (offset + 1) ({[index]} ∪ required_frames)
  end.

Section Shard.
Context {Sha : Sha256} {U : Unicode}.

(** One turn of the loop over the files: the path, the start of the member in
    the tar stream and the set of required frames. *)
Definition validate_file (frames : list FrameEntry) (string_pool : bytes) (locating_shard : ShardEntry)
    (limits : MetadataLimits) (frame_by_index : gmap Z nat) (file : FileEntry)
    (required_frames : gset Z) : fresult (bytes * Z * gset Z) :=
  check_file_fields file locating_shard limits;;
  check_file_string string_pool (fe_uname_offset file) (fe_uname_length file)
    "uname string is not valid UTF-8";;
  check_file_string string_pool (fe_gname_offset file) (fe_gname_length file)
    "gname string is not valid UTF-8";;
  check_file_string string_pool (fe_link_target_offset file) (fe_link_target_length file)
    "link_target string is not valid UTF-8";;
  path ← string_slice string_pool (fe_path_offset file) (fe_path_length file) "FileEntry";
  validate_file_path_bytes path (lim_max_path_length limits);;
  reject_if (negb (bytes_eqb (hash_prefix path) (fe_path_hash file)))
    (InvalidMetadata "FileEntry" "path hash does not match string-pool path");;
  first_frame ← frame_for_file frame_by_index frames (fe_first_frame_index file);
  tar_member_group_start ←
    ok_or (checked_add 64 (fr_tar_stream_offset first_frame) (fe_offset_in_first_frame_plaintext file))
      (MetadataArithmeticOverflow "FileEntry");
  validate_file_frame_range file frames frame_by_index;;
  required_frames ← insert_required_frames (Z.to_nat (fe_frame_count file))
    (fe_first_frame_index file) 0 required_frames;
  mret (path, tar_member_group_start, required_frames).

Fixpoint validate_files (frames : list FrameEntry) (string_pool : bytes) (locating_shard : ShardEntry)
    (limits : MetadataLimits) (frame_by_index : gmap Z nat) (files : list FileEntry)
    (paths : list bytes) (starts : list Z) (required_frames : gset Z)
    : fresult (list bytes * list Z * gset Z) :=
  match files with
  | [] => Ok (paths, starts, required_frames)
  | file :: files =>
      '(path, start, required_frames) ←
        validate_file frames string_pool locating_shard limits frame_by_index file required_frames;
      validate_files frames string_pool locating_shard limits frame_by_index files (paths ++ [path])
        (starts ++ [start]) required_frames
  end.

(** The keys the files are sorted by. *)
Fixpoint file_keys (files : list FileEntry) (paths : list bytes) (starts : list Z)
    : list (bytes * bytes * Z) :=
  match files, paths, starts with
  | file :: files, path :: paths, start :: starts =>
      (fe_path_hash file, path, start) :: file_keys files paths starts
  | _, _, _ => []
  end.

Definition validate_file_order (files : list FileEntry) (paths : list bytes) (starts : list Z)
    : fresult unit :=
  for_windows (fun previous current =>
      reject_if (leb current previous)
        (InvalidMetadata "IndexShard" "FileEntry rows are not sorted and unique"))
    (file_keys files paths starts).
End Shard.

Definition validate_frame_envelope_binding (frame : FrameEntry) (envelope : EnvelopeEntry)
    : fresult unit :=
  envelope_frame_end ← ok_or (checked_add 64 (ee_first_frame_index envelope) (ee_frame_count envelope))
    (MetadataArithmeticOverflow "EnvelopeEntry");
  reject_if ((fr_frame_index frame <? ee_first_frame_index envelope)
             || (envelope_frame_end <=? fr_frame_index frame))
    (InvalidMetadata "FrameEntry" "frame index is outside envelope frame range");;
  end_ ← ok_or (checked_add 32 (fr_offset_in_envelope frame) (fr_compressed_size frame))
    (MetadataArithmeticOverflow "FrameEntry");
  reject_if (ee_plaintext_size envelope <? end_)
    (InvalidMetadata "FrameEntry" "frame slice exceeds envelope plaintext").

(** The loop over the frames that collects the envelopes they need. *)
Fixpoint validate_bindings (frames : list FrameEntry) (envelopes : list EnvelopeEntry)
    (envelope_by_index : gmap Z nat) (required_envelopes : gset Z) : fresult (gset Z) :=
  match frames with
  | [] => Ok required_envelopes
  | frame :: frames =>
      envelope ← ok_or (match envelope_by_index !! fr_envelope_index frame with
                        | Some idx => envelopes !! idx
                        | None => None
                        end) (InvalidMetadata "FrameEntry" "referenced EnvelopeEntry is missing");
      validate_frame_envelope_binding frame envelope;;
      validate_bindings frames envelopes envelope_by_index
        ({[fr_envelope_index frame]} ∪ required_envelopes)
  end.

(** The slices of the frames of an envelope: start, end and frame index. *)
Definition envelope_slices (frames : list FrameEntry) (envelope : EnvelopeEntry)
    : fresult (list (Z * Z * Z)) :=
  map_result (fun frame =>
      end_ ← ok_or (checked_add 32 (fr_offset_in_envelope frame) (fr_compressed_size frame))
        (MetadataArithmeticOverflow "FrameEntry");
      mret (fr_offset_in_envelope frame, end_, fr_frame_index frame))
    (filter (fun frame => fr_envelope_index frame = ee_envelope_index envelope) frames).

Definition slice_key (s : Z * Z * Z) : Z * Z := (s.1.1, s.2).

(** [(0..frame_count).all(..)] with [n] offsets left. *)
Fixpoint contains_frames (n : nat) (first_frame_index offset : Z) (slices : list (Z * Z * Z)) : bool :=
  match n with
  | O => true
  | S n =>
      match checked_add 64 first_frame_index offset with
      | Some index =>
          if existsb (fun s => s.2 =? index) slices
          then contains_frames n first_frame_index (offset + 1) slices
          else false
      | None => false
      end
  end.

(** The slices follow each other from [cursor]; returns where they end. *)
Fixpoint check_packed (slices : list (Z * Z * Z)) (cursor : Z) : fresult Z :=
  match slices with
  | [] => Ok cursor
  | (start, end_, _) :: slices =>
      reject_if (negb (start =? cursor))
        (InvalidMetadata "EnvelopeEntry" "complete local envelope has frame gap");;
      check_packed slices end_
  end.

Definition validate_envelope_slices (frames : list FrameEntry) (envelope : EnvelopeEntry)
    : fresult unit :=
  slices ← envelope_slices frames envelope;
  let slices := sort_by_key slice_key slices in
  for_windows (fun previous next =>
      reject_if (next.1.1 <? previous.1.2)
        (InvalidMetadata "FrameEntry" "frame slices overlap inside an envelope")) slices;;
  if contains_frames (Z.to_nat (ee_frame_count envelope)) (ee_first_frame_index envelope) 0 slices
  then
    cursor ← check_packed slices 0;
    reject_if (negb (cursor =? ee_plaintext_size envelope))
      (InvalidMetadata "EnvelopeEntry" "complete local envelope does not cover plaintext")
  else Ok tt.

Definition validate_frame_slices_by_envelope (frames : list FrameEntry)
    (envelopes : list EnvelopeEntry) : fresult unit :=
  for_each (validate_envelope_slices frames) envelopes.

(** [indices] is exactly the set of the indices of the entries. *)
Definition not_exact_set {A} (index : A -> Z) (l : list A) (indices : gset Z) : bool :=
  negb (size indices =? length l)%nat || existsb (fun entry => negb (bool_decide (index entry ∈ indices))) l.

Section Parse.
Context {Sha : Sha256} {U : Unicode}.

Definition validate_index_shard_tables (files : list FileEntry) (frames : list FrameEntry)
    (envelopes : list EnvelopeEntry) (string_pool : bytes) (locating_shard : ShardEntry)
    (limits : MetadataLimits) : fresult (list bytes * list Z) :=
  validate_frame_table frames;;
  validate_envelope_table envelopes limits;;
  let frame_by_index := position_by_index fr_frame_index frames in
  let envelope_by_index := position_by_index ee_envelope_index envelopes in
  '(paths, starts, required_frames) ←
    validate_files frames string_pool locating_shard limits frame_by_index files [] [] ∅;
  validate_file_order files paths starts;;
  reject_if (not_exact_set fr_frame_index frames required_frames)
    (InvalidMetadata "IndexShard" "FrameEntry table is not the exact set referenced by FileEntry rows");;
  required_envelopes ← validate_bindings frames envelopes envelope_by_index ∅;
  reject_if (not_exact_set ee_envelope_index envelopes required_envelopes)
    (InvalidMetadata "IndexShard"
       "EnvelopeEntry table is not the exact set referenced by FrameEntry rows");;
  validate_frame_slices_by_envelope frames envelopes;;
  match head files with
  | Some first =>
      reject_if (negb (bytes_eqb (fe_path_hash first) (se_first_path_hash locating_shard)))
        (InvalidMetadata "IndexShard" "first FileEntry hash does not match ShardEntry")
  | None => Ok tt
  end;;
  match last files with
  | Some last =>
      reject_if (negb (bytes_eqb (fe_path_hash last) (se_last_path_hash locating_shard)))
        (InvalidMetadata "IndexShard" "last FileEntry hash does not match ShardEntry")
  | None => Ok tt
  end;;
  mret (paths, starts).

(** ** The shard *)
Definition read_index_shard_header (b : bytes) : fresult IndexShardHeader :=
  let structure := "IndexShard" in
  version ← meta_read_u32 b 4 structure;
  shard_index ← meta_read_u64 b 8 structure;
  file_count ← meta_read_u32 b 16 structure;
  frame_count ← meta_read_u32 b 20 structure;
  envelope_count ← meta_read_u32 b 24 structure;
  file_table_offset ← meta_read_u32 b 28 structure;
  frame_table_offset ← meta_read_u32 b 32 structure;
  envelope_table_offset ← meta_read_u32 b 36 structure;
  string_pool_offset ← meta_read_u32 b 40 structure;
  string_pool_size ← meta_read_u32 b 44 structure;
  mret {| is_version := version; is_shard_index := shard_index; is_file_count := file_count;
          is_frame_count := frame_count; is_envelope_count := envelope_count;
          is_file_table_offset := file_table_offset; is_frame_table_offset := frame_table_offset;
          is_envelope_table_offset := envelope_table_offset;
          is_string_pool_offset := string_pool_offset; is_string_pool_size := string_pool_size |}.

Definition parse_string_pool (b : bytes) (header : IndexShardHeader) (cursor : Z)
    : fresult (bytes * Z) :=
  let structure := "IndexShard" in
  if is_string_pool_size header =? 0
  then
    reject_if (negb (is_string_pool_offset header =? 0))
      (InvalidMetadata structure "absent string pool has non-zero offset");;
    mret ([], cursor)
  else
    expect_offset structure "string pool" (is_string_pool_offset header) cursor;;
    let len := is_string_pool_size header in
    pool ← meta_slice b cursor len structure;
    cursor ← meta_checked_add cursor len structure;
    mret (pool, cursor).

Definition IndexShard_parse (b : bytes) (locating_shard : ShardEntry) (limits : MetadataLimits)
    : fresult IndexShard :=
  let structure := "IndexShard" in
  reject_if (blen b <? INDEX_SHARD_HEADER_LEN)
    (InvalidMetadata structure "plaintext is shorter than fixed header");;
  magic ← meta_read_array 4 b 0 structure;
  expect_magic structure TZIS_MAGIC magic;;
  reserved ← meta_slice b 48 16 structure;
  expect_zero structure reserved;;
  header ← read_index_shard_header b;
  reject_if (negb (is_version header =? INDEX_SHARD_VERSION))
    (InvalidMetadata structure "unsupported version");;
  reject_if (is_file_count header =? 0)
    (InvalidMetadata structure "index shard must contain at least one file");;
  reject_if (lim_max_files_per_index_shard limits <? is_file_count header)
    (InvalidMetadata structure "file count exceeds resource cap");;
  reject_if (negb (is_shard_index header =? se_shard_index locating_shard))
    (InvalidMetadata structure "shard index does not match locating ShardEntry");;
  reject_if (negb (is_file_count header =? se_file_count locating_shard))
    (InvalidMetadata structure "file count does not match locating ShardEntry");;
  '(files, cursor) ← parse_counted_table b structure "file table" (is_file_count header)
    (is_file_table_offset header) INDEX_SHARD_HEADER_LEN;
  '(frames, cursor) ← parse_counted_table b structure "frame table" (is_frame_count header)
    (is_frame_table_offset header) cursor;
  '(envelopes, cursor) ← parse_counted_table b structure "envelope table" (is_envelope_count header)
    (is_envelope_table_offset header) cursor;
  '(string_pool, cursor) ← parse_string_pool b header cursor;
  reject_if (negb (blen b =? cursor))
    (InvalidMetadata structure "plaintext length does not match canonical cursor");;
  '(file_paths, file_tar_member_group_starts) ←
    validate_index_shard_tables files frames envelopes string_pool locating_shard limits;
  mret {| sh_header := header; sh_files := files; sh_frames := frames; sh_envelopes := envelopes;
          sh_string_pool := string_pool; sh_file_paths := file_paths;
          sh_file_tar_member_group_starts := file_tar_member_group_starts |}.
End Parse.

Definition IndexShardHeader_to_bytes (self : IndexShardHeader) : bytes :=
  puts (zeros INDEX_SHARD_HEADER_LEN)
    [write_bytes 0 TZIS_MAGIC;
     write_u32 4 (is_version self);
     write_u64 8 (is_shard_index self);
     write_u32 16 (is_file_count self);
     write_u32 20 (is_frame_count self);
     write_u32 24 (is_envelope_count self);
     write_u32 28 (is_file_table_offset self);
     write_u32 32 (is_frame_table_offset self);
     write_u32 36 (is_envelope_table_offset self);
     write_u32 40 (is_string_pool_offset self);
     write_u32 44 (is_string_pool_size self)].

(** The counts and offsets of the header are those of the tables. *)
Definition canonical_shard_header (self : IndexShard) : IndexShardHeader :=
  let header := sh_header self in
  let files := Z.of_nat (length (sh_files self)) in
  let frames := Z.of_nat (length (sh_frames self)) in
  let envelopes := Z.of_nat (length (sh_envelopes self)) in
  let frame_cursor := INDEX_SHARD_HEADER_LEN + files * FILE_ENTRY_LEN in
  let envelope_cursor := frame_cursor + frames * FRAME_ENTRY_LEN in
  let pool_cursor := envelope_cursor + envelopes * ENVELOPE_ENTRY_LEN in
  {| is_version := is_version header; is_shard_index := is_shard_index header;
     is_file_count := files `mod` 2 ^ 32; is_frame_count := frames `mod` 2 ^ 32;
     is_envelope_count := envelopes `mod` 2 ^ 32;
     is_file_table_offset := table_offset files INDEX_SHARD_HEADER_LEN;
     is_frame_table_offset := table_offset frames frame_cursor;
     is_envelope_table_offset := table_offset envelopes envelope_cursor;
     is_string_pool_offset := table_offset (blen (sh_string_pool self)) pool_cursor;
     is_string_pool_size := blen (sh_string_pool self) `mod` 2 ^ 32 |}.

Definition IndexShard_to_bytes (self : IndexShard) : bytes :=
  IndexShardHeader_to_bytes (canonical_shard_header self)
  ++ concat (map FileEntry_to_bytes (sh_files self))
  ++ concat (map FrameEntry_to_bytes (sh_frames self))
  ++ concat (map EnvelopeEntry_to_bytes (sh_envelopes self))
  ++ sh_string_pool self.

(** ** Lookup *)
Definition IndexShard_file_path (self : IndexShard) (file_index : nat) : option bytes :=
  sh_file_paths self !! file_index.

Definition IndexShard_tar_member_group_start (self : IndexShard) (file_index : nat) : option Z :=
  sh_file_tar_member_group_starts self !! file_index.

Section Lookup.
Context {Sha : Sha256}.

(** Positions of files are positions of paths: [parse] makes one path for
    every file. *)
Definition file_key_is_less (self : IndexShard) (target_hash target_path : bytes) (mid : nat) : bool :=
  match sh_files self !! mid, sh_file_paths self !! mid with
  | Some file, Some path =>
      ltb (fe_path_hash file) target_hash
      || (bytes_eqb (fe_path_hash file) target_hash && ltb path target_path)
  | _, _ => false
  end.

Definition lower_bound_file_key (self : IndexShard) (target_hash target_path : bytes) : nat :=
  lower_bound (file_key_is_less self target_hash target_path) (length (sh_files self)).

(** [for idx in lower..self.files.len()] with [n] positions left. *)
Fixpoint lookup_file_loop (n : nat) (self : IndexShard) (target_hash normalized_path : bytes)
    (idx : nat) (best : option nat) : option nat :=
  match n with
  | O => best
  | S n =>
      match sh_files self !! idx, sh_file_paths self !! idx with
      | Some file, Some path =>
          if negb (bytes_eqb (fe_path_hash file) target_hash) || negb (bytes_eqb path normalized_path)
          then best
          else lookup_file_loop n self target_hash normalized_path (S idx) (Some idx)
      | _, _ => best
      end
  end.

Definition IndexShard_lookup_file_index (self : IndexShard) (normalized_path : bytes) : option nat :=
  let target_hash := hash_prefix normalized_path in
  let lower := lower_bound_file_key self target_hash normalized_path in
  lookup_file_loop (length (sh_files self) - lower) self target_hash normalized_path lower None.
End Lookup.
