(* ===== verification/IndexShardCorrect.v ===== *)
(** * The index shard is correct

    What [IndexShard_parse] accepts, what its checks between the tables
    guarantee for the members of the archive, and that the lookup finds the
    last file of a path. *)

From S2P Require Import Wire Ordering Paths MetadataWire IndexRoot IndexLookup IndexEntries IndexShard.
From Stdlib Require Import Sorting.Sorted.
#[local] Open Scope Z_scope.

(** ** Loops *)
Lemma for_each_Ok {A} (f : A -> fresult unit) l :
  for_each f l = Ok tt <-> Forall (fun x => f x = Ok tt) l.
Proof.
  induction l as [|x l IH]; cbn [for_each]; [done|]. rewrite Forall_cons, <- IH, bind_Ok.
  split; [intros ([] & ? & ?); done|intros [? ?]; by exists tt].
Qed.

Lemma for_windows_Ok {A} (f : A -> A -> fresult unit) l :
  for_windows f l = Ok tt
  <-> forall i x y, l !! i = Some x -> l !! S i = Some y -> f x y = Ok tt.
Proof.
  induction l as [|a l IH]; [done|]. destruct l as [|b l].
  { cbn. split; [|done]. intros _ i x y _. by destruct i. }
  change (for_windows f (a :: b :: l)) with (f a b;; for_windows f (b :: l)).
  rewrite bind_Ok. split.
  - intros ([] & Hab & H) i x y Hx Hy. destruct i as [|i].
    + by injection Hx as <-; injection Hy as <-.
    + by apply (proj1 IH H i).
  - intros H. exists tt. split; [by apply (H 0%nat)|]. apply IH. intros i x y. apply (H (S i)).
Qed.

Lemma for_each_no_panic {A} (f : A -> fresult unit) l : (forall x, f x <> Panic) -> for_each f l <> Panic.
Proof.
  intros H. induction l as [|x l IH]; cbn [for_each]; [done|]. apply bind_no_panic; auto.
Qed.

Lemma for_windows_no_panic {A} (f : A -> A -> fresult unit) l :
  (forall x y, f x y <> Panic) -> for_windows f l <> Panic.
Proof.
  intros H. induction l as [|x l IH]; [done|]. destruct l as [|y l]; [done|].
  change ((f x y;; for_windows f (y :: l)) <> Panic). apply bind_no_panic; auto.
Qed.

(** Neighbours in order make the whole list ordered. *)
Lemma windows_transitive {A} (R : A -> A -> Prop) `{!Transitive R} (l : list A) :
  (forall i x y, l !! i = Some x -> l !! S i = Some y -> R x y) ->
  forall i j x y, (i < j)%nat -> l !! i = Some x -> l !! j = Some y -> R x y.
Proof.
  intros Hw i j x y Hij Hx. revert y. induction j as [|j IH]; intros y Hy; [lia|].
  destruct (decide (i = j)) as [->|Hne]; [by apply (Hw j)|].
  destruct (lookup_lt_is_Some_2 l j) as [z Hz]; [apply lookup_lt_Some in Hy; lia|].
  transitivity z; [apply IH; [lia|done]|by apply (Hw j)].
Qed.

Lemma windows_ascending {A} (index : A -> Z) (l : list A) :
  (forall i x y, l !! i = Some x -> l !! S i = Some y -> index x < index y) ->
  forall i j x y, (i < j)%nat -> l !! i = Some x -> l !! j = Some y -> index x < index y.
Proof.
  intros H. assert (Transitive (fun x y => index x < index y)) by (intros x y z; lia).
  by apply windows_transitive.
Qed.

(** ** Positions by index *)
Section Positions.
Context {A : Type} (index : A -> Z) (l : list A).
Context (Hasc : forall i j x y, (i < j)%nat -> l !! i = Some x -> l !! j = Some y -> index x < index y).

Lemma index_inj i j x y : l !! i = Some x -> l !! j = Some y -> index x = index y -> i = j.
Proof.
  intros Hx Hy He. destruct (decide (i = j)); [done|].
  destruct (decide (i < j)%nat); [specialize (Hasc i j x y)|specialize (Hasc j i y x)];
    rewrite Hx, Hy in Hasc; lia || (exfalso; pose proof (Hasc ltac:(lia) eq_refl eq_refl); lia).
Qed.

Lemma position_by_index_Some k p :
  position_by_index index l !! k = Some p <-> exists x, l !! p = Some x /\ index x = k.
Proof.
  unfold position_by_index. rewrite <- elem_of_list_to_map.
  - rewrite elem_of_reverse, elem_of_lookup_imap. split.
    + intros (i & x & [= -> ->] & Hx). eauto.
    + intros (x & Hx & <-). by exists p, x.
  - rewrite fmap_reverse, reverse_Permutation, fmap_imap. apply NoDup_alt. intros i j z Hi Hj.
    rewrite list_lookup_imap in Hi, Hj.
    destruct (l !! i) as [x|] eqn:Hx; [|done]. destruct (l !! j) as [y|] eqn:Hy; [|done].
    cbn in Hi, Hj. apply (index_inj i j x y); congruence.
Qed.
End Positions.

(** ** The frame table *)
Lemma check_frame_Ok frame :
  FrameEntry_typed frame -> check_frame frame = Ok tt ->
  0 < fr_compressed_size frame /\ 0 < fr_decompressed_size frame.
Proof.
  unfold FrameEntry_typed, fits. intros HT H. unfold check_frame in H. ok_inv.
  rewrite orb_false_iff in *. lia.
Qed.

(** A frame table in order: indices ascend, and frames with consecutive indices
    are consecutive in the tar stream. *)
Record frames_ok (frames : list FrameEntry) : Prop := {
  fo_sizes : forall f, f ∈ frames -> 0 < fr_compressed_size f /\ 0 < fr_decompressed_size f;
  fo_ascending : forall i j f g, (i < j)%nat -> frames !! i = Some f -> frames !! j = Some g ->
    fr_frame_index f < fr_frame_index g;
  fo_packed : forall i f g, frames !! i = Some f -> frames !! S i = Some g ->
    fr_frame_index g = fr_frame_index f + 1 ->
    fr_tar_stream_offset g = fr_tar_stream_offset f + fr_decompressed_size f
}.

Lemma check_frame_pair_Ok previous next :
  check_frame_pair previous next = Ok tt ->
  fr_frame_index previous < fr_frame_index next
  /\ (fr_frame_index next = fr_frame_index previous + 1 ->
      fr_tar_stream_offset next = fr_tar_stream_offset previous + fr_decompressed_size previous).
Proof.
  intros H. unfold check_frame_pair in H. apply bind_Ok in H as ([] & H1 & H).
  apply reject_if_Ok, Z.leb_gt in H1. split; [lia|]. intros E. rewrite E, Z.eqb_refl in H. ok_inv.
  rewrite negb_false_iff in *. lia.
Qed.

Lemma validate_frame_table_Ok frames :
  Forall FrameEntry_typed frames -> validate_frame_table frames = Ok tt -> frames_ok frames.
Proof.
  intros HT H. unfold validate_frame_table in H. apply bind_Ok in H as ([] & H1 & H2).
  rewrite for_each_Ok in H1. rewrite for_windows_Ok in H2. split.
  - intros f Hf. rewrite Forall_forall in HT, H1. by apply check_frame_Ok; auto.
  - apply windows_ascending. intros i f g Hf Hg. by apply (check_frame_pair_Ok f g), (H2 i).
  - intros i f g Hf Hg. by apply (check_frame_pair_Ok f g), (H2 i).
Qed.

Section Frames.
Context (frames : list FrameEntry) (Hok : frames_ok frames).

Let frame_by_index := position_by_index fr_frame_index frames.

Lemma frame_for_file_Ok k f :
  frame_for_file frame_by_index frames k = Ok f <-> f ∈ frames /\ fr_frame_index f = k.
Proof.
  unfold frame_for_file. rewrite ok_or_Ok. destruct (frame_by_index !! k) as [p|] eqn:Hp.
  - apply position_by_index_Some in Hp as (x & Hx & Hk); [|apply fo_ascending, Hok]. rewrite Hx. split.
    + intros [= ->]. split; [by apply list_elem_of_lookup_2 with p|done].
    + intros [Hf Hk']. apply list_elem_of_lookup in Hf as [q Hq].
      assert (p = q) as -> by (eapply (index_inj fr_frame_index); [apply fo_ascending, Hok|done..|congruence]).
      congruence.
  - split; [done|]. intros [Hf Hk]. apply list_elem_of_lookup in Hf as [q Hq].
    assert (frame_by_index !! k = Some q) as Hs; [|congruence].
    apply position_by_index_Some; [apply fo_ascending, Hok|]. eauto.
Qed.

(** The frame behind a frame is next to it in the table. *)
Lemma next_position p q f g :
  frames !! p = Some f -> frames !! q = Some g -> fr_frame_index g = fr_frame_index f + 1 -> q = S p.
Proof.
  intros Hf Hg He. destruct Hok as [_ Hasc _].
  assert (p < q)%nat as Hlt.
  { destruct (Nat.lt_trichotomy p q) as [?|[->|Hgt]]; [done| |].
    - rewrite Hf in Hg. injection Hg as ->. lia.
    - pose proof (Hasc q p g f Hgt Hg Hf). lia. }
  destruct (decide (q = S p)); [done|].
  destruct (lookup_lt_is_Some_2 frames (S p)) as [h Hh]; [apply lookup_lt_Some in Hg; lia|].
  pose proof (Hasc p (S p) f h ltac:(lia) Hf Hh). pose proof (Hasc (S p) q h g ltac:(lia) Hh Hg). lia.
Qed.
End Frames.

(** ** The frames of a file *)
Definition frame_end (f : FrameEntry) : Z := fr_tar_stream_offset f + fr_decompressed_size f.

(** [count] frames from position [p] on have consecutive indices from [first]. *)
Definition frame_run (frames : list FrameEntry) (p count : nat) (first : Z) : Prop :=
  forall j, (j < count)%nat ->
    exists f, frames !! (p + j)%nat = Some f /\ fr_frame_index f = first + Z.of_nat j.

(** The bytes [start] to [start + size] of the tar stream: they begin in the
    first frame of the run and end in the last one. *)
Definition member_in_run (frames : list FrameEntry) (p count : nat) (start size : Z) : Prop :=
  exists first last,
    frames !! p = Some first /\ frames !! (p + count - 1)%nat = Some last
    /\ fr_tar_stream_offset first <= start < frame_end first
    /\ fr_tar_stream_offset last < start + size <= frame_end last.

Section FrameRange.
Context (frames : list FrameEntry) (Hok : frames_ok frames) (file : FileEntry).

Let frame_by_index := position_by_index fr_frame_index frames.

Lemma next_frame p f g :
  frames !! p = Some f -> g ∈ frames -> fr_frame_index g = fr_frame_index f + 1 ->
  frames !! S p = Some g /\ fr_tar_stream_offset g = frame_end f.
Proof.
  intros Hf Hg He. apply list_elem_of_lookup in Hg as [q Hq].
  assert (q = S p) as -> by (by apply (next_position frames Hok p q f g)). split; [done|].
  by apply (fo_packed _ Hok p).
Qed.

Lemma sum_middle_frames_Ok n offset acc r q g start :
  frames !! q = Some g -> fr_frame_index g = fe_first_frame_index file + offset - 1 ->
  acc = frame_end g - start ->
  sum_middle_frames n file frame_by_index frames offset acc = Ok r ->
  exists h, frames !! (q + n)%nat = Some h
            /\ fr_frame_index h = fe_first_frame_index file + offset - 1 + Z.of_nat n
            /\ r = frame_end h - start
            /\ frame_run frames q (S n) (fe_first_frame_index file + offset - 1).
Proof.
  revert offset acc q g. induction n as [|n IH]; intros offset acc q g Hg Hi Hacc H; cbn [sum_middle_frames] in H.
  - injection H as <-. exists g. rewrite Nat.add_0_r. split_and!; [done|lia|done|].
    intros j Hj. assert (j = 0%nat) as -> by lia. exists g. rewrite Nat.add_0_r. split; [done|lia].
  - apply bind_Ok in H as (k & Hk & H). apply ok_or_Ok, checked_add_Some in Hk as [_ ->].
    apply bind_Ok in H as (f & Hf & H). apply frame_for_file_Ok in Hf as [Hf Hfi]; [|done].
    apply bind_Ok in H as (acc' & Ha & H). apply ok_or_Ok, checked_add_Some in Ha as [_ ->].
    destruct (next_frame q g f Hg Hf) as [Hp Ho]; [lia|].
    destruct (IH (offset + 1) (acc + fr_decompressed_size f) (S q) f Hp ltac:(lia) ltac:(unfold frame_end in *; lia) H) as (h & Hh & Hhi & Hr & Hrun).
    exists h. replace (q + S n)%nat with (S q + n)%nat by lia. split_and!; [done|lia|done|].
    intros j Hj. destruct j as [|j].
    + exists g. rewrite Nat.add_0_r. split; [done|lia].
    + destruct (Hrun j) as (x & Hx & Hxi); [lia|]. exists x.
      replace (q + S j)%nat with (S q + j)%nat by lia. split; [done|lia].
Qed.

(** The check of the frame range of a file: its member fills a run of frames
    that has no frame to spare. *)
Lemma validate_file_frame_range_Ok first :
  FileEntry_typed file -> fe_frame_count file <> 0 -> 0 < fe_tar_member_group_size file ->
  frame_for_file frame_by_index frames (fe_first_frame_index file) = Ok first ->
  validate_file_frame_range file frames frame_by_index = Ok tt ->
  exists p, frame_run frames p (Z.to_nat (fe_frame_count file)) (fe_first_frame_index file)
            /\ member_in_run frames p (Z.to_nat (fe_frame_count file))
                 (fr_tar_stream_offset first + fe_offset_in_first_frame_plaintext file)
                 (fe_tar_member_group_size file).
Proof.
  intros HT Hn Hsz Hfirst H. unfold FileEntry_typed, fits in HT.
  destruct HT as (_ & _ & _ & _ & Hcount & Hoff & _). unfold validate_file_frame_range in H.
  rewrite Hfirst, bind_ret in H. apply bind_Ok in H as ([] & Ho & H). apply reject_if_Ok, Z.leb_gt in Ho.
  apply frame_for_file_Ok in Hfirst as [Hin Hfi]; [|done]. apply list_elem_of_lookup in Hin as [p Hp].
  exists p. unfold frame_end in *. destruct (Z.eqb_spec (fe_frame_count file) 1) as [E|E].
  - apply reject_if_Ok, Z.ltb_ge in H. rewrite E. change (Z.to_nat 1) with 1%nat. split.
    + intros j Hj. exists first. assert (j = 0%nat) as -> by lia. rewrite Nat.add_0_r. split; [done|lia].
    + exists first, first. replace (p + 1 - 1)%nat with p by lia. unfold frame_end. split_and!; (done || lia).
  - apply bind_Ok in H as (before & Hb & H).
    apply (sum_middle_frames_Ok _ _ _ _ p first
             (fr_tar_stream_offset first + fe_offset_in_first_frame_plaintext file)) in Hb
      as (h & Hh & Hhi & Hr & Hrun); [|done|lia|unfold frame_end; lia].
    apply bind_Ok in H as (k & Hk & H). apply ok_or_Ok, checked_add_Some in Hk as [_ ->].
    apply bind_Ok in H as (last & Hl & H). apply frame_for_file_Ok in Hl as [Hlin Hli]; [|done].
    apply bind_Ok in H as (m & Hm & H). apply ok_or_Ok, checked_add_Some in Hm as [_ ->].
    apply reject_if_Ok, orb_false_iff in H as [H1 H2].
    destruct (next_frame _ h last Hh Hlin) as [Hq Hqo]; [lia|]. unfold frame_end in *.
    replace (S (p + Z.to_nat (fe_frame_count file - 2))) with (p + Z.to_nat (fe_frame_count file) - 1)%nat in Hq by lia.
    split.
    + intros j Hj. destruct (decide (j < S (Z.to_nat (fe_frame_count file - 2)))%nat) as [Hlt|Hge].
      * destruct (Hrun j Hlt) as (x & Hx & Hxi). exists x. split; [done|lia].
      * exists last. replace (p + j)%nat with (p + Z.to_nat (fe_frame_count file) - 1)%nat by lia. split; [done|lia].
    + exists first, last. unfold frame_end. split_and!; (done || lia).
Qed.
End FrameRange.

(** ** The files *)
Lemma insert_required_frames_Ok n first offset s r :
  insert_required_frames n first offset s = Ok r ->
  forall k, k ∈ r <-> k ∈ s \/ first + offset <= k < first + offset + Z.of_nat n.
Proof.
  revert offset s. induction n as [|n IH]; intros offset s H k; cbn [insert_required_frames] in H.
  { injection H as <-. intuition lia. }
  apply bind_Ok in H as (i & Hi & H). apply ok_or_Ok, checked_add_Some in Hi as [_ ->].
  rewrite (IH _ _ H k), elem_of_union, elem_of_singleton. intuition lia.
Qed.

Section Files.
Context {Sha : Sha256} {U : Unicode}.
Context (frames : list FrameEntry) (string_pool : bytes) (locating_shard : ShardEntry).
Context (limits : MetadataLimits) (Hok : frames_ok frames).

Let frame_by_index := position_by_index fr_frame_index frames.

(** What the checks say of a file, its path and the start of its member. *)
Record file_ok (file : FileEntry) (path : bytes) (start : Z) : Prop := {
  fk_path : path = seg string_pool (fe_path_offset file) (fe_path_offset file + fe_path_length file)
            /\ fe_path_offset file + fe_path_length file <= blen string_pool;
  fk_safe : validate_file_path_bytes path (lim_max_path_length limits) = Ok tt;
  fk_hash : fe_path_hash file = hash_prefix path;
  fk_range : le (se_first_path_hash locating_shard) (fe_path_hash file)
             /\ le (fe_path_hash file) (se_last_path_hash locating_shard);
  fk_count : 0 < fe_frame_count file;
  fk_member : exists p,
    frame_run frames p (Z.to_nat (fe_frame_count file)) (fe_first_frame_index file)
    /\ member_in_run frames p (Z.to_nat (fe_frame_count file)) start (fe_tar_member_group_size file)
}.

Lemma string_slice_Ok pool off len s x :
  0 <= off -> 0 <= len -> string_slice pool off len s = Ok x ->
  x = seg pool off (off + len) /\ off + len <= blen pool.
Proof.
  intros Ho Hl H. unfold string_slice, meta_to_usize in H. ok_inv.
  match goal with H : meta_slice _ _ _ _ = _ |- _ => apply meta_slice_Ok in H as (_ & ? & ->); [|lia..] end. done.
Qed.

Lemma check_file_fields_Ok file :
  FileEntry_typed file -> check_file_fields file locating_shard limits = Ok tt ->
  0 < fe_frame_count file /\ 1536 <= fe_tar_member_group_size file
  /\ le (se_first_path_hash locating_shard) (fe_path_hash file)
  /\ le (fe_path_hash file) (se_last_path_hash locating_shard).
Proof.
  unfold FileEntry_typed, fits. intros HT H. unfold check_file_fields in H. ok_inv.
  rewrite orb_false_iff in *. destruct_and!. unfold le, leb. rewrite !negb_true_iff. split_and!; (done || lia).
Qed.

Lemma validate_file_Ok file required path start required' :
  FileEntry_typed file ->
  validate_file frames string_pool locating_shard limits frame_by_index file required
  = Ok (path, start, required') ->
  file_ok file path start
  /\ forall k, k ∈ required' <-> k ∈ required
       \/ fe_first_frame_index file <= k < fe_first_frame_index file + fe_frame_count file.
Proof.
  intros HT H. unfold validate_file in H.
  apply bind_Ok in H as ([] & Hf & H). apply check_file_fields_Ok in Hf as (Hc & Hsz & Hr); [|done].
  do 3 apply bind_Ok in H as ([] & _ & H). apply bind_Ok in H as (p & Hp & H).
  pose proof HT as HT'. unfold FileEntry_typed, fits in HT'.
  apply string_slice_Ok in Hp; [|lia..]. apply bind_Ok in H as ([] & Hs & H).
  apply bind_Ok in H as ([] & Hh & H). apply reject_if_Ok, negb_false_iff, bytes_eqb_eq in Hh.
  apply bind_Ok in H as (first & Hfirst & H). apply bind_Ok in H as (st & Hst & H).
  apply ok_or_Ok, checked_add_Some in Hst as [_ ->]. apply bind_Ok in H as ([] & Hrange & H).
  apply bind_Ok in H as (r & Hreq & H). rewrite mret_Ok in H. injection H as <- <- <-. split.
  - split; [done|done|by symmetry|done|lia|].
    by apply (validate_file_frame_range_Ok frames Hok file first HT ltac:(lia) ltac:(lia)).
  - intros k. rewrite (insert_required_frames_Ok _ _ _ _ _ Hreq k). intuition lia.
Qed.

Lemma validate_files_Ok files paths starts required paths' starts' required' :
  Forall FileEntry_typed files ->
  validate_files frames string_pool locating_shard limits frame_by_index files paths starts required
  = Ok (paths', starts', required') ->
  exists ps ss, paths' = paths ++ ps /\ starts' = starts ++ ss
    /\ length ps = length files /\ length ss = length files
    /\ (forall i file, files !! i = Some file -> exists path start,
          ps !! i = Some path /\ ss !! i = Some start /\ file_ok file path start)
    /\ (forall k, k ∈ required' <-> k ∈ required \/ exists file, file ∈ files
          /\ fe_first_frame_index file <= k < fe_first_frame_index file + fe_frame_count file).
Proof.
  revert paths starts required. induction files as [|file files IH]; intros paths starts required HT H;
    cbn [validate_files] in H.
  - injection H as <- <- <-. exists [], []. rewrite !app_nil_r. split_and!; try done.
    intros k. split; [by left|]. intros [?|(f & Hf & _)]; [done|]. by apply elem_of_nil in Hf.
  - apply Forall_cons in HT as [HT HTs]. apply bind_Ok in H as ([[path start] req] & Hf & H).
    apply validate_file_Ok in Hf as [Hfile Hreq]; [|done].
    apply IH in H as (ps & ss & -> & -> & Hlp & Hls & Hall & Hset); [|done].
    exists (path :: ps), (start :: ss). rewrite <- !app_assoc. cbn [app length]. split_and!; try done; try lia.
    + intros [|i] f Hi; [injection Hi as <-; by exists path, start|by apply Hall].
    + intros k. rewrite Hset, Hreq. split.
      * intros [[?|?]|(f & Hf & Hk)]; [by left|right; exists file; split; [left|done]|].
        right. exists f. split; [by right|done].
      * intros [?|(f & Hf & Hk)]; [by left; left|].
        apply elem_of_cons in Hf as [->|Hf]; [by left; right|right; by exists f].
Qed.
End Files.

(** ** The envelopes *)
Definition slice_end (f : FrameEntry) : Z := fr_offset_in_envelope f + fr_compressed_size f.

Definition slice_of (f : FrameEntry) : Z * Z * Z := (fr_offset_in_envelope f, slice_end f, fr_frame_index f).

(** A frame lies in its envelope. *)
Definition frame_in_envelope (f : FrameEntry) (e : EnvelopeEntry) : Prop :=
  ee_envelope_index e = fr_envelope_index f
  /\ ee_first_frame_index e <= fr_frame_index f < ee_first_frame_index e + ee_frame_count e
  /\ slice_end f <= ee_plaintext_size e.

Lemma validate_frame_envelope_binding_Ok f e :
  ee_envelope_index e = fr_envelope_index f ->
  validate_frame_envelope_binding f e = Ok tt -> frame_in_envelope f e.
Proof.
  intros Hi H. unfold validate_frame_envelope_binding in H. ok_inv. rewrite orb_false_iff in *.
  unfold frame_in_envelope, slice_end. split_and!; (done || lia).
Qed.

Lemma validate_envelope_table_Ok envelopes limits :
  validate_envelope_table envelopes limits = Ok tt ->
  forall i j e f, (i < j)%nat -> envelopes !! i = Some e -> envelopes !! j = Some f ->
    ee_envelope_index e < ee_envelope_index f.
Proof.
  intros H. unfold validate_envelope_table in H. apply bind_Ok in H as ([] & _ & H).
  rewrite for_windows_Ok in H. apply windows_ascending. intros i e f He Hf.
  pose proof (H i e f He Hf) as Hp. unfold check_envelope_pair in Hp. apply reject_if_Ok in Hp. lia.
Qed.

Lemma validate_bindings_Ok frames envelopes required required' :
  (forall i j e f, (i < j)%nat -> envelopes !! i = Some e -> envelopes !! j = Some f ->
     ee_envelope_index e < ee_envelope_index f) ->
  validate_bindings frames envelopes (position_by_index ee_envelope_index envelopes) required = Ok required' ->
  forall f, f ∈ frames -> exists e, e ∈ envelopes /\ frame_in_envelope f e.
Proof.
  intros Hasc. revert required. induction frames as [|g frames IH]; intros required H f Hf; cbn [validate_bindings] in H.
  { by apply elem_of_nil in Hf. }
  apply bind_Ok in H as (e & He & H). apply bind_Ok in H as ([] & Hb & H).
  apply elem_of_cons in Hf as [->|Hf]; [|by apply (IH _ H)].
  apply ok_or_Ok in He. destruct (position_by_index _ _ !! _) as [p|] eqn:Hp; [|done].
  apply position_by_index_Some in Hp as (x & Hx & Hi); [|done]. rewrite Hx in He. injection He as ->.
  exists e. split; [by apply list_elem_of_lookup_2 with p|]. by apply validate_frame_envelope_binding_Ok.
Qed.

Lemma envelope_slices_Ok frames e slices :
  envelope_slices frames e = Ok slices ->
  slices = map slice_of (filter (fun f => fr_envelope_index f = ee_envelope_index e) frames).
Proof.
  unfold envelope_slices. rewrite map_result_Ok. generalize (filter (fun f => fr_envelope_index f = ee_envelope_index e) frames) as l.
  intros l. revert slices. induction l as [|f l IH]; intros slices H.
  - by apply Forall2_nil_inv_l in H as ->.
  - apply Forall2_cons_inv_l in H as (y & r & Hy & Hr & ->). cbn [map]. f_equal; [|by apply IH].
    apply bind_Ok in Hy as (en & He & Hy). apply ok_or_Ok, checked_add_Some in He as [_ ->].
    rewrite mret_Ok in Hy. by subst.
Qed.

(** Slices in order that do not overlap with their neighbours do not overlap. *)
Lemma slices_disjoint (slices : list (Z * Z * Z)) x y :
  (forall s, s ∈ slices -> s.1.1 <= s.1.2) ->
  (forall i s t, slices !! i = Some s -> slices !! S i = Some t -> s.1.2 <= t.1.1) ->
  x ∈ slices -> y ∈ slices -> x <> y -> x.1.2 <= y.1.1 \/ y.1.2 <= x.1.1.
Proof.
  intros Hle Hw Hx Hy Hne. set (R := fun s t : Z * Z * Z => s.1.2 <= t.1.1 /\ t.1.1 <= t.1.2).
  assert (Transitive R) as HR by (unfold R; intros s t u; lia).
  assert (forall i j s t, (i < j)%nat -> slices !! i = Some s -> slices !! j = Some t -> R s t) as Hall.
  { apply windows_transitive; [done|]. intros i s t Hs Ht. split; [by apply (Hw i)|].
    apply Hle. by apply list_elem_of_lookup_2 with (S i). }
  apply list_elem_of_lookup in Hx as [i Hi], Hy as [j Hj].
  destruct (Nat.lt_trichotomy i j) as [Hlt|[->|Hlt]].
  - left. apply (Hall i j x y Hlt Hi Hj).
  - congruence.
  - right. apply (Hall j i y x Hlt Hj Hi).
Qed.

Lemma validate_envelope_slices_Ok frames e f g :
  (forall f, f ∈ frames -> 0 < fr_compressed_size f) ->
  validate_envelope_slices frames e = Ok tt ->
  f ∈ frames -> g ∈ frames -> fr_envelope_index f = ee_envelope_index e ->
  fr_envelope_index g = ee_envelope_index e -> fr_frame_index f <> fr_frame_index g ->
  slice_end f <= fr_offset_in_envelope g \/ slice_end g <= fr_offset_in_envelope f.
Proof.
  intros Hsz H Hf Hg Hfe Hge Hne. unfold validate_envelope_slices in H.
  apply bind_Ok in H as (slices & Hs & H). apply envelope_slices_Ok in Hs as ->.
  apply bind_Ok in H as ([] & Hw & _). rewrite for_windows_Ok in Hw.
  set (l := map slice_of _) in Hw.
  assert (forall h, h ∈ frames -> fr_envelope_index h = ee_envelope_index e -> slice_of h ∈ sort_by_key slice_key l) as Hin.
  { intros h Hh He. rewrite sort_by_key_perm. apply list_elem_of_In, in_map, list_elem_of_In.
    by apply list_elem_of_filter. }
  apply (slices_disjoint (sort_by_key slice_key l) (slice_of f) (slice_of g)).
  - intros s Hsl. rewrite sort_by_key_perm in Hsl. apply list_elem_of_In, in_map_iff in Hsl as (h & <- & Hh).
    apply list_elem_of_In, list_elem_of_filter in Hh as [_ Hh]. specialize (Hsz h Hh). cbn. unfold slice_end. lia.
  - intros i s t Hi Hj. pose proof (Hw i s t Hi Hj) as Hr. apply reject_if_Ok in Hr. lia.
  - by apply Hin.
  - by apply Hin.
  - unfold slice_of. congruence.
Qed.

Lemma not_exact_set_false {A} (index : A -> Z) l s :
  not_exact_set index l s = false -> forall x, x ∈ l -> index x ∈ s.
Proof.
  unfold not_exact_set. rewrite orb_false_iff. intros [_ H] x Hx. rewrite existsb_Forall in H.
  pose proof (proj1 (Forall_forall _ _) H x Hx) as Hb. cbn in Hb.
  by apply negb_false_iff, bool_decide_eq_true in Hb.
Qed.

(** ** The codec *)
Lemma seg_middle a x c : seg (a ++ x ++ c) (blen a) (blen a + blen x) = x.
Proof.
  pose proof (blen_nonneg x). rewrite seg_app_r by lia. rewrite Z.sub_diag.
  replace (blen a + blen x - blen a) with (blen x) by lia. rewrite seg_app_l by lia. apply seg_full.
Qed.

Lemma parse_counted_table_iff {A} {E : TableEntry A} b structure name count offset cursor (l : list A) c :
  0 <= cursor < 2 ^ 60 -> u32 count ->
  parse_counted_table b structure name count offset cursor = Ok (l, c)
  <-> offset = (if count =? 0 then 0 else cursor) /\ c = cursor + count * entry_len (A := A)
      /\ Z.of_nat (length l) = count /\ (l = [] \/ c <= blen b) /\ Forall entry_valid l
      /\ concat (map entry_encode l) = seg b cursor c.
Proof.
  unfold fits. intros Hc Hn. pose proof (entry_len_pos (A := A)) as Hp.
  unfold parse_counted_table, expect_offset, meta_to_usize, meta_checked_mul, meta_checked_add.
  destruct (Z.eqb_spec count 0) as [->|E0].
  - rewrite Z.mul_0_l, Z.add_0_r. split.
    + intros H. ok_inv. rewrite negb_false_iff, seg_nil in *. split_and!; try done; [lia|by left].
    + intros (-> & -> & Hl & _). apply length_zero in Hl as ->. done.
  - rewrite (ok_or_eq _ count) by (apply try_from_Some; unfold fits; lia).
    assert (0 <= count * entry_len (A := A) < 2 ^ 48) as Hm48 by nia.
    assert (checked_add 64 cursor (count * entry_len (A := A)) = Some (cursor + count * entry_len (A := A))) as Ha
      by (apply checked_add_eq; lia).
    assert (checked_mul 64 count (entry_len (A := A)) = Some (count * entry_len)) as Hm
      by (unfold checked_mul; rewrite (proj2 (Z.ltb_lt _ _)); [done|nia]).
    split.
    + intros H. apply bind_Ok in H as ([] & Ho & H). apply reject_if_Ok, negb_false_iff, Z.eqb_eq in Ho.
      rewrite bind_ret, Hm in H. cbn [ok_or] in H. rewrite bind_ret in H.
      apply bind_Ok in H as (t & Ht & H). apply meta_slice_Ok in Ht as (_ & Hle & ->); [|nia..].
      rewrite Ha in H. cbn [ok_or] in H. rewrite bind_ret in H.
      apply bind_Ok in H as (l' & Hl & H). rewrite mret_Ok in H. injection H as -> <-.
      apply (table_iff _ (Z.to_nat count)) in Hl as (Hv & Hb & Hlen); [|rewrite blen_seg; nia].
      split_and!; (done || lia || by right).
    + intros (-> & -> & Hl & Hb & Hv & Hcc). rewrite Z.eqb_refl. cbn [negb reject_if]. rewrite !bind_ret, Hm.
      cbn [ok_or]. rewrite bind_ret. destruct Hb as [->|Hb]; [by cbn in Hl|].
      rewrite meta_slice_eq, bind_ret by nia. rewrite Ha. cbn [ok_or]. rewrite bind_ret.
      apply bind_Ok. exists l. split; [|done].
      apply (table_iff _ (Z.to_nat count)); [rewrite blen_seg; nia|]. split_and!; (done || lia).
Qed.

Lemma parse_string_pool_iff b header cursor p c :
  0 <= cursor < 2 ^ 60 -> u32 (is_string_pool_size header) ->
  parse_string_pool b header cursor = Ok (p, c)
  <-> is_string_pool_offset header = (if is_string_pool_size header =? 0 then 0 else cursor)
      /\ c = cursor + is_string_pool_size header
      /\ (is_string_pool_size header = 0 \/ c <= blen b) /\ p = seg b cursor c.
Proof.
  unfold fits. intros Hc Hn. unfold parse_string_pool, expect_offset, meta_checked_add. cbv zeta.
  destruct (Z.eqb_spec (is_string_pool_size header) 0) as [E|E].
  - rewrite E, Z.add_0_r. split.
    + intros H. ok_inv. rewrite negb_false_iff, seg_nil in *. split_and!; (done || lia).
    + intros (-> & -> & _ & ->). by rewrite seg_nil.
  - rewrite (ok_or_eq _ (cursor + is_string_pool_size header)) by (apply checked_add_eq; lia). split.
    + intros H. ok_inv. rewrite negb_false_iff in *.
      match goal with H : meta_slice _ _ _ _ = _ |- _ => apply meta_slice_Ok in H as (_ & ? & ->); [|lia..] end.
      split_and!; try done; lia.
    + intros (-> & -> & Hb & ->). rewrite Z.eqb_refl. cbn [negb reject_if]. rewrite bind_ret.
      rewrite meta_slice_eq, !bind_ret by lia. done.
Qed.

#[local] Ltac unfold_consts ::= unfold INDEX_SHARD_HEADER_LEN in *.

Definition IndexShardHeader_typed (h : IndexShardHeader) : Prop :=
  u32 (is_version h) /\ u64 (is_shard_index h) /\ u32 (is_file_count h) /\ u32 (is_frame_count h)
  /\ u32 (is_envelope_count h) /\ u32 (is_file_table_offset h) /\ u32 (is_frame_table_offset h)
  /\ u32 (is_envelope_table_offset h) /\ u32 (is_string_pool_offset h) /\ u32 (is_string_pool_size h).

Lemma blen_TZIS : blen TZIS_MAGIC = 4. Proof. done. Qed.
#[global] Arguments TZIS_MAGIC : simpl never.
#[export] Hint Rewrite blen_TZIS : wire_len.

Lemma read_index_shard_header_iff b h :
  INDEX_SHARD_HEADER_LEN <= blen b ->
  read_index_shard_header b = Ok h /\ seg b 0 4 = TZIS_MAGIC /\ seg b 48 64 = zeros 16
  <-> IndexShardHeader_typed h /\ IndexShardHeader_to_bytes h = seg b 0 INDEX_SHARD_HEADER_LEN.
Proof.
  unfold INDEX_SHARD_HEADER_LEN. intros Hb.
  assert (read_index_shard_header b = read_index_shard_header (seg b 0 64)) as ->.
  { unfold read_index_shard_header. cbv zeta.
    repeat lazymatch goal with |- mbind _ _ = mbind _ _ => apply bind_cong; [|intros ?] end; try done;
      unfold meta_read_u32, meta_read_u64, meta_read_array; rewrite (meta_slice_prefix b 64) by lia; done. }
  assert (seg b 0 4 = seg (seg b 0 64) 0 4) as -> by (by rewrite seg_seg by lia).
  assert (seg b 48 64 = seg (seg b 0 64) 48 64) as -> by (by rewrite seg_seg by lia).
  assert (blen (seg b 0 64) = 64) as Hl by (rewrite blen_seg; lia).
  generalize dependent (seg b 0 64). clear Hb b. intros b Hl. unfold IndexShardHeader_typed. split.
  - intros (H & Hm & Hz). unfold read_index_shard_header in H. bind_inv H. subst h.
    meta_facts. wire_encoded IndexShardHeader_to_bytes.
  - intros [HT H]. destruct h. cbn in HT. destruct_and!. unfold IndexShardHeader_to_bytes in H.
    unfold INDEX_SHARD_HEADER_LEN in H. wire_segments H. split_and!; try done.
    unfold read_index_shard_header. by meta_run.
Qed.

Lemma blen_IndexShardHeader h :
  IndexShardHeader_typed h -> blen (IndexShardHeader_to_bytes h) = INDEX_SHARD_HEADER_LEN.
Proof.
  intros HT. unfold IndexShardHeader_typed in HT. destruct_and!.
  unfold IndexShardHeader_to_bytes, INDEX_SHARD_HEADER_LEN. apply blen_puts. by layout_done.
Qed.

(** ** Valid shards *)
Definition frame_cursor (s : IndexShard) : Z :=
  INDEX_SHARD_HEADER_LEN + is_file_count (sh_header s) * FILE_ENTRY_LEN.
Definition envelope_cursor (s : IndexShard) : Z :=
  frame_cursor s + is_frame_count (sh_header s) * FRAME_ENTRY_LEN.
Definition pool_cursor (s : IndexShard) : Z :=
  envelope_cursor s + is_envelope_count (sh_header s) * ENVELOPE_ENTRY_LEN.

Section Valid.
Context {Sha : Sha256} {U : Unicode}.

(** What a shard satisfies that the reader accepts. *)
Record IndexShard_valid (locating_shard : ShardEntry) (limits : MetadataLimits) (s : IndexShard)
    : Prop := {
  sv_typed : IndexShardHeader_typed (sh_header s);
  sv_version : is_version (sh_header s) = INDEX_SHARD_VERSION;
  sv_files : is_file_count (sh_header s) = Z.of_nat (length (sh_files s));
  sv_frames : is_frame_count (sh_header s) = Z.of_nat (length (sh_frames s));
  sv_envelopes : is_envelope_count (sh_header s) = Z.of_nat (length (sh_envelopes s));
  sv_pool : is_string_pool_size (sh_header s) = blen (sh_string_pool s);
  sv_some : is_file_count (sh_header s) <> 0;
  sv_cap : is_file_count (sh_header s) <= lim_max_files_per_index_shard limits;
  sv_index : is_shard_index (sh_header s) = se_shard_index locating_shard;
  sv_located : is_file_count (sh_header s) = se_file_count locating_shard;
  sv_file_offset : is_file_table_offset (sh_header s) = INDEX_SHARD_HEADER_LEN;
  sv_frame_offset : is_frame_table_offset (sh_header s)
    = if is_frame_count (sh_header s) =? 0 then 0 else frame_cursor s;
  sv_envelope_offset : is_envelope_table_offset (sh_header s)
    = if is_envelope_count (sh_header s) =? 0 then 0 else envelope_cursor s;
  sv_pool_offset : is_string_pool_offset (sh_header s)
    = if is_string_pool_size (sh_header s) =? 0 then 0 else pool_cursor s;
  sv_entries : Forall FileEntry_typed (sh_files s) /\ Forall FrameEntry_typed (sh_frames s)
               /\ Forall EnvelopeEntry_typed (sh_envelopes s);
  sv_tables : validate_index_shard_tables (sh_files s) (sh_frames s) (sh_envelopes s)
                (sh_string_pool s) locating_shard limits
              = Ok (sh_file_paths s, sh_file_tar_member_group_starts s)
}.

Lemma table_offset_eq n cursor o :
  u32 o -> o = (if n =? 0 then 0 else cursor) -> table_offset n cursor = o.
Proof.
  unfold table_offset, fits. intros Hu ->. destruct (n =? 0); [done|]. by rewrite Z.mod_small by lia.
Qed.

Lemma canonical_shard_header_eq locating_shard limits s :
  IndexShard_valid locating_shard limits s -> canonical_shard_header s = sh_header s.
Proof.
  intros []. unfold canonical_shard_header. rewrite <- sv_files0, <- sv_frames0, <- sv_envelopes0, <- sv_pool0.
  unfold frame_cursor, envelope_cursor, pool_cursor in *. pose proof sv_typed0 as HT.
  unfold IndexShardHeader_typed in HT. destruct_and!. cbv zeta.
  rewrite (table_offset_eq _ _ (is_file_table_offset (sh_header s)))
    by (done || rewrite (proj2 (Z.eqb_neq _ _)) by done; done).
  rewrite (table_offset_eq _ _ (is_frame_table_offset (sh_header s))) by done.
  rewrite (table_offset_eq _ _ (is_envelope_table_offset (sh_header s))) by done.
  rewrite (table_offset_eq _ _ (is_string_pool_offset (sh_header s))) by done.
  unfold fits in *. rewrite !Z.mod_small by lia. by destruct (sh_header s).
Qed.
End Valid.

(** A table between other bytes. *)
Lemma parse_counted_table_app {A} {E : TableEntry A} pre post structure name count offset (l : list A) :
  Forall entry_valid l -> count = Z.of_nat (length l) -> u32 count -> blen pre < 2 ^ 60 ->
  offset = (if count =? 0 then 0 else blen pre) ->
  parse_counted_table (pre ++ concat (map entry_encode l) ++ post) structure name count offset (blen pre)
  = Ok (l, blen (pre ++ concat (map entry_encode l))).
Proof.
  intros Hv -> Hn Hpre ->. pose proof (blen_nonneg pre). pose proof (blen_nonneg post).
  pose proof (table_blen l Hv) as Hb.
  apply parse_counted_table_iff; [lia|done|]. split_and!; try done.
  - rewrite blen_app. lia.
  - right. rewrite !blen_app. lia.
  - by rewrite blen_app, seg_middle.
Qed.

Lemma parse_string_pool_app pre header pool :
  is_string_pool_size header = blen pool -> u32 (blen pool) -> blen pre < 2 ^ 60 ->
  is_string_pool_offset header = (if is_string_pool_size header =? 0 then 0 else blen pre) ->
  parse_string_pool (pre ++ pool) header (blen pre) = Ok (pool, blen (pre ++ pool)).
Proof.
  intros Hn Hu Hpre Ho. pose proof (blen_nonneg pre). apply parse_string_pool_iff; [lia|by rewrite Hn|].
  rewrite Hn in *. split_and!; [done|by rewrite blen_app|right; rewrite blen_app; lia|].
  pose proof (seg_middle pre pool []) as Hs. rewrite app_nil_r in Hs. by rewrite blen_app, Hs.
Qed.

Section Codec.
Context {Sha : Sha256} {U : Unicode}.

Lemma IndexShard_parse_sound b locating_shard limits s :
  IndexShard_parse b locating_shard limits = Ok s ->
  IndexShard_valid locating_shard limits s /\ IndexShard_to_bytes s = b.
Proof.
  unfold IndexShard_parse. cbv zeta.
  intros H. apply bind_Ok in H as ([] & Hl & H). apply reject_if_Ok, Z.ltb_ge in Hl.
  unfold INDEX_SHARD_HEADER_LEN in Hl. rewrite meta_read_array_eq, bind_ret in H by lia.
  apply bind_Ok in H as ([] & Hm & H). apply expect_magic_Ok in Hm.
  rewrite meta_slice_eq, bind_ret in H by lia. apply bind_Ok in H as ([] & Hz & H).
  apply expect_zero_Ok in Hz. rewrite blen_seg in Hz by lia. change (48 + 16 - 48) with 16 in Hz.
  apply bind_Ok in H as (h & Hh & H).
  destruct (proj1 (read_index_shard_header_iff b h Hl) (conj Hh (conj Hm Hz))) as [HT Hbytes].
  do 5 (apply bind_Ok in H as ([] & ?R & H)).
  apply bind_Ok in H as ([files c1] & H1 & H). apply bind_Ok in H as ([frames c2] & H2 & H).
  apply bind_Ok in H as ([envelopes c3] & H3 & H). apply bind_Ok in H as ([pool c4] & H4 & H).
  apply bind_Ok in H as ([] & H5 & H). apply bind_Ok in H as ([paths starts] & H6 & H). apply mret_Ok in H as <-.
  apply reject_if_Ok in H5, R, R0, R1, R2, R3. rewrite negb_false_iff in *.
  pose proof HT as HT'. unfold IndexShardHeader_typed, fits in HT'. destruct_and!.
  unfold fits in *. unfold INDEX_SHARD_HEADER_LEN in *.
  apply parse_counted_table_iff in H1 as (Ho1 & -> & Hn1 & _ & Hv1 & Hb1); [|unfold fits; lia..].
  cbn [entry_len FileEntry_table FrameEntry_table EnvelopeEntry_table] in *.
  unfold FILE_ENTRY_LEN, FRAME_ENTRY_LEN, ENVELOPE_ENTRY_LEN in *.
  apply parse_counted_table_iff in H2 as (Ho2 & -> & Hn2 & _ & Hv2 & Hb2); [|unfold fits; lia..].
  cbn [entry_len FileEntry_table FrameEntry_table EnvelopeEntry_table] in *.
  unfold FILE_ENTRY_LEN, FRAME_ENTRY_LEN, ENVELOPE_ENTRY_LEN in *.
  apply parse_counted_table_iff in H3 as (Ho3 & -> & Hn3 & _ & Hv3 & Hb3); [|unfold fits; lia..].
  cbn [entry_len FileEntry_table FrameEntry_table EnvelopeEntry_table] in *.
  unfold FILE_ENTRY_LEN, FRAME_ENTRY_LEN, ENVELOPE_ENTRY_LEN in *.
  apply parse_string_pool_iff in H4 as (Ho4 & -> & _ & ->); [|unfold fits; lia..].
  apply Z.eqb_eq in H5.
  match goal with |- IndexShard_valid _ _ ?s /\ _ => set (s0 := s) end.
  assert (IndexShard_valid locating_shard limits s0) as Hvalid.
  { unfold s0. constructor; cbn; unfold pool_cursor, envelope_cursor, frame_cursor, INDEX_SHARD_HEADER_LEN,
      FILE_ENTRY_LEN, FRAME_ENTRY_LEN, ENVELOPE_ENTRY_LEN; try done; try lia.
    - rewrite blen_seg by lia. lia.
    - rewrite Ho1. by rewrite R0. }
  split; [done|]. unfold IndexShard_to_bytes. rewrite (canonical_shard_header_eq _ _ _ Hvalid). unfold s0.
  cbn [sh_header sh_files sh_frames sh_envelopes sh_string_pool]. rewrite Hbytes.
  cbn [entry_encode FileEntry_table FrameEntry_table EnvelopeEntry_table] in *. rewrite Hb1, Hb2, Hb3.
  rewrite <- !seg_split by lia. rewrite <- H5. apply seg_full.
Qed.

Lemma IndexShard_parse_complete locating_shard limits s :
  IndexShard_valid locating_shard limits s ->
  IndexShard_parse (IndexShard_to_bytes s) locating_shard limits = Ok s.
Proof.
  intros Hvalid. pose proof Hvalid as []. unfold IndexShard_to_bytes.
  rewrite (canonical_shard_header_eq _ _ _ Hvalid). pose proof (blen_IndexShardHeader _ sv_typed0) as Hbl.
  destruct sv_entries0 as (Hv1 & Hv2 & Hv3).
  set (hb := IndexShardHeader_to_bytes (sh_header s)) in *.
  pose proof (table_blen (A := FileEntry) _ Hv1) as Hb1. pose proof (table_blen (A := FrameEntry) _ Hv2) as Hb2.
  pose proof (table_blen (A := EnvelopeEntry) _ Hv3) as Hb3.
  cbn [entry_len entry_encode FileEntry_table FrameEntry_table EnvelopeEntry_table] in *.
  set (t1 := concat (map FileEntry_to_bytes _)) in *. set (t2 := concat (map FrameEntry_to_bytes _)) in *.
  set (t3 := concat (map EnvelopeEntry_to_bytes _)) in *. set (pool := sh_string_pool s) in *.
  pose proof sv_typed0 as HT. unfold IndexShardHeader_typed in HT. destruct_and!.
  unfold pool_cursor, envelope_cursor, frame_cursor, INDEX_SHARD_HEADER_LEN, FILE_ENTRY_LEN, FRAME_ENTRY_LEN,
    ENVELOPE_ENTRY_LEN, fits in *.
  rewrite <- sv_files0 in Hb1. rewrite <- sv_frames0 in Hb2. rewrite <- sv_envelopes0 in Hb3.
  unfold IndexShard_parse. cbv zeta. set (b := hb ++ t1 ++ t2 ++ t3 ++ pool).
  pose proof (blen_nonneg pool).
  assert (blen b = 64 + blen t1 + blen t2 + blen t3 + blen pool) as Hlen by (unfold b; rewrite !blen_app; lia).
  assert (seg b 0 64 = hb) as Hs0 by (unfold b; rewrite seg_app_l by lia; rewrite <- Hbl; apply seg_full).
  destruct (proj2 (read_index_shard_header_iff b (sh_header s) ltac:(unfold INDEX_SHARD_HEADER_LEN; lia)))
    as (Hread & Hm & Hz); [split; [done|]; unfold INDEX_SHARD_HEADER_LEN; by rewrite Hs0|].
  rewrite (proj2 (Z.ltb_ge _ _)) by (unfold INDEX_SHARD_HEADER_LEN; lia). cbn [reject_if]. rewrite bind_ret.
  rewrite meta_read_array_eq, bind_ret by lia. rewrite (proj2 (expect_magic_Ok _ _ _ tt)), bind_ret by done.
  rewrite meta_slice_eq, bind_ret by lia. rewrite (expect_zero_eq _ _ 16), bind_ret by (done || lia).
  rewrite Hread, bind_ret, sv_version0, Z.eqb_refl. cbn [negb reject_if]. rewrite bind_ret.
  rewrite (proj2 (Z.eqb_neq _ _) sv_some0), (proj2 (Z.ltb_ge _ _) sv_cap0). cbn [reject_if]. rewrite !bind_ret.
  rewrite sv_index0, sv_located0, !Z.eqb_refl. cbn [negb reject_if]. rewrite !bind_ret, <- sv_located0.
  change INDEX_SHARD_HEADER_LEN with 64.
  pose proof (parse_counted_table_app (A := FileEntry) hb (t2 ++ t3 ++ pool) "IndexShard" "file table"
    (is_file_count (sh_header s)) (is_file_table_offset (sh_header s)) (sh_files s)) as P1.
  pose proof (parse_counted_table_app (A := FrameEntry) (hb ++ t1) (t3 ++ pool) "IndexShard" "frame table"
    (is_frame_count (sh_header s)) (is_frame_table_offset (sh_header s)) (sh_frames s)) as P2.
  pose proof (parse_counted_table_app (A := EnvelopeEntry) ((hb ++ t1) ++ t2) pool "IndexShard" "envelope table"
    (is_envelope_count (sh_header s)) (is_envelope_table_offset (sh_header s)) (sh_envelopes s)) as P3.
  cbn [entry_encode FileEntry_table FrameEntry_table EnvelopeEntry_table] in P1, P2, P3.
  fold t1 in P1. fold t2 in P2. fold t3 in P3. rewrite Hbl in P1.
  assert (b = (hb ++ t1) ++ t2 ++ t3 ++ pool) as E2 by (unfold b; by rewrite <- !app_assoc).
  assert (b = ((hb ++ t1) ++ t2) ++ t3 ++ pool) as E3 by (unfold b; by rewrite <- !app_assoc).
  assert (b = (((hb ++ t1) ++ t2) ++ t3) ++ pool) as E4 by (unfold b; by rewrite <- !app_assoc).
  fold b in P1. rewrite <- E2 in P2. rewrite <- E3 in P3.
  assert (u32 (blen pool)) as Hup by (unfold fits; lia).
  pose proof (parse_string_pool_app (((hb ++ t1) ++ t2) ++ t3) (sh_header s) pool sv_pool0 Hup) as P4.
  rewrite <- E4 in P4.
  rewrite P1, bind_ret; [|done|done|done|lia|by rewrite (proj2 (Z.eqb_neq _ _) sv_some0)].
  rewrite P2, bind_ret;
    [|done|done|done|rewrite !blen_app; lia|by rewrite sv_frame_offset0, blen_app, Hbl, Hb1].
  rewrite P3, bind_ret; [|done|done|done|rewrite !blen_app; lia|].
  2: { rewrite sv_envelope_offset0, !blen_app, Hbl, Hb1, Hb2. done. }
  rewrite P4, bind_ret; [|rewrite !blen_app; lia|].
  2: { rewrite sv_pool_offset0, !blen_app, Hbl, Hb1, Hb2, Hb3. done. }
  rewrite E4, Z.eqb_refl. cbn [negb reject_if]. rewrite bind_ret.
  fold pool in sv_tables0. rewrite sv_tables0, bind_ret. by destruct s.
Qed.
End Codec.

(** ** No panics *)
Lemma parse_counted_table_no_panic {A} {E : TableEntry A} b s n count offset cursor :
  (forall b : bytes, entry_decode (A := A) b <> Panic) ->
  parse_counted_table (A := A) b s n count offset cursor <> Panic.
Proof.
  intros H. unfold parse_counted_table. no_panic. apply map_result_no_panic. auto.
Qed.

Lemma parse_file_entry_no_panic b : parse_file_entry b <> Panic.
Proof. unfold parse_file_entry. no_panic. Qed.

Lemma parse_frame_entry_no_panic b : parse_frame_entry b <> Panic.
Proof. unfold parse_frame_entry. no_panic. Qed.

Lemma parse_envelope_entry_no_panic b : parse_envelope_entry b <> Panic.
Proof. unfold parse_envelope_entry. no_panic. Qed.

Lemma read_index_shard_header_no_panic b : read_index_shard_header b <> Panic.
Proof. unfold read_index_shard_header. no_panic. Qed.

Lemma parse_string_pool_no_panic b h c : parse_string_pool b h c <> Panic.
Proof. unfold parse_string_pool. no_panic. Qed.

#[local] Hint Resolve read_index_shard_header_no_panic parse_string_pool_no_panic : no_panic.

Section NoPanic.
Context {Sha : Sha256} {U : Unicode}.

#[local] Hint Resolve validate_file_path_bytes_no_panic : no_panic.

Lemma validate_frame_table_no_panic frames : validate_frame_table frames <> Panic.
Proof.
  unfold validate_frame_table. apply bind_no_panic; [apply for_each_no_panic|intros _ _; apply for_windows_no_panic].
  - intros f. unfold check_frame. no_panic.
  - intros f g. unfold check_frame_pair. no_panic.
Qed.

Lemma validate_envelope_table_no_panic envelopes limits : validate_envelope_table envelopes limits <> Panic.
Proof.
  unfold validate_envelope_table. apply bind_no_panic; [apply for_each_no_panic|intros _ _; apply for_windows_no_panic].
  - intros e. unfold check_envelope. no_panic; auto with no_panic.
  - intros e f. unfold check_envelope_pair. no_panic.
Qed.

Lemma frame_for_file_no_panic m frames k : frame_for_file m frames k <> Panic.
Proof. apply ok_or_no_panic. Qed.

Lemma sum_middle_frames_no_panic n file m frames o acc : sum_middle_frames n file m frames o acc <> Panic.
Proof.
  revert o acc. induction n as [|n IH]; intros o acc; cbn [sum_middle_frames]; [done|].
  apply bind_no_panic; [apply ok_or_no_panic|intros ? _].
  apply bind_no_panic; [apply frame_for_file_no_panic|intros ? _].
  apply bind_no_panic; [apply ok_or_no_panic|intros ? _]. apply IH.
Qed.
#[local] Hint Resolve frame_for_file_no_panic sum_middle_frames_no_panic : no_panic.

Lemma validate_file_frame_range_no_panic file frames m : validate_file_frame_range file frames m <> Panic.
Proof. unfold validate_file_frame_range. no_panic; auto with no_panic. Qed.

Lemma check_file_string_no_panic p o l r : check_file_string p o l r <> Panic.
Proof. unfold check_file_string. no_panic; auto with no_panic. Qed.

Lemma check_file_fields_no_panic f s l : check_file_fields f s l <> Panic.
Proof. unfold check_file_fields. no_panic; auto with no_panic. Qed.

Lemma insert_required_frames_no_panic n f o s : insert_required_frames n f o s <> Panic.
Proof.
  revert o s. induction n as [|n IH]; intros o s; cbn [insert_required_frames]; [done|].
  apply bind_no_panic; [apply ok_or_no_panic|intros ? _]. apply IH.
Qed.
#[local] Hint Resolve validate_file_frame_range_no_panic check_file_string_no_panic check_file_fields_no_panic
  insert_required_frames_no_panic validate_frame_table_no_panic validate_envelope_table_no_panic : no_panic.

Lemma validate_file_no_panic frames pool sh limits m file req :
  validate_file frames pool sh limits m file req <> Panic.
Proof. unfold validate_file. no_panic; auto with no_panic. Qed.

Lemma validate_files_no_panic frames pool sh limits m files ps ss req :
  validate_files frames pool sh limits m files ps ss req <> Panic.
Proof.
  revert ps ss req. induction files as [|f files IH]; intros ps ss req; cbn [validate_files]; [done|].
  apply bind_no_panic; [apply validate_file_no_panic|]. intros [[p s] r] _. apply IH.
Qed.

Lemma validate_file_order_no_panic files ps ss : validate_file_order files ps ss <> Panic.
Proof. apply for_windows_no_panic. intros. apply reject_if_no_panic; auto with no_panic. Qed.

Lemma validate_bindings_no_panic frames envelopes m req : validate_bindings frames envelopes m req <> Panic.
Proof.
  revert req. induction frames as [|f frames IH]; intros req; cbn [validate_bindings]; [done|].
  apply bind_no_panic; [apply ok_or_no_panic|intros e _].
  apply bind_no_panic; [unfold validate_frame_envelope_binding; no_panic|intros _ _]. apply IH.
Qed.

Lemma check_packed_no_panic l c : check_packed l c <> Panic.
Proof.
  revert c. induction l as [|[[s e] i] l IH]; intros c; cbn [check_packed]; [done|].
  apply bind_no_panic; [apply reject_if_no_panic|auto].
Qed.

Lemma validate_envelope_slices_no_panic frames e : validate_envelope_slices frames e <> Panic.
Proof.
  unfold validate_envelope_slices. apply bind_no_panic.
  { unfold envelope_slices. apply map_result_no_panic. intros f _. no_panic. }
  intros slices _. cbv zeta. apply bind_no_panic.
  { apply for_windows_no_panic. intros. apply reject_if_no_panic. }
  intros _ _. destruct (contains_frames _ _ _ _); [|done].
  apply bind_no_panic; [apply check_packed_no_panic|]. intros. apply reject_if_no_panic.
Qed.
#[local] Hint Resolve validate_files_no_panic validate_file_order_no_panic validate_bindings_no_panic : no_panic.

Lemma validate_index_shard_tables_no_panic files frames envelopes pool sh limits :
  validate_index_shard_tables files frames envelopes pool sh limits <> Panic.
Proof.
  unfold validate_index_shard_tables. cbv zeta.
  do 2 (apply bind_no_panic; [auto with no_panic|intros _ _]).
  apply bind_no_panic; [auto with no_panic|]. intros [[ps ss] req] _.
  do 2 (apply bind_no_panic; [auto with no_panic|intros _ _]).
  apply bind_no_panic; [auto with no_panic|intros ? _].
  apply bind_no_panic; [auto with no_panic|intros _ _].
  apply bind_no_panic; [apply for_each_no_panic, validate_envelope_slices_no_panic|intros _ _].
  destruct (head files), (last files); no_panic.
Qed.
#[local] Hint Resolve validate_index_shard_tables_no_panic : no_panic.

Lemma IndexShard_parse_no_panic b sh limits : IndexShard_parse b sh limits <> Panic.
Proof.
  unfold IndexShard_parse. cbv zeta.
  repeat first
    [ apply bind_no_panic;
      [ solve [ auto with no_panic
              | apply parse_counted_table_no_panic;
                first [apply parse_file_entry_no_panic|apply parse_frame_entry_no_panic
                      |apply parse_envelope_entry_no_panic] ]
      | intros ? _ ]
    | match goal with |- (let '(_, _) := ?x in _) <> Panic => destruct x end ].
  done.
Qed.
End NoPanic.

(** ** Accepted shards *)
Section Accepted.
Context {Sha : Sha256} {U : Unicode}.
Context (locating_shard : ShardEntry) (limits : MetadataLimits).

(** What the checks between the tables leave. *)
Record tables_ok (s : IndexShard) : Prop := {
  to_frames : frames_ok (sh_frames s);
  to_paths : length (sh_file_paths s) = length (sh_files s);
  to_starts : length (sh_file_tar_member_group_starts s) = length (sh_files s);
  to_file : forall i file, sh_files s !! i = Some file -> exists path start,
    sh_file_paths s !! i = Some path /\ sh_file_tar_member_group_starts s !! i = Some start
    /\ file_ok (sh_frames s) (sh_string_pool s) locating_shard limits file path start;
  to_used : forall f, f ∈ sh_frames s -> exists file, file ∈ sh_files s
    /\ fe_first_frame_index file <= fr_frame_index f < fe_first_frame_index file + fe_frame_count file;
  to_order : validate_file_order (sh_files s) (sh_file_paths s) (sh_file_tar_member_group_starts s) = Ok tt;
  to_bound : forall f, f ∈ sh_frames s -> exists e, e ∈ sh_envelopes s /\ frame_in_envelope f e;
  to_slices : forall e, e ∈ sh_envelopes s -> validate_envelope_slices (sh_frames s) e = Ok tt;
  to_envelopes : forall i j e f, (i < j)%nat -> sh_envelopes s !! i = Some e -> sh_envelopes s !! j = Some f ->
    ee_envelope_index e < ee_envelope_index f
}.

Lemma IndexShard_tables_ok s : IndexShard_valid locating_shard limits s -> tables_ok s.
Proof.
  intros []. destruct sv_entries0 as (Hv1 & Hv2 & _). revert sv_tables0. unfold validate_index_shard_tables.
  cbv zeta. intros H. apply bind_Ok in H as ([] & Hf & H). apply validate_frame_table_Ok in Hf; [|done].
  apply bind_Ok in H as ([] & He & H). pose proof (validate_envelope_table_Ok _ _ He) as Hasc.
  apply bind_Ok in H as ([[paths starts] required] & Hfiles & H).
  apply validate_files_Ok in Hfiles as (ps & ss & -> & -> & Hlp & Hls & Hall & Hset); [|done..].
  apply bind_Ok in H as ([] & Ho & H). apply bind_Ok in H as ([] & Hex & H). apply reject_if_Ok in Hex.
  apply bind_Ok in H as (envs & Hb & H). apply bind_Ok in H as ([] & _ & H).
  apply bind_Ok in H as ([] & Hsl & H). do 2 apply bind_Ok in H as ([] & _ & H).
  rewrite mret_Ok in H. cbn [app] in H. injection H as Hp Hs.
  subst ps ss. split; try done.
  - intros f Hin. apply (not_exact_set_false _ _ _ Hex), Hset in Hin as [Hin|?]; [|done].
    by apply not_elem_of_empty in Hin.
  - by apply (validate_bindings_Ok _ _ _ _ Hasc Hb).
  - unfold validate_frame_slices_by_envelope in Hsl. rewrite for_each_Ok in Hsl.
    by apply Forall_forall.
Qed.
End Accepted.

(** ** Lookup *)
Lemma file_keys_lookup files paths starts i h p t :
  file_keys files paths starts !! i = Some (h, p, t)
  <-> (exists file, files !! i = Some file /\ fe_path_hash file = h)
      /\ paths !! i = Some p /\ starts !! i = Some t.
Proof.
  revert paths starts i. induction files as [|f files IH]; intros [|q paths] [|u starts] i; cbn [file_keys].
  1-4: split; [by rewrite lookup_nil|intros ((x & Hx & _) & _); by rewrite lookup_nil in Hx].
  1-3: split; [by rewrite lookup_nil|intros (_ & H1 & H2); rewrite ?lookup_nil in *; done].
  destruct i as [|i]; [|exact (IH paths starts i)]. cbn. split.
  - intros [= <- <- <-]. split_and!; try done. by exists f.
  - intros ((x & [= <-] & <-) & [= <-] & [= <-]). done.
Qed.

Lemma validate_file_order_Ok files paths starts :
  validate_file_order files paths starts = Ok tt ->
  forall i j x y, (i < j)%nat -> file_keys files paths starts !! i = Some x ->
    file_keys files paths starts !! j = Some y -> lt x y.
Proof.
  unfold validate_file_order. rewrite for_windows_Ok. intros H. apply windows_transitive; [apply _|].
  intros i x y Hx Hy. pose proof (H i x y Hx Hy) as Hr. apply reject_if_Ok in Hr.
  unfold lt. unfold leb in Hr. by apply negb_false_iff in Hr.
Qed.

Lemma lt_pair {A B} `{Ord A, Ord B} (a a' : A) (b b' : B) :
  lt (a, b) (a', b') <-> lt a a' \/ a = a' /\ lt b b'.
Proof.
  unfold lt. rewrite !ltb_lt. change (cmp (a, b) (a', b')) with (then_cmp (cmp a a') (cmp b b')).
  by rewrite then_Lt, cmp_eq.
Qed.

Section LookupCorrect.
Context {Sha : Sha256} {U : Unicode}.
Context (locating_shard : ShardEntry) (limits : MetadataLimits) (s : IndexShard).
Context (Hok : tables_ok locating_shard limits s).
Context (target_hash target_path : bytes).

Let key (i : nat) : option (bytes * bytes * Z) :=
  file_keys (sh_files s) (sh_file_paths s) (sh_file_tar_member_group_starts s) !! i.

Lemma key_exists i : (i < length (sh_files s))%nat -> exists h p t, key i = Some (h, p, t).
Proof.
  intros Hi. destruct Hok. destruct (lookup_lt_is_Some_2 (sh_files s) i Hi) as [f Hf].
  destruct (to_file0 i f Hf) as (p & t & Hp & Ht & _).
  exists (fe_path_hash f), p, t. apply file_keys_lookup. split_and!; try done. by exists f.
Qed.

Lemma key_Some i h p t :
  key i = Some (h, p, t) ->
  exists f, sh_files s !! i = Some f /\ fe_path_hash f = h /\ sh_file_paths s !! i = Some p
            /\ sh_file_tar_member_group_starts s !! i = Some t.
Proof. intros H. apply file_keys_lookup in H as ((f & ? & ?) & ? & ?). eauto 6. Qed.

Lemma key_lt i j x y : (i < j)%nat -> key i = Some x -> key j = Some y -> lt x y.
Proof. apply validate_file_order_Ok, to_order with locating_shard limits, Hok. Qed.

Lemma key_is_less_iff i h p t :
  key i = Some (h, p, t) ->
  file_key_is_less s target_hash target_path i = true <-> lt (h, p) (target_hash, target_path).
Proof.
  intros Hk. apply key_Some in Hk as (f & Hf & <- & Hp & _). unfold file_key_is_less.
  rewrite Hf, Hp, lt_pair, orb_true_iff, andb_true_iff, bytes_eqb_eq. done.
Qed.

Lemma lower_bound_file_key_spec :
  let r := lower_bound_file_key s target_hash target_path in
  (r <= length (sh_files s))%nat
  /\ forall i h p t, key i = Some (h, p, t) ->
       if decide (i < r)%nat then lt (h, p) (target_hash, target_path)
       else le (target_hash, target_path) (h, p).
Proof.
  destruct (lower_bound_spec (file_key_is_less s target_hash target_path) (length (sh_files s)))
    as (H1 & H2 & H3).
  { intros i j Hij Hj. destruct (decide (i = j)) as [->|Hne]; [done|].
    destruct (key_exists i) as (h & p & t & Hi); [lia|]. destruct (key_exists j) as (h' & p' & t' & Hk); [lia|].
    apply (key_is_less_iff i h p t Hi). apply (key_is_less_iff j h' p' t' Hk) in Hj.
    pose proof (key_lt i j _ _ ltac:(lia) Hi Hk) as Hl. apply lt_pair in Hl as [Hl|[Heq _]].
    - by apply lt_trans with (h', p').
    - by rewrite Heq. }
  split; [done|]. intros i h p t Hk. case_decide as Hd.
  - apply (key_is_less_iff i h p t Hk). by apply H2.
  - apply not_lt_le. intros Hl. apply (key_is_less_iff i h p t Hk) in Hl.
    rewrite H3 in Hl; [done|]. split; [unfold lower_bound_file_key in Hd; lia|].
    apply key_Some in Hk as (f & Hf & _). by apply lookup_lt_Some in Hf.
Qed.

Definition hit (i : nat) : Prop := exists t, key i = Some (target_hash, target_path, t).

(** The loop stops at the first position without the target. *)
Lemma lookup_file_loop_spec n idx best :
  (idx + n = length (sh_files s))%nat ->
  exists m, (idx <= m <= length (sh_files s))%nat
    /\ (forall i, (idx <= i < m)%nat -> hit i)
    /\ ((m < length (sh_files s))%nat -> ~ hit m)
    /\ lookup_file_loop n s target_hash target_path idx best
       = if decide (m = idx) then best else Some (m - 1)%nat.
Proof.
  revert idx best. induction n as [|n IH]; intros idx best Hn; cbn [lookup_file_loop].
  { exists idx. split_and!; [lia..|]. by rewrite decide_True. }
  destruct (key_exists idx) as (h & p & t & Hk); [lia|]. pose proof Hk as Hk'.
  apply key_Some in Hk' as (f & Hf & Hh & Hp & _). rewrite Hf, Hp, Hh.
  destruct (negb (bytes_eqb h target_hash) || negb (bytes_eqb p target_path)) eqn:E.
  - exists idx. split_and!; [lia..| |by rewrite decide_True]. intros _ [u Hu]. rewrite Hk in Hu.
    injection Hu as -> -> _. rewrite !(proj2 (bytes_eqb_eq _ _)) in E by done. done.
  - apply orb_false_iff in E as [E1 E2]. rewrite negb_false_iff, bytes_eqb_eq in E1, E2. subst h p.
    destruct (IH (S idx) (Some idx)) as (m & Hm & Hin & Hout & Hr); [lia|]. exists m. split_and!; [lia..| |done|].
    + intros i Hi. destruct (decide (i = idx)) as [->|]; [exists t; by rewrite Hk, E1|]. apply Hin. lia.
    + rewrite Hr, (decide_False (P := m = idx)) by lia.
      destruct (decide (m = S idx)) as [->|]; [f_equal; lia|done].
Qed.

(** The positions of the target end where the loop stops. *)
Lemma lookup_file_loop_last i t :
  key i = Some (target_hash, target_path, t) ->
  exists j u, lookup_file_loop (length (sh_files s) - lower_bound_file_key s target_hash target_path) s
                target_hash target_path (lower_bound_file_key s target_hash target_path) None = Some j
    /\ key j = Some (target_hash, target_path, u) /\ (i <= j)%nat.
Proof.
  intros Hk. destruct lower_bound_file_key_spec as [Hr Hsplit]. set (r := lower_bound_file_key _ _ _) in *.
  destruct (lookup_file_loop_spec (length (sh_files s) - r) r None) as (m & Hm & Hin & Hout & ->); [lia|].
  assert (i < length (sh_files s))%nat as Hi.
  { apply key_Some in Hk as (f & Hf & _). by apply lookup_lt_Some in Hf. }
  assert (r <= i)%nat as Hri.
  { pose proof (Hsplit _ _ _ _ Hk) as Hs. case_decide; [by apply lt_irrefl in Hs|lia]. }
  assert (i < m)%nat as Him.
  { destruct (decide (i < m)%nat) as [|Hge]; [done|]. exfalso. apply Hout; [lia|].
    destruct (decide (i = m)) as [<-|Hne]; [by exists t|].
    destruct (key_exists m) as (h & p & u & Hm'); [lia|]. pose proof (Hsplit _ _ _ _ Hm') as Hs.
    rewrite decide_False in Hs by lia. pose proof (key_lt m i _ _ ltac:(lia) Hm' Hk) as Hl.
    apply lt_pair in Hl as [Hl|[Heq _]]; [|exists u; by rewrite Hm', Heq].
    exfalso. apply (lt_irrefl (h, p)). by apply lt_le_trans with (target_hash, target_path). }
  rewrite decide_False by lia. destruct (Hin (m - 1)%nat) as [u Hu]; [lia|].
  exists (m - 1)%nat, u. split_and!; [done..|lia].
Qed.

Lemma lookup_file_loop_correct :
  match lookup_file_loop (length (sh_files s) - lower_bound_file_key s target_hash target_path) s
          target_hash target_path (lower_bound_file_key s target_hash target_path) None with
  | Some j => exists u, key j = Some (target_hash, target_path, u)
                        /\ forall i t, key i = Some (target_hash, target_path, t) -> (i <= j)%nat
  | None => forall i t, key i <> Some (target_hash, target_path, t)
  end.
Proof.
  pose proof lookup_file_loop_last as Hlast. destruct lower_bound_file_key_spec as [Hr _].
  set (r := lower_bound_file_key _ _ _) in *.
  destruct (lookup_file_loop_spec (length (sh_files s) - r) r None) as (m & Hm & Hin & _ & Hl); [lia|].
  rewrite Hl in *. destruct (decide (m = r)) as [|Hne].
  - intros i t Hk. by destruct (Hlast i t Hk) as (j & u & ? & _).
  - destruct (Hin (m - 1)%nat) as [u Hu]; [lia|]. exists u. split; [done|]. intros i t Hk.
    destruct (Hlast i t Hk) as (j & v & [= <-] & _ & Hle). done.
Qed.
End LookupCorrect.

(** ** Theorems *)

(** A shard of the index.  [IndexShard_parse] accepts exactly what
    [to_bytes] makes of a valid shard and returns that shard; it never panics. *)
Theorem index_shard_codec {Sha : Sha256} {U : Unicode} b locating_shard limits s :
  (IndexShard_parse b locating_shard limits = Ok s
   <-> IndexShard_valid locating_shard limits s /\ IndexShard_to_bytes s = b)
  /\ IndexShard_parse b locating_shard limits <> Panic.
Proof.
  split; [|apply IndexShard_parse_no_panic]. split; [apply IndexShard_parse_sound|].
  intros [H <-]. by apply IndexShard_parse_complete.
Qed.

(** C26: The files of an accepted shard.  Every file has a path that passes the
    checks of a file path and has the file's hash, which lies in the range the
    root gives the shard; the tar member of the file, from its start on, begins
    in the first frame of the file and ends in its last one; the frames between
    are all in the shard, with consecutive indices, and consecutive in the tar
    stream.  Every frame of the shard is a frame of one of its files. *)
Theorem index_shard_members {Sha : Sha256} {U : Unicode} b locating_shard limits s :
  IndexShard_parse b locating_shard limits = Ok s ->
  (forall i file, sh_files s !! i = Some file -> exists path start,
     IndexShard_file_path s i = Some path /\ IndexShard_tar_member_group_start s i = Some start
     /\ validate_file_path_bytes path (lim_max_path_length limits) = Ok tt
     /\ fe_path_hash file = hash_prefix path
     /\ le (se_first_path_hash locating_shard) (fe_path_hash file)
     /\ le (fe_path_hash file) (se_last_path_hash locating_shard)
     /\ exists p, frame_run (sh_frames s) p (Z.to_nat (fe_frame_count file)) (fe_first_frame_index file)
          /\ member_in_run (sh_frames s) p (Z.to_nat (fe_frame_count file)) start
               (fe_tar_member_group_size file))
  /\ (forall i f g, sh_frames s !! i = Some f -> sh_frames s !! S i = Some g ->
        fr_frame_index g = fr_frame_index f + 1 -> fr_tar_stream_offset g = frame_end f)
  /\ (forall f, f ∈ sh_frames s -> exists file, file ∈ sh_files s
        /\ fe_first_frame_index file <= fr_frame_index f < fe_first_frame_index file + fe_frame_count file).
Proof.
  intros [Hv _]%IndexShard_parse_sound. destruct (IndexShard_tables_ok _ _ _ Hv) as [Hf _ _ Hfile Hused _ _ _ _].
  split_and!; [|apply fo_packed, Hf|done]. intros i file Hi.
  destruct (Hfile i file Hi) as (path & start & Hp & Hs & []). exists path, start. split_and!; try done.
  - apply fk_range0.
  - apply fk_range0.
Qed.

(** C31: The frames of an accepted shard.  Every frame lies in an envelope of the
    shard, by its index and by its bytes; there is one such envelope; and the
    bytes of two frames of an envelope do not overlap. *)
Theorem index_shard_envelopes {Sha : Sha256} {U : Unicode} b locating_shard limits s :
  IndexShard_parse b locating_shard limits = Ok s ->
  (forall f, f ∈ sh_frames s -> exists e, e ∈ sh_envelopes s /\ frame_in_envelope f e
     /\ forall e', e' ∈ sh_envelopes s -> ee_envelope_index e' = fr_envelope_index f -> e' = e)
  /\ (forall f g, f ∈ sh_frames s -> g ∈ sh_frames s -> fr_envelope_index f = fr_envelope_index g ->
        f <> g -> slice_end f <= fr_offset_in_envelope g \/ slice_end g <= fr_offset_in_envelope f).
Proof.
  intros [Hv _]%IndexShard_parse_sound. destruct (IndexShard_tables_ok _ _ _ Hv) as [Hf _ _ _ _ _ Hb Hsl Hasc].
  split.
  - intros f Hin. destruct (Hb f Hin) as (e & He & Hfe). exists e. split_and!; [done..|]. intros e' He' Hi.
    apply list_elem_of_lookup in He as [i He], He' as [j He'].
    assert (j = i) as -> by (apply (index_inj _ _ Hasc j i e' e He' He); rewrite Hi; symmetry; apply Hfe).
    congruence.
  - intros f g Hin Hing Hi Hne. destruct (Hb f Hin) as (e & He & Hfe & _).
    apply (validate_envelope_slices_Ok (sh_frames s) e); try done.
    + intros h Hh. by apply (fo_sizes _ Hf).
    + by apply Hsl.
    + congruence.
    + intros E. apply Hne. apply list_elem_of_lookup in Hin as [i Hin], Hing as [j Hing].
      assert (i = j) as -> by (by apply (index_inj fr_frame_index _ (fo_ascending _ Hf) i j f g)). congruence.
Qed.

(** In a valid shard the lookup finds the last version of a path. *)
Lemma lookup_file_index_spec {Sha : Sha256} {U : Unicode} locating_shard limits s path :
  IndexShard_valid locating_shard limits s ->
  match IndexShard_lookup_file_index s path with
  | Some i =>
      exists start, IndexShard_file_path s i = Some path
        /\ IndexShard_tar_member_group_start s i = Some start
        /\ forall j start', IndexShard_file_path s j = Some path -> j <> i ->
             IndexShard_tar_member_group_start s j = Some start' -> start' < start
  | None => forall j, IndexShard_file_path s j <> Some path
  end.
Proof.
  intros Hv. pose proof (IndexShard_tables_ok _ _ _ Hv) as Hok.
  assert (forall i, IndexShard_file_path s i = Some path ->
            exists t, file_keys (sh_files s) (sh_file_paths s) (sh_file_tar_member_group_starts s) !! i
                      = Some (hash_prefix path, path, t)) as Hkey.
  { intros i Hi. destruct (lookup_lt_is_Some_2 (sh_files s) i) as [f Hf].
    { rewrite <- (to_paths _ _ _ Hok). by apply lookup_lt_Some in Hi. }
    destruct (to_file _ _ _ Hok i f Hf) as (p & t & Hp & Ht & Hfile). unfold IndexShard_file_path in Hi.
    rewrite Hp in Hi. injection Hi as ->. exists t. apply file_keys_lookup. split_and!; try done.
    exists f. split; [done|apply Hfile]. }
  unfold IndexShard_lookup_file_index. cbv zeta.
  pose proof (lookup_file_loop_correct _ _ s Hok (hash_prefix path) path) as Hl.
  destruct (lookup_file_loop _ _ _ _ _ _) as [i|].
  - destruct Hl as (u & Hu & Hmax). pose proof (key_Some s _ _ _ _ Hu) as (f & _ & _ & Hp & Hs).
    exists u. split_and!; [done..|]. intros j v Hj Hne Hv'. destruct (Hkey j Hj) as [t Ht].
    pose proof (key_Some s _ _ _ _ Ht) as (g & _ & _ & _ & Hs'). unfold IndexShard_tar_member_group_start in Hv'.
    rewrite Hs' in Hv'. injection Hv' as ->. pose proof (Hmax j _ Ht).
    pose proof (key_lt _ _ s Hok j i _ _ ltac:(lia) Ht Hu) as Hlt. apply lt_pair in Hlt as [Hlt|[_ Hlt]].
    + by apply lt_irrefl in Hlt.
    + by apply ltb_lt, Z.compare_lt_iff in Hlt.
  - intros j Hj. destruct (Hkey j Hj) as [t Ht]. by apply (Hl j t).
Qed.

(** C27: Looking a path up in an accepted shard.  The lookup finds the file with
    that path whose member comes last in the tar stream, and finds nothing
    only when no file of the shard has the path. *)
Theorem lookup_file_index_correct {Sha : Sha256} {U : Unicode} b locating_shard limits s path :
  IndexShard_parse b locating_shard limits = Ok s ->
  match IndexShard_lookup_file_index s path with
  | Some i =>
      exists start, IndexShard_file_path s i = Some path
        /\ IndexShard_tar_member_group_start s i = Some start
        /\ forall j start', IndexShard_file_path s j = Some path -> j <> i ->
             IndexShard_tar_member_group_start s j = Some start' -> start' < start
  | None => forall j, IndexShard_file_path s j <> Some path
  end.
Proof. intros [Hv _]%IndexShard_parse_sound. by apply (lookup_file_index_spec locating_shard limits). Qed.

(** ** Concrete inputs

    Two versions of the file a and a file b in one frame. *)
Definition example_file (path_offset member_start : Z) : FileEntry := {|
  fe_path_hash := replicate 8 Byte.x30; fe_path_offset := path_offset; fe_path_length := 1;
  fe_first_frame_index := 4; fe_frame_count := 1; fe_offset_in_first_frame_plaintext := member_start;
  fe_tar_member_group_size := 1536; fe_file_data_size := 10; fe_flags := 1; fe_mtime_nsec := 0;
  fe_mtime_sec := 0; fe_created_nsec := 0; fe_accessed_nsec := 0; fe_created_sec := 0;
  fe_accessed_sec := 0; fe_uid := 0; fe_gid := 0; fe_mode := 0; fe_attributes := 0;
  fe_uname_offset := 0; fe_uname_length := 0; fe_gname_offset := 0; fe_gname_length := 0;
  fe_link_target_offset := 0; fe_link_target_length := 0; fe_kind := 0; fe_metadata_flags := 0;
  fe_reserved1 := 0; fe_reserved2 := 0 |}.

Definition example_index_shard : IndexShard := {|
  sh_header := {| is_version := 1; is_shard_index := 2; is_file_count := 3; is_frame_count := 1;
    is_envelope_count := 1; is_file_table_offset := 64; is_frame_table_offset := 496;
    is_envelope_table_offset := 540; is_string_pool_offset := 588; is_string_pool_size := 2 |};
  sh_files := [example_file 0 0; example_file 0 1536; example_file 1 3072];
  sh_frames := [{| fr_frame_index := 4; fr_envelope_index := 1; fr_offset_in_envelope := 0;
    fr_compressed_size := 100; fr_decompressed_size := 4608; fr_flags := 0; fr_tar_stream_offset := 9216 |}];
  sh_envelopes := [{| ee_envelope_index := 1; ee_first_block_index := 3; ee_data_block_count := 1;
    ee_parity_block_count := 1; ee_encrypted_size := 4096; ee_plaintext_size := 100;
    ee_first_frame_index := 4; ee_frame_count := 1 |}];
  sh_string_pool := ascii "ab";
  sh_file_paths := [ascii "a"; ascii "a"; ascii "b"];
  sh_file_tar_member_group_starts := [9216; 10752; 12288] |}.

Definition example_location : ShardEntry := {|
  se_shard_index := 2; se_first_block_index := 20; se_data_block_count := 2;
  se_parity_block_count := 1; se_encrypted_size := 8192; se_decompressed_size := 5000;
  se_file_count := 3; se_first_path_hash := replicate 8 Byte.x30; se_last_path_hash := replicate 8 Byte.x30 |}.

Lemma example_index_shard_parses :
  IndexShard_parse (Sha := constant_Sha256) (U := toy_Unicode) (IndexShard_to_bytes example_index_shard)
    example_location MetadataLimits_default = Ok example_index_shard.
Proof. vm_compute. reflexivity. Qed.

Lemma index_shard_members_witness :
  IndexShard_parse (Sha := constant_Sha256) (U := toy_Unicode) (IndexShard_to_bytes example_index_shard)
    example_location MetadataLimits_default = Ok example_index_shard
  /\ exists file, file ∈ sh_files example_index_shard /\ fe_first_frame_index file <= 4 < fe_first_frame_index file + fe_frame_count file.
Proof.
  split; [apply example_index_shard_parses|].
  destruct (index_shard_members (Sha := constant_Sha256) (U := toy_Unicode) _ _ _ _ example_index_shard_parses)
    as (_ & _ & H).
  destruct (sh_frames example_index_shard) as [|f l] eqn:E; [done|]. injection E as <- <-.
  edestruct H as (file & Hf & Hr); [by left|]. by exists file.
Defined.

Lemma index_shard_envelopes_witness :
  IndexShard_parse (Sha := constant_Sha256) (U := toy_Unicode) (IndexShard_to_bytes example_index_shard)
    example_location MetadataLimits_default = Ok example_index_shard
  /\ exists e, e ∈ sh_envelopes example_index_shard /\ ee_envelope_index e = 1.
Proof.
  split; [apply example_index_shard_parses|].
  destruct (index_shard_envelopes (Sha := constant_Sha256) (U := toy_Unicode) _ _ _ _ example_index_shard_parses)
    as (H & _).
  destruct (sh_frames example_index_shard) as [|f l] eqn:E; [done|]. injection E as <- <-.
  edestruct H as (e & He & (Hi & _) & _); [by left|]. by exists e.
Defined.

Lemma lookup_file_index_correct_witness :
  IndexShard_lookup_file_index (Sha := constant_Sha256) example_index_shard (ascii "a") = Some 1%nat
  /\ IndexShard_lookup_file_index (Sha := constant_Sha256) example_index_shard (ascii "c") = None
  /\ forall j, IndexShard_file_path example_index_shard j <> Some (ascii "c").
Proof.
  split; [vm_compute; reflexivity|]. split; [vm_compute; reflexivity|].
  exact (lookup_file_index_correct (Sha := constant_Sha256) (U := toy_Unicode) _ _ _ _ (ascii "c")
           example_index_shard_parses).
Defined.
