(* ===== verification/DirectoryHints.v ===== *)
(** * Directory hints

    [DirectoryHintTable] of [crates/tzap-core/src/metadata.rs]: for every
    directory of a range of hashes, the shards of the index that hold files
    below it. *)

From S2P Require Import Wire Ordering Paths MetadataWire IndexRoot IndexLookup IndexShard IndexShardCorrect.
#[local] Open Scope Z_scope.

Definition TZDH_MAGIC : bytes := ascii "TZDH".
Definition DIRECTORY_HINT_TABLE_LEN : Z := 72.
Definition DIRECTORY_HINT_ENTRY_LEN : Z := 40.

#[local] Ltac unfold_consts ::= unfold DIRECTORY_HINT_TABLE_LEN, DIRECTORY_HINT_ENTRY_LEN in *.

Record DirectoryHintTableHeader : Type := {
  dt_version : Z;
  dt_hint_shard_index : Z;
  dt_entry_count : Z;
  dt_entry_table_offset : Z;
  dt_shard_list_offset : Z;
  dt_string_pool_offset : Z;
  dt_string_pool_size : Z
}.

Record DirectoryHintEntry : Type := {
  dh_dir_hash : bytes;
  dh_path_offset : Z;
  dh_path_length : Z;
  dh_shard_list_start_index : Z;
  dh_shard_count : Z
}.

(** The last field is private: only [parse] fills it. *)
Record DirectoryHintTable : Type := {
  dd_header : DirectoryHintTableHeader;
  dd_entries : list DirectoryHintEntry;
  dd_shard_row_indexes : list Z;
  dd_string_pool : bytes;
  dd_entry_paths : list bytes
}.

(** ** Entries *)
Definition read_directory_hint_entry (chunk : bytes) : fresult DirectoryHintEntry :=
  let structure := "DirectoryHintEntry" in
  reserved ← meta_slice chunk 20 4 structure;
  expect_zero structure reserved;;
  reserved2 ← meta_slice chunk 32 8 structure;
  expect_zero structure reserved2;;
  dir_hash ← meta_read_array 8 chunk 0 structure;
  path_offset ← meta_read_u64 chunk 8 structure;
  path_length ← meta_read_u32 chunk 16 structure;
  shard_list_start_index ← meta_read_u32 chunk 24 structure;
  shard_count ← meta_read_u32 chunk 28 structure;
  mret {| dh_dir_hash := dir_hash; dh_path_offset := path_offset; dh_path_length := path_length;
          dh_shard_list_start_index := shard_list_start_index; dh_shard_count := shard_count |}.

Definition parse_directory_hint_entries (b : bytes) : fresult (list DirectoryHintEntry) :=
  map_result read_directory_hint_entry (chunks_exact DIRECTORY_HINT_ENTRY_LEN b).

Definition parse_u32_array (b : bytes) (structure : string) : fresult (list Z) :=
  map_result (fun chunk => meta_read_u32 chunk 0 structure) (chunks_exact 4 b).

Definition DirectoryHintEntry_to_bytes (self : DirectoryHintEntry) : bytes :=
  puts (zeros DIRECTORY_HINT_ENTRY_LEN)
    [write_bytes 0 (dh_dir_hash self);
     write_u64 8 (dh_path_offset self);
     write_u32 16 (dh_path_length self);
     write_u32 24 (dh_shard_list_start_index self);
     write_u32 28 (dh_shard_count self)].

Definition DirectoryHintTableHeader_to_bytes (self : DirectoryHintTableHeader) : bytes :=
  puts (zeros DIRECTORY_HINT_TABLE_LEN)
    [write_bytes 0 TZDH_MAGIC;
     write_u32 4 (dt_version self);
     write_u64 8 (dt_hint_shard_index self);
     write_u64 16 (dt_entry_count self);
     write_u64 24 (dt_entry_table_offset self);
     write_u64 32 (dt_shard_list_offset self);
     write_u64 40 (dt_string_pool_offset self);
     write_u64 48 (dt_string_pool_size self)].

(** ** Checks *)

(** The end of the shard rows of an entry, in rows. *)
Definition shard_list_end (entry : DirectoryHintEntry) : fresult Z :=
  ok_or (checked_add 64 (dh_shard_list_start_index entry) (dh_shard_count entry))
    (MetadataArithmeticOverflow "DirectoryHintEntry").

Fixpoint max_shard_list_end (entries : list DirectoryHintEntry) (acc : Z) : fresult Z :=
  match entries with
  | [] => Ok acc
  | entry :: entries =>
      reject_if (dh_shard_count entry =? 0) (InvalidMetadata "DirectoryHintEntry" "shard count is zero");;
      end_ ← shard_list_end entry;
      max_shard_list_end entries (Z.max acc end_)
  end.

Definition check_hash_bounds (entries : list DirectoryHintEntry) (locating_shard : DirectoryHintShardEntry)
    (first_reason last_reason : string) : fresult unit :=
  match head entries, last entries with
  | Some first, Some last =>
      reject_if (negb (bytes_eqb (dh_dir_hash first) (de_first_dir_hash locating_shard)))
        (InvalidMetadata "DirectoryHintTable" first_reason);;
      reject_if (negb (bytes_eqb (dh_dir_hash last) (de_last_dir_hash locating_shard)))
        (InvalidMetadata "DirectoryHintTable" last_reason)
  | _, _ => Panic
  end.

Definition validate_directory_hint_entries (entries : list DirectoryHintEntry) (b : bytes)
    (header : DirectoryHintTableHeader) (locating_shard : DirectoryHintShardEntry)
    (index_root_shard_count : Z) : fresult Z :=
  let structure := "DirectoryHintTable" in
  reject_if (index_root_shard_count =? 0)
    (InvalidMetadata structure "directory hints require IndexRoot shard rows");;
  reject_if (bool_decide (entries = []))
    (InvalidMetadata structure "located directory hint table is empty");;
  check_hash_bounds entries locating_shard "first DirectoryHintEntry hash does not match locating row"
    "last DirectoryHintEntry hash does not match locating row";;
  max_end ← max_shard_list_end entries 0;
  byte_len ← meta_checked_mul max_end 4 structure;
  shard_list_offset ← meta_to_usize (dt_shard_list_offset header) structure;
  end_ ← meta_checked_add shard_list_offset byte_len structure;
  reject_if (blen b <? end_) (InvalidMetadata structure "shard list exceeds plaintext");;
  mret max_end.

Section Checks.
Context {Sha : Sha256} {U : Unicode}.

Definition directory_hint_path (entry : DirectoryHintEntry) (string_pool : bytes) (max_path_length : Z)
    : fresult bytes :=
  if dh_path_length entry =? 0
  then
    reject_if (negb (dh_path_offset entry =? 0) || negb (bytes_eqb (dh_dir_hash entry) (hash_prefix [])))
      (InvalidMetadata "DirectoryHintEntry" "root directory entry is not canonical");;
    mret []
  else
    path ← string_slice string_pool (dh_path_offset entry) (dh_path_length entry) "DirectoryHintEntry";
    validate_directory_path_bytes path max_path_length;;
    mret path.

Definition validate_directory_hint_rows (entry : DirectoryHintEntry) (shard_row_indexes : list Z)
    (index_root_shard_count : Z) : fresult unit :=
  end_ ← shard_list_end entry;
  rows ← ok_or
    (if end_ <=? Z.of_nat (length shard_row_indexes)
     then Some (take (Z.to_nat (dh_shard_count entry))
                  (drop (Z.to_nat (dh_shard_list_start_index entry)) shard_row_indexes))
     else None)
    (InvalidMetadata "DirectoryHintEntry" "shard-row-index range is out of bounds");
  for_windows (fun a b => reject_if (b <=? a)
    (InvalidMetadata "DirectoryHintEntry" "shard-row-index list is not sorted and unique")) rows;;
  reject_if (existsb (fun row => index_root_shard_count <=? row) rows)
    (InvalidMetadata "DirectoryHintEntry" "shard-row-index is outside IndexRoot shard table").

Fixpoint directory_hint_paths (entries : list DirectoryHintEntry) (shard_row_indexes : list Z)
    (string_pool : bytes) (index_root_shard_count max_path_length : Z) (paths : list bytes)
    (seen_paths : gset bytes) : fresult (list bytes) :=
  match entries with
  | [] => Ok paths
  | entry :: entries =>
      path ← directory_hint_path entry string_pool max_path_length;
      reject_if (negb (bytes_eqb (hash_prefix path) (dh_dir_hash entry)))
        (InvalidMetadata "DirectoryHintEntry" "dir_hash does not match string-pool path");;
      reject_if (bool_decide (path ∈ seen_paths))
        (InvalidMetadata "DirectoryHintEntry" "duplicate directory path");;
      validate_directory_hint_rows entry shard_row_indexes index_root_shard_count;;
      directory_hint_paths entries shard_row_indexes string_pool index_root_shard_count max_path_length
        (paths ++ [path]) ({[path]} ∪ seen_paths)
  end.

Definition validate_directory_hint_paths_and_lists (entries : list DirectoryHintEntry)
    (shard_row_indexes : list Z) (string_pool : bytes) (locating_shard : DirectoryHintShardEntry)
    (index_root_shard_count max_path_length : Z) : fresult (list bytes) :=
  paths ← directory_hint_paths entries shard_row_indexes string_pool index_root_shard_count
    max_path_length [] ∅;
  for_windows (fun previous current => reject_if (leb current previous)
      (InvalidMetadata "DirectoryHintTable" "DirectoryHintEntry rows are not sorted and unique"))
    (zip (map dh_dir_hash entries) paths);;
  check_hash_bounds entries locating_shard "entry hash bounds do not match locating shard"
    "entry hash bounds do not match locating shard";;
  mret paths.

(** ** The table *)
Definition read_directory_hint_header (b : bytes) : fresult DirectoryHintTableHeader :=
  let structure := "DirectoryHintTable" in
  version ← meta_read_u32 b 4 structure;
  hint_shard_index ← meta_read_u64 b 8 structure;
  entry_count ← meta_read_u64 b 16 structure;
  entry_table_offset ← meta_read_u64 b 24 structure;
  shard_list_offset ← meta_read_u64 b 32 structure;
  string_pool_offset ← meta_read_u64 b 40 structure;
  string_pool_size ← meta_read_u64 b 48 structure;
  mret {| dt_version := version; dt_hint_shard_index := hint_shard_index; dt_entry_count := entry_count;
          dt_entry_table_offset := entry_table_offset; dt_shard_list_offset := shard_list_offset;
          dt_string_pool_offset := string_pool_offset; dt_string_pool_size := string_pool_size |}.

Definition check_directory_hint_header (header : DirectoryHintTableHeader)
    (locating_shard : DirectoryHintShardEntry) (limits : MetadataLimits) : fresult unit :=
  let structure := "DirectoryHintTable" in
  reject_if (negb (dt_version header =? 1)) (InvalidMetadata structure "unsupported version");;
  reject_if (negb (dt_hint_shard_index header =? de_hint_shard_index locating_shard))
    (InvalidMetadata structure "hint shard index does not match locating DirectoryHintShardEntry");;
  reject_if (negb (dt_entry_count header =? de_entry_count locating_shard))
    (InvalidMetadata structure "entry count does not match locating DirectoryHintShardEntry");;
  reject_if (dt_entry_count header =? 0)
    (InvalidMetadata structure "located directory hint shard is empty");;
  reject_if (lim_max_entries_per_directory_hint_shard limits <? dt_entry_count header)
    (InvalidMetadata structure "entry count exceeds resource cap").

(** The string pool behind the shard list, and where it ends. *)
Definition directory_hint_string_pool (b : bytes) (header : DirectoryHintTableHeader) (shard_list_end : Z)
    : fresult (bytes * Z) :=
  let structure := "DirectoryHintTable" in
  string_pool ←
    (if dt_string_pool_size header =? 0
     then
       reject_if (negb (dt_string_pool_offset header =? 0))
         (InvalidMetadata structure "absent string pool has non-zero offset");;
       mret []
     else
       expect_offset structure "string pool" (dt_string_pool_offset header) shard_list_end;;
       offset ← meta_to_usize (dt_string_pool_offset header) structure;
       size ← meta_to_usize (dt_string_pool_size header) structure;
       meta_slice b offset size structure);
  final_cursor ←
    (if dt_string_pool_size header =? 0
     then Ok shard_list_end
     else
       offset ← meta_to_usize (dt_string_pool_offset header) structure;
       size ← meta_to_usize (dt_string_pool_size header) structure;
       meta_checked_add offset size structure);
  mret (string_pool, final_cursor).

Definition DirectoryHintTable_parse (b : bytes) (locating_shard : DirectoryHintShardEntry)
    (index_root_shard_count : Z) (limits : MetadataLimits) : fresult DirectoryHintTable :=
  let structure := "DirectoryHintTable" in
  reject_if (blen b <? DIRECTORY_HINT_TABLE_LEN)
    (InvalidMetadata structure "plaintext is shorter than fixed header");;
  magic ← meta_read_array 4 b 0 structure;
  expect_magic structure TZDH_MAGIC magic;;
  reserved ← meta_slice b 56 16 structure;
  expect_zero structure reserved;;
  header ← read_directory_hint_header b;
  check_directory_hint_header header locating_shard limits;;
  entry_count ← meta_to_usize (dt_entry_count header) structure;
  expect_offset structure "entry table" (dt_entry_table_offset header) DIRECTORY_HINT_TABLE_LEN;;
  entry_bytes_len ← meta_checked_mul entry_count DIRECTORY_HINT_ENTRY_LEN structure;
  entries_end ← meta_checked_add DIRECTORY_HINT_TABLE_LEN entry_bytes_len structure;
  expect_offset structure "shard list" (dt_shard_list_offset header) entries_end;;
  reject_if (negb (dt_shard_list_offset header mod 4 =? 0))
    (InvalidMetadata structure "shard list is not 4-byte aligned");;
  entry_bytes ← meta_slice b DIRECTORY_HINT_TABLE_LEN entry_bytes_len structure;
  entries ← parse_directory_hint_entries entry_bytes;
  shard_list_len ← validate_directory_hint_entries entries b header locating_shard index_root_shard_count;
  shard_list_offset ← meta_to_usize (dt_shard_list_offset header) structure;
  shard_list_bytes_len ← meta_checked_mul shard_list_len 4 structure;
  shard_list_end ← meta_checked_add shard_list_offset shard_list_bytes_len structure;
  shard_list_bytes ← meta_slice b shard_list_offset shard_list_bytes_len structure;
  shard_row_indexes ← parse_u32_array shard_list_bytes structure;
  '(string_pool, final_cursor) ← directory_hint_string_pool b header shard_list_end;
  reject_if (negb (blen b =? final_cursor))
    (InvalidMetadata structure "plaintext length does not match canonical cursor");;
  entry_paths ← validate_directory_hint_paths_and_lists entries shard_row_indexes string_pool
    locating_shard index_root_shard_count (lim_max_path_length limits);
  mret {| dd_header := header; dd_entries := entries; dd_shard_row_indexes := shard_row_indexes;
          dd_string_pool := string_pool; dd_entry_paths := entry_paths |}.
End Checks.

(** The counts and offsets of the header are those of the tables. *)
Definition canonical_hint_header (self : DirectoryHintTable) : DirectoryHintTableHeader :=
  let header := dd_header self in
  let entries := Z.of_nat (length (dd_entries self)) in
  let rows := Z.of_nat (length (dd_shard_row_indexes self)) in
  let pool := blen (dd_string_pool self) in
  let shard_list_offset :=
    if entries =? 0 then 0
    else (DIRECTORY_HINT_TABLE_LEN + entries * DIRECTORY_HINT_ENTRY_LEN) mod 2 ^ 64 in
  {| dt_version := dt_version header; dt_hint_shard_index := dt_hint_shard_index header;
     dt_entry_count := entries mod 2 ^ 64;
     dt_entry_table_offset := (if entries =? 0 then 0 else DIRECTORY_HINT_TABLE_LEN);
     dt_shard_list_offset := shard_list_offset;
     dt_string_pool_offset := (if pool =? 0 then 0 else (shard_list_offset + rows * 4) mod 2 ^ 64);
     dt_string_pool_size := pool mod 2 ^ 64 |}.

Definition DirectoryHintTable_to_bytes (self : DirectoryHintTable) : bytes :=
  DirectoryHintTableHeader_to_bytes (canonical_hint_header self)
  ++ concat (map DirectoryHintEntry_to_bytes (dd_entries self))
  ++ (if bool_decide (dd_entries self = []) then []
      else concat (map (fun row => le_bytes 4 row) (dd_shard_row_indexes self)))
  ++ dd_string_pool self.

(** ** Lookup *)
Definition DirectoryHintTable_entry_path (self : DirectoryHintTable) (entry_index : nat) : option bytes :=
  dd_entry_paths self !! entry_index.

Section Lookup.
Context {Sha : Sha256}.

Definition directory_key_is_less (self : DirectoryHintTable) (target_hash target_path : bytes) (mid : nat)
    : bool :=
  match dd_entries self !! mid, dd_entry_paths self !! mid with
  | Some entry, Some path =>
      ltb (dh_dir_hash entry) target_hash
      || (bytes_eqb (dh_dir_hash entry) target_hash && ltb path target_path)
  | _, _ => false
  end.

Definition lower_bound_directory_key (self : DirectoryHintTable) (target_hash target_path : bytes) : nat :=
  lower_bound (directory_key_is_less self target_hash target_path) (length (dd_entries self)).

Definition lookup_directory_index (self : DirectoryHintTable) (normalized_dir_path : bytes) : option nat :=
  let target_hash := hash_prefix normalized_dir_path in
  let lower := lower_bound_directory_key self target_hash normalized_dir_path in
  match dd_entries self !! lower, dd_entry_paths self !! lower with
  | Some entry, Some path =>
      if bytes_eqb (dh_dir_hash entry) target_hash && bytes_eqb path normalized_dir_path
      then Some lower else None
  | _, _ => None
  end.

Definition shard_rows_for_entry (self : DirectoryHintTable) (entry_index : nat) : option (list Z) :=
  match dd_entries self !! entry_index with
  | Some entry =>
      match checked_add 64 (dh_shard_list_start_index entry) (dh_shard_count entry) with
      | Some end_ =>
          if end_ <=? Z.of_nat (length (dd_shard_row_indexes self))
          then Some (take (Z.to_nat (dh_shard_count entry))
                       (drop (Z.to_nat (dh_shard_list_start_index entry)) (dd_shard_row_indexes self)))
          else None
      | None => None
      end
  | None => None
  end.
End Lookup.

(** ** Entries round trip *)
Definition DirectoryHintEntry_typed (e : DirectoryHintEntry) : Prop :=
  blen (dh_dir_hash e) = 8 /\ u64 (dh_path_offset e) /\ u32 (dh_path_length e)
  /\ u32 (dh_shard_list_start_index e) /\ u32 (dh_shard_count e).

Definition DirectoryHintTableHeader_typed (h : DirectoryHintTableHeader) : Prop :=
  u32 (dt_version h) /\ u64 (dt_hint_shard_index h) /\ u64 (dt_entry_count h)
  /\ u64 (dt_entry_table_offset h) /\ u64 (dt_shard_list_offset h) /\ u64 (dt_string_pool_offset h)
  /\ u64 (dt_string_pool_size h).

#[export, refine] Instance DirectoryHintEntry_table : TableEntry DirectoryHintEntry := {|
  entry_len := DIRECTORY_HINT_ENTRY_LEN; entry_encode := DirectoryHintEntry_to_bytes;
  entry_decode := read_directory_hint_entry; entry_valid := DirectoryHintEntry_typed |}.
Proof.
  - unfold DIRECTORY_HINT_ENTRY_LEN. lia.
  - intros b h Hb. unfold DIRECTORY_HINT_ENTRY_LEN in *. unfold DirectoryHintEntry_typed. split.
    + intros H. unfold read_directory_hint_entry in H. bind_inv H. subst h.
      meta_facts. wire_encoded DirectoryHintEntry_to_bytes.
    + intros [HT H]. destruct h. cbn in HT. destruct_and!. unfold DirectoryHintEntry_to_bytes in H.
      wire_segments H. unfold read_directory_hint_entry. by meta_run.
  - intros h HT. unfold DirectoryHintEntry_typed in HT. destruct_and!.
    unfold DirectoryHintEntry_to_bytes, DIRECTORY_HINT_ENTRY_LEN. apply blen_puts. by layout_done.
Defined.

(** A row of the shard list is an entry of four bytes. *)
#[refine] Definition u32_table : TableEntry Z := {|
  entry_len := 4; entry_encode := fun row => le_bytes 4 row;
  entry_decode := fun chunk => meta_read_u32 chunk 0 "DirectoryHintTable"; entry_valid := fun row => u32 row |}.
Proof.
  - lia.
  - intros b h Hb. rewrite meta_read_u32_eq, read_u32_Ok by lia.
    replace (seg b 0 (0 + 4)) with b by (symmetry; rewrite <- (seg_full b) at 2; by rewrite Hb).
    split; [intros (_ & ? & ->)|intros [? <-]]; split_and!; (done || lia).
  - intros h _. apply (blen_le 4).
Defined.

Lemma blen_TZDH : blen TZDH_MAGIC = 4. Proof. done. Qed.
#[global] Arguments TZDH_MAGIC : simpl never.
#[export] Hint Rewrite blen_TZDH : wire_len.

Lemma read_directory_hint_header_iff b h :
  DIRECTORY_HINT_TABLE_LEN <= blen b ->
  read_directory_hint_header b = Ok h /\ seg b 0 4 = TZDH_MAGIC /\ seg b 56 72 = zeros 16
  <-> DirectoryHintTableHeader_typed h /\ DirectoryHintTableHeader_to_bytes h = seg b 0 DIRECTORY_HINT_TABLE_LEN.
Proof.
  unfold DIRECTORY_HINT_TABLE_LEN. intros Hb.
  assert (read_directory_hint_header b = read_directory_hint_header (seg b 0 72)) as ->.
  { unfold read_directory_hint_header. cbv zeta.
    repeat lazymatch goal with |- mbind _ _ = mbind _ _ => apply bind_cong; [|intros ?] end; try done;
      unfold meta_read_u32, meta_read_u64, meta_read_array; rewrite (meta_slice_prefix b 72) by lia; done. }
  assert (seg b 0 4 = seg (seg b 0 72) 0 4) as -> by (by rewrite seg_seg by lia).
  assert (seg b 56 72 = seg (seg b 0 72) 56 72) as -> by (by rewrite seg_seg by lia).
  assert (blen (seg b 0 72) = 72) as Hl by (rewrite blen_seg; lia).
  generalize dependent (seg b 0 72). clear Hb b. intros b Hl. unfold DirectoryHintTableHeader_typed. split.
  - intros (H & Hm & Hz). unfold read_directory_hint_header in H. bind_inv H. subst h.
    meta_facts. wire_encoded DirectoryHintTableHeader_to_bytes.
  - intros [HT H]. destruct h. cbn in HT. destruct_and!. unfold DirectoryHintTableHeader_to_bytes in H.
    unfold DIRECTORY_HINT_TABLE_LEN in H. wire_segments H. split_and!; try done.
    unfold read_directory_hint_header. by meta_run.
Qed.

Lemma blen_DirectoryHintTableHeader h :
  DirectoryHintTableHeader_typed h -> blen (DirectoryHintTableHeader_to_bytes h) = DIRECTORY_HINT_TABLE_LEN.
Proof.
  intros HT. unfold DirectoryHintTableHeader_typed in HT. destruct_and!.
  unfold DirectoryHintTableHeader_to_bytes, DIRECTORY_HINT_TABLE_LEN. apply blen_puts. by layout_done.
Qed.

(** ** Valid tables *)
Definition shard_list_start (t : DirectoryHintTable) : Z :=
  DIRECTORY_HINT_TABLE_LEN + dt_entry_count (dd_header t) * DIRECTORY_HINT_ENTRY_LEN.
Definition hint_pool_start (t : DirectoryHintTable) : Z :=
  shard_list_start t + Z.of_nat (length (dd_shard_row_indexes t)) * 4.

Section Valid.
Context {Sha : Sha256} {U : Unicode}.

(** What a table satisfies that the reader accepts. *)
Record DirectoryHintTable_valid (locating_shard : DirectoryHintShardEntry) (index_root_shard_count : Z)
    (limits : MetadataLimits) (t : DirectoryHintTable) : Prop := {
  dv_typed : DirectoryHintTableHeader_typed (dd_header t);
  dv_header : check_directory_hint_header (dd_header t) locating_shard limits = Ok tt;
  dv_count : dt_entry_count (dd_header t) = Z.of_nat (length (dd_entries t));
  dv_entry_offset : dt_entry_table_offset (dd_header t) = DIRECTORY_HINT_TABLE_LEN;
  dv_list_offset : dt_shard_list_offset (dd_header t) = shard_list_start t;
  dv_pool_size : dt_string_pool_size (dd_header t) = blen (dd_string_pool t);
  dv_pool_offset : dt_string_pool_offset (dd_header t)
    = if dt_string_pool_size (dd_header t) =? 0 then 0 else hint_pool_start t;
  dv_small : hint_pool_start t + blen (dd_string_pool t) < 2 ^ 64;
  dv_entries : Forall DirectoryHintEntry_typed (dd_entries t);
  dv_rows : Forall (fun row => u32 row) (dd_shard_row_indexes t);
  dv_shards : index_root_shard_count <> 0;
  dv_bounds : check_hash_bounds (dd_entries t) locating_shard
    "first DirectoryHintEntry hash does not match locating row"
    "last DirectoryHintEntry hash does not match locating row" = Ok tt;
  dv_row_count : max_shard_list_end (dd_entries t) 0 = Ok (Z.of_nat (length (dd_shard_row_indexes t)));
  dv_paths : validate_directory_hint_paths_and_lists (dd_entries t) (dd_shard_row_indexes t)
    (dd_string_pool t) locating_shard index_root_shard_count (lim_max_path_length limits)
    = Ok (dd_entry_paths t)
}.

Context (locating_shard : DirectoryHintShardEntry) (index_root_shard_count : Z) (limits : MetadataLimits).

Lemma check_directory_hint_header_some h :
  check_directory_hint_header h locating_shard limits = Ok tt -> dt_entry_count h <> 0.
Proof. intros H. unfold check_directory_hint_header in H. ok_inv. lia. Qed.

Lemma canonical_hint_header_eq t :
  DirectoryHintTable_valid locating_shard index_root_shard_count limits t ->
  canonical_hint_header t = dd_header t.
Proof.
  intros []. pose proof (check_directory_hint_header_some _ dv_header0) as Hne.
  unfold canonical_hint_header. rewrite <- dv_count0, <- dv_pool_size0. cbv zeta.
  rewrite (proj2 (Z.eqb_neq _ _) Hne). pose proof dv_typed0 as HT.
  unfold DirectoryHintTableHeader_typed, fits in HT. destruct_and!.
  unfold hint_pool_start, shard_list_start in *. rewrite <- dv_list_offset0 in *.
  pose proof (blen_nonneg (dd_string_pool t)). rewrite !Z.mod_small by lia.
  rewrite <- dv_pool_offset0, <- dv_entry_offset0. by destruct (dd_header t).
Qed.
End Valid.

(** ** The codec *)
Lemma parse_directory_hint_entries_iff b count l :
  blen b = Z.of_nat count * 40 ->
  parse_directory_hint_entries b = Ok l
  <-> Forall DirectoryHintEntry_typed l /\ concat (map DirectoryHintEntry_to_bytes l) = b /\ length l = count.
Proof. exact (table_iff (A := DirectoryHintEntry) b count l). Qed.

Lemma parse_u32_array_iff b count l :
  blen b = Z.of_nat count * 4 ->
  parse_u32_array b "DirectoryHintTable" = Ok l
  <-> Forall (fun row => u32 row) l /\ concat (map (fun row => le_bytes 4 row) l) = b /\ length l = count.
Proof. exact (table_iff (E := u32_table) b count l). Qed.

Lemma blen_rows l : Forall (fun row => u32 row) l ->
  blen (concat (map (fun row => le_bytes 4 row) l)) = Z.of_nat (length l) * 4.
Proof. exact (table_blen (E := u32_table) l). Qed.

Lemma max_shard_list_end_le entries acc r :
  Forall DirectoryHintEntry_typed entries -> 0 <= acc <= 2 ^ 33 ->
  max_shard_list_end entries acc = Ok r -> acc <= r <= 2 ^ 33.
Proof.
  revert acc. induction entries as [|e l IH]; intros acc HT Hacc H; cbn [max_shard_list_end] in H.
  { injection H as <-. lia. }
  apply Forall_cons in HT as [He HT]. unfold DirectoryHintEntry_typed, fits in He. unfold shard_list_end in H.
  ok_inv. match goal with H : max_shard_list_end _ _ = _ |- _ => apply IH in H; [|done|lia] end. lia.
Qed.

Lemma directory_hint_string_pool_iff b header cursor pool c :
  DirectoryHintTableHeader_typed header -> 0 <= cursor < 2 ^ 64 ->
  directory_hint_string_pool b header cursor = Ok (pool, c)
  <-> dt_string_pool_offset header = (if dt_string_pool_size header =? 0 then 0 else cursor)
      /\ c = cursor + dt_string_pool_size header /\ c < 2 ^ 64
      /\ (dt_string_pool_size header = 0 \/ c <= blen b) /\ pool = seg b cursor c.
Proof.
  unfold DirectoryHintTableHeader_typed, fits. intros HT Hc. destruct HT as (_ & _ & _ & _ & _ & HT1 & HT2).
  unfold directory_hint_string_pool, meta_to_usize, expect_offset, meta_checked_add. cbv zeta.
  destruct (Z.eqb_spec (dt_string_pool_size header) 0) as [E|E].
  - rewrite E, Z.add_0_r. split.
    + intros H. ok_inv. rewrite negb_false_iff in *. rewrite seg_nil. split_and!; (done || lia).
    + intros (-> & -> & _ & _ & ->). by rewrite seg_nil.
  - rewrite (ok_or_eq (try_from 64 (dt_string_pool_offset header)) (dt_string_pool_offset header)) by (apply try_from_Some; unfold fits; lia).
    rewrite (ok_or_eq (try_from 64 (dt_string_pool_size header)) (dt_string_pool_size header)) by (apply try_from_Some; unfold fits; lia). split.
    + intros H. ok_inv. rewrite negb_false_iff in *.
      assert (dt_string_pool_offset header = cursor) as Ho by lia. rewrite Ho in *.
      match goal with H : meta_slice _ _ _ _ = _ |- _ => apply meta_slice_Ok in H as (_ & ? & ->); [|lia..] end.
      split_and!; try done; lia.
    + intros (Ho & -> & Hlt & Hb & ->). rewrite Ho, Z.eqb_refl. cbn [negb reject_if]. rewrite !bind_ret.
      rewrite meta_slice_eq, !bind_ret by lia. rewrite (ok_or_eq _ (cursor + dt_string_pool_size header)), bind_ret; [done|].
      apply checked_add_eq. lia.
Qed.

Section Codec.
Context {Sha : Sha256} {U : Unicode}.
Context (locating_shard : DirectoryHintShardEntry) (index_root_shard_count : Z) (limits : MetadataLimits).

Lemma validate_directory_hint_entries_iff entries b header r :
  Forall DirectoryHintEntry_typed entries -> u64 (dt_shard_list_offset header) ->
  validate_directory_hint_entries entries b header locating_shard index_root_shard_count = Ok r
  <-> index_root_shard_count <> 0 /\ entries <> []
      /\ check_hash_bounds entries locating_shard "first DirectoryHintEntry hash does not match locating row"
           "last DirectoryHintEntry hash does not match locating row" = Ok tt
      /\ max_shard_list_end entries 0 = Ok r
      /\ dt_shard_list_offset header + r * 4 < 2 ^ 64 /\ dt_shard_list_offset header + r * 4 <= blen b.
Proof.
  intros HT Hu. unfold validate_directory_hint_entries. cbv zeta. unfold fits in Hu. split.
  - intros H. apply bind_Ok in H as ([] & H1 & H). apply reject_if_Ok, Z.eqb_neq in H1.
    apply bind_Ok in H as ([] & H2 & H). apply reject_if_Ok, bool_decide_eq_false in H2.
    apply bind_Ok in H as ([] & H3 & H). apply bind_Ok in H as (m & Hm & H).
    pose proof (max_shard_list_end_le entries 0 m HT ltac:(lia) Hm). unfold meta_checked_mul, meta_to_usize, meta_checked_add in H.
    ok_inv. unfold checked_mul in *. case_match; [|done]. simplify_eq. split_and!; try done; lia.
  - intros (H1 & H2 & H3 & H4 & H5 & H6). pose proof (max_shard_list_end_le entries 0 r HT ltac:(lia) H4).
    rewrite (proj2 (Z.eqb_neq _ _) H1), (bool_decide_eq_false_2 _ H2), H3, H4. cbn [reject_if]. rewrite !bind_ret.
    unfold meta_checked_mul, meta_to_usize, meta_checked_add.
    rewrite (ok_or_eq (checked_mul 64 r 4) (r * 4)), bind_ret by (unfold checked_mul; by rewrite (proj2 (Z.ltb_lt _ _)) by lia).
    rewrite (ok_or_eq _ (dt_shard_list_offset header)), bind_ret by (apply try_from_Some; unfold fits; lia).
    rewrite (ok_or_eq _ (dt_shard_list_offset header + r * 4)), bind_ret by (apply checked_add_eq; lia).
    by rewrite (proj2 (Z.ltb_ge _ _) H6).
Qed.

Lemma mul_eq x y s : x * y < 2 ^ 64 -> meta_checked_mul x y s = Ok (x * y).
Proof. intros. unfold meta_checked_mul, checked_mul. by rewrite (proj2 (Z.ltb_lt _ _)). Qed.

Lemma add_eq x y s : x + y < 2 ^ 64 -> meta_checked_add x y s = Ok (x + y).
Proof. intros. unfold meta_checked_add. by apply ok_or_eq, checked_add_eq. Qed.

Lemma to_usize_eq x s : u64 x -> meta_to_usize x s = Ok x.
Proof. intros. unfold meta_to_usize. by apply ok_or_eq, try_from_Some. Qed.

Lemma mul_Ok x y s z : meta_checked_mul x y s = Ok z -> z = x * y /\ x * y < 2 ^ 64.
Proof. unfold meta_checked_mul, checked_mul. rewrite ok_or_Ok. case_match; [|done]. intros [= <-]. lia. Qed.

Lemma add_Ok x y s z : meta_checked_add x y s = Ok z -> z = x + y /\ x + y < 2 ^ 64.
Proof. unfold meta_checked_add. rewrite ok_or_Ok. intros [? ->]%checked_add_Some. lia. Qed.

Lemma DirectoryHintTable_parse_sound b t :
  DirectoryHintTable_parse b locating_shard index_root_shard_count limits = Ok t ->
  DirectoryHintTable_valid locating_shard index_root_shard_count limits t /\ DirectoryHintTable_to_bytes t = b.
Proof.
  unfold DirectoryHintTable_parse. cbv zeta.
  intros H. apply bind_Ok in H as ([] & Hl & H). apply reject_if_Ok, Z.ltb_ge in Hl.
  unfold DIRECTORY_HINT_TABLE_LEN in Hl. rewrite meta_read_array_eq, bind_ret in H by lia.
  apply bind_Ok in H as ([] & Hm & H). apply expect_magic_Ok in Hm.
  rewrite meta_slice_eq, bind_ret in H by lia. apply bind_Ok in H as ([] & Hz & H).
  apply expect_zero_Ok in Hz. rewrite blen_seg in Hz by lia. change (56 + 16 - 56) with 16 in Hz.
  apply bind_Ok in H as (h & Hh & H).
  destruct (proj1 (read_directory_hint_header_iff b h Hl) (conj Hh (conj Hm Hz))) as [HT Hbytes].
  pose proof HT as HT'. unfold DirectoryHintTableHeader_typed in HT'. destruct HT' as (_ & _ & Hu1 & _ & Hu2 & Hu3 & Hu4).
  apply bind_Ok in H as ([] & Hch & H). rewrite (to_usize_eq (dt_entry_count h)), bind_ret in H by done.
  apply bind_Ok in H as ([] & Heo & H). apply reject_if_Ok, negb_false_iff, Z.eqb_eq in Heo.
  apply bind_Ok in H as (el & Hel & H). apply mul_Ok in Hel as [-> Hel].
  apply bind_Ok in H as (ee & Hee & H). apply add_Ok in Hee as [-> Hee].
  apply bind_Ok in H as ([] & Hlo & H). apply reject_if_Ok, negb_false_iff, Z.eqb_eq in Hlo.
  apply bind_Ok in H as ([] & _ & H). unfold fits, DIRECTORY_HINT_TABLE_LEN, DIRECTORY_HINT_ENTRY_LEN in *.
  apply bind_Ok in H as (eb & Heb & H). apply meta_slice_Ok in Heb as (_ & Heb & ->); [|lia..].
  apply bind_Ok in H as (entries & He & H).
  apply (parse_directory_hint_entries_iff _ (Z.to_nat (dt_entry_count h))) in He as (Hv & Hb1 & Hn); [|rewrite blen_seg; lia].
  apply bind_Ok in H as (len & Hval & H).
  apply validate_directory_hint_entries_iff in Hval as (Hsc & Hne & Hbd & Hmax & Hs1 & Hs2); [|done|unfold fits; lia].
  pose proof (max_shard_list_end_le entries 0 len Hv ltac:(lia) Hmax).
  rewrite (to_usize_eq (dt_shard_list_offset h)), bind_ret, (mul_eq len), bind_ret, add_eq, bind_ret in H
    by (unfold fits; lia).
  apply bind_Ok in H as (rb & Hrb & H). apply meta_slice_Ok in Hrb as (_ & Hrb & ->); [|lia..].
  apply bind_Ok in H as (rows & Hr & H).
  apply (parse_u32_array_iff _ (Z.to_nat len)) in Hr as (Hrv & Hb2 & Hrn); [|rewrite blen_seg; lia].
  apply bind_Ok in H as ([pool c] & Hp & H).
  apply directory_hint_string_pool_iff in Hp as (Hpo & -> & Hc & _ & ->); [|done|lia].
  apply bind_Ok in H as ([] & Hfin & H). apply reject_if_Ok, negb_false_iff, Z.eqb_eq in Hfin.
  apply bind_Ok in H as (paths & Hpaths & H). apply mret_Ok in H as <-.
  match goal with |- DirectoryHintTable_valid _ _ _ ?s /\ _ => set (t0 := s) end.
  assert (Z.of_nat (length rows) = len) as Hrl by lia.
  assert (blen (seg b (dt_shard_list_offset h + len * 4) (dt_shard_list_offset h + len * 4 + dt_string_pool_size h))
          = dt_string_pool_size h) as Hpl by (rewrite blen_seg; lia).
  assert (DirectoryHintTable_valid locating_shard index_root_shard_count limits t0) as Hvalid.
  { unfold t0. constructor; cbn; unfold hint_pool_start, shard_list_start, DIRECTORY_HINT_TABLE_LEN,
      DIRECTORY_HINT_ENTRY_LEN; cbn; rewrite ?Hrl; try done; try lia.
    rewrite Hpo. destruct (_ =? 0); [done|lia]. }
  split; [done|]. unfold DirectoryHintTable_to_bytes. rewrite (canonical_hint_header_eq _ _ _ _ Hvalid). unfold t0.
  cbn [dd_header dd_entries dd_shard_row_indexes dd_string_pool]. rewrite (bool_decide_eq_false_2 _ Hne).
  rewrite Hbytes, Hb1, Hb2. unfold DIRECTORY_HINT_TABLE_LEN. rewrite Hlo.
  rewrite <- !seg_split by lia. rewrite Hlo in Hfin. rewrite <- Hfin. apply seg_full.
Qed.

Lemma DirectoryHintTable_parse_complete t :
  DirectoryHintTable_valid locating_shard index_root_shard_count limits t ->
  DirectoryHintTable_parse (DirectoryHintTable_to_bytes t) locating_shard index_root_shard_count limits = Ok t.
Proof.
  intros Hvalid. pose proof Hvalid as []. unfold DirectoryHintTable_to_bytes.
  rewrite (canonical_hint_header_eq _ _ _ _ Hvalid). pose proof (blen_DirectoryHintTableHeader _ dv_typed0) as Hbl.
  pose proof (check_directory_hint_header_some _ _ _ dv_header0) as Hne.
  assert (dd_entries t <> []) as Hne' by (intros E; rewrite E in dv_count0; done).
  rewrite (bool_decide_eq_false_2 _ Hne'). set (hb := DirectoryHintTableHeader_to_bytes (dd_header t)) in *.
  pose proof (table_blen (A := DirectoryHintEntry) _ dv_entries0) as Hb1. pose proof (blen_rows _ dv_rows0) as Hb2.
  cbn [entry_len entry_encode DirectoryHintEntry_table] in Hb1.
  set (t1 := concat (map DirectoryHintEntry_to_bytes _)) in *. set (t2 := concat (map (fun row => le_bytes 4 row) _)) in *.
  set (pool := dd_string_pool t) in *. pose proof (blen_nonneg pool).
  pose proof dv_typed0 as HT. unfold DirectoryHintTableHeader_typed in HT. destruct HT as (_ & _ & Hu1 & _ & Hu2 & Hu3 & Hu4).
  unfold hint_pool_start, shard_list_start, DIRECTORY_HINT_TABLE_LEN, DIRECTORY_HINT_ENTRY_LEN, fits in *.
  pose proof (max_shard_list_end_le _ 0 _ dv_entries0 ltac:(lia) dv_row_count0).
  unfold DirectoryHintTable_parse. cbv zeta. set (b := hb ++ t1 ++ t2 ++ pool).
  assert (blen b = 72 + blen t1 + blen t2 + blen pool) as Hlen by (unfold b; rewrite !blen_app; lia).
  assert (seg b 0 72 = hb) as Hs0 by (unfold b; rewrite seg_app_l by lia; rewrite <- Hbl; apply seg_full).
  destruct (proj2 (read_directory_hint_header_iff b (dd_header t) ltac:(unfold DIRECTORY_HINT_TABLE_LEN; lia)))
    as (Hread & Hm & Hz); [split; [done|]; unfold DIRECTORY_HINT_TABLE_LEN; by rewrite Hs0|].
  assert (seg b 72 (72 + blen t1) = t1) as Hs1.
  { unfold b. rewrite <- Hbl. apply seg_middle. }
  assert (seg b (72 + blen t1) (72 + blen t1 + blen t2) = t2) as Hs2.
  { unfold b. rewrite app_assoc, <- Hbl, <- blen_app. apply seg_middle. }
  assert (seg b (72 + blen t1 + blen t2) (72 + blen t1 + blen t2 + blen pool) = pool) as Hs3.
  { unfold b. replace (hb ++ t1 ++ t2 ++ pool) with ((hb ++ t1 ++ t2) ++ pool ++ [])
      by (by rewrite app_nil_r, <- !app_assoc).
    replace (72 + blen t1 + blen t2) with (blen (hb ++ t1 ++ t2)) by (rewrite !blen_app; lia). apply seg_middle. }
  rewrite (proj2 (Z.ltb_ge _ _)) by (unfold DIRECTORY_HINT_TABLE_LEN; lia). cbn [reject_if]. rewrite bind_ret.
  rewrite meta_read_array_eq, bind_ret by lia. rewrite (proj2 (expect_magic_Ok _ _ _ tt)), bind_ret by done.
  rewrite meta_slice_eq, bind_ret by lia. rewrite (expect_zero_eq _ _ 16), bind_ret by (done || lia).
  rewrite Hread, bind_ret, dv_header0, bind_ret.
  rewrite (to_usize_eq (dt_entry_count (dd_header t))), bind_ret by done.
  unfold expect_offset, DIRECTORY_HINT_TABLE_LEN, DIRECTORY_HINT_ENTRY_LEN in *.
  rewrite dv_entry_offset0. cbn [Z.eqb Pos.eqb negb reject_if]. rewrite bind_ret.
  rewrite (mul_eq (dt_entry_count (dd_header t))), bind_ret by lia. rewrite (add_eq 72), bind_ret by lia.
  rewrite dv_list_offset0, Z.eqb_refl. cbn [negb reject_if]. rewrite bind_ret.
  rewrite (proj2 (Z.eqb_eq _ 0)). 2: { replace (72 + _) with (0 + (18 + 10 * dt_entry_count (dd_header t)) * 4) by lia. by rewrite Z_mod_plus_full. }
  cbn [negb reject_if]. rewrite bind_ret. rewrite <- dv_count0 in Hb1. rewrite <- Hb1.
  rewrite (meta_slice_eq b 72), bind_ret, Hs1 by lia.
  rewrite (proj2 (parse_directory_hint_entries_iff t1 (length (dd_entries t)) (dd_entries t) ltac:(lia))), bind_ret by done.
  rewrite (proj2 (validate_directory_hint_entries_iff (dd_entries t) b (dd_header t)
    (Z.of_nat (length (dd_shard_row_indexes t))) dv_entries0 Hu2)), bind_ret.
  2: { split_and!; try done; rewrite ?dv_list_offset0; lia. }
  rewrite (to_usize_eq (72 + blen t1)), bind_ret by (unfold fits; lia).
  rewrite mul_eq, bind_ret by lia. rewrite <- Hb2. rewrite add_eq, bind_ret by lia.
  rewrite meta_slice_eq, bind_ret, Hs2 by lia.
  rewrite (proj2 (parse_u32_array_iff t2 (length (dd_shard_row_indexes t)) _ ltac:(lia))), bind_ret by done.
  rewrite (proj2 (directory_hint_string_pool_iff b (dd_header t) (72 + blen t1 + blen t2) pool
    (72 + blen t1 + blen t2 + blen pool) dv_typed0 ltac:(lia))), bind_ret.
  2: { rewrite dv_pool_size0, Hs3 in *. split_and!; try done; [|lia|right; lia]. rewrite dv_pool_offset0, Hb1, Hb2. done. }
  cbv beta iota. rewrite Hlen, Z.eqb_refl. cbn [negb reject_if]. rewrite bind_ret. fold pool in dv_paths0.
  rewrite dv_paths0, bind_ret. by destruct t.
Qed.
End Codec.

(** ** No panics *)
Lemma max_shard_list_end_no_panic l acc : max_shard_list_end l acc <> Panic.
Proof.
  revert acc. induction l as [|e l IH]; intros acc; cbn [max_shard_list_end]; [done|].
  apply bind_no_panic; [apply reject_if_no_panic|intros _ _].
  apply bind_no_panic; [apply ok_or_no_panic|auto].
Qed.

Lemma check_hash_bounds_no_panic l s r r' : l <> [] -> check_hash_bounds l s r r' <> Panic.
Proof.
  intros Hl. unfold check_hash_bounds. destruct (head l) eqn:E1; [|by destruct l].
  destruct (last l) eqn:E2; [no_panic|]. by apply last_None in E2.
Qed.

Section NoPanic.
Context {Sha : Sha256} {U : Unicode}.

Lemma validate_directory_hint_entries_no_panic l b h s n : validate_directory_hint_entries l b h s n <> Panic.
Proof.
  unfold validate_directory_hint_entries. cbv zeta. apply bind_no_panic; [apply reject_if_no_panic|intros _ _].
  apply bind_no_panic; [apply reject_if_no_panic|]. intros [] Hne. apply reject_if_Ok, bool_decide_eq_false in Hne.
  apply bind_no_panic; [by apply check_hash_bounds_no_panic|intros _ _].
  apply bind_no_panic; [apply max_shard_list_end_no_panic|intros ? _].
  unfold meta_to_usize, meta_checked_add, meta_checked_mul. no_panic.
Qed.

Lemma directory_hint_path_no_panic e p n : directory_hint_path e p n <> Panic.
Proof.
  unfold directory_hint_path. destruct (_ =? 0); [no_panic|].
  apply bind_no_panic; [apply string_slice_no_panic|intros ? _].
  apply bind_no_panic; [apply validate_directory_path_bytes_no_panic|done].
Qed.

Lemma validate_directory_hint_rows_no_panic e r n : validate_directory_hint_rows e r n <> Panic.
Proof.
  unfold validate_directory_hint_rows, shard_list_end. apply bind_no_panic; [apply ok_or_no_panic|intros ? _].
  apply bind_no_panic; [apply ok_or_no_panic|intros ? _].
  apply bind_no_panic; [apply for_windows_no_panic; intros; apply reject_if_no_panic|].
  intros _ _. apply reject_if_no_panic.
Qed.

Lemma directory_hint_paths_no_panic l rows pool n m paths seen :
  directory_hint_paths l rows pool n m paths seen <> Panic.
Proof.
  revert paths seen. induction l as [|e l IH]; intros paths seen; cbn [directory_hint_paths]; [done|].
  apply bind_no_panic; [apply directory_hint_path_no_panic|intros ? _].
  do 2 (apply bind_no_panic; [apply reject_if_no_panic|intros _ _]).
  apply bind_no_panic; [apply validate_directory_hint_rows_no_panic|intros _ _]. apply IH.
Qed.

Lemma validate_directory_hint_paths_and_lists_no_panic l rows pool s n m :
  l <> [] -> validate_directory_hint_paths_and_lists l rows pool s n m <> Panic.
Proof.
  intros Hl. unfold validate_directory_hint_paths_and_lists.
  apply bind_no_panic; [apply directory_hint_paths_no_panic|intros ? _].
  apply bind_no_panic; [apply for_windows_no_panic; intros; apply reject_if_no_panic|intros _ _].
  apply bind_no_panic; [by apply check_hash_bounds_no_panic|done].
Qed.

Lemma read_directory_hint_header_no_panic b : read_directory_hint_header b <> Panic.
Proof. unfold read_directory_hint_header. no_panic. Qed.

Lemma read_directory_hint_entry_no_panic b : read_directory_hint_entry b <> Panic.
Proof. unfold read_directory_hint_entry. no_panic. Qed.

Lemma directory_hint_string_pool_no_panic b h c : directory_hint_string_pool b h c <> Panic.
Proof.
  unfold directory_hint_string_pool, meta_to_usize, meta_checked_add. cbv zeta.
  apply bind_no_panic; [|intros ? _; apply bind_no_panic; [|done]]; no_panic; auto with no_panic.
Qed.

Lemma parse_directory_hint_entries_no_panic b : parse_directory_hint_entries b <> Panic.
Proof. apply map_result_no_panic. intros. apply read_directory_hint_entry_no_panic. Qed.

Lemma parse_u32_array_no_panic b s : parse_u32_array b s <> Panic.
Proof. apply map_result_no_panic. intros. apply meta_read_u32_no_panic. Qed.

#[local] Hint Resolve read_directory_hint_header_no_panic parse_directory_hint_entries_no_panic
  parse_u32_array_no_panic directory_hint_string_pool_no_panic validate_directory_hint_entries_no_panic
  validate_directory_hint_paths_and_lists_no_panic ok_or_no_panic : no_panic.

Lemma validate_directory_hint_entries_some l b h s n r :
  validate_directory_hint_entries l b h s n = Ok r -> l <> [].
Proof.
  intros H. unfold validate_directory_hint_entries in H. cbv zeta in H. apply bind_Ok in H as ([] & _ & H).
  apply bind_Ok in H as ([] & Hl & _). by apply reject_if_Ok, bool_decide_eq_false in Hl.
Qed.

Lemma DirectoryHintTable_parse_no_panic b s n limits : DirectoryHintTable_parse b s n limits <> Panic.
Proof.
  unfold DirectoryHintTable_parse, check_directory_hint_header, meta_to_usize, meta_checked_add, meta_checked_mul,
    expect_offset. cbv zeta.
  repeat lazymatch goal with
    | |- (x ← validate_directory_hint_entries _ _ _ _ _; _) <> Panic => fail
    | |- _ => apply bind_no_panic; [first [solve [auto with no_panic] | solve [no_panic]]|intros ? _]
    end.
  apply bind_no_panic; [auto with no_panic|]. intros len Hlen. apply validate_directory_hint_entries_some in Hlen.
  repeat (apply bind_no_panic; [first [solve [auto with no_panic] | solve [no_panic]]|intros ? _]).
  match goal with |- (let '(_, _) := ?x in _) <> Panic => destruct x end.
  repeat (apply bind_no_panic; [first [solve [auto with no_panic] | solve [no_panic]]|intros ? _]). done.
Qed.
End NoPanic.

(** ** What an accepted table says *)

(** The rows of an entry are a strictly ascending part of the shard table. *)
Definition rows_ok (index_root_shard_count : Z) (rows : list Z) : Prop :=
  rows <> []
  /\ (forall i j x y, (i < j)%nat -> rows !! i = Some x -> rows !! j = Some y -> x < y)
  /\ Forall (fun row => row < index_root_shard_count) rows.

Section Accepted.
Context {Sha : Sha256} {U : Unicode}.
Context (locating_shard : DirectoryHintShardEntry) (index_root_shard_count : Z) (limits : MetadataLimits).

Lemma validate_directory_hint_rows_Ok t i e :
  DirectoryHintEntry_typed e -> dh_shard_count e <> 0 -> dd_entries t !! i = Some e ->
  validate_directory_hint_rows e (dd_shard_row_indexes t) index_root_shard_count = Ok tt ->
  exists rows, shard_rows_for_entry t i = Some rows /\ rows_ok index_root_shard_count rows.
Proof.
  unfold DirectoryHintEntry_typed, fits. intros (_ & _ & _ & Hs & Hc) Hne Hi H.
  unfold validate_directory_hint_rows, shard_list_end in H.
  apply bind_Ok in H as (e' & He & H). apply ok_or_Ok in He. unfold shard_rows_for_entry. rewrite Hi, He.
  apply bind_Ok in H as (rows & Hr & H). apply ok_or_Ok in Hr. exists rows. split; [done|].
  apply checked_add_Some in He as [_ ->]. destruct (_ <=? _) eqn:E; [|done]. injection Hr as <-.
  apply bind_Ok in H as ([] & Hw & H). rewrite for_windows_Ok in Hw. apply reject_if_Ok in H. split; [|split].
  - intros Hn. apply (f_equal length) in Hn. rewrite length_take, length_drop in Hn. cbn in Hn. lia.
  - apply (windows_ascending (fun x => x)). intros k x y Hx Hy. pose proof (Hw k x y Hx Hy) as Hxy.
    apply reject_if_Ok in Hxy. lia.
  - rewrite existsb_Forall in H. eapply Forall_impl; [exact H|]. intros x Hx. cbn in Hx. lia.
Qed.

Lemma max_shard_list_end_counts l acc r :
  max_shard_list_end l acc = Ok r -> Forall (fun e => dh_shard_count e <> 0) l.
Proof.
  revert acc. induction l as [|e l IH]; intros acc H; cbn [max_shard_list_end] in H; [constructor|].
  apply bind_Ok in H as ([] & H1 & H). apply reject_if_Ok in H1. apply bind_Ok in H as (x & _ & H).
  constructor; [lia|by apply IH in H].
Qed.

(** Every entry gets a path with its hash. *)
Lemma directory_hint_paths_Ok l rows pool max paths seen paths' :
  directory_hint_paths l rows pool index_root_shard_count max paths seen = Ok paths' ->
  exists ps, paths' = paths ++ ps /\ Forall2 (fun e p => dh_dir_hash e = hash_prefix p
      /\ (p = [] \/ validate_directory_path_bytes p max = Ok tt)
      /\ validate_directory_hint_rows e rows index_root_shard_count = Ok tt) l ps.
Proof.
  revert paths seen. induction l as [|e l IH]; intros paths seen H; cbn [directory_hint_paths] in H.
  { injection H as <-. exists []. split; [by rewrite app_nil_r|constructor]. }
  apply bind_Ok in H as (p & Hp & H). apply bind_Ok in H as ([] & Hh & H).
  apply reject_if_Ok, negb_false_iff, bytes_eqb_eq in Hh. apply bind_Ok in H as ([] & _ & H).
  apply bind_Ok in H as ([] & Hr & H). apply IH in H as (ps & -> & Hps). exists (p :: ps).
  rewrite <- app_assoc. split; [done|]. constructor; [|done]. split_and!; [done| |done].
  unfold directory_hint_path in Hp. destruct (_ =? 0).
  - apply bind_Ok in Hp as ([] & _ & Hp). rewrite mret_Ok in Hp. by left.
  - apply bind_Ok in Hp as (q & _ & Hp). apply bind_Ok in Hp as ([] & Hv & Hp). rewrite mret_Ok in Hp. subst q. by right.
Qed.

(** What the checks of the entries leave. *)
Record hints_ok (t : DirectoryHintTable) : Prop := {
  ho_entry : Forall2 (fun e p => dh_dir_hash e = hash_prefix p
      /\ (p = [] \/ validate_directory_path_bytes p (lim_max_path_length limits) = Ok tt)
      /\ validate_directory_hint_rows e (dd_shard_row_indexes t) index_root_shard_count = Ok tt)
    (dd_entries t) (dd_entry_paths t);
  ho_typed : Forall DirectoryHintEntry_typed (dd_entries t);
  ho_counts : Forall (fun e => dh_shard_count e <> 0) (dd_entries t);
  ho_order : forall i j x y, (i < j)%nat ->
    zip (map dh_dir_hash (dd_entries t)) (dd_entry_paths t) !! i = Some x ->
    zip (map dh_dir_hash (dd_entries t)) (dd_entry_paths t) !! j = Some y -> lt x y
}.

Lemma DirectoryHintTable_hints_ok t :
  DirectoryHintTable_valid locating_shard index_root_shard_count limits t -> hints_ok t.
Proof.
  intros []. unfold validate_directory_hint_paths_and_lists in dv_paths0.
  apply bind_Ok in dv_paths0 as (ps & Hps & H). apply directory_hint_paths_Ok in Hps as (ps' & -> & Hps).
  apply bind_Ok in H as ([] & Hw & H). apply bind_Ok in H as ([] & _ & H). rewrite mret_Ok in H. cbn [app] in H.
  subst ps'. split; [done|done|by eapply max_shard_list_end_counts|].
  rewrite for_windows_Ok in Hw. apply windows_transitive; [apply _|]. intros i x y Hx Hy.
  pose proof (Hw i x y Hx Hy) as Hxy. apply reject_if_Ok in Hxy. unfold lt. unfold leb in Hxy.
  by apply negb_false_iff in Hxy.
Qed.

Section Lookup.
Context (t : DirectoryHintTable) (Hok : hints_ok t) (target : bytes).

Let key (i : nat) : option (bytes * bytes) := zip (map dh_dir_hash (dd_entries t)) (dd_entry_paths t) !! i.

Lemma hint_key_Some i x :
  key i = Some x <-> exists e, dd_entries t !! i = Some e /\ dh_dir_hash e = x.1 /\ dd_entry_paths t !! i = Some x.2.
Proof.
  unfold key. destruct x as [h p]. rewrite lookup_zip_Some. change (map dh_dir_hash (dd_entries t)) with (dh_dir_hash <$> dd_entries t).
  rewrite list_lookup_fmap_Some. cbn. naive_solver.
Qed.

Lemma hint_key_exists i :
  (i < length (dd_entries t))%nat -> exists p, key i = Some (hash_prefix p, p) /\ dd_entry_paths t !! i = Some p.
Proof.
  intros Hi. destruct (lookup_lt_is_Some_2 _ _ Hi) as [e He].
  destruct (Forall2_lookup_l _ _ _ _ _ (ho_entry _ Hok) He) as (p & Hp & Hh & _). exists p. split; [|done].
  apply hint_key_Some. by exists e.
Qed.

Lemma directory_key_is_less_iff i x :
  key i = Some x -> directory_key_is_less t (hash_prefix target) target i = true
                    <-> lt x (hash_prefix target, target).
Proof.
  intros Hk. apply hint_key_Some in Hk as (e & He & Hh & Hp). destruct x as [h p]. cbn in Hh, Hp. subst h.
  unfold directory_key_is_less. rewrite He, Hp, lt_pair, orb_true_iff, andb_true_iff, bytes_eqb_eq. done.
Qed.

Lemma lookup_directory_index_Some i :
  lookup_directory_index t target = Some i <-> dd_entry_paths t !! i = Some target.
Proof.
  assert (length (dd_entry_paths t) = length (dd_entries t)) as Hlen
    by (symmetry; apply (Forall2_length _ _ _ (ho_entry _ Hok))).
  destruct (lower_bound_spec (directory_key_is_less t (hash_prefix target) target) (length (dd_entries t)))
    as (H1 & H2 & H3).
  { intros k j Hkj Hj. destruct (decide (k = j)) as [->|Hne]; [done|].
    destruct (hint_key_exists k) as (p & Hk & _); [lia|]. destruct (hint_key_exists j) as (q & Hq & _); [lia|].
    apply (directory_key_is_less_iff k _ Hk). apply (directory_key_is_less_iff j _ Hq) in Hj.
    eapply lt_trans; [|exact Hj]. apply (ho_order _ Hok k j); [lia|done..]. }
  unfold lookup_directory_index. cbv zeta. fold (lower_bound_directory_key t (hash_prefix target) target) in *.
  set (r := lower_bound_directory_key t (hash_prefix target) target) in *. split.
  - intros H. destruct (dd_entries t !! r) as [e|]; [|done]. destruct (dd_entry_paths t !! r) as [p|] eqn:Hp; [|done].
    destruct (_ && _) eqn:E; [|done]. injection H as <-. apply andb_true_iff in E as [_ E].
    apply bytes_eqb_eq in E as ->. done.
  - intros Hi. destruct (hint_key_exists i) as (p & Hk & Hp); [rewrite <- Hlen; by apply lookup_lt_Some in Hi|].
    rewrite Hp in Hi. injection Hi as ->.
    assert (i < length (dd_entries t))%nat as Hil by (rewrite <- Hlen; by apply lookup_lt_Some in Hp).
    assert (r = i) as ->.
    { destruct (Nat.lt_trichotomy r i) as [Hlt|[?|Hgt]]; [|done|].
      - destruct (hint_key_exists r) as (q & Hr & _); [lia|].
        pose proof (ho_order _ Hok r i _ _ Hlt Hr Hk) as Hl. apply (directory_key_is_less_iff r _ Hr) in Hl.
        rewrite H3 in Hl; [done|]. lia.
      - specialize (H2 i Hgt). apply (directory_key_is_less_iff i _ Hk) in H2. by apply lt_irrefl in H2. }
    apply hint_key_Some in Hk as (e & He & Hh & _). cbn in Hh. rewrite He, Hp, Hh.
    by rewrite !(proj2 (bytes_eqb_eq _ _)).
Qed.
End Lookup.
End Accepted.

(** ** Theorems *)

(** A table of directory hints.  [DirectoryHintTable_parse] accepts exactly
    what [to_bytes] makes of a valid table and returns that table; it never
    panics. *)
Theorem directory_hint_codec {Sha : Sha256} {U : Unicode} b locating_shard index_root_shard_count limits t :
  (DirectoryHintTable_parse b locating_shard index_root_shard_count limits = Ok t
   <-> DirectoryHintTable_valid locating_shard index_root_shard_count limits t
       /\ DirectoryHintTable_to_bytes t = b)
  /\ DirectoryHintTable_parse b locating_shard index_root_shard_count limits <> Panic.
Proof.
  split; [|apply DirectoryHintTable_parse_no_panic]. split; [apply DirectoryHintTable_parse_sound|].
  intros [H <-]. by apply DirectoryHintTable_parse_complete.
Qed.

(** C30: The hints of a directory.  In an accepted table the lookup finds the one
    entry of a directory whenever there is one; the path is the empty path of
    the root or one that passes the checks of a directory path; and the entry
    names at least one row of the shard table, in strictly ascending order and
    none outside the table. *)
Theorem directory_hints_correct {Sha : Sha256} {U : Unicode} b locating_shard index_root_shard_count limits t dir :
  DirectoryHintTable_parse b locating_shard index_root_shard_count limits = Ok t ->
  match lookup_directory_index t dir with
  | Some i =>
      (forall j, DirectoryHintTable_entry_path t j = Some dir <-> j = i)
      /\ (dir = [] \/ validate_directory_path_bytes dir (lim_max_path_length limits) = Ok tt)
      /\ exists rows, shard_rows_for_entry t i = Some rows /\ rows_ok index_root_shard_count rows
  | None => forall j, DirectoryHintTable_entry_path t j <> Some dir
  end.
Proof.
  intros [Hv _]%DirectoryHintTable_parse_sound. pose proof (DirectoryHintTable_hints_ok _ _ _ _ Hv) as Hok.
  pose proof (lookup_directory_index_Some _ _ t Hok dir) as Hl. unfold DirectoryHintTable_entry_path.
  destruct (lookup_directory_index t dir) as [i|].
  - pose proof (proj1 (Hl i) eq_refl) as Hi. split_and!.
    + intros j. rewrite <- Hl. split; [by intros [= <-]|by intros ->].
    + destruct (Forall2_lookup_r _ _ _ _ _ (ho_entry _ _ _ Hok) Hi) as (e & _ & _ & Hd & _). done.
    + destruct (Forall2_lookup_r _ _ _ _ _ (ho_entry _ _ _ Hok) Hi) as (e & He & _ & _ & Hr).
      apply (validate_directory_hint_rows_Ok _ t i e); [| |done..].
      * by apply (Forall_lookup_1 _ _ _ _ (ho_typed _ _ _ Hok) He).
      * by apply (Forall_lookup_1 _ _ _ _ (ho_counts _ _ _ Hok) He).
  - intros j Hj. by apply Hl in Hj.
Qed.

(** ** Concrete inputs

    The root directory, with files in three shards, and a directory below it. *)
Definition example_hints : DirectoryHintTable := {|
  dd_header := {| dt_version := 1; dt_hint_shard_index := 0; dt_entry_count := 2;
    dt_entry_table_offset := 72; dt_shard_list_offset := 152; dt_string_pool_offset := 168;
    dt_string_pool_size := 4 |};
  dd_entries := [
    {| dh_dir_hash := replicate 8 Byte.x30; dh_path_offset := 0; dh_path_length := 0;
       dh_shard_list_start_index := 0; dh_shard_count := 3 |};
    {| dh_dir_hash := replicate 8 Byte.x30; dh_path_offset := 0; dh_path_length := 4;
       dh_shard_list_start_index := 3; dh_shard_count := 1 |}];
  dd_shard_row_indexes := [0; 1; 2; 1];
  dd_string_pool := ascii "docs";
  dd_entry_paths := [[]; ascii "docs"] |}.

Definition example_hint_location : DirectoryHintShardEntry := {|
  de_hint_shard_index := 0; de_first_dir_hash := replicate 8 Byte.x30;
  de_last_dir_hash := replicate 8 Byte.x30; de_first_block_index := 30; de_data_block_count := 1;
  de_parity_block_count := 1; de_encrypted_size := 4096; de_decompressed_size := 172; de_entry_count := 2 |}.

Lemma example_hints_parses :
  DirectoryHintTable_parse (Sha := constant_Sha256) (U := toy_Unicode) (DirectoryHintTable_to_bytes example_hints)
    example_hint_location 3 MetadataLimits_default = Ok example_hints.
Proof. vm_compute. reflexivity. Qed.

Lemma directory_hints_correct_witness :
  lookup_directory_index (Sha := constant_Sha256) example_hints (ascii "docs") = Some 1%nat
  /\ shard_rows_for_entry example_hints 1 = Some [1]
  /\ lookup_directory_index (Sha := constant_Sha256) example_hints (ascii "src") = None
  /\ forall j, DirectoryHintTable_entry_path example_hints j = Some (ascii "docs") <-> j = 1%nat.
Proof.
  split; [vm_compute; reflexivity|]. split; [vm_compute; reflexivity|]. split; [vm_compute; reflexivity|].
  exact (proj1 (directory_hints_correct (Sha := constant_Sha256) (U := toy_Unicode) _ _ _ _ _ (ascii "docs")
           example_hints_parses)).
Defined.
