(* ===== verification/VolumeHeader.v ===== *)
(** * The volume header, [VolumeHeader] of [crates/tzap-core/src/wire.rs]

    The 128 bytes at the start of every volume. *)

From S2P Require Import Wire.
#[local] Open Scope Z_scope.

Record VolumeHeader : Type := {
  vh_format_version : Z;
  vh_volume_format_rev : Z;
  vh_volume_index : Z;
  vh_stripe_width : Z;
  vh_archive_uuid : bytes;
  vh_session_id : bytes;
  vh_crypto_header_offset : Z;
  vh_crypto_header_length : Z;
  vh_header_crc32c : Z
}.

Definition VolumeHeader_validate (self : VolumeHeader) : fresult unit :=
  reject_if (negb (vh_format_version self =? FORMAT_VERSION))
    (UnsupportedFormatVersion (vh_format_version self));;
  reject_if (vh_stripe_width self =? 0) ZeroStripeWidth;;
  reject_if (vh_stripe_width self <=? vh_volume_index self)
    (VolumeIndexOutOfRange (vh_volume_index self) (vh_stripe_width self));;
  reject_if (negb (vh_crypto_header_offset self =? VOLUME_HEADER_LEN))
    (NonCanonicalCryptoHeaderOffset (vh_crypto_header_offset self));;
  reject_if (READER_MAX_CRYPTO_HEADER_LEN <? vh_crypto_header_length self)
    (ReaderResourceLimitExceeded "CryptoHeader length" READER_MAX_CRYPTO_HEADER_LEN
       (vh_crypto_header_length self)).

Definition VolumeHeader_parse_volume_format_revision (self : VolumeHeader)
    : fresult VolumeFormatRevision :=
  ok_or (VolumeFormatRevision_from_u16 (vh_volume_format_rev self))
    (UnsupportedVolumeFormatRevision (vh_format_version self) (vh_volume_format_rev self)
       READER_MAX_SUPPORTED_VOLUME_FORMAT_REV).

Section VolumeHeader.
Context {C : Crc32c}.

Definition VolumeHeader_parse (b : bytes) : fresult VolumeHeader :=
  expect_len "VolumeHeader" VOLUME_HEADER_LEN (blen b);;
  magic ← slice b 0 4;
  expect_magic "VolumeHeader" TZAP_MAGIC magic;;
  covered ← slice b 0 124;
  crc ← read_u32 b 124;
  expect_crc "VolumeHeader" covered crc;;
  reserved ← slice b 56 124;
  expect_zero "VolumeHeader" reserved;;
  format_version ← read_u16 b 4;
  volume_format_rev ← read_u16 b 6;
  volume_index ← read_u32 b 8;
  stripe_width ← read_u32 b 12;
  archive_uuid ← read_array_16 b 16;
  session_id ← read_array_16 b 32;
  crypto_header_offset ← read_u32 b 48;
  crypto_header_length ← read_u32 b 52;
  header_crc32c ← read_u32 b 124;
  let header := {|
    vh_format_version := format_version;
    vh_volume_format_rev := volume_format_rev;
    vh_volume_index := volume_index;
    vh_stripe_width := stripe_width;
    vh_archive_uuid := archive_uuid;
    vh_session_id := session_id;
    vh_crypto_header_offset := crypto_header_offset;
    vh_crypto_header_length := crypto_header_length;
    vh_header_crc32c := header_crc32c |} in
  VolumeHeader_validate header;;
  mret header.

Definition VolumeHeader_to_bytes (self : VolumeHeader) : bytes :=
  put_crc (puts (zeros VOLUME_HEADER_LEN)
    [write_bytes 0 TZAP_MAGIC;
     write_u16 4 (vh_format_version self);
     write_u16 6 (vh_volume_format_rev self);
     write_u32 8 (vh_volume_index self);
     write_u32 12 (vh_stripe_width self);
     write_bytes 16 (vh_archive_uuid self);
     write_bytes 32 (vh_session_id self);
     write_u32 48 (vh_crypto_header_offset self);
     write_u32 52 (vh_crypto_header_length self)]) 124.

(** The Rust types of the fields. *)
Definition VolumeHeader_typed (h : VolumeHeader) : Prop :=
  u16 (vh_format_version h) /\ u16 (vh_volume_format_rev h)
  /\ u32 (vh_volume_index h) /\ u32 (vh_stripe_width h)
  /\ blen (vh_archive_uuid h) = 16 /\ blen (vh_session_id h) = 16
  /\ u32 (vh_crypto_header_offset h) /\ u32 (vh_crypto_header_length h).

(** A typed header that passes [validate] and records its own checksum. *)
Definition VolumeHeader_valid (h : VolumeHeader) : Prop :=
  VolumeHeader_typed h /\ VolumeHeader_validate h = Ok tt
  /\ vh_header_crc32c h = crc32c (seg (VolumeHeader_to_bytes h) 0 124).

Lemma VolumeHeader_decode_iff b h :
  VolumeHeader_parse b = Ok h <-> VolumeHeader_valid h /\ VolumeHeader_to_bytes h = b.
Proof.
  unfold VolumeHeader_valid, VolumeHeader_typed. split.
  - intros H. unfold VolumeHeader_parse in H. bind_inv H. subst h. destruct r16.
    wire_encoded VolumeHeader_to_bytes.
  - intros [(HT & Hv & Hc) Hb]. rewrite Hb in Hc. destruct h. cbn in HT, Hc. destruct_and!.
    unfold VolumeHeader_to_bytes in Hb. wire_segments Hb.
    unfold VolumeHeader_parse. unfold_consts. by wire_run.
Qed.

#[export] Instance VolumeHeader_wire : WireFormat VolumeHeader := {|
  encode := VolumeHeader_to_bytes;
  decode := VolumeHeader_parse;
  valid := VolumeHeader_valid;
  decode_iff := VolumeHeader_decode_iff
|}.

Lemma VolumeHeader_validate_no_panic h : VolumeHeader_validate h <> Panic.
Proof. unfold VolumeHeader_validate. no_panic. Qed.

#[local] Hint Resolve VolumeHeader_validate_no_panic : no_panic.

Lemma VolumeHeader_parse_no_panic b : VolumeHeader_parse b <> Panic.
Proof. unfold VolumeHeader_parse. unfold_consts. no_panic. Qed.

(** ** Theorems *)

(** The volume header.  [VolumeHeader_parse] accepts exactly the 128 bytes
    that [to_bytes] makes of a header with the supported format version, a
    non-zero stripe width above the volume index, the canonical offset of the
    crypto header and a length within the reader's cap; it returns that header,
    with the checksum of its first 124 bytes, and it never panics.  In
    particular every other byte string is rejected, and no two headers share
    an encoding. *)
Theorem volume_header_codec b h :
  (VolumeHeader_parse b = Ok h
   <-> (VolumeHeader_typed h
        /\ vh_format_version h = FORMAT_VERSION
        /\ vh_volume_index h < vh_stripe_width h
        /\ vh_crypto_header_offset h = VOLUME_HEADER_LEN
        /\ vh_crypto_header_length h <= READER_MAX_CRYPTO_HEADER_LEN
        /\ vh_header_crc32c h = crc32c (seg b 0 124))
       /\ VolumeHeader_to_bytes h = b)
  /\ VolumeHeader_parse b <> Panic.
Proof.
  split; [|apply VolumeHeader_parse_no_panic]. rewrite VolumeHeader_decode_iff.
  unfold VolumeHeader_valid, VolumeHeader_validate. split.
  - intros [(HT & Hv & Hc) <-]. bind_inv Hv. apply reject_if_Ok in Hv. wire_eqs. split_and!; try done; lia.
  - intros [(HT & H1 & H2 & H3 & H4 & Hc) <-]. split_and!; try done.
    rewrite H1, H3. assert (0 <= vh_volume_index h) by apply HT. by run.
Qed.
End VolumeHeader.
