(* ===== verification/Kdf.v ===== *)
(** * Key-derivation parameters

    [KdfParams] of [crates/tzap-core/src/crypto.rs]: the parameters of the key
    derivation as the reader parses and bounds them, and as
    [serialize_kdf_params] of [crates/tzap-core/src/writer/envelope.rs] writes
    them.  The two readers [read_u16] and [read_u32] of crypto.rs are those of
    wire.rs. *)

From S2P Require Import Wire.
#[local] Open Scope Z_scope.

Definition RAW_KDF_PARAMS_LEN : Z := 2.
Definition NONE_KDF_PARAMS_LEN : Z := 2.
Definition ARGON2ID_FIXED_PARAMS_LEN : Z := 16.
Definition RECIPIENT_WRAP_KDF_PARAMS_LEN : Z := 46.
Definition ARGON2ID_MIN_SALT_LEN : Z := 8.
Definition ARGON2ID_MAX_SALT_LEN : Z := 64.
Definition RECIPIENT_WRAP_TABLE_VERSION : Z := 1.

Inductive KdfParams : Type :=
  | KdfNone
  | KdfRaw
  | KdfArgon2id (t_cost m_cost_kib parallelism : Z) (salt : bytes)
  | KdfRecipientWrap (key_wrap_table_length key_wrap_table_record_count
      key_wrap_table_version : Z) (key_wrap_table_digest : bytes).

Definition parse_raw_kdf_params (b : bytes) : fresult (KdfParams * Z) :=
  reject_if (blen b <? RAW_KDF_PARAMS_LEN) TruncatedKdfParams;;
  algo_tag ← read_u16 b 0;
  reject_if (negb (algo_tag =? KdfAlgo.to_Z KdfAlgo.Raw))
    (KdfAlgoTagMismatch (KdfAlgo.to_Z KdfAlgo.Raw) algo_tag);;
  mret (KdfRaw, RAW_KDF_PARAMS_LEN).

Definition parse_none_kdf_params (b : bytes) : fresult (KdfParams * Z) :=
  reject_if (blen b <? NONE_KDF_PARAMS_LEN) TruncatedKdfParams;;
  algo_tag ← read_u16 b 0;
  reject_if (negb (algo_tag =? KdfAlgo.to_Z KdfAlgo.None))
    (KdfAlgoTagMismatch (KdfAlgo.to_Z KdfAlgo.None) algo_tag);;
  mret (KdfNone, NONE_KDF_PARAMS_LEN).

(** [!(ARGON2ID_MIN_SALT_LEN..=ARGON2ID_MAX_SALT_LEN).contains(&salt_length)] *)
Definition bad_salt_length (salt_length : Z) : bool :=
  negb ((ARGON2ID_MIN_SALT_LEN <=? salt_length) && (salt_length <=? ARGON2ID_MAX_SALT_LEN)).

Definition validate_argon2id_bounds (t_cost m_cost_kib parallelism salt_length : Z) : fresult unit :=
  reject_if (bad_salt_length salt_length)
    (InvalidKdfParams "argon2id salt length must be 8..64 bytes");;
  reject_if (t_cost =? 0) (InvalidKdfParams "argon2id t_cost must be non-zero");;
  reject_if (READER_MAX_ARGON2ID_T_COST <? t_cost)
    (ReaderResourceLimitExceeded "argon2id t_cost" READER_MAX_ARGON2ID_T_COST t_cost);;
  reject_if (parallelism =? 0) (InvalidKdfParams "argon2id parallelism must be non-zero");;
  reject_if (READER_MAX_ARGON2ID_PARALLELISM <? parallelism)
    (ReaderResourceLimitExceeded "argon2id parallelism" READER_MAX_ARGON2ID_PARALLELISM parallelism);;
  reject_if (READER_MAX_ARGON2ID_M_COST_KIB <? m_cost_kib)
    (ReaderResourceLimitExceeded "argon2id m_cost_kib" READER_MAX_ARGON2ID_M_COST_KIB m_cost_kib);;
  memory_time_product ← ok_or (checked_mul 64 t_cost m_cost_kib)
    (InvalidKdfParams "argon2id work product overflow");
  reject_if (READER_MAX_ARGON2ID_MEMORY_TIME_PRODUCT <? memory_time_product)
    (ReaderResourceLimitExceeded "argon2id m_cost_kib × t_cost"
       READER_MAX_ARGON2ID_MEMORY_TIME_PRODUCT memory_time_product);;
  min_memory ← ok_or (checked_mul 32 parallelism 8)
    (InvalidKdfParams "argon2id memory requirement overflow");
  reject_if (m_cost_kib <? min_memory)
    (InvalidKdfParams "argon2id memory must be at least 8 KiB per lane").

Definition parse_argon2id_kdf_params (b : bytes) : fresult (KdfParams * Z) :=
  reject_if (blen b <? ARGON2ID_FIXED_PARAMS_LEN) TruncatedKdfParams;;
  algo_tag ← read_u16 b 0;
  reject_if (negb (algo_tag =? KdfAlgo.to_Z KdfAlgo.Argon2id))
    (KdfAlgoTagMismatch (KdfAlgo.to_Z KdfAlgo.Argon2id) algo_tag);;
  t_cost ← read_u32 b 2;
  m_cost_kib ← read_u32 b 6;
  parallelism ← read_u32 b 10;
  salt_length ← read_u16 b 14;
  reject_if (bad_salt_length salt_length)
    (InvalidKdfParams "argon2id salt length must be 8..64 bytes");;
  reject_if (t_cost =? 0) (InvalidKdfParams "argon2id t_cost must be non-zero");;
  reject_if (parallelism =? 0) (InvalidKdfParams "argon2id parallelism must be non-zero");;
  validate_argon2id_bounds t_cost m_cost_kib parallelism salt_length;;
  let total_len := ARGON2ID_FIXED_PARAMS_LEN + salt_length in
  reject_if (blen b <? total_len) TruncatedKdfParams;;
  salt ← slice b ARGON2ID_FIXED_PARAMS_LEN total_len;
  mret (KdfArgon2id t_cost m_cost_kib parallelism salt, total_len).

Definition parse_recipient_wrap_kdf_params (b : bytes) : fresult (KdfParams * Z) :=
  reject_if (blen b <? RECIPIENT_WRAP_KDF_PARAMS_LEN) TruncatedKdfParams;;
  algo_tag ← read_u16 b 0;
  reject_if (negb (algo_tag =? KdfAlgo.to_Z KdfAlgo.RecipientWrap))
    (KdfAlgoTagMismatch (KdfAlgo.to_Z KdfAlgo.RecipientWrap) algo_tag);;
  key_wrap_table_length ← read_u32 b 2;
  key_wrap_table_record_count ← read_u32 b 6;
  table_version ← read_u16 b 10;
  reject_if (key_wrap_table_length =? 0)
    (InvalidKdfParams "recipient-wrap key_wrap_table_length must be non-zero");;
  reject_if (READER_MAX_KEY_WRAP_TABLE_LEN <? key_wrap_table_length)
    (ReaderResourceLimitExceeded "KeyWrapTableV1 length" READER_MAX_KEY_WRAP_TABLE_LEN
       key_wrap_table_length);;
  reject_if (READER_MAX_KEY_WRAP_TABLE_RECIPIENT_RECORDS <? key_wrap_table_record_count)
    (ReaderResourceLimitExceeded "KeyWrapTableV1 recipient_record_count"
       READER_MAX_KEY_WRAP_TABLE_RECIPIENT_RECORDS key_wrap_table_record_count);;
  reject_if (negb (table_version =? RECIPIENT_WRAP_TABLE_VERSION))
    (InvalidKdfParams "recipient-wrap table version must be 1");;
  reserved ← read_u16 b 12;
  reject_if (negb (reserved =? 0))
    (InvalidKdfParams "recipient-wrap reserved bytes must be zero");;
  key_wrap_table_digest ← slice b 14 RECIPIENT_WRAP_KDF_PARAMS_LEN;
  mret (KdfRecipientWrap key_wrap_table_length key_wrap_table_record_count table_version
          key_wrap_table_digest, RECIPIENT_WRAP_KDF_PARAMS_LEN).

Definition KdfParams_parse (algo : KdfAlgo.t) (b : bytes) : fresult (KdfParams * Z) :=
  match algo with
  | KdfAlgo.Raw => parse_raw_kdf_params b
  | KdfAlgo.Argon2id => parse_argon2id_kdf_params b
  | KdfAlgo.None => parse_none_kdf_params b
  | KdfAlgo.RecipientWrap => parse_recipient_wrap_kdf_params b
  end.

(** The [kdf_algo] that [build_crypto_header] records for the parameters. *)
Definition kdf_algo_of (params : KdfParams) : KdfAlgo.t :=
  match params with
  | KdfNone => KdfAlgo.None
  | KdfRaw => KdfAlgo.Raw
  | KdfArgon2id _ _ _ _ => KdfAlgo.Argon2id
  | KdfRecipientWrap _ _ _ _ => KdfAlgo.RecipientWrap
  end.

Definition serialize_kdf_params (params : KdfParams) : fresult bytes :=
  match params with
  | KdfNone => mret (le_bytes 2 (KdfAlgo.to_Z KdfAlgo.None))
  | KdfRaw => mret (le_bytes 2 (KdfAlgo.to_Z KdfAlgo.Raw))
  | KdfArgon2id t_cost m_cost_kib parallelism salt =>
      reject_if (t_cost =? 0) (InvalidKdfParams "t_cost must be non-zero");;
      reject_if (parallelism =? 0) (InvalidKdfParams "parallelism must be non-zero");;
      min_memory ← ok_or (checked_mul 32 parallelism 8)
        (InvalidKdfParams "m_cost_kib requirement overflow");
      reject_if (m_cost_kib <? min_memory)
        (InvalidKdfParams "m_cost_kib must be at least 8 * parallelism");;
      reject_if (negb ((8 <=? blen salt) && (blen salt <=? 64)))
        (InvalidKdfParams "argon2id salt length must be 8..64");;
      salt_len ← ok_or (try_from 16 (blen salt)) (InvalidKdfParams "argon2id salt too long");
      mret (le_bytes 2 (KdfAlgo.to_Z KdfAlgo.Argon2id) ++ le_bytes 4 t_cost
              ++ le_bytes 4 m_cost_kib ++ le_bytes 4 parallelism ++ le_bytes 2 salt_len ++ salt)
  | KdfRecipientWrap key_wrap_table_length key_wrap_table_record_count key_wrap_table_version
      key_wrap_table_digest =>
      mret (le_bytes 2 (KdfAlgo.to_Z KdfAlgo.RecipientWrap) ++ le_bytes 4 key_wrap_table_length
              ++ le_bytes 4 key_wrap_table_record_count ++ le_bytes 2 key_wrap_table_version
              ++ le_bytes 2 0 ++ key_wrap_table_digest)
  end.

(** ** The reader accepts exactly what the writer writes, within the limits *)

(** The Rust types of the fields, and the reader's limits on them. *)
Definition KdfParams_valid (params : KdfParams) : Prop :=
  match params with
  | KdfNone | KdfRaw => True
  | KdfArgon2id t_cost m_cost_kib parallelism salt =>
      u32 t_cost /\ u32 m_cost_kib /\ u32 parallelism
      /\ validate_argon2id_bounds t_cost m_cost_kib parallelism (blen salt) = Ok tt
  | KdfRecipientWrap len count version digest =>
      u32 len /\ u32 count /\ version = RECIPIENT_WRAP_TABLE_VERSION /\ blen digest = 32
      /\ 0 < len <= READER_MAX_KEY_WRAP_TABLE_LEN
      /\ count <= READER_MAX_KEY_WRAP_TABLE_RECIPIENT_RECORDS
  end.

(** The bytes [serialize_kdf_params] makes when it does not refuse. *)
Definition kdf_bytes (params : KdfParams) : bytes :=
  match serialize_kdf_params params with Ok b => b | _ => [] end.

Lemma argon2id_bounds_inv t m p s :
  validate_argon2id_bounds t m p s = Ok tt ->
  8 <= s <= 64 /\ t <> 0 /\ t <= 100 /\ p <> 0 /\ p <= 64 /\ p * 8 <= m <= 4 * 1024 * 1024
  /\ t * m <= 16 * 1024 * 1024.
Proof.
  unfold validate_argon2id_bounds. intros H. bind_inv H. apply reject_if_Ok in H.
  unfold bad_salt_length, ARGON2ID_MIN_SALT_LEN, ARGON2ID_MAX_SALT_LEN, checked_mul in *.
  unfold_consts. repeat match goal with H : ok_or _ _ = Ok _ |- _ => apply ok_or_Ok in H end.
  repeat case_match; simplify_eq. lia.
Qed.

Lemma argon2id_bounds_intro t m p s :
  8 <= s <= 64 -> 0 < t <= 100 -> 0 < p <= 64 -> p * 8 <= m <= 4 * 1024 * 1024 ->
  t * m <= 16 * 1024 * 1024 ->
  validate_argon2id_bounds t m p s = Ok tt.
Proof.
  intros. unfold validate_argon2id_bounds, bad_salt_length, ARGON2ID_MIN_SALT_LEN,
    ARGON2ID_MAX_SALT_LEN, checked_mul. unfold_consts.
  replace (t * m <? 2 ^ 64) with true by lia. replace (p * 8 <? 2 ^ 32) with true by lia.
  cbn [ok_or]. by run.
Qed.

Lemma serialize_kdf_params_valid params :
  KdfParams_valid params -> serialize_kdf_params params = Ok (kdf_bytes params).
Proof.
  intros Hv. assert (exists b, serialize_kdf_params params = Ok b) as [b Hb];
    [|unfold kdf_bytes; by rewrite Hb].
  destruct params as [| |t m p salt|len count version digest]; try by eexists.
  cbn in Hv. destruct Hv as (Ht & Hm & Hp & Hb%argon2id_bounds_inv). unfold fits in *.
  eexists. unfold serialize_kdf_params, checked_mul. replace (p * 8 <? 2 ^ 32) with true by lia.
  rewrite (proj2 (try_from_Some 16 (blen salt) (blen salt))) by (unfold fits; lia). cbn [ok_or].
  run. done.
Qed.

Lemma parse_kdf_sound algo b params n :
  KdfParams_parse algo b = Ok (params, n) ->
  kdf_algo_of params = algo /\ KdfParams_valid params
  /\ n = blen (kdf_bytes params) /\ n <= blen b /\ seg b 0 n = kdf_bytes params.
Proof.
  intros H. destruct algo; cbn in H.
  - unfold parse_raw_kdf_params in H. bind_inv H. injection H as <- <-. wire_facts.
    unfold RAW_KDF_PARAMS_LEN in *. unfold kdf_bytes. cbn. layout. split_and!; try done; try lia.
    rewrite Hr0. repeat f_equal. cbn in Hr1. lia.
  - unfold parse_argon2id_kdf_params in H. bind_inv H. injection H as <- <-.
    rename r2 into t, r3 into m, r4 into p, r5 into s. destruct r9.
    unfold ARGON2ID_FIXED_PARAMS_LEN in *. wire_facts. pose proof (argon2id_bounds_inv _ _ _ _ Hr9) as HB.
    assert (blen (seg b 16 (16 + s)) = s) as Hs by (rewrite blen_seg; lia).
    assert (KdfParams_valid (KdfArgon2id t m p (seg b 16 (16 + s)))) as Hv by (cbn; rewrite Hs; auto).
    pose proof (serialize_kdf_params_valid _ Hv) as Hser.
    unfold serialize_kdf_params in Hser. bind_inv Hser. rewrite ok_or_Ok in *.
    match goal with H : try_from _ _ = Some _ |- _ => apply try_from_Some in H as [-> _] end.
    rewrite Hs in Hser. split_and!; [done|done| |lia|]; rewrite <- Hser.
    + rewrite !blen_app, Hs. layout. lia.
    + cbn in Hr1. assert (r0 = 1) as -> by lia.
      rewrite !seg_app_iff by (rewrite ?blen_app, ?Hs; layout; lia). layout.
      split_and!; done.
  - unfold parse_none_kdf_params in H. bind_inv H. injection H as <- <-. wire_facts.
    unfold NONE_KDF_PARAMS_LEN in *. unfold kdf_bytes. cbn. layout. split_and!; try done; try lia.
    rewrite Hr0. repeat f_equal. cbn in Hr1. lia.
  - unfold parse_recipient_wrap_kdf_params in H. bind_inv H. injection H as <- <-.
    unfold RECIPIENT_WRAP_KDF_PARAMS_LEN in *. wire_facts. unfold kdf_bytes. cbn. unfold_consts.
    assert (blen (seg b 14 46) = 32) as Hs by (rewrite blen_seg; lia).
    rewrite !blen_app. layout. unfold fits in *. split_and!; try done; try lia.
    cbn in Hr1. assert (r0 = 3) as -> by lia. assert (r9 = 0) as -> by lia.
    rewrite !seg_app_iff by (rewrite ?blen_app; layout; lia). layout. split_and!; done.
Qed.

Lemma seg_prefix b n i j x : 0 <= i -> i <= j -> j <= n -> n <= blen b ->
  seg (seg b 0 n) i j = x -> seg b i j = x.
Proof. intros. rewrite seg_seg in * by lia. done. Qed.

Lemma parse_kdf_complete algo b params :
  kdf_algo_of params = algo -> KdfParams_valid params ->
  blen (kdf_bytes params) <= blen b -> seg b 0 (blen (kdf_bytes params)) = kdf_bytes params ->
  KdfParams_parse algo b = Ok (params, blen (kdf_bytes params)).
Proof.
  intros <- Hv Hle Hs. destruct params as [| |t m p salt|len count version digest].
  - unfold kdf_bytes in *. cbn in *. revert Hle Hs. layout. intros Hle Hs.
    unfold parse_none_kdf_params, NONE_KDF_PARAMS_LEN. wire_run. done.
  - unfold kdf_bytes in *. cbn in *. revert Hle Hs. layout. intros Hle Hs.
    unfold parse_raw_kdf_params, RAW_KDF_PARAMS_LEN. wire_run. done.
  - pose proof (serialize_kdf_params_valid _ Hv) as Hser.
    unfold serialize_kdf_params in Hser. bind_inv Hser. rewrite ok_or_Ok in *.
    match goal with H : try_from _ _ = Some _ |- _ => apply try_from_Some in H as [-> Hu] end.
    destruct Hv as (Ht & Hm & Hp & Hb). pose proof (argon2id_bounds_inv _ _ _ _ Hb) as HB.
    rewrite <- Hser in Hle, Hs |- *. rewrite !blen_app in Hle, Hs |- *.
    revert Hle Hs. layout. replace (2 + (4 + (4 + (4 + (2 + blen salt))))) with (16 + blen salt) by lia.
    intros Hle Hs.
    rewrite !seg_app_iff in Hs by (rewrite ?blen_app; layout; lia). revert Hs. layout. intros Hs.
    destruct_and!. cbn [kdf_algo_of KdfParams_parse].
    unfold parse_argon2id_kdf_params, ARGON2ID_FIXED_PARAMS_LEN, bad_salt_length,
      ARGON2ID_MIN_SALT_LEN, ARGON2ID_MAX_SALT_LEN in *.
    cbn [KdfAlgo.to_Z] in *. assert (u16 1) by (unfold fits; lia). wire_run.
    repeat f_equal; congruence.
  - unfold kdf_bytes in *. cbn in Hv. cbn in Hle, Hs |- *. destruct_and!. subst.
    rewrite !blen_app in Hle, Hs |- *.
    revert Hle Hs. layout. intros Hle Hs.
    rewrite !seg_app_iff in Hs by (rewrite ?blen_app; layout; lia). revert Hs. layout. intros Hs.
    destruct_and!. assert (u16 RECIPIENT_WRAP_TABLE_VERSION) by (unfold fits, RECIPIENT_WRAP_TABLE_VERSION; lia).
    assert (u16 0) by (unfold fits; lia). assert (u16 3) by (unfold fits; lia).
    unfold_consts. unfold parse_recipient_wrap_kdf_params, RECIPIENT_WRAP_KDF_PARAMS_LEN. unfold_consts.
    cbn [KdfAlgo.to_Z] in *. wire_run. repeat f_equal; congruence.
Qed.

Lemma KdfParams_parse_iff algo b params n :
  KdfParams_parse algo b = Ok (params, n)
  <-> kdf_algo_of params = algo /\ KdfParams_valid params
      /\ n = blen (kdf_bytes params) /\ n <= blen b /\ seg b 0 n = kdf_bytes params.
Proof.
  split; [apply parse_kdf_sound|].
  intros (Ha & Hv & -> & Hle & Hs). by apply parse_kdf_complete.
Qed.

Lemma validate_argon2id_bounds_no_panic t m p s : validate_argon2id_bounds t m p s <> Panic.
Proof. unfold validate_argon2id_bounds. no_panic. Qed.

#[export] Hint Resolve validate_argon2id_bounds_no_panic : no_panic.

Lemma KdfParams_parse_no_panic algo b : KdfParams_parse algo b <> Panic.
Proof.
  destruct algo; cbn; unfold parse_raw_kdf_params, parse_none_kdf_params, parse_argon2id_kdf_params,
    parse_recipient_wrap_kdf_params, bad_salt_length, RAW_KDF_PARAMS_LEN, NONE_KDF_PARAMS_LEN,
    ARGON2ID_FIXED_PARAMS_LEN, RECIPIENT_WRAP_KDF_PARAMS_LEN, ARGON2ID_MIN_SALT_LEN,
    ARGON2ID_MAX_SALT_LEN; no_panic.
Qed.

#[export] Hint Resolve KdfParams_parse_no_panic : no_panic.

(** ** Theorems *)

(** Key-derivation parameters.  The reader accepts a byte string as the
    parameters [params] of [n] bytes exactly when they are within the reader's
    limits and the string starts with the [n] bytes [serialize_kdf_params]
    writes for them; it never panics on other strings. *)
Theorem kdf_params_reader_writer_agree algo b params n :
  (KdfParams_parse algo b = Ok (params, n)
   <-> kdf_algo_of params = algo /\ KdfParams_valid params
       /\ serialize_kdf_params params = Ok (seg b 0 n) /\ 0 <= n <= blen b)
  /\ KdfParams_parse algo b <> Panic.
Proof.
  split; [|apply KdfParams_parse_no_panic]. rewrite KdfParams_parse_iff. split.
  - intros (Ha & Hv & -> & Hle & Hs). split_and!; [done|done| |apply blen_nonneg|done].
    rewrite serialize_kdf_params_valid by done. congruence.
  - intros (Ha & Hv & Hs & H0 & Hle). rewrite serialize_kdf_params_valid in Hs by done.
    injection Hs as Hs. split_and!; [done|done| |done|done]. rewrite Hs, blen_seg; lia.
Qed.

(** The bound on the work of a key derivation.  [validate_argon2id_bounds]
    accepts exactly the cost parameters with a salt of 8 to 64 bytes, between
    one and 100 passes, between one and 64 lanes, at least 8 KiB per lane, at
    most 4 GiB of memory and at most 16 Mi KiB-passes of work; its two overflow
    errors cannot occur. *)
Theorem validate_argon2id_bounds_correct t m p s :
  u32 t -> u32 m -> u32 p -> u16 s ->
  (validate_argon2id_bounds t m p s = Ok tt
   <-> 8 <= s <= 64 /\ 1 <= t <= 100 /\ 1 <= p <= 64 /\ 8 * p <= m <= 4 * 1024 * 1024
       /\ t * m <= 16 * 1024 * 1024)
  /\ validate_argon2id_bounds t m p s <> Err (InvalidKdfParams "argon2id work product overflow")
  /\ validate_argon2id_bounds t m p s <> Err (InvalidKdfParams "argon2id memory requirement overflow").
Proof.
  unfold fits. intros Ht Hm Hp Hs. split.
  - split; [intros H%argon2id_bounds_inv; lia|].
    intros H. apply argon2id_bounds_intro; lia.
  - unfold validate_argon2id_bounds, checked_mul. unfold_consts.
    replace (t * m <? 2 ^ 64) with true by nia. cbn [ok_or].
    split; repeat (apply bind_not_Err; [by apply reject_if_not_Err|intros ? ?%reject_if_Ok]);
      apply bind_not_Err; try done; intros ? [= <-];
      (apply bind_not_Err; [by apply reject_if_not_Err|intros ? _]);
      replace (p * 8 <? 2 ^ 32) with true by lia; by apply reject_if_not_Err.
Qed.

Lemma kdf_params_reader_writer_agree_witness :
  KdfParams_parse KdfAlgo.Argon2id
    (le_bytes 2 1 ++ le_bytes 4 3 ++ le_bytes 4 65536 ++ le_bytes 4 4 ++ le_bytes 2 8
       ++ le_bytes 8 0x736f6d6573616c74 ++ zeros 5)
  = Ok (KdfArgon2id 3 65536 4 (le_bytes 8 0x736f6d6573616c74), 24).
Proof.
  apply kdf_params_reader_writer_agree.
  split_and!; [reflexivity| |reflexivity|lia|vm_compute; congruence].
  cbn. split_and!; try reflexivity; unfold fits; lia.
Defined.

Lemma validate_argon2id_bounds_correct_witness : validate_argon2id_bounds 3 65536 4 16 = Ok tt.
Proof. apply validate_argon2id_bounds_correct; unfold fits; lia. Defined.
