(* ===== verification/CryptoHeaderFixed.v ===== *)
(** * The fixed part of the crypto header

    [CryptoHeaderFixed] of [crates/tzap-core/src/wire.rs]: the archive's
    algorithms, sizes and erasure-code classes, and the limits a reader puts on
    them. *)

From S2P Require Import Wire.
#[local] Open Scope Z_scope.

Record CryptoHeaderFixed : Type := {
  ch_length : Z;
  ch_compression_algo : CompressionAlgo.t;
  ch_aead_algo : AeadAlgo.t;
  ch_fec_algo : FecAlgo.t;
  ch_kdf_algo : KdfAlgo.t;
  ch_chunk_size : Z;
  ch_envelope_target_size : Z;
  ch_block_size : Z;
  ch_fec_data_shards : Z;
  ch_fec_parity_shards : Z;
  ch_index_fec_data_shards : Z;
  ch_index_fec_parity_shards : Z;
  ch_index_root_fec_data_shards : Z;
  ch_index_root_fec_parity_shards : Z;
  ch_stripe_width : Z;
  ch_volume_loss_tolerance : Z;
  ch_bit_rot_buffer_pct : Z;
  ch_has_dictionary : Z;
  ch_max_path_length : Z;
  ch_expected_volume_size : Z
}.

Definition validate_fec_class_shards (field : string) (data_shards parity_shards cap : Z)
    : fresult unit :=
  let total := data_shards + parity_shards in
  reject_if (cap <? total) (ReaderResourceLimitExceeded field cap total).

(** Rust's division panics when [block_size] is zero. *)
Definition validate_fec_class_data_shards (field : string) (data_shards block_size : Z)
    : fresult unit :=
  if block_size =? 0 then Panic
  else
    let max_data_shards := u32_max / block_size in
    reject_if (max_data_shards <? data_shards)
      (ReaderResourceLimitExceeded field max_data_shards data_shards).

(** The [match (self.aead_algo, self.kdf_algo)] of the protection mode. *)
Definition valid_protection_mode (aead_algo : AeadAlgo.t) (kdf_algo : KdfAlgo.t) : bool :=
  match aead_algo, kdf_algo with
  | AeadAlgo.None, KdfAlgo.None => true
  | aead_algo, (KdfAlgo.Raw | KdfAlgo.Argon2id | KdfAlgo.RecipientWrap) =>
      AeadAlgo_is_encrypted aead_algo
  | _, _ => false
  end.

Definition CryptoHeaderFixed_validate_supported_profile (self : CryptoHeaderFixed) : fresult unit :=
  reject_if (negb (bool_decide (ch_compression_algo self = CompressionAlgo.ZstdFramed)))
    (UnsupportedCompression (ch_compression_algo self));;
  reject_if (negb (bool_decide (ch_fec_algo self = FecAlgo.ReedSolomonGF16)))
    (UnsupportedFec (ch_fec_algo self));;
  reject_if (negb (valid_protection_mode (ch_aead_algo self) (ch_kdf_algo self)))
    (InvalidProtectionMode (ch_aead_algo self) (ch_kdf_algo self));;
  reject_if (1 <? ch_has_dictionary self) (InvalidBoolean "has_dictionary" (ch_has_dictionary self));;
  reject_if (ch_stripe_width self =? 0) ZeroStripeWidth;;
  reject_if (READER_MAX_STRIPE_WIDTH <? ch_stripe_width self)
    (ReaderResourceLimitExceeded "stripe_width" READER_MAX_STRIPE_WIDTH (ch_stripe_width self));;
  reject_if (ch_stripe_width self <=? ch_volume_loss_tolerance self)
    (VolumeLossToleranceOutOfRange (ch_volume_loss_tolerance self) (ch_stripe_width self));;
  reject_if (100 <? ch_bit_rot_buffer_pct self) (BitRotBufferPctTooLarge (ch_bit_rot_buffer_pct self));;
  reject_if (ch_fec_data_shards self =? 0) (ZeroDataShardMaximum "fec_data_shards");;
  reject_if (ch_index_fec_data_shards self =? 0) (ZeroDataShardMaximum "index_fec_data_shards");;
  reject_if (ch_index_root_fec_data_shards self =? 0)
    (ZeroDataShardMaximum "index_root_fec_data_shards");;
  validate_fec_class_shards "fec_data_shards + fec_parity_shards" (ch_fec_data_shards self)
    (ch_fec_parity_shards self) READER_MAX_FEC_CLASS_SHARDS;;
  validate_fec_class_shards "index_fec_data_shards + index_fec_parity_shards"
    (ch_index_fec_data_shards self) (ch_index_fec_parity_shards self)
    READER_MAX_INDEX_FEC_CLASS_SHARDS;;
  validate_fec_class_shards "index_root_fec_data_shards + index_root_fec_parity_shards"
    (ch_index_root_fec_data_shards self) (ch_index_root_fec_parity_shards self)
    READER_MAX_INDEX_ROOT_FEC_CLASS_SHARDS;;
  reject_if (ch_chunk_size self =? 0) ZeroChunkSize;;
  reject_if (ch_envelope_target_size self =? 0) ZeroEnvelopeTargetSize;;
  reject_if (ch_envelope_target_size self <? ch_chunk_size self)
    (ChunkSizeExceedsEnvelopeTarget (ch_chunk_size self) (ch_envelope_target_size self));;
  reject_if (READER_MAX_CHUNK_SIZE <? ch_chunk_size self)
    (ReaderResourceLimitExceeded "chunk_size" READER_MAX_CHUNK_SIZE (ch_chunk_size self));;
  reject_if (READER_MAX_ENVELOPE_TARGET_SIZE <? ch_envelope_target_size self)
    (ReaderResourceLimitExceeded "envelope_target_size" READER_MAX_ENVELOPE_TARGET_SIZE
       (ch_envelope_target_size self));;
  reject_if (ch_block_size self <? 4096) (BlockSizeTooSmall (ch_block_size self));;
  reject_if (negb (ch_block_size self `mod` 2 =? 0)) (OddBlockSize (ch_block_size self));;
  validate_fec_class_data_shards "fec_data_shards" (ch_fec_data_shards self) (ch_block_size self);;
  validate_fec_class_data_shards "index_fec_data_shards" (ch_index_fec_data_shards self)
    (ch_block_size self);;
  validate_fec_class_data_shards "index_root_fec_data_shards" (ch_index_root_fec_data_shards self)
    (ch_block_size self);;
  reject_if (READER_MAX_BLOCK_SIZE <? ch_block_size self)
    (ReaderResourceLimitExceeded "block_size" READER_MAX_BLOCK_SIZE (ch_block_size self));;
  reject_if (READER_MAX_PATH_LENGTH <? ch_max_path_length self)
    (ReaderResourceLimitExceeded "max_path_length" READER_MAX_PATH_LENGTH (ch_max_path_length self)).

Definition CryptoHeaderFixed_parse (b : bytes) (volume_crypto_header_length : Z)
    : fresult CryptoHeaderFixed :=
  expect_len "CryptoHeaderFixed" CRYPTO_HEADER_FIXED_LEN (blen b);;
  magic ← slice b 0 4;
  expect_magic "CryptoHeaderFixed" TZCH_MAGIC magic;;
  reserved ← slice b 47 48;
  expect_zero "CryptoHeaderFixed" reserved;;
  reserved ← slice b 60 76;
  expect_zero "CryptoHeaderFixed" reserved;;
  length ← read_u32 b 4;
  reject_if (negb (length =? volume_crypto_header_length))
    (CryptoHeaderLengthMismatch length volume_crypto_header_length);;
  reject_if (READER_MAX_CRYPTO_HEADER_LEN <? length)
    (ReaderResourceLimitExceeded "CryptoHeader length" READER_MAX_CRYPTO_HEADER_LEN length);;
  compression_algo ← read_u16 b 8;
  compression_algo ← CompressionAlgo_try_from compression_algo;
  aead_algo ← read_u16 b 10;
  aead_algo ← AeadAlgo_try_from aead_algo;
  fec_algo ← read_u16 b 12;
  fec_algo ← FecAlgo_try_from fec_algo;
  kdf_algo ← read_u16 b 14;
  kdf_algo ← KdfAlgo_try_from kdf_algo;
  chunk_size ← read_u32 b 16;
  envelope_target_size ← read_u32 b 20;
  block_size ← read_u32 b 24;
  fec_data_shards ← read_u16 b 28;
  fec_parity_shards ← read_u16 b 30;
  index_fec_data_shards ← read_u16 b 32;
  index_fec_parity_shards ← read_u16 b 34;
  index_root_fec_data_shards ← read_u16 b 36;
  index_root_fec_parity_shards ← read_u16 b 38;
  stripe_width ← read_u32 b 40;
  volume_loss_tolerance ← byte_at b 44;
  bit_rot_buffer_pct ← byte_at b 45;
  has_dictionary ← byte_at b 46;
  max_path_length ← read_u32 b 48;
  expected_volume_size ← read_u64 b 52;
  let header := {|
    ch_length := length;
    ch_compression_algo := compression_algo;
    ch_aead_algo := aead_algo;
    ch_fec_algo := fec_algo;
    ch_kdf_algo := kdf_algo;
    ch_chunk_size := chunk_size;
    ch_envelope_target_size := envelope_target_size;
    ch_block_size := block_size;
    ch_fec_data_shards := fec_data_shards;
    ch_fec_parity_shards := fec_parity_shards;
    ch_index_fec_data_shards := index_fec_data_shards;
    ch_index_fec_parity_shards := index_fec_parity_shards;
    ch_index_root_fec_data_shards := index_root_fec_data_shards;
    ch_index_root_fec_parity_shards := index_root_fec_parity_shards;
    ch_stripe_width := stripe_width;
    ch_volume_loss_tolerance := volume_loss_tolerance;
    ch_bit_rot_buffer_pct := bit_rot_buffer_pct;
    ch_has_dictionary := has_dictionary;
    ch_max_path_length := max_path_length;
    ch_expected_volume_size := expected_volume_size |} in
  CryptoHeaderFixed_validate_supported_profile header;;
  mret header.

Definition CryptoHeaderFixed_to_bytes (self : CryptoHeaderFixed) : bytes :=
  puts (zeros CRYPTO_HEADER_FIXED_LEN)
    [write_bytes 0 TZCH_MAGIC;
     write_u32 4 (ch_length self);
     write_u16 8 (CompressionAlgo.to_Z (ch_compression_algo self));
     write_u16 10 (AeadAlgo.to_Z (ch_aead_algo self));
     write_u16 12 (FecAlgo.to_Z (ch_fec_algo self));
     write_u16 14 (KdfAlgo.to_Z (ch_kdf_algo self));
     write_u32 16 (ch_chunk_size self);
     write_u32 20 (ch_envelope_target_size self);
     write_u32 24 (ch_block_size self);
     write_u16 28 (ch_fec_data_shards self);
     write_u16 30 (ch_fec_parity_shards self);
     write_u16 32 (ch_index_fec_data_shards self);
     write_u16 34 (ch_index_fec_parity_shards self);
     write_u16 36 (ch_index_root_fec_data_shards self);
     write_u16 38 (ch_index_root_fec_parity_shards self);
     write_u32 40 (ch_stripe_width self);
     write_u8 44 (ch_volume_loss_tolerance self);
     write_u8 45 (ch_bit_rot_buffer_pct self);
     write_u8 46 (ch_has_dictionary self);
     write_u32 48 (ch_max_path_length self);
     write_u64 52 (ch_expected_volume_size self)].

(** The Rust types of the fields. *)
Definition CryptoHeaderFixed_typed (h : CryptoHeaderFixed) : Prop :=
  u32 (ch_length h) /\ u32 (ch_chunk_size h) /\ u32 (ch_envelope_target_size h)
  /\ u32 (ch_block_size h) /\ u16 (ch_fec_data_shards h) /\ u16 (ch_fec_parity_shards h)
  /\ u16 (ch_index_fec_data_shards h) /\ u16 (ch_index_fec_parity_shards h)
  /\ u16 (ch_index_root_fec_data_shards h) /\ u16 (ch_index_root_fec_parity_shards h)
  /\ u32 (ch_stripe_width h) /\ u8 (ch_volume_loss_tolerance h) /\ u8 (ch_bit_rot_buffer_pct h)
  /\ u8 (ch_has_dictionary h) /\ u32 (ch_max_path_length h) /\ u64 (ch_expected_volume_size h).

(** The conditions under which the parser accepts [h]. *)
Definition CryptoHeaderFixed_valid (len : Z) (h : CryptoHeaderFixed) : Prop :=
  CryptoHeaderFixed_typed h /\ CryptoHeaderFixed_validate_supported_profile h = Ok tt
  /\ ch_length h = len /\ ch_length h <= READER_MAX_CRYPTO_HEADER_LEN.

Lemma CryptoHeaderFixed_parse_sound b len h :
  CryptoHeaderFixed_parse b len = Ok h ->
  CryptoHeaderFixed_valid len h /\ CryptoHeaderFixed_to_bytes h = b.
Proof.
  unfold CryptoHeaderFixed_valid, CryptoHeaderFixed_typed.
  intros H. unfold CryptoHeaderFixed_parse in H. bind_inv H. subst h.
  match goal with H : CryptoHeaderFixed_validate_supported_profile _ = Ok ?u |- _ => destruct u end.
  wire_encoded CryptoHeaderFixed_to_bytes.
Qed.

Lemma CryptoHeaderFixed_parse_complete len h :
  CryptoHeaderFixed_valid len h ->
  CryptoHeaderFixed_parse (CryptoHeaderFixed_to_bytes h) len = Ok h.
Proof.
  unfold CryptoHeaderFixed_valid, CryptoHeaderFixed_typed.
  intros (HT & Hv & Hl & Hm). destruct h. cbn in HT, Hl, Hm. destruct_and!.
  remember (CryptoHeaderFixed_to_bytes _) as b eqn:Hb. symmetry in Hb.
  unfold CryptoHeaderFixed_to_bytes in Hb. wire_segments Hb.
  unfold CryptoHeaderFixed_parse. unfold_consts. by wire_run.
Qed.

Lemma CryptoHeaderFixed_parse_iff b len h :
  CryptoHeaderFixed_parse b len = Ok h
  <-> CryptoHeaderFixed_valid len h /\ CryptoHeaderFixed_to_bytes h = b.
Proof.
  split; [apply CryptoHeaderFixed_parse_sound|].
  intros [Hv <-]. by apply CryptoHeaderFixed_parse_complete.
Qed.

Lemma validate_fec_class_shards_no_panic f d p c : validate_fec_class_shards f d p c <> Panic.
Proof. apply reject_if_no_panic. Qed.

Lemma validate_fec_class_data_shards_no_panic f d b :
  b <> 0 -> validate_fec_class_data_shards f d b <> Panic.
Proof.
  intros Hb. unfold validate_fec_class_data_shards. replace (b =? 0) with false by lia.
  apply reject_if_no_panic.
Qed.

(** The division by [block_size] is behind the check that it is at least 4096. *)
Lemma CryptoHeaderFixed_validate_no_panic h :
  CryptoHeaderFixed_validate_supported_profile h <> Panic.
Proof.
  unfold CryptoHeaderFixed_validate_supported_profile. no_panic;
    first [apply validate_fec_class_shards_no_panic
          |apply validate_fec_class_data_shards_no_panic; lia].
Qed.

#[export] Hint Resolve CryptoHeaderFixed_validate_no_panic : no_panic.

Lemma CryptoHeaderFixed_parse_no_panic b len : CryptoHeaderFixed_parse b len <> Panic.
Proof. unfold CryptoHeaderFixed_parse. unfold_consts. no_panic. Qed.

#[export] Hint Resolve CryptoHeaderFixed_parse_no_panic : no_panic.

(** What a supported profile promises the rest of the reader. *)
Record supported_profile (h : CryptoHeaderFixed) : Prop := {
  sp_compression : ch_compression_algo h = CompressionAlgo.ZstdFramed;
  sp_fec : ch_fec_algo h = FecAlgo.ReedSolomonGF16;
  sp_mode : ch_aead_algo h = AeadAlgo.None <-> ch_kdf_algo h = KdfAlgo.None;
  sp_dictionary : 0 <= ch_has_dictionary h <= 1;
  sp_stripe : 1 <= ch_stripe_width h <= 4096;
  sp_loss : ch_volume_loss_tolerance h < ch_stripe_width h;
  sp_bit_rot : ch_bit_rot_buffer_pct h <= 100;
  sp_data : 1 <= ch_fec_data_shards h /\ 1 <= ch_index_fec_data_shards h
    /\ 1 <= ch_index_root_fec_data_shards h;
  sp_total : ch_fec_data_shards h + ch_fec_parity_shards h <= 4096
    /\ ch_index_fec_data_shards h + ch_index_fec_parity_shards h <= 4096
    /\ ch_index_root_fec_data_shards h + ch_index_root_fec_parity_shards h <= 131070;
  sp_chunk : 1 <= ch_chunk_size h <= ch_envelope_target_size h
    /\ ch_envelope_target_size h <= 64 * 1024 * 1024;
  sp_block : 4096 <= ch_block_size h <= 1024 * 1024 /\ ch_block_size h `mod` 2 = 0;
  sp_object : forall d, d = ch_fec_data_shards h \/ d = ch_index_fec_data_shards h
    \/ d = ch_index_root_fec_data_shards h -> d * ch_block_size h <= u32_max;
  sp_path : ch_max_path_length h <= 4096
}.

Lemma valid_protection_mode_iff a k :
  valid_protection_mode a k = true <-> (a = AeadAlgo.None <-> k = KdfAlgo.None).
Proof. destruct a, k; cbn; intuition congruence. Qed.

Lemma class_data_shards_Ok f d b u :
  0 < b -> validate_fec_class_data_shards f d b = Ok u <-> d * b <= u32_max.
Proof.
  intros Hb. unfold validate_fec_class_data_shards. replace (b =? 0) with false by lia.
  rewrite reject_if_Ok, Z.ltb_ge. pose proof (Z.mul_div_le u32_max b Hb).
  split; intros H'; [nia|]. apply Z.div_le_lower_bound; lia.
Qed.

Lemma supported_profile_iff h :
  CryptoHeaderFixed_typed h ->
  CryptoHeaderFixed_validate_supported_profile h = Ok tt <-> supported_profile h.
Proof.
  unfold CryptoHeaderFixed_typed, fits. intros HT. destruct_and!. split.
  - intros H'. unfold CryptoHeaderFixed_validate_supported_profile, validate_fec_class_shards in H'.
    bind_inv H'. apply reject_if_Ok in H'. unfold_consts.
    repeat match goal with
      | H : validate_fec_class_data_shards _ _ _ = Ok _ |- _ => apply class_data_shards_Ok in H; [|lia]
      | H : negb _ = false |- _ => apply negb_false_iff in H
      | H : bool_decide _ = true |- _ => apply bool_decide_eq_true in H
      | H : valid_protection_mode _ _ = true |- _ => apply valid_protection_mode_iff in H
      end.
    unfold u32_max in *. constructor; unfold u32_max; try done; lia.
  - intros [? ? ? ? ? ? ? ? ? ? ? Hobj ?].
    unfold CryptoHeaderFixed_validate_supported_profile, validate_fec_class_shards. unfold_consts.
    pose proof (Hobj _ (or_introl eq_refl)) as Ho1. pose proof (Hobj _ (or_intror (or_introl eq_refl))) as Ho2.
    pose proof (Hobj _ (or_intror (or_intror eq_refl))) as Ho3.
    run_with ltac:(first [lia | by rewrite bool_decide_eq_true_2 | by rewrite (proj2 (valid_protection_mode_iff _ _)) ]).
    rewrite (proj2 (class_data_shards_Ok _ (ch_fec_data_shards h) (ch_block_size h) tt ltac:(lia)) Ho1), bind_ret.
    rewrite (proj2 (class_data_shards_Ok _ (ch_index_fec_data_shards h) (ch_block_size h) tt ltac:(lia)) Ho2), bind_ret.
    rewrite (proj2 (class_data_shards_Ok _ (ch_index_root_fec_data_shards h) (ch_block_size h) tt ltac:(lia)) Ho3), bind_ret.
    by run.
Qed.

(** The fixed crypto header.  [CryptoHeaderFixed_parse] accepts exactly the
    76-byte encodings of headers with the announced length that have a
    supported profile: Zstandard frames, Reed-Solomon over GF(2^16), no cipher
    exactly when there is no key derivation, and sizes within the reader's
    limits.  It never panics. *)
Theorem crypto_header_fixed_codec b len h :
  (CryptoHeaderFixed_parse b len = Ok h
   <-> CryptoHeaderFixed_typed h /\ supported_profile h
       /\ ch_length h = len /\ len <= 64 * 1024 /\ CryptoHeaderFixed_to_bytes h = b)
  /\ CryptoHeaderFixed_parse b len <> Panic.
Proof.
  split; [|apply CryptoHeaderFixed_parse_no_panic]. rewrite CryptoHeaderFixed_parse_iff.
  split.
  - intros [(Ht & Hv & <- & Hm) Hb]. by rewrite supported_profile_iff in Hv.
  - intros (Ht & Hv & <- & Hm & Hb). unfold CryptoHeaderFixed_valid. by rewrite supported_profile_iff.
Qed.
