(* ===== verification/Crypto.v ===== *)
(** * Keys, integrity tags and AEAD objects, [crates/tzap-core/src/crypto.rs]

    The cryptographic primitives are third-party crates.  [CryptoLib] names
    what crypto.rs calls of them and the documented facts it relies on: output
    lengths, that a verifier accepts exactly the computed tag, and that opening
    what was sealed under the same key, nonce and associated data gives the
    plaintext back. *)

From S2P Require Import Wire Kdf Padding.
#[local] Open Scope Z_scope.

Class CryptoLib : Type := {
  (** [Hmac::<Sha256>::new_from_slice(key)], [update(m)], [finalize]. *)
  hmac_sha256 : bytes -> bytes -> bytes;
  hmac_blen : forall key m, blen (hmac_sha256 key m) = 32;
  (** [verify_slice(tag)] *)
  hmac_verify : bytes -> bytes -> bytes -> bool;
  hmac_verify_iff : forall key m tag, hmac_verify key m tag = true <-> tag = hmac_sha256 key m;
  (** [Hkdf::<Sha256>::new(Some(salt), ikm)] and [from_prk(prk)] *)
  Hkdf : Type;
  hkdf_new : bytes -> bytes -> Hkdf;
  hkdf_from_prk : bytes -> option Hkdf;
  hkdf_from_prk_32 : forall prk, 32 <= blen prk -> exists hk, hkdf_from_prk prk = Some hk;
  (** [hk.expand(info, &mut out)] with an output of [len] bytes *)
  hkdf_expand : Hkdf -> bytes -> Z -> option bytes;
  hkdf_expand_len : forall hk info len, 0 <= len <= 255 * 32 ->
    exists out, hkdf_expand hk info len = Some out /\ blen out = len;
  (** [Argon2id] over a password and a salt: [t], [m], [p] and the output. *)
  argon2_params_ok : Z -> Z -> Z -> bool;
  argon2id : Z -> Z -> Z -> bytes -> bytes -> option bytes;
  argon2id_blen : forall t m p pw salt out, argon2id t m p pw salt = Some out -> blen out = 32;
  (** [str::nfc], on the UTF-8 bytes of the string *)
  nfc : bytes -> bytes;
  (** [cipher.encrypt] and [cipher.decrypt] of the cipher of an [AeadAlgo] *)
  aead_seal : AeadAlgo.t -> bytes -> bytes -> bytes -> bytes -> option bytes;
  aead_open : AeadAlgo.t -> bytes -> bytes -> bytes -> bytes -> option bytes;
  aead_open_seal : forall algo key nonce aad m c,
    aead_seal algo key nonce aad m = Some c -> aead_open algo key nonce aad c = Some m;
  aead_seal_blen : forall algo key nonce aad m c,
    aead_seal algo key nonce aad m = Some c -> blen c = blen m + AeadAlgo_tag_len algo
}.

Definition HKDF_SALT_DOMAIN : bytes := String.list_byte_of_string "tzap-v1-subkeys".
Definition CRYPTO_HEADER_HMAC_DOMAIN : bytes := String.list_byte_of_string "tzap-v1-crypto-header".
Definition MANIFEST_FOOTER_HMAC_DOMAIN : bytes := String.list_byte_of_string "tzap-v1-manifest-footer".
Definition VOLUME_TRAILER_HMAC_DOMAIN : bytes := String.list_byte_of_string "tzap-v1-volume-trailer".
Definition BOOTSTRAP_SIDECAR_HMAC_DOMAIN : bytes := String.list_byte_of_string "tzap-v1-sidecar".
Definition CRYPTO_HEADER_DIGEST_DOMAIN_V45 : bytes := String.list_byte_of_string "tzap-header-v45".
Definition MANIFEST_FOOTER_DIGEST_DOMAIN_V45 : bytes := String.list_byte_of_string "tzap-manifest-v45".
Definition VOLUME_TRAILER_DIGEST_DOMAIN_V45 : bytes := String.list_byte_of_string "tzap-trailer-v45".
Definition BOOTSTRAP_SIDECAR_DIGEST_DOMAIN_V45 : bytes := String.list_byte_of_string "tzap-sidecar-v45".

Record Subkeys : Type := {
  enc_key : bytes;
  mac_key : bytes;
  nonce_seed : bytes;
  index_root_key : bytes;
  index_shard_key : bytes;
  dictionary_key : bytes;
  dir_hint_key : bytes;
  index_nonce_seed : bytes
}.

Module HmacDomain.
Inductive t : Set :=
  | CryptoHeader
  | ManifestFooter
  | VolumeTrailer
  | BootstrapSidecar.

#[global] Instance t_eq_dec : EqDecision t.
Proof. solve_decision. Defined.
End HmacDomain.

Definition HmacDomain_structure_name (d : HmacDomain.t) : string :=
  match d with
  | HmacDomain.CryptoHeader => "CryptoHeader"
  | HmacDomain.ManifestFooter => "ManifestFooter"
  | HmacDomain.VolumeTrailer => "VolumeTrailer"
  | HmacDomain.BootstrapSidecar => "BootstrapSidecarHeader"
  end.

Definition HmacDomain_domain_bytes (d : HmacDomain.t) : bytes :=
  match d with
  | HmacDomain.CryptoHeader => CRYPTO_HEADER_HMAC_DOMAIN
  | HmacDomain.ManifestFooter => MANIFEST_FOOTER_HMAC_DOMAIN
  | HmacDomain.VolumeTrailer => VOLUME_TRAILER_HMAC_DOMAIN
  | HmacDomain.BootstrapSidecar => BOOTSTRAP_SIDECAR_HMAC_DOMAIN
  end.

Definition HmacDomain_digest_domain_bytes (d : HmacDomain.t) : bytes :=
  match d with
  | HmacDomain.CryptoHeader => CRYPTO_HEADER_DIGEST_DOMAIN_V45
  | HmacDomain.ManifestFooter => MANIFEST_FOOTER_DIGEST_DOMAIN_V45
  | HmacDomain.VolumeTrailer => VOLUME_TRAILER_DIGEST_DOMAIN_V45
  | HmacDomain.BootstrapSidecar => BOOTSTRAP_SIDECAR_DIGEST_DOMAIN_V45
  end.

(** The context of an AEAD object. *)
Record AeadObjectContext : Type := {
  cx_algo : AeadAlgo.t;
  cx_key : bytes;
  cx_nonce_seed : bytes;
  cx_domain : bytes;
  cx_archive_uuid : bytes;
  cx_session_id : bytes;
  cx_counter : Z
}.

Definition nonce_or_aad_info (prefix domain archive_uuid session_id : bytes) (counter : Z)
    : fresult bytes :=
  domain_len ← ok_or (try_from 16 (blen domain)) DomainTooLong;
  mret (prefix ++ le_bytes 2 domain_len ++ domain ++ archive_uuid ++ session_id
          ++ le_bytes 8 counter).

Definition build_aad (domain archive_uuid session_id : bytes) (counter : Z) : fresult bytes :=
  nonce_or_aad_info (String.list_byte_of_string "tzap-v1-aad") domain archive_uuid session_id counter.

Definition validate_nonce_len (algo : AeadAlgo.t) (nonce : bytes) : fresult unit :=
  let expected := AeadAlgo_nonce_len algo in
  reject_if (negb (blen nonce =? expected)) (InvalidNonceLength algo expected (blen nonce)).

Section Crypto.
Context {Sha : Sha256} {Lib : CryptoLib}.

Definition MasterKey_from_raw_key (raw_key : bytes) : fresult bytes :=
  reject_if (negb (blen raw_key =? MASTER_KEY_LEN)) InvalidRawMasterKeyLength;;
  mret raw_key.

Definition MasterKey_derive_from_passphrase (params : KdfParams) (passphrase : bytes)
    : fresult bytes :=
  match params with
  | KdfArgon2id t_cost m_cost_kib parallelism salt =>
      salt_length ← ok_or (try_from 16 (blen salt))
        (InvalidKdfParams "argon2id salt length must be 8..64 bytes");
      validate_argon2id_bounds t_cost m_cost_kib parallelism salt_length;;
      reject_if (negb (argon2_params_ok m_cost_kib t_cost parallelism))
        (InvalidKdfParams "argon2 params rejected");;
      ok_or (argon2id t_cost m_cost_kib parallelism (nfc passphrase) salt) Argon2idFailure
  | _ => Err KeyMaterialMismatch
  end.

Definition expand_subkey (hk : Hkdf) (info : string) : fresult bytes :=
  ok_or (hkdf_expand hk (String.list_byte_of_string info) SUBKEY_LEN) HkdfExpandFailure.

Definition Subkeys_derive (master_key archive_uuid session_id : bytes) : fresult Subkeys :=
  let salt := HKDF_SALT_DOMAIN ++ archive_uuid ++ session_id in
  let hk := hkdf_new salt master_key in
  enc_key ← expand_subkey hk "tzap-v1-enc";
  mac_key ← expand_subkey hk "tzap-v1-mac";
  nonce_seed ← expand_subkey hk "tzap-v1-nonce";
  index_root_key ← expand_subkey hk "tzap-v1-idxroot";
  index_shard_key ← expand_subkey hk "tzap-v1-idxshard";
  dictionary_key ← expand_subkey hk "tzap-v1-dict";
  dir_hint_key ← expand_subkey hk "tzap-v1-dirhint";
  index_nonce_seed ← expand_subkey hk "tzap-v1-idxnonce";
  mret {| enc_key := enc_key; mac_key := mac_key; nonce_seed := nonce_seed;
          index_root_key := index_root_key; index_shard_key := index_shard_key;
          dictionary_key := dictionary_key; dir_hint_key := dir_hint_key;
          index_nonce_seed := index_nonce_seed |}.

Definition compute_hmac (domain : HmacDomain.t) (mac_key archive_uuid session_id covered : bytes)
    : bytes :=
  hmac_sha256 mac_key (HmacDomain_domain_bytes domain ++ archive_uuid ++ session_id ++ covered).

Definition verify_hmac (domain : HmacDomain.t)
    (mac_key archive_uuid session_id covered expected_hmac : bytes) : fresult unit :=
  reject_if (negb (hmac_verify mac_key
      (HmacDomain_domain_bytes domain ++ archive_uuid ++ session_id ++ covered) expected_hmac))
    (HmacMismatch (HmacDomain_structure_name domain)).

Definition compute_integrity_tag (domain : HmacDomain.t) (aead_algo : AeadAlgo.t)
    (volume_format_rev : Z) (mac_key : option bytes) (archive_uuid session_id covered : bytes)
    : fresult bytes :=
  if AeadAlgo_is_encrypted aead_algo
  then
    mac_key ← ok_or mac_key KeyMaterialMismatch;
    mret (compute_hmac domain mac_key archive_uuid session_id covered)
  else
    mret (sha256 (HmacDomain_digest_domain_bytes domain ++ archive_uuid ++ session_id ++ covered)).

Definition verify_integrity_tag (domain : HmacDomain.t) (aead_algo : AeadAlgo.t)
    (volume_format_rev : Z) (mac_key : option bytes)
    (archive_uuid session_id covered expected_tag : bytes) : fresult unit :=
  if AeadAlgo_is_encrypted aead_algo
  then
    mac_key ← ok_or mac_key KeyMaterialMismatch;
    verify_hmac domain mac_key archive_uuid session_id covered expected_tag
  else
    actual ← compute_integrity_tag domain aead_algo volume_format_rev None archive_uuid session_id
      covered;
    reject_if (negb (bytes_eqb expected_tag actual))
      (IntegrityDigestMismatch (HmacDomain_structure_name domain)).

Definition derive_nonce (seed domain archive_uuid session_id : bytes) (counter len : Z)
    : fresult bytes :=
  info ← nonce_or_aad_info (String.list_byte_of_string "tzap-v1-nonce") domain archive_uuid
    session_id counter;
  hk ← ok_or (hkdf_from_prk seed) (InvalidKdfParams "bad nonce seed");
  ok_or (hkdf_expand hk info len) HkdfExpandFailure.

Definition aead_encrypt (algo : AeadAlgo.t) (key nonce aad plaintext : bytes) : fresult bytes :=
  validate_nonce_len algo nonce;;
  match algo with
  | AeadAlgo.None => mret plaintext
  | _ => ok_or (aead_seal algo key nonce aad plaintext) AeadFailure
  end.

Definition aead_decrypt (algo : AeadAlgo.t) (key nonce aad ciphertext_and_tag : bytes)
    : fresult bytes :=
  validate_nonce_len algo nonce;;
  match algo with
  | AeadAlgo.None => mret ciphertext_and_tag
  | _ => ok_or (aead_open algo key nonce aad ciphertext_and_tag) AeadFailure
  end.

Definition context_nonce (context : AeadObjectContext) : fresult bytes :=
  derive_nonce (cx_nonce_seed context) (cx_domain context) (cx_archive_uuid context)
    (cx_session_id context) (cx_counter context) (AeadAlgo_nonce_len (cx_algo context)).

Definition context_aad (context : AeadObjectContext) : fresult bytes :=
  build_aad (cx_domain context) (cx_archive_uuid context) (cx_session_id context)
    (cx_counter context).

Definition encrypt_padded_aead_object (context : AeadObjectContext) (block_size : Z)
    (payload : bytes) : fresult bytes :=
  nonce ← context_nonce context;
  aad ← context_aad context;
  padded ← suffix_pad_for_aead payload (AeadAlgo_tag_len (cx_algo context)) block_size;
  aead_encrypt (cx_algo context) (cx_key context) nonce aad padded.

Definition decrypt_padded_aead_object (context : AeadObjectContext) (ciphertext_and_tag : bytes)
    : fresult bytes :=
  nonce ← context_nonce context;
  aad ← context_aad context;
  padded ← aead_decrypt (cx_algo context) (cx_key context) nonce aad ciphertext_and_tag;
  truncate_suffix_padding padded.
End Crypto.

(** ** Injectivity of the labelled inputs *)
Lemma app_inj_l (a b c d : bytes) : blen a = blen c -> a ++ b = c ++ d -> a = c /\ b = d.
Proof. intros Hl H. by apply (app_inj_blen a b c d Hl). Qed.

(** Two labels neither of which is a prefix of the other. *)
Definition apart (x y : bytes) : bool :=
  negb (bool_decide (take (min (length x) (length y)) x = take (min (length x) (length y)) y)).

Lemma apart_neq x y a b : apart x y = true -> x ++ a <> y ++ b.
Proof.
  unfold apart. rewrite negb_true_iff, bool_decide_eq_false. intros Hne H. apply Hne.
  assert (take (length x `min` length y) (x ++ a) = take (length x `min` length y) (y ++ b)) as E
    by (by rewrite H).
  by rewrite !take_app_le in E by lia.
Qed.

Definition all_domains : list HmacDomain.t :=
  [HmacDomain.CryptoHeader; HmacDomain.ManifestFooter; HmacDomain.VolumeTrailer;
   HmacDomain.BootstrapSidecar].

Lemma domains_apart d d' :
  d <> d' -> apart (HmacDomain_domain_bytes d) (HmacDomain_domain_bytes d') = true
    /\ apart (HmacDomain_digest_domain_bytes d) (HmacDomain_digest_domain_bytes d') = true.
Proof. destruct d, d'; intros H; try (by destruct H); split; reflexivity. Qed.

Lemma uuid_pair_inj (u s c u' s' c' : bytes) :
  blen u = 16 -> blen s = 16 -> blen u' = 16 -> blen s' = 16 ->
  u ++ s ++ c = u' ++ s' ++ c' -> u = u' /\ s = s' /\ c = c'.
Proof.
  intros Hu Hs Hu' Hs' H. apply app_inj_l in H as [-> H]; [|congruence].
  by apply app_inj_l in H as [-> ->]; [|congruence].
Qed.

Lemma info_inj prefix d u s n d' u' s' n' info :
  blen u = 16 -> blen s = 16 -> blen u' = 16 -> blen s' = 16 -> u64 n -> u64 n' ->
  nonce_or_aad_info prefix d u s n = Ok info -> nonce_or_aad_info prefix d' u' s' n' = Ok info ->
  d = d' /\ u = u' /\ s = s' /\ n = n'.
Proof.
  intros Hu Hs Hu' Hs' Hn Hn'. unfold nonce_or_aad_info. rewrite !bind_Ok.
  intros (l & Hl & H) (l' & Hl' & H'). apply ok_or_Ok, try_from_Some in Hl as [-> Hl].
  apply ok_or_Ok, try_from_Some in Hl' as [-> Hl'].
  rewrite mret_Ok in H, H'. rewrite <- H' in H. apply app_inj_l in H as [_ H]; [|done].
  apply app_inj_l in H as [Hlen H]; [|by rewrite !blen_le].
  apply le_bytes_inj in Hlen; [|done|done].
  apply app_inj_l in H as [-> H]; [|done].
  apply uuid_pair_inj in H as (-> & -> & H); [|done..].
  by apply le_bytes_inj in H.
Qed.

Section CryptoFacts.
Context {Sha : Sha256} {Lib : CryptoLib}.

Lemma verify_integrity_tag_Ok d a rev mk u s covered tag :
  verify_integrity_tag d a rev mk u s covered tag = Ok tt
  <-> compute_integrity_tag d a rev mk u s covered = Ok tag.
Proof.
  unfold verify_integrity_tag, compute_integrity_tag, verify_hmac, compute_hmac.
  destruct (AeadAlgo_is_encrypted a).
  - destruct mk as [k|]; [|done]. cbn [ok_or]. rewrite !bind_ret, reject_if_Ok, negb_false_iff.
    rewrite hmac_verify_iff, mret_Ok. done.
  - rewrite mret_eq, bind_ret, reject_if_Ok, negb_false_iff, bytes_eqb_eq. split; congruence.
Qed.

Lemma compute_integrity_tag_blen d a rev mk u s covered tag :
  compute_integrity_tag d a rev mk u s covered = Ok tag -> blen tag = 32.
Proof.
  unfold compute_integrity_tag. case_match; [|rewrite mret_Ok; intros <-; apply sha256_blen].
  rewrite bind_Ok. intros (k & _ & Hk). rewrite mret_Ok in Hk. subst. apply hmac_blen.
Qed.

Lemma aead_roundtrip algo key nonce aad m c :
  aead_encrypt algo key nonce aad m = Ok c ->
  aead_decrypt algo key nonce aad c = Ok m /\ blen c = blen m + AeadAlgo_tag_len algo.
Proof.
  unfold aead_encrypt, aead_decrypt. rewrite bind_Ok. intros ([] & Hv & H). rewrite Hv, bind_ret.
  destruct algo.
  - rewrite mret_Ok in H. subst. rewrite mret_eq. cbn. split; [done|lia].
  - apply ok_or_Ok in H. rewrite (aead_open_seal _ _ _ _ _ _ H).
    split; [done|]. by apply aead_seal_blen in H.
  - apply ok_or_Ok in H. rewrite (aead_open_seal _ _ _ _ _ _ H).
    split; [done|]. by apply aead_seal_blen in H.
  - apply ok_or_Ok in H. rewrite (aead_open_seal _ _ _ _ _ _ H).
    split; [done|]. by apply aead_seal_blen in H.
Qed.
End CryptoFacts.

(** ** Theorems *)
Section Theorems.
Context {Sha : Sha256} {Lib : CryptoLib}.

(** C35: AEAD objects.  Whatever [encrypt_padded_aead_object] makes of a payload
    fills whole blocks, and [decrypt_padded_aead_object] under the same context
    returns the payload, for every cipher and for unencrypted archives. *)
Theorem aead_object_roundtrip context block_size payload c :
  1 <= block_size <= u32_max -> blen payload + 16 + block_size < 2 ^ 63 ->
  encrypt_padded_aead_object context block_size payload = Ok c ->
  decrypt_padded_aead_object context c = Ok payload
  /\ blen c `mod` block_size = 0
  /\ blen payload + AeadAlgo_tag_len (cx_algo context) < blen c.
Proof.
  intros Hb Hfit H. unfold encrypt_padded_aead_object in H. bind_inv H.
  assert (0 <= AeadAlgo_tag_len (cx_algo context) <= 16) as Ht by (destruct (cx_algo context); cbn; lia).
  destruct (suffix_pad_spec payload (AeadAlgo_tag_len (cx_algo context)) block_size)
    as (padded & Hp & _ & Htr & Hm & Hl); [unfold fits; lia|lia|lia|].
  rewrite Hp in Hr1. injection Hr1 as <-. apply aead_roundtrip in H as [Hd Hc].
  unfold decrypt_padded_aead_object. rewrite Hr, bind_ret, Hr0, bind_ret, Hd, bind_ret.
  split_and!; [done| |lia]. by rewrite Hc.
Qed.

(** Integrity tags.  [verify_integrity_tag] accepts exactly the tag that
    [compute_integrity_tag] computes for the same structure, key, archive and
    bytes, encrypted or not; a computed tag has 32 bytes. *)
Theorem integrity_tag_verifies domain aead_algo rev mac_key archive_uuid session_id covered tag :
  (verify_integrity_tag domain aead_algo rev mac_key archive_uuid session_id covered tag = Ok tt
   <-> compute_integrity_tag domain aead_algo rev mac_key archive_uuid session_id covered = Ok tag)
  /\ (compute_integrity_tag domain aead_algo rev mac_key archive_uuid session_id covered = Ok tag ->
      blen tag = 32)
  /\ verify_integrity_tag domain aead_algo rev mac_key archive_uuid session_id covered tag <> Panic.
Proof.
  split_and!; [apply verify_integrity_tag_Ok|apply compute_integrity_tag_blen|].
  unfold verify_integrity_tag, verify_hmac, compute_integrity_tag. case_match; no_panic.
Qed.

(** Labels separate.  The byte string that an integrity tag covers
    determines the structure, the archive, the session and the covered bytes,
    with HMAC labels and with digest labels; and the nonce and associated-data
    inputs determine the object's domain, archive, session and counter. *)
Theorem labels_separate d d' u u' s s' c c' :
  blen u = 16 -> blen u' = 16 -> blen s = 16 -> blen s' = 16 ->
  (HmacDomain_domain_bytes d ++ u ++ s ++ c = HmacDomain_domain_bytes d' ++ u' ++ s' ++ c' ->
     d = d' /\ u = u' /\ s = s' /\ c = c')
  /\ (HmacDomain_digest_domain_bytes d ++ u ++ s ++ c
      = HmacDomain_digest_domain_bytes d' ++ u' ++ s' ++ c' ->
     d = d' /\ u = u' /\ s = s' /\ c = c')
  /\ (forall n n' aad, u64 n -> u64 n' -> build_aad c u s n = Ok aad -> build_aad c' u' s' n' = Ok aad ->
     c = c' /\ u = u' /\ s = s' /\ n = n').
Proof.
  intros Hu Hu' Hs Hs'. split_and!.
  - intros H. destruct (decide (d = d')) as [<-|Hd].
    + apply app_inj_l in H as [_ H]; [|done]. by apply uuid_pair_inj in H as (? & ? & ?).
    + by apply apart_neq in H; [|apply domains_apart].
  - intros H. destruct (decide (d = d')) as [<-|Hd].
    + apply app_inj_l in H as [_ H]; [|done]. by apply uuid_pair_inj in H as (? & ? & ?).
    + by apply apart_neq in H; [|apply domains_apart].
  - intros n n' aad Hn Hn' H H'. by apply (info_inj _ _ _ _ _ _ _ _ _ aad Hu Hs Hu' Hs' Hn Hn' H).
Qed.

(** Key schedule.  From a 32-byte master key [Subkeys_derive] succeeds and
    makes eight 32-byte keys; a passphrase is stretched only under parameters
    within the reader's bounds, and key material of the wrong kind or length is
    refused. *)
Theorem key_schedule master_key archive_uuid session_id :
  (exists k, Subkeys_derive master_key archive_uuid session_id = Ok k
     /\ Forall (fun key => blen key = 32)
          [enc_key k; mac_key k; nonce_seed k; index_root_key k; index_shard_key k;
           dictionary_key k; dir_hint_key k; index_nonce_seed k])
  /\ (forall raw key, MasterKey_from_raw_key raw = Ok key <-> key = raw /\ blen raw = 32)
  /\ (forall params pw key, MasterKey_derive_from_passphrase params pw = Ok key ->
        blen key = 32 /\ exists t m p salt, params = KdfArgon2id t m p salt
          /\ validate_argon2id_bounds t m p (blen salt) = Ok tt).
Proof.
  split_and!.
  - assert (forall hk info, exists out, expand_subkey hk info = Ok out /\ blen out = 32) as Hx.
    { intros hk info. destruct (hkdf_expand_len hk (String.list_byte_of_string info) SUBKEY_LEN)
        as (out & Ho & Hl); [unfold SUBKEY_LEN; lia|].
      exists out. unfold expand_subkey. by rewrite Ho. }
    unfold Subkeys_derive. cbv zeta. set (hk := hkdf_new _ _).
    repeat (match goal with |- context [expand_subkey hk ?i] =>
      let o := fresh "o" in let E := fresh "E" in
      destruct (Hx hk i) as (o & E & ?); rewrite E, bind_ret end).
    eexists. split; [done|]. cbn. repeat (constructor; [done|]). constructor.
  - intros raw key. unfold MasterKey_from_raw_key, MASTER_KEY_LEN. rewrite bind_Ok. split.
    + intros ([] & Hr%reject_if_Ok & H). rewrite mret_Ok in H. split; [done|lia].
    + intros [-> Hl]. exists tt. rewrite Hl. done.
  - intros params pw key H. destruct params as [| |t m p salt|]; try done. cbn in H. bind_inv H.
    apply ok_or_Ok, try_from_Some in Hr as [-> _]. destruct r0. apply ok_or_Ok in H.
    split; [by eapply argon2id_blen|]. by exists t, m, p, salt.
Qed.
End Theorems.

(** ** A concrete library

    Toy primitives that satisfy the laws of the interface, so that the
    theorems can be applied to them. *)
Lemma toy_expand_len (hk info : bytes) len :
  0 <= len <= 255 * 32 ->
  exists out, Some (le_bytes (Z.to_nat len) (le_combine (hk ++ info))) = Some out /\ blen out = len.
Proof. intros. eexists. split; [done|]. rewrite blen_le. lia. Qed.

Definition toy_seal (algo : AeadAlgo.t) (key nonce aad m : bytes) : option bytes :=
  Some (m ++ le_bytes (Z.to_nat (AeadAlgo_tag_len algo)) (le_combine (key ++ nonce ++ aad ++ m))).

Definition toy_open (algo : AeadAlgo.t) (key nonce aad c : bytes) : option bytes :=
  let m := take (length c - Z.to_nat (AeadAlgo_tag_len algo)) c in
  if bool_decide (toy_seal algo key nonce aad m = Some c) then Some m else None.

Lemma toy_open_seal algo key nonce aad m c :
  toy_seal algo key nonce aad m = Some c -> toy_open algo key nonce aad c = Some m.
Proof.
  intros H. unfold toy_open. assert (take (length c - Z.to_nat (AeadAlgo_tag_len algo)) c = m) as ->.
  - injection H as <-. rewrite length_app, length_le_split.
    replace (length m + _ - _)%nat with (length m) by lia. apply take_app_length.
  - by rewrite bool_decide_eq_true_2.
Qed.

Lemma toy_seal_blen algo key nonce aad m c :
  toy_seal algo key nonce aad m = Some c -> blen c = blen m + AeadAlgo_tag_len algo.
Proof.
  intros H. injection H as <-. rewrite blen_app, blen_le. destruct algo; cbn; lia.
Qed.

Definition toy_CryptoLib : CryptoLib.
Proof.
  refine {| hmac_sha256 := fun key m => toy_hash (key ++ m);
     hmac_verify := fun key m tag => bytes_eqb tag (toy_hash (key ++ m));
     Hkdf := bytes;
     hkdf_new := fun salt ikm => salt ++ ikm;
     hkdf_from_prk := Some;
     hkdf_expand := fun hk info len => Some (le_bytes (Z.to_nat len) (le_combine (hk ++ info)));
     hkdf_expand_len := toy_expand_len;
     argon2_params_ok := fun _ _ _ => true;
     argon2id := fun _ _ _ pw salt => Some (toy_hash (pw ++ salt));
     nfc := fun b => b;
     aead_seal := toy_seal;
     aead_open := toy_open;
     aead_open_seal := toy_open_seal;
     aead_seal_blen := toy_seal_blen |}.
  - intros. apply toy_hash_blen.
  - intros. apply bytes_eqb_eq.
  - eauto.
  - intros t m p pw salt out [= <-]. apply toy_hash_blen.
Defined.

Definition example_context : AeadObjectContext := {|
  cx_algo := AeadAlgo.AesGcmSiv256; cx_key := zeros 32; cx_nonce_seed := zeros 32;
  cx_domain := String.list_byte_of_string "payload"; cx_archive_uuid := zeros 16;
  cx_session_id := zeros 16; cx_counter := 7 |}.

Lemma aead_object_roundtrip_witness :
  exists c, encrypt_padded_aead_object (Lib := toy_CryptoLib) example_context 64
              (String.list_byte_of_string "hello") = Ok c
    /\ decrypt_padded_aead_object (Lib := toy_CryptoLib) example_context c
       = Ok (String.list_byte_of_string "hello").
Proof.
  eexists. split; [vm_compute; reflexivity|].
  eapply (aead_object_roundtrip (Lib := toy_CryptoLib) example_context 64);
    [split; discriminate|reflexivity|vm_compute; reflexivity].
Defined.

Lemma labels_separate_witness :
  HmacDomain_domain_bytes HmacDomain.CryptoHeader ++ zeros 16 ++ zeros 16 ++ []
  <> HmacDomain_domain_bytes HmacDomain.VolumeTrailer ++ zeros 16 ++ zeros 16 ++ [].
Proof.
  intros H.
  pose proof (proj1 (proj1 (labels_separate HmacDomain.CryptoHeader HmacDomain.VolumeTrailer (zeros 16)
    (zeros 16) (zeros 16) (zeros 16) [] [] eq_refl eq_refl eq_refl eq_refl) H)) as E.
  discriminate E.
Defined.
