(* ===== verification/Extensions.v ===== *)
(** * Extension records of the crypto header

    The tag-length-value list that ends the crypto header: the scanner and the
    semantic checks of [crates/tzap-core/src/wire.rs], and the content profile
    of [crates/tzap-core/src/raw_stream_profile.rs]. *)

From S2P Require Import Wire.
#[local] Open Scope Z_scope.

Record ExtensionTlv : Type := {
  ext_tag_of : Z;
  ext_value : bytes
}.

(** ** Scanning

    The loop of [scan_crypto_extension_tlvs]; each round consumes at least six
    bytes, so [length b] rounds are enough. *)
Fixpoint scan_loop (fuel : nat) (b : bytes) (offset : Z) (extensions : list ExtensionTlv)
    : fresult (list ExtensionTlv) :=
  match fuel with
  | O => Panic
  | S fuel =>
      reject_if (offset =? blen b) MissingExtensionTerminator;;
      reject_if (blen b - offset <? CRYPTO_EXTENSION_HEADER_LEN) TruncatedExtensionHeader;;
      tag ← read_u16 b offset;
      length ← read_u32 b (offset + 2);
      let offset := offset + CRYPTO_EXTENSION_HEADER_LEN in
      if tag =? 0
      then
        reject_if (negb (length =? 0)) MalformedExtensionTerminator;;
        reject_if (negb (offset =? blen b)) BytesAfterExtensionTerminator;;
        mret extensions
      else
        reject_if (CRYPTO_EXTENSION_MAX_VALUE_LEN <? length) (ExtensionPayloadTooLarge length);;
        reject_if (blen b - offset <? length) TruncatedExtensionPayload;;
        value ← slice b offset (offset + length);
        scan_loop fuel b (offset + length)
          (extensions ++ [{| ext_tag_of := tag; ext_value := value |}])
  end.

Definition scan_crypto_extension_tlvs (b : bytes) : fresult (list ExtensionTlv) :=
  scan_loop (S (length b)) b 0 [].

(** ** UTF-8

    [std::str::from_utf8] succeeds on exactly the well-formed byte sequences
    of the Unicode standard (table 3-7). *)
Definition between (lo x hi : Z) : bool := (lo <=? x) && (x <=? hi).

Definition utf8_tail (x : Byte.byte) : bool := between 0x80 (byte.unsigned x) 0xbf.

Fixpoint utf8_valid (b : bytes) : bool :=
  match b with
  | [] => true
  | b0 :: r0 =>
      let x0 := byte.unsigned b0 in
      if x0 <=? 0x7f then utf8_valid r0
      else
        match r0 with
        | [] => false
        | b1 :: r1 =>
            let x1 := byte.unsigned b1 in
            if between 0xc2 x0 0xdf then utf8_tail b1 && utf8_valid r1
            else
              match r1 with
              | [] => false
              | b2 :: r2 =>
                  let second :=
                    if x0 =? 0xe0 then between 0xa0 x1 0xbf
                    else if x0 =? 0xed then between 0x80 x1 0x9f
                    else between 0x80 x1 0xbf in
                  if between 0xe0 x0 0xef then second && utf8_tail b2 && utf8_valid r2
                  else
                    match r2 with
                    | [] => false
                    | b3 :: r3 =>
                        let second :=
                          if x0 =? 0xf0 then between 0x90 x1 0xbf
                          else if x0 =? 0xf4 then between 0x80 x1 0x8f
                          else between 0x80 x1 0xbf in
                        between 0xf0 x0 0xf4 && second && utf8_tail b2 && utf8_tail b3
                        && utf8_valid r3
                    end
              end
        end
  end.

(** ** Semantics *)
Definition RAW_STREAM_CONTENT_MODEL_EXTENSION_TAG : Z := 0x0007.
Definition RAW_STREAM_CONTENT_MODEL_VALUE : bytes := String.list_byte_of_string "raw_stream_v1".
Definition RAW_STREAM_UNSUPPORTED_MESSAGE : string :=
  "raw-stream content profile is not supported by the revision-45 tar reader".

Inductive ContentProfile : Set :=
  | TarMember
  | RawStreamV1.

(** [extension.tag & 0x7fff] and [extension.tag & 0x8000 != 0] *)
Definition ext_tag (e : ExtensionTlv) : Z := Z.land (ext_tag_of e) 0x7fff.
Definition is_critical (e : ExtensionTlv) : bool := negb (Z.land (ext_tag_of e) 0x8000 =? 0).

Definition is_known_extension (ext_tag : Z) : bool :=
  (ext_tag =? 0x0001) || (ext_tag =? 0x0002) || (ext_tag =? 0x0003) || (ext_tag =? 0x0005).

Definition validate_known_extension (ext_tag : Z) (value : bytes) : fresult unit :=
  if (ext_tag =? 0x0001) || (ext_tag =? 0x0002) || (ext_tag =? 0x0005)
  then reject_if (negb (utf8_valid value)) (MalformedKnownExtension ext_tag)
  else if ext_tag =? 0x0003
  then reject_if (negb (blen value =? 8)) (MalformedKnownExtension ext_tag)
  else Ok tt.

Definition validate_raw_stream_content_model_extension (is_critical : bool) (value : bytes)
    : fresult unit :=
  reject_if (negb is_critical || negb (bytes_eqb value RAW_STREAM_CONTENT_MODEL_VALUE))
    (MalformedKnownExtension RAW_STREAM_CONTENT_MODEL_EXTENSION_TAG).

Definition mem (x : Z) (l : list Z) : bool := bool_decide (x ∈ l).

(** One round of the loop, with the tags seen so far. *)
Definition semantics_step (seen_known : list Z) (e : ExtensionTlv) : fresult (list Z) :=
  reject_if ((ext_tag e =? 0x0004) || (ext_tag e =? 0x0006)) (ForbiddenExtensionTag (ext_tag e));;
  if ext_tag e =? RAW_STREAM_CONTENT_MODEL_EXTENSION_TAG
  then
    if is_critical e
    then
      reject_if (mem (ext_tag e) seen_known) (DuplicateKnownExtension (ext_tag e));;
      validate_raw_stream_content_model_extension (is_critical e) (ext_value e);;
      mret (seen_known ++ [ext_tag e])
    else mret seen_known
  else if is_known_extension (ext_tag e)
  then
    reject_if (mem (ext_tag e) seen_known) (DuplicateKnownExtension (ext_tag e));;
    validate_known_extension (ext_tag e) (ext_value e);;
    mret (seen_known ++ [ext_tag e])
  else
    reject_if (is_critical e) (UnknownCriticalExtension (ext_tag e));;
    mret seen_known.

Fixpoint semantics_loop (seen_known : list Z) (extensions : list ExtensionTlv) : fresult unit :=
  match extensions with
  | [] => Ok tt
  | e :: extensions => seen_known ← semantics_step seen_known e; semantics_loop seen_known extensions
  end.

Definition validate_crypto_extension_semantics (extensions : list ExtensionTlv) : fresult unit :=
  semantics_loop [] extensions.

Fixpoint content_profile_loop (profile : ContentProfile) (extensions : list ExtensionTlv)
    : fresult ContentProfile :=
  match extensions with
  | [] => Ok profile
  | e :: extensions =>
      if (ext_tag e =? RAW_STREAM_CONTENT_MODEL_EXTENSION_TAG) && is_critical e
      then
        validate_raw_stream_content_model_extension (is_critical e) (ext_value e);;
        content_profile_loop RawStreamV1 extensions
      else content_profile_loop profile extensions
  end.

Definition content_profile_from_extensions (extensions : list ExtensionTlv)
    : fresult ContentProfile :=
  content_profile_loop TarMember extensions.

Definition reject_unsupported_raw_stream_profile (extensions : list ExtensionTlv) : fresult unit :=
  profile ← content_profile_from_extensions extensions;
  match profile with
  | TarMember => Ok tt
  | RawStreamV1 => Err (ReaderUnsupported RAW_STREAM_UNSUPPORTED_MESSAGE)
  end.

(** ** The scanner accepts exactly the encodings of extension lists *)
Definition tlv_bytes (e : ExtensionTlv) : bytes :=
  le_bytes 2 (ext_tag_of e) ++ le_bytes 4 (blen (ext_value e)) ++ ext_value e.

(** The list ends with a record of tag zero and length zero. *)
Definition tlvs_bytes (l : list ExtensionTlv) : bytes :=
  concat (map tlv_bytes l) ++ le_bytes 2 0 ++ le_bytes 4 0.

#[global] Arguments scan_crypto_extension_tlvs _ : simpl never.
#[global] Arguments tlv_bytes _ : simpl never.
#[global] Arguments tlvs_bytes _ : simpl never.

Definition tlv_ok (e : ExtensionTlv) : Prop :=
  u16 (ext_tag_of e) /\ ext_tag_of e <> 0 /\ blen (ext_value e) <= CRYPTO_EXTENSION_MAX_VALUE_LEN.

Lemma blen_tlv e : blen (tlv_bytes e) = 6 + blen (ext_value e).
Proof. unfold tlv_bytes. rewrite !blen_app. layout. lia. Qed.

Lemma scan_loop_sound fuel b offset acc exts :
  0 <= offset <= blen b ->
  scan_loop fuel b offset acc = Ok exts ->
  exists l, exts = acc ++ l /\ Forall tlv_ok l /\ seg b offset (blen b) = tlvs_bytes l.
Proof.
  revert offset acc. induction fuel as [|fuel IH]; intros offset acc Ho H; [done|].
  cbn [scan_loop] in H. unfold CRYPTO_EXTENSION_HEADER_LEN, CRYPTO_EXTENSION_MAX_VALUE_LEN in *.
  bind_inv H.
  apply read_u16_Ok in Hr1 as (_ & Htag & Hr1); [|lia].
  apply read_u32_Ok in Hr2 as (_ & Hlen & Hr2); [|lia].
  destruct (Z.eqb_spec r1 0) as [->|Hne].
  - bind_inv H. subst. exists []. rewrite app_nil_r. split_and!; [done|constructor|].
    unfold tlvs_bytes. cbn [map concat app].
    rewrite seg_app_iff by (layout; lia). layout. split; [done|].
    assert (r2 = 0) as -> by lia. rewrite <- Hr2. f_equal; lia.
  - bind_inv H. apply slice_Ok in Hr5 as (_ & Hle & Hle' & ->).
    destruct (IH (offset + 6 + r2) (acc ++ [{| ext_tag_of := r1;
      ext_value := seg b (offset + 6) (offset + 6 + r2) |}])) as (l & -> & Hl & Hs); [lia|done|].
    assert (blen (seg b (offset + 6) (offset + 6 + r2)) = r2) as Hb by (rewrite blen_seg; lia).
    eexists (_ :: l). split_and!; [by rewrite <- app_assoc| |].
    + constructor; [|done]. unfold tlv_ok, CRYPTO_EXTENSION_MAX_VALUE_LEN. cbn. rewrite Hb. split_and!; [done|done|lia].
    + unfold tlvs_bytes in *. cbn [map concat]. rewrite <- app_assoc.
      rewrite seg_app_iff by (rewrite ?blen_tlv; cbn; lia). rewrite blen_tlv. cbn [ext_value].
      rewrite Hb. replace (offset + (6 + r2)) with (offset + 6 + r2) by lia. split; [|done].
      unfold tlv_bytes. cbn [ext_tag_of ext_value]. rewrite Hb.
      rewrite !seg_app_iff by (rewrite ?blen_app; layout; lia). layout.
      replace (offset + 2 + 4) with (offset + 6) in * by lia. split_and!; [done| |done].
      rewrite <- Hr2. f_equal; lia.
Qed.

Lemma scan_loop_complete fuel b offset acc l :
  0 <= offset <= blen b -> (Z.to_nat (blen b - offset) <= fuel)%nat ->
  Forall tlv_ok l -> seg b offset (blen b) = tlvs_bytes l ->
  scan_loop fuel b offset acc = Ok (acc ++ l).
Proof.
  revert offset acc l. induction fuel as [|fuel IH]; intros offset acc l Ho Hf Hl Hs.
  { assert (offset = blen b) as -> by lia. apply (f_equal blen) in Hs.
    rewrite blen_seg in Hs by lia. unfold tlvs_bytes in Hs. rewrite !blen_app in Hs.
    pose proof (blen_nonneg (concat (map tlv_bytes l))). revert Hs. layout. lia. }
  unfold tlvs_bytes in Hs. cbn [scan_loop].
  assert (blen (seg b offset (blen b)) = blen b - offset) as Hbl by (apply blen_seg; lia).
  unfold_consts. destruct Hl as [|e l He Hl]; cbn [map concat app] in Hs.
  - rewrite Hs in Hbl. rewrite blen_app in Hbl. revert Hbl. layout. intros Hbl.
    rewrite seg_app_iff in Hs by (layout; lia). revert Hs. layout. intros [H1 H2].
    run. rewrite (proj2 (read_u16_Ok b offset 0 ltac:(lia))) by (split_and!; [lia|unfold fits; lia|done]).
    rewrite bind_ret.
    replace (blen b) with (offset + 2 + 4) in H2 by lia.
    rewrite (proj2 (read_u32_Ok b (offset + 2) 0 ltac:(lia))) by (split_and!; [lia|unfold fits; lia|done]).
    run. by rewrite app_nil_r.
  - destruct He as (Ht & Hne & Hm). unfold CRYPTO_EXTENSION_MAX_VALUE_LEN in Hm.
    pose proof (blen_nonneg (ext_value e)).
    assert (6 + blen (ext_value e) + 6 <= blen b - offset) as Hroom.
    { rewrite <- Hbl, Hs, !blen_app, blen_tlv. layout.
      pose proof (blen_nonneg (concat (map tlv_bytes l))). lia. }
    rewrite <- app_assoc in Hs. rewrite seg_app_iff in Hs by (rewrite ?blen_tlv; lia).
    rewrite blen_tlv in Hs. destruct Hs as [H1 H2]. unfold tlv_bytes in H1.
    rewrite !seg_app_iff in H1 by (rewrite ?blen_app; layout; lia). revert H1. layout. intros (Ha & Hb & Hc).
    run. rewrite (proj2 (read_u16_Ok b offset (ext_tag_of e) ltac:(lia))) by (split_and!; [lia|done|done]).
    rewrite bind_ret.
    rewrite (proj2 (read_u32_Ok b (offset + 2) (blen (ext_value e)) ltac:(lia)))
      by (split_and!; [lia|unfold fits; lia|done]).
    run. replace (offset + 2 + 4) with (offset + 6) in Hc by lia.
    replace (offset + 6 + blen (ext_value e)) with (offset + (6 + blen (ext_value e))) by lia.
    rewrite Hc. rewrite (IH _ _ l); [|lia|lia|done|done].
    rewrite <- app_assoc. by destruct e.
Qed.

Lemma scan_tlvs_iff b l :
  scan_crypto_extension_tlvs b = Ok l <-> Forall tlv_ok l /\ b = tlvs_bytes l.
Proof.
  unfold scan_crypto_extension_tlvs. pose proof (blen_nonneg b). split.
  - intros (l' & -> & Hl & Hs)%scan_loop_sound; [|lia]. rewrite seg_full in Hs. done.
  - intros [Hl Hb]. apply (scan_loop_complete _ _ _ []); [lia|unfold blen; lia|done|].
    by rewrite seg_full.
Qed.

Lemma scan_loop_no_panic fuel b offset acc :
  0 <= offset <= blen b -> (Z.to_nat (blen b - offset) < fuel)%nat ->
  scan_loop fuel b offset acc <> Panic.
Proof.
  revert offset acc. induction fuel as [|fuel IH]; intros offset acc Ho Hf; [lia|].
  cbn [scan_loop]. unfold_consts. no_panic. apply IH; lia.
Qed.

Lemma extension_scan_no_panic b : scan_crypto_extension_tlvs b <> Panic.
Proof. pose proof (blen_nonneg b). apply scan_loop_no_panic; [lia|unfold blen; lia]. Qed.

(** ** What the semantic checks accept *)

(** The tag an extension occupies: a known tag may occur once, and so may the
    critical raw-stream tag. *)
Definition slot (e : ExtensionTlv) : option Z :=
  if ext_tag e =? RAW_STREAM_CONTENT_MODEL_EXTENSION_TAG
  then if is_critical e then Some (ext_tag e) else None
  else if is_known_extension (ext_tag e) then Some (ext_tag e) else None.

Definition ext_ok (e : ExtensionTlv) : Prop :=
  ext_tag e <> 4 /\ ext_tag e <> 6
  /\ (ext_tag e = 1 \/ ext_tag e = 2 \/ ext_tag e = 5 -> utf8_valid (ext_value e) = true)
  /\ (ext_tag e = 3 -> blen (ext_value e) = 8)
  /\ (ext_tag e = 7 -> is_critical e = true -> ext_value e = RAW_STREAM_CONTENT_MODEL_VALUE)
  /\ (is_critical e = true -> ext_tag e ∈ [1; 2; 3; 5; 7]).

Lemma mem_false x l : mem x l = false <-> x ∉ l.
Proof. unfold mem. apply bool_decide_eq_false. Qed.

Lemma validate_known_extension_Ok t v :
  validate_known_extension t v = Ok tt
  <-> (t = 1 \/ t = 2 \/ t = 5 -> utf8_valid v = true) /\ (t = 3 -> blen v = 8).
Proof.
  unfold validate_known_extension.
  destruct ((t =? 1) || (t =? 2) || (t =? 5)) eqn:H1.
  - rewrite reject_if_Ok, negb_false_iff. split; [intros H; split; [done|lia]|intros [H _]; apply H; lia].
  - destruct (Z.eqb_spec t 3).
    + rewrite reject_if_Ok, negb_false_iff, Z.eqb_eq. split; [intros H; split; [lia|done]|intros [_ H]; auto].
    + split; [intros _; split; lia|done].
Qed.

Ltac ext_goal :=
  first [ lia | done | by intros ? [= <-] | intros _; rewrite !elem_of_cons; lia
        | intros; congruence ].

Lemma semantics_step_iff seen e seen' :
  semantics_step seen e = Ok seen'
  <-> ext_ok e /\ (forall t, slot e = Some t -> t ∉ seen)
      /\ seen' = seen ++ match slot e with Some t => [t] | None => [] end.
Proof.
  unfold semantics_step, slot, ext_ok, RAW_STREAM_CONTENT_MODEL_EXTENSION_TAG. rewrite bind_Ok.
  set (t := ext_tag e).
  assert ((exists u, reject_if ((t =? 4) || (t =? 6)) (ForbiddenExtensionTag t) = Ok u)
    <-> t <> 4 /\ t <> 6) as Hforbid.
  { split; [intros [u H%reject_if_Ok]; lia|intros H; exists tt; rewrite reject_if_false by lia; done]. }
  destruct (Z.eqb_spec t 7) as [E7|N7].
  - destruct (is_critical e) eqn:Hc.
    + split.
      * intros (u & Hu & H). bind_inv H. subst seen'. apply mem_false in Hr.
        unfold validate_raw_stream_content_model_extension in Hr0. apply reject_if_Ok in Hr0.
        cbn in Hr0. apply negb_false_iff, bytes_eqb_eq in Hr0.
        split_and!; ext_goal.
      * intros (Hok & Hs & ->). exists tt. rewrite reject_if_false by lia. split; [done|].
        rewrite reject_if_false by (apply mem_false; by apply Hs). rewrite bind_ret.
        unfold validate_raw_stream_content_model_extension.
        rewrite reject_if_false; [done|]. cbn. apply negb_false_iff, bytes_eqb_eq. tauto.
    + split.
      * intros (u & Hu & H). rewrite mret_Ok in H. subst. rewrite app_nil_r.
        split_and!; ext_goal.
      * intros (Hok & Hs & ->). exists tt. rewrite reject_if_false by lia. split; [done|].
        by rewrite app_nil_r.
  - destruct (is_known_extension t) eqn:Hk.
    + unfold is_known_extension in Hk. split.
      * intros (u & Hu & H). apply reject_if_Ok in Hu. bind_inv H. subst seen'. apply mem_false in Hr.
        destruct r0. apply validate_known_extension_Ok in Hr0 as [H1 H3].
        split_and!; ext_goal.
      * intros (Hok & Hs & ->). exists tt. rewrite reject_if_false by lia. split; [done|].
        rewrite reject_if_false by (apply mem_false; by apply Hs). rewrite bind_ret.
        rewrite (proj2 (validate_known_extension_Ok _ _)); [done|tauto].
    + unfold is_known_extension in Hk. split.
      * intros (u & Hu & H). apply reject_if_Ok in Hu. bind_inv H. subst seen'. rewrite app_nil_r.
        split_and!; ext_goal.
      * intros ((? & ? & _ & _ & _ & Hcrit) & Hs & ->). exists tt. rewrite reject_if_false by lia.
        split; [done|]. rewrite app_nil_r. rewrite reject_if_false; [done|].
        destruct (is_critical e); [|done]. specialize (Hcrit eq_refl). rewrite !elem_of_cons, elem_of_nil in Hcrit. lia.
Qed.

Lemma semantics_loop_iff seen l :
  semantics_loop seen l = Ok tt
  <-> Forall ext_ok l /\ NoDup (omap slot l) /\ forall t, t ∈ omap slot l -> t ∉ seen.
Proof.
  revert seen. induction l as [|e l IH]; intros seen; cbn [semantics_loop].
  - split; [intros _; split_and!; [constructor|constructor|set_solver]|done].
  - rewrite bind_Ok. cbn [omap list_omap]. split.
    + intros (seen' & (He & Hs & ->)%semantics_step_iff & (Hl & Hnd & Hall)%IH).
      destruct (slot e) as [t|] eqn:Ht.
      * split_and!; [by constructor| |].
        -- apply NoDup_cons. split; [|done]. intros Hin%Hall. set_solver.
        -- intros t' [->|Hin]%elem_of_cons; [by apply Hs|]. apply Hall in Hin. set_solver.
      * rewrite app_nil_r in Hall. split_and!; [by constructor|done|done].
    + intros (Hf & Hnd & Hall). apply Forall_cons in Hf as [He Hl].
      eexists. split.
      * apply semantics_step_iff. split_and!; [done| |done]. intros t Ht. rewrite Ht in Hall.
        apply Hall. set_solver.
      * apply IH. destruct (slot e) as [t|]; [|by rewrite app_nil_r].
        apply NoDup_cons in Hnd as [Hn Hnd]. split_and!; [done|done|].
        intros t' Hin. pose proof (Hall t' ltac:(set_solver)). set_solver.
Qed.

(** ** Theorems *)

(** The extension list.  [scan_crypto_extension_tlvs] accepts exactly the
    encodings of lists of extensions with non-zero tags and values of at most
    256 bytes, closed by the terminator and nothing after it, and returns that
    list; the loop ends and never panics on any other string. *)
Theorem extension_scan_correct b l :
  (scan_crypto_extension_tlvs b = Ok l <-> Forall tlv_ok l /\ b = tlvs_bytes l)
  /\ scan_crypto_extension_tlvs b <> Panic.
Proof.
  split; [apply scan_tlvs_iff|apply extension_scan_no_panic].
Qed.

(** The meaning of extensions.  [validate_crypto_extension_semantics]
    accepts a list exactly when no extension is forbidden, every known one is
    well formed, no critical one is unknown, and no known or critical
    raw-stream tag occurs twice. *)
Theorem extension_semantics_correct l :
  validate_crypto_extension_semantics l = Ok tt <-> Forall ext_ok l /\ NoDup (omap slot l).
Proof. unfold validate_crypto_extension_semantics. rewrite semantics_loop_iff. set_solver. Qed.
