(* ===== verification/CryptoHeader.v ===== *)
(** * The crypto header, [CryptoHeader] of [crates/tzap-core/src/wire.rs]

    The fixed part, the key-derivation parameters, the extension list and the
    integrity tag, in this order. *)

From S2P Require Import Wire Kdf CryptoHeaderFixed Extensions.
#[local] Open Scope Z_scope.

Record CryptoHeader : Type := {
  ch_fixed : CryptoHeaderFixed;
  ch_kdf_params : KdfParams;
  ch_extensions : list ExtensionTlv;
  ch_header_hmac : bytes;
  ch_hmac_covered_bytes : bytes
}.

Definition CryptoHeader_parse (b : bytes) (volume_crypto_header_length : Z) : fresult CryptoHeader :=
  let declared_len := volume_crypto_header_length in
  reject_if (READER_MAX_CRYPTO_HEADER_LEN <? volume_crypto_header_length)
    (ReaderResourceLimitExceeded "CryptoHeader length" READER_MAX_CRYPTO_HEADER_LEN
       volume_crypto_header_length);;
  reject_if (negb (blen b =? declared_len)) (InvalidLength "CryptoHeader" declared_len (blen b));;
  let min_len := CRYPTO_HEADER_FIXED_LEN + 2 + CRYPTO_EXTENSION_HEADER_LEN + CRYPTO_HEADER_HMAC_LEN in
  reject_if (blen b <? min_len) (CryptoHeaderTooShort min_len (blen b));;
  fixed_bytes ← slice b 0 CRYPTO_HEADER_FIXED_LEN;
  fixed ← CryptoHeaderFixed_parse fixed_bytes volume_crypto_header_length;
  let hmac_offset := blen b - CRYPTO_HEADER_HMAC_LEN in
  kdf_bytes ← slice b CRYPTO_HEADER_FIXED_LEN hmac_offset;
  '(kdf_params, kdf_len) ← KdfParams_parse (ch_kdf_algo fixed) kdf_bytes;
  extension_bytes ← slice b (CRYPTO_HEADER_FIXED_LEN + kdf_len) hmac_offset;
  extensions ← scan_crypto_extension_tlvs extension_bytes;
  header_hmac ← read_array_32 b hmac_offset;
  hmac_covered_bytes ← slice b 0 hmac_offset;
  mret {| ch_fixed := fixed; ch_kdf_params := kdf_params; ch_extensions := extensions;
          ch_header_hmac := header_hmac; ch_hmac_covered_bytes := hmac_covered_bytes |}.

Definition CryptoHeader_validate_extension_semantics (self : CryptoHeader) : fresult unit :=
  validate_crypto_extension_semantics (ch_extensions self).

(** ** The parser accepts exactly the encodings of valid headers *)

(** The bytes under the integrity tag. *)
Definition covered_bytes (h : CryptoHeader) : bytes :=
  CryptoHeaderFixed_to_bytes (ch_fixed h) ++ kdf_bytes (ch_kdf_params h)
  ++ tlvs_bytes (ch_extensions h).

Definition CryptoHeader_valid (len : Z) (h : CryptoHeader) : Prop :=
  CryptoHeaderFixed_valid len (ch_fixed h)
  /\ kdf_algo_of (ch_kdf_params h) = ch_kdf_algo (ch_fixed h)
  /\ KdfParams_valid (ch_kdf_params h)
  /\ Forall tlv_ok (ch_extensions h)
  /\ blen (ch_header_hmac h) = 32
  /\ ch_hmac_covered_bytes h = covered_bytes h.

Lemma CryptoHeaderFixed_blen h : CryptoHeaderFixed_typed h -> blen (CryptoHeaderFixed_to_bytes h) = 76.
Proof.
  intros _. unfold CryptoHeaderFixed_to_bytes. unfold_consts. apply blen_puts. layout_done.
Qed.

Lemma kdf_bytes_min params : KdfParams_valid params -> 2 <= blen (kdf_bytes params).
Proof.
  intros Hv. pose proof (serialize_kdf_params_valid _ Hv) as H.
  destruct params as [| |t m p salt|len count version digest]; cbn in H.
  - unfold kdf_bytes. cbn. by layout.
  - unfold kdf_bytes. cbn. by layout.
  - bind_inv H. rewrite <- H, !blen_app. layout. pose proof (blen_nonneg salt). lia.
  - unfold kdf_bytes. cbn. rewrite !blen_app. layout. pose proof (blen_nonneg digest). lia.
Qed.

Lemma tlvs_bytes_min l : 6 <= blen (tlvs_bytes l).
Proof. unfold tlvs_bytes. rewrite !blen_app. layout. pose proof (blen_nonneg (concat (map tlv_bytes l))). lia. Qed.

Lemma CryptoHeader_parse_iff b len h :
  CryptoHeader_parse b len = Ok h
  <-> CryptoHeader_valid len h /\ b = covered_bytes h ++ ch_header_hmac h /\ len = blen b.
Proof.
  unfold CryptoHeader_parse, CryptoHeader_valid, covered_bytes. unfold_consts. split.
  - intros H. bind_inv H. subst h. cbn. wire_facts.
    apply CryptoHeaderFixed_parse_iff in Hr3 as [Hfix Hb].
    apply KdfParams_parse_iff in Hr5 as (Ha & Hv & Hn & Hle & Hs).
    apply scan_tlvs_iff in Hr7 as [Hext Htl].
    pose proof (kdf_bytes_min _ Hv). rewrite (blen_seg b 76) in Hle by lia. rewrite seg_seg in Hs by lia.
    replace (blen b - 32 + 32) with (blen b) in * by lia. replace (76 + 0) with 76 in Hs by lia.
    assert (seg b 0 (blen b - 32) = seg b 0 76 ++ kdf_bytes k ++ tlvs_bytes r6) as Hcov.
    { rewrite <- Hs, <- Htl. rewrite (seg_split b 0 76), (seg_split b 76 (76 + z)) by lia. done. }
    rewrite Hb in *. split_and!; try done; try lia.
    + rewrite blen_seg; lia.
    + rewrite <- Hcov. rewrite <- seg_split by lia. by rewrite seg_full.
  - intros ((Hfix & Ha & Hv & Hext & Hh & Hcov) & Hb & ->). destruct h as [fixed params exts hmac cov].
    cbn in *. pose proof (CryptoHeaderFixed_blen fixed (proj1 Hfix)) as Hl1.
    pose proof (kdf_bytes_min _ Hv). pose proof (tlvs_bytes_min exts).
    destruct Hfix as (Hty & Hsp & Hlen & Hmax). unfold_consts.
    set (F := CryptoHeaderFixed_to_bytes fixed) in *. set (K := kdf_bytes params) in *.
    set (X := tlvs_bytes exts) in *.
    assert (blen b = 76 + blen K + blen X + 32) as Hlb by (rewrite Hb, !blen_app; lia).
    pose proof (seg_full b) as Hfull. rewrite Hb in Hfull at 3. rewrite <- !app_assoc in Hfull.
    rewrite !seg_app_iff in Hfull by (rewrite ?blen_app; lia). rewrite Hl1 in Hfull.
    replace (0 + 76) with 76 in Hfull by lia. destruct Hfull as (H1 & H2 & H3 & H4).
    assert (seg b 0 (blen b - 32) = F ++ K ++ X) as Hc.
    { rewrite !seg_app_iff by (rewrite ?blen_app; lia). rewrite Hl1.
      replace (0 + 76) with 76 by lia. replace (blen b - 32) with (76 + blen K + blen X) by lia. done. }
    run. rewrite H1. unfold F. rewrite (proj2 (CryptoHeaderFixed_parse_iff _ (blen b) fixed)) by (by split_and!).
    rewrite bind_ret. run_with ltac:(lia).
    rewrite (proj2 (KdfParams_parse_iff (ch_kdf_algo fixed) (seg b 76 (blen b - 32)) params (blen K))).
    2: { split_and!; [done|done|done|rewrite blen_seg; lia|]. rewrite seg_seg by lia.
         replace (76 + 0) with 76 by lia. done. }
    rewrite bind_ret. cbv beta iota. rewrite (slice_in_range b (76 + blen K)) by lia. rewrite bind_ret.
    rewrite (proj2 (scan_tlvs_iff (seg b (76 + blen K) (blen b - 32)) exts)).
    2: { split; [done|]. replace (blen b - 32) with (76 + blen K + blen X) by lia. done. }
    rewrite bind_ret. rewrite (proj2 (read_array_32_Ok b (blen b - 32) hmac ltac:(lia))).
    2: { split; [lia|]. rewrite <- H4. f_equal; lia. }
    run. rewrite Hc, Hcov. done.
Qed.

Lemma CryptoHeader_parse_no_panic b len : CryptoHeader_parse b len <> Panic.
Proof.
  unfold CryptoHeader_parse. unfold_consts. no_panic;
    match goal with H : KdfParams_parse _ _ = Ok _ |- _ =>
      apply KdfParams_parse_iff in H as (_ & Hv & -> & Hle & _);
      pose proof (kdf_bytes_min _ Hv); rewrite blen_seg in Hle by lia end.
  - apply slice_no_panic; lia.
  - apply extension_scan_no_panic.
Qed.

(** ** Theorems *)

(** The crypto header.  [CryptoHeader_parse] accepts exactly the strings of
    the announced length that are the fixed header, the key-derivation
    parameters of its algorithm, an extension list and a 32-byte tag in a row,
    each valid; it returns these parts with the bytes the tag covers, and it
    never panics. *)
Theorem crypto_header_codec b len h :
  (CryptoHeader_parse b len = Ok h
   <-> CryptoHeader_valid len h /\ b = covered_bytes h ++ ch_header_hmac h /\ len = blen b)
  /\ CryptoHeader_parse b len <> Panic.
Proof. split; [apply CryptoHeader_parse_iff|apply CryptoHeader_parse_no_panic]. Qed.
