(* ===== verification/Footers.v ===== *)
(** * The footers of a volume

    [ManifestFooter] and [VolumeTrailer] of [crates/tzap-core/src/wire.rs]. *)

From S2P Require Import Wire.
#[local] Open Scope Z_scope.

(** ** The manifest footer *)
Record ManifestFooter : Type := {
  mf_archive_uuid : bytes;
  mf_session_id : bytes;
  mf_volume_index : Z;
  mf_is_authoritative : Z;
  mf_total_volumes : Z;
  mf_index_root_first_block : Z;
  mf_index_root_data_block_count : Z;
  mf_index_root_parity_block_count : Z;
  mf_index_root_encrypted_size : Z;
  mf_index_root_decompressed_size : Z;
  mf_manifest_hmac : bytes
}.

Definition ManifestFooter_validate_index_root_extent (self : ManifestFooter) (block_size : Z)
    : fresult unit :=
  reject_if ((mf_index_root_data_block_count self =? 0) || (mf_index_root_encrypted_size self =? 0))
    EmptyIndexRootExtent;;
  expected ← ok_or (checked_mul 32 (mf_index_root_data_block_count self) block_size)
    IndexRootSizeMismatch;
  reject_if (negb (expected =? mf_index_root_encrypted_size self)) IndexRootSizeMismatch.

Definition ManifestFooter_parse (b : bytes) : fresult ManifestFooter :=
  expect_len "ManifestFooter" MANIFEST_FOOTER_LEN (blen b);;
  magic ← slice b 0 4;
  expect_magic "ManifestFooter" TZMF_MAGIC magic;;
  reserved ← slice b 41 44;
  expect_zero "ManifestFooter" reserved;;
  reserved ← slice b 72 104;
  expect_zero "ManifestFooter" reserved;;
  is_authoritative ← byte_at b 40;
  reject_if (1 <? is_authoritative) (InvalidAuthoritativeFlag is_authoritative);;
  archive_uuid ← read_array_16 b 4;
  session_id ← read_array_16 b 20;
  volume_index ← read_u32 b 36;
  total_volumes ← read_u32 b 44;
  index_root_first_block ← read_u64 b 48;
  index_root_data_block_count ← read_u32 b 56;
  index_root_parity_block_count ← read_u32 b 60;
  index_root_encrypted_size ← read_u32 b 64;
  index_root_decompressed_size ← read_u32 b 68;
  manifest_hmac ← read_array_32 b 104;
  mret {|
    mf_archive_uuid := archive_uuid;
    mf_session_id := session_id;
    mf_volume_index := volume_index;
    mf_is_authoritative := is_authoritative;
    mf_total_volumes := total_volumes;
    mf_index_root_first_block := index_root_first_block;
    mf_index_root_data_block_count := index_root_data_block_count;
    mf_index_root_parity_block_count := index_root_parity_block_count;
    mf_index_root_encrypted_size := index_root_encrypted_size;
    mf_index_root_decompressed_size := index_root_decompressed_size;
    mf_manifest_hmac := manifest_hmac |}.

Definition ManifestFooter_to_bytes (self : ManifestFooter) : bytes :=
  puts (zeros MANIFEST_FOOTER_LEN)
    [write_bytes 0 TZMF_MAGIC;
     write_bytes 4 (mf_archive_uuid self);
     write_bytes 20 (mf_session_id self);
     write_u32 36 (mf_volume_index self);
     write_u8 40 (mf_is_authoritative self);
     write_u32 44 (mf_total_volumes self);
     write_u64 48 (mf_index_root_first_block self);
     write_u32 56 (mf_index_root_data_block_count self);
     write_u32 60 (mf_index_root_parity_block_count self);
     write_u32 64 (mf_index_root_encrypted_size self);
     write_u32 68 (mf_index_root_decompressed_size self);
     write_bytes 104 (mf_manifest_hmac self)].

(** The Rust types of the fields. *)
Definition ManifestFooter_typed (h : ManifestFooter) : Prop :=
  blen (mf_archive_uuid h) = 16 /\ blen (mf_session_id h) = 16 /\ u32 (mf_volume_index h)
  /\ u8 (mf_is_authoritative h) /\ u32 (mf_total_volumes h) /\ u64 (mf_index_root_first_block h)
  /\ u32 (mf_index_root_data_block_count h) /\ u32 (mf_index_root_parity_block_count h)
  /\ u32 (mf_index_root_encrypted_size h) /\ u32 (mf_index_root_decompressed_size h)
  /\ blen (mf_manifest_hmac h) = 32.

Definition ManifestFooter_valid (h : ManifestFooter) : Prop :=
  ManifestFooter_typed h
  /\ mf_is_authoritative h <= 1.

Lemma ManifestFooter_parse_sound b h :
  ManifestFooter_parse b = Ok h -> ManifestFooter_valid h /\ ManifestFooter_to_bytes h = b.
Proof.
  unfold ManifestFooter_valid, ManifestFooter_typed. intros H. unfold ManifestFooter_parse in H. bind_inv H. subst h.
  wire_encoded ManifestFooter_to_bytes.
Qed.

Lemma ManifestFooter_parse_complete h :
  ManifestFooter_valid h -> ManifestFooter_parse (ManifestFooter_to_bytes h) = Ok h.
Proof.
  unfold ManifestFooter_valid, ManifestFooter_typed. intros HV.
  remember (ManifestFooter_to_bytes h) as b eqn:Hb. symmetry in Hb. destruct h. cbn in HV. destruct_and!.
  unfold ManifestFooter_to_bytes in Hb. wire_segments Hb.
  unfold ManifestFooter_parse. unfold_consts. cbn [FecAlgo.to_Z]. by wire_run.
Qed.

Lemma ManifestFooter_decode_iff b h :
  ManifestFooter_parse b = Ok h <-> ManifestFooter_valid h /\ ManifestFooter_to_bytes h = b.
Proof.
  split; [apply ManifestFooter_parse_sound|]. intros [Hv <-]. by apply ManifestFooter_parse_complete.
Qed.

#[export] Instance ManifestFooter_wire : WireFormat ManifestFooter := {|
  encode := ManifestFooter_to_bytes;
  decode := ManifestFooter_parse;
  valid := ManifestFooter_valid;
  decode_iff := ManifestFooter_decode_iff
|}.

Lemma ManifestFooter_parse_no_panic b : ManifestFooter_parse b <> Panic.
Proof. unfold ManifestFooter_parse. unfold_consts. no_panic. Qed.

(** ** The volume trailer *)
Record VolumeTrailer : Type := {
  vt_archive_uuid : bytes;
  vt_session_id : bytes;
  vt_volume_index : Z;
  vt_block_count : Z;
  vt_bytes_written : Z;
  vt_manifest_footer_offset : Z;
  vt_manifest_footer_length : Z;
  vt_closed_at_ns : Z;
  vt_root_auth_footer_offset : Z;
  vt_root_auth_footer_length : Z;
  vt_root_auth_flags : Z;
  vt_trailer_hmac : bytes
}.

Definition VolumeTrailer_parse (b : bytes) : fresult VolumeTrailer :=
  expect_len "VolumeTrailer" VOLUME_TRAILER_LEN (blen b);;
  magic ← slice b 0 4;
  expect_magic "VolumeTrailer" TZVT_MAGIC magic;;
  reserved ← slice b 92 96;
  expect_zero "VolumeTrailer" reserved;;
  manifest_footer_length ← read_u32 b 64;
  reject_if (negb (manifest_footer_length =? MANIFEST_FOOTER_LEN))
    (InvalidManifestFooterLength manifest_footer_length);;
  root_auth_flags ← read_u32 b 88;
  reject_if (negb (Z.land root_auth_flags (unot 32 0x00000001) =? 0))
    (InvalidArchive "VolumeTrailer root_auth_flags has unknown bits");;
  archive_uuid ← read_array_16 b 4;
  session_id ← read_array_16 b 20;
  volume_index ← read_u32 b 36;
  block_count ← read_u64 b 40;
  bytes_written ← read_u64 b 48;
  manifest_footer_offset ← read_u64 b 56;
  closed_at_ns ← read_i64 b 68;
  root_auth_footer_offset ← read_u64 b 76;
  root_auth_footer_length ← read_u32 b 84;
  trailer_hmac ← read_array_32 b 96;
  mret {|
    vt_archive_uuid := archive_uuid;
    vt_session_id := session_id;
    vt_volume_index := volume_index;
    vt_block_count := block_count;
    vt_bytes_written := bytes_written;
    vt_manifest_footer_offset := manifest_footer_offset;
    vt_manifest_footer_length := manifest_footer_length;
    vt_closed_at_ns := closed_at_ns;
    vt_root_auth_footer_offset := root_auth_footer_offset;
    vt_root_auth_footer_length := root_auth_footer_length;
    vt_root_auth_flags := root_auth_flags;
    vt_trailer_hmac := trailer_hmac |}.

Definition VolumeTrailer_to_bytes (self : VolumeTrailer) : bytes :=
  puts (zeros VOLUME_TRAILER_LEN)
    [write_bytes 0 TZVT_MAGIC;
     write_bytes 4 (vt_archive_uuid self);
     write_bytes 20 (vt_session_id self);
     write_u32 36 (vt_volume_index self);
     write_u64 40 (vt_block_count self);
     write_u64 48 (vt_bytes_written self);
     write_u64 56 (vt_manifest_footer_offset self);
     write_u32 64 (vt_manifest_footer_length self);
     write_i64 68 (vt_closed_at_ns self);
     write_u64 76 (vt_root_auth_footer_offset self);
     write_u32 84 (vt_root_auth_footer_length self);
     write_u32 88 (vt_root_auth_flags self);
     write_bytes 96 (vt_trailer_hmac self)].

(** The Rust types of the fields. *)
Definition VolumeTrailer_typed (h : VolumeTrailer) : Prop :=
  blen (vt_archive_uuid h) = 16 /\ blen (vt_session_id h) = 16 /\ u32 (vt_volume_index h)
  /\ u64 (vt_block_count h) /\ u64 (vt_bytes_written h) /\ u64 (vt_manifest_footer_offset h)
  /\ u32 (vt_manifest_footer_length h) /\ i64 (vt_closed_at_ns h)
  /\ u64 (vt_root_auth_footer_offset h) /\ u32 (vt_root_auth_footer_length h)
  /\ u32 (vt_root_auth_flags h) /\ blen (vt_trailer_hmac h) = 32.

Definition VolumeTrailer_valid (h : VolumeTrailer) : Prop :=
  VolumeTrailer_typed h
  /\ vt_manifest_footer_length h = MANIFEST_FOOTER_LEN
  /\ Z.land (vt_root_auth_flags h) (unot 32 0x00000001) = 0.

Lemma VolumeTrailer_parse_sound b h :
  VolumeTrailer_parse b = Ok h -> VolumeTrailer_valid h /\ VolumeTrailer_to_bytes h = b.
Proof.
  unfold VolumeTrailer_valid, VolumeTrailer_typed. intros H. unfold VolumeTrailer_parse in H. bind_inv H. subst h.
  wire_encoded VolumeTrailer_to_bytes.
Qed.

Lemma VolumeTrailer_parse_complete h :
  VolumeTrailer_valid h -> VolumeTrailer_parse (VolumeTrailer_to_bytes h) = Ok h.
Proof.
  unfold VolumeTrailer_valid, VolumeTrailer_typed. intros HV.
  remember (VolumeTrailer_to_bytes h) as b eqn:Hb. symmetry in Hb. destruct h. cbn in HV. destruct_and!.
  unfold VolumeTrailer_to_bytes in Hb. wire_segments Hb.
  unfold VolumeTrailer_parse. unfold_consts. cbn [FecAlgo.to_Z]. by wire_run.
Qed.

Lemma VolumeTrailer_decode_iff b h :
  VolumeTrailer_parse b = Ok h <-> VolumeTrailer_valid h /\ VolumeTrailer_to_bytes h = b.
Proof.
  split; [apply VolumeTrailer_parse_sound|]. intros [Hv <-]. by apply VolumeTrailer_parse_complete.
Qed.

#[export] Instance VolumeTrailer_wire : WireFormat VolumeTrailer := {|
  encode := VolumeTrailer_to_bytes;
  decode := VolumeTrailer_parse;
  valid := VolumeTrailer_valid;
  decode_iff := VolumeTrailer_decode_iff
|}.

Lemma VolumeTrailer_parse_no_panic b : VolumeTrailer_parse b <> Panic.
Proof. unfold VolumeTrailer_parse. unfold_consts. no_panic. Qed.

(** ** Theorems *)

(** The manifest footer.  [ManifestFooter_parse] accepts exactly the bytes
    that [to_bytes] makes of a typed footer whose authority flag is zero or
    one, and never panics; on such a footer [validate_index_root_extent]
    accepts a block size exactly when the index root is not empty and its
    encrypted size is its data block count times the block size, without
    overflow. *)
Theorem manifest_footer_codec b h block_size :
  (ManifestFooter_parse b = Ok h
   <-> (ManifestFooter_typed h /\ (mf_is_authoritative h = 0 \/ mf_is_authoritative h = 1))
       /\ ManifestFooter_to_bytes h = b)
  /\ ManifestFooter_parse b <> Panic
  /\ (ManifestFooter_parse b = Ok h ->
      (ManifestFooter_validate_index_root_extent h block_size = Ok tt
       <-> 0 < mf_index_root_encrypted_size h
           /\ mf_index_root_encrypted_size h = mf_index_root_data_block_count h * block_size)).
Proof.
  split_and!; [|apply ManifestFooter_parse_no_panic|].
  - rewrite ManifestFooter_decode_iff. unfold ManifestFooter_valid. split.
    + intros [[HT Ha] Hb]. split; [|done]. split; [done|].
      assert (u8 (mf_is_authoritative h)) as [? _] by apply HT. lia.
    + intros [[HT Ha] Hb]. split; [|done]. split; [done|lia].
  - intros [[HT _] _]%ManifestFooter_decode_iff. unfold ManifestFooter_typed, fits in HT. destruct_and!.
    unfold ManifestFooter_validate_index_root_extent, checked_mul. split.
    + intros Hv. bind_inv Hv. apply reject_if_Ok in Hv. apply ok_or_Ok in Hr0. case_match; [|done]. injection Hr0 as <-.
      apply orb_false_iff in Hr as [? ?]. lia.
    + intros [Hpos Heq].
      assert (mf_index_root_data_block_count h <> 0) by (intros E; rewrite E in Heq; lia).
      rewrite <- Heq, reject_if_false by lia. rewrite bind_ret.
      rewrite (proj2 (Z.ltb_lt _ _)) by lia. by run.
Qed.

(** The volume trailer.  [VolumeTrailer_parse] accepts exactly the bytes
    that [to_bytes] makes of a typed trailer that declares the one length a
    manifest footer has and no root-authentication flag but the lowest bit;
    it never panics. *)
Theorem volume_trailer_codec b h :
  (VolumeTrailer_parse b = Ok h
   <-> (VolumeTrailer_typed h
        /\ vt_manifest_footer_length h = MANIFEST_FOOTER_LEN
        /\ (vt_root_auth_flags h = 0 \/ vt_root_auth_flags h = 1))
       /\ VolumeTrailer_to_bytes h = b)
  /\ VolumeTrailer_parse b <> Panic.
Proof.
  split; [|apply VolumeTrailer_parse_no_panic]. rewrite VolumeTrailer_decode_iff.
  unfold VolumeTrailer_valid.
  assert (VolumeTrailer_typed h -> Z.land (vt_root_auth_flags h) (unot 32 0x00000001) = 0
            <-> vt_root_auth_flags h = 0 \/ vt_root_auth_flags h = 1) as Hflags.
  { intros HT. assert (u32 (vt_root_auth_flags h)) as Hf by apply HT.
    rewrite (land_unot_low 32 1) by done. unfold fits in Hf. lia. }
  split; intros [(HT & Hl & Hf) Hb]; specialize (Hflags HT); tauto.
Qed.
