(* ===== verification/Recovery.v ===== *)
(** * The critical metadata recovery area

    [CriticalMetadataRecoveryHeader], [CriticalMetadataRecoveryShard] and
    [CriticalRecoveryLocator] of [crates/tzap-core/src/wire.rs]: where the
    erasure-coded copy of the critical metadata is, and its shards. *)

From S2P Require Import Wire.
#[local] Open Scope Z_scope.

(** ** The header of the area *)
Record CriticalMetadataRecoveryHeader : Type := {
  rh_shard_size : Z;
  rh_data_shard_count : Z;
  rh_parity_shard_count : Z;
  rh_image_length : Z;
  rh_archive_uuid_hint : bytes;
  rh_session_id_hint : bytes;
  rh_volume_index_hint : Z;
  rh_image_sha256 : bytes;
  rh_header_crc32c : Z
}.

Section CriticalMetadataRecoveryHeader.
Context {C : Crc32c}.

Definition CriticalMetadataRecoveryHeader_parse (b : bytes) : fresult CriticalMetadataRecoveryHeader :=
  expect_len "CriticalMetadataRecoveryHeader" CRITICAL_METADATA_RECOVERY_HEADER_LEN (blen b);;
  magic ← slice b 0 4;
  expect_magic "CriticalMetadataRecoveryHeader" TZCR_MAGIC magic;;
  version ← read_u16 b 4;
  reject_if (negb (version =? 1)) (UnsupportedFormatVersion version);;
  fec_algo ← read_u16 b 6;
  reject_if (negb (fec_algo =? FecAlgo.to_Z FecAlgo.ReedSolomonGF16)) (UnknownFecAlgo fec_algo);;
  reserved ← slice b 88 112;
  expect_zero "CriticalMetadataRecoveryHeader" reserved;;
  covered ← slice b 0 112;
  crc ← read_u32 b 112;
  expect_crc "CriticalMetadataRecoveryHeader" covered crc;;
  shard_size ← read_u32 b 8;
  data_shard_count ← read_u16 b 12;
  parity_shard_count ← read_u16 b 14;
  image_length ← read_u32 b 16;
  archive_uuid_hint ← read_array_16 b 20;
  session_id_hint ← read_array_16 b 36;
  volume_index_hint ← read_u32 b 52;
  image_sha256 ← read_array_32 b 56;
  header_crc32c ← read_u32 b 112;
  mret {|
    rh_shard_size := shard_size;
    rh_data_shard_count := data_shard_count;
    rh_parity_shard_count := parity_shard_count;
    rh_image_length := image_length;
    rh_archive_uuid_hint := archive_uuid_hint;
    rh_session_id_hint := session_id_hint;
    rh_volume_index_hint := volume_index_hint;
    rh_image_sha256 := image_sha256;
    rh_header_crc32c := header_crc32c |}.

Definition CriticalMetadataRecoveryHeader_to_bytes (self : CriticalMetadataRecoveryHeader) : bytes :=
  put_crc (puts (zeros CRITICAL_METADATA_RECOVERY_HEADER_LEN)
    [write_bytes 0 TZCR_MAGIC;
     write_u16 4 1;
     write_u16 6 (FecAlgo.to_Z FecAlgo.ReedSolomonGF16);
     write_u32 8 (rh_shard_size self);
     write_u16 12 (rh_data_shard_count self);
     write_u16 14 (rh_parity_shard_count self);
     write_u32 16 (rh_image_length self);
     write_bytes 20 (rh_archive_uuid_hint self);
     write_bytes 36 (rh_session_id_hint self);
     write_u32 52 (rh_volume_index_hint self);
     write_bytes 56 (rh_image_sha256 self)]) 112.

(** The Rust types of the fields. *)
Definition CriticalMetadataRecoveryHeader_typed (h : CriticalMetadataRecoveryHeader) : Prop :=
  u32 (rh_shard_size h) /\ u16 (rh_data_shard_count h) /\ u16 (rh_parity_shard_count h)
  /\ u32 (rh_image_length h) /\ blen (rh_archive_uuid_hint h) = 16
  /\ blen (rh_session_id_hint h) = 16 /\ u32 (rh_volume_index_hint h)
  /\ blen (rh_image_sha256 h) = 32.

Definition CriticalMetadataRecoveryHeader_valid (h : CriticalMetadataRecoveryHeader) : Prop :=
  CriticalMetadataRecoveryHeader_typed h
  /\ rh_header_crc32c h = crc32c (seg (CriticalMetadataRecoveryHeader_to_bytes h) 0 112).

Lemma CriticalMetadataRecoveryHeader_parse_sound b h :
  CriticalMetadataRecoveryHeader_parse b = Ok h -> CriticalMetadataRecoveryHeader_valid h /\ CriticalMetadataRecoveryHeader_to_bytes h = b.
Proof.
  unfold CriticalMetadataRecoveryHeader_valid, CriticalMetadataRecoveryHeader_typed. intros H. unfold CriticalMetadataRecoveryHeader_parse in H. bind_inv H. subst h.
  wire_encoded CriticalMetadataRecoveryHeader_to_bytes.
Qed.

Lemma CriticalMetadataRecoveryHeader_parse_complete h :
  CriticalMetadataRecoveryHeader_valid h -> CriticalMetadataRecoveryHeader_parse (CriticalMetadataRecoveryHeader_to_bytes h) = Ok h.
Proof.
  unfold CriticalMetadataRecoveryHeader_valid, CriticalMetadataRecoveryHeader_typed. intros HV.
  remember (CriticalMetadataRecoveryHeader_to_bytes h) as b eqn:Hb. symmetry in Hb. destruct h. cbn in HV. destruct_and!.
  unfold CriticalMetadataRecoveryHeader_to_bytes in Hb. wire_segments Hb.
  unfold CriticalMetadataRecoveryHeader_parse. unfold_consts. cbn [FecAlgo.to_Z]. by wire_run.
Qed.

Lemma CriticalMetadataRecoveryHeader_decode_iff b h :
  CriticalMetadataRecoveryHeader_parse b = Ok h <-> CriticalMetadataRecoveryHeader_valid h /\ CriticalMetadataRecoveryHeader_to_bytes h = b.
Proof.
  split; [apply CriticalMetadataRecoveryHeader_parse_sound|]. intros [Hv <-]. by apply CriticalMetadataRecoveryHeader_parse_complete.
Qed.

#[export] Instance CriticalMetadataRecoveryHeader_wire : WireFormat CriticalMetadataRecoveryHeader := {|
  encode := CriticalMetadataRecoveryHeader_to_bytes;
  decode := CriticalMetadataRecoveryHeader_parse;
  valid := CriticalMetadataRecoveryHeader_valid;
  decode_iff := CriticalMetadataRecoveryHeader_decode_iff
|}.

Lemma CriticalMetadataRecoveryHeader_parse_no_panic b : CriticalMetadataRecoveryHeader_parse b <> Panic.
Proof. unfold CriticalMetadataRecoveryHeader_parse. unfold_consts. no_panic. Qed.

(** The recovery header.  [CriticalMetadataRecoveryHeader_parse] accepts
    exactly the 116 bytes that [to_bytes] makes of a typed header, for version
    one and the one erasure code, with the checksum of its first 112 bytes; it
    returns that header and never panics. *)
Theorem recovery_header_codec b h :
  (CriticalMetadataRecoveryHeader_parse b = Ok h
   <-> (CriticalMetadataRecoveryHeader_typed h /\ rh_header_crc32c h = crc32c (seg b 0 112))
       /\ CriticalMetadataRecoveryHeader_to_bytes h = b)
  /\ CriticalMetadataRecoveryHeader_parse b <> Panic.
Proof.
  split; [|apply CriticalMetadataRecoveryHeader_parse_no_panic].
  rewrite CriticalMetadataRecoveryHeader_decode_iff. unfold CriticalMetadataRecoveryHeader_valid.
  split; intros [[HT Hc] <-]; done.
Qed.
End CriticalMetadataRecoveryHeader.

(** ** The locator *)
Record CriticalRecoveryLocator : Type := {
  rl_volume_format_rev : Z;
  rl_cmra_offset : Z;
  rl_cmra_length : Z;
  rl_volume_trailer_offset : Z;
  rl_body_bytes_before_cmra : Z;
  rl_archive_uuid_hint : bytes;
  rl_session_id_hint : bytes;
  rl_volume_index_hint : Z;
  rl_locator_sequence : Z;
  rl_cmra_shard_size : Z;
  rl_cmra_data_shard_count : Z;
  rl_cmra_parity_shard_count : Z;
  rl_cmra_image_length : Z;
  rl_cmra_image_sha256 : bytes;
  rl_locator_crc32c : Z
}.

Section CriticalRecoveryLocator.
Context {C : Crc32c}.

Definition CriticalRecoveryLocator_parse (b : bytes) : fresult CriticalRecoveryLocator :=
  expect_len "CriticalRecoveryLocator" CRITICAL_RECOVERY_LOCATOR_LEN (blen b);;
  magic ← slice b 0 4;
  expect_magic "CriticalRecoveryLocator" TZCL_MAGIC magic;;
  version ← read_u16 b 4;
  reject_if (negb (version =? 1)) (UnsupportedFormatVersion version);;
  volume_format_rev ← read_u16 b 6;
  reject_if (negb (volume_format_rev =? VOLUME_FORMAT_REV_45))
    (UnsupportedVolumeFormatRevision FORMAT_VERSION volume_format_rev
       READER_MAX_SUPPORTED_VOLUME_FORMAT_REV);;
  cmra_header_length ← read_u16 b 20;
  reject_if (negb (cmra_header_length =? CRITICAL_METADATA_RECOVERY_HEADER_LEN))
    (InvalidArchive "CriticalRecoveryLocator CMRA header length is invalid");;
  fec_algo ← read_u16 b 22;
  reject_if (negb (fec_algo =? FecAlgo.to_Z FecAlgo.ReedSolomonGF16)) (UnknownFecAlgo fec_algo);;
  locator_sequence ← read_u32 b 76;
  reject_if (1 <? locator_sequence)
    (InvalidArchive "CriticalRecoveryLocator has invalid sequence");;
  covered ← slice b 0 124;
  crc ← read_u32 b 124;
  expect_crc "CriticalRecoveryLocator" covered crc;;
  cmra_offset ← read_u64 b 8;
  cmra_length ← read_u32 b 16;
  volume_trailer_offset ← read_u64 b 24;
  body_bytes_before_cmra ← read_u64 b 32;
  archive_uuid_hint ← read_array_16 b 40;
  session_id_hint ← read_array_16 b 56;
  volume_index_hint ← read_u32 b 72;
  cmra_shard_size ← read_u32 b 80;
  cmra_data_shard_count ← read_u16 b 84;
  cmra_parity_shard_count ← read_u16 b 86;
  cmra_image_length ← read_u32 b 88;
  cmra_image_sha256 ← read_array_32 b 92;
  locator_crc32c ← read_u32 b 124;
  mret {|
    rl_volume_format_rev := volume_format_rev;
    rl_cmra_offset := cmra_offset;
    rl_cmra_length := cmra_length;
    rl_volume_trailer_offset := volume_trailer_offset;
    rl_body_bytes_before_cmra := body_bytes_before_cmra;
    rl_archive_uuid_hint := archive_uuid_hint;
    rl_session_id_hint := session_id_hint;
    rl_volume_index_hint := volume_index_hint;
    rl_locator_sequence := locator_sequence;
    rl_cmra_shard_size := cmra_shard_size;
    rl_cmra_data_shard_count := cmra_data_shard_count;
    rl_cmra_parity_shard_count := cmra_parity_shard_count;
    rl_cmra_image_length := cmra_image_length;
    rl_cmra_image_sha256 := cmra_image_sha256;
    rl_locator_crc32c := locator_crc32c |}.

Definition CriticalRecoveryLocator_to_bytes (self : CriticalRecoveryLocator) : bytes :=
  put_crc (puts (zeros CRITICAL_RECOVERY_LOCATOR_LEN)
    [write_bytes 0 TZCL_MAGIC;
     write_u16 4 1;
     write_u16 6 (rl_volume_format_rev self);
     write_u64 8 (rl_cmra_offset self);
     write_u32 16 (rl_cmra_length self);
     write_u16 20 CRITICAL_METADATA_RECOVERY_HEADER_LEN;
     write_u16 22 (FecAlgo.to_Z FecAlgo.ReedSolomonGF16);
     write_u64 24 (rl_volume_trailer_offset self);
     write_u64 32 (rl_body_bytes_before_cmra self);
     write_bytes 40 (rl_archive_uuid_hint self);
     write_bytes 56 (rl_session_id_hint self);
     write_u32 72 (rl_volume_index_hint self);
     write_u32 76 (rl_locator_sequence self);
     write_u32 80 (rl_cmra_shard_size self);
     write_u16 84 (rl_cmra_data_shard_count self);
     write_u16 86 (rl_cmra_parity_shard_count self);
     write_u32 88 (rl_cmra_image_length self);
     write_bytes 92 (rl_cmra_image_sha256 self)]) 124.

(** The Rust types of the fields. *)
Definition CriticalRecoveryLocator_typed (h : CriticalRecoveryLocator) : Prop :=
  u16 (rl_volume_format_rev h) /\ u64 (rl_cmra_offset h) /\ u32 (rl_cmra_length h)
  /\ u64 (rl_volume_trailer_offset h) /\ u64 (rl_body_bytes_before_cmra h)
  /\ blen (rl_archive_uuid_hint h) = 16 /\ blen (rl_session_id_hint h) = 16
  /\ u32 (rl_volume_index_hint h) /\ u32 (rl_locator_sequence h) /\ u32 (rl_cmra_shard_size h)
  /\ u16 (rl_cmra_data_shard_count h) /\ u16 (rl_cmra_parity_shard_count h)
  /\ u32 (rl_cmra_image_length h) /\ blen (rl_cmra_image_sha256 h) = 32.

Definition CriticalRecoveryLocator_valid (h : CriticalRecoveryLocator) : Prop :=
  CriticalRecoveryLocator_typed h
  /\ rl_volume_format_rev h = VOLUME_FORMAT_REV_45
  /\ rl_locator_sequence h <= 1
  /\ rl_locator_crc32c h = crc32c (seg (CriticalRecoveryLocator_to_bytes h) 0 124).

Lemma CriticalRecoveryLocator_parse_sound b h :
  CriticalRecoveryLocator_parse b = Ok h -> CriticalRecoveryLocator_valid h /\ CriticalRecoveryLocator_to_bytes h = b.
Proof.
  unfold CriticalRecoveryLocator_valid, CriticalRecoveryLocator_typed. intros H. unfold CriticalRecoveryLocator_parse in H. bind_inv H. subst h.
  wire_encoded CriticalRecoveryLocator_to_bytes.
Qed.

Lemma CriticalRecoveryLocator_parse_complete h :
  CriticalRecoveryLocator_valid h -> CriticalRecoveryLocator_parse (CriticalRecoveryLocator_to_bytes h) = Ok h.
Proof.
  unfold CriticalRecoveryLocator_valid, CriticalRecoveryLocator_typed. intros HV.
  remember (CriticalRecoveryLocator_to_bytes h) as b eqn:Hb. symmetry in Hb. destruct h. cbn in HV. destruct_and!.
  unfold CriticalRecoveryLocator_to_bytes in Hb. wire_segments Hb.
  unfold CriticalRecoveryLocator_parse. unfold_consts. cbn [FecAlgo.to_Z]. by wire_run.
Qed.

Lemma CriticalRecoveryLocator_decode_iff b h :
  CriticalRecoveryLocator_parse b = Ok h <-> CriticalRecoveryLocator_valid h /\ CriticalRecoveryLocator_to_bytes h = b.
Proof.
  split; [apply CriticalRecoveryLocator_parse_sound|]. intros [Hv <-]. by apply CriticalRecoveryLocator_parse_complete.
Qed.

#[export] Instance CriticalRecoveryLocator_wire : WireFormat CriticalRecoveryLocator := {|
  encode := CriticalRecoveryLocator_to_bytes;
  decode := CriticalRecoveryLocator_parse;
  valid := CriticalRecoveryLocator_valid;
  decode_iff := CriticalRecoveryLocator_decode_iff
|}.

Lemma CriticalRecoveryLocator_parse_no_panic b : CriticalRecoveryLocator_parse b <> Panic.
Proof. unfold CriticalRecoveryLocator_parse. unfold_consts. no_panic. Qed.

(** The recovery locator.  [CriticalRecoveryLocator_parse] accepts exactly
    the 128 bytes that [to_bytes] makes of a typed locator of revision 45 with
    sequence number zero or one and the checksum of its first 124 bytes; it
    returns that locator and never panics. *)
Theorem recovery_locator_codec b h :
  (CriticalRecoveryLocator_parse b = Ok h
   <-> (CriticalRecoveryLocator_typed h /\ rl_volume_format_rev h = VOLUME_FORMAT_REV_45
        /\ (rl_locator_sequence h = 0 \/ rl_locator_sequence h = 1)
        /\ rl_locator_crc32c h = crc32c (seg b 0 124))
       /\ CriticalRecoveryLocator_to_bytes h = b)
  /\ CriticalRecoveryLocator_parse b <> Panic.
Proof.
  split; [|apply CriticalRecoveryLocator_parse_no_panic].
  rewrite CriticalRecoveryLocator_decode_iff. unfold CriticalRecoveryLocator_valid. split.
  - intros [(HT & Hr & Hs & Hc) <-]. split_and!; try done.
    assert (u32 (rl_locator_sequence h)) as [? _] by apply HT. lia.
  - intros [(HT & Hr & Hs & Hc) <-]. split_and!; try done. lia.
Qed.
End CriticalRecoveryLocator.

(** ** The shards of the area *)
Record CriticalMetadataRecoveryShard : Type := {
  rs_shard_index : Z;
  rs_shard_role : Z;
  rs_shard_payload_length : Z;
  rs_payload : bytes;
  rs_shard_crc32c : Z
}.

Section CriticalMetadataRecoveryShard.
Context {C : Crc32c}.

Definition CriticalMetadataRecoveryShard_parse (b : bytes) (shard_size : Z)
    : fresult CriticalMetadataRecoveryShard :=
  expected ← ok_or (checked_add 64 CRITICAL_METADATA_RECOVERY_SHARD_HEADER_LEN shard_size)
    (InvalidArchive "CMRA shard length overflow");
  expect_len "CriticalMetadataRecoveryShard" expected (blen b);;
  magic ← slice b 0 4;
  expect_magic "CriticalMetadataRecoveryShard" TZCS_MAGIC magic;;
  reserved ← byte_at b 7;
  reject_if (negb (reserved =? 0)) (NonZeroReserved "CriticalMetadataRecoveryShard");;
  shard_role ← byte_at b 6;
  reject_if (1 <? shard_role) (InvalidArchive "CriticalMetadataRecoveryShard has unknown role");;
  head ← slice b 0 12;
  tail ← slice b CRITICAL_METADATA_RECOVERY_SHARD_HEADER_LEN (blen b);
  crc ← read_u32 b 12;
  expect_crc "CriticalMetadataRecoveryShard" (head ++ tail) crc;;
  shard_payload_length ← read_u32 b 8;
  reject_if (shard_size <? shard_payload_length)
    (InvalidArchive "CriticalMetadataRecoveryShard payload length exceeds shard size");;
  shard_index ← read_u16 b 4;
  payload ← slice b CRITICAL_METADATA_RECOVERY_SHARD_HEADER_LEN (blen b);
  shard_crc32c ← read_u32 b 12;
  mret {| rs_shard_index := shard_index; rs_shard_role := shard_role;
          rs_shard_payload_length := shard_payload_length; rs_payload := payload;
          rs_shard_crc32c := shard_crc32c |}.

Definition CriticalMetadataRecoveryShard_to_bytes (self : CriticalMetadataRecoveryShard)
    (shard_size : Z) : fresult bytes :=
  reject_if (negb (blen (rs_payload self) =? shard_size))
    (InvalidArchive "CriticalMetadataRecoveryShard payload length mismatch");;
  let b := puts (zeros (CRITICAL_METADATA_RECOVERY_SHARD_HEADER_LEN + shard_size))
    [write_bytes 0 TZCS_MAGIC;
     write_u16 4 (rs_shard_index self);
     write_u8 6 (rs_shard_role self);
     write_u32 8 (rs_shard_payload_length self);
     write_bytes CRITICAL_METADATA_RECOVERY_SHARD_HEADER_LEN (rs_payload self)] in
  head ← slice b 0 12;
  tail ← slice b CRITICAL_METADATA_RECOVERY_SHARD_HEADER_LEN (blen b);
  mret (put b 12 (le_bytes 4 (crc32c (head ++ tail)))).

(** The twelve bytes in front of the checksum. *)
Definition shard_head (s : CriticalMetadataRecoveryShard) : bytes :=
  TZCS_MAGIC ++ le_bytes 2 (rs_shard_index s) ++ le_bytes 1 (rs_shard_role s) ++ zeros 1
  ++ le_bytes 4 (rs_shard_payload_length s).

Lemma blen_shard_head s : blen (shard_head s) = 12.
Proof. unfold shard_head. rewrite !blen_app, blen_zeros by lia. by layout. Qed.

Lemma shard_to_bytes_eq s shard_size :
  blen (rs_payload s) = shard_size ->
  CriticalMetadataRecoveryShard_to_bytes s shard_size
  = Ok (shard_head s ++ le_bytes 4 (crc32c (shard_head s ++ rs_payload s)) ++ rs_payload s).
Proof.
  intros Hp. pose proof (blen_nonneg (rs_payload s)). unfold CriticalMetadataRecoveryShard_to_bytes.
  unfold_consts. rewrite Hp. rewrite reject_if_false by lia. rewrite bind_ret. cbv zeta.
  pose proof (blen_shard_head s) as Hh.
  set (r := shard_head s ++ zeros 4 ++ rs_payload s).
  assert (blen r = 16 + shard_size) as Hr by (unfold r; rewrite !blen_app, Hh, blen_zeros by lia; lia).
  assert (seg r 0 12 = shard_head s /\ seg r 12 16 = zeros 4 /\ seg r 16 (blen r) = rs_payload s) as (H1 & H2 & H3).
  { pose proof (seg_full r) as Hf. unfold r in Hf at 3.
    rewrite !seg_app_iff in Hf by (rewrite ?blen_app, ?Hh, ?blen_zeros by lia; lia).
    rewrite Hh, blen_zeros in Hf by lia. done. }
  assert (puts (zeros (16 + shard_size))
    [write_bytes 0 TZCS_MAGIC; write_u16 4 (rs_shard_index s); write_u8 6 (rs_shard_role s);
     write_u32 8 (rs_shard_payload_length s); write_bytes 16 (rs_payload s)] = r) as ->.
  { apply puts_iff; [layout; lia|]. split; [done|]. rewrite Hr in H3. unfold shard_head in H1.
    rewrite !seg_app_iff in H1 by (rewrite ?blen_app, ?blen_zeros by lia; layout; lia).
    rewrite blen_zeros in H1 by lia. revert H1. layout. intros H1. destruct_and!.
    rewrite !seg_nil. replace (16 + shard_size - (16 + shard_size)) with 0 by lia.
    split_and!; done. }
  rewrite (slice_in_range r 0 12) by lia. rewrite bind_ret.
  rewrite (slice_in_range r 16 (blen r)) by lia. rewrite bind_ret, H1, H3. rewrite mret_eq. f_equal.
Qed.

Definition CriticalMetadataRecoveryShard_valid (shard_size : Z) (s : CriticalMetadataRecoveryShard)
    : Prop :=
  u16 (rs_shard_index s) /\ 0 <= rs_shard_role s <= 1 /\ u32 (rs_shard_payload_length s)
  /\ rs_shard_payload_length s <= shard_size /\ blen (rs_payload s) = shard_size
  /\ rs_shard_crc32c s = crc32c (shard_head s ++ rs_payload s).

Lemma shard_segments s b shard_size :
  blen (rs_payload s) = shard_size ->
  CriticalMetadataRecoveryShard_to_bytes s shard_size = Ok b
  <-> blen b = 16 + shard_size /\ seg b 0 12 = shard_head s
      /\ seg b 12 16 = le_bytes 4 (crc32c (shard_head s ++ rs_payload s))
      /\ seg b 16 (blen b) = rs_payload s.
Proof.
  intros Hp. rewrite shard_to_bytes_eq by done. pose proof (blen_shard_head s) as Hh.
  pose proof (blen_nonneg (rs_payload s)).
  set (x := le_bytes 4 _). assert (blen x = 4) as Hx by apply blen_le. split.
  - intros [= <-]. set (b := shard_head s ++ x ++ rs_payload s).
    assert (blen b = 16 + shard_size) as Hb by (unfold b; rewrite !blen_app; lia).
    split; [done|]. pose proof (seg_full b) as Hf. unfold b in Hf at 3.
    rewrite !seg_app_iff in Hf by (rewrite ?blen_app; lia). rewrite Hh, Hx in Hf. done.
  - intros (Hb & H1 & H2 & H3). f_equal. symmetry. rewrite <- (seg_full b) at 1.
    rewrite !seg_app_iff by (rewrite ?blen_app; lia). rewrite Hh, Hx. done.
Qed.

Lemma shard_head_iff s b :
  12 <= blen b ->
  seg b 0 12 = shard_head s
  <-> seg b 0 4 = TZCS_MAGIC /\ seg b 4 6 = le_bytes 2 (rs_shard_index s)
      /\ seg b 6 7 = le_bytes 1 (rs_shard_role s) /\ seg b 7 8 = zeros 1
      /\ seg b 8 12 = le_bytes 4 (rs_shard_payload_length s).
Proof.
  intros Hb. unfold shard_head.
  rewrite !seg_app_iff by (rewrite ?blen_app, ?blen_zeros by lia; layout; lia).
  rewrite blen_zeros by lia. layout. done.
Qed.

Lemma CriticalMetadataRecoveryShard_parse_iff b shard_size s :
  u32 shard_size ->
  CriticalMetadataRecoveryShard_parse b shard_size = Ok s
  <-> CriticalMetadataRecoveryShard_valid shard_size s
      /\ CriticalMetadataRecoveryShard_to_bytes s shard_size = Ok b.
Proof.
  unfold fits. intros Hsz. unfold CriticalMetadataRecoveryShard_valid, CriticalMetadataRecoveryShard_parse.
  unfold_consts. rewrite (ok_or_eq _ _ _ (checked_add_eq 64 16 shard_size ltac:(lia))), bind_ret. split.
  - intros H. bind_inv H. subst s. wire_facts. wire_eqs. same_reads. cbn.
    assert (blen (seg b 16 (blen b)) = shard_size) as Hp by (rewrite blen_seg; lia).
    set (s := Build_CriticalMetadataRecoveryShard _ _ _ _ _).
    assert (seg b 0 12 = shard_head s) as Hh by (apply shard_head_iff; [lia|split_and!; done]).
    rewrite Hh in *. unfold fits in *. cbn in *. split.
    + split_and!; try done; lia.
    + apply shard_segments; [done|]. split_and!; [lia|done|cbn; congruence|done].
  - intros [(H1 & H2 & H3 & H4 & Hp & Hc) Hb]. destruct s as [i role len payload crc]. cbn in *.
    apply shard_segments in Hb as (Hl & Hh & Hx & Hpay); [|done]. cbn in *. rewrite <- Hc in Hx.
    rewrite <- Hh, <- Hpay in Hc.
    apply shard_head_iff in Hh as (Ha & Hi & Hr & Hz & Hn); [|lia]. cbn in *.
    assert (seg b 7 8 = le_bytes 1 0) as Hz' by (rewrite Hz; done).
    assert (u8 0) by (unfold fits; lia). assert (u8 role) by (unfold fits; lia).
    assert (u32 crc) by (rewrite Hc; apply crc32c_u32).
    assert (u16 i) by done. assert (u32 len) by (unfold fits in *; lia).
    clear Hz. wire_run. by rewrite Hpay.
Qed.

Lemma CriticalMetadataRecoveryShard_parse_no_panic b shard_size :
  0 <= shard_size -> CriticalMetadataRecoveryShard_parse b shard_size <> Panic.
Proof.
  intros. unfold CriticalMetadataRecoveryShard_parse. unfold_consts.
  apply bind_no_panic; [apply ok_or_no_panic|]. intros e [? ->]%ok_or_Ok%checked_add_Some.
  no_panic.
Qed.
(** The shards of the recovery area.  For a 32-bit shard size the parser
    accepts exactly the frames that [to_bytes] makes of a shard of that size
    with a known role, a payload length within the shard, and the checksum of
    everything around the checksum field; [to_bytes] succeeds on exactly the
    payloads of that size; the parser never panics. *)
Theorem recovery_shard_codec b shard_size s :
  u32 shard_size ->
  (CriticalMetadataRecoveryShard_parse b shard_size = Ok s
   <-> (u16 (rs_shard_index s) /\ (rs_shard_role s = 0 \/ rs_shard_role s = 1)
        /\ 0 <= rs_shard_payload_length s <= shard_size
        /\ rs_shard_crc32c s = crc32c (seg b 0 12 ++ seg b 16 (blen b)))
       /\ CriticalMetadataRecoveryShard_to_bytes s shard_size = Ok b)
  /\ (blen (rs_payload s) = shard_size
      <-> exists b', CriticalMetadataRecoveryShard_to_bytes s shard_size = Ok b')
  /\ CriticalMetadataRecoveryShard_parse b shard_size <> Panic.
Proof.
  intros Hsz. unfold fits in Hsz.
  assert (forall b', CriticalMetadataRecoveryShard_to_bytes s shard_size = Ok b' ->
            blen (rs_payload s) = shard_size) as Hlen.
  { intros b' H. unfold CriticalMetadataRecoveryShard_to_bytes in H. bind_inv H. lia. }
  split_and!; [|split|apply CriticalMetadataRecoveryShard_parse_no_panic; lia].
  - rewrite CriticalMetadataRecoveryShard_parse_iff by done.
    unfold CriticalMetadataRecoveryShard_valid, fits. split.
    + intros [(H1 & H2 & H3 & H4 & H5 & H6) Hb]. pose proof Hb as Hb'.
      apply shard_segments in Hb' as (_ & -> & _ & ->); [|done]. split_and!; lia || done.
    + intros [(H1 & H2 & H3 & H4) Hb]. specialize (Hlen _ Hb). pose proof Hb as Hb'.
      apply shard_segments in Hb' as (_ & Hh & _ & Hp); [|done]. rewrite Hh, Hp in H4.
      split_and!; lia || done.
  - intros H. rewrite shard_to_bytes_eq by done. by eexists.
  - intros [b' H]. by apply (Hlen b').
Qed.
End CriticalMetadataRecoveryShard.

(** ** Concrete inputs *)
Definition example_shard : CriticalMetadataRecoveryShard := {|
  rs_shard_index := 3; rs_shard_role := 1; rs_shard_payload_length := 5; rs_payload := zeros 8;
  rs_shard_crc32c :=
    toy_crc (TZCS_MAGIC ++ le_bytes 2 3 ++ le_bytes 1 1 ++ zeros 1 ++ le_bytes 4 5 ++ zeros 8) |}.

Lemma recovery_shard_codec_witness :
  exists b, CriticalMetadataRecoveryShard_to_bytes (C := toy_Crc32c) example_shard 8 = Ok b
    /\ CriticalMetadataRecoveryShard_parse (C := toy_Crc32c) b 8 = Ok example_shard.
Proof.
  eexists. split; [vm_compute; reflexivity|].
  eapply (proj1 (recovery_shard_codec (C := toy_Crc32c) _ 8 example_shard ltac:(unfold fits; lia))).
  split; [|vm_compute; reflexivity]. unfold fits, example_shard; cbn.
  split; [lia|]. split; [by right|]. split; [lia|]. vm_compute. reflexivity.
Defined.
