(* ===== verification/Sidecar.v ===== *)
(** * The bootstrap sidecar header

    [BootstrapSidecarHeader] of [crates/tzap-core/src/wire.rs]: which sections
    a sidecar file has and where they are. *)

From S2P Require Import Wire.
#[local] Open Scope Z_scope.

Definition SIDECAR_MANIFEST_PRESENT : Z := 0x01.
Definition SIDECAR_INDEX_ROOT_PRESENT : Z := 0x02.
Definition SIDECAR_DICTIONARY_PRESENT : Z := 0x04.
Definition SIDECAR_KNOWN_FLAGS : Z :=
  Z.lor (Z.lor SIDECAR_MANIFEST_PRESENT SIDECAR_INDEX_ROOT_PRESENT) SIDECAR_DICTIONARY_PRESENT.

Record BootstrapSidecarHeader : Type := {
  bs_archive_uuid : bytes;
  bs_session_id : bytes;
  bs_flags : Z;
  bs_manifest_footer_offset : Z;
  bs_manifest_footer_length : Z;
  bs_index_root_records_offset : Z;
  bs_index_root_records_length : Z;
  bs_dictionary_records_offset : Z;
  bs_dictionary_records_length : Z;
  bs_sidecar_hmac : bytes;
  bs_header_crc32c : Z
}.

Definition BootstrapSidecarHeader_has_manifest_footer (self : BootstrapSidecarHeader) : bool :=
  negb (Z.land (bs_flags self) SIDECAR_MANIFEST_PRESENT =? 0).

Definition BootstrapSidecarHeader_has_index_root_records (self : BootstrapSidecarHeader) : bool :=
  negb (Z.land (bs_flags self) SIDECAR_INDEX_ROOT_PRESENT =? 0).

Definition BootstrapSidecarHeader_has_dictionary_records (self : BootstrapSidecarHeader) : bool :=
  negb (Z.land (bs_flags self) SIDECAR_DICTIONARY_PRESENT =? 0).

Definition validate_presence_fields (present : bool) (offset length : Z) : fresult unit :=
  if present
  then reject_if ((offset =? 0) || (length =? 0)) EmptyBootstrapSidecarSection
  else reject_if (negb ((offset =? 0) && (length =? 0))) NonZeroAbsentBootstrapSidecarSection.

Definition BootstrapSidecarHeader_validate_sections (self : BootstrapSidecarHeader) : fresult unit :=
  reject_if (negb (Z.land (bs_flags self) (unot 32 SIDECAR_KNOWN_FLAGS) =? 0))
    (UnknownBootstrapSidecarFlags (bs_flags self));;
  validate_presence_fields (BootstrapSidecarHeader_has_manifest_footer self)
    (bs_manifest_footer_offset self) (bs_manifest_footer_length self);;
  reject_if (BootstrapSidecarHeader_has_manifest_footer self
             && negb (bs_manifest_footer_length self =? MANIFEST_FOOTER_LEN))
    (InvalidManifestFooterLength (bs_manifest_footer_length self));;
  validate_presence_fields (BootstrapSidecarHeader_has_index_root_records self)
    (bs_index_root_records_offset self) (bs_index_root_records_length self);;
  validate_presence_fields (BootstrapSidecarHeader_has_dictionary_records self)
    (bs_dictionary_records_offset self) (bs_dictionary_records_length self).

Definition validate_section_cursor (present : bool) (offset length cursor : Z) : fresult Z :=
  if present
  then
    reject_if (negb (offset =? cursor)) NonCanonicalBootstrapSidecarLayout;;
    ok_or (checked_add 64 cursor length) NonCanonicalBootstrapSidecarLayout
  else mret cursor.

Definition BootstrapSidecarHeader_validate_packed_layout (self : BootstrapSidecarHeader)
    (file_size : Z) : fresult unit :=
  let cursor := BOOTSTRAP_SIDECAR_HEADER_LEN in
  cursor ← validate_section_cursor (BootstrapSidecarHeader_has_manifest_footer self)
    (bs_manifest_footer_offset self) (bs_manifest_footer_length self) cursor;
  cursor ← validate_section_cursor (BootstrapSidecarHeader_has_index_root_records self)
    (bs_index_root_records_offset self) (bs_index_root_records_length self) cursor;
  cursor ← validate_section_cursor (BootstrapSidecarHeader_has_dictionary_records self)
    (bs_dictionary_records_offset self) (bs_dictionary_records_length self) cursor;
  reject_if (negb (cursor =? file_size)) NonCanonicalBootstrapSidecarLayout.

Lemma validate_presence_fields_no_panic p o l : validate_presence_fields p o l <> Panic.
Proof. unfold validate_presence_fields. no_panic. Qed.

#[local] Hint Resolve validate_presence_fields_no_panic : no_panic.

Lemma BootstrapSidecarHeader_validate_sections_no_panic h :
  BootstrapSidecarHeader_validate_sections h <> Panic.
Proof.
  unfold BootstrapSidecarHeader_validate_sections. no_panic. apply validate_presence_fields_no_panic.
Qed.

#[local] Hint Resolve BootstrapSidecarHeader_validate_sections_no_panic : no_panic.


Section BootstrapSidecarHeader.
Context {C : Crc32c}.

Definition BootstrapSidecarHeader_parse (b : bytes) : fresult BootstrapSidecarHeader :=
  expect_len "BootstrapSidecarHeader" BOOTSTRAP_SIDECAR_HEADER_LEN (blen b);;
  magic ← slice b 0 4;
  expect_magic "BootstrapSidecarHeader" TZBS_MAGIC magic;;
  version ← read_u32 b 4;
  reject_if (negb (version =? 1)) (UnsupportedBootstrapSidecarVersion version);;
  reserved ← slice b 88 92;
  expect_zero "BootstrapSidecarHeader" reserved;;
  covered ← slice b 0 124;
  crc ← read_u32 b 124;
  expect_crc "BootstrapSidecarHeader" covered crc;;
  archive_uuid ← read_array_16 b 8;
  session_id ← read_array_16 b 24;
  flags ← read_u32 b 40;
  manifest_footer_offset ← read_u64 b 44;
  manifest_footer_length ← read_u32 b 52;
  index_root_records_offset ← read_u64 b 56;
  index_root_records_length ← read_u64 b 64;
  dictionary_records_offset ← read_u64 b 72;
  dictionary_records_length ← read_u64 b 80;
  sidecar_hmac ← read_array_32 b 92;
  header_crc32c ← read_u32 b 124;
  let header := {|
    bs_archive_uuid := archive_uuid;
    bs_session_id := session_id;
    bs_flags := flags;
    bs_manifest_footer_offset := manifest_footer_offset;
    bs_manifest_footer_length := manifest_footer_length;
    bs_index_root_records_offset := index_root_records_offset;
    bs_index_root_records_length := index_root_records_length;
    bs_dictionary_records_offset := dictionary_records_offset;
    bs_dictionary_records_length := dictionary_records_length;
    bs_sidecar_hmac := sidecar_hmac;
    bs_header_crc32c := header_crc32c |} in
  BootstrapSidecarHeader_validate_sections header;;
  mret header.

Definition BootstrapSidecarHeader_to_bytes (self : BootstrapSidecarHeader) : bytes :=
  put_crc (puts (zeros BOOTSTRAP_SIDECAR_HEADER_LEN)
    [write_bytes 0 TZBS_MAGIC;
     write_u32 4 1;
     write_bytes 8 (bs_archive_uuid self);
     write_bytes 24 (bs_session_id self);
     write_u32 40 (bs_flags self);
     write_u64 44 (bs_manifest_footer_offset self);
     write_u32 52 (bs_manifest_footer_length self);
     write_u64 56 (bs_index_root_records_offset self);
     write_u64 64 (bs_index_root_records_length self);
     write_u64 72 (bs_dictionary_records_offset self);
     write_u64 80 (bs_dictionary_records_length self);
     write_bytes 92 (bs_sidecar_hmac self)]) 124.

(** The Rust types of the fields. *)
Definition BootstrapSidecarHeader_typed (h : BootstrapSidecarHeader) : Prop :=
  blen (bs_archive_uuid h) = 16 /\ blen (bs_session_id h) = 16 /\ u32 (bs_flags h)
  /\ u64 (bs_manifest_footer_offset h) /\ u32 (bs_manifest_footer_length h)
  /\ u64 (bs_index_root_records_offset h) /\ u64 (bs_index_root_records_length h)
  /\ u64 (bs_dictionary_records_offset h) /\ u64 (bs_dictionary_records_length h)
  /\ blen (bs_sidecar_hmac h) = 32.

Definition BootstrapSidecarHeader_valid (h : BootstrapSidecarHeader) : Prop :=
  BootstrapSidecarHeader_typed h
  /\ BootstrapSidecarHeader_validate_sections h = Ok tt
  /\ bs_header_crc32c h = crc32c (seg (BootstrapSidecarHeader_to_bytes h) 0 124).

Lemma BootstrapSidecarHeader_parse_sound b h :
  BootstrapSidecarHeader_parse b = Ok h -> BootstrapSidecarHeader_valid h /\ BootstrapSidecarHeader_to_bytes h = b.
Proof.
  unfold BootstrapSidecarHeader_valid, BootstrapSidecarHeader_typed. intros H. unfold BootstrapSidecarHeader_parse in H. bind_inv H. subst h.
  wire_encoded BootstrapSidecarHeader_to_bytes.
Qed.

Lemma BootstrapSidecarHeader_parse_complete h :
  BootstrapSidecarHeader_valid h -> BootstrapSidecarHeader_parse (BootstrapSidecarHeader_to_bytes h) = Ok h.
Proof.
  unfold BootstrapSidecarHeader_valid, BootstrapSidecarHeader_typed. intros HV.
  remember (BootstrapSidecarHeader_to_bytes h) as b eqn:Hb. symmetry in Hb. destruct h. cbn in HV. destruct_and!.
  unfold BootstrapSidecarHeader_to_bytes in Hb. wire_segments Hb.
  unfold BootstrapSidecarHeader_parse. unfold_consts. cbn [FecAlgo.to_Z]. by wire_run.
Qed.

Lemma BootstrapSidecarHeader_decode_iff b h :
  BootstrapSidecarHeader_parse b = Ok h <-> BootstrapSidecarHeader_valid h /\ BootstrapSidecarHeader_to_bytes h = b.
Proof.
  split; [apply BootstrapSidecarHeader_parse_sound|]. intros [Hv <-]. by apply BootstrapSidecarHeader_parse_complete.
Qed.

#[export] Instance BootstrapSidecarHeader_wire : WireFormat BootstrapSidecarHeader := {|
  encode := BootstrapSidecarHeader_to_bytes;
  decode := BootstrapSidecarHeader_parse;
  valid := BootstrapSidecarHeader_valid;
  decode_iff := BootstrapSidecarHeader_decode_iff
|}.

Lemma BootstrapSidecarHeader_parse_no_panic b : BootstrapSidecarHeader_parse b <> Panic.
Proof. unfold BootstrapSidecarHeader_parse. unfold_consts. no_panic. Qed.

Lemma validate_presence_fields_Ok p o l u :
  validate_presence_fields p o l = Ok u
  <-> (if p then o <> 0 /\ l <> 0 else o = 0 /\ l = 0).
Proof.
  destruct u. unfold validate_presence_fields. destruct p; rewrite reject_if_Ok.
  - rewrite orb_false_iff. lia.
  - rewrite negb_false_iff, andb_true_iff. lia.
Qed.

Lemma validate_section_cursor_Ok p o l c c' :
  0 <= l ->
  validate_section_cursor p o l c = Ok c'
  <-> if p then o = c /\ c + l < 2 ^ 64 /\ c' = c + l else c' = c.
Proof.
  intros Hl. unfold validate_section_cursor. destruct p.
  - split.
    + intros H. bind_inv H. apply ok_or_Ok, checked_add_Some in H. lia.
    + intros (-> & H & ->). by run.
  - rewrite mret_Ok. split; congruence.
Qed.

Lemma validate_sections_Ok h :
  BootstrapSidecarHeader_typed h ->
  BootstrapSidecarHeader_validate_sections h = Ok tt
  <-> bs_flags h < 8
      /\ (if BootstrapSidecarHeader_has_manifest_footer h
          then bs_manifest_footer_offset h <> 0 /\ bs_manifest_footer_length h = MANIFEST_FOOTER_LEN
          else bs_manifest_footer_offset h = 0 /\ bs_manifest_footer_length h = 0)
      /\ (if BootstrapSidecarHeader_has_index_root_records h
          then bs_index_root_records_offset h <> 0 /\ bs_index_root_records_length h <> 0
          else bs_index_root_records_offset h = 0 /\ bs_index_root_records_length h = 0)
      /\ (if BootstrapSidecarHeader_has_dictionary_records h
          then bs_dictionary_records_offset h <> 0 /\ bs_dictionary_records_length h <> 0
          else bs_dictionary_records_offset h = 0 /\ bs_dictionary_records_length h = 0).
Proof.
  intros HT. assert (u32 (bs_flags h)) as Hu by apply HT.
  pose proof (land_unot_low 32 3 (bs_flags h) Hu ltac:(lia)) as Hflags.
  change (Z.ones 3) with SIDECAR_KNOWN_FLAGS in Hflags. change (2 ^ 3) with 8 in Hflags.
  unfold BootstrapSidecarHeader_validate_sections. rewrite <- Hflags. split.
  - intros H. bind_inv H. apply validate_presence_fields_Ok in H, Hr0, Hr2. split; [lia|].
    split; [|done]. destruct (BootstrapSidecarHeader_has_manifest_footer h); cbn [andb] in *; lia.
  - intros (Hf & Hm & Hi & Hd).
    assert (negb (Z.land (bs_flags h) (unot 32 SIDECAR_KNOWN_FLAGS) =? 0) = false) by (by rewrite Hf).
    apply validate_presence_fields_Ok with (u := tt) in Hi, Hd.
    assert (validate_presence_fields (BootstrapSidecarHeader_has_manifest_footer h)
              (bs_manifest_footer_offset h) (bs_manifest_footer_length h) = Ok tt)
      by (apply validate_presence_fields_Ok; case_match; [unfold_consts; lia|done]).
    assert (BootstrapSidecarHeader_has_manifest_footer h
            && negb (bs_manifest_footer_length h =? MANIFEST_FOOTER_LEN) = false)
      by (case_match; cbn [andb]; lia).
    by wire_run.
Qed.

Lemma validate_packed_layout_Ok h file_size :
  BootstrapSidecarHeader_typed h ->
  BootstrapSidecarHeader_validate_packed_layout h file_size = Ok tt
  <-> exists c1 c2,
      (if BootstrapSidecarHeader_has_manifest_footer h
       then bs_manifest_footer_offset h = 128 /\ 128 + bs_manifest_footer_length h < 2 ^ 64
            /\ c1 = 128 + bs_manifest_footer_length h
       else c1 = 128)
      /\ (if BootstrapSidecarHeader_has_index_root_records h
          then bs_index_root_records_offset h = c1 /\ c1 + bs_index_root_records_length h < 2 ^ 64
               /\ c2 = c1 + bs_index_root_records_length h
          else c2 = c1)
      /\ (if BootstrapSidecarHeader_has_dictionary_records h
          then bs_dictionary_records_offset h = c2 /\ c2 + bs_dictionary_records_length h < 2 ^ 64
               /\ file_size = c2 + bs_dictionary_records_length h
          else file_size = c2).
Proof.
  intros HT. unfold BootstrapSidecarHeader_typed, fits in HT. destruct_and!.
  unfold BootstrapSidecarHeader_validate_packed_layout. cbv zeta. split.
  - intros Hlayout. bind_inv Hlayout. apply reject_if_Ok, negb_false_iff, Z.eqb_eq in Hlayout. subst.
    apply validate_section_cursor_Ok in Hr, Hr0, Hr1; try lia. exists r, r0. done.
  - intros (c1 & c2 & K1 & K2 & K3).
    apply (validate_section_cursor_Ok _ _ _ 128) in K1; [|lia].
    apply validate_section_cursor_Ok in K2, K3; try lia.
    change BOOTSTRAP_SIDECAR_HEADER_LEN with 128. rewrite K1, bind_ret, K2, bind_ret, K3, bind_ret. by run.
Qed.

(** ** Theorems *)

(** The bootstrap sidecar.  A header parses and its packed layout is
    accepted for a file size exactly when it is the encoding of a typed header
    with its own checksum and no unknown flag, whose absent sections have
    offset and length zero, whose present sections are not empty and follow
    the header and each other without gap or overlap, in the order manifest
    footer, index root, dictionary, up to the end of the file. *)
Theorem sidecar_codec_and_layout b h file_size :
  BootstrapSidecarHeader_parse b = Ok h
  /\ BootstrapSidecarHeader_validate_packed_layout h file_size = Ok tt
  <-> (BootstrapSidecarHeader_typed h /\ bs_flags h < 8
       /\ bs_header_crc32c h = crc32c (seg b 0 124) /\ BootstrapSidecarHeader_to_bytes h = b)
      /\ (if BootstrapSidecarHeader_has_manifest_footer h
          then bs_manifest_footer_offset h = 128 /\ bs_manifest_footer_length h = MANIFEST_FOOTER_LEN
          else bs_manifest_footer_offset h = 0 /\ bs_manifest_footer_length h = 0)
      /\ (if BootstrapSidecarHeader_has_index_root_records h
          then bs_index_root_records_offset h = 128 + bs_manifest_footer_length h
               /\ 0 < bs_index_root_records_length h
          else bs_index_root_records_offset h = 0 /\ bs_index_root_records_length h = 0)
      /\ (if BootstrapSidecarHeader_has_dictionary_records h
          then bs_dictionary_records_offset h
               = 128 + bs_manifest_footer_length h + bs_index_root_records_length h
               /\ 0 < bs_dictionary_records_length h
          else bs_dictionary_records_offset h = 0 /\ bs_dictionary_records_length h = 0)
      /\ file_size = 128 + bs_manifest_footer_length h + bs_index_root_records_length h
                     + bs_dictionary_records_length h
      /\ file_size < 2 ^ 64.
Proof.
  rewrite BootstrapSidecarHeader_decode_iff. unfold BootstrapSidecarHeader_valid.
  split.
  - intros [[(HT & Hs & Hc) Hb] Hp]. rewrite Hb in Hc.
    apply validate_sections_Ok in Hs as (Hf & Hm & Hi & Hd); [|done].
    apply validate_packed_layout_Ok in Hp as (c1 & c2 & Km & Ki & Kd); [|done].
    split; [done|]. unfold BootstrapSidecarHeader_typed, fits in HT. destruct_and!. unfold_consts.
    repeat case_match; split_and!; lia.
  - intros ((HT & Hf & Hc & Hb) & Hm & Hi & Hd & -> & Hsz).
    rewrite validate_packed_layout_Ok, validate_sections_Ok, Hb by done.
    unfold BootstrapSidecarHeader_typed, fits in HT. destruct_and!. unfold_consts.
    split_and!; try done; [repeat case_match; first [congruence|lia]..|].
    exists (128 + bs_manifest_footer_length h),
      (128 + bs_manifest_footer_length h + bs_index_root_records_length h).
    repeat case_match; first [congruence|lia].
Qed.
End BootstrapSidecarHeader.
