(* ===== verification/BlockRecord.v ===== *)
(** * Block records, [BlockRecord] of [crates/tzap-core/src/wire.rs]

    The frame around every block of a volume: its index, its kind, whether it
    is the last data block of its object, and a checksum over all of it. *)

From S2P Require Import Wire.
#[local] Open Scope Z_scope.

Definition BLOCK_LAST_DATA_FLAG : Z := 0x01.
Definition BLOCK_RESERVED_FLAGS : Z := unot 8 BLOCK_LAST_DATA_FLAG.

Record BlockRecord : Type := {
  br_block_index : Z;
  br_kind : BlockKind.t;
  br_flags : Z;
  br_payload : bytes;
  br_record_crc32c : Z
}.

Definition BlockRecord_is_last_data (self : BlockRecord) : bool :=
  negb (Z.land (br_flags self) BLOCK_LAST_DATA_FLAG =? 0).

Section BlockRecord.
Context {C : Crc32c}.

Definition BlockRecord_parse (b : bytes) (block_size : Z) : fresult BlockRecord :=
  let expected := block_size + BLOCK_RECORD_FRAMING_LEN in
  expect_len "BlockRecord" expected (blen b);;
  magic ← slice b 0 4;
  expect_magic "BlockRecord" TZBK_MAGIC magic;;
  reserved ← slice b 14 16;
  expect_zero "BlockRecord" reserved;;
  covered ← slice b 0 (16 + block_size);
  crc ← read_u32 b (16 + block_size);
  expect_crc "BlockRecord" covered crc;;
  kind ← byte_at b 12;
  kind ← BlockKind_try_from kind;
  flags ← byte_at b 13;
  reject_if (negb (Z.land flags BLOCK_RESERVED_FLAGS =? 0)) (InvalidBlockFlags flags);;
  reject_if (BlockKind_is_parity kind && negb (Z.land flags BLOCK_LAST_DATA_FLAG =? 0))
    ParityBlockHasLastDataFlag;;
  block_index ← read_u64 b 4;
  payload ← slice b 16 (16 + block_size);
  record_crc32c ← read_u32 b (16 + block_size);
  mret {| br_block_index := block_index; br_kind := kind; br_flags := flags;
          br_payload := payload; br_record_crc32c := record_crc32c |}.

Definition BlockRecord_to_bytes_from_parts (block_index : Z) (kind : BlockKind.t) (flags : Z)
    (payload : bytes) : bytes :=
  let b := TZBK_MAGIC ++ le_bytes 8 block_index ++ le_bytes 1 (BlockKind.to_Z kind)
    ++ le_bytes 1 flags ++ zeros 2 ++ payload in
  b ++ le_bytes 4 (crc32c b).

Definition BlockRecord_to_bytes (self : BlockRecord) : bytes :=
  BlockRecord_to_bytes_from_parts (br_block_index self) (br_kind self) (br_flags self)
    (br_payload self).

(** Typed, with no reserved flag, no last-data flag on a parity block, and its
    own checksum. *)
Definition BlockRecord_valid (block_size : Z) (r : BlockRecord) : Prop :=
  u64 (br_block_index r) /\ u8 (br_flags r) /\ Z.land (br_flags r) BLOCK_RESERVED_FLAGS = 0
  /\ (BlockKind_is_parity (br_kind r) = true -> BlockRecord_is_last_data r = false)
  /\ blen (br_payload r) = block_size
  /\ br_record_crc32c r = crc32c (seg (BlockRecord_to_bytes r) 0 (16 + block_size)).

(** The fields as segments of the record. *)
Lemma BlockRecord_segments i k f p b :
  BlockRecord_to_bytes_from_parts i k f p = b
  <-> blen b = blen p + 20 /\ seg b 0 4 = TZBK_MAGIC /\ seg b 4 12 = le_bytes 8 i
      /\ seg b 12 13 = le_bytes 1 (BlockKind.to_Z k) /\ seg b 13 14 = le_bytes 1 f
      /\ seg b 14 16 = zeros 2 /\ seg b 16 (16 + blen p) = p
      /\ seg b (16 + blen p) (16 + blen p + 4) = le_bytes 4 (crc32c (seg b 0 (16 + blen p))).
Proof.
  unfold BlockRecord_to_bytes_from_parts. cbv zeta. pose proof (blen_nonneg p).
  set (pre := TZBK_MAGIC ++ _).
  assert (blen pre = 16 + blen p) as Hpre.
  { unfold pre. rewrite !blen_app, blen_zeros by lia. layout. lia. }
  assert (forall b', seg b' 0 (16 + blen p) = pre <-> 16 + blen p <= blen b' /\ seg b' 0 4 = TZBK_MAGIC
      /\ seg b' 4 12 = le_bytes 8 i /\ seg b' 12 13 = le_bytes 1 (BlockKind.to_Z k)
      /\ seg b' 13 14 = le_bytes 1 f /\ seg b' 14 16 = zeros 2 /\ seg b' 16 (16 + blen p) = p) as Hseg.
  { intros b'. split.
    - intros Hs. assert (16 + blen p <= blen b') as Hle.
      { rewrite <- Hs in Hpre. unfold seg, blen in *. rewrite length_take, length_drop in Hpre. lia. }
      unfold pre in Hs.
      rewrite !seg_app_iff in Hs by (rewrite ?blen_app, ?blen_zeros by lia; layout; lia).
      rewrite blen_zeros in Hs by lia. revert Hs. layout. tauto.
    - intros (Hle & Hs). unfold pre.
      rewrite !seg_app_iff by (rewrite ?blen_app, ?blen_zeros by lia; layout; lia).
      rewrite blen_zeros by lia. layout. tauto. }
  split.
  - intros <-. assert (blen (pre ++ le_bytes 4 (crc32c pre)) = blen p + 20) as Hl
      by (rewrite blen_app; layout; lia).
    assert (seg (pre ++ le_bytes 4 (crc32c pre)) 0 (16 + blen p) = pre) as Hp.
    { rewrite seg_app_l by lia. rewrite <- Hpre. apply seg_full. }
    split; [done|]. destruct (proj1 (Hseg _) Hp) as (_ & H1 & H2 & H3 & H4 & H5 & H6).
    split_and!; try done. rewrite Hp. rewrite seg_app_r by lia. rewrite Hpre.
    replace (16 + blen p - (16 + blen p)) with 0 by lia.
    replace (16 + blen p + 4 - (16 + blen p)) with (blen (le_bytes 4 (crc32c pre))) by (layout; lia).
    apply seg_full.
  - intros (Hl & H1 & H2 & H3 & H4 & H5 & H6 & H7).
    assert (seg b 0 (16 + blen p) = pre) as Hp by (apply Hseg; split_and!; done || lia).
    rewrite Hp in H7. rewrite <- H7, <- Hp, <- seg_split by lia.
    replace (16 + blen p + 4) with (blen b) by lia. apply seg_full.
Qed.

Lemma BlockRecord_parse_iff b block_size r :
  0 <= block_size ->
  BlockRecord_parse b block_size = Ok r <-> BlockRecord_valid block_size r /\ BlockRecord_to_bytes r = b.
Proof.
  intros Hbs. unfold BlockRecord_valid, BlockRecord_to_bytes, BlockRecord_parse. unfold_consts. split.
  - intros H. bind_inv H. subst r. cbn. wire_facts. wire_eqs.
    assert (blen (seg b 16 (16 + block_size)) = block_size) as Hp by (rewrite blen_seg; lia).
    match goal with |- _ /\ ?l = _ => assert (l = b) as E end.
    { apply BlockRecord_segments. rewrite Hp. split_and!; first [done|lia|congruence]. }
    rewrite E. split; [|done]. unfold BlockRecord_is_last_data. cbn. split_and!; try done.
    + intros Hpar. match goal with H : _ && _ = false |- _ => rewrite Hpar in H; apply H end.
    + match goal with H1 : seg b ?i ?j = le_bytes 4 ?x, H2 : seg b ?i ?j = le_bytes 4 (crc32c _) |- _ =>
        apply (le_bytes_inj 4); [done|apply crc32c_u32|congruence] end.
  - intros [(Hi & Hf & Hres & Hpar & Hp & Hc) Hb]. destruct r as [i k f p crc]. cbn in *.
    rewrite Hb in Hc. apply BlockRecord_segments in Hb as (Hl & H1 & H2 & H3 & H4 & H5 & H6 & H7).
    rewrite Hp in *. unfold BlockRecord_is_last_data in Hpar. cbn in Hpar.
    assert (read_u32 b (16 + block_size) = Ok crc) as Hread.
    { subst crc. apply read_u32_Ok; [lia|]. split_and!; [lia|apply crc32c_u32|done]. }
    rewrite !Hread. rewrite <- Hc in *.
    assert (BlockKind_is_parity k && negb (Z.land f BLOCK_LAST_DATA_FLAG =? 0) = false) as Hparity.
    { destruct (BlockKind_is_parity k); [by apply Hpar|done]. }
    assert (negb (Z.land f BLOCK_RESERVED_FLAGS =? 0) = false) as Hflags by (by rewrite Hres).
    wire_run. by rewrite H6.
Qed.

Lemma BlockRecord_parse_no_panic b block_size :
  0 <= block_size -> BlockRecord_parse b block_size <> Panic.
Proof. intros. unfold BlockRecord_parse. unfold_consts. no_panic. Qed.

Lemma reserved_flags_iff f : u8 f -> Z.land f BLOCK_RESERVED_FLAGS = 0 <-> f = 0 \/ f = 1.
Proof.
  unfold fits. intros Hf. split; [|intros [-> | ->]; done].
  assert (forallb (fun n => negb (Z.land (Z.of_nat n) BLOCK_RESERVED_FLAGS =? 0)
                            || (Nat.leb n 1)) (seq 0 256) = true) as Hall by (vm_compute; done).
  rewrite forallb_forall in Hall. specialize (Hall (Z.to_nat f)).
  rewrite <- list_elem_of_In, elem_of_seq, Z2Nat.id in Hall by lia.
  intros H0. rewrite H0 in Hall. cbn in Hall. specialize (Hall ltac:(lia)).
  apply Nat.leb_le in Hall. lia.
Qed.

(** ** Theorems *)

(** Block records.  [BlockRecord_parse] accepts exactly the frames that
    [to_bytes] makes of a block of the expected size whose flags are zero or
    the last-data flag on a data block, with the right checksum; it returns
    that block and it never panics. *)
Theorem block_record_codec b block_size r :
  0 <= block_size ->
  (BlockRecord_parse b block_size = Ok r
   <-> (u64 (br_block_index r) /\ blen (br_payload r) = block_size
        /\ (br_flags r = 0 \/ br_flags r = 1 /\ BlockKind_is_data (br_kind r) = true)
        /\ br_record_crc32c r = crc32c (seg b 0 (16 + block_size)))
       /\ BlockRecord_to_bytes r = b)
  /\ BlockRecord_parse b block_size <> Panic.
Proof.
  intros Hbs. split; [|by apply BlockRecord_parse_no_panic]. rewrite BlockRecord_parse_iff by done.
  unfold BlockRecord_valid, BlockRecord_is_last_data, BlockKind_is_parity. split.
  - intros [(Hi & Hf & Hr & Hp & Hl & Hc) Hb]. rewrite Hb in Hc. split; [|done].
    split_and!; try done. apply reserved_flags_iff in Hr; [|done].
    destruct Hr as [?|H1]; [by left|right]. split; [done|]. rewrite H1 in Hp.
    destruct (BlockKind_is_data (br_kind r)); [done|]. by specialize (Hp eq_refl).
  - intros [(Hi & Hl & Hf & Hc) Hb]. split; [|done].
    assert (u8 (br_flags r)) as Hu by (unfold fits; lia).
    split_and!; try done.
    + apply reserved_flags_iff; [done|]. tauto.
    + intros Hp. destruct Hf as [-> |[-> Hd]]; [done|]. by rewrite Hd in Hp.
    + by rewrite Hb.
Qed.
End BlockRecord.

(** ** Concrete inputs *)
Definition example_block : BlockRecord := {|
  br_block_index := 7; br_kind := BlockKind.PayloadData; br_flags := 1; br_payload := zeros 8;
  br_record_crc32c :=
    toy_crc (TZBK_MAGIC ++ le_bytes 8 7 ++ le_bytes 1 (BlockKind.to_Z BlockKind.PayloadData)
               ++ le_bytes 1 1 ++ zeros 2 ++ zeros 8) |}.

Lemma block_record_codec_witness :
  let b := BlockRecord_to_bytes (C := toy_Crc32c) example_block in
  BlockRecord_parse (C := toy_Crc32c) b 8 = Ok example_block.
Proof.
  intros b. apply (block_record_codec (C := toy_Crc32c) b 8 example_block); [lia|].
  split; [|reflexivity]. unfold fits, example_block; cbn [br_block_index br_payload br_flags br_kind].
  split; [lia|]. split; [reflexivity|]. split; [by right|]. vm_compute. reflexivity.
Defined.
