(* ===== verification/KeyWrap.v ===== *)
(** * The key-wrap table

    [KeyWrapTableV1] and [RecipientRecordV1] of [crates/tzap-core/src/wire.rs]:
    the archive's wrapped master key, once per recipient. *)

From S2P Require Import Wire.
#[local] Open Scope Z_scope.

Definition KEY_WRAP_TABLE_DIGEST_DOMAIN_V45 : bytes :=
  String.list_byte_of_string "tzap-key-wrap-table-v45" ++ zeros 1.
Definition KEY_WRAP_TABLE_VERSION : Z := 1.
Definition KEY_WRAP_TABLE_HEADER_LEN : Z := 96.
Definition KEY_WRAP_RECORD_HEADER_LEN : Z := 68.

Record RecipientRecordV1 : Type := {
  rr_record_length : Z;
  rr_profile_id : Z;
  rr_recipient_identity_type : Z;
  rr_flags : Z;
  rr_recipient_identity_length : Z;
  rr_profile_payload_length : Z;
  rr_recipient_identity_digest : bytes;
  rr_recipient_identity_bytes : bytes;
  rr_profile_payload_bytes : bytes
}.

Record KeyWrapTableV1 : Type := {
  kw_version : Z;
  kw_volume_format_rev : Z;
  kw_table_length : Z;
  kw_flags : Z;
  kw_archive_uuid : bytes;
  kw_session_id : bytes;
  kw_recipient_record_count : Z;
  kw_records_offset : Z;
  kw_records_length : Z;
  kw_recipient_records : list RecipientRecordV1
}.

Section KeyWrap.
Context {Sha : Sha256}.

Definition compute_key_wrap_table_digest (key_wrap_table_length : Z) (key_wrap_table_bytes : bytes)
    : bytes :=
  sha256 (KEY_WRAP_TABLE_DIGEST_DOMAIN_V45 ++ le_bytes 4 key_wrap_table_length
            ++ key_wrap_table_bytes).

Definition RecipientRecordV1_to_bytes (self : RecipientRecordV1) : fresult bytes :=
  computed_identity_length ←
    u32_len (blen (rr_recipient_identity_bytes self)) "RecipientRecordV1 identity length";
  computed_profile_payload_length ←
    u32_len (blen (rr_profile_payload_bytes self)) "RecipientRecordV1 profile payload length";
  length ← ok_or (checked_add3 KEY_WRAP_RECORD_HEADER_LEN (blen (rr_recipient_identity_bytes self))
             (blen (rr_profile_payload_bytes self)))
    (WriterUnsupported "RecipientRecordV1 length overflow");
  computed_record_length ← u32_len length "RecipientRecordV1 record length";
  record_length ←
    (if rr_record_length self =? 0 then mret computed_record_length
     else
       reject_if (negb (rr_record_length self =? computed_record_length))
         (InvalidArchive "RecipientRecordV1 length is inconsistent with payload sizes");;
       mret (rr_record_length self));
  reject_if (negb (rr_recipient_identity_length self =? 0)
             && negb (rr_recipient_identity_length self =? computed_identity_length))
    (InvalidArchive "RecipientRecordV1 identity length is inconsistent with payload size");;
  reject_if (negb (rr_profile_payload_length self =? 0)
             && negb (rr_profile_payload_length self =? computed_profile_payload_length))
    (InvalidArchive "RecipientRecordV1 payload length is inconsistent with payload size");;
  let expected_digest := sha256 (rr_recipient_identity_bytes self) in
  reject_if (negb (bytes_eqb (rr_recipient_identity_digest self) (zeros 32))
             && negb (bytes_eqb (rr_recipient_identity_digest self) expected_digest))
    (InvalidArchive "RecipientRecordV1 recipient_identity_digest mismatch");;
  mret (puts (zeros KEY_WRAP_RECORD_HEADER_LEN)
          [write_u32 0 record_length;
           write_u16 4 (rr_profile_id self);
           write_u16 6 (rr_recipient_identity_type self);
           write_u32 8 0;
           write_u32 12 computed_identity_length;
           write_u32 16 computed_profile_payload_length;
           write_bytes 20 expected_digest]
        ++ rr_recipient_identity_bytes self ++ rr_profile_payload_bytes self).

Definition RecipientRecordV1_parse (b : bytes) : fresult (RecipientRecordV1 * Z) :=
  reject_if (blen b <? KEY_WRAP_RECORD_HEADER_LEN)
    (InvalidLength "RecipientRecordV1" KEY_WRAP_RECORD_HEADER_LEN (blen b));;
  record_length ← read_u32 b 0;
  reject_if (record_length <? KEY_WRAP_RECORD_HEADER_LEN)
    (InvalidArchive "RecipientRecordV1 record_length is too small");;
  reject_if (blen b <? record_length) (InvalidLength "RecipientRecordV1" record_length (blen b));;
  profile_id ← read_u16 b 4;
  recipient_identity_type ← read_u16 b 6;
  flags ← read_u32 b 8;
  reject_if (negb (flags =? 0)) (NonZeroReserved "RecipientRecordV1");;
  recipient_identity_length ← read_u32 b 12;
  profile_payload_length ← read_u32 b 16;
  expected_length ← ok_or (checked_add3 KEY_WRAP_RECORD_HEADER_LEN recipient_identity_length
                       profile_payload_length)
    (InvalidArchive "RecipientRecordV1 length arithmetic overflow");
  reject_if (negb (record_length =? expected_length))
    (InvalidArchive "RecipientRecordV1 length is inconsistent with payload sizes");;
  recipient_identity_digest ← slice b 20 52;
  reserved ← slice b 52 68;
  expect_zero "RecipientRecordV1" reserved;;
  let identity_start := KEY_WRAP_RECORD_HEADER_LEN in
  let identity_end := identity_start + recipient_identity_length in
  let payload_end := identity_end + profile_payload_length in
  recipient_identity_bytes ← slice b identity_start identity_end;
  profile_payload_bytes ← slice b identity_end payload_end;
  let expected_digest := sha256 recipient_identity_bytes in
  reject_if (negb (bytes_eqb recipient_identity_digest expected_digest))
    (InvalidArchive "RecipientRecordV1 recipient_identity_digest mismatch");;
  mret ({| rr_record_length := expected_length `mod` 2 ^ 32;
           rr_profile_id := profile_id;
           rr_recipient_identity_type := recipient_identity_type;
           rr_flags := flags;
           rr_recipient_identity_length := recipient_identity_length;
           rr_profile_payload_length := profile_payload_length;
           rr_recipient_identity_digest := recipient_identity_digest;
           rr_recipient_identity_bytes := recipient_identity_bytes;
           rr_profile_payload_bytes := profile_payload_bytes |}, record_length).

(** The [for] loop that serializes the records. *)
Fixpoint records_to_bytes (records : list RecipientRecordV1) (recipients : bytes) : fresult bytes :=
  match records with
  | [] => Ok recipients
  | record :: records =>
      b ← RecipientRecordV1_to_bytes record;
      records_to_bytes records (recipients ++ b)
  end.

Definition KeyWrapTableV1_to_bytes (self : KeyWrapTableV1) : fresult bytes :=
  reject_if (negb (kw_version self =? KEY_WRAP_TABLE_VERSION))
    (InvalidArchive "KeyWrapTableV1 version must be 1");;
  reject_if (negb (kw_volume_format_rev self =? VOLUME_FORMAT_REV_45))
    (InvalidArchive "KeyWrapTableV1 volume_format_rev must be 45");;
  reject_if (negb (kw_flags self =? 0)) (NonZeroReserved "KeyWrapTableV1");;
  reject_if (negb (kw_records_offset self =? KEY_WRAP_TABLE_HEADER_LEN))
    (InvalidArchive "KeyWrapTableV1 records_offset must be 96");;
  if negb (length (kw_recipient_records self) =? 0)%nat
  then
    recipients ← records_to_bytes (kw_recipient_records self) [];
    recipient_record_count ← u32_len (Z.of_nat (length (kw_recipient_records self)))
      "KeyWrapTableV1 recipient_record_count";
    reject_if (negb (kw_recipient_record_count self =? 0)
               && negb (kw_recipient_record_count self =? recipient_record_count))
      (InvalidArchive "KeyWrapTableV1 recipient_record_count does not match fields");;
    records_length ← u32_len (blen recipients) "KeyWrapTableV1 records_length";
    reject_if (negb (kw_records_length self =? 0) && negb (kw_records_length self =? records_length))
      (InvalidArchive "KeyWrapTableV1 records_length does not match fields");;
    length ← ok_or (checked_add 64 KEY_WRAP_TABLE_HEADER_LEN (blen recipients))
      (WriterUnsupported "key-wrap table length overflow");
    table_length ← u32_len length "KeyWrapTableV1 table_length";
    reject_if (negb (kw_table_length self =? 0) && negb (kw_table_length self =? table_length))
      (InvalidArchive "KeyWrapTableV1 table_length does not match fields");;
    mret (puts (zeros KEY_WRAP_TABLE_HEADER_LEN)
            [write_bytes 0 TZKW_MAGIC;
             write_u16 4 (kw_version self);
             write_u16 6 (kw_volume_format_rev self);
             write_u32 8 table_length;
             write_u32 12 KEY_WRAP_TABLE_HEADER_LEN;
             write_bytes 20 (kw_archive_uuid self);
             write_bytes 36 (kw_session_id self);
             write_u32 52 recipient_record_count;
             write_u32 56 KEY_WRAP_TABLE_HEADER_LEN;
             write_u32 60 records_length]
          ++ recipients)
  else Err (WriterUnsupported "KeyWrapTableV1 must include at least one recipient record").

(** The [for _ in 0..recipient_record_count] loop. *)
Fixpoint parse_records (n : nat) (b : bytes) (cursor : Z) (records : list RecipientRecordV1)
    : fresult (list RecipientRecordV1 * Z) :=
  match n with
  | O => Ok (records, cursor)
  | S n =>
      rest ← slice b cursor (blen b);
      '(record, consumed) ← RecipientRecordV1_parse rest;
      parse_records n b (cursor + consumed) (records ++ [record])
  end.

Definition KeyWrapTableV1_parse (b archive_uuid session_id : bytes)
    (key_wrap_table_length key_wrap_table_record_count : Z) : fresult KeyWrapTableV1 :=
  reject_if (READER_MAX_KEY_WRAP_TABLE_LEN <? blen b)
    (ReaderResourceLimitExceeded "KeyWrapTableV1 length" READER_MAX_KEY_WRAP_TABLE_LEN (blen b));;
  reject_if (blen b <? KEY_WRAP_TABLE_HEADER_LEN)
    (InvalidLength "KeyWrapTableV1" KEY_WRAP_TABLE_HEADER_LEN (blen b));;
  magic ← slice b 0 4;
  expect_magic "KeyWrapTableV1" TZKW_MAGIC magic;;
  header_length ← read_u32 b 12;
  reject_if (negb (header_length =? KEY_WRAP_TABLE_HEADER_LEN))
    (InvalidArchive "KeyWrapTableV1 header_length must be 96");;
  version ← read_u16 b 4;
  reject_if (negb (version =? KEY_WRAP_TABLE_VERSION))
    (InvalidArchive "KeyWrapTableV1 version must be 1");;
  volume_format_rev ← read_u16 b 6;
  reject_if (negb (volume_format_rev =? VOLUME_FORMAT_REV_45))
    (InvalidArchive "KeyWrapTableV1 volume_format_rev must be 45");;
  declared_length ← read_u32 b 8;
  reject_if (negb (declared_length =? key_wrap_table_length))
    (InvalidArchive "KeyWrapTableV1 length does not match KdfParams");;
  reject_if (negb (declared_length =? blen b)) (InvalidLength "KeyWrapTableV1" declared_length (blen b));;
  flags ← read_u32 b 16;
  reject_if (negb (flags =? 0)) (NonZeroReserved "KeyWrapTableV1");;
  table_archive_uuid ← read_array_16 b 20;
  reject_if (negb (bytes_eqb table_archive_uuid archive_uuid))
    (InvalidArchive "KeyWrapTableV1 archive_uuid does not match CryptoHeader");;
  table_session_id ← read_array_16 b 36;
  reject_if (negb (bytes_eqb table_session_id session_id))
    (InvalidArchive "KeyWrapTableV1 session_id does not match CryptoHeader");;
  recipient_record_count ← read_u32 b 52;
  reject_if (READER_MAX_KEY_WRAP_TABLE_RECIPIENT_RECORDS <? recipient_record_count)
    (ReaderResourceLimitExceeded "KeyWrapTableV1 recipient_record_count"
       READER_MAX_KEY_WRAP_TABLE_RECIPIENT_RECORDS recipient_record_count);;
  reject_if (negb (recipient_record_count =? key_wrap_table_record_count))
    (InvalidArchive "KeyWrapTableV1 recipient_record_count does not match KdfParams");;
  records_offset ← read_u32 b 56;
  records_length ← read_u32 b 60;
  reject_if (negb (records_offset =? KEY_WRAP_TABLE_HEADER_LEN))
    (InvalidArchive "KeyWrapTableV1 records_offset must be 96");;
  records_end ← ok_or (checked_add 32 records_offset records_length)
    (InvalidArchive "KeyWrapTableV1 records_offset + records_length overflow");
  reject_if (negb (records_end =? declared_length))
    (InvalidArchive "KeyWrapTableV1 records_offset and records_length are inconsistent");;
  reserved ← slice b 64 96;
  expect_zero "KeyWrapTableV1" reserved;;
  '(recipient_records, cursor) ←
    parse_records (Z.to_nat recipient_record_count) b records_offset [];
  reject_if (negb (cursor =? declared_length))
    (InvalidArchive "KeyWrapTableV1 has trailing record bytes");;
  mret {| kw_version := version; kw_volume_format_rev := volume_format_rev;
          kw_table_length := declared_length; kw_flags := flags;
          kw_archive_uuid := table_archive_uuid; kw_session_id := table_session_id;
          kw_recipient_record_count := recipient_record_count;
          kw_records_offset := records_offset; kw_records_length := records_length;
          kw_recipient_records := recipient_records |}.

(** ** Records on the wire *)

(** The bytes of a record: nine fields, sixteen zeros, the recipient identity
    and the payload. *)
Definition record_bytes (r : RecipientRecordV1) : bytes :=
  let id := rr_recipient_identity_bytes r in
  let payload := rr_profile_payload_bytes r in
  le_bytes 4 (KEY_WRAP_RECORD_HEADER_LEN + blen id + blen payload)
  ++ le_bytes 2 (rr_profile_id r) ++ le_bytes 2 (rr_recipient_identity_type r) ++ le_bytes 4 0
  ++ le_bytes 4 (blen id) ++ le_bytes 4 (blen payload) ++ sha256 id ++ zeros 16 ++ id ++ payload.

(** The length of a record on the wire. *)
Definition record_size (r : RecipientRecordV1) : Z :=
  KEY_WRAP_RECORD_HEADER_LEN + blen (rr_recipient_identity_bytes r) + blen (rr_profile_payload_bytes r).

(** The derived fields of a record agree with its contents. *)
Definition record_valid (r : RecipientRecordV1) : Prop :=
  u16 (rr_profile_id r) /\ u16 (rr_recipient_identity_type r) /\ rr_flags r = 0
  /\ u32 (record_size r) /\ rr_record_length r = record_size r
  /\ rr_recipient_identity_length r = blen (rr_recipient_identity_bytes r)
  /\ rr_profile_payload_length r = blen (rr_profile_payload_bytes r)
  /\ rr_recipient_identity_digest r = sha256 (rr_recipient_identity_bytes r).

Lemma blen_record_bytes r : blen (record_bytes r) = record_size r.
Proof.
  unfold record_bytes, record_size, KEY_WRAP_RECORD_HEADER_LEN. cbv zeta.
  rewrite !blen_app, sha256_blen, blen_zeros by lia. layout. lia.
Qed.

Lemma record_size_min r : 68 <= record_size r.
Proof.
  unfold record_size, KEY_WRAP_RECORD_HEADER_LEN.
  pose proof (blen_nonneg (rr_recipient_identity_bytes r)).
  pose proof (blen_nonneg (rr_profile_payload_bytes r)). lia.
Qed.

Lemma record_segments b r :
  record_size r <= blen b ->
  seg b 0 (record_size r) = record_bytes r
  <-> seg b 0 4 = le_bytes 4 (record_size r) /\ seg b 4 6 = le_bytes 2 (rr_profile_id r)
      /\ seg b 6 8 = le_bytes 2 (rr_recipient_identity_type r) /\ seg b 8 12 = le_bytes 4 0
      /\ seg b 12 16 = le_bytes 4 (blen (rr_recipient_identity_bytes r))
      /\ seg b 16 20 = le_bytes 4 (blen (rr_profile_payload_bytes r))
      /\ seg b 20 52 = sha256 (rr_recipient_identity_bytes r) /\ seg b 52 68 = zeros 16
      /\ seg b 68 (68 + blen (rr_recipient_identity_bytes r)) = rr_recipient_identity_bytes r
      /\ seg b (68 + blen (rr_recipient_identity_bytes r)) (record_size r) = rr_profile_payload_bytes r.
Proof.
  unfold record_bytes, record_size, KEY_WRAP_RECORD_HEADER_LEN. cbv zeta. intros Hle.
  pose proof (blen_nonneg (rr_recipient_identity_bytes r)).
  pose proof (blen_nonneg (rr_profile_payload_bytes r)).
  rewrite !seg_app_iff by (rewrite ?blen_app, ?sha256_blen, ?blen_zeros by lia; layout; lia).
  rewrite sha256_blen, blen_zeros by lia. layout. done.
Qed.

(** What the writer demands of a record: a derived field is zero or right. *)
Definition record_writable (r : RecipientRecordV1) : Prop :=
  u32 (record_size r)
  /\ (rr_record_length r = 0 \/ rr_record_length r = record_size r)
  /\ (rr_recipient_identity_length r = 0
      \/ rr_recipient_identity_length r = blen (rr_recipient_identity_bytes r))
  /\ (rr_profile_payload_length r = 0
      \/ rr_profile_payload_length r = blen (rr_profile_payload_bytes r))
  /\ (rr_recipient_identity_digest r = zeros 32
      \/ rr_recipient_identity_digest r = sha256 (rr_recipient_identity_bytes r)).

Lemma record_puts r :
  puts (zeros KEY_WRAP_RECORD_HEADER_LEN)
    [write_u32 0 (record_size r); write_u16 4 (rr_profile_id r);
     write_u16 6 (rr_recipient_identity_type r); write_u32 8 0;
     write_u32 12 (blen (rr_recipient_identity_bytes r));
     write_u32 16 (blen (rr_profile_payload_bytes r));
     write_bytes 20 (sha256 (rr_recipient_identity_bytes r))]
  ++ rr_recipient_identity_bytes r ++ rr_profile_payload_bytes r = record_bytes r.
Proof.
  pose proof (blen_record_bytes r) as Hb. pose proof (record_size_min r).
  pose proof (sha256_blen (rr_recipient_identity_bytes r)) as Hsha.
  pose proof (seg_full (record_bytes r)) as Hs. rewrite Hb in Hs.
  apply record_segments in Hs; [|lia]. set (b := record_bytes r) in *.
  destruct_and!. rewrite <- (seg_full b), (seg_split b 0 68), Hb by lia. f_equal.
  - apply puts_iff; [unfold KEY_WRAP_RECORD_HEADER_LEN; layout; lia|].
    unfold KEY_WRAP_RECORD_HEADER_LEN. split; [rewrite blen_seg; lia|].
    layout. rewrite !seg_seg by lia. cbn. split_and!; first [done|by rewrite seg_nil].
  - unfold record_size, KEY_WRAP_RECORD_HEADER_LEN in *.
    rewrite (seg_split b 68 (68 + blen (rr_recipient_identity_bytes r)))
      by (pose proof (blen_nonneg (rr_recipient_identity_bytes r));
          pose proof (blen_nonneg (rr_profile_payload_bytes r)); lia).
    congruence.
Qed.

Lemma zero_or (x y : Z) : negb (x =? 0) && negb (x =? y) = false <-> x = 0 \/ x = y.
Proof. lia. Qed.

Lemma zeros_or (n : Z) x y :
  negb (bytes_eqb x (zeros n)) && negb (bytes_eqb x y) = false <-> x = zeros n \/ x = y.
Proof. rewrite <- !bytes_eqb_eq. destruct (bytes_eqb x (zeros n)), (bytes_eqb x y); naive_solver. Qed.

Lemma RecipientRecordV1_to_bytes_iff r b :
  RecipientRecordV1_to_bytes r = Ok b <-> record_writable r /\ b = record_bytes r.
Proof.
  unfold RecipientRecordV1_to_bytes, record_writable.
  pose proof (blen_nonneg (rr_recipient_identity_bytes r)) as Hid.
  pose proof (blen_nonneg (rr_profile_payload_bytes r)) as Hpay.
  rewrite <- record_puts. split.
  - intros Hw. bind_inv Hw. subst b. apply zeros_or in Hr6. apply zero_or in Hr4, Hr5.
    apply u32_len_Ok in Hr as [-> Hr], Hr0 as [-> Hr0], Hr2 as [-> Hr2].
    apply ok_or_Ok, checked_add3_Some in Hr1 as [_ ->]; [|done].
    fold (record_size r) in *.
    assert (r4 = record_size r /\ (rr_record_length r = 0 \/ rr_record_length r = record_size r))
      as [-> Hlen].
    { destruct (rr_record_length r =? 0) eqn:E; [injection Hr3 as <-; lia|]. bind_inv Hr3. lia. }
    done.
  - intros [(Hsz & Hlen & Hidl & Hpayl & Hdig) ->]. unfold fits, record_size in Hsz.
    unfold KEY_WRAP_RECORD_HEADER_LEN in Hsz.
    apply zeros_or in Hdig. apply zero_or in Hidl, Hpayl.
    assert (u32 (record_size r))
      by (unfold fits, record_size, KEY_WRAP_RECORD_HEADER_LEN; lia).
    assert (checked_add3 KEY_WRAP_RECORD_HEADER_LEN (blen (rr_recipient_identity_bytes r))
              (blen (rr_profile_payload_bytes r)) = Some (record_size r)) as ->
      by (apply checked_add3_Some; unfold record_size, KEY_WRAP_RECORD_HEADER_LEN; lia).
    wire_run.
    assert ((if rr_record_length r =? 0 then mret (record_size r)
             else reject_if (negb (rr_record_length r =? record_size r))
               (InvalidArchive "RecipientRecordV1 length is inconsistent with payload sizes");;
               mret (rr_record_length r)) = Ok (record_size r)) as ->.
    { destruct (rr_record_length r =? 0) eqn:E; [done|].
      assert (rr_record_length r = record_size r) as -> by lia. by run. }
    rewrite bind_ret. run_with ltac:(assumption). done.
Qed.

Lemma RecipientRecordV1_parse_iff b r n :
  RecipientRecordV1_parse b = Ok (r, n)
  <-> record_valid r /\ n = record_size r /\ n <= blen b /\ seg b 0 n = record_bytes r.
Proof.
  unfold RecipientRecordV1_parse, record_valid. split.
  - intros Hp. bind_inv Hp. injection Hp as <- <-.
    apply read_u32_range in Hr8 as Hpos9. apply read_u32_range in Hr7 as Hpos8.
    apply ok_or_Ok, checked_add3_Some in Hr9 as [_ ->]; [|lia].
    apply negb_false_iff, bytes_eqb_eq in Hr16. unfold KEY_WRAP_RECORD_HEADER_LEN in *.
    wire_facts. wire_eqs.
    assert (blen (seg b 68 (68 + r8)) = r8) as Hid by (rewrite blen_seg; lia).
    assert (blen (seg b (68 + r8) (68 + r8 + r9)) = r9) as Hpay by (rewrite blen_seg; lia).
    set (r := Build_RecipientRecordV1 _ _ _ _ _ _ _ _ _).
    assert (record_size r = 68 + r8 + r9) as Hsz
      by (unfold record_size, r; cbn; rewrite Hid, Hpay; unfold KEY_WRAP_RECORD_HEADER_LEN; lia).
    rewrite Hsz. split_and!; try done; cbn.
    + rewrite Z.mod_small by (unfold fits in *; lia). done.
    + rewrite <- Hsz. apply record_segments; [rewrite Hsz; lia|]. rewrite Hsz. unfold r. cbn. rewrite Hid, Hpay.
      split_and!; done.
  - intros [(Hpid & Hty & Hfl & Hsz & Hlen & Hidl & Hpayl & Hdig) (-> & Hle & Hseg)].
    pose proof (blen_nonneg (rr_recipient_identity_bytes r)).
    pose proof (blen_nonneg (rr_profile_payload_bytes r)).
    apply record_segments in Hseg; [|done]. destruct_and!.
    destruct r as [len pid ty fl idl payl dig id pay]. unfold record_size in *. cbn in *. subst.
    set (size := 68 + blen id + blen pay).
    change (KEY_WRAP_RECORD_HEADER_LEN + blen id + blen pay) with size in *.
    assert (size = 68 + blen id + blen pay) as Hsize by done. clearbody size.
    unfold fits in Hsz. unfold KEY_WRAP_RECORD_HEADER_LEN in *.
    assert (u32 (blen id)) by (unfold fits; lia). assert (u32 (blen pay)) by (unfold fits; lia).
    assert (u32 0) by (unfold fits; lia). assert (u32 size) by done.
    assert (checked_add3 68 (blen id) (blen pay) = Some size) as Hsum
      by (apply checked_add3_Some; lia).
    wire_run. rewrite Hsum. wire_run.
    rewrite <- Hsize, H7, H9, H11, Z.mod_small by lia.
    run_with ltac:(apply negb_false_iff; by apply bytes_eqb_eq). done.
Qed.

Lemma RecipientRecordV1_parse_no_panic b : RecipientRecordV1_parse b <> Panic.
Proof.
  unfold RecipientRecordV1_parse. unfold KEY_WRAP_RECORD_HEADER_LEN. no_panic;
    match goal with H : ok_or (checked_add3 _ _ _) _ = Ok _ |- _ =>
      apply ok_or_Ok, checked_add3_Some in H as [_ ->]; [|lia] end;
    apply slice_no_panic; lia.
Qed.

(** ** The table on the wire *)
Definition records_bytes (l : list RecipientRecordV1) : bytes := concat (map record_bytes l).

#[global] Arguments records_bytes _ : simpl never.

Lemma records_to_bytes_iff l acc b :
  records_to_bytes l acc = Ok b <-> Forall record_writable l /\ b = acc ++ records_bytes l.
Proof.
  revert acc. induction l as [|r l IH]; intros acc; cbn [records_to_bytes].
  - unfold records_bytes. cbn. rewrite app_nil_r. split; [intros [= <-]; done|intros [_ ->]; done].
  - split.
    + intros H. bind_inv H. apply RecipientRecordV1_to_bytes_iff in Hr as [Hw ->].
      apply IH in H as [Hl ->]. split; [by constructor|]. by rewrite <- app_assoc.
    + intros [Hl ->]. apply Forall_cons in Hl as [Hr Hl].
      rewrite (proj2 (RecipientRecordV1_to_bytes_iff r _)) by done. rewrite bind_ret.
      apply IH. split; [done|]. by rewrite <- app_assoc.
Qed.

Lemma parse_records_iff n b cursor acc l c :
  0 <= cursor <= blen b ->
  parse_records n b cursor acc = Ok (l, c)
  <-> exists rs, l = acc ++ rs /\ length rs = n /\ Forall record_valid rs
      /\ c = cursor + blen (records_bytes rs) /\ c <= blen b /\ seg b cursor c = records_bytes rs.
Proof.
  revert cursor acc. induction n as [|n IH]; intros cursor acc Hc; cbn [parse_records].
  - split.
    + intros [= <- <-]. exists []. rewrite app_nil_r, seg_nil.
      change (blen (records_bytes [])) with 0. split_and!; try done; lia.
    + intros (rs & -> & Hl%nil_length_inv & _ & -> & _). subst rs. rewrite app_nil_r.
      change (blen (records_bytes [])) with 0. by rewrite Z.add_0_r.
  - split.
    + intros H. bind_inv H. apply slice_Ok in Hr as (_ & _ & _ & ->).
      apply RecipientRecordV1_parse_iff in Hr0 as (Hv & -> & Hle & Hs).
      pose proof (record_size_min r0). rewrite blen_seg in Hle by lia.
      rewrite seg_seg in Hs by lia. rewrite Z.add_0_r in Hs.
      apply IH in H as (rs & -> & Hl & Hf & -> & Hle' & Hs'); [|lia].
      exists (r0 :: rs). unfold records_bytes in *. cbn. rewrite blen_app, blen_record_bytes.
      pose proof (blen_nonneg (concat (map record_bytes rs))).
      split_and!; [by rewrite <- app_assoc|by rewrite Hl|by constructor|lia|lia|].
      rewrite (seg_split b cursor (cursor + record_size r0)) by lia. rewrite Hs. f_equal.
      etrans; [|exact Hs']. f_equal; lia.
    + intros (rs & -> & Hl & Hf & -> & Hle & Hs). destruct rs as [|r rs]; [done|].
      apply Forall_cons in Hf as [Hr Hf]. unfold records_bytes in *. cbn in *.
      pose proof (record_size_min r). pose proof (blen_nonneg (concat (map record_bytes rs))).
      rewrite blen_app, blen_record_bytes in *.
      apply seg_app_iff in Hs as [Hs1 Hs2]; [|rewrite ?blen_record_bytes; lia..].
      rewrite blen_record_bytes in *.
      rewrite (slice_in_range b) by lia. rewrite bind_ret.
      rewrite (proj2 (RecipientRecordV1_parse_iff (seg b cursor (blen b)) r (record_size r))).
      2: { rewrite blen_seg by lia. rewrite seg_seg by lia. rewrite Z.add_0_r. split_and!; done || lia. }
      rewrite bind_ret. apply IH; [lia|]. exists rs.
      split_and!; [by rewrite <- app_assoc|lia|done|lia|lia|]. etrans; [|exact Hs2]. f_equal; lia.
Qed.

(** The derived fields of a table agree with its records. *)
Definition table_valid (t : KeyWrapTableV1) : Prop :=
  kw_version t = KEY_WRAP_TABLE_VERSION /\ kw_volume_format_rev t = VOLUME_FORMAT_REV_45
  /\ kw_flags t = 0 /\ blen (kw_archive_uuid t) = 16 /\ blen (kw_session_id t) = 16
  /\ Forall record_valid (kw_recipient_records t)
  /\ kw_recipient_record_count t = Z.of_nat (length (kw_recipient_records t))
  /\ kw_records_offset t = KEY_WRAP_TABLE_HEADER_LEN
  /\ kw_records_length t = blen (records_bytes (kw_recipient_records t))
  /\ kw_table_length t = KEY_WRAP_TABLE_HEADER_LEN + kw_records_length t.

Definition table_header (t : KeyWrapTableV1) : bytes :=
  puts (zeros KEY_WRAP_TABLE_HEADER_LEN)
    [write_bytes 0 TZKW_MAGIC;
     write_u16 4 KEY_WRAP_TABLE_VERSION;
     write_u16 6 VOLUME_FORMAT_REV_45;
     write_u32 8 (KEY_WRAP_TABLE_HEADER_LEN + blen (records_bytes (kw_recipient_records t)));
     write_u32 12 KEY_WRAP_TABLE_HEADER_LEN;
     write_bytes 20 (kw_archive_uuid t);
     write_bytes 36 (kw_session_id t);
     write_u32 52 (Z.of_nat (length (kw_recipient_records t)));
     write_u32 56 KEY_WRAP_TABLE_HEADER_LEN;
     write_u32 60 (blen (records_bytes (kw_recipient_records t)))].

Definition table_bytes (t : KeyWrapTableV1) : bytes :=
  table_header t ++ records_bytes (kw_recipient_records t).

(** The fields of the header as segments of the table. *)
Lemma table_segments b t :
  blen (kw_archive_uuid t) = 16 -> blen (kw_session_id t) = 16 ->
  table_bytes t = b
  <-> blen b = 96 + blen (records_bytes (kw_recipient_records t))
      /\ seg b 0 4 = TZKW_MAGIC /\ seg b 4 6 = le_bytes 2 1 /\ seg b 6 8 = le_bytes 2 45
      /\ seg b 8 12 = le_bytes 4 (96 + blen (records_bytes (kw_recipient_records t)))
      /\ seg b 12 16 = le_bytes 4 96 /\ seg b 16 20 = zeros 4 /\ seg b 20 36 = kw_archive_uuid t
      /\ seg b 36 52 = kw_session_id t
      /\ seg b 52 56 = le_bytes 4 (Z.of_nat (length (kw_recipient_records t)))
      /\ seg b 56 60 = le_bytes 4 96
      /\ seg b 60 64 = le_bytes 4 (blen (records_bytes (kw_recipient_records t)))
      /\ seg b 64 96 = zeros 32 /\ seg b 96 (blen b) = records_bytes (kw_recipient_records t).
Proof.
  intros Hu Hs. unfold table_bytes. set (recs := records_bytes (kw_recipient_records t)).
  pose proof (blen_nonneg recs).
  assert (forall b', 96 <= blen b' -> table_header t = seg b' 0 96
          <-> seg b' 0 4 = TZKW_MAGIC /\ seg b' 4 6 = le_bytes 2 1 /\ seg b' 6 8 = le_bytes 2 45
              /\ seg b' 8 12 = le_bytes 4 (96 + blen recs)
              /\ seg b' 12 16 = le_bytes 4 96 /\ seg b' 16 20 = zeros 4
              /\ seg b' 20 36 = kw_archive_uuid t /\ seg b' 36 52 = kw_session_id t
              /\ seg b' 52 56 = le_bytes 4 (Z.of_nat (length (kw_recipient_records t)))
              /\ seg b' 56 60 = le_bytes 4 96 /\ seg b' 60 64 = le_bytes 4 (blen recs)
              /\ seg b' 64 96 = zeros 32) as Hhead.
  { intros b' Hb'. unfold table_header, KEY_WRAP_TABLE_HEADER_LEN, KEY_WRAP_TABLE_VERSION. unfold_consts.
    fold recs. rewrite puts_iff by (layout; lia). rewrite blen_seg by lia. layout.
    rewrite !seg_seg by lia. cbn [Z.add Pos.add Pos.succ]. rewrite !seg_nil.
    split; [intros [_ K]|intros K; split; [done|]]; destruct_and!; split_and!; done. }
  assert (blen (table_header t) = 96) as Hl
    by (unfold table_header, KEY_WRAP_TABLE_HEADER_LEN; apply blen_puts; layout; lia).
  split.
  - intros <-. rewrite blen_app, Hl. split; [done|].
    assert (seg (table_header t ++ recs) 0 96 = table_header t) as H0.
    { rewrite seg_app_l by lia. rewrite <- Hl. apply seg_full. }
    symmetry in H0. apply Hhead in H0; [|rewrite blen_app; lia]. destruct_and!.
    split_and!; try done. rewrite seg_app_r by lia. rewrite Hl.
    replace (96 + blen recs - 96) with (blen recs) by lia. apply seg_full.
  - intros (Hb & Hrest). rewrite <- (seg_full b), (seg_split b 0 96) by lia.
    f_equal; [apply Hhead; [lia|]|]; destruct_and!; [split_and!; done|done].
Qed.

Lemma record_valid_writable r : record_valid r -> record_writable r.
Proof. unfold record_valid, record_writable. intros. destruct_and!. split_and!; tauto. Qed.

Lemma KeyWrapTableV1_to_bytes_valid t :
  table_valid t -> u32 (kw_table_length t) ->
  KeyWrapTableV1_to_bytes t
  = if decide (kw_recipient_records t = [])
    then Err (WriterUnsupported "KeyWrapTableV1 must include at least one recipient record")
    else Ok (table_bytes t).
Proof.
  intros (Hv & Hr & Hf & Hu & Hs & Hall & Hc & Ho & Hl & Ht) Hsz.
  unfold KeyWrapTableV1_to_bytes. rewrite Hv, Hr, Hf, Ho. run.
  destruct (decide (kw_recipient_records t = [])) as [E|E]; [by rewrite E|].
  assert ((length (kw_recipient_records t) =? 0)%nat = false) as ->.
  { apply Nat.eqb_neq. intros K%nil_length_inv. done. }
  cbn [negb]. rewrite (proj2 (records_to_bytes_iff _ [] (records_bytes (kw_recipient_records t)))).
  2: { split; [|done]. eapply Forall_impl; [done|apply record_valid_writable]. }
  assert (Z.of_nat (length (kw_recipient_records t)) <= blen (records_bytes (kw_recipient_records t))).
  { unfold records_bytes. clear. induction (kw_recipient_records t) as [|r l IH]; [done|].
    cbn [map concat length]. rewrite blen_app, blen_record_bytes. pose proof (record_size_min r). lia. }
  unfold KEY_WRAP_TABLE_HEADER_LEN, fits in *. rewrite bind_ret.
  assert (negb (kw_table_length t =? 0) && negb (kw_table_length t =? kw_table_length t) = false) by lia.
  wire_run. unfold table_bytes, table_header. unfold KEY_WRAP_TABLE_HEADER_LEN in *. done.
Qed.

Lemma KeyWrapTableV1_parse_iff b uuid session len count t :
  KeyWrapTableV1_parse b uuid session len count = Ok t
  <-> table_valid t /\ kw_archive_uuid t = uuid /\ kw_session_id t = session
      /\ kw_table_length t = len /\ kw_recipient_record_count t = count
      /\ count <= READER_MAX_KEY_WRAP_TABLE_RECIPIENT_RECORDS
      /\ len <= READER_MAX_KEY_WRAP_TABLE_LEN /\ table_bytes t = b.
Proof.
  unfold KeyWrapTableV1_parse, table_valid, KEY_WRAP_TABLE_HEADER_LEN. unfold_consts. split.
  - intros Hp. bind_inv Hp. subst t. cbn.
    apply ok_or_Ok, checked_add_Some in Hr24 as [_ ->].
    apply negb_false_iff, bytes_eqb_eq in Hr15, Hr17. unfold KEY_WRAP_TABLE_VERSION in *.
    apply read_u32_range in Hr18 as Hpos18. wire_facts. wire_eqs.
    apply parse_records_iff in Hr28 as (rs & -> & Hl & Hf & Hz & _ & Hs); [|lia].
    assert (blen (records_bytes rs) = r22) as Hrl by lia. cbn [app].
    assert (blen (seg b 20 36) = 16 /\ blen (seg b 36 52) = 16) as [? ?] by (rewrite !blen_seg; lia).
    split_and!; first [done|lia|idtac].
    apply table_segments; [done..|]. cbn. rewrite Hrl, Hl, Z2Nat.id by lia.
    split_and!; first [done|lia|congruence].
  - intros ((Hv & Hrev & Hfl & Hu & Hs & Hall & Hc & Ho & Hl & Ht) & <- & <- & <- & <- & Hcnt & Hlen & Hb).
    apply table_segments in Hb; [|done..]. destruct t as [v rev tl fl uuid session cnt off rl recs].
    unfold KEY_WRAP_TABLE_VERSION in *. cbn in *. subst.
    pose proof (blen_nonneg (records_bytes recs)). destruct_and!.
    assert (Z.of_nat (length recs) < 2 ^ 32) by lia.
    assert (u32 (Z.of_nat (length recs))) by (unfold fits; lia).
    assert (u32 (blen (records_bytes recs))) by (unfold fits; lia).
    assert (u32 (96 + blen (records_bytes recs))) by (unfold fits; lia).
    assert (seg b 16 20 = le_bytes 4 0) by done. assert (u32 96) by (unfold fits; lia).
    assert (u16 1) by (unfold fits; lia). assert (u16 45) by (unfold fits; lia).
    assert (u32 0) by (unfold fits; lia).
    assert (negb (bytes_eqb (seg b 20 36) uuid) = false)
      by (apply negb_false_iff; by apply bytes_eqb_eq).
    assert (negb (bytes_eqb (seg b 36 52) session) = false)
      by (apply negb_false_iff; by apply bytes_eqb_eq).
    assert (parse_records (Z.to_nat (Z.of_nat (length recs))) b 96 []
            = Ok (recs, 96 + blen (records_bytes recs))).
    { apply parse_records_iff; [lia|]. exists recs.
      split_and!; [done|lia|done|done|lia|]. by rewrite <- H0. }
    wire_run. congruence.
Qed.

Lemma parse_records_no_panic n b cursor acc :
  0 <= cursor <= blen b -> parse_records n b cursor acc <> Panic.
Proof.
  revert cursor acc. induction n as [|n IH]; intros cursor acc Hc; cbn [parse_records]; [done|].
  rewrite (slice_in_range b) by lia. rewrite bind_ret.
  apply bind_no_panic; [apply RecipientRecordV1_parse_no_panic|].
  intros [r m] (_ & -> & Hle & _)%RecipientRecordV1_parse_iff.
  rewrite blen_seg in Hle by lia. pose proof (record_size_min r). apply IH. lia.
Qed.

Lemma KeyWrapTableV1_parse_no_panic b uuid session len count :
  KeyWrapTableV1_parse b uuid session len count <> Panic.
Proof.
  unfold KeyWrapTableV1_parse, KEY_WRAP_TABLE_HEADER_LEN. unfold_consts. no_panic.
  apply parse_records_no_panic. lia.
Qed.

(** ** Theorems *)

(** Recipient records.  The parser accepts a string exactly when it starts
    with the canonical bytes of a record whose derived fields are right, and it
    consumes those bytes only; the writer accepts a record exactly when each
    derived field is zero or right, and writes those same canonical bytes; the
    parser never panics. *)
Theorem recipient_record_codec b b' r n :
  (RecipientRecordV1_parse b = Ok (r, n)
   <-> record_valid r /\ n = record_size r /\ n <= blen b /\ seg b 0 n = record_bytes r)
  /\ (RecipientRecordV1_to_bytes r = Ok b' <-> record_writable r /\ b' = record_bytes r)
  /\ RecipientRecordV1_parse b <> Panic.
Proof.
  split_and!; [apply RecipientRecordV1_parse_iff|apply RecipientRecordV1_to_bytes_iff|].
  apply RecipientRecordV1_parse_no_panic.
Qed.

(** The key-wrap table.  For the identifiers, length and record count the
    crypto header announces, the parser accepts exactly the bytes of a valid
    table with these four values, within the reader's caps.  On such a table
    with at least one record the writer gives those bytes back; the writer
    refuses the table without records, which the parser accepts.  The parser
    never panics. *)
Theorem key_wrap_table_codec b uuid session len count t :
  (KeyWrapTableV1_parse b uuid session len count = Ok t
   <-> table_valid t /\ kw_archive_uuid t = uuid /\ kw_session_id t = session
       /\ kw_table_length t = len /\ kw_recipient_record_count t = count
       /\ count <= READER_MAX_KEY_WRAP_TABLE_RECIPIENT_RECORDS
       /\ len <= READER_MAX_KEY_WRAP_TABLE_LEN /\ table_bytes t = b)
  /\ (KeyWrapTableV1_parse b uuid session len count = Ok t ->
      KeyWrapTableV1_to_bytes t
      = if decide (kw_recipient_records t = [])
        then Err (WriterUnsupported "KeyWrapTableV1 must include at least one recipient record")
        else Ok b)
  /\ KeyWrapTableV1_parse b uuid session len count <> Panic.
Proof.
  split_and!; [apply KeyWrapTableV1_parse_iff| |apply KeyWrapTableV1_parse_no_panic].
  intros (Hv & _ & _ & Hl & _ & _ & Hmax & <-)%KeyWrapTableV1_parse_iff.
  apply KeyWrapTableV1_to_bytes_valid; [done|]. destruct Hv as (_&_&_&_&_&_&_&_&Hr&Ht).
  pose proof (blen_nonneg (records_bytes (kw_recipient_records t))).
  unfold fits, KEY_WRAP_TABLE_HEADER_LEN, READER_MAX_KEY_WRAP_TABLE_LEN in *. lia.
Qed.
End KeyWrap.
