(* ===== verification/RootAuthFooter.v ===== *)
(** * The root-authentication footer

    [RootAuthFooterV1] of [crates/tzap-core/src/wire.rs]: the signature over an
    archive root, with the digests the root is made of. *)

From S2P Require Import Wire.
#[local] Open Scope Z_scope.

Record RootAuthFooterV1 : Type := {
  ra_archive_uuid : bytes;
  ra_session_id : bytes;
  ra_format_version : Z;
  ra_volume_format_rev : Z;
  ra_authenticator_id : Z;
  ra_signer_identity_type : Z;
  ra_signer_identity_bytes : bytes;
  ra_authenticator_value : bytes;
  ra_total_data_block_count : Z;
  ra_critical_metadata_digest : bytes;
  ra_index_digest : bytes;
  ra_fec_layout_digest : bytes;
  ra_data_block_merkle_root : bytes;
  ra_signer_identity_digest : bytes;
  ra_archive_root : bytes;
  ra_footer_crc32c : Z
}.

Definition root_auth_footer_length (signer_identity_len authenticator_value_len : Z) : fresult Z :=
  len ← ok_or (match checked_add3 ROOT_AUTH_FOOTER_FIXED_LEN signer_identity_len
                       authenticator_value_len with
               | Some value => checked_add 64 value 4
               | None => None
               end)
    (InvalidArchive "RootAuthFooterV1 length overflow");
  reject_if (READER_MAX_ROOT_AUTH_FOOTER_LEN <? len)
    (ReaderResourceLimitExceeded "RootAuthFooterV1 length" READER_MAX_ROOT_AUTH_FOOTER_LEN len);;
  ok_or (try_from 32 len) (InvalidArchive "RootAuthFooterV1 length overflow").

Definition validate_root_auth_variable_lengths (signer_identity_len authenticator_value_len : Z)
    : fresult unit :=
  reject_if (READER_MAX_ROOT_AUTH_SIGNER_IDENTITY_LEN <? signer_identity_len)
    (ReaderResourceLimitExceeded "RootAuthFooterV1 signer identity length"
       READER_MAX_ROOT_AUTH_SIGNER_IDENTITY_LEN signer_identity_len);;
  reject_if (READER_MAX_ROOT_AUTH_AUTHENTICATOR_VALUE_LEN <? authenticator_value_len)
    (ReaderResourceLimitExceeded "RootAuthFooterV1 authenticator value length"
       READER_MAX_ROOT_AUTH_AUTHENTICATOR_VALUE_LEN authenticator_value_len).

Section RootAuthFooterV1.
Context {C : Crc32c}.

Definition RootAuthFooterV1_footer_length (self : RootAuthFooterV1) : fresult Z :=
  root_auth_footer_length (blen (ra_signer_identity_bytes self)) (blen (ra_authenticator_value self)).

Definition RootAuthFooterV1_to_bytes (self : RootAuthFooterV1) : fresult bytes :=
  let signer_len := blen (ra_signer_identity_bytes self) in
  let auth_len := blen (ra_authenticator_value self) in
  validate_root_auth_variable_lengths signer_len auth_len;;
  footer_length ← RootAuthFooterV1_footer_length self;
  root_auth_spec_id ←
    root_auth_spec_id_for_revision (ra_format_version self) (ra_volume_format_rev self);
  signer_identity_length ← ok_or (try_from 32 signer_len)
    (InvalidArchive "RootAuthFooterV1 signer identity length overflow");
  authenticator_value_length ← ok_or (try_from 32 auth_len)
    (InvalidArchive "RootAuthFooterV1 authenticator length overflow");
  let signer_start := ROOT_AUTH_FOOTER_FIXED_LEN in
  let signer_end := signer_start + signer_len in
  let auth_end := signer_end + auth_len in
  mret (put_crc (puts (zeros footer_length)
    [write_bytes 0 TZRA_MAGIC;
     write_u16 4 1;
     write_bytes 6 root_auth_spec_id;
     write_u32 30 footer_length;
     write_u32 34 0;
     write_bytes 38 (ra_archive_uuid self);
     write_bytes 54 (ra_session_id self);
     write_u16 70 (ra_format_version self);
     write_u16 72 (ra_volume_format_rev self);
     write_u16 74 (ra_authenticator_id self);
     write_u16 76 (ra_signer_identity_type self);
     write_u32 78 signer_identity_length;
     write_u32 82 authenticator_value_length;
     write_u64 86 (ra_total_data_block_count self);
     write_bytes 94 (ra_critical_metadata_digest self);
     write_bytes 126 (ra_index_digest self);
     write_bytes 158 (ra_fec_layout_digest self);
     write_bytes 190 (ra_data_block_merkle_root self);
     write_bytes 222 (ra_signer_identity_digest self);
     write_bytes 254 (ra_archive_root self);
     write_bytes signer_start (ra_signer_identity_bytes self);
     write_bytes signer_end (ra_authenticator_value self)]) auth_end).

Definition RootAuthFooterV1_parse (b : bytes) : fresult RootAuthFooterV1 :=
  reject_if (READER_MAX_ROOT_AUTH_FOOTER_LEN <? blen b)
    (ReaderResourceLimitExceeded "RootAuthFooterV1 length" READER_MAX_ROOT_AUTH_FOOTER_LEN (blen b));;
  let min_len := ROOT_AUTH_FOOTER_FIXED_LEN + 4 in
  reject_if (blen b <? min_len) (InvalidLength "RootAuthFooterV1" min_len (blen b));;
  magic ← slice b 0 4;
  expect_magic "RootAuthFooterV1" TZRA_MAGIC magic;;
  version ← read_u16 b 4;
  reject_if (negb (version =? 1)) (UnsupportedFormatVersion version);;
  root_auth_spec_id ← read_array_24 b 6;
  footer_length ← read_u32 b 30;
  reject_if (negb (footer_length =? blen b)) (InvalidLength "RootAuthFooterV1" footer_length (blen b));;
  flags ← read_u32 b 34;
  reject_if (negb (flags =? 0)) (InvalidArchive "RootAuthFooterV1 flags must be zero");;
  format_version ← read_u16 b 70;
  reject_if (negb (format_version =? FORMAT_VERSION)) (UnsupportedFormatVersion format_version);;
  volume_format_rev ← read_u16 b 72;
  expected_spec_id ← root_auth_spec_id_for_revision format_version volume_format_rev;
  reject_if (negb (bytes_eqb root_auth_spec_id expected_spec_id))
    (InvalidArchive "RootAuthFooterV1 root_auth_spec_id does not match volume_format_rev");;
  signer_identity_length ← read_u32 b 78;
  authenticator_value_length ← read_u32 b 82;
  validate_root_auth_variable_lengths signer_identity_length authenticator_value_length;;
  expected ← root_auth_footer_length signer_identity_length authenticator_value_length;
  reject_if (negb (expected =? footer_length))
    (InvalidLength "RootAuthFooterV1" expected footer_length);;
  reserved ← slice b 286 318;
  expect_zero "RootAuthFooterV1" reserved;;
  let crc_offset := blen b - 4 in
  covered ← slice b 0 crc_offset;
  crc ← read_u32 b crc_offset;
  expect_crc "RootAuthFooterV1" covered crc;;
  let signer_start := ROOT_AUTH_FOOTER_FIXED_LEN in
  let signer_end := signer_start + signer_identity_length in
  let auth_end := signer_end + authenticator_value_length in
  archive_uuid ← read_array_16 b 38;
  session_id ← read_array_16 b 54;
  authenticator_id ← read_u16 b 74;
  signer_identity_type ← read_u16 b 76;
  signer_identity_bytes ← slice b signer_start signer_end;
  authenticator_value ← slice b signer_end auth_end;
  total_data_block_count ← read_u64 b 86;
  critical_metadata_digest ← read_array_32 b 94;
  index_digest ← read_array_32 b 126;
  fec_layout_digest ← read_array_32 b 158;
  data_block_merkle_root ← read_array_32 b 190;
  signer_identity_digest ← read_array_32 b 222;
  archive_root ← read_array_32 b 254;
  footer_crc32c ← read_u32 b crc_offset;
  mret {| ra_archive_uuid := archive_uuid; ra_session_id := session_id;
          ra_format_version := format_version; ra_volume_format_rev := volume_format_rev;
          ra_authenticator_id := authenticator_id; ra_signer_identity_type := signer_identity_type;
          ra_signer_identity_bytes := signer_identity_bytes;
          ra_authenticator_value := authenticator_value;
          ra_total_data_block_count := total_data_block_count;
          ra_critical_metadata_digest := critical_metadata_digest;
          ra_index_digest := index_digest; ra_fec_layout_digest := fec_layout_digest;
          ra_data_block_merkle_root := data_block_merkle_root;
          ra_signer_identity_digest := signer_identity_digest; ra_archive_root := archive_root;
          ra_footer_crc32c := footer_crc32c |}.

(** The Rust types of the fields. *)
Definition RootAuthFooterV1_typed (h : RootAuthFooterV1) : Prop :=
  blen (ra_archive_uuid h) = 16 /\ blen (ra_session_id h) = 16 /\ u16 (ra_format_version h)
  /\ u16 (ra_volume_format_rev h) /\ u16 (ra_authenticator_id h) /\ u16 (ra_signer_identity_type h)
  /\ u64 (ra_total_data_block_count h) /\ blen (ra_critical_metadata_digest h) = 32
  /\ blen (ra_index_digest h) = 32 /\ blen (ra_fec_layout_digest h) = 32
  /\ blen (ra_data_block_merkle_root h) = 32 /\ blen (ra_signer_identity_digest h) = 32
  /\ blen (ra_archive_root h) = 32.

(** What the writer demands. *)
Definition RootAuthFooterV1_supported (h : RootAuthFooterV1) : Prop :=
  ra_format_version h = FORMAT_VERSION /\ ra_volume_format_rev h = VOLUME_FORMAT_REV_45
  /\ blen (ra_signer_identity_bytes h) <= READER_MAX_ROOT_AUTH_SIGNER_IDENTITY_LEN
  /\ blen (ra_authenticator_value h) <= READER_MAX_ROOT_AUTH_AUTHENTICATOR_VALUE_LEN.

Lemma validate_root_auth_variable_lengths_Ok s a :
  validate_root_auth_variable_lengths s a = Ok tt
  <-> s <= READER_MAX_ROOT_AUTH_SIGNER_IDENTITY_LEN
      /\ a <= READER_MAX_ROOT_AUTH_AUTHENTICATOR_VALUE_LEN.
Proof.
  unfold validate_root_auth_variable_lengths. split.
  - intros Hv. bind_inv Hv. apply reject_if_Ok in Hv. lia.
  - intros [? ?]. by run.
Qed.

Lemma root_auth_footer_length_eq s a :
  0 <= s <= READER_MAX_ROOT_AUTH_SIGNER_IDENTITY_LEN ->
  0 <= a <= READER_MAX_ROOT_AUTH_AUTHENTICATOR_VALUE_LEN ->
  root_auth_footer_length s a = Ok (322 + s + a).
Proof.
  unfold_consts. intros Hs Ha. unfold root_auth_footer_length. unfold_consts.
  rewrite (proj2 (checked_add3_Some 318 s a _ (proj1 Ha))) by (split; [lia|reflexivity]).
  rewrite checked_add_eq by lia. run. rewrite (proj2 (try_from_Some 32 _ (322 + s + a))); [done|].
  unfold fits. lia.
Qed.

Lemma ROOT_AUTH_SPEC_ID_blen : blen ROOT_AUTH_SPEC_ID_V45 = 24.
Proof. done. Qed.

(** The bytes the writer makes of a supported footer. *)
Definition footer_bytes (h : RootAuthFooterV1) : bytes :=
  let s := blen (ra_signer_identity_bytes h) in
  let a := blen (ra_authenticator_value h) in
  put_crc (puts (zeros (322 + s + a))
    [write_bytes 0 TZRA_MAGIC;
     write_u16 4 1;
     write_bytes 6 ROOT_AUTH_SPEC_ID_V45;
     write_u32 30 (322 + s + a);
     write_u32 34 0;
     write_bytes 38 (ra_archive_uuid h);
     write_bytes 54 (ra_session_id h);
     write_u16 70 (ra_format_version h);
     write_u16 72 (ra_volume_format_rev h);
     write_u16 74 (ra_authenticator_id h);
     write_u16 76 (ra_signer_identity_type h);
     write_u32 78 s;
     write_u32 82 a;
     write_u64 86 (ra_total_data_block_count h);
     write_bytes 94 (ra_critical_metadata_digest h);
     write_bytes 126 (ra_index_digest h);
     write_bytes 158 (ra_fec_layout_digest h);
     write_bytes 190 (ra_data_block_merkle_root h);
     write_bytes 222 (ra_signer_identity_digest h);
     write_bytes 254 (ra_archive_root h);
     write_bytes 318 (ra_signer_identity_bytes h);
     write_bytes (318 + s) (ra_authenticator_value h)]) (318 + s + a).

Lemma RootAuthFooterV1_to_bytes_eq h :
  RootAuthFooterV1_supported h -> RootAuthFooterV1_to_bytes h = Ok (footer_bytes h).
Proof.
  intros (Hf & Hr & Hsl & Hal). unfold RootAuthFooterV1_to_bytes, footer_bytes, RootAuthFooterV1_footer_length.
  pose proof (blen_nonneg (ra_signer_identity_bytes h)) as Hs0.
  pose proof (blen_nonneg (ra_authenticator_value h)) as Ha0.
  rewrite (proj2 (validate_root_auth_variable_lengths_Ok _ _)) by done.
  rewrite bind_ret, root_auth_footer_length_eq by done. rewrite bind_ret.
  rewrite (proj2 (root_auth_spec_id_for_revision_Ok _ _ ROOT_AUTH_SPEC_ID_V45)) by done.
  rewrite bind_ret. unfold_consts.
  rewrite (ok_or_eq (try_from 32 (blen (ra_signer_identity_bytes h))) (blen (ra_signer_identity_bytes h)))
    by (apply try_from_Some; unfold fits; lia).
  rewrite bind_ret.
  rewrite (ok_or_eq (try_from 32 (blen (ra_authenticator_value h))) (blen (ra_authenticator_value h)))
    by (apply try_from_Some; unfold fits; lia).
  done.
Qed.

(** The fields as segments of the footer. *)
Lemma footer_segments h b :
  RootAuthFooterV1_typed h -> RootAuthFooterV1_supported h ->
  let s := blen (ra_signer_identity_bytes h) in
  let a := blen (ra_authenticator_value h) in
  RootAuthFooterV1_to_bytes h = Ok b
  <-> blen b = 322 + s + a /\ seg b 0 4 = TZRA_MAGIC /\ seg b 4 6 = le_bytes 2 1
      /\ seg b 6 30 = ROOT_AUTH_SPEC_ID_V45 /\ seg b 30 34 = le_bytes 4 (322 + s + a)
      /\ seg b 34 38 = le_bytes 4 0
      /\ seg b 38 54 = ra_archive_uuid h /\ seg b 54 70 = ra_session_id h
      /\ seg b 70 72 = le_bytes 2 (ra_format_version h)
      /\ seg b 72 74 = le_bytes 2 (ra_volume_format_rev h)
      /\ seg b 74 76 = le_bytes 2 (ra_authenticator_id h)
      /\ seg b 76 78 = le_bytes 2 (ra_signer_identity_type h)
      /\ seg b 78 82 = le_bytes 4 s /\ seg b 82 86 = le_bytes 4 a
      /\ seg b 86 94 = le_bytes 8 (ra_total_data_block_count h)
      /\ seg b 94 126 = ra_critical_metadata_digest h /\ seg b 126 158 = ra_index_digest h
      /\ seg b 158 190 = ra_fec_layout_digest h /\ seg b 190 222 = ra_data_block_merkle_root h
      /\ seg b 222 254 = ra_signer_identity_digest h /\ seg b 254 286 = ra_archive_root h
      /\ seg b 286 318 = zeros 32 /\ seg b 318 (318 + s) = ra_signer_identity_bytes h
      /\ seg b (318 + s) (318 + s + a) = ra_authenticator_value h
      /\ seg b (318 + s + a) (318 + s + a + 4) = le_bytes 4 (crc32c (seg b 0 (318 + s + a))).
Proof.
  intros HT HS s a. rewrite RootAuthFooterV1_to_bytes_eq by done. unfold footer_bytes. cbv zeta.
  assert (forall x y : bytes, (Ok x : fresult bytes) = Ok y <-> x = y) as -> by naive_solver.
  destruct HS as (Hf & Hr & Hsl & Hal). unfold RootAuthFooterV1_typed in HT. destruct_and!.
  pose proof (blen_nonneg (ra_signer_identity_bytes h)) as Hs0.
  pose proof (blen_nonneg (ra_authenticator_value h)) as Ha0. fold s a.
  pose proof ROOT_AUTH_SPEC_ID_blen as Hspec.
  assert (blen (ra_signer_identity_bytes h) = s) as Hbs by done.
  assert (blen (ra_authenticator_value h) = a) as Hba by done. clearbody s a.
  rewrite put_crc_iff; [|lia|layout; lia]. layout.
  replace (322 + s + a) with (318 + s + a + 4) by lia. rewrite !seg_nil, !Z.sub_diag.
  split; intros K; destruct_and!; split_and!; done.
Qed.

Lemma RootAuthFooterV1_to_bytes_supported h b :
  RootAuthFooterV1_to_bytes h = Ok b -> RootAuthFooterV1_supported h.
Proof.
  unfold RootAuthFooterV1_to_bytes, RootAuthFooterV1_supported. intros Hw. bind_inv Hw.
  destruct r. apply validate_root_auth_variable_lengths_Ok in Hr.
  apply root_auth_spec_id_for_revision_Ok in Hr1. tauto.
Qed.

Lemma RootAuthFooterV1_parse_sound b h :
  RootAuthFooterV1_parse b = Ok h ->
  RootAuthFooterV1_typed h /\ RootAuthFooterV1_supported h
  /\ ra_footer_crc32c h = crc32c (seg b 0 (blen b - 4)) /\ RootAuthFooterV1_to_bytes h = Ok b.
Proof.
  unfold RootAuthFooterV1_parse. intros Hp. bind_inv Hp. subst h.
  apply root_auth_spec_id_for_revision_Ok in Hr13 as (Hf & Hrev & ->).
  apply negb_false_iff, bytes_eqb_eq in Hr14. destruct r17.
  apply validate_root_auth_variable_lengths_Ok in Hr17 as [Hsl Hal].
  apply read_u32_range in Hr15 as Hpos15. apply read_u32_range in Hr16 as Hpos16.
  rewrite root_auth_footer_length_eq in Hr18 by lia. injection Hr18 as <-.
  unfold_consts. wire_facts. wire_eqs.
  assert (blen b - 4 = 318 + r15 + r16) as Hend by lia.
  replace (blen b - 4 + 4) with (318 + r15 + r16 + 4) in * by lia.
  rewrite Hend in *. same_reads.
  assert (blen (seg b 318 (318 + r15)) = r15) as Hsb by (rewrite blen_seg; lia).
  assert (blen (seg b (318 + r15) (318 + r15 + r16)) = r16) as Hab by (rewrite blen_seg; lia).
  set (h := Build_RootAuthFooterV1 _ _ _ _ _ _ _ _ _ _ _ _ _ _ _ _).
  assert (RootAuthFooterV1_typed h) as HT.
  { unfold RootAuthFooterV1_typed, h. cbn. layout. split_and!; done. }
  assert (RootAuthFooterV1_supported h) as HS.
  { unfold RootAuthFooterV1_supported, h. unfold_consts. cbn. rewrite Hsb, Hab. done. }
  split_and!; [done|done|done|].
  apply footer_segments; [done..|]. cbn. rewrite Hsb, Hab.
  replace (322 + r15 + r16) with (blen b) by lia. split_and!; first [done|lia|congruence].
Qed.

Lemma RootAuthFooterV1_parse_complete b h :
  RootAuthFooterV1_typed h -> RootAuthFooterV1_supported h ->
  ra_footer_crc32c h = crc32c (seg b 0 (blen b - 4)) -> RootAuthFooterV1_to_bytes h = Ok b ->
  RootAuthFooterV1_parse b = Ok h.
Proof.
  intros HT HS Hc Hb. apply footer_segments in Hb; [|done..].
  unfold RootAuthFooterV1_typed, RootAuthFooterV1_supported in *. destruct h as
    [uuid session fv rev aid sty signer auth cnt cmd idx fec mer sid root crc]. cbn in *.
  destruct_and!. subst fv rev.
  pose proof (blen_nonneg signer). pose proof (blen_nonneg auth).
  remember (blen signer) as s eqn:Es. remember (blen auth) as a eqn:Ea.
  unfold RootAuthFooterV1_parse. unfold_consts. cbv zeta.
  assert (blen b - 4 = 318 + s + a) as Hend by lia. rewrite Hend in *.
  assert (read_u32 b (318 + s + a) = Ok crc) as Hread.
  { subst crc. apply read_u32_Ok; [lia|]. split_and!; [lia|apply crc32c_u32|done]. }
  rewrite !Hread.
  assert (root_auth_spec_id_for_revision 1 45 = Ok ROOT_AUTH_SPEC_ID_V45) as Hspec by done.
  assert (negb (bytes_eqb (seg b 6 30) ROOT_AUTH_SPEC_ID_V45) = false) as Hid
    by (apply negb_false_iff; by apply bytes_eqb_eq).
  assert (validate_root_auth_variable_lengths s a = Ok tt) as Hval
    by (apply validate_root_auth_variable_lengths_Ok; done).
  assert (root_auth_footer_length s a = Ok (322 + s + a)) as Hlen
    by (apply root_auth_footer_length_eq; unfold_consts; lia).
  assert (u16 1) by (unfold fits; lia). assert (u32 0) by (unfold fits; lia).
  assert (u32 s) by (unfold fits; lia). assert (u32 a) by (unfold fits; lia).
  assert (u32 (322 + s + a)) by (unfold fits; lia).
  wire_run. f_equal.
  by repeat match goal with K : seg b ?i ?j = _ |- context [seg b ?i ?j] => rewrite K end.
Qed.

Lemma RootAuthFooterV1_parse_no_panic b : RootAuthFooterV1_parse b <> Panic.
Proof.
  unfold RootAuthFooterV1_parse. unfold_consts.
  assert (forall f r, root_auth_spec_id_for_revision f r <> Panic) as Hspec.
  { intros f r. unfold root_auth_spec_id_for_revision. no_panic. }
  assert (forall s a, validate_root_auth_variable_lengths s a <> Panic) as Hval.
  { intros s a. unfold validate_root_auth_variable_lengths. no_panic. }
  assert (forall s a, root_auth_footer_length s a <> Panic) as Hlen.
  { intros s a. unfold root_auth_footer_length. no_panic. }
  no_panic; try done;
    match goal with
    | Hv : validate_root_auth_variable_lengths _ _ = Ok ?u, Hl : root_auth_footer_length _ _ = Ok _ |- _ =>
        destruct u; apply validate_root_auth_variable_lengths_Ok in Hv;
        rewrite root_auth_footer_length_eq in Hl by lia; injection Hl as <-
    end; apply slice_no_panic; lia.
Qed.

(** The root-authentication footer.  The parser accepts exactly the strings
    that [to_bytes] makes of a typed footer of the supported version and
    revision, with a signer identity and an authenticator value within the
    reader's caps and the checksum of all bytes but the last four; it returns
    that footer and never panics.  [to_bytes] succeeds on exactly those
    footers. *)
Theorem root_auth_footer_codec b h :
  (RootAuthFooterV1_parse b = Ok h
   <-> RootAuthFooterV1_typed h /\ ra_footer_crc32c h = crc32c (seg b 0 (blen b - 4))
       /\ RootAuthFooterV1_to_bytes h = Ok b)
  /\ (RootAuthFooterV1_supported h <-> exists b', RootAuthFooterV1_to_bytes h = Ok b')
  /\ RootAuthFooterV1_parse b <> Panic.
Proof.
  split_and!; [split|split|apply RootAuthFooterV1_parse_no_panic].
  - intros (HT & _ & Hc & Hb)%RootAuthFooterV1_parse_sound. done.
  - intros (HT & Hc & Hb). apply RootAuthFooterV1_parse_complete; try done.
    by apply RootAuthFooterV1_to_bytes_supported in Hb.
  - intros HS. by eexists; apply RootAuthFooterV1_to_bytes_eq.
  - intros [b' Hb]. by apply RootAuthFooterV1_to_bytes_supported in Hb.
Qed.
End RootAuthFooterV1.
