(* ===== verification/RootAuth.v ===== *)
(** * Root authentication: the digests under an archive root

    [crates/tzap-core/src/root_auth.rs].  Everything a signer vouches for is
    hashed into one 32-byte archive root: the critical metadata, the index, the
    erasure-code layout and a Merkle tree over all data blocks. *)

From S2P Require Import Wire.
#[local] Open Scope Z_scope.

(** A domain string of the code ends in a zero byte. *)
Definition domain_string (s : string) : bytes := String.list_byte_of_string s ++ zeros 1.

Definition ROOT_AUTH_DESCRIPTOR_DOMAIN : bytes := domain_string "tzap-root-auth-descriptor-v1".
Definition ARCHIVE_ROOT_DOMAIN_V45 : bytes := domain_string "tzap-archive-root-v45".
Definition CRYPTO_HEADER_PRE_HMAC_DOMAIN_V45 : bytes :=
  domain_string "tzap-crypto-header-pre-hmac-v45".
Definition MANIFEST_FOOTER_GLOBAL_PRE_HMAC_DOMAIN_V45 : bytes :=
  domain_string "tzap-manifest-footer-global-pre-hmac-v45".
Definition CRITICAL_METADATA_DOMAIN_V45 : bytes := domain_string "tzap-critical-metadata-v45".
Definition INDEX_ROOT_DOMAIN_V45 : bytes := domain_string "tzap-index-root-v45".
Definition FEC_LAYOUT_DOMAIN_V45 : bytes := domain_string "tzap-fec-layout-v45".
Definition DATA_BLOCK_MERKLE_DOMAIN_V45 : bytes := domain_string "tzap-data-block-merkle-v45".
Definition EMPTY_MERKLE_DOMAIN : bytes := domain_string "tzap-empty-merkle-tree-v1".
Definition SIGNER_IDENTITY_DOMAIN : bytes := domain_string "tzap-signer-identity-v1".

Record FecLayoutObjectRow : Type := {
  fl_object_class : Z;
  fl_present : bool;
  fl_object_id : Z;
  fl_first_block_index : Z;
  fl_data_block_count : Z;
  fl_parity_block_count : Z;
  fl_encrypted_size : Z;
  fl_plain_size : Z
}.

Record DataBlockMerkleLeaf : Type := {
  ml_block_index : Z;
  ml_kind : BlockKind.t;
  ml_flags : Z;
  ml_payload : bytes
}.

Record CriticalMetadataDigestInputs : Type := {
  cm_archive_uuid : bytes;
  cm_session_id : bytes;
  cm_format_version : Z;
  cm_volume_format_rev : Z;
  cm_stripe_width : Z;
  cm_total_volumes : Z;
  cm_compression_algo : CompressionAlgo.t;
  cm_aead_algo : AeadAlgo.t;
  cm_fec_algo : FecAlgo.t;
  cm_kdf_algo : KdfAlgo.t;
  cm_crypto_header_pre_hmac_bytes : bytes;
  cm_chunk_size : Z;
  cm_envelope_target_size : Z;
  cm_block_size : Z;
  cm_fec_data_shards : Z;
  cm_fec_parity_shards : Z;
  cm_index_fec_data_shards : Z;
  cm_index_fec_parity_shards : Z;
  cm_index_root_fec_data_shards : Z;
  cm_index_root_fec_parity_shards : Z;
  cm_volume_loss_tolerance : Z;
  cm_bit_rot_buffer_pct : Z;
  cm_has_dictionary : Z;
  cm_manifest_footer_global_pre_hmac_bytes : bytes;
  cm_index_root_first_block : Z;
  cm_index_root_data_block_count : Z;
  cm_index_root_parity_block_count : Z;
  cm_index_root_encrypted_size : Z;
  cm_index_root_decompressed_size : Z;
  cm_root_auth_descriptor_digest : bytes
}.

Record ArchiveRootInputs : Type := {
  ar_archive_uuid : bytes;
  ar_session_id : bytes;
  ar_format_version : Z;
  ar_volume_format_rev : Z;
  ar_compression_algo : CompressionAlgo.t;
  ar_aead_algo : AeadAlgo.t;
  ar_fec_algo : FecAlgo.t;
  ar_kdf_algo : KdfAlgo.t;
  ar_critical_metadata_digest : bytes;
  ar_index_digest : bytes;
  ar_fec_layout_digest : bytes;
  ar_total_data_block_count : Z;
  ar_data_block_merkle_root : bytes;
  ar_root_auth_descriptor_digest : bytes;
  ar_signer_identity_digest : bytes
}.

Record RootAuthRevisionParams : Type := {
  rp_root_auth_spec_id : bytes;
  rp_archive_root_domain : bytes;
  rp_crypto_header_pre_hmac_domain : bytes;
  rp_manifest_footer_global_pre_hmac_domain : bytes;
  rp_critical_metadata_domain : bytes;
  rp_index_root_domain : bytes;
  rp_fec_layout_domain : bytes;
  rp_data_block_merkle_domain : bytes
}.

Definition root_auth_revision_params (format_version volume_format_rev : Z)
    : fresult RootAuthRevisionParams :=
  root_auth_spec_id ← root_auth_spec_id_for_revision format_version volume_format_rev;
  reject_if (negb (volume_format_rev =? VOLUME_FORMAT_REV_45))
    (UnsupportedVolumeFormatRevision format_version volume_format_rev VOLUME_FORMAT_REV_45);;
  mret {| rp_root_auth_spec_id := root_auth_spec_id;
          rp_archive_root_domain := ARCHIVE_ROOT_DOMAIN_V45;
          rp_crypto_header_pre_hmac_domain := CRYPTO_HEADER_PRE_HMAC_DOMAIN_V45;
          rp_manifest_footer_global_pre_hmac_domain := MANIFEST_FOOTER_GLOBAL_PRE_HMAC_DOMAIN_V45;
          rp_critical_metadata_domain := CRITICAL_METADATA_DOMAIN_V45;
          rp_index_root_domain := INDEX_ROOT_DOMAIN_V45;
          rp_fec_layout_domain := FEC_LAYOUT_DOMAIN_V45;
          rp_data_block_merkle_domain := DATA_BLOCK_MERKLE_DOMAIN_V45 |}.

Section RootAuth.
Context {Sha : Sha256}.

(** ** Digests of flat records *)
Definition root_auth_length (b : bytes) (e : string) : fresult Z :=
  ok_or (try_from 32 (blen b)) (InvalidArchive e).

Definition root_auth_descriptor_digest_for_revision
    (format_version volume_format_rev authenticator_id signer_identity_type : Z)
    (signer_identity_bytes : bytes) (authenticator_value_length footer_length : Z) : fresult bytes :=
  params ← root_auth_revision_params format_version volume_format_rev;
  signer_identity_length ←
    root_auth_length signer_identity_bytes "root-auth signer identity length overflow";
  let signer_identity_hash := sha256 signer_identity_bytes in
  mret (sha256 (ROOT_AUTH_DESCRIPTOR_DOMAIN ++ rp_root_auth_spec_id params
                  ++ le_bytes 2 authenticator_id ++ le_bytes 2 signer_identity_type
                  ++ le_bytes 4 signer_identity_length ++ signer_identity_hash
                  ++ le_bytes 4 authenticator_value_length ++ le_bytes 4 footer_length)).

Definition root_auth_descriptor_digest (authenticator_id signer_identity_type : Z)
    (signer_identity_bytes : bytes) (authenticator_value_length footer_length : Z) : fresult bytes :=
  root_auth_descriptor_digest_for_revision FORMAT_VERSION VOLUME_FORMAT_REV authenticator_id
    signer_identity_type signer_identity_bytes authenticator_value_length footer_length.

Definition signer_identity_string (signer_identity_type signer_identity_length : Z)
    (signer_identity_bytes : bytes) : bytes :=
  SIGNER_IDENTITY_DOMAIN ++ le_bytes 2 signer_identity_type ++ le_bytes 4 signer_identity_length
  ++ signer_identity_bytes.

Definition signer_identity_digest (signer_identity_type : Z) (signer_identity_bytes : bytes)
    : fresult bytes :=
  signer_identity_length ←
    root_auth_length signer_identity_bytes "root-auth signer identity length overflow";
  mret (sha256 (signer_identity_string signer_identity_type signer_identity_length
                  signer_identity_bytes)).

Definition len_prefixed_string (domain : bytes) (length : Z) (payload : bytes) : bytes :=
  domain ++ le_bytes 4 length ++ payload.

Definition len_prefixed_digest (domain payload : bytes) : fresult bytes :=
  length ← root_auth_length payload "root-auth digest input length overflow";
  mret (sha256 (len_prefixed_string domain length payload)).

(** The bytes of [critical_metadata_digest], given the two inner digests. *)
Definition critical_metadata_string (params : RootAuthRevisionParams)
    (crypto_header_pre_hmac_digest manifest_footer_global_pre_hmac_digest : bytes)
    (inputs : CriticalMetadataDigestInputs) : bytes :=
  rp_critical_metadata_domain params
    ++ cm_archive_uuid inputs ++ cm_session_id inputs
    ++ le_bytes 2 (cm_format_version inputs) ++ le_bytes 2 (cm_volume_format_rev inputs)
    ++ le_bytes 4 (cm_stripe_width inputs) ++ le_bytes 4 (cm_total_volumes inputs)
    ++ le_bytes 2 (CompressionAlgo.to_Z (cm_compression_algo inputs))
    ++ le_bytes 2 (AeadAlgo.to_Z (cm_aead_algo inputs))
    ++ le_bytes 2 (FecAlgo.to_Z (cm_fec_algo inputs))
    ++ le_bytes 2 (KdfAlgo.to_Z (cm_kdf_algo inputs))
    ++ crypto_header_pre_hmac_digest
    ++ le_bytes 4 (cm_chunk_size inputs) ++ le_bytes 4 (cm_envelope_target_size inputs)
    ++ le_bytes 4 (cm_block_size inputs)
    ++ le_bytes 2 (cm_fec_data_shards inputs) ++ le_bytes 2 (cm_fec_parity_shards inputs)
    ++ le_bytes 2 (cm_index_fec_data_shards inputs) ++ le_bytes 2 (cm_index_fec_parity_shards inputs)
    ++ le_bytes 2 (cm_index_root_fec_data_shards inputs)
    ++ le_bytes 2 (cm_index_root_fec_parity_shards inputs)
    ++ le_bytes 1 (cm_volume_loss_tolerance inputs) ++ le_bytes 1 (cm_bit_rot_buffer_pct inputs)
    ++ le_bytes 1 (cm_has_dictionary inputs)
    ++ manifest_footer_global_pre_hmac_digest
    ++ le_bytes 8 (cm_index_root_first_block inputs)
    ++ le_bytes 4 (cm_index_root_data_block_count inputs)
    ++ le_bytes 4 (cm_index_root_parity_block_count inputs)
    ++ le_bytes 4 (cm_index_root_encrypted_size inputs)
    ++ le_bytes 4 (cm_index_root_decompressed_size inputs)
    ++ cm_root_auth_descriptor_digest inputs.

Definition critical_metadata_digest (inputs : CriticalMetadataDigestInputs) : fresult bytes :=
  params ← root_auth_revision_params (cm_format_version inputs) (cm_volume_format_rev inputs);
  crypto_header_pre_hmac_digest ← len_prefixed_digest (rp_crypto_header_pre_hmac_domain params)
    (cm_crypto_header_pre_hmac_bytes inputs);
  manifest_footer_global_pre_hmac_digest ←
    len_prefixed_digest (rp_manifest_footer_global_pre_hmac_domain params)
      (cm_manifest_footer_global_pre_hmac_bytes inputs);
  mret (sha256 (critical_metadata_string params crypto_header_pre_hmac_digest
                  manifest_footer_global_pre_hmac_digest inputs)).

Definition index_digest_for_revision (format_version volume_format_rev : Z)
    (index_root_plaintext : bytes) : fresult bytes :=
  params ← root_auth_revision_params format_version volume_format_rev;
  mret (sha256 (rp_index_root_domain params ++ index_root_plaintext)).

Definition index_digest (index_root_plaintext : bytes) : fresult bytes :=
  expect_ok (index_digest_for_revision FORMAT_VERSION VOLUME_FORMAT_REV index_root_plaintext).

Definition fec_row_bytes (row : FecLayoutObjectRow) : bytes :=
  le_bytes 1 (fl_object_class row) ++ le_bytes 1 (if fl_present row then 1 else 0) ++ le_bytes 2 0
  ++ le_bytes 8 (fl_object_id row) ++ le_bytes 8 (fl_first_block_index row)
  ++ le_bytes 4 (fl_data_block_count row) ++ le_bytes 4 (fl_parity_block_count row)
  ++ le_bytes 4 (fl_encrypted_size row) ++ le_bytes 4 (fl_plain_size row).

(** The loop over the rows appends to the domain and the row count. *)
Definition fec_layout_string (params : RootAuthRevisionParams) (row_count : Z)
    (rows : list FecLayoutObjectRow) : bytes :=
  fold_left (fun b row => b ++ fec_row_bytes row) rows
    (rp_fec_layout_domain params ++ le_bytes 4 row_count).

Definition fec_layout_digest_for_revision (format_version volume_format_rev : Z)
    (rows : list FecLayoutObjectRow) : fresult bytes :=
  params ← root_auth_revision_params format_version volume_format_rev;
  row_count ← ok_or (try_from 32 (Z.of_nat (length rows)))
    (InvalidArchive "root-auth FEC row count overflow");
  mret (sha256 (fec_layout_string params row_count rows)).

Definition fec_layout_digest (rows : list FecLayoutObjectRow) : fresult bytes :=
  fec_layout_digest_for_revision FORMAT_VERSION VOLUME_FORMAT_REV rows.

Definition archive_root_string (params : RootAuthRevisionParams) (inputs : ArchiveRootInputs) : bytes :=
  rp_archive_root_domain params ++ rp_root_auth_spec_id params
    ++ ar_archive_uuid inputs ++ ar_session_id inputs
    ++ le_bytes 2 (ar_format_version inputs) ++ le_bytes 2 (ar_volume_format_rev inputs)
    ++ le_bytes 2 (CompressionAlgo.to_Z (ar_compression_algo inputs))
    ++ le_bytes 2 (AeadAlgo.to_Z (ar_aead_algo inputs))
    ++ le_bytes 2 (FecAlgo.to_Z (ar_fec_algo inputs))
    ++ le_bytes 2 (KdfAlgo.to_Z (ar_kdf_algo inputs))
    ++ ar_critical_metadata_digest inputs ++ ar_index_digest inputs
    ++ ar_fec_layout_digest inputs ++ le_bytes 8 (ar_total_data_block_count inputs)
    ++ ar_data_block_merkle_root inputs ++ ar_root_auth_descriptor_digest inputs
    ++ ar_signer_identity_digest inputs.

Definition archive_root_for_revision (inputs : ArchiveRootInputs) : fresult bytes :=
  params ← root_auth_revision_params (ar_format_version inputs) (ar_volume_format_rev inputs);
  mret (sha256 (archive_root_string params inputs)).

Definition archive_root (inputs : ArchiveRootInputs) : fresult bytes :=
  expect_ok (archive_root_for_revision inputs).

(** ** The Merkle tree over the data blocks *)
Definition leaf_string (params : RootAuthRevisionParams) (leaf : DataBlockMerkleLeaf) : bytes :=
  le_bytes 1 0 ++ rp_data_block_merkle_domain params ++ le_bytes 8 (ml_block_index leaf)
  ++ le_bytes 1 (BlockKind.to_Z (ml_kind leaf)) ++ le_bytes 1 (ml_flags leaf) ++ ml_payload leaf.

Definition data_block_merkle_leaf_hash_with_params (params : RootAuthRevisionParams)
    (leaf : DataBlockMerkleLeaf) : bytes :=
  sha256 (leaf_string params leaf).

Definition node_string (params : RootAuthRevisionParams) (l r : bytes) : bytes :=
  le_bytes 1 1 ++ rp_data_block_merkle_domain params ++ l ++ r.

(** The inner loop: hash neighbours together, promote an odd last entry. *)
Fixpoint merkle_next_level (params : RootAuthRevisionParams) (level : list bytes) : list bytes :=
  match level with
  | l :: r :: level => sha256 (node_string params l r) :: merkle_next_level params level
  | level => level
  end.

(** The outer loop, [while level.len() > 1], then [level[0]]; every round
    shortens the level, so its length is fuel enough. *)
Fixpoint merkle_loop (fuel : nat) (params : RootAuthRevisionParams) (level : list bytes)
    : fresult bytes :=
  match fuel with
  | O => Panic
  | S fuel =>
      match level with
      | [] => Panic
      | [h] => Ok h
      | level => merkle_loop fuel params (merkle_next_level params level)
      end
  end.

Definition empty_string_hashed (params : RootAuthRevisionParams) : bytes :=
  EMPTY_MERKLE_DOMAIN ++ rp_data_block_merkle_domain params.

Definition empty_data_block_merkle_root (params : RootAuthRevisionParams) : bytes :=
  sha256 (empty_string_hashed params).

Definition data_block_merkle_root_from_leaf_hashes_with_params (params : RootAuthRevisionParams)
    (leaf_hashes : list bytes) : fresult bytes :=
  match leaf_hashes with
  | [] => Ok (empty_data_block_merkle_root params)
  | _ => merkle_loop (length leaf_hashes) params leaf_hashes
  end.

Definition data_block_merkle_root_from_leaf_hashes_for_revision
    (format_version volume_format_rev : Z) (leaf_hashes : list bytes) : fresult bytes :=
  params ← root_auth_revision_params format_version volume_format_rev;
  data_block_merkle_root_from_leaf_hashes_with_params params leaf_hashes.

Definition data_block_merkle_root_from_leaf_hashes (leaf_hashes : list bytes) : fresult bytes :=
  expect_ok (data_block_merkle_root_from_leaf_hashes_for_revision FORMAT_VERSION VOLUME_FORMAT_REV
    leaf_hashes).

Definition data_block_merkle_leaf_hash_for_revision (format_version volume_format_rev : Z)
    (leaf : DataBlockMerkleLeaf) : fresult bytes :=
  params ← root_auth_revision_params format_version volume_format_rev;
  mret (data_block_merkle_leaf_hash_with_params params leaf).

Definition data_block_merkle_leaf_hash (leaf : DataBlockMerkleLeaf) : fresult bytes :=
  expect_ok (data_block_merkle_leaf_hash_for_revision FORMAT_VERSION VOLUME_FORMAT_REV leaf).

Definition data_block_merkle_root_for_revision (format_version volume_format_rev : Z)
    (leaves : list DataBlockMerkleLeaf) : fresult bytes :=
  params ← root_auth_revision_params format_version volume_format_rev;
  match leaves with
  | [] => Ok (empty_data_block_merkle_root params)
  | _ =>
      let leaf_hashes := map (data_block_merkle_leaf_hash_with_params params) leaves in
      data_block_merkle_root_from_leaf_hashes_with_params params leaf_hashes
  end.

Definition data_block_merkle_root (leaves : list DataBlockMerkleLeaf) : fresult bytes :=
  expect_ok (data_block_merkle_root_for_revision FORMAT_VERSION VOLUME_FORMAT_REV leaves).

(** ** The tree under a Merkle root

    The loops hash a binary tree whose leaves are the blocks in order. *)
Inductive mtree : Type :=
  | MLeaf (l : DataBlockMerkleLeaf)
  | MNode (l r : mtree).

Section Trees.
Context (params : RootAuthRevisionParams).

Fixpoint tree_hash (t : mtree) : bytes :=
  match t with
  | MLeaf l => data_block_merkle_leaf_hash_with_params params l
  | MNode l r => sha256 (node_string params (tree_hash l) (tree_hash r))
  end.

Fixpoint tree_leaves (t : mtree) : list DataBlockMerkleLeaf :=
  match t with
  | MLeaf l => [l]
  | MNode l r => tree_leaves l ++ tree_leaves r
  end.

(** The strings that are hashed to compute the tree's hash. *)
Fixpoint tree_strings (t : mtree) : list bytes :=
  match t with
  | MLeaf l => [leaf_string params l]
  | MNode l r => node_string params (tree_hash l) (tree_hash r) :: tree_strings l ++ tree_strings r
  end.

Fixpoint pair_trees (ts : list mtree) : list mtree :=
  match ts with
  | l :: r :: ts => MNode l r :: pair_trees ts
  | ts => ts
  end.

Fixpoint root_tree (fuel : nat) (ts : list mtree) : option mtree :=
  match fuel with
  | O => None
  | S fuel =>
      match ts with
      | [] => None
      | [t] => Some t
      | ts => root_tree fuel (pair_trees ts)
      end
  end.

Lemma list_pair_ind {A} (P : list A -> Prop) :
  P [] -> (forall x, P [x]) -> (forall x y l, P l -> P (x :: y :: l)) -> forall l, P l.
Proof.
  intros H0 H1 H2 l. enough (P l /\ forall x, P (x :: l)) by tauto.
  induction l as [|y l [IH1 IH2]]; [auto|]. split; [apply IH2|]. intros x. apply H2, IH1.
Qed.

Lemma pair_trees_hash ts : map tree_hash (pair_trees ts) = merkle_next_level params (map tree_hash ts).
Proof.
  induction ts as [|x|x y ts IH] using list_pair_ind; [done|done|]. cbn. by rewrite IH.
Qed.

Lemma pair_trees_leaves ts :
  concat (map tree_leaves (pair_trees ts)) = concat (map tree_leaves ts).
Proof.
  induction ts as [|x|x y ts IH] using list_pair_ind; [done|done|]. cbn. by rewrite IH, app_assoc.
Qed.

Lemma pair_trees_length ts :
  (2 <= length ts)%nat -> (1 <= length (pair_trees ts) < length ts)%nat.
Proof.
  assert (forall us : list mtree, (length (pair_trees us) <= length us)%nat) as Hle.
  { intros us. induction us as [|x|x y us IH] using list_pair_ind; cbn; lia. }
  destruct ts as [|x [|y ts]]; cbn; [lia..|]. specialize (Hle ts). lia.
Qed.

(** Enough fuel gives the tree, and the code's loop gives its hash. *)
Lemma merkle_loop_tree fuel ts :
  (1 <= length ts <= fuel)%nat ->
  exists t, root_tree fuel ts = Some t /\ merkle_loop fuel params (map tree_hash ts) = Ok (tree_hash t)
    /\ tree_leaves t = concat (map tree_leaves ts).
Proof.
  revert ts. induction fuel as [|fuel IH]; intros ts Hts; [lia|].
  destruct ts as [|x [|y ts]]; cbn [length] in *; [lia| |].
  - exists x. cbn. by rewrite app_nil_r.
  - destruct (IH (pair_trees (x :: y :: ts))) as (t & H1 & H2 & H3).
    { pose proof (pair_trees_length (x :: y :: ts) ltac:(cbn; lia)) as Hp.
      cbn [length] in Hp. lia. }
    exists t. split_and!.
    + exact H1.
    + rewrite pair_trees_hash in H2. exact H2.
    + rewrite H3. apply pair_trees_leaves.
Qed.

Lemma leaves_of_singletons leaves : concat (map tree_leaves (map MLeaf leaves)) = leaves.
Proof. induction leaves as [|l leaves IH]; [done|]. cbn. by rewrite IH. Qed.

Definition merkle_tree (leaves : list DataBlockMerkleLeaf) : option mtree :=
  root_tree (length leaves) (map MLeaf leaves).

(** The strings that are hashed to compute the Merkle root. *)
Definition merkle_strings (leaves : list DataBlockMerkleLeaf) : list bytes :=
  match merkle_tree leaves with
  | Some t => tree_strings t
  | None => [empty_string_hashed params]
  end.

Lemma merkle_root_tree leaves :
  match leaves with
  | [] => Ok (empty_data_block_merkle_root params)
  | _ =>
      data_block_merkle_root_from_leaf_hashes_with_params params
        (map (data_block_merkle_leaf_hash_with_params params) leaves)
  end
  = Ok (match merkle_tree leaves with
        | Some t => tree_hash t
        | None => empty_data_block_merkle_root params
        end)
  /\ (leaves = [] /\ merkle_tree leaves = None
      \/ exists t, merkle_tree leaves = Some t /\ tree_leaves t = leaves).
Proof.
  destruct leaves as [|l leaves]; [by split; [|left]|].
  destruct (merkle_loop_tree (length (l :: leaves)) (map MLeaf (l :: leaves))) as (t & H1 & H2 & H3).
  { rewrite length_map. cbn. lia. }
  unfold merkle_tree. rewrite H1. split.
  - unfold data_block_merkle_root_from_leaf_hashes_with_params. cbn [map].
    rewrite map_map in H2. rewrite <- H2. cbn [length map]. by rewrite length_map.
  - right. exists t. split; [done|]. rewrite H3. apply leaves_of_singletons.
Qed.
End Trees.

(** ** What a digest commits to

    No two different strings of a list have the same digest. *)
Definition no_collision (l : list bytes) : Prop :=
  forall x y, x ∈ l -> y ∈ l -> sha256 x = sha256 y -> x = y.

Lemma no_collision_mono l l' : (forall x, x ∈ l' -> x ∈ l) -> no_collision l -> no_collision l'.
Proof. unfold no_collision. eauto. Qed.

(** The Rust types of a leaf. *)
Definition leaf_typed (l : DataBlockMerkleLeaf) : Prop := u64 (ml_block_index l) /\ u8 (ml_flags l).

Lemma BlockKind_to_Z_inj k k' : BlockKind.to_Z k = BlockKind.to_Z k' -> k = k'.
Proof. by destruct k, k'. Qed.

Lemma le_bytes_app_inj n x y (a b : bytes) :
  fits (8 * Z.of_nat n) x -> fits (8 * Z.of_nat n) y ->
  le_bytes n x ++ a = le_bytes n y ++ b <-> x = y /\ a = b.
Proof.
  intros Hx Hy. rewrite app_inj_blen by (by rewrite !blen_le). split; [|intros [-> ->]; done].
  intros [He ->]. split; [|done]. by apply (le_bytes_inj n) in He.
Qed.

Section Binding.
Context (params : RootAuthRevisionParams).

Lemma leaf_string_inj l l' :
  leaf_typed l -> leaf_typed l' -> leaf_string params l = leaf_string params l' -> l = l'.
Proof.
  intros [Hi Hf] [Hi' Hf'] He. unfold leaf_string in He.
  apply app_inj_blen in He as [_ He]; [|done]. apply app_inj_blen in He as [_ He]; [|done].
  apply le_bytes_app_inj in He as [H1 He]; [|done..].
  apply le_bytes_app_inj in He as [H2 He]; [|apply BlockKind_to_Z_fits..].
  apply le_bytes_app_inj in He as [H3 He]; [|done..]. apply BlockKind_to_Z_inj in H2.
  destruct l, l'. cbn in *. by subst.
Qed.

Lemma node_string_inj l r l' r' :
  blen l = blen l' -> node_string params l r = node_string params l' r' -> l = l' /\ r = r'.
Proof.
  intros Hl He. unfold node_string in He.
  apply app_inj_blen in He as [_ He]; [|done]. apply app_inj_blen in He as [_ He]; [|done].
  by apply app_inj_blen in He.
Qed.

Lemma leaf_not_node l x y : leaf_string params l <> node_string params x y.
Proof.
  intros He. unfold leaf_string, node_string in He. apply le_bytes_app_inj in He as [He _]; [done|unfold fits; lia..].
Qed.

Lemma tree_hash_blen t : blen (tree_hash params t) = 32.
Proof. destruct t; apply sha256_blen. Qed.

Lemma tree_binding t t' :
  Forall leaf_typed (tree_leaves t) -> Forall leaf_typed (tree_leaves t') ->
  no_collision (tree_strings params t ++ tree_strings params t') ->
  tree_hash params t = tree_hash params t' -> t = t'.
Proof.
  revert t'. induction t as [l|a IHa b IHb]; intros t' Ht Ht' Hc He; destruct t' as [l'|a' b'];
    cbn [tree_leaves tree_strings tree_hash] in *.
  - rewrite Forall_singleton in Ht, Ht'. f_equal. apply leaf_string_inj; [done..|].
    apply Hc; [set_solver..|done].
  - exfalso. eapply leaf_not_node. apply Hc; [| |exact He]; set_solver.
  - exfalso. eapply leaf_not_node. symmetry. apply Hc; [| |exact He]; set_solver.
  - apply Forall_app in Ht as [Hta Htb], Ht' as [Hta' Htb'].
    assert (node_string params (tree_hash params a) (tree_hash params b)
            = node_string params (tree_hash params a') (tree_hash params b')) as Hs
      by (apply Hc; [set_solver..|done]).
    apply node_string_inj in Hs as [Ha Hb]; [|by rewrite !tree_hash_blen].
    rewrite (IHa a'), (IHb b'); [done|done|done| |done|done|done| |done];
      (eapply no_collision_mono; [|exact Hc]; set_solver).
Qed.

Lemma tree_strings_not_empty_root t x :
  x ∈ tree_strings params t -> x <> empty_string_hashed params.
Proof.
  assert (forall y, le_bytes 1 0 ++ y <> empty_string_hashed params) as H0 by done.
  assert (forall y, le_bytes 1 1 ++ y <> empty_string_hashed params) as H1 by done.
  induction t as [l|a IHa b IHb]; cbn [tree_strings].
  - intros ->%list_elem_of_singleton. apply H0.
  - intros [-> | [Hx|Hx]%elem_of_app]%elem_of_cons; [apply H1|auto..].
Qed.

(** The root tells the blocks, their order and their number apart. *)
Lemma merkle_binding leaves leaves' :
  Forall leaf_typed leaves -> Forall leaf_typed leaves' ->
  no_collision (merkle_strings params leaves ++ merkle_strings params leaves') ->
  match merkle_tree leaves with
  | Some t => tree_hash params t
  | None => empty_data_block_merkle_root params
  end
  = match merkle_tree leaves' with
    | Some t => tree_hash params t
    | None => empty_data_block_merkle_root params
    end ->
  leaves = leaves'.
Proof.
  intros Hl Hl' Hc He.
  assert (forall t, exists x, x ∈ tree_strings params t /\ sha256 x = tree_hash params t) as Htop.
  { intros [l|a b]; eexists; (split; [cbn; by left|done]). }
  unfold merkle_strings in Hc.
  destruct (merkle_root_tree params leaves) as [_ [[-> E]|(t & E & Et)]],
    (merkle_root_tree params leaves') as [_ [[-> E']|(t' & E' & Et')]]; rewrite ?E, ?E' in Hc, He.
  - done.
  - destruct (Htop t') as (x & Hx & Hs). exfalso. apply (tree_strings_not_empty_root t' x Hx).
    apply Hc; [set_solver..|]. by rewrite Hs.
  - destruct (Htop t) as (x & Hx & Hs). exfalso. apply (tree_strings_not_empty_root t x Hx).
    apply Hc; [set_solver..|]. by rewrite Hs.
  - subst leaves leaves'. f_equal. by apply tree_binding.
Qed.
End Binding.

(** ** The flat records *)
Definition revision_45_params : RootAuthRevisionParams :=
  {| rp_root_auth_spec_id := ROOT_AUTH_SPEC_ID_V45;
     rp_archive_root_domain := ARCHIVE_ROOT_DOMAIN_V45;
     rp_crypto_header_pre_hmac_domain := CRYPTO_HEADER_PRE_HMAC_DOMAIN_V45;
     rp_manifest_footer_global_pre_hmac_domain := MANIFEST_FOOTER_GLOBAL_PRE_HMAC_DOMAIN_V45;
     rp_critical_metadata_domain := CRITICAL_METADATA_DOMAIN_V45;
     rp_index_root_domain := INDEX_ROOT_DOMAIN_V45;
     rp_fec_layout_domain := FEC_LAYOUT_DOMAIN_V45;
     rp_data_block_merkle_domain := DATA_BLOCK_MERKLE_DOMAIN_V45 |}.

Lemma root_auth_revision_params_Ok f r params :
  root_auth_revision_params f r = Ok params
  <-> f = FORMAT_VERSION /\ r = VOLUME_FORMAT_REV_45 /\ params = revision_45_params.
Proof.
  unfold root_auth_revision_params. split.
  - intros H. bind_inv H. by apply root_auth_spec_id_for_revision_Ok in Hr as (-> & -> & ->).
  - by intros (-> & -> & ->).
Qed.

Lemma CompressionAlgo_to_Z_inj k k' : CompressionAlgo.to_Z k = CompressionAlgo.to_Z k' -> k = k'.
Proof. by destruct k, k'. Qed.

Lemma AeadAlgo_to_Z_inj k k' : AeadAlgo.to_Z k = AeadAlgo.to_Z k' -> k = k'.
Proof. by destruct k, k'. Qed.

Lemma FecAlgo_to_Z_inj k k' : FecAlgo.to_Z k = FecAlgo.to_Z k' -> k = k'.
Proof. by destruct k, k'. Qed.

Lemma KdfAlgo_to_Z_inj k k' : KdfAlgo.to_Z k = KdfAlgo.to_Z k' -> k = k'.
Proof. by destruct k, k'. Qed.

(** Takes equal concatenations of fixed-width fields apart. *)
Ltac peel_fits :=
  first [assumption|apply CompressionAlgo_to_Z_fits|apply AeadAlgo_to_Z_fits
        |apply FecAlgo_to_Z_fits|apply KdfAlgo_to_Z_fits].

Ltac peel He :=
  repeat lazymatch type of He with
    | ?x ++ ?a = ?x ++ ?b => apply (app_inv_head x a b) in He
    | le_split ?n ?x ++ ?a = le_split ?n ?y ++ ?b =>
        apply (proj1 (le_bytes_app_inj n x y a b ltac:(peel_fits) ltac:(peel_fits))) in He;
        destruct He as [? He]
    | ?x ++ ?a = ?y ++ ?b =>
        lazymatch goal with
        | Hx : blen x = ?n, Hy : blen y = ?n |- _ =>
            apply (proj1 (app_inj_blen x a y b (eq_trans Hx (eq_sym Hy)))) in He;
            destruct He as [? He]
        end
    end;
  repeat match goal with
    | K : CompressionAlgo.to_Z _ = CompressionAlgo.to_Z _ |- _ => apply CompressionAlgo_to_Z_inj in K
    | K : AeadAlgo.to_Z _ = AeadAlgo.to_Z _ |- _ => apply AeadAlgo_to_Z_inj in K
    | K : FecAlgo.to_Z _ = FecAlgo.to_Z _ |- _ => apply FecAlgo_to_Z_inj in K
    | K : KdfAlgo.to_Z _ = KdfAlgo.to_Z _ |- _ => apply KdfAlgo_to_Z_inj in K
    end.

(** The Rust types of the inputs. *)
Definition ArchiveRootInputs_typed (i : ArchiveRootInputs) : Prop :=
  blen (ar_archive_uuid i) = 16 /\ blen (ar_session_id i) = 16 /\ u16 (ar_format_version i)
  /\ u16 (ar_volume_format_rev i) /\ blen (ar_critical_metadata_digest i) = 32
  /\ blen (ar_index_digest i) = 32 /\ blen (ar_fec_layout_digest i) = 32
  /\ u64 (ar_total_data_block_count i) /\ blen (ar_data_block_merkle_root i) = 32
  /\ blen (ar_root_auth_descriptor_digest i) = 32 /\ blen (ar_signer_identity_digest i) = 32.

Lemma archive_root_string_inj params i i' :
  ArchiveRootInputs_typed i -> ArchiveRootInputs_typed i' ->
  archive_root_string params i = archive_root_string params i' -> i = i'.
Proof.
  unfold ArchiveRootInputs_typed, archive_root_string. destruct i, i'. cbn. intros HT HT' He.
  destruct_and!. peel He. by subst.
Qed.

Lemma archive_root_Ok i r :
  archive_root i = Ok r
  <-> ar_format_version i = FORMAT_VERSION /\ ar_volume_format_rev i = VOLUME_FORMAT_REV_45
      /\ r = sha256 (archive_root_string revision_45_params i).
Proof.
  unfold archive_root, archive_root_for_revision. split.
  - intros H. destruct (root_auth_revision_params _ _) as [p|e|] eqn:E; [|done|done].
    apply root_auth_revision_params_Ok in E as (? & ? & ->). by injection H as <-.
  - intros (Hf & Hr & ->).
    by rewrite (proj2 (root_auth_revision_params_Ok _ _ revision_45_params)).
Qed.

Definition CriticalMetadataDigestInputs_typed (i : CriticalMetadataDigestInputs) : Prop :=
  blen (cm_archive_uuid i) = 16 /\ blen (cm_session_id i) = 16 /\ u16 (cm_format_version i)
  /\ u16 (cm_volume_format_rev i) /\ u32 (cm_stripe_width i) /\ u32 (cm_total_volumes i)
  /\ u32 (cm_chunk_size i) /\ u32 (cm_envelope_target_size i) /\ u32 (cm_block_size i)
  /\ u16 (cm_fec_data_shards i) /\ u16 (cm_fec_parity_shards i)
  /\ u16 (cm_index_fec_data_shards i) /\ u16 (cm_index_fec_parity_shards i)
  /\ u16 (cm_index_root_fec_data_shards i) /\ u16 (cm_index_root_fec_parity_shards i)
  /\ u8 (cm_volume_loss_tolerance i) /\ u8 (cm_bit_rot_buffer_pct i) /\ u8 (cm_has_dictionary i)
  /\ u64 (cm_index_root_first_block i) /\ u32 (cm_index_root_data_block_count i)
  /\ u32 (cm_index_root_parity_block_count i) /\ u32 (cm_index_root_encrypted_size i)
  /\ u32 (cm_index_root_decompressed_size i) /\ blen (cm_root_auth_descriptor_digest i) = 32.

(** The three strings hashed by [critical_metadata_digest]. *)
Definition crypto_header_string (i : CriticalMetadataDigestInputs) : bytes :=
  len_prefixed_string CRYPTO_HEADER_PRE_HMAC_DOMAIN_V45 (blen (cm_crypto_header_pre_hmac_bytes i))
    (cm_crypto_header_pre_hmac_bytes i).

Definition manifest_footer_string (i : CriticalMetadataDigestInputs) : bytes :=
  len_prefixed_string MANIFEST_FOOTER_GLOBAL_PRE_HMAC_DOMAIN_V45
    (blen (cm_manifest_footer_global_pre_hmac_bytes i)) (cm_manifest_footer_global_pre_hmac_bytes i).

Definition critical_metadata_strings (i : CriticalMetadataDigestInputs) : list bytes :=
  [crypto_header_string i; manifest_footer_string i;
   critical_metadata_string revision_45_params (sha256 (crypto_header_string i))
     (sha256 (manifest_footer_string i)) i].

Lemma len_prefixed_digest_Ok domain payload d :
  len_prefixed_digest domain payload = Ok d
  <-> u32 (blen payload) /\ d = sha256 (len_prefixed_string domain (blen payload) payload).
Proof.
  unfold len_prefixed_digest, root_auth_length. split.
  - intros H. bind_inv H. apply ok_or_Ok, try_from_Some in Hr as [-> Hu]. by subst.
  - intros [Hu ->]. rewrite (ok_or_eq _ (blen payload)); [done|]. by apply try_from_Some.
Qed.

Lemma critical_metadata_digest_Ok i d :
  critical_metadata_digest i = Ok d ->
  cm_format_version i = FORMAT_VERSION /\ cm_volume_format_rev i = VOLUME_FORMAT_REV_45
  /\ u32 (blen (cm_crypto_header_pre_hmac_bytes i))
  /\ u32 (blen (cm_manifest_footer_global_pre_hmac_bytes i))
  /\ d = sha256 (critical_metadata_string revision_45_params (sha256 (crypto_header_string i))
                   (sha256 (manifest_footer_string i)) i).
Proof.
  unfold critical_metadata_digest. intros H. bind_inv H. subst d.
  apply root_auth_revision_params_Ok in Hr as (-> & -> & ->).
  apply len_prefixed_digest_Ok in Hr0 as [? ->], Hr1 as [? ->]. done.
Qed.

Lemma len_prefixed_string_inj domain p p' :
  u32 (blen p) -> u32 (blen p') ->
  len_prefixed_string domain (blen p) p = len_prefixed_string domain (blen p') p' -> p = p'.
Proof. intros Hp Hp' He. unfold len_prefixed_string in He. by peel He. Qed.

Lemma critical_metadata_string_inj params c m c' m' i i' :
  CriticalMetadataDigestInputs_typed i -> CriticalMetadataDigestInputs_typed i' ->
  blen c = 32 -> blen c' = 32 -> blen m = 32 -> blen m' = 32 ->
  critical_metadata_string params c m i = critical_metadata_string params c' m' i' ->
  c = c' /\ m = m'
  /\ (cm_crypto_header_pre_hmac_bytes i = cm_crypto_header_pre_hmac_bytes i' ->
      cm_manifest_footer_global_pre_hmac_bytes i = cm_manifest_footer_global_pre_hmac_bytes i' ->
      i = i').
Proof.
  unfold CriticalMetadataDigestInputs_typed, critical_metadata_string. destruct i, i'. cbn.
  intros HT HT' Hc Hc' Hm Hm' He. destruct_and!. peel He. subst. split_and!; [done..|].
  by intros -> ->.
Qed.

(** The Rust types of a row. *)
Definition fec_row_typed (r : FecLayoutObjectRow) : Prop :=
  u8 (fl_object_class r) /\ u64 (fl_object_id r) /\ u64 (fl_first_block_index r)
  /\ u32 (fl_data_block_count r) /\ u32 (fl_parity_block_count r) /\ u32 (fl_encrypted_size r)
  /\ u32 (fl_plain_size r).

Lemma fec_layout_string_eq params n rows :
  fec_layout_string params n rows
  = rp_fec_layout_domain params ++ le_bytes 4 n ++ concat (map fec_row_bytes rows).
Proof.
  unfold fec_layout_string. rewrite app_assoc.
  generalize (rp_fec_layout_domain params ++ le_bytes 4 n) as acc.
  induction rows as [|r rows IH]; intros acc; cbn; [by rewrite app_nil_r|].
  by rewrite IH, <- app_assoc.
Qed.

Lemma fec_row_bytes_inj r r' :
  fec_row_typed r -> fec_row_typed r' -> fec_row_bytes r = fec_row_bytes r' -> r = r'.
Proof.
  unfold fec_row_typed, fec_row_bytes. destruct r as [cls p id fb dc pc es ps], r' as [cls' p' id' fb' dc' pc' es' ps'].
  cbn. intros HT HT' He. destruct_and!.
  assert (u8 (if p then 1 else 0)) by (destruct p; unfold fits; lia).
  assert (u8 (if p' then 1 else 0)) by (destruct p'; unfold fits; lia).
  rewrite <- (app_nil_r (le_bytes 4 ps)), <- (app_nil_r (le_bytes 4 ps')) in He. peel He. subst.
  by destruct p, p'.
Qed.

Lemma blen_fec_row_bytes r : blen (fec_row_bytes r) = 36.
Proof. unfold fec_row_bytes. rewrite !blen_app. by layout. Qed.

Lemma fec_rows_inj rows rows' :
  Forall fec_row_typed rows -> Forall fec_row_typed rows' -> length rows = length rows' ->
  concat (map fec_row_bytes rows) = concat (map fec_row_bytes rows') -> rows = rows'.
Proof.
  intros HF. revert rows'. induction HF as [|r rows Hr HF IH]; intros [|r' rows'] HF' Hl He; try done.
  cbn in *. apply Forall_cons in HF' as [Hr' HF'].
  apply app_inj_blen in He as [He1 He2]; [|by rewrite !blen_fec_row_bytes].
  f_equal; [by apply fec_row_bytes_inj|]. apply IH; [done|lia|done].
Qed.

(** ** Theorems *)

(** C36: The Merkle root exists and commits to the data blocks.  For the supported
    revision the root of any list of blocks is computed: the loops terminate
    within the fuel and no index is out of range.  Two lists of typed blocks
    with the same root are the same list, in contents, order and number, unless
    two different strings among those hashed have the same digest. *)
Theorem merkle_root_commits format_version volume_format_rev leaves leaves' :
  format_version = FORMAT_VERSION -> volume_format_rev = VOLUME_FORMAT_REV_45 ->
  Forall leaf_typed leaves -> Forall leaf_typed leaves' ->
  no_collision (merkle_strings revision_45_params leaves ++ merkle_strings revision_45_params leaves') ->
  exists root root',
    data_block_merkle_root_for_revision format_version volume_format_rev leaves = Ok root
    /\ data_block_merkle_root_for_revision format_version volume_format_rev leaves' = Ok root'
    /\ (root = root' <-> leaves = leaves').
Proof.
  intros Hf Hr Hl Hl' Hc. unfold data_block_merkle_root_for_revision.
  rewrite (proj2 (root_auth_revision_params_Ok _ _ revision_45_params)) by done. rewrite !bind_ret.
  destruct (merkle_root_tree revision_45_params leaves) as [-> _].
  destruct (merkle_root_tree revision_45_params leaves') as [-> _].
  do 2 eexists. split; [done|]. split; [done|]. split; [|by intros ->].
  by apply merkle_binding.
Qed.

(** The archive root commits to its inputs.  A root exists exactly for the
    supported version and revision, and the unchecked variant panics for all
    others; two sets of typed inputs with the same root are equal, unless the
    two strings hashed are a collision. *)
Theorem archive_root_commits i i' r :
  ArchiveRootInputs_typed i -> ArchiveRootInputs_typed i' ->
  no_collision [archive_root_string revision_45_params i; archive_root_string revision_45_params i'] ->
  archive_root i = Ok r ->
  (ar_format_version i = FORMAT_VERSION /\ ar_volume_format_rev i = VOLUME_FORMAT_REV_45)
  /\ (archive_root i' = Ok r <-> i = i').
Proof.
  intros HT HT' Hc (Hf & Hr & ->)%archive_root_Ok. split; [done|]. split; [|intros <-; by apply archive_root_Ok].
  intros (_ & _ & He)%archive_root_Ok. apply (archive_root_string_inj revision_45_params); [done..|].
  apply Hc; [set_solver..|done].
Qed.

(** The metadata digest commits to the archive's parameters.  Two sets of
    typed inputs with the same digest are equal, including the serialized
    crypto header and manifest footer that are hashed on their own, unless two
    different strings among those hashed have the same digest. *)
Theorem critical_metadata_digest_commits i i' d :
  CriticalMetadataDigestInputs_typed i -> CriticalMetadataDigestInputs_typed i' ->
  no_collision (critical_metadata_strings i ++ critical_metadata_strings i') ->
  critical_metadata_digest i = Ok d -> critical_metadata_digest i' = Ok d -> i = i'.
Proof.
  intros HT HT' Hc (_ & _ & Hu & Hv & ->)%critical_metadata_digest_Ok
    (_ & _ & Hu' & Hv' & He)%critical_metadata_digest_Ok.
  unfold critical_metadata_strings in Hc.
  apply Hc, critical_metadata_string_inj in He; [|done|done|apply sha256_blen..|set_solver|set_solver].
  destruct He as (Hch & Hmf & Hi).
  apply Hc in Hch; [|set_solver..]. apply Hc in Hmf; [|set_solver..].
  apply len_prefixed_string_inj in Hch; [|done..]. apply len_prefixed_string_inj in Hmf; [|done..].
  auto.
Qed.

(** The layout digest commits to the object rows.  For the supported revision
    the digest of fewer than [2^32] rows exists, and two lists of typed rows
    with the same digest are equal, unless the two strings hashed are a
    collision. *)
Theorem fec_layout_digest_commits rows rows' :
  Forall fec_row_typed rows -> Forall fec_row_typed rows' ->
  u32 (Z.of_nat (length rows)) -> u32 (Z.of_nat (length rows')) ->
  no_collision [fec_layout_string revision_45_params (Z.of_nat (length rows)) rows;
                fec_layout_string revision_45_params (Z.of_nat (length rows')) rows'] ->
  exists d d', fec_layout_digest rows = Ok d /\ fec_layout_digest rows' = Ok d'
    /\ (d = d' <-> rows = rows').
Proof.
  intros HT HT' Hu Hu' Hc.
  assert (forall l, u32 (Z.of_nat (length l)) -> fec_layout_digest l
            = Ok (sha256 (fec_layout_string revision_45_params (Z.of_nat (length l)) l))) as Hd.
  { intros l Hl. unfold fec_layout_digest, fec_layout_digest_for_revision.
    rewrite (proj2 (root_auth_revision_params_Ok _ _ revision_45_params)) by done. rewrite bind_ret.
    rewrite (ok_or_eq _ (Z.of_nat (length l))); [done|]. by apply try_from_Some. }
  rewrite !Hd by done. do 2 eexists. split; [done|]. split; [done|]. split; [|by intros ->].
  intros He. apply Hc in He; [|set_solver..]. rewrite !fec_layout_string_eq in He. peel He.
  apply fec_rows_inj; try done. lia.
Qed.
End RootAuth.

(** ** Concrete inputs *)
Definition no_collisionb {Sha : Sha256} (l : list bytes) : bool :=
  forallb (fun x => forallb (fun y => negb (bytes_eqb (sha256 x) (sha256 y)) || bytes_eqb x y) l) l.

Lemma no_collisionb_spec {Sha : Sha256} l : no_collisionb l = true -> no_collision l.
Proof.
  unfold no_collisionb. intros H x y Hx%list_elem_of_In Hy%list_elem_of_In He.
  rewrite forallb_forall in H. specialize (H x Hx). rewrite forallb_forall in H.
  specialize (H y Hy). apply orb_true_iff in H as [H|H]; [|by apply bytes_eqb_eq].
  apply negb_true_iff in H. exfalso. apply bytes_eqb_eq in He. congruence.
Qed.

Definition example_leaves (n : nat) : list DataBlockMerkleLeaf :=
  map (fun i => {| ml_block_index := Z.of_nat i; ml_kind := BlockKind.PayloadData; ml_flags := 0;
                   ml_payload := le_bytes 4 (Z.of_nat i) |}) (seq 0 n).

Lemma example_leaves_typed : Forall leaf_typed (example_leaves 3) /\ Forall leaf_typed (example_leaves 2).
Proof. split; repeat constructor; cbn; lia. Qed.

Lemma merkle_root_commits_witness :
  exists root root',
    data_block_merkle_root_for_revision (Sha := toy_Sha256) 1 45 (example_leaves 3) = Ok root
    /\ data_block_merkle_root_for_revision (Sha := toy_Sha256) 1 45 (example_leaves 2) = Ok root'
    /\ (root = root' <-> example_leaves 3 = example_leaves 2).
Proof.
  apply (merkle_root_commits (Sha := toy_Sha256) 1 45); [done|done|apply example_leaves_typed..|].
  apply no_collisionb_spec. vm_compute. reflexivity.
Defined.

Definition example_root_inputs (n : Z) : ArchiveRootInputs := {|
  ar_archive_uuid := zeros 16; ar_session_id := zeros 16; ar_format_version := 1;
  ar_volume_format_rev := 45; ar_compression_algo := CompressionAlgo.ZstdFramed;
  ar_aead_algo := AeadAlgo.AesGcmSiv256; ar_fec_algo := FecAlgo.ReedSolomonGF16;
  ar_kdf_algo := KdfAlgo.Raw; ar_critical_metadata_digest := zeros 32; ar_index_digest := zeros 32;
  ar_fec_layout_digest := zeros 32; ar_total_data_block_count := n;
  ar_data_block_merkle_root := zeros 32; ar_root_auth_descriptor_digest := zeros 32;
  ar_signer_identity_digest := zeros 32 |}.

Lemma archive_root_commits_witness :
  exists r, archive_root (Sha := toy_Sha256) (example_root_inputs 3) = Ok r
    /\ archive_root (Sha := toy_Sha256) (example_root_inputs 4) <> Ok r.
Proof.
  eexists. split; [reflexivity|].
  intros H.
  pose proof (proj1 (proj2 (archive_root_commits (Sha := toy_Sha256) (example_root_inputs 3)
    (example_root_inputs 4) _ ltac:(repeat split; cbn; lia) ltac:(repeat split; cbn; lia)
    ltac:(apply no_collisionb_spec; vm_compute; reflexivity) eq_refl)) H) as E.
  discriminate E.
Defined.

Definition example_metadata_inputs (header : bytes) : CriticalMetadataDigestInputs := {|
  cm_archive_uuid := zeros 16; cm_session_id := zeros 16; cm_format_version := 1;
  cm_volume_format_rev := 45; cm_stripe_width := 1; cm_total_volumes := 1;
  cm_compression_algo := CompressionAlgo.ZstdFramed; cm_aead_algo := AeadAlgo.AesGcmSiv256;
  cm_fec_algo := FecAlgo.ReedSolomonGF16; cm_kdf_algo := KdfAlgo.Raw;
  cm_crypto_header_pre_hmac_bytes := header; cm_chunk_size := 65536;
  cm_envelope_target_size := 65536; cm_block_size := 4096; cm_fec_data_shards := 1;
  cm_fec_parity_shards := 0; cm_index_fec_data_shards := 1; cm_index_fec_parity_shards := 0;
  cm_index_root_fec_data_shards := 1; cm_index_root_fec_parity_shards := 0;
  cm_volume_loss_tolerance := 0; cm_bit_rot_buffer_pct := 0; cm_has_dictionary := 0;
  cm_manifest_footer_global_pre_hmac_bytes := zeros 8; cm_index_root_first_block := 0;
  cm_index_root_data_block_count := 1; cm_index_root_parity_block_count := 0;
  cm_index_root_encrypted_size := 4096; cm_index_root_decompressed_size := 100;
  cm_root_auth_descriptor_digest := zeros 32 |}.

Lemma critical_metadata_digest_commits_witness :
  exists d, critical_metadata_digest (Sha := toy_Sha256) (example_metadata_inputs (zeros 4)) = Ok d
    /\ critical_metadata_digest (Sha := toy_Sha256) (example_metadata_inputs (zeros 5)) <> Ok d.
Proof.
  eexists. split; [reflexivity|]. intros H.
  pose proof (critical_metadata_digest_commits (Sha := toy_Sha256) (example_metadata_inputs (zeros 4))
    (example_metadata_inputs (zeros 5)) _ ltac:(repeat split; cbn; lia) ltac:(repeat split; cbn; lia)
    ltac:(apply no_collisionb_spec; vm_compute; reflexivity) eq_refl H) as E.
  discriminate E.
Defined.

Definition example_rows (present : bool) : list FecLayoutObjectRow :=
  [{| fl_object_class := 1; fl_present := present; fl_object_id := 2; fl_first_block_index := 3;
      fl_data_block_count := 4; fl_parity_block_count := 1; fl_encrypted_size := 16384;
      fl_plain_size := 9000 |}].

Lemma fec_layout_digest_commits_witness :
  exists d d', fec_layout_digest (Sha := toy_Sha256) (example_rows true) = Ok d
    /\ fec_layout_digest (Sha := toy_Sha256) (example_rows false) = Ok d'
    /\ (d = d' <-> example_rows true = example_rows false).
Proof.
  apply (fec_layout_digest_commits (Sha := toy_Sha256));
    [repeat constructor; cbn; lia..|cbn; unfold fits; lia|cbn; unfold fits; lia|].
  apply no_collisionb_spec. vm_compute. reflexivity.
Defined.
