(* ===== verification/MetadataImage.v ===== *)
(** * The critical metadata image

    [SerializedRegion] and [CriticalMetadataImage] of
    [crates/tzap-core/src/wire.rs]: the copy of all critical structures of a
    volume that the recovery area protects. *)

From S2P Require Import Wire.
#[local] Open Scope Z_scope.

Record SerializedRegion : Type := {
  sr_region_type : Z;
  sr_offset : Z;
  sr_bytes : bytes
}.

Record CriticalMetadataImage : Type := {
  mi_volume_format_rev : Z;
  mi_archive_uuid : bytes;
  mi_session_id : bytes;
  mi_volume_index : Z;
  mi_stripe_width : Z;
  mi_layout_flags : Z;
  mi_volume_header_offset : Z;
  mi_volume_header_length : Z;
  mi_crypto_header_offset : Z;
  mi_crypto_header_length : Z;
  mi_key_wrap_table_offset : Z;
  mi_key_wrap_table_length : Z;
  mi_block_records_offset : Z;
  mi_block_records_length : Z;
  mi_block_count : Z;
  mi_manifest_footer_offset : Z;
  mi_manifest_footer_length : Z;
  mi_root_auth_footer_offset : Z;
  mi_root_auth_footer_length : Z;
  mi_volume_trailer_offset : Z;
  mi_volume_trailer_length : Z;
  mi_body_bytes_before_cmra : Z;
  mi_volume_header_sha256 : bytes;
  mi_crypto_header_sha256 : bytes;
  mi_key_wrap_table_sha256 : bytes;
  mi_manifest_footer_sha256 : bytes;
  mi_root_auth_footer_sha256 : bytes;
  mi_volume_trailer_sha256 : bytes;
  mi_regions : list SerializedRegion
}.

Definition SerializedRegion_encoded_len (self : SerializedRegion) : Z :=
  SERIALIZED_REGION_HEADER_LEN + blen (sr_bytes self).

Definition SerializedRegion_to_bytes (self : SerializedRegion) : fresult bytes :=
  length ← ok_or (try_from 32 (blen (sr_bytes self)))
    (InvalidArchive "SerializedRegion length exceeds u32");
  mret (puts (zeros (SerializedRegion_encoded_len self))
    [write_u16 0 (sr_region_type self);
     write_u64 4 (sr_offset self);
     write_u32 12 length;
     write_bytes SERIALIZED_REGION_HEADER_LEN (sr_bytes self)]).

Definition critical_metadata_image_fixed_len (volume_format_rev : Z) : fresult Z :=
  if volume_format_rev =? VOLUME_FORMAT_REV_45 then Ok CRITICAL_METADATA_IMAGE_FIXED_LEN
  else Err (UnsupportedVolumeFormatRevision FORMAT_VERSION volume_format_rev
              READER_MAX_SUPPORTED_VOLUME_FORMAT_REV).

Section CriticalMetadataImage.
Context {C : Crc32c}.

(** The [try_fold] over the regions' encoded lengths. *)
Fixpoint regions_len (regions : list SerializedRegion) (total : Z) : fresult Z :=
  match regions with
  | [] => Ok total
  | region :: regions =>
      total ← ok_or (checked_add 64 total (SerializedRegion_encoded_len region))
        (InvalidArchive "CriticalMetadataImage length overflow");
      regions_len regions total
  end.

(** The loop that writes the regions at the cursor. *)
Fixpoint write_regions (regions : list SerializedRegion) (b : bytes) (cursor : Z)
    : fresult (bytes * Z) :=
  match regions with
  | [] => Ok (b, cursor)
  | region :: regions =>
      region_bytes ← SerializedRegion_to_bytes region;
      write_regions regions (put b cursor region_bytes) (cursor + blen region_bytes)
  end.

Definition image_fields (self : CriticalMetadataImage) (region_count : Z) : list (Z * bytes) :=
  [write_bytes 0 TZMI_MAGIC;
   write_u16 4 1;
   write_u16 6 (mi_volume_format_rev self);
   write_bytes 8 (mi_archive_uuid self);
   write_bytes 24 (mi_session_id self);
   write_u32 40 (mi_volume_index self);
   write_u32 44 (mi_stripe_width self);
   write_u32 48 (mi_layout_flags self);
   write_u64 52 (mi_volume_header_offset self);
   write_u32 60 (mi_volume_header_length self);
   write_u64 64 (mi_crypto_header_offset self);
   write_u32 72 (mi_crypto_header_length self);
   write_u64 76 (mi_key_wrap_table_offset self);
   write_u32 84 (mi_key_wrap_table_length self);
   write_u64 88 (mi_block_records_offset self);
   write_u64 96 (mi_block_records_length self);
   write_u64 104 (mi_block_count self);
   write_u64 112 (mi_manifest_footer_offset self);
   write_u32 120 (mi_manifest_footer_length self);
   write_u64 124 (mi_root_auth_footer_offset self);
   write_u32 132 (mi_root_auth_footer_length self);
   write_u64 136 (mi_volume_trailer_offset self);
   write_u32 144 (mi_volume_trailer_length self);
   write_u64 148 (mi_body_bytes_before_cmra self);
   write_bytes 156 (mi_volume_header_sha256 self);
   write_bytes 188 (mi_crypto_header_sha256 self);
   write_bytes 220 (mi_key_wrap_table_sha256 self);
   write_bytes 252 (mi_manifest_footer_sha256 self);
   write_bytes 284 (mi_root_auth_footer_sha256 self);
   write_bytes 316 (mi_volume_trailer_sha256 self);
   write_u16 348 region_count].

Definition CriticalMetadataImage_to_bytes (self : CriticalMetadataImage) : fresult bytes :=
  fixed_len ← critical_metadata_image_fixed_len (mi_volume_format_rev self);
  region_count ← ok_or (try_from 16 (Z.of_nat (length (mi_regions self))))
    (InvalidArchive "CriticalMetadataImage has too many regions");
  variable_len ← regions_len (mi_regions self) 0;
  total ← ok_or (checked_add3 fixed_len variable_len IMAGE_CRC_LEN)
    (InvalidArchive "CriticalMetadataImage length overflow");
  let b := puts (zeros total) (image_fields self region_count) in
  '(b, cursor) ← write_regions (mi_regions self) b fixed_len;
  mret (put_crc b cursor).

(** The [for _ in 0..serialized_region_count] loop. *)
Fixpoint parse_regions (n : nat) (b : bytes) (expected_crc_offset cursor : Z)
    (regions : list SerializedRegion) : fresult (list SerializedRegion * Z) :=
  match n with
  | O => Ok (regions, cursor)
  | S n =>
      reject_if (expected_crc_offset <? cursor + SERIALIZED_REGION_HEADER_LEN)
        (InvalidLength "SerializedRegion" (cursor + SERIALIZED_REGION_HEADER_LEN) (blen b));;
      region_type ← read_u16 b cursor;
      reserved ← read_u16 b (cursor + 2);
      reject_if (negb (reserved =? 0)) (NonZeroReserved "SerializedRegion");;
      offset ← read_u64 b (cursor + 4);
      length ← read_u32 b (cursor + 12);
      let cursor := cursor + SERIALIZED_REGION_HEADER_LEN in
      region_end ← ok_or (checked_add 64 cursor length)
        (InvalidArchive "SerializedRegion length overflow");
      reject_if (expected_crc_offset <? region_end)
        (InvalidLength "SerializedRegion" region_end (blen b));;
      region_bytes ← slice b cursor region_end;
      parse_regions n b expected_crc_offset region_end
        (regions ++ [{| sr_region_type := region_type; sr_offset := offset;
                        sr_bytes := region_bytes |}])
  end.

Definition CriticalMetadataImage_parse (b : bytes) : fresult CriticalMetadataImage :=
  reject_if (blen b <? 8 + IMAGE_CRC_LEN)
    (InvalidLength "CriticalMetadataImageV1" (8 + IMAGE_CRC_LEN) (blen b));;
  magic ← slice b 0 4;
  expect_magic "CriticalMetadataImageV1" TZMI_MAGIC magic;;
  version ← read_u16 b 4;
  reject_if (negb (version =? 1)) (UnsupportedFormatVersion version);;
  volume_format_rev ← read_u16 b 6;
  fixed_len ← critical_metadata_image_fixed_len volume_format_rev;
  reject_if (blen b <? fixed_len + IMAGE_CRC_LEN)
    (InvalidLength "CriticalMetadataImageV1" (fixed_len + IMAGE_CRC_LEN) (blen b));;
  layout_flags ← read_u32 b 48;
  reject_if (negb (Z.land layout_flags (unot 32 0x00000003) =? 0))
    (InvalidArchive "CriticalMetadataImage layout_flags has unknown bits");;
  reserved ← slice b 350 364;
  expect_zero "CriticalMetadataImageV1" reserved;;
  expected_crc_offset ← ok_or (checked_sub (blen b) IMAGE_CRC_LEN)
    (InvalidArchive "CriticalMetadataImage length underflow");
  covered ← slice b 0 expected_crc_offset;
  crc ← read_u32 b expected_crc_offset;
  expect_crc "CriticalMetadataImageV1" covered crc;;
  serialized_region_count ← read_u16 b 348;
  '(regions, cursor) ←
    parse_regions (Z.to_nat serialized_region_count) b expected_crc_offset fixed_len [];
  reject_if (negb (cursor =? expected_crc_offset))
    (InvalidArchive "CriticalMetadataImage has trailing region bytes");;
  archive_uuid ← read_array_16 b 8;
  session_id ← read_array_16 b 24;
  volume_index ← read_u32 b 40;
  stripe_width ← read_u32 b 44;
  volume_header_offset ← read_u64 b 52;
  volume_header_length ← read_u32 b 60;
  crypto_header_offset ← read_u64 b 64;
  crypto_header_length ← read_u32 b 72;
  key_wrap_table_offset ← read_u64 b 76;
  key_wrap_table_length ← read_u32 b 84;
  block_records_offset ← read_u64 b 88;
  block_records_length ← read_u64 b 96;
  block_count ← read_u64 b 104;
  manifest_footer_offset ← read_u64 b 112;
  manifest_footer_length ← read_u32 b 120;
  root_auth_footer_offset ← read_u64 b 124;
  root_auth_footer_length ← read_u32 b 132;
  volume_trailer_offset ← read_u64 b 136;
  volume_trailer_length ← read_u32 b 144;
  body_bytes_before_cmra ← read_u64 b 148;
  volume_header_sha256 ← read_array_32 b 156;
  crypto_header_sha256 ← read_array_32 b 188;
  key_wrap_table_sha256 ← read_array_32 b 220;
  manifest_footer_sha256 ← read_array_32 b 252;
  root_auth_footer_sha256 ← read_array_32 b 284;
  volume_trailer_sha256 ← read_array_32 b 316;
  mret {|
    mi_volume_format_rev := volume_format_rev; mi_archive_uuid := archive_uuid;
    mi_session_id := session_id; mi_volume_index := volume_index; mi_stripe_width := stripe_width;
    mi_layout_flags := layout_flags; mi_volume_header_offset := volume_header_offset;
    mi_volume_header_length := volume_header_length;
    mi_crypto_header_offset := crypto_header_offset;
    mi_crypto_header_length := crypto_header_length;
    mi_key_wrap_table_offset := key_wrap_table_offset;
    mi_key_wrap_table_length := key_wrap_table_length;
    mi_block_records_offset := block_records_offset;
    mi_block_records_length := block_records_length; mi_block_count := block_count;
    mi_manifest_footer_offset := manifest_footer_offset;
    mi_manifest_footer_length := manifest_footer_length;
    mi_root_auth_footer_offset := root_auth_footer_offset;
    mi_root_auth_footer_length := root_auth_footer_length;
    mi_volume_trailer_offset := volume_trailer_offset;
    mi_volume_trailer_length := volume_trailer_length;
    mi_body_bytes_before_cmra := body_bytes_before_cmra;
    mi_volume_header_sha256 := volume_header_sha256;
    mi_crypto_header_sha256 := crypto_header_sha256;
    mi_key_wrap_table_sha256 := key_wrap_table_sha256;
    mi_manifest_footer_sha256 := manifest_footer_sha256;
    mi_root_auth_footer_sha256 := root_auth_footer_sha256;
    mi_volume_trailer_sha256 := volume_trailer_sha256; mi_regions := regions |}.

Definition CriticalMetadataImage_region (self : CriticalMetadataImage) (region_type : Z)
    : option SerializedRegion :=
  List.find (fun region => sr_region_type region =? region_type) (mi_regions self).

(** ** Regions on the wire *)
Definition region_bytes (r : SerializedRegion) : bytes :=
  le_bytes 2 (sr_region_type r) ++ zeros 2 ++ le_bytes 8 (sr_offset r)
  ++ le_bytes 4 (blen (sr_bytes r)) ++ sr_bytes r.

Definition regions_bytes (l : list SerializedRegion) : bytes := concat (map region_bytes l).

#[global] Arguments regions_bytes _ : simpl never.

Definition SerializedRegion_typed (r : SerializedRegion) : Prop :=
  u16 (sr_region_type r) /\ u64 (sr_offset r) /\ u32 (blen (sr_bytes r)).

Lemma blen_region_bytes r : blen (region_bytes r) = SerializedRegion_encoded_len r.
Proof.
  unfold region_bytes, SerializedRegion_encoded_len, SERIALIZED_REGION_HEADER_LEN.
  rewrite !blen_app, blen_zeros by lia. layout. lia.
Qed.

Lemma encoded_len_min r : 16 <= SerializedRegion_encoded_len r.
Proof.
  unfold SerializedRegion_encoded_len, SERIALIZED_REGION_HEADER_LEN.
  pose proof (blen_nonneg (sr_bytes r)). lia.
Qed.

Lemma region_segments b i r :
  0 <= i -> i + SerializedRegion_encoded_len r <= blen b ->
  seg b i (i + SerializedRegion_encoded_len r) = region_bytes r
  <-> seg b i (i + 2) = le_bytes 2 (sr_region_type r) /\ seg b (i + 2) (i + 4) = zeros 2
      /\ seg b (i + 4) (i + 12) = le_bytes 8 (sr_offset r)
      /\ seg b (i + 12) (i + 16) = le_bytes 4 (blen (sr_bytes r))
      /\ seg b (i + 16) (i + 16 + blen (sr_bytes r)) = sr_bytes r.
Proof.
  unfold region_bytes, SerializedRegion_encoded_len, SERIALIZED_REGION_HEADER_LEN. intros Hi Hle.
  pose proof (blen_nonneg (sr_bytes r)).
  rewrite !seg_app_iff by (rewrite ?blen_zeros by lia; layout; lia).
  rewrite blen_zeros by lia. layout. rewrite <- !Z.add_assoc. layout. done.
Qed.

Lemma region_puts r :
  puts (zeros (SerializedRegion_encoded_len r))
    [write_u16 0 (sr_region_type r); write_u64 4 (sr_offset r);
     write_u32 12 (blen (sr_bytes r)); write_bytes SERIALIZED_REGION_HEADER_LEN (sr_bytes r)]
  = region_bytes r.
Proof.
  pose proof (blen_region_bytes r) as Hb. pose proof (encoded_len_min r).
  pose proof (seg_full (region_bytes r)) as Hs. rewrite Hb in Hs.
  apply (region_segments _ 0) in Hs; [|lia..]. destruct_and!.
  apply puts_iff; [unfold SerializedRegion_encoded_len, SERIALIZED_REGION_HEADER_LEN; layout; lia|].
  split; [done|]. unfold SerializedRegion_encoded_len, SERIALIZED_REGION_HEADER_LEN in *.
  cbn [Z.add] in *. layout. rewrite !seg_nil, Z.sub_diag. done.
Qed.

Lemma SerializedRegion_to_bytes_iff r b :
  SerializedRegion_to_bytes r = Ok b <-> u32 (blen (sr_bytes r)) /\ b = region_bytes r.
Proof.
  unfold SerializedRegion_to_bytes. split.
  - intros H. bind_inv H. apply ok_or_Ok, try_from_Some in Hr as [-> Hr]. by rewrite region_puts in H.
  - intros [H ->]. rewrite (ok_or_eq _ (blen (sr_bytes r))) by by apply try_from_Some.
    rewrite bind_ret, region_puts. done.
Qed.

Lemma regions_bytes_bound l :
  Forall (fun r => u32 (blen (sr_bytes r))) l ->
  0 <= blen (regions_bytes l) <= Z.of_nat (length l) * (2 ^ 32 + 16).
Proof.
  unfold regions_bytes. induction 1 as [|r l Hr Hl IH]; [done|].
  cbn [map concat length]. rewrite blen_app, blen_region_bytes.
  unfold SerializedRegion_encoded_len, SERIALIZED_REGION_HEADER_LEN, fits in *. lia.
Qed.

Lemma regions_bytes_cons r l : regions_bytes (r :: l) = region_bytes r ++ regions_bytes l.
Proof. done. Qed.

Lemma blen_regions_cons r l :
  blen (regions_bytes (r :: l)) = SerializedRegion_encoded_len r + blen (regions_bytes l).
Proof. by rewrite regions_bytes_cons, blen_app, blen_region_bytes. Qed.

Lemma regions_len_Ok l total x :
  0 <= total ->
  regions_len l total = Ok x
  <-> x = total + blen (regions_bytes l) /\ (l = [] \/ total + blen (regions_bytes l) < 2 ^ 64).
Proof.
  revert total. induction l as [|r l IH]; intros total Ht; cbn [regions_len].
  - change (blen (regions_bytes [])) with 0. rewrite Z.add_0_r. split; [intros [= <-]; tauto|].
    by intros [-> _].
  - rewrite blen_regions_cons. pose proof (encoded_len_min r).
    pose proof (blen_nonneg (regions_bytes l)). split.
    + intros H'. bind_inv H'. apply ok_or_Ok, checked_add_Some in Hr as [Hb ->].
      apply IH in H' as [-> [-> | Hl]]; [change (blen (regions_bytes [])) with 0|..]; lia.
    + intros [-> [? | Hl]]; [done|]. run. apply IH; [lia|]. split; [lia|]. right. lia.
Qed.

Lemma write_regions_iff l pre k res :
  blen (regions_bytes l) <= k ->
  write_regions l (pre ++ zeros k) (blen pre) = Ok res
  <-> Forall (fun r => u32 (blen (sr_bytes r))) l
      /\ res = ((pre ++ regions_bytes l) ++ zeros (k - blen (regions_bytes l)),
                blen pre + blen (regions_bytes l)).
Proof.
  revert pre k. induction l as [|r l IH]; intros pre k; cbn [write_regions].
  - change (blen (regions_bytes [])) with 0. change (regions_bytes []) with (@nil Byte.byte).
    rewrite app_nil_r, Z.sub_0_r, Z.add_0_r. split; [by intros [= <-]|by intros [_ ->]].
  - rewrite blen_regions_cons, Forall_cons. intros Hk. pose proof (blen_nonneg (regions_bytes l)).
    assert (forall b, put (pre ++ zeros k) (blen pre) (region_bytes r) = b ->
              b = (pre ++ region_bytes r) ++ zeros (k - SerializedRegion_encoded_len r)) as Hput.
    { intros b <-. rewrite put_append by (rewrite blen_region_bytes; lia). by rewrite blen_region_bytes. }
    rewrite bind_Ok. setoid_rewrite SerializedRegion_to_bytes_iff.
    assert (blen pre + blen (region_bytes r) = blen (pre ++ region_bytes r)) as Hcur
      by (by rewrite blen_app).
    split.
    + intros (rb & [Hr ->] & Hw). rewrite (Hput _ eq_refl), Hcur, IH in Hw by lia.
      destruct Hw as [Hl ->]. split; [done|].
      rewrite regions_bytes_cons, blen_app, blen_region_bytes, <- !app_assoc, Z.sub_add_distr.
      f_equal. lia.
    + intros [[Hr Hl] ->]. eexists. split; [done|].
      rewrite (Hput _ eq_refl), Hcur, IH by lia. split; [done|].
      rewrite regions_bytes_cons, blen_app, blen_region_bytes, <- !app_assoc, Z.sub_add_distr.
      f_equal. lia.
Qed.

Lemma parse_regions_sound n b e cursor acc l c :
  0 <= cursor <= e -> e <= blen b ->
  parse_regions n b e cursor acc = Ok (l, c) ->
  exists rs, l = acc ++ rs /\ length rs = n /\ Forall SerializedRegion_typed rs
      /\ c = cursor + blen (regions_bytes rs) /\ c <= e /\ seg b cursor c = regions_bytes rs.
Proof.
  intros Hc He. revert cursor acc Hc.
  induction n as [|n IH]; intros cursor acc Hc; cbn [parse_regions].
  - intros [= <- <-]. exists []. rewrite app_nil_r, seg_nil.
    change (blen (regions_bytes [])) with 0. split_and!; try done; lia.
  - unfold SERIALIZED_REGION_HEADER_LEN. intros H'. bind_inv H'. apply read_u32_range in Hr4 as Hpos.
    apply ok_or_Ok, checked_add_Some in Hr5 as [_ ->]. wire_facts. wire_eqs.
    apply IH in H' as (rs & -> & Hl & Hf & -> & Hle & Hs); [|lia].
    set (reg := Build_SerializedRegion _ _ _) in *.
    assert (blen (sr_bytes reg) = r4) as Hb by (cbn; rewrite blen_seg; lia).
    assert (SerializedRegion_encoded_len reg = 16 + r4) as Hen
      by (unfold SerializedRegion_encoded_len, SERIALIZED_REGION_HEADER_LEN; lia).
    exists (reg :: rs). rewrite blen_regions_cons, Hen.
    pose proof (blen_nonneg (regions_bytes rs)).
    split_and!; [by rewrite <- app_assoc|by cbn; rewrite Hl| |lia|lia|].
    { constructor; [|done]. unfold SerializedRegion_typed. rewrite Hb. done. }
    rewrite regions_bytes_cons, (seg_split b cursor (cursor + SerializedRegion_encoded_len reg)) by lia.
    f_equal; [|by rewrite Hen, Z.add_assoc].
    apply region_segments; [lia..|]. rewrite Hb. cbn [sr_bytes sr_region_type sr_offset reg].
    rewrite <- !Z.add_assoc in *. cbn [Z.add Pos.add Pos.succ] in *.
    split_and!; done.
Qed.

Lemma parse_regions_complete rs b e cursor acc :
  0 <= cursor -> e <= blen b -> e < 2 ^ 64 -> Forall SerializedRegion_typed rs ->
  cursor + blen (regions_bytes rs) <= e ->
  seg b cursor (cursor + blen (regions_bytes rs)) = regions_bytes rs ->
  parse_regions (length rs) b e cursor acc = Ok (acc ++ rs, cursor + blen (regions_bytes rs)).
Proof.
  intros Hc He Hmax Hf. revert cursor acc Hc.
  induction Hf as [|r rs (Ht & Ho & Hb) Hf IH]; intros cursor acc Hc Hle Hs;
    cbn [parse_regions length].
  - rewrite app_nil_r. change (blen (regions_bytes [])) with 0. by rewrite Z.add_0_r.
  - unfold SERIALIZED_REGION_HEADER_LEN.
    rewrite blen_regions_cons in *.
    pose proof (encoded_len_min r). pose proof (blen_nonneg (regions_bytes rs)).
    rewrite regions_bytes_cons in Hs. apply seg_app_iff in Hs as [Hs1 Hs2];
      [|rewrite ?blen_region_bytes; lia..].
    rewrite blen_region_bytes in *. apply region_segments in Hs1 as (H1 & H2 & H3 & H4 & H5); [|lia..].
    unfold SerializedRegion_encoded_len, SERIALIZED_REGION_HEADER_LEN in *.
    rewrite reject_if_false, bind_ret by lia.
    rewrite (proj2 (read_u16_Ok b cursor (sr_region_type r) ltac:(lia))), bind_ret
      by (split_and!; first [done|lia]).
    rewrite (proj2 (read_u16_Ok b (cursor + 2) 0 ltac:(lia))), bind_ret
      by (rewrite <- Z.add_assoc; split_and!; first [done|lia|by unfold fits]).
    rewrite reject_if_false, bind_ret by done.
    rewrite (proj2 (read_u64_Ok b (cursor + 4) (sr_offset r) ltac:(lia))), bind_ret
      by (rewrite <- Z.add_assoc; split_and!; first [done|lia]).
    rewrite (proj2 (read_u32_Ok b (cursor + 12) (blen (sr_bytes r)) ltac:(lia))), bind_ret
      by (rewrite <- Z.add_assoc; split_and!; first [done|lia]).
    run. rewrite H5, IH by (lia || (etrans; [|exact Hs2]; f_equal; lia)).
    rewrite <- app_assoc, <- !Z.add_assoc. by destruct r.
Qed.

Lemma parse_regions_no_panic n b e cursor acc :
  0 <= cursor -> e <= blen b -> parse_regions n b e cursor acc <> Panic.
Proof.
  revert cursor acc. induction n as [|n IH]; intros cursor acc Hc He; cbn [parse_regions]; [done|].
  unfold SERIALIZED_REGION_HEADER_LEN. no_panic.
  all: match goal with H : ok_or (checked_add _ _ _) _ = Ok _ |- _ =>
      apply ok_or_Ok, checked_add_Some in H as [_ ->] end.
  - apply slice_no_panic; lia.
  - apply IH; lia.
Qed.

(** ** The image on the wire *)

(** The Rust types of the fields; a [Vec] of regions has no type bound of its own. *)
Definition CriticalMetadataImage_typed (h : CriticalMetadataImage) : Prop :=
  u16 (mi_volume_format_rev h)
  /\ blen (mi_archive_uuid h) = 16
  /\ blen (mi_session_id h) = 16
  /\ u32 (mi_volume_index h)
  /\ u32 (mi_stripe_width h)
  /\ u32 (mi_layout_flags h)
  /\ u32 (mi_volume_header_length h)
  /\ u32 (mi_crypto_header_length h)
  /\ u32 (mi_key_wrap_table_length h)
  /\ u32 (mi_manifest_footer_length h)
  /\ u32 (mi_root_auth_footer_length h)
  /\ u32 (mi_volume_trailer_length h)
  /\ u64 (mi_volume_header_offset h)
  /\ u64 (mi_crypto_header_offset h)
  /\ u64 (mi_key_wrap_table_offset h)
  /\ u64 (mi_block_records_offset h)
  /\ u64 (mi_block_records_length h)
  /\ u64 (mi_block_count h)
  /\ u64 (mi_manifest_footer_offset h)
  /\ u64 (mi_root_auth_footer_offset h)
  /\ u64 (mi_volume_trailer_offset h)
  /\ u64 (mi_body_bytes_before_cmra h)
  /\ blen (mi_volume_header_sha256 h) = 32
  /\ blen (mi_crypto_header_sha256 h) = 32
  /\ blen (mi_key_wrap_table_sha256 h) = 32
  /\ blen (mi_manifest_footer_sha256 h) = 32
  /\ blen (mi_root_auth_footer_sha256 h) = 32
  /\ blen (mi_volume_trailer_sha256 h) = 32
  /\ Forall SerializedRegion_typed (mi_regions h).

(** A typed image of the supported revision, with the two known layout flags. *)
Definition CriticalMetadataImage_valid (h : CriticalMetadataImage) : Prop :=
  CriticalMetadataImage_typed h /\ mi_volume_format_rev h = VOLUME_FORMAT_REV_45
  /\ mi_layout_flags h < 4 /\ u16 (Z.of_nat (length (mi_regions h))).

Definition image_fixed (h : CriticalMetadataImage) : bytes :=
  puts (zeros CRITICAL_METADATA_IMAGE_FIXED_LEN)
    (image_fields h (Z.of_nat (length (mi_regions h)))).

Definition image_body (h : CriticalMetadataImage) : bytes :=
  image_fixed h ++ regions_bytes (mi_regions h).

Definition image_bytes (h : CriticalMetadataImage) : bytes :=
  image_body h ++ le_bytes 4 (crc32c (image_body h)).

Lemma image_fields_fit h count :
  CriticalMetadataImage_typed h -> fits_in 0 364 (image_fields h count).
Proof. unfold CriticalMetadataImage_typed. intros H. destruct_and!. unfold image_fields. layout. lia. Qed.

Lemma blen_image_fixed h : CriticalMetadataImage_typed h -> blen (image_fixed h) = 364.
Proof. intros H. apply blen_puts. by apply image_fields_fit. Qed.

Lemma image_segments b h :
  CriticalMetadataImage_typed h ->
  image_bytes h = b
  <-> blen b = 368 + blen (regions_bytes (mi_regions h))
      /\ covers 0 364 (image_fields h (Z.of_nat (length (mi_regions h)))) (seg b 0 364)
      /\ seg b 364 (blen b - 4) = regions_bytes (mi_regions h)
      /\ seg b (blen b - 4) (blen b) = le_bytes 4 (crc32c (seg b 0 (blen b - 4))).
Proof.
  intros HT. pose proof (image_fields_fit h (Z.of_nat (length (mi_regions h))) HT) as Hf.
  pose proof (blen_image_fixed h HT) as Hl. pose proof (blen_nonneg (regions_bytes (mi_regions h))).
  unfold image_bytes, image_body. set (regs := regions_bytes (mi_regions h)) in *.
  assert (forall b', image_fixed h = b' <->
            blen b' = 364 /\ covers 0 364 (image_fields h (Z.of_nat (length (mi_regions h)))) b') as Hfix.
  { intros b'. unfold image_fixed, CRITICAL_METADATA_IMAGE_FIXED_LEN. by apply puts_iff. }
  split.
  - intros <-. set (crc := le_bytes 4 _). assert (blen crc = 4) as Hcrc by apply blen_le.
    set (b := (image_fixed h ++ regs) ++ crc).
    assert (blen b = 368 + blen regs) as Hb by (unfold b; rewrite !blen_app; lia).
    pose proof (seg_full b) as Hs. unfold b in Hs at 3.
    rewrite seg_app_iff in Hs by (rewrite ?blen_app; lia). destruct Hs as [Hs1 Hs2].
    rewrite blen_app, Hl in Hs1, Hs2.
    replace (0 + (364 + blen regs)) with (blen b - 4) in Hs1, Hs2 by lia.
    split; [done|]. rewrite Hs1, Hs2. apply seg_app_iff in Hs1 as [H1 H2]; [|lia..].
    rewrite Hl in H1, H2. split_and!; [|done|done].
    apply Hfix. symmetry. exact H1.
  - intros (Hb & H1 & H2 & H3).
    assert (image_fixed h = seg b 0 364) as -> by (apply Hfix; rewrite blen_seg by lia; done).
    rewrite <- H2, <- seg_split by lia. rewrite <- H3, <- seg_split by lia. apply seg_full.
Qed.

Lemma image_bytes_bound h :
  CriticalMetadataImage_valid h -> blen (regions_bytes (mi_regions h)) < 2 ^ 49.
Proof.
  intros (HT & _ & _ & Hn). assert (Forall SerializedRegion_typed (mi_regions h)) as Hf by apply HT.
  assert (Forall (fun r => u32 (blen (sr_bytes r))) (mi_regions h)) as Hf'
    by (eapply Forall_impl; [exact Hf|]; intros r (_ & _ & ?); done).
  pose proof (regions_bytes_bound _ Hf'). unfold fits in Hn. nia.
Qed.

Lemma CriticalMetadataImage_to_bytes_valid h :
  CriticalMetadataImage_valid h -> CriticalMetadataImage_to_bytes h = Ok (image_bytes h).
Proof.
  intros Hv. pose proof (image_bytes_bound h Hv) as Hb. destruct Hv as (HT & Hrev & _ & Hn).
  pose proof (blen_nonneg (regions_bytes (mi_regions h))).
  assert (Forall (fun r => u32 (blen (sr_bytes r))) (mi_regions h)) as Hf
    by (eapply Forall_impl; [apply HT|]; intros r (_ & _ & ?); done).
  unfold CriticalMetadataImage_to_bytes, critical_metadata_image_fixed_len.
  rewrite Hrev, Z.eqb_refl, bind_ret.
  rewrite (ok_or_eq _ (Z.of_nat (length (mi_regions h)))), bind_ret by by apply try_from_Some.
  rewrite (proj2 (regions_len_Ok _ 0 (blen (regions_bytes (mi_regions h))) ltac:(lia))), bind_ret by lia.
  unfold CRITICAL_METADATA_IMAGE_FIXED_LEN, IMAGE_CRC_LEN in *.
  rewrite (ok_or_eq _ (364 + blen (regions_bytes (mi_regions h)) + 4)), bind_ret
    by (apply checked_add3_Some; lia).
  cbv zeta. rewrite (puts_zeros_app 364) by (lia || by apply image_fields_fit).
  pose proof (blen_image_fixed h HT) as Hl. unfold image_bytes, image_body.
  assert (puts (zeros 364) (image_fields h (Z.of_nat (length (mi_regions h)))) = image_fixed h)
    as -> by done.
  set (regs := regions_bytes (mi_regions h)) in *. set (fixed := image_fixed h) in *. clearbody fixed.
  pose proof (write_regions_iff (mi_regions h) fixed (364 + blen regs + 4 - 364)) as Hw.
  rewrite Hl in Hw. rewrite (proj2 (Hw _ ltac:(fold regs; lia)) (conj Hf eq_refl)), bind_ret, mret_eq.
  f_equal. fold regs. replace (364 + blen regs + 4 - 364 - blen regs) with 4 by lia.
  rewrite <- Hl, <- blen_app. unfold put_crc.
  rewrite seg_app_l, seg_full by lia. rewrite put_append by (rewrite blen_le; lia).
  rewrite blen_le. change (zeros _) with (@nil Byte.byte). by rewrite app_nil_r.
Qed.

(** The segments of the fixed part, read from the whole string. *)
Lemma image_fixed_segments b h :
  364 <= blen b -> CriticalMetadataImage_typed h ->
  covers 0 364 (image_fields h (Z.of_nat (length (mi_regions h)))) (seg b 0 364)
  <-> covers 0 364 (image_fields h (Z.of_nat (length (mi_regions h)))) b.
Proof.
  intros Hb HT. unfold CriticalMetadataImage_typed in HT. destruct_and!. unfold image_fields. layout.
  rewrite !seg_seg by lia. done.
Qed.

Lemma layout_flags_iff f : u32 f -> negb (Z.land f (unot 32 3) =? 0) = false <-> f < 4.
Proof.
  intros Hf. rewrite negb_false_iff, Z.eqb_eq. apply (land_unot_low 32 2); [done|lia].
Qed.

Lemma CriticalMetadataImage_parse_sound b h :
  CriticalMetadataImage_parse b = Ok h -> CriticalMetadataImage_valid h /\ image_bytes h = b.
Proof.
  intros H. unfold CriticalMetadataImage_parse, critical_metadata_image_fixed_len in H.
  unfold_consts. bind_inv H.
  assert (r4 = 45 /\ r5 = 364) as [-> ->].
  { destruct (r4 =? 45) eqn:E in Hr5; [injection Hr5 as <-; lia|done]. }
  apply ok_or_Ok, checked_sub_Some in Hr11 as [_ ->].
  apply read_u16_range in Hr15 as Hcount. wire_facts.
  apply layout_flags_iff in Hr8; [|done]. wire_eqs.
  apply parse_regions_sound in Hr16 as (rs & -> & Hl & Hf & Hc & _ & Hs); [|lia..].
  cbn [app] in *. assert (Z.of_nat (length rs) = r15) as Hrs by lia.
  assert (CriticalMetadataImage_typed h) as HT.
  { subst h. unfold CriticalMetadataImage_typed. cbn. layout. split_and!; done. }
  split; [subst h; split_and!; [done|done|done|by cbn; rewrite Hrs]|].
  apply image_segments; [done|]. pose proof (blen_nonneg (regions_bytes rs)).
  split; [subst h; cbn; lia|]. split; [|split; [by subst h|]].
  - apply image_fixed_segments; [lia|done|]. subst h.
    unfold image_fields. cbn. rewrite Hrs. layout. rewrite !seg_nil. split_and!; done.
  - replace (blen b) with (blen b - 4 + 4) at 2 by lia. by rewrite <- Hr14.
Qed.

Lemma CriticalMetadataImage_parse_complete h :
  CriticalMetadataImage_valid h -> CriticalMetadataImage_parse (image_bytes h) = Ok h.
Proof.
  intros Hv. pose proof (image_bytes_bound h Hv) as Hbound. destruct Hv as (HT & Hrev & Hfl & Hn).
  remember (image_bytes h) as b eqn:Hb. symmetry in Hb.
  apply image_segments in Hb as (Hlen & Hfix & Hregs & Hcrc); [|done].
  pose proof (blen_nonneg (regions_bytes (mi_regions h))).
  rewrite image_fixed_segments in Hfix by (done || lia).
  revert Hfix. destruct h. cbn in Hlen, Hfl, Hn, Hrev, Hregs, Hbound. subst.
  unfold image_fields, CriticalMetadataImage_typed in *. cbn in HT. cbn. destruct_and!.
  layout. intros Hfix. destruct_and!.
  unfold CriticalMetadataImage_parse, critical_metadata_image_fixed_len. unfold_consts.
  apply layout_flags_iff in Hfl; [|done]. cbn [mi_regions] in *.
  assert (read_u32 b (blen b - 4) = Ok (crc32c (seg b 0 (blen b - 4)))) as Hread.
  { apply read_u32_Ok; [lia|]. replace (blen b - 4 + 4) with (blen b) by lia. by split_and!; [lia|..]. }
  assert (parse_regions (Z.to_nat (Z.of_nat (length mi_regions0))) b (blen b - 4) 364 []
          = Ok (mi_regions0, blen b - 4)) as Hparse.
  { rewrite Nat2Z.id. replace (blen b - 4) with (364 + blen (regions_bytes mi_regions0)) in * by lia.
    by rewrite parse_regions_complete by (done || lia). }
  wire_run. rewrite Hread. wire_run. f_equal. by f_equal.
Qed.

Lemma critical_metadata_image_fixed_len_Ok rev n :
  critical_metadata_image_fixed_len rev = Ok n <-> rev = 45 /\ n = 364.
Proof.
  unfold critical_metadata_image_fixed_len, VOLUME_FORMAT_REV_45, CRITICAL_METADATA_IMAGE_FIXED_LEN.
  destruct (Z.eqb_spec rev 45); split; [intros [= <-]|intros [_ ->]|..]; try done. by intros [? _].
Qed.

Lemma CriticalMetadataImage_parse_no_panic b : CriticalMetadataImage_parse b <> Panic.
Proof.
  unfold CriticalMetadataImage_parse, IMAGE_CRC_LEN. no_panic.
  { unfold critical_metadata_image_fixed_len. by case_match. }
  all: match goal with H : critical_metadata_image_fixed_len _ = Ok _ |- _ =>
         apply critical_metadata_image_fixed_len_Ok in H as [_ ->] end.
  all: repeat match goal with H : ok_or (checked_sub _ _) _ = Ok _ |- _ =>
         apply ok_or_Ok, checked_sub_Some in H as [_ ->] end.
  all: first [apply slice_no_panic; lia|apply parse_regions_no_panic; lia].
Qed.

Lemma CriticalMetadataImage_parse_iff b h :
  CriticalMetadataImage_parse b = Ok h <-> CriticalMetadataImage_valid h /\ image_bytes h = b.
Proof.
  split; [apply CriticalMetadataImage_parse_sound|].
  intros [Hv <-]. by apply CriticalMetadataImage_parse_complete.
Qed.

#[export] Instance CriticalMetadataImage_wire : WireFormat CriticalMetadataImage := {|
  encode := image_bytes;
  decode := CriticalMetadataImage_parse;
  valid := CriticalMetadataImage_valid;
  decode_iff := CriticalMetadataImage_parse_iff
|}.

(** ** Theorem *)

(** The critical metadata image.  The parser accepts a string exactly when it
    is what the writer makes of a typed image of revision 45 with at most 65,535
    regions and no layout flag above the two known ones, and it returns that
    image; on every such image the writer succeeds, so no length computation
    overflows; the parser never panics, whatever region lengths the string
    announces. *)
Theorem metadata_image_codec b h :
  (CriticalMetadataImage_parse b = Ok h
   <-> (CriticalMetadataImage_typed h /\ mi_volume_format_rev h = VOLUME_FORMAT_REV_45
        /\ mi_layout_flags h < 4 /\ Z.of_nat (length (mi_regions h)) < 2 ^ 16)
       /\ CriticalMetadataImage_to_bytes h = Ok b)
  /\ CriticalMetadataImage_parse b <> Panic.
Proof.
  split; [|apply CriticalMetadataImage_parse_no_panic]. rewrite CriticalMetadataImage_parse_iff.
  assert (CriticalMetadataImage_valid h
    <-> CriticalMetadataImage_typed h /\ mi_volume_format_rev h = VOLUME_FORMAT_REV_45
        /\ mi_layout_flags h < 4 /\ Z.of_nat (length (mi_regions h)) < 2 ^ 16) as <-
    by (unfold CriticalMetadataImage_valid, fits; intuition lia).
  split; intros [Hv Hb]; (split; [done|]); rewrite CriticalMetadataImage_to_bytes_valid in * by done;
    [by rewrite Hb|by injection Hb].
Qed.
End CriticalMetadataImage.
