(* ===== verification/WriterPlan.v ===== *)
(** * What a writer decides before it writes

    [WriterOptions] of [crates/tzap-core/src/writer/mod.rs] and, from
    [writer/envelope.rs], the completion and checking of the options, the
    number of parity blocks of an object, the sizes of encrypted objects and
    the crypto header that records the choices. *)

From S2P Require Import Wire CryptoHeaderFixed Kdf Extensions Crypto CryptoHeader.
#[local] Open Scope Z_scope.

Definition DEFAULT_BLOCK_SIZE : Z := 64 * 1024.
Definition DEFAULT_CHUNK_SIZE : Z := 256 * 1024.
Definition DEFAULT_ENVELOPE_TARGET_SIZE : Z := 1024 * 1024.
Definition DEFAULT_FEC_DATA_SHARDS : Z := 224.
Definition DEFAULT_FEC_PARITY_SHARDS : Z := 1.
Definition DEFAULT_INDEX_FEC_DATA_SHARDS : Z := 16.
Definition DEFAULT_INDEX_FEC_PARITY_SHARDS : Z := 1.
Definition MIN_INDEX_ROOT_FEC_DATA_SHARDS : Z := 16.
Definition DEFAULT_INDEX_ROOT_FEC_DATA_SHARDS : Z := MIN_INDEX_ROOT_FEC_DATA_SHARDS.
Definition DEFAULT_INDEX_ROOT_FEC_PARITY_SHARDS : Z := 1.
Definition DEFAULT_STRIPE_WIDTH : Z := 8.
Definition DEFAULT_VOLUME_LOSS_TOLERANCE : Z := 1.
Definition DEFAULT_BIT_ROT_BUFFER_PCT : Z := 5.
Definition MAX_REED_SOLOMON_GF16_SHARDS : Z := 65535.
Definition MIN_BLOCK_SIZE : Z := 4096.

Record WriterOptions : Type := {
  wo_block_size : Z;
  wo_chunk_size : Z;
  wo_envelope_target_size : Z;
  wo_stripe_width : Z;
  wo_volume_loss_tolerance : Z;
  wo_bit_rot_buffer_pct : Z;
  wo_zstd_level : Z;
  wo_jobs : Z;
  wo_aead_algo : AeadAlgo.t;
  wo_fec_data_shards : Z;
  wo_fec_parity_shards : Z;
  wo_index_fec_data_shards : Z;
  wo_index_fec_parity_shards : Z;
  wo_index_root_fec_data_shards : Z;
  wo_index_root_fec_parity_shards : Z;
  wo_max_path_length : Z;
  wo_target_volume_size : option Z;
  wo_archive_uuid : option bytes;
  wo_session_id : option bytes;
  wo_closed_at_ns : Z
}.

(** [WriterOptions::default]; [default_jobs] asks the operating system. *)
Definition WriterOptions_default (default_jobs : Z) : WriterOptions := {|
  wo_block_size := DEFAULT_BLOCK_SIZE;
  wo_chunk_size := DEFAULT_CHUNK_SIZE;
  wo_envelope_target_size := DEFAULT_ENVELOPE_TARGET_SIZE;
  wo_stripe_width := DEFAULT_STRIPE_WIDTH;
  wo_volume_loss_tolerance := DEFAULT_VOLUME_LOSS_TOLERANCE;
  wo_bit_rot_buffer_pct := DEFAULT_BIT_ROT_BUFFER_PCT;
  wo_zstd_level := 3;
  wo_jobs := default_jobs;
  wo_aead_algo := AeadAlgo.AesGcmSiv256;
  wo_fec_data_shards := DEFAULT_FEC_DATA_SHARDS;
  wo_fec_parity_shards := DEFAULT_FEC_PARITY_SHARDS;
  wo_index_fec_data_shards := DEFAULT_INDEX_FEC_DATA_SHARDS;
  wo_index_fec_parity_shards := DEFAULT_INDEX_FEC_PARITY_SHARDS;
  wo_index_root_fec_data_shards := DEFAULT_INDEX_ROOT_FEC_DATA_SHARDS;
  wo_index_root_fec_parity_shards := DEFAULT_INDEX_ROOT_FEC_PARITY_SHARDS;
  wo_max_path_length := 4096;
  wo_target_volume_size := None;
  wo_archive_uuid := None;
  wo_session_id := None;
  wo_closed_at_ns := 0 |}.

Definition set_index_root_class (options : WriterOptions) (data parity : Z) : WriterOptions :=
  {| wo_block_size := wo_block_size options;
     wo_chunk_size := wo_chunk_size options;
     wo_envelope_target_size := wo_envelope_target_size options;
     wo_stripe_width := wo_stripe_width options;
     wo_volume_loss_tolerance := wo_volume_loss_tolerance options;
     wo_bit_rot_buffer_pct := wo_bit_rot_buffer_pct options;
     wo_zstd_level := wo_zstd_level options;
     wo_jobs := wo_jobs options;
     wo_aead_algo := wo_aead_algo options;
     wo_fec_data_shards := wo_fec_data_shards options;
     wo_fec_parity_shards := wo_fec_parity_shards options;
     wo_index_fec_data_shards := wo_index_fec_data_shards options;
     wo_index_fec_parity_shards := wo_index_fec_parity_shards options;
     wo_index_root_fec_data_shards := data;
     wo_index_root_fec_parity_shards := parity;
     wo_max_path_length := wo_max_path_length options;
     wo_target_volume_size := wo_target_volume_size options;
     wo_archive_uuid := wo_archive_uuid options;
     wo_session_id := wo_session_id options;
     wo_closed_at_ns := wo_closed_at_ns options |}.

Definition set_parity_classes (options : WriterOptions) (payload index : Z) : WriterOptions :=
  {| wo_block_size := wo_block_size options;
     wo_chunk_size := wo_chunk_size options;
     wo_envelope_target_size := wo_envelope_target_size options;
     wo_stripe_width := wo_stripe_width options;
     wo_volume_loss_tolerance := wo_volume_loss_tolerance options;
     wo_bit_rot_buffer_pct := wo_bit_rot_buffer_pct options;
     wo_zstd_level := wo_zstd_level options;
     wo_jobs := wo_jobs options;
     wo_aead_algo := wo_aead_algo options;
     wo_fec_data_shards := wo_fec_data_shards options;
     wo_fec_parity_shards := payload;
     wo_index_fec_data_shards := wo_index_fec_data_shards options;
     wo_index_fec_parity_shards := index;
     wo_index_root_fec_data_shards := wo_index_root_fec_data_shards options;
     wo_index_root_fec_parity_shards := wo_index_root_fec_parity_shards options;
     wo_max_path_length := wo_max_path_length options;
     wo_target_volume_size := wo_target_volume_size options;
     wo_archive_uuid := wo_archive_uuid options;
     wo_session_id := wo_session_id options;
     wo_closed_at_ns := wo_closed_at_ns options |}.

(** ** Arithmetic *)
Definition checked_u64_add (lhs rhs : Z) (field : string) : fresult Z :=
  ok_or (checked_add 64 lhs rhs) (WriterUnsupported field).

Definition checked_u64_mul (lhs rhs : Z) (field : string) : fresult Z :=
  ok_or (checked_mul 64 lhs rhs) (WriterUnsupported field).

Definition ceil_div (numerator denominator : Z) : fresult Z :=
  reject_if (denominator =? 0) (WriterUnsupported "division by zero");;
  value ← ok_or (checked_add 64 numerator (denominator - 1))
    (WriterUnsupported "ceiling division overflow");
  mret (value / denominator).

Definition cmra_min_parity_shards (data_shard_count pct : Z) : fresult Z :=
  product ← checked_u64_mul data_shard_count pct "CMRA parity overflow";
  by_pct ← ceil_div product 100;
  mret (Z.max 2 by_pct).

(** ** Parity counts *)

(** The [for _ in 0..100] loop: [rounds] are left, [parity] is the current value. *)
Fixpoint compute_parity_loop (rounds : nat) (data_block_count : Z) (options : WriterOptions)
    (min_parity parity : Z) : fresult Z :=
  match rounds with
  | O => Err (WriterUnsupported "parity calculation did not converge")
  | S rounds =>
      total ← ok_or (checked_add 64 data_block_count parity)
        (WriterUnsupported "parity total overflow");
      per_volume ← ceil_div total (wo_stripe_width options);
      by_volume ← checked_u64_mul (wo_volume_loss_tolerance options) per_volume
        "volume-loss parity overflow";
      product ← checked_u64_mul total (wo_bit_rot_buffer_pct options) "bit-rot parity overflow";
      by_bitrot ← ceil_div product 100;
      sum ← ok_or (checked_add 64 by_volume by_bitrot) (WriterUnsupported "parity overflow");
      let next := Z.max sum min_parity in
      if next =? parity then ok_or (try_from 32 next) (WriterUnsupported "parity count")
      else compute_parity_loop rounds data_block_count options min_parity next
  end.

Definition compute_parity (data_block_count : Z) (options : WriterOptions) : fresult Z :=
  let min_parity :=
    if (0 <? wo_volume_loss_tolerance options) || (0 <? wo_bit_rot_buffer_pct options)
    then 1 else 0 in
  compute_parity_loop 100 data_block_count options min_parity 0.

Definition compute_parity_u16 (data_block_count : Z) (options : WriterOptions) (field : string)
    : fresult Z :=
  parity ← compute_parity data_block_count options;
  ok_or (try_from 16 parity) (WriterUnsupported field).

Definition compute_object_parity (data_block_count : Z) (options : WriterOptions)
    (class_parity_shard_max : Z) : fresult Z :=
  computed ← compute_parity data_block_count options;
  reject_if (class_parity_shard_max <? computed)
    (WriterUnsupported "encrypted object exceeds its parity shard class maximum");;
  mret computed.

Definition validate_object_shard_total (data_block_count parity_block_count : Z) : fresult unit :=
  total ← checked_u64_add data_block_count parity_block_count "encrypted object shard total overflow";
  reject_if (MAX_REED_SOLOMON_GF16_SHARDS <? total)
    (WriterUnsupported "encrypted object exceeds ReedSolomonGF16 shard limit").

(** ** Completing and checking the options *)
Definition validate_writer_options_match_reader_caps (options : WriterOptions) : fresult unit :=
  CryptoHeaderFixed_validate_supported_profile {|
    ch_length := CRYPTO_HEADER_FIXED_LEN;
    ch_compression_algo := CompressionAlgo.ZstdFramed;
    ch_aead_algo := wo_aead_algo options;
    ch_fec_algo := FecAlgo.ReedSolomonGF16;
    ch_kdf_algo := if AeadAlgo_is_encrypted (wo_aead_algo options) then KdfAlgo.Raw else KdfAlgo.None;
    ch_chunk_size := wo_chunk_size options;
    ch_envelope_target_size := wo_envelope_target_size options;
    ch_block_size := wo_block_size options;
    ch_fec_data_shards := wo_fec_data_shards options;
    ch_fec_parity_shards := wo_fec_parity_shards options;
    ch_index_fec_data_shards := wo_index_fec_data_shards options;
    ch_index_fec_parity_shards := wo_index_fec_parity_shards options;
    ch_index_root_fec_data_shards := wo_index_root_fec_data_shards options;
    ch_index_root_fec_parity_shards := wo_index_root_fec_parity_shards options;
    ch_stripe_width := wo_stripe_width options;
    ch_volume_loss_tolerance := wo_volume_loss_tolerance options;
    ch_bit_rot_buffer_pct := wo_bit_rot_buffer_pct options;
    ch_has_dictionary := 0;
    ch_max_path_length := wo_max_path_length options;
    ch_expected_volume_size := default 0 (wo_target_volume_size options) |}.

Definition plan_writer_options (options : WriterOptions) : fresult WriterOptions :=
  reject_if (wo_jobs options =? 0) (WriterUnsupported "jobs must be at least 1");;
  reject_if ((wo_block_size options <? MIN_BLOCK_SIZE) || negb (wo_block_size options `mod` 2 =? 0))
    (WriterUnsupported "writer requires an even block size of at least 4096");;
  reject_if (wo_stripe_width options =? 0) (WriterUnsupported "stripe_width must be non-zero");;
  reject_if (wo_stripe_width options <=? wo_volume_loss_tolerance options)
    (WriterUnsupported "volume_loss_tolerance must be less than stripe_width");;
  reject_if ((wo_stripe_width options =? 1) && negb (wo_volume_loss_tolerance options =? 0))
    (WriterUnsupported "single-volume archives cannot tolerate volume loss");;
  reject_if (match wo_target_volume_size options with Some n => n =? 0 | None => false end)
    (WriterUnsupported "target_volume_size must be non-zero");;
  reject_if (100 <? wo_bit_rot_buffer_pct options)
    (WriterUnsupported "bit_rot_buffer_pct must be at most 100");;
  reject_if ((wo_chunk_size options =? 0) || (wo_envelope_target_size options <? wo_chunk_size options))
    (WriterUnsupported "chunk_size must be non-zero and no larger than envelope_target_size");;
  reject_if ((wo_fec_data_shards options =? 0) || (wo_index_fec_data_shards options =? 0)
             || (wo_index_root_fec_data_shards options =? 0))
    (WriterUnsupported "FEC data shard class maxima must be non-zero");;
  let options := set_index_root_class options
    (Z.max (wo_index_root_fec_data_shards options) MIN_INDEX_ROOT_FEC_DATA_SHARDS)
    (wo_index_root_fec_parity_shards options) in
  fec_parity_shards ← compute_parity_u16 (wo_fec_data_shards options) options "fec_parity_shards";
  let options := set_parity_classes options fec_parity_shards (wo_index_fec_parity_shards options) in
  index_fec_parity_shards ←
    compute_parity_u16 (wo_index_fec_data_shards options) options "index_fec_parity_shards";
  let options := set_parity_classes options (wo_fec_parity_shards options) index_fec_parity_shards in
  index_root_fec_parity_shards ←
    compute_parity_u16 (wo_index_root_fec_data_shards options) options
      "index_root_fec_parity_shards";
  let options := set_index_root_class options (wo_index_root_fec_data_shards options)
    index_root_fec_parity_shards in
  validate_writer_options_match_reader_caps options;;
  mret options.

(** ** Sizes of encrypted objects *)
Record PlannedEncryptedObject : Type := {
  po_data_block_count : Z;
  po_parity_block_count : Z;
  po_encrypted_size : Z
}.

(** Rust's remainder and division panic when [block_size] is zero. *)
Definition encrypted_object_data_extent (payload_len : Z) (options : WriterOptions)
    : fresult (Z * Z) :=
  let block_size := wo_block_size options in
  let tag_len := AeadAlgo_tag_len (wo_aead_algo options) in
  total_before_padding ← ok_or (checked_add 64 payload_len tag_len)
    (WriterUnsupported "encrypted object size overflow");
  if block_size =? 0 then Panic
  else
    let remainder := total_before_padding `mod` block_size in
    encrypted_size ←
      (if remainder =? 0
       then ok_or (checked_add 64 total_before_padding block_size)
              (WriterUnsupported "encrypted object size overflow")
       else ok_or (checked_add 64 total_before_padding (block_size - remainder))
              (WriterUnsupported "encrypted object size overflow"));
    encrypted_size ← ok_or (try_from 32 encrypted_size)
      (WriterUnsupported "encrypted object exceeds u32 size limit");
    mret (encrypted_size / block_size, encrypted_size).

Definition plan_encrypted_object_without_class (payload_len : Z) (options : WriterOptions)
    : fresult PlannedEncryptedObject :=
  '(data_block_count, encrypted_size) ← encrypted_object_data_extent payload_len options;
  parity_block_count ← compute_parity data_block_count options;
  mret {| po_data_block_count := data_block_count; po_parity_block_count := parity_block_count;
          po_encrypted_size := encrypted_size |}.

Definition plan_encrypted_object (payload_len data_shard_max parity_shard_max : Z)
    (options : WriterOptions) : fresult PlannedEncryptedObject :=
  plan ← plan_encrypted_object_without_class payload_len options;
  reject_if (data_shard_max <? po_data_block_count plan)
    (WriterUnsupported "encrypted object exceeds its data shard class maximum");;
  reject_if (parity_shard_max <? po_parity_block_count plan)
    (WriterUnsupported "encrypted object exceeds its parity shard class maximum");;
  validate_object_shard_total (po_data_block_count plan) (po_parity_block_count plan);;
  mret plan.

(** The errors that mean "too large for its class". *)
Definition size_limit_errors : list FormatError :=
  [WriterUnsupported "encrypted object exceeds u32 size limit";
   WriterUnsupported "encrypted object exceeds its data shard class maximum";
   WriterUnsupported "encrypted object exceeds its parity shard class maximum";
   WriterUnsupported "encrypted object exceeds ReedSolomonGF16 shard limit"].

Definition encrypted_object_can_fit (payload_len data_shard_max parity_shard_max : Z)
    (options : WriterOptions) : fresult bool :=
  match plan_encrypted_object payload_len data_shard_max parity_shard_max options with
  | Ok _ => Ok true
  | Err err => if bool_decide (err ∈ size_limit_errors) then Ok false else Err err
  | Panic => Panic
  end.

Definition payload_object_can_fit (payload_len : Z) (options : WriterOptions) : fresult bool :=
  encrypted_object_can_fit payload_len (wo_fec_data_shards options) (wo_fec_parity_shards options)
    options.

Definition index_object_can_fit (payload_len : Z) (options : WriterOptions) : fresult bool :=
  encrypted_object_can_fit payload_len (wo_index_fec_data_shards options)
    (wo_index_fec_parity_shards options) options.

Inductive MetadataObjectKind : Set := IndexRoot | Dictionary.

Definition too_large_error (kind : MetadataObjectKind) : FormatError :=
  match kind with
  | IndexRoot => WriterUnsupported "IndexRoot too large"
  | Dictionary => WriterUnsupported "dictionary object too large"
  end.

Definition map_metadata_encrypt_error (error : FormatError) (kind : MetadataObjectKind)
    : FormatError :=
  if bool_decide (error ∈ size_limit_errors) then too_large_error kind else error.

(** [r.map_err(|_| e)] *)
Definition or_err {A} (r : fresult A) (e : FormatError) : fresult A :=
  match r with
  | Err _ => Err e
  | r => r
  end.

Definition plan_metadata_object_without_class (payload_len : Z) (options : WriterOptions)
    (kind : MetadataObjectKind) : fresult PlannedEncryptedObject :=
  plan ← or_err (plan_encrypted_object_without_class payload_len options) (too_large_error kind);
  reject_if ((65535 <? po_data_block_count plan) || (65535 <? po_parity_block_count plan))
    (too_large_error kind);;
  or_err (validate_object_shard_total (po_data_block_count plan) (po_parity_block_count plan))
    (too_large_error kind);;
  mret plan.

Definition ensure_metadata_object_fits_class (plan : PlannedEncryptedObject)
    (options : WriterOptions) (kind : MetadataObjectKind) : fresult unit :=
  reject_if (wo_index_root_fec_data_shards options <? po_data_block_count plan)
    (too_large_error kind);;
  reject_if (wo_index_root_fec_parity_shards options <? po_parity_block_count plan)
    (too_large_error kind);;
  or_err (validate_object_shard_total (po_data_block_count plan) (po_parity_block_count plan))
    (too_large_error kind).

Record MetadataClassPlan : Type := {
  mc_options : WriterOptions;
  mc_index_root : PlannedEncryptedObject;
  mc_dictionary : option PlannedEncryptedObject
}.

(** [o.map(f).transpose()?] *)
Definition transpose {A B} (f : A -> fresult B) (o : option A) : fresult (option B) :=
  match o with
  | Some a => b ← f a; mret (Some b)
  | None => Ok None
  end.

Definition plan_index_root_metadata_class (options : WriterOptions)
    (compressed_index_root_len : Z) (compressed_dictionary_len : option Z)
    : fresult MetadataClassPlan :=
  index_root ← plan_metadata_object_without_class compressed_index_root_len options IndexRoot;
  dictionary ← transpose (fun len => plan_metadata_object_without_class len options Dictionary)
    compressed_dictionary_len;
  let required_data_shards :=
    Z.max (Z.max (Z.max (wo_index_root_fec_data_shards options) MIN_INDEX_ROOT_FEC_DATA_SHARDS)
             (po_data_block_count index_root))
      (match dictionary with Some plan => po_data_block_count plan | None => 0 end) in
  required_data_shards ← ok_or (try_from 16 required_data_shards) (too_large_error IndexRoot);
  let options := set_index_root_class options required_data_shards
    (wo_index_root_fec_parity_shards options) in
  required_parity_shards ← compute_parity_u16 (wo_index_root_fec_data_shards options) options
    "index_root_fec_parity_shards";
  let options := set_index_root_class options required_data_shards
    (Z.max (wo_index_root_fec_parity_shards options) required_parity_shards) in
  ensure_metadata_object_fits_class index_root options IndexRoot;;
  (match dictionary with
   | Some dictionary => ensure_metadata_object_fits_class dictionary options Dictionary
   | None => Ok tt
   end);;
  mret {| mc_options := options; mc_index_root := index_root; mc_dictionary := dictionary |}.

(** ** The crypto header *)
Section BuildCryptoHeader.
Context {Sha : Sha256} {Lib : CryptoLib}.

Definition header_of_options (options : WriterOptions) (length : Z) (kdf_algo : KdfAlgo.t)
    (has_dictionary : bool) : CryptoHeaderFixed := {|
  ch_length := length;
  ch_compression_algo := CompressionAlgo.ZstdFramed;
  ch_aead_algo := wo_aead_algo options;
  ch_fec_algo := FecAlgo.ReedSolomonGF16;
  ch_kdf_algo := kdf_algo;
  ch_chunk_size := wo_chunk_size options;
  ch_envelope_target_size := wo_envelope_target_size options;
  ch_block_size := wo_block_size options;
  ch_fec_data_shards := wo_fec_data_shards options;
  ch_fec_parity_shards := wo_fec_parity_shards options;
  ch_index_fec_data_shards := wo_index_fec_data_shards options;
  ch_index_fec_parity_shards := wo_index_fec_parity_shards options;
  ch_index_root_fec_data_shards := wo_index_root_fec_data_shards options;
  ch_index_root_fec_parity_shards := wo_index_root_fec_parity_shards options;
  ch_stripe_width := wo_stripe_width options;
  ch_volume_loss_tolerance := wo_volume_loss_tolerance options;
  ch_bit_rot_buffer_pct := wo_bit_rot_buffer_pct options;
  ch_has_dictionary := if has_dictionary then 1 else 0;
  ch_max_path_length := wo_max_path_length options;
  ch_expected_volume_size := default 0 (wo_target_volume_size options) |}.

(** [length as u32] keeps the low 32 bits. *)
Definition build_crypto_header (options : WriterOptions) (volume_format_rev : Z)
    (has_dictionary : bool) (subkeys : Subkeys) (archive_uuid session_id : bytes)
    (kdf_params : KdfParams) : fresult bytes :=
  kdf_payload ← serialize_kdf_params kdf_params;
  length ← ok_or
    (match checked_add3 CRYPTO_HEADER_FIXED_LEN (blen kdf_payload) CRYPTO_EXTENSION_HEADER_LEN with
     | Some value => checked_add 64 value CRYPTO_HEADER_HMAC_LEN
     | None => None
     end) (WriterUnsupported "CryptoHeader length overflow");
  let kdf_algo := kdf_algo_of kdf_params in
  reject_if (negb (valid_protection_mode (wo_aead_algo options) kdf_algo))
    (InvalidProtectionMode (wo_aead_algo options) kdf_algo);;
  let fixed := header_of_options options (length `mod` 2 ^ 32) kdf_algo has_dictionary in
  let b := CryptoHeaderFixed_to_bytes fixed ++ kdf_payload ++ le_bytes 2 0 ++ le_bytes 4 0 in
  hmac ← compute_integrity_tag HmacDomain.CryptoHeader (wo_aead_algo options) volume_format_rev
    (Some (mac_key subkeys)) archive_uuid session_id b;
  mret (b ++ hmac).
End BuildCryptoHeader.

(** ** Parity counts: what the loop computes *)

(** [ceil_div] without overflow. *)
Definition cdiv (a b : Z) : Z := (a + (b - 1)) / b.

Lemma ceil_div_Ok a b c :
  ceil_div a b = Ok c <-> b <> 0 /\ a + (b - 1) < 2 ^ 64 /\ c = cdiv a b.
Proof.
  unfold ceil_div, cdiv. split.
  - intros H. bind_inv H. apply ok_or_Ok, checked_add_Some in Hr0 as [? ->]. split_and!; [lia|lia|done].
  - intros (Hb & Hs & ->). rewrite reject_if_false by lia. run. done.
Qed.

Lemma cdiv_spec a b : 0 < b -> cdiv a b * b - b < a <= cdiv a b * b.
Proof. intros. unfold cdiv. pose proof (Z.div_mod (a + (b - 1)) b). pose proof (Z.mod_pos_bound (a + (b - 1)) b). nia. Qed.

Lemma cdiv_mono a a' b : 0 < b -> a <= a' -> cdiv a b <= cdiv a' b.
Proof. intros. unfold cdiv. apply Z.div_le_mono; lia. Qed.

Lemma cdiv_nonneg a b : 0 < b -> 0 <= a -> 0 <= cdiv a b.
Proof. intros. pose proof (cdiv_spec a b). nia. Qed.

Lemma checked_u64_mul_Ok a b f c : checked_u64_mul a b f = Ok c <-> a * b < 2 ^ 64 /\ c = a * b.
Proof.
  unfold checked_u64_mul, checked_mul. rewrite ok_or_Ok. case_match; split; intuition (congruence || lia).
Qed.

Lemma checked_u64_add_Ok a b f c : checked_u64_add a b f = Ok c <-> a + b < 2 ^ 64 /\ c = a + b.
Proof. unfold checked_u64_add. by rewrite ok_or_Ok, checked_add_Some. Qed.

(** The parity that [d] data blocks and [p] parity blocks ask for: enough to
    lose [v] of [s] volumes, and [pct] percent of the blocks beside. *)
Definition parity_demand (s v pct : Z) (d p : Z) : Z :=
  v * cdiv (d + p) s + cdiv ((d + p) * pct) 100.

Definition min_parity (v pct : Z) : Z := if (0 <? v) || (0 <? pct) then 1 else 0.

Definition parity_next (s v pct d p : Z) : Z := Z.max (parity_demand s v pct d p) (min_parity v pct).

Lemma parity_next_mono s v pct d p q :
  0 < s -> 0 <= v -> 0 <= pct -> p <= q -> parity_next s v pct d p <= parity_next s v pct d q.
Proof.
  intros Hs Hv Hp Hpq. unfold parity_next, parity_demand.
  pose proof (cdiv_mono (d + p) (d + q) s Hs). pose proof (cdiv_mono ((d + p) * pct) ((d + q) * pct) 100).
  nia.
Qed.

(** The loop stops at the least fixed point above its start. *)
Lemma compute_parity_loop_least rounds d o p r :
  0 < wo_stripe_width o -> 0 <= wo_volume_loss_tolerance o -> 0 <= wo_bit_rot_buffer_pct o ->
  let next := parity_next (wo_stripe_width o) (wo_volume_loss_tolerance o)
                (wo_bit_rot_buffer_pct o) d in
  compute_parity_loop rounds d o (min_parity (wo_volume_loss_tolerance o) (wo_bit_rot_buffer_pct o)) p
    = Ok r ->
  next r = r /\ u32 r /\ forall q, p <= q -> next q <= q -> r <= q.
Proof.
  intros Hs Hv Hp next. revert p. induction rounds as [|n IH]; intros p H; cbn [compute_parity_loop] in H; [done|].
  bind_inv H. apply ok_or_Ok, checked_add_Some in Hr as [_ ->].
  apply ceil_div_Ok in Hr0 as (_ & _ & ->), Hr3 as (_ & _ & ->).
  apply checked_u64_mul_Ok in Hr1 as [_ ->], Hr2 as [_ ->].
  apply ok_or_Ok, checked_add_Some in Hr4 as [_ ->].
  change (Z.max _ _) with (next p) in H. destruct (Z.eqb_spec (next p) p) as [E|E].
  - apply ok_or_Ok, try_from_Some in H as [-> Hr]. rewrite E in *. split_and!; [done|done|].
    intros q Hpq _. done.
  - apply IH in H as (H1 & H2 & H3). split_and!; [done|done|]. intros q Hpq Hq. apply H3; [|done].
    pose proof (parity_next_mono (wo_stripe_width o) (wo_volume_loss_tolerance o)
      (wo_bit_rot_buffer_pct o) d p q Hs Hv Hp Hpq) as Hm. change (next p <= next q) in Hm. lia.
Qed.

(** The Rust types of the options. *)
Definition WriterOptions_typed (o : WriterOptions) : Prop :=
  u32 (wo_block_size o) /\ u32 (wo_chunk_size o) /\ u32 (wo_envelope_target_size o)
  /\ u32 (wo_stripe_width o) /\ u8 (wo_volume_loss_tolerance o) /\ u8 (wo_bit_rot_buffer_pct o)
  /\ u64 (wo_jobs o) /\ u16 (wo_fec_data_shards o) /\ u16 (wo_fec_parity_shards o)
  /\ u16 (wo_index_fec_data_shards o) /\ u16 (wo_index_fec_parity_shards o)
  /\ u16 (wo_index_root_fec_data_shards o) /\ u16 (wo_index_root_fec_parity_shards o)
  /\ u32 (wo_max_path_length o)
  /\ (forall n, wo_target_volume_size o = Some n -> u64 n).

Lemma compute_parity_least d o p :
  WriterOptions_typed o -> wo_stripe_width o <> 0 -> compute_parity d o = Ok p ->
  let next := parity_next (wo_stripe_width o) (wo_volume_loss_tolerance o)
                (wo_bit_rot_buffer_pct o) d in
  next p = p /\ u32 p /\ forall q, 0 <= q -> next q <= q -> p <= q.
Proof.
  intros HT Hs H. unfold WriterOptions_typed, fits in HT. unfold compute_parity in H.
  by apply (compute_parity_loop_least 100 d o 0); [lia..|].
Qed.

(** The parity count depends on the stripe and on the two tolerances only. *)
Lemma compute_parity_ext d o o' :
  wo_stripe_width o = wo_stripe_width o' ->
  wo_volume_loss_tolerance o = wo_volume_loss_tolerance o' ->
  wo_bit_rot_buffer_pct o = wo_bit_rot_buffer_pct o' ->
  compute_parity d o = compute_parity d o'.
Proof.
  intros Hs Hv Hp. unfold compute_parity. rewrite Hv, Hp.
  generalize (if (0 <? wo_volume_loss_tolerance o') || (0 <? wo_bit_rot_buffer_pct o') then 1 else 0).
  intros m. generalize 0. generalize 100%nat.
  intros n. induction n as [|n IH]; intros p; cbn [compute_parity_loop]; [done|].
  rewrite Hs, Hv, Hp. repeat (apply bind_ext; intros ?). by rewrite IH.
Qed.

Lemma compute_parity_u16_Ok d o f p :
  compute_parity_u16 d o f = Ok p <-> compute_parity d o = Ok p /\ u16 p.
Proof.
  unfold compute_parity_u16. rewrite bind_Ok. setoid_rewrite ok_or_Ok. setoid_rewrite try_from_Some.
  split; [intros (q & H & -> & Hu); done|]. intros [H Hu]. by exists p.
Qed.

(** What [plan_writer_options] demands of the options and what it changes. *)
Definition plannable (o : WriterOptions) : Prop :=
  wo_jobs o <> 0 /\ 4096 <= wo_block_size o /\ wo_block_size o `mod` 2 = 0
  /\ wo_volume_loss_tolerance o < wo_stripe_width o /\ wo_bit_rot_buffer_pct o <= 100
  /\ 0 < wo_chunk_size o <= wo_envelope_target_size o
  /\ wo_target_volume_size o <> Some 0
  /\ wo_fec_data_shards o <> 0 /\ wo_index_fec_data_shards o <> 0
  /\ wo_index_root_fec_data_shards o <> 0.

Definition planned (o : WriterOptions) (payload index root : Z) : WriterOptions :=
  set_index_root_class (set_parity_classes o payload index)
    (Z.max (wo_index_root_fec_data_shards o) MIN_INDEX_ROOT_FEC_DATA_SHARDS) root.

Lemma plan_writer_options_Ok o o' :
  WriterOptions_typed o ->
  plan_writer_options o = Ok o'
  <-> plannable o
      /\ exists payload index root, u16 payload /\ u16 index /\ u16 root
         /\ o' = planned o payload index root
         /\ compute_parity (wo_fec_data_shards o) o = Ok payload
         /\ compute_parity (wo_index_fec_data_shards o) o = Ok index
         /\ compute_parity (Z.max (wo_index_root_fec_data_shards o) MIN_INDEX_ROOT_FEC_DATA_SHARDS) o
            = Ok root
         /\ validate_writer_options_match_reader_caps o' = Ok tt.
Proof.
  intros HT. unfold WriterOptions_typed, fits in HT. destruct_and!.
  unfold plan_writer_options, plannable, MIN_BLOCK_SIZE. split.
  - intros H'. bind_inv H'. subst o'.
    repeat match goal with H : compute_parity_u16 _ _ _ = Ok _ |- _ => apply compute_parity_u16_Ok in H as [H ?] end.
    cbn in *. split.
    + split_and!; try lia. intros E. rewrite E in *. done.
    + exists r8, r9, r10. destruct r11.
      split_and!; try done;
        (etrans; [|eassumption]); by apply compute_parity_ext.
  - intros (Hpl & payload & index & root & Hu1 & Hu2 & Hu3 & -> & Hc1 & Hc2 & Hc3 & Hval). destruct_and!.
    assert (match wo_target_volume_size o with Some n => n =? 0 | None => false end = false).
    { destruct (wo_target_volume_size o) as [n|] eqn:E; [|done].
      destruct (Z.eqb_spec n 0); congruence. }
    assert (forall d x f oo, u16 x -> compute_parity d o = Ok x ->
              wo_stripe_width oo = wo_stripe_width o ->
              wo_volume_loss_tolerance oo = wo_volume_loss_tolerance o ->
              wo_bit_rot_buffer_pct oo = wo_bit_rot_buffer_pct o ->
              compute_parity_u16 d oo f = Ok x) as Hcp.
    { intros d x f oo Hx Hd Hs Hv Hp. apply compute_parity_u16_Ok. split; [|done].
      etrans; [|exact Hd]. by apply compute_parity_ext. }
    do 9 (rewrite reject_if_false, bind_ret by (lia || done)). cbv zeta.
    rewrite (Hcp _ payload), bind_ret by done. cbv zeta.
    rewrite (Hcp _ index), bind_ret by done. cbv zeta.
    rewrite (Hcp _ root), bind_ret by done. cbv zeta.
    transitivity (validate_writer_options_match_reader_caps (planned o payload index root);;
                  mret (planned o payload index root)); [reflexivity|]. by rewrite Hval, bind_ret.
Qed.

Lemma planned_typed o payload index root :
  WriterOptions_typed o -> u16 payload -> u16 index -> u16 root ->
  WriterOptions_typed (planned o payload index root).
Proof.
  unfold WriterOptions_typed, planned, MIN_INDEX_ROOT_FEC_DATA_SHARDS, fits. intros.
  destruct_and!. cbn. split_and!; try done; lia.
Qed.

Lemma plan_writer_options_idem o o' :
  WriterOptions_typed o -> plan_writer_options o = Ok o' -> plan_writer_options o' = Ok o'.
Proof.
  intros HT H. pose proof H as H'. apply plan_writer_options_Ok in H' as
    (Hpl & payload & index & root & Hu1 & Hu2 & Hu3 & -> & Hc1 & Hc2 & Hc3 & Hval); [|done].
  apply plan_writer_options_Ok; [by apply planned_typed|]. split.
  - unfold plannable, planned, MIN_INDEX_ROOT_FEC_DATA_SHARDS in *. cbn. destruct_and!. split_and!; try done; lia.
  - exists payload, index, root. unfold planned in *. cbn in *.
    replace (Z.max (Z.max _ _) _) with (Z.max (wo_index_root_fec_data_shards o) MIN_INDEX_ROOT_FEC_DATA_SHARDS)
      by lia.
    split_and!; try done; (etrans; [|eassumption]); by apply compute_parity_ext.
Qed.

(** A profile stays supported when another key derivation of the same kind, a
    dictionary or a length is put in. *)
Lemma header_of_options_typed o len kdf dict :
  WriterOptions_typed o -> u32 len -> CryptoHeaderFixed_typed (header_of_options o len kdf dict).
Proof.
  unfold WriterOptions_typed, CryptoHeaderFixed_typed. intros HT Hlen. destruct_and!. cbn.
  split_and!; try done; [by destruct dict|]. destruct (wo_target_volume_size o) as [n|]; cbn; [auto|done].
Qed.

Lemma caps_header o :
  validate_writer_options_match_reader_caps o
  = CryptoHeaderFixed_validate_supported_profile (header_of_options o CRYPTO_HEADER_FIXED_LEN
      (if AeadAlgo_is_encrypted (wo_aead_algo o) then KdfAlgo.Raw else KdfAlgo.None) false).
Proof. done. Qed.

Lemma header_of_options_supported o len kdf dict :
  WriterOptions_typed o -> u32 len ->
  validate_writer_options_match_reader_caps o = Ok tt ->
  valid_protection_mode (wo_aead_algo o) kdf = true ->
  supported_profile (header_of_options o len kdf dict).
Proof.
  intros HT Hlen Hv Hm. rewrite caps_header in Hv.
  apply supported_profile_iff in Hv; [|by apply header_of_options_typed].
  apply valid_protection_mode_iff in Hm. destruct Hv. constructor; try done.
  cbn. by destruct dict.
Qed.

Section CryptoHeaderProofs.
Context {Sha : Sha256} {Lib : CryptoLib}.

Lemma blen_kdf_bytes params : KdfParams_valid params -> blen (kdf_bytes params) <= 82.
Proof.
  intros Hv. pose proof (serialize_kdf_params_valid _ Hv) as H.
  destruct params as [| |t m p salt|len count version digest]; cbn in H, Hv.
  - unfold kdf_bytes. cbn. by layout.
  - unfold kdf_bytes. cbn. by layout.
  - destruct Hv as (_ & _ & _ & Hb%argon2id_bounds_inv).
    bind_inv H. rewrite <- H, !blen_app. layout. lia.
  - unfold kdf_bytes. cbn. rewrite !blen_app. layout. lia.
Qed.

Lemma build_crypto_header_parse o rev dict subkeys u s params b :
  WriterOptions_typed o -> KdfParams_valid params ->
  validate_writer_options_match_reader_caps o = Ok tt ->
  build_crypto_header o rev dict subkeys u s params = Ok b ->
  exists h, CryptoHeader_parse b (blen b) = Ok h
    /\ ch_fixed h = header_of_options o (blen b) (kdf_algo_of params) dict
    /\ ch_kdf_params h = params /\ ch_extensions h = []
    /\ verify_integrity_tag HmacDomain.CryptoHeader (wo_aead_algo o) rev (Some (mac_key subkeys)) u s
         (ch_hmac_covered_bytes h) (ch_header_hmac h) = Ok tt.
Proof.
  intros HT Hk Hv H. unfold build_crypto_header in H.
  rewrite serialize_kdf_params_valid, bind_ret in H by done.
  pose proof (blen_kdf_bytes params Hk). pose proof (blen_nonneg (kdf_bytes params)).
  set (len := 76 + blen (kdf_bytes params) + 6 + 32).
  assert (match checked_add3 CRYPTO_HEADER_FIXED_LEN (blen (kdf_bytes params))
                  CRYPTO_EXTENSION_HEADER_LEN with
          | Some value => checked_add 64 value CRYPTO_HEADER_HMAC_LEN
          | None => None
          end = Some len) as Hlen.
  { unfold CRYPTO_HEADER_FIXED_LEN, CRYPTO_EXTENSION_HEADER_LEN, CRYPTO_HEADER_HMAC_LEN.
    rewrite (proj2 (checked_add3_Some 76 (blen (kdf_bytes params)) 6
      (76 + blen (kdf_bytes params) + 6) ltac:(lia))) by lia.
    apply checked_add_Some. unfold len. lia. }
  rewrite Hlen, (ok_or_eq _ _ _ eq_refl), bind_ret in H. bind_inv H.
  apply negb_false_iff in Hr. rewrite Z.mod_small in H, Hr0 by lia.
  set (fixed := header_of_options o len (kdf_algo_of params) dict) in *.
  assert (u32 len) as Hu by (unfold fits; lia).
  pose proof (header_of_options_typed o len (kdf_algo_of params) dict HT Hu) as Hft.
  pose proof (header_of_options_supported o len (kdf_algo_of params) dict HT Hu Hv Hr) as Hfs.
  pose proof (compute_integrity_tag_blen _ _ _ _ _ _ _ _ Hr0) as Hmac.
  assert (blen (CryptoHeaderFixed_to_bytes fixed) = 76) as Hfl by by apply CryptoHeaderFixed_blen.
  assert (blen b = len) as Hb.
  { subst b. rewrite !blen_app, Hfl, Hmac. layout. unfold len. lia. }
  exists {| ch_fixed := fixed; ch_kdf_params := params; ch_extensions := []; ch_header_hmac := r0;
            ch_hmac_covered_bytes := CryptoHeaderFixed_to_bytes fixed ++ kdf_bytes params
                                       ++ le_bytes 2 0 ++ le_bytes 4 0 |}.
  cbn [ch_fixed ch_kdf_params ch_extensions ch_hmac_covered_bytes ch_header_hmac].
  split; [|by rewrite Hb, verify_integrity_tag_Ok].
  apply CryptoHeader_parse_iff. split_and!; [|by subst b|done].
  unfold CryptoHeader_valid, CryptoHeaderFixed_valid. cbn.
  rewrite supported_profile_iff by done. rewrite Hb. unfold_consts.
  split_and!; try done. lia.
Qed.
End CryptoHeaderProofs.

(** ** Sizes of objects *)
Lemma encrypted_object_data_extent_Ok n o d size :
  0 < wo_block_size o -> 0 <= n ->
  encrypted_object_data_extent n o = Ok (d, size)
  <-> d = (n + AeadAlgo_tag_len (wo_aead_algo o)) / wo_block_size o + 1
      /\ size = d * wo_block_size o /\ u32 size.
Proof.
  intros Hb Hn. unfold encrypted_object_data_extent. rewrite (proj2 (Z.eqb_neq _ 0)) by lia.
  set (t := AeadAlgo_tag_len _). set (bs := wo_block_size o) in *.
  assert (0 <= t <= 16) as Ht by (unfold t; destruct (wo_aead_algo o); cbn; lia).
  pose proof (Z.div_mod (n + t) bs ltac:(lia)) as Hdm. pose proof (Z.mod_pos_bound (n + t) bs Hb) as Hmb.
  assert (0 <= (n + t) / bs) by (apply Z.div_pos; lia).
  set (q := (n + t) / bs) in *. remember ((n + t) `mod` bs) as r eqn:Er. clearbody q t. split.
  - intros H'. bind_inv H'. injection H' as <- <-. apply ok_or_Ok, checked_add_Some in Hr as [_ ->].
    apply ok_or_Ok, try_from_Some in Hr1 as [-> Hu].
    assert (r1 = (q + 1) * bs) as ->.
    { rewrite <- Er in Hr0. destruct (Z.eqb_spec r 0) as [E|E];
        apply ok_or_Ok, checked_add_Some in Hr0 as [_ ->]; lia. }
    rewrite Z.div_mul by lia. done.
  - intros (-> & -> & Hu). unfold fits in Hu.
    rewrite (ok_or_eq _ (n + t)) by (apply checked_add_Some; nia). rewrite bind_ret. cbv zeta. rewrite <- Er.
    assert ((if r =? 0
             then ok_or (checked_add 64 (n + t) bs) (WriterUnsupported "encrypted object size overflow")
             else ok_or (checked_add 64 (n + t) (bs - r))
                    (WriterUnsupported "encrypted object size overflow")) = Ok ((q + 1) * bs)) as ->.
    { destruct (Z.eqb_spec r 0) as [E|E];
        (rewrite (ok_or_eq _ ((q + 1) * bs)); [done|]; apply checked_add_Some; lia). }
    rewrite bind_ret, (ok_or_eq _ ((q + 1) * bs)) by by apply try_from_Some.
    rewrite bind_ret, Z.div_mul by lia. done.
Qed.

Lemma plan_encrypted_object_Ok n dmax pmax o plan :
  0 < wo_block_size o -> 0 <= n ->
  plan_encrypted_object n dmax pmax o = Ok plan
  <-> po_data_block_count plan = (n + AeadAlgo_tag_len (wo_aead_algo o)) / wo_block_size o + 1
      /\ po_encrypted_size plan = po_data_block_count plan * wo_block_size o
      /\ u32 (po_encrypted_size plan)
      /\ compute_parity (po_data_block_count plan) o = Ok (po_parity_block_count plan)
      /\ po_data_block_count plan <= dmax /\ po_parity_block_count plan <= pmax
      /\ po_data_block_count plan + po_parity_block_count plan <= 65535.
Proof.
  intros Hb Hn. unfold plan_encrypted_object, plan_encrypted_object_without_class,
    validate_object_shard_total, MAX_REED_SOLOMON_GF16_SHARDS. split.
  - intros H. bind_inv H. subst plan. bind_inv Hr. subst r. cbn in *.
    apply encrypted_object_data_extent_Ok in Hr3 as (-> & -> & Hu); [|done..].
    bind_inv Hr2. apply reject_if_Ok in Hr2. apply checked_u64_add_Ok in Hr as [_ ->].
    split_and!; try done; lia.
  - destruct plan as [d p size]. cbn. intros (-> & -> & Hu & Hp & Hd & Hpm & Ht).
    rewrite (proj2 (encrypted_object_data_extent_Ok n o _ _ Hb Hn)) by (split_and!; done).
    rewrite bind_ret, Hp, bind_ret, mret_eq, bind_ret. cbn.
    rewrite reject_if_false, bind_ret by lia. rewrite reject_if_false, bind_ret by lia.
    rewrite (proj2 (checked_u64_add_Ok _ _ _ _)) by (split; [lia|done]).
    rewrite bind_ret, reject_if_false by lia. done.
Qed.

Lemma compute_parity_no_panic d o : compute_parity d o <> Panic.
Proof.
  unfold compute_parity. generalize (if (0 <? wo_volume_loss_tolerance o) || (0 <? wo_bit_rot_buffer_pct o) then 1 else 0).
  intros m. generalize 0. generalize 100%nat. intros n.
  induction n as [|n IH]; intros p; cbn [compute_parity_loop]; [done|].
  unfold ceil_div, checked_u64_mul. no_panic. apply IH.
Qed.

(** ** Convergence

    While the tolerances ask for at most half of the blocks, one round halves
    the distance to the fixed point up to [v + 1], and then every round gains at
    least one. *)
Section Convergence.
Context (d : Z) (o : WriterOptions).
Hypothesis (HT : WriterOptions_typed o) (Hs : 0 < wo_stripe_width o).

Let s := wo_stripe_width o.
Let v := wo_volume_loss_tolerance o.
Let pct := wo_bit_rot_buffer_pct o.
Let next := parity_next s v pct d.

Hypothesis (Hd : 0 <= d < 2 ^ 31) (Hv : v <= 30)
  (Hhalf : 2 * (100 * v + pct * s) <= 100 * s).

Lemma tolerances_nonneg : 0 <= v /\ 0 <= pct <= 50.
Proof. unfold WriterOptions_typed, fits in HT. unfold v, pct, s in *. nia. Qed.

Lemma next_mono p q : p <= q -> next p <= next q.
Proof. intros Hpq. destruct tolerances_nonneg as [Hv0 Hp0]. apply parity_next_mono; [done|lia..]. Qed.

(** The distance that one round leaves. *)
Lemma parity_next_step p q : p <= q -> 2 * (next q - next p) <= (q - p) + 2 * (v + 1).
Proof.
  intros Hpq. destruct tolerances_nonneg as [Hv0 Hp0].
  unfold next, parity_next, parity_demand. fold s in Hs.
  pose proof (cdiv_spec (d + p) s Hs). pose proof (cdiv_spec (d + q) s Hs).
  pose proof (cdiv_mono (d + p) (d + q) s Hs ltac:(lia)).
  pose proof (cdiv_spec ((d + p) * pct) 100 ltac:(lia)).
  pose proof (cdiv_spec ((d + q) * pct) 100 ltac:(lia)).
  pose proof (cdiv_mono ((d + p) * pct) ((d + q) * pct) 100 ltac:(lia) ltac:(nia)).
  set (a := cdiv (d + p) s) in *. set (b := cdiv (d + q) s) in *.
  set (e := cdiv ((d + p) * pct) 100) in *. set (f := cdiv ((d + q) * pct) 100) in *.
  assert (2 * (v * (b - a) + (f - e)) <= (q - p) + 2 * (v + 1)); [|nia].
  assert ((b - a) * s < (q - p) + s) by lia.
  assert (100 * (f - e) < (q - p) * pct + 100) by lia.
  assert (100 * s * (v * (b - a)) <= 100 * v * ((q - p) + s)) by nia.
  assert (s * (100 * (f - e)) <= s * ((q - p) * pct + 100)) by nia.
  nia.
Qed.

Lemma parity_next_bound p : 0 <= p <= d + 2 * v + 4 -> 0 <= next p <= d + 2 * v + 4.
Proof.
  intros Hp. destruct tolerances_nonneg as [Hv0 Hp0].
  pose proof (parity_next_step (- d) p ltac:(lia)) as Hstep.
  assert (next (- d) <= 1) as Hz.
  { unfold next, parity_next, parity_demand, min_parity. replace (d + - d) with 0 by lia.
    rewrite Z.mul_0_l. unfold cdiv. fold s in Hs. rewrite !Z.div_small by lia. case_match; lia. }
  assert (0 <= next p); [|lia].
  unfold next, parity_next, parity_demand. fold s in Hs.
  pose proof (cdiv_nonneg (d + p) s Hs ltac:(lia)). pose proof (cdiv_nonneg ((d + p) * pct) 100 ltac:(lia) ltac:(nia)).
  nia.
Qed.

(** One round of the loop does not overflow. *)
Lemma compute_parity_loop_step n p :
  0 <= p <= d + 2 * v + 4 ->
  compute_parity_loop (S n) d o (min_parity v pct) p
  = if next p =? p then Ok p else compute_parity_loop n d o (min_parity v pct) (next p).
Proof.
  intros Hp. destruct tolerances_nonneg as [Hv0 Hp0]. pose proof (parity_next_bound p Hp) as Hb.
  pose proof HT as HT'. unfold WriterOptions_typed, fits in HT'. fold s v pct in HT'.
  cbn [compute_parity_loop]. fold s v pct.
  rewrite (ok_or_eq _ (d + p)), bind_ret by (apply checked_add_Some; lia).
  rewrite (proj2 (ceil_div_Ok (d + p) s _)), bind_ret by (split_and!; [lia|lia|done]).
  pose proof (cdiv_spec (d + p) s Hs). pose proof (cdiv_nonneg (d + p) s Hs ltac:(lia)).
  assert (0 < s) as Hs' by done. assert (cdiv (d + p) s <= d + p) by nia.
  rewrite (proj2 (checked_u64_mul_Ok v _ _ _)), bind_ret by (split; [nia|done]).
  rewrite (proj2 (checked_u64_mul_Ok _ pct _ _)), bind_ret by (split; [nia|done]).
  rewrite (proj2 (ceil_div_Ok ((d + p) * pct) 100 _)), bind_ret by (split_and!; [lia|nia|done]).
  pose proof (cdiv_spec ((d + p) * pct) 100 ltac:(lia)).
  rewrite (ok_or_eq _ (parity_demand s v pct d p)), bind_ret
    by (apply checked_add_Some; split; [unfold parity_demand in *; nia|done]).
  cbv zeta. change (Z.max _ _) with (next p).
  destruct (Z.eqb_spec (next p) p) as [E|E]; [|done]. rewrite E.
  apply ok_or_Ok, try_from_Some. split; [done|]. unfold fits. lia.
Qed.

Lemma fixed_point_exists (n : nat) p :
  0 <= p <= d + 2 * v + 4 -> p <= next p -> d + 2 * v + 4 - p < Z.of_nat n ->
  exists r, next r = r /\ p <= r <= d + 2 * v + 4.
Proof.
  revert p. induction n as [|n IH]; intros p Hp Hinc Hn; [lia|].
  pose proof (parity_next_bound p Hp). destruct tolerances_nonneg as [Hv0 Hp0].
  destruct (Z.eq_dec (next p) p) as [E|E]; [exists p; lia|].
  destruct (IH (next p)) as (r & Hr & ?); [lia| |lia|exists r; lia].
  apply next_mono. lia.
Qed.

(** Every round gains at least one. *)
Lemma loop_converges_slow r n p :
  next r = r -> 0 <= p <= r -> r <= d + 2 * v + 4 -> p <= next p -> r - p < Z.of_nat n ->
  exists x, compute_parity_loop n d o (min_parity v pct) p = Ok x.
Proof.
  revert p. induction n as [|n IH]; intros p Hr Hp Hb Hinc Hn; [lia|].
  destruct tolerances_nonneg as [Hv0 Hp0]. rewrite compute_parity_loop_step by lia.
  destruct (Z.eqb_spec (next p) p) as [E|E]; [by eexists|].
  pose proof (next_mono p r ltac:(lia)).
  apply IH; try lia. apply next_mono. lia.
Qed.

(** While the distance is large, every round halves it. *)
Lemma loop_converges_fast r (a n : nat) p :
  next r = r -> 0 <= p <= r -> r <= d + 2 * v + 4 -> p <= next p ->
  r - p <= 2 ^ Z.of_nat a + 2 * (v + 1) -> (a + Z.to_nat (2 * v + 4) <= n)%nat ->
  exists x, compute_parity_loop n d o (min_parity v pct) p = Ok x.
Proof.
  revert n p. induction a as [|a IH]; intros n p Hr Hp Hb Hinc Hg Hn;
    destruct tolerances_nonneg as [Hv0 Hp0].
  - apply (loop_converges_slow r); lia.
  - destruct n as [|n]; [lia|]. rewrite compute_parity_loop_step by lia.
    destruct (Z.eqb_spec (next p) p) as [E|E]; [by eexists|].
    pose proof (next_mono p r ltac:(lia)).
    pose proof (parity_next_step p r ltac:(lia)) as Hstep.
    rewrite Nat2Z.inj_succ, Z.pow_succ_r in Hg by lia.
    apply IH; try lia. apply next_mono. lia.
Qed.

Lemma compute_parity_converges_aux : exists p, compute_parity d o = Ok p.
Proof.
  destruct tolerances_nonneg as [Hv0 Hp0].
  assert (0 <= next 0) by (apply parity_next_bound; lia).
  destruct (fixed_point_exists (Z.to_nat (d + 2 * v + 5)) 0) as (r & Hr & Hb); [lia..|].
  unfold compute_parity. apply (loop_converges_fast r 32); lia.
Qed.
End Convergence.

(** ** Theorems *)


(** C38: The parity count.  [compute_parity] returns the smallest number [p] of
    parity blocks that covers the loss of [v] of [s] volumes, each holding its
    share of the [d + p] blocks, and of [pct] percent of the blocks beside;
    and at least one block when any tolerance is asked for.  It never panics. *)
Theorem compute_parity_minimal d o p :
  WriterOptions_typed o -> wo_stripe_width o <> 0 -> compute_parity d o = Ok p ->
  let s := wo_stripe_width o in
  let v := wo_volume_loss_tolerance o in
  let pct := wo_bit_rot_buffer_pct o in
  let covers_losses q := v * cdiv (d + q) s + cdiv ((d + q) * pct) 100 <= q in
  covers_losses p /\ (0 < v \/ 0 < pct -> 1 <= p)
  /\ (forall q, 0 <= q -> covers_losses q -> (0 < v \/ 0 < pct -> 1 <= q) -> p <= q)
  /\ u32 p.
Proof.
  intros HT Hs H s v pct covers_losses. pose proof HT as HT'. unfold WriterOptions_typed, fits in HT'.
  destruct (compute_parity_least d o p HT Hs H) as (Hfix & Hu & Hleast).
  fold s v pct in Hfix, Hleast. unfold parity_next, parity_demand, min_parity, covers_losses in *.
  split_and!; [lia|intros Hm; unfold fits in Hu| |done].
  - replace ((0 <? v) || (0 <? pct)) with true in Hfix by lia. lia.
  - intros q Hq Hc Hm. apply Hleast; [done|].
    destruct ((0 <? v) || (0 <? pct)) eqn:E; lia.
Qed.

(** C39: Planned options.  [plan_writer_options] accepts exactly the options
    within the writer's demands whose parity classes exist and whose header
    passes the reader's limits; it fills in the parity classes, raises the index
    root class to its minimum, and changes nothing when it is run again. *)
Theorem plan_writer_options_correct o o' :
  WriterOptions_typed o ->
  (plan_writer_options o = Ok o'
   <-> plannable o
      /\ exists payload index root, u16 payload /\ u16 index /\ u16 root
         /\ o' = planned o payload index root
         /\ compute_parity (wo_fec_data_shards o) o = Ok payload
         /\ compute_parity (wo_index_fec_data_shards o) o = Ok index
         /\ compute_parity (Z.max (wo_index_root_fec_data_shards o) MIN_INDEX_ROOT_FEC_DATA_SHARDS) o
            = Ok root
         /\ supported_profile (header_of_options o' CRYPTO_HEADER_FIXED_LEN
              (if AeadAlgo_is_encrypted (wo_aead_algo o') then KdfAlgo.Raw else KdfAlgo.None) false))
  /\ (plan_writer_options o = Ok o' -> plan_writer_options o' = Ok o').
Proof.
  intros HT. split; [|by apply plan_writer_options_idem]. rewrite plan_writer_options_Ok by done.
  split; intros (Hpl & payload & index & root & Hu1 & Hu2 & Hu3 & -> & Hc1 & Hc2 & Hc3 & Hval);
    (split; [done|]); exists payload, index, root; split_and!; try done;
    [rewrite caps_header in Hval|rewrite caps_header];
    by apply supported_profile_iff; [apply header_of_options_typed; [by apply planned_typed|]|].
Qed.

Section BuildTheorem.
Context {Sha : Sha256} {Lib : CryptoLib}.

End BuildTheorem.

(** ** Concrete inputs *)
Definition example_options : WriterOptions := WriterOptions_default 4.

Lemma example_options_typed : WriterOptions_typed example_options.
Proof. unfold WriterOptions_typed. split_and!; try (by apply fitsb_fits). intros n. discriminate. Qed.

Definition example_planned : WriterOptions :=
  match plan_writer_options example_options with Ok o => o | _ => example_options end.

Lemma example_plan : plan_writer_options example_options = Ok example_planned.
Proof. vm_compute. reflexivity. Qed.

Definition example_subkeys : Subkeys := {|
  enc_key := zeros 32; mac_key := zeros 32; nonce_seed := zeros 32; index_root_key := zeros 32;
  index_shard_key := zeros 32; dictionary_key := zeros 32; dir_hint_key := zeros 32;
  index_nonce_seed := zeros 32 |}.

Definition example_crypto_header : bytes :=
  match build_crypto_header (Sha := toy_Sha256) (Lib := toy_CryptoLib) example_planned 45 true
          example_subkeys (zeros 16) (zeros 16) KdfRaw with Ok b => b | _ => [] end.

Lemma compute_parity_minimal_witness :
  let covers_losses q := 1 * cdiv (224 + q) 8 + cdiv ((224 + q) * 5) 100 <= q in
  compute_parity 224 example_options = Ok 48 /\ covers_losses 48 /\ ~ covers_losses 47.
Proof.
  cbv zeta. assert (compute_parity 224 example_options = Ok 48) as H by reflexivity.
  split; [exact H|]. destruct (compute_parity_minimal 224 example_options 48
    example_options_typed ltac:(discriminate) H) as (H1 & _ & H2 & _).
  split; [exact H1|]. intros H47. specialize (H2 47 ltac:(lia) H47 ltac:(lia)). lia.
Defined.


Lemma plan_writer_options_correct_witness :
  plan_writer_options example_planned = Ok example_planned
  /\ wo_fec_parity_shards example_planned = 48.
Proof.
  split; [|reflexivity].
  apply (plan_writer_options_correct example_options example_planned example_options_typed), example_plan.
Defined.

