(* ===== verification/ObjectWriter.v ===== *)
(** * Encrypted objects on their way to the volumes

    From [crates/tzap-core/src/writer/envelope.rs]: a payload is padded, sealed
    and cut into blocks, parity blocks are added, and every block is framed and
    appended to the volume its index selects.  The destination is an
    [ArchiveWriteSink] ([writer/mod.rs]); [MemoryArchiveSink] is the one of that
    file. *)

From S2P Require Import Wire Padding Fec BlockRecord Crypto RootAuth WriterPlan.
#[local] Open Scope Z_scope.

(** ** Sinks *)
Inductive ArchiveWriteError : Type :=
  | FormatFailure (e : FormatError)
  | IoFailure (cause : string).

Abbreviation wresult := (result ArchiveWriteError).

(** The [?] operator's conversion from a format error. *)
Definition lift {A} (r : fresult A) : wresult A :=
  match r with
  | Ok a => Ok a
  | Err e => Err (FormatFailure e)
  | Panic => Panic
  end.

Class ArchiveWriteSink (S : Type) : Type := {
  begin_archive : S -> Z -> wresult S;
  write_volume : S -> Z -> bytes -> wresult S;
  write_bootstrap_sidecar : S -> bytes -> wresult S
}.

Record MemoryArchiveSink : Type := {
  ms_volumes : list bytes;
  ms_bootstrap_sidecar : bytes
}.

Definition MemoryArchiveSink_begin_archive (self : MemoryArchiveSink) (volume_count : Z)
    : wresult MemoryArchiveSink :=
  Ok {| ms_volumes := replicate (Z.to_nat volume_count) []; ms_bootstrap_sidecar := [] |}.

Definition MemoryArchiveSink_write_volume (self : MemoryArchiveSink) (volume_index : Z) (b : bytes)
    : wresult MemoryArchiveSink :=
  match ms_volumes self !! Z.to_nat volume_index with
  | Some volume =>
      Ok {| ms_volumes := <[Z.to_nat volume_index := volume ++ b]> (ms_volumes self);
            ms_bootstrap_sidecar := ms_bootstrap_sidecar self |}
  | None => Err (FormatFailure (WriterInvariant "volume sink index is out of bounds"))
  end.

Definition MemoryArchiveSink_write_bootstrap_sidecar (self : MemoryArchiveSink) (b : bytes)
    : wresult MemoryArchiveSink :=
  Ok {| ms_volumes := ms_volumes self;
        ms_bootstrap_sidecar := ms_bootstrap_sidecar self ++ b |}.

#[export] Instance MemoryArchiveSink_sink : ArchiveWriteSink MemoryArchiveSink := {|
  begin_archive := MemoryArchiveSink_begin_archive;
  write_volume := MemoryArchiveSink_write_volume;
  write_bootstrap_sidecar := MemoryArchiveSink_write_bootstrap_sidecar
|}.

(** ** Objects *)
Record ObjectExtent : Type := {
  oe_first_block_index : Z;
  oe_data_block_count : Z;
  oe_parity_block_count : Z;
  oe_encrypted_size : Z
}.

Record EncryptedObject : Type := {
  eo_first_block_index : Z;
  eo_data_block_count : Z;
  eo_parity_block_count : Z;
  eo_encrypted_size : Z;
  eo_records : list BlockRecord
}.

Record ObjectEncryptionContext : Type := {
  oc_key : bytes;
  oc_nonce_seed : bytes;
  oc_domain : bytes;
  oc_counter : Z;
  oc_data_kind : BlockKind.t;
  oc_parity_kind : BlockKind.t;
  oc_data_shard_max : Z;
  oc_class_parity_shard_max : Z;
  oc_archive_uuid : bytes;
  oc_session_id : bytes
}.

Definition ObjectExtent_new (first_block_index : Z) (plan : PlannedEncryptedObject)
    : fresult ObjectExtent :=
  Ok {| oe_first_block_index := first_block_index;
        oe_data_block_count := po_data_block_count plan;
        oe_parity_block_count := po_parity_block_count plan;
        oe_encrypted_size := po_encrypted_size plan |}.

(** The sum of two [u32] counts fits [u64]. *)
Definition ObjectExtent_next_block_index (self : ObjectExtent) : fresult Z :=
  checked_u64_add (oe_first_block_index self)
    (oe_data_block_count self + oe_parity_block_count self) "next_block_index".

(** [ObjectExtent::from(&object)] *)
Definition extent_of_object (object : EncryptedObject) : ObjectExtent := {|
  oe_first_block_index := eo_first_block_index object;
  oe_data_block_count := eo_data_block_count object;
  oe_parity_block_count := eo_parity_block_count object;
  oe_encrypted_size := eo_encrypted_size object |}.

(** [b.chunks(n)]: pieces of [n] bytes, the last one may be shorter; [fuel]
    bounds the number of pieces. *)
Fixpoint chunks_loop (fuel : nat) (n : nat) (b : bytes) : list bytes :=
  match fuel, b with
  | S fuel, _ :: _ => take n b :: chunks_loop fuel n (drop n b)
  | _, _ => []
  end.

(** Rust panics on pieces of zero bytes. *)
Definition chunks (b : bytes) (n : Z) : fresult (list bytes) :=
  if n =? 0 then Panic else Ok (chunks_loop (length b) (Z.to_nat n) b).

Section Objects.
Context {C : Crc32c} {Sha : Sha256} {Lib : CryptoLib} {T : Target}.

Definition encrypt_object_payload (payload : bytes) (context : ObjectEncryptionContext)
    (options : WriterOptions) : fresult bytes :=
  let algo := wo_aead_algo options in
  padded ← suffix_pad_for_aead payload (AeadAlgo_tag_len algo) (wo_block_size options);
  if bool_decide (algo = AeadAlgo.None) then mret padded
  else
    nonce ← derive_nonce (oc_nonce_seed context) (oc_domain context) (oc_archive_uuid context)
      (oc_session_id context) (oc_counter context) (AeadAlgo_nonce_len algo);
    aad ← build_aad (oc_domain context) (oc_archive_uuid context) (oc_session_id context)
      (oc_counter context);
    aead_encrypt algo (oc_key context) nonce aad padded.

(** The two loops that frame the shards: [flags_of] gives the flags of the
    shard at a position. *)
Fixpoint frame_shards (kind : BlockKind.t) (flags_of : nat -> Z) (first_block : Z)
    (index : nat) (shards : list bytes) : fresult (list BlockRecord) :=
  match shards with
  | [] => Ok []
  | payload :: shards =>
      block_index ← checked_u64_add first_block (Z.of_nat index) "BlockRecord";
      rest ← frame_shards kind flags_of first_block (S index) shards;
      mret ({| br_block_index := block_index; br_kind := kind; br_flags := flags_of index;
               br_payload := payload; br_record_crc32c := 0 |} :: rest)
  end.

Definition last_data_flags (data_block_count : Z) (index : nat) : Z :=
  if Z.of_nat index + 1 =? data_block_count then 1 else 0.

(** Returns the object and the new value of [next_block_index]. *)
Definition encrypt_object (payload : bytes) (context : ObjectEncryptionContext)
    (next_block_index : Z) (options : WriterOptions) : fresult (EncryptedObject * Z) :=
  let block_size := wo_block_size options in
  encrypted ← encrypt_object_payload payload context options;
  (if block_size =? 0 then Panic else Ok tt);;
  reject_if (negb (blen encrypted `mod` block_size =? 0))
    (WriterInvariant "encrypted object is not block aligned");;
  encrypted_size ← u32_len (blen encrypted) "encrypted_size";
  data_shards ← chunks encrypted block_size;
  data_block_count ← u32_len (Z.of_nat (length data_shards)) "data_block_count";
  reject_if (data_block_count =? 0) (WriterInvariant "encrypted object has no data blocks");;
  reject_if (oc_data_shard_max context <? data_block_count)
    (WriterUnsupported "encrypted object exceeds its data shard class maximum");;
  required_parity ← compute_object_parity data_block_count options (oc_class_parity_shard_max context);
  reject_if (oc_class_parity_shard_max context <? required_parity)
    (WriterUnsupported "encrypted object exceeds its parity shard class maximum");;
  validate_object_shard_total data_block_count required_parity;;
  let parity_count := required_parity `mod` 2 ^ 16 in
  parity_shards ←
    (if parity_count =? 0 then mret [] else encode_parity_gf16 data_shards (Z.to_nat parity_count));
  let first_block_index := next_block_index in
  data_records ← frame_shards (oc_data_kind context) (last_data_flags data_block_count)
    first_block_index 0 data_shards;
  parity_first_block ← checked_u64_add first_block_index data_block_count "FEC";
  parity_records ← frame_shards (oc_parity_kind context) (fun _ => 0) parity_first_block 0
    parity_shards;
  next_block_index ← checked_u64_add first_block_index (data_block_count + parity_count)
    "next_block_index";
  mret ({| eo_first_block_index := first_block_index; eo_data_block_count := data_block_count;
           eo_parity_block_count := parity_count; eo_encrypted_size := encrypted_size;
           eo_records := data_records ++ parity_records |}, next_block_index).

Definition validate_planned_object (object : EncryptedObject) (expected : PlannedEncryptedObject)
    : fresult unit :=
  reject_if (negb (eo_data_block_count object =? po_data_block_count expected)
             || negb (eo_parity_block_count object =? po_parity_block_count expected)
             || negb (eo_encrypted_size object =? po_encrypted_size expected))
    (WriterInvariant "encrypted object did not match planned sizing").

Definition validate_planned_extent (object : EncryptedObject) (expected : ObjectExtent)
    : fresult unit :=
  validate_planned_object object
    {| po_data_block_count := oe_data_block_count expected;
       po_parity_block_count := oe_parity_block_count expected;
       po_encrypted_size := oe_encrypted_size expected |};;
  reject_if (negb (eo_first_block_index object =? oe_first_block_index expected))
    (WriterInvariant "encrypted object did not match planned extent").

Record SerializedBlockRecord : Type := {
  sb_block_index : Z;
  sb_bytes : bytes
}.

(** The loop of [serialize_zero_parity_encrypted_object]. *)
Fixpoint serialize_chunks (kind : BlockKind.t) (data_block_count first_block : Z) (index : nat)
    (pieces : list bytes) : fresult (list SerializedBlockRecord) :=
  match pieces with
  | [] => Ok []
  | chunk :: pieces =>
      block_index ← checked_u64_add first_block (Z.of_nat index) "BlockRecord";
      rest ← serialize_chunks kind data_block_count first_block (S index) pieces;
      mret ({| sb_block_index := block_index;
               sb_bytes := BlockRecord_to_bytes_from_parts block_index kind
                             (last_data_flags data_block_count index) chunk |} :: rest)
  end.

Definition serialize_zero_parity_encrypted_object (payload : bytes)
    (context : ObjectEncryptionContext) (expected_extent : ObjectExtent) (options : WriterOptions)
    : fresult (list SerializedBlockRecord) :=
  planned ← plan_encrypted_object (blen payload) (oc_data_shard_max context)
    (oc_class_parity_shard_max context) options;
  reject_if (negb (po_parity_block_count planned =? 0)
             || negb (oe_parity_block_count expected_extent =? 0))
    (WriterInvariant "zero-parity serialization received a parity object");;
  reject_if (negb (po_data_block_count planned =? oe_data_block_count expected_extent)
             || negb (po_encrypted_size planned =? oe_encrypted_size expected_extent))
    (WriterInvariant "encrypted object did not match planned sizing");;
  let block_size := wo_block_size options in
  encrypted ← encrypt_object_payload payload context options;
  (if block_size =? 0 then Panic else Ok tt);;
  reject_if (negb (blen encrypted =? oe_encrypted_size expected_extent)
             || negb (blen encrypted `mod` block_size =? 0))
    (WriterInvariant "encrypted object did not match planned sizing");;
  let data_block_count := blen encrypted / block_size in
  reject_if ((data_block_count =? 0)
             || negb (data_block_count =? oe_data_block_count expected_extent))
    (WriterInvariant "encrypted object did not match planned sizing");;
  pieces ← chunks encrypted block_size;
  serialize_chunks (oc_data_kind context) data_block_count (oe_first_block_index expected_extent) 0
    pieces.

(** ** Emission

    The state that the emission functions update through their [&mut]
    arguments. *)
Record EmitState (S : Type) : Type := {
  es_sink : S;
  es_bytes_written : list Z;
  es_record_counts : list Z;
  es_data_leaf_hashes : option (list (Z * bytes));
  es_next_block_index : Z
}.

#[global] Arguments es_sink {S} _.
#[global] Arguments es_bytes_written {S} _.
#[global] Arguments es_record_counts {S} _.
#[global] Arguments es_data_leaf_hashes {S} _.
#[global] Arguments es_next_block_index {S} _.

(** [v\[i\] = checked_u64_add(v\[i\], n, field)?] *)
Definition add_at (v : list Z) (i n : Z) (field : string) : wresult (list Z) :=
  match v !! Z.to_nat i with
  | Some x => x ← lift (checked_u64_add x n field); mret (<[Z.to_nat i := x]> v)
  | None => Panic
  end.

Context {S : Type} {Sink : ArchiveWriteSink S}.

(** The remainder by [stripe_width] panics when it is zero. *)
Definition emit_bytes (options : WriterOptions) (block_index : Z) (b : bytes) (st : EmitState S)
    : wresult (EmitState S) :=
  if wo_stripe_width options =? 0 then Panic
  else
    let volume_index := block_index `mod` wo_stripe_width options in
    sink ← write_volume (es_sink st) volume_index b;
    bytes_written ← add_at (es_bytes_written st) volume_index (blen b) "BlockRecord";
    record_counts ← add_at (es_record_counts st) volume_index 1 "BlockRecord count";
    mret {| es_sink := sink; es_bytes_written := bytes_written; es_record_counts := record_counts;
            es_data_leaf_hashes := es_data_leaf_hashes st;
            es_next_block_index := es_next_block_index st |}.

Definition emit_block_record (options : WriterOptions) (volume_format_rev : Z)
    (record : BlockRecord) (st : EmitState S) : wresult (EmitState S) :=
  st ← emit_bytes options (br_block_index record) (BlockRecord_to_bytes record) st;
  match es_data_leaf_hashes st with
  | Some data_leaf_hashes =>
      if BlockKind_is_data (br_kind record)
      then
        hash ← lift (data_block_merkle_leaf_hash_for_revision FORMAT_VERSION volume_format_rev
          {| ml_block_index := br_block_index record; ml_kind := br_kind record;
             ml_flags := br_flags record; ml_payload := br_payload record |});
        mret {| es_sink := es_sink st; es_bytes_written := es_bytes_written st;
                es_record_counts := es_record_counts st;
                es_data_leaf_hashes :=
                  Some (data_leaf_hashes ++ [(br_block_index record, hash)]);
                es_next_block_index := es_next_block_index st |}
      else mret st
  | None => mret st
  end.

Definition emit_serialized_block_record (options : WriterOptions) (record : SerializedBlockRecord)
    (st : EmitState S) : wresult (EmitState S) :=
  emit_bytes options (sb_block_index record) (sb_bytes record) st.

Fixpoint emit_records (options : WriterOptions) (volume_format_rev : Z)
    (records : list BlockRecord) (st : EmitState S) : wresult (EmitState S) :=
  match records with
  | [] => Ok st
  | record :: records =>
      st ← emit_block_record options volume_format_rev record st;
      emit_records options volume_format_rev records st
  end.

Definition map_err {A} (f : FormatError -> FormatError) (r : fresult A) : fresult A :=
  match r with
  | Err e => Err (f e)
  | r => r
  end.

Definition emit_encrypted_object (payload : bytes) (context : ObjectEncryptionContext)
    (options : WriterOptions) (expected_extent : ObjectExtent)
    (metadata_kind : option MetadataObjectKind) (volume_format_rev : Z) (st : EmitState S)
    : wresult (EncryptedObject * EmitState S) :=
  '(object, next_block_index) ← lift (map_err (fun error =>
      match metadata_kind with
      | Some kind => map_metadata_encrypt_error error kind
      | None => error
      end) (encrypt_object payload context (es_next_block_index st) options));
  let st := {| es_sink := es_sink st; es_bytes_written := es_bytes_written st;
               es_record_counts := es_record_counts st;
               es_data_leaf_hashes := es_data_leaf_hashes st;
               es_next_block_index := next_block_index |} in
  lift (validate_planned_extent object expected_extent);;
  st ← emit_records options volume_format_rev (eo_records object) st;
  mret (object, st).
End Objects.
