(* ===== verification/ObjectReader.v ===== *)
(** * Reading encrypted objects back

    From [crates/tzap-core/src/reader/mod.rs]: the providers of block records,
    in memory or read on demand from the volumes.  From
    [reader/validation.rs]: the checks of an object's extent, the loop that
    collects its blocks, and their repair and decryption. *)

From S2P Require Import Wire Padding Fec VolumeHeader CryptoHeaderFixed BlockRecord Crypto.
#[local] Open Scope Z_scope.

(** ** Arithmetic of the reader *)
Definition checked_add_usize (lhs rhs : Z) (structure : string) : fresult Z :=
  ok_or (checked_add 64 lhs rhs) (InvalidArchive structure).

Definition checked_u64_add (lhs rhs : Z) (structure : string) : fresult Z :=
  ok_or (checked_add 64 lhs rhs) (InvalidArchive structure).

Definition checked_u64_mul (lhs rhs : Z) (reason : string) : fresult Z :=
  ok_or (checked_mul 64 lhs rhs) (InvalidArchive reason).

Definition to_usize (value : Z) (structure : string) : fresult Z :=
  ok_or (try_from 64 value) (InvalidArchive structure).

Definition ceil_div_u64 (numerator denominator : Z) : fresult Z :=
  reject_if (denominator =? 0) (InvalidArchive "division by zero");;
  value ← ok_or (checked_add 64 numerator (denominator - 1))
    (InvalidArchive "ceiling division overflow");
  mret (value / denominator).

(** ** Sources of bytes *)

(** [read_exact_at self offset n] is what fills a buffer of [n] bytes. *)
Class ArchiveReadAt (R : Type) : Type := {
  ra_len : R -> fresult Z;
  read_exact_at : R -> Z -> Z -> fresult bytes
}.

Definition Vec_read_exact_at (self : bytes) (offset n : Z) : fresult bytes :=
  offset ← to_usize offset "archive";
  end_ ← checked_add_usize offset n "archive";
  ok_or (get_range self offset end_) (InvalidLength "archive" end_ (blen self)).

Definition Vec_len (self : bytes) : fresult Z :=
  ok_or (try_from 64 (blen self)) (InvalidArchive "archive length overflow").

#[export] Instance Vec_ArchiveReadAt : ArchiveReadAt bytes := {|
  ra_len := Vec_len;
  read_exact_at := Vec_read_exact_at |}.

Section ReadAt.
Context {R : Type} {A : ArchiveReadAt R}.

Definition read_at_vec (reader : R) (offset len : Z) (structure : string) : fresult bytes :=
  expected_end ← ok_or (checked_add 64 offset len) (InvalidArchive "archive read range overflow");
  observed_len ← ra_len reader;
  (if observed_len <? expected_end
   then
     expected ← to_usize expected_end structure;
     actual ← to_usize observed_len structure;
     Err (InvalidLength structure expected actual)
   else Ok tt);;
  read_exact_at reader offset len.

Definition read_at_vec_unchecked (reader : R) (offset len : Z) : fresult bytes :=
  read_exact_at reader offset len.
End ReadAt.

(** ** Providers of block records *)
Class BlockProvider (P : Type) : Type := {
  block : P -> Z -> fresult (option BlockRecord)
}.

(** [BTreeMap<u64, BlockRecord>] *)
Definition memory_block (self : gmap Z BlockRecord) (block_index : Z)
    : fresult (option BlockRecord) :=
  Ok (self !! block_index).

#[export] Instance memory_BlockProvider : BlockProvider (gmap Z BlockRecord) := {|
  block := memory_block |}.

Record SeekableVolumeSource (R : Type) : Type := {
  sv_reader : R;
  sv_volume_index : Z;
  sv_block_records_start : Z;
  sv_block_count : Z;
  sv_record_len : Z;
  sv_block_size : Z
}.

#[global] Arguments sv_reader {R} _.
#[global] Arguments sv_volume_index {R} _.
#[global] Arguments sv_block_records_start {R} _.
#[global] Arguments sv_block_count {R} _.
#[global] Arguments sv_record_len {R} _.
#[global] Arguments sv_block_size {R} _.

Record SeekableBlockSource (R : Type) : Type := {
  ss_stripe_width : Z;
  ss_volumes : list (option (SeekableVolumeSource R))
}.

#[global] Arguments ss_stripe_width {R} _.
#[global] Arguments ss_volumes {R} _.

Record OpenedBlockProvider (R : Type) : Type := {
  op_memory_blocks : gmap Z BlockRecord;
  op_lazy_blocks : option (SeekableBlockSource R)
}.

#[global] Arguments op_memory_blocks {R} _.
#[global] Arguments op_lazy_blocks {R} _.

Definition block_record_error_is_recoverable_erasure (error : FormatError) : bool :=
  match error with
  | BadCrc "BlockRecord" | BadMagic "BlockRecord" | NonZeroReserved "BlockRecord" => true
  | _ => false
  end.

Definition block_record_len (block_size : Z) : fresult Z :=
  len ← ok_or (checked_add 64 block_size BLOCK_RECORD_FRAMING_LEN)
    (InvalidArchive "BlockRecord length overflow");
  ok_or (try_from 64 len) (InvalidArchive "BlockRecord length overflow").

Section Sources.
Context {C : Crc32c} {R : Type} {A : ArchiveReadAt R}.

Definition SeekableVolumeSource_record_offset (self : SeekableVolumeSource R) (slot : Z)
    : fresult Z :=
  offset ← checked_u64_mul slot (sv_record_len self) "BlockRecord offset overflow";
  ok_or (checked_add 64 (sv_block_records_start self) offset)
    (InvalidArchive "BlockRecord offset overflow").

Definition SeekableVolumeSource_read_slot (self : SeekableVolumeSource R)
    (slot expected_block_index : Z) : fresult BlockRecord :=
  record_offset ← SeekableVolumeSource_record_offset self slot;
  record_len ← ok_or (try_from 64 (sv_record_len self))
    (InvalidArchive "BlockRecord length overflow");
  raw ← read_at_vec_unchecked (sv_reader self) record_offset record_len;
  record ← BlockRecord_parse raw (sv_block_size self);
  reject_if (negb (br_block_index record =? expected_block_index))
    (InvalidArchive "BlockRecord index does not match volume position");;
  mret record.

(** [self.volumes.get(volume_index as usize).and_then(Option::as_ref)] *)
Definition volume_at (self : SeekableBlockSource R) (volume_index : Z)
    : option (SeekableVolumeSource R) :=
  mjoin (ss_volumes self !! Z.to_nat volume_index).

Definition SeekableBlockSource_record_location (self : SeekableBlockSource R) (block_index : Z)
    : fresult (Z * Z) :=
  reject_if (ss_stripe_width self =? 0) ZeroStripeWidth;;
  volume_index ← ok_or (try_from 32 (block_index `mod` ss_stripe_width self))
    (InvalidArchive "BlockRecord volume index overflow");
  volume ← ok_or (volume_at self volume_index)
    (InvalidArchive "repair output requires all archive volumes");
  let slot := block_index / ss_stripe_width self in
  reject_if (sv_block_count volume <=? slot)
    (InvalidArchive "BlockRecord global coverage has a gap");;
  offset ← SeekableVolumeSource_record_offset volume slot;
  mret (volume_index, offset).

Definition SeekableBlockSource_block (self : SeekableBlockSource R) (block_index : Z)
    : fresult (option BlockRecord) :=
  reject_if (ss_stripe_width self =? 0) ZeroStripeWidth;;
  volume_index ← ok_or (try_from 32 (block_index `mod` ss_stripe_width self))
    (InvalidArchive "BlockRecord volume index overflow");
  match volume_at self volume_index with
  | None => mret None
  | Some volume =>
      let slot := block_index / ss_stripe_width self in
      if sv_block_count volume <=? slot then mret None
      else
        match SeekableVolumeSource_read_slot volume slot block_index with
        | Ok record => Ok (Some record)
        | Err err => if block_record_error_is_recoverable_erasure err then Ok None else Err err
        | Panic => Panic
        end
  end.

Definition SeekableBlockSource_is_complete_volume_set (self : SeekableBlockSource R) : bool :=
  forallb (fun volume => match volume with Some _ => true | None => false end) (ss_volumes self).

Fixpoint total_block_count_loop (volumes : list (option (SeekableVolumeSource R))) (sum : Z)
    : fresult Z :=
  match volumes with
  | [] => Ok sum
  | volume :: volumes =>
      volume ← ok_or volume (InvalidArchive "missing volume in complete set");
      sum ← checked_u64_add sum (sv_block_count volume) "BlockRecord count overflow";
      total_block_count_loop volumes sum
  end.

Definition SeekableBlockSource_total_block_count (self : SeekableBlockSource R) : fresult Z :=
  total_block_count_loop (ss_volumes self) 0.

#[export] Instance SeekableBlockSource_BlockProvider : BlockProvider (SeekableBlockSource R) := {|
  block := SeekableBlockSource_block |}.

Definition OpenedBlockProvider_block (self : OpenedBlockProvider R) (block_index : Z)
    : fresult (option BlockRecord) :=
  match op_memory_blocks self !! block_index with
  | Some record => Ok (Some record)
  | None =>
      match op_lazy_blocks self with
      | Some source => SeekableBlockSource_block source block_index
      | None => Ok None
      end
  end.

#[export] Instance OpenedBlockProvider_BlockProvider : BlockProvider (OpenedBlockProvider R) := {|
  block := OpenedBlockProvider_block |}.
End Sources.

(** ** Objects *)
Record ObjectExtent : Type := {
  ox_first_block_index : Z;
  ox_data_block_count : Z;
  ox_parity_block_count : Z;
  ox_encrypted_size : Z
}.

Inductive ParityReadPolicy : Set := Always | RepairOnly.

#[export] Instance ParityReadPolicy_eq_dec : EqDecision ParityReadPolicy.
Proof. solve_decision. Defined.

Record ObjectLoadContext : Type := {
  lc_volume_header : VolumeHeader;
  lc_crypto_header : CryptoHeaderFixed;
  lc_extent : ObjectExtent;
  lc_data_kind : BlockKind.t;
  lc_parity_kind : BlockKind.t;
  lc_key : bytes;
  lc_nonce_seed : bytes;
  lc_domain : bytes;
  lc_counter : Z;
  lc_class_data_shard_max : Z;
  lc_class_parity_shard_max : Z
}.

Definition ObjectLoadContext_index_root (volume_header : VolumeHeader)
    (crypto_header : CryptoHeaderFixed) (subkeys : Subkeys) (extent : ObjectExtent)
    : ObjectLoadContext := {|
  lc_volume_header := volume_header;
  lc_crypto_header := crypto_header;
  lc_extent := extent;
  lc_data_kind := BlockKind.IndexRootData;
  lc_parity_kind := BlockKind.IndexRootParity;
  lc_key := index_root_key subkeys;
  lc_nonce_seed := index_nonce_seed subkeys;
  lc_domain := String.list_byte_of_string "idxroot";
  lc_counter := 0;
  lc_class_data_shard_max := ch_index_root_fec_data_shards crypto_header;
  lc_class_parity_shard_max := ch_index_root_fec_parity_shards crypto_header |}.

(** The [for _ in 0..100] loop: [rounds] are left. *)
Fixpoint required_object_parity_loop (rounds : nat) (data_block_count : Z)
    (crypto_header : CryptoHeaderFixed) (min_parity parity : Z) : fresult Z :=
  match rounds with
  | O => Err (InvalidArchive "parity calculation did not converge")
  | S rounds =>
      total ← ok_or (checked_add 64 data_block_count parity) (InvalidArchive "parity total overflow");
      per_volume ← ceil_div_u64 total (ch_stripe_width crypto_header);
      by_volume ← checked_u64_mul (ch_volume_loss_tolerance crypto_header) per_volume
        "volume-loss parity overflow";
      product ← checked_u64_mul total (ch_bit_rot_buffer_pct crypto_header)
        "bit-rot parity overflow";
      by_bitrot ← ceil_div_u64 product 100;
      sum ← ok_or (checked_add 64 by_volume by_bitrot) (InvalidArchive "parity overflow");
      let next := Z.max sum min_parity in
      if next =? parity then ok_or (try_from 32 next) (InvalidArchive "parity count overflow")
      else required_object_parity_loop rounds data_block_count crypto_header min_parity next
  end.

Definition required_object_parity (data_block_count : Z) (crypto_header : CryptoHeaderFixed)
    : fresult Z :=
  let min_parity :=
    if (0 <? ch_volume_loss_tolerance crypto_header) || (0 <? ch_bit_rot_buffer_pct crypto_header)
    then 1 else 0 in
  required_object_parity_loop 100 data_block_count crypto_header min_parity 0.

Definition validate_object_extent (extent : ObjectExtent) (crypto_header : CryptoHeaderFixed)
    (class_data_shard_max class_parity_shard_max : Z) : fresult unit :=
  reject_if ((ox_data_block_count extent =? 0) || (ox_encrypted_size extent =? 0))
    (InvalidArchive "encrypted object has zero data blocks or size");;
  reject_if (class_data_shard_max <? ox_data_block_count extent)
    (InvalidArchive "encrypted object exceeds its class data-shard maximum");;
  reject_if (class_parity_shard_max <? ox_parity_block_count extent)
    (InvalidArchive "encrypted object exceeds its class parity-shard maximum");;
  required_parity ← required_object_parity (ox_data_block_count extent) crypto_header;
  reject_if (negb (ox_parity_block_count extent =? required_parity))
    (InvalidArchive "encrypted object parity does not match v45 compute_parity");;
  total ← checked_u64_add (ox_data_block_count extent) (ox_parity_block_count extent)
    "encrypted object shard count overflow";
  reject_if (65535 <? total) (FecTooManyShards total);;
  expected ← checked_u64_mul (ox_data_block_count extent) (ch_block_size crypto_header)
    "encrypted object size overflow";
  reject_if (negb (expected =? ox_encrypted_size extent))
    (InvalidArchive "encrypted object size is not data_block_count * block_size");;
  reject_if (ox_encrypted_size extent <=? AeadAlgo_tag_len (ch_aead_algo crypto_header))
    (InvalidArchive "encrypted object is too small for AEAD tag").

Record ReadObjectShards : Type := {
  ro_data_shards : list (option bytes);
  ro_parity_shards : list (option bytes);
  ro_block_size : Z
}.

(** The checks of a data block and of a parity block at an offset of the object. *)
Definition check_data_block (data_kind : BlockKind.t) (data_count : Z) (offset : nat)
    (record : BlockRecord) : fresult unit :=
  reject_if (negb (bool_decide (br_kind record = data_kind)))
    (InvalidArchive "object data block has unexpected kind");;
  let should_be_last := Z.of_nat offset + 1 =? data_count in
  reject_if (negb (eqb (BlockRecord_is_last_data record) should_be_last))
    (InvalidArchive "object last-data flag is not on the final data block").

Definition check_parity_block (parity_kind : BlockKind.t) (offset : nat) (record : BlockRecord)
    : fresult unit :=
  reject_if (negb (bool_decide (br_kind record = parity_kind)))
    (InvalidArchive "object parity block has unexpected kind");;
  reject_if (BlockRecord_is_last_data record)
    (InvalidArchive "object parity block has last-data flag").

Section Load.
Context {C : Crc32c} {Sha : Sha256} {Lib : CryptoLib} {T : Target}.
Context {P : Type} {BP : BlockProvider P}.

(** The two loops over the offsets of an object's blocks: the block at [offset]
    has the index [first_block_index + (base + offset)]. *)
Fixpoint read_shards (blocks : P) (check : nat -> BlockRecord -> fresult unit)
    (first_block_index base : Z) (offsets : list nat) : fresult (list (option bytes)) :=
  match offsets with
  | [] => Ok []
  | offset :: offsets =>
      block_index ← checked_u64_add first_block_index (base + Z.of_nat offset) "object";
      found ← block blocks block_index;
      shard ← match found with
              | Some record => check offset record;; mret (Some (br_payload record))
              | None => mret None
              end;
      rest ← read_shards blocks check first_block_index base offsets;
      mret (shard :: rest)
  end.

Definition read_object_shards_with_parity_policy (blocks : P) (crypto_header : CryptoHeaderFixed)
    (extent : ObjectExtent) (data_kind parity_kind : BlockKind.t)
    (class_data_shard_max class_parity_shard_max : Z) (parity_policy : ParityReadPolicy)
    : fresult ReadObjectShards :=
  validate_object_extent extent crypto_header class_data_shard_max class_parity_shard_max;;
  let block_size := ch_block_size crypto_header in
  let data_count := ox_data_block_count extent in
  let parity_count := ox_parity_block_count extent in
  data_shards ← read_shards blocks (check_data_block data_kind data_count)
    (ox_first_block_index extent) 0 (seq 0 (Z.to_nat data_count));
  if bool_decide (parity_policy = RepairOnly) && forallb is_present data_shards
  then mret {| ro_data_shards := data_shards; ro_parity_shards := []; ro_block_size := block_size |}
  else
    parity_shards ← read_shards blocks (check_parity_block parity_kind)
      (ox_first_block_index extent) data_count (seq 0 (Z.to_nat parity_count));
    mret {| ro_data_shards := data_shards; ro_parity_shards := parity_shards;
            ro_block_size := block_size |}.

Definition load_decrypted_object_from_parts_with_parity_policy (blocks : P)
    (context : ObjectLoadContext) (parity_policy : ParityReadPolicy) : fresult bytes :=
  shards ← read_object_shards_with_parity_policy blocks (lc_crypto_header context)
    (lc_extent context) (lc_data_kind context) (lc_parity_kind context)
    (lc_class_data_shard_max context) (lc_class_parity_shard_max context) parity_policy;
  encrypted ← recover_data_bytes_gf16 (ro_data_shards shards) (ro_parity_shards shards)
    (ro_block_size shards);
  reject_if (negb (blen encrypted =? ox_encrypted_size (lc_extent context)))
    (InvalidArchive "object encrypted size does not match repaired shards");;
  decrypt_padded_aead_object
    {| cx_algo := ch_aead_algo (lc_crypto_header context);
       cx_key := lc_key context;
       cx_nonce_seed := lc_nonce_seed context;
       cx_domain := lc_domain context;
       cx_archive_uuid := vh_archive_uuid (lc_volume_header context);
       cx_session_id := vh_session_id (lc_volume_header context);
       cx_counter := lc_counter context |} encrypted.

Definition load_decrypted_object_from_parts (blocks : P) (context : ObjectLoadContext)
    : fresult bytes :=
  load_decrypted_object_from_parts_with_parity_policy blocks context Always.

Definition load_repaired_object_data_shards_from_parts_with_parity_policy (blocks : P)
    (crypto_header : CryptoHeaderFixed) (extent : ObjectExtent)
    (data_kind parity_kind : BlockKind.t) (class_data_shard_max class_parity_shard_max : Z)
    (parity_policy : ParityReadPolicy) : fresult (list bytes) :=
  shards ← read_object_shards_with_parity_policy blocks crypto_header extent data_kind parity_kind
    class_data_shard_max class_parity_shard_max parity_policy;
  repair_data_gf16 (ro_data_shards shards) (ro_parity_shards shards) (ro_block_size shards).

Definition load_repaired_object_data_shards_from_parts (blocks : P)
    (crypto_header : CryptoHeaderFixed) (extent : ObjectExtent)
    (data_kind parity_kind : BlockKind.t) (class_data_shard_max class_parity_shard_max : Z)
    : fresult (list bytes) :=
  load_repaired_object_data_shards_from_parts_with_parity_policy blocks crypto_header extent
    data_kind parity_kind class_data_shard_max class_parity_shard_max Always.
End Load.
