(* ===== verification/ObjectRoundtrip.v ===== *)
(** * Objects survive damage

    What [ObjectWriter.encrypt_object] makes of a payload, and that
    [ObjectReader] gives the payload back when no more blocks are missing than
    the parity count covers: the tolerated number of volumes, and the tolerated
    percentage of the object's blocks beside. *)

From S2P Require Import Wire Padding Fec FecCorrect VolumeHeader CryptoHeaderFixed BlockRecord.
From S2P Require Import Kdf Crypto RootAuth WriterPlan ObjectWriter ObjectReader.
#[local] Open Scope Z_scope.

(** ** Reader and writer agree on the parity count *)
Section Parity.
Context (o : WriterOptions) (h : CryptoHeaderFixed).
Hypotheses (Hs : ch_stripe_width h = wo_stripe_width o)
  (Hv : ch_volume_loss_tolerance h = wo_volume_loss_tolerance o)
  (Hp : ch_bit_rot_buffer_pct h = wo_bit_rot_buffer_pct o).

Lemma required_object_parity_agrees d p :
  required_object_parity d h = Ok p <-> compute_parity d o = Ok p.
Proof.
  unfold required_object_parity, compute_parity. rewrite Hv, Hp.
  generalize (if (0 <? wo_volume_loss_tolerance o) || (0 <? wo_bit_rot_buffer_pct o) then 1 else 0).
  intros m. generalize 0. generalize 100%nat. intros n.
  induction n as [|n IH]; intros q; cbn [required_object_parity_loop compute_parity_loop]; [done|].
  rewrite Hs, Hv, Hp.
  unfold ceil_div_u64, ceil_div, ObjectReader.checked_u64_mul, WriterPlan.checked_u64_mul.
  destruct (checked_add 64 d q) as [total|]; cbn [ok_or mbind result_bind]; [|by split].
  destruct (wo_stripe_width o =? 0); cbn [reject_if mbind result_bind]; [by split|].
  destruct (checked_add 64 total (wo_stripe_width o - 1)) as [x|]; cbn [ok_or mbind result_bind]; [|by split].
  rewrite !mret_eq. cbn [mbind result_bind].
  destruct (checked_mul _ _ (x / _)) as [byv|]; cbn [ok_or mbind result_bind]; [|by split].
  destruct (checked_mul _ total _) as [y|]; cbn [ok_or mbind result_bind]; [|by split].
  change (100 =? 0) with false. cbn [reject_if mbind result_bind].
  destruct (checked_add 64 y (100 - 1)) as [z|]; cbn [ok_or mbind result_bind]; [|by split].
  rewrite !mret_eq. cbn [mbind result_bind].
  destruct (checked_add 64 byv (z / 100)) as [u|]; cbn [ok_or mbind result_bind]; [|by split].
  cbv zeta. destruct (_ =? q); [|apply IH]. by rewrite !ok_or_Ok.
Qed.
End Parity.

(** ** Cutting into blocks *)
Lemma chunks_loop_spec fuel n d (b : bytes) :
  (0 < n)%nat -> length b = (d * n)%nat -> (length b <= fuel)%nat ->
  length (chunks_loop fuel n b) = d /\ Forall (fun c => length c = n) (chunks_loop fuel n b)
  /\ concat (chunks_loop fuel n b) = b.
Proof.
  intros Hn. revert d b. induction fuel as [|fuel IH]; intros d b Hl Hf.
  - destruct b; [|cbn in Hf; lia]. cbn in *. assert (d = 0)%nat as -> by nia. done.
  - destruct b as [|x b]; cbn [chunks_loop]; [cbn in *; by assert (d = 0)%nat as -> by nia|].
    destruct d as [|d]; [cbn in Hl; lia|].
    destruct (IH d (drop n (x :: b))) as (H1 & H2 & H3); [rewrite length_drop; lia..|].
    cbn [length concat]. rewrite H1, H3, take_drop. split_and!; [done| |done].
    constructor; [|done]. rewrite length_take. lia.
Qed.

Lemma chunks_spec b bs d :
  0 < bs -> blen b = d * bs ->
  exists shards, chunks b bs = Ok shards /\ Z.of_nat (length shards) = d
    /\ Forall (fun c => length c = Z.to_nat bs) shards /\ concat shards = b.
Proof.
  intros Hb Hl. unfold chunks. rewrite (proj2 (Z.eqb_neq _ _)) by lia.
  unfold blen in Hl. assert (0 <= d) by nia.
  destruct (chunks_loop_spec (length b) (Z.to_nat bs) (Z.to_nat d) b) as (H1 & H2 & H3); [lia|nia|lia|].
  eexists. split_and!; [done|lia|done|done].
Qed.

(** ** Framing *)
Definition framed (kind : BlockKind.t) (flags_of : nat -> Z) (first_block : Z) (index : nat)
    (shards : list bytes) : list BlockRecord :=
  imap (fun i payload => {| br_block_index := first_block + Z.of_nat (index + i); br_kind := kind;
                            br_flags := flags_of (index + i)%nat; br_payload := payload;
                            br_record_crc32c := 0 |}) shards.

Lemma framed_cons kind flags_of first index payload shards :
  framed kind flags_of first index (payload :: shards)
  = {| br_block_index := first + Z.of_nat index; br_kind := kind; br_flags := flags_of index;
       br_payload := payload; br_record_crc32c := 0 |} :: framed kind flags_of first (S index) shards.
Proof.
  unfold framed. cbn [imap]. rewrite Nat.add_0_r. f_equal. apply imap_ext. intros i x _. cbn.
  by replace (index + S i)%nat with (S (index + i)) by lia.
Qed.

Lemma frame_shards_Ok kind flags_of first index shards rs :
  frame_shards kind flags_of first index shards = Ok rs ->
  rs = framed kind flags_of first index shards
  /\ (shards <> [] -> first + Z.of_nat (index + length shards) <= 2 ^ 64).
Proof.
  revert index rs. induction shards as [|p shards IH]; intros index rs H; cbn [frame_shards] in H.
  { injection H as <-. done. }
  bind_inv H. apply WriterPlan.checked_u64_add_Ok in Hr as [Hlt ->].
  apply IH in Hr0 as [-> Hr0]. rewrite framed_cons. split; [by subst|].
  intros _. cbn [length]. destruct shards as [|p' shards]; [cbn; lia|].
  specialize (Hr0 ltac:(done)). cbn [length] in *. lia.
Qed.

Lemma map_framed {A} (f : BlockRecord -> A) (g : nat -> bytes -> A) kind flags_of first index shards :
  (forall i p, f {| br_block_index := first + Z.of_nat (index + i); br_kind := kind;
                    br_flags := flags_of (index + i)%nat; br_payload := p; br_record_crc32c := 0 |} = g i p) ->
  map f (framed kind flags_of first index shards) = imap g shards.
Proof.
  intros H. unfold framed. change (f <$> imap (fun i payload => {| br_block_index := first + Z.of_nat (index + i);
    br_kind := kind; br_flags := flags_of (index + i)%nat; br_payload := payload;
    br_record_crc32c := 0 |}) shards = imap g shards). rewrite fmap_imap.
  apply imap_ext. intros i x _. apply H.
Qed.

Lemma payload_framed kind flags_of first index shards :
  map br_payload (framed kind flags_of first index shards) = shards.
Proof.
  rewrite (map_framed _ (fun _ p => p)) by done. clear.
  induction shards as [|x l IH]; [done|]. cbn. f_equal. done.
Qed.

Lemma index_framed kind flags_of first index shards :
  map br_block_index (framed kind flags_of first index shards)
  = seqZ (first + Z.of_nat index) (Z.of_nat (length shards)).
Proof.
  revert index. induction shards as [|p shards IH]; intros index; [done|].
  rewrite framed_cons. cbn [map br_block_index length]. rewrite IH.
  rewrite (seqZ_cons (first + Z.of_nat index)) by lia. f_equal. f_equal; lia.
Qed.

Lemma length_framed kind flags_of first index shards :
  length (framed kind flags_of first index shards) = length shards.
Proof. apply length_imap. Qed.

(** ** Encryption *)
Section Objects.
Context {C : Crc32c} {Sha : Sha256} {Lib : CryptoLib} {T : Target}.

(** The context under which the reader decrypts. *)
Definition aead_context (o : WriterOptions) (context : ObjectEncryptionContext)
    : AeadObjectContext := {|
  cx_algo := wo_aead_algo o; cx_key := oc_key context; cx_nonce_seed := oc_nonce_seed context;
  cx_domain := oc_domain context; cx_archive_uuid := oc_archive_uuid context;
  cx_session_id := oc_session_id context; cx_counter := oc_counter context |}.

Lemma build_aad_iff domain u s n :
  u16 (blen domain) ->
  exists aad, forall prefix, nonce_or_aad_info prefix domain u s n = Ok (prefix ++ aad).
Proof.
  intros Hd. eexists. intros prefix. unfold nonce_or_aad_info.
  rewrite (ok_or_eq _ (blen domain)) by by apply try_from_Some. by rewrite bind_ret.
Qed.

Lemma derive_nonce_Ok seed domain u s n len :
  32 <= blen seed -> u16 (blen domain) -> 0 <= len <= 255 * 32 ->
  exists nonce, derive_nonce seed domain u s n len = Ok nonce /\ blen nonce = len.
Proof.
  intros Hs Hd Hl. unfold derive_nonce. destruct (build_aad_iff domain u s n Hd) as (aad & Ha).
  rewrite Ha, bind_ret. destruct (hkdf_from_prk_32 seed Hs) as (hk & Hk).
  rewrite (ok_or_eq _ hk), bind_ret by done.
  destruct (hkdf_expand_len hk (String.list_byte_of_string "tzap-v1-nonce" ++ aad) len Hl) as (out & -> & Ho).
  by exists out.
Qed.

(** The sealed payload fills whole blocks, as many as planned, and decrypts. *)
Lemma encrypt_object_payload_spec payload context o c :
  1 <= wo_block_size o <= u32_max -> blen payload + 16 + wo_block_size o < 2 ^ 63 ->
  32 <= blen (oc_nonce_seed context) -> u16 (blen (oc_domain context)) ->
  encrypt_object_payload payload context o = Ok c ->
  blen c = ((blen payload + AeadAlgo_tag_len (wo_aead_algo o)) / wo_block_size o + 1) * wo_block_size o
  /\ AeadAlgo_tag_len (wo_aead_algo o) < blen c
  /\ decrypt_padded_aead_object (aead_context o context) c = Ok payload.
Proof.
  intros Hb Hfit Hseed Hdom H. unfold encrypt_object_payload in H.
  set (algo := wo_aead_algo o) in *. set (bs := wo_block_size o) in *.
  assert (0 <= AeadAlgo_tag_len algo <= 16) as Ht by (destruct algo; cbn; lia).
  assert (0 <= AeadAlgo_nonce_len algo <= 255 * 32) as Hn by (destruct algo; cbn; lia).
  destruct (suffix_pad_spec payload (AeadAlgo_tag_len algo) bs)
    as (padded & Hp & _ & Htr & Hm & Hl); [unfold fits; lia|lia|lia|].
  rewrite Hp, bind_ret in H.
  destruct (derive_nonce_Ok (oc_nonce_seed context) (oc_domain context) (oc_archive_uuid context)
    (oc_session_id context) (oc_counter context) (AeadAlgo_nonce_len algo) Hseed Hdom Hn)
    as (nonce & Hnonce & Hnl).
  destruct (build_aad_iff (oc_domain context) (oc_archive_uuid context) (oc_session_id context)
    (oc_counter context) Hdom) as (aad & Haad).
  assert (aead_encrypt algo (oc_key context) nonce
    (String.list_byte_of_string "tzap-v1-aad" ++ aad) padded = Ok c) as Henc.
  { case_bool_decide as Ha.
    - unfold aead_encrypt, validate_nonce_len. rewrite Hnl, Z.eqb_refl. cbn [negb reject_if].
      rewrite bind_ret, Ha. done.
    - rewrite Hnonce, bind_ret in H. unfold build_aad in H. by rewrite Haad, bind_ret in H. }
  apply aead_roundtrip in Henc as [Hd Hc].
  assert (blen c = ((blen payload + AeadAlgo_tag_len algo) / bs + 1) * bs) as Hlen.
  { rewrite <- Hc in Hm. apply Z.mod_divide in Hm as [q Hq]; [|lia].
    pose proof (Z.div_mod (blen payload + AeadAlgo_tag_len algo) bs ltac:(lia)).
    pose proof (Z.mod_pos_bound (blen payload + AeadAlgo_tag_len algo) bs ltac:(lia)).
    set (d := (blen payload + AeadAlgo_tag_len algo) / bs) in *.
    assert (d < q) by nia. assert (q < d + 2) by nia. rewrite Hq. f_equal. lia. }
  pose proof (blen_nonneg payload). split_and!; [done|lia|].
  unfold decrypt_padded_aead_object, context_nonce, context_aad, aead_context. cbn.
  fold algo. rewrite Hnonce, bind_ret. unfold build_aad. by rewrite Haad, bind_ret, Hd, bind_ret.
Qed.

(** What a successful [encrypt_object] returns. *)
Record object_of (payload : bytes) (context : ObjectEncryptionContext) (o : WriterOptions)
    (first : Z) (object : EncryptedObject) (data parity : list bytes) : Prop := {
  ob_first : eo_first_block_index object = first;
  ob_data_count : eo_data_block_count object = Z.of_nat (length data);
  ob_parity_count : eo_parity_block_count object = Z.of_nat (length parity);
  ob_planned : eo_data_block_count object
    = (blen payload + AeadAlgo_tag_len (wo_aead_algo o)) / wo_block_size o + 1;
  ob_size : eo_encrypted_size object = eo_data_block_count object * wo_block_size o;
  ob_size_u32 : u32 (eo_encrypted_size object);
  ob_tag : AeadAlgo_tag_len (wo_aead_algo o) < eo_encrypted_size object;
  ob_data_max : eo_data_block_count object <= oc_data_shard_max context;
  ob_parity : compute_parity (eo_data_block_count object) o = Ok (eo_parity_block_count object);
  ob_parity_max : eo_parity_block_count object <= oc_class_parity_shard_max context;
  ob_total : eo_data_block_count object + eo_parity_block_count object <= 65535;
  ob_next : first + eo_data_block_count object + eo_parity_block_count object < 2 ^ 64;
  ob_shards : Forall (fun c => length c = Z.to_nat (wo_block_size o)) data;
  ob_sealed : exists c, encrypt_object_payload payload context o = Ok c
    /\ chunks c (wo_block_size o) = Ok data;
  ob_encode : parity = [] \/ encode_parity_gf16 data (length parity) = Ok parity;
  ob_decrypt : decrypt_padded_aead_object (aead_context o context) (concat data) = Ok payload;
  ob_records : eo_records object
    = framed (oc_data_kind context) (last_data_flags (Z.of_nat (length data))) first 0 data
      ++ framed (oc_parity_kind context) (fun _ => 0) (first + Z.of_nat (length data)) 0 parity
}.

Lemma encrypt_object_spec payload context o first object next :
  WriterOptions_typed o -> 0 < wo_block_size o -> wo_stripe_width o <> 0 ->
  blen payload + 16 + wo_block_size o < 2 ^ 63 -> 0 <= first ->
  32 <= blen (oc_nonce_seed context) -> u16 (blen (oc_domain context)) ->
  encrypt_object payload context first o = Ok (object, next) ->
  exists data parity, object_of payload context o first object data parity
    /\ next = first + eo_data_block_count object + eo_parity_block_count object.
Proof.
  intros HT Hb Hs Hfit Hfirst Hseed Hdom H.
  assert (wo_block_size o <= u32_max) as Hb32.
  { destruct HT as ([_ HT'] & _). unfold u32_max. lia. }
  unfold encrypt_object in H. cbv zeta in H. bind_inv H.
  rename r into c, r3 into data, r10 into parity, r4 into d, r7 into p.
  injection H as <- <-.
  unfold u32_len in *. apply ok_or_Ok, try_from_Some in Hr2 as [-> Hu], Hr4 as [-> _].
  destruct (encrypt_object_payload_spec payload context o c) as (Hlen & Htag & Hdec); [lia|done..|].
  destruct (chunks_spec c (wo_block_size o) _ Hb Hlen) as (data' & Hch & Hcount & Hsize & Hcat).
  rewrite Hr3 in Hch. injection Hch as <-. rewrite <- Hcount in Hlen.
  unfold compute_object_parity in Hr7. apply bind_Ok in Hr7 as (p' & Hpar & Hr7). bind_inv Hr7. subst p'.
  destruct (compute_parity_least _ _ _ HT Hs Hpar) as (_ & Hpu & _).
  unfold validate_object_shard_total, MAX_REED_SOLOMON_GF16_SHARDS in Hr9. apply bind_Ok in Hr9 as (tot & Htot & Hr9).
  apply reject_if_Ok in Hr9. apply WriterPlan.checked_u64_add_Ok in Htot as [_ ->].
  unfold fits in Hpu. rewrite (Z.mod_small p) in * by lia.
  assert (length parity = Z.to_nat p /\ (parity = [] \/ encode_parity_gf16 data (length parity) = Ok parity))
    as [Hpl Henc].
  { destruct (Z.eqb_spec p 0) as [->|Hp]; [injection Hr10 as <-; auto|].
    pose proof (encode_Ok_shape _ _ _ Hr10) as (Hne & Htot & n & Hn).
    destruct (encode_parity_spec n data _ Hn Hne Htot) as (parity' & Henc & Hpl & _).
    rewrite Hr10 in Henc. injection Henc as <-. split; [done|right]. by rewrite Hpl. }
  apply frame_shards_Ok in Hr11 as [-> _], Hr13 as [-> _].
  apply WriterPlan.checked_u64_add_Ok in Hr12 as [_ ->], Hr14 as [Hnx ->].
  exists data, parity. split; [|cbn; lia].
  constructor; cbn; try done; try lia; [by exists c|by rewrite Hcat].
Qed.

(** What the caller guarantees of an object: the payload is in memory, the seed
    is a derived key, and the domain and the data kind are of the few that the
    writer uses. *)
Definition writable (o : WriterOptions) (payload : bytes) (context : ObjectEncryptionContext)
    : Prop :=
  blen payload + 16 + wo_block_size o < 2 ^ 63 /\ 32 <= blen (oc_nonce_seed context)
  /\ u16 (blen (oc_domain context)) /\ BlockKind_is_data (oc_data_kind context) = true.

Lemma frame_shards_eq kind flags_of first index shards :
  first + Z.of_nat (index + length shards) <= 2 ^ 64 ->
  frame_shards kind flags_of first index shards = Ok (framed kind flags_of first index shards).
Proof.
  revert index. induction shards as [|p shards IH]; intros index H; [done|].
  cbn [frame_shards length] in *. rewrite (proj2 (WriterPlan.checked_u64_add_Ok _ _ _ _)) by (split; [lia|done]).
  rewrite bind_ret, IH, bind_ret by lia. by rewrite framed_cons.
Qed.

(** A planned object whose payload can be sealed is encrypted. *)
Lemma encrypt_object_total payload context o first plan c :
  WriterOptions_typed o -> 0 < wo_block_size o -> wo_block_size o `mod` 2 = 0 ->
  wo_stripe_width o <> 0 -> writable o payload context -> 0 <= first ->
  plan_encrypted_object (blen payload) (oc_data_shard_max context)
    (oc_class_parity_shard_max context) o = Ok plan ->
  encrypt_object_payload payload context o = Ok c ->
  first + po_data_block_count plan + po_parity_block_count plan < 2 ^ 64 ->
  exists object next, encrypt_object payload context first o = Ok (object, next).
Proof.
  intros HT Hb Heven Hs (Hfit & Hseed & Hdom & _) Hfirst Hplan Hc Hroom.
  pose proof (blen_nonneg payload) as Hpl.
  apply plan_encrypted_object_Ok in Hplan as (Hd & Hsz & Hu & Hpar & Hdm & Hpm & Htot); [|done..].
  destruct (compute_parity_least _ _ _ HT Hs Hpar) as (_ & Hpu & _). unfold fits in Hpu.
  assert (wo_block_size o <= u32_max) as Hb32 by (destruct HT as ([_ HT'] & _); unfold u32_max; lia).
  destruct (encrypt_object_payload_spec payload context o c) as (Hlen & Htag & Hdec); [lia|done..|].
  rewrite <- Hd in Hlen.
  destruct (chunks_spec c (wo_block_size o) _ Hb Hlen) as (data & Hch & Hcount & Hsize & Hcat).
  assert (1 <= po_data_block_count plan) as Hd1.
  { assert (0 <= AeadAlgo_tag_len (wo_aead_algo o)) by (destruct (wo_aead_algo o); cbn; lia).
    pose proof (Z.div_pos (blen payload + AeadAlgo_tag_len (wo_aead_algo o)) (wo_block_size o)). lia. }
  clear Hd. destruct plan as [d p size].
  cbn [po_data_block_count po_parity_block_count po_encrypted_size] in *. apply Z.mod_divide in Heven as [n Hn]; [|lia].
  assert (exists parity, (if p =? 0 then mret [] else encode_parity_gf16 data (Z.to_nat p)) = Ok parity
            /\ length parity = Z.to_nat p) as (parity & Hencode & Hpn).
  { destruct (Z.eqb_spec p 0) as [->|Hp]; [by exists []|].
    destruct (encode_parity_spec (Z.to_nat n) data (Z.to_nat p)) as (parity & -> & Hl & _);
      [|intros ->; cbn in Hcount; lia|lia|by exists parity].
    eapply Forall_impl; [exact Hsize|]. cbn. intros x Hx. lia. }
  eexists _, _. unfold encrypt_object. rewrite Hc, bind_ret. cbv zeta.
  rewrite (proj2 (Z.eqb_neq (wo_block_size o) 0)), bind_ret by lia.
  assert (negb (blen c `mod` wo_block_size o =? 0) = false) as -> by (rewrite Hlen, Z.mod_mul by lia; done).
  cbn [reject_if]. rewrite bind_ret. unfold u32_len.
  rewrite (ok_or_eq (try_from 32 (blen c)) (blen c)) by (apply try_from_Some; rewrite Hlen, <- Hsz; done).
  rewrite bind_ret, Hch, bind_ret, Hcount.
  rewrite (ok_or_eq (try_from 32 d) d) by (apply try_from_Some; split; [done|unfold fits; lia]).
  rewrite bind_ret. unfold compute_object_parity. rewrite Hpar, bind_ret. run.
  unfold validate_object_shard_total, MAX_REED_SOLOMON_GF16_SHARDS.
  rewrite (proj2 (WriterPlan.checked_u64_add_Ok d p _ _)) by (split; [lia|done]). run.
  rewrite (Z.mod_small p) by lia. rewrite Hencode, bind_ret.
  rewrite frame_shards_eq by lia. rewrite bind_ret.
  rewrite (proj2 (WriterPlan.checked_u64_add_Ok first d _ _)) by (split; [lia|done]). rewrite bind_ret.
  rewrite frame_shards_eq by lia. rewrite bind_ret.
  rewrite (proj2 (WriterPlan.checked_u64_add_Ok first (d + p) _ _)) by (split; [lia|done]).
  by rewrite bind_ret.
Qed.

(** The records of an object without parity, as the parallel writer serializes
    them. *)
Definition serialized (r : BlockRecord) : SerializedBlockRecord :=
  {| sb_block_index := br_block_index r; sb_bytes := BlockRecord_to_bytes r |}.

Lemma serialize_chunks_eq kind d first index pieces :
  first + Z.of_nat (index + length pieces) <= 2 ^ 64 ->
  serialize_chunks kind d first index pieces
  = Ok (map serialized (framed kind (last_data_flags d) first index pieces)).
Proof.
  revert index. induction pieces as [|p pieces IH]; intros index H; [done|].
  cbn [serialize_chunks length] in *.
  rewrite (proj2 (WriterPlan.checked_u64_add_Ok _ _ _ _)) by (split; [lia|done]).
  rewrite bind_ret, IH, bind_ret by lia. by rewrite framed_cons.
Qed.

(** ** Reading what arrived *)
Definition same_block (r r' : BlockRecord) : Prop :=
  br_block_index r' = br_block_index r /\ br_kind r' = br_kind r /\ br_flags r' = br_flags r
  /\ br_payload r' = br_payload r.

Context {P : Type} {BP : BlockProvider P}.

(** The provider has the record, or nothing. *)
Definition received (blocks : P) (r : BlockRecord) : Prop :=
  block blocks (br_block_index r) = Ok None
  \/ exists r', block blocks (br_block_index r) = Ok (Some r') /\ same_block r r'.

Definition arrived (blocks : P) (r : BlockRecord) : bool :=
  match block blocks (br_block_index r) with
  | Ok (Some _) => true
  | _ => false
  end.

Lemma read_shards_spec (blocks : P) check first base (recs : list BlockRecord) k :
  (forall j r, recs !! j = Some r ->
     br_block_index r = first + (base + Z.of_nat (k + j)) /\ br_block_index r < 2 ^ 64
     /\ received blocks r /\ forall r', same_block r r' -> check (k + j)%nat r' = Ok tt) ->
  exists ds, read_shards blocks check first base (seq k (length recs)) = Ok ds
    /\ erased (map br_payload recs) ds /\ present ds = length (List.filter (arrived blocks) recs).
Proof.
  revert k. induction recs as [|r recs IH]; intros k Hrecs; cbn [length seq read_shards].
  { exists []. split_and!; [done|constructor|done]. }
  destruct (Hrecs 0%nat r eq_refl) as (Hi & Hlt & Hrec & Hchk). rewrite Nat.add_0_r in Hi, Hchk.
  assert (ObjectReader.checked_u64_add first (base + Z.of_nat k) "object" = Ok (br_block_index r)) as ->
    by (apply ok_or_Ok, checked_add_Some; lia).
  destruct (IH (S k)) as (ds & Hds & Her & Hpr).
  { intros j r' Hj. replace (S k + j)%nat with (k + S j)%nat by lia. by apply Hrecs. }
  cbn [map List.filter]. unfold arrived at 1. rewrite bind_ret.
  destruct Hrec as [Hb|(r' & Hb & Hsame)]; rewrite !Hb, bind_ret.
  - rewrite mret_eq, bind_ret, Hds, bind_ret. exists (None :: ds).
    split_and!; [done|constructor; [by left|done]|done].
  - rewrite Hchk, bind_ret, mret_eq, bind_ret, Hds, bind_ret by done.
    exists (Some (br_payload r') :: ds). split_and!; [done| |].
    + constructor; [|done]. right. by destruct Hsame as (_ & _ & _ & ->).
    + unfold present in *. cbn. by rewrite Hpr.
Qed.
End Objects.

(** ** Counting losses *)
Lemma length_filter_le_or {A} (f g h : A -> bool) (l : list A) :
  (forall x, x ∈ l -> f x = true -> g x = true \/ h x = true) ->
  (length (List.filter f l) <= length (List.filter g l) + length (List.filter h l))%nat.
Proof.
  induction l as [|x l IH]; intros Hf; [done|]. cbn [List.filter].
  assert (length (List.filter f l) <= length (List.filter g l) + length (List.filter h l))%nat
    by (apply IH; intros y Hy; apply Hf; by right).
  specialize (Hf x ltac:(by left)).
  destruct (f x); [destruct Hf as [-> | ->]; [done|..]|];
    repeat case_match; cbn [length]; lia.
Qed.

Lemma length_filter_app {A} (f : A -> bool) (l k : list A) :
  length (List.filter f (l ++ k)) = (length (List.filter f l) + length (List.filter f k))%nat.
Proof. by rewrite List.filter_app, length_app. Qed.

Lemma list_filter_elem {A} (f : A -> bool) (l : list A) x : x ∈ List.filter f l <-> x ∈ l /\ f x = true.
Proof. by rewrite !list_elem_of_In, List.filter_In. Qed.

Lemma filter_residue_small s v first n :
  0 < s -> n <= s -> (length (List.filter (fun i => i mod s =? v)%Z (seqZ first n)) <= 1)%nat.
Proof.
  intros Hs Hn. set (l := List.filter _ _).
  assert (NoDup l) as Hnd by (apply NoDup_ListNoDup, List.NoDup_filter, NoDup_ListNoDup, NoDup_seqZ).
  assert (forall x, x ∈ l -> first <= x < first + n /\ x mod s = v) as Hl.
  { intros x [Hx Hv]%list_filter_elem. apply elem_of_seqZ in Hx. lia. }
  destruct l as [|x [|y l]]; [cbn; lia|cbn; lia|]. exfalso.
  apply NoDup_cons in Hnd as [Hxy _].
  destruct (Hl x) as [Hx Hvx]; [by left|]. destruct (Hl y) as [Hy Hvy]; [by right; left|].
  apply Hxy. assert (x = y) as ->; [|by left].
  pose proof (Z.div_mod x s ltac:(lia)). pose proof (Z.div_mod y s ltac:(lia)).
  assert (x / s = y / s) by nia. nia.
Qed.

(** One volume holds at most its share of consecutive blocks. *)
Lemma filter_volume_le s v first n :
  0 < s -> 0 <= n ->
  Z.of_nat (length (List.filter (fun i => i mod s =? v) (seqZ first n))) <= cdiv n s.
Proof.
  intros Hs Hn. revert first. remember (Z.to_nat n) as fuel eqn:Hf.
  assert (n <= Z.of_nat fuel) as Hfuel by lia. clear Hf. revert n Hn Hfuel.
  induction fuel as [|fuel IH]; intros n Hn Hfuel first.
  { assert (n = 0) as -> by lia. cbn. apply cdiv_nonneg; lia. }
  pose proof (cdiv_spec n s Hs). destruct (Z.le_gt_cases n s) as [Hle|Hgt].
  - pose proof (filter_residue_small s v first n Hs Hle).
    pose proof (cdiv_nonneg n s Hs Hn).
    destruct (Z.eq_dec n 0) as [->|?]; [rewrite seqZ_nil by lia; cbn [List.filter length]; lia|]. nia.
  - replace n with (s + (n - s)) at 1 by lia.
    rewrite seqZ_app, length_filter_app by lia.
    pose proof (filter_residue_small s v first s Hs ltac:(lia)).
    specialize (IH (n - s) ltac:(lia) ltac:(lia) (first + s)).
    pose proof (cdiv_spec (n - s) s Hs). nia.
Qed.

(** The blocks of lost volumes [V] and the lost blocks [E] beside. *)
Definition lost (s : Z) (V E : list Z) (i : Z) : bool :=
  bool_decide (i mod s ∈ V) || bool_decide (i ∈ E).

Lemma filter_lost_volumes s (V : list Z) first n :
  0 < s -> 0 <= n ->
  Z.of_nat (length (List.filter (fun i => bool_decide (i mod s ∈ V)) (seqZ first n)))
  <= Z.of_nat (length V) * cdiv n s.
Proof.
  intros Hs Hn. induction V as [|v V IH].
  - assert (length (List.filter (fun i => bool_decide ((i mod s)%Z ∈ @nil Z)) (seqZ first n)) = 0%nat) as ->;
      [|cbn [length]; change (Z.of_nat 0) with 0; lia].
    induction (seqZ first n) as [|x l IH]; [done|]. cbn [List.filter].
    rewrite bool_decide_eq_false_2 by by apply not_elem_of_nil. done.
  - pose proof (filter_volume_le s v first n Hs Hn).
    pose proof (length_filter_le_or (fun i => bool_decide (i mod s ∈ v :: V)) (fun i => i mod s =? v)
      (fun i => bool_decide (i mod s ∈ V)) (seqZ first n)) as Hor.
    cbn [length]. rewrite Nat2Z.inj_succ. specialize (Hor ltac:(
      intros x _ Hx%bool_decide_eq_true; apply elem_of_cons in Hx as [Hx|Hx];
      [left; lia|right; by apply bool_decide_eq_true])). lia.
Qed.

Lemma filter_lost s V E first n :
  0 < s -> 0 <= n ->
  Z.of_nat (length (List.filter (lost s V E) (seqZ first n)))
  <= Z.of_nat (length V) * cdiv n s + Z.of_nat (length E).
Proof.
  intros Hs Hn. pose proof (filter_lost_volumes s V first n Hs Hn).
  assert (length (List.filter (fun i => bool_decide (i ∈ E)) (seqZ first n)) <= length E)%nat.
  { apply submseteq_length, NoDup_submseteq.
    - apply NoDup_ListNoDup, List.NoDup_filter, NoDup_ListNoDup, NoDup_seqZ.
    - intros x [_ Hx]%list_filter_elem. by apply bool_decide_eq_true in Hx. }
  pose proof (length_filter_le_or (lost s V E) (fun i => bool_decide (i mod s ∈ V))
    (fun i => bool_decide (i ∈ E)) (seqZ first n)) as Hor.
  specialize (Hor ltac:(intros x _ Hx%orb_true_iff; tauto)). lia.
Qed.

Section Survival.
Context {C : Crc32c} {Sha : Sha256} {Lib : CryptoLib} {T : Target}.
Context {P : Type} {BP : BlockProvider P}.

(** The context in which a reader loads the object, under the header that
    [build_crypto_header] records. *)
Definition reader_context (vh : VolumeHeader) (h : CryptoHeaderFixed)
    (context : ObjectEncryptionContext) (object : EncryptedObject) : ObjectLoadContext := {|
  lc_volume_header := vh;
  lc_crypto_header := h;
  lc_extent := {| ox_first_block_index := eo_first_block_index object;
                  ox_data_block_count := eo_data_block_count object;
                  ox_parity_block_count := eo_parity_block_count object;
                  ox_encrypted_size := eo_encrypted_size object |};
  lc_data_kind := oc_data_kind context;
  lc_parity_kind := oc_parity_kind context;
  lc_key := oc_key context;
  lc_nonce_seed := oc_nonce_seed context;
  lc_domain := oc_domain context;
  lc_counter := oc_counter context;
  lc_class_data_shard_max := oc_data_shard_max context;
  lc_class_parity_shard_max := oc_class_parity_shard_max context |}.

Lemma object_count_pos payload context o first object data parity :
  0 < wo_block_size o -> object_of payload context o first object data parity ->
  1 <= eo_data_block_count object.
Proof.
  intros Hb H. rewrite (ob_planned _ _ _ _ _ _ _ H). pose proof (blen_nonneg payload).
  assert (0 <= AeadAlgo_tag_len (wo_aead_algo o)) by (destruct (wo_aead_algo o); cbn; lia).
  pose proof (Z.div_pos (blen payload + AeadAlgo_tag_len (wo_aead_algo o)) (wo_block_size o)). lia.
Qed.

Lemma validate_object_extent_written payload context o first object data parity h vh :
  0 < wo_block_size o -> object_of payload context o first object data parity ->
  ch_stripe_width h = wo_stripe_width o ->
  ch_volume_loss_tolerance h = wo_volume_loss_tolerance o ->
  ch_bit_rot_buffer_pct h = wo_bit_rot_buffer_pct o ->
  ch_block_size h = wo_block_size o -> ch_aead_algo h = wo_aead_algo o ->
  validate_object_extent (lc_extent (reader_context vh h context object)) h
    (oc_data_shard_max context) (oc_class_parity_shard_max context) = Ok tt.
Proof.
  intros Hb H Hs Hv Hp Hbs Ha. pose proof (object_count_pos _ _ _ _ _ _ _ Hb H) as Hpos.
  assert (0 <= AeadAlgo_tag_len (wo_aead_algo o)) by (destruct (wo_aead_algo o); cbn; lia).
  destruct H. clear ob_planned0. assert (0 < eo_encrypted_size object) by lia.
  unfold validate_object_extent, reader_context, fits in *.
  cbn [lc_extent ox_first_block_index ox_data_block_count ox_parity_block_count ox_encrypted_size].
  rewrite (proj2 (required_object_parity_agrees o h Hs Hv Hp _ _) ob_parity0).
  unfold ObjectReader.checked_u64_add, ObjectReader.checked_u64_mul. rewrite Hbs, Ha.
  rewrite (ok_or_eq (checked_mul 64 _ _) (eo_encrypted_size object))
    by (unfold checked_mul; rewrite ob_size0; by replace (_ <? 2 ^ 64) with true by lia).
  run. done.
Qed.

(** The blocks of an object, with what its reader checks of them. *)
Lemma data_block_checks payload context o first object data parity j r :
  object_of payload context o first object data parity ->
  framed (oc_data_kind context) (last_data_flags (Z.of_nat (length data))) first 0 data !! j = Some r ->
  br_block_index r = first + (0 + Z.of_nat (0 + j)) /\ br_block_index r < 2 ^ 64
  /\ forall r', same_block r r' ->
       check_data_block (oc_data_kind context) (eo_data_block_count object) (0 + j) r' = Ok tt.
Proof.
  intros H Hj. apply list_lookup_imap_Some in Hj as (p & Hj & ->). cbn.
  apply lookup_lt_Some in Hj. pose proof (ob_data_count _ _ _ _ _ _ _ H) as Hd.
  pose proof (ob_next _ _ _ _ _ _ _ H). pose proof (ob_parity_count _ _ _ _ _ _ _ H).
  split; [lia|]. split; [lia|]. intros r' (_ & Hk & Hf & _). cbn in Hk, Hf.
  unfold check_data_block, BlockRecord_is_last_data. rewrite Hk, Hf, Hd, bool_decide_eq_true_2 by done.
  run. unfold last_data_flags. by destruct (Z.of_nat j + 1 =? Z.of_nat (length data)).
Qed.

Lemma parity_block_checks payload context o first object data parity j r :
  object_of payload context o first object data parity ->
  framed (oc_parity_kind context) (fun _ => 0) (first + Z.of_nat (length data)) 0 parity !! j = Some r ->
  br_block_index r = first + (eo_data_block_count object + Z.of_nat (0 + j))
  /\ br_block_index r < 2 ^ 64
  /\ forall r', same_block r r' -> check_parity_block (oc_parity_kind context) (0 + j) r' = Ok tt.
Proof.
  intros H Hj. apply list_lookup_imap_Some in Hj as (p & Hj & ->). cbn.
  apply lookup_lt_Some in Hj. pose proof (ob_data_count _ _ _ _ _ _ _ H) as Hd.
  pose proof (ob_next _ _ _ _ _ _ _ H). pose proof (ob_parity_count _ _ _ _ _ _ _ H).
  split; [lia|]. split; [lia|]. intros r' (_ & Hk & Hf & _). cbn in Hk, Hf.
  unfold check_parity_block, BlockRecord_is_last_data.
  by rewrite Hk, Hf, bool_decide_eq_true_2 by done.
Qed.

Lemma object_indices payload context o first object data parity :
  object_of payload context o first object data parity ->
  map br_block_index (eo_records object)
  = seqZ first (eo_data_block_count object + eo_parity_block_count object).
Proof.
  intros H. rewrite (ob_records _ _ _ _ _ _ _ H), map_app, !index_framed.
  rewrite (ob_data_count _ _ _ _ _ _ _ H), (ob_parity_count _ _ _ _ _ _ _ H).
  rewrite seqZ_app by lia. f_equal; f_equal; lia.
Qed.

Lemma filter_arrived_lost (blocks : P) (f : Z -> bool) (recs : list BlockRecord) :
  (forall r, r ∈ recs -> f (br_block_index r) = false -> arrived blocks r = true) ->
  (length recs <= length (List.filter (arrived blocks) recs)
                  + length (List.filter f (map br_block_index recs)))%nat.
Proof.
  induction recs as [|r recs IH]; intros H; [done|]. cbn [map List.filter length].
  specialize (IH ltac:(intros; apply H; [by right|done])).
  specialize (H r ltac:(by left)).
  destruct (f (br_block_index r)); [|rewrite H by done]; repeat case_match; cbn [length]; lia.
Qed.

(** Enough blocks of the object arrive. *)
Lemma enough_arrived (blocks : P) payload context o first object data parity V E :
  WriterOptions_typed o -> wo_stripe_width o <> 0 ->
  object_of payload context o first object data parity ->
  Z.of_nat (length V) <= wo_volume_loss_tolerance o ->
  100 * (Z.of_nat (length E) - 1)
    < (eo_data_block_count object + eo_parity_block_count object) * wo_bit_rot_buffer_pct o ->
  (forall r, r ∈ eo_records object ->
     lost (wo_stripe_width o) V E (br_block_index r) = false -> arrived blocks r = true) ->
  (length data <= length (List.filter (arrived blocks) (eo_records object)))%nat.
Proof.
  intros HT Hs H HV HE Harr. pose proof HT as HT'. unfold WriterOptions_typed, fits in HT'.
  destruct (compute_parity_least _ _ _ HT Hs (ob_parity _ _ _ _ _ _ _ H)) as (Hfix & Hpu & _).
  pose proof (filter_arrived_lost blocks _ _ Harr) as Hcount.
  rewrite (object_indices _ _ _ _ _ _ _ H) in Hcount.
  pose proof (filter_lost (wo_stripe_width o) V E first
    (eo_data_block_count object + eo_parity_block_count object) ltac:(lia)
    ltac:(pose proof (ob_data_count _ _ _ _ _ _ _ H); unfold fits in Hpu; lia)) as Hlost.
  assert (Z.of_nat (length (eo_records object))
          = eo_data_block_count object + eo_parity_block_count object) as Hlen.
  { rewrite (ob_records _ _ _ _ _ _ _ H), length_app, !length_framed.
    rewrite (ob_data_count _ _ _ _ _ _ _ H), (ob_parity_count _ _ _ _ _ _ _ H). lia. }
  pose proof (ob_data_count _ _ _ _ _ _ _ H) as Hd.
  set (n := eo_data_block_count object + eo_parity_block_count object) in *.
  unfold parity_next, parity_demand in Hfix. fold n in Hfix.
  pose proof (cdiv_spec (n * wo_bit_rot_buffer_pct o) 100 ltac:(lia)).
  pose proof (cdiv_nonneg n (wo_stripe_width o) ltac:(lia) ltac:(lia)). nia.
Qed.

Lemma concat_size n (shards : list bytes) :
  Forall (fun c => length c = n) shards -> blen (concat shards) = Z.of_nat (length shards * n).
Proof.
  unfold blen. intros H. f_equal. induction H as [|x l Hx H IH]; [done|].
  cbn. rewrite length_app, IH, Hx. lia.
Qed.

Lemma all_present_length (ds : list (option bytes)) : present ds = length ds -> forallb is_present ds = true.
Proof. apply forallb_is_present. Qed.

(** The shards that the reader collects, under either policy, repair to the
    encrypted object. *)
Lemma read_object_repairs (blocks : P) payload context o first object data parity h vh policy :
  0 < wo_block_size o -> wo_block_size o `mod` 2 = 0 ->
  object_of payload context o first object data parity ->
  validate_object_extent (lc_extent (reader_context vh h context object)) h
    (oc_data_shard_max context) (oc_class_parity_shard_max context) = Ok tt ->
  ch_block_size h = wo_block_size o ->
  (forall r, r ∈ eo_records object -> received blocks r) ->
  (length data <= length (List.filter (arrived blocks) (eo_records object)))%nat ->
  eo_data_block_count object <= READER_MAX_REPAIR_TOTAL_SHARDS ->
  exists shards,
    read_object_shards_with_parity_policy blocks h (lc_extent (reader_context vh h context object))
      (oc_data_kind context) (oc_parity_kind context) (oc_data_shard_max context)
      (oc_class_parity_shard_max context) policy = Ok shards
    /\ recover_data_bytes_gf16 (ro_data_shards shards) (ro_parity_shards shards) (ro_block_size shards)
       = Ok (concat data)
    /\ repair_data_gf16 (ro_data_shards shards) (ro_parity_shards shards) (ro_block_size shards)
       = Ok data.
Proof.
  intros Hb Heven H Hval Hbs Hrec Harr Hmax. pose proof (ob_records _ _ _ _ _ _ _ H) as Hr.
  pose proof (object_count_pos _ _ _ _ _ _ _ Hb H) as Hpos.
  pose proof (ob_data_count _ _ _ _ _ _ _ H) as Hd. pose proof (ob_parity_count _ _ _ _ _ _ _ H) as Hp.
  pose proof (ob_first _ _ _ _ _ _ _ H) as Hf. pose proof (ob_total _ _ _ _ _ _ _ H) as Htot.
  rewrite Hr in Hrec, Harr. rewrite length_filter_app in Harr.
  destruct (read_shards_spec blocks (check_data_block (oc_data_kind context) (eo_data_block_count object))
    first 0 (framed (oc_data_kind context) (last_data_flags (Z.of_nat (length data))) first 0 data) 0)
    as (ds & Hds & Heds & Hpds).
  { intros j r Hj. destruct (data_block_checks _ _ _ _ _ _ _ _ _ H Hj) as (H1 & H2 & H3).
    split_and!; [done|done| |done]. apply Hrec, elem_of_app. left. by eapply list_elem_of_lookup_2. }
  destruct (read_shards_spec blocks (check_parity_block (oc_parity_kind context)) first
    (eo_data_block_count object)
    (framed (oc_parity_kind context) (fun _ => 0) (first + Z.of_nat (length data)) 0 parity) 0)
    as (ps & Hps & Heps & Hpps).
  { intros j r Hj. destruct (parity_block_checks _ _ _ _ _ _ _ _ _ H Hj) as (H1 & H2 & H3).
    split_and!; [done|done| |done]. apply Hrec, elem_of_app. right. by eapply list_elem_of_lookup_2. }
  rewrite length_framed in Hds, Hps. rewrite payload_framed in Heds, Heps.
  assert (data <> []) as Hne by (intros ->; cbn in Hd; lia).
  apply Z.mod_divide in Heven as [n Hn]; [|lia].
  assert (same_size (Z.to_nat n) data) as Hsame.
  { eapply Forall_impl; [apply (ob_shards _ _ _ _ _ _ _ H)|]. cbn. intros c Hc. lia. }
  assert (forallb is_present ds = true
          \/ encode_parity_gf16 data (length parity) = Ok parity /\ erased parity ps
             /\ (length data <= present ds + present ps)%nat
             /\ Z.of_nat (length data) <= READER_MAX_REPAIR_TOTAL_SHARDS) as Henough.
  { destruct (ob_encode _ _ _ _ _ _ _ H) as [Hz|Henc]; [left|right; split_and!; [done|done|lia|lia]].
    apply all_present_length. rewrite Hz in Heps, Hpps, Harr. cbn in Harr.
    pose proof (Forall2_length _ _ _ Heds).
    assert (present ds <= length ds)%nat by apply present_le. lia. }
  assert (forall ps', (forallb is_present ds = true \/ ps' = ps) -> (length ps' <= length parity)%nat ->
    recover_data_bytes_gf16 ds ps' (wo_block_size o) = Ok (concat data)
    /\ repair_data_gf16 ds ps' (wo_block_size o) = Ok data) as Hrecover.
  { intros ps' Hcase Hlp. replace (wo_block_size o) with (2 * Z.of_nat (Z.to_nat n)) by lia.
    assert (forallb is_present ds = true
          \/ encode_parity_gf16 data (length parity) = Ok parity /\ erased parity ps'
             /\ (length data <= present ds + present ps')%nat
             /\ Z.of_nat (length data) <= READER_MAX_REPAIR_TOTAL_SHARDS) as Hen
      by (destruct Hcase as [?| ->]; auto).
    split.
    - apply (recover_erased _ _ (length parity) parity); [done|done| |done|done].
      replace (2 * Z.of_nat (Z.to_nat n)) with (wo_block_size o) by lia. rewrite <- Hd.
      pose proof (ob_size_u32 _ _ _ _ _ _ _ H) as Hu. rewrite (ob_size _ _ _ _ _ _ _ H) in Hu.
      unfold fits in Hu. lia.
    - destruct Hen as [Hall|(Henc & Hers & Hpres & Hmx)].
      + apply repair_complete; [done..|]. lia.
      + apply (repair_erased _ _ (length parity) parity); auto. }
  unfold read_object_shards_with_parity_policy. rewrite Hval, bind_ret.
  unfold reader_context. cbn [lc_extent ox_first_block_index ox_data_block_count ox_parity_block_count].
  cbv zeta. rewrite Hf. replace (Z.to_nat (eo_data_block_count object)) with (length data) by lia.
  replace (Z.to_nat (eo_parity_block_count object)) with (length parity) by lia.
  rewrite Hds, bind_ret, Hbs.
  destruct (bool_decide (policy = RepairOnly) && forallb is_present ds) eqn:Hpol.
  - apply andb_true_iff in Hpol as [_ Hall]. eexists. split; [done|]. cbn. apply Hrecover; [by left|cbn; lia].
  - rewrite Hps, bind_ret. eexists. split; [done|]. cbn. apply Hrecover; [by right|].
    rewrite <- (Forall2_length _ _ _ Heps). lia.
Qed.

(** An object whose blocks arrive in sufficient number: what is collected of it
    repairs to its shards. *)
Section Damaged.
Context (blocks : P) (payload : bytes) (context : ObjectEncryptionContext)
  (options o : WriterOptions) (len : Z) (kdf : KdfAlgo.t) (dict : bool) (first : Z)
  (object : EncryptedObject) (next : Z) (policy : ParityReadPolicy) (V E : list Z).
Context (HT0 : WriterOptions_typed options) (Hplan : plan_writer_options options = Ok o)
  (Hfit : blen payload + 16 + wo_block_size o < 2 ^ 63) (Hfirst : 0 <= first)
  (Hseed : 32 <= blen (oc_nonce_seed context)) (Hdom : u16 (blen (oc_domain context)))
  (Henc : encrypt_object payload context first o = Ok (object, next))
  (Hmax : eo_data_block_count object <= READER_MAX_REPAIR_TOTAL_SHARDS)
  (HV : Z.of_nat (length V) <= wo_volume_loss_tolerance o)
  (HE : 100 * (Z.of_nat (length E) - 1)
    < (eo_data_block_count object + eo_parity_block_count object) * wo_bit_rot_buffer_pct o)
  (Hblocks : forall r, r ∈ eo_records object -> received blocks r
     /\ (lost (wo_stripe_width o) V E (br_block_index r) = false -> arrived blocks r = true)).

Definition extent_read (object : EncryptedObject) : ObjectReader.ObjectExtent := {|
  ox_first_block_index := eo_first_block_index object;
  ox_data_block_count := eo_data_block_count object;
  ox_parity_block_count := eo_parity_block_count object;
  ox_encrypted_size := eo_encrypted_size object |}.

Lemma object_shards :
  exists data parity shards,
    object_of payload context o first object data parity
    /\ read_object_shards_with_parity_policy blocks (header_of_options o len kdf dict)
         (extent_read object) (oc_data_kind context) (oc_parity_kind context)
         (oc_data_shard_max context) (oc_class_parity_shard_max context) policy = Ok shards
    /\ recover_data_bytes_gf16 (ro_data_shards shards) (ro_parity_shards shards) (ro_block_size shards)
       = Ok (concat data)
    /\ repair_data_gf16 (ro_data_shards shards) (ro_parity_shards shards) (ro_block_size shards)
       = Ok data.
Proof.
  pose proof Hplan as Hp. apply plan_writer_options_Ok in Hp as
    (Hpl & ppar & ipar & rpar & Hu1 & Hu2 & Hu3 & Ho & _); [|done].
  pose proof (planned_typed _ _ _ _ HT0 Hu1 Hu2 Hu3) as HT. rewrite <- Ho in HT.
  assert (0 < wo_block_size o /\ wo_block_size o `mod` 2 = 0 /\ wo_stripe_width o <> 0)
    as (Hb & Heven & Hs).
  { pose proof HT as (_ & _ & _ & _ & [Hvn _] & _). destruct Hpl as (_ & ? & ? & ? & _).
    rewrite Ho in Hvn |- *. unfold planned in *. cbn in *. split_and!; [lia|done|lia]. }
  destruct (encrypt_object_spec _ _ _ _ _ _ HT Hb Hs Hfit Hfirst Hseed Hdom Henc)
    as (data & parity & H & _).
  set (h := header_of_options o len kdf dict).
  pose (vh := {| vh_format_version := 0; vh_volume_format_rev := 0; vh_volume_index := 0;
    vh_stripe_width := 0; vh_archive_uuid := []; vh_session_id := []; vh_crypto_header_offset := 0;
    vh_crypto_header_length := 0; vh_header_crc32c := 0 |}).
  pose proof (validate_object_extent_written _ _ _ _ _ _ _ h vh Hb H eq_refl eq_refl eq_refl eq_refl eq_refl)
    as Hval.
  destruct (read_object_repairs blocks _ _ _ _ _ _ _ h vh policy Hb Heven H Hval eq_refl)
    as (shards & Hread & Hrecover & Hrepair); [by apply Hblocks| |done|].
  { apply (enough_arrived blocks payload context o first object data parity V E); try done. by apply Hblocks. }
  by exists data, parity, shards.
Qed.

(** The lemma behind the theorems: the object is loaded. *)
Lemma object_loads vh :
  vh_archive_uuid vh = oc_archive_uuid context -> vh_session_id vh = oc_session_id context ->
  load_decrypted_object_from_parts_with_parity_policy blocks
    (reader_context vh (header_of_options o len kdf dict) context object) policy = Ok payload.
Proof.
  intros Hu Hsid. destruct object_shards as (data & parity & shards & H & Hread & Hrecover & _).
  unfold load_decrypted_object_from_parts_with_parity_policy.
  unfold extent_read in Hread.
  cbn [reader_context lc_crypto_header lc_extent lc_data_kind lc_parity_kind lc_class_data_shard_max
       lc_class_parity_shard_max].
  rewrite Hread, bind_ret, Hrecover, bind_ret.
  cbn [reader_context ox_encrypted_size lc_key lc_nonce_seed lc_domain lc_volume_header lc_counter].
  pose proof (concat_size _ _ (ob_shards _ _ _ _ _ _ _ H)) as Hcs.
  pose proof (ob_size _ _ _ _ _ _ _ H). pose proof (ob_data_count _ _ _ _ _ _ _ H).
  pose proof (ob_tag _ _ _ _ _ _ _ H). pose proof (blen_nonneg (concat data)).
  assert (0 <= AeadAlgo_tag_len (wo_aead_algo o)) by (destruct (wo_aead_algo o); cbn; lia).
  rewrite reject_if_false, bind_ret by nia. rewrite Hu, Hsid.
  apply (ob_decrypt _ _ _ _ _ _ _ H).
Qed.

(** And its data shards are the payloads of its data records. *)
Lemma object_repaired :
  exists data parity, object_of payload context o first object data parity
    /\ load_repaired_object_data_shards_from_parts_with_parity_policy blocks
         (header_of_options o len kdf dict) (extent_read object) (oc_data_kind context)
         (oc_parity_kind context) (oc_data_shard_max context) (oc_class_parity_shard_max context)
         policy = Ok data.
Proof.
  destruct object_shards as (data & parity & shards & H & Hread & _ & Hrepair).
  exists data, parity. split; [done|].
  unfold load_repaired_object_data_shards_from_parts_with_parity_policy. by rewrite Hread, bind_ret.
Qed.
End Damaged.
End Survival.

Lemma planned_stripe options o :
  WriterOptions_typed options -> plan_writer_options options = Ok o ->
  WriterOptions_typed o /\ 4096 <= wo_block_size o /\ 0 < wo_stripe_width o.
Proof.
  intros HT Hp. apply plan_writer_options_Ok in Hp as
    (Hpl & ppar & ipar & rpar & Hu1 & Hu2 & Hu3 & -> & _); [|done].
  pose proof (planned_typed _ _ _ _ HT Hu1 Hu2 Hu3) as HT'.
  split; [done|]. pose proof HT' as (_ & _ & _ & _ & [Hvn _] & _).
  destruct Hpl as (_ & ? & ? & ? & _). unfold planned in *. cbn in *. lia.
Qed.


Section Theorems.
Context {C : Crc32c} {Sha : Sha256} {Lib : CryptoLib} {T : Target}.

(** The plan is what happens.  Under planned options [encrypt_object]
    succeeds exactly when [plan_encrypted_object] accepts the payload's length,
    the padded payload can be sealed, and the block indices fit 64 bits; and
    then the object has the planned numbers of data and parity blocks and the
    planned size, [validate_planned_object] accepts it, and its records are
    numbered in a row from the first index to the next. *)
Theorem encrypt_object_matches_plan options o payload context first :
  WriterOptions_typed options -> plan_writer_options options = Ok o -> writable o payload context ->
  0 <= first ->
  let plan := plan_encrypted_object (blen payload) (oc_data_shard_max context)
                (oc_class_parity_shard_max context) o in
  ((exists object next, encrypt_object payload context first o = Ok (object, next))
   <-> exists p c, plan = Ok p /\ encrypt_object_payload payload context o = Ok c
       /\ first + po_data_block_count p + po_parity_block_count p < 2 ^ 64)
  /\ (forall object next, encrypt_object payload context first o = Ok (object, next) ->
      exists p, plan = Ok p /\ validate_planned_object object p = Ok tt
        /\ next = first + po_data_block_count p + po_parity_block_count p
        /\ map br_block_index (eo_records object)
           = seqZ first (po_data_block_count p + po_parity_block_count p)).
Proof.
  intros HT Hp Hw Hfirst plan. destruct (planned_stripe _ _ HT Hp) as (HT' & Hb & Hs).
  pose proof Hw as (Hfit & Hseed & Hdom & _). pose proof (blen_nonneg payload) as Hpl.
  assert (forall object next, encrypt_object payload context first o = Ok (object, next) ->
    exists p, plan = Ok p /\ validate_planned_object object p = Ok tt
      /\ next = first + po_data_block_count p + po_parity_block_count p
      /\ map br_block_index (eo_records object)
         = seqZ first (po_data_block_count p + po_parity_block_count p)
      /\ first + po_data_block_count p + po_parity_block_count p < 2 ^ 64) as Hsound.
  { intros object next H.
    destruct (encrypt_object_spec payload context o first object next HT' ltac:(lia) ltac:(lia) Hfit
      Hfirst Hseed Hdom H) as (data & parity & Hobj & ->).
    exists {| po_data_block_count := eo_data_block_count object;
              po_parity_block_count := eo_parity_block_count object;
              po_encrypted_size := eo_encrypted_size object |}.
    pose proof (object_indices _ _ _ _ _ _ _ Hobj) as Hidx. destruct Hobj.
    split_and!; [|unfold validate_planned_object; cbn; by rewrite !Z.eqb_refl|done|done|done].
    apply plan_encrypted_object_Ok; [lia|done|]. by split_and!. }
  split; [split|].
  - intros (object & next & H). destruct (Hsound _ _ H) as (p & Hplan & _ & _ & _ & Hroom).
    unfold encrypt_object in H. apply bind_Ok in H as (c & Hc & _). by exists p, c.
  - intros (p & c & Hplan & Hc & Hroom).
    apply (encrypt_object_total payload context o first p c); try done; [lia| |lia].
    apply plan_writer_options_Ok in Hp as ((_ & _ & Heven & _) & ? & ? & ? & _ & _ & _ & -> & _); [|done].
    done.
  - intros object next H. destruct (Hsound _ _ H) as (p & H1 & H2 & H3 & H4 & _). by exists p.
Qed.

(** The parallel writer's short cut.  When an object has no parity blocks,
    [serialize_zero_parity_encrypted_object] makes, at the object's extent,
    exactly the frames of the records that [encrypt_object] makes. *)
Theorem zero_parity_serialization_agrees options o payload context first object next :
  WriterOptions_typed options -> plan_writer_options options = Ok o -> writable o payload context ->
  0 <= first -> encrypt_object payload context first o = Ok (object, next) ->
  eo_parity_block_count object = 0 ->
  serialize_zero_parity_encrypted_object payload context (extent_of_object object) o
  = Ok (map (fun r => {| sb_block_index := br_block_index r; sb_bytes := BlockRecord_to_bytes r |})
          (eo_records object)).
Proof.
  intros HT Hp Hw Hfirst H Hzero. destruct (planned_stripe _ _ HT Hp) as (HT' & Hb & Hs).
  pose proof Hw as (Hfit & Hseed & Hdom & _). pose proof (blen_nonneg payload) as Hpl.
  destruct (encrypt_object_spec payload context o first object next HT' ltac:(lia) ltac:(lia) Hfit
    Hfirst Hseed Hdom H) as (data & parity & Hobj & _).
  pose proof (ob_parity_count _ _ _ _ _ _ _ Hobj) as Hpc. rewrite Hzero in Hpc.
  assert (parity = []) as -> by (by destruct parity).
  pose proof (object_count_pos payload context o first object data [] ltac:(lia) Hobj) as Hpos. destruct Hobj.
  destruct ob_sealed0 as (c & Hc & Hch).
  destruct (encrypt_object_payload_spec payload context o c) as (Hlen & _); [|done..|].
  { destruct HT' as ([_ HT'] & _). unfold u32_max. lia. }
  rewrite <- ob_planned0 in Hlen.
  unfold serialize_zero_parity_encrypted_object, extent_of_object.
  cbn [oe_first_block_index oe_data_block_count oe_parity_block_count oe_encrypted_size].
  rewrite (proj2 (plan_encrypted_object_Ok (blen payload) _ _ o
    {| po_data_block_count := eo_data_block_count object;
       po_parity_block_count := eo_parity_block_count object;
       po_encrypted_size := eo_encrypted_size object |} ltac:(lia) Hpl)) by by split_and!.
  clear ob_planned0. rewrite bind_ret. cbn [po_data_block_count po_parity_block_count po_encrypted_size].
  rewrite Hzero, !Z.eqb_refl. cbn [negb orb reject_if]. rewrite !bind_ret. rewrite Hc, bind_ret. cbv zeta.
  assert (blen c `mod` wo_block_size o = 0) as Hmod by (by rewrite Hlen, Z.mod_mul by lia).
  assert (blen c / wo_block_size o = eo_data_block_count object) as Hdiv by (by rewrite Hlen, Z.div_mul by lia).
  rewrite (proj2 (Z.eqb_neq (wo_block_size o) 0)), bind_ret by lia.
  rewrite Hmod, Hlen, <- ob_size0, !Z.eqb_refl. cbn [negb orb reject_if]. rewrite bind_ret.
  rewrite ob_size0, Z.div_mul, Z.eqb_refl by lia.
  rewrite (proj2 (Z.eqb_neq (eo_data_block_count object) 0)) by lia. cbn [negb orb reject_if].
  rewrite bind_ret, Hch, bind_ret, serialize_chunks_eq by lia.
  rewrite ob_records0, ob_first0, ob_data_count0, app_nil_r. done.
Qed.
End Theorems.

(** ** Concrete inputs: two volumes, one of which may be lost *)
Definition two_volumes (loss : Z) : WriterOptions := {|
  wo_block_size := 4096; wo_chunk_size := 4096; wo_envelope_target_size := 4096;
  wo_stripe_width := 2; wo_volume_loss_tolerance := loss; wo_bit_rot_buffer_pct := 0;
  wo_zstd_level := 3; wo_jobs := 1; wo_aead_algo := AeadAlgo.AesGcmSiv256;
  wo_fec_data_shards := 1; wo_fec_parity_shards := 0; wo_index_fec_data_shards := 1;
  wo_index_fec_parity_shards := 0; wo_index_root_fec_data_shards := 16;
  wo_index_root_fec_parity_shards := 0; wo_max_path_length := 4096;
  wo_target_volume_size := None; wo_archive_uuid := None; wo_session_id := None;
  wo_closed_at_ns := 0 |}.

Lemma two_volumes_typed loss : u8 loss -> WriterOptions_typed (two_volumes loss).
Proof.
  intros Hl. unfold WriterOptions_typed, two_volumes. cbn.
  split_and!; try (by apply fitsb_fits); [done|]. intros n. discriminate.
Qed.

Definition planned_volumes (loss : Z) : WriterOptions :=
  match plan_writer_options (two_volumes loss) with Ok o => o | _ => two_volumes loss end.

Definition example_object_context : ObjectEncryptionContext := {|
  oc_key := zeros 32; oc_nonce_seed := zeros 32;
  oc_domain := String.list_byte_of_string "envelope"; oc_counter := 0;
  oc_data_kind := BlockKind.PayloadData; oc_parity_kind := BlockKind.PayloadParity;
  oc_data_shard_max := 1; oc_class_parity_shard_max := 1; oc_archive_uuid := zeros 16;
  oc_session_id := zeros 16 |}.

Lemma example_writable loss payload :
  plan_writer_options (two_volumes loss) = Ok (planned_volumes loss) ->
  blen payload < 2 ^ 20 -> wo_block_size (planned_volumes loss) = 4096 ->
  writable (planned_volumes loss) payload example_object_context.
Proof.
  intros _ Hp Hb. unfold writable. rewrite Hb. cbn. split_and!; [lia|vm_compute; discriminate| |done].
  by apply fitsb_fits.
Qed.

Definition is_ok {A} (r : fresult A) : bool := match r with Ok _ => true | _ => false end.

Lemma is_ok_Ok {A} (r : fresult A) : is_ok r = true -> exists a, r = Ok a.
Proof. destruct r as [a| |]; [by exists a|done|done]. Qed.

Lemma example_plan_volumes loss :
  loss = 0 \/ loss = 1 ->
  plan_writer_options (two_volumes loss) = Ok (planned_volumes loss)
  /\ WriterOptions_typed (two_volumes loss) /\ wo_block_size (planned_volumes loss) = 4096
  /\ wo_stripe_width (planned_volumes loss) = 2 /\ wo_volume_loss_tolerance (planned_volumes loss) = loss
  /\ wo_bit_rot_buffer_pct (planned_volumes loss) = 0.
Proof.
  intros Hl. assert (u8 loss) as Hu by (unfold fits; lia).
  destruct Hl as [-> | ->]; (split; [vm_compute; reflexivity|]); (split; [by apply two_volumes_typed|]);
    split_and!; vm_compute; reflexivity.
Qed.

Lemma example_sealed loss :
  loss = 0 \/ loss = 1 ->
  exists c, encrypt_object_payload (Lib := toy_CryptoLib) (zeros 5) example_object_context
    (planned_volumes loss) = Ok c.
Proof. intros [-> | ->]; apply is_ok_Ok; vm_compute; reflexivity. Qed.

Lemma example_planned_object loss :
  loss = 0 \/ loss = 1 ->
  plan_encrypted_object (blen (zeros 5)) 1 1 (planned_volumes loss)
  = Ok {| po_data_block_count := 1; po_parity_block_count := loss; po_encrypted_size := 4096 |}.
Proof. intros [-> | ->]; vm_compute; reflexivity. Qed.

Lemma encrypt_object_matches_plan_witness :
  exists object next,
    encrypt_object (Lib := toy_CryptoLib) (T := example_target) (zeros 5) example_object_context 0
      (planned_volumes 1) = Ok (object, next).
Proof.
  destruct (example_plan_volumes 1 ltac:(by right)) as (Hp & HT & Hb & _).
  apply (encrypt_object_matches_plan (Lib := toy_CryptoLib) (T := example_target) (two_volumes 1)
    (planned_volumes 1) (zeros 5) example_object_context 0 HT Hp); [|lia|].
  - apply example_writable; [done|by vm_compute|done].
  - destruct (example_sealed 1 ltac:(by right)) as [c Hc].
    eexists _, c. split; [apply (example_planned_object 1); by right|]. split; [exact Hc|by vm_compute].
Defined.

Lemma zero_parity_serialization_agrees_witness :
  exists object next,
    encrypt_object (Lib := toy_CryptoLib) (T := example_target) (zeros 5) example_object_context 0
      (planned_volumes 0) = Ok (object, next)
    /\ serialize_zero_parity_encrypted_object (C := toy_Crc32c) (Lib := toy_CryptoLib) (zeros 5)
         example_object_context (extent_of_object object) (planned_volumes 0)
       = Ok (map (fun r => {| sb_block_index := br_block_index r; sb_bytes := BlockRecord_to_bytes (C := toy_Crc32c) r |})
               (eo_records object)).
Proof.
  destruct (example_plan_volumes 0 ltac:(by left)) as (Hp & HT & Hb & Hs & _).
  destruct (planned_stripe _ _ HT Hp) as (HT' & _).
  assert (writable (planned_volumes 0) (zeros 5) example_object_context) as Hw
    by (apply example_writable; [done|by vm_compute|done]).
  destruct (example_sealed 0 ltac:(by left)) as [c Hc].
  destruct (encrypt_object_total (Lib := toy_CryptoLib) (T := example_target) (zeros 5)
    example_object_context (planned_volumes 0) 0 _ c HT' ltac:(lia) ltac:(by rewrite Hb) ltac:(lia) Hw
    ltac:(lia) (example_planned_object 0 ltac:(by left)) Hc ltac:(by vm_compute)) as (object & next & H).
  exists object, next. split; [exact H|].
  apply (zero_parity_serialization_agrees (C := toy_Crc32c) (Lib := toy_CryptoLib) (T := example_target)
    (two_volumes 0) (planned_volumes 0) (zeros 5) example_object_context 0 object next HT Hp Hw
    ltac:(lia) H).
  destruct (encrypt_object_spec (Lib := toy_CryptoLib) (T := example_target) (zeros 5)
    example_object_context (planned_volumes 0) 0 object next HT' ltac:(lia) ltac:(lia)
    (proj1 Hw) ltac:(lia) (proj1 (proj2 Hw)) (proj1 (proj2 (proj2 Hw))) H)
    as (data & parity & Hobj & _).
  pose proof (ob_parity _ _ _ _ _ _ _ Hobj) as Hpar. rewrite (ob_planned _ _ _ _ _ _ _ Hobj) in Hpar.
  assert (compute_parity ((blen (zeros 5) + AeadAlgo_tag_len (wo_aead_algo (planned_volumes 0)))
    / wo_block_size (planned_volumes 0) + 1) (planned_volumes 0) = Ok 0) as E by (vm_compute; reflexivity).
  rewrite E in Hpar. injection Hpar as <-. reflexivity.
Defined.
