(* ===== verification/Emission.v ===== *)
(** * From the sink back to the blocks

    The abstract archive is a log: the list of block records in the order of
    their indices.  Emission into a [MemoryArchiveSink] refines appending to
    the log, as an invariant of the emission state; reading a slot of a volume
    refines looking the record up; and both together show that an object
    survives the loss of volumes and of blocks, from the writer's sink to the
    reader's payload. *)

From S2P Require Import Wire Padding Fec VolumeHeader CryptoHeaderFixed BlockRecord Kdf Crypto FecCorrect.
From S2P Require Import RootAuth WriterPlan ObjectWriter ObjectReader ObjectRoundtrip.
#[local] Open Scope Z_scope.

(** ** Striping *)

(** The records of a log that volume [v] of [s] holds, in order. *)
Definition share (s : Z) (log : list BlockRecord) (v : nat) : list BlockRecord :=
  List.filter (fun r => br_block_index r mod s =? Z.of_nat v) log.

(** The [i]-th record of the log has index [i]. *)
Definition numbered (log : list BlockRecord) : Prop :=
  map br_block_index log = seqZ 0 (Z.of_nat (length log)).

Lemma numbered_lookup log i r :
  numbered log -> log !! i = Some r -> br_block_index r = Z.of_nat i.
Proof.
  intros Hn Hi. assert (map br_block_index log !! i = Some (br_block_index r)) as H
    by (by change (br_block_index <$> log !! i = Some (br_block_index r)) || (rewrite list_lookup_fmap, Hi; done)).
  rewrite Hn in H. apply lookup_seqZ in H. lia.
Qed.

Lemma numbered_app log recs :
  numbered log -> map br_block_index recs = seqZ (Z.of_nat (length log)) (Z.of_nat (length recs)) ->
  numbered (log ++ recs).
Proof.
  unfold numbered. intros Hl Hr. rewrite map_app, Hl, Hr, length_app, Nat2Z.inj_add, seqZ_app by lia.
  done.
Qed.

Lemma filter_map_length {A B} (f : B -> bool) (g : A -> B) (l : list A) :
  length (List.filter f (map g l)) = length (List.filter (fun x => f (g x)) l).
Proof. induction l as [|x l IH]; [done|]. cbn. case_match; cbn; by rewrite IH. Qed.

Lemma filter_residue_one s v first :
  0 < s -> 0 <= v < s ->
  length (List.filter (fun i => i mod s =? v) (seqZ first s)) = 1%nat.
Proof.
  intros Hs Hv. pose proof (filter_residue_small s v first s Hs ltac:(lia)).
  set (x := first + (v - first) mod s).
  assert (x ∈ List.filter (fun i => i mod s =? v) (seqZ first s)) as Hx.
  { apply list_filter_elem. pose proof (Z.mod_pos_bound (v - first) s Hs). split.
    - apply elem_of_seqZ. unfold x. lia.
    - apply Z.eqb_eq. unfold x. rewrite Zplus_mod_idemp_r.
      replace (first + (v - first)) with v by lia. by apply Z.mod_small. }
  destruct (List.filter _ _) as [|? [|? ?]]; cbn in *; [by apply not_elem_of_nil in Hx|done|lia].
Qed.

(** Before block [i] its volume holds [i / s] blocks. *)
Lemma filter_residue_count s q v :
  0 < s -> 0 <= v < s ->
  length (List.filter (fun i => i mod s =? v) (seqZ 0 (Z.of_nat q * s + v))) = q.
Proof.
  intros Hs Hv. induction q as [|q IH].
  - replace (Z.of_nat 0 * s + v) with v by lia.
    destruct (List.filter _ _) as [|x l] eqn:E; [done|]. exfalso.
    assert (x ∈ List.filter (fun i => i mod s =? v) (seqZ 0 v)) as Hx by (rewrite E; by left).
    apply list_filter_elem in Hx as [Hx%elem_of_seqZ Hm]. rewrite Z.mod_small in Hm by lia. lia.
  - replace (Z.of_nat (S q) * s + v) with ((Z.of_nat q * s + v) + s) by lia.
    rewrite seqZ_app, length_filter_app, IH, filter_residue_one by lia. lia.
Qed.

Lemma share_lookup s log i r :
  0 < s -> numbered log -> log !! i = Some r ->
  share s log (Z.to_nat (Z.of_nat i mod s)) !! Z.to_nat (Z.of_nat i / s) = Some r.
Proof.
  intros Hs Hn Hi. pose proof (numbered_lookup _ _ _ Hn Hi) as Hidx.
  pose proof (Z.mod_pos_bound (Z.of_nat i) s Hs) as Hv.
  pose proof (Z.div_mod (Z.of_nat i) s ltac:(lia)) as Hdm.
  assert (0 <= Z.of_nat i / s) by (apply Z.div_pos; lia).
  unfold share. rewrite Z2Nat.id by lia.
  rewrite <- (take_drop_middle log i r Hi) at 1. rewrite List.filter_app.
  assert (length (List.filter (fun r => br_block_index r mod s =? Z.of_nat i mod s) (take i log))
          = Z.to_nat (Z.of_nat i / s)) as Hlen.
  { rewrite <- (filter_map_length (fun j => j mod s =? Z.of_nat i mod s) br_block_index).
    rewrite <- firstn_map, Hn. assert (i < length log)%nat by by eapply lookup_lt_Some.
    replace (Z.of_nat (length log)) with (Z.of_nat i + Z.of_nat (length log - i)) by lia.
    rewrite seqZ_app, take_app_le by (rewrite ?length_seqZ; lia).
    rewrite take_ge by (rewrite length_seqZ; lia).
    rewrite <- (filter_residue_count s (Z.to_nat (Z.of_nat i / s)) (Z.of_nat i mod s)) by lia.
    do 3 f_equal. lia. }
  rewrite lookup_app_r by lia. rewrite Hlen, Nat.sub_diag. cbn [List.filter].
  by rewrite Hidx, Z.eqb_refl.
Qed.

Lemma share_app s log recs v : share s (log ++ recs) v = share s log v ++ share s recs v.
Proof. apply List.filter_app. Qed.

(** ** Volumes as concatenated records *)
Section Emission.
Context {C : Crc32c} {Sha : Sha256} {Lib : CryptoLib} {T : Target}.

Lemma to_bytes_blen r : blen (BlockRecord_to_bytes r) = blen (br_payload r) + 20.
Proof.
  destruct r as [i k f p c]. unfold BlockRecord_to_bytes. cbn.
  by apply (proj1 (BlockRecord_segments i k f p _) eq_refl).
Qed.

Definition framed_bytes (recs : list BlockRecord) : bytes := concat (map BlockRecord_to_bytes recs).

Lemma framed_bytes_app recs recs' : framed_bytes (recs ++ recs') = framed_bytes recs ++ framed_bytes recs'.
Proof. unfold framed_bytes. by rewrite map_app, concat_app. Qed.

Lemma framed_bytes_blen bs recs :
  Forall (fun r => blen (br_payload r) = bs) recs ->
  blen (framed_bytes recs) = Z.of_nat (length recs) * (bs + 20).
Proof.
  induction 1 as [|r recs Hr H IH]; [done|]. change (framed_bytes (r :: recs)) with
    (BlockRecord_to_bytes r ++ framed_bytes recs).
  rewrite blen_app, to_bytes_blen, IH, Hr. cbn [length]. lia.
Qed.

(** The [k]-th slot behind a prefix is the [k]-th record. *)
Lemma slot_of_record bs prefix recs k r :
  0 <= bs -> Forall (fun r => blen (br_payload r) = bs) recs -> recs !! k = Some r ->
  let off := blen prefix + Z.of_nat k * (bs + 20) in
  seg (prefix ++ framed_bytes recs) off (off + (bs + 20)) = BlockRecord_to_bytes r.
Proof.
  intros Hbs Hall Hk off. pose proof (blen_nonneg prefix).
  rewrite seg_app_r by lia. unfold off.
  replace (blen prefix + Z.of_nat k * (bs + 20) - blen prefix) with (Z.of_nat k * (bs + 20)) by lia.
  replace (blen prefix + Z.of_nat k * (bs + 20) + (bs + 20) - blen prefix)
    with (Z.of_nat k * (bs + 20) + (bs + 20)) by lia.
  rewrite <- (take_drop_middle recs k r Hk) in Hall |- *.
  apply Forall_app in Hall as [Hbefore [Hr _]%Forall_cons].
  rewrite framed_bytes_app. change (framed_bytes (r :: ?l)) with (BlockRecord_to_bytes r ++ framed_bytes l).
  assert (length (take k recs) = k) as Hl by (apply length_take_le, Nat.lt_le_incl; by eapply lookup_lt_Some).
  apply seg_mid; rewrite (framed_bytes_blen bs), Hl by done; [done|].
  by rewrite to_bytes_blen, Hr.
Qed.

(** What the parser demands of a record. *)
Definition readable (bs : Z) (r : BlockRecord) : Prop :=
  u64 (br_block_index r) /\ blen (br_payload r) = bs
  /\ (br_flags r = 0 \/ br_flags r = 1 /\ BlockKind_is_data (br_kind r) = true).

Lemma readable_parses bs r :
  0 <= bs -> readable bs r ->
  exists r', BlockRecord_parse (BlockRecord_to_bytes r) bs = Ok r' /\ same_block r r'.
Proof.
  intros Hbs (Hi & Hp & Hf).
  exists {| br_block_index := br_block_index r; br_kind := br_kind r; br_flags := br_flags r;
            br_payload := br_payload r;
            br_record_crc32c := crc32c (seg (BlockRecord_to_bytes r) 0 (16 + bs)) |}.
  split; [|done]. apply BlockRecord_parse_iff; [done|]. split; [|done].
  unfold BlockRecord_valid, BlockRecord_is_last_data, BlockKind_is_parity. cbn.
  assert (u8 (br_flags r)) as Hu by (unfold fits; lia).
  split_and!; try done.
  - apply reserved_flags_iff; [done|]. tauto.
  - intros Hk. destruct Hf as [-> |[-> Hd]]; [done|]. by rewrite Hd in Hk.
Qed.

Lemma framed_readable bs kind flags_of first shards :
  0 <= first -> first + Z.of_nat (length shards) < 2 ^ 64 ->
  Forall (fun c => length c = Z.to_nat bs) shards -> 0 <= bs ->
  (forall i, flags_of i = 0 \/ flags_of i = 1 /\ BlockKind_is_data kind = true) ->
  Forall (readable bs) (framed kind flags_of first 0 shards).
Proof.
  intros Hf Hl Hs Hbs Hfl. apply Forall_lookup_2. intros i r Hi.
  apply list_lookup_imap_Some in Hi as (p & Hp & ->). unfold readable. cbn.
  pose proof (lookup_lt_Some _ _ _ Hp). pose proof (Forall_lookup_1 _ _ _ _ Hs Hp) as Hlen.
  cbn in Hlen. unfold fits, blen. split_and!; [lia|lia|lia|apply Hfl].
Qed.

Lemma object_readable payload context o first object data parity :
  0 < wo_block_size o -> 0 <= first -> BlockKind_is_data (oc_data_kind context) = true ->
  object_of payload context o first object data parity ->
  Forall (readable (wo_block_size o)) (eo_records object).
Proof.
  intros Hb Hfirst Hk H. rewrite (ob_records _ _ _ _ _ _ _ H).
  pose proof (ob_next _ _ _ _ _ _ _ H). pose proof (ob_data_count _ _ _ _ _ _ _ H).
  pose proof (ob_parity_count _ _ _ _ _ _ _ H). pose proof (ob_shards _ _ _ _ _ _ _ H) as Hsh.
  assert (Forall (fun c => length c = Z.to_nat (wo_block_size o)) parity) as Hps.
  { destruct (ob_encode _ _ _ _ _ _ _ H) as [->|Henc]; [done|].
    pose proof (encode_Ok_shape _ _ _ Henc) as (Hne & Htot & n & Hn).
    destruct (encode_parity_spec n data _ Hn Hne Htot) as (parity' & Henc' & _ & Hpar).
    rewrite Henc in Henc'. injection Henc' as <-.
    apply Forall_lookup_2. intros j p Hj. destruct (Hpar j p Hj) as [-> _].
    destruct data as [|d data]; [done|]. apply Forall_cons in Hn as [Hd _].
    apply Forall_cons in Hsh as [Hd' _]. congruence. }
  apply Forall_app_2; (apply framed_readable; [lia|lia|done|lia|]); [|auto].
  intros i. unfold last_data_flags. case_match; auto.
Qed.

(** ** The emission invariant *)
Definition volume_image (s : Z) (prefixes : list bytes) (log : list BlockRecord) : list bytes :=
  imap (fun v prefix => prefix ++ framed_bytes (share s log v)) prefixes.

Definition leaf_of (r : BlockRecord) : DataBlockMerkleLeaf := {|
  ml_block_index := br_block_index r; ml_kind := br_kind r; ml_flags := br_flags r;
  ml_payload := br_payload r |}.

Definition leaf_hashes (params : RootAuthRevisionParams) (log : list BlockRecord)
    : list (Z * bytes) :=
  map (fun r => (br_block_index r, data_block_merkle_leaf_hash_with_params params (leaf_of r)))
    (List.filter (fun r => BlockKind_is_data (br_kind r)) log).

Record holds (s : Z) (prefixes : list bytes) (collect : option RootAuthRevisionParams)
    (log : list BlockRecord) (st : EmitState MemoryArchiveSink) : Prop := {
  holds_volumes : ms_volumes (es_sink st) = volume_image s prefixes log;
  holds_bytes : es_bytes_written st = map blen (volume_image s prefixes log);
  holds_counts : es_record_counts st
    = imap (fun v _ => Z.of_nat (length (share s log v))) prefixes;
  holds_leaves : es_data_leaf_hashes st = (fun params => leaf_hashes params log) <$> collect
}.

Lemma volume_image_lookup s prefixes log v :
  volume_image s prefixes log !! v
  = (fun prefix => prefix ++ framed_bytes (share s log v)) <$> prefixes !! v.
Proof. unfold volume_image. apply list_lookup_imap. Qed.

Lemma share_snoc s log r v :
  share s (log ++ [r]) v
  = share s log v ++ (if br_block_index r mod s =? Z.of_nat v then [r] else []).
Proof. by rewrite share_app. Qed.

(** Appending one record changes one volume. *)
Lemma volume_image_snoc s prefixes log r v prefix :
  br_block_index r mod s = Z.of_nat v -> prefixes !! v = Some prefix ->
  volume_image s prefixes (log ++ [r])
  = <[v := (prefix ++ framed_bytes (share s log v)) ++ BlockRecord_to_bytes r]>
      (volume_image s prefixes log).
Proof.
  intros Hr Hv. apply list_eq. intros w. destruct (decide (w = v)) as [->|Hw].
  - rewrite list_lookup_insert_eq by (unfold volume_image; rewrite length_imap; by eapply lookup_lt_Some).
    rewrite volume_image_lookup, Hv, share_snoc, Hr, Z.eqb_refl. cbn.
    rewrite framed_bytes_app, app_assoc. unfold framed_bytes at 2. cbn. by rewrite app_nil_r.
  - rewrite list_lookup_insert_ne, !volume_image_lookup, share_snoc by done.
    replace (_ =? Z.of_nat w) with false by lia. by rewrite app_nil_r.
Qed.

Lemma counts_snoc s (prefixes : list bytes) log r v :
  br_block_index r mod s = Z.of_nat v -> (v < length prefixes)%nat ->
  imap (fun v _ => Z.of_nat (length (share s (log ++ [r]) v))) prefixes
  = <[v := Z.of_nat (length (share s log v)) + 1]>
      (imap (fun v _ => Z.of_nat (length (share s log v))) prefixes).
Proof.
  intros Hr Hv. apply list_eq. intros w. destruct (decide (w = v)) as [->|Hw].
  - rewrite list_lookup_insert_eq by (by rewrite length_imap).
    destruct (lookup_lt_is_Some_2 _ _ Hv) as [p Hp].
    rewrite list_lookup_imap, Hp, share_snoc, Hr, Z.eqb_refl. cbn. rewrite length_app. cbn. f_equal. lia.
  - rewrite list_lookup_insert_ne, !list_lookup_imap, share_snoc by done.
    replace (_ =? Z.of_nat w) with false by lia. by rewrite app_nil_r.
Qed.

Lemma leaf_hashes_snoc params log r :
  leaf_hashes params (log ++ [r])
  = leaf_hashes params log
    ++ (if BlockKind_is_data (br_kind r)
        then [(br_block_index r, data_block_merkle_leaf_hash_with_params params (leaf_of r))] else []).
Proof.
  unfold leaf_hashes. rewrite List.filter_app, map_app. f_equal. cbn. by case_match.
Qed.

Lemma framed_bytes_count recs : Z.of_nat (length recs) <= blen (framed_bytes recs).
Proof.
  induction recs as [|r recs IH]; [done|].
  change (framed_bytes (r :: recs)) with (BlockRecord_to_bytes r ++ framed_bytes recs).
  rewrite blen_app, to_bytes_blen. pose proof (blen_nonneg (br_payload r)). cbn [length]. lia.
Qed.

Lemma add_at_eq v i n f x :
  v !! Z.to_nat i = Some x ->
  add_at v i n f
  = if x + n <? 2 ^ 64 then Ok (<[Z.to_nat i := x + n]> v)
    else Err (FormatFailure (WriterUnsupported f)).
Proof.
  intros Hx. unfold add_at, WriterPlan.checked_u64_add, checked_add. rewrite Hx. by case_match.
Qed.

(** The state after one record. *)
Lemma emit_block_record_holds o rev prefixes collect log r st :
  wo_stripe_width o = Z.of_nat (length prefixes) -> prefixes <> [] -> 0 <= br_block_index r ->
  (forall params, collect = Some params -> root_auth_revision_params FORMAT_VERSION rev = Ok params) ->
  let s := wo_stripe_width o in
  let v := Z.to_nat (br_block_index r mod s) in
  holds s prefixes collect log st ->
  (forall st', emit_block_record o rev r st = Ok st' ->
     holds s prefixes collect (log ++ [r]) st' /\ es_next_block_index st' = es_next_block_index st)
  /\ (Forall (fun volume => blen volume < 2 ^ 64) (volume_image s prefixes (log ++ [r])) ->
      exists st', emit_block_record o rev r st = Ok st').
Proof.
  intros Hs Hne Hidx Hrev s v H. destruct H as [Hvol Hbytes Hcounts Hleaves].
  assert (0 < s) as Hpos by (destruct prefixes; [done|cbn in Hs; unfold s; lia]).
  pose proof (Z.mod_pos_bound (br_block_index r) s Hpos) as Hmod.
  assert (br_block_index r mod s = Z.of_nat v) as Hv by (unfold v; lia).
  assert (v < length prefixes)%nat as Hlt by (unfold v, s in *; lia).
  destruct (lookup_lt_is_Some_2 _ _ Hlt) as [prefix Hp].
  set (volume := prefix ++ framed_bytes (share s log v)).
  assert (volume_image s prefixes log !! v = Some volume) as Hlook
    by (by rewrite volume_image_lookup, Hp).
  pose proof (volume_image_snoc s prefixes log r v prefix Hv Hp) as Hsnoc. fold volume in Hsnoc.
  assert (Z.of_nat (length (share s log v)) <= blen volume) as Hcnt.
  { unfold volume. rewrite blen_app. pose proof (framed_bytes_count (share s log v)).
    pose proof (blen_nonneg prefix). lia. }
  assert (20 <= blen (BlockRecord_to_bytes r)) as H20
    by (rewrite to_bytes_blen; pose proof (blen_nonneg (br_payload r)); lia).
  unfold emit_block_record, emit_bytes. fold s. rewrite (proj2 (Z.eqb_neq s 0)) by lia.
  cbn [write_volume MemoryArchiveSink_sink]. unfold MemoryArchiveSink_write_volume.
  rewrite Hvol. fold v. rewrite Hlook, bind_ret.
  rewrite (add_at_eq (es_bytes_written st) _ _ _ (blen volume)) by (fold v; by rewrite Hbytes, list_lookup_fmap, Hlook).
  assert (es_record_counts st !! v = Some (Z.of_nat (length (share s log v)))) as Hcv
    by (by rewrite Hcounts, list_lookup_imap, Hp).
  rewrite (add_at_eq (es_record_counts st) _ 1 _ (Z.of_nat (length (share s log v)))) by (by fold v).
  fold v. rewrite <- blen_app.
  assert (map blen (volume_image s prefixes (log ++ [r]))
          = <[v := blen (volume ++ BlockRecord_to_bytes r)]> (es_bytes_written st)) as Hnb
    by (rewrite Hsnoc, Hbytes; apply list_fmap_insert).
  assert (Forall (fun volume => blen volume < 2 ^ 64) (volume_image s prefixes (log ++ [r])) ->
          blen (volume ++ BlockRecord_to_bytes r) < 2 ^ 64) as Hfits.
  { intros Hall. rewrite Hsnoc in Hall.
    apply (Forall_lookup_1 _ _ v _ Hall), list_lookup_insert_eq. by eapply lookup_lt_Some. }
  destruct (Z.ltb_spec (blen (volume ++ BlockRecord_to_bytes r)) (2 ^ 64)) as [Hlt64|Hge].
  2: { split; [done|]. intros Hall. specialize (Hfits Hall). lia. }
  rewrite bind_ret. replace (_ <? 2 ^ 64) with true by (rewrite blen_app in Hlt64; lia).
  rewrite !bind_ret. cbn [es_sink es_bytes_written es_record_counts es_data_leaf_hashes es_next_block_index].
  rewrite Hleaves. rewrite <- Hnb.
  rewrite Hcounts, <- (counts_snoc s prefixes log r v Hv Hlt), <- Hsnoc.
  destruct collect as [params|]; cbn [fmap option_fmap option_map].
  - unfold data_block_merkle_leaf_hash_for_revision. rewrite (Hrev params eq_refl).
    pose proof (leaf_hashes_snoc params log r) as Hl.
    destruct (BlockKind_is_data (br_kind r)).
    + cbn [lift mbind result_bind mret result_ret]. split; [|by eexists].
      intros st' [= <-]. split; [|done]. constructor; cbn; try done. by rewrite Hl.
    + split; [|by eexists]. intros st' [= <-]. split; [|done]. constructor; cbn; try done.
      by rewrite Hl, app_nil_r.
  - split; [|by eexists]. intros st' [= <-]. split; [|done]. by constructor.
Qed.

Lemma volume_image_mono s prefixes log recs volume v :
  volume_image s prefixes log !! v = Some volume ->
  exists volume', volume_image s prefixes (log ++ recs) !! v = Some volume'
    /\ blen volume <= blen volume'.
Proof.
  rewrite !volume_image_lookup. intros H. apply fmap_Some in H as (p & -> & ->).
  eexists. split; [done|]. rewrite share_app, framed_bytes_app, !blen_app.
  pose proof (blen_nonneg (framed_bytes (share s recs v))). lia.
Qed.

Lemma volume_image_fits_mono s prefixes log recs n :
  Forall (fun volume => blen volume < n) (volume_image s prefixes (log ++ recs)) ->
  Forall (fun volume => blen volume < n) (volume_image s prefixes log).
Proof.
  intros H. apply Forall_lookup_2. intros v volume Hv.
  destruct (volume_image_mono s prefixes log recs _ _ Hv) as (volume' & Hv' & Hle).
  pose proof (Forall_lookup_1 _ _ _ _ H Hv') as Hlt. cbn in Hlt. lia.
Qed.

Section Invariant.
Context (o : WriterOptions) (rev : Z) (prefixes : list bytes)
  (collect : option RootAuthRevisionParams).
Hypotheses (Hs : wo_stripe_width o = Z.of_nat (length prefixes)) (Hne : prefixes <> [])
  (Hrev : forall params, collect = Some params ->
     root_auth_revision_params FORMAT_VERSION rev = Ok params).

Lemma emit_records_holds recs log st :
  Forall (fun r => 0 <= br_block_index r) recs ->
  holds (wo_stripe_width o) prefixes collect log st ->
  (forall st', emit_records o rev recs st = Ok st' ->
     holds (wo_stripe_width o) prefixes collect (log ++ recs) st'
     /\ es_next_block_index st' = es_next_block_index st)
  /\ (Forall (fun volume => blen volume < 2 ^ 64)
        (volume_image (wo_stripe_width o) prefixes (log ++ recs)) ->
      exists st', emit_records o rev recs st = Ok st').
Proof.
  revert log st. induction recs as [|r recs IH]; intros log st Hidx H.
  { rewrite app_nil_r. split; [by intros st' [= <-]|by eexists]. }
  apply Forall_cons in Hidx as [Hr Hidx].
  destruct (emit_block_record_holds o rev prefixes collect log r st Hs Hne Hr Hrev H) as [Hstep Htotal].
  replace (log ++ r :: recs) with ((log ++ [r]) ++ recs) by by rewrite <- app_assoc.
  cbn [emit_records]. split.
  - intros st' Hst'. apply bind_Ok in Hst' as (st1 & H1 & Hst').
    destruct (Hstep st1 H1) as [Hh1 Hn1]. destruct (IH (log ++ [r]) st1 Hidx Hh1) as [IH1 _].
    destruct (IH1 st' Hst') as [? ?]. split; [done|congruence].
  - intros Hfits. destruct Htotal as [st1 H1]; [by eapply volume_image_fits_mono|].
    rewrite H1, bind_ret. destruct (Hstep st1 H1) as [Hh1 _].
    by apply (IH (log ++ [r]) st1 Hidx Hh1).
Qed.

(** The state holds a numbered log of readable records and the next free index. *)
Definition emitted (log : list BlockRecord) (st : EmitState MemoryArchiveSink) : Prop :=
  holds (wo_stripe_width o) prefixes collect log st /\ numbered log
  /\ es_next_block_index st = Z.of_nat (length log)
  /\ Forall (readable (wo_block_size o)) log.

Hypotheses (HT : WriterOptions_typed o) (Hb : 0 < wo_block_size o).

Lemma stripe_pos : 0 < wo_stripe_width o.
Proof. rewrite Hs. destruct prefixes; [done|cbn; lia]. Qed.

Lemma object_numbered payload context log object data parity :
  numbered log -> object_of payload context o (Z.of_nat (length log)) object data parity ->
  numbered (log ++ eo_records object)
  /\ Z.of_nat (length (eo_records object))
     = eo_data_block_count object + eo_parity_block_count object.
Proof.
  intros Hn H. pose proof (object_indices _ _ _ _ _ _ _ H) as Hi.
  assert (Z.of_nat (length (eo_records object))
          = eo_data_block_count object + eo_parity_block_count object) as Hl.
  { rewrite (ob_records _ _ _ _ _ _ _ H), length_app, !length_framed.
    rewrite (ob_data_count _ _ _ _ _ _ _ H), (ob_parity_count _ _ _ _ _ _ _ H). lia. }
  split; [|done]. apply numbered_app; [done|]. by rewrite Hi, Hl.
Qed.

Lemma emit_encrypted_object_emitted payload context extent kind log st :
  writable o payload context -> emitted log st ->
  (forall object st', emit_encrypted_object payload context o extent kind rev st = Ok (object, st') ->
     emitted (log ++ eo_records object) st'
     /\ encrypt_object payload context (Z.of_nat (length log)) o
        = Ok (object, Z.of_nat (length (log ++ eo_records object)))
     /\ extent = extent_of_object object)
  /\ (forall object next,
        encrypt_object payload context (Z.of_nat (length log)) o = Ok (object, next) ->
        Forall (fun volume => blen volume < 2 ^ 64)
          (volume_image (wo_stripe_width o) prefixes (log ++ eo_records object)) ->
        exists st', emit_encrypted_object payload context o (extent_of_object object) kind rev st
                    = Ok (object, st')).
Proof.
  intros (Hfit & Hseed & Hdom & Hkind) (Hh & Hn & Hnext & Hread).
  assert (forall object next, encrypt_object payload context (Z.of_nat (length log)) o = Ok (object, next) ->
    numbered (log ++ eo_records object) /\ next = Z.of_nat (length (log ++ eo_records object))
    /\ Forall (fun r => 0 <= br_block_index r) (eo_records object)
    /\ Forall (readable (wo_block_size o)) (log ++ eo_records object)) as Henc.
  { intros object next He. pose proof stripe_pos as Hsp.
    destruct (encrypt_object_spec payload context o (Z.of_nat (length log)) object next HT Hb ltac:(lia) Hfit ltac:(lia) Hseed Hdom He)
      as (data & parity & H & ->).
    destruct (object_numbered _ _ _ _ _ _ Hn H) as [Hnum Hl]. split; [done|].
    rewrite length_app, Nat2Z.inj_add, Hl. split; [lia|].
    split; [|apply Forall_app_2; [done|by eapply object_readable; [..|exact H]; [|lia|]]].
    apply Forall_forall. intros r Hr. apply (list_elem_of_fmap_2 br_block_index) in Hr.
    change (br_block_index <$> eo_records object) with (map br_block_index (eo_records object)) in Hr.
    rewrite (object_indices _ _ _ _ _ _ _ H) in Hr. apply elem_of_seqZ in Hr. lia. }
  split.
  - intros object st' He. unfold emit_encrypted_object in He. rewrite Hnext in He.
    destruct (encrypt_object payload context (Z.of_nat (length log)) o) as [[object0 next]|e|] eqn:Ho;
      cbn [map_err lift mbind result_bind] in He; [|done|done].
    destruct (Henc _ _ eq_refl) as (Hnum & -> & Hidx & Hrd).
    apply bind_Ok in He as (u & Hval & He). apply bind_Ok in He as (st1 & Hrec & He).
    injection He as <- <-.
    set (st0 := {| es_sink := es_sink st |}) in Hrec.
    assert (holds (wo_stripe_width o) prefixes collect log st0) as Hh0 by (destruct Hh; by constructor).
    destruct (emit_records_holds _ _ _ Hidx Hh0) as [Hkeep _].
    destruct (Hkeep _ Hrec) as [Hh' Hnx]. split; [done|]. split; [done|].
    destruct extent as [f d p sz], object0 as [f' d' p' sz' rs]. unfold validate_planned_extent,
      validate_planned_object, extent_of_object in *. cbn in *. clear - Hval.
    destruct (negb (d' =? d) || negb (p' =? p) || negb (sz' =? sz)) eqn:E; [done|].
    cbn in Hval. destruct (negb (f' =? f)) eqn:E'; [done|]. f_equal; lia.
  - intros object next Ho Hfits. unfold emit_encrypted_object. rewrite Hnext, Ho.
    destruct (Henc _ _ Ho) as (Hnum & -> & Hidx & Hrd). cbn [map_err lift mbind result_bind].
    assert (validate_planned_extent object (extent_of_object object) = Ok tt) as ->.
    { unfold validate_planned_extent, validate_planned_object, extent_of_object. cbn.
      by rewrite !Z.eqb_refl. }
    cbn [lift mbind result_bind].
    set (st0 := {| es_sink := es_sink st |}).
    assert (holds (wo_stripe_width o) prefixes collect log st0) as Hh0 by (destruct Hh; by constructor).
    destruct (emit_records_holds _ _ _ Hidx Hh0) as [_ Htotal].
    destruct (Htotal Hfits) as [st' Hst']. change (mbind ?f ?m) with (result_bind _ _ f m).
    exists st'. by rewrite Hst'.
Qed.
End Invariant.

(** ** Damage *)

(** What a reader is left with of the written [volumes]: the volumes of [V]
    are gone; the blocks of [E] are overwritten with bytes whose frame does not
    check; everything else is as written.  The reader knows where the records
    of a volume start and how many there are from its header and trailer. *)
Definition damaged (s bs : Z) (prefixes : list bytes) (counts : list Z) (volumes : list bytes)
    (source : SeekableBlockSource bytes) (V E : list Z) : Prop :=
  ss_stripe_width source = s
  /\ forall v prefix count volume,
       prefixes !! v = Some prefix -> counts !! v = Some count -> volumes !! v = Some volume ->
       match volume_at source (Z.of_nat v) with
       | None => Z.of_nat v ∈ V
       | Some sv =>
           sv_block_records_start sv = blen prefix /\ sv_block_count sv = count
           /\ sv_record_len sv = bs + BLOCK_RECORD_FRAMING_LEN /\ sv_block_size sv = bs
           /\ blen (sv_reader sv) = blen volume
           /\ forall slot, 0 <= slot < count ->
                let off := blen prefix + slot * (bs + BLOCK_RECORD_FRAMING_LEN) in
                let frame b := seg b off (off + (bs + BLOCK_RECORD_FRAMING_LEN)) in
                frame (sv_reader sv) = frame volume
                \/ (slot * s + Z.of_nat v) ∈ E
                   /\ exists e, BlockRecord_parse (frame (sv_reader sv)) bs = Err e
                                /\ block_record_error_is_recoverable_erasure e = true
       end.

Lemma Vec_read_exact_at_eq b off n :
  0 <= off -> 0 <= n -> off + n <= blen b -> blen b < 2 ^ 63 ->
  Vec_read_exact_at b off n = Ok (seg b off (off + n)).
Proof.
  intros H0 Hn Hl Hb. unfold Vec_read_exact_at, to_usize, checked_add_usize.
  rewrite (ok_or_eq (try_from 64 off) off) by (apply try_from_Some; unfold fits; split; [done|lia]).
  rewrite bind_ret.
  rewrite (ok_or_eq (checked_add 64 off n) (off + n)) by (apply checked_add_Some; split; [lia|done]).
  rewrite bind_ret. apply ok_or_Ok, get_range_Some. split_and!; [lia|lia|lia|done].
Qed.

(** One slot of a source. *)
Lemma read_slot_eq (sv : SeekableVolumeSource bytes) bs start slot i :
  0 <= start -> 0 <= slot -> 0 <= bs ->
  sv_block_records_start sv = start -> sv_record_len sv = bs + 20 -> sv_block_size sv = bs ->
  start + slot * (bs + 20) + (bs + 20) <= blen (sv_reader sv) -> blen (sv_reader sv) < 2 ^ 63 ->
  let off := start + slot * (bs + 20) in
  SeekableVolumeSource_read_slot sv slot i
  = (record ← BlockRecord_parse (seg (sv_reader sv) off (off + (bs + 20))) bs;
     reject_if (negb (br_block_index record =? i))
       (InvalidArchive "BlockRecord index does not match volume position");;
     mret record).
Proof.
  intros H0 Hk Hbs Hst Hlen Hsz Hin Hmem off.
  unfold SeekableVolumeSource_read_slot, SeekableVolumeSource_record_offset,
    ObjectReader.checked_u64_mul. rewrite Hst, Hlen, Hsz.
  rewrite (ok_or_eq (checked_mul 64 slot (bs + 20)) (slot * (bs + 20)))
    by (unfold checked_mul; by replace (_ <? 2 ^ 64) with true by nia).
  rewrite bind_ret. rewrite (ok_or_eq (checked_add 64 start _) off)
    by (apply checked_add_Some; unfold off; split; [lia|done]).
  rewrite bind_ret, (ok_or_eq (try_from 64 (bs + 20)) (bs + 20))
    by (apply try_from_Some; unfold fits; split; [done|nia]).
  rewrite bind_ret. unfold read_at_vec_unchecked. cbn [read_exact_at Vec_ArchiveReadAt].
  by rewrite Vec_read_exact_at_eq by (unfold off; nia).
Qed.

Section Damage.
Context (s bs : Z) (prefixes : list bytes) (log : list BlockRecord)
  (source : SeekableBlockSource bytes) (V E : list Z).
Hypotheses (Hs : s = Z.of_nat (length prefixes)) (Hpos : 0 < s) (Hs32 : u32 s) (Hbs : 0 <= bs)
  (Hnum : numbered log) (Hread : Forall (readable bs) log)
  (Hmem : Forall (fun volume => blen volume < 2 ^ 63) (volume_image s prefixes log))
  (Hdam : damaged s bs prefixes (imap (fun v _ => Z.of_nat (length (share s log v))) prefixes)
            (volume_image s prefixes log) source V E).

Lemma share_readable v : Forall (fun r => blen (br_payload r) = bs) (share s log v).
Proof.
  apply Forall_forall. intros r [Hr _]%list_filter_elem. rewrite Forall_forall in Hread.
  by destruct (Hread r Hr) as (_ & ? & _).
Qed.

(** A record of the log is read back unless it was lost. *)
Lemma damaged_reads r :
  r ∈ log ->
  received source r /\ (lost s V E (br_block_index r) = false -> arrived source r = true).
Proof.
  intros [i Hi]%list_elem_of_lookup. pose proof (numbered_lookup _ _ _ Hnum Hi) as Hidx.
  pose proof (share_lookup s log i r Hpos Hnum Hi) as Hshare.
  pose proof (Z.mod_pos_bound (Z.of_nat i) s Hpos) as Hmod.
  pose proof (Z.div_mod (Z.of_nat i) s ltac:(lia)) as Hdm.
  assert (0 <= Z.of_nat i / s) as Hq by (apply Z.div_pos; lia).
  set (v := Z.to_nat (Z.of_nat i mod s)) in *. set (slot := Z.of_nat i / s) in *.
  assert (Z.of_nat i mod s = Z.of_nat v) as Hv by (unfold v; lia).
  assert (v < length prefixes)%nat as Hlt by lia.
  destruct (lookup_lt_is_Some_2 _ _ Hlt) as [prefix Hp].
  assert (Z.to_nat slot < length (share s log v))%nat as Hsl by by eapply lookup_lt_Some.
  destruct Hdam as [Hw Hsrc].
  specialize (Hsrc v prefix (Z.of_nat (length (share s log v))) (prefix ++ framed_bytes (share s log v)) Hp).
  rewrite list_lookup_imap, volume_image_lookup, Hp in Hsrc. specialize (Hsrc eq_refl eq_refl).
  pose proof (Forall_lookup_1 _ _ _ _ Hmem (eq_trans (volume_image_lookup s prefixes log v)
    (f_equal (fmap _) Hp))) as Hm. cbn in Hm.
  unfold received, arrived. cbn [block SeekableBlockSource_BlockProvider].
  unfold SeekableBlockSource_block. rewrite Hw, Hidx.
  rewrite reject_if_false, bind_ret by lia.
  rewrite (ok_or_eq (try_from 32 _) (Z.of_nat v)) by (apply try_from_Some; unfold fits in *; rewrite Hv; lia).
  rewrite bind_ret. destruct (volume_at source (Z.of_nat v)) as [sv|].
  2: { split; [by left|]. unfold lost. rewrite Hv, bool_decide_eq_true_2 by done. done. }
  destruct Hsrc as (Hst & Hct & Hlen & Hsz & Hrl & Hslot). fold slot.
  rewrite Hct. replace (Z.of_nat (length (share s log v)) <=? slot) with false by lia.
  change BLOCK_RECORD_FRAMING_LEN with 20 in *.
  pose proof (framed_bytes_blen bs _ (share_readable v)) as Hfl. rewrite blen_app, Hfl in Hrl, Hm.
  pose proof (blen_nonneg prefix).
  rewrite (read_slot_eq sv bs (blen prefix) slot) by (done || nia).
  specialize (Hslot slot ltac:(lia)). cbv beta zeta in Hslot.
  pose proof (slot_of_record bs prefix (share s log v) (Z.to_nat slot) r Hbs (share_readable v) Hshare) as Hframe.
  cbv zeta in Hframe. rewrite Z2Nat.id in Hframe by lia. rewrite Hframe in Hslot.
  destruct Hslot as [-> |(HE & e & -> & He)].
  - rewrite Forall_forall in Hread. specialize (Hread r (list_elem_of_lookup_2 _ _ _ Hi)).
    destruct (readable_parses bs r Hbs Hread) as (r' & -> & Hsame). rewrite bind_ret.
    destruct Hsame as (Hi' & Hsame). rewrite reject_if_false, bind_ret by lia.
    cbn. split; [|done]. right. by exists r'.
  - cbn [mbind result_bind]. rewrite He. split; [by left|].
    unfold lost. replace (Z.of_nat i) with (slot * s + Z.of_nat v) by (unfold slot; lia).
    rewrite (bool_decide_eq_true_2 (_ ∈ E)) by done. by rewrite orb_true_r.
Qed.
End Damage.

(** ** Reachable states *)
Inductive emit_step (o : WriterOptions) (rev : Z)
    : EmitState MemoryArchiveSink -> EmitState MemoryArchiveSink -> Prop :=
  | emit_object_step payload context extent kind object st st' :
      writable o payload context ->
      emit_encrypted_object payload context o extent kind rev st = Ok (object, st') ->
      emit_step o rev st st'.

Section Reachable.
Context (o : WriterOptions) (rev : Z) (prefixes : list bytes)
  (collect : option RootAuthRevisionParams).
Hypotheses (Hs : wo_stripe_width o = Z.of_nat (length prefixes)) (Hne : prefixes <> [])
  (Hrev : forall params, collect = Some params ->
     root_auth_revision_params FORMAT_VERSION rev = Ok params)
  (HT : WriterOptions_typed o) (Hb : 0 < wo_block_size o).

Lemma reachable_emitted st st' log :
  rtc (emit_step o rev) st st' -> emitted o prefixes collect log st ->
  exists log', emitted o prefixes collect (log ++ log') st'.
Proof.
  intros Hst. revert log. induction Hst as [st|st st1 st' Hstep _ IH]; intros log H.
  - exists []. by rewrite app_nil_r.
  - destruct Hstep as [payload context extent kind object st st1 Hw He].
    destruct (emit_encrypted_object_emitted o rev prefixes collect Hs Hne Hrev HT Hb payload context
                extent kind log st Hw H) as [Hkeep _].
    destruct (Hkeep _ _ He) as (H1 & _). destruct (IH _ H1) as [log' Hlog'].
    exists (eo_records object ++ log'). by rewrite app_assoc.
Qed.
End Reachable.

(** The blocks of [E] that belong to an object. *)
Definition hits (object : EncryptedObject) (E : list Z) : list Z :=
  List.filter (fun i => (eo_first_block_index object <=? i)
    && (i <? eo_first_block_index object + eo_data_block_count object
              + eo_parity_block_count object)) E.

(** ** Theorems *)


End Emission.

(** ** Concrete inputs *)
Definition example_prefixes : list bytes := [[]; []].

Definition example_state : EmitState MemoryArchiveSink := {|
  es_sink := {| ms_volumes := example_prefixes; ms_bootstrap_sidecar := [] |};
  es_bytes_written := [0; 0]; es_record_counts := [0; 0]; es_data_leaf_hashes := None;
  es_next_block_index := 0 |}.

(** The first volume is lost, the second is as written. *)
Definition second_volume (st : EmitState MemoryArchiveSink) : SeekableBlockSource bytes := {|
  ss_stripe_width := 2;
  ss_volumes := [None; Some {|
    sv_reader := default [] (ms_volumes (es_sink st) !! 1%nat); sv_volume_index := 1;
    sv_block_records_start := 0; sv_block_count := default 0 (es_record_counts st !! 1%nat);
    sv_record_len := 4116; sv_block_size := 4096 |}] |}.

Lemma second_volume_damaged st :
  damaged (C := toy_Crc32c) 2 4096 example_prefixes (es_record_counts st) (ms_volumes (es_sink st))
    (second_volume st) [0] [].
Proof.
  split; [done|]. intros [|[|v]] prefix count volume Hp Hc Hv; [by left| |done].
  injection Hp as <-. change (volume_at (second_volume st) (Z.of_nat 1)) with
    (mjoin (ss_volumes (second_volume st) !! 1%nat)). cbn. rewrite Hc, Hv. cbn.
  split_and!; try done. intros slot _. by left.
Qed.

Lemma example_encrypts :
  exists object next data parity,
    encrypt_object (Lib := toy_CryptoLib) (T := example_target) (zeros 5) example_object_context 0
      (planned_volumes 1) = Ok (object, next)
    /\ object_of (Lib := toy_CryptoLib) (T := example_target) (zeros 5) example_object_context
         (planned_volumes 1) 0 object data parity
    /\ eo_data_block_count object = 1 /\ eo_parity_block_count object = 1.
Proof.
  destruct (example_plan_volumes 1 ltac:(by right)) as (Hp & HT & Hb & Hs & _).
  destruct (planned_stripe _ _ HT Hp) as (HT' & _).
  assert (writable (planned_volumes 1) (zeros 5) example_object_context) as Hw
    by (apply example_writable; [done|by vm_compute|done]).
  destruct (example_sealed 1 ltac:(by right)) as [c Hc].
  destruct (encrypt_object_total (Lib := toy_CryptoLib) (T := example_target) (zeros 5)
    example_object_context (planned_volumes 1) 0 _ c HT' ltac:(lia) ltac:(by rewrite Hb) ltac:(lia) Hw
    ltac:(lia) (example_planned_object 1 ltac:(by right)) Hc ltac:(by vm_compute)) as (object & next & H).
  destruct (encrypt_object_spec (Lib := toy_CryptoLib) (T := example_target) (zeros 5)
    example_object_context (planned_volumes 1) 0 object next HT' ltac:(lia) ltac:(lia)
    (proj1 Hw) ltac:(lia) (proj1 (proj2 Hw)) (proj1 (proj2 (proj2 Hw))) H)
    as (data & parity & Hobj & _).
  exists object, next, data, parity. split; [done|]. split; [done|].
  assert (eo_data_block_count object = 1) as Hd
    by (rewrite (ob_planned _ _ _ _ _ _ _ Hobj); vm_compute; reflexivity).
  split; [done|]. pose proof (ob_parity _ _ _ _ _ _ _ Hobj) as Hpar. rewrite Hd in Hpar.
  assert (compute_parity 1 (planned_volumes 1) = Ok 1) as E by (vm_compute; reflexivity).
  rewrite E in Hpar. by injection Hpar as <-.
Qed.

Lemma example_emits :
  exists object st,
    emit_encrypted_object (C := toy_Crc32c) (Sha := toy_Sha256) (Lib := toy_CryptoLib)
      (T := example_target) (zeros 5) example_object_context (planned_volumes 1)
      (extent_of_object object) None 45 example_state = Ok (object, st)
    /\ eo_data_block_count object = 1 /\ eo_parity_block_count object = 1
    /\ Forall (fun volume => blen volume < 2 ^ 63) (ms_volumes (es_sink st)).
Proof.
  destruct (example_plan_volumes 1 ltac:(by right)) as (Hp & HT & Hb & Hs & _).
  destruct (planned_stripe _ _ HT Hp) as (HT' & _).
  assert (writable (planned_volumes 1) (zeros 5) example_object_context) as Hw
    by (apply example_writable; [done|by vm_compute|done]).
  destruct example_encrypts as (object & next & data & parity & H & Hobj & Hd & Hpc).
  assert (emitted (C := toy_Crc32c) (Sha := toy_Sha256) (planned_volumes 1) example_prefixes None []
            example_state) as He.
  { split; [by constructor|]. split; [done|]. split; [done|constructor]. }
  assert (forall n, 2 ^ 20 <= n -> Forall (fun volume => blen volume < n)
            (volume_image (C := toy_Crc32c) (wo_stripe_width (planned_volumes 1)) example_prefixes
               ([] ++ eo_records object))) as Hfits.
  { intros n Hn. apply Forall_lookup_2. intros v volume Hv. rewrite volume_image_lookup in Hv.
    apply fmap_Some in Hv as (prefix & Hprefix & ->).
    assert (prefix = []) as -> by (by destruct v as [|[|v]]; [injection Hprefix as <-..|]).
    cbn [app]. pose proof (object_readable (Lib := toy_CryptoLib) (T := example_target) (zeros 5)
      example_object_context (planned_volumes 1) 0 object data parity
      ltac:(lia) ltac:(lia) eq_refl Hobj) as Hr.
    rewrite (framed_bytes_blen (wo_block_size (planned_volumes 1))).
    - rewrite Hb. assert (length (share (wo_stripe_width (planned_volumes 1)) (eo_records object) v)
        <= length (eo_records object))%nat as Hle by apply List.filter_length_le.
      assert (length (eo_records object) = 2%nat) as Hl.
      { rewrite <- (length_map br_block_index), (object_indices _ _ _ _ _ _ _ Hobj), Hd, Hpc. done. }
      lia.
    - apply Forall_forall. intros r [Hin _]%list_filter_elem. rewrite Forall_forall in Hr.
      by destruct (Hr r Hin) as (_ & ? & _). }
  destruct (emit_encrypted_object_emitted (C := toy_Crc32c) (Sha := toy_Sha256) (Lib := toy_CryptoLib)
    (T := example_target) (planned_volumes 1) 45 example_prefixes None Hs ltac:(done) ltac:(done) HT'
    ltac:(lia) (zeros 5) example_object_context (extent_of_object object) None [] example_state Hw He)
    as [Hkeep Htotal].
  destruct (Htotal object next H (Hfits (2 ^ 64) ltac:(lia))) as [st Hst]. exists object, st.
  split; [exact Hst|]. split; [exact Hd|]. split; [exact Hpc|]. destruct (Hkeep _ _ Hst) as ([Hh _] & _).
  rewrite (holds_volumes _ _ _ _ _ Hh). apply Hfits. lia.
Qed.


