(* ===== verification/CmraWriter.v ===== *)
(** * The terminal of a volume, as it is written

    From [crates/tzap-core/src/writer/envelope.rs]: the manifest footer, the
    volume trailer and the recovery area, which holds an erasure-coded copy of
    all critical structures of the volume. *)

From S2P Require Import Wire Fec MetadataImage Recovery Footers RootAuthFooter Crypto WriterPlan.
From S2P Require Import RootAuth BlockRecord ObjectWriter.
#[local] Open Scope Z_scope.

Definition CMRA_SHARD_SIZE : Z := 512.

Section Footers.
Context {Sha : Sha256} {Lib : CryptoLib}.

Definition build_manifest_footer (subkeys : Subkeys) (aead_algo : AeadAlgo.t)
    (volume_format_rev : Z) (archive_uuid session_id : bytes) (volume_index total_volumes : Z)
    (index_root_extent : ObjectExtent) (index_root_decompressed_size : Z) : fresult bytes :=
  index_root_decompressed_size ← u32_len index_root_decompressed_size "IndexRoot";
  let footer manifest_hmac := {|
    mf_archive_uuid := archive_uuid; mf_session_id := session_id;
    mf_volume_index := volume_index; mf_is_authoritative := 1;
    mf_total_volumes := total_volumes;
    mf_index_root_first_block := oe_first_block_index index_root_extent;
    mf_index_root_data_block_count := oe_data_block_count index_root_extent;
    mf_index_root_parity_block_count := oe_parity_block_count index_root_extent;
    mf_index_root_encrypted_size := oe_encrypted_size index_root_extent;
    mf_index_root_decompressed_size := index_root_decompressed_size;
    mf_manifest_hmac := manifest_hmac |} in
  covered ← slice (ManifestFooter_to_bytes (footer (zeros 32))) 0 104;
  manifest_hmac ← compute_integrity_tag HmacDomain.ManifestFooter aead_algo volume_format_rev
    (Some (mac_key subkeys)) archive_uuid session_id covered;
  mret (ManifestFooter_to_bytes (footer manifest_hmac)).

Record VolumeTrailerBuildInput : Type := {
  ti_subkeys : Subkeys;
  ti_aead_algo : AeadAlgo.t;
  ti_volume_format_rev : Z;
  ti_archive_uuid : bytes;
  ti_session_id : bytes;
  ti_volume_index : Z;
  ti_block_count : Z;
  ti_bytes_written : Z;
  ti_manifest_footer_offset : Z;
  ti_closed_at_ns : Z;
  ti_root_auth_footer : option (Z * Z)
}.

Definition build_volume_trailer (input : VolumeTrailerBuildInput) : fresult bytes :=
  let '(root_auth_footer_offset, root_auth_footer_length, root_auth_flags) :=
    match ti_root_auth_footer input with
    | Some (offset, length) => (offset, length, 0x00000001)
    | None => (0, 0, 0)
    end in
  let trailer trailer_hmac := {|
    vt_archive_uuid := ti_archive_uuid input; vt_session_id := ti_session_id input;
    vt_volume_index := ti_volume_index input; vt_block_count := ti_block_count input;
    vt_bytes_written := ti_bytes_written input;
    vt_manifest_footer_offset := ti_manifest_footer_offset input;
    vt_manifest_footer_length := MANIFEST_FOOTER_LEN mod 2 ^ 32;
    vt_closed_at_ns := ti_closed_at_ns input;
    vt_root_auth_footer_offset := root_auth_footer_offset;
    vt_root_auth_footer_length := root_auth_footer_length;
    vt_root_auth_flags := root_auth_flags;
    vt_trailer_hmac := trailer_hmac |} in
  covered ← slice (VolumeTrailer_to_bytes (trailer (zeros 32))) 0 96;
  trailer_hmac ← compute_integrity_tag HmacDomain.VolumeTrailer (ti_aead_algo input)
    (ti_volume_format_rev input) (Some (mac_key (ti_subkeys input))) (ti_archive_uuid input)
    (ti_session_id input) covered;
  mret (VolumeTrailer_to_bytes (trailer trailer_hmac)).
End Footers.

(** ** The recovery area *)
Record BuiltCmra : Type := {
  bc_bytes : bytes;
  bc_shard_size : Z;
  bc_data_shard_count : Z;
  bc_parity_shard_count : Z;
  bc_image_length : Z;
  bc_image_sha256 : bytes
}.

Record CmraBuildInput : Type := {
  ci_volume_format_rev : Z;
  ci_volume_header_bytes : bytes;
  ci_crypto_header : bytes;
  ci_block_count : Z;
  ci_block_records_offset : Z;
  ci_manifest_footer_offset : Z;
  ci_manifest_footer : bytes;
  ci_root_auth_footer_offset : option Z;
  ci_root_auth_footer : option bytes;
  ci_key_wrap_table : option bytes;
  ci_trailer_offset : Z;
  ci_trailer : bytes;
  ci_cmra_offset : Z;
  ci_options : WriterOptions;
  ci_archive_uuid : bytes;
  ci_session_id : bytes;
  ci_volume_index : Z
}.

Definition ci_crypto_end (input : CmraBuildInput) : Z :=
  VOLUME_HEADER_LEN + blen (ci_crypto_header input).

(** The checks that the pieces lie in a row, and the three lengths they find:
    of the key-wrap table, of the block records, of the root-auth footer. *)
Definition check_key_wrap_table (input : CmraBuildInput) : fresult (option (bytes * Z)) :=
  key_wrap_table ← transpose (fun table =>
    reject_if (blen table =? 0)
      (WriterInvariant "KeyWrapTableV1 must include at least one recipient record");;
    length ← u32_len (blen table) "KeyWrapTableV1 table_length";
    mret (table, length)) (ci_key_wrap_table input);
  reject_if (negb (ci_volume_format_rev input =? VOLUME_FORMAT_REV_45)
             && bool_decide (is_Some key_wrap_table))
    (WriterInvariant "KeyWrapTableV1 requires volume_format_rev 45");;
  expected_block_records_offset ←
    match key_wrap_table with
    | Some (_, length) => checked_u64_add (ci_crypto_end input) length "KeyWrapTableV1"
    | None => Ok (ci_crypto_end input)
    end;
  reject_if (negb (ci_block_records_offset input =? expected_block_records_offset))
    (WriterInvariant "CMRA block records offset does not match key-wrap table layout");;
  mret key_wrap_table.

Definition check_terminal_layout (input : CmraBuildInput) : fresult (option Z) :=
  manifest_end ← ok_or (checked_add 64 (ci_manifest_footer_offset input) MANIFEST_FOOTER_LEN)
    (WriterUnsupported "CMRA terminal overflow");
  root_auth_footer_length ← transpose (fun footer => u32_len (blen footer) "RootAuthFooterV1")
    (ci_root_auth_footer input);
  match ci_root_auth_footer_offset input, root_auth_footer_length with
  | Some offset, Some length =>
      (if negb (manifest_end =? offset)
       then Err (WriterInvariant "RootAuthFooter does not sit between ManifestFooter and VolumeTrailer")
       else
         footer_end ← ok_or (checked_add 64 offset length) (WriterUnsupported "CMRA terminal overflow");
         reject_if (negb (footer_end =? ci_trailer_offset input))
           (WriterInvariant "RootAuthFooter does not sit between ManifestFooter and VolumeTrailer"))
  | None, None =>
      reject_if (negb (manifest_end =? ci_trailer_offset input))
        (WriterInvariant "ManifestFooter does not end at VolumeTrailer")
  | _, _ => Err (WriterInvariant "RootAuthFooter offset/bytes mismatch")
  end;;
  mret root_auth_footer_length.

Definition region (region_type offset : Z) (b : bytes) : SerializedRegion :=
  {| sr_region_type := region_type; sr_offset := offset; sr_bytes := b |}.

Definition cmra_regions (input : CmraBuildInput) (key_wrap_table : option (bytes * Z))
    : list SerializedRegion :=
  [region 1 0 (ci_volume_header_bytes input);
   region 2 VOLUME_HEADER_LEN (ci_crypto_header input)]
  ++ match key_wrap_table with
     | Some (table, _) => [region 6 (ci_crypto_end input) table]
     | None => []
     end
  ++ [region 3 (ci_manifest_footer_offset input) (ci_manifest_footer input)]
  ++ match ci_root_auth_footer_offset input, ci_root_auth_footer input with
     | Some offset, Some footer => [region 4 offset footer]
     | _, _ => []
     end
  ++ [region 5 (ci_trailer_offset input) (ci_trailer input)].

Section Cmra.
Context {C : Crc32c} {Sha : Sha256} {T : Target}.

Definition cmra_image (input : CmraBuildInput) (key_wrap_table : option (bytes * Z))
    (block_records_length crypto_header_length : Z) (root_auth_footer_length : option Z)
    (body_bytes_before_cmra : Z) : CriticalMetadataImage := {|
  mi_volume_format_rev := ci_volume_format_rev input;
  mi_archive_uuid := ci_archive_uuid input;
  mi_session_id := ci_session_id input;
  mi_volume_index := ci_volume_index input;
  mi_stripe_width := wo_stripe_width (ci_options input);
  mi_layout_flags :=
    Z.lor (match ci_root_auth_footer input with Some _ => 0x00000001 | None => 0 end)
          (match key_wrap_table with Some _ => 0x00000002 | None => 0 end);
  mi_volume_header_offset := 0;
  mi_volume_header_length := VOLUME_HEADER_LEN;
  mi_crypto_header_offset := VOLUME_HEADER_LEN;
  mi_crypto_header_length := crypto_header_length;
  mi_key_wrap_table_offset :=
    match key_wrap_table with Some _ => ci_crypto_end input | None => 0 end;
  mi_key_wrap_table_length :=
    match key_wrap_table with Some (_, length) => length | None => 0 end;
  mi_block_records_offset := ci_block_records_offset input;
  mi_block_records_length := block_records_length;
  mi_block_count := ci_block_count input;
  mi_manifest_footer_offset := ci_manifest_footer_offset input;
  mi_manifest_footer_length := MANIFEST_FOOTER_LEN;
  mi_root_auth_footer_offset := default 0 (ci_root_auth_footer_offset input);
  mi_root_auth_footer_length := default 0 root_auth_footer_length;
  mi_volume_trailer_offset := ci_trailer_offset input;
  mi_volume_trailer_length := VOLUME_TRAILER_LEN;
  mi_body_bytes_before_cmra := body_bytes_before_cmra;
  mi_volume_header_sha256 := sha256 (ci_volume_header_bytes input);
  mi_crypto_header_sha256 := sha256 (ci_crypto_header input);
  mi_key_wrap_table_sha256 :=
    match key_wrap_table with Some (table, _) => sha256 table | None => zeros 32 end;
  mi_manifest_footer_sha256 := sha256 (ci_manifest_footer input);
  mi_root_auth_footer_sha256 :=
    match ci_root_auth_footer input with Some footer => sha256 footer | None => zeros 32 end;
  mi_volume_trailer_sha256 := sha256 (ci_trailer input);
  mi_regions := cmra_regions input key_wrap_table |}.

(** Everything of [build_v45_cmra] up to the image. *)
Definition build_cmra_image (input : CmraBuildInput) : fresult CriticalMetadataImage :=
  let block_record_len := wo_block_size (ci_options input) + BLOCK_RECORD_FRAMING_LEN in
  key_wrap_table ← check_key_wrap_table input;
  block_records_length ← checked_u64_mul (ci_block_count input) block_record_len
    "CMRA BlockRecord length overflow";
  root_auth_footer_length ← check_terminal_layout input;
  body_bytes_before_cmra ← ok_or (checked_add 64 (ci_trailer_offset input) VOLUME_TRAILER_LEN)
    (WriterUnsupported "CMRA terminal overflow");
  reject_if (negb (body_bytes_before_cmra =? ci_cmra_offset input))
    (WriterInvariant "CMRA does not start after VolumeTrailer");;
  crypto_header_length ← u32_len (blen (ci_crypto_header input)) "CryptoHeader";
  mret (cmra_image input key_wrap_table block_records_length crypto_header_length
          root_auth_footer_length body_bytes_before_cmra).

(** Data shard [idx] of the image: its piece, filled up with zeros. *)
Definition cmra_data_shard (image_bytes : bytes) (idx : nat) : bytes :=
  let start := Z.of_nat idx * CMRA_SHARD_SIZE in
  let end_ := Z.min (start + CMRA_SHARD_SIZE) (blen image_bytes) in
  if start <? blen image_bytes
  then put (zeros CMRA_SHARD_SIZE) 0 (seg image_bytes start end_)
  else zeros CMRA_SHARD_SIZE.

Definition cmra_payload_len (image_length data_shard_count : Z) (idx : nat) : Z :=
  if Z.of_nat idx + 1 =? data_shard_count
  then
    let final_len := image_length - Z.of_nat idx * CMRA_SHARD_SIZE in
    if final_len =? 0 then CMRA_SHARD_SIZE else final_len
  else CMRA_SHARD_SIZE.

(** The two loops that append the shards. *)
Fixpoint append_cmra_shards (role : Z) (payload_len : nat -> Z) (base : Z) (idx : nat)
    (payloads : list bytes) (cmra : bytes) : fresult bytes :=
  match payloads with
  | [] => Ok cmra
  | payload :: payloads =>
      shard_index ← ok_or (checked_add 64 base (Z.of_nat idx))
        (WriterUnsupported "CMRA shard index overflow");
      shard_index ← ok_or (try_from 16 shard_index) (WriterUnsupported "CMRA shard index");
      shard_payload_length ← u32_len (payload_len idx) "CMRA shard payload";
      shard ← CriticalMetadataRecoveryShard_to_bytes
        {| rs_shard_index := shard_index; rs_shard_role := role;
           rs_shard_payload_length := shard_payload_length; rs_payload := payload;
           rs_shard_crc32c := 0 |} CMRA_SHARD_SIZE;
      append_cmra_shards role payload_len base (S idx) payloads (cmra ++ shard)
  end.

Definition build_v45_cmra (input : CmraBuildInput) : fresult BuiltCmra :=
  image ← build_cmra_image input;
  image_bytes ← CriticalMetadataImage_to_bytes image;
  let image_sha256 := sha256 image_bytes in
  data_shard_count ← ceil_div (blen image_bytes) CMRA_SHARD_SIZE;
  data_shard_count ← ok_or (try_from 16 data_shard_count)
    (WriterUnsupported "CMRA data shard count");
  parity_lower ← cmra_min_parity_shards data_shard_count
    (wo_bit_rot_buffer_pct (ci_options input));
  parity_upper ← cmra_min_parity_shards data_shard_count READER_MAX_CMRA_PARITY_PCT;
  reject_if (parity_upper <? parity_lower) (WriterUnsupported "CMRA parity bounds");;
  parity_shard_count ← ok_or (try_from 16 parity_lower)
    (WriterUnsupported "CMRA parity shard count");
  let data_shards := map (cmra_data_shard image_bytes) (seq 0 (Z.to_nat data_shard_count)) in
  parity_shards ← encode_parity_gf16 data_shards (Z.to_nat parity_shard_count);
  image_length ← u32_len (blen image_bytes) "CriticalMetadataImageV1";
  let header := CriticalMetadataRecoveryHeader_to_bytes {|
    rh_shard_size := CMRA_SHARD_SIZE;
    rh_data_shard_count := data_shard_count;
    rh_parity_shard_count := parity_shard_count;
    rh_image_length := image_length;
    rh_archive_uuid_hint := ci_archive_uuid input;
    rh_session_id_hint := ci_session_id input;
    rh_volume_index_hint := ci_volume_index input;
    rh_image_sha256 := image_sha256;
    rh_header_crc32c := 0 |} in
  cmra ← append_cmra_shards 0 (cmra_payload_len (blen image_bytes) data_shard_count) 0 0
    data_shards header;
  cmra ← append_cmra_shards 1 (fun _ => CMRA_SHARD_SIZE) data_shard_count 0 parity_shards cmra;
  mret {| bc_bytes := cmra; bc_shard_size := CMRA_SHARD_SIZE;
          bc_data_shard_count := data_shard_count; bc_parity_shard_count := parity_shard_count;
          bc_image_length := image_length; bc_image_sha256 := image_sha256 |}.

(** ** The locators behind the area *)
Definition recovery_locator (volume_format_rev cmra_offset cmra_length trailer_offset : Z)
    (archive_uuid session_id : bytes) (volume_index locator_sequence : Z) (cmra : BuiltCmra)
    : CriticalRecoveryLocator := {|
  rl_volume_format_rev := volume_format_rev;
  rl_cmra_offset := cmra_offset;
  rl_cmra_length := cmra_length;
  rl_volume_trailer_offset := trailer_offset;
  rl_body_bytes_before_cmra := cmra_offset;
  rl_archive_uuid_hint := archive_uuid;
  rl_session_id_hint := session_id;
  rl_volume_index_hint := volume_index;
  rl_locator_sequence := locator_sequence;
  rl_cmra_shard_size := bc_shard_size cmra;
  rl_cmra_data_shard_count := bc_data_shard_count cmra;
  rl_cmra_parity_shard_count := bc_parity_shard_count cmra;
  rl_cmra_image_length := bc_image_length cmra;
  rl_cmra_image_sha256 := bc_image_sha256 cmra;
  rl_locator_crc32c := 0 |}.
End Cmra.
