(* ===== verification/WriterRootAuth.v ===== *)
(** * The root-authentication footer, as it is computed

    From [crates/tzap-core/src/writer/envelope.rs] and [writer/mod.rs]: the
    writer collects the leaf hash of every data block, sorts them by block
    index, and signs the archive root over them, over the layout of all
    encrypted objects and over the critical metadata.  From
    [reader/mod.rs] and [reader/volume.rs]: the reader's recomputation of the
    same digests.  The signer is a closure of the program's caller, so it is a
    function argument here. *)

From S2P Require Import Wire Ordering IndexRoot IndexEntries IndexShard VolumeHeader.
From S2P Require Import Kdf CryptoHeaderFixed Crypto Extensions CryptoHeader Footers RootAuthFooter.
From S2P Require Import RootAuth WriterPlan ObjectReader ObjectWriter Emission CmraWriter.
#[local] Open Scope Z_scope.

(** ** The writer's side *)
Record PayloadObject : Type := {
  pl_envelope_index : Z;
  pl_plaintext_size : Z;
  pl_object : ObjectExtent
}.

Record RootAuthWriterConfig : Type := {
  rc_authenticator_id : Z;
  rc_signer_identity_type : Z;
  rc_signer_identity : bytes;
  rc_authenticator_value_length : Z
}.

Record RootAuthSigningRequest : Type := {
  sq_root_auth_spec_id : bytes;
  sq_archive_uuid : bytes;
  sq_session_id : bytes;
  sq_archive_root : bytes
}.

Definition validate_root_auth_variable_lengths_for_writer
    (signer_identity_len authenticator_value_len : Z) : fresult unit :=
  reject_if (READER_MAX_ROOT_AUTH_SIGNER_IDENTITY_LEN <? signer_identity_len)
    (ReaderResourceLimitExceeded "RootAuthFooterV1 signer identity length"
       READER_MAX_ROOT_AUTH_SIGNER_IDENTITY_LEN signer_identity_len);;
  reject_if (READER_MAX_ROOT_AUTH_AUTHENTICATOR_VALUE_LEN <? authenticator_value_len)
    (ReaderResourceLimitExceeded "RootAuthFooterV1 authenticator value length"
       READER_MAX_ROOT_AUTH_AUTHENTICATOR_VALUE_LEN authenticator_value_len).

Definition root_auth_footer_wire_length (signer_identity_len authenticator_value_len : Z)
    : fresult Z :=
  validate_root_auth_variable_lengths_for_writer signer_identity_len authenticator_value_len;;
  len ← ok_or (match checked_add3 ROOT_AUTH_FOOTER_FIXED_LEN signer_identity_len
                       authenticator_value_len with
               | Some value => checked_add 64 value 4
               | None => None
               end)
    (WriterUnsupported "RootAuthFooterV1 length overflow");
  reject_if (READER_MAX_ROOT_AUTH_FOOTER_LEN <? len)
    (ReaderResourceLimitExceeded "RootAuthFooterV1 length" READER_MAX_ROOT_AUTH_FOOTER_LEN len);;
  ok_or (try_from 32 len) (WriterUnsupported "RootAuthFooterV1 length").

Definition validate_root_auth_writer_config (config : RootAuthWriterConfig) : fresult unit :=
  _ ← root_auth_footer_wire_length (blen (rc_signer_identity config))
    (rc_authenticator_value_length config);
  mret tt.

(** One row of the object layout; the absent dictionary has a row of zeros. *)
Definition extent_row (object_class object_id : Z) (extent : ObjectExtent) (plain_size : Z)
    : FecLayoutObjectRow := {|
  fl_object_class := object_class; fl_present := true; fl_object_id := object_id;
  fl_first_block_index := oe_first_block_index extent;
  fl_data_block_count := oe_data_block_count extent;
  fl_parity_block_count := oe_parity_block_count extent;
  fl_encrypted_size := oe_encrypted_size extent; fl_plain_size := plain_size |}.

Definition absent_dictionary_row : FecLayoutObjectRow := {|
  fl_object_class := 2; fl_present := false; fl_object_id := 0; fl_first_block_index := 0;
  fl_data_block_count := 0; fl_parity_block_count := 0; fl_encrypted_size := 0;
  fl_plain_size := 0 |}.

Definition shard_entry_row (entry : ShardEntry) : FecLayoutObjectRow := {|
  fl_object_class := 3; fl_present := true; fl_object_id := se_shard_index entry;
  fl_first_block_index := se_first_block_index entry;
  fl_data_block_count := se_data_block_count entry;
  fl_parity_block_count := se_parity_block_count entry;
  fl_encrypted_size := se_encrypted_size entry; fl_plain_size := se_decompressed_size entry |}.

Definition directory_hint_row (entry : DirectoryHintShardEntry) : FecLayoutObjectRow := {|
  fl_object_class := 5; fl_present := true; fl_object_id := de_hint_shard_index entry;
  fl_first_block_index := de_first_block_index entry;
  fl_data_block_count := de_data_block_count entry;
  fl_parity_block_count := de_parity_block_count entry;
  fl_encrypted_size := de_encrypted_size entry; fl_plain_size := de_decompressed_size entry |}.

Definition writer_fec_layout_rows_from_extents (index_root_extent : ObjectExtent)
    (index_root_plain_size : Z) (dictionary_extent : option (ObjectExtent * Z))
    (shard_entries : list ShardEntry) (payload_objects : list PayloadObject)
    (directory_hint_entries : list DirectoryHintShardEntry) : list FecLayoutObjectRow :=
  [extent_row 1 0 index_root_extent index_root_plain_size;
   match dictionary_extent with
   | Some (dictionary, decompressed_size) => extent_row 2 0 dictionary decompressed_size
   | None => absent_dictionary_row
   end]
  ++ map shard_entry_row shard_entries
  ++ map (fun payload => extent_row 4 (pl_envelope_index payload) (pl_object payload)
                           (pl_plaintext_size payload)) payload_objects
  ++ map directory_hint_row directory_hint_entries.

(** The covered bytes of a manifest footer with the volume index cleared: what
    the volumes of an archive share. *)
Definition manifest_footer_global_pre_hmac_bytes (manifest_footer : bytes) : fresult bytes :=
  covered ← slice manifest_footer 0 104;
  mret (put covered 36 (zeros 4)).

Record RootAuthFooterBuildInput : Type := {
  rb_archive_uuid : bytes;
  rb_session_id : bytes;
  rb_volume_format_rev : Z;
  rb_options : WriterOptions;
  rb_crypto_header : bytes;
  rb_volume_zero_manifest : bytes;
  rb_index_root_plaintext : bytes;
  rb_index_root_extent : ObjectExtent;
  rb_dictionary_extent : option (ObjectExtent * Z);
  rb_shard_entries : list ShardEntry;
  rb_payload_objects : list PayloadObject;
  rb_directory_hint_entries : list DirectoryHintShardEntry;
  rb_data_leaf_hashes : list (Z * bytes)
}.

(** The sum of the data blocks of the present rows. *)
Fixpoint expected_data_blocks (rows : list FecLayoutObjectRow) (total : Z) : fresult Z :=
  match rows with
  | [] => Ok total
  | row :: rows =>
      total ← (if fl_present row
               then WriterPlan.checked_u64_add total (fl_data_block_count row)
                      "root-auth data block count"
               else Ok total);
      expected_data_blocks rows total
  end.

(** The inputs of the digest over the critical metadata. *)
Definition writer_critical_inputs (input : RootAuthFooterBuildInput) (parsed_crypto : CryptoHeader)
    (manifest_pre_hmac : bytes) (index_root_decompressed_size : Z)
    (root_auth_descriptor_digest : bytes) : CriticalMetadataDigestInputs :=
  let rev := rb_volume_format_rev input in
  let fixed := ch_fixed parsed_crypto in
  let extent := rb_index_root_extent input in
  {|
    cm_archive_uuid := rb_archive_uuid input;
    cm_session_id := rb_session_id input;
    cm_format_version := FORMAT_VERSION;
    cm_volume_format_rev := rev;
    cm_stripe_width := wo_stripe_width (rb_options input);
    cm_total_volumes := wo_stripe_width (rb_options input);
    cm_compression_algo := ch_compression_algo fixed;
    cm_aead_algo := ch_aead_algo fixed;
    cm_fec_algo := ch_fec_algo fixed;
    cm_kdf_algo := ch_kdf_algo fixed;
    cm_crypto_header_pre_hmac_bytes := ch_hmac_covered_bytes parsed_crypto;
    cm_chunk_size := ch_chunk_size fixed;
    cm_envelope_target_size := ch_envelope_target_size fixed;
    cm_block_size := ch_block_size fixed;
    cm_fec_data_shards := ch_fec_data_shards fixed;
    cm_fec_parity_shards := ch_fec_parity_shards fixed;
    cm_index_fec_data_shards := ch_index_fec_data_shards fixed;
    cm_index_fec_parity_shards := ch_index_fec_parity_shards fixed;
    cm_index_root_fec_data_shards := ch_index_root_fec_data_shards fixed;
    cm_index_root_fec_parity_shards := ch_index_root_fec_parity_shards fixed;
    cm_volume_loss_tolerance := ch_volume_loss_tolerance fixed;
    cm_bit_rot_buffer_pct := ch_bit_rot_buffer_pct fixed;
    cm_has_dictionary := ch_has_dictionary fixed;
    cm_manifest_footer_global_pre_hmac_bytes := manifest_pre_hmac;
    cm_index_root_first_block := oe_first_block_index extent;
    cm_index_root_data_block_count := oe_data_block_count extent;
    cm_index_root_parity_block_count := oe_parity_block_count extent;
    cm_index_root_encrypted_size := oe_encrypted_size extent;
    cm_index_root_decompressed_size := index_root_decompressed_size;
    cm_root_auth_descriptor_digest := root_auth_descriptor_digest |}.

(** The inputs of the archive root. *)
Definition writer_root_inputs (input : RootAuthFooterBuildInput) (fixed : CryptoHeaderFixed)
    (critical_metadata_digest index_digest fec_layout_digest : bytes)
    (total_data_block_count : Z)
    (data_block_merkle_root root_auth_descriptor_digest signer_identity_digest : bytes)
    : ArchiveRootInputs :=
  let rev := rb_volume_format_rev input in
  {|
    ar_archive_uuid := rb_archive_uuid input;
    ar_session_id := rb_session_id input;
    ar_format_version := FORMAT_VERSION;
    ar_volume_format_rev := rev;
    ar_compression_algo := ch_compression_algo fixed;
    ar_aead_algo := ch_aead_algo fixed;
    ar_fec_algo := ch_fec_algo fixed;
    ar_kdf_algo := ch_kdf_algo fixed;
    ar_critical_metadata_digest := critical_metadata_digest;
    ar_index_digest := index_digest;
    ar_fec_layout_digest := fec_layout_digest;
    ar_total_data_block_count := total_data_block_count;
    ar_data_block_merkle_root := data_block_merkle_root;
    ar_root_auth_descriptor_digest := root_auth_descriptor_digest;
    ar_signer_identity_digest := signer_identity_digest |}.

(** The footer itself. *)
Definition writer_footer (config : RootAuthWriterConfig) (input : RootAuthFooterBuildInput)
    (authenticator_value : bytes) (total_data_block_count : Z)
    (critical_metadata_digest index_digest fec_layout_digest data_block_merkle_root
       signer_identity_digest archive_root : bytes) : RootAuthFooterV1 :=
  let rev := rb_volume_format_rev input in
  {|
    ra_archive_uuid := rb_archive_uuid input;
    ra_session_id := rb_session_id input;
    ra_format_version := FORMAT_VERSION;
    ra_volume_format_rev := rev;
    ra_authenticator_id := rc_authenticator_id config;
    ra_signer_identity_type := rc_signer_identity_type config;
    ra_signer_identity_bytes := rc_signer_identity config;
    ra_authenticator_value := authenticator_value;
    ra_total_data_block_count := total_data_block_count;
    ra_critical_metadata_digest := critical_metadata_digest;
    ra_index_digest := index_digest;
    ra_fec_layout_digest := fec_layout_digest;
    ra_data_block_merkle_root := data_block_merkle_root;
    ra_signer_identity_digest := signer_identity_digest;
    ra_archive_root := archive_root;
    ra_footer_crc32c := 0 |}.

Section WriterRootAuth.
Context {C : Crc32c} {Sha : Sha256} {Lib : CryptoLib}.

Definition build_root_auth_footer_from_leaf_hashes (config : RootAuthWriterConfig)
    (authenticator : RootAuthSigningRequest -> fresult bytes) (input : RootAuthFooterBuildInput)
    : fresult bytes :=
  let rev := rb_volume_format_rev input in
  let sorted_leaf_hashes := sort_by_key fst (rb_data_leaf_hashes input) in
  let leaf_hashes := map snd sorted_leaf_hashes in
  let total_data_block_count := Z.of_nat (length leaf_hashes) in
  data_block_merkle_root ← data_block_merkle_root_from_leaf_hashes_for_revision FORMAT_VERSION rev
    leaf_hashes;
  crypto_header_length ← u32_len (blen (rb_crypto_header input)) "CryptoHeader";
  parsed_crypto ← CryptoHeader_parse (rb_crypto_header input) crypto_header_length;
  let fixed := ch_fixed parsed_crypto in
  footer_length ← root_auth_footer_wire_length (blen (rc_signer_identity config))
    (rc_authenticator_value_length config);
  root_auth_descriptor_digest ← root_auth_descriptor_digest_for_revision FORMAT_VERSION rev
    (rc_authenticator_id config) (rc_signer_identity_type config) (rc_signer_identity config)
    (rc_authenticator_value_length config) footer_length;
  signer_identity_digest ← signer_identity_digest (rc_signer_identity_type config)
    (rc_signer_identity config);
  manifest_pre_hmac ← manifest_footer_global_pre_hmac_bytes (rb_volume_zero_manifest input);
  index_root_decompressed_size ← u32_len (blen (rb_index_root_plaintext input)) "IndexRoot";
  let extent := rb_index_root_extent input in
  critical_metadata_digest ← critical_metadata_digest (writer_critical_inputs input parsed_crypto
    manifest_pre_hmac index_root_decompressed_size root_auth_descriptor_digest);
  index_digest ← index_digest_for_revision FORMAT_VERSION rev (rb_index_root_plaintext input);
  let fec_layout_rows := writer_fec_layout_rows_from_extents extent index_root_decompressed_size
    (rb_dictionary_extent input) (rb_shard_entries input) (rb_payload_objects input)
    (rb_directory_hint_entries input) in
  expected_data_block_count ← expected_data_blocks fec_layout_rows 0;
  reject_if (negb (expected_data_block_count =? total_data_block_count))
    (WriterInvariant "root-auth data block count does not match FEC layout");;
  fec_layout_digest ← fec_layout_digest_for_revision FORMAT_VERSION rev fec_layout_rows;
  archive_root ← archive_root_for_revision (writer_root_inputs input fixed critical_metadata_digest
    index_digest fec_layout_digest total_data_block_count data_block_merkle_root
    root_auth_descriptor_digest signer_identity_digest);
  root_auth_spec_id ← root_auth_spec_id_for_revision FORMAT_VERSION rev;
  authenticator_value ← authenticator {|
    sq_root_auth_spec_id := root_auth_spec_id; sq_archive_uuid := rb_archive_uuid input;
    sq_session_id := rb_session_id input; sq_archive_root := archive_root |};
  reject_if (negb (blen authenticator_value =? rc_authenticator_value_length config))
    (WriterUnsupported "root-auth authenticator length mismatch");;
  RootAuthFooterV1_to_bytes (writer_footer config input authenticator_value total_data_block_count
    critical_metadata_digest index_digest fec_layout_digest data_block_merkle_root
    signer_identity_digest archive_root).

(** ** Lemmas *)

(** The layout of the objects as the writer gives it. *)
Definition input_rows (input : RootAuthFooterBuildInput) : list FecLayoutObjectRow :=
  writer_fec_layout_rows_from_extents (rb_index_root_extent input)
    (blen (rb_index_root_plaintext input)) (rb_dictionary_extent input) (rb_shard_entries input)
    (rb_payload_objects input) (rb_directory_hint_entries input).

Definition sorted_hashes (input : RootAuthFooterBuildInput) : list bytes :=
  map snd (sort_by_key fst (rb_data_leaf_hashes input)).

(** The steps of a successful build. *)
Record footer_built (config : RootAuthWriterConfig)
    (authenticator : RootAuthSigningRequest -> fresult bytes) (input : RootAuthFooterBuildInput)
    (b : bytes) (parsed : CryptoHeader) (len : Z)
    (desc signer pre cmd idx fec mer root value : bytes) : Prop := {
  fb_merkle : data_block_merkle_root_from_leaf_hashes_for_revision FORMAT_VERSION
    (rb_volume_format_rev input) (sorted_hashes input) = Ok mer;
  fb_crypto : CryptoHeader_parse (rb_crypto_header input) (blen (rb_crypto_header input)) = Ok parsed;
  fb_length : root_auth_footer_wire_length (blen (rc_signer_identity config))
    (rc_authenticator_value_length config) = Ok len;
  fb_descriptor : root_auth_descriptor_digest_for_revision FORMAT_VERSION
    (rb_volume_format_rev input) (rc_authenticator_id config) (rc_signer_identity_type config)
    (rc_signer_identity config) (rc_authenticator_value_length config) len = Ok desc;
  fb_signer : signer_identity_digest (rc_signer_identity_type config) (rc_signer_identity config)
    = Ok signer;
  fb_manifest : manifest_footer_global_pre_hmac_bytes (rb_volume_zero_manifest input) = Ok pre;
  fb_size : u32 (blen (rb_index_root_plaintext input));
  fb_metadata : critical_metadata_digest (writer_critical_inputs input parsed pre
    (blen (rb_index_root_plaintext input)) desc) = Ok cmd;
  fb_index : index_digest_for_revision FORMAT_VERSION (rb_volume_format_rev input)
    (rb_index_root_plaintext input) = Ok idx;
  fb_count : expected_data_blocks (input_rows input) 0 = Ok (Z.of_nat (length (sorted_hashes input)));
  fb_layout : fec_layout_digest_for_revision FORMAT_VERSION (rb_volume_format_rev input)
    (input_rows input) = Ok fec;
  fb_root : archive_root_for_revision (writer_root_inputs input (ch_fixed parsed) cmd idx fec
    (Z.of_nat (length (sorted_hashes input))) mer desc signer) = Ok root;
  fb_value : authenticator {|
    sq_root_auth_spec_id := ROOT_AUTH_SPEC_ID_V45; sq_archive_uuid := rb_archive_uuid input;
    sq_session_id := rb_session_id input; sq_archive_root := root |} = Ok value;
  fb_value_length : blen value = rc_authenticator_value_length config;
  fb_bytes : RootAuthFooterV1_to_bytes (writer_footer config input value
    (Z.of_nat (length (sorted_hashes input))) cmd idx fec mer signer root) = Ok b
}.

Lemma build_root_auth_footer_inv config authenticator input b :
  build_root_auth_footer_from_leaf_hashes config authenticator input = Ok b ->
  exists parsed len desc signer pre cmd idx fec mer root value,
    footer_built config authenticator input b parsed len desc signer pre cmd idx fec mer root value.
Proof.
  intros H. unfold build_root_auth_footer_from_leaf_hashes in H. bind_inv H.
  repeat match goal with
  | H : u32_len _ _ = Ok _ |- _ => apply u32_len_Ok in H as [-> ?]
  | H : root_auth_spec_id_for_revision _ _ = Ok _ |- _ =>
      apply root_auth_spec_id_for_revision_Ok in H as (_ & _ & ->)
  | H : negb (_ =? _) = false |- _ => apply negb_false_iff, Z.eqb_eq in H
  end.
  match goal with H : _ = Z.of_nat _ |- _ => rewrite H in * end.
  do 11 eexists. constructor; eassumption.
Qed.

(** The two ways to compute the length of a footer agree. *)
Lemma root_auth_footer_wire_length_agrees s a len :
  0 <= s -> 0 <= a -> root_auth_footer_wire_length s a = Ok len ->
  root_auth_footer_length s a = Ok len /\ len = 322 + s + a
  /\ s <= READER_MAX_ROOT_AUTH_SIGNER_IDENTITY_LEN
  /\ a <= READER_MAX_ROOT_AUTH_AUTHENTICATOR_VALUE_LEN.
Proof.
  intros Hs Ha H. unfold root_auth_footer_wire_length in H. apply bind_Ok in H as ([] & Hv & H).
  change (validate_root_auth_variable_lengths s a = Ok tt) in Hv.
  apply validate_root_auth_variable_lengths_Ok in Hv as [? ?].
  rewrite root_auth_footer_length_eq by lia. unfold ROOT_AUTH_FOOTER_FIXED_LEN in H. ok_inv.
  match goal with H : (match _ with _ => _ end) = Some _ |- _ => revert H end.
  destruct (checked_add3 318 s a) as [v|] eqn:Ev; [|done]. intros Hv.
  apply checked_add3_Some in Ev as [? ->]; [|lia]. apply checked_add_Some in Hv as [? ->].
  split_and!; [f_equal; lia|lia|done|done].
Qed.

Lemma signer_identity_digest_blen ty s d : signer_identity_digest ty s = Ok d -> blen d = 32.
Proof. unfold signer_identity_digest. intros H. bind_inv H. subst d. apply sha256_blen. Qed.

Lemma index_digest_blen f r b d : index_digest_for_revision f r b = Ok d -> blen d = 32.
Proof. unfold index_digest_for_revision. intros H. bind_inv H. subst d. apply sha256_blen. Qed.

Lemma fec_layout_digest_blen f r b d : fec_layout_digest_for_revision f r b = Ok d -> blen d = 32.
Proof. unfold fec_layout_digest_for_revision. intros H. bind_inv H. subst d. apply sha256_blen. Qed.

Lemma critical_metadata_digest_blen i d : critical_metadata_digest i = Ok d -> blen d = 32.
Proof. unfold critical_metadata_digest. intros H. bind_inv H. subst d. apply sha256_blen. Qed.

Lemma archive_root_blen i d : archive_root_for_revision i = Ok d -> blen d = 32.
Proof. unfold archive_root_for_revision. intros H. bind_inv H. subst d. apply sha256_blen. Qed.

Lemma merkle_next_level_blen params level :
  Forall (fun x => blen x = 32) level ->
  Forall (fun x => blen x = 32) (merkle_next_level params level).
Proof.
  remember (length level) as n eqn:Hn. revert level Hn.
  induction (lt_wf n) as [n _ IH]. intros level -> Hl.
  destruct level as [|x [|y level]]; [done|done|]. cbn [merkle_next_level].
  apply Forall_cons in Hl as [_ Hl]. apply Forall_cons in Hl as [_ Hl].
  constructor; [apply sha256_blen|]. by apply (IH (length level)); [simpl; lia|..].
Qed.

Lemma merkle_loop_blen fuel params level h :
  Forall (fun x => blen x = 32) level -> merkle_loop fuel params level = Ok h -> blen h = 32.
Proof.
  revert level. induction fuel as [|fuel IH]; intros level Hl H; [done|]. cbn [merkle_loop] in H.
  destruct level as [|x [|y level]]; [done|by injection H as <-; apply Forall_cons in Hl as [? _]|].
  exact (IH _ (merkle_next_level_blen params _ Hl) H).
Qed.

Lemma merkle_root_blen f r hashes h :
  Forall (fun x => blen x = 32) hashes ->
  data_block_merkle_root_from_leaf_hashes_for_revision f r hashes = Ok h -> blen h = 32.
Proof.
  unfold data_block_merkle_root_from_leaf_hashes_for_revision. intros Hl H. bind_inv H.
  unfold data_block_merkle_root_from_leaf_hashes_with_params in H. destruct hashes as [|x l].
  - injection H as <-. apply sha256_blen.
  - by apply merkle_loop_blen in H.
Qed.

Lemma expected_data_blocks_range rows total n :
  u64 total -> expected_data_blocks rows total = Ok n -> n < 2 ^ 64.
Proof.
  revert total. induction rows as [|row rows IH]; intros total Ht; cbn [expected_data_blocks].
  { intros [= <-]. apply Ht. }
  intros (t & Hrow & H)%bind_Ok. assert (t < 2 ^ 64) as Hlt.
  { destruct (fl_present row); [by apply checked_u64_add_Ok in Hrow as [? ->]|injection Hrow as <-; apply Ht]. }
  destruct (decide (0 <= t)) as [Hp|Hneg]; [by apply (IH t)|].
  clear IH Hrow Ht. assert (forall rows t n, t < 2 ^ 64 -> expected_data_blocks rows t = Ok n -> n < 2 ^ 64) as Haux.
  { clear. intros rows. induction rows as [|row rows IH]; intros t n Ht; cbn [expected_data_blocks]; [by intros [= <-]|].
    intros (t' & Hrow & H)%bind_Ok. apply (IH t' n); [|done].
    destruct (fl_present row); [by apply checked_u64_add_Ok in Hrow as [? ->]|by injection Hrow as <-]. }
  by apply (Haux rows t n).
Qed.

(** The Rust types of the configuration and of the input. *)
Definition RootAuthWriterConfig_typed (config : RootAuthWriterConfig) : Prop :=
  u16 (rc_authenticator_id config) /\ u16 (rc_signer_identity_type config)
  /\ u32 (rc_authenticator_value_length config).

Definition RootAuthFooterBuildInput_typed (input : RootAuthFooterBuildInput) : Prop :=
  blen (rb_archive_uuid input) = 16 /\ blen (rb_session_id input) = 16
  /\ Forall (fun h => blen h.2 = 32) (rb_data_leaf_hashes input).

Lemma sorted_hashes_blen input :
  RootAuthFooterBuildInput_typed input -> Forall (fun x => blen x = 32) (sorted_hashes input).
Proof.
  intros (_ & _ & H). unfold sorted_hashes. apply Forall_map. by rewrite sort_by_key_perm.
Qed.
End WriterRootAuth.
