(* ===== verification/CmraReader.v ===== *)
(** * The recovery area of a volume, as it is read

    From [crates/tzap-core/src/reader/cmra.rs]: the tuple that says how the
    area is laid out, the repair of the shards, and the checks of the recovered
    image.  [slice] of the reader is [reader_slice] here. *)

From S2P Require Import Wire Fec VolumeHeader Kdf CryptoHeaderFixed CryptoHeader MetadataImage.
From S2P Require Import Recovery ObjectReader.
#[local] Open Scope Z_scope.

Definition reader_slice (b : bytes) (offset len : Z) (structure : string) : fresult bytes :=
  end_ ← checked_add_usize offset len structure;
  ok_or (get_range b offset end_) (InvalidLength structure end_ (blen b)).

(** ** The layout of an area *)
Record CmraDecoderTuple : Type := {
  ct_shard_size : Z;
  ct_data_shard_count : Z;
  ct_parity_shard_count : Z;
  ct_image_length : Z;
  ct_image_sha256 : bytes
}.

Record CmraIdentityHints : Type := {
  ih_archive_uuid : bytes;
  ih_session_id : bytes;
  ih_volume_index : Z
}.

Definition CmraDecoderTuple_from_header (header : CriticalMetadataRecoveryHeader)
    : CmraDecoderTuple := {|
  ct_shard_size := rh_shard_size header;
  ct_data_shard_count := rh_data_shard_count header;
  ct_parity_shard_count := rh_parity_shard_count header;
  ct_image_length := rh_image_length header;
  ct_image_sha256 := rh_image_sha256 header |}.

Definition CmraIdentityHints_from_header (header : CriticalMetadataRecoveryHeader)
    : CmraIdentityHints := {|
  ih_archive_uuid := rh_archive_uuid_hint header;
  ih_session_id := rh_session_id_hint header;
  ih_volume_index := rh_volume_index_hint header |}.

Definition CmraDecoderTuple_from_locator (locator : CriticalRecoveryLocator) : CmraDecoderTuple := {|
  ct_shard_size := rl_cmra_shard_size locator;
  ct_data_shard_count := rl_cmra_data_shard_count locator;
  ct_parity_shard_count := rl_cmra_parity_shard_count locator;
  ct_image_length := rl_cmra_image_length locator;
  ct_image_sha256 := rl_cmra_image_sha256 locator |}.

Definition CmraIdentityHints_from_locator (locator : CriticalRecoveryLocator)
    : CmraIdentityHints := {|
  ih_archive_uuid := rl_archive_uuid_hint locator;
  ih_session_id := rl_session_id_hint locator;
  ih_volume_index := rl_volume_index_hint locator |}.

#[export] Instance CmraDecoderTuple_eq_dec : EqDecision CmraDecoderTuple.
Proof. solve_decision. Defined.

#[export] Instance CmraIdentityHints_eq_dec : EqDecision CmraIdentityHints.
Proof. solve_decision. Defined.

Record RecoveredCmra : Type := {
  rc_image : CriticalMetadataImage;
  rc_tuple : CmraDecoderTuple;
  rc_header_hints : option CmraIdentityHints;
  rc_cmra_length : Z
}.

Inductive CmraRecoveryMode : Set := KeyHolding | PublicNoKey.

(** ** Bounds *)
Definition critical_image_min : Z :=
  CRITICAL_METADATA_IMAGE_FIXED_LEN + 4 * SERIALIZED_REGION_HEADER_LEN + VOLUME_HEADER_LEN + 116
  + MANIFEST_FOOTER_LEN + VOLUME_TRAILER_LEN + IMAGE_CRC_LEN.

Definition try_sum (reason : string) (values : list Z) : fresult Z :=
  foldl (fun total value => total ← total; ok_or (checked_add 64 total value) (InvalidArchive reason))
    (Ok 0) values.

Definition critical_image_cap : fresult Z :=
  try_sum "critical image cap overflow"
    [CRITICAL_METADATA_IMAGE_FIXED_LEN; 6 * SERIALIZED_REGION_HEADER_LEN; VOLUME_HEADER_LEN;
     READER_MAX_CRYPTO_HEADER_LEN; READER_MAX_KEY_WRAP_TABLE_LEN; MANIFEST_FOOTER_LEN;
     READER_MAX_ROOT_AUTH_FOOTER_LEN; VOLUME_TRAILER_LEN; IMAGE_CRC_LEN].

Definition cmra_serialized_length (tuple : CmraDecoderTuple) : fresult Z :=
  shard_total ← ok_or (checked_add 64 (ct_data_shard_count tuple) (ct_parity_shard_count tuple))
    (InvalidArchive "CMRA shard count overflow");
  row_len ← ok_or (checked_add 64 CRITICAL_METADATA_RECOVERY_SHARD_HEADER_LEN (ct_shard_size tuple))
    (InvalidArchive "CMRA row length overflow");
  rows ← checked_u64_mul shard_total row_len "CMRA length overflow";
  ok_or (checked_add 64 rows CRITICAL_METADATA_RECOVERY_HEADER_LEN)
    (InvalidArchive "CMRA length overflow").

Definition validate_cmra_decoder_tuple (tuple : CmraDecoderTuple) : fresult unit :=
  let shard_size := ct_shard_size tuple in
  reject_if (negb ((512 <=? shard_size) && (shard_size <=? 4096)) || negb (shard_size mod 2 =? 0))
    (InvalidArchive "CMRA shard_size is invalid");;
  let image_length := ct_image_length tuple in
  cap ← critical_image_cap;
  reject_if ((image_length <? critical_image_min) || (cap <? image_length))
    (InvalidArchive "CMRA image_length is outside bounds");;
  expected_data_shards ← ceil_div_u64 image_length shard_size;
  reject_if ((expected_data_shards =? 0)
             || negb (expected_data_shards =? ct_data_shard_count tuple))
    (InvalidArchive "CMRA data_shard_count does not match image length");;
  scaled ← checked_u64_mul expected_data_shards READER_MAX_CMRA_PARITY_PCT "CMRA parity overflow";
  parity ← ceil_div_u64 scaled 100;
  let max_parity := Z.max 2 parity in
  reject_if (max_parity <? ct_parity_shard_count tuple)
    (ReaderResourceLimitExceeded "CMRA parity shard count" max_parity
       (ct_parity_shard_count tuple));;
  total ← ok_or (checked_add 64 expected_data_shards (ct_parity_shard_count tuple))
    (InvalidArchive "CMRA shard count overflow");
  reject_if (65535 <? total) (FecTooManyShards total).

Definition validate_cmra_writer_parity_lower_bound (tuple : CmraDecoderTuple)
    (bit_rot_buffer_pct : Z) : fresult unit :=
  scaled ← checked_u64_mul (ct_data_shard_count tuple) bit_rot_buffer_pct
    "CMRA parity lower-bound overflow";
  parity ← ceil_div_u64 scaled 100;
  reject_if (ct_parity_shard_count tuple <? Z.max 2 parity)
    (InvalidArchive "CMRA parity shard count is below authenticated bit-rot lower bound").

(** The body of the loop over the shard sizes. *)
Definition cmra_cap_tuple (cap shard_size : Z) : fresult CmraDecoderTuple :=
  data ← ceil_div_u64 cap shard_size;
  scaled ← checked_u64_mul data READER_MAX_CMRA_PARITY_PCT "CMRA cap overflow";
  parity ← ceil_div_u64 scaled 100;
  data_shard_count ← ok_or (try_from 16 data) (InvalidArchive "CMRA cap data shard overflow");
  parity_shard_count ← ok_or (try_from 16 (Z.max 2 parity))
    (InvalidArchive "CMRA cap parity shard overflow");
  image_length ← ok_or (try_from 32 cap) (InvalidArchive "CMRA cap image overflow");
  mret {| ct_shard_size := shard_size; ct_data_shard_count := data_shard_count;
          ct_parity_shard_count := parity_shard_count; ct_image_length := image_length;
          ct_image_sha256 := zeros 32 |}.

Fixpoint cmra_worst_loop (fuel : nat) (cap worst shard_size : Z) : fresult Z :=
  if 4096 <? shard_size then Ok worst
  else
    match fuel with
    | O => Panic
    | S fuel =>
        tuple ← cmra_cap_tuple cap shard_size;
        length ← cmra_serialized_length tuple;
        cmra_worst_loop fuel cap (Z.max worst length) (shard_size + 2)
    end.

(** [shard_size] runs from 512 to 4096 in steps of two. *)
Definition cmra_worst_case_cap : fresult Z :=
  cap ← critical_image_cap;
  cmra_worst_loop 1793 cap 0 512.

Definition v45_terminal_tail_cap : fresult Z :=
  worst ← cmra_worst_case_cap;
  total ← try_sum "terminal tail cap overflow"
    [MANIFEST_FOOTER_LEN; READER_MAX_ROOT_AUTH_FOOTER_LEN; VOLUME_TRAILER_LEN; worst;
     LOCATOR_PAIR_LEN];
  ok_or (try_from 64 total) (InvalidArchive "terminal tail cap overflow").

(** Of [ReaderOptions] only the scan limit matters here. *)
Definition max_critical_recovery_scan (max_trailing_garbage_scan : Z) : fresult Z :=
  worst ← cmra_worst_case_cap;
  scan ← ok_or (try_from 64 max_trailing_garbage_scan) (InvalidArchive "scan cap overflow");
  total ← ok_or (checked_add3 scan worst LOCATOR_PAIR_LEN) (InvalidArchive "scan cap overflow");
  ok_or (try_from 64 total) (InvalidArchive "scan cap overflow").

(** ** The shards *)

(** [a - b] on [usize], which a debug build checks. *)
Definition usize_sub (a b : Z) : fresult Z :=
  match checked_sub a b with
  | Some c => Ok c
  | None => Panic
  end.

Definition validate_cmra_shard (shard : CriticalMetadataRecoveryShard) (serialized_idx : Z)
    (tuple : CmraDecoderTuple) : fresult unit :=
  reject_if (negb (rs_shard_index shard =? serialized_idx))
    (InvalidArchive "CMRA shards are not in canonical order");;
  let data_count := ct_data_shard_count tuple in
  let shard_size := ct_shard_size tuple in
  if serialized_idx <? data_count then
    reject_if (negb (rs_shard_role shard =? 0)) (InvalidArchive "CMRA data shard has wrong role");;
    expected_len ←
      (if serialized_idx + 1 =? data_count then
         used ← usize_sub (ct_image_length tuple) (serialized_idx * shard_size);
         mret (if used =? 0 then shard_size else used)
       else mret shard_size);
    reject_if (negb (rs_shard_payload_length shard =? expected_len))
      (InvalidArchive "CMRA data shard payload length is non-canonical");;
    if serialized_idx + 1 =? data_count then
      padding ← slice (rs_payload shard) expected_len (blen (rs_payload shard));
      reject_if (negb (all_zero padding))
        (InvalidArchive "CMRA final data shard padding is non-zero")
    else Ok tt
  else
    reject_if (negb (rs_shard_role shard =? 1)) (InvalidArchive "CMRA parity shard has wrong role");;
    reject_if (negb (rs_shard_payload_length shard =? shard_size))
      (InvalidArchive "CMRA parity shard payload length is non-canonical").

(** [*shards.get_mut(idx).ok_or(..)? = Some(payload)] *)
Definition set_slot (shards : list (option bytes)) (idx : Z) (payload : bytes) (reason : string)
    : fresult (list (option bytes)) :=
  _ ← ok_or (shards !! Z.to_nat idx) (InvalidArchive reason);
  mret (<[Z.to_nat idx := Some payload]> shards).

Section Shards.
Context {C : Crc32c}.

Definition place_cmra_shard (tuple : CmraDecoderTuple) (idx : Z)
    (shard : CriticalMetadataRecoveryShard) (data_shards parity_shards : list (option bytes))
    : fresult (list (option bytes) * list (option bytes)) :=
  validate_cmra_shard shard idx tuple;;
  if rs_shard_role shard =? 0 then
    data_shards ← set_slot data_shards idx (rs_payload shard) "CMRA data shard out of range";
    mret (data_shards, parity_shards)
  else
    parity_idx ← usize_sub idx (ct_data_shard_count tuple);
    parity_shards ← set_slot parity_shards parity_idx (rs_payload shard)
      "CMRA parity shard out of range";
    mret (data_shards, parity_shards).

(** The loop over the serialized shards, [n] of which are left. *)
Fixpoint collect_cmra_shards (n : nat) (cmra_bytes : bytes) (tuple : CmraDecoderTuple)
    (idx cursor : Z) (data_shards parity_shards : list (option bytes))
    : fresult (list (option bytes) * list (option bytes)) :=
  match n with
  | O => Ok (data_shards, parity_shards)
  | S n =>
      let row := CRITICAL_METADATA_RECOVERY_SHARD_HEADER_LEN + ct_shard_size tuple in
      raw ← reader_slice cmra_bytes cursor row "CriticalMetadataRecoveryShard";
      '(data_shards, parity_shards) ←
        match CriticalMetadataRecoveryShard_parse raw (ct_shard_size tuple) with
        | Ok shard => place_cmra_shard tuple idx shard data_shards parity_shards
        | Err _ => Ok (data_shards, parity_shards)
        | Panic => Panic
        end;
      cursor ← checked_add_usize cursor row "CriticalMetadataRecoveryShard";
      collect_cmra_shards n cmra_bytes tuple (idx + 1) cursor data_shards parity_shards
  end.
End Shards.

(** ** The recovered image *)
Section Image.
Context {Sha : Sha256}.

Definition required_region (image : CriticalMetadataImage) (region_type : Z) (reason : string)
    : fresult SerializedRegion :=
  ok_or (CriticalMetadataImage_region image region_type) (InvalidArchive reason).

Definition image_block_record_len_from_region (image : CriticalMetadataImage) : fresult Z :=
  crypto_region ← required_region image 2 "missing CryptoHeader region";
  crypto ← CryptoHeader_parse (sr_bytes crypto_region) (mi_crypto_header_length image);
  CryptoHeaderFixed_validate_supported_profile (ch_fixed crypto);;
  mret (ch_block_size (ch_fixed crypto) + BLOCK_RECORD_FRAMING_LEN).

Definition validate_image_region (image : CriticalMetadataImage) (region_type offset length : Z)
    : fresult unit :=
  region ← required_region image region_type "missing CriticalMetadataImage region";
  reject_if (negb (sr_offset region =? offset) || negb (blen (sr_bytes region) =? length))
    (InvalidArchive "CriticalMetadataImage region range mismatch").

Definition sha256_region (image : CriticalMetadataImage) (region_type : Z) : fresult bytes :=
  region ← required_region image region_type "missing CriticalMetadataImage region";
  mret (sha256 (sr_bytes region)).

(** The checks of [validate_critical_metadata_image], in their order. *)
Definition root_auth_present (image : CriticalMetadataImage) : bool :=
  negb (Z.land (mi_layout_flags image) 0x00000001 =? 0).

Definition key_wrap_present (image : CriticalMetadataImage) : bool :=
  negb (Z.land (mi_layout_flags image) 0x00000002 =? 0).

Definition check_fixed_layout (image : CriticalMetadataImage) : fresult unit :=
  let error := InvalidArchive "CriticalMetadataImage fixed layout is invalid" in
  reject_if (negb (mi_volume_header_offset image =? 0)
             || negb (mi_volume_header_length image =? VOLUME_HEADER_LEN)
             || negb (mi_crypto_header_offset image =? VOLUME_HEADER_LEN)
             || negb (mi_manifest_footer_length image =? MANIFEST_FOOTER_LEN)
             || negb (mi_volume_trailer_length image =? VOLUME_TRAILER_LEN)) error;;
  trailer_end ← ok_or (checked_add 64 (mi_volume_trailer_offset image) VOLUME_TRAILER_LEN)
    (InvalidArchive "CMRA image boundary overflow");
  reject_if (negb (mi_body_bytes_before_cmra image =? trailer_end)) error.

Definition check_root_auth_fields (image : CriticalMetadataImage) : fresult unit :=
  if root_auth_present image then
    reject_if ((mi_root_auth_footer_offset image =? 0) || (mi_root_auth_footer_length image =? 0)
               || (READER_MAX_ROOT_AUTH_FOOTER_LEN <? mi_root_auth_footer_length image))
      (InvalidArchive "CriticalMetadataImage root-auth range is invalid")
  else
    reject_if (negb (mi_root_auth_footer_offset image =? 0)
               || negb (mi_root_auth_footer_length image =? 0)
               || negb (bytes_eqb (mi_root_auth_footer_sha256 image) (zeros 32)))
      (InvalidArchive "CriticalMetadataImage root-auth fields must be zero when absent").

Definition check_block_records_length (image : CriticalMetadataImage) (mode : CmraRecoveryMode)
    (block_record_len : Z) : fresult unit :=
  match mode with
  | KeyHolding =>
      expected_len ← ok_or (checked_mul 64 (mi_block_count image) block_record_len)
        (InvalidArchive "BlockRecord region length overflow");
      reject_if (negb (mi_block_records_length image =? expected_len))
        (InvalidArchive "CriticalMetadataImage terminal equations are invalid")
  | PublicNoKey =>
      reject_if (negb (mi_block_records_length image mod block_record_len =? 0))
        (InvalidArchive "CriticalMetadataImage BlockRecord region is not aligned")
  end.

(** Where the block records must start. *)
Definition expected_block_records_offset (image : CriticalMetadataImage) : fresult Z :=
  crypto_header_end ←
    ok_or (checked_add 64 (mi_crypto_header_offset image) (mi_crypto_header_length image))
      (InvalidArchive "CryptoHeader boundary overflow");
  if key_wrap_present image then
    region ← required_region image 6 "missing CriticalMetadataImage key-wrap region";
    reject_if (negb (mi_key_wrap_table_offset image =? crypto_header_end)
               || (mi_key_wrap_table_length image =? 0)
               || negb (sr_offset region =? mi_key_wrap_table_offset image)
               || negb (blen (sr_bytes region) =? mi_key_wrap_table_length image))
      (InvalidArchive "CriticalMetadataImage key-wrap region is malformed");;
    ok_or (checked_add 64 (mi_key_wrap_table_offset image) (mi_key_wrap_table_length image))
      (InvalidArchive "KeyWrapTableV1 boundary overflow")
  else
    reject_if (negb (mi_key_wrap_table_offset image =? 0)
               || negb (mi_key_wrap_table_length image =? 0)
               || negb (bytes_eqb (mi_key_wrap_table_sha256 image) (zeros 32)))
      (InvalidArchive "CriticalMetadataImage key-wrap fields must be zero when absent");;
    mret crypto_header_end.

Definition check_terminal_equations (image : CriticalMetadataImage) : fresult unit :=
  let error := InvalidArchive "CriticalMetadataImage terminal equations are invalid" in
  expected ← expected_block_records_offset image;
  reject_if (negb (mi_block_records_offset image =? expected)) error;;
  records_end ←
    ok_or (checked_add 64 (mi_block_records_offset image) (mi_block_records_length image))
      (InvalidArchive "ManifestFooter boundary overflow");
  reject_if (negb (mi_manifest_footer_offset image =? records_end)) error;;
  manifest_end ← ok_or (checked_add 64 (mi_manifest_footer_offset image) MANIFEST_FOOTER_LEN)
    (InvalidArchive "RootAuthFooter boundary overflow");
  if root_auth_present image then
    let error := InvalidArchive "CriticalMetadataImage root-auth terminal equations are invalid" in
    reject_if (negb (mi_root_auth_footer_offset image =? manifest_end)) error;;
    footer_end ←
      ok_or (checked_add 64 (mi_root_auth_footer_offset image) (mi_root_auth_footer_length image))
        (InvalidArchive "VolumeTrailer boundary overflow");
    reject_if (negb (footer_end =? mi_volume_trailer_offset image)) error
  else
    reject_if (negb (mi_volume_trailer_offset image =? manifest_end))
      (InvalidArchive "CriticalMetadataImage unsigned terminal equations are invalid").

Definition expected_types (key_wrap root_auth : bool) : list Z :=
  match key_wrap, root_auth with
  | false, false => [1; 2; 3; 5]
  | false, true => [1; 2; 3; 4; 5]
  | true, false => [1; 2; 6; 3; 5]
  | true, true => [1; 2; 6; 3; 4; 5]
  end.

Definition check_regions (image : CriticalMetadataImage) : fresult unit :=
  reject_if (negb (bool_decide (map sr_region_type (mi_regions image)
                                = expected_types (key_wrap_present image) (root_auth_present image))))
    (InvalidArchive "CriticalMetadataImage regions are not canonical");;
  validate_image_region image 1 (mi_volume_header_offset image) (mi_volume_header_length image);;
  validate_image_region image 2 (mi_crypto_header_offset image) (mi_crypto_header_length image);;
  validate_image_region image 3 (mi_manifest_footer_offset image) (mi_manifest_footer_length image);;
  (if key_wrap_present image
   then validate_image_region image 6 (mi_key_wrap_table_offset image)
          (mi_key_wrap_table_length image)
   else Ok tt);;
  (if root_auth_present image
   then validate_image_region image 4 (mi_root_auth_footer_offset image)
          (mi_root_auth_footer_length image)
   else Ok tt);;
  validate_image_region image 5 (mi_volume_trailer_offset image) (mi_volume_trailer_length image).

Definition check_digest (image : CriticalMetadataImage) (region_type : Z) (digest : bytes)
    : fresult unit :=
  actual ← sha256_region image region_type;
  reject_if (negb (bytes_eqb actual digest))
    (InvalidArchive "CriticalMetadataImage region digest mismatch").

(** A region that is present has the digest; the digest of an absent one is zero. *)
Definition check_optional_digest (image : CriticalMetadataImage) (present : bool)
    (region_type : Z) (digest : bytes) : fresult unit :=
  if present then check_digest image region_type digest
  else reject_if (negb (bytes_eqb digest (zeros 32)))
         (InvalidArchive "CriticalMetadataImage region digest mismatch").

Definition check_region_digests (image : CriticalMetadataImage) : fresult unit :=
  check_digest image 1 (mi_volume_header_sha256 image);;
  check_digest image 2 (mi_crypto_header_sha256 image);;
  check_optional_digest image (key_wrap_present image) 6 (mi_key_wrap_table_sha256 image);;
  check_digest image 3 (mi_manifest_footer_sha256 image);;
  check_optional_digest image (root_auth_present image) 4 (mi_root_auth_footer_sha256 image);;
  check_digest image 5 (mi_volume_trailer_sha256 image).

Definition validate_critical_metadata_image (image : CriticalMetadataImage)
    (mode : CmraRecoveryMode) : fresult unit :=
  reject_if (negb (Bool.eqb (key_wrap_present image)
                     (bool_decide (is_Some (CriticalMetadataImage_region image 6)))))
    (InvalidArchive "CriticalMetadataImage key-wrap layout flag mismatch");;
  check_fixed_layout image;;
  check_root_auth_fields image;;
  block_record_len ← image_block_record_len_from_region image;
  check_block_records_length image mode block_record_len;;
  check_terminal_equations image;;
  check_regions image;;
  check_region_digests image.
End Image.

(** ** Recovery *)
Section Recover.
Context {C : Crc32c} {Sha : Sha256} {T : Target}.

Definition recover_cmra_header_tuple (header_bytes : bytes)
    (locator_tuple : option CmraDecoderTuple)
    : fresult (CmraDecoderTuple * option CmraIdentityHints) :=
  match CriticalMetadataRecoveryHeader_parse header_bytes, locator_tuple with
  | Panic, _ => Panic
  | Ok header, Some locator_tuple =>
      let header_tuple := CmraDecoderTuple_from_header header in
      reject_if (bool_decide (header_tuple <> locator_tuple))
        (InvalidArchive "CMRA decoder tuple mismatch");;
      mret (locator_tuple, Some (CmraIdentityHints_from_header header))
  | Ok header, None =>
      mret (CmraDecoderTuple_from_header header, Some (CmraIdentityHints_from_header header))
  | Err _, Some tuple => mret (tuple, None)
  | Err err, None => Err err
  end.

Definition recover_cmra_from_bytes (cmra_bytes : bytes) (tuple : CmraDecoderTuple)
    (header_hints : option CmraIdentityHints) (cmra_length : Z) (mode : CmraRecoveryMode)
    : fresult RecoveredCmra :=
  let data_count := Z.to_nat (ct_data_shard_count tuple) in
  let parity_count := Z.to_nat (ct_parity_shard_count tuple) in
  '(data_shards, parity_shards) ←
    collect_cmra_shards (data_count + parity_count) cmra_bytes tuple 0
      CRITICAL_METADATA_RECOVERY_HEADER_LEN (replicate data_count None)
      (replicate parity_count None);
  repaired ← repair_data_gf16 data_shards parity_shards (ct_shard_size tuple);
  let image_bytes := take (Z.to_nat (ct_image_length tuple)) (concat repaired) in
  reject_if (negb (bytes_eqb (sha256 image_bytes) (ct_image_sha256 tuple)))
    (InvalidArchive "CMRA image SHA-256 mismatch");;
  image ← CriticalMetadataImage_parse image_bytes;
  validate_critical_metadata_image image mode;;
  mret {| rc_image := image; rc_tuple := tuple; rc_header_hints := header_hints;
          rc_cmra_length := cmra_length |}.

Definition recover_cmra (b : bytes) (cmra_offset : Z) (locator_tuple : option CmraDecoderTuple)
    (mode : CmraRecoveryMode) : fresult RecoveredCmra :=
  offset ← to_usize cmra_offset "CMRA";
  header_bytes ← reader_slice b offset CRITICAL_METADATA_RECOVERY_HEADER_LEN
    "CriticalMetadataRecoveryHeader";
  '(tuple, header_hints) ← recover_cmra_header_tuple header_bytes locator_tuple;
  validate_cmra_decoder_tuple tuple;;
  cmra_length ← cmra_serialized_length tuple;
  cmra_len ← to_usize cmra_length "CMRA";
  cmra_bytes ← reader_slice b offset cmra_len "CMRA";
  recover_cmra_from_bytes cmra_bytes tuple header_hints cmra_length mode.

Definition recover_cmra_read_at {R : Type} {A : ArchiveReadAt R} (reader : R) (cmra_offset : Z)
    (locator_tuple : option CmraDecoderTuple) (mode : CmraRecoveryMode) : fresult RecoveredCmra :=
  header_bytes ← read_at_vec reader cmra_offset CRITICAL_METADATA_RECOVERY_HEADER_LEN
    "CriticalMetadataRecoveryHeader";
  '(tuple, header_hints) ← recover_cmra_header_tuple header_bytes locator_tuple;
  validate_cmra_decoder_tuple tuple;;
  cmra_length ← cmra_serialized_length tuple;
  cmra_len ← to_usize cmra_length "CMRA";
  cmra_bytes ← read_at_vec reader cmra_offset cmra_len "CMRA";
  recover_cmra_from_bytes cmra_bytes tuple header_hints cmra_length mode.
End Recover.

(** ** Locators against areas and images *)
Definition validate_locator_position (locator_offset : Z) (locator : CriticalRecoveryLocator)
    : fresult unit :=
  reject_if (negb (rl_cmra_offset locator =? rl_body_bytes_before_cmra locator))
    (InvalidArchive "locator CMRA boundary mismatch");;
  trailer_end ← ok_or (checked_add 64 (rl_volume_trailer_offset locator) VOLUME_TRAILER_LEN)
    (InvalidArchive "locator trailer overflow");
  reject_if (negb (trailer_end =? rl_cmra_offset locator))
    (InvalidArchive "locator trailer boundary mismatch");;
  expected_offset ←
    ok_or (if rl_locator_sequence locator =? 1
           then checked_add 64 (rl_cmra_offset locator) (rl_cmra_length locator)
           else if rl_locator_sequence locator =? 0
           then checked_add3 (rl_cmra_offset locator) (rl_cmra_length locator)
                  CRITICAL_RECOVERY_LOCATOR_LEN
           else None)
      (InvalidArchive "locator position overflow");
  reject_if (negb (expected_offset =? locator_offset))
    (InvalidArchive "locator position does not match sequence").

Definition validate_locator_image_boundary (locator : CriticalRecoveryLocator)
    (image : CriticalMetadataImage) : fresult unit :=
  let error := InvalidArchive "locator and CMRA image boundaries differ" in
  reject_if (negb (rl_volume_format_rev locator =? mi_volume_format_rev image)
             || negb (rl_volume_trailer_offset locator =? mi_volume_trailer_offset image)
             || negb (rl_body_bytes_before_cmra locator =? mi_body_bytes_before_cmra image)) error;;
  trailer_end ← ok_or (checked_add 64 (mi_volume_trailer_offset image) VOLUME_TRAILER_LEN)
    (InvalidArchive "CMRA image boundary overflow");
  reject_if (negb (trailer_end =? rl_cmra_offset locator)) error.

Definition hints_match_image (image : CriticalMetadataImage) (hints : CmraIdentityHints) : bool :=
  bytes_eqb (ih_archive_uuid hints) (mi_archive_uuid image)
  && bytes_eqb (ih_session_id hints) (mi_session_id image)
  && (ih_volume_index hints =? mi_volume_index image).

Definition validate_cmra_identity_hints (header_hints locator_hints : option CmraIdentityHints)
    (image : CriticalMetadataImage) : fresult unit :=
  match header_hints, locator_hints with
  | Some header, Some locator =>
      reject_if (bool_decide (header <> locator))
        (InvalidArchive "CMRA header and locator identity hints differ")
  | _, _ => Ok tt
  end;;
  reject_if (negb (forallb (hints_match_image image)
                     (option_list header_hints ++ option_list locator_hints)))
    (InvalidArchive "CMRA identity hints do not match recovered image").

(** ** The bounds hold of every area *)
Definition CmraDecoderTuple_typed (tuple : CmraDecoderTuple) : Prop :=
  u32 (ct_shard_size tuple) /\ u16 (ct_data_shard_count tuple)
  /\ u16 (ct_parity_shard_count tuple) /\ u32 (ct_image_length tuple)
  /\ blen (ct_image_sha256 tuple) = 32.

(** How long an area with [shard_size] and [image_length] can be. *)
Definition row_count (image_length shard_size : Z) : Z :=
  let data := (image_length + (shard_size - 1)) / shard_size in data + Z.max 2 data.

Definition area_length (image_length shard_size : Z) : Z :=
  row_count image_length shard_size * (16 + shard_size) + 116.

Lemma div_100 n : 0 <= n -> (n * 100 + (100 - 1)) / 100 = n.
Proof. intros Hn. symmetry. apply (Z.div_unique _ _ _ 99); lia. Qed.

Lemma ceil_div_u64_Ok a b c :
  ceil_div_u64 a b = Ok c <-> b <> 0 /\ a + (b - 1) < 2 ^ 64 /\ c = (a + (b - 1)) / b.
Proof.
  unfold ceil_div_u64. split.
  - intros H. bind_inv H. apply ok_or_Ok, checked_add_Some in Hr0 as [? ->]. split_and!; [lia|lia|done].
  - intros (H1 & H2 & ->). run. done.
Qed.

Lemma reader_checked_mul_Ok a b f c : checked_u64_mul a b f = Ok c <-> a * b < 2 ^ 64 /\ c = a * b.
Proof. unfold checked_u64_mul, checked_mul. rewrite ok_or_Ok. case_match; split; intuition (congruence || lia). Qed.

Lemma cmra_serialized_length_Ok tuple len :
  cmra_serialized_length tuple = Ok len ->
  len = (ct_data_shard_count tuple + ct_parity_shard_count tuple) * (16 + ct_shard_size tuple) + 116.
Proof.
  unfold cmra_serialized_length. unfold_consts. intros H. bind_inv H.
  apply ok_or_Ok, checked_add_Some in Hr as [_ ->]. apply ok_or_Ok, checked_add_Some in Hr0 as [_ ->].
  apply reader_checked_mul_Ok in Hr1 as [_ ->]. by apply ok_or_Ok, checked_add_Some in H as [_ ->].
Qed.

Lemma critical_image_cap_eq : critical_image_cap = Ok 1278808.
Proof. vm_compute. reflexivity. Qed.

(** What [validate_cmra_decoder_tuple] accepts. *)
Lemma validate_cmra_decoder_tuple_Ok tuple :
  CmraDecoderTuple_typed tuple ->
  validate_cmra_decoder_tuple tuple = Ok tt <->
  512 <= ct_shard_size tuple <= 4096 /\ ct_shard_size tuple mod 2 = 0
  /\ 940 <= ct_image_length tuple <= 1278808
  /\ ct_data_shard_count tuple
     = (ct_image_length tuple + (ct_shard_size tuple - 1)) / ct_shard_size tuple
  /\ ct_parity_shard_count tuple <= Z.max 2 (ct_data_shard_count tuple).
Proof.
  intros (_ & Hd & Hp & _). unfold fits in Hd, Hp. unfold validate_cmra_decoder_tuple.
  rewrite critical_image_cap_eq.
  change critical_image_min with 940. change READER_MAX_CMRA_PARITY_PCT with 100. split.
  - intros H. bind_inv H. injection Hr0 as <-. apply ceil_div_u64_Ok in Hr2 as (_ & _ & ->).
    apply reader_checked_mul_Ok in Hr4 as [_ ->]. apply ceil_div_u64_Ok in Hr5 as (_ & _ & ->).
    set (d := (ct_image_length tuple + (ct_shard_size tuple - 1)) / ct_shard_size tuple) in *.
    assert (d = ct_data_shard_count tuple) as E by lia. rewrite E in *.
    rewrite div_100 in * by lia. split_and!; lia.
  - intros (H1 & H2 & H3 & H4 & H5). run.
    rewrite (proj2 (ceil_div_u64_Ok (ct_image_length tuple) (ct_shard_size tuple) _))
      by (split; [lia|split; [lia|exact H4]]).
    assert (0 < ct_data_shard_count tuple) as Hd0.
    { rewrite H4. apply Z.div_str_pos. lia. }
    assert (ct_data_shard_count tuple <= 2505) as Hd1.
    { pose proof (Z.mul_div_le (ct_image_length tuple + (ct_shard_size tuple - 1)) (ct_shard_size tuple) ltac:(lia)) as Hm.
      rewrite <- H4 in Hm. nia. }
    clear H4. run.
    rewrite (proj2 (reader_checked_mul_Ok (ct_data_shard_count tuple) 100 _ _)) by (split; [|done]; lia). run.
    rewrite (proj2 (ceil_div_u64_Ok (ct_data_shard_count tuple * 100) 100 (ct_data_shard_count tuple)))
      by (rewrite div_100 by lia; lia).
    run. done.
Qed.

Lemma row_count_mono L L' s : 0 < s -> L <= L' -> row_count L s <= row_count L' s.
Proof.
  intros Hs HL. unfold row_count. pose proof (Z.div_le_mono (L + (s - 1)) (L' + (s - 1)) s Hs ltac:(lia)). lia.
Qed.

(** The maximum that the loop of [cmra_worst_case_cap] takes. *)
Lemma cmra_worst_loop_max fuel cap worst s w :
  0 <= s -> 0 <= cap ->
  cmra_worst_loop fuel cap worst s = Ok w ->
  worst <= w /\ forall k, 0 <= k -> s + 2 * k <= 4096 -> area_length cap (s + 2 * k) <= w.
Proof.
  revert worst s. induction fuel as [|fuel IH]; intros worst s Hs Hcap H; cbn [cmra_worst_loop] in H.
  { destruct (4096 <? s) eqn:E; [injection H as <-|done]. split; [lia|]. intros; lia. }
  destruct (4096 <? s) eqn:E; [injection H as <-; split; [lia|]; intros; lia|]. bind_inv H.
  apply IH in H as [Hle Hall]; [|lia|done]. split; [lia|]. intros k Hk Hle'.
  destruct (Z.eq_dec k 0) as [->|].
  - rewrite Z.add_0_r. enough (area_length cap s = r0) by lia.
    apply cmra_serialized_length_Ok in Hr0. unfold cmra_cap_tuple in Hr. bind_inv Hr. subst r.
    apply ceil_div_u64_Ok in Hr1 as (_ & _ & ->). apply reader_checked_mul_Ok in Hr2 as [_ ->].
    apply ceil_div_u64_Ok in Hr3 as (_ & _ & ->).
    apply ok_or_Ok, try_from_Some in Hr4 as [-> Hd]. apply ok_or_Ok, try_from_Some in Hr5 as [-> _].
    cbn [ct_data_shard_count ct_parity_shard_count ct_shard_size] in Hr0. rewrite Hr0.
    change READER_MAX_CMRA_PARITY_PCT with 100. unfold fits in Hd. rewrite div_100 by lia. done.
  - specialize (Hall (k - 1) ltac:(lia) ltac:(lia)). by replace (s + 2 + 2 * (k - 1)) with (s + 2 * k) in Hall by lia.
Qed.

Lemma cmra_worst_case_cap_eq : cmra_worst_case_cap = Ok 2638004.
Proof. vm_compute. reflexivity. Qed.

(** The length of an area with an accepted tuple. *)
Lemma validate_cmra_decoder_tuple_length tuple :
  CmraDecoderTuple_typed tuple -> validate_cmra_decoder_tuple tuple = Ok tt ->
  let length := CRITICAL_METADATA_RECOVERY_HEADER_LEN
     + (ct_data_shard_count tuple + ct_parity_shard_count tuple)
       * (CRITICAL_METADATA_RECOVERY_SHARD_HEADER_LEN + ct_shard_size tuple) in
  cmra_serialized_length tuple = Ok length /\ length <= 2638004.
Proof.
  intros HT Hv length.
  apply validate_cmra_decoder_tuple_Ok in Hv as (Hs & Heven & HL & Hd & Hp); [|done].
  pose proof cmra_worst_case_cap_eq as Hr. unfold cmra_worst_case_cap in Hr.
  apply bind_Ok in Hr as (cap & Hcap & Hloop).
  rewrite critical_image_cap_eq in Hcap. injection Hcap as <-.
  revert Hloop. generalize 1793%nat. intros fuel Hloop.
  destruct (cmra_worst_loop_max fuel 1278808 0 512 2638004 ltac:(lia) ltac:(lia) Hloop) as [_ Hall].
  clear Hloop.
  set (s := ct_shard_size tuple) in *.
  specialize (Hall ((s - 512) / 2)). replace (512 + 2 * ((s - 512) / 2)) with s in Hall.
  2: { pose proof (Z.div_mod (s - 512) 2). assert ((s - 512) mod 2 = 0) as Hm.
       { rewrite Zminus_mod, Heven. done. } lia. }
  specialize (Hall ltac:(apply Z.div_pos; lia) ltac:(lia)).
  pose proof (row_count_mono (ct_image_length tuple) 1278808 s ltac:(lia) ltac:(lia)) as Hmono.
  assert (ct_data_shard_count tuple + ct_parity_shard_count tuple <= row_count (ct_image_length tuple) s) as Hrows
    by (unfold row_count; rewrite <- Hd; lia).
  assert (length <= 2638004) as Hle
    by (unfold area_length in Hall; subst length; change CRITICAL_METADATA_RECOVERY_HEADER_LEN with 116;
        change CRITICAL_METADATA_RECOVERY_SHARD_HEADER_LEN with 16; nia).
  split; [|exact Hle].
  clear Hall Hmono Hrows Hd. destruct HT as (_ & HD & HP & _). unfold fits in HD, HP. subst s length.
  unfold cmra_serialized_length, checked_u64_mul, checked_mul in *.
  revert Hle. unfold_consts. intros Hle. run.
  replace (_ <? 2 ^ 64) with true by nia. run. f_equal. lia.
Qed.

(** C32: The scan finds every area.  No area that the reader accepts is longer
    than [cmra_worst_case_cap], and the length of the window is computed
    without overflow.  Hence an area in front of its two locators and of no
    more garbage than the options allow begins inside the window of bytes that
    the reader scans. *)
Theorem recovery_scan_covers tuple cmra_offset garbage limit :
  CmraDecoderTuple_typed tuple -> validate_cmra_decoder_tuple tuple = Ok tt ->
  0 <= garbage <= limit -> limit < 2 ^ 63 ->
  exists cmra_length worst scan,
    cmra_serialized_length tuple = Ok cmra_length
    /\ cmra_worst_case_cap = Ok worst /\ cmra_length <= worst
    /\ max_critical_recovery_scan limit = Ok scan
    /\ let len := cmra_offset + cmra_length + LOCATOR_PAIR_LEN + garbage in
       len - scan <= cmra_offset.
Proof.
  intros HT Hv Hg Hlimit.
  pose proof (validate_cmra_decoder_tuple_length tuple HT Hv) as [Hlen Hle].
  exists (CRITICAL_METADATA_RECOVERY_HEADER_LEN
     + (ct_data_shard_count tuple + ct_parity_shard_count tuple)
       * (CRITICAL_METADATA_RECOVERY_SHARD_HEADER_LEN + ct_shard_size tuple)), 2638004,
     (limit + 2638004 + LOCATOR_PAIR_LEN).
  split; [exact Hlen|]. split; [exact cmra_worst_case_cap_eq|]. split; [exact Hle|].
  split; [|cbv zeta; lia].
  unfold max_critical_recovery_scan. rewrite cmra_worst_case_cap_eq. cbn [mbind result_bind].
  change LOCATOR_PAIR_LEN with 256 in *.
  rewrite (proj2 (try_from_Some 64 limit limit)) by (unfold fits; lia). cbn [ok_or mbind result_bind].
  rewrite (proj2 (checked_add3_Some limit 2638004 256 (limit + 2638004 + 256) ltac:(lia)))
    by (unfold fits; lia).
  cbn [ok_or mbind result_bind].
  rewrite (proj2 (try_from_Some 64 _ (limit + 2638004 + 256))) by (unfold fits; lia). done.
Qed.

Lemma recovery_scan_covers_witness :
  let tuple := {| ct_shard_size := 512; ct_data_shard_count := 2; ct_parity_shard_count := 2;
                  ct_image_length := 1000; ct_image_sha256 := zeros 32 |} in
  exists cmra_length worst scan,
    cmra_serialized_length tuple = Ok cmra_length
    /\ cmra_worst_case_cap = Ok worst /\ cmra_length <= worst
    /\ max_critical_recovery_scan 8 = Ok scan
    /\ 5000 + cmra_length + LOCATOR_PAIR_LEN + 8 - scan <= 5000.
Proof.
  cbv zeta.
  apply (recovery_scan_covers {| ct_shard_size := 512; ct_data_shard_count := 2;
      ct_parity_shard_count := 2; ct_image_length := 1000; ct_image_sha256 := zeros 32 |} 5000 8 8).
  - unfold CmraDecoderTuple_typed. split_and!; try (by apply fitsb_fits). reflexivity.
  - vm_compute. reflexivity.
  - lia.
  - lia.
Defined.
