(* ===== verification/CmraRoundtrip.v ===== *)
(** * The recovery area survives damage

    What [CmraWriter.build_v45_cmra] writes, and that
    [CmraReader.recover_cmra] gives its image back from a damaged copy. *)

From S2P Require Import Wire Fec FecCorrect VolumeHeader CryptoHeaderFixed CryptoHeader.
From S2P Require Import BlockRecord MetadataImage Recovery RootAuth WriterPlan ObjectWriter.
From S2P Require Import ObjectReader ObjectRoundtrip CmraWriter CmraReader.
#[local] Open Scope Z_scope.

(** [ok_inv] with the writer's checked arithmetic. *)
Ltac ok_inv_writer := ok_inv_with ltac:(idtac; match goal with
  | H : WriterPlan.checked_u64_add _ _ _ = Ok _ |- _ => apply WriterPlan.checked_u64_add_Ok in H as [? ?]
  | H : WriterPlan.checked_u64_mul _ _ _ = Ok _ |- _ => apply WriterPlan.checked_u64_mul_Ok in H as [? ?]
  end).


(** ** Rows of equal size *)
Lemma seg_concat (l : list bytes) n i d :
  0 <= n -> Forall (fun x => blen x = n) l -> l !! i = Some d ->
  seg (concat l) (Z.of_nat i * n) ((Z.of_nat i + 1) * n) = d.
Proof.
  intros Hn Hl. revert i. induction Hl as [|x l Hx Hl IH]; intros i Hi; [done|]. cbn [concat].
  destruct i as [|i]; cbn [lookup list_lookup] in Hi.
  - injection Hi as <-. rewrite seg_app_l by lia. rewrite <- Hx.
    replace (Z.of_nat 0 * blen x) with 0 by lia. replace ((Z.of_nat 0 + 1) * blen x) with (blen x) by lia.
    apply seg_full.
  - rewrite seg_app_r by nia. rewrite Hx.
    replace (Z.of_nat (S i) * n - n) with (Z.of_nat i * n) by lia.
    replace ((Z.of_nat (S i) + 1) * n - n) with ((Z.of_nat i + 1) * n) by lia. by apply IH.
Qed.

Lemma blen_concat (l : list bytes) n :
  Forall (fun x => blen x = n) l -> blen (concat l) = Z.of_nat (length l) * n.
Proof.
  induction 1 as [|x l Hx Hl IH]; [done|]. cbn [concat length]. rewrite blen_app. lia.
Qed.

(** ** The shards as they are written *)
Section Writing.
Context {C : Crc32c}.

Definition written_shard (role : Z) (payload_len : nat -> Z) (base : Z) (idx : nat) (payload : bytes)
    : CriticalMetadataRecoveryShard := {|
  rs_shard_index := base + Z.of_nat idx; rs_shard_role := role;
  rs_shard_payload_length := payload_len idx; rs_payload := payload; rs_shard_crc32c := 0 |}.

Definition shard_frame (s : CriticalMetadataRecoveryShard) : bytes :=
  shard_head s ++ le_bytes 4 (crc32c (shard_head s ++ rs_payload s)) ++ rs_payload s.

Definition shard_frames (role : Z) (payload_len : nat -> Z) (base : Z) (idx : nat)
    (payloads : list bytes) : list bytes :=
  imap (fun i payload => shard_frame (written_shard role payload_len base (idx + i) payload)) payloads.

Lemma shard_frames_cons role payload_len base idx p payloads :
  shard_frames role payload_len base idx (p :: payloads)
  = shard_frame (written_shard role payload_len base idx p)
    :: shard_frames role payload_len base (S idx) payloads.
Proof.
  unfold shard_frames. cbn [imap]. rewrite Nat.add_0_r. f_equal. apply imap_ext. intros i x _. cbn.
  by replace (idx + S i)%nat with (S (idx + i)) by lia.
Qed.

Lemma blen_shard_frame s : blen (shard_frame s) = 16 + blen (rs_payload s).
Proof. unfold shard_frame. rewrite !blen_app, blen_shard_head, blen_le. lia. Qed.

Lemma append_cmra_shards_Ok role payload_len base idx payloads cmra :
  0 <= base -> base + Z.of_nat (idx + length payloads) <= 2 ^ 16 ->
  (forall i, (i < length payloads)%nat -> u32 (payload_len (idx + i)%nat)) ->
  Forall (fun p => blen p = CMRA_SHARD_SIZE) payloads ->
  append_cmra_shards role payload_len base idx payloads cmra
  = Ok (cmra ++ concat (shard_frames role payload_len base idx payloads)).
Proof.
  intros Hb. revert idx cmra. induction payloads as [|p payloads IH]; intros idx cmra Hi Hu Hp.
  - cbn. by rewrite app_nil_r.
  - apply Forall_cons in Hp as [Hp Hps]. cbn [append_cmra_shards length] in *.
    rewrite (ok_or_eq _ _ _ (checked_add_eq 64 base (Z.of_nat idx) ltac:(lia))), bind_ret.
    rewrite (ok_or_eq _ (base + Z.of_nat idx)), bind_ret by (apply try_from_Some; unfold fits; lia).
    rewrite u32_len_eq, bind_ret by (rewrite <- (Nat.add_0_r idx); apply Hu; lia).
    change (Build_CriticalMetadataRecoveryShard _ _ _ _ _) with (written_shard role payload_len base idx p).
    rewrite shard_to_bytes_eq, bind_ret by done.
    rewrite IH; [|lia| |done].
    + rewrite shard_frames_cons. cbn [concat]. by rewrite <- app_assoc.
    + intros i Hlt. replace (S idx + i)%nat with (idx + S i)%nat by lia. apply Hu. lia.
Qed.

Lemma length_shard_frames role payload_len base idx payloads :
  length (shard_frames role payload_len base idx payloads) = length payloads.
Proof. apply length_imap. Qed.

Lemma lookup_shard_frames role payload_len base payloads i p :
  payloads !! i = Some p ->
  shard_frames role payload_len base 0 payloads !! i
  = Some (shard_frame (written_shard role payload_len base i p)).
Proof. intros H. unfold shard_frames. by rewrite list_lookup_imap, H. Qed.

Lemma blen_shard_frames role payload_len base idx payloads :
  Forall (fun p => blen p = CMRA_SHARD_SIZE) payloads ->
  Forall (fun f => blen f = 16 + CMRA_SHARD_SIZE) (shard_frames role payload_len base idx payloads).
Proof.
  intros H. apply Forall_lookup_2. intros i f Hi. unfold shard_frames in Hi.
  rewrite list_lookup_imap in Hi. destruct (payloads !! i) as [p|] eqn:E; [|done]. injection Hi as <-.
  rewrite blen_shard_frame. cbn. rewrite (Forall_lookup_1 _ _ _ _ H E). done.
Qed.

(** A written shard parses, to itself with its checksum. *)
Lemma shard_frame_parses s :
  u16 (rs_shard_index s) -> 0 <= rs_shard_role s <= 1 -> u32 (rs_shard_payload_length s) ->
  rs_shard_payload_length s <= CMRA_SHARD_SIZE -> blen (rs_payload s) = CMRA_SHARD_SIZE ->
  CriticalMetadataRecoveryShard_parse (shard_frame s) CMRA_SHARD_SIZE
  = Ok {| rs_shard_index := rs_shard_index s; rs_shard_role := rs_shard_role s;
          rs_shard_payload_length := rs_shard_payload_length s; rs_payload := rs_payload s;
          rs_shard_crc32c := crc32c (shard_head s ++ rs_payload s) |}.
Proof.
  intros H1 H2 H3 H4 H5. apply CriticalMetadataRecoveryShard_parse_iff; [unfold fits, CMRA_SHARD_SIZE; lia|].
  split; [|by rewrite shard_to_bytes_eq].
  split; [done|]. split; [done|]. split; [done|]. split; [done|]. split; [done|]. done.
Qed.
End Writing.

(** ** The data shards hold the image *)
Lemma blen_cmra_data_shard image i : blen (cmra_data_shard image i) = CMRA_SHARD_SIZE.
Proof.
  unfold cmra_data_shard, CMRA_SHARD_SIZE. case_match; [|by apply blen_zeros].
  rewrite blen_put; rewrite ?blen_zeros, ?blen_seg by lia; lia.
Qed.

Lemma cmra_data_shard_eq image i :
  Z.of_nat i * CMRA_SHARD_SIZE < blen image ->
  cmra_data_shard image i
  = seg image (Z.of_nat i * CMRA_SHARD_SIZE) (Z.min ((Z.of_nat i + 1) * CMRA_SHARD_SIZE) (blen image))
    ++ zeros (Z.max 0 ((Z.of_nat i + 1) * CMRA_SHARD_SIZE - blen image)).
Proof.
  intros Hi. unfold cmra_data_shard. rewrite (proj2 (Z.ltb_lt _ _)) by done.
  replace (Z.of_nat i * CMRA_SHARD_SIZE + CMRA_SHARD_SIZE) with ((Z.of_nat i + 1) * CMRA_SHARD_SIZE) by lia.
  set (s := seg _ _ _).
  assert (blen s = Z.min CMRA_SHARD_SIZE (blen image - Z.of_nat i * CMRA_SHARD_SIZE)) as Hs.
  { unfold s. rewrite blen_seg; unfold CMRA_SHARD_SIZE in *; lia. }
  pose proof (put_zeros [] CMRA_SHARD_SIZE 0 s) as Hp. change (blen []) with 0 in Hp.
  rewrite Z.sub_0_r in Hp. cbn [app] in Hp. rewrite Hp by (unfold CMRA_SHARD_SIZE in *; lia).
  rewrite Z.sub_0_r. change (zeros 0) with (@nil Byte.byte). cbn [app]. f_equal. f_equal.
  unfold CMRA_SHARD_SIZE in *. lia.
Qed.

Lemma concat_data_shards image D :
  (0 < D)%nat -> (Z.of_nat D - 1) * CMRA_SHARD_SIZE < blen image ->
  concat (map (cmra_data_shard image) (seq 0 D))
  = seg image 0 (Z.min (Z.of_nat D * CMRA_SHARD_SIZE) (blen image))
    ++ zeros (Z.max 0 (Z.of_nat D * CMRA_SHARD_SIZE - blen image)).
Proof.
  induction D as [|D IH]; [lia|]. intros _ Hlt.
  rewrite seq_S, map_app, concat_app. cbn [map concat]. rewrite app_nil_r, Nat.add_0_l.
  rewrite cmra_data_shard_eq by lia.
  destruct D as [|D]; [by cbn [seq map concat app]; replace (Z.of_nat 0 * CMRA_SHARD_SIZE) with 0 by lia;
                       replace (Z.of_nat 0 + 1) with (Z.of_nat 1) by lia|].
  unfold CMRA_SHARD_SIZE in *. rewrite IH by lia.
  rewrite (Z.max_l 0 (Z.of_nat (S D) * 512 - _)), (Z.min_l (Z.of_nat (S D) * 512)) by lia.
  change (zeros 0) with (@nil Byte.byte). rewrite app_nil_r, app_assoc, <- seg_split by lia.
  replace (Z.of_nat (S D) + 1) with (Z.of_nat (S (S D))) by lia. done.
Qed.

Lemma data_shards_image image D :
  (0 < D)%nat -> (Z.of_nat D - 1) * CMRA_SHARD_SIZE < blen image <= Z.of_nat D * CMRA_SHARD_SIZE ->
  take (Z.to_nat (blen image)) (concat (map (cmra_data_shard image) (seq 0 D))) = image.
Proof.
  intros HD Hlt. rewrite concat_data_shards by lia. rewrite Z.min_r by lia.
  rewrite seg_full. apply take_app_length'. unfold blen. lia.
Qed.

(** ** The shards as they are read *)
Section Reading.
Context {C : Crc32c}.

(** Row [i] of an area, and whether a shard can be read from it. *)
Definition area_row (b : bytes) (shard_size : Z) (i : nat) : bytes :=
  seg b (CRITICAL_METADATA_RECOVERY_HEADER_LEN + Z.of_nat i * (16 + shard_size))
    (CRITICAL_METADATA_RECOVERY_HEADER_LEN + (Z.of_nat i + 1) * (16 + shard_size)).

Definition row_readable (b : bytes) (shard_size : Z) (i : nat) : bool :=
  match CriticalMetadataRecoveryShard_parse (area_row b shard_size i) shard_size with
  | Ok _ => true
  | _ => false
  end.

Definition area_slot (b : bytes) (shard_size : Z) (payloads : list bytes) (i : nat) : option bytes :=
  if row_readable b shard_size i then payloads !! i else None.

Section Collect.
Context (b : bytes) (t : CmraDecoderTuple) (payloads : list bytes) (D P : nat).
Hypotheses (HD : ct_data_shard_count t = Z.of_nat D) (Hss : 0 <= ct_shard_size t)
  (Hlen : CRITICAL_METADATA_RECOVERY_HEADER_LEN + Z.of_nat (D + P) * (16 + ct_shard_size t) <= blen b)
  (Hmem : blen b < 2 ^ 63)
  (Hrows : forall i s, (i < D + P)%nat ->
     CriticalMetadataRecoveryShard_parse (area_row b (ct_shard_size t) i) (ct_shard_size t) = Ok s ->
     validate_cmra_shard s (Z.of_nat i) t = Ok tt
     /\ rs_shard_role s = (if (i <? D)%nat then 0 else 1) /\ payloads !! i = Some (rs_payload s)).

Let slot := area_slot b (ct_shard_size t) payloads.

Lemma take_S_insert (l : list (option bytes)) i x :
  (i < length l)%nat -> take (S i) (<[i := x]> l) = take i l ++ [x].
Proof.
  intros Hi. rewrite (take_S_r _ _ x) by (by rewrite list_lookup_insert_eq by done).
  by rewrite take_insert_ge by lia.
Qed.

(** One shard goes to its slot. *)
Lemma place_row idx ds ps :
  (idx < D + P)%nat -> length ds = D -> length ps = P ->
  ((idx < D)%nat -> ds !! idx = Some None) -> ((D <= idx)%nat -> ps !! (idx - D)%nat = Some None) ->
  exists ds' ps',
    match CriticalMetadataRecoveryShard_parse (area_row b (ct_shard_size t) idx) (ct_shard_size t) with
    | Ok shard => place_cmra_shard t (Z.of_nat idx) shard ds ps
    | Err _ => Ok (ds, ps)
    | Panic => Panic
    end = Ok (ds', ps')
    /\ ds' = (if (idx <? D)%nat then <[idx := slot idx]> ds else ds)
    /\ ps' = (if (idx <? D)%nat then ps else <[(idx - D)%nat := slot idx]> ps).
Proof.
  intros Hi Hlds Hlps Hds Hps. unfold slot, area_slot, row_readable.
  destruct (CriticalMetadataRecoveryShard_parse _ _) as [s|e|] eqn:Hparse.
  - destruct (Hrows idx s Hi Hparse) as (Hval & Hrole & Hpay). unfold place_cmra_shard.
    rewrite Hval, bind_ret, Hrole, Hpay. unfold set_slot. destruct (Nat.ltb_spec idx D).
    + rewrite Z.eqb_refl, Nat2Z.id, Hds by done. cbn. eauto.
    + change (1 =? 0) with false. cbv iota. unfold usize_sub. rewrite checked_sub_eq, bind_ret by lia.
      replace (Z.to_nat (Z.of_nat idx - ct_data_shard_count t)) with (idx - D)%nat by lia.
      rewrite Hps by done. cbn. eauto.
  - exists ds, ps. split; [done|]. destruct (Nat.ltb_spec idx D); split; try done;
      by rewrite list_insert_id by auto.
  - exfalso. revert Hparse. by apply CriticalMetadataRecoveryShard_parse_no_panic.
Qed.

Lemma collect_slots n idx ds ps :
  (idx + n = D + P)%nat -> length ds = D -> length ps = P ->
  (forall i, (idx <= i < D)%nat -> ds !! i = Some None) ->
  (forall i, (idx - D <= i < P)%nat -> ps !! i = Some None) ->
  collect_cmra_shards n b t (Z.of_nat idx)
    (CRITICAL_METADATA_RECOVERY_HEADER_LEN + Z.of_nat idx * (16 + ct_shard_size t)) ds ps
  = Ok (take idx ds ++ map slot (seq idx (D - idx)),
        take (idx - D) ps ++ map slot (seq (idx `max` D) (D + P - idx `max` D))).
Proof.
  revert idx ds ps. induction n as [|n IH]; intros idx ds ps Hn Hlds Hlps Hds Hps; cbn [collect_cmra_shards].
  { replace (D - idx)%nat with 0%nat by lia. replace (D + P - idx `max` D)%nat with 0%nat by lia.
    cbn [seq map]. rewrite !app_nil_r, !take_ge by lia. done. }
  destruct (place_row idx ds ps) as (ds' & ps' & Hplace & Hds' & Hps'); [lia|done|done| |..].
  { intros Hlt. apply Hds. lia. }
  { intros Hge. apply Hps. lia. }
  cbv zeta. unfold reader_slice, checked_add_usize, CRITICAL_METADATA_RECOVERY_SHARD_HEADER_LEN in *.
  unfold CRITICAL_METADATA_RECOVERY_HEADER_LEN in *.
  set (row := 16 + ct_shard_size t) in *. assert (16 <= row) as Hrow by (unfold row; lia).
  rewrite (ok_or_eq _ _ _ (checked_add_eq 64 (116 + Z.of_nat idx * row) row ltac:(nia))), bind_ret.
  rewrite (ok_or_eq _ (area_row b (ct_shard_size t) idx)), bind_ret.
  2: { apply get_range_Some. split; [lia|]. split; [lia|]. split; [nia|]. unfold area_row.
       fold row. unfold CRITICAL_METADATA_RECOVERY_HEADER_LEN. f_equal. lia. }
  rewrite Hplace, bind_ret. cbv beta iota. rewrite bind_ret.
  replace (Z.of_nat idx + 1) with (Z.of_nat (S idx)) by lia.
  replace (116 + Z.of_nat idx * row + row) with (116 + Z.of_nat (S idx) * row) by lia.
  rewrite IH; clear IH.
  - subst ds' ps'. destruct (Nat.ltb_spec idx D).
    + rewrite take_S_insert by lia. rewrite <- app_assoc.
      replace (S idx `max` D)%nat with (idx `max` D)%nat by lia.
      replace (S idx - D)%nat with (idx - D)%nat by lia.
      replace (D - idx)%nat with (S (D - S idx)) by lia. done.
    + rewrite !take_ge by (rewrite ?length_insert; lia).
      replace (D - S idx)%nat with (D - idx)%nat by lia.
      replace (D - idx)%nat with 0%nat by lia. cbn [seq map]. rewrite !app_nil_r.
      replace (S idx - D)%nat with (S (idx - D)) by lia. rewrite take_S_insert by lia.
      rewrite <- app_assoc. rewrite !Nat.max_l by lia.
      replace (D + P - idx)%nat with (S (D + P - S idx)) by lia. cbn [seq map app]. rewrite (take_ge ds idx) by lia. done.
  - lia.
  - subst ds'. case_match; by rewrite ?length_insert.
  - subst ps'. case_match; by rewrite ?length_insert.
  - intros i Hi. subst ds'. destruct (Nat.ltb_spec idx D); [|lia].
    rewrite list_lookup_insert_ne by lia. apply Hds. lia.
  - intros i Hi. subst ps'. destruct (Nat.ltb_spec idx D); [apply Hps; lia|].
    rewrite list_lookup_insert_ne by lia. apply Hps. lia.
Qed.

Lemma collect_area :
  collect_cmra_shards (D + P) b t 0 CRITICAL_METADATA_RECOVERY_HEADER_LEN
    (replicate D None) (replicate P None)
  = Ok (map slot (seq 0 D), map slot (seq D P)).
Proof.
  pose proof (collect_slots (D + P) 0 (replicate D None) (replicate P None)) as H.
  cbn [take app Nat.sub] in H. rewrite Nat.max_r, Nat.sub_0_r, Z.mul_0_l, Z.add_0_r in H by lia.
  replace (D + P - D)%nat with P in H by lia. apply H.
  - lia.
  - apply length_replicate.
  - apply length_replicate.
  - intros i Hi. apply lookup_replicate_2. lia.
  - intros i Hi. apply lookup_replicate_2. lia.
Qed.
End Collect.
End Reading.

(** ** The image that is written *)

(** The types of the fields of a [CmraBuildInput]. *)
Definition CmraBuildInput_typed (input : CmraBuildInput) : Prop :=
  u16 (ci_volume_format_rev input)
  /\ blen (ci_volume_header_bytes input) = VOLUME_HEADER_LEN
  /\ u64 (ci_block_count input)
  /\ u64 (ci_block_records_offset input)
  /\ u64 (ci_manifest_footer_offset input)
  /\ blen (ci_manifest_footer input) = MANIFEST_FOOTER_LEN
  /\ u64 (ci_trailer_offset input)
  /\ blen (ci_trailer input) = VOLUME_TRAILER_LEN
  /\ blen (ci_archive_uuid input) = 16
  /\ blen (ci_session_id input) = 16
  /\ u32 (ci_volume_index input)
  /\ u32 (wo_stripe_width (ci_options input))
  /\ u8 (wo_bit_rot_buffer_pct (ci_options input)).

(** What the code that calls [build_v45_cmra] has established: the crypto
    header is one that the reader parses, with the block size of the options;
    the table and the footer are within the reader's limits; the block records
    fill the space in front of the manifest footer. *)
Record cmra_input_ok (input : CmraBuildInput) : Prop := {
  io_typed : CmraBuildInput_typed input;
  io_crypto : exists h,
    CryptoHeader_parse (ci_crypto_header input) (blen (ci_crypto_header input)) = Ok h
    /\ ch_block_size (ch_fixed h) = wo_block_size (ci_options input);
  io_key_wrap : forall table, ci_key_wrap_table input = Some table ->
    blen table <= READER_MAX_KEY_WRAP_TABLE_LEN;
  io_footer : forall footer, ci_root_auth_footer input = Some footer ->
    0 < blen footer <= READER_MAX_ROOT_AUTH_FOOTER_LEN;
  io_records :
    ci_manifest_footer_offset input
    = ci_block_records_offset input
      + ci_block_count input * (wo_block_size (ci_options input) + BLOCK_RECORD_FRAMING_LEN)
}.

Definition opt_blen (o : option bytes) : Z := match o with Some b => blen b | None => 0 end.

Section Image.
Context {Sha : Sha256}.

Lemma build_cmra_image_Ok input image :
  build_cmra_image input = Ok image ->
  image = cmra_image input ((fun table => (table, blen table)) <$> ci_key_wrap_table input)
            (ci_block_count input * (wo_block_size (ci_options input) + BLOCK_RECORD_FRAMING_LEN))
            (blen (ci_crypto_header input)) (blen <$> ci_root_auth_footer input)
            (ci_trailer_offset input + VOLUME_TRAILER_LEN)
  /\ (forall table, ci_key_wrap_table input = Some table -> 0 < blen table < 2 ^ 32)
  /\ ci_block_records_offset input = ci_crypto_end input + opt_blen (ci_key_wrap_table input)
  /\ ci_block_count input * (wo_block_size (ci_options input) + BLOCK_RECORD_FRAMING_LEN) < 2 ^ 64
  /\ match ci_root_auth_footer_offset input, ci_root_auth_footer input with
     | Some offset, Some footer =>
         offset = ci_manifest_footer_offset input + MANIFEST_FOOTER_LEN
         /\ offset + blen footer = ci_trailer_offset input /\ u32 (blen footer)
     | None, None => ci_manifest_footer_offset input + MANIFEST_FOOTER_LEN = ci_trailer_offset input
     | _, _ => False
     end
  /\ ci_trailer_offset input + VOLUME_TRAILER_LEN = ci_cmra_offset input
  /\ ci_cmra_offset input < 2 ^ 64 /\ u32 (blen (ci_crypto_header input)).
Proof.
  unfold build_cmra_image, check_key_wrap_table, check_terminal_layout, ci_crypto_end. intros H.
  destruct (ci_key_wrap_table input) as [table|], (ci_root_auth_footer input) as [footer|],
    (ci_root_auth_footer_offset input) as [offset|];
    cbn [transpose fmap option_fmap option_map opt_blen] in *; ok_inv_writer.
  all: try pose proof (blen_nonneg table); unfold fits in *.
  all: split; [done|]; split; [by intros ? [= <-]; lia || lia|].
  all: repeat match goal with H : _ && _ = false |- _ => clear H end; lia.
Qed.

(** What the reader's parser has checked of a crypto header. *)
Lemma CryptoHeader_parse_facts b h :
  CryptoHeader_parse b (blen b) = Ok h ->
  116 <= blen b <= READER_MAX_CRYPTO_HEADER_LEN /\ u32 (ch_block_size (ch_fixed h))
  /\ CryptoHeaderFixed_validate_supported_profile (ch_fixed h) = Ok tt.
Proof.
  intros H. pose proof H as H'. apply CryptoHeader_parse_iff in H' as ((Hf & _) & _).
  destruct Hf as (Hty & Hsp & _). split; [|split; [apply Hty|done]].
  unfold CryptoHeader_parse in H. unfold_consts. ok_inv_writer. lia.
Qed.

(** The image of a built area, by its parts. *)
Definition input_image (input : CmraBuildInput) : CriticalMetadataImage :=
  cmra_image input ((fun table => (table, blen table)) <$> ci_key_wrap_table input)
    (ci_block_count input * (wo_block_size (ci_options input) + BLOCK_RECORD_FRAMING_LEN))
    (blen (ci_crypto_header input)) (blen <$> ci_root_auth_footer input)
    (ci_trailer_offset input + VOLUME_TRAILER_LEN).

Section Built.
Context (input : CmraBuildInput) (image : CriticalMetadataImage).
Hypotheses (Hok : cmra_input_ok input) (Hbuild : build_cmra_image input = Ok image)
  (Hrev : ci_volume_format_rev input = VOLUME_FORMAT_REV_45).

(** The conclusions of [build_cmra_image_Ok] and the bounds of the parts, in
    the four cases of an optional table and an optional footer. *)
Ltac image_cases :=
  pose proof (io_typed _ Hok) as HT; pose proof (io_key_wrap _ Hok) as Hkw;
  pose proof (io_footer _ Hok) as Hfoot; pose proof (io_records _ Hok) as Hrecords;
  destruct (io_crypto _ Hok) as (h & Hcrypto & Hbs);
  destruct (CryptoHeader_parse_facts _ _ Hcrypto) as (Hclen & Hbsize & Hprofile);
  rewrite Hbs in Hbsize;
  unfold CmraBuildInput_typed in HT; unfold ci_crypto_end in *;
  destruct HT as (_ & Hvh & Hbc & Hbr & Hmo & Hmf & Hto & Htr & Huuid & Hsid & Hvi & Hsw & Hpct);
  destruct (build_cmra_image_Ok _ _ Hbuild) as (-> & Htab & Hrec & Hmul & Hfo & Hend & Hmax & Hch);
  unfold ci_crypto_end in *;
  destruct (ci_key_wrap_table input) as [table|] eqn:Etab,
    (ci_root_auth_footer input) as [footer|] eqn:Efoot,
    (ci_root_auth_footer_offset input) as [offset|] eqn:Eoff; try done;
  cbn [fmap option_fmap option_map opt_blen] in *;
  try specialize (Htab _ eq_refl); try specialize (Hkw _ eq_refl);
  try specialize (Hfoot _ eq_refl).

Lemma built_image_valid : CriticalMetadataImage_valid image.
Proof.
  image_cases; unfold_consts; unfold CriticalMetadataImage_valid, CriticalMetadataImage_typed, fits in *.
  all: pose proof (blen_nonneg (ci_crypto_header input)).
  all: split; [|split; [exact Hrev|]]; cbn; rewrite ?Etab, ?Efoot, ?Eoff; cbn.
  all: change (Z.lor 1 2) with 3 || change (Z.lor 0 2) with 2 || change (Z.lor 1 0) with 1
       || change (Z.lor 0 0) with 0.
  all: unfold_consts; split_and!; try lia; try apply sha256_blen; try by apply blen_zeros.
  all: unfold cmra_regions, region; repeat apply Forall_cons_2; try apply Forall_nil_2.
  all: unfold SerializedRegion_typed, fits, ci_crypto_end; unfold_consts; cbn; nia.
Qed.

(** [cbn] on the fields of the image, with the case that [image_cases] chose. *)
Ltac image_fields_of :=
  unfold root_auth_present, key_wrap_present;
  cbn [cmra_image mi_layout_flags mi_volume_header_offset mi_volume_header_length
       mi_crypto_header_offset mi_crypto_header_length mi_key_wrap_table_offset
       mi_key_wrap_table_length mi_block_records_offset mi_block_records_length mi_block_count
       mi_manifest_footer_offset mi_manifest_footer_length mi_root_auth_footer_offset
       mi_root_auth_footer_length mi_volume_trailer_offset mi_volume_trailer_length
       mi_body_bytes_before_cmra mi_volume_header_sha256 mi_crypto_header_sha256
       mi_key_wrap_table_sha256 mi_manifest_footer_sha256 mi_root_auth_footer_sha256
       mi_volume_trailer_sha256 mi_regions default];
  repeat match goal with H : ci_root_auth_footer _ = _ |- _ => rewrite H
    | H : ci_root_auth_footer_offset _ = _ |- _ => rewrite H end;
  unfold ci_crypto_end; unfold_consts;
  repeat match goal with
  | |- context [Z.lor ?a ?b] => let c := eval vm_compute in (Z.lor a b) in change (Z.lor a b) with c
  | |- context [Z.land ?a ?b] => let c := eval vm_compute in (Z.land a b) in change (Z.land a b) with c
  end;
  cbn [default id]; try change (bytes_eqb (zeros 32) (zeros 32)) with true.

Lemma built_image_layout :
  check_fixed_layout image = Ok tt /\ check_root_auth_fields image = Ok tt.
Proof.
  image_cases; unfold check_fixed_layout, check_root_auth_fields; image_fields_of.
  all: unfold fits in *; split; run; done.
Qed.

Lemma built_image_equations :
  image_block_record_len_from_region image
  = Ok (wo_block_size (ci_options input) + BLOCK_RECORD_FRAMING_LEN)
  /\ check_terminal_equations image = Ok tt.
Proof.
  split.
  - image_cases; unfold image_block_record_len_from_region, required_region, CriticalMetadataImage_region;
      image_fields_of; unfold cmra_regions, region; cbn [app List.find sr_region_type Z.eqb Pos.eqb ok_or];
      rewrite bind_ret; cbn [sr_bytes]; rewrite Hcrypto, bind_ret, Hprofile, bind_ret, Hbs; done.
  - image_cases; unfold check_terminal_equations, expected_block_records_offset, required_region,
      CriticalMetadataImage_region; image_fields_of; unfold fits in *;
      unfold cmra_regions, region; cbn [app List.find sr_region_type Z.eqb Pos.eqb sr_offset sr_bytes];
      unfold ci_crypto_end; unfold_consts; run_with ltac:(cbn [sr_offset sr_bytes]; lia); done.
Qed.

Lemma built_image_regions : check_regions image = Ok tt /\ check_region_digests image = Ok tt.
Proof.
  split.
  - image_cases; unfold check_regions, validate_image_region, required_region, CriticalMetadataImage_region;
      image_fields_of; unfold cmra_regions, region; rewrite Efoot, Eoff; unfold ci_crypto_end; unfold_consts;
      cbn [app List.find sr_region_type Z.eqb Pos.eqb map];
      run_with ltac:(solve [cbn [sr_offset sr_bytes]; lia | reflexivity]); done.
  - image_cases; unfold check_region_digests, check_optional_digest, check_digest, sha256_region,
      required_region, CriticalMetadataImage_region;
      image_fields_of; unfold cmra_regions, region; rewrite Efoot, Eoff;
      cbn [app List.find sr_region_type Z.eqb Pos.eqb map fmap option_fmap option_map];
      run_with ltac:(solve [lia | apply negb_false_iff; by apply bytes_eqb_eq]); done.
Qed.

(** The reader accepts the image that the writer made. *)
Lemma built_image_accepted mode : validate_critical_metadata_image image mode = Ok tt.
Proof.
  destruct built_image_layout as [H1 H2]. destruct built_image_equations as [H3 H4].
  destruct built_image_regions as [H5 H6].
  unfold validate_critical_metadata_image. rewrite reject_if_false, bind_ret.
  - rewrite H1, bind_ret, H2, bind_ret, H3, bind_ret.
    enough (check_block_records_length image mode (wo_block_size (ci_options input) + BLOCK_RECORD_FRAMING_LEN) = Ok tt) as ->
      by (rewrite bind_ret, H4, bind_ret, H5, bind_ret; done).
    clear -Hok Hbuild. image_cases; unfold check_block_records_length, checked_mul; image_fields_of; unfold_consts;
      destruct mode; unfold fits in *; rewrite ?Z.mod_mul by lia; run; try done;
      rewrite (proj2 (Z.ltb_lt _ _)) by lia; run; done.
  - image_cases; unfold CriticalMetadataImage_region; image_fields_of; unfold cmra_regions, region; rewrite Efoot, Eoff;
      cbn [app List.find sr_region_type Z.eqb Pos.eqb]; done.
Qed.

(** Its serialization is within the reader's bounds. *)
Lemma built_image_length : 940 <= 368 + blen (regions_bytes (mi_regions image)) <= 1278808.
Proof.
  image_cases; image_fields_of; unfold cmra_regions, region; rewrite Efoot, Eoff; cbn [app];
    rewrite !blen_regions_cons; unfold SerializedRegion_encoded_len; cbn [sr_bytes];
    change (blen (regions_bytes [])) with 0; unfold_consts; lia.
Qed.
End Built.
End Image.

(** ** The area that is written *)
Definition built_tuple (built : BuiltCmra) : CmraDecoderTuple := {|
  ct_shard_size := bc_shard_size built;
  ct_data_shard_count := bc_data_shard_count built;
  ct_parity_shard_count := bc_parity_shard_count built;
  ct_image_length := bc_image_length built;
  ct_image_sha256 := bc_image_sha256 built |}.

Definition input_hints (input : CmraBuildInput) : CmraIdentityHints := {|
  ih_archive_uuid := ci_archive_uuid input;
  ih_session_id := ci_session_id input;
  ih_volume_index := ci_volume_index input |}.

Section Area.
Context {C : Crc32c} {Sha : Sha256} {T : Target}.

Definition built_header (input : CmraBuildInput) (built : BuiltCmra)
    : CriticalMetadataRecoveryHeader := {|
  rh_shard_size := bc_shard_size built;
  rh_data_shard_count := bc_data_shard_count built;
  rh_parity_shard_count := bc_parity_shard_count built;
  rh_image_length := bc_image_length built;
  rh_archive_uuid_hint := ci_archive_uuid input;
  rh_session_id_hint := ci_session_id input;
  rh_volume_index_hint := ci_volume_index input;
  rh_image_sha256 := bc_image_sha256 built;
  rh_header_crc32c := 0 |}.

(** Everything there is to know of a built area. *)
Record built_area (input : CmraBuildInput) (built : BuiltCmra) (image : CriticalMetadataImage)
    (b : bytes) (D P : nat) (parity : list bytes) : Prop := {
  ba_image : build_cmra_image input = Ok image;
  ba_bytes : CriticalMetadataImage_to_bytes image = Ok b;
  ba_size : bc_shard_size built = CMRA_SHARD_SIZE;
  ba_length : bc_image_length built = blen b;
  ba_sha : bc_image_sha256 built = sha256 b;
  ba_data_count : bc_data_shard_count built = Z.of_nat D;
  ba_D : Z.of_nat D = cdiv (blen b) CMRA_SHARD_SIZE;
  ba_parity_count : bc_parity_shard_count built = Z.of_nat P;
  ba_P : Z.of_nat P = Z.max 2 (cdiv (Z.of_nat D * wo_bit_rot_buffer_pct (ci_options input)) 100);
  ba_P_max : Z.of_nat P <= Z.max 2 (Z.of_nat D);
  ba_encode : encode_parity_gf16 (map (cmra_data_shard b) (seq 0 D)) P = Ok parity;
  ba_area : bc_bytes built
    = CriticalMetadataRecoveryHeader_to_bytes (built_header input built)
      ++ concat (shard_frames 0 (cmra_payload_len (blen b) (Z.of_nat D)) 0 0
                   (map (cmra_data_shard b) (seq 0 D))
                 ++ shard_frames 1 (fun _ => CMRA_SHARD_SIZE) (Z.of_nat D) 0 parity)
}.

Lemma to_bytes_revision image b :
  CriticalMetadataImage_to_bytes image = Ok b -> mi_volume_format_rev image = VOLUME_FORMAT_REV_45.
Proof.
  unfold CriticalMetadataImage_to_bytes, critical_metadata_image_fixed_len. intros H. ok_inv_writer. lia.
Qed.

(** The serialization of the image, and its length. *)
Lemma built_image_bytes input image b :
  cmra_input_ok input -> build_cmra_image input = Ok image ->
  CriticalMetadataImage_to_bytes image = Ok b ->
  CriticalMetadataImage_parse b = Ok image
  /\ (forall mode, validate_critical_metadata_image image mode = Ok tt)
  /\ 940 <= blen b <= 1278808.
Proof.
  intros Hok Him Hb. pose proof (to_bytes_revision _ _ Hb) as Hrev.
  assert (ci_volume_format_rev input = VOLUME_FORMAT_REV_45) as Hrev'
    by (destruct (build_cmra_image_Ok _ _ Him) as (-> & _); exact Hrev).
  pose proof (built_image_valid input image Hok Him Hrev') as Hv.
  rewrite CriticalMetadataImage_to_bytes_valid in Hb by done. injection Hb as <-.
  split; [by apply CriticalMetadataImage_parse_complete|]. split.
  { intros mode. by apply (built_image_accepted input). }
  pose proof (proj1 (image_segments _ image (proj1 Hv)) eq_refl) as (-> & _).
  by apply (built_image_length input).
Qed.

Lemma data_shards_same_size b D : same_size 256 (map (cmra_data_shard b) (seq 0 D)).
Proof.
  apply Forall_map, Forall_forall. intros i _. pose proof (blen_cmra_data_shard b i) as H.
  unfold blen, CMRA_SHARD_SIZE in H. lia.
Qed.

Lemma parity_same_size b D P parity :
  encode_parity_gf16 (map (cmra_data_shard b) (seq 0 D)) P = Ok parity ->
  length parity = P /\ Forall (fun p => blen p = CMRA_SHARD_SIZE) parity
  /\ (0 < D)%nat /\ Z.of_nat (D + P) <= 65535.
Proof.
  intros Henc. pose proof (encode_Ok_shape _ _ _ Henc) as (Hne & Hc & _).
  rewrite length_map, length_seq in Hc.
  destruct (encode_parity_spec 256 (map (cmra_data_shard b) (seq 0 D)) P) as (parity' & Henc' & HlP & Hpar).
  - apply data_shards_same_size.
  - done.
  - by rewrite length_map, length_seq.
  - rewrite Henc in Henc'. injection Henc' as <-. split; [done|]. split; [|split; [|done]].
    + apply Forall_lookup_2. intros j p Hj. destruct (Hpar j p Hj) as [Hl _].
      unfold blen, CMRA_SHARD_SIZE. lia.
    + destruct D; [done|lia].
Qed.

Lemma cmra_payload_len_range L D i :
  0 < L -> Z.of_nat D = cdiv L CMRA_SHARD_SIZE -> (i < D)%nat ->
  0 < cmra_payload_len L (Z.of_nat D) i <= CMRA_SHARD_SIZE
  /\ (Z.of_nat i + 1 = Z.of_nat D ->
      cmra_payload_len L (Z.of_nat D) i = L - Z.of_nat i * CMRA_SHARD_SIZE)
  /\ (Z.of_nat i + 1 <> Z.of_nat D -> cmra_payload_len L (Z.of_nat D) i = CMRA_SHARD_SIZE).
Proof.
  intros HL HD Hi. pose proof (cdiv_spec L CMRA_SHARD_SIZE ltac:(done)) as Hc. rewrite <- HD in Hc.
  unfold cmra_payload_len, CMRA_SHARD_SIZE in *. repeat case_match; lia.
Qed.

Lemma build_v45_cmra_spec input built :
  cmra_input_ok input -> build_v45_cmra input = Ok built ->
  exists image b D P parity, built_area input built image b D P parity.
Proof.
  intros Hok H. unfold build_v45_cmra, cmra_min_parity_shards in H. ok_inv_writer.
  rename x into image, x0 into b, x1 into d, x7 into parity.
  destruct (built_image_bytes input image b) as (_ & _ & HL); [done..|].
  repeat match goal with H : ceil_div _ _ = Ok _ |- _ => apply ceil_div_Ok in H as (_ & _ & ?) end.
  set (D := Z.to_nat d) in *. assert (d = Z.of_nat D) as Hd by (unfold D, fits in *; lia).
  clearbody D. rewrite !Hd in *. set (p := 2 `max` x14) in *.
  set (P := Z.to_nat p) in *. assert (p = Z.of_nat P) as Hp by (unfold P, p; lia). rewrite ?Hp in *.
  destruct (parity_same_size b D P parity) as (HlP & HsP & HD & Htot); [done|].
  rewrite append_cmra_shards_Ok in H9; [|lia|rewrite length_map, length_seq; lia| |].
  2: { intros i. rewrite length_map, length_seq, Nat.add_0_l. intros Hi.
       destruct (cmra_payload_len_range (blen b) D i) as [Hr _]; [lia|congruence|done|].
       cbn [Nat.add]. unfold fits, CMRA_SHARD_SIZE in *. lia. }
  2: { apply Forall_map, Forall_forall. intros i _. apply blen_cmra_data_shard. }
  injection H9 as <-.
  rewrite append_cmra_shards_Ok in H10; [|lia|lia|unfold fits, CMRA_SHARD_SIZE; lia|done].
  injection H10 as <-. exists image, b, D, P, parity.
  split; cbn [bc_bytes bc_shard_size bc_data_shard_count bc_parity_shard_count bc_image_length
              bc_image_sha256]; try done.
  - unfold p in Hp. rewrite <- Hp, H6. done.
  - pose proof (cdiv_spec (Z.of_nat D * 100) 100 ltac:(done)). unfold READER_MAX_CMRA_PARITY_PCT in *.
    match goal with H : (Z.max 2 _ <? Z.of_nat P) = false |- _ => apply Z.ltb_ge in H; lia end.
  - rewrite concat_app, <- app_assoc. done.
Qed.

(** The writer builds the area of every image that it could lay out. *)
Lemma build_v45_cmra_total input image :
  cmra_input_ok input -> build_cmra_image input = Ok image ->
  ci_volume_format_rev input = VOLUME_FORMAT_REV_45 ->
  wo_bit_rot_buffer_pct (ci_options input) <= 100 ->
  exists built, build_v45_cmra input = Ok built.
Proof.
  intros Hok Him Hrev Hpct.
  pose proof (built_image_valid input image Hok Him Hrev) as Hv.
  pose proof (CriticalMetadataImage_to_bytes_valid image Hv) as Hb. set (b := image_bytes image) in *.
  destruct (built_image_bytes input image b) as (_ & _ & HL); [done..|].
  assert (0 <= wo_bit_rot_buffer_pct (ci_options input)) as Hpct0.
  { pose proof (io_typed _ Hok) as HT. unfold CmraBuildInput_typed, fits in HT. lia. }
  pose proof (cdiv_spec (blen b) CMRA_SHARD_SIZE ltac:(done)) as Hd.
  set (d := cdiv (blen b) CMRA_SHARD_SIZE) in *. unfold CMRA_SHARD_SIZE in Hd.
  pose proof (cdiv_spec (d * wo_bit_rot_buffer_pct (ci_options input)) 100 ltac:(done)) as Hp.
  set (p := cdiv (d * wo_bit_rot_buffer_pct (ci_options input)) 100) in *.
  pose proof (cdiv_spec (d * 100) 100 ltac:(done)) as Hu. set (u := cdiv (d * 100) 100) in *.
  assert (0 <= d * wo_bit_rot_buffer_pct (ci_options input) <= d * 100) as Hdp by nia.
  unfold build_v45_cmra, cmra_min_parity_shards, WriterPlan.checked_u64_mul, checked_mul.
  rewrite Him, bind_ret, Hb, bind_ret. cbv zeta.
  rewrite (proj2 (ceil_div_Ok _ _ d)), bind_ret by (unfold CMRA_SHARD_SIZE; split_and!; lia || done).
  rewrite (ok_or_eq _ d), bind_ret by (apply try_from_Some; unfold fits; lia).
  change READER_MAX_CMRA_PARITY_PCT with 100.
  rewrite !(proj2 (Z.ltb_lt _ (2 ^ 64))) by lia. cbn [ok_or]. rewrite !bind_ret.
  rewrite (proj2 (ceil_div_Ok (d * wo_bit_rot_buffer_pct _) 100 p)) by (split_and!; lia || done).
  rewrite (proj2 (ceil_div_Ok (d * 100) 100 u)) by (split_and!; lia || done).
  rewrite !bind_ret, !mret_eq, !bind_ret.
  rewrite (reject_if_false (Z.max 2 u <? Z.max 2 p)), bind_ret by lia.
  rewrite (ok_or_eq _ (Z.max 2 p)), bind_ret by (apply try_from_Some; unfold fits; lia).
  set (D := Z.to_nat d). set (P := Z.to_nat (Z.max 2 p)).
  destruct (encode_parity_spec 256 (map (cmra_data_shard b) (seq 0 D)) P) as (parity & Henc & HlP & _).
  { apply data_shards_same_size. }
  { unfold D. destruct (Z.to_nat d) eqn:E; [lia|done]. }
  { rewrite length_map, length_seq. lia. }
  destruct (parity_same_size b D P parity Henc) as (_ & HsP & _ & _).
  rewrite Henc, bind_ret, u32_len_eq, bind_ret by (unfold fits; lia).
  replace d with (Z.of_nat D) by lia.
  rewrite append_cmra_shards_Ok, bind_ret; [|lia|rewrite length_map, length_seq; lia| |].
  2: { intros i. rewrite length_map, length_seq. intros Hi. cbn [Nat.add].
       destruct (cmra_payload_len_range (blen b) D i) as [Hr _]; [lia|fold d; lia|done|].
       unfold fits, CMRA_SHARD_SIZE in *. lia. }
  2: { apply Forall_map, Forall_forall. intros i _. apply blen_cmra_data_shard. }
  rewrite append_cmra_shards_Ok, bind_ret; [|lia|lia|unfold fits, CMRA_SHARD_SIZE; lia|done].
  by eexists.
Qed.

(** ** Damage *)

(** A copy of the area in which every row is either as it was written or is
    recognised as damaged: its magic, its fixed fields or its checksum is wrong. *)
Definition cmra_damaged (built : BuiltCmra) (received : bytes) : Prop :=
  blen received = blen (bc_bytes built)
  /\ forall i, Z.of_nat i < bc_data_shard_count built + bc_parity_shard_count built ->
       area_row received (bc_shard_size built) i = area_row (bc_bytes built) (bc_shard_size built) i
       \/ row_readable received (bc_shard_size built) i = false.

(** The rows that can still be read, out of [n] from row [first]. *)
Definition readable_rows (received : bytes) (shard_size : Z) (first n : nat) : nat :=
  length (List.filter (row_readable received shard_size) (seq first n)).

Section Damaged.
Context (input : CmraBuildInput) (built : BuiltCmra) (image : CriticalMetadataImage) (b : bytes)
  (D P : nat) (parity : list bytes).
Hypotheses (Hok : cmra_input_ok input) (Hba : built_area input built image b D P parity).

Let data := map (cmra_data_shard b) (seq 0 D).

Lemma lookup_data i : (i < D)%nat -> data !! i = Some (cmra_data_shard b i).
Proof. intros Hi. unfold data. rewrite list_lookup_fmap, lookup_seq_lt by done. done. Qed.

Lemma built_counts :
  length data = D /\ length parity = P /\ (0 < D)%nat /\ Z.of_nat (D + P) <= 65535
  /\ 940 <= blen b <= 1278808 /\ Forall (fun p => blen p = CMRA_SHARD_SIZE) (data ++ parity).
Proof.
  destruct (parity_same_size b D P parity (ba_encode _ _ _ _ _ _ _ Hba)) as (H1 & H2 & H3 & H4).
  destruct (built_image_bytes input image b Hok (ba_image _ _ _ _ _ _ _ Hba) (ba_bytes _ _ _ _ _ _ _ Hba))
    as (_ & _ & HL).
  split; [unfold data; by rewrite length_map, length_seq|]. split; [done|]. split; [done|].
  split; [done|]. split; [done|]. apply Forall_app_2; [|done].
  apply Forall_map, Forall_forall. intros i _. apply blen_cmra_data_shard.
Qed.

(** The shard in row [i]. *)
Definition row_shard (i : nat) (p : bytes) : CriticalMetadataRecoveryShard :=
  if (i <? D)%nat then written_shard 0 (cmra_payload_len (blen b) (Z.of_nat D)) 0 i p
  else written_shard 1 (fun _ => CMRA_SHARD_SIZE) (Z.of_nat D) (i - D) p.

(** The header, as it is read back. *)
Lemma built_header_parses :
  exists crc,
    CriticalMetadataRecoveryHeader_parse (CriticalMetadataRecoveryHeader_to_bytes (built_header input built))
    = Ok {| rh_shard_size := bc_shard_size built;
            rh_data_shard_count := bc_data_shard_count built;
            rh_parity_shard_count := bc_parity_shard_count built;
            rh_image_length := bc_image_length built;
            rh_archive_uuid_hint := ci_archive_uuid input;
            rh_session_id_hint := ci_session_id input;
            rh_volume_index_hint := ci_volume_index input;
            rh_image_sha256 := bc_image_sha256 built;
            rh_header_crc32c := crc |}.
Proof.
  set (h := CriticalMetadataRecoveryHeader_to_bytes _).
  exists (crc32c (seg h 0 112)). destruct built_counts as (_ & _ & _ & Htot & HL & _).
  pose proof (io_typed _ Hok) as HT. unfold CmraBuildInput_typed in HT.
  apply CriticalMetadataRecoveryHeader_decode_iff. split; [|done].
  split; [|done]. unfold CriticalMetadataRecoveryHeader_typed.
  cbn [rh_shard_size rh_data_shard_count rh_parity_shard_count rh_image_length rh_archive_uuid_hint
       rh_session_id_hint rh_volume_index_hint rh_image_sha256].
  destruct Hba as [_ _ -> -> -> -> _ -> _ _ _ _].
  split_and!; try apply HT; try apply sha256_blen; unfold fits, CMRA_SHARD_SIZE; lia.
Qed.

Lemma blen_built_header : blen (CriticalMetadataRecoveryHeader_to_bytes (built_header input built)) = 116.
Proof.
  destruct built_header_parses as [crc H]. unfold CriticalMetadataRecoveryHeader_parse in H.
  apply bind_Ok in H as (u & H & _). by apply expect_len_Ok in H.
Qed.

Lemma blen_area : blen (bc_bytes built) = 116 + Z.of_nat (D + P) * (16 + CMRA_SHARD_SIZE).
Proof.
  destruct built_counts as (Hl1 & Hl2 & _ & _ & _ & Hs). apply Forall_app in Hs as [Hs1 Hs2].
  rewrite (ba_area _ _ _ _ _ _ _ Hba), blen_app, blen_built_header.
  rewrite (blen_concat _ (16 + CMRA_SHARD_SIZE)) by (apply Forall_app_2; by apply blen_shard_frames).
  rewrite length_app, !length_shard_frames, Hl2. fold data. by rewrite Hl1.
Qed.

Lemma sent_row i p :
  (data ++ parity) !! i = Some p ->
  area_row (bc_bytes built) CMRA_SHARD_SIZE i = shard_frame (row_shard i p).
Proof.
  intros Hi. destruct built_counts as (Hl1 & Hl2 & _ & _ & _ & Hs). apply Forall_app in Hs as [Hs1 Hs2].
  unfold area_row. rewrite (ba_area _ _ _ _ _ _ _ Hba). fold data.
  unfold CRITICAL_METADATA_RECOVERY_HEADER_LEN.
  rewrite seg_app_r by (rewrite blen_built_header; unfold CMRA_SHARD_SIZE; lia).
  rewrite blen_built_header.
  replace (116 + Z.of_nat i * (16 + CMRA_SHARD_SIZE) - 116) with (Z.of_nat i * (16 + CMRA_SHARD_SIZE)) by lia.
  replace (116 + (Z.of_nat i + 1) * (16 + CMRA_SHARD_SIZE) - 116) with ((Z.of_nat i + 1) * (16 + CMRA_SHARD_SIZE)) by lia.
  apply seg_concat; [done|apply Forall_app_2; by apply blen_shard_frames|]. unfold row_shard.
  destruct (Nat.ltb_spec i D).
  - rewrite lookup_app_l in Hi |- * by (rewrite ?length_shard_frames; lia). by apply lookup_shard_frames.
  - rewrite lookup_app_r in Hi |- * by (rewrite ?length_shard_frames; lia).
    rewrite length_shard_frames, Hl1 in *. by apply lookup_shard_frames.
Qed.

Lemma row_shard_parses i p :
  (data ++ parity) !! i = Some p ->
  exists crc, CriticalMetadataRecoveryShard_parse (shard_frame (row_shard i p)) CMRA_SHARD_SIZE
  = Ok {| rs_shard_index := Z.of_nat i; rs_shard_role := if (i <? D)%nat then 0 else 1;
          rs_shard_payload_length :=
            if (i <? D)%nat then cmra_payload_len (blen b) (Z.of_nat D) i else CMRA_SHARD_SIZE;
          rs_payload := p; rs_shard_crc32c := crc |}.
Proof.
  intros Hi. destruct built_counts as (Hl1 & Hl2 & _ & Htot & HL & Hs).
  pose proof (Forall_lookup_1 _ _ _ _ Hs Hi) as Hp. cbn beta in Hp.
  apply lookup_lt_Some in Hi. rewrite length_app, Hl1, Hl2 in Hi.
  exists (crc32c (shard_head (row_shard i p) ++ p)).
  assert (rs_payload (row_shard i p) = p) as Hpay by (unfold row_shard; by case_match).
  assert (rs_shard_index (row_shard i p) = Z.of_nat i) as Hidx
    by (unfold row_shard; destruct (Nat.ltb_spec i D); cbn; lia).
  assert (rs_shard_role (row_shard i p) = if (i <? D)%nat then 0 else 1) as Hrole
    by (unfold row_shard; by case_match).
  assert (rs_shard_payload_length (row_shard i p)
    = if (i <? D)%nat then cmra_payload_len (blen b) (Z.of_nat D) i else CMRA_SHARD_SIZE) as Hlen
    by (unfold row_shard; by case_match).
  assert (0 < rs_shard_payload_length (row_shard i p) <= CMRA_SHARD_SIZE) as Hr.
  { rewrite Hlen. destruct (Nat.ltb_spec i D); [|unfold CMRA_SHARD_SIZE; lia].
    apply cmra_payload_len_range; [lia|apply (ba_D _ _ _ _ _ _ _ Hba)|done]. }
  rewrite shard_frame_parses; rewrite ?Hpay, ?Hidx, ?Hrole.
  - by rewrite Hlen.
  - unfold fits. lia.
  - case_match; lia.
  - unfold fits, CMRA_SHARD_SIZE in *. lia.
  - lia.
  - done.
Qed.

(** The reader's check of a shard that was written. *)
Lemma row_shard_valid i p s :
  (data ++ parity) !! i = Some p ->
  CriticalMetadataRecoveryShard_parse (shard_frame (row_shard i p)) CMRA_SHARD_SIZE = Ok s ->
  validate_cmra_shard s (Z.of_nat i) (built_tuple built) = Ok tt
  /\ rs_shard_role s = (if (i <? D)%nat then 0 else 1) /\ rs_payload s = p.
Proof.
  intros Hi Hs. destruct (row_shard_parses i p Hi) as [crc Hp]. rewrite Hp in Hs. injection Hs as <-.
  split; [|done]. destruct built_counts as (Hl1 & Hl2 & _ & Htot & HL & _).
  unfold validate_cmra_shard. cbn [rs_shard_index rs_shard_role rs_shard_payload_length rs_payload].
  unfold built_tuple. cbn [ct_data_shard_count ct_shard_size ct_image_length].
  destruct Hba as [_ _ Hsize Hlen _ Hdc HD _ _ _ _ _]. rewrite Hsize, Hlen, Hdc.
  destruct (Nat.ltb_spec i D) as [Hlt|Hge]; [|run; done].
  destruct (cmra_payload_len_range (blen b) D i) as (Hr & Hlast & Hother); [lia|done|done|].
  rewrite lookup_app_l, lookup_data in Hi by lia. injection Hi as <-.
  destruct (Z.eqb_spec (Z.of_nat i + 1) (Z.of_nat D)) as [E|E].
  - specialize (Hlast E). unfold usize_sub. rewrite checked_sub_eq by lia.
    rewrite bind_ret, mret_eq. rewrite (proj2 (Z.eqb_neq (blen b - _) 0)) by lia.
    run_with ltac:(rewrite ?blen_cmra_data_shard; lia).
    rewrite reject_if_false; [done|]. apply negb_false_iff, all_zero_iff.
    rewrite cmra_data_shard_eq by lia. set (s1 := seg b _ _).
    assert (blen s1 = blen b - Z.of_nat i * CMRA_SHARD_SIZE) as Hs1
      by (unfold s1; rewrite blen_seg; unfold CMRA_SHARD_SIZE in *; lia).
    rewrite blen_app, seg_app_r by lia. rewrite <- Hs1, Z.sub_diag, blen_zeros by lia.
    replace (blen s1 + _ - blen s1) with (Z.max 0 ((Z.of_nat i + 1) * CMRA_SHARD_SIZE - blen b)) by lia.
    rewrite seg_zeros by lia. by rewrite Z.sub_0_r, blen_zeros by lia.
  - specialize (Hother E). run. done.
Qed.

Section Received.
Context (received : bytes).
Hypothesis (Hdam : cmra_damaged built received).

Let slot := area_slot received CMRA_SHARD_SIZE (data ++ parity).

Lemma received_row i s :
  (i < D + P)%nat ->
  CriticalMetadataRecoveryShard_parse (area_row received CMRA_SHARD_SIZE i) CMRA_SHARD_SIZE = Ok s ->
  validate_cmra_shard s (Z.of_nat i) (built_tuple built) = Ok tt
  /\ rs_shard_role s = (if (i <? D)%nat then 0 else 1)
  /\ (data ++ parity) !! i = Some (rs_payload s).
Proof.
  intros Hi Hs. destruct built_counts as (Hl1 & Hl2 & _).
  destruct Hdam as [_ Hrows]. destruct Hba as [_ _ Hsize _ _ Hdc _ Hpc _ _ _ _].
  rewrite Hsize, Hdc, Hpc in Hrows. destruct (Hrows i ltac:(lia)) as [E|E].
  - destruct (lookup_lt_is_Some_2 (data ++ parity) i) as [p Hp]; [rewrite length_app; lia|].
    rewrite E, (sent_row i p Hp) in Hs.
    destruct (row_shard_valid i p s Hp Hs) as (H1 & H2 & H3). rewrite Hp. by rewrite H3.
  - unfold row_readable in E. by rewrite Hs in E.
Qed.

Lemma received_slots :
  collect_cmra_shards (D + P) received (built_tuple built) 0 CRITICAL_METADATA_RECOVERY_HEADER_LEN
    (replicate D None) (replicate P None)
  = Ok (map slot (seq 0 D), map slot (seq D P)).
Proof.
  pose proof blen_area as Hlen. destruct Hdam as [Hl _]. rewrite <- Hl in Hlen.
  destruct built_counts as (_ & _ & _ & Htot & _).
  pose proof (ba_size _ _ _ _ _ _ _ Hba) as Hsize.
  assert (ct_shard_size (built_tuple built) = CMRA_SHARD_SIZE) as Hct by done.
  pose proof (collect_area received (built_tuple built) (data ++ parity) D P) as Hc.
  rewrite Hct in Hc. apply Hc.
  - apply (ba_data_count _ _ _ _ _ _ _ Hba).
  - done.
  - unfold CRITICAL_METADATA_RECOVERY_HEADER_LEN. lia.
  - unfold CMRA_SHARD_SIZE in *. lia.
  - apply received_row.
Qed.

Lemma slot_cases i p :
  (data ++ parity) !! i = Some p -> slot i = None \/ slot i = Some p.
Proof. intros Hi. unfold slot, area_slot. rewrite Hi. case_match; auto. Qed.

Lemma received_erased : erased data (map slot (seq 0 D)) /\ erased parity (map slot (seq D P)).
Proof.
  destruct built_counts as (Hl1 & Hl2 & _). unfold erased. split.
  - apply Forall2_same_length_lookup_2; [by rewrite length_map, length_seq|].
    intros i p o Hp Ho. rewrite list_lookup_fmap in Ho. pose proof (lookup_lt_Some _ _ _ Hp).
    rewrite lookup_seq_lt in Ho by lia. injection Ho as <-. apply slot_cases.
    rewrite lookup_app_l by lia. done.
  - apply Forall2_same_length_lookup_2; [by rewrite length_map, length_seq|].
    intros i p o Hp Ho. rewrite list_lookup_fmap in Ho. pose proof (lookup_lt_Some _ _ _ Hp).
    rewrite lookup_seq_lt in Ho by lia. injection Ho as <-. apply slot_cases.
    rewrite lookup_app_r by lia. rewrite Hl1. by replace (D + i - D)%nat with i by lia.
Qed.

Lemma received_present first n :
  (first + n <= D + P)%nat ->
  present (map slot (seq first n)) = readable_rows received CMRA_SHARD_SIZE first n.
Proof.
  destruct built_counts as (Hl1 & Hl2 & _). unfold present, readable_rows.
  revert first. induction n as [|n IH]; intros first Hn; [done|]. cbn [seq map List.filter].
  destruct (lookup_lt_is_Some_2 (data ++ parity) first) as [p Hp]; [rewrite length_app; lia|].
  assert (slot first = if row_readable received CMRA_SHARD_SIZE first then Some p else None) as Hs
    by (unfold slot, area_slot; by rewrite Hp).
  specialize (IH (S first) ltac:(lia)). cbn [omap list_omap]. rewrite Hs.
  destruct (row_readable _ _ first); cbn [id length]; lia.
Qed.

(** Every area with enough readable rows gives the image back. *)
Lemma recover_received hints cmra_length mode :
  (D <= readable_rows received CMRA_SHARD_SIZE 0 (D + P))%nat ->
  (readable_rows received CMRA_SHARD_SIZE 0 D = D \/ Z.of_nat D <= READER_MAX_REPAIR_TOTAL_SHARDS) ->
  recover_cmra_from_bytes received (built_tuple built) hints cmra_length mode
  = Ok {| rc_image := image; rc_tuple := built_tuple built; rc_header_hints := hints;
          rc_cmra_length := cmra_length |}.
Proof.
  intros Hread Hmax. destruct built_counts as (Hl1 & Hl2 & HD & Htot & HL & _).
  destruct received_erased as [He1 He2].
  pose proof (ba_size _ _ _ _ _ _ _ Hba) as Hsize. pose proof (ba_encode _ _ _ _ _ _ _ Hba) as Henc.
  destruct (built_image_bytes input image b Hok (ba_image _ _ _ _ _ _ _ Hba) (ba_bytes _ _ _ _ _ _ _ Hba))
    as (Hparse & Haccept & _).
  pose proof (ba_D _ _ _ _ _ _ _ Hba) as HDc.
  pose proof (cdiv_spec (blen b) CMRA_SHARD_SIZE ltac:(done)) as Hc. rewrite <- HDc in Hc.
  assert (readable_rows received CMRA_SHARD_SIZE 0 (D + P)
    = readable_rows received CMRA_SHARD_SIZE 0 D + readable_rows received CMRA_SHARD_SIZE D P)%nat as Hsum.
  { unfold readable_rows. by rewrite seq_app, List.filter_app, length_app. }
  assert (repair_data_gf16 (map slot (seq 0 D)) (map slot (seq D P)) CMRA_SHARD_SIZE = Ok data) as Hrep.
  { change CMRA_SHARD_SIZE with (2 * Z.of_nat 256).
    apply (repair_erased 256 data P parity); [done|apply data_shards_same_size|done|done|..].
    - rewrite !received_present by lia. lia.
    - rewrite received_present by lia. lia. }
  unfold recover_cmra_from_bytes.
  change (ct_data_shard_count (built_tuple built)) with (bc_data_shard_count built).
  change (ct_parity_shard_count (built_tuple built)) with (bc_parity_shard_count built).
  change (ct_shard_size (built_tuple built)) with (bc_shard_size built).
  change (ct_image_length (built_tuple built)) with (bc_image_length built).
  change (ct_image_sha256 (built_tuple built)) with (bc_image_sha256 built).
  rewrite (ba_data_count _ _ _ _ _ _ _ Hba), (ba_parity_count _ _ _ _ _ _ _ Hba), !Nat2Z.id, Hsize.
  cbv zeta. rewrite received_slots, bind_ret. cbv beta iota. rewrite Hrep, bind_ret.
  rewrite (ba_length _ _ _ _ _ _ _ Hba), (ba_sha _ _ _ _ _ _ _ Hba).
  unfold data. rewrite data_shards_image by lia.
  rewrite reject_if_false, bind_ret by (apply negb_false_iff; by apply bytes_eqb_eq).
  rewrite Hparse, bind_ret, Haccept, bind_ret. done.
Qed.
End Received.

(** ** Wiped rows *)
Section Wiped.
Context (lost : nat -> bool).

Definition wiped_row (i : nat) : bytes :=
  if lost i then zeros (16 + CMRA_SHARD_SIZE) else area_row (bc_bytes built) CMRA_SHARD_SIZE i.

(** The area with zeros in the place of the rows in [lost]. *)
Definition wiped_area : bytes :=
  seg (bc_bytes built) 0 CRITICAL_METADATA_RECOVERY_HEADER_LEN
  ++ concat (map wiped_row (seq 0 (D + P))).

Lemma blen_wiped_rows : Forall (fun r => blen r = 16 + CMRA_SHARD_SIZE) (map wiped_row (seq 0 (D + P))).
Proof.
  apply Forall_map, Forall_forall. intros i Hi%elem_of_seq. unfold wiped_row.
  pose proof blen_area as Hl. case_match; [by apply blen_zeros|].
  unfold area_row, CRITICAL_METADATA_RECOVERY_HEADER_LEN, CMRA_SHARD_SIZE in *. rewrite blen_seg; lia.
Qed.

Lemma blen_wiped_area : blen wiped_area = blen (bc_bytes built).
Proof.
  pose proof blen_area as Hl. unfold wiped_area, CRITICAL_METADATA_RECOVERY_HEADER_LEN.
  rewrite blen_app, (blen_concat _ _ blen_wiped_rows), length_map, length_seq, blen_seg;
    unfold CMRA_SHARD_SIZE in *; lia.
Qed.

Lemma wiped_area_row i : (i < D + P)%nat -> area_row wiped_area CMRA_SHARD_SIZE i = wiped_row i.
Proof.
  intros Hi. pose proof blen_area as Hl. unfold area_row at 1, wiped_area.
  unfold CRITICAL_METADATA_RECOVERY_HEADER_LEN.
  assert (blen (seg (bc_bytes built) 0 116) = 116) as Hh by (rewrite blen_seg; unfold CMRA_SHARD_SIZE in *; lia).
  rewrite seg_app_r by (unfold CMRA_SHARD_SIZE; lia). rewrite Hh.
  replace (116 + Z.of_nat i * (16 + CMRA_SHARD_SIZE) - 116) with (Z.of_nat i * (16 + CMRA_SHARD_SIZE)) by lia.
  replace (116 + (Z.of_nat i + 1) * (16 + CMRA_SHARD_SIZE) - 116) with ((Z.of_nat i + 1) * (16 + CMRA_SHARD_SIZE)) by lia.
  apply seg_concat; [done|apply blen_wiped_rows|]. rewrite list_lookup_fmap, lookup_seq_lt by done. done.
Qed.

Lemma wiped_readable i :
  (i < D + P)%nat -> row_readable wiped_area CMRA_SHARD_SIZE i = negb (lost i).
Proof.
  intros Hi. unfold row_readable. rewrite wiped_area_row by done. unfold wiped_row.
  destruct (lost i); cbn [negb]; [by vm_compute|].
  destruct built_counts as (Hl1 & Hl2 & _).
  destruct (lookup_lt_is_Some_2 (data ++ parity) i) as [p Hp]; [rewrite length_app; lia|].
  rewrite (sent_row i p Hp). by destruct (row_shard_parses i p Hp) as [crc ->].
Qed.

Lemma wiped_damaged : cmra_damaged built wiped_area.
Proof.
  split; [apply blen_wiped_area|]. destruct Hba as [_ _ Hsize _ _ Hdc _ Hpc _ _ _ _].
  rewrite Hsize, Hdc, Hpc. intros i Hi. rewrite wiped_area_row, wiped_readable by lia.
  unfold wiped_row. destruct (lost i); auto.
Qed.

Lemma wiped_readable_rows first n :
  (first + n <= D + P)%nat ->
  readable_rows wiped_area CMRA_SHARD_SIZE first n
  = length (List.filter (fun i => negb (lost i)) (seq first n)).
Proof.
  intros Hn. unfold readable_rows. f_equal. apply filter_ext_in.
  intros i Hi%in_seq. apply wiped_readable. lia.
Qed.

Lemma wiped_header :
  seg wiped_area 0 CRITICAL_METADATA_RECOVERY_HEADER_LEN
  = seg (bc_bytes built) 0 CRITICAL_METADATA_RECOVERY_HEADER_LEN.
Proof.
  pose proof blen_area as Hl. unfold wiped_area, CRITICAL_METADATA_RECOVERY_HEADER_LEN.
  assert (blen (seg (bc_bytes built) 0 116) = 116) as Hh by (rewrite blen_seg; unfold CMRA_SHARD_SIZE in *; lia).
  rewrite seg_app_l by lia. rewrite <- Hh at 2. apply seg_full.
Qed.
End Wiped.

(** ** The whole area *)
Lemma built_tuple_valid : validate_cmra_decoder_tuple (built_tuple built) = Ok tt.
Proof.
  destruct built_counts as (_ & _ & HD & Htot & HL & _).
  destruct Hba as [_ _ Hsize Hlen _ Hdc HDc Hpc HP HPmax _ _].
  unfold validate_cmra_decoder_tuple, built_tuple.
  cbn [ct_shard_size ct_data_shard_count ct_parity_shard_count ct_image_length].
  rewrite Hsize, Hlen, Hdc, Hpc. rewrite critical_image_cap_eq.
  change critical_image_min with 940. unfold ceil_div_u64, ObjectReader.checked_u64_mul, checked_mul.
  change READER_MAX_CMRA_PARITY_PCT with 100. unfold cdiv, CMRA_SHARD_SIZE in *. change (512 - 1) with 511 in *.
  change (100 - 1) with 99 in *.
  assert ((Z.of_nat D * 100 + 99) / 100 = Z.of_nat D) as H100
    by (symmetry; apply (Z.div_unique _ _ _ 99); lia).
  assert (512 mod 2 = 0) as H512 by done.
  run. rewrite <- HDc.
  replace (Z.of_nat D * 100 <? 2 ^ 64) with true by lia. run. done.
Qed.

Lemma built_length : cmra_serialized_length (built_tuple built) = Ok (blen (bc_bytes built)).
Proof.
  rewrite blen_area. destruct built_counts as (_ & _ & _ & Htot & _).
  destruct Hba as [_ _ Hsize _ _ Hdc _ Hpc _ _ _ _].
  unfold cmra_serialized_length, built_tuple, ObjectReader.checked_u64_mul, checked_mul.
  cbn [ct_shard_size ct_data_shard_count ct_parity_shard_count].
  rewrite Hsize, Hdc, Hpc. unfold_consts. unfold CMRA_SHARD_SIZE. run.
  replace (_ <? 2 ^ 64) with true by lia. run. f_equal. lia.
Qed.
End Damaged.

(** ** Theorems *)

(** What a reader knows of the area: its header as it was written, or a
    locator that was written with it, or both. *)
Definition tuple_known (built : BuiltCmra) (area : bytes) (locator_tuple : option CmraDecoderTuple)
    : Prop :=
  (seg area 0 CRITICAL_METADATA_RECOVERY_HEADER_LEN
   = seg (bc_bytes built) 0 CRITICAL_METADATA_RECOVERY_HEADER_LEN
   /\ (locator_tuple = None \/ locator_tuple = Some (built_tuple built)))
  \/ ((exists e, CriticalMetadataRecoveryHeader_parse
                   (seg area 0 CRITICAL_METADATA_RECOVERY_HEADER_LEN) = Err e)
      /\ locator_tuple = Some (built_tuple built)).

Lemma reader_slice_eq (b : bytes) offset len s :
  0 <= offset -> 0 <= len -> offset + len <= blen b -> blen b < 2 ^ 63 ->
  reader_slice b offset len s = Ok (seg b offset (offset + len)).
Proof.
  intros H1 H2 H3 H4. unfold reader_slice, checked_add_usize.
  rewrite (ok_or_eq _ _ _ (checked_add_eq 64 offset len ltac:(lia))), bind_ret.
  apply ok_or_eq. apply get_range_Some. split_and!; lia || done.
Qed.

Lemma header_tuple_known input built image b D P parity area locator_tuple :
  cmra_input_ok input -> built_area input built image b D P parity ->
  tuple_known built area locator_tuple ->
  exists hints,
    recover_cmra_header_tuple (seg area 0 CRITICAL_METADATA_RECOVERY_HEADER_LEN) locator_tuple
    = Ok (built_tuple built, hints)
    /\ (hints = None \/ hints = Some (input_hints input)).
Proof.
  intros Hok Hba [[Harea Hloc]|[[e He] Hloc]]; unfold recover_cmra_header_tuple.
  - destruct (built_header_parses input built image b D P parity Hok Hba) as [crc Hp].
    assert (seg (bc_bytes built) 0 CRITICAL_METADATA_RECOVERY_HEADER_LEN
            = CriticalMetadataRecoveryHeader_to_bytes (built_header input built)) as Hh.
    { pose proof (blen_built_header input built image b D P parity Hok Hba) as Hl.
      rewrite (ba_area _ _ _ _ _ _ _ Hba). unfold CRITICAL_METADATA_RECOVERY_HEADER_LEN.
      rewrite seg_app_l by lia. rewrite <- Hl. apply seg_full. }
    rewrite Harea, Hh, Hp. exists (Some (input_hints input)). split; [|by right].
    destruct Hloc as [-> | ->]; [done|]. rewrite reject_if_false; [done|].
    apply bool_decide_eq_false_2. intros Hne. by apply Hne.
  - rewrite He, Hloc. exists None. split; [done|by left].
Qed.

(** C23: The recovery area survives damage.  When the writer built an area and a
    copy of it lies in a volume with some rows damaged, and its header or a
    locator is intact, then the reader recovers exactly the image that the
    writer made, provided that as many shards can still be read as the image
    has pieces; an image of more than 1024 pieces must have all of them intact. *)
Theorem recovery_area_survives input built volume offset locator_tuple mode :
  cmra_input_ok input -> build_v45_cmra input = Ok built ->
  0 <= offset -> offset + blen (bc_bytes built) <= blen volume -> blen volume < 2 ^ 63 ->
  cmra_damaged built (seg volume offset (offset + blen (bc_bytes built))) ->
  tuple_known built (seg volume offset (offset + blen (bc_bytes built))) locator_tuple ->
  let D := Z.to_nat (bc_data_shard_count built) in
  let P := Z.to_nat (bc_parity_shard_count built) in
  let readable := readable_rows (seg volume offset (offset + blen (bc_bytes built)))
                    (bc_shard_size built) 0 in
  (D <= readable (D + P))%nat ->
  (readable D = D \/ Z.of_nat D <= READER_MAX_REPAIR_TOTAL_SHARDS) ->
  exists image hints,
    build_cmra_image input = Ok image
    /\ (hints = None \/ hints = Some (input_hints input))
    /\ recover_cmra volume offset locator_tuple mode
       = Ok {| rc_image := image; rc_tuple := built_tuple built; rc_header_hints := hints;
               rc_cmra_length := blen (bc_bytes built) |}.
Proof.
  intros Hok Hbuild Ho Hend Hmem. set (area := seg volume offset _). intros Hdam Htup D P readable Hread Hmax.
  destruct (build_v45_cmra_spec _ _ Hok Hbuild) as (image & b & D' & P' & parity & Hba).
  pose proof (ba_data_count _ _ _ _ _ _ _ Hba) as HD. pose proof (ba_parity_count _ _ _ _ _ _ _ Hba) as HP.
  pose proof (ba_size _ _ _ _ _ _ _ Hba) as Hsize.
  assert (D = D') as -> by (unfold D; lia). assert (P = P') as -> by (unfold P; lia).
  unfold readable in *. rewrite Hsize in *.
  destruct (header_tuple_known _ _ _ _ _ _ _ area locator_tuple Hok Hba Htup) as (hints & Hht & Hh).
  exists image, hints. split; [apply (ba_image _ _ _ _ _ _ _ Hba)|]. split; [done|].
  pose proof (blen_area _ _ _ _ _ _ _ Hok Hba) as Hlen.
  assert (116 <= blen (bc_bytes built)) as Hge by (unfold CMRA_SHARD_SIZE in Hlen; lia).
  unfold recover_cmra, to_usize.
  rewrite (ok_or_eq _ offset), bind_ret by (apply try_from_Some; unfold fits; lia).
  rewrite reader_slice_eq, bind_ret by (unfold CRITICAL_METADATA_RECOVERY_HEADER_LEN; lia).
  assert (seg volume offset (offset + CRITICAL_METADATA_RECOVERY_HEADER_LEN)
    = seg area 0 CRITICAL_METADATA_RECOVERY_HEADER_LEN) as ->.
  { unfold area, CRITICAL_METADATA_RECOVERY_HEADER_LEN. rewrite seg_seg by lia. f_equal. lia. }
  rewrite Hht, bind_ret. cbv beta iota.
  rewrite (built_tuple_valid _ _ _ _ _ _ _ Hok Hba), bind_ret.
  rewrite (built_length _ _ _ _ _ _ _ Hok Hba), bind_ret.
  rewrite (ok_or_eq _ (blen (bc_bytes built))), bind_ret by (apply try_from_Some; unfold fits; lia).
  rewrite reader_slice_eq, bind_ret by lia. fold area.
  by apply (recover_received input built image b D' P' parity).
Qed.

(** A row that cannot be read leaves its slot empty. *)
Lemma unreadable_slot n b t idx ds ps ds' ps' i :
  collect_cmra_shards n b t (Z.of_nat idx)
    (CRITICAL_METADATA_RECOVERY_HEADER_LEN + Z.of_nat idx * (16 + ct_shard_size t)) ds ps
  = Ok (ds', ps') ->
  row_readable b (ct_shard_size t) i = false -> ds !! i = Some None ->
  ds' !! i = Some None /\ length ds' = length ds.
Proof.
  intros H Hrow. revert idx ds ps H. induction n as [|n IH]; intros idx ds ps H Hi; cbn [collect_cmra_shards] in H.
  { by injection H as <- <-. }
  unfold reader_slice, checked_add_usize, CRITICAL_METADATA_RECOVERY_SHARD_HEADER_LEN in H. ok_inv_writer.
  match goal with H : get_range _ _ _ = Some _ |- _ => apply get_range_Some in H as (_ & _ & _ & ->) end.
  match goal with H : collect_cmra_shards n _ _ _ _ ?ds1 _ = _ |- _ =>
    assert (ds1 !! i = Some None /\ length ds1 = length ds) as [Hi1 Hl1] end.
  - match goal with H : context [seg b ?x ?y] |- _ =>
      replace (seg b x y) with (area_row b (ct_shard_size t) idx) in H by (unfold area_row; f_equal; lia) end.
    unfold row_readable in Hrow. destruct (CriticalMetadataRecoveryShard_parse (area_row b _ idx) _) eqn:E; [|by ok_inv_writer|done].
    unfold place_cmra_shard, set_slot in *. ok_inv_writer; [|done]. rewrite length_insert, list_lookup_insert_ne; [done|].
    rewrite Nat2Z.id. intros <-. by rewrite E in Hrow.
  - rewrite <- Hl1. eapply (IH (S idx)); [|done].
    etrans; [|eassumption]. f_equal; lia.
Qed.

(** C33: An area of more than 1024 data shards is never repaired: when one of
    them cannot be read, recovery fails, however many parity shards there are. *)
Theorem oversized_area_not_repaired cmra_bytes tuple hints cmra_length mode i :
  READER_MAX_REPAIR_TOTAL_SHARDS < ct_data_shard_count tuple ->
  Z.of_nat i < ct_data_shard_count tuple ->
  row_readable cmra_bytes (ct_shard_size tuple) i = false ->
  forall recovered, recover_cmra_from_bytes cmra_bytes tuple hints cmra_length mode <> Ok recovered.
Proof.
  unfold READER_MAX_REPAIR_TOTAL_SHARDS. intros Hbig Hi Hrow recovered H.
  unfold recover_cmra_from_bytes in H. cbv zeta in H. apply bind_Ok in H as ([ds ps] & Hcol & H).
  destruct (unreadable_slot _ _ _ 0 _ _ _ _ i Hcol Hrow) as [Hslot Hlen];
    [apply lookup_replicate_2; lia|]. rewrite length_replicate in Hlen.
  assert (forallb is_present ds = false) as Hall.
  { apply not_true_iff_false. intros Hall. apply forallb_forall with (x := None) in Hall; [done|].
    apply list_elem_of_In. by apply list_elem_of_lookup_2 with i. }
  apply bind_Ok in H as (repaired & Hrep & _). unfold repair_data_gf16 in Hrep. rewrite Hall, Hlen in Hrep.
  cbv zeta in Hrep. ok_inv_writer; unfold READER_MAX_REPAIR_TOTAL_SHARDS in *; match goal with H : Z.ltb 1024 _ = false |- _ => apply Z.ltb_ge in H; clear -H Hbig; lia end.
Qed.
End Area.

(** ** Concrete inputs *)
Definition example_cmra_input : CmraBuildInput := {|
  ci_volume_format_rev := 45; ci_volume_header_bytes := zeros 128;
  ci_crypto_header := example_crypto_header; ci_block_count := 0;
  ci_block_records_offset := 128 + blen example_crypto_header;
  ci_manifest_footer_offset := 128 + blen example_crypto_header;
  ci_manifest_footer := zeros 136; ci_root_auth_footer_offset := None;
  ci_root_auth_footer := None; ci_key_wrap_table := None;
  ci_trailer_offset := 264 + blen example_crypto_header; ci_trailer := zeros 128;
  ci_cmra_offset := 392 + blen example_crypto_header; ci_options := example_planned;
  ci_archive_uuid := zeros 16; ci_session_id := zeros 16; ci_volume_index := 0 |}.

Lemma example_cmra_input_ok : cmra_input_ok example_cmra_input.
Proof.
  split.
  - unfold CmraBuildInput_typed. split_and!; try (by apply fitsb_fits); by vm_compute.
  - eexists. split; vm_compute; reflexivity.
  - discriminate.
  - discriminate.
  - vm_compute. reflexivity.
Qed.

Lemma example_image_length :
  (image ← build_cmra_image (Sha := toy_Sha256) example_cmra_input;
   b ← CriticalMetadataImage_to_bytes (C := toy_Crc32c) image; mret (blen b)) = Ok 940.
Proof. vm_compute. reflexivity. Qed.

(** Both data shards of a small area are wiped out. *)
Lemma recovery_area_survives_witness :
  exists built area image,
    build_v45_cmra (C := toy_Crc32c) (Sha := toy_Sha256) (T := example_target) example_cmra_input = Ok built
    /\ bc_data_shard_count built = 2
    /\ row_readable (C := toy_Crc32c) area 512 0 = false
    /\ row_readable (C := toy_Crc32c) area 512 1 = false
    /\ recover_cmra (C := toy_Crc32c) (Sha := toy_Sha256) (T := example_target) area 0 None KeyHolding
       = Ok image.
Proof.
  pose proof example_cmra_input_ok as Hok. pose proof example_image_length as Hlen.
  apply bind_Ok in Hlen as (im & Him & Hlen). apply bind_Ok in Hlen as (b & Hb & Hlen).
  rewrite mret_Ok in Hlen.
  destruct (build_v45_cmra_total (C := toy_Crc32c) (Sha := toy_Sha256) (T := example_target)
    _ _ Hok Him eq_refl ltac:(vm_compute; discriminate)) as [built Hbuild].
  destruct (build_v45_cmra_spec _ _ Hok Hbuild) as (im' & b' & D & P & parity & Hba).
  pose proof (ba_image _ _ _ _ _ _ _ Hba) as Him'. rewrite Him in Him'. injection Him' as <-.
  pose proof (ba_bytes _ _ _ _ _ _ _ Hba) as Hb'. rewrite Hb in Hb'. injection Hb' as <-.
  pose proof (ba_D _ _ _ _ _ _ _ Hba) as HD. rewrite Hlen in HD.
  change (cdiv 940 CMRA_SHARD_SIZE) with 2 in HD. assert (D = 2%nat) as -> by lia.
  pose proof (ba_P _ _ _ _ _ _ _ Hba) as HP.
  assert (wo_bit_rot_buffer_pct (ci_options example_cmra_input) = 5) as Hpct by (vm_compute; reflexivity).
  rewrite Hpct in HP. change (Z.max 2 _) with 2 in HP. assert (P = 2%nat) as -> by lia.
  pose proof (ba_data_count _ _ _ _ _ _ _ Hba) as Hdc. pose proof (ba_parity_count _ _ _ _ _ _ _ Hba) as Hpc.
  pose proof (ba_size _ _ _ _ _ _ _ Hba) as Hsize.
  set (lost := fun i : nat => (i <? 2)%nat).
  pose proof (wiped_damaged _ _ _ _ _ _ _ Hok Hba lost) as Hdam.
  pose proof (wiped_readable_rows _ _ _ _ _ _ _ Hok Hba lost) as Hread.
  pose proof (wiped_readable _ _ _ _ _ _ _ Hok Hba lost) as Hrow.
  pose proof (blen_area _ _ _ _ _ _ _ Hok Hba) as Hal.
  pose proof (wiped_header _ _ _ _ _ _ _ Hok Hba lost) as Hhead.
  set (area := wiped_area built 2 2 lost) in *.
  assert (seg area 0 (0 + blen (bc_bytes built)) = area) as Hseg
    by (rewrite <- (proj1 Hdam), Z.add_0_l; apply seg_full).
  destruct (recovery_area_survives (C := toy_Crc32c) (Sha := toy_Sha256) (T := example_target)
    example_cmra_input built area 0 None KeyHolding Hok Hbuild) as (image & hints & _ & _ & Hrec).
  - lia.
  - rewrite (proj1 Hdam). lia.
  - rewrite (proj1 Hdam), Hal. unfold CMRA_SHARD_SIZE. lia.
  - by rewrite Hseg.
  - rewrite Hseg. left. split; [exact Hhead|by left].
  - rewrite Hseg, Hdc, Hpc, Hsize. change (Z.to_nat (Z.of_nat 2)) with 2%nat.
    rewrite Hread by lia. cbn. lia.
  - right. rewrite Hdc. unfold READER_MAX_REPAIR_TOTAL_SHARDS. lia.
  - exists built, area, {| rc_image := image; rc_tuple := built_tuple built; rc_header_hints := hints;
                           rc_cmra_length := blen (bc_bytes built) |}.
    split; [exact Hbuild|]. split; [exact Hdc|]. split; [apply (Hrow 0%nat); lia|].
    split; [apply (Hrow 1%nat); lia|]. exact Hrec.
Defined.

Lemma oversized_area_not_repaired_witness :
  let tuple := {| ct_shard_size := 512; ct_data_shard_count := 1025; ct_parity_shard_count := 1025;
                  ct_image_length := 524800; ct_image_sha256 := zeros 32 |} in
  validate_cmra_decoder_tuple tuple = Ok tt
  /\ forall recovered,
       recover_cmra_from_bytes (C := toy_Crc32c) (Sha := toy_Sha256) (T := example_target)
         (zeros 644) tuple None 0 KeyHolding <> Ok recovered.
Proof.
  cbv zeta. split; [vm_compute; reflexivity|].
  apply (oversized_area_not_repaired (C := toy_Crc32c) (Sha := toy_Sha256) (T := example_target) _ _ _ _ _ 0).
  - vm_compute. reflexivity.
  - vm_compute. reflexivity.
  - vm_compute. reflexivity.
Defined.
