(* ===== verification/Terminal.v ===== *)
(** * The terminal of a volume, as the reader recovers it

    From [crates/tzap-core/src/reader/cmra.rs], with the checks it shares with
    reader/sidecar.rs, reader/volume.rs and reader/mod.rs: what a critical
    metadata image must satisfy before the reader trusts the volume trailer,
    the manifest footer and the root-auth footer inside it.  The resolver of
    recipient keys is a Rust closure with state of its own; it is a function
    from that state here, and [stateful] threads the state. *)

From S2P Require Import Wire VolumeHeader Kdf CryptoHeaderFixed Crypto Extensions CryptoHeader.
From S2P Require Import Fec Footers KeyWrap RootAuthFooter MetadataImage ObjectReader CmraReader.
#[local] Open Scope Z_scope.

(** ** Results that thread a state *)
Definition stateful (S A : Type) : Type := S -> fresult A * S.

#[export] Instance stateful_ret {S} : MRet (stateful S) := fun A a s => (Ok a, s).

#[export] Instance stateful_bind {S} : MBind (stateful S) := fun A B f m s =>
  match m s with
  | (Ok a, s) => f a s
  | (Err e, s) => (Err e, s)
  | (Panic, s) => (Panic, s)
  end.

Definition lift {S A} (r : fresult A) : stateful S A := fun s => (r, s).

(** A computation that has no state. *)
Definition run_pure {A} (m : stateful unit A) : fresult A := fst (m tt).

(** [.ok()], or [if let Ok(a) = m]: errors are dropped, panics are not. *)
Definition attempt {S A} (m : stateful S A) : stateful S (option A) := fun s =>
  match m s with
  | (Ok a, s) => (Ok (Some a), s)
  | (Err _, s) => (Ok None, s)
  | (Panic, s) => (Panic, s)
  end.

(** The same without a state. *)
Definition ok {A} (r : fresult A) : fresult (option A) :=
  match r with
  | Ok a => Ok (Some a)
  | Err _ => Ok None
  | Panic => Panic
  end.

(** ** Data *)
Definition TRAILER_HMAC_COVERED_LEN : Z := 96.
Definition MANIFEST_HMAC_COVERED_LEN : Z := 104.

#[export] Instance VolumeHeader_eq_dec : EqDecision VolumeHeader.
Proof. solve_decision. Defined.

#[export] Instance CryptoHeaderFixed_eq_dec : EqDecision CryptoHeaderFixed.
Proof. solve_decision. Defined.

Record V45Terminal : Type := {
  tm_image : CriticalMetadataImage;
  tm_manifest_footer_bytes : bytes;
  tm_root_auth_footer_bytes : option bytes;
  tm_root_auth_footer : option RootAuthFooterV1;
  tm_volume_trailer : VolumeTrailer
}.

Record V45PublicTerminal : Type := {
  pt_image : CriticalMetadataImage;
  pt_root_auth_footer_bytes : bytes;
  pt_root_auth_footer : RootAuthFooterV1
}.

Record RecoveredTerminalAuthority : Type := {
  au_terminal : V45Terminal;
  au_volume_header : VolumeHeader;
  au_crypto_header : CryptoHeaderFixed;
  au_crypto_header_bytes : bytes;
  au_subkeys : Subkeys;
  au_kdf_params : KdfParams
}.

Record RecoveredRecipientWrapTerminalAuthority : Type := {
  rw_terminal : V45Terminal;
  rw_volume_header : VolumeHeader;
  rw_crypto_header : CryptoHeaderFixed;
  rw_crypto_header_bytes : bytes;
  rw_key_wrap_table_bytes : bytes;
  rw_block_records_start : Z;
  rw_subkeys : Subkeys
}.

Record KeyHoldingTerminalContext : Type := {
  tc_subkeys : Subkeys;
  tc_volume_header : VolumeHeader;
  tc_crypto_header : CryptoHeaderFixed;
  tc_crypto_header_bytes : bytes
}.

Record RecipientWrapArchiveIdentity : Type := {
  ri_archive_uuid : bytes;
  ri_session_id : bytes;
  ri_format_version : Z;
  ri_volume_format_rev : Z
}.

Record RecipientWrapRecordContext : Type := {
  rc_archive_identity : RecipientWrapArchiveIdentity;
  rc_record : RecipientRecordV1
}.

Record StartupKeyWrapTable : Type := {
  st_table : KeyWrapTableV1;
  st_bytes : bytes;
  st_block_records_start : Z
}.

(** ** Keys *)
Definition Subkeys_unencrypted_placeholder : Subkeys := {|
  enc_key := zeros SUBKEY_LEN; mac_key := zeros SUBKEY_LEN; nonce_seed := zeros SUBKEY_LEN;
  index_root_key := zeros SUBKEY_LEN; index_shard_key := zeros SUBKEY_LEN;
  dictionary_key := zeros SUBKEY_LEN; dir_hint_key := zeros SUBKEY_LEN;
  index_nonce_seed := zeros SUBKEY_LEN |}.

Section Keys.
Context {Sha : Sha256} {Lib : CryptoLib}.

Definition subkeys_for_open (master_key : option bytes) (aead_algo : AeadAlgo.t)
    (archive_uuid session_id : bytes) : fresult Subkeys :=
  if AeadAlgo_is_encrypted aead_algo then
    master_key ← ok_or master_key KeyMaterialMismatch;
    Subkeys_derive master_key archive_uuid session_id
  else Ok Subkeys_unencrypted_placeholder.

(** The tag of a crypto header against the identity of its volume. *)
Definition verify_crypto_header_tag (volume_header : VolumeHeader) (parsed_crypto : CryptoHeader)
    (subkeys : Subkeys) : fresult unit :=
  verify_integrity_tag HmacDomain.CryptoHeader (ch_aead_algo (ch_fixed parsed_crypto))
    (vh_volume_format_rev volume_header) (Some (mac_key subkeys))
    (vh_archive_uuid volume_header) (vh_session_id volume_header)
    (ch_hmac_covered_bytes parsed_crypto) (ch_header_hmac parsed_crypto).

Section Resolver.
Context {S : Type} (resolver : RecipientWrapRecordContext -> stateful S (list bytes)).

(** The loop over the candidate keys of one record. *)
Fixpoint try_candidates (volume_header : VolumeHeader) (parsed_crypto : CryptoHeader)
    (candidates : list bytes) : fresult (option Subkeys) :=
  match candidates with
  | [] => Ok None
  | candidate :: candidates =>
      master_key ← MasterKey_from_raw_key candidate;
      subkeys ← subkeys_for_open (Some master_key) (ch_aead_algo (ch_fixed parsed_crypto))
        (vh_archive_uuid volume_header) (vh_session_id volume_header);
      match verify_crypto_header_tag volume_header parsed_crypto subkeys with
      | Ok _ => Ok (Some subkeys)
      | Err _ => try_candidates volume_header parsed_crypto candidates
      | Panic => Panic
      end
  end.

Fixpoint try_records (archive_identity : RecipientWrapArchiveIdentity)
    (volume_header : VolumeHeader) (parsed_crypto : CryptoHeader)
    (records : list RecipientRecordV1) : stateful S Subkeys :=
  match records with
  | [] => lift (Err KeyMaterialMismatch)
  | record :: records =>
      candidates ← resolver {| rc_archive_identity := archive_identity; rc_record := record |};
      found ← lift (try_candidates volume_header parsed_crypto candidates);
      match found with
      | Some subkeys => mret subkeys
      | None => try_records archive_identity volume_header parsed_crypto records
      end
  end.

Definition recipient_wrap_subkeys_from_table (volume_header : VolumeHeader)
    (parsed_crypto : CryptoHeader) (key_wrap_table : KeyWrapTableV1) : stateful S Subkeys :=
  try_records
    {| ri_archive_uuid := vh_archive_uuid volume_header;
       ri_session_id := vh_session_id volume_header;
       ri_format_version := vh_format_version volume_header;
       ri_volume_format_rev := vh_volume_format_rev volume_header |}
    volume_header parsed_crypto (kw_recipient_records key_wrap_table).
End Resolver.

Definition parse_startup_key_wrap_table_bytes (volume_header : VolumeHeader)
    (kdf_params : KdfParams) (key_wrap_table_bytes : bytes) : fresult StartupKeyWrapTable :=
  crypto_end ← checked_u64_add (vh_crypto_header_offset volume_header)
    (vh_crypto_header_length volume_header) "CryptoHeader";
  match kdf_params with
  | KdfRecipientWrap key_wrap_table_length key_wrap_table_record_count _ key_wrap_table_digest =>
      key_wrap_table ← KeyWrapTableV1_parse key_wrap_table_bytes (vh_archive_uuid volume_header)
        (vh_session_id volume_header) key_wrap_table_length key_wrap_table_record_count;
      reject_if (negb (bytes_eqb
          (compute_key_wrap_table_digest key_wrap_table_length key_wrap_table_bytes)
          key_wrap_table_digest)) (IntegrityDigestMismatch "KeyWrapTableV1");;
      block_records_start ← checked_u64_add crypto_end (kw_table_length key_wrap_table)
        "KeyWrapTableV1";
      mret {| st_table := key_wrap_table; st_bytes := key_wrap_table_bytes;
              st_block_records_start := block_records_start |}
  | _ => Err KeyMaterialMismatch
  end.
End Keys.

(** ** Checks between the structures of a volume *)
Definition validate_seekable_supported_volume (volume_header : VolumeHeader)
    (crypto_header : CryptoHeaderFixed) (extensions : list ExtensionTlv) : fresult unit :=
  reject_unsupported_raw_stream_profile extensions;;
  reject_if (negb (ch_stripe_width crypto_header =? vh_stripe_width volume_header))
    (InvalidArchive "VolumeHeader and CryptoHeader stripe_width differ").

Definition validate_crypto_class_parity_exactness (crypto_header : CryptoHeaderFixed)
    : fresult unit :=
  fec ← required_object_parity (ch_fec_data_shards crypto_header) crypto_header;
  reject_if (negb (ch_fec_parity_shards crypto_header =? fec))
    (InvalidArchive "fec_parity_shards does not match v45 compute_parity");;
  index ← required_object_parity (ch_index_fec_data_shards crypto_header) crypto_header;
  reject_if (negb (ch_index_fec_parity_shards crypto_header =? index))
    (InvalidArchive "index_fec_parity_shards does not match v45 compute_parity");;
  index_root ← required_object_parity (ch_index_root_fec_data_shards crypto_header) crypto_header;
  reject_if (negb (ch_index_root_fec_parity_shards crypto_header =? index_root))
    (InvalidArchive "index_root_fec_parity_shards does not match v45 compute_parity").

Definition validate_trailer_identity (volume_header : VolumeHeader) (trailer : VolumeTrailer)
    : fresult unit :=
  reject_if (negb (bytes_eqb (vt_archive_uuid trailer) (vh_archive_uuid volume_header))
             || negb (bytes_eqb (vt_session_id trailer) (vh_session_id volume_header))
             || negb (vt_volume_index trailer =? vh_volume_index volume_header))
    (InvalidArchive "VolumeTrailer identity does not match VolumeHeader").

Definition public_crypto_headers_agree (left right : CryptoHeaderFixed) : bool :=
  (ch_length left =? ch_length right)
  && (ch_stripe_width left =? ch_stripe_width right)
  && (ch_block_size left =? ch_block_size right)
  && bool_decide (ch_compression_algo left = ch_compression_algo right)
  && bool_decide (ch_aead_algo left = ch_aead_algo right)
  && bool_decide (ch_fec_algo left = ch_fec_algo right)
  && bool_decide (ch_kdf_algo left = ch_kdf_algo right).

Definition public_kdf_profiles_agree (left right : KdfParams) : bool :=
  match left, right with
  | KdfRecipientWrap left_length left_count left_version left_digest,
    KdfRecipientWrap right_length right_count right_version right_digest =>
      (left_length =? right_length) && (left_count =? right_count)
      && (left_version =? right_version) && bytes_eqb left_digest right_digest
  | KdfRecipientWrap _ _ _ _, _ | _, KdfRecipientWrap _ _ _ _ => false
  | _, _ => true
  end.

Definition validate_image_crypto_header_length (image : CriticalMetadataImage)
    (volume_header : VolumeHeader) : fresult unit :=
  reject_if (negb (mi_crypto_header_length image =? vh_crypto_header_length volume_header))
    (InvalidArchive "CMRA crypto header length does not match recovered VolumeHeader").

Definition validate_image_identity (image : CriticalMetadataImage) (volume_header : VolumeHeader)
    (crypto_header : CryptoHeaderFixed) : fresult unit :=
  reject_if (negb (mi_volume_format_rev image =? vh_volume_format_rev volume_header)
             || negb (bytes_eqb (mi_archive_uuid image) (vh_archive_uuid volume_header))
             || negb (bytes_eqb (mi_session_id image) (vh_session_id volume_header))
             || negb (mi_volume_index image =? vh_volume_index volume_header)
             || negb (mi_stripe_width image =? vh_stripe_width volume_header)
             || negb (mi_stripe_width image =? ch_stripe_width crypto_header))
    (InvalidArchive "CriticalMetadataImage identity does not match selected volume").

(** The places of the root-auth footer, as image and trailer give them. *)
Definition check_trailer_root_auth_position (image : CriticalMetadataImage)
    (error : FormatError) : fresult unit :=
  let overflow := InvalidArchive "RootAuthFooter trailer boundary overflow" in
  manifest_end ← ok_or (checked_add 64 (mi_manifest_footer_offset image) MANIFEST_FOOTER_LEN)
    overflow;
  reject_if (negb (mi_root_auth_footer_offset image =? manifest_end)) error;;
  footer_end ←
    ok_or (checked_add 64 (mi_root_auth_footer_offset image) (mi_root_auth_footer_length image))
      overflow;
  reject_if (negb (footer_end =? mi_volume_trailer_offset image)) error.

Definition validate_v45_trailer_equations (image : CriticalMetadataImage)
    (trailer : VolumeTrailer) : fresult unit :=
  reject_if (negb (vt_bytes_written trailer =? mi_volume_trailer_offset image)
             || negb (vt_manifest_footer_offset trailer =? mi_manifest_footer_offset image)
             || negb (vt_manifest_footer_length trailer =? MANIFEST_FOOTER_LEN)
             || negb (vt_block_count trailer =? mi_block_count image))
    (InvalidArchive "VolumeTrailer does not match v45 terminal layout");;
  if root_auth_present image then
    let error :=
      InvalidArchive "VolumeTrailer root-auth fields do not match v45 terminal layout" in
    reject_if (negb (vt_root_auth_flags trailer =? 0x00000001)
               || negb (vt_root_auth_footer_offset trailer =? mi_root_auth_footer_offset image)
               || negb (vt_root_auth_footer_length trailer =? mi_root_auth_footer_length image))
      error;;
    check_trailer_root_auth_position image error
  else
    reject_if (negb (vt_root_auth_footer_offset trailer =? 0)
               || negb (vt_root_auth_footer_length trailer =? 0)
               || negb (vt_root_auth_flags trailer =? 0))
      (InvalidArchive "VolumeTrailer root-auth fields must be zero when absent").

Definition validate_v45_public_trailer_profile (image : CriticalMetadataImage)
    (trailer : VolumeTrailer) : fresult unit :=
  reject_if (negb (vt_bytes_written trailer =? mi_volume_trailer_offset image)
             || negb (vt_manifest_footer_offset trailer =? mi_manifest_footer_offset image)
             || negb (vt_manifest_footer_length trailer =? MANIFEST_FOOTER_LEN))
    (InvalidArchive "VolumeTrailer does not match v45 public terminal layout");;
  let error :=
    InvalidArchive "VolumeTrailer root-auth fields do not match v45 public terminal layout" in
  reject_if (negb (vt_root_auth_flags trailer =? 0x00000001)
             || (vt_root_auth_footer_offset trailer =? 0)
             || (vt_root_auth_footer_length trailer =? 0)
             || (READER_MAX_ROOT_AUTH_FOOTER_LEN <? vt_root_auth_footer_length trailer)
             || negb (vt_root_auth_footer_offset trailer =? mi_root_auth_footer_offset image)
             || negb (vt_root_auth_footer_length trailer =? mi_root_auth_footer_length image))
    error;;
  check_trailer_root_auth_position image error.

(** [b.get(offset..offset + len)]; the sum of the bounds may overflow. *)
Definition get_at (b : bytes) (offset len : Z) : fresult (option bytes) :=
  match checked_add 64 offset len with
  | None => Panic
  | Some end_ => Ok (get_range b offset end_)
  end.

(** ** The terminal inside a recovered image *)
Section Terminal.
Context {C : Crc32c} {Sha : Sha256} {Lib : CryptoLib}.

Definition validate_manifest_footer (volume_header : VolumeHeader)
    (crypto_header : CryptoHeaderFixed) (footer : ManifestFooter) (subkeys : Subkeys)
    (volume_format_rev : Z) (raw : bytes) : fresult unit :=
  reject_if (negb (bytes_eqb (mf_archive_uuid footer) (vh_archive_uuid volume_header))
             || negb (bytes_eqb (mf_session_id footer) (vh_session_id volume_header))
             || negb (mf_volume_index footer =? vh_volume_index volume_header))
    (InvalidArchive "ManifestFooter identity does not match VolumeHeader");;
  reject_if (negb (mf_total_volumes footer =? vh_stripe_width volume_header))
    (InvalidArchive "ManifestFooter total_volumes does not match stripe_width");;
  reject_if (negb (mf_is_authoritative footer =? 1))
    (InvalidArchive "ManifestFooter is not authoritative");;
  covered ← slice raw 0 MANIFEST_HMAC_COVERED_LEN;
  verify_integrity_tag HmacDomain.ManifestFooter (ch_aead_algo crypto_header) volume_format_rev
    (Some (mac_key subkeys)) (vh_archive_uuid volume_header) (vh_session_id volume_header)
    covered (mf_manifest_hmac footer).

Definition validate_image_key_wrap_table (image : CriticalMetadataImage)
    (volume_header : VolumeHeader) (kdf_params : KdfParams) : fresult unit :=
  match kdf_params with
  | KdfRecipientWrap key_wrap_table_length key_wrap_table_record_count _ key_wrap_table_digest =>
      reject_if (negb (key_wrap_present image)
                 || negb (mi_key_wrap_table_length image =? key_wrap_table_length))
        (InvalidArchive "CriticalMetadataImage key-wrap fields do not match KdfParams");;
      region ← required_region image 6 "missing CriticalMetadataImage key-wrap region";
      reject_if (negb (sr_offset region =? mi_key_wrap_table_offset image)
                 || negb (blen (sr_bytes region) =? key_wrap_table_length))
        (InvalidArchive "CriticalMetadataImage key-wrap region is malformed");;
      reject_if (negb (bytes_eqb
          (compute_key_wrap_table_digest key_wrap_table_length (sr_bytes region))
          key_wrap_table_digest)) (IntegrityDigestMismatch "KeyWrapTableV1");;
      _ ← KeyWrapTableV1_parse (sr_bytes region) (vh_archive_uuid volume_header)
        (vh_session_id volume_header) key_wrap_table_length key_wrap_table_record_count;
      mret tt
  | _ =>
      reject_if (key_wrap_present image
                 || bool_decide (is_Some (CriticalMetadataImage_region image 6))
                 || negb (mi_key_wrap_table_offset image =? 0)
                 || negb (mi_key_wrap_table_length image =? 0)
                 || negb (bytes_eqb (mi_key_wrap_table_sha256 image) (zeros 32)))
        (InvalidArchive "CriticalMetadataImage key-wrap fields must be zero when absent")
  end.

(** The comparison of the recovered crypto header with the one in hand, up to
    the tags at their ends. *)
Definition check_crypto_header_bytes (recovered parsed : bytes) : fresult unit :=
  recovered_pre_hmac_len ← ok_or (checked_sub (blen recovered) CRYPTO_HEADER_HMAC_LEN)
    (InvalidArchive "CMRA CryptoHeader is too short");
  parsed_pre_hmac_len ← ok_or (checked_sub (blen parsed) CRYPTO_HEADER_HMAC_LEN)
    (InvalidArchive "CryptoHeader is too short");
  let error := InvalidArchive "CMRA CryptoHeader differs from parsed CryptoHeader" in
  reject_if (negb (recovered_pre_hmac_len =? parsed_pre_hmac_len)) error;;
  recovered_covered ← slice recovered 0 recovered_pre_hmac_len;
  parsed_covered ← slice parsed 0 parsed_pre_hmac_len;
  reject_if (negb (bytes_eqb recovered_covered parsed_covered)) error.

(** The root-auth footer of the image against the volume header. *)
Definition check_root_auth_footer (image : CriticalMetadataImage) (volume_header : VolumeHeader)
    (revision_error identity_error : string) : fresult (SerializedRegion * RootAuthFooterV1) :=
  root_auth_region ← required_region image 4 "missing RootAuthFooter region";
  footer ← RootAuthFooterV1_parse (sr_bytes root_auth_region);
  reject_if (negb (ra_format_version footer =? vh_format_version volume_header)
             || negb (ra_volume_format_rev footer =? vh_volume_format_rev volume_header))
    (InvalidArchive revision_error);;
  reject_if (negb (bytes_eqb (ra_archive_uuid footer) (vh_archive_uuid volume_header))
             || negb (bytes_eqb (ra_session_id footer) (vh_session_id volume_header)))
    (InvalidArchive identity_error);;
  footer_length ← RootAuthFooterV1_footer_length footer;
  reject_if (negb (footer_length =? mi_root_auth_footer_length image))
    (InvalidArchive identity_error);;
  mret (root_auth_region, footer).

Definition validate_recovered_terminal_inner (image : CriticalMetadataImage)
    (tuple : CmraDecoderTuple) (require_cmra_boundary_magic cmra_boundary_magic_ok : bool)
    (context : KeyHoldingTerminalContext) : fresult V45Terminal :=
  let subkeys := tc_subkeys context in
  let volume_header := tc_volume_header context in
  let crypto_header := tc_crypto_header context in
  volume_header_region ← required_region image 1 "missing VolumeHeader region";
  recovered_volume_header ← VolumeHeader_parse (sr_bytes volume_header_region);
  reject_if (bool_decide (recovered_volume_header <> volume_header))
    (InvalidArchive "CMRA VolumeHeader differs from parsed VolumeHeader");;
  validate_image_crypto_header_length image recovered_volume_header;;
  validate_image_identity image volume_header crypto_header;;
  crypto_region ← required_region image 2 "missing CryptoHeader region";
  recovered_crypto ← CryptoHeader_parse (sr_bytes crypto_region) (mi_crypto_header_length image);
  reject_if (bool_decide (ch_fixed recovered_crypto <> crypto_header))
    (InvalidArchive "CMRA CryptoHeader differs from parsed CryptoHeader");;
  check_crypto_header_bytes (sr_bytes crypto_region) (tc_crypto_header_bytes context);;
  verify_crypto_header_tag volume_header recovered_crypto subkeys;;
  validate_cmra_writer_parity_lower_bound tuple (ch_bit_rot_buffer_pct (ch_fixed recovered_crypto));;
  CryptoHeader_validate_extension_semantics recovered_crypto;;
  validate_image_key_wrap_table image volume_header (ch_kdf_params recovered_crypto);;
  manifest_region ← required_region image 3 "missing ManifestFooter region";
  manifest_footer ← ManifestFooter_parse (sr_bytes manifest_region);
  validate_manifest_footer volume_header crypto_header manifest_footer subkeys
    (vh_volume_format_rev volume_header) (sr_bytes manifest_region);;
  ManifestFooter_validate_index_root_extent manifest_footer (ch_block_size crypto_header);;
  root_auth_footer ←
    (if root_auth_present image then
       '(_, footer) ← check_root_auth_footer image volume_header
         "RootAuthFooter format/revision does not match VolumeHeader"
         "RootAuthFooter identity or length does not match terminal image";
       mret (Some footer)
     else mret None);
  trailer_region ← required_region image 5 "missing VolumeTrailer region";
  trailer ← VolumeTrailer_parse (sr_bytes trailer_region);
  covered ← slice (sr_bytes trailer_region) 0 TRAILER_HMAC_COVERED_LEN;
  verify_integrity_tag HmacDomain.VolumeTrailer (ch_aead_algo crypto_header)
    (vh_volume_format_rev volume_header) (Some (mac_key subkeys))
    (vh_archive_uuid volume_header) (vh_session_id volume_header) covered
    (vt_trailer_hmac trailer);;
  validate_trailer_identity volume_header trailer;;
  validate_v45_trailer_equations image trailer;;
  reject_if (require_cmra_boundary_magic && negb cmra_boundary_magic_ok)
    (InvalidArchive "CMRA is not at image boundary");;
  mret {| tm_image := image;
          tm_manifest_footer_bytes := sr_bytes manifest_region;
          tm_root_auth_footer_bytes := sr_bytes <$> CriticalMetadataImage_region image 4;
          tm_root_auth_footer := root_auth_footer;
          tm_volume_trailer := trailer |}.

(** [bytes.get(cmra_offset..cmra_offset + 4) == Some(b"TZCR")] *)
Definition boundary_magic_ok (b : bytes) (cmra_offset : Z) : fresult bool :=
  magic ← get_at b cmra_offset 4;
  mret (bool_decide (magic = Some TZCR_MAGIC)).

Definition validate_recovered_terminal (image : CriticalMetadataImage) (tuple : CmraDecoderTuple)
    (b : bytes) (context : KeyHoldingTerminalContext) (require_cmra_boundary_magic : bool)
    : fresult V45Terminal :=
  cmra_offset ← to_usize (mi_body_bytes_before_cmra image) "CMRA";
  cmra_boundary_magic_ok ← boundary_magic_ok b cmra_offset;
  validate_recovered_terminal_inner image tuple require_cmra_boundary_magic
    cmra_boundary_magic_ok context.

Definition validate_recovered_terminal_read_at {R : Type} {A : ArchiveReadAt R}
    (image : CriticalMetadataImage) (tuple : CmraDecoderTuple) (reader : R)
    (context : KeyHoldingTerminalContext) (require_cmra_boundary_magic : bool)
    : fresult V45Terminal :=
  magic ← read_exact_at reader (mi_body_bytes_before_cmra image) 4;
  validate_recovered_terminal_inner image tuple require_cmra_boundary_magic
    (bytes_eqb magic TZCR_MAGIC) context.

Definition validate_recovered_terminal_authority (image : CriticalMetadataImage)
    (tuple : CmraDecoderTuple) (master_key : bytes) (require_cmra_boundary_magic : bool)
    : fresult RecoveredTerminalAuthority :=
  volume_header_region ← required_region image 1 "missing VolumeHeader region";
  volume_header ← VolumeHeader_parse (sr_bytes volume_header_region);
  validate_image_crypto_header_length image volume_header;;
  crypto_region ← required_region image 2 "missing CryptoHeader region";
  let crypto_header_bytes := sr_bytes crypto_region in
  parsed_crypto ← CryptoHeader_parse crypto_header_bytes (mi_crypto_header_length image);
  let crypto_header := ch_fixed parsed_crypto in
  subkeys ← subkeys_for_open (Some master_key) (ch_aead_algo crypto_header)
    (vh_archive_uuid volume_header) (vh_session_id volume_header);
  verify_crypto_header_tag volume_header parsed_crypto subkeys;;
  CryptoHeader_validate_extension_semantics parsed_crypto;;
  validate_seekable_supported_volume volume_header crypto_header (ch_extensions parsed_crypto);;
  validate_crypto_class_parity_exactness crypto_header;;
  reject_if (ch_bit_rot_buffer_pct crypto_header =? 0)
    (InvalidArchive "CMRA startup recovery requires a nonzero bit-rot budget");;
  terminal ← validate_recovered_terminal_inner image tuple require_cmra_boundary_magic true
    {| tc_subkeys := subkeys; tc_volume_header := volume_header;
       tc_crypto_header := crypto_header; tc_crypto_header_bytes := crypto_header_bytes |};
  mret {| au_terminal := terminal; au_volume_header := volume_header;
          au_crypto_header := crypto_header; au_crypto_header_bytes := crypto_header_bytes;
          au_subkeys := subkeys; au_kdf_params := ch_kdf_params parsed_crypto |}.

Definition is_recipient_wrap (kdf_params : KdfParams) : bool :=
  match kdf_params with KdfRecipientWrap _ _ _ _ => true | _ => false end.

Definition validate_recovered_recipient_wrap_terminal_authority {S : Type}
    (image : CriticalMetadataImage) (tuple : CmraDecoderTuple)
    (resolver : RecipientWrapRecordContext -> stateful S (list bytes))
    (require_cmra_boundary_magic : bool) : stateful S RecoveredRecipientWrapTerminalAuthority :=
  volume_header_region ← lift (required_region image 1 "missing VolumeHeader region");
  volume_header ← lift (VolumeHeader_parse (sr_bytes volume_header_region));
  _ ← lift (validate_image_crypto_header_length image volume_header);
  crypto_region ← lift (required_region image 2 "missing CryptoHeader region");
  let crypto_header_bytes := sr_bytes crypto_region in
  parsed_crypto ← lift (CryptoHeader_parse crypto_header_bytes (mi_crypto_header_length image));
  let crypto_header := ch_fixed parsed_crypto in
  let kdf_params := ch_kdf_params parsed_crypto in
  _ ← lift (reject_if (negb (is_recipient_wrap kdf_params)
                       || negb (AeadAlgo_is_encrypted (ch_aead_algo crypto_header)))
              KeyMaterialMismatch);
  _ ← lift (validate_seekable_supported_volume volume_header crypto_header []);
  _ ← lift (validate_crypto_class_parity_exactness crypto_header);
  _ ← lift (reject_if (ch_bit_rot_buffer_pct crypto_header =? 0)
              (InvalidArchive "CMRA startup recovery requires a nonzero bit-rot budget"));
  _ ← lift (validate_cmra_writer_parity_lower_bound tuple (ch_bit_rot_buffer_pct crypto_header));
  _ ← lift (validate_image_key_wrap_table image volume_header kdf_params);
  key_wrap_region ← lift (required_region image 6
    "missing CriticalMetadataImage key-wrap region");
  startup ← lift (parse_startup_key_wrap_table_bytes volume_header kdf_params
    (sr_bytes key_wrap_region));
  subkeys ← recipient_wrap_subkeys_from_table resolver volume_header parsed_crypto
    (st_table startup);
  _ ← lift (CryptoHeader_validate_extension_semantics parsed_crypto);
  _ ← lift (reject_unsupported_raw_stream_profile (ch_extensions parsed_crypto));
  terminal ← lift (validate_recovered_terminal_inner image tuple require_cmra_boundary_magic true
    {| tc_subkeys := subkeys; tc_volume_header := volume_header;
       tc_crypto_header := crypto_header; tc_crypto_header_bytes := crypto_header_bytes |});
  mret {| rw_terminal := terminal; rw_volume_header := volume_header;
          rw_crypto_header := crypto_header; rw_crypto_header_bytes := crypto_header_bytes;
          rw_key_wrap_table_bytes := st_bytes startup;
          rw_block_records_start := st_block_records_start startup; rw_subkeys := subkeys |}.

Definition validate_recovered_public_terminal_inner (image : CriticalMetadataImage)
    (volume_header : VolumeHeader) (public_crypto_header : CryptoHeader)
    (require_cmra_boundary_magic cmra_boundary_magic_ok : bool) : fresult V45PublicTerminal :=
  reject_if (negb (root_auth_present image))
    (ReaderUnsupported "public no-key verification requires root-auth");;
  volume_header_region ← required_region image 1 "missing VolumeHeader region";
  recovered_volume_header ← VolumeHeader_parse (sr_bytes volume_header_region);
  reject_if (bool_decide (recovered_volume_header <> volume_header))
    (InvalidArchive "CMRA VolumeHeader differs from parsed VolumeHeader");;
  validate_image_crypto_header_length image recovered_volume_header;;
  validate_image_identity image volume_header (ch_fixed public_crypto_header);;
  crypto_region ← required_region image 2 "missing CryptoHeader region";
  recovered_crypto ← CryptoHeader_parse (sr_bytes crypto_region) (mi_crypto_header_length image);
  reject_if (negb (public_crypto_headers_agree (ch_fixed recovered_crypto)
                     (ch_fixed public_crypto_header))
             || negb (public_kdf_profiles_agree (ch_kdf_params recovered_crypto)
                        (ch_kdf_params public_crypto_header)))
    (InvalidArchive "CMRA CryptoHeader differs from parsed CryptoHeader");;
  CryptoHeader_validate_extension_semantics recovered_crypto;;
  validate_image_key_wrap_table image volume_header (ch_kdf_params recovered_crypto);;
  _ ← required_region image 3 "missing ManifestFooter region";
  '(root_auth_region, root_auth_footer) ← check_root_auth_footer image volume_header
    "public RootAuthFooter format/revision does not match VolumeHeader"
    "public RootAuthFooter identity or length does not match terminal image";
  trailer_region ← required_region image 5 "missing VolumeTrailer region";
  trailer ← VolumeTrailer_parse (sr_bytes trailer_region);
  validate_trailer_identity volume_header trailer;;
  validate_v45_public_trailer_profile image trailer;;
  reject_if (require_cmra_boundary_magic && negb cmra_boundary_magic_ok)
    (InvalidArchive "CMRA is not at image boundary");;
  mret {| pt_image := image; pt_root_auth_footer_bytes := sr_bytes root_auth_region;
          pt_root_auth_footer := root_auth_footer |}.

Definition validate_recovered_public_terminal (image : CriticalMetadataImage) (b : bytes)
    (volume_header : VolumeHeader) (public_crypto_header : CryptoHeader)
    (require_cmra_boundary_magic : bool) : fresult V45PublicTerminal :=
  cmra_offset ← to_usize (mi_body_bytes_before_cmra image) "CMRA";
  cmra_boundary_magic_ok ← boundary_magic_ok b cmra_offset;
  validate_recovered_public_terminal_inner image volume_header public_crypto_header
    require_cmra_boundary_magic cmra_boundary_magic_ok.

Definition validate_recovered_public_terminal_read_at {R : Type} {A : ArchiveReadAt R}
    (image : CriticalMetadataImage) (reader : R) (volume_header : VolumeHeader)
    (public_crypto_header : CryptoHeader) (require_cmra_boundary_magic : bool)
    : fresult V45PublicTerminal :=
  magic ← read_exact_at reader (mi_body_bytes_before_cmra image) 4;
  validate_recovered_public_terminal_inner image volume_header public_crypto_header
    require_cmra_boundary_magic (bytes_eqb magic TZCR_MAGIC).
End Terminal.
