(* ===== verification/TerminalSearch.v ===== *)
(** * The search for the terminal of a volume

    From [crates/tzap-core/src/reader/cmra.rs].  A volume ends with two
    locators; the reader tries both, and when neither leads to a valid terminal
    it scans backwards for locators and for recovery areas.  The program has
    this search once for every kind of terminal (with keys in hand, with a
    master key, with a resolver of recipient keys, without keys), and each once
    on a byte slice and once on a reader.  The section [Search] is the code
    that these copies share; every function of the program follows as an
    instance under its own name. *)

From S2P Require Import Wire VolumeHeader Kdf CryptoHeaderFixed Crypto Extensions CryptoHeader.
From S2P Require Import Fec Footers KeyWrap RootAuthFooter MetadataImage Recovery ObjectReader.
From S2P Require Import Ordering CmraReader Terminal.
#[local] Open Scope Z_scope.

(** ** Candidates *)
Record TerminalCandidate : Type := {
  cd_terminal : V45Terminal;
  cd_anchor : Z;
  cd_locator_sequence : option Z;
  cd_cmra_offset : Z;
  cd_cmra_length : Z
}.

Record PublicTerminalCandidate : Type := {
  pc_terminal : V45PublicTerminal;
  pc_anchor : Z;
  pc_cmra_offset : Z;
  pc_cmra_length : Z
}.

Record TerminalAuthorityCandidate : Type := {
  ac_authority : RecoveredTerminalAuthority;
  ac_anchor : Z;
  ac_cmra_offset : Z;
  ac_cmra_length : Z
}.

Record RecipientWrapTerminalAuthorityCandidate : Type := {
  wc_authority : RecoveredRecipientWrapTerminalAuthority;
  wc_anchor : Z;
  wc_cmra_offset : Z;
  wc_cmra_length : Z
}.

(** What the choice looks at. *)
Class Candidate (A : Type) : Type := {
  anchor : A -> Z;
  cmra_offset : A -> Z;
  cmra_length : A -> Z
}.

#[export] Instance TerminalCandidate_Candidate : Candidate TerminalCandidate :=
  {| anchor := cd_anchor; cmra_offset := cd_cmra_offset; cmra_length := cd_cmra_length |}.
#[export] Instance PublicTerminalCandidate_Candidate : Candidate PublicTerminalCandidate :=
  {| anchor := pc_anchor; cmra_offset := pc_cmra_offset; cmra_length := pc_cmra_length |}.
#[export] Instance TerminalAuthorityCandidate_Candidate : Candidate TerminalAuthorityCandidate :=
  {| anchor := ac_anchor; cmra_offset := ac_cmra_offset; cmra_length := ac_cmra_length |}.
#[export] Instance RecipientWrapTerminalAuthorityCandidate_Candidate
    : Candidate RecipientWrapTerminalAuthorityCandidate :=
  {| anchor := wc_anchor; cmra_offset := wc_cmra_offset; cmra_length := wc_cmra_length |}.

(** ** The choice among the candidates *)

(** The sorted vector is popped; what is then last is the previous one. *)
Definition choose_candidate {A} `{Candidate A} (none ambiguous : string) (candidates : list A)
    : fresult A :=
  match reverse (sort_by_key anchor candidates) with
  | [] => Err (InvalidArchive none)
  | winner :: rest =>
      match rest with
      | previous :: _ =>
          reject_if ((anchor previous =? anchor winner)
                     && (negb (cmra_offset previous =? cmra_offset winner)
                         || negb (cmra_length previous =? cmra_length winner)))
            (InvalidArchive ambiguous)
      | [] => Ok tt
      end;;
      mret winner
  end.

Definition choose_v45_terminal_candidate (candidates : list TerminalCandidate)
    : fresult TerminalCandidate :=
  choose_candidate "no valid v45 CMRA candidate found" "ambiguous v45 CMRA candidates" candidates.

Definition choose_v45_terminal_authority_candidate (candidates : list TerminalAuthorityCandidate)
    : fresult TerminalAuthorityCandidate :=
  choose_candidate "no valid v45 CMRA candidate found" "ambiguous v45 CMRA candidates" candidates.

Definition choose_v45_recipient_wrap_terminal_authority_candidate
    (candidates : list RecipientWrapTerminalAuthorityCandidate)
    : fresult RecipientWrapTerminalAuthorityCandidate :=
  choose_candidate "no valid v45 CMRA candidate found" "ambiguous v45 CMRA candidates" candidates.

Definition choose_v45_public_terminal_candidate (candidates : list PublicTerminalCandidate)
    : fresult PublicTerminalCandidate :=
  choose_candidate "no valid v45 public CMRA candidate found"
    "ambiguous v45 public CMRA candidates" candidates.

(** ** What the copies of the search share *)
Section Search.
Context {C : Crc32c} {S A : Type}.

(** [candidates.push(candidate)] when there is one. *)
Definition push_candidate (m : stateful S A) (candidates : list A) : stateful S (list A) :=
  candidate ← attempt m;
  mret (candidates ++ option_list candidate).

(** The body of the [collect_] functions; [raw] is what was read at the place
    of the locator. *)
Definition collect_candidate (parse : CriticalRecoveryLocator -> stateful S A)
    (raw : fresult (option bytes)) (expected_sequence : Z) (candidates : list A)
    : stateful S (list A) :=
  raw ← lift raw;
  match raw with
  | None => mret candidates
  | Some raw =>
      locator ← attempt (lift (CriticalRecoveryLocator_parse raw));
      match locator with
      | None => mret candidates
      | Some locator =>
          if (expected_sequence <=? 1) && negb (rl_locator_sequence locator =? expected_sequence)
          then mret candidates
          else push_candidate (parse locator) candidates
      end
  end.

Context (collect : Z -> Z -> list A -> stateful S (list A)) (locatorless : Z -> stateful S A).

(** One round of the scan: [found] is what stands at [offset]. *)
Definition scan_step (offset : Z) (found : option bytes) (candidates : list A)
    : stateful S (list A) :=
  if bool_decide (found = Some TZCL_MAGIC) then collect offset 2 candidates
  else if bool_decide (found = Some TZCR_MAGIC) then push_candidate (locatorless offset) candidates
  else mret candidates.

(** [while offset >= scan_start], on the whole slice *)
Fixpoint scan_slice (b : bytes) (scan_start : Z) (offset : nat) (candidates : list A)
    : stateful S (list A) :=
  if Z.of_nat offset <? scan_start then mret candidates
  else
    found ← lift (get_at b (Z.of_nat offset) 4);
    candidates ← scan_step (Z.of_nat offset) found candidates;
    match offset with
    | O => mret candidates
    | Datatypes.S offset => scan_slice b scan_start offset candidates
    end.

(** [while offset < tail.len()], on the end of the reader *)
Fixpoint scan_tail (tail : bytes) (scan_start : Z) (offset : nat) (candidates : list A)
    : stateful S (list A) :=
  if blen tail <=? Z.of_nat offset then mret candidates
  else
    absolute_offset ← lift (checked_u64_add scan_start (Z.of_nat offset) "CMRA scan");
    found ← lift (get_at tail (Z.of_nat offset) 4);
    candidates ← scan_step absolute_offset found candidates;
    match offset with
    | O => mret candidates
    | Datatypes.S offset => scan_tail tail scan_start offset candidates
    end.

(** The two places where an undamaged volume has its locators. *)
Definition collect_final_and_mirror (len : Z) : stateful S (list A) :=
  candidates ← (if CRITICAL_RECOVERY_LOCATOR_LEN <=? len
                then collect (len - CRITICAL_RECOVERY_LOCATOR_LEN) 0 [] else mret []);
  if LOCATOR_PAIR_LEN <=? len
  then collect (len - LOCATOR_PAIR_LEN) 1 candidates else mret candidates.

Definition locate_candidates (b : bytes) (max_trailing_garbage_scan : Z) : stateful S (list A) :=
  candidates ← collect_final_and_mirror (blen b);
  match candidates with
  | [] =>
      scan ← lift (max_critical_recovery_scan max_trailing_garbage_scan);
      scan_slice b (Z.max 0 (blen b - scan)) (Z.to_nat (Z.max 0 (blen b - 4))) []
  | _ => mret candidates
  end.

Definition locate_candidates_read_at {R : Type} {RA : ArchiveReadAt R} (reader : R) (len : Z)
    (max_trailing_garbage_scan : Z) : stateful S (list A) :=
  candidates ← collect_final_and_mirror len;
  match candidates with
  | [] =>
      scan ← lift (max_critical_recovery_scan max_trailing_garbage_scan);
      let scan_start := Z.max 0 (len - scan) in
      scan_len ← lift (to_usize (Z.max 0 (len - scan_start)) "CMRA scan");
      tail ← lift (read_at_vec reader scan_start scan_len "CMRA scan");
      scan_tail tail scan_start (Z.to_nat (Z.max 0 (blen tail - 4))) []
  | _ => mret candidates
  end.
End Search.

(** What stands at the place of a locator: [bytes.get(..)] and
    [read_at_vec(..).ok()]. *)
Definition locator_at (b : bytes) (offset : Z) : fresult (option bytes) :=
  get_at b offset CRITICAL_RECOVERY_LOCATOR_LEN.

Definition locator_read_at {R : Type} {RA : ArchiveReadAt R} (reader : R) (offset : Z)
    : fresult (option bytes) :=
  ok (read_at_vec reader offset CRITICAL_RECOVERY_LOCATOR_LEN "CriticalRecoveryLocator").

(** ** From a locator, or an area without one, to a recovered image *)
Section Recovered.
Context (recover : Z -> option CmraDecoderTuple -> CmraRecoveryMode -> fresult RecoveredCmra)
        (mode : CmraRecoveryMode).

Definition recover_at_locator (position : fresult Z) (locator : CriticalRecoveryLocator)
    : fresult RecoveredCmra :=
  let tuple := CmraDecoderTuple_from_locator locator in
  validate_cmra_decoder_tuple tuple;;
  expected_cmra_length ← cmra_serialized_length tuple;
  reject_if (negb (rl_cmra_length locator =? expected_cmra_length))
    (InvalidArchive "locator CMRA length mismatch");;
  locator_offset ← position;
  validate_locator_position locator_offset locator;;
  recovered ← recover (rl_cmra_offset locator) (Some tuple) mode;
  reject_if (bool_decide (rc_tuple recovered <> tuple))
    (InvalidArchive "CMRA decoder tuple mismatch");;
  reject_if (negb (expected_cmra_length =? rc_cmra_length recovered))
    (InvalidArchive "locator CMRA length mismatch");;
  validate_locator_image_boundary locator (rc_image recovered);;
  validate_cmra_identity_hints (rc_header_hints recovered)
    (Some (CmraIdentityHints_from_locator locator)) (rc_image recovered);;
  mret recovered.

Definition recover_locatorless (cmra_offset : Z) : fresult RecoveredCmra :=
  recovered ← recover cmra_offset None mode;
  reject_if (negb (mi_body_bytes_before_cmra (rc_image recovered) =? cmra_offset))
    (InvalidArchive "locatorless CMRA boundary mismatch");;
  trailer_end ←
    ok_or (checked_add 64 (mi_volume_trailer_offset (rc_image recovered)) VOLUME_TRAILER_LEN)
      (InvalidArchive "CMRA boundary overflow");
  reject_if (negb (trailer_end =? cmra_offset))
    (InvalidArchive "locatorless trailer boundary mismatch");;
  validate_cmra_identity_hints (rc_header_hints recovered) None (rc_image recovered);;
  mret recovered.
End Recovered.

(** The anchors: where the locator, or the area itself, ends. *)
Definition locator_anchor (locator_offset : Z) : fresult Z :=
  ok_or (checked_add 64 locator_offset CRITICAL_RECOVERY_LOCATOR_LEN)
    (InvalidArchive "locator anchor overflow").

Definition locator_anchor_read_at (locator_offset : Z) (structure : string) : fresult Z :=
  end_ ← checked_u64_add locator_offset CRITICAL_RECOVERY_LOCATOR_LEN structure;
  to_usize end_ "locator anchor overflow".

Definition locatorless_anchor (cmra_offset cmra_length : Z) : fresult Z :=
  cmra_length ← to_usize cmra_length "CMRA";
  ok_or (checked_add 64 cmra_offset cmra_length) (InvalidArchive "CMRA anchor overflow").

Definition locatorless_anchor_read_at (cmra_offset cmra_length : Z) : fresult Z :=
  end_ ← checked_u64_add cmra_offset cmra_length "CMRA anchor overflow";
  to_usize end_ "CMRA anchor overflow".

Section Instances.
Context {C : Crc32c} {Sha : Sha256} {Lib : CryptoLib} {T : Target}.
Context {R : Type} {RA : ArchiveReadAt R}.

Definition locator_position_read_at (locator_offset : Z) : fresult Z :=
  to_usize locator_offset "CriticalRecoveryLocator".

(** ** With the keys in hand *)
Definition parse_locator_cmra_candidate (b : bytes) (locator_offset : Z)
    (locator : CriticalRecoveryLocator) (context : KeyHoldingTerminalContext)
    : fresult TerminalCandidate :=
  recovered ← recover_at_locator (recover_cmra b) KeyHolding (Ok locator_offset) locator;
  terminal ← validate_recovered_terminal (rc_image recovered) (rc_tuple recovered) b context false;
  anchor ← locator_anchor locator_offset;
  mret {| cd_terminal := terminal; cd_anchor := anchor;
          cd_locator_sequence := Some (rl_locator_sequence locator);
          cd_cmra_offset := rl_cmra_offset locator;
          cd_cmra_length := rc_cmra_length recovered |}.

Definition parse_locator_cmra_candidate_read_at (reader : R) (locator_offset : Z)
    (locator : CriticalRecoveryLocator) (context : KeyHoldingTerminalContext)
    : fresult TerminalCandidate :=
  recovered ← recover_at_locator (recover_cmra_read_at reader) KeyHolding
    (locator_position_read_at locator_offset) locator;
  terminal ← validate_recovered_terminal_read_at (rc_image recovered) (rc_tuple recovered) reader
    context false;
  anchor ← locator_anchor_read_at locator_offset "locator anchor overflow";
  mret {| cd_terminal := terminal; cd_anchor := anchor;
          cd_locator_sequence := Some (rl_locator_sequence locator);
          cd_cmra_offset := rl_cmra_offset locator;
          cd_cmra_length := rc_cmra_length recovered |}.

Definition parse_locatorless_cmra_candidate (b : bytes) (cmra_offset : Z)
    (context : KeyHoldingTerminalContext) : fresult TerminalCandidate :=
  recovered ← recover_locatorless (recover_cmra b) KeyHolding cmra_offset;
  terminal ← validate_recovered_terminal (rc_image recovered) (rc_tuple recovered) b context true;
  anchor ← locatorless_anchor cmra_offset (rc_cmra_length recovered);
  mret {| cd_terminal := terminal; cd_anchor := anchor; cd_locator_sequence := None;
          cd_cmra_offset := cmra_offset; cd_cmra_length := rc_cmra_length recovered |}.

Definition parse_locatorless_cmra_candidate_read_at (reader : R) (cmra_offset : Z)
    (context : KeyHoldingTerminalContext) : fresult TerminalCandidate :=
  recovered ← recover_locatorless (recover_cmra_read_at reader) KeyHolding cmra_offset;
  terminal ← validate_recovered_terminal_read_at (rc_image recovered) (rc_tuple recovered) reader
    context true;
  anchor ← locatorless_anchor_read_at cmra_offset (rc_cmra_length recovered);
  mret {| cd_terminal := terminal; cd_anchor := anchor; cd_locator_sequence := None;
          cd_cmra_offset := cmra_offset; cd_cmra_length := rc_cmra_length recovered |}.

Definition collect_v45_locator_candidate (b : bytes) (context : KeyHoldingTerminalContext)
    (offset expected_sequence : Z) (candidates : list TerminalCandidate)
    : stateful unit (list TerminalCandidate) :=
  collect_candidate (fun locator => lift (parse_locator_cmra_candidate b offset locator context))
    (locator_at b offset) expected_sequence candidates.

Definition collect_v45_locator_candidate_read_at (reader : R)
    (context : KeyHoldingTerminalContext) (offset expected_sequence : Z)
    (candidates : list TerminalCandidate) : stateful unit (list TerminalCandidate) :=
  collect_candidate
    (fun locator => lift (parse_locator_cmra_candidate_read_at reader offset locator context))
    (locator_read_at reader offset) expected_sequence candidates.

Definition locate_v45_terminal_candidate (b : bytes) (context : KeyHoldingTerminalContext)
    (max_trailing_garbage_scan : Z) : fresult TerminalCandidate :=
  candidates ← run_pure (locate_candidates (collect_v45_locator_candidate b context)
    (fun offset => lift (parse_locatorless_cmra_candidate b offset context)) b
    max_trailing_garbage_scan);
  choose_v45_terminal_candidate candidates.

Definition locate_v45_terminal (b : bytes) (context : KeyHoldingTerminalContext)
    (max_trailing_garbage_scan : Z) : fresult V45Terminal :=
  cd_terminal <$> locate_v45_terminal_candidate b context max_trailing_garbage_scan.

Definition locate_v45_terminal_read_at (reader : R) (len : Z)
    (context : KeyHoldingTerminalContext) (max_trailing_garbage_scan : Z) : fresult V45Terminal :=
  candidates ← run_pure (locate_candidates_read_at
    (collect_v45_locator_candidate_read_at reader context)
    (fun offset => lift (parse_locatorless_cmra_candidate_read_at reader offset context))
    reader len max_trailing_garbage_scan);
  cd_terminal <$> choose_v45_terminal_candidate candidates.

(** ** With a master key *)
Definition parse_locator_cmra_authority_candidate (b : bytes) (locator_offset : Z)
    (locator : CriticalRecoveryLocator) (master_key : bytes)
    : fresult TerminalAuthorityCandidate :=
  recovered ← recover_at_locator (recover_cmra b) KeyHolding (Ok locator_offset) locator;
  authority ← validate_recovered_terminal_authority (rc_image recovered) (rc_tuple recovered)
    master_key false;
  anchor ← locator_anchor locator_offset;
  mret {| ac_authority := authority; ac_anchor := anchor;
          ac_cmra_offset := rl_cmra_offset locator; ac_cmra_length := rc_cmra_length recovered |}.

Definition parse_locator_cmra_authority_candidate_read_at (reader : R) (locator_offset : Z)
    (locator : CriticalRecoveryLocator) (master_key : bytes)
    : fresult TerminalAuthorityCandidate :=
  recovered ← recover_at_locator (recover_cmra_read_at reader) KeyHolding
    (locator_position_read_at locator_offset) locator;
  authority ← validate_recovered_terminal_authority (rc_image recovered) (rc_tuple recovered)
    master_key false;
  anchor ← locator_anchor_read_at locator_offset "locator anchor overflow";
  mret {| ac_authority := authority; ac_anchor := anchor;
          ac_cmra_offset := rl_cmra_offset locator; ac_cmra_length := rc_cmra_length recovered |}.

Definition parse_locatorless_cmra_authority_candidate (b : bytes) (cmra_offset : Z)
    (master_key : bytes) : fresult TerminalAuthorityCandidate :=
  recovered ← recover_locatorless (recover_cmra b) KeyHolding cmra_offset;
  authority ← validate_recovered_terminal_authority (rc_image recovered) (rc_tuple recovered)
    master_key true;
  anchor ← locatorless_anchor cmra_offset (rc_cmra_length recovered);
  mret {| ac_authority := authority; ac_anchor := anchor; ac_cmra_offset := cmra_offset;
          ac_cmra_length := rc_cmra_length recovered |}.

Definition parse_locatorless_cmra_authority_candidate_read_at (reader : R) (cmra_offset : Z)
    (master_key : bytes) : fresult TerminalAuthorityCandidate :=
  recovered ← recover_locatorless (recover_cmra_read_at reader) KeyHolding cmra_offset;
  authority ← validate_recovered_terminal_authority (rc_image recovered) (rc_tuple recovered)
    master_key true;
  anchor ← locatorless_anchor_read_at cmra_offset (rc_cmra_length recovered);
  mret {| ac_authority := authority; ac_anchor := anchor; ac_cmra_offset := cmra_offset;
          ac_cmra_length := rc_cmra_length recovered |}.

Definition collect_v45_locator_authority_candidate (b : bytes) (master_key : bytes)
    (offset expected_sequence : Z) (candidates : list TerminalAuthorityCandidate)
    : stateful unit (list TerminalAuthorityCandidate) :=
  collect_candidate
    (fun locator => lift (parse_locator_cmra_authority_candidate b offset locator master_key))
    (locator_at b offset) expected_sequence candidates.

Definition collect_v45_locator_authority_candidate_read_at (reader : R) (master_key : bytes)
    (offset expected_sequence : Z) (candidates : list TerminalAuthorityCandidate)
    : stateful unit (list TerminalAuthorityCandidate) :=
  collect_candidate
    (fun locator =>
       lift (parse_locator_cmra_authority_candidate_read_at reader offset locator master_key))
    (locator_read_at reader offset) expected_sequence candidates.

Definition locate_v45_terminal_authority (b : bytes) (master_key : bytes)
    (max_trailing_garbage_scan : Z) : fresult RecoveredTerminalAuthority :=
  candidates ← run_pure (locate_candidates (collect_v45_locator_authority_candidate b master_key)
    (fun offset => lift (parse_locatorless_cmra_authority_candidate b offset master_key)) b
    max_trailing_garbage_scan);
  ac_authority <$> choose_v45_terminal_authority_candidate candidates.

Definition locate_v45_terminal_authority_read_at (reader : R) (len : Z) (master_key : bytes)
    (max_trailing_garbage_scan : Z) : fresult RecoveredTerminalAuthority :=
  candidates ← run_pure (locate_candidates_read_at
    (collect_v45_locator_authority_candidate_read_at reader master_key)
    (fun offset =>
       lift (parse_locatorless_cmra_authority_candidate_read_at reader offset master_key))
    reader len max_trailing_garbage_scan);
  ac_authority <$> choose_v45_terminal_authority_candidate candidates.

(** ** With a resolver of recipient keys *)
Section RecipientWrap.
Context {S : Type} (resolver : RecipientWrapRecordContext -> stateful S (list bytes)).

Definition parse_locator_cmra_recipient_wrap_authority_candidate (b : bytes) (locator_offset : Z)
    (locator : CriticalRecoveryLocator) : stateful S RecipientWrapTerminalAuthorityCandidate :=
  recovered ← lift (recover_at_locator (recover_cmra b) KeyHolding (Ok locator_offset) locator);
  authority ← validate_recovered_recipient_wrap_terminal_authority (rc_image recovered)
    (rc_tuple recovered) resolver false;
  anchor ← lift (locator_anchor locator_offset);
  mret {| wc_authority := authority; wc_anchor := anchor;
          wc_cmra_offset := rl_cmra_offset locator; wc_cmra_length := rc_cmra_length recovered |}.

Definition parse_locator_cmra_recipient_wrap_authority_candidate_read_at (reader : R)
    (locator_offset : Z) (locator : CriticalRecoveryLocator)
    : stateful S RecipientWrapTerminalAuthorityCandidate :=
  recovered ← lift (recover_at_locator (recover_cmra_read_at reader) KeyHolding
    (locator_position_read_at locator_offset) locator);
  authority ← validate_recovered_recipient_wrap_terminal_authority (rc_image recovered)
    (rc_tuple recovered) resolver false;
  anchor ← lift (locator_anchor_read_at locator_offset "locator anchor overflow");
  mret {| wc_authority := authority; wc_anchor := anchor;
          wc_cmra_offset := rl_cmra_offset locator; wc_cmra_length := rc_cmra_length recovered |}.

Definition parse_locatorless_cmra_recipient_wrap_authority_candidate (b : bytes)
    (cmra_offset : Z) : stateful S RecipientWrapTerminalAuthorityCandidate :=
  recovered ← lift (recover_locatorless (recover_cmra b) KeyHolding cmra_offset);
  authority ← validate_recovered_recipient_wrap_terminal_authority (rc_image recovered)
    (rc_tuple recovered) resolver true;
  anchor ← lift (locatorless_anchor cmra_offset (rc_cmra_length recovered));
  mret {| wc_authority := authority; wc_anchor := anchor; wc_cmra_offset := cmra_offset;
          wc_cmra_length := rc_cmra_length recovered |}.

Definition parse_locatorless_cmra_recipient_wrap_authority_candidate_read_at (reader : R)
    (cmra_offset : Z) : stateful S RecipientWrapTerminalAuthorityCandidate :=
  recovered ← lift (recover_locatorless (recover_cmra_read_at reader) KeyHolding cmra_offset);
  authority ← validate_recovered_recipient_wrap_terminal_authority (rc_image recovered)
    (rc_tuple recovered) resolver true;
  anchor ← lift (locatorless_anchor_read_at cmra_offset (rc_cmra_length recovered));
  mret {| wc_authority := authority; wc_anchor := anchor; wc_cmra_offset := cmra_offset;
          wc_cmra_length := rc_cmra_length recovered |}.

Definition collect_v45_recipient_wrap_locator_authority_candidate (b : bytes)
    (offset expected_sequence : Z) (candidates : list RecipientWrapTerminalAuthorityCandidate)
    : stateful S (list RecipientWrapTerminalAuthorityCandidate) :=
  collect_candidate (parse_locator_cmra_recipient_wrap_authority_candidate b offset)
    (locator_at b offset) expected_sequence candidates.

Definition collect_v45_recipient_wrap_locator_authority_candidate_read_at (reader : R)
    (offset expected_sequence : Z) (candidates : list RecipientWrapTerminalAuthorityCandidate)
    : stateful S (list RecipientWrapTerminalAuthorityCandidate) :=
  collect_candidate (parse_locator_cmra_recipient_wrap_authority_candidate_read_at reader offset)
    (locator_read_at reader offset) expected_sequence candidates.

Definition locate_v45_recipient_wrap_terminal_authority (b : bytes)
    (max_trailing_garbage_scan : Z) : stateful S RecoveredRecipientWrapTerminalAuthority :=
  candidates ← locate_candidates (collect_v45_recipient_wrap_locator_authority_candidate b)
    (parse_locatorless_cmra_recipient_wrap_authority_candidate b) b max_trailing_garbage_scan;
  lift (wc_authority <$> choose_v45_recipient_wrap_terminal_authority_candidate candidates).

Definition locate_v45_recipient_wrap_terminal_authority_read_at (reader : R) (len : Z)
    (max_trailing_garbage_scan : Z) : stateful S RecoveredRecipientWrapTerminalAuthority :=
  candidates ← locate_candidates_read_at
    (collect_v45_recipient_wrap_locator_authority_candidate_read_at reader)
    (parse_locatorless_cmra_recipient_wrap_authority_candidate_read_at reader) reader len
    max_trailing_garbage_scan;
  lift (wc_authority <$> choose_v45_recipient_wrap_terminal_authority_candidate candidates).
End RecipientWrap.

(** ** Without keys *)
Section Public.
Context (volume_header : VolumeHeader) (crypto_header : CryptoHeader).

Definition parse_public_locator_cmra_candidate (b : bytes) (locator_offset : Z)
    (locator : CriticalRecoveryLocator) : fresult PublicTerminalCandidate :=
  recovered ← recover_at_locator (recover_cmra b) PublicNoKey (Ok locator_offset) locator;
  terminal ← validate_recovered_public_terminal (rc_image recovered) b volume_header
    crypto_header false;
  anchor ← locator_anchor locator_offset;
  mret {| pc_terminal := terminal; pc_anchor := anchor;
          pc_cmra_offset := rl_cmra_offset locator; pc_cmra_length := rc_cmra_length recovered |}.

Definition parse_public_locator_cmra_candidate_read_at (reader : R) (locator_offset : Z)
    (locator : CriticalRecoveryLocator) : fresult PublicTerminalCandidate :=
  recovered ← recover_at_locator (recover_cmra_read_at reader) PublicNoKey
    (locator_position_read_at locator_offset) locator;
  terminal ← validate_recovered_public_terminal_read_at (rc_image recovered) reader volume_header
    crypto_header false;
  anchor ← locator_anchor_read_at locator_offset "locator anchor";
  mret {| pc_terminal := terminal; pc_anchor := anchor;
          pc_cmra_offset := rl_cmra_offset locator; pc_cmra_length := rc_cmra_length recovered |}.

Definition parse_public_locatorless_cmra_candidate (b : bytes) (cmra_offset : Z)
    : fresult PublicTerminalCandidate :=
  recovered ← recover_locatorless (recover_cmra b) PublicNoKey cmra_offset;
  terminal ← validate_recovered_public_terminal (rc_image recovered) b volume_header
    crypto_header true;
  anchor ← locatorless_anchor cmra_offset (rc_cmra_length recovered);
  mret {| pc_terminal := terminal; pc_anchor := anchor; pc_cmra_offset := cmra_offset;
          pc_cmra_length := rc_cmra_length recovered |}.

Definition parse_public_locatorless_cmra_candidate_read_at (reader : R) (cmra_offset : Z)
    : fresult PublicTerminalCandidate :=
  recovered ← recover_locatorless (recover_cmra_read_at reader) PublicNoKey cmra_offset;
  terminal ← validate_recovered_public_terminal_read_at (rc_image recovered) reader volume_header
    crypto_header true;
  anchor ← locatorless_anchor_read_at cmra_offset (rc_cmra_length recovered);
  mret {| pc_terminal := terminal; pc_anchor := anchor; pc_cmra_offset := cmra_offset;
          pc_cmra_length := rc_cmra_length recovered |}.

Definition collect_v45_public_locator_candidate (b : bytes) (offset expected_sequence : Z)
    (candidates : list PublicTerminalCandidate)
    : stateful unit (list PublicTerminalCandidate) :=
  collect_candidate (fun locator => lift (parse_public_locator_cmra_candidate b offset locator))
    (locator_at b offset) expected_sequence candidates.

Definition collect_v45_public_locator_candidate_read_at (reader : R)
    (offset expected_sequence : Z) (candidates : list PublicTerminalCandidate)
    : stateful unit (list PublicTerminalCandidate) :=
  collect_candidate
    (fun locator => lift (parse_public_locator_cmra_candidate_read_at reader offset locator))
    (locator_read_at reader offset) expected_sequence candidates.

Definition locate_v45_public_terminal (b : bytes) (max_trailing_garbage_scan : Z)
    : fresult V45PublicTerminal :=
  candidates ← run_pure (locate_candidates (collect_v45_public_locator_candidate b)
    (fun offset => lift (parse_public_locatorless_cmra_candidate b offset)) b
    max_trailing_garbage_scan);
  pc_terminal <$> choose_v45_public_terminal_candidate candidates.

Definition locate_v45_public_terminal_read_at (reader : R) (len : Z)
    (max_trailing_garbage_scan : Z) : fresult V45PublicTerminal :=
  candidates ← run_pure (locate_candidates_read_at
    (collect_v45_public_locator_candidate_read_at reader)
    (fun offset => lift (parse_public_locatorless_cmra_candidate_read_at reader offset))
    reader len max_trailing_garbage_scan);
  pc_terminal <$> choose_v45_public_terminal_candidate candidates.
End Public.

(** The layout flags of a volume, without any validation of its terminal. *)
Definition public_no_key_layout_flags_at (reader : R) (offset expected_sequence : Z)
    : fresult (option Z) :=
  raw ← locator_read_at reader offset;
  match raw with
  | None => Ok None
  | Some raw =>
      locator ← ok (CriticalRecoveryLocator_parse raw);
      match locator with
      | None => Ok None
      | Some locator =>
          if negb (rl_locator_sequence locator =? expected_sequence) then Ok None
          else
            let tuple := CmraDecoderTuple_from_locator locator in
            recovered ← ok
              (recover_cmra_read_at reader (rl_cmra_offset locator) (Some tuple) PublicNoKey);
            mret (option_map (fun recovered => mi_layout_flags (rc_image recovered)) recovered)
      end
  end.

Definition public_no_key_layout_flags (reader : R) (len : Z) : fresult (option Z) :=
  flags ← (if CRITICAL_RECOVERY_LOCATOR_LEN <=? len
           then public_no_key_layout_flags_at reader (len - CRITICAL_RECOVERY_LOCATOR_LEN) 0
           else Ok None);
  match flags with
  | Some flags => Ok (Some flags)
  | None =>
      if LOCATOR_PAIR_LEN <=? len
      then public_no_key_layout_flags_at reader (len - LOCATOR_PAIR_LEN) 1
      else Ok None
  end.
End Instances.
