(* ===== verification/TerminalCorrect.v ===== *)
(** * The search for the terminal is correct

    The search on a reader gives what the search on the same bytes in memory
    gives; it returns a value or an error whatever the bytes; and the choice
    among the candidates takes the one that ends last. *)

From S2P Require Import Wire VolumeHeader Kdf CryptoHeaderFixed Crypto Extensions CryptoHeader.
From S2P Require Import Fec FecCorrect Footers KeyWrap RootAuthFooter MetadataImage Recovery.
From S2P Require Import ObjectReader Ordering CmraReader Terminal TerminalSearch.
From Stdlib Require Import Sorting.Sorted.
#[local] Open Scope Z_scope.

(** ** Computations that agree up to the error *)
Definition agree {A} (x y : fresult A) : Prop := ok x = ok y.

#[export] Instance agree_equivalence {A} : Equivalence (@agree A).
Proof. unfold agree. split; repeat intro; congruence. Qed.

Lemma ok_Ok {A} (x : fresult A) a : ok x = Ok (Some a) <-> x = Ok a.
Proof. destruct x; cbn; split; congruence. Qed.

Lemma agree_bind {A B} (x y : fresult A) (f g : A -> fresult B) :
  agree x y -> (forall a, x = Ok a -> y = Ok a -> agree (f a) (g a)) ->
  agree (x ≫= f) (y ≫= g).
Proof. unfold agree. destruct x, y; cbn; intros H Hf; simplify_eq; try done. by apply Hf. Qed.

Lemma agree_same {A B} (x : fresult A) (f g : A -> fresult B) :
  (forall a, x = Ok a -> agree (f a) (g a)) -> agree (x ≫= f) (x ≫= g).
Proof. intros. by apply agree_bind; auto. Qed.

(** Equality of computations that thread a state. *)
Definition st_eq {S A} (m n : stateful S A) : Prop := forall s, m s = n s.

#[export] Instance st_eq_equivalence {S A} : Equivalence (@st_eq S A).
Proof.
  unfold st_eq. split; repeat intro; [done|by symmetry|etransitivity; eauto].
Qed.

#[export] Instance st_bind_proper {S A B} :
  Proper (pointwise_relation A st_eq ==> st_eq ==> st_eq) (@mbind (stateful S) _ A B).
Proof.
  intros f g Hf m n Hm s. unfold mbind, stateful_bind. rewrite Hm.
  destruct (n s) as [[a| |] s']; [apply Hf|done..].
Qed.

Definition st_agree {S A} (m n : stateful S A) : Prop := st_eq (attempt m) (attempt n).

Lemma st_agree_lift {S A} (x y : fresult A) : agree x y -> st_agree (S := S) (lift x) (lift y).
Proof. unfold agree, st_agree, attempt, lift. intros H s. by destruct x, y; simplify_eq. Qed.

Lemma st_agree_lift_bind {S A B} (x y : fresult A) (f g : A -> stateful S B) :
  agree x y -> (forall a, x = Ok a -> st_agree (f a) (g a)) ->
  st_agree (lift x ≫= f) (lift y ≫= g).
Proof.
  unfold agree, st_agree, attempt, lift, mbind, stateful_bind. intros H Hf s.
  destruct x, y; cbn in *; simplify_eq; try done. by apply Hf.
Qed.

Lemma st_agree_bind {S A B} (m : stateful S A) (f g : A -> stateful S B) :
  (forall a, st_agree (f a) (g a)) -> st_agree (m ≫= f) (m ≫= g).
Proof.
  unfold st_agree, attempt, mbind, stateful_bind. intros Hf s.
  destruct (m s) as [[a| |] s']; try done. apply Hf.
Qed.

(** ** Reading from a vector *)
Section Vec.
Context (b : bytes) (Hb : blen b < 2 ^ 63).

Lemma reader_slice_range off n s :
  0 <= n -> ok (reader_slice b off n s) = Ok (get_range b off (off + n)).
Proof.
  intros Hn. unfold reader_slice, checked_add_usize, checked_add.
  case_match eqn:E; cbn [ok_or mbind result_bind]; [by destruct (get_range _ _ _)|].
  unfold get_range. case_match; [lia|done].
Qed.

Lemma read_at_vec_range off n s :
  0 <= n -> ok (read_at_vec b off n s) = Ok (get_range b off (off + n)).
Proof.
  intros Hn. pose proof (blen_nonneg b). unfold read_at_vec, checked_add. case_match eqn:E.
  2: { cbn. unfold get_range. case_match; [lia|done]. }
  cbn [ok_or mbind result_bind ra_len Vec_ArchiveReadAt read_exact_at]. unfold Vec_len.
  rewrite (proj2 (try_from_Some 64 (blen b) (blen b))) by (unfold fits; lia).
  cbn [ok_or mbind result_bind]. destruct (blen b <? off + n) eqn:E2.
  - unfold get_range. case_match; [lia|].
    unfold to_usize. destruct (try_from 64 (off + n)); [|done]. cbn [ok_or mbind result_bind].
    by destruct (try_from 64 (blen b)).
  - cbn [mbind result_bind]. unfold Vec_read_exact_at, to_usize.
    destruct (try_from 64 off) as [o|] eqn:Eo; cbn [ok_or mbind result_bind].
    + apply try_from_Some in Eo as [-> Ho]. unfold checked_add_usize, checked_add. rewrite E.
      cbn [ok_or mbind result_bind]. by destruct (get_range _ _ _).
    + unfold get_range. case_match; [|done]. unfold try_from, fitsb in Eo. case_match; [done|lia].
Qed.

Lemma read_agrees off n s s' :
  0 <= n -> agree (read_at_vec b off n s) (reader_slice b off n s').
Proof. intros. unfold agree. by rewrite read_at_vec_range, reader_slice_range. Qed.

Lemma reader_slice_Ok off n s x :
  0 <= n -> reader_slice b off n s = Ok x ->
  0 <= off /\ off + n <= blen b /\ x = seg b off (off + n).
Proof.
  intros Hn H. apply ok_Ok in H. rewrite reader_slice_range in H by done.
  injection H as H. apply get_range_Some in H as (? & _ & ? & ?). done.
Qed.

Context {C : Crc32c} {Sha : Sha256} {Lib : CryptoLib} {T : Target}.

Lemma recover_cmra_agrees off tuple mode :
  agree (recover_cmra_read_at b off tuple mode) (recover_cmra b off tuple mode).
Proof.
  unfold recover_cmra_read_at, recover_cmra. destruct (to_usize off "CMRA") as [o| |] eqn:Eo.
  - apply ok_or_Ok, try_from_Some in Eo as [-> Ho]. rewrite bind_ret.
    apply agree_bind; [apply read_agrees; by vm_compute|]. intros h _ _.
    apply agree_same. intros [t hints] _. apply agree_same. intros _ _.
    apply agree_same. intros len _. apply agree_same. intros n Hn.
    apply ok_or_Ok, try_from_Some in Hn as [-> Hn]. unfold fits in Hn.
    apply agree_bind; [apply read_agrees; lia|]. done.
  - cbn [mbind result_bind].
    pose proof (read_at_vec_range off CRITICAL_METADATA_RECOVERY_HEADER_LEN
      "CriticalMetadataRecoveryHeader" ltac:(by vm_compute)) as H.
    unfold get_range in H. pose proof (blen_nonneg b).
    case_match eqn:Er; [|by destruct (read_at_vec b off _ _)].
    exfalso. unfold to_usize, try_from, fitsb in Eo. change CRITICAL_METADATA_RECOVERY_HEADER_LEN with 116 in *.
    case_match; [done|lia].
  - unfold to_usize in Eo. by destruct (try_from 64 off).
Qed.

(** A recovered area lies inside the bytes it was recovered from, and the image
    says where it begins. *)
Record inside (off : Z) (r : RecoveredCmra) : Prop := {
  in_start : 0 <= off;
  in_header : off + 116 <= blen b;
  in_length : 0 <= rc_cmra_length r;
  in_end : off + rc_cmra_length r <= blen b
}.

Lemma recover_cmra_inside off tuple mode r : recover_cmra b off tuple mode = Ok r -> inside off r.
Proof.
  unfold recover_cmra. intros H. apply bind_Ok in H as (o & Ho & H).
  apply ok_or_Ok, try_from_Some in Ho as [-> Ho]. apply bind_Ok in H as (h & Hh & H).
  apply reader_slice_Ok in Hh; [|by vm_compute]. change CRITICAL_METADATA_RECOVERY_HEADER_LEN with 116 in Hh.
  bind_inv H. apply ok_or_Ok, try_from_Some in Hr2 as [-> Hlen]. unfold fits in Hlen.
  apply reader_slice_Ok in Hr3; [|lia]. unfold recover_cmra_from_bytes in H. bind_inv H.
  subst r. constructor; cbn; lia.
Qed.

Lemma recover_at_locator_inside mode position locator r :
  recover_at_locator (recover_cmra b) mode position locator = Ok r ->
  inside (mi_body_bytes_before_cmra (rc_image r)) r.
Proof.
  unfold recover_at_locator. intros H. bind_inv H. subst r5.
  apply recover_cmra_inside in Hr4. unfold validate_locator_position in Hr3. bind_inv Hr3.
  unfold validate_locator_image_boundary in Hr7. bind_inv Hr7.
  replace (mi_body_bytes_before_cmra (rc_image r)) with (rl_cmra_offset locator) by lia. done.
Qed.

Lemma recover_locatorless_inside mode off r :
  recover_locatorless (recover_cmra b) mode off = Ok r ->
  inside off r /\ mi_body_bytes_before_cmra (rc_image r) = off.
Proof.
  unfold recover_locatorless. intros H. bind_inv H. subst. split; [|lia].
  by eapply recover_cmra_inside.
Qed.

(** *** Candidates *)
Lemma recover_at_locator_agrees off mode locator :
  0 <= off < 2 ^ 64 ->
  agree (recover_at_locator (recover_cmra_read_at b) mode (locator_position_read_at off) locator)
        (recover_at_locator (recover_cmra b) mode (Ok off) locator).
Proof.
  intros Hoff. unfold locator_position_read_at, to_usize.
  rewrite (proj2 (try_from_Some 64 off off)) by (unfold fits; lia). cbn [ok_or].
  unfold recover_at_locator. do 3 (apply agree_same; intros ? _). rewrite !bind_ret.
  apply agree_same. intros _ _. apply agree_bind; [apply recover_cmra_agrees|]. done.
Qed.

Lemma recover_locatorless_agrees mode off :
  agree (recover_locatorless (recover_cmra_read_at b) mode off)
        (recover_locatorless (recover_cmra b) mode off).
Proof. apply agree_bind; [apply recover_cmra_agrees|]. done. Qed.

Lemma to_usize_Ok z s : 0 <= z < 2 ^ 64 -> to_usize z s = Ok z.
Proof. intros. unfold to_usize. by rewrite (proj2 (try_from_Some 64 z z)) by (unfold fits; lia). Qed.

Lemma reader_u64_add_Ok x y s : x + y < 2 ^ 64 -> checked_u64_add x y s = Ok (x + y).
Proof. intros. unfold checked_u64_add. by rewrite checked_add_eq. Qed.

Lemma locator_anchors off s :
  0 <= off -> off + CRITICAL_RECOVERY_LOCATOR_LEN <= blen b ->
  locator_anchor_read_at off s = locator_anchor off.
Proof.
  change CRITICAL_RECOVERY_LOCATOR_LEN with 128. intros H0 H.
  unfold locator_anchor_read_at, locator_anchor. change CRITICAL_RECOVERY_LOCATOR_LEN with 128.
  rewrite reader_u64_add_Ok by lia. rewrite bind_ret, to_usize_Ok by lia.
  by rewrite checked_add_eq by lia.
Qed.

Lemma locatorless_anchors off r :
  inside off r ->
  locatorless_anchor_read_at off (rc_cmra_length r) = locatorless_anchor off (rc_cmra_length r).
Proof.
  intros []. unfold locatorless_anchor_read_at, locatorless_anchor.
  rewrite reader_u64_add_Ok, bind_ret by lia. rewrite !to_usize_Ok, bind_ret by lia.
  by rewrite checked_add_eq by lia.
Qed.

(** What the reader finds at the boundary is what the slice has there. *)
Lemma boundary_agrees {A} off r (f : bool -> fresult A) :
  inside off r ->
  (magic ← read_exact_at b off 4; f (bytes_eqb magic TZCR_MAGIC))
  = (cmra_offset ← to_usize off "CMRA"; ok ← boundary_magic_ok b cmra_offset; f ok).
Proof.
  intros []. rewrite to_usize_Ok, bind_ret by lia. unfold boundary_magic_ok, get_at.
  rewrite checked_add_eq, bind_ret by lia. cbn [read_exact_at Vec_ArchiveReadAt].
  unfold Vec_read_exact_at, checked_add_usize. rewrite to_usize_Ok, bind_ret by lia.
  rewrite checked_add_eq by lia. cbn [ok_or mbind result_bind].
  assert (get_range b off (off + 4) = Some (seg b off (off + 4))) as -> by (apply get_range_Some; split_and!; lia || done).
  cbn [ok_or mbind result_bind]. rewrite mret_eq, bind_ret. f_equal. unfold bytes_eqb.
  apply bool_decide_ext. split; congruence.
Qed.

(** Candidates that a reader and a slice agree on. *)
Ltac candidate_agrees recovered :=
  apply agree_bind; [exact recovered|]; intros r _ Hr.

Section Agree.
Context (off : Z) (locator : CriticalRecoveryLocator).
Context (Hoff : 0 <= off) (Hend : off + CRITICAL_RECOVERY_LOCATOR_LEN <= blen b).

Lemma off_u64 : 0 <= off < 2 ^ 64.
Proof. change CRITICAL_RECOVERY_LOCATOR_LEN with 128 in Hend. lia. Qed.

Lemma locator_candidate_agrees context :
  agree (parse_locator_cmra_candidate_read_at b off locator context)
        (parse_locator_cmra_candidate b off locator context).
Proof.
  candidate_agrees (recover_at_locator_agrees off KeyHolding locator off_u64).
  apply recover_at_locator_inside in Hr. apply agree_bind.
  - unfold validate_recovered_terminal_read_at, validate_recovered_terminal.
    by rewrite (boundary_agrees _ r (fun ok => validate_recovered_terminal_inner _ _ _ ok _)).
  - intros terminal _ _. by rewrite locator_anchors.
Qed.

Lemma locator_authority_candidate_agrees master_key :
  agree (parse_locator_cmra_authority_candidate_read_at b off locator master_key)
        (parse_locator_cmra_authority_candidate b off locator master_key).
Proof.
  candidate_agrees (recover_at_locator_agrees off KeyHolding locator off_u64).
  apply agree_same. intros authority _. by rewrite locator_anchors.
Qed.

Lemma locator_recipient_wrap_candidate_agrees {S} (resolver : RecipientWrapRecordContext -> stateful S (list bytes)) :
  st_agree (parse_locator_cmra_recipient_wrap_authority_candidate_read_at resolver b off locator)
           (parse_locator_cmra_recipient_wrap_authority_candidate resolver b off locator).
Proof.
  apply st_agree_lift_bind; [exact (recover_at_locator_agrees off KeyHolding locator off_u64)|].
  intros r _. apply st_agree_bind. intros authority. by rewrite locator_anchors.
Qed.

Lemma public_locator_candidate_agrees volume_header crypto_header :
  agree (parse_public_locator_cmra_candidate_read_at volume_header crypto_header b off locator)
        (parse_public_locator_cmra_candidate volume_header crypto_header b off locator).
Proof.
  candidate_agrees (recover_at_locator_agrees off PublicNoKey locator off_u64).
  apply recover_at_locator_inside in Hr. apply agree_bind.
  - unfold validate_recovered_public_terminal_read_at, validate_recovered_public_terminal.
    by rewrite (boundary_agrees _ r (fun ok => validate_recovered_public_terminal_inner _ _ _ _ ok)).
  - intros terminal _ _. by rewrite locator_anchors.
Qed.
End Agree.

Lemma locatorless_candidate_agrees off context :
  agree (parse_locatorless_cmra_candidate_read_at b off context)
        (parse_locatorless_cmra_candidate b off context).
Proof.
  candidate_agrees (recover_locatorless_agrees KeyHolding off).
  apply recover_locatorless_inside in Hr as [Hr Hbody]. apply agree_bind.
  - unfold validate_recovered_terminal_read_at, validate_recovered_terminal. rewrite Hbody.
    by rewrite (boundary_agrees _ r (fun ok => validate_recovered_terminal_inner _ _ _ ok _)).
  - intros terminal _ _. by rewrite locatorless_anchors.
Qed.

Lemma locatorless_authority_candidate_agrees off master_key :
  agree (parse_locatorless_cmra_authority_candidate_read_at b off master_key)
        (parse_locatorless_cmra_authority_candidate b off master_key).
Proof.
  candidate_agrees (recover_locatorless_agrees KeyHolding off).
  apply recover_locatorless_inside in Hr as [Hr _].
  apply agree_same. intros authority _. by rewrite locatorless_anchors.
Qed.

Lemma locatorless_recipient_wrap_candidate_agrees {S}
    (resolver : RecipientWrapRecordContext -> stateful S (list bytes)) off :
  st_agree (parse_locatorless_cmra_recipient_wrap_authority_candidate_read_at resolver b off)
           (parse_locatorless_cmra_recipient_wrap_authority_candidate resolver b off).
Proof.
  apply st_agree_lift_bind; [exact (recover_locatorless_agrees KeyHolding off)|].
  intros r Hr. apply (proj2 (ok_Ok _ _)) in Hr. rewrite (recover_locatorless_agrees KeyHolding off) in Hr.
  apply (proj1 (ok_Ok _ _)) in Hr.
  apply recover_locatorless_inside in Hr as [Hr _].
  apply st_agree_bind. intros authority. by rewrite locatorless_anchors.
Qed.

Lemma public_locatorless_candidate_agrees volume_header crypto_header off :
  agree (parse_public_locatorless_cmra_candidate_read_at volume_header crypto_header b off)
        (parse_public_locatorless_cmra_candidate volume_header crypto_header b off).
Proof.
  candidate_agrees (recover_locatorless_agrees PublicNoKey off).
  apply recover_locatorless_inside in Hr as [Hr Hbody]. apply agree_bind.
  - unfold validate_recovered_public_terminal_read_at, validate_recovered_public_terminal. rewrite Hbody.
    by rewrite (boundary_agrees _ r (fun ok => validate_recovered_public_terminal_inner _ _ _ _ ok)).
  - intros terminal _ _. by rewrite locatorless_anchors.
Qed.
End Vec.

(** ** The search as a whole *)
Section SearchAgrees.
Context {St A : Type} (b : bytes) (Hb : blen b < 2 ^ 63).
Context (collect collect' : Z -> Z -> list A -> stateful St (list A)).
Context (locatorless locatorless' : Z -> stateful St A).
Hypothesis collect_agrees : forall off sequence candidates, 0 <= off <= blen b ->
  st_eq (collect' off sequence candidates) (collect off sequence candidates).
Hypothesis locatorless_agrees : forall off, st_agree (locatorless' off) (locatorless off).

Lemma push_agrees (m n : stateful St A) candidates :
  st_agree m n -> st_eq (push_candidate m candidates) (push_candidate n candidates).
Proof. unfold push_candidate. intros H. apply st_bind_proper; [done|exact H]. Qed.

Lemma scan_step_agrees off found candidates : 0 <= off <= blen b ->
  st_eq (scan_step collect' locatorless' off found candidates)
        (scan_step collect locatorless off found candidates).
Proof. intros. unfold scan_step. repeat case_match; [by apply collect_agrees|by apply push_agrees|done]. Qed.

Lemma get_range_seg start i j :
  0 <= start <= blen b -> 0 <= i -> i <= j -> get_range (seg b start (blen b)) i j = get_range b (start + i) (start + j).
Proof.
  intros Hs Hi Hj. apply option_eq. intros x. rewrite !get_range_Some.
  rewrite blen_seg by lia. split.
  - intros (_ & _ & Hle & ->). rewrite seg_seg by lia. split_and!; lia || done.
  - intros (_ & _ & Hle & ->). rewrite seg_seg by lia. split_and!; lia || done.
Qed.

Lemma st_bind_lift {B D} (a : B) (f : B -> stateful St D) : st_eq (lift (Ok a) ≫= f) (f a).
Proof. done. Qed.

Lemma found_agrees start offset n :
  0 <= start <= blen b -> 0 <= offset -> 0 <= n -> start + offset + n < 2 ^ 64 ->
  get_at (seg b start (blen b)) offset n = get_at b (start + offset) n.
Proof.
  intros. unfold get_at. rewrite !checked_add_eq by lia. rewrite get_range_seg by lia.
  by rewrite Z.add_assoc.
Qed.

Lemma Z_leb_false x y : y < x -> (x <=? y) = false.
Proof. apply Z.leb_gt. Qed.

Lemma Z_ltb_false x y : y <= x -> (x <? y) = false.
Proof. apply Z.ltb_ge. Qed.

(** The scan of the end of the reader is the scan of the slice, shifted. *)
Lemma scan_tail_agrees start offset candidates :
  0 <= start -> start + Z.of_nat offset < blen b ->
  st_eq (scan_tail collect' locatorless' (seg b start (blen b)) start offset candidates)
        (scan_slice collect locatorless b start (Z.to_nat start + offset) candidates).
Proof.
  intros Hs. revert candidates. induction offset as [|offset IH]; intros candidates Ho;
    cbn [scan_tail]; rewrite blen_seg by lia; rewrite Z_leb_false by lia;
    rewrite reader_u64_add_Ok by lia; rewrite st_bind_lift; rewrite found_agrees by lia.
  - replace (Z.to_nat start + 0)%nat with (Z.to_nat start) by lia. rewrite Z.add_0_r.
    destruct (Z.to_nat start) as [|k] eqn:Ek; cbn [scan_slice]; rewrite Z_ltb_false by lia.
    + replace start with 0 by lia.
      apply st_bind_proper; [intros found|done].
      by apply st_bind_proper; [intros ?|apply scan_step_agrees; lia].
    + replace (Z.of_nat (Datatypes.S k)) with start by lia.
      apply st_bind_proper; [intros found|done].
      apply st_bind_proper; [intros candidates'|apply scan_step_agrees; lia].
      destruct k; cbn [scan_slice]; by rewrite (proj2 (Z.ltb_lt _ _)) by lia.
  - replace (Z.to_nat start + Datatypes.S offset)%nat with (Datatypes.S (Z.to_nat start + offset)) by lia.
    cbn [scan_slice]. rewrite Z_ltb_false by lia.
    replace (Z.of_nat (Datatypes.S (Z.to_nat start + offset))) with (start + Z.of_nat (Datatypes.S offset)) by lia.
    apply st_bind_proper; [intros found|done].
    apply st_bind_proper; [intros candidates'|apply scan_step_agrees; lia].
    apply IH. lia.
Qed.

Lemma final_and_mirror_agree :
  st_eq (collect_final_and_mirror collect' (blen b)) (collect_final_and_mirror collect (blen b)).
Proof.
  unfold collect_final_and_mirror. change CRITICAL_RECOVERY_LOCATOR_LEN with 128. change LOCATOR_PAIR_LEN with 256.
  apply st_bind_proper.
  - intros candidates. case_match; [apply collect_agrees; lia|done].
  - case_match; [apply collect_agrees; lia|done].
Qed.

(** The read of the tail of a vector. *)
Lemma read_tail start s :
  0 <= start <= blen b -> read_at_vec b start (blen b - start) s = Ok (seg b start (blen b)).
Proof.
  intros H. apply ok_Ok. rewrite read_at_vec_range by lia. f_equal.
  apply get_range_Some. split_and!; try lia. f_equal. lia.
Qed.

Lemma locate_candidates_agree limit :
  st_eq (locate_candidates_read_at collect' locatorless' b (blen b) limit)
        (locate_candidates collect locatorless b limit).
Proof.
  unfold locate_candidates_read_at, locate_candidates. apply st_bind_proper; [|apply final_and_mirror_agree].
  intros [|c l]; [|done]. unfold max_critical_recovery_scan. rewrite cmra_worst_case_cap_eq, bind_ret.
  destruct (try_from 64 limit) as [scan|] eqn:E; [|done]. apply try_from_Some in E as [-> Hl]. unfold fits in Hl.
  cbn [ok_or]. rewrite bind_ret. destruct (checked_add3 limit 2638004 LOCATOR_PAIR_LEN) as [total|] eqn:E; [|done].
  change LOCATOR_PAIR_LEN with 256 in *. apply checked_add3_Some in E as [Ht ->]; [|lia].
  cbn [ok_or]. rewrite bind_ret. rewrite (proj2 (try_from_Some 64 _ (limit + 2638004 + 256))) by (unfold fits in *; lia).
  cbn [ok_or]. rewrite !st_bind_lift. set (scan := limit + 2638004 + 256) in *.
  set (start := Z.max 0 (blen b - scan)). pose proof (blen_nonneg b).
  assert (0 <= start <= blen b) as Hstart by lia.
  replace (Z.max 0 (blen b - start)) with (blen b - start) by lia.
  rewrite to_usize_Ok, st_bind_lift by lia. rewrite read_tail, st_bind_lift by lia.
  rewrite blen_seg by lia.
  destruct (decide (blen b = 0)) as [Hz|Hz].
  - assert (start = 0) as -> by lia. rewrite Hz.
    change (Z.to_nat (Z.max 0 (0 - 0 - 4))) with 0%nat. change (Z.to_nat (Z.max 0 (0 - 4))) with 0%nat.
    cbn [scan_tail scan_slice]. rewrite blen_seg by lia.
    unfold get_at, get_range. rewrite Hz. done.
  - replace (Z.to_nat (Z.max 0 (blen b - 4)))
      with (Z.to_nat start + Z.to_nat (Z.max 0 (blen b - start - 4)))%nat by lia.
    apply scan_tail_agrees; lia.
Qed.
End SearchAgrees.

(** [collect_candidate] on a reader and on a slice. *)
Lemma collect_candidate_agrees {C : Crc32c} {S A} (b : bytes) off sequence candidates
    (parse' parse : CriticalRecoveryLocator -> stateful S A) :
  blen b < 2 ^ 63 -> 0 <= off <= blen b ->
  (off + CRITICAL_RECOVERY_LOCATOR_LEN <= blen b -> forall locator, st_agree (parse' locator) (parse locator)) ->
  st_eq (collect_candidate parse' (locator_read_at b off) sequence candidates)
        (collect_candidate parse (locator_at b off) sequence candidates).
Proof.
  change CRITICAL_RECOVERY_LOCATOR_LEN with 128. intros Hb Hoff Hparse s.
  unfold collect_candidate, locator_read_at, locator_at, get_at. change CRITICAL_RECOVERY_LOCATOR_LEN with 128.
  rewrite read_at_vec_range by lia. rewrite checked_add_eq by lia.
  destruct (get_range b off (off + 128)) as [raw|] eqn:E; [|done].
  apply get_range_Some in E as (_ & _ & Hend & _). revert s.
  apply st_bind_proper; [intros [raw'|]|done]; [|done].
  apply st_bind_proper; [intros [locator|]|done]; [|done].
  cbv beta iota. destruct (_ && _); [done|]. by apply push_agrees, Hparse.
Qed.

(** ** The choice among the candidates *)
Section Sort.
Context {A : Type} (key : A -> Z).

(** The elements of the greatest key end a sorted list. *)
Lemma sorted_split m l :
  StronglySorted (key_le key) l -> Forall (fun x => key x <= m) l ->
  l = filter (fun x => key x <> m) l ++ filter (fun x => key x = m) l.
Proof.
  induction 1 as [|x l Hs IH Hx]; intros Hm; [done|]. inversion_clear Hm as [|? ? Hxm Hl].
  rewrite !filter_cons. destruct (decide (key x = m)) as [E|E].
  - rewrite decide_False by tauto.
    assert (filter (fun x => key x <> m) l = []) as Hnil.
    { apply elem_of_nil_inv. intros y [Hy Hin]%list_elem_of_filter. rewrite Forall_forall in *.
      specialize (Hx y Hin). specialize (Hl y Hin). apply Z_le_iff in Hx. lia. }
    rewrite Hnil in *. rewrite (IH Hl) at 1. done.
  - rewrite decide_True by done. cbn. f_equal. by apply IH.
Qed.
End Sort.

(** Two candidates that name the same recovery area. *)
Definition same_area {A} `{Candidate A} (x y : A) : bool :=
  (cmra_offset x =? cmra_offset y) && (cmra_length x =? cmra_length y).

(** Among the candidates the search takes the one that ends last, and of
    several the one that was found last; it refuses the choice exactly when
    the one found before that names another recovery area, and reports when
    there is no candidate at all. *)
Theorem choose_candidate_correct {A} `{Candidate A} none ambiguous (candidates : list A) :
  (candidates = [] -> choose_candidate none ambiguous candidates = Err (InvalidArchive none))
  /\ (forall m earlier winner,
        (forall c, c ∈ candidates -> anchor c <= m) ->
        filter (fun c => anchor c = m) candidates = earlier ++ [winner] ->
        choose_candidate none ambiguous candidates
        = if match last earlier with Some previous => same_area previous winner | None => true end
          then Ok winner else Err (InvalidArchive ambiguous)).
Proof.
  split; [by intros ->|]. intros m earlier winner Hm Htop. unfold choose_candidate.
  set (sorted := sort_by_key anchor candidates).
  assert (sorted = filter (fun c => anchor c <> m) sorted ++ earlier ++ [winner]) as Hsplit.
  { rewrite <- Htop, <- (sort_by_key_stable anchor (fun c => anchor c = m)) by (intros; congruence). apply sorted_split; [apply sort_by_key_sorted|].
    apply Forall_forall. intros c Hc. apply Hm. by rewrite <- (sort_by_key_perm anchor). }
  rewrite Hsplit, app_assoc, reverse_snoc.
  assert (anchor winner = m) as Hw.
  { assert (winner ∈ filter (fun c => anchor c = m) candidates) as Hin by (rewrite Htop; set_solver).
    by apply list_elem_of_filter in Hin as [? _]. }
  destruct earlier as [|p earlier _] using rev_ind.
  - rewrite app_nil_r. cbn [last].
    destruct (reverse (filter _ sorted)) as [|q rest] eqn:E; [done|].
    assert (anchor q <> m) as Hq.
    { assert (q ∈ filter (fun c => anchor c <> m) sorted) as Hin by (rewrite <- elem_of_reverse, E; set_solver).
      by apply list_elem_of_filter in Hin as [? _]. }
    rewrite reject_if_false; [done|]. lia.
  - rewrite last_snoc, app_assoc, reverse_snoc.
    assert (anchor p = m) as Hp.
    { assert (p ∈ filter (fun c => anchor c = m) candidates) as Hin by (rewrite Htop; set_solver).
      by apply list_elem_of_filter in Hin as [? _]. }
    unfold same_area. rewrite Hp, Hw, Z.eqb_refl, <- negb_andb. cbn [andb].
    destruct (_ && _); done.
Qed.

(** ** Theorems *)
Section Theorems.
Context {C : Crc32c} {Sha : Sha256} {Lib : CryptoLib} {T : Target}.

(** C25: The search on a reader over some bytes returns what the search on the
    same bytes in memory returns: for a reader with the keys in hand, with a
    master key, with a resolver of recipient keys (whose state it leaves the
    same) and without keys. *)
Theorem search_on_reader_agrees (b : bytes) limit :
  blen b < 2 ^ 63 ->
  (forall context,
     locate_v45_terminal_read_at b (blen b) context limit = locate_v45_terminal b context limit)
  /\ (forall master_key,
     locate_v45_terminal_authority_read_at b (blen b) master_key limit
     = locate_v45_terminal_authority b master_key limit)
  /\ (forall S (resolver : RecipientWrapRecordContext -> stateful S (list bytes)) s,
     locate_v45_recipient_wrap_terminal_authority_read_at resolver b (blen b) limit s
     = locate_v45_recipient_wrap_terminal_authority resolver b limit s)
  /\ (forall volume_header crypto_header,
     locate_v45_public_terminal_read_at volume_header crypto_header b (blen b) limit
     = locate_v45_public_terminal volume_header crypto_header b limit).
Proof.
  intros Hb. split_and!.
  - intros context. unfold locate_v45_terminal_read_at, locate_v45_terminal, locate_v45_terminal_candidate.
    unfold run_pure. rewrite (locate_candidates_agree b Hb (collect_v45_locator_candidate b context) _
      (fun offset => lift (parse_locatorless_cmra_candidate b offset context))).
    + destruct (locate_candidates _ _ _ _ _) as [[]]; done.
    + intros. apply collect_candidate_agrees; [done..|]. intros. apply st_agree_lift, locator_candidate_agrees; done || lia.
    + intros. by apply st_agree_lift, locatorless_candidate_agrees.
  - intros master_key. unfold locate_v45_terminal_authority_read_at, locate_v45_terminal_authority, run_pure.
    rewrite (locate_candidates_agree b Hb (collect_v45_locator_authority_candidate b master_key) _
      (fun offset => lift (parse_locatorless_cmra_authority_candidate b offset master_key))); [done|..].
    + intros. apply collect_candidate_agrees; [done..|]. intros.
      apply st_agree_lift, locator_authority_candidate_agrees; done || lia.
    + intros. by apply st_agree_lift, locatorless_authority_candidate_agrees.
  - intros S resolver. apply st_bind_proper; [done|]. apply (locate_candidates_agree b Hb).
    + intros. apply collect_candidate_agrees; [done..|]. intros.
      apply locator_recipient_wrap_candidate_agrees; done || lia.
    + intros. by apply locatorless_recipient_wrap_candidate_agrees.
  - intros volume_header crypto_header. unfold locate_v45_public_terminal_read_at, locate_v45_public_terminal, run_pure.
    rewrite (locate_candidates_agree b Hb (collect_v45_public_locator_candidate volume_header crypto_header b) _
      (fun offset => lift (parse_public_locatorless_cmra_candidate volume_header crypto_header b offset))); [done|..].
    + intros. apply collect_candidate_agrees; [done..|]. intros.
      apply st_agree_lift, public_locator_candidate_agrees; done || lia.
    + intros. by apply st_agree_lift, public_locatorless_candidate_agrees.
Qed.
End Theorems.

(** ** Concrete inputs *)
Definition example_tail : bytes := TZCR_MAGIC ++ zeros 300.

Lemma search_on_reader_agrees_witness :
  blen example_tail = 304
  /\ locate_v45_terminal_authority_read_at (C := toy_Crc32c) (Sha := toy_Sha256)
       (Lib := toy_CryptoLib) (T := example_target) example_tail (blen example_tail) (zeros 32) 64
     = locate_v45_terminal_authority (C := toy_Crc32c) (Sha := toy_Sha256)
       (Lib := toy_CryptoLib) (T := example_target) example_tail (zeros 32) 64.
Proof.
  split; [vm_compute; reflexivity|].
  apply (search_on_reader_agrees (C := toy_Crc32c) (Sha := toy_Sha256) (Lib := toy_CryptoLib)
    (T := example_target) example_tail 64 ltac:(by vm_compute)).
Defined.

(** Candidates given by anchor, offset and length. *)
Definition example_candidate : Candidate (Z * Z * Z) :=
  {| anchor := fun c => c.1.1; cmra_offset := fun c => c.1.2; cmra_length := fun c => c.2 |}.

Lemma choose_candidate_correct_witness :
  choose_candidate (H := example_candidate) "none" "ambiguous" [(9, 1, 2); (5, 4, 1); (9, 1, 2)]
  = Ok (9, 1, 2)
  /\ choose_candidate (H := example_candidate) "none" "ambiguous" [(9, 7, 2); (5, 4, 1); (9, 1, 2)]
     = Err (InvalidArchive "ambiguous").
Proof.
  split.
  - apply (proj2 (choose_candidate_correct (H := example_candidate) "none" "ambiguous"
      [(9, 1, 2); (5, 4, 1); (9, 1, 2)]) 9 [(9, 1, 2)] (9, 1, 2)); [|vm_compute; reflexivity].
    intros c Hc. repeat (apply elem_of_cons in Hc as [-> |Hc]; [vm_compute; discriminate|]).
    by apply not_elem_of_nil in Hc.
  - apply (proj2 (choose_candidate_correct (H := example_candidate) "none" "ambiguous"
      [(9, 7, 2); (5, 4, 1); (9, 1, 2)]) 9 [(9, 7, 2)] (9, 1, 2)); [|vm_compute; reflexivity].
    intros c Hc. repeat (apply elem_of_cons in Hc as [-> |Hc]; [vm_compute; discriminate|]).
    by apply not_elem_of_nil in Hc.
Defined.
