(* ===== verification/TerminalSafe.v ===== *)
(** * Opening any bytes ends without a panic

    A panic is what a Rust index out of range, an arithmetic overflow of a
    debug build or a failed [expect] gives.  None of the checks, sums and
    slices on the way from arbitrary bytes to a terminal can cause one. *)

From S2P Require Import Wire VolumeHeader Kdf CryptoHeaderFixed Crypto Extensions CryptoHeader.
From S2P Require Import Fec FecCorrect Footers KeyWrap RootAuthFooter MetadataImage Recovery.
From S2P Require Import ObjectReader CmraReader Terminal TerminalSearch TerminalCorrect.
#[local] Open Scope Z_scope.

#[local] Hint Resolve VolumeHeader_parse_no_panic CryptoHeader_parse_no_panic
  ManifestFooter_parse_no_panic VolumeTrailer_parse_no_panic RootAuthFooterV1_parse_no_panic
  KeyWrapTableV1_parse_no_panic CriticalMetadataImage_parse_no_panic
  CriticalMetadataRecoveryHeader_parse_no_panic CriticalRecoveryLocator_parse_no_panic
  CryptoHeaderFixed_validate_no_panic : no_panic.

(** Walks through a chain of binds, closing the steps with the hints. *)
Ltac no_panic_step :=
  lazymatch goal with
  | H : ?m = Panic |- _ => exfalso; revert H; change (m <> Panic); solve [auto with no_panic]
  | |- mbind _ _ <> Panic => apply bind_no_panic; [try solve [auto with no_panic]|intros ? ?]
  | |- (let _ := _ in _) <> Panic => cbv zeta
  | |- (if ?c then _ else _) <> Panic => destruct c eqn:?
  | |- (match ?m with _ => _ end) <> Panic => destruct m eqn:?
  | |- _ => solve [auto with no_panic]
  end.

Ltac walk := repeat no_panic_step.

(** ** Arithmetic *)
Lemma checked_u64_add_no_panic x y s : checked_u64_add x y s <> Panic.
Proof. apply ok_or_no_panic. Qed.

Lemma checked_u64_mul_no_panic x y s : checked_u64_mul x y s <> Panic.
Proof. apply ok_or_no_panic. Qed.

Lemma checked_add_usize_no_panic x y s : checked_add_usize x y s <> Panic.
Proof. apply ok_or_no_panic. Qed.

Lemma to_usize_no_panic x s : to_usize x s <> Panic.
Proof. apply ok_or_no_panic. Qed.

Lemma ceil_div_u64_no_panic x y : ceil_div_u64 x y <> Panic.
Proof. unfold ceil_div_u64. walk. Qed.

Lemma reader_slice_no_panic b off n s : reader_slice b off n s <> Panic.
Proof. unfold reader_slice. apply bind_no_panic; [apply ok_or_no_panic|intros; apply ok_or_no_panic]. Qed.

#[local] Hint Resolve checked_u64_add_no_panic checked_u64_mul_no_panic checked_add_usize_no_panic
  to_usize_no_panic ceil_div_u64_no_panic reader_slice_no_panic : no_panic.

(** ** The recovery area *)
Section Area.
Context {C : Crc32c} {Sha : Sha256} {T : Target}.

Lemma cmra_serialized_length_no_panic tuple : cmra_serialized_length tuple <> Panic.
Proof. unfold cmra_serialized_length. walk. Qed.

Lemma validate_cmra_decoder_tuple_no_panic tuple : validate_cmra_decoder_tuple tuple <> Panic.
Proof. unfold validate_cmra_decoder_tuple. rewrite critical_image_cap_eq. walk. Qed.

Lemma parity_lower_bound_no_panic tuple pct :
  validate_cmra_writer_parity_lower_bound tuple pct <> Panic.
Proof. unfold validate_cmra_writer_parity_lower_bound. walk. Qed.

(** A shard that fits the layout of its area. *)
Lemma validate_cmra_shard_no_panic shard idx tuple :
  CmraDecoderTuple_typed tuple -> validate_cmra_decoder_tuple tuple = Ok tt -> 0 <= idx ->
  CriticalMetadataRecoveryShard_valid (ct_shard_size tuple) shard ->
  validate_cmra_shard shard idx tuple <> Panic.
Proof.
  intros HT Hv%validate_cmra_decoder_tuple_Ok Hidx (_ & _ & _ & _ & Hlen & _); [|done].
  destruct Hv as (Hs & _ & HL & HD & _). unfold validate_cmra_shard.
  apply bind_no_panic; [apply reject_if_no_panic|intros _ _]. cbv zeta.
  destruct (idx <? ct_data_shard_count tuple) eqn:E; [|walk].
  apply bind_no_panic; [apply reject_if_no_panic|intros _ _].
  destruct (idx + 1 =? ct_data_shard_count tuple) eqn:E2; [|walk].
  assert (idx * ct_shard_size tuple < ct_image_length tuple <= (idx + 1) * ct_shard_size tuple) as Hlast.
  { set (n := ct_image_length tuple) in *. set (s := ct_shard_size tuple) in *.
    assert (idx + 1 = (n + (s - 1)) / s) as Hq by lia.
    pose proof (Z.div_mod (n + (s - 1)) s ltac:(lia)) as Hm. pose proof (Z.mod_pos_bound (n + (s - 1)) s ltac:(lia)).
    rewrite <- Hq in Hm. clear -Hm H. nia. }
  unfold usize_sub. rewrite checked_sub_eq by lia. rewrite bind_ret. rewrite !mret_eq, bind_ret.
  apply bind_no_panic; [apply reject_if_no_panic|intros _ _].
  replace (ct_image_length tuple - idx * ct_shard_size tuple =? 0) with false by lia.
  rewrite slice_in_range by lia. walk.
Qed.

Lemma place_cmra_shard_no_panic tuple idx shard ds ps :
  CmraDecoderTuple_typed tuple -> validate_cmra_decoder_tuple tuple = Ok tt -> 0 <= idx ->
  CriticalMetadataRecoveryShard_valid (ct_shard_size tuple) shard ->
  place_cmra_shard tuple idx shard ds ps <> Panic.
Proof.
  intros. unfold place_cmra_shard, set_slot.
  apply bind_no_panic; [by apply validate_cmra_shard_no_panic|intros [] Hs].
  destruct (rs_shard_role shard =? 0) eqn:E; [walk|].
  apply bind_no_panic; [|intros; walk]. unfold usize_sub.
  unfold validate_cmra_shard in Hs. bind_inv Hs. destruct (idx <? _) eqn:E2.
  - bind_inv Hs. lia.
  - rewrite checked_sub_eq by lia. done.
Qed.

Lemma collect_cmra_shards_no_panic n b tuple idx cursor ds ps :
  CmraDecoderTuple_typed tuple -> validate_cmra_decoder_tuple tuple = Ok tt -> 0 <= idx ->
  collect_cmra_shards n b tuple idx cursor ds ps <> Panic.
Proof.
  intros HT Hv. revert idx cursor ds ps. induction n as [|n IH]; intros idx cursor ds ps Hidx; [done|].
  cbn [collect_cmra_shards]. assert (u32 (ct_shard_size tuple)) as Hsz by apply HT.
  apply bind_no_panic; [auto with no_panic|intros raw _].
  apply bind_no_panic.
  - destruct (CriticalMetadataRecoveryShard_parse raw _) as [shard| |] eqn:E; [|done|].
    + apply CriticalMetadataRecoveryShard_parse_iff in E as [E _]; [|done]. by apply place_cmra_shard_no_panic.
    + by apply CriticalMetadataRecoveryShard_parse_no_panic in E; [|unfold fits in Hsz; lia].
  - intros [ds' ps'] _. apply bind_no_panic; [auto with no_panic|intros cursor' _]. apply IH. lia.
Qed.

Lemma validate_image_no_panic image mode : validate_critical_metadata_image image mode <> Panic.
Proof.
  unfold validate_critical_metadata_image, check_fixed_layout, check_root_auth_fields,
    image_block_record_len_from_region, check_block_records_length, check_terminal_equations,
    expected_block_records_offset, check_regions, check_region_digests, check_optional_digest,
    check_digest, sha256_region, validate_image_region, required_region.
  walk.
Qed.

(** The layout that a header or a locator announces. *)
Definition tuple_typed (locator_tuple : option CmraDecoderTuple) : Prop :=
  forall tuple, locator_tuple = Some tuple -> CmraDecoderTuple_typed tuple.

Lemma header_tuple_typed h tuple r hints :
  tuple_typed tuple -> recover_cmra_header_tuple h tuple = Ok (r, hints) -> CmraDecoderTuple_typed r.
Proof.
  intros Ht H. unfold recover_cmra_header_tuple in H.
  destruct (CriticalMetadataRecoveryHeader_parse h) as [header|e|] eqn:E; [|destruct tuple|]; try done.
  - apply CriticalMetadataRecoveryHeader_parse_sound in E as [[E _] _].
    destruct E as (? & ? & ? & ? & _ & _ & _ & ?).
    assert (CmraDecoderTuple_typed (CmraDecoderTuple_from_header header)) by done.
    destruct tuple; [bind_inv H|]; injection H as <- _; [by apply Ht|done].
  - injection H as <- _. by apply Ht.
Qed.

Lemma recover_cmra_no_panic b off tuple mode :
  tuple_typed tuple -> recover_cmra b off tuple mode <> Panic.
Proof.
  intros Ht. unfold recover_cmra. apply bind_no_panic; [auto with no_panic|intros offset _].
  apply bind_no_panic; [auto with no_panic|intros h _].
  apply bind_no_panic.
  { unfold recover_cmra_header_tuple.
    pose proof (CriticalMetadataRecoveryHeader_parse_no_panic h). walk. }
  intros [r hints] Hr%header_tuple_typed; [|done].
  apply bind_no_panic; [apply validate_cmra_decoder_tuple_no_panic|intros [] Hv].
  apply bind_no_panic; [apply cmra_serialized_length_no_panic|intros len _].
  apply bind_no_panic; [auto with no_panic|intros n _].
  apply bind_no_panic; [auto with no_panic|intros raw _]. unfold recover_cmra_from_bytes.
  apply bind_no_panic; [by apply collect_cmra_shards_no_panic|intros [ds ps] _].
  apply bind_no_panic.
  { apply repair_no_panic. destruct Hr as (Hr & _). unfold fits in Hr. lia. }
  intros repaired _. pose proof validate_image_no_panic. walk.
Qed.
End Area.

(** ** The terminal *)
Section Terminal.
Context {C : Crc32c} {Sha : Sha256} {Lib : CryptoLib} {T : Target}.

Lemma Subkeys_derive_no_panic k u s : Subkeys_derive k u s <> Panic.
Proof. unfold Subkeys_derive, expand_subkey. walk. Qed.
#[local] Hint Resolve Subkeys_derive_no_panic : no_panic.

Lemma subkeys_for_open_no_panic k a u s : subkeys_for_open k a u s <> Panic.
Proof. unfold subkeys_for_open. walk. Qed.

Lemma verify_integrity_tag_no_panic d a rev k u s covered tag :
  verify_integrity_tag d a rev k u s covered tag <> Panic.
Proof. unfold verify_integrity_tag, verify_hmac, compute_integrity_tag. walk. Qed.

Lemma verify_crypto_header_tag_no_panic v c k : verify_crypto_header_tag v c k <> Panic.
Proof. apply verify_integrity_tag_no_panic. Qed.

Lemma semantics_loop_no_panic seen l : semantics_loop seen l <> Panic.
Proof.
  revert seen. induction l as [|e l IH]; intros seen; cbn [semantics_loop]; [done|].
  apply bind_no_panic; [|auto].
  unfold semantics_step, validate_known_extension, validate_raw_stream_content_model_extension. walk.
Qed.

Lemma extension_semantics_no_panic c : CryptoHeader_validate_extension_semantics c <> Panic.
Proof. apply semantics_loop_no_panic. Qed.

Lemma content_profile_loop_no_panic p l : content_profile_loop p l <> Panic.
Proof.
  revert p. induction l as [|e l IH]; intros p; cbn [content_profile_loop]; [done|].
  unfold validate_raw_stream_content_model_extension. walk; auto.
Qed.

Lemma raw_stream_no_panic l : reject_unsupported_raw_stream_profile l <> Panic.
Proof.
  unfold reject_unsupported_raw_stream_profile, content_profile_from_extensions.
  pose proof content_profile_loop_no_panic. walk.
Qed.

Lemma required_object_parity_loop_no_panic rounds n c m parity :
  required_object_parity_loop rounds n c m parity <> Panic.
Proof.
  revert parity. induction rounds as [|rounds IH]; intros parity; [done|].
  cbn [required_object_parity_loop]. walk.
Qed.

Lemma required_object_parity_no_panic n c : required_object_parity n c <> Panic.
Proof. apply required_object_parity_loop_no_panic. Qed.
#[local] Hint Resolve subkeys_for_open_no_panic verify_integrity_tag_no_panic
  verify_crypto_header_tag_no_panic extension_semantics_no_panic raw_stream_no_panic
  required_object_parity_no_panic parity_lower_bound_no_panic : no_panic.

Lemma key_wrap_image_no_panic image v k : validate_image_key_wrap_table image v k <> Panic.
Proof. unfold validate_image_key_wrap_table, required_region. walk. Qed.

Lemma parity_exactness_no_panic c : validate_crypto_class_parity_exactness c <> Panic.
Proof. unfold validate_crypto_class_parity_exactness. walk. Qed.

Lemma supported_volume_no_panic v c l : validate_seekable_supported_volume v c l <> Panic.
Proof. unfold validate_seekable_supported_volume. walk. Qed.

Lemma check_crypto_header_bytes_no_panic x y : check_crypto_header_bytes x y <> Panic.
Proof.
  unfold check_crypto_header_bytes. change CRYPTO_HEADER_HMAC_LEN with 32.
  apply bind_no_panic; [auto with no_panic|intros n [Hn ->]%ok_or_Ok%checked_sub_Some].
  apply bind_no_panic; [auto with no_panic|intros m [Hm ->]%ok_or_Ok%checked_sub_Some].
  rewrite !slice_in_range by lia. walk.
Qed.

(** The parsed footer and trailer have the length of their structures. *)
Lemma ManifestFooter_parse_length b h : ManifestFooter_parse b = Ok h -> blen b = 136.
Proof. intros H. unfold ManifestFooter_parse in H. bind_inv H. by apply expect_len_Ok in Hr. Qed.

Lemma VolumeTrailer_parse_length b h : VolumeTrailer_parse b = Ok h -> blen b = 128.
Proof. intros H. unfold VolumeTrailer_parse in H. bind_inv H. by apply expect_len_Ok in Hr. Qed.

Lemma manifest_footer_no_panic v c f k rev raw :
  104 <= blen raw -> validate_manifest_footer v c f k rev raw <> Panic.
Proof.
  intros Hraw. unfold validate_manifest_footer, MANIFEST_HMAC_COVERED_LEN.
  rewrite slice_in_range by lia. walk.
Qed.

Lemma index_root_extent_no_panic f n : ManifestFooter_validate_index_root_extent f n <> Panic.
Proof. unfold ManifestFooter_validate_index_root_extent. walk. Qed.

Lemma root_auth_footer_no_panic image v e e' : check_root_auth_footer image v e e' <> Panic.
Proof.
  unfold check_root_auth_footer, required_region, RootAuthFooterV1_footer_length, root_auth_footer_length. walk.
Qed.

Lemma trailer_equations_no_panic image trailer : validate_v45_trailer_equations image trailer <> Panic.
Proof. unfold validate_v45_trailer_equations, check_trailer_root_auth_position. walk. Qed.

Lemma public_trailer_no_panic image trailer : validate_v45_public_trailer_profile image trailer <> Panic.
Proof. unfold validate_v45_public_trailer_profile, check_trailer_root_auth_position. walk. Qed.

#[local] Hint Resolve key_wrap_image_no_panic parity_exactness_no_panic supported_volume_no_panic
  check_crypto_header_bytes_no_panic index_root_extent_no_panic root_auth_footer_no_panic
  trailer_equations_no_panic public_trailer_no_panic : no_panic.

Lemma terminal_inner_no_panic image tuple require magic context :
  validate_recovered_terminal_inner image tuple require magic context <> Panic.
Proof.
  unfold validate_recovered_terminal_inner, required_region, validate_image_crypto_header_length,
    validate_image_identity, validate_trailer_identity, TRAILER_HMAC_COVERED_LEN.
  walk.
  - apply manifest_footer_no_panic.
    match goal with H : ManifestFooter_parse _ = Ok _ |- _ => apply ManifestFooter_parse_length in H; lia end.
  - match goal with H : VolumeTrailer_parse _ = Ok _ |- _ => apply VolumeTrailer_parse_length in H end.
    apply slice_no_panic; lia.
Qed.

Lemma public_inner_no_panic image v c require magic :
  validate_recovered_public_terminal_inner image v c require magic <> Panic.
Proof.
  unfold validate_recovered_public_terminal_inner, required_region, validate_image_crypto_header_length,
    validate_image_identity, validate_trailer_identity. walk.
Qed.
#[local] Hint Resolve terminal_inner_no_panic public_inner_no_panic : no_panic.

Lemma terminal_authority_no_panic image tuple k require :
  validate_recovered_terminal_authority image tuple k require <> Panic.
Proof.
  unfold validate_recovered_terminal_authority, required_region, validate_image_crypto_header_length. walk.
Qed.

End Terminal.

#[local] Hint Resolve Subkeys_derive_no_panic subkeys_for_open_no_panic verify_integrity_tag_no_panic
  verify_crypto_header_tag_no_panic extension_semantics_no_panic raw_stream_no_panic
  required_object_parity_no_panic parity_lower_bound_no_panic key_wrap_image_no_panic
  parity_exactness_no_panic supported_volume_no_panic terminal_inner_no_panic
  public_inner_no_panic : no_panic.

(** ** Computations with a state *)
Definition st_safe {S A} (m : stateful S A) : Prop := forall s, fst (m s) <> Panic.

Lemma st_safe_lift {S A} (r : fresult A) : r <> Panic -> st_safe (S := S) (lift r).
Proof. intros H s. exact H. Qed.

Lemma st_safe_bind {S A B} (m : stateful S A) (f : A -> stateful S B) :
  st_safe m -> (forall a, st_safe (f a)) -> st_safe (m ≫= f).
Proof.
  intros Hm Hf s. unfold mbind, stateful_bind. specialize (Hm s).
  destruct (m s) as [[a| |] s']; [apply Hf|done..].
Qed.

Lemma st_safe_lift_bind {S A B} (r : fresult A) (f : A -> stateful S B) :
  r <> Panic -> (forall a, r = Ok a -> st_safe (f a)) -> st_safe (lift r ≫= f).
Proof. intros Hr Hf s. unfold mbind, stateful_bind, lift. destruct r; [by apply Hf|done..]. Qed.

Lemma st_safe_ret {S A} (a : A) : st_safe (S := S) (mret a).
Proof. done. Qed.

Lemma st_safe_attempt {S A} (m : stateful S A) : st_safe m -> st_safe (attempt m).
Proof. intros Hm s. unfold attempt. specialize (Hm s). by destruct (m s) as [[]]. Qed.

Lemma run_pure_safe {A} (m : stateful unit A) : st_safe m -> run_pure m <> Panic.
Proof. intros H. apply H. Qed.

Ltac st_walk :=
  repeat lazymatch goal with
  | |- st_safe (mbind _ (lift _)) => apply st_safe_lift_bind; [try solve [auto with no_panic]|intros ? ?]
  | |- st_safe (let _ := _ in _) => cbv zeta
  | |- st_safe (mret _) => apply st_safe_ret
  | |- st_safe (lift _) => apply st_safe_lift; try solve [auto with no_panic]
  end.

Section Resolver.
Context {C : Crc32c} {Sha : Sha256} {Lib : CryptoLib}.
Context {S : Type} (resolver : RecipientWrapRecordContext -> stateful S (list bytes)).
Hypothesis resolver_safe : forall context, st_safe (resolver context).

Lemma try_candidates_no_panic v c l : try_candidates v c l <> Panic.
Proof.
  induction l as [|k l IH]; cbn [try_candidates]; [done|].
  pose proof verify_crypto_header_tag_no_panic. unfold MasterKey_from_raw_key. walk.
Qed.

Lemma subkeys_from_table_safe v c t : st_safe (recipient_wrap_subkeys_from_table resolver v c t).
Proof.
  unfold recipient_wrap_subkeys_from_table. generalize (kw_recipient_records t). intros records.
  induction records as [|r records IH]; cbn [try_records]; [by apply st_safe_lift|].
  apply st_safe_bind; [done|]. intros l. apply st_safe_lift_bind; [apply try_candidates_no_panic|].
  intros [k|] _; [done|exact IH].
Qed.

Lemma recipient_wrap_authority_safe image tuple require :
  st_safe (validate_recovered_recipient_wrap_terminal_authority image tuple resolver require).
Proof.
  unfold validate_recovered_recipient_wrap_terminal_authority, required_region, validate_image_crypto_header_length,
    parse_startup_key_wrap_table_bytes.
  st_walk; try solve [walk].
  apply st_safe_bind; [apply subkeys_from_table_safe|]. intros k. st_walk.
Qed.
End Resolver.

(** ** The search *)
Section Search.
Context {C : Crc32c} {S A : Type} (b : bytes) (Hb : blen b < 2 ^ 63).

Lemma get_at_no_panic off n : 0 <= off <= blen b -> 0 <= n <= 2 ^ 32 -> get_at b off n <> Panic.
Proof. intros. unfold get_at. by rewrite checked_add_eq by lia. Qed.

Lemma push_safe (m : stateful S A) l : st_safe m -> st_safe (push_candidate m l).
Proof. intros Hm. apply st_safe_bind; [by apply st_safe_attempt|done]. Qed.

Lemma collect_safe (parse : CriticalRecoveryLocator -> stateful S A) off sequence l :
  0 <= off <= blen b ->
  (forall raw locator, CriticalRecoveryLocator_parse raw = Ok locator -> st_safe (parse locator)) ->
  st_safe (collect_candidate parse (locator_at b off) sequence l).
Proof.
  intros Hoff Hparse. apply st_safe_lift_bind.
  { apply get_at_no_panic; [done|by vm_compute]. }
  intros [raw|] _; [|done]. intros s. unfold mbind, stateful_bind, attempt, lift.
  pose proof (CriticalRecoveryLocator_parse_no_panic raw).
  destruct (CriticalRecoveryLocator_parse raw) as [locator| |] eqn:E; [|done..].
  destruct (_ && _); [done|]. by apply push_safe, (Hparse raw).
Qed.

Context (collect : Z -> Z -> list A -> stateful S (list A)) (locatorless : Z -> stateful S A).
Hypothesis collect_ok : forall off sequence l, 0 <= off <= blen b -> st_safe (collect off sequence l).
Hypothesis locatorless_ok : forall off, st_safe (locatorless off).

Lemma scan_slice_safe start offset l :
  Z.of_nat offset <= blen b -> st_safe (scan_slice collect locatorless b start offset l).
Proof.
  revert l. induction offset as [|offset IH]; intros l Ho; cbn [scan_slice]; destruct (_ <? start); try done.
  all: apply st_safe_lift_bind; [apply get_at_no_panic; lia|intros found _].
  all: apply st_safe_bind;
    [unfold scan_step; repeat case_match; [apply collect_ok; lia|by apply push_safe|done]|intros l'; try done].
  apply IH. lia.
Qed.

Lemma locate_candidates_safe limit : st_safe (locate_candidates collect locatorless b limit).
Proof.
  pose proof (blen_nonneg b). unfold locate_candidates, collect_final_and_mirror.
  change CRITICAL_RECOVERY_LOCATOR_LEN with 128. change LOCATOR_PAIR_LEN with 256.
  apply st_safe_bind.
  - apply st_safe_bind; [case_match; [apply collect_ok; lia|done]|].
    intros l. case_match; [apply collect_ok; lia|done].
  - intros [|a l]; [|done]. apply st_safe_lift_bind; [|intros scan _; apply scan_slice_safe; lia].
    unfold max_critical_recovery_scan. rewrite cmra_worst_case_cap_eq. walk.
Qed.

Lemma choose_candidate_no_panic {D} `{Candidate D} e e' (l : list D) : choose_candidate e e' l <> Panic.
Proof. unfold choose_candidate. walk. Qed.
End Search.

Section Instances.
Context {C : Crc32c} {Sha : Sha256} {Lib : CryptoLib} {T : Target}.
Context (b : bytes) (Hb : blen b < 2 ^ 63).

Lemma locator_tuple_typed raw locator :
  CriticalRecoveryLocator_parse raw = Ok locator ->
  tuple_typed (Some (CmraDecoderTuple_from_locator locator)).
Proof.
  intros [[H _] _]%CriticalRecoveryLocator_parse_sound tuple [= <-]. unfold CriticalRecoveryLocator_typed in H.
  destruct_and!. done.
Qed.

Lemma recover_at_locator_no_panic mode off raw locator :
  CriticalRecoveryLocator_parse raw = Ok locator ->
  recover_at_locator (recover_cmra b) mode (Ok off) locator <> Panic.
Proof.
  intros Hl%locator_tuple_typed. unfold recover_at_locator, validate_locator_position,
    validate_locator_image_boundary, validate_cmra_identity_hints.
  pose proof (recover_cmra_no_panic b (rl_cmra_offset locator) _ mode Hl).
  pose proof validate_cmra_decoder_tuple_no_panic. pose proof cmra_serialized_length_no_panic. walk.
Qed.

Lemma recover_locatorless_no_panic mode off : recover_locatorless (recover_cmra b) mode off <> Panic.
Proof.
  unfold recover_locatorless, validate_cmra_identity_hints.
  pose proof (recover_cmra_no_panic b off None mode ltac:(done)). walk.
Qed.

Lemma boundary_no_panic off r : inside b off r -> boundary_magic_ok b off <> Panic.
Proof. intros []. unfold boundary_magic_ok. apply bind_no_panic; [by apply get_at_no_panic; lia|done]. Qed.

Lemma recovered_terminal_no_panic r context require :
  inside b (mi_body_bytes_before_cmra (rc_image r)) r ->
  validate_recovered_terminal (rc_image r) (rc_tuple r) b context require <> Panic.
Proof.
  intros Hr. unfold validate_recovered_terminal. destruct Hr eqn:E. rewrite to_usize_Ok, bind_ret by lia.
  apply bind_no_panic; [by eapply boundary_no_panic|intros; apply terminal_inner_no_panic].
Qed.

Lemma recovered_public_terminal_no_panic r v c require :
  inside b (mi_body_bytes_before_cmra (rc_image r)) r ->
  validate_recovered_public_terminal (rc_image r) b v c require <> Panic.
Proof.
  intros Hr. unfold validate_recovered_public_terminal. destruct Hr eqn:E. rewrite to_usize_Ok, bind_ret by lia.
  apply bind_no_panic; [by eapply boundary_no_panic|intros; apply public_inner_no_panic].
Qed.

Lemma locator_anchor_no_panic off : locator_anchor off <> Panic.
Proof. apply ok_or_no_panic. Qed.

Lemma locatorless_anchor_no_panic off n : locatorless_anchor off n <> Panic.
Proof. unfold locatorless_anchor. walk. Qed.
#[local] Hint Resolve recover_locatorless_no_panic locator_anchor_no_panic locatorless_anchor_no_panic
  terminal_authority_no_panic : no_panic.

(** A candidate starts with the recovery of its image. *)
Ltac from_locator Hl :=
  apply bind_no_panic; [by eapply recover_at_locator_no_panic|];
  let r := fresh "r" in let Hr := fresh "Hr" in intros r Hr; apply recover_at_locator_inside in Hr; [|done].

Ltac without_locator :=
  apply bind_no_panic; [apply recover_locatorless_no_panic|];
  let r := fresh "r" in let Hr := fresh "Hr" in
  intros r Hr; apply recover_locatorless_inside in Hr as [Hr <-]; [|done].

(** C24: Whatever bytes are opened, the search for a terminal ends with a value
    or an error, never with a panic: with the keys in hand, with a master key,
    with a resolver that does not panic itself, and without keys. *)
Theorem search_never_panics limit :
  (forall context, locate_v45_terminal b context limit <> Panic)
  /\ (forall master_key, locate_v45_terminal_authority b master_key limit <> Panic)
  /\ (forall S (resolver : RecipientWrapRecordContext -> stateful S (list bytes)),
        (forall context s, fst (resolver context s) <> Panic) ->
        forall s, fst (locate_v45_recipient_wrap_terminal_authority resolver b limit s) <> Panic)
  /\ (forall volume_header crypto_header,
        locate_v45_public_terminal volume_header crypto_header b limit <> Panic).
Proof.
  split_and!.
  - intros context. apply fmap_no_panic, bind_no_panic; [|intros; apply choose_candidate_no_panic].
    apply run_pure_safe, locate_candidates_safe; [done|..].
    + intros. apply collect_safe; [done..|]. intros raw locator Hl. apply st_safe_lift.
      from_locator Hl. apply bind_no_panic; [by apply recovered_terminal_no_panic|]. walk.
    + intros off. apply st_safe_lift.
      without_locator. apply bind_no_panic; [by apply recovered_terminal_no_panic|]. walk.
  - intros master_key. apply bind_no_panic; [|intros; apply fmap_no_panic, choose_candidate_no_panic].
    apply run_pure_safe, locate_candidates_safe; [done|..].
    + intros. apply collect_safe; [done..|]. intros raw locator Hl. apply st_safe_lift.
      from_locator Hl. walk.
    + intros off. apply st_safe_lift. without_locator. walk.
  - intros S resolver Hresolver s. revert s.
    apply st_safe_bind; [|intros; apply st_safe_lift, fmap_no_panic, choose_candidate_no_panic].
    apply locate_candidates_safe; [done|..].
    + intros. apply collect_safe; [done..|]. intros raw locator Hl.
      apply st_safe_lift_bind; [by eapply recover_at_locator_no_panic|]. intros r _.
      apply st_safe_bind; [by apply recipient_wrap_authority_safe|]. intros authority. st_walk.
    + intros off. apply st_safe_lift_bind; [auto with no_panic|]. intros r _.
      apply st_safe_bind; [by apply recipient_wrap_authority_safe|]. intros authority. st_walk.
  - intros v c. apply bind_no_panic; [|intros; apply fmap_no_panic, choose_candidate_no_panic].
    apply run_pure_safe, locate_candidates_safe; [done|..].
    + intros. apply collect_safe; [done..|]. intros raw locator Hl. apply st_safe_lift.
      from_locator Hl. apply bind_no_panic; [by apply recovered_public_terminal_no_panic|]. walk.
    + intros off. apply st_safe_lift.
      without_locator. apply bind_no_panic; [by apply recovered_public_terminal_no_panic|]. walk.
Qed.
End Instances.

(** ** Concrete inputs *)
Lemma search_never_panics_witness :
  locate_v45_terminal_authority (C := toy_Crc32c) (Sha := toy_Sha256) (Lib := toy_CryptoLib)
    (T := example_target) example_tail (zeros 32) 64 <> Panic.
Proof.
  apply (search_never_panics (C := toy_Crc32c) (Sha := toy_Sha256) (Lib := toy_CryptoLib)
    (T := example_target) example_tail ltac:(by vm_compute) 64).
Defined.
