(* ===== verification/OpenedArchive.v ===== *)
(** * An opened archive: loading its objects, finding files in its index

    From [crates/tzap-core/src/reader/mod.rs] and [reader/validation.rs]: the
    state of an opened archive, how it loads index shards, directory hint
    tables, the dictionary and payload envelopes from its blocks, and how a
    path is located in the index. *)

From S2P Require Import Wire Ordering Paths IndexRoot IndexLookup IndexEntries IndexShard.
From S2P Require Import IndexShardCorrect DirectoryHints VolumeHeader CryptoHeaderFixed Crypto.
From S2P Require Import Padding Footers RootAuthFooter BlockRecord Fec FecCorrect Compression Kdf RootAuth ObjectReader Terminal ObjectRoundtrip.
#[local] Open Scope Z_scope.

(** ** Mapping over a slice with several workers *)

(** [items.iter().map(f).collect()] *)
Fixpoint collect_results {A} (results : list (fresult A)) : fresult (list A) :=
  match results with
  | [] => Ok []
  | r :: results =>
      match r with
      | Ok a => rest ← collect_results results; mret (a :: rest)
      | Err e => Err e
      | Panic => Panic
      end
  end.

Definition is_panic {A} (r : fresult A) : bool :=
  match r with
  | Panic => true
  | _ => false
  end.

(** With one worker the first failure ends the work.  With several, every item
    is worked on, a panic of any of them ends the program, and the results are
    collected in the order of the items. *)
Definition parallel_map_ref {A B} (items : list A) (jobs : Z) (f : A -> fresult B)
    : fresult (list B) :=
  if (jobs <=? 1) || (Z.of_nat (length items) <=? 1) then collect_results (map f items)
  else if existsb is_panic (map f items) then Panic
  else collect_results (map f items).

(** ** The state *)
Record ReaderOptions : Type := {
  ro_max_trailing_garbage_scan : Z;
  ro_max_verify_tar_size : Z;
  ro_max_total_extraction_size : Z;
  ro_jobs : Z
}.

Record OpenedArchive (R : Type) : Type := {
  oa_options : ReaderOptions;
  oa_observed_archive_bytes : Z;
  oa_observed_volume_count : Z;
  oa_subkeys : Subkeys;
  oa_blocks : gmap Z BlockRecord;
  oa_lazy_blocks : option (SeekableBlockSource R);
  oa_crypto_header_bytes : bytes;
  oa_volume_header : VolumeHeader;
  oa_crypto_header : CryptoHeaderFixed;
  oa_manifest_footer : ManifestFooter;
  oa_volume_trailer : option VolumeTrailer;
  oa_root_auth_footer : option RootAuthFooterV1;
  oa_index_root : IndexRoot;
  oa_payload_dictionary : option bytes
}.

#[global] Arguments oa_options {R} _.
#[global] Arguments oa_observed_archive_bytes {R} _.
#[global] Arguments oa_observed_volume_count {R} _.
#[global] Arguments oa_subkeys {R} _.
#[global] Arguments oa_blocks {R} _.
#[global] Arguments oa_lazy_blocks {R} _.
#[global] Arguments oa_crypto_header_bytes {R} _.
#[global] Arguments oa_volume_header {R} _.
#[global] Arguments oa_crypto_header {R} _.
#[global] Arguments oa_manifest_footer {R} _.
#[global] Arguments oa_volume_trailer {R} _.
#[global] Arguments oa_root_auth_footer {R} _.
#[global] Arguments oa_index_root {R} _.
#[global] Arguments oa_payload_dictionary {R} _.

Definition OpenedArchive_block_provider {R} (self : OpenedArchive R) : OpenedBlockProvider R := {|
  op_memory_blocks := oa_blocks self; op_lazy_blocks := oa_lazy_blocks self |}.

(** ** How an object of each class is loaded *)
Definition ObjectLoadContext_index_shard (volume_header : VolumeHeader)
    (crypto_header : CryptoHeaderFixed) (subkeys : Subkeys) (entry : ShardEntry)
    : ObjectLoadContext := {|
  lc_volume_header := volume_header;
  lc_crypto_header := crypto_header;
  lc_extent := {| ox_first_block_index := se_first_block_index entry;
                  ox_data_block_count := se_data_block_count entry;
                  ox_parity_block_count := se_parity_block_count entry;
                  ox_encrypted_size := se_encrypted_size entry |};
  lc_data_kind := BlockKind.IndexShardData;
  lc_parity_kind := BlockKind.IndexShardParity;
  lc_key := index_shard_key subkeys;
  lc_nonce_seed := index_nonce_seed subkeys;
  lc_domain := String.list_byte_of_string "idxshard";
  lc_counter := se_shard_index entry;
  lc_class_data_shard_max := ch_index_fec_data_shards crypto_header;
  lc_class_parity_shard_max := ch_index_fec_parity_shards crypto_header |}.

Definition ObjectLoadContext_directory_hint (volume_header : VolumeHeader)
    (crypto_header : CryptoHeaderFixed) (subkeys : Subkeys) (entry : DirectoryHintShardEntry)
    : ObjectLoadContext := {|
  lc_volume_header := volume_header;
  lc_crypto_header := crypto_header;
  lc_extent := {| ox_first_block_index := de_first_block_index entry;
                  ox_data_block_count := de_data_block_count entry;
                  ox_parity_block_count := de_parity_block_count entry;
                  ox_encrypted_size := de_encrypted_size entry |};
  lc_data_kind := BlockKind.DirectoryHintData;
  lc_parity_kind := BlockKind.DirectoryHintParity;
  lc_key := dir_hint_key subkeys;
  lc_nonce_seed := index_nonce_seed subkeys;
  lc_domain := String.list_byte_of_string "dirhint";
  lc_counter := de_hint_shard_index entry;
  lc_class_data_shard_max := ch_index_fec_data_shards crypto_header;
  lc_class_parity_shard_max := ch_index_fec_parity_shards crypto_header |}.

Definition dictionary_extent_from_index_root (index_root : IndexRoot) : fresult ObjectExtent :=
  let header := ir_header index_root in
  reject_if ((ih_dictionary_data_block_count header =? 0)
             || (ih_dictionary_encrypted_size header =? 0)
             || (ih_dictionary_decompressed_size header =? 0))
    (InvalidArchive "dictionary extent missing from IndexRoot");;
  mret {| ox_first_block_index := ih_dictionary_first_block header;
          ox_data_block_count := ih_dictionary_data_block_count header;
          ox_parity_block_count := ih_dictionary_parity_block_count header;
          ox_encrypted_size := ih_dictionary_encrypted_size header |}.

Definition ObjectLoadContext_dictionary (volume_header : VolumeHeader)
    (crypto_header : CryptoHeaderFixed) (subkeys : Subkeys) (index_root : IndexRoot)
    : fresult ObjectLoadContext :=
  extent ← dictionary_extent_from_index_root index_root;
  mret {|
    lc_volume_header := volume_header;
    lc_crypto_header := crypto_header;
    lc_extent := extent;
    lc_data_kind := BlockKind.DictionaryData;
    lc_parity_kind := BlockKind.DictionaryParity;
    lc_key := dictionary_key subkeys;
    lc_nonce_seed := index_nonce_seed subkeys;
    lc_domain := String.list_byte_of_string "dict";
    lc_counter := 0;
    lc_class_data_shard_max := ch_index_root_fec_data_shards crypto_header;
    lc_class_parity_shard_max := ch_index_root_fec_parity_shards crypto_header |}.

Definition ObjectLoadContext_payload (volume_header : VolumeHeader)
    (crypto_header : CryptoHeaderFixed) (subkeys : Subkeys) (envelope : EnvelopeEntry)
    : ObjectLoadContext := {|
  lc_volume_header := volume_header;
  lc_crypto_header := crypto_header;
  lc_extent := {| ox_first_block_index := ee_first_block_index envelope;
                  ox_data_block_count := ee_data_block_count envelope;
                  ox_parity_block_count := ee_parity_block_count envelope;
                  ox_encrypted_size := ee_encrypted_size envelope |};
  lc_data_kind := BlockKind.PayloadData;
  lc_parity_kind := BlockKind.PayloadParity;
  lc_key := enc_key subkeys;
  lc_nonce_seed := nonce_seed subkeys;
  lc_domain := String.list_byte_of_string "envelope";
  lc_counter := ee_envelope_index envelope;
  lc_class_data_shard_max := ch_fec_data_shards crypto_header;
  lc_class_parity_shard_max := ch_fec_parity_shards crypto_header |}.

(** The limits of an archive's metadata: those of its crypto header, and the
    defaults. *)
Definition metadata_limits (crypto_header : CryptoHeaderFixed) : MetadataLimits := {|
  lim_block_size := ch_block_size crypto_header;
  lim_max_path_length := ch_max_path_length crypto_header;
  lim_max_hash_collision_shard_scan := lim_max_hash_collision_shard_scan MetadataLimits_default;
  lim_max_shard_count := lim_max_shard_count MetadataLimits_default;
  lim_max_directory_hint_shards := lim_max_directory_hint_shards MetadataLimits_default;
  lim_max_files_per_index_shard := lim_max_files_per_index_shard MetadataLimits_default;
  lim_max_entries_per_directory_hint_shard :=
    lim_max_entries_per_directory_hint_shard MetadataLimits_default;
  lim_max_payload_data_shards := ch_fec_data_shards crypto_header;
  lim_max_payload_parity_shards := ch_fec_parity_shards crypto_header;
  lim_max_index_data_shards := ch_index_fec_data_shards crypto_header;
  lim_max_index_parity_shards := ch_index_fec_parity_shards crypto_header;
  lim_max_index_root_data_shards := ch_index_root_fec_data_shards crypto_header;
  lim_max_index_root_parity_shards := ch_index_root_fec_parity_shards crypto_header |}.

Section Loading.
Context {C : Crc32c} {Sha : Sha256} {Lib : CryptoLib} {T : Target} {Zs : ZstdLib}.

Section Provider.
Context {P : Type} {BP : BlockProvider P}.

Definition load_metadata_object_from_parts (blocks : P) (context : ObjectLoadContext)
    (decompressed_size : Z) : fresult bytes :=
  compressed ← load_decrypted_object_from_parts blocks context;
  decompress_exact_zstd_frame compressed decompressed_size.

Definition load_archive_dictionary (blocks : P) (subkeys : Subkeys) (volume_header : VolumeHeader)
    (crypto_header : CryptoHeaderFixed) (index_root : IndexRoot) : fresult (option bytes) :=
  if ch_has_dictionary crypto_header =? 0 then Ok None
  else
    context ← ObjectLoadContext_dictionary volume_header crypto_header subkeys index_root;
    plaintext ← load_metadata_object_from_parts blocks context
      (ih_dictionary_decompressed_size (ir_header index_root));
    mret (Some plaintext).
End Provider.

Context {U : Unicode} {R : Type} {RA : ArchiveReadAt R}.

Section Archive.
Context (self : OpenedArchive R).

Definition OpenedArchive_metadata_limits : MetadataLimits :=
  metadata_limits (oa_crypto_header self).

Definition load_index_shard (entry : ShardEntry) : fresult IndexShard :=
  plaintext ← load_metadata_object_from_parts (OpenedArchive_block_provider self)
    (ObjectLoadContext_index_shard (oa_volume_header self) (oa_crypto_header self)
       (oa_subkeys self) entry)
    (se_decompressed_size entry);
  IndexShard_parse plaintext entry OpenedArchive_metadata_limits.

Definition load_all_index_shards : fresult (list IndexShard) :=
  parallel_map_ref (ir_shards (oa_index_root self)) (ro_jobs (oa_options self)) load_index_shard.

Definition load_directory_hint_table (entry : DirectoryHintShardEntry)
    : fresult DirectoryHintTable :=
  plaintext ← load_metadata_object_from_parts (OpenedArchive_block_provider self)
    (ObjectLoadContext_directory_hint (oa_volume_header self) (oa_crypto_header self)
       (oa_subkeys self) entry)
    (de_decompressed_size entry);
  DirectoryHintTable_parse plaintext entry (ih_shard_count (ir_header (oa_index_root self)))
    OpenedArchive_metadata_limits.

Definition load_all_directory_hint_tables : fresult (list DirectoryHintTable) :=
  parallel_map_ref (ir_directory_hint_shards (oa_index_root self)) (ro_jobs (oa_options self))
    load_directory_hint_table.

Definition load_payload_envelope (envelope : EnvelopeEntry) (parity_policy : ParityReadPolicy)
    : fresult bytes :=
  plaintext ← load_decrypted_object_from_parts_with_parity_policy
    (OpenedArchive_block_provider self)
    (ObjectLoadContext_payload (oa_volume_header self) (oa_crypto_header self) (oa_subkeys self)
       envelope)
    parity_policy;
  reject_if (negb (blen plaintext =? ee_plaintext_size envelope))
    (InvalidArchive "payload envelope plaintext_size mismatch");;
  mret plaintext.

(** ** Locating a file *)
Record LocatedIndexFile : Type := {
  lf_shard : IndexShard;
  lf_file_index : nat;
  lf_start : Z
}.

(** Whether a found file replaces the one found before: the highest start
    wins, the first one of equals stays. *)
Definition takes_over (start : Z) (winner : option Z) : bool :=
  match winner with
  | Some existing => existing <? start
  | None => true
  end.

(** The body of the loop over the candidate rows. *)
Fixpoint locate_loop (normalized : bytes) (candidate_indexes : list nat)
    (winner : option LocatedIndexFile) : fresult (option LocatedIndexFile) :=
  match candidate_indexes with
  | [] => Ok winner
  | row_index :: candidate_indexes =>
      locating ← ok_or (ir_shards (oa_index_root self) !! row_index)
        (InvalidArchive "candidate shard row is out of bounds");
      shard ← load_index_shard locating;
      winner ←
        match IndexShard_lookup_file_index shard normalized with
        | Some file_index =>
            start ← ok_or (IndexShard_tar_member_group_start shard file_index)
              (InvalidArchive "FileEntry tar member start is missing");
            mret (if takes_over start (lf_start <$> winner)
                  then Some {| lf_shard := shard; lf_file_index := file_index; lf_start := start |}
                  else winner)
        | None => Ok winner
        end;
      locate_loop normalized candidate_indexes winner
  end.

Definition locate_index_file (normalized : bytes) : fresult (option LocatedIndexFile) :=
  candidate_indexes ← IndexRoot_candidate_shards_for_path (oa_index_root self) normalized
    OpenedArchive_metadata_limits;
  locate_loop normalized candidate_indexes None.
End Archive.
End Loading.

(** ** Lemmas *)
Lemma collect_results_Ok {A} (rs : list (fresult A)) l : collect_results rs = Ok l <-> rs = map Ok l.
Proof.
  revert l. induction rs as [|[a|e|] rs IH]; intros l; cbn [collect_results].
  - split; [by intros [= <-]|by destruct l].
  - destruct (collect_results rs) as [l'| |] eqn:E; cbn [mbind result_bind]; rewrite ?mret_eq.
    + split; [intros [= <-]; cbn; f_equal; by apply IH|].
      destruct l as [|b l]; [done|]. intros [= -> H]. apply IH in H. congruence.
    + split; [done|]. destruct l as [|b l]; [done|]. intros [= -> H]. by apply IH in H.
    + split; [done|]. destruct l as [|b l]; [done|]. intros [= -> H]. by apply IH in H.
  - split; [done|]. by destruct l.
  - split; [done|]. by destruct l.
Qed.

(** However many workers there are, a result lists the results of the items. *)
Lemma parallel_map_ref_Ok {A B} (items : list A) jobs (f : A -> fresult B) l :
  parallel_map_ref items jobs f = Ok l <-> Forall2 (fun a b => f a = Ok b) items l.
Proof.
  assert (map f items = map Ok l <-> Forall2 (fun a b => f a = Ok b) items l) as H.
  { revert l. induction items as [|a items IH]; intros [|b l]; cbn.
    - split; [constructor|done].
    - split; [done|by intros ?%Forall2_nil_inv_l].
    - split; [done|by intros ?%Forall2_nil_inv_r].
    - rewrite Forall2_cons, <- IH. split; [intros [= -> ->]; done|by intros [-> ->]]. }
  rewrite <- H, <- collect_results_Ok. unfold parallel_map_ref. case_match; [done|].
  destruct (existsb is_panic _) eqn:E; [|done]. split; [done|]. intros Hr%collect_results_Ok.
  rewrite Hr in E. apply existsb_exists in E as (r & Hin & Hp). apply in_map_iff in Hin as (b & <- & _). done.
Qed.

Section Locate.
Context {C : Crc32c} {Sha : Sha256} {Lib : CryptoLib} {T : Target} {Zs : ZstdLib}.
Context {U : Unicode} {R : Type} {RA : ArchiveReadAt R} (self : OpenedArchive R).

(** A version of [path] in the index: the file at position [file_index] of the
    shard in a row of the root, whose member starts at [start]. *)
Definition version_of (path : bytes) (row : nat) (shard : IndexShard) (file_index : nat) (start : Z)
    : Prop :=
  exists entry, ir_shards (oa_index_root self) !! row = Some entry
    /\ load_index_shard self entry = Ok shard
    /\ IndexShard_file_path shard file_index = Some path
    /\ IndexShard_tar_member_group_start shard file_index = Some start.

Lemma load_index_shard_valid entry shard :
  load_index_shard self entry = Ok shard ->
  IndexShard_valid entry (OpenedArchive_metadata_limits self) shard.
Proof.
  unfold load_index_shard. intros (plaintext & _ & H)%bind_Ok. by apply IndexShard_parse_sound in H as [? _].
Qed.

(** What the loop has found in a shard it loaded. *)
Lemma lookup_step path entry shard :
  load_index_shard self entry = Ok shard ->
  match IndexShard_lookup_file_index shard path with
  | Some i => exists start, IndexShard_file_path shard i = Some path
      /\ IndexShard_tar_member_group_start shard i = Some start
      /\ forall j start', IndexShard_file_path shard j = Some path ->
           IndexShard_tar_member_group_start shard j = Some start' -> start' <= start
  | None => forall j, IndexShard_file_path shard j <> Some path
  end.
Proof.
  intros Hl%load_index_shard_valid. pose proof (lookup_file_index_spec _ _ _ path Hl) as H.
  destruct (IndexShard_lookup_file_index shard path) as [i|]; [|done].
  destruct H as (start & Hp & Hs & Hmax). exists start. split_and!; [done..|]. intros j start' Hj Hs'.
  destruct (decide (j = i)) as [->|Hne]; [|pose proof (Hmax j start' Hj Hne Hs'); lia].
  rewrite Hs in Hs'. injection Hs' as <-. lia.
Qed.

Definition best (winner : option LocatedIndexFile) (start : Z) : Prop :=
  exists l, winner = Some l /\ start <= lf_start l.

Lemma locate_loop_Ok path rows winner w :
  locate_loop self path rows winner = Ok w ->
  (forall l, w = Some l -> winner = Some l \/ exists row, row ∈ rows
     /\ version_of path row (lf_shard l) (lf_file_index l) (lf_start l))
  /\ (forall row shard j start, row ∈ rows -> version_of path row shard j start -> best w start)
  /\ (forall l, winner = Some l -> best w (lf_start l)).
Proof.
  revert winner. induction rows as [|row rows IH]; intros winner; cbn [locate_loop].
  { intros [= <-]. split_and!; [by left|intros ???? H; by inversion H|]. intros l ->. by exists l. }
  intros (entry & He & H)%bind_Ok. apply ok_or_Ok in He. apply bind_Ok in H as (shard & Hs & H).
  apply bind_Ok in H as (winner' & Hw & H). destruct (IH winner' H) as (IH1 & IH2 & IH3).
  pose proof (lookup_step path entry shard Hs) as Hstep.
  assert (forall l, winner' = Some l -> winner = Some l \/
            version_of path row (lf_shard l) (lf_file_index l) (lf_start l)) as Hnew.
  { intros l ->. destruct (IndexShard_lookup_file_index shard path) as [i|]; [|injection Hw as ->; by left].
    destruct Hstep as (start & Hp & Hst & _). rewrite Hst in Hw. cbn [ok_or mbind result_bind] in Hw.
    rewrite mret_eq in Hw. injection Hw as Hw. case_match; [|by left]. injection Hw as <-.
    right. exists entry. done. }
  assert (forall j start, IndexShard_file_path shard j = Some path ->
            IndexShard_tar_member_group_start shard j = Some start -> best winner' start) as Hbest.
  { intros j start Hj Hst. destruct (IndexShard_lookup_file_index shard path) as [i|]; [|by destruct (Hstep j)].
    destruct Hstep as (start' & _ & Hst' & Hmax). rewrite Hst' in Hw. cbn [ok_or mbind result_bind] in Hw.
    rewrite mret_eq in Hw. injection Hw as <-. pose proof (Hmax j start Hj Hst).
    unfold takes_over. destruct winner as [l|]; cbn; [|by eexists].
    destruct (lf_start l <? start') eqn:E; [by eexists|]. exists l. split; [done|lia]. }
  assert (forall l, winner = Some l -> best winner' (lf_start l)) as Hkeep.
  { intros l ->. destruct (IndexShard_lookup_file_index shard path) as [i|]; [|injection Hw as <-; by exists l].
    destruct Hstep as (start' & _ & Hst' & _). rewrite Hst' in Hw. cbn [ok_or mbind result_bind] in Hw.
    rewrite mret_eq in Hw. injection Hw as <-. unfold takes_over. cbn.
    destruct (lf_start l <? start') eqn:E; [|by exists l]. eexists. split; [done|]. cbn. lia. }
  assert (forall start, best winner' start -> best w start) as Htrans.
  { intros start (l & Hl & Hle). destruct (IH3 l Hl) as (l' & ? & ?). exists l'. split; [done|lia]. }
  split_and!.
  - intros l Hl. destruct (IH1 l Hl) as [Hl'|(row' & ? & ?)].
    + destruct (Hnew l Hl') as [|]; [by left|]. right. exists row. split; [by left|done].
    + right. exists row'. split; [by right|done].
  - intros row' shard' j start [->|Hin]%elem_of_cons Hv; [|by eapply IH2].
    destruct Hv as (entry' & He' & Hs' & Hj & Hst).
    rewrite He in He'. injection He' as <-. rewrite Hs in Hs'. injection Hs' as <-.
    exact (Htrans _ (Hbest _ _ Hj Hst)).
  - intros l Hl. by apply Htrans, Hkeep.
Qed.

(** How the loop fails. *)
Lemma locate_loop_fails path rows winner :
  (forall row, row ∈ rows -> is_Some (ir_shards (oa_index_root self) !! row)) ->
  (forall w, locate_loop self path rows winner <> Ok w) ->
  exists row entry, row ∈ rows /\ ir_shards (oa_index_root self) !! row = Some entry
    /\ ((exists e, load_index_shard self entry = Err e /\ locate_loop self path rows winner = Err e)
        \/ (load_index_shard self entry = Panic /\ locate_loop self path rows winner = Panic)).
Proof.
  revert winner. induction rows as [|row rows IH]; intros winner Hrows Hno; cbn [locate_loop] in *.
  { by destruct (Hno winner). }
  destruct (Hrows row ltac:(by left)) as [entry He]. rewrite He in *. cbn [ok_or mbind result_bind] in *.
  destruct (load_index_shard self entry) as [shard|e|] eqn:Hs; cbn [mbind result_bind] in *.
  - pose proof (lookup_step path entry shard Hs) as Hstep.
    destruct (IndexShard_lookup_file_index shard path) as [i|].
    + destruct Hstep as (start & _ & Hst & _). rewrite Hst in *. cbn [ok_or mbind result_bind] in *.
      rewrite mret_eq in *. cbn [mbind result_bind] in *.
      edestruct IH as (row' & entry' & ? & ? & ?); [|exact Hno|]; [intros r ?; apply Hrows; by right|].
      exists row', entry'. split; [by right|done].
    + edestruct IH as (row' & entry' & ? & ? & ?); [|exact Hno|]; [intros r ?; apply Hrows; by right|].
      exists row', entry'. split; [by right|done].
  - exists row, entry. split; [by left|]. split; [done|]. left. by exists e.
  - exists row, entry. split; [by left|]. split; [done|]. by right.
Qed.

(** The row of a version is one of those the search returns. *)
Lemma version_in_range path row shard j start :
  version_of path row shard j start ->
  exists entry, ir_shards (oa_index_root self) !! row = Some entry
    /\ le (se_first_path_hash entry) (hash_prefix path)
    /\ le (hash_prefix path) (se_last_path_hash entry).
Proof.
  intros (entry & He & Hl & Hp & _). exists entry. split; [done|].
  apply load_index_shard_valid, IndexShard_tables_ok in Hl.
  destruct (lookup_lt_is_Some_2 (sh_files shard) j) as [file Hf].
  { rewrite <- (to_paths _ _ _ Hl). by apply lookup_lt_Some in Hp. }
  destruct (to_file _ _ _ Hl j file Hf) as (path' & start' & Hp' & _ & Hfile).
  unfold IndexShard_file_path in Hp. rewrite Hp in Hp'. injection Hp' as <-.
  rewrite <- (fk_hash _ _ _ _ _ _ _ Hfile). apply (fk_range _ _ _ _ _ _ _ Hfile).
Qed.

(** C21: Finding a file in an archive.  With a root that the parser accepted, the
    search returns a version of the path that the index has, and no version in
    any shard that can be loaded starts later in the tar stream; it returns
    nothing only when no shard that can be loaded has the path.  It fails only
    when more shards share the hash of the path than it may scan, or with the
    failure to load one of the shards. *)
Theorem locate_index_file_correct b has_dictionary path :
  IndexRoot_parse b has_dictionary (OpenedArchive_metadata_limits self) = Ok (oa_index_root self) ->
  match locate_index_file self path with
  | Ok (Some l) =>
      (exists row, version_of path row (lf_shard l) (lf_file_index l) (lf_start l))
      /\ forall row shard j start, version_of path row shard j start -> start <= lf_start l
  | Ok None => forall row shard j start, ~ version_of path row shard j start
  | Err e => e = HashPrefixCollisionRunExceeded
             \/ exists entry, entry ∈ ir_shards (oa_index_root self) /\ load_index_shard self entry = Err e
  | Panic => exists entry, entry ∈ ir_shards (oa_index_root self) /\ load_index_shard self entry = Panic
  end.
Proof.
  intros [Hv _]%IndexRoot_parse_sound.
  destruct (candidate_shards_spec has_dictionary _ (oa_index_root self) path Hv ltac:(by vm_compute))
    as (rows & Hrows & _ & Hsearch).
  assert (forall row shard j start, version_of path row shard j start -> row ∈ rows) as Hin.
  { intros row shard j start Hver. apply Hrows. by destruct (version_in_range _ _ _ _ _ Hver) as (e & ? & ?); exists e. }
  assert (forall row, row ∈ rows -> is_Some (ir_shards (oa_index_root self) !! row)) as Hsome.
  { intros row (e & -> & _)%Hrows. by eexists. }
  unfold locate_index_file. rewrite Hsearch. case_match; cbn [mbind result_bind]; [by left|].
  pose proof (locate_loop_fails path rows None Hsome) as Hfail.
  destruct (locate_loop self path rows None) as [w|e|] eqn:Hl.
  - destruct (locate_loop_Ok _ _ _ _ Hl) as (Hfound & Hbest & _). destruct w as [l|].
    + split.
      * destruct (Hfound l eq_refl) as [[=]|(row & _ & ?)]. by exists row.
      * intros row shard j start Hver. destruct (Hbest _ _ _ _ (Hin _ _ _ _ Hver) Hver) as (l' & [= <-] & ?). done.
    + intros row shard j start Hver. by destruct (Hbest _ _ _ _ (Hin _ _ _ _ Hver) Hver) as (l' & ? & _).
  - destruct Hfail as (row & entry & _ & He & [(e' & Hload & [= <-])|[_ [=]]]); [by intros w|].
    right. exists entry. split; [by eapply list_elem_of_lookup_2|done].
  - destruct Hfail as (row & entry & _ & He & [(e' & _ & [=])|[Hload _]]); [by intros w|].
    exists entry. split; [by eapply list_elem_of_lookup_2|done].
Qed.
End Locate.

(** ** A concrete archive

    One index shard, in one block, unencrypted. *)
Definition example_reader_header : CryptoHeaderFixed := {|
  ch_length := 114; ch_compression_algo := CompressionAlgo.ZstdFramed; ch_aead_algo := AeadAlgo.None;
  ch_fec_algo := FecAlgo.ReedSolomonGF16; ch_kdf_algo := KdfAlgo.None; ch_chunk_size := 65536;
  ch_envelope_target_size := 65536; ch_block_size := 4096; ch_fec_data_shards := 20;
  ch_fec_parity_shards := 2; ch_index_fec_data_shards := 20; ch_index_fec_parity_shards := 2;
  ch_index_root_fec_data_shards := 20; ch_index_root_fec_parity_shards := 2; ch_stripe_width := 1;
  ch_volume_loss_tolerance := 0; ch_bit_rot_buffer_pct := 0; ch_has_dictionary := 0;
  ch_max_path_length := 4096; ch_expected_volume_size := 0 |}.

Definition example_reader_volume : VolumeHeader := {|
  vh_format_version := 1; vh_volume_format_rev := 45; vh_volume_index := 0; vh_stripe_width := 1;
  vh_archive_uuid := zeros 16; vh_session_id := zeros 16; vh_crypto_header_offset := 128;
  vh_crypto_header_length := 114; vh_header_crc32c := 0 |}.

Definition example_shard_plaintext : bytes := IndexShard_to_bytes example_index_shard.

Definition example_shard_entry : ShardEntry := {|
  se_shard_index := 2; se_first_block_index := 20; se_data_block_count := 1;
  se_parity_block_count := 0; se_encrypted_size := 4096;
  se_decompressed_size := blen example_shard_plaintext; se_file_count := 3;
  se_first_path_hash := replicate 8 Byte.x30; se_last_path_hash := replicate 8 Byte.x30 |}.

Definition example_archive_root : IndexRoot := {|
  ir_header := {|
    ih_version := 1; ih_shard_count := 1; ih_directory_hint_shard_count := 0; ih_frame_count := 5;
    ih_envelope_count := 2; ih_file_count := 3; ih_payload_block_count := 2;
    ih_tar_total_size := 13824; ih_content_sha256 := zeros 32; ih_shard_table_offset := 160;
    ih_directory_hint_shard_table_offset := 0; ih_dictionary_first_block := 0;
    ih_dictionary_data_block_count := 0; ih_dictionary_parity_block_count := 0;
    ih_dictionary_encrypted_size := 0; ih_dictionary_decompressed_size := 0 |};
  ir_shards := [example_shard_entry]; ir_directory_hint_shards := [] |}.

Definition example_block_payload : bytes :=
  match suffix_pad_for_aead (stored_frame example_shard_plaintext) 0 4096 with
  | Ok padded => padded
  | _ => []
  end.

Definition example_archive : OpenedArchive bytes := {|
  oa_options := {| ro_max_trailing_garbage_scan := 0; ro_max_verify_tar_size := 0;
                   ro_max_total_extraction_size := 0; ro_jobs := 1 |};
  oa_observed_archive_bytes := 0; oa_observed_volume_count := 1;
  oa_subkeys := Subkeys_unencrypted_placeholder;
  oa_blocks := {[ 20 := {| br_block_index := 20; br_kind := BlockKind.IndexShardData; br_flags := 1;
                           br_payload := example_block_payload; br_record_crc32c := 0 |} ]};
  oa_lazy_blocks := None; oa_crypto_header_bytes := [];
  oa_volume_header := example_reader_volume; oa_crypto_header := example_reader_header;
  oa_manifest_footer := {|
    mf_archive_uuid := zeros 16; mf_session_id := zeros 16; mf_volume_index := 0;
    mf_is_authoritative := 1; mf_total_volumes := 1; mf_index_root_first_block := 0;
    mf_index_root_data_block_count := 1; mf_index_root_parity_block_count := 0;
    mf_index_root_encrypted_size := 4096; mf_index_root_decompressed_size := 100;
    mf_manifest_hmac := zeros 32 |};
  oa_volume_trailer := None; oa_root_auth_footer := None; oa_index_root := example_archive_root;
  oa_payload_dictionary := None |}.

Lemma locate_index_file_correct_witness :
  exists l, locate_index_file (C := toy_Crc32c) (Sha := constant_Sha256) (Lib := toy_CryptoLib)
      (T := example_target) (Zs := stored_Zstd) (U := toy_Unicode) example_archive (ascii "a") = Ok (Some l)
    /\ lf_file_index l = 1%nat /\ lf_start l = 10752
    /\ forall row shard j start,
         version_of (C := toy_Crc32c) (Sha := constant_Sha256) (Lib := toy_CryptoLib)
           (T := example_target) (Zs := stored_Zstd) (U := toy_Unicode) example_archive (ascii "a")
           row shard j start -> start <= 10752.
Proof.
  pose proof (locate_index_file_correct (C := toy_Crc32c) (Sha := constant_Sha256) (Lib := toy_CryptoLib)
    (T := example_target) (Zs := stored_Zstd) (U := toy_Unicode) example_archive
    (IndexRoot_to_bytes example_archive_root) false (ascii "a") ltac:(vm_compute; reflexivity)) as H.
  destruct (locate_index_file _ _) as [[l|]|e|] eqn:E in H; vm_compute in E; try discriminate E.
  injection E as El. exists l. destruct H as [_ H]. rewrite <- El in *. cbn [lf_start] in H.
  split; [vm_compute; reflexivity|]. split; [reflexivity|]. split; [reflexivity|]. exact H.
Defined.
