(* ===== verification/RootAuthVerify.v ===== *)
(** * Verification of the root-authentication footer

    From [crates/tzap-core/src/reader/mod.rs] and [reader/volume.rs]: with the
    keys, the reader computes all digests of the footer again, from the headers
    it authenticated, from the index and from every data block, repaired where
    it has to be; without them, it computes the archive root from the digests
    in the footer.  The verifier of signatures is a closure of the caller. *)

From S2P Require Import Wire Ordering BTree Paths IndexRoot IndexEntries IndexShard VolumeHeader.
From S2P Require Import Kdf CryptoHeaderFixed Crypto Footers RootAuthFooter BlockRecord Fec.
From S2P Require Import Compression RootAuth WriterRootAuth ObjectReader OpenedArchive.
#[local] Open Scope Z_scope.

Record RootAuthMaterial : Type := {
  rm_critical_metadata_digest : bytes;
  rm_index_digest : bytes;
  rm_fec_layout_digest : bytes;
  rm_data_block_merkle_root : bytes;
  rm_signer_identity_digest : bytes;
  rm_archive_root : bytes;
  rm_total_data_block_count : Z
}.

Inductive RootAuthDiagnostic : Set :=
  | RootAuthContentVerified
  | RootAuthDeferredFullArchiveScanRequired
  | AuthenticatedMetadataNotRootSigned
  | RecoveryMarginNotRootAuthenticated
  | ReplicatedGlobalCopyUncheckedDueToVolumeLoss
  | RecoveryMarginChecked
  | RecoveryMarginFailed
  | RecoveryMarginUnchecked.

Record RootAuthVerification : Type := {
  rv_format_version : Z;
  rv_volume_format_rev : Z;
  rv_archive_root : bytes;
  rv_authenticator_id : Z;
  rv_signer_identity_type : Z;
  rv_signer_identity_bytes : bytes;
  rv_total_data_block_count : Z;
  rv_diagnostics : list RootAuthDiagnostic
}.

Inductive ContentVerificationMode : Set := Full | Fast.

(** What is known of a content verification: whether it is one of the archive
    at hand (the program compares the addresses), and its mode. *)
Record ArchiveContentVerification : Type := {
  cv_of_this_archive : bool;
  cv_mode : ContentVerificationMode
}.

#[export] Instance EnvelopeEntry_eq_dec : EqDecision EnvelopeEntry.
Proof. solve_decision. Defined.

(** The rows of the objects whose place is in the root of the index. *)
Definition manifest_row (manifest_footer : ManifestFooter) : FecLayoutObjectRow := {|
  fl_object_class := 1; fl_present := true; fl_object_id := 0;
  fl_first_block_index := mf_index_root_first_block manifest_footer;
  fl_data_block_count := mf_index_root_data_block_count manifest_footer;
  fl_parity_block_count := mf_index_root_parity_block_count manifest_footer;
  fl_encrypted_size := mf_index_root_encrypted_size manifest_footer;
  fl_plain_size := mf_index_root_decompressed_size manifest_footer |}.

Definition dictionary_row (header : IndexRootHeader) : FecLayoutObjectRow := {|
  fl_object_class := 2; fl_present := true; fl_object_id := 0;
  fl_first_block_index := ih_dictionary_first_block header;
  fl_data_block_count := ih_dictionary_data_block_count header;
  fl_parity_block_count := ih_dictionary_parity_block_count header;
  fl_encrypted_size := ih_dictionary_encrypted_size header;
  fl_plain_size := ih_dictionary_decompressed_size header |}.

Definition envelope_row (envelope : EnvelopeEntry) : FecLayoutObjectRow := {|
  fl_object_class := 4; fl_present := true; fl_object_id := ee_envelope_index envelope;
  fl_first_block_index := ee_first_block_index envelope;
  fl_data_block_count := ee_data_block_count envelope;
  fl_parity_block_count := ee_parity_block_count envelope;
  fl_encrypted_size := ee_encrypted_size envelope; fl_plain_size := ee_plaintext_size envelope |}.

(** The envelopes of all shards; the same row may stand in several of them. *)
Definition merge_envelopes (shards : list IndexShard) : fresult (gmap Z EnvelopeEntry) :=
  merge_rows ee_envelope_index (InvalidArchive "duplicate EnvelopeEntry rows do not match")
    (concat (map sh_envelopes shards)) ∅.

Section Verify.
Context {C : Crc32c} {Sha : Sha256} {Lib : CryptoLib} {T : Target} {Zs : ZstdLib} {U : Unicode}.
Context {R : Type} {RA : ArchiveReadAt R} (self : OpenedArchive R).

Definition root_auth_fec_layout_rows (shards : list IndexShard)
    : fresult (list FecLayoutObjectRow) :=
  envelopes ← merge_envelopes shards;
  mret ([manifest_row (oa_manifest_footer self);
         if negb (ch_has_dictionary (oa_crypto_header self) =? 0)
         then dictionary_row (ir_header (oa_index_root self)) else absent_dictionary_row]
        ++ map shard_entry_row (ir_shards (oa_index_root self))
        ++ map envelope_row (btree_values envelopes)
        ++ map directory_hint_row (ir_directory_hint_shards (oa_index_root self))).

Definition fec_object_class_shape (object_class : Z)
    : fresult (BlockKind.t * BlockKind.t * Z * Z) :=
  let header := oa_crypto_header self in
  match object_class with
  | 1 => Ok (BlockKind.IndexRootData, BlockKind.IndexRootParity,
             ch_index_root_fec_data_shards header, ch_index_root_fec_parity_shards header)
  | 2 => Ok (BlockKind.DictionaryData, BlockKind.DictionaryParity,
             ch_index_root_fec_data_shards header, ch_index_root_fec_parity_shards header)
  | 3 => Ok (BlockKind.IndexShardData, BlockKind.IndexShardParity,
             ch_index_fec_data_shards header, ch_index_fec_parity_shards header)
  | 4 => Ok (BlockKind.PayloadData, BlockKind.PayloadParity,
             ch_fec_data_shards header, ch_fec_parity_shards header)
  | 5 => Ok (BlockKind.DirectoryHintData, BlockKind.DirectoryHintParity,
             ch_index_fec_data_shards header, ch_index_fec_parity_shards header)
  | _ => Err (InvalidArchive "unknown root-auth FEC row class")
  end.

(** The loop over the repaired data shards of one object. *)
Fixpoint row_leaves (row : FecLayoutObjectRow) (data_kind : BlockKind.t) (offset : nat)
    (repaired : list bytes) : fresult (list DataBlockMerkleLeaf) :=
  match repaired with
  | [] => Ok []
  | payload :: repaired =>
      block_index ← checked_u64_add (fl_first_block_index row) (Z.of_nat offset)
        "root-auth data block";
      rest ← row_leaves row data_kind (S offset) repaired;
      mret ({| ml_block_index := block_index; ml_kind := data_kind;
               ml_flags := if Z.of_nat offset + 1 =? fl_data_block_count row then 1 else 0;
               ml_payload := payload |} :: rest)
  end.

Definition object_leaves (row : FecLayoutObjectRow) : fresult (list DataBlockMerkleLeaf) :=
  '(data_kind, parity_kind, data_max, parity_max) ← fec_object_class_shape (fl_object_class row);
  let extent := {| ox_first_block_index := fl_first_block_index row;
                   ox_data_block_count := fl_data_block_count row;
                   ox_parity_block_count := fl_parity_block_count row;
                   ox_encrypted_size := fl_encrypted_size row |} in
  repaired ← load_repaired_object_data_shards_from_parts (OpenedArchive_block_provider self)
    (oa_crypto_header self) extent data_kind parity_kind data_max parity_max;
  row_leaves row data_kind 0 repaired.

Definition root_auth_data_block_leaves (rows : list FecLayoutObjectRow)
    : fresult (list DataBlockMerkleLeaf) :=
  chunks ← parallel_map_ref (List.filter fl_present rows) (ro_jobs (oa_options self)) object_leaves;
  mret (sort_by_key ml_block_index (concat chunks)).

(** The same function as the writer's, from a parsed footer. *)
Definition reader_manifest_footer_global_pre_hmac_bytes (manifest_footer : ManifestFooter)
    : fresult bytes :=
  covered ← slice (ManifestFooter_to_bytes manifest_footer) 0 104;
  mret (put covered 36 (zeros 4)).

(** The inputs of the digest over the critical metadata. *)
Definition reader_critical_inputs (crypto_header_pre_hmac_bytes manifest_pre_hmac
    root_auth_descriptor_digest : bytes) : CriticalMetadataDigestInputs :=
  let volume_header := oa_volume_header self in
  let crypto_header := oa_crypto_header self in
  let manifest_footer := oa_manifest_footer self in
  let format_version := vh_format_version volume_header in
  let volume_format_rev := vh_volume_format_rev volume_header in
  {|
    cm_archive_uuid := vh_archive_uuid volume_header;
    cm_session_id := vh_session_id volume_header;
    cm_format_version := format_version;
    cm_volume_format_rev := volume_format_rev;
    cm_stripe_width := ch_stripe_width crypto_header;
    cm_total_volumes := mf_total_volumes manifest_footer;
    cm_compression_algo := ch_compression_algo crypto_header;
    cm_aead_algo := ch_aead_algo crypto_header;
    cm_fec_algo := ch_fec_algo crypto_header;
    cm_kdf_algo := ch_kdf_algo crypto_header;
    cm_crypto_header_pre_hmac_bytes := crypto_header_pre_hmac_bytes;
    cm_chunk_size := ch_chunk_size crypto_header;
    cm_envelope_target_size := ch_envelope_target_size crypto_header;
    cm_block_size := ch_block_size crypto_header;
    cm_fec_data_shards := ch_fec_data_shards crypto_header;
    cm_fec_parity_shards := ch_fec_parity_shards crypto_header;
    cm_index_fec_data_shards := ch_index_fec_data_shards crypto_header;
    cm_index_fec_parity_shards := ch_index_fec_parity_shards crypto_header;
    cm_index_root_fec_data_shards := ch_index_root_fec_data_shards crypto_header;
    cm_index_root_fec_parity_shards := ch_index_root_fec_parity_shards crypto_header;
    cm_volume_loss_tolerance := ch_volume_loss_tolerance crypto_header;
    cm_bit_rot_buffer_pct := ch_bit_rot_buffer_pct crypto_header;
    cm_has_dictionary := ch_has_dictionary crypto_header;
    cm_manifest_footer_global_pre_hmac_bytes := manifest_pre_hmac;
    cm_index_root_first_block := mf_index_root_first_block manifest_footer;
    cm_index_root_data_block_count := mf_index_root_data_block_count manifest_footer;
    cm_index_root_parity_block_count := mf_index_root_parity_block_count manifest_footer;
    cm_index_root_encrypted_size := mf_index_root_encrypted_size manifest_footer;
    cm_index_root_decompressed_size := mf_index_root_decompressed_size manifest_footer;
    cm_root_auth_descriptor_digest := root_auth_descriptor_digest |}.

(** The inputs of the archive root. *)
Definition reader_root_inputs (critical_metadata_digest index_digest fec_layout_digest : bytes)
    (total_data_block_count : Z)
    (data_block_merkle_root root_auth_descriptor_digest signer_identity_digest : bytes)
    : ArchiveRootInputs :=
  let volume_header := oa_volume_header self in
  let crypto_header := oa_crypto_header self in
  let format_version := vh_format_version volume_header in
  let volume_format_rev := vh_volume_format_rev volume_header in
  {|
    ar_archive_uuid := vh_archive_uuid volume_header;
    ar_session_id := vh_session_id volume_header;
    ar_format_version := format_version;
    ar_volume_format_rev := volume_format_rev;
    ar_compression_algo := ch_compression_algo crypto_header;
    ar_aead_algo := ch_aead_algo crypto_header;
    ar_fec_algo := ch_fec_algo crypto_header;
    ar_kdf_algo := ch_kdf_algo crypto_header;
    ar_critical_metadata_digest := critical_metadata_digest;
    ar_index_digest := index_digest;
    ar_fec_layout_digest := fec_layout_digest;
    ar_total_data_block_count := total_data_block_count;
    ar_data_block_merkle_root := data_block_merkle_root;
    ar_root_auth_descriptor_digest := root_auth_descriptor_digest;
    ar_signer_identity_digest := signer_identity_digest |}.

Definition recompute_root_auth_material (footer : RootAuthFooterV1) : fresult RootAuthMaterial :=
  let volume_header := oa_volume_header self in
  let manifest_footer := oa_manifest_footer self in
  reject_if (negb (ra_format_version footer =? vh_format_version volume_header))
    (InvalidArchive "RootAuthFooter format_version differs from authenticated VolumeHeader");;
  reject_if (negb (ra_volume_format_rev footer =? vh_volume_format_rev volume_header))
    (InvalidArchive "RootAuthFooter volume_format_rev differs from authenticated VolumeHeader");;
  let format_version := vh_format_version volume_header in
  let volume_format_rev := vh_volume_format_rev volume_header in
  footer_length ← RootAuthFooterV1_footer_length footer;
  authenticator_value_length ← ok_or (try_from 32 (blen (ra_authenticator_value footer)))
    (InvalidArchive "RootAuthFooter authenticator length overflow");
  root_auth_descriptor_digest ← root_auth_descriptor_digest_for_revision format_version
    volume_format_rev (ra_authenticator_id footer) (ra_signer_identity_type footer)
    (ra_signer_identity_bytes footer) authenticator_value_length footer_length;
  signer_identity_digest ← signer_identity_digest (ra_signer_identity_type footer)
    (ra_signer_identity_bytes footer);
  manifest_pre_hmac ← reader_manifest_footer_global_pre_hmac_bytes manifest_footer;
  crypto_pre_hmac_len ←
    ok_or (checked_sub (blen (oa_crypto_header_bytes self)) CRYPTO_HEADER_HMAC_LEN)
      (InvalidArchive "CryptoHeader is too short");
  crypto_header_pre_hmac_bytes ← slice (oa_crypto_header_bytes self) 0 crypto_pre_hmac_len;
  critical_metadata_digest ← critical_metadata_digest (reader_critical_inputs
    crypto_header_pre_hmac_bytes manifest_pre_hmac root_auth_descriptor_digest);
  let index_root_plaintext := IndexRoot_to_bytes (oa_index_root self) in
  index_digest ← index_digest_for_revision format_version volume_format_rev index_root_plaintext;
  shards ← load_all_index_shards self;
  fec_layout_rows ← root_auth_fec_layout_rows shards;
  fec_layout_digest ← fec_layout_digest_for_revision format_version volume_format_rev
    fec_layout_rows;
  data_leaves ← root_auth_data_block_leaves fec_layout_rows;
  let total_data_block_count := Z.of_nat (length data_leaves) in
  data_block_merkle_root ← data_block_merkle_root_for_revision format_version volume_format_rev
    data_leaves;
  archive_root ← archive_root_for_revision (reader_root_inputs critical_metadata_digest index_digest
    fec_layout_digest total_data_block_count data_block_merkle_root root_auth_descriptor_digest
    signer_identity_digest);
  mret {| rm_critical_metadata_digest := critical_metadata_digest;
          rm_index_digest := index_digest;
          rm_fec_layout_digest := fec_layout_digest;
          rm_data_block_merkle_root := data_block_merkle_root;
          rm_signer_identity_digest := signer_identity_digest;
          rm_archive_root := archive_root;
          rm_total_data_block_count := total_data_block_count |}.

Definition missing_volume_count : Z :=
  Z.max 0 (ch_stripe_width (oa_crypto_header self) - oa_observed_volume_count self).

Definition root_auth_success_diagnostics : list RootAuthDiagnostic :=
  [RootAuthContentVerified; AuthenticatedMetadataNotRootSigned; RecoveryMarginNotRootAuthenticated]
  ++ (if 0 <? missing_volume_count then [ReplicatedGlobalCopyUncheckedDueToVolumeLoss] else [])
  ++ [RecoveryMarginUnchecked].

Definition verify_root_auth_with_verified_content
    (content_verification : ArchiveContentVerification)
    (verifier : RootAuthFooterV1 -> bytes -> fresult bool) : fresult RootAuthVerification :=
  reject_if (negb (cv_of_this_archive content_verification))
    (InvalidArchive "content verification does not match archive");;
  match cv_mode content_verification with
  | Full => Ok tt
  | Fast => Err (ReaderUnsupported
                   "RootAuth verification requires full archive content verification")
  end;;
  footer ← ok_or (oa_root_auth_footer self) (ReaderUnsupported "root-auth footer is absent");
  material ← recompute_root_auth_material footer;
  reject_if
    (negb (bytes_eqb (rm_critical_metadata_digest material) (ra_critical_metadata_digest footer))
     || negb (bytes_eqb (rm_index_digest material) (ra_index_digest footer))
     || negb (bytes_eqb (rm_fec_layout_digest material) (ra_fec_layout_digest footer))
     || negb (bytes_eqb (rm_data_block_merkle_root material) (ra_data_block_merkle_root footer))
     || negb (bytes_eqb (rm_signer_identity_digest material) (ra_signer_identity_digest footer))
     || negb (bytes_eqb (rm_archive_root material) (ra_archive_root footer))
     || negb (rm_total_data_block_count material =? ra_total_data_block_count footer))
    (InvalidArchive "RootAuthFooter commitments do not match recomputed archive root");;
  verified ← verifier footer (rm_archive_root material);
  reject_if (negb verified) (InvalidArchive "root-auth authenticator verification failed");;
  mret {| rv_format_version := ra_format_version footer;
          rv_volume_format_rev := ra_volume_format_rev footer;
          rv_archive_root := rm_archive_root material;
          rv_authenticator_id := ra_authenticator_id footer;
          rv_signer_identity_type := ra_signer_identity_type footer;
          rv_signer_identity_bytes := ra_signer_identity_bytes footer;
          rv_total_data_block_count := ra_total_data_block_count footer;
          rv_diagnostics := root_auth_success_diagnostics |}.
End Verify.

(** ** Without keys *)
Section Public.
Context {Sha : Sha256}.

Definition recompute_public_archive_root (footer : RootAuthFooterV1)
    (crypto_header : CryptoHeaderFixed) : fresult bytes :=
  authenticator_value_length ← ok_or (try_from 32 (blen (ra_authenticator_value footer)))
    (InvalidArchive "RootAuthFooter authenticator length overflow");
  footer_length ← RootAuthFooterV1_footer_length footer;
  descriptor_digest ← root_auth_descriptor_digest_for_revision (ra_format_version footer)
    (ra_volume_format_rev footer) (ra_authenticator_id footer) (ra_signer_identity_type footer)
    (ra_signer_identity_bytes footer) authenticator_value_length footer_length;
  signer_digest ← signer_identity_digest (ra_signer_identity_type footer)
    (ra_signer_identity_bytes footer);
  reject_if (negb (bytes_eqb signer_digest (ra_signer_identity_digest footer)))
    (InvalidArchive "public no-key signer identity digest mismatch");;
  archive_root_for_revision {|
    ar_archive_uuid := ra_archive_uuid footer;
    ar_session_id := ra_session_id footer;
    ar_format_version := ra_format_version footer;
    ar_volume_format_rev := ra_volume_format_rev footer;
    ar_compression_algo := ch_compression_algo crypto_header;
    ar_aead_algo := ch_aead_algo crypto_header;
    ar_fec_algo := ch_fec_algo crypto_header;
    ar_kdf_algo := ch_kdf_algo crypto_header;
    ar_critical_metadata_digest := ra_critical_metadata_digest footer;
    ar_index_digest := ra_index_digest footer;
    ar_fec_layout_digest := ra_fec_layout_digest footer;
    ar_total_data_block_count := ra_total_data_block_count footer;
    ar_data_block_merkle_root := ra_data_block_merkle_root footer;
    ar_root_auth_descriptor_digest := descriptor_digest;
    ar_signer_identity_digest := signer_digest |}.
End Public.
