(* ===== verification/RootAuthAgree.v ===== *)
(** * The two computations of the root-authentication footer agree

    What the writer signs is what the public computation finds in the footer
    and what a reader with the keys computes from a repaired archive; and a
    reader that finds a signed root has exactly what the writer signed. *)

From S2P Require Import Terminal Wire Ordering BTree Paths IndexRoot IndexEntries IndexShard.
From S2P Require Import IndexShardCorrect VolumeHeader.
From S2P Require Import Kdf CryptoHeaderFixed Crypto Extensions CryptoHeader Footers RootAuthFooter.
From S2P Require Import BlockRecord FecCorrect IndexLookup.
From S2P Require Import Fec Compression RootAuth WriterPlan ObjectReader ObjectWriter ObjectRoundtrip.
From S2P Require Import Emission WriterRootAuth OpenedArchive RootAuthVerify.
#[local] Open Scope Z_scope.

(** ** The two sides agree *)
Section Agreement.
Context {C : Crc32c} {Sha : Sha256} {Lib : CryptoLib}.

(** The footer that is read where [h] was written. *)
Definition with_footer_crc (h : RootAuthFooterV1) (crc : Z) : RootAuthFooterV1 := {|
  ra_archive_uuid := ra_archive_uuid h; ra_session_id := ra_session_id h;
  ra_format_version := ra_format_version h; ra_volume_format_rev := ra_volume_format_rev h;
  ra_authenticator_id := ra_authenticator_id h;
  ra_signer_identity_type := ra_signer_identity_type h;
  ra_signer_identity_bytes := ra_signer_identity_bytes h;
  ra_authenticator_value := ra_authenticator_value h;
  ra_total_data_block_count := ra_total_data_block_count h;
  ra_critical_metadata_digest := ra_critical_metadata_digest h;
  ra_index_digest := ra_index_digest h; ra_fec_layout_digest := ra_fec_layout_digest h;
  ra_data_block_merkle_root := ra_data_block_merkle_root h;
  ra_signer_identity_digest := ra_signer_identity_digest h;
  ra_archive_root := ra_archive_root h; ra_footer_crc32c := crc |}.

Lemma written_footer_parses h b :
  RootAuthFooterV1_typed h -> RootAuthFooterV1_to_bytes h = Ok b ->
  RootAuthFooterV1_parse b = Ok (with_footer_crc h (crc32c (seg b 0 (blen b - 4)))).
Proof.
  intros HT Hb. apply RootAuthFooterV1_to_bytes_supported in Hb as HS.
  by apply RootAuthFooterV1_parse_complete.
Qed.

Lemma archive_root_revision i d :
  archive_root_for_revision i = Ok d ->
  ar_format_version i = FORMAT_VERSION /\ ar_volume_format_rev i = VOLUME_FORMAT_REV_45.
Proof.
  unfold archive_root_for_revision. intros H. bind_inv H.
  by apply root_auth_revision_params_Ok in Hr as (? & ? & _).
Qed.

Section Built.
Context {config : RootAuthWriterConfig} {authenticator : RootAuthSigningRequest -> fresult bytes}.
Context {input : RootAuthFooterBuildInput} {b : bytes} {parsed : CryptoHeader} {len : Z}.
Context {desc signer pre cmd idx fec mer root value : bytes}.
Context (Hconfig : RootAuthWriterConfig_typed config) (Hinput : RootAuthFooterBuildInput_typed input).
Context (Hbuilt : footer_built config authenticator input b parsed len desc signer pre cmd idx fec
                    mer root value).

Definition built_footer : RootAuthFooterV1 :=
  with_footer_crc (writer_footer config input value (Z.of_nat (length (sorted_hashes input))) cmd
    idx fec mer signer root) (crc32c (seg b 0 (blen b - 4))).

Lemma built_footer_parses : RootAuthFooterV1_parse b = Ok built_footer.
Proof.
  destruct Hbuilt, Hconfig as (? & ? & ?), Hinput as (? & ? & ?).
  apply archive_root_revision in fb_root as Hrev. destruct Hrev as [_ Hrev]. cbn in Hrev.
  apply written_footer_parses; [|done].
  unfold RootAuthFooterV1_typed, writer_footer. cbn. rewrite Hrev.
  apply expected_data_blocks_range in fb_count; [|by unfold fits].
  split_and!; try done; [unfold fits; lia|by eapply critical_metadata_digest_blen
    |by eapply index_digest_blen|by eapply fec_layout_digest_blen
    |eapply merkle_root_blen; [|done]; by apply sorted_hashes_blen
    |by eapply signer_identity_digest_blen|by eapply archive_root_blen].
Qed.

Lemma built_footer_length :
  RootAuthFooterV1_footer_length built_footer = Ok len
  /\ try_from 32 (blen value) = Some (rc_authenticator_value_length config).
Proof.
  destruct Hbuilt, Hconfig as (_ & _ & ?). pose proof (blen_nonneg value).
  unfold RootAuthFooterV1_footer_length. cbn. rewrite fb_value_length in *. split.
  - apply root_auth_footer_wire_length_agrees in fb_length as [-> _]; [done|apply blen_nonneg|done].
  - by apply try_from_Some.
Qed.

Lemma built_footer_public_root :
  recompute_public_archive_root built_footer (ch_fixed parsed) = Ok root.
Proof.
  destruct built_footer_length as [Hl Ha]. destruct Hbuilt. unfold recompute_public_archive_root.
  rewrite Hl. cbn [built_footer with_footer_crc writer_footer ra_authenticator_value
    ra_format_version ra_volume_format_rev ra_authenticator_id ra_signer_identity_type
    ra_signer_identity_bytes ra_signer_identity_digest].
  rewrite Ha. cbn [ok_or]. rewrite !bind_ret, fb_descriptor, bind_ret, fb_signer, bind_ret.
  rewrite (proj2 (bytes_eqb_eq _ _) eq_refl). exact fb_root.
Qed.
End Built.

Definition with_hashes (input : RootAuthFooterBuildInput) (hashes : list (Z * bytes))
    : RootAuthFooterBuildInput := {|
  rb_archive_uuid := rb_archive_uuid input; rb_session_id := rb_session_id input;
  rb_volume_format_rev := rb_volume_format_rev input; rb_options := rb_options input;
  rb_crypto_header := rb_crypto_header input;
  rb_volume_zero_manifest := rb_volume_zero_manifest input;
  rb_index_root_plaintext := rb_index_root_plaintext input;
  rb_index_root_extent := rb_index_root_extent input;
  rb_dictionary_extent := rb_dictionary_extent input; rb_shard_entries := rb_shard_entries input;
  rb_payload_objects := rb_payload_objects input;
  rb_directory_hint_entries := rb_directory_hint_entries input; rb_data_leaf_hashes := hashes |}.

(** Hashes with distinct indices have one sorted order. *)
Lemma permuted_hashes (hashes hashes' : list (Z * bytes)) :
  NoDup (map fst hashes) -> hashes ≡ₚ hashes' -> sort_by_key fst hashes = sort_by_key fst hashes'.
Proof.
  intros Hn Hp. apply sort_by_key_unique; [|done]. intros x y Hx Hy Hk.
  apply list_elem_of_lookup in Hx as [i Hi], Hy as [j Hj].
  assert (i = j) as <-; [|congruence].
  change (map fst hashes) with (fst <$> hashes) in Hn.
  apply (NoDup_lookup (fst <$> hashes) i j x.1 Hn); rewrite list_lookup_fmap;
    [by rewrite Hi|rewrite Hj; cbn; by rewrite Hk].
Qed.

(** C20: The public root is the signed root.  A footer that the writer builds parses
    back; its authenticator value is what the signer returned for exactly the
    archive root that anybody can recompute from the footer and the parsed crypto
    header without a key; its count is the number of data blocks; and the order
    in which the volumes delivered the leaf hashes does not change a byte. *)
Theorem signed_root_is_public config authenticator input b :
  RootAuthWriterConfig_typed config -> RootAuthFooterBuildInput_typed input ->
  build_root_auth_footer_from_leaf_hashes config authenticator input = Ok b ->
  exists footer parsed,
    RootAuthFooterV1_parse b = Ok footer
    /\ CryptoHeader_parse (rb_crypto_header input) (blen (rb_crypto_header input)) = Ok parsed
    /\ recompute_public_archive_root footer (ch_fixed parsed) = Ok (ra_archive_root footer)
    /\ authenticator {| sq_root_auth_spec_id := ROOT_AUTH_SPEC_ID_V45;
                        sq_archive_uuid := rb_archive_uuid input;
                        sq_session_id := rb_session_id input;
                        sq_archive_root := ra_archive_root footer |}
       = Ok (ra_authenticator_value footer)
    /\ ra_total_data_block_count footer = Z.of_nat (length (rb_data_leaf_hashes input))
    /\ forall hashes, NoDup (map fst hashes) -> hashes ≡ₚ rb_data_leaf_hashes input ->
         build_root_auth_footer_from_leaf_hashes config authenticator (with_hashes input hashes) = Ok b.
Proof.
  intros Hc Hi H. apply build_root_auth_footer_inv in H as Hb.
  destruct Hb as (parsed & len & desc & signer & pre & cmd & idx & fec & mer & root & value & Hb).
  exists (built_footer (config := config) (input := input) (b := b) (cmd := cmd) (idx := idx)
            (fec := fec) (mer := mer) (signer := signer) (root := root) (value := value)), parsed.
  split_and!.
  - by eapply built_footer_parses.
  - apply Hb.
  - by eapply built_footer_public_root.
  - apply Hb.
  - unfold built_footer, sorted_hashes. cbn. rewrite length_map. by rewrite length_sort_by_key.
  - intros hashes Hn Hp. rewrite <- H. unfold build_root_auth_footer_from_leaf_hashes, with_hashes.
    cbn [rb_data_leaf_hashes]. by rewrite (permuted_hashes hashes (rb_data_leaf_hashes input)).
Qed.
End Agreement.

(** ** What an archive root stands for

    The five things hashed into an archive root, and the strings that are hashed
    on the way. *)
Record Commitment : Type := {
  co_root : ArchiveRootInputs;
  co_metadata : CriticalMetadataDigestInputs;
  co_index : bytes;
  co_rows : list FecLayoutObjectRow;
  co_leaves : list DataBlockMerkleLeaf
}.

Section Commitments.
Context {Sha : Sha256}.

Record committed (c : Commitment) (root : bytes) : Prop := {
  cd_root : archive_root_for_revision (co_root c) = Ok root;
  cd_metadata : critical_metadata_digest (co_metadata c)
    = Ok (ar_critical_metadata_digest (co_root c));
  cd_index : index_digest_for_revision FORMAT_VERSION VOLUME_FORMAT_REV_45 (co_index c)
    = Ok (ar_index_digest (co_root c));
  cd_rows : fec_layout_digest_for_revision FORMAT_VERSION VOLUME_FORMAT_REV_45 (co_rows c)
    = Ok (ar_fec_layout_digest (co_root c));
  cd_leaves : data_block_merkle_root_for_revision FORMAT_VERSION VOLUME_FORMAT_REV_45 (co_leaves c)
    = Ok (ar_data_block_merkle_root (co_root c))
}.

Definition Commitment_typed (c : Commitment) : Prop :=
  ArchiveRootInputs_typed (co_root c) /\ CriticalMetadataDigestInputs_typed (co_metadata c)
  /\ Forall fec_row_typed (co_rows c) /\ Forall leaf_typed (co_leaves c).

Definition index_string (index_root_plaintext : bytes) : bytes :=
  INDEX_ROOT_DOMAIN_V45 ++ index_root_plaintext.

Definition commitment_strings (c : Commitment) : list bytes :=
  archive_root_string revision_45_params (co_root c) :: index_string (co_index c)
  :: fec_layout_string revision_45_params (Z.of_nat (length (co_rows c))) (co_rows c)
  :: critical_metadata_strings (co_metadata c)
  ++ merkle_strings revision_45_params (co_leaves c).

Lemma fec_layout_digest_eq rows d :
  fec_layout_digest_for_revision FORMAT_VERSION VOLUME_FORMAT_REV_45 rows = Ok d ->
  u32 (Z.of_nat (length rows))
  /\ d = sha256 (fec_layout_string revision_45_params (Z.of_nat (length rows)) rows).
Proof.
  unfold fec_layout_digest_for_revision. intros H. bind_inv H. subst d.
  apply root_auth_revision_params_Ok in Hr as (_ & _ & ->).
  by apply ok_or_Ok, try_from_Some in Hr0 as [-> ?].
Qed.

Lemma rows_binding rows rows' d :
  Forall fec_row_typed rows -> Forall fec_row_typed rows' ->
  no_collision [fec_layout_string revision_45_params (Z.of_nat (length rows)) rows;
                fec_layout_string revision_45_params (Z.of_nat (length rows')) rows'] ->
  fec_layout_digest_for_revision FORMAT_VERSION VOLUME_FORMAT_REV_45 rows = Ok d ->
  fec_layout_digest_for_revision FORMAT_VERSION VOLUME_FORMAT_REV_45 rows' = Ok d ->
  rows = rows'.
Proof.
  intros HT HT' Hc Hd Hd'. apply fec_layout_digest_eq in Hd as [Hu ->].
  apply fec_layout_digest_eq in Hd' as [Hu' He].
  destruct (fec_layout_digest_commits rows rows') as (d & d' & H & H' & Hiff); [done..|].
  apply Hiff. unfold fec_layout_digest in H, H'.
  change VOLUME_FORMAT_REV with VOLUME_FORMAT_REV_45 in H, H'.
  apply fec_layout_digest_eq in H as [_ ->], H' as [_ ->]. done.
Qed.

Lemma merkle_root_eq leaves d :
  data_block_merkle_root_for_revision FORMAT_VERSION VOLUME_FORMAT_REV_45 leaves = Ok d ->
  d = match merkle_tree leaves with
      | Some t => tree_hash revision_45_params t
      | None => empty_data_block_merkle_root revision_45_params
      end.
Proof.
  unfold data_block_merkle_root_for_revision.
  rewrite (proj2 (root_auth_revision_params_Ok _ _ revision_45_params)) by done. rewrite bind_ret.
  destruct (merkle_root_tree revision_45_params leaves) as [-> _]. by intros [= <-].
Qed.

(** One root, one commitment. *)
Lemma commitment_binding c c' root :
  Commitment_typed c -> Commitment_typed c' ->
  no_collision (commitment_strings c ++ commitment_strings c') ->
  committed c root -> committed c' root -> c = c'.
Proof.
  intros (HTr & HTm & HTf & HTl) (HTr' & HTm' & HTf' & HTl') Hc [Hr Hm Hi Hf Hl] [Hr' Hm' Hi' Hf' Hl'].
  assert (forall x y, x ∈ commitment_strings c -> y ∈ commitment_strings c' ->
            sha256 x = sha256 y -> x = y) as Hxy.
  { intros x y Hx Hy. apply Hc; apply elem_of_app; auto. }
  assert (co_root c = co_root c') as Hroot.
  { apply (archive_root_string_inj revision_45_params); [done..|].
    apply Hxy; [by left..|]. unfold archive_root_for_revision in Hr, Hr'. bind_inv Hr. bind_inv Hr'.
    apply root_auth_revision_params_Ok in Hr0 as (_ & _ & ->), Hr1 as (_ & _ & ->). congruence. }
  rewrite <- Hroot in Hm', Hi', Hf', Hl'.
  assert (co_metadata c = co_metadata c') as Hmeta.
  { eapply critical_metadata_digest_commits; [done..| |done|done].
    eapply no_collision_mono; [|exact Hc]. intros x. unfold commitment_strings. set_solver. }
  assert (co_index c = co_index c') as Hindex.
  { apply (app_inv_head INDEX_ROOT_DOMAIN_V45), (Hxy (index_string _) (index_string _)).
    - unfold commitment_strings. set_solver.
    - unfold commitment_strings. set_solver.
    - unfold index_digest_for_revision in Hi, Hi'. bind_inv Hi. bind_inv Hi'.
      apply root_auth_revision_params_Ok in Hr0 as (_ & _ & ->), Hr1 as (_ & _ & ->).
      unfold index_string. cbn in *. congruence. }
  assert (co_rows c = co_rows c') as Hrows.
  { eapply rows_binding; [done..| |done|done].
    eapply no_collision_mono; [|exact Hc]. intros x. unfold commitment_strings. set_solver. }
  assert (co_leaves c = co_leaves c') as Hleaves.
  { apply merkle_binding with (params := revision_45_params); [done..| |].
    - eapply no_collision_mono; [|exact Hc]. intros x. unfold commitment_strings. set_solver.
    - apply merkle_root_eq in Hl, Hl'. congruence. }
  destruct c, c'. cbn in *. congruence.
Qed.
End Commitments.

Section Writer.
Context {C : Crc32c} {Sha : Sha256} {Lib : CryptoLib}.

(** The data blocks of a log of records, in the order of their indices. *)
Definition log_leaves (log : list BlockRecord) : list DataBlockMerkleLeaf :=
  sort_by_key ml_block_index
    (map leaf_of (List.filter (fun r => BlockKind_is_data (br_kind r)) log)).

Definition hashed_leaf (l : DataBlockMerkleLeaf) : Z * bytes :=
  (ml_block_index l, data_block_merkle_leaf_hash_with_params revision_45_params l).

Lemma merkle_root_of_hashes leaves :
  data_block_merkle_root_for_revision FORMAT_VERSION VOLUME_FORMAT_REV_45 leaves
  = data_block_merkle_root_from_leaf_hashes_for_revision FORMAT_VERSION VOLUME_FORMAT_REV_45
      (map (data_block_merkle_leaf_hash_with_params revision_45_params) leaves).
Proof.
  unfold data_block_merkle_root_for_revision,
    data_block_merkle_root_from_leaf_hashes_for_revision.
  rewrite (proj2 (root_auth_revision_params_Ok _ _ revision_45_params)) by done. rewrite !bind_ret.
  by destruct leaves.
Qed.

Lemma snd_hashed leaves :
  map snd (map hashed_leaf leaves)
  = map (data_block_merkle_leaf_hash_with_params revision_45_params) leaves.
Proof. by rewrite map_map. Qed.

Lemma sort_hashed leaves :
  sort_by_key fst (map hashed_leaf leaves) = map hashed_leaf (sort_by_key ml_block_index leaves).
Proof. by apply sort_by_key_map. Qed.

Lemma sorted_hashes_of_log input log :
  rb_data_leaf_hashes input = leaf_hashes revision_45_params log ->
  sorted_hashes input
  = map (data_block_merkle_leaf_hash_with_params revision_45_params) (log_leaves log).
Proof.
  intros H. unfold sorted_hashes, log_leaves. rewrite H, <- snd_hashed, <- sort_hashed.
  unfold leaf_hashes. by rewrite map_map.
Qed.

Lemma root_auth_descriptor_digest_blen f r a ty s v l d :
  root_auth_descriptor_digest_for_revision f r a ty s v l = Ok d -> blen d = 32.
Proof.
  unfold root_auth_descriptor_digest_for_revision. intros H. bind_inv H. subst d. apply sha256_blen.
Qed.

(** What a footer of the writer commits to. *)
Definition writer_commitment (input : RootAuthFooterBuildInput) (parsed : CryptoHeader)
    (desc signer pre cmd idx fec mer : bytes) (log : list BlockRecord) : Commitment := {|
  co_root := writer_root_inputs input (ch_fixed parsed) cmd idx fec
    (Z.of_nat (length (sorted_hashes input))) mer desc signer;
  co_metadata := writer_critical_inputs input parsed pre (blen (rb_index_root_plaintext input)) desc;
  co_index := rb_index_root_plaintext input;
  co_rows := input_rows input;
  co_leaves := log_leaves log |}.

(** The Rust types of the parts. *)
Definition writer_input_typed (input : RootAuthFooterBuildInput) (log : list BlockRecord) : Prop :=
  u32 (wo_stripe_width (rb_options input)) /\ Forall fec_row_typed (input_rows input)
  /\ Forall (fun r => u64 (br_block_index r) /\ u8 (br_flags r)) log.

Lemma log_leaves_typed log :
  Forall (fun r => u64 (br_block_index r) /\ u8 (br_flags r)) log -> Forall leaf_typed (log_leaves log).
Proof.
  intros H. unfold log_leaves. rewrite sort_by_key_perm. apply Forall_map, Forall_forall.
  intros r Hr. apply list_filter_elem in Hr as [Hr _]. by apply (proj1 (Forall_forall _ _) H r).
Qed.

Lemma writer_commits config authenticator input b parsed len desc signer pre cmd idx fec mer root value log :
  RootAuthFooterBuildInput_typed input -> writer_input_typed input log ->
  rb_data_leaf_hashes input = leaf_hashes revision_45_params log ->
  footer_built config authenticator input b parsed len desc signer pre cmd idx fec mer root value ->
  let c := writer_commitment input parsed desc signer pre cmd idx fec mer log in
  committed c root /\ Commitment_typed c.
Proof.
  intros (Hu & Hs & Hh) (Hst & Hrows & Hlog) Hl H c.
  pose proof (fb_root _ _ _ _ _ _ _ _ _ _ _ _ _ _ _ H) as Hroot.
  apply archive_root_revision in Hroot as Hrev. destruct Hrev as [_ Hrev]. cbn in Hrev.
  destruct H. rewrite Hrev in *. split.
  - constructor; try done. cbn [co_leaves co_root c writer_commitment writer_root_inputs
      ar_data_block_merkle_root]. by rewrite merkle_root_of_hashes, <- (sorted_hashes_of_log input log).
  - apply expected_data_blocks_range in fb_count as Hn; [|by unfold fits].
    apply CryptoHeader_parse_iff in fb_crypto as ((HV & _) & _).
    destruct HV as [HT _]. unfold CryptoHeaderFixed_typed in HT. destruct_and!.
    pose proof (Forall_inv Hrows) as Hfirst. cbn in Hfirst. unfold fec_row_typed in Hfirst.
    cbn in Hfirst. destruct_and!.
    apply root_auth_descriptor_digest_blen in fb_descriptor as Hd.
    unfold Commitment_typed, c, writer_commitment. cbn [co_root co_metadata co_rows co_leaves].
    split_and!; [| |done|by apply log_leaves_typed].
    + unfold ArchiveRootInputs_typed. cbn. rewrite Hrev. split_and!; try done;
        [by eapply critical_metadata_digest_blen|by eapply index_digest_blen
        |by eapply fec_layout_digest_blen|unfold fits; lia
        |eapply merkle_root_blen; [|done]; by apply sorted_hashes_blen
        |by eapply signer_identity_digest_blen].
    + unfold CriticalMetadataDigestInputs_typed. cbn. rewrite Hrev. split_and!; done.
Qed.
End Writer.

Section Reader.
Context {C : Crc32c} {Sha : Sha256} {Lib : CryptoLib} {T : Target} {Zs : ZstdLib} {U : Unicode}.
Context {R : Type} {RA : ArchiveReadAt R} (self : OpenedArchive R).

(** The Rust types of what the reader parsed when it opened the archive. *)
Definition reader_typed : Prop :=
  VolumeHeader_typed (oa_volume_header self) /\ CryptoHeaderFixed_typed (oa_crypto_header self)
  /\ ManifestFooter_typed (oa_manifest_footer self)
  /\ IndexRootHeader_typed (ir_header (oa_index_root self))
  /\ Forall ShardEntry_typed (ir_shards (oa_index_root self))
  /\ Forall DirectoryHintShardEntry_typed (ir_directory_hint_shards (oa_index_root self)).

Lemma loaded_envelopes_typed shards :
  load_all_index_shards self = Ok shards ->
  Forall EnvelopeEntry_typed (concat (map sh_envelopes shards)).
Proof.
  intros H. apply parallel_map_ref_Ok in H. apply Forall_concat, Forall_map, Forall_forall.
  intros s Hs. apply list_elem_of_lookup in Hs as [i Hi].
  destruct (Forall2_lookup_r _ _ _ _ _ H Hi) as (entry & _ & Hl).
  unfold load_index_shard in Hl. bind_inv Hl. apply IndexShard_parse_sound in Hl as [Hv _]. apply Hv.
Qed.

Lemma reader_rows_typed shards rows :
  reader_typed -> load_all_index_shards self = Ok shards ->
  root_auth_fec_layout_rows self shards = Ok rows -> Forall fec_row_typed rows.
Proof.
  intros (_ & _ & HM & HI & HS & HD) Hs H. apply loaded_envelopes_typed in Hs.
  unfold root_auth_fec_layout_rows in H. bind_inv H. subst rows. unfold merge_envelopes in Hr.
  apply merge_rows_Ok in Hr as (_ & Hin); [|apply keyed_empty].
  unfold ManifestFooter_typed, IndexRootHeader_typed in *. destruct_and!.
  repeat apply Forall_app_2; [constructor; [|constructor; [|constructor]]| | |].
  - unfold fec_row_typed. cbn. split_and!; first [done|unfold fits; lia].
  - case_match; unfold fec_row_typed; cbn; split_and!; first [done|unfold fits; lia].
  - apply Forall_map. eapply Forall_impl; [exact HS|]. intros e He. unfold ShardEntry_typed in He.
    unfold fec_row_typed. cbn. destruct_and!. split_and!; first [done|unfold fits; lia].
  - apply Forall_map, Forall_forall. intros e He. apply btree_values_elem in He as [k Hk].
    apply Hin in Hk as [Hk|[Hk _]]; [by rewrite lookup_empty in Hk|].
    pose proof (proj1 (Forall_forall _ _) Hs e Hk) as HT.
    unfold EnvelopeEntry_typed in HT. unfold fec_row_typed. cbn. destruct_and!.
    split_and!; first [done|unfold fits; lia].
  - apply Forall_map. eapply Forall_impl; [exact HD|]. intros e He.
    unfold DirectoryHintShardEntry_typed in He. unfold fec_row_typed. cbn. destruct_and!.
    split_and!; first [done|unfold fits; lia].
Qed.

(** The crypto header under its tag. *)
Definition covered_crypto_header : bytes :=
  seg (oa_crypto_header_bytes self) 0 (blen (oa_crypto_header_bytes self) - CRYPTO_HEADER_HMAC_LEN).

Definition reader_commitment (m : RootAuthMaterial) (pre desc : bytes)
    (rows : list FecLayoutObjectRow) (leaves : list DataBlockMerkleLeaf) : Commitment := {|
  co_root := reader_root_inputs self (rm_critical_metadata_digest m) (rm_index_digest m)
    (rm_fec_layout_digest m) (Z.of_nat (length leaves)) (rm_data_block_merkle_root m) desc
    (rm_signer_identity_digest m);
  co_metadata := reader_critical_inputs self covered_crypto_header pre desc;
  co_index := IndexRoot_to_bytes (oa_index_root self);
  co_rows := rows;
  co_leaves := leaves |}.

(** The steps of a successful recomputation. *)
Record material_built (footer : RootAuthFooterV1) (m : RootAuthMaterial) (pre desc : bytes)
    (shards : list IndexShard) (rows : list FecLayoutObjectRow) (leaves : list DataBlockMerkleLeaf)
    : Prop := {
  mb_shards : load_all_index_shards self = Ok shards;
  mb_rows : root_auth_fec_layout_rows self shards = Ok rows;
  mb_leaves : root_auth_data_block_leaves self rows = Ok leaves;
  mb_manifest : reader_manifest_footer_global_pre_hmac_bytes (oa_manifest_footer self) = Ok pre;
  mb_descriptor : blen desc = 32;
  mb_signer : blen (rm_signer_identity_digest m) = 32;
  mb_committed : committed (reader_commitment m pre desc rows leaves) (rm_archive_root m)
}.

Lemma recompute_root_auth_material_inv footer m :
  recompute_root_auth_material self footer = Ok m ->
  exists pre desc shards rows leaves, material_built footer m pre desc shards rows leaves
    /\ rm_total_data_block_count m = Z.of_nat (length leaves).
Proof.
  intros H. unfold recompute_root_auth_material in H. bind_inv H. subst m.
  match goal with H : archive_root_for_revision _ = Ok _ |- _ =>
    apply archive_root_revision in H as Hrev; destruct Hrev as [Hf Hrev] end.
  cbn in Hf, Hrev. rewrite Hf, Hrev in *.
  repeat match goal with
  | H : ok_or (checked_sub _ _) _ = Ok _ |- _ => apply ok_or_Ok, checked_sub_Some in H as [_ ->]
  | H : slice _ _ _ = Ok _ |- _ => apply slice_Ok in H as (_ & _ & _ & ->)
  end.
  exists r5, r3, r10, r11, r13. split; [|done]. split; [exact Hr10|exact Hr11|exact Hr13|exact Hr5|..].
  - by eapply root_auth_descriptor_digest_blen.
  - by eapply signer_identity_digest_blen.
  - split; [exact Hr15|exact Hr8|exact Hr9|exact Hr12|exact Hr14].
Qed.

(** The leaves of typed rows are typed. *)
Lemma row_leaves_typed row kind offset repaired leaves :
  0 <= fl_first_block_index row -> row_leaves row kind offset repaired = Ok leaves ->
  Forall leaf_typed leaves.
Proof.
  intros Hf. revert offset leaves.
  induction repaired as [|p repaired IH]; intros offset leaves; cbn [row_leaves]; [by intros [= <-]|].
  intros H. bind_inv H. subst leaves. unfold ObjectReader.checked_u64_add in Hr. ok_inv.
  constructor; [|by eapply IH].
  unfold leaf_typed, fits. cbn. case_match; lia.
Qed.

Lemma data_block_leaves_typed rows leaves :
  Forall fec_row_typed rows -> root_auth_data_block_leaves self rows = Ok leaves ->
  Forall leaf_typed leaves.
Proof.
  intros HT H. unfold root_auth_data_block_leaves in H. bind_inv H. subst leaves.
  rewrite sort_by_key_perm. apply Forall_concat. apply parallel_map_ref_Ok in Hr.
  apply Forall_forall. intros l Hl. apply list_elem_of_lookup in Hl as [i Hi].
  destruct (Forall2_lookup_r _ _ _ _ _ Hr Hi) as (row & Hrow & Ho).
  apply list_elem_of_lookup_2, list_filter_elem in Hrow as [Hrow _].
  pose proof (proj1 (Forall_forall _ _) HT row Hrow) as (_ & _ & Hf & _).
  unfold object_leaves in Ho. bind_inv Ho. destruct_and?.
  repeat match goal with x : (_ * _)%type |- _ => destruct x end. cbn in *.
  bind_inv Ho. eapply row_leaves_typed; [|done]. unfold fits in Hf. lia.
Qed.

Lemma reader_commits footer m pre desc shards rows leaves :
  reader_typed -> Forall fec_row_typed rows -> u64 (Z.of_nat (length leaves)) ->
  material_built footer m pre desc shards rows leaves ->
  Commitment_typed (reader_commitment m pre desc rows leaves).
Proof.
  intros (HV & HC & HM & _) Hrows Hlen [_ _ Hleaves _ Hd Hs [Hroot Hmeta Hidx Hlay Hmer]].
  apply data_block_leaves_typed in Hleaves as Hlt; [|done].
  rewrite merkle_root_of_hashes in Hmer. apply critical_metadata_digest_blen in Hmeta.
  apply index_digest_blen in Hidx. apply fec_layout_digest_blen in Hlay.
  apply merkle_root_blen in Hmer; [|apply Forall_map, Forall_forall; intros l _; apply sha256_blen].
  clear Hroot. unfold VolumeHeader_typed, CryptoHeaderFixed_typed, ManifestFooter_typed in *.
  destruct_and!. unfold Commitment_typed. split_and!; [| |done|done].
  - unfold ArchiveRootInputs_typed. split_and!; done.
  - unfold CriticalMetadataDigestInputs_typed. split_and!; done.
Qed.
(** What a successful verification has compared. *)
Lemma verify_root_auth_Ok content verifier v :
  verify_root_auth_with_verified_content self content verifier = Ok v ->
  exists footer m, oa_root_auth_footer self = Some footer
    /\ recompute_root_auth_material self footer = Ok m
    /\ rm_archive_root m = ra_archive_root footer
    /\ rm_total_data_block_count m = ra_total_data_block_count footer
    /\ verifier footer (rm_archive_root m) = Ok true
    /\ rv_archive_root v = rm_archive_root m.
Proof.
  intros H. unfold verify_root_auth_with_verified_content in H. bind_inv H.
  match goal with H : ok_or (oa_root_auth_footer self) _ = Ok _ |- _ => apply ok_or_Ok in H end.
  repeat match goal with
  | H : _ || _ = false |- _ => apply orb_false_iff in H as [? ?]
  | H : negb _ = false |- _ => apply negb_false_iff in H
  | H : bytes_eqb _ _ = true |- _ => apply bytes_eqb_eq in H
  | H : (_ =? _) = true |- _ => apply Z.eqb_eq in H
  end. subst. eauto 10.
Qed.

Lemma verified_root content verifier v footer :
  oa_root_auth_footer self = Some footer ->
  verify_root_auth_with_verified_content self content verifier = Ok v ->
  rv_archive_root v = ra_archive_root footer.
Proof.
  intros Hf Hv. apply verify_root_auth_Ok in Hv as (f & m & Hf' & _ & Hr & _ & _ & ->). congruence.
Qed.
End Reader.

(** ** An archive as it was written *)
Section SameArchive.
Context {C : Crc32c} {Sha : Sha256} {Lib : CryptoLib} {T : Target} {Zs : ZstdLib} {U : Unicode}.
Context {R : Type} {RA : ArchiveReadAt R} (self : OpenedArchive R).

(** The reader has opened the archive that the writer's input describes. *)
Record same_archive (input : RootAuthFooterBuildInput) (parsed : CryptoHeader) : Prop := {
  sa_format : vh_format_version (oa_volume_header self) = FORMAT_VERSION;
  sa_revision : vh_volume_format_rev (oa_volume_header self) = rb_volume_format_rev input;
  sa_uuid : vh_archive_uuid (oa_volume_header self) = rb_archive_uuid input;
  sa_session : vh_session_id (oa_volume_header self) = rb_session_id input;
  sa_header_bytes : oa_crypto_header_bytes self = rb_crypto_header input;
  sa_header : oa_crypto_header self = ch_fixed parsed;
  sa_stripe : ch_stripe_width (ch_fixed parsed) = wo_stripe_width (rb_options input);
  sa_volumes : mf_total_volumes (oa_manifest_footer self) = wo_stripe_width (rb_options input);
  sa_manifest : reader_manifest_footer_global_pre_hmac_bytes (oa_manifest_footer self)
    = manifest_footer_global_pre_hmac_bytes (rb_volume_zero_manifest input);
  sa_root_row : manifest_row (oa_manifest_footer self)
    = extent_row 1 0 (rb_index_root_extent input) (blen (rb_index_root_plaintext input));
  sa_index : IndexRoot_to_bytes (oa_index_root self) = rb_index_root_plaintext input
}.

Lemma parsed_covered_bytes b parsed :
  CryptoHeader_parse b (blen b) = Ok parsed ->
  slice (E := FormatError) b 0 (blen b - CRYPTO_HEADER_HMAC_LEN) = Ok (ch_hmac_covered_bytes parsed)
  /\ checked_sub (blen b) CRYPTO_HEADER_HMAC_LEN = Some (blen b - CRYPTO_HEADER_HMAC_LEN).
Proof.
  intros H. apply CryptoHeader_parse_iff in H as ((_ & _ & _ & _ & Hh & Hc) & Hb & _).
  pose proof (blen_nonneg (covered_bytes parsed)). unfold CRYPTO_HEADER_HMAC_LEN.
  assert (blen b = blen (covered_bytes parsed) + 32) as Hlen by (rewrite Hb, blen_app; lia).
  split; [|apply checked_sub_Some; lia].
  apply slice_Ok. split_and!; [lia..|]. rewrite Hc, Hlen.
  replace (blen (covered_bytes parsed) + 32 - 32) with (blen (covered_bytes parsed)) by lia.
  rewrite Hb, seg_app_l by lia. symmetry. apply seg_full.
Qed.

Lemma same_critical_inputs input parsed pre desc :
  same_archive input parsed ->
  reader_critical_inputs self (ch_hmac_covered_bytes parsed) pre desc
  = writer_critical_inputs input parsed pre (blen (rb_index_root_plaintext input)) desc.
Proof.
  intros []. injection sa_root_row0 as H1 H2 H3 H4 H5.
  unfold reader_critical_inputs, writer_critical_inputs. cbv zeta.
  by rewrite sa_format0, sa_revision0, sa_uuid0, sa_session0, sa_header0, sa_stripe0, sa_volumes0,
    H1, H2, H3, H4, H5.
Qed.

Lemma same_root_inputs input parsed cmd idx fec n mer desc signer :
  same_archive input parsed ->
  reader_root_inputs self cmd idx fec n mer desc signer
  = writer_root_inputs input (ch_fixed parsed) cmd idx fec n mer desc signer.
Proof.
  intros []. unfold reader_root_inputs, writer_root_inputs. cbv zeta.
  by rewrite sa_format0, sa_revision0, sa_uuid0, sa_session0, sa_header0.
Qed.

(** The blocks of the objects, in any order, hash to what the writer collected. *)
Lemma loaded_leaves rows chunks hashes :
  Forall2 (fun row leaves => object_leaves self row = Ok leaves) (List.filter fl_present rows) chunks ->
  NoDup (map fst hashes) -> map hashed_leaf (concat chunks) ≡ₚ hashes ->
  exists leaves, root_auth_data_block_leaves self rows = Ok leaves
    /\ map hashed_leaf leaves = sort_by_key fst hashes.
Proof.
  intros Hc Hn Hp. exists (sort_by_key ml_block_index (concat chunks)). split.
  - unfold root_auth_data_block_leaves. by rewrite (proj2 (parallel_map_ref_Ok _ _ _ _) Hc).
  - rewrite <- sort_hashed. symmetry. by apply permuted_hashes.
Qed.

(** The reader recomputes every digest of the footer. *)
Lemma recomputed_material config authenticator input b parsed len desc signer pre cmd idx fec mer
    root value shards leaves :
  RootAuthWriterConfig_typed config ->
  footer_built config authenticator input b parsed len desc signer pre cmd idx fec mer root value ->
  same_archive input parsed -> load_all_index_shards self = Ok shards ->
  root_auth_fec_layout_rows self shards = Ok (input_rows input) ->
  root_auth_data_block_leaves self (input_rows input) = Ok leaves ->
  sorted_hashes input = map (data_block_merkle_leaf_hash_with_params revision_45_params) leaves ->
  recompute_root_auth_material self
    (built_footer (config := config) (input := input) (b := b) (cmd := cmd) (idx := idx)
       (fec := fec) (mer := mer) (signer := signer) (root := root) (value := value))
  = Ok {| rm_critical_metadata_digest := cmd; rm_index_digest := idx; rm_fec_layout_digest := fec;
          rm_data_block_merkle_root := mer; rm_signer_identity_digest := signer;
          rm_archive_root := root; rm_total_data_block_count := Z.of_nat (length leaves) |}.
Proof.
  intros Hc Hb Hsame Hshards Hrows Hleaves Hsh. destruct (built_footer_length Hc Hb) as [Hlen Hval].
  pose proof (archive_root_revision _ _ (fb_root _ _ _ _ _ _ _ _ _ _ _ _ _ _ _ Hb)) as [_ Hrev].
  change (rb_volume_format_rev input = VOLUME_FORMAT_REV_45) in Hrev.
  destruct (parsed_covered_bytes _ _ (fb_crypto _ _ _ _ _ _ _ _ _ _ _ _ _ _ _ Hb)) as [Hslice Hsub].
  pose proof (same_critical_inputs input parsed pre desc Hsame) as Hcrit.
  pose proof (fun n => same_root_inputs input parsed cmd idx fec n mer desc signer Hsame) as Hri.
  destruct Hsame, Hb. rewrite Hrev in *. rewrite Hsh, length_map in *.
  unfold recompute_root_auth_material. rewrite Hlen, sa_format0, sa_revision0, sa_header_bytes0.
  cbn [built_footer with_footer_crc writer_footer ra_format_version ra_volume_format_rev
    ra_authenticator_id ra_signer_identity_type ra_signer_identity_bytes ra_authenticator_value].
  rewrite Hrev, !Z.eqb_refl. cbn [negb reject_if]. rewrite !bind_ret, Hval. cbn [ok_or].
  rewrite !bind_ret, fb_descriptor, bind_ret, fb_signer, bind_ret, sa_manifest0, fb_manifest, bind_ret, Hsub.
  cbn [ok_or]. rewrite bind_ret, Hslice, bind_ret, Hcrit, fb_metadata, bind_ret, sa_index0, fb_index.
  rewrite bind_ret, Hshards, bind_ret, Hrows, bind_ret, fb_layout, bind_ret, Hleaves, bind_ret.
  by rewrite merkle_root_of_hashes, fb_merkle, bind_ret, Hri, fb_root, bind_ret.
Qed.
End SameArchive.

(** ** The leaves of one object *)
Section ObjectLeaves.
Context {C : Crc32c} {Sha : Sha256} {Lib : CryptoLib} {T : Target}.

Lemma row_leaves_framed row kind first offset data n :
  fl_first_block_index row = first -> fl_data_block_count row = n ->
  first + Z.of_nat offset + Z.of_nat (length data) < 2 ^ 64 ->
  row_leaves row kind offset data
  = Ok (map leaf_of (framed kind (last_data_flags n) first offset data)).
Proof.
  intros Hf Hn. revert offset. induction data as [|p data IH]; intros offset Hfit; [done|].
  cbn [row_leaves]. cbn [length] in Hfit. unfold ObjectReader.checked_u64_add.
  rewrite Hf, checked_add_eq by lia. cbn [ok_or]. rewrite bind_ret, IH by lia. rewrite bind_ret.
  rewrite framed_cons, Hn. done.
Qed.

Lemma data_records_of_object payload context o first object data parity :
  BlockKind_is_data (oc_data_kind context) = true -> BlockKind_is_data (oc_parity_kind context) = false ->
  object_of payload context o first object data parity ->
  List.filter (fun r => BlockKind_is_data (br_kind r)) (eo_records object)
  = framed (oc_data_kind context) (last_data_flags (Z.of_nat (length data))) first 0 data.
Proof.
  intros Hd Hp H. rewrite (ob_records _ _ _ _ _ _ _ H), List.filter_app.
  assert (forall kind flags f i shards, List.filter (fun r => BlockKind_is_data (br_kind r))
            (framed kind flags f i shards) = if BlockKind_is_data kind then framed kind flags f i shards else [])
    as Hfil.
  { intros kind flags f i shards. revert i. induction shards as [|p shards IH]; intros i.
    - by case_match.
    - rewrite framed_cons. cbn [List.filter br_kind]. rewrite IH. by case_match. }
  by rewrite !Hfil, Hd, Hp, app_nil_r.
Qed.
End ObjectLeaves.

(** ** Theorems *)
Section Theorems.
Context {C : Crc32c} {Sha : Sha256} {Lib : CryptoLib} {T : Target} {Zs : ZstdLib} {U : Unicode}.


(** C4: The signed archive verifies.  Let a writer build a footer over its input, and
    let a reader have opened an archive with the same headers, manifest and index,
    whose object layout is the writer's and whose objects, each repaired from what
    is left of it, hash to the leaves the writer collected, in whatever order.
    Then the full verification succeeds, hands the verifier the root that was
    signed, and reports it with the writer's identity and block count. *)
Theorem signed_archive_verifies {R} {RA : ArchiveReadAt R} (self : OpenedArchive R)
    config authenticator input b footer parsed shards chunks content verifier :
  RootAuthWriterConfig_typed config -> RootAuthFooterBuildInput_typed input ->
  build_root_auth_footer_from_leaf_hashes config authenticator input = Ok b ->
  RootAuthFooterV1_parse b = Ok footer -> oa_root_auth_footer self = Some footer ->
  CryptoHeader_parse (rb_crypto_header input) (blen (rb_crypto_header input)) = Ok parsed ->
  same_archive self input parsed ->
  load_all_index_shards self = Ok shards ->
  root_auth_fec_layout_rows self shards = Ok (input_rows input) ->
  Forall2 (fun row leaves => object_leaves self row = Ok leaves)
    (List.filter fl_present (input_rows input)) chunks ->
  NoDup (map fst (rb_data_leaf_hashes input)) ->
  map hashed_leaf (concat chunks) ≡ₚ rb_data_leaf_hashes input ->
  cv_of_this_archive content = true -> cv_mode content = Full ->
  verifier footer (ra_archive_root footer) = Ok true ->
  verify_root_auth_with_verified_content self content verifier
  = Ok {| rv_format_version := FORMAT_VERSION;
          rv_volume_format_rev := VOLUME_FORMAT_REV_45;
          rv_archive_root := ra_archive_root footer;
          rv_authenticator_id := rc_authenticator_id config;
          rv_signer_identity_type := rc_signer_identity_type config;
          rv_signer_identity_bytes := rc_signer_identity config;
          rv_total_data_block_count := Z.of_nat (length (rb_data_leaf_hashes input));
          rv_diagnostics := root_auth_success_diagnostics self |}.
Proof.
  intros Hc Hi Hb Hp Hfoot Hcrypto Hsame Hshards Hrows Hchunks Hn Hperm Hcv Hmode Hver.
  apply build_root_auth_footer_inv in Hb
    as (parsed' & len & desc & signer & pre & cmd & idx & fec & mer & root & value & Hb).
  pose proof (built_footer_parses Hc Hi Hb) as Hp'. rewrite Hp in Hp'. injection Hp' as Hf.
  pose proof (fb_crypto _ _ _ _ _ _ _ _ _ _ _ _ _ _ _ Hb) as Hc'. rewrite Hcrypto in Hc'.
  injection Hc' as <-.
  destruct (loaded_leaves self _ _ _ Hchunks Hn Hperm) as (leaves & Hleaves & Hhash).
  assert (sorted_hashes input = map (data_block_merkle_leaf_hash_with_params revision_45_params) leaves)
    as Hsh by (unfold sorted_hashes; by rewrite <- Hhash, snd_hashed).
  pose proof (archive_root_revision _ _ (fb_root _ _ _ _ _ _ _ _ _ _ _ _ _ _ _ Hb)) as [_ Hrev].
  change (rb_volume_format_rev input = VOLUME_FORMAT_REV_45) in Hrev.
  pose proof (recomputed_material self _ _ _ _ _ _ _ _ _ _ _ _ _ _ _ _ _ Hc Hb Hsame Hshards Hrows
    Hleaves Hsh) as Hm.
  assert (length leaves = length (rb_data_leaf_hashes input)) as Hcount.
  { rewrite <- (length_map hashed_leaf), Hhash. apply length_sort_by_key. }
  unfold verify_root_auth_with_verified_content. rewrite Hcv, Hmode, Hfoot. cbn [negb reject_if ok_or].
  rewrite !bind_ret. rewrite Hf in Hver |- *. rewrite Hm, bind_ret.
  assert (forall x, bytes_eqb x x = true) as Hrefl by (intros x; by apply bytes_eqb_eq).
  cbn [rm_critical_metadata_digest rm_index_digest rm_fec_layout_digest rm_data_block_merkle_root
    rm_signer_identity_digest rm_archive_root rm_total_data_block_count built_footer with_footer_crc
    writer_footer ra_critical_metadata_digest ra_index_digest ra_fec_layout_digest
    ra_data_block_merkle_root ra_signer_identity_digest ra_archive_root ra_total_data_block_count
    ra_format_version ra_volume_format_rev ra_authenticator_id ra_signer_identity_type
    ra_signer_identity_bytes] in Hver |- *.
  rewrite !Hrefl, (proj2 (Z.eqb_eq (Z.of_nat (length leaves)) _)) by (by rewrite Hsh, length_map).
  cbn [negb orb reject_if]. rewrite bind_ret, Hver. cbn [negb reject_if]. rewrite !bind_ret.
  by rewrite Hrev, Hsh, length_map, Hcount.
Qed.

(** Damage does not change what is authenticated.  For an object the writer
    encrypted, if the reader misses no more of its blocks than the options
    tolerate, then the leaves the reader recomputes for the object's row are
    those of the data records as they were written: the same indices, kinds,
    flags and payloads, hence the hashes the writer signed. *)
Theorem object_leaves_survive {R} {RA : ArchiveReadAt R} (self : OpenedArchive R)
    payload context options o len kdf dict first object next V E row :
  WriterOptions_typed options -> plan_writer_options options = Ok o ->
  blen payload + 16 + wo_block_size o < 2 ^ 63 -> 0 <= first ->
  32 <= blen (oc_nonce_seed context) -> u16 (blen (oc_domain context)) ->
  encrypt_object payload context first o = Ok (object, next) ->
  eo_data_block_count object <= READER_MAX_REPAIR_TOTAL_SHARDS ->
  Z.of_nat (length V) <= wo_volume_loss_tolerance o ->
  100 * (Z.of_nat (length E) - 1)
    < (eo_data_block_count object + eo_parity_block_count object) * wo_bit_rot_buffer_pct o ->
  (forall r, r ∈ eo_records object -> received (OpenedArchive_block_provider self) r
     /\ (lost (wo_stripe_width o) V E (br_block_index r) = false ->
         arrived (OpenedArchive_block_provider self) r = true)) ->
  oa_crypto_header self = header_of_options o len kdf dict ->
  fec_object_class_shape self (fl_object_class row)
  = Ok (oc_data_kind context, oc_parity_kind context, oc_data_shard_max context,
        oc_class_parity_shard_max context) ->
  fl_first_block_index row = eo_first_block_index object ->
  fl_data_block_count row = eo_data_block_count object ->
  fl_parity_block_count row = eo_parity_block_count object ->
  fl_encrypted_size row = eo_encrypted_size object ->
  exists leaves,
    object_leaves self row = Ok leaves
    /\ leaves = map leaf_of (List.filter (fun r => BlockKind_is_data (br_kind r)) (eo_records object))
    /\ map hashed_leaf leaves = leaf_hashes revision_45_params (eo_records object).
Proof.
  intros HT Hp Hfit Hf Hseed Hdom Henc Hmax HV HE Hblocks Hh Hshape H1 H2 H3 H4.
  destruct (object_repaired (OpenedArchive_block_provider self) payload context options o len kdf dict
    first object next Always V E) as (data & parity & Hobj & Hload); try done.
  assert (BlockKind_is_data (oc_data_kind context) = true
          /\ BlockKind_is_data (oc_parity_kind context) = false) as [Hdk Hpk].
  { unfold fec_object_class_shape in Hshape. repeat (case_match; try done); injection Hshape as Hd Hpk _ _; by rewrite <- Hd, <- Hpk. }
  eexists. split; [|split; [reflexivity|]].
  - unfold object_leaves. rewrite Hshape, bind_ret, Hh, H1, H2, H3, H4.
    unfold load_repaired_object_data_shards_from_parts, extent_read in *. rewrite Hload, bind_ret.
    rewrite (data_records_of_object payload context o first object data parity) by done.
    pose proof (ob_next _ _ _ _ _ _ _ Hobj). pose proof (ob_data_count _ _ _ _ _ _ _ Hobj).
    pose proof (ob_parity_count _ _ _ _ _ _ _ Hobj). pose proof (ob_first _ _ _ _ _ _ _ Hobj).
    apply row_leaves_framed; [congruence|congruence|lia].
  - unfold leaf_hashes. by rewrite map_map.
Qed.
End Theorems.

(** ** A concrete archive

    One volume with one data block, the index root's, and no file. *)
#[local] Existing Instances toy_Crc32c constant_Sha256 toy_CryptoLib example_target stored_Zstd
  toy_Unicode.

Definition signed_fixed : CryptoHeaderFixed := {|
  ch_length := 116; ch_compression_algo := CompressionAlgo.ZstdFramed; ch_aead_algo := AeadAlgo.None;
  ch_fec_algo := FecAlgo.ReedSolomonGF16; ch_kdf_algo := KdfAlgo.None; ch_chunk_size := 65536;
  ch_envelope_target_size := 65536; ch_block_size := 4096; ch_fec_data_shards := 20;
  ch_fec_parity_shards := 2; ch_index_fec_data_shards := 20; ch_index_fec_parity_shards := 2;
  ch_index_root_fec_data_shards := 20; ch_index_root_fec_parity_shards := 2; ch_stripe_width := 1;
  ch_volume_loss_tolerance := 0; ch_bit_rot_buffer_pct := 0; ch_has_dictionary := 0;
  ch_max_path_length := 4096; ch_expected_volume_size := 0 |}.

Definition signed_header : CryptoHeader :=
  let h := {| ch_fixed := signed_fixed; ch_kdf_params := KdfNone; ch_extensions := [];
              ch_header_hmac := zeros 32; ch_hmac_covered_bytes := [] |} in
  {| ch_fixed := signed_fixed; ch_kdf_params := KdfNone; ch_extensions := [];
     ch_header_hmac := zeros 32; ch_hmac_covered_bytes := covered_bytes h |}.

Definition signed_header_bytes : bytes := covered_bytes signed_header ++ zeros 32.

Definition signed_root : IndexRoot.IndexRoot := {|
  ir_header := {|
    ih_version := 1; ih_shard_count := 0; ih_directory_hint_shard_count := 0; ih_frame_count := 0;
    ih_envelope_count := 0; ih_file_count := 0; ih_payload_block_count := 0;
    ih_tar_total_size := 1024; ih_content_sha256 := zeros 32; ih_shard_table_offset := 0;
    ih_directory_hint_shard_table_offset := 0; ih_dictionary_first_block := 0;
    ih_dictionary_data_block_count := 0; ih_dictionary_parity_block_count := 0;
    ih_dictionary_encrypted_size := 0; ih_dictionary_decompressed_size := 0 |};
  ir_shards := []; ir_directory_hint_shards := [] |}.

Definition signed_manifest : ManifestFooter := {|
  mf_archive_uuid := zeros 16; mf_session_id := zeros 16; mf_volume_index := 0;
  mf_is_authoritative := 1; mf_total_volumes := 1; mf_index_root_first_block := 0;
  mf_index_root_data_block_count := 1; mf_index_root_parity_block_count := 0;
  mf_index_root_encrypted_size := 4096;
  mf_index_root_decompressed_size := blen (IndexRoot_to_bytes signed_root);
  mf_manifest_hmac := zeros 32 |}.

Definition signed_record : BlockRecord := {|
  br_block_index := 0; br_kind := BlockKind.IndexRootData; br_flags := 1;
  br_payload := zeros 4096; br_record_crc32c := 0 |}.

Definition one_volume : WriterOptions := {|
  wo_block_size := 4096; wo_chunk_size := 4096; wo_envelope_target_size := 4096;
  wo_stripe_width := 1; wo_volume_loss_tolerance := 0; wo_bit_rot_buffer_pct := 0;
  wo_zstd_level := 3; wo_jobs := 1; wo_aead_algo := AeadAlgo.AesGcmSiv256;
  wo_fec_data_shards := 1; wo_fec_parity_shards := 0; wo_index_fec_data_shards := 1;
  wo_index_fec_parity_shards := 0; wo_index_root_fec_data_shards := 16;
  wo_index_root_fec_parity_shards := 0; wo_max_path_length := 4096;
  wo_target_volume_size := None; wo_archive_uuid := None; wo_session_id := None;
  wo_closed_at_ns := 0 |}.

Definition signed_input : RootAuthFooterBuildInput := {|
  rb_archive_uuid := zeros 16; rb_session_id := zeros 16; rb_volume_format_rev := 45;
  rb_options := one_volume; rb_crypto_header := signed_header_bytes;
  rb_volume_zero_manifest := ManifestFooter_to_bytes signed_manifest;
  rb_index_root_plaintext := IndexRoot_to_bytes signed_root;
  rb_index_root_extent := {| oe_first_block_index := 0; oe_data_block_count := 1;
                             oe_parity_block_count := 0; oe_encrypted_size := 4096 |};
  rb_dictionary_extent := None; rb_shard_entries := []; rb_payload_objects := [];
  rb_directory_hint_entries := [];
  rb_data_leaf_hashes := leaf_hashes revision_45_params [signed_record] |}.

Definition signing_config : RootAuthWriterConfig := {|
  rc_authenticator_id := 7; rc_signer_identity_type := 1; rc_signer_identity := ascii "me";
  rc_authenticator_value_length := 4 |}.

Definition example_signer (_ : RootAuthSigningRequest) : fresult bytes := Ok (zeros 4).

Definition signed_bytes : bytes :=
  match build_root_auth_footer_from_leaf_hashes signing_config example_signer signed_input with
  | Ok b => b
  | _ => []
  end.

Lemma signed_input_typed :
  RootAuthWriterConfig_typed signing_config /\ RootAuthFooterBuildInput_typed signed_input
  /\ writer_input_typed signed_input [signed_record]
  /\ build_root_auth_footer_from_leaf_hashes signing_config example_signer signed_input
     = Ok signed_bytes.
Proof.
  split_and!.
  - split_and!; by apply fitsb_fits.
  - split_and!; [vm_compute; reflexivity..|]. constructor; [vm_compute; reflexivity|constructor].
  - split_and!; [by apply fitsb_fits| |].
    + assert (input_rows signed_input
        = [extent_row 1 0 (rb_index_root_extent signed_input) (blen (rb_index_root_plaintext signed_input));
           absent_dictionary_row]) as -> by reflexivity.
      apply Forall_cons_2; [|apply Forall_singleton]; split_and!; by apply fitsb_fits.
    + apply Forall_singleton. split; by apply fitsb_fits.
  - vm_compute. reflexivity.
Qed.

Lemma signed_root_is_public_witness :
  exists footer parsed,
    RootAuthFooterV1_parse signed_bytes = Ok footer
    /\ recompute_public_archive_root footer (ch_fixed parsed) = Ok (ra_archive_root footer)
    /\ ra_total_data_block_count footer = 1.
Proof.
  destruct signed_input_typed as (Hc & Hi & _ & Hb).
  destruct (signed_root_is_public signing_config example_signer signed_input signed_bytes Hc Hi Hb)
    as (footer & parsed & Hp & _ & Hroot & _ & Hn & _).
  exists footer, parsed. split; [exact Hp|]. split; [exact Hroot|]. rewrite Hn. vm_compute. reflexivity.
Defined.

Definition signed_footer : RootAuthFooterV1 :=
  built_footer (config := signing_config) (input := signed_input) (b := signed_bytes)
    (cmd := sha256 []) (idx := sha256 []) (fec := sha256 []) (mer := sha256 []) (signer := sha256 [])
    (root := sha256 []) (value := zeros 4).

Definition signed_archive : OpenedArchive bytes := {|
  oa_options := {| ro_max_trailing_garbage_scan := 0; ro_max_verify_tar_size := 0;
                   ro_max_total_extraction_size := 0; ro_jobs := 1 |};
  oa_observed_archive_bytes := 0; oa_observed_volume_count := 1;
  oa_subkeys := Subkeys_unencrypted_placeholder; oa_blocks := {[ 0 := signed_record ]};
  oa_lazy_blocks := None; oa_crypto_header_bytes := signed_header_bytes;
  oa_volume_header := example_reader_volume; oa_crypto_header := signed_fixed;
  oa_manifest_footer := signed_manifest; oa_volume_trailer := None;
  oa_root_auth_footer := Some signed_footer; oa_index_root := signed_root;
  oa_payload_dictionary := None |}.

Definition full_verification : ArchiveContentVerification :=
  {| cv_of_this_archive := true; cv_mode := Full |}.

Lemma signed_archive_same : same_archive signed_archive signed_input signed_header.
Proof. constructor; vm_compute; reflexivity. Qed.

Lemma signed_archive_verifies_witness :
  exists v, verify_root_auth_with_verified_content signed_archive full_verification
              (fun _ _ => Ok true) = Ok v
    /\ rv_authenticator_id v = 7 /\ rv_total_data_block_count v = 1.
Proof.
  destruct signed_input_typed as (Hc & Hi & _ & Hb). eexists. split.
  - apply (signed_archive_verifies signed_archive signing_config example_signer signed_input
      signed_bytes signed_footer signed_header [] [[leaf_of signed_record]]).
    + exact Hc.
    + exact Hi.
    + exact Hb.
    + vm_compute. reflexivity.
    + reflexivity.
    + vm_compute. reflexivity.
    + exact signed_archive_same.
    + vm_compute. reflexivity.
    + vm_compute. reflexivity.
    + constructor; [vm_compute; reflexivity|constructor].
    + repeat constructor. by intros ?%elem_of_nil.
    + reflexivity.
    + reflexivity.
    + reflexivity.
    + reflexivity.
  - split; reflexivity.
Defined.


(** The first of two volumes is lost, with it the object's only data block. *)
Definition damaged_archive (r : BlockRecord) : OpenedArchive bytes := {|
  oa_options := oa_options signed_archive; oa_observed_archive_bytes := 0;
  oa_observed_volume_count := 1; oa_subkeys := Subkeys_unencrypted_placeholder;
  oa_blocks := {[ br_block_index r := r ]}; oa_lazy_blocks := None; oa_crypto_header_bytes := [];
  oa_volume_header := example_reader_volume;
  oa_crypto_header := header_of_options (planned_volumes 1) 114 KdfAlgo.Raw false;
  oa_manifest_footer := signed_manifest; oa_volume_trailer := None; oa_root_auth_footer := None;
  oa_index_root := signed_root; oa_payload_dictionary := None |}.

Lemma two_records (recs : list BlockRecord) :
  map br_block_index recs = [0; 1] ->
  exists r0 r1, recs = [r0; r1] /\ br_block_index r0 = 0 /\ br_block_index r1 = 1.
Proof. destruct recs as [|r0 [|r1 [|]]]; cbn; try discriminate. intros [= ? ?]. eauto. Qed.

Lemma damaged_archive_blocks r0 r1 r :
  br_block_index r0 = 0 -> br_block_index r1 = 1 -> r ∈ [r0; r1] ->
  received (OpenedArchive_block_provider (damaged_archive r1)) r
  /\ (lost 2 [0] [] (br_block_index r) = false ->
      arrived (OpenedArchive_block_provider (damaged_archive r1)) r = true).
Proof.
  intros H0 H1 [->|[->|Hn]%elem_of_cons]%elem_of_cons; [| |by inversion Hn]; unfold received, arrived;
    cbn; unfold OpenedBlockProvider_block; cbn; rewrite ?H0, ?H1.
  - rewrite lookup_singleton_ne by done. split; [by left|]. discriminate.
  - rewrite lookup_singleton_eq. split; [|done]. right. by exists r1.
Qed.

Lemma object_leaves_survive_witness :
  exists object r1 row leaves,
    br_block_index r1 = 1 /\ object_leaves (damaged_archive r1) row = Ok leaves
    /\ leaves = map leaf_of (List.filter (fun r => BlockKind_is_data (br_kind r)) (eo_records object)).
Proof.
  destruct example_encrypts as (object & next & data & parity & Henc & Hobj & Hd & Hpc).
  destruct (example_plan_volumes 1 ltac:(by right)) as (Hp & HT & Hb & Hs & Hv & Hpct).
  pose proof (object_indices _ _ _ _ _ _ _ Hobj) as Hidx. rewrite Hd, Hpc in Hidx.
  destruct (two_records _ Hidx) as (r0 & r1 & Hrecs & H0 & H1).
  exists object, r1, {|
    fl_object_class := 4; fl_present := true; fl_object_id := 0;
    fl_first_block_index := eo_first_block_index object;
    fl_data_block_count := eo_data_block_count object;
    fl_parity_block_count := eo_parity_block_count object;
    fl_encrypted_size := eo_encrypted_size object; fl_plain_size := 5 |}.
  destruct (object_leaves_survive (damaged_archive r1) (zeros 5) example_object_context (two_volumes 1)
    (planned_volumes 1) 114 KdfAlgo.Raw false 0 object next [0] [] {|
    fl_object_class := 4; fl_present := true; fl_object_id := 0;
    fl_first_block_index := eo_first_block_index object;
    fl_data_block_count := eo_data_block_count object;
    fl_parity_block_count := eo_parity_block_count object;
    fl_encrypted_size := eo_encrypted_size object; fl_plain_size := 5 |} HT Hp)
    as (leaves & Hl & Hl' & _).
  - rewrite Hb. vm_compute. reflexivity.
  - lia.
  - vm_compute. discriminate.
  - by apply fitsb_fits.
  - exact Henc.
  - rewrite Hd. vm_compute. discriminate.
  - rewrite Hv. vm_compute. discriminate.
  - rewrite Hd, Hpc, Hpct. reflexivity.
  - intros r Hr. rewrite Hrecs in Hr. rewrite Hs. exact (damaged_archive_blocks r0 r1 r H0 H1 Hr).
  - reflexivity.
  - vm_compute. reflexivity.
  - reflexivity.
  - reflexivity.
  - reflexivity.
  - reflexivity.
  - exists leaves. split; [exact H1|]. split; [exact Hl|exact Hl'].
Defined.
